(* ===== verification/_CoqProject ===== *)
-Q . S2P
Prelude.v
Deque.v
ExtBit.v
Vcpu.v
Sched.v
SchedInv.v
SchedOps.v
SchedThm.v
Mtx.v
RwMtx.v
Sem.v
HandlerTable.v
CBuf.v
Pipe.v
Bytes.v
FSContainer.v
Disk.v
RamDisk.v
DiskCache.v
DiskCacheInv.v
DiskCacheSys.v
DiskCacheCalls.v
DiskCacheThm.v
SfsAllocator.v
SfsFile.v
SfsInode.v
SfsRegularFile.v
SfsDirectory.v
SerenaFSOps.v
InodeCache.v
Lsta.v
QSort.v
Calendar.v
Numbers.v
VtTables.v
VtParse.v
ConsoleFonts.v
TabStops.v
Console.v
ConsoleVideo.v
ConsoleVt.v
ConsoleThm.v
ConsoleText.v
FileHierarchy.v
FileHierInv.v
FilePath.v
FileAttach.v
FileCwd.v
DivMod64.v
Fmt.v
FmtThm.v
Log.v
Stdio.v
MemFile.v
StdioThm.v
ShellLexer.v
ShellParser.v
ShellTokens.v
ShellGrammar.v
ShellThm.v
