(* ===== verification/Prelude.v ===== *)
(** * Serena OS: a verification development

    Serena is an operating system for m68k machines (src/kern is the kernel,
    src/user the C library, the command line programs and the shell).  This
    library models the parts of the kernel that keep data structures consistent
    under concurrency and under errors, and proves what makes them correct.

    ** The program and its models

    - Virtual processors (vcpus) and their scheduler, src/kern/src/sched.
      Vcpu.v has the scheduling parameters and policies of a vcpu; Sched.v the
      scheduler state [kstate] (vcpus, ready queues with their population bitmap,
      wait queues, the deadline queue of the clock) and one function per
      operation of sched.c, waitqueue.c, sched_irq.c, vcpu.c, vcpu_signal.c and
      clock.c.  SchedInv.v and SchedOps.v have the invariant and its
      preservation, SchedThm.v the transition system from boot and the theorems.
    - The locks of the kernel, in the same directory and in the assembly files
      of src/kern/src/hal/hw/m68k: Mtx.v (mutex and condition variable,
      instruction by instruction), RwMtx.v (readers-writer lock, whose calls are
      atomic by Mtx.v) and Sem.v (semaphore).
    - The lists and bit functions that everything is built from,
      src/user/lib/libc/src/ext: Deque.v (pointer code over a heap of nodes,
      refined to lists) and ExtBit.v.  Of the rest of the C library: Lsta.v is
      the heap behind malloc (block headers and trailers in a word memory),
      QSort.v the in-place qsort over an array of elements, Calendar.v the
      Gregorian calendar with localtime_r and mktime.
    - File descriptors, src/kern/src/handler: HandlerTable.v, tables that share
      reference counted handlers.
    - Pipes, src/kern/src/ipc: CBuf.v is the ring buffer, Pipe.v the blocking
      reads and writes of any number of threads.
    - The Serena filesystem, src/kern/src/filesystem/serenafs, on top of block
      containers.  Bytes.v has byte buffers and big-endian fields, FSContainer.v
      the container as a type class with the laws that its clients rely on and
      an instance in memory.  SfsAllocator.v is the block bitmap, SfsFile.v the
      block map of a file, SfsInode.v the inode and its form on disk,
      SfsRegularFile.v and SfsDirectory.v are files and directories, and
      SerenaFSOps.v the operations on the tree: mount, create, link, unlink,
      move and lookup.
    - The hierarchy of attached filesystems, src/kern/src/filemanager:
      FileHierarchy.v has the table of attachments, attach and detach, path
      resolution, the path of a directory, the root and working directories of
      a process, and the permission checks of src/kern/src/security.
      FileHierInv.v has the invariant and the filesystems as a type class,
      FilePath.v, FileAttach.v and FileCwd.v the theorems.
    - The inode cache that all filesystems share, src/kern/src/filesystem/
      Filesystem.c: InodeCache.v, the critical sections of concurrent
      acquisitions and relinquishing calls.
    - Disks, src/kern/src/driver/disk and src/kern/src/diskcache.  Disk.v has
      the request loop that all disk drivers share, RamDisk.v a driver that
      stores its sectors in memory, DiskCache.v and DiskCacheThm.v the cache of
      disk blocks: the critical sections of mapping, unmapping, prefetching and
      syncing calls, between which the disk completes its requests.
    - The console, src/kern/src/console.  VtTables.v and VtParse.v are the
      tables and the loops of the VT500 and VT52 parsers; ConsoleFonts.v has the
      glyphs and character sets, TabStops.v the tab stops, Console.v the screen
      (bit planes, cursor, scrolling, editing, reports) and ConsoleVt.v the
      escape sequences, creation and writing.  ConsoleVideo.v proves which bytes
      of the planes the drawing functions change, ConsoleThm.v that everything
      stays in bounds, ConsoleText.v what text is on the screen.  Numbers.v has
      the conversions between integers and text, which reports use.
    - Formatted output, src/user/lib/libc/src/ext and src/stdio of the C library
      and src/kern/src/kernlib/log.c.  DivMod64.v is the 64-bit division that
      the machine does not have, Fmt.v the formatter behind printf and FmtThm.v
      what it prints; Log.v is the log of the kernel, whose sinks are the ring
      buffer and the console.  Stdio.v has the streams with their buffers,
      MemFile.v memory files, fprintf and snprintf, and StdioThm.v their theorems.
    - The command language of the shell, src/user/cmd/shell.  ShellLexer.v is
      Lexer.c with its modes for scripts and strings, ShellParser.v the syntax
      tree of Script.h and the recursive descent parser of Parser.c.
      ShellTokens.v and ShellGrammar.v say what the language is (docs/Tokens.md and
      docs/Grammar.md, spelled out for characters), without the lexer and the
      parser; ShellThm.v proves that these read it.

    The files keep the names of the source.  A C struct is a record, a pointer
    a key of a finite map or a list position, an enumeration an inductive type.
    A 32-bit integer is a [Z], and the places where the code can wrap around
    write the wrap out ([u8], [u32], [u64], [s8], [s32] below).  An operation
    that can hit a failed assertion, an abort, a NULL pointer or an access
    outside of a buffer returns an option, [None] being that failure; an error
    code is a value of [errno].  Code that runs with preemption disabled or
    under a lock is one function; code that drops its lock is split there, and
    a step relation interleaves the parts.

    ** What the theorems show

    - Invariants and safety: every state that the scheduler reaches from boot is
      consistent and every enabled call succeeds ([SchedThm.reachable_safe]);
      handler reference counts balance; the inode cache has no dangling
      references, no duplicate inodes and correct use counts under every
      interleaving ([InodeCache.inode_cache_safe]); moving directories keeps the
      tree a tree; a mounted volume gives a well-formed allocator; mutexes and
      readers-writer locks exclude and lose no wakeup, semaphores conserve their
      permits; blocks of the heap never overlap, stay in their region and keep
      what their clients store in them ([Lsta.heap_is_safe]); the block cache
      keeps its locks, use counts and chains right under every interleaving;
      whatever is written to a console, the cursor stays on the screen and no
      access leaves a plane, a font or a table, but for the byte sequences that
      [ConsoleThm.faulty] names ([ConsoleThm.console_write_safe]);
      attaching and detaching keep the table of attachments and its tree
      consistent, and asking for a path stays inside of the caller's buffer.
    - Refinement to simple specifications: deques are lists, ring buffers and
      pipes are byte FIFOs, the block bitmap is a set of blocks, directories are
      finite maps from names to inodes, the inode cache is a plain map to which
      the modifications of clients are applied in order, a heap region is a list
      of blocks with first-fit allocation and merging of free neighbours, the
      disk cache with its disk is a store of blocks, a RAM disk an array of
      sectors, and a console is a grid of characters with a cursor: the pixels
      are those of the glyphs ([ConsoleText.console_shows_text]).  Resolving a path
      is a walk over the attached trees ([FileCwd.path_resolution]).  The parser of
      the shell returns the tree that the grammar derives for a text, and the
      grammar derives one at most ([ShellThm.script_parsed]).
    - Composition: printf of the kernel shows its text on the screen, through the
      formatter, the log, the parser of escape sequences and the drawing
      functions ([Log.printf_on_screen]); output through streams reaches the device in
      order, whatever the buffers ([StdioThm.output_in_order]).
    - Round trips: what is written to a file is read back; inodes and the bitmap
      survive the way to the disk and back; policies and descriptors do too;
      the path of a directory leads back to it, mktime inverts localtime_r, strtol reads what itoa prints, and the
      parameters of a control sequence are those that were written.
    - Functional behaviour and equivalence: which vcpu runs next and where the
      outgoing one is queued, which waiters a wakeup or a timeout wakes, which
      descriptor is handed out, which blocks a truncation frees, the bit search
      against a plain scan, qsort gives a sorted permutation, the calendar
      arithmetic counts days as the day-by-day calendar does, the table of the VT500
      parser is the state diagram of the DEC terminals, the multi-word division
      divides, printf prints what the C standard says, and snprintf with it.
    - Liveness and termination: due timeouts wake their vcpus in one interrupt;
      calls that wait for an inode always have a reader, and calls in flight can
      complete; so can the calls that wait for a mutex or for a readers-writer
      lock.
    - Behaviour that departs from the documentation or from what the code means
      to do is shown on concrete runs: lost wakeups of pipes, waits with an
      expired deadline, stale data in files, deleted inodes whose number is
      reused, heap blocks that are never freed, a console that repeats its
      first line when it scrolls down, a division that loses the remainder, padding
      on the wrong side, a log that hangs when its buffer is full, a first read
      in front of a stream's buffer, a string that the parser of the shell never
      leaves, and others.

    ** Bounds and fuel

    Loops over blocks and bytes take the number of bytes or blocks as fuel and
    every round consumes one, the walk to the root directory takes the depth of
    the tree, the loop over due timeouts the length of the queue, the search for
    a heap block the size of the region, qsort the number of elements and the
    removal of old reports the capacity of their queue, printing a format its
    length; each is proved to be enough.  The walk up to the root directory for
    the path of a directory has some bound, by the invariant of the hierarchy.  The loop of the lexer takes the length of
    the text; the parser has no bound on every text, and the theorem says that some
    fuel, and any above it, is enough for a script of the language.  The theorems about consoles are for screens of at most 128 columns,
    since tab stops are 8 bits wide.  Sizes that the source fixes (80 ready queues, 110
    direct blocks, 16 and 4 hash chains, 128 descriptors per page) are those of
    the source.

    ** Not modelled

    Allocation of memory is a parameter, so are the clock, the content of fresh
    disk blocks, the frame buffer that the graphics driver maps and the user's
    buffers.  The operations of the file manager that pass a resolved inode on,
    KernFS, processes and program loading, dispatch
    queues, the input side of the console, drivers other than the disk drivers'
    common part, assembly language (other than the locks and the queueing of the
    context switch), floating point conversion, scanf, wide characters and locales, the
    interpreter and the line editor of the shell and the other programs
    are not modelled yet; drivers and boot code work on hardware registers that
    have no model here. *)

From Stdlib Require Export ZArith Lia Bool.
From stdpp Require Export base list gmap numbers tactics.
Export list_basics.list list_relations.list list_misc.list list_monad.list.

#[global] Open Scope Z_scope.

(** ** Error numbers (kern/h/kpi/_errno.h) *)

Inductive errno : Set :=
| EOK | ENOMEM | ENOMEDIUM | EDISKCHANGE | ETIMEDOUT | ENODEV | ERANGE
| ECANCELED | EAGAIN | EWOULDBLOCK | EPIPE | EBUSY | ENOSYS | EINVAL | EIO
| EPERM | EDEADLK | EDOM | ENOEXEC | ENOENT | ENOTBLK | EBADF | ECHILD
| ESRCH | ESPIPE | ENOTDIR | ENAMETOOLONG | EACCESS | EROFS | ENOSPC | EEXIST
| EOVERFLOW | EFBIG | EISDIR | ENOTIOCTLCMD | EILSEQ | EMLINK | EMFILE
| EXDEV | ETERMINATED | ENOTSUP | ENXIO | ENOFS | ENOVCPU.

#[export] Instance errno_eq_dec : EqDecision errno.
Proof. solve_decision. Defined.

(** [EABORTED] is an alias of [ETERMINATED] in the header. *)
Definition EABORTED : errno := ETERMINATED.

(** [err == EOK] *)
Definition is_ok (e : errno) : bool := match e with EOK => true | _ => false end.

Lemma is_ok_true (e : errno) : is_ok e = true <-> e = EOK.
Proof. destruct e; simpl; split; congruence. Qed.

Lemma is_ok_false (e : errno) : is_ok e = false <-> e <> EOK.
Proof. destruct e; simpl; split; congruence. Qed.

(** ** Partial operations

    An operation that may hit a failed assertion returns an option; these are
    the two equations of its sequencing. *)

Lemma bind_some {A B} {m : option A} {x} (H : m = Some x) (f : A -> option B) : (m ≫= f) = f x.
Proof. by rewrite H. Qed.
Lemma bind_none {A B} {m : option A} (H : m = None) (f : A -> option B) : (m ≫= f) = None.
Proof. by rewrite H. Qed.

(** ** Machine integers

    A w-bit integer of the source is a [Z]; these are the conversions that an
    assignment to a variable of that type performs. *)

Definition u8 (z : Z) : Z := z mod 2 ^ 8.
Definition u32 (z : Z) : Z := z mod 2 ^ 32.
Definition u64 (z : Z) : Z := z mod 2 ^ 64.
Definition s8 (z : Z) : Z := (z + 2 ^ 7) mod 2 ^ 8 - 2 ^ 7.
Definition s32 (z : Z) : Z := (z + 2 ^ 31) mod 2 ^ 32 - 2 ^ 31.

Lemma u8_small z : 0 <= z < 2 ^ 8 -> u8 z = z.
Proof. apply Z.mod_small. Qed.
Lemma u32_small z : 0 <= z < 2 ^ 32 -> u32 z = z.
Proof. apply Z.mod_small. Qed.
Lemma u64_small z : 0 <= z < 2 ^ 64 -> u64 z = z.
Proof. apply Z.mod_small. Qed.
Lemma s8_small z : - 2 ^ 7 <= z < 2 ^ 7 -> s8 z = z.
Proof. intros. unfold s8. rewrite Z.mod_small; lia. Qed.
Lemma s32_small z : - 2 ^ 31 <= z < 2 ^ 31 -> s32 z = z.
Proof. intros. unfold s32. rewrite Z.mod_small; lia. Qed.
Lemma u32_range z : 0 <= u32 z < 2 ^ 32.
Proof. apply Z.mod_pos_bound. lia. Qed.
Lemma s8_range z : - 2 ^ 7 <= s8 z < 2 ^ 7.
Proof. unfold s8. pose proof (Z.mod_pos_bound (z + 2 ^ 7) (2 ^ 8)). lia. Qed.

(** [__min] and [__max] of ext/math.h are [Z.min] and [Z.max] on values. *)

(** ** Arrays

    An array of the source is a list, an index a [Z].  A read out of range has
    no defined value in C; [arr_get] is used only where the caller's invariant
    keeps the index in range, with the default standing for it elsewhere. *)

Definition arr_get {A} (d : A) (l : list A) (i : Z) : A := default d (l !! Z.to_nat i).
Definition arr_set {A} (l : list A) (i : Z) (x : A) : list A := <[Z.to_nat i := x]> l.

Section Arrays.
Context {A : Type}.
Implicit Types (l : list A) (i j : Z) (x d : A).

Lemma length_arr_set l i x : length (arr_set l i x) = length l.
Proof. apply length_insert. Qed.

Lemma arr_get_set_eq d l i x :
  0 <= i < Z.of_nat (length l) -> arr_get d (arr_set l i x) i = x.
Proof. intros. unfold arr_get, arr_set. rewrite list_lookup_insert_eq by lia. done. Qed.

Lemma arr_get_set_ne d l i j x :
  0 <= i -> 0 <= j -> i <> j -> arr_get d (arr_set l i x) j = arr_get d l j.
Proof. intros. unfold arr_get, arr_set. rewrite list_lookup_insert_ne by lia. done. Qed.

Lemma arr_get_lookup d l i x : l !! Z.to_nat i = Some x -> arr_get d l i = x.
Proof. unfold arr_get. by intros ->. Qed.

Lemma arr_get_Some d l i :
  0 <= i < Z.of_nat (length l) -> l !! Z.to_nat i = Some (arr_get d l i).
Proof.
  intros. destruct (lookup_lt_is_Some_2 l (Z.to_nat i)) as [x Hx]; [lia|].
  by rewrite (arr_get_lookup _ _ _ _ Hx).
Qed.
End Arrays.

(** ** Lists *)

Lemma filter_none {A} (P : A -> Prop) `{!forall x, Decision (P x)} (l : list A) :
  (forall x, x ∈ l -> ~ P x) -> filter P l = [].
Proof.
  induction l as [|x l IH]; intros Hno; [done|]. rewrite filter_cons_False by (apply Hno; left).
  apply IH. intros y Hy. apply Hno. by right.
Qed.

(** The numbers below [n], for what is checked on all of them by evaluation. *)
Definition bytes_upto (n : nat) : list Z := Z.of_nat <$> seq 0 n.

Lemma bytes_upto_elem n x : x ∈ bytes_upto n <-> 0 <= x < Z.of_nat n.
Proof.
  unfold bytes_upto. rewrite list_elem_of_fmap. split.
  - intros (k & -> & Hk). apply elem_of_seq in Hk. lia.
  - intros Hx. exists (Z.to_nat x). rewrite elem_of_seq. lia.
Qed.

Lemma bytes_upto_all n (f : Z -> bool) x : forallb f (bytes_upto n) = true -> 0 <= x < Z.of_nat n -> f x = true.
Proof. rewrite forallb_forall. intros Hf Hx. apply Hf. by rewrite <- list_elem_of_In, bytes_upto_elem. Qed.

(** ** Bits of a word *)

Lemma testbit_or_pow2 w k n :
  0 <= k -> 0 <= n ->
  Z.testbit (Z.lor w (Z.shiftl 1 k)) n = (Z.testbit w n || (n =? k)).
Proof.
  intros Hk Hn. rewrite Z.lor_spec, Z.shiftl_spec by lia. f_equal.
  destruct (Z.eqb_spec n k) as [->|Hne]; [by rewrite Z.sub_diag|].
  destruct (decide (n < k)); [by rewrite Z.testbit_neg_r by lia|].
  rewrite Z.bits_above_log2; simpl; lia.
Qed.

Lemma testbit_andnot_pow2 w k n :
  0 <= k -> 0 <= n ->
  Z.testbit (Z.land w (Z.lnot (Z.shiftl 1 k))) n = (Z.testbit w n && negb (n =? k)).
Proof.
  intros Hk Hn. rewrite Z.land_spec, Z.lnot_spec by lia. f_equal. f_equal.
  pose proof (testbit_or_pow2 0 k n Hk Hn) as H.
  by rewrite Z.lor_0_l, Z.bits_0 in H.
Qed.

Lemma land_pow2_testbit w k :
  0 <= k -> (negb (Z.land w (Z.shiftl 1 k) =? 0)) = Z.testbit w k.
Proof.
  intros Hk.
  assert (Hb : forall n, 0 <= n -> Z.testbit (Z.land w (Z.shiftl 1 k)) n = (Z.testbit w n && (n =? k))).
  { intros n Hn. rewrite Z.land_spec. f_equal.
    pose proof (testbit_or_pow2 0 k n Hk Hn) as H. by rewrite Z.lor_0_l, Z.bits_0 in H. }
  destruct (Z.eqb_spec (Z.land w (Z.shiftl 1 k)) 0) as [E|E]; simpl.
  - specialize (Hb k Hk). by rewrite E, Z.bits_0, Z.eqb_refl, andb_true_r in Hb.
  - destruct (Z.testbit w k) eqn:T; [done|]. exfalso. apply E. apply Z.bits_inj'.
    intros n Hn. rewrite Hb, Z.bits_0 by done.
    destruct (Z.eqb_spec n k) as [->|]; [by rewrite T|by rewrite andb_false_r].
Qed.

Lemma u_range_of_bits w n :
  0 <= n -> 0 <= w -> (forall k, n <= k -> Z.testbit w k = false) -> w < 2 ^ n.
Proof.
  intros Hn Hw Hb. destruct (decide (w = 0)) as [->|]; [lia|].
  apply Z.log2_lt_pow2; [lia|].
  destruct (decide (Z.log2 w < n)); [done|].
  pose proof (Z.bit_log2 w) as H. rewrite Hb in H by lia. ospecialize (H _); [lia|done].
Qed.

Lemma bits_above_range w n k : 0 <= n -> 0 <= w < 2 ^ n -> n <= k -> Z.testbit w k = false.
Proof.
  intros Hn Hw Hk. destruct (decide (w = 0)) as [->|]; [apply Z.bits_0|].
  apply Z.bits_above_log2; [lia|]. apply Z.log2_lt_pow2; [lia|].
  pose proof (Z.pow_le_mono_r 2 n k). lia.
Qed.

Lemma lor_pow2_range w k n :
  0 <= k < n -> 0 <= w < 2 ^ n -> 0 <= Z.lor w (Z.shiftl 1 k) < 2 ^ n.
Proof.
  intros Hk Hw. assert (0 <= Z.lor w (Z.shiftl 1 k)) by (apply Z.lor_nonneg; rewrite Z.shiftl_nonneg; lia).
  split; [done|]. apply u_range_of_bits; [lia|done|]. intros j Hj.
  rewrite testbit_or_pow2, (bits_above_range w n) by lia. simpl.
  apply Z.eqb_neq. lia.
Qed.

Lemma land_range w m n : 0 <= n -> 0 <= w < 2 ^ n -> 0 <= Z.land w m < 2 ^ n.
Proof.
  intros Hn Hw. assert (0 <= Z.land w m) by (apply Z.land_nonneg; lia).
  split; [done|]. apply u_range_of_bits; [lia|done|]. intros j Hj.
  rewrite Z.land_spec, (bits_above_range w n) by lia. done.
Qed.

(** ** Notations and automation of the development *)

Declare Scope word_scope.
Delimit Scope word_scope with word.

(** Unsigned 32-bit arithmetic. *)
Notation "x +₃₂ y" := (u32 (x + y)) (at level 50, left associativity) : word_scope.
Notation "x -₃₂ y" := (u32 (x - y)) (at level 50, left associativity) : word_scope.

(** The common facts on machine integers and error codes. *)
Create HintDb serena.
#[export] Hint Resolve u32_range s8_range : serena.
#[export] Hint Rewrite u8_small u32_small u64_small s8_small s32_small using lia : word.

(** Splits on the success of a call and uses the outcome. *)
Ltac case_ok e :=
  let E := fresh "E" in
  destruct (is_ok e) eqn:E; cbn [negb];
  [apply is_ok_true in E; try subst e | apply is_ok_false in E].
