(* ===== verification/Deque.v ===== *)
(** * Doubly linked queues (user/lib/libc/src/ext/deque.c)

    The intrusive queue that the scheduler's ready queues, the wait queues and
    the disk cache's chains are built from.  [Module Deque] translates the
    pointer code over an explicit heap of nodes; the list functions [dq_*] are
    the abstract queue.  The refinement lemmas show that under [dq_repr] the
    pointer code computes the list functions, so the other components work on
    lists. *)

From S2P Require Import Prelude.

(** The abstract queue: a list of node addresses. *)
Section AbstractQueue.
Context {A : Type} `{EqDecision A}.

Definition dq_add_first (x : A) (l : list A) : list A := x :: l.
Definition dq_add_last (x : A) (l : list A) : list A := l ++ [x].
Definition dq_remove (x : A) (l : list A) : list A := filter (fun y => y <> x) l.

Fixpoint dq_insert_after (x a : A) (l : list A) : list A :=
  match l with
  | [] => []
  | y :: l' => if decide (y = a) then y :: x :: l' else y :: dq_insert_after x a l'
  end.

Lemma elem_of_dq_remove (x y : A) l : y ∈ dq_remove x l <-> y ∈ l /\ y <> x.
Proof. unfold dq_remove. rewrite list_elem_of_filter. tauto. Qed.

Lemma dq_remove_not_elem (x : A) l : x ∉ l -> dq_remove x l = l.
Proof.
  unfold dq_remove. induction l as [|y l IH]; [done|]. intros [Hx Hl]%not_elem_of_cons.
  rewrite filter_cons_True by done. by rewrite IH.
Qed.

Lemma dq_remove_app_mid (x : A) l1 l2 :
  x ∉ l1 -> x ∉ l2 -> dq_remove x (l1 ++ x :: l2) = l1 ++ l2.
Proof.
  intros H1 H2. unfold dq_remove. rewrite filter_app, filter_cons_False by tauto.
  fold (dq_remove x l1) (dq_remove x l2). by rewrite !dq_remove_not_elem.
Qed.

Lemma NoDup_dq_remove (x : A) l : NoDup l -> NoDup (dq_remove x l).
Proof. apply NoDup_filter. Qed.

Lemma dq_insert_after_app (x a : A) l1 l2 :
  a ∉ l1 -> dq_insert_after x a (l1 ++ a :: l2) = l1 ++ a :: x :: l2.
Proof.
  induction l1 as [|y l1 IH]; simpl; intros Hn.
  - by rewrite decide_True.
  - apply not_elem_of_cons in Hn as [Hy Hn]. rewrite decide_False by done. by rewrite IH.
Qed.
End AbstractQueue.

Module Deque.

Definition loc : Type := positive.

Record deque_node := Node { prev : option loc; next : option loc }.
Record deque := Dq { first : option loc; last : option loc }.
Abbreviation heap := (gmap loc deque_node).

(** [x->prev = p] and [x->next = p] *)
Definition set_prev (h : heap) (x : loc) (p : option loc) : heap :=
  alter (fun n => Node p (next n)) x h.
Definition set_next (h : heap) (x : loc) (p : option loc) : heap :=
  alter (fun n => Node (prev n) p) x h.

(** [x->prev] and [x->next] *)
Definition get_prev (h : heap) (x : loc) : option loc := h !! x ≫= prev.
Definition get_next (h : heap) (x : loc) : option loc := h !! x ≫= next.

Definition deque_add_first (h : heap) (dq : deque) (node : loc) : heap * deque :=
  let h := set_prev h node None in
  let h := set_next h node (first dq) in
  let h := match first dq with Some f => set_prev h f (Some node) | None => h end in
  let la := match last dq with None => Some node | Some l => Some l end in
  (h, Dq (Some node) la).

Definition deque_add_last (h : heap) (dq : deque) (node : loc) : heap * deque :=
  let h := set_prev h node (last dq) in
  let h := set_next h node None in
  let h := match last dq with Some l => set_next h l (Some node) | None => h end in
  let fi := match first dq with None => Some node | Some f => Some f end in
  (h, Dq fi (Some node)).

Definition deque_insert (h : heap) (dq : deque) (node : loc) (after : option loc) : heap * deque :=
  match after with
  | Some a =>
      let h := set_prev h node (Some a) in
      let h := set_next h node (get_next h a) in
      let h := match get_next h a with Some n => set_prev h n (Some node) | None => h end in
      let h := set_next h a (Some node) in
      let la := if decide (last dq = Some a) then Some node else last dq in
      (h, Dq (first dq) la)
  | None => deque_add_first h dq node
  end.

Definition deque_remove (h : heap) (dq : deque) (node : loc) : heap * deque :=
  let '(h, dq) :=
    if decide (first dq <> Some node \/ last dq <> Some node) then
      let h := match get_next h node with
               | Some n => set_prev h n (get_prev h node) | None => h end in
      let h := match get_prev h node with
               | Some p => set_next h p (get_next h node) | None => h end in
      let fi := if decide (first dq = Some node) then get_next h node else first dq in
      let la := if decide (last dq = Some node) then get_prev h node else last dq in
      (h, Dq fi la)
    else (h, Dq None None) in
  let h := set_prev h node None in
  let h := set_next h node None in
  (h, dq).

Definition deque_remove_first (h : heap) (dq : deque) : option loc * heap * deque :=
  match first dq with
  | Some f =>
      if decide (Some f <> last dq) then
        let second := get_next h f in
        let h := match second with Some s => set_prev h s None | None => h end in
        let h := set_prev h f None in
        let h := set_next h f None in
        (Some f, h, Dq second (last dq))
      else (Some f, h, Dq None None)
  | None => (None, h, dq)
  end.

Definition deque_remove_last (h : heap) (dq : deque) : option loc * heap * deque :=
  match last dq with
  | Some l =>
      if decide (Some l <> first dq) then
        let pr := get_prev h l in
        let h := match pr with Some p => set_next h p None | None => h end in
        let h := set_prev h l None in
        (Some l, h, Dq (first dq) pr)
      else (Some l, h, Dq None None)
  | None => (None, h, dq)
  end.

(** ** Representation

    [dseg h p l n]: the nodes [l] are chained in [h]; the first one's [prev]
    is [p], the last one's [next] is [n]. *)
Fixpoint dseg (h : heap) (p : option loc) (l : list loc) (n : option loc) : Prop :=
  match l with
  | [] => True
  | x :: l' =>
      h !! x = Some (Node p (match l' with [] => n | y :: _ => Some y end)) /\
      dseg h (Some x) l' n
  end.

Definition dq_repr (h : heap) (dq : deque) (l : list loc) : Prop :=
  NoDup l /\ first dq = head l /\ last dq = list.last l /\ dseg h None l None.

(** A node that is on no queue. *)
Definition unlinked (h : heap) (x : loc) : Prop := h !! x = Some (Node None None).

Definition link_to (l : list loc) (n : option loc) : option loc :=
  match l with [] => n | y :: _ => Some y end.
Definition link_from (p : option loc) (l : list loc) : option loc :=
  match list.last l with None => p | Some y => Some y end.

Lemma dseg_app h p l1 l2 n :
  dseg h p (l1 ++ l2) n <-> dseg h p l1 (link_to l2 n) /\ dseg h (link_from p l1) l2 n.
Proof.
  revert p. induction l1 as [|x l1 IH]; intros p; simpl; [tauto|].
  rewrite IH. unfold link_from. rewrite last_cons.
  replace (match list.last l1 with Some y => Some y | None => Some x end)
    with (match match list.last l1 with Some y => Some y | None => Some x end with
          | Some y => Some y | None => p end) by (by destruct (list.last l1)).
  destruct l1 as [|y l1]; simpl.
  - destruct l2; simpl; tauto.
  - destruct (list.last (y :: l1)); tauto.
Qed.

Lemma dseg_frame h h' p l n :
  (forall x, x ∈ l -> h' !! x = h !! x) -> dseg h p l n -> dseg h' p l n.
Proof.
  revert p. induction l as [|x l IH]; intros p Hf; simpl; [done|].
  intros [Hx Hl]. split.
  - rewrite Hf by set_solver. done.
  - apply IH; [|done]. intros y Hy. apply Hf. set_solver.
Qed.

Lemma lookup_set_prev h x p y :
  set_prev h x p !! y = if decide (x = y) then (fun n => Node p (next n)) <$> h !! y else h !! y.
Proof. unfold set_prev. rewrite lookup_alter. by case_decide; subst. Qed.

Lemma lookup_set_next h x p y :
  set_next h x p !! y = if decide (x = y) then (fun n => Node (prev n) p) <$> h !! y else h !! y.
Proof. unfold set_next. rewrite lookup_alter. by case_decide; subst. Qed.

(** Resolves heap lookups after a sequence of field writes. *)
Ltac heap_lookup :=
  repeat (rewrite lookup_set_prev || rewrite lookup_set_next);
  repeat (case_decide; simplify_eq); simpl in *; simplify_option_eq; try done.

(** [if (o) o->prev = v] and [if (o) o->next = v] *)
Definition upd_prev (h : heap) (o v : option loc) : heap :=
  match o with Some x => set_prev h x v | None => h end.
Definition upd_next (h : heap) (o v : option loc) : heap :=
  match o with Some x => set_next h x v | None => h end.

Lemma upd_prev_ne h o v y : o <> Some y -> upd_prev h o v !! y = h !! y.
Proof. destruct o; simpl; intros; heap_lookup. Qed.
Lemma upd_next_ne h o v y : o <> Some y -> upd_next h o v !! y = h !! y.
Proof. destruct o; simpl; intros; heap_lookup. Qed.

Lemma last_not_elem (l : list loc) x : x ∉ l -> list.last l <> Some x.
Proof. intros Hx Hl. apply last_Some in Hl as [l' ->]. set_solver. Qed.
Lemma head_not_elem (l : list loc) x : x ∉ l -> head l <> Some x.
Proof. destruct l; simpl; intros ? [= ->]. set_solver. Qed.

Lemma link_to_head l : link_to l None = head l.
Proof. by destruct l. Qed.
Lemma link_from_last l : link_from None l = list.last l.
Proof. unfold link_from. by destruct (list.last l). Qed.

(** Re-pointing the outer links of a segment. *)
Lemma dseg_first h p l n p' : NoDup l -> dseg h p l n -> dseg (upd_prev h (head l) p') p' l n.
Proof.
  destruct l as [|x l]; simpl; [done|]. intros [Hx Hnd]%NoDup_cons [Hh Hs]. split.
  - rewrite lookup_set_prev, decide_True, Hh by done. done.
  - eapply dseg_frame, Hs. intros y Hy. rewrite lookup_set_prev, decide_False; [done|set_solver].
Qed.

Lemma dseg_last h p l n n' : NoDup l -> dseg h p l n -> dseg (upd_next h (list.last l) n') p l n'.
Proof.
  intros Hnd Hs. destruct (list.last l) as [x|] eqn:E; simpl.
  - apply last_Some in E as [l' ->]. apply dseg_app in Hs as [H1 H2].
    apply NoDup_app in Hnd as (Hnd & Hd & _).
    assert (Hx : x ∉ l') by set_solver. apply dseg_app. simpl in *. split.
    + eapply dseg_frame, H1. intros y Hy. rewrite lookup_set_next, decide_False; [done|set_solver].
    + rewrite lookup_set_next, decide_True, (proj1 H2) by done. done.
  - apply last_None in E as ->. done.
Qed.

(** The node sequence around a member of the queue. *)
Lemma dq_split (l : list loc) x :
  NoDup l -> x ∈ l -> exists l1 l2, l = (l1 ++ x :: l2) /\ x ∉ l1 /\ x ∉ l2.
Proof.
  intros Hnd Hx. apply list_elem_of_split in Hx as (l1 & l2 & ->).
  exists l1, l2. apply NoDup_app in Hnd as (_ & Hd & Hnd). apply NoDup_cons in Hnd as [Hx2 _].
  split; [done|]. split; [|done]. intros H1. apply (Hd x H1). set_solver.
Qed.

(** ** Refinement *)

Lemma repr_add_first h dq l x :
  dq_repr h dq l -> unlinked h x -> x ∉ l ->
  let '(h', dq') := deque_add_first h dq x in
  dq_repr h' dq' (dq_add_first x l) /\ forall y, y ∉ l -> y <> x -> h' !! y = h !! y.
Proof.
  intros (Hnd & Hf & Hl & Hs) Hx Hn. unfold deque_add_first, dq_add_first, unlinked in *.
  destruct dq as [fi la]; simpl in *; subst.
  fold (upd_prev (set_next (set_prev h x None) x (head l)) (head l) (Some x)).
  split; [split_and!; simpl|].
  - by constructor.
  - done.
  - rewrite last_cons. by destruct (list.last l).
  - split.
    + rewrite upd_prev_ne by (by apply head_not_elem).
      rewrite <- link_to_head. unfold link_to. heap_lookup.
    + apply (dseg_first _ None); [done|]. eapply dseg_frame, Hs.
      intros y Hy. heap_lookup.
  - intros y Hy Hyx. rewrite upd_prev_ne by (by apply head_not_elem). heap_lookup.
Qed.

Lemma repr_add_last h dq l x :
  dq_repr h dq l -> unlinked h x -> x ∉ l ->
  let '(h', dq') := deque_add_last h dq x in
  dq_repr h' dq' (dq_add_last x l) /\ forall y, y ∉ l -> y <> x -> h' !! y = h !! y.
Proof.
  intros (Hnd & Hf & Hl & Hs) Hx Hn. unfold deque_add_last, dq_add_last, unlinked in *.
  destruct dq as [fi la]; simpl in *; subst.
  fold (upd_next (set_next (set_prev h x (list.last l)) x None) (list.last l) (Some x)).
  split; [split_and!; simpl|].
  - apply NoDup_app. split; [done|]. split; [set_solver|apply NoDup_singleton].
  - rewrite head_snoc. by destruct (head l).
  - by rewrite last_snoc.
  - apply dseg_app. simpl. split.
    + apply (dseg_last _ _ _ None); [done|]. eapply dseg_frame, Hs. intros y Hy. heap_lookup.
    + rewrite upd_next_ne by (by apply last_not_elem). rewrite link_from_last. heap_lookup.
  - intros y Hy Hyx. rewrite upd_next_ne by (by apply last_not_elem). heap_lookup.
Qed.

(** What the representation says of a member's own node. *)
Lemma repr_node h dq l1 x l2 :
  dq_repr h dq (l1 ++ x :: l2) -> h !! x = Some (Node (list.last l1) (head l2)).
Proof.
  intros (_ & _ & _ & Hs). apply dseg_app in Hs as [_ [Hx _]].
  by rewrite Hx, link_from_last, <- link_to_head.
Qed.

(** Unhooking a member: its neighbours are linked to each other. *)
Lemma repr_unhook h dq l1 x l2 :
  dq_repr h dq (l1 ++ x :: l2) -> x ∉ l1 -> x ∉ l2 ->
  dseg (upd_next (upd_prev h (head l2) (list.last l1)) (list.last l1) (head l2))
       None (l1 ++ l2) None.
Proof.
  intros (Hnd & _ & _ & Hs) H1 H2. apply dseg_app in Hs as [Hs1 [_ Hs2]].
  apply NoDup_app in Hnd as (Hnd1 & Hd & [_ Hnd2]%NoDup_cons).
  apply dseg_app. rewrite link_to_head, link_from_last. split.
  - eapply dseg_last; [done|]. eapply dseg_frame, Hs1. intros y Hy.
    apply upd_prev_ne, head_not_elem. set_solver.
  - eapply dseg_frame; [|eapply dseg_first, Hs2; done]. intros y Hy.
    apply upd_next_ne, last_not_elem. set_solver.
Qed.

Lemma unhook_ne h l1 l2 y :
  y ∉ l1 -> y ∉ l2 ->
  upd_next (upd_prev h (head l2) (list.last l1)) (list.last l1) (head l2) !! y = h !! y.
Proof. intros. by rewrite upd_next_ne, upd_prev_ne by auto using last_not_elem, head_not_elem. Qed.

Lemma repr_remove h dq l x :
  dq_repr h dq l -> x ∈ l ->
  let '(h', dq') := deque_remove h dq x in
  dq_repr h' dq' (dq_remove x l) /\ unlinked h' x /\ forall y, y ∉ l -> h' !! y = h !! y.
Proof.
  intros Hr Hx. pose proof Hr as (Hnd & Hf & Hl & _).
  destruct (dq_split l x Hnd Hx) as (l1 & l2 & -> & H1 & H2).
  rewrite dq_remove_app_mid by done. pose proof (repr_node _ _ _ _ _ Hr) as Hnode.
  pose proof (repr_unhook _ _ _ _ _ Hr H1 H2) as Hseg.
  assert (Hnd' : NoDup (l1 ++ l2)).
  { apply NoDup_app in Hnd as (? & Hd & [_ ?]%NoDup_cons). apply NoDup_app. set_solver. }
  unfold deque_remove. destruct dq as [fi la]; simpl in *.
  rewrite head_app in Hf. rewrite last_app_cons, last_cons in Hl.
  set (h1 := upd_next (upd_prev h (head l2) (list.last l1)) (list.last l1) (head l2)) in *.
  assert (Hx1 : h1 !! x = h !! x) by (by apply unhook_ne).
  assert (Hfin : forall fi' la', fi' = head (l1 ++ l2) -> la' = list.last (l1 ++ l2) ->
    dq_repr (set_next (set_prev h1 x None) x None) (Dq fi' la') (l1 ++ l2) /\
    unlinked (set_next (set_prev h1 x None) x None) x /\
    forall y, y ∉ l1 ++ x :: l2 -> set_next (set_prev h1 x None) x None !! y = h !! y).
  { intros ?? -> ->. split; [split_and!; try done|split].
    - eapply dseg_frame, Hseg. intros y Hy. heap_lookup. set_solver.
    - unfold unlinked. rewrite lookup_set_next, decide_True, lookup_set_prev, decide_True by done.
      by rewrite Hx1, Hnode.
    - intros y Hy. rewrite <- (unhook_ne h l1 l2) by set_solver. heap_lookup. }
  case_decide as Hc.
  - assert (Hup : (match get_next h x with Some n => set_prev h n (get_prev h x) | None => h end)
            = upd_prev h (head l2) (list.last l1)).
    { unfold get_next, get_prev. rewrite Hnode. simpl. by destruct (head l2). }
    rewrite Hup. clear Hup.
    assert (Hxp : upd_prev h (head l2) (list.last l1) !! x = h !! x)
      by (by apply upd_prev_ne, head_not_elem).
    unfold get_next, get_prev. rewrite Hxp, Hnode. simpl.
    fold (upd_next (upd_prev h (head l2) (list.last l1)) (list.last l1) (head l2)) h1.
    rewrite Hx1, Hnode. simpl. apply Hfin; subst.
    + rewrite head_app. destruct (head l1) eqn:E; simpl; [|by rewrite decide_True].
      rewrite decide_False; [done|]. intros [= ->]. by apply head_not_elem in E.
    + rewrite last_app. destruct (list.last l2) eqn:E; simpl; [|by rewrite decide_True].
      rewrite decide_False; [done|]. intros [= ->]. by apply last_not_elem in E.
  - apply Decidable.not_or in Hc as [Hc1%dec_stable Hc2%dec_stable]; subst.
    assert (l1 = []) as -> by (destruct l1; [done|]; simpl in *; simplify_eq; set_solver).
    assert (list.last l2 = None) as ->%last_None.
    { destruct (list.last l2) eqn:E; [|done]. simplify_eq. by apply last_not_elem in E. }
    by apply Hfin.
Qed.

Lemma repr_insert h dq l x a :
  dq_repr h dq l -> unlinked h x -> x ∉ l -> a ∈ l ->
  let '(h', dq') := deque_insert h dq x (Some a) in
  dq_repr h' dq' (dq_insert_after x a l) /\ forall y, y ∉ l -> y <> x -> h' !! y = h !! y.
Proof.
  intros Hr Hx Hn Ha. pose proof Hr as (Hnd & Hf & Hl & Hs).
  destruct (dq_split l a Hnd Ha) as (l1 & l2 & -> & H1 & H2).
  rewrite dq_insert_after_app by done. pose proof (repr_node _ _ _ _ _ Hr) as Hnode.
  apply dseg_app in Hs as [Hs1 [Hsa Hs2]].
  apply NoDup_app in Hnd as (Hnd1 & Hd & [_ Hnd2]%NoDup_cons).
  assert (x ∉ l1 /\ x <> a /\ x ∉ l2) as (Hx1 & Hxa & Hx2) by set_solver.
  unfold deque_insert, unlinked in *. destruct dq as [fi la]; simpl in *; subst.
  assert (G : get_next (set_prev h x (Some a)) a = head l2).
  { unfold get_next. rewrite lookup_set_prev, decide_False by done. by rewrite Hnode. }
  rewrite G. set (h1 := set_next (set_prev h x (Some a)) x (head l2)).
  assert (G1 : get_next h1 a = head l2).
  { unfold get_next, h1. rewrite lookup_set_next, decide_False, lookup_set_prev, decide_False by done.
    by rewrite Hnode. }
  rewrite G1. fold (upd_prev h1 (head l2) (Some x)).
  assert (Hsame : forall y, y <> x -> y <> a -> y ∉ l2 ->
    set_next (upd_prev h1 (head l2) (Some x)) a (Some x) !! y = h !! y).
  { intros y ???. rewrite lookup_set_next, decide_False by done.
    rewrite upd_prev_ne by (by apply head_not_elem). unfold h1. heap_lookup. }
  split; [split_and!; simpl|].
  - apply NoDup_app. split; [done|]. split; [set_solver|].
    repeat constructor; try done; set_solver.
  - by rewrite !head_app.
  - rewrite !last_app_cons, !last_cons. destruct (list.last l2) eqn:E.
    + rewrite decide_False; [done|]. intros [= ->]. by apply last_not_elem in E.
    + by rewrite decide_True.
  - apply dseg_app. split; [|split; [|split]].
    + eapply dseg_frame, Hs1. intros y Hy. apply Hsame; set_solver.
    + rewrite lookup_set_next, decide_True by done.
      rewrite upd_prev_ne by (by apply head_not_elem). unfold h1.
      rewrite lookup_set_next, decide_False, lookup_set_prev, decide_False by done.
      by rewrite Hsa.
    + rewrite lookup_set_next, decide_False by done.
      rewrite upd_prev_ne by (by apply head_not_elem). unfold h1.
      rewrite lookup_set_next, decide_True, lookup_set_prev, decide_True by done.
      rewrite Hx. simpl. by rewrite <- link_to_head.
    + eapply dseg_frame.
      { intros y Hy. rewrite lookup_set_next, decide_False by set_solver. reflexivity. }
      eapply dseg_first; [done|]. eapply dseg_frame, Hs2.
      intros y Hy. unfold h1. heap_lookup.
  - intros y Hy Hyx. apply Hsame; set_solver.
Qed.

Lemma repr_remove_first h dq l :
  dq_repr h dq l ->
  let '(r, h', dq') := deque_remove_first h dq in
  r = head l /\ dq_repr h' dq' (tail l) /\
  (forall x, r = Some x -> unlinked h' x) /\ forall y, y ∉ l -> h' !! y = h !! y.
Proof.
  intros Hr. pose proof Hr as (Hnd & Hf & Hl & Hs). unfold deque_remove_first.
  destruct dq as [fi la]; simpl in *; subst. destruct l as [|x l]; simpl; [done|].
  apply NoDup_cons in Hnd as [Hx Hnd]. destruct Hs as [Hnode Hs].
  rewrite last_cons. destruct l as [|z l]; simpl.
  { rewrite decide_False by (by intros []). split_and!; try done. by intros ? [= <-]. }
  assert (Hneq : Some x <> list.last (z :: l)).
  { intros E. symmetry in E. by apply last_not_elem in E. }
  destruct (list.last (z :: l)) as [w|] eqn:E; [|by apply last_None in E].
  rewrite decide_True by done. unfold get_next. rewrite Hnode. simpl.
  split; [done|]. split; [split_and!; try done|split].
  - eapply (dseg_frame (upd_prev h (head (z :: l)) None)); [|eapply dseg_first, Hs; done].
    intros y Hy. simpl. heap_lookup.
  - intros ? [= <-]. unfold unlinked.
    rewrite lookup_set_next, decide_True, lookup_set_prev, decide_True by done.
    rewrite lookup_set_prev, decide_False by set_solver. by rewrite Hnode.
  - intros y Hy. heap_lookup; set_solver.
Qed.

Lemma repr_remove_last h dq l :
  dq_repr h dq l ->
  let '(r, h', dq') := deque_remove_last h dq in
  r = list.last l /\ dq_repr h' dq' (removelast l) /\
  (forall x, r = Some x -> unlinked h' x) /\ forall y, y ∉ l -> h' !! y = h !! y.
Proof.
  intros Hr. pose proof Hr as (Hnd & Hf & Hl & Hs). unfold deque_remove_last.
  destruct dq as [fi la]; simpl in *; subst.
  destruct (list.last l) as [x|] eqn:E; [|apply last_None in E as ->; by split_and!].
  apply last_Some in E as [l' ->]. rewrite removelast_last, head_snoc.
  pose proof (repr_node _ _ _ _ _ Hr) as Hnode. simpl in Hnode.
  apply NoDup_app in Hnd as (Hnd & Hd & _). apply dseg_app in Hs as [Hs _].
  assert (Hx : x ∉ l') by set_solver.
  destruct (head l') as [z|] eqn:E; simpl.
  - assert (Hzx : z <> x) by (intros ->; by apply head_not_elem in E).
    rewrite decide_True by congruence. unfold get_prev. rewrite Hnode. simpl.
    fold (upd_next h (list.last l') None).
    split; [done|]. split; [split_and!; simpl; try done|split].
    + eapply dseg_frame; [|eapply dseg_last, Hs; done]. intros y Hy. heap_lookup.
    + intros ? [= <-]. unfold unlinked. rewrite lookup_set_prev, decide_True by done.
      rewrite upd_next_ne by (by apply last_not_elem). by rewrite Hnode.
    + intros y Hy. rewrite lookup_set_prev, decide_False by set_solver.
      apply upd_next_ne, last_not_elem. set_solver.
  - apply head_None in E as ->. rewrite decide_False by (by intros []).
    split_and!; try done. by intros ? [= <-].
Qed.


(** ** Sequences of operations *)

Inductive dq_op :=
| OAddFirst (x : loc) | OAddLast (x : loc) | OInsert (x a : loc)
| ORemove (x : loc) | ORemoveFirst | ORemoveLast.

Definition run_op (o : dq_op) (h : heap) (dq : deque) : option loc * heap * deque :=
  match o with
  | OAddFirst x => let '(h, dq) := deque_add_first h dq x in (None, h, dq)
  | OAddLast x => let '(h, dq) := deque_add_last h dq x in (None, h, dq)
  | OInsert x a => let '(h, dq) := deque_insert h dq x (Some a) in (None, h, dq)
  | ORemove x => let '(h, dq) := deque_remove h dq x in (None, h, dq)
  | ORemoveFirst => deque_remove_first h dq
  | ORemoveLast => deque_remove_last h dq
  end.

Definition spec_op (o : dq_op) (l : list loc) : option loc * list loc :=
  match o with
  | OAddFirst x => (None, dq_add_first x l)
  | OAddLast x => (None, dq_add_last x l)
  | OInsert x a => (None, dq_insert_after x a l)
  | ORemove x => (None, dq_remove x l)
  | ORemoveFirst => (head l, tail l)
  | ORemoveLast => (list.last l, removelast l)
  end.

(** The caller's side: a node that is added is off the queue, a node that is
    removed or inserted after is on it. *)
Definition op_ok (U : gset loc) (o : dq_op) (l : list loc) : Prop :=
  match o with
  | OAddFirst x | OAddLast x => x ∈ U /\ x ∉ l
  | OInsert x a => x ∈ U /\ x ∉ l /\ a ∈ l
  | ORemove x => x ∈ l
  | ORemoveFirst | ORemoveLast => True
  end.

Fixpoint run_ops (os : list dq_op) (h : heap) (dq : deque) : list (option loc) * heap * deque :=
  match os with
  | [] => ([], h, dq)
  | o :: os => let '(r, h, dq) := run_op o h dq in
               let '(rs, h, dq) := run_ops os h dq in (r :: rs, h, dq)
  end.

Fixpoint spec_ops (os : list dq_op) (l : list loc) : list (option loc) * list loc :=
  match os with
  | [] => ([], l)
  | o :: os => let '(r, l) := spec_op o l in let '(rs, l) := spec_ops os l in (r :: rs, l)
  end.

Fixpoint ops_ok (U : gset loc) (os : list dq_op) (l : list loc) : Prop :=
  match os with [] => True | o :: os => op_ok U o l /\ ops_ok U os (spec_op o l).2 end.

(** The nodes of [U] are on the queue or unlinked. *)
Definition dq_state (U : gset loc) (h : heap) (dq : deque) (l : list loc) : Prop :=
  dq_repr h dq l /\ (forall x, x ∈ l -> x ∈ U) /\ (forall x, x ∈ U -> x ∉ l -> unlinked h x).

Lemma elem_of_insert_after (x a y : loc) l : a ∈ l -> y ∈ dq_insert_after x a l <-> y = x \/ y ∈ l.
Proof.
  intros Ha. assert (exists l1 l2, l = l1 ++ a :: l2 /\ a ∉ l1) as (l1 & l2 & -> & Hn).
  { induction l as [|z l IH]; [by apply not_elem_of_nil in Ha|].
    destruct (decide (a = z)) as [->|Hne]; [exists [], l; set_solver|].
    destruct IH as (l1 & l2 & -> & ?); [set_solver|]. exists (z :: l1), l2. set_solver. }
  rewrite dq_insert_after_app by done. set_solver.
Qed.

Lemma run_op_refines U o h dq l :
  dq_state U h dq l -> op_ok U o l ->
  let '(r, h', dq') := run_op o h dq in
  r = (spec_op o l).1 /\ dq_state U h' dq' (spec_op o l).2.
Proof.
  intros (Hr & Hin & Hout) Hok. destruct o as [x|x|x a|x| |]; cbn [run_op spec_op op_ok fst snd] in *.
  - pose proof (repr_add_first h dq l x Hr) as H. destruct (deque_add_first h dq x) as [h' dq'].
    destruct H as [H1 H2]; [naive_solver..|]. split; [done|]. unfold dq_add_first in *.
    split; [done|]. split; [set_solver|]. intros y Hy [? ?]%not_elem_of_cons. unfold unlinked. rewrite H2 by done. by apply Hout.
  - pose proof (repr_add_last h dq l x Hr) as H. destruct (deque_add_last h dq x) as [h' dq'].
    destruct H as [H1 H2]; [naive_solver..|]. split; [done|]. unfold dq_add_last in *.
    split; [done|]. split; [set_solver|]. intros y Hy Hn. unfold unlinked. rewrite H2 by set_solver. apply Hout; set_solver.
  - destruct Hok as (HxU & Hx & Ha). pose proof (repr_insert h dq l x a Hr) as H.
    destruct (deque_insert h dq x (Some a)) as [h' dq']. destruct H as [H1 H2]; [auto..|]. split; [done|].
    split; [done|]. split.
    + intros y Hy%elem_of_insert_after; [|done]. naive_solver.
    + intros y Hy Hn. rewrite elem_of_insert_after in Hn by done. unfold unlinked. rewrite H2 by tauto. apply Hout; tauto.
  - pose proof (repr_remove h dq l x Hr Hok) as H. destruct (deque_remove h dq x) as [h' dq'].
    destruct H as (H1 & H2 & H3). split; [done|]. split; [done|]. split.
    + intros y [Hy _]%elem_of_dq_remove. auto.
    + intros y Hy Hn. destruct (decide (y = x)) as [->|]; [done|]. rewrite elem_of_dq_remove in Hn.
      unfold unlinked. rewrite H3 by tauto. apply Hout; tauto.
  - pose proof (repr_remove_first h dq l Hr) as H. destruct (deque_remove_first h dq) as [[r h'] dq'].
    destruct H as (-> & H1 & H2 & H3). split; [done|]. destruct l as [|z l]; cbn [head tail] in *.
    + split; [done|]. split; [done|]. intros y Hy Hn. unfold unlinked. rewrite H3 by done. by apply Hout.
    + split; [done|]. split; [set_solver|]. intros y Hy Hn. destruct (decide (y = z)) as [->|]; [by apply H2|].
      unfold unlinked. rewrite H3 by set_solver. apply Hout; set_solver.
  - pose proof (repr_remove_last h dq l Hr) as H. destruct (deque_remove_last h dq) as [[r h'] dq'].
    destruct H as (-> & H1 & H2 & H3). split; [done|]. destruct (list.last l) as [z|] eqn:E.
    + apply last_Some in E as [l' ->]. rewrite removelast_last in *.
      split; [done|]. split; [set_solver|]. intros y Hy Hn. destruct (decide (y = z)) as [->|]; [by apply H2|].
      unfold unlinked. rewrite H3 by set_solver. apply Hout; set_solver.
    + apply last_None in E as ->. split; [done|]. split; [done|]. intros y Hy Hn. unfold unlinked. rewrite H3 by done. by apply Hout.
Qed.

(** The intrusive doubly linked queue is a list: whatever sequence of
    operations the callers perform (adding only nodes that are off the queue,
    removing only nodes that are on it), every operation returns what the same
    operation on a list returns, and afterwards the [next] and [prev] pointers
    describe that list in both directions while every other node is unlinked. *)
Theorem deque_refines_list (U : gset loc) (os : list dq_op) (h : heap) (dq : deque) (l : list loc) :
  dq_state U h dq l -> ops_ok U os l ->
  let '(rs, h', dq') := run_ops os h dq in
  rs = (spec_ops os l).1 /\ dq_state U h' dq' (spec_ops os l).2.
Proof.
  revert h dq l. induction os as [|o os IH]; intros h dq l Hs Hok; simpl; [done|].
  destruct Hok as [Ho Hos]. pose proof (run_op_refines U o h dq l Hs Ho) as H1.
  destruct (run_op o h dq) as [[r h1] dq1]. destruct H1 as [-> H1].
  pose proof (IH h1 dq1 _ H1 Hos) as H2. destruct (run_ops os h1 dq1) as [[rs h2] dq2].
  destruct H2 as [-> H2]. destruct (spec_op o l) as [r l1]. simpl in *.
  destruct (spec_ops os l1). done.
Qed.

Lemma deque_refines_list_witness :
  let U := list_to_set [1; 2; 3]%positive : gset loc in
  let h := <[1%positive := Node None None]> (<[2%positive := Node None None]>
             (<[3%positive := Node None None]> ∅)) in
  let os := [OAddFirst 1; OAddLast 2; OInsert 3 1; ORemove 1; ORemoveFirst]%positive in
  (run_ops os h (Dq None None)).1.1 = [None; None; None; None; Some 3%positive].
Proof.
  intros U h os. pose proof (deque_refines_list U os h (Dq None None) []) as H.
  destruct (run_ops os h (Dq None None)) as [[rs h'] dq']. destruct H as [-> _].
  - split; [repeat split; constructor|]. split; [intros x Hx; inversion Hx|].
    intros x Hx _. unfold U in Hx. rewrite elem_of_list_to_set in Hx.
    repeat (apply elem_of_cons in Hx as [->|Hx]; [reflexivity|]). inversion Hx.
  - simpl. unfold dq_add_first, dq_add_last.
    repeat split; (set_solver || (apply bool_decide_unpack; vm_compute; exact I)).
  - vm_compute. reflexivity.
Defined.
End Deque.
