(* ===== verification/ExtBit.v ===== *)
(** * Bit utilities (user/lib/libc/src/ext/bit_ul.c, pow2_ul.c)

    [unsigned long] is 32 bits wide on the m68k target.  The shifts of the
    source drop the bits that leave the word, which the translation writes out
    with [u32]. *)

From S2P Require Import Prelude.

(** One of the conditional shifts of Hacker's Delight's [nlz]. *)
Definition lz_step (bound k : Z) (s : Z * Z) : Z * Z :=
  let '(n, v) := s in if v <=? bound then (n + k, u32 (Z.shiftl v k)) else (n, v).

Definition leading_zeros_ul (v : Z) : Z :=
  if v =? 0 then 32
  else
    let s := lz_step 0x0000FFFF 16 (0, v) in
    let s := lz_step 0x00FFFFFF 8 s in
    let s := lz_step 0x0FFFFFFF 4 s in
    let '(n, v) := lz_step 0x3FFFFFFF 2 s in
    if v <=? 0x7FFFFFFF then n + 1 else n.

Definition leading_ones_ul (v : Z) : Z := leading_zeros_ul (u32 (Z.lnot v)).

Definition ispow2_ul (n : Z) : bool :=
  negb (n =? 0) && (Z.land n (u32 (n - 1)) =? 0).

(** [while (p < n) { p <<= 1; }]: the loop runs at most once per bit of the
    word, and [None] is the loop that never ends because [p] was shifted out. *)
Fixpoint pow2_loop (fuel : nat) (p n : Z) : option Z :=
  if p <? n then
    match fuel with
    | O => None
    | S fuel => pow2_loop fuel (u32 (Z.shiftl p 1)) n
    end
  else Some p.

Definition pow2_ceil_ul (n : Z) : option Z :=
  if negb (n =? 0) && (Z.land n (u32 (n - 1)) =? 0) then Some n
  else pow2_loop 32 1 n.

(** The same loop with a count of the shifts (log2_ul.c). *)
Fixpoint log2_loop (fuel : nat) (p n b : Z) : option Z :=
  if p <? n then
    match fuel with
    | O => None
    | S fuel => log2_loop fuel (u32 (Z.shiftl p 1)) n (u32 (b + 1))
    end
  else Some b.

Definition log2_ul (n : Z) : option Z := log2_loop 32 1 n 0.

(** ** Leading zeros *)

(** Invariant of the shifts: [v] is the input moved left by [n], non-zero. *)
Definition lz_inv (v0 : Z) (w : Z) (s : Z * Z) : Prop :=
  let '(n, v) := s in
  0 <= n /\ v = v0 * 2 ^ n /\ 2 ^ (32 - w) <= v < 2 ^ 32.

Lemma lz_step_inv v0 w k bound s :
  0 < k -> 2 * k = w -> w <= 32 -> bound = 2 ^ (32 - k) - 1 ->
  0 < v0 -> lz_inv v0 w s -> lz_inv v0 k (lz_step bound k s).
Proof.
  intros Hk Hkw Hw Hb Hv0 Hinv. destruct s as [n v]. simpl in *.
  destruct Hinv as (Hn & Hv & Hlo & Hhi). subst bound.
  destruct (Z.leb_spec v (2 ^ (32 - k) - 1)); simpl.
  - assert (E : v * 2 ^ k < 2 ^ 32).
    { replace 32 with ((32 - k) + k) by lia. rewrite Z.pow_add_r by lia.
      apply Z.mul_lt_mono_pos_r; lia. }
    assert (L : 2 ^ (32 - k) <= v * 2 ^ k).
    { replace (32 - k) with ((32 - w) + k) by lia. rewrite Z.pow_add_r by lia.
      apply Z.mul_le_mono_nonneg_r; lia. }
    rewrite Z.shiftl_mul_pow2 by lia. assert (0 < 2 ^ (32 - k)) by lia.
    rewrite u32_small by lia. split; [lia|]. split; [|lia].
    rewrite Hv. rewrite Z.pow_add_r by lia. lia.
  - split; [done|]. split; [done|]. lia.
Qed.

Lemma leading_zeros_ul_log2 v : 0 < v < 2 ^ 32 -> leading_zeros_ul v = 31 - Z.log2 v.
Proof.
  intros Hv. unfold leading_zeros_ul. rewrite (proj2 (Z.eqb_neq v 0)) by lia.
  assert (H0 : lz_inv v 32 (0, v)) by (simpl; lia).
  apply (lz_step_inv v 32 16 0x0000FFFF) in H0; try lia.
  apply (lz_step_inv v 16 8 0x00FFFFFF) in H0; try lia.
  apply (lz_step_inv v 8 4 0x0FFFFFFF) in H0; try lia.
  apply (lz_step_inv v 4 2 0x3FFFFFFF) in H0; try lia.
  cbv zeta. destruct (lz_step 0x3FFFFFFF 2 _) as [n w]. simpl in H0.
  destruct H0 as (Hn & Hw & Hlo & Hhi).
  assert (Hlog : Z.log2 w = Z.log2 v + n) by (rewrite Hw, Z.log2_mul_pow2; lia).
  destruct (Z.leb_spec w 0x7FFFFFFF).
  - assert (Z.log2 w = 30) by (apply Z.log2_unique; lia). lia.
  - assert (Z.log2 w = 31) by (apply Z.log2_unique; lia). lia.
Qed.

Lemma leading_zeros_ul_zero v : 0 <= v < 2 ^ 32 -> leading_zeros_ul v < 32 <-> v <> 0.
Proof.
  intros Hv. split.
  - intros H ->. by vm_compute in H.
  - intros Hne. rewrite leading_zeros_ul_log2 by lia. pose proof (Z.log2_nonneg v). lia.
Qed.

Lemma leading_zeros_ul_range v : 0 <= v < 2 ^ 32 -> 0 <= leading_zeros_ul v <= 32.
Proof.
  intros Hv. destruct (decide (v = 0)) as [->|]; [vm_compute; split; discriminate|].
  rewrite leading_zeros_ul_log2 by lia. pose proof (Z.log2_nonneg v).
  pose proof (Z.log2_lt_pow2 v 32). lia.
Qed.

(** ** Powers of two *)

Lemma land_pred_pow2 k : 0 <= k -> Z.land (2 ^ k) (2 ^ k - 1) = 0.
Proof.
  intros Hk. rewrite Z.sub_1_r, <- Z.ones_equiv, Z.land_ones by lia. apply Z.mod_same. lia.
Qed.

Lemma land_pred_zero n : 0 < n -> Z.land n (n - 1) = 0 -> n = 2 ^ Z.log2 n.
Proof.
  intros Hn H0. pose proof (Z.log2_spec n Hn) as [Hlo Hhi].
  destruct (decide (n = 2 ^ Z.log2 n)); [done|]. exfalso.
  assert (Hl : Z.log2 (n - 1) = Z.log2 n) by (apply Z.log2_unique; [apply Z.log2_nonneg|lia]).
  assert (Hb : Z.testbit (Z.land n (n - 1)) (Z.log2 n) = true).
  { rewrite Z.land_spec, Z.bit_log2 by done. rewrite <- Hl at 1. rewrite Z.bit_log2; [done|].
    pose proof (Z.log2_nonneg n). pose proof (Z.pow_pos_nonneg 2 (Z.log2 n)). lia. }
  by rewrite H0, Z.bits_0 in Hb.
Qed.

Lemma ispow2_ul_spec n :
  0 <= n < 2 ^ 32 -> ispow2_ul n = true <-> exists k, 0 <= k < 32 /\ n = 2 ^ k.
Proof.
  intros Hn. unfold ispow2_ul. rewrite andb_true_iff, negb_true_iff, Z.eqb_neq, Z.eqb_eq. split.
  - intros [Hne Hl]. rewrite u32_small in Hl by lia.
    apply land_pred_zero in Hl; [|lia]. exists (Z.log2 n). split; [|done].
    split; [apply Z.log2_nonneg|]. apply Z.log2_lt_pow2; lia.
  - intros (k & Hk & ->). pose proof (Z.pow_pos_nonneg 2 k). split; [lia|].
    rewrite u32_small by lia. apply land_pred_pow2. lia.
Qed.

(** The loop from [2 ^ j] finds the next power of two when it fits the word. *)
Lemma pow2_loop_finds fuel j n k :
  0 <= j <= k -> k < 32 -> (Z.to_nat (k - j) <= fuel)%nat ->
  n <= 2 ^ k -> (forall i, j <= i < k -> 2 ^ i < n) ->
  pow2_loop fuel (2 ^ j) n = Some (2 ^ k).
Proof.
  revert j. induction fuel as [|fuel IH]; intros j Hj Hk Hf Hn Hlt.
  - assert (j = k) as -> by lia. simpl. rewrite (proj2 (Z.ltb_ge _ _)) by lia. done.
  - simpl. destruct (decide (j = k)) as [->|].
    + rewrite (proj2 (Z.ltb_ge _ _)) by lia. done.
    + rewrite (proj2 (Z.ltb_lt _ _)) by (apply Hlt; lia).
      rewrite Z.shiftl_mul_pow2 by lia. rewrite <- Z.pow_add_r by lia.
      pose proof (Z.pow_lt_mono_r 2 (j + 1) 32). pose proof (Z.pow_pos_nonneg 2 (j + 1)).
      rewrite u32_small by lia. apply IH; try lia. intros i Hi. apply Hlt. lia.
Qed.

(** Above the largest power of two of the word the candidate is shifted out
    and stays 0, below [n]: the loop does not end, whatever the fuel. *)
Lemma pow2_loop_zero fuel n : 0 < n -> pow2_loop fuel 0 n = None.
Proof.
  intros Hn. induction fuel as [|fuel IH]; simpl; rewrite (proj2 (Z.ltb_lt 0 n)) by done; [done|].
  exact IH.
Qed.

Lemma pow2_loop_overflow fuel j n :
  0 <= j < 32 -> 2 ^ 31 < n < 2 ^ 32 -> pow2_loop fuel (2 ^ j) n = None.
Proof.
  revert j. induction fuel as [|fuel IH]; intros j Hj Hn.
  - simpl. pose proof (Z.pow_le_mono_r 2 j 31). rewrite (proj2 (Z.ltb_lt _ _)) by lia. done.
  - simpl. pose proof (Z.pow_le_mono_r 2 j 31). rewrite (proj2 (Z.ltb_lt _ _)) by lia.
    rewrite Z.shiftl_mul_pow2 by lia. rewrite <- Z.pow_add_r by lia.
    destruct (decide (j = 31)) as [->|].
    + apply pow2_loop_zero. lia.
    + pose proof (Z.pow_lt_mono_r 2 (j + 1) 32). pose proof (Z.pow_pos_nonneg 2 (j + 1)).
      rewrite u32_small by lia. apply IH; lia.
Qed.

Lemma pow2_ceil_ul_small n :
  1 <= n <= 2 ^ 31 ->
  exists k, 0 <= k < 32 /\ pow2_ceil_ul n = Some (2 ^ k) /\ n <= 2 ^ k /\ (forall i, 0 <= i < k -> 2 ^ i < n).
Proof.
  intros Hn. unfold pow2_ceil_ul. fold (ispow2_ul n).
  destruct (ispow2_ul n) eqn:E.
  - apply ispow2_ul_spec in E as (k & Hk & ->); [|lia]. exists k. split_and!; try lia; [done|].
    intros i Hi. apply Z.pow_lt_mono_r; lia.
  - assert (1 < n) by (destruct (decide (n = 1)) as [->|]; [by vm_compute in E|lia]).
    exists (Z.log2_up n). pose proof (Z.log2_up_spec n) as Hs. ospecialize (Hs _); [lia|].
    pose proof (Z.log2_up_nonneg n).
    assert (Hk : Z.log2_up n < 32).
    { pose proof (Z.log2_up_le_pow2 n 31). lia. }
    assert (Hlt : forall i, 0 <= i < Z.log2_up n -> 2 ^ i < n).
    { intros i Hi. pose proof (Z.pow_le_mono_r 2 i (Z.pred (Z.log2_up n))). lia. }
    split_and!; try lia; [|done].
    apply (pow2_loop_finds 32 0); try lia. intros i Hi. apply Hlt. lia.
Qed.

Lemma log2_loop_finds fuel j k :
  0 <= j <= k -> k < 32 -> (Z.to_nat (k - j) <= fuel)%nat -> log2_loop fuel (2 ^ j) (2 ^ k) j = Some k.
Proof.
  revert j. induction fuel as [|fuel IH]; intros j Hj Hk Hf.
  - assert (j = k) as -> by lia. simpl. by rewrite Z.ltb_irrefl.
  - simpl. destruct (decide (j = k)) as [->|]; [by rewrite Z.ltb_irrefl|].
    pose proof (Z.pow_lt_mono_r 2 j k). rewrite (proj2 (Z.ltb_lt _ _)) by lia.
    rewrite Z.shiftl_mul_pow2 by lia. rewrite <- Z.pow_add_r by lia.
    pose proof (Z.pow_lt_mono_r 2 (j + 1) 32). pose proof (Z.pow_pos_nonneg 2 (j + 1)).
    rewrite !u32_small by lia. apply IH; lia.
Qed.

Lemma log2_ul_pow2 k : 0 <= k < 32 -> log2_ul (2 ^ k) = Some k.
Proof. intros Hk. apply (log2_loop_finds 32 0); lia. Qed.

(** ** Theorems *)

(** leading_zeros_ul counts the zero bits above the highest one bit of every
    32-bit word, and is 32 for the zero word. *)
Theorem leading_zeros_ul_correct (v : Z) :
  0 <= v < 2 ^ 32 -> leading_zeros_ul v = if v =? 0 then 32 else 31 - Z.log2 v.
Proof.
  intros Hv. destruct (Z.eqb_spec v 0) as [->|]; [done|]. apply leading_zeros_ul_log2. lia.
Qed.

Lemma leading_zeros_ul_correct_witness : leading_zeros_ul 4096 = 19.
Proof. rewrite leading_zeros_ul_correct; [vm_compute; reflexivity|lia]. Defined.

(** pow2_ceil_ul returns the smallest power of two that is not below its
    argument when that power fits in 32 bits, and its loop terminates within 32
    rounds.  For an argument above 2^31 the shifted value becomes 0 and the loop
    never ends: no number of rounds gives a result. *)
Theorem pow2_ceil_ul_correct (n : Z) :
  1 <= n < 2 ^ 32 ->
  (n <= 2 ^ 31 -> exists k, 0 <= k < 32 /\ pow2_ceil_ul n = Some (2 ^ k) /\ n <= 2 ^ k /\
     forall i, 0 <= i < k -> 2 ^ i < n) /\
  (2 ^ 31 < n -> forall fuel, pow2_loop fuel 1 n = None).
Proof.
  intros Hn. split; intros H.
  - apply pow2_ceil_ul_small. lia.
  - intros fuel. apply (pow2_loop_overflow fuel 0 n); lia.
Qed.

Lemma pow2_ceil_ul_correct_witness :
  pow2_ceil_ul 1000 = Some 1024 /\ pow2_loop 100 1 (2 ^ 31 + 1) = None.
Proof.
  split.
  - destruct (pow2_ceil_ul_correct 1000) as [H _]; [lia|]. destruct H as (k & _ & H & _); [lia|].
    rewrite H. rewrite <- H. vm_compute. reflexivity.
  - destruct (pow2_ceil_ul_correct (2 ^ 31 + 1)) as [_ H]; [lia|]. apply H. lia.
Defined.
