(* ===== verification/Vcpu.v ===== *)
(** * Virtual processors (kern/src/sched/vcpu.c, vcpu.h, sched.h)

    The scheduling parameters of a virtual processor (vcpu): QoS grades and
    priorities, the effective priority computed from them, quantum lengths,
    and the policy calls.  The part of vcpu.c that moves vcpus between queues
    is in Sched.v, which works on the same record. *)

From S2P Require Import Prelude.

(** ** Constants (kern/h/kpi/vcpu.h, kern/src/sched/sched.h) *)

Definition VCPU_QOS_REALTIME : Z := 5.
Definition VCPU_QOS_URGENT : Z := 4.
Definition VCPU_QOS_INTERACTIVE : Z := 3.
Definition VCPU_QOS_UTILITY : Z := 2.
Definition VCPU_QOS_BACKGROUND : Z := 1.
Definition VCPU_QOS_COUNT : Z := 5.

Definition VCPU_PRI_HIGHEST : Z := 7.
Definition VCPU_PRI_NORMAL : Z := 0.
Definition VCPU_PRI_LOWEST : Z := -8.
Definition VCPU_PRI_SHIFT : Z := 4.
Definition VCPU_PRI_COUNT : Z := Z.shiftl 1 VCPU_PRI_SHIFT.

Definition SCHED_PRI_COUNT : Z := VCPU_QOS_COUNT * VCPU_PRI_COUNT.
Definition SCHED_PRI_HIGHEST : Z := SCHED_PRI_COUNT - 1.
Definition SCHED_PRI_LOWEST : Z := 0.

Definition SCHED_QUANTUM_SCALE : Z := 3.
Definition SCHED_QUANTUM (q : Z) : Z := SCHED_QUANTUM_SCALE * q.
Definition SCHED_QUANTUM_NUDGE : Z := 1.

Definition VP_TAG_SYS : Z := 1.
Definition VP_TAG_USER : Z := 2.
Definition VP_TAG_IDLE : Z := 3.

Definition SCHED_PRI_FROM_QOS (grade pri : Z) : Z :=
  Z.shiftl (grade - 1) VCPU_PRI_SHIFT + pri - VCPU_PRI_LOWEST.
Definition SCHED_QOS_GRADE (sched_pri : Z) : Z := Z.shiftr sched_pri VCPU_PRI_SHIFT + 1.
Definition SCHED_QOS_PRI (sched_pri : Z) : Z :=
  Z.land sched_pri (VCPU_PRI_COUNT - 1) + VCPU_PRI_LOWEST.

(** ** Data *)

Abbreviation vpid := positive (only parsing).
Abbreviation wqid := positive (only parsing).
Abbreviation pid := positive (only parsing).

Inductive rstate : Set :=
| VCPU_STATE_READY | VCPU_STATE_RUNNING | VCPU_STATE_WAITING | VCPU_STATE_SUSPENDED.

#[export] Instance rstate_eq_dec : EqDecision rstate.
Proof. solve_decision. Defined.

(** The scheduling and waiting state of [struct vcpu].  [flag_did_wait] and
    [flag_fixed_pri] are the bits VP_FLAG_DID_WAIT and VP_FLAG_FIXED_PRI of
    [flags]; [stack_ok] is the outcome of the two [stk_isvalidsp] checks that
    sched_set_unready makes of the saved stack pointers. *)
Record vcpu := Vcpu {
  base_priority : Z;
  cur_priority : Z;
  priority_penalty : Z;
  priority_boost : Z;
  quantum_boost : Z;
  sched_nice : Z;
  run_state : rstate;
  flag_did_wait : bool;
  flag_fixed_pri : bool;
  quantum_countdown : Z;
  suspension_count : Z;
  tag : Z;
  wakeup_reason : Z;
  waiting_on_wait_queue : option wqid;
  timeout_deadline : Z;
  timeout_isArmed : bool;
  pending_sigs : Z;
  wait_sigs : Z;
  v_usr_ticks : Z;
  v_sys_ticks : Z;
  v_wait_ticks : Z;
  proc : option pid;
  stack_ok : bool
}.

Definition set_base_priority (x : Z) (s : vcpu) : vcpu :=
  Vcpu x (cur_priority s) (priority_penalty s) (priority_boost s) (quantum_boost s) (sched_nice s) (run_state s) (flag_did_wait s) (flag_fixed_pri s) (quantum_countdown s) (suspension_count s) (tag s) (wakeup_reason s) (waiting_on_wait_queue s) (timeout_deadline s) (timeout_isArmed s) (pending_sigs s) (wait_sigs s) (v_usr_ticks s) (v_sys_ticks s) (v_wait_ticks s) (proc s) (stack_ok s).
Definition set_cur_priority (x : Z) (s : vcpu) : vcpu :=
  Vcpu (base_priority s) x (priority_penalty s) (priority_boost s) (quantum_boost s) (sched_nice s) (run_state s) (flag_did_wait s) (flag_fixed_pri s) (quantum_countdown s) (suspension_count s) (tag s) (wakeup_reason s) (waiting_on_wait_queue s) (timeout_deadline s) (timeout_isArmed s) (pending_sigs s) (wait_sigs s) (v_usr_ticks s) (v_sys_ticks s) (v_wait_ticks s) (proc s) (stack_ok s).
Definition set_priority_penalty (x : Z) (s : vcpu) : vcpu :=
  Vcpu (base_priority s) (cur_priority s) x (priority_boost s) (quantum_boost s) (sched_nice s) (run_state s) (flag_did_wait s) (flag_fixed_pri s) (quantum_countdown s) (suspension_count s) (tag s) (wakeup_reason s) (waiting_on_wait_queue s) (timeout_deadline s) (timeout_isArmed s) (pending_sigs s) (wait_sigs s) (v_usr_ticks s) (v_sys_ticks s) (v_wait_ticks s) (proc s) (stack_ok s).
Definition set_priority_boost (x : Z) (s : vcpu) : vcpu :=
  Vcpu (base_priority s) (cur_priority s) (priority_penalty s) x (quantum_boost s) (sched_nice s) (run_state s) (flag_did_wait s) (flag_fixed_pri s) (quantum_countdown s) (suspension_count s) (tag s) (wakeup_reason s) (waiting_on_wait_queue s) (timeout_deadline s) (timeout_isArmed s) (pending_sigs s) (wait_sigs s) (v_usr_ticks s) (v_sys_ticks s) (v_wait_ticks s) (proc s) (stack_ok s).
Definition set_quantum_boost (x : Z) (s : vcpu) : vcpu :=
  Vcpu (base_priority s) (cur_priority s) (priority_penalty s) (priority_boost s) x (sched_nice s) (run_state s) (flag_did_wait s) (flag_fixed_pri s) (quantum_countdown s) (suspension_count s) (tag s) (wakeup_reason s) (waiting_on_wait_queue s) (timeout_deadline s) (timeout_isArmed s) (pending_sigs s) (wait_sigs s) (v_usr_ticks s) (v_sys_ticks s) (v_wait_ticks s) (proc s) (stack_ok s).
Definition set_sched_nice (x : Z) (s : vcpu) : vcpu :=
  Vcpu (base_priority s) (cur_priority s) (priority_penalty s) (priority_boost s) (quantum_boost s) x (run_state s) (flag_did_wait s) (flag_fixed_pri s) (quantum_countdown s) (suspension_count s) (tag s) (wakeup_reason s) (waiting_on_wait_queue s) (timeout_deadline s) (timeout_isArmed s) (pending_sigs s) (wait_sigs s) (v_usr_ticks s) (v_sys_ticks s) (v_wait_ticks s) (proc s) (stack_ok s).
Definition set_run_state (x : rstate) (s : vcpu) : vcpu :=
  Vcpu (base_priority s) (cur_priority s) (priority_penalty s) (priority_boost s) (quantum_boost s) (sched_nice s) x (flag_did_wait s) (flag_fixed_pri s) (quantum_countdown s) (suspension_count s) (tag s) (wakeup_reason s) (waiting_on_wait_queue s) (timeout_deadline s) (timeout_isArmed s) (pending_sigs s) (wait_sigs s) (v_usr_ticks s) (v_sys_ticks s) (v_wait_ticks s) (proc s) (stack_ok s).
Definition set_flag_did_wait (x : bool) (s : vcpu) : vcpu :=
  Vcpu (base_priority s) (cur_priority s) (priority_penalty s) (priority_boost s) (quantum_boost s) (sched_nice s) (run_state s) x (flag_fixed_pri s) (quantum_countdown s) (suspension_count s) (tag s) (wakeup_reason s) (waiting_on_wait_queue s) (timeout_deadline s) (timeout_isArmed s) (pending_sigs s) (wait_sigs s) (v_usr_ticks s) (v_sys_ticks s) (v_wait_ticks s) (proc s) (stack_ok s).
Definition set_flag_fixed_pri (x : bool) (s : vcpu) : vcpu :=
  Vcpu (base_priority s) (cur_priority s) (priority_penalty s) (priority_boost s) (quantum_boost s) (sched_nice s) (run_state s) (flag_did_wait s) x (quantum_countdown s) (suspension_count s) (tag s) (wakeup_reason s) (waiting_on_wait_queue s) (timeout_deadline s) (timeout_isArmed s) (pending_sigs s) (wait_sigs s) (v_usr_ticks s) (v_sys_ticks s) (v_wait_ticks s) (proc s) (stack_ok s).
Definition set_quantum_countdown (x : Z) (s : vcpu) : vcpu :=
  Vcpu (base_priority s) (cur_priority s) (priority_penalty s) (priority_boost s) (quantum_boost s) (sched_nice s) (run_state s) (flag_did_wait s) (flag_fixed_pri s) x (suspension_count s) (tag s) (wakeup_reason s) (waiting_on_wait_queue s) (timeout_deadline s) (timeout_isArmed s) (pending_sigs s) (wait_sigs s) (v_usr_ticks s) (v_sys_ticks s) (v_wait_ticks s) (proc s) (stack_ok s).
Definition set_suspension_count (x : Z) (s : vcpu) : vcpu :=
  Vcpu (base_priority s) (cur_priority s) (priority_penalty s) (priority_boost s) (quantum_boost s) (sched_nice s) (run_state s) (flag_did_wait s) (flag_fixed_pri s) (quantum_countdown s) x (tag s) (wakeup_reason s) (waiting_on_wait_queue s) (timeout_deadline s) (timeout_isArmed s) (pending_sigs s) (wait_sigs s) (v_usr_ticks s) (v_sys_ticks s) (v_wait_ticks s) (proc s) (stack_ok s).
Definition set_tag (x : Z) (s : vcpu) : vcpu :=
  Vcpu (base_priority s) (cur_priority s) (priority_penalty s) (priority_boost s) (quantum_boost s) (sched_nice s) (run_state s) (flag_did_wait s) (flag_fixed_pri s) (quantum_countdown s) (suspension_count s) x (wakeup_reason s) (waiting_on_wait_queue s) (timeout_deadline s) (timeout_isArmed s) (pending_sigs s) (wait_sigs s) (v_usr_ticks s) (v_sys_ticks s) (v_wait_ticks s) (proc s) (stack_ok s).
Definition set_wakeup_reason (x : Z) (s : vcpu) : vcpu :=
  Vcpu (base_priority s) (cur_priority s) (priority_penalty s) (priority_boost s) (quantum_boost s) (sched_nice s) (run_state s) (flag_did_wait s) (flag_fixed_pri s) (quantum_countdown s) (suspension_count s) (tag s) x (waiting_on_wait_queue s) (timeout_deadline s) (timeout_isArmed s) (pending_sigs s) (wait_sigs s) (v_usr_ticks s) (v_sys_ticks s) (v_wait_ticks s) (proc s) (stack_ok s).
Definition set_waiting_on_wait_queue (x : option wqid) (s : vcpu) : vcpu :=
  Vcpu (base_priority s) (cur_priority s) (priority_penalty s) (priority_boost s) (quantum_boost s) (sched_nice s) (run_state s) (flag_did_wait s) (flag_fixed_pri s) (quantum_countdown s) (suspension_count s) (tag s) (wakeup_reason s) x (timeout_deadline s) (timeout_isArmed s) (pending_sigs s) (wait_sigs s) (v_usr_ticks s) (v_sys_ticks s) (v_wait_ticks s) (proc s) (stack_ok s).
Definition set_timeout_deadline (x : Z) (s : vcpu) : vcpu :=
  Vcpu (base_priority s) (cur_priority s) (priority_penalty s) (priority_boost s) (quantum_boost s) (sched_nice s) (run_state s) (flag_did_wait s) (flag_fixed_pri s) (quantum_countdown s) (suspension_count s) (tag s) (wakeup_reason s) (waiting_on_wait_queue s) x (timeout_isArmed s) (pending_sigs s) (wait_sigs s) (v_usr_ticks s) (v_sys_ticks s) (v_wait_ticks s) (proc s) (stack_ok s).
Definition set_timeout_isArmed (x : bool) (s : vcpu) : vcpu :=
  Vcpu (base_priority s) (cur_priority s) (priority_penalty s) (priority_boost s) (quantum_boost s) (sched_nice s) (run_state s) (flag_did_wait s) (flag_fixed_pri s) (quantum_countdown s) (suspension_count s) (tag s) (wakeup_reason s) (waiting_on_wait_queue s) (timeout_deadline s) x (pending_sigs s) (wait_sigs s) (v_usr_ticks s) (v_sys_ticks s) (v_wait_ticks s) (proc s) (stack_ok s).
Definition set_pending_sigs (x : Z) (s : vcpu) : vcpu :=
  Vcpu (base_priority s) (cur_priority s) (priority_penalty s) (priority_boost s) (quantum_boost s) (sched_nice s) (run_state s) (flag_did_wait s) (flag_fixed_pri s) (quantum_countdown s) (suspension_count s) (tag s) (wakeup_reason s) (waiting_on_wait_queue s) (timeout_deadline s) (timeout_isArmed s) x (wait_sigs s) (v_usr_ticks s) (v_sys_ticks s) (v_wait_ticks s) (proc s) (stack_ok s).
Definition set_wait_sigs (x : Z) (s : vcpu) : vcpu :=
  Vcpu (base_priority s) (cur_priority s) (priority_penalty s) (priority_boost s) (quantum_boost s) (sched_nice s) (run_state s) (flag_did_wait s) (flag_fixed_pri s) (quantum_countdown s) (suspension_count s) (tag s) (wakeup_reason s) (waiting_on_wait_queue s) (timeout_deadline s) (timeout_isArmed s) (pending_sigs s) x (v_usr_ticks s) (v_sys_ticks s) (v_wait_ticks s) (proc s) (stack_ok s).
Definition set_v_usr_ticks (x : Z) (s : vcpu) : vcpu :=
  Vcpu (base_priority s) (cur_priority s) (priority_penalty s) (priority_boost s) (quantum_boost s) (sched_nice s) (run_state s) (flag_did_wait s) (flag_fixed_pri s) (quantum_countdown s) (suspension_count s) (tag s) (wakeup_reason s) (waiting_on_wait_queue s) (timeout_deadline s) (timeout_isArmed s) (pending_sigs s) (wait_sigs s) x (v_sys_ticks s) (v_wait_ticks s) (proc s) (stack_ok s).
Definition set_v_sys_ticks (x : Z) (s : vcpu) : vcpu :=
  Vcpu (base_priority s) (cur_priority s) (priority_penalty s) (priority_boost s) (quantum_boost s) (sched_nice s) (run_state s) (flag_did_wait s) (flag_fixed_pri s) (quantum_countdown s) (suspension_count s) (tag s) (wakeup_reason s) (waiting_on_wait_queue s) (timeout_deadline s) (timeout_isArmed s) (pending_sigs s) (wait_sigs s) (v_usr_ticks s) x (v_wait_ticks s) (proc s) (stack_ok s).
Definition set_v_wait_ticks (x : Z) (s : vcpu) : vcpu :=
  Vcpu (base_priority s) (cur_priority s) (priority_penalty s) (priority_boost s) (quantum_boost s) (sched_nice s) (run_state s) (flag_did_wait s) (flag_fixed_pri s) (quantum_countdown s) (suspension_count s) (tag s) (wakeup_reason s) (waiting_on_wait_queue s) (timeout_deadline s) (timeout_isArmed s) (pending_sigs s) (wait_sigs s) (v_usr_ticks s) (v_sys_ticks s) x (proc s) (stack_ok s).
Definition set_proc (x : option pid) (s : vcpu) : vcpu :=
  Vcpu (base_priority s) (cur_priority s) (priority_penalty s) (priority_boost s) (quantum_boost s) (sched_nice s) (run_state s) (flag_did_wait s) (flag_fixed_pri s) (quantum_countdown s) (suspension_count s) (tag s) (wakeup_reason s) (waiting_on_wait_queue s) (timeout_deadline s) (timeout_isArmed s) (pending_sigs s) (wait_sigs s) (v_usr_ticks s) (v_sys_ticks s) (v_wait_ticks s) x (stack_ok s).
Definition set_stack_ok (x : bool) (s : vcpu) : vcpu :=
  Vcpu (base_priority s) (cur_priority s) (priority_penalty s) (priority_boost s) (quantum_boost s) (sched_nice s) (run_state s) (flag_did_wait s) (flag_fixed_pri s) (quantum_countdown s) (suspension_count s) (tag s) (wakeup_reason s) (waiting_on_wait_queue s) (timeout_deadline s) (timeout_isArmed s) (pending_sigs s) (wait_sigs s) (v_usr_ticks s) (v_sys_ticks s) (v_wait_ticks s) (proc s) x.

Record vcpu_qos := Qos { grade : Z; priority : Z }.
Record vcpu_policy := Policy { version : Z; qos : vcpu_qos }.

(** [sizeof(vcpu_policy_t)]: three 32-bit integers. *)
Definition sizeof_vcpu_policy : Z := 12.

Definition vcpu_is_user (v : vcpu) : bool := tag v =? VP_TAG_USER.
Definition vcpu_is_fixed_pri (v : vcpu) : bool := flag_fixed_pri v.
Definition vcpu_effective_qos_class (v : vcpu) : Z := SCHED_QOS_GRADE (cur_priority v).

(** ** Quantum lengths (sched.c, vcpu.c) *)

Definition g_quantum_base_length : list Z :=
  [SCHED_QUANTUM 1; SCHED_QUANTUM 2; SCHED_QUANTUM 4; SCHED_QUANTUM 8; SCHED_QUANTUM 12].
Definition g_quantum_max_length : list Z :=
  [SCHED_QUANTUM 2; SCHED_QUANTUM 3; SCHED_QUANTUM 6; SCHED_QUANTUM 10; SCHED_QUANTUM 14].

Section Quantum.
(** What lies in memory behind the two tables: the source indexes them with
    a grade in 1..5, and index 5 is one past the end. *)
Context (oob_base oob_max : Z -> Z).

Definition quantum_base_at (i : Z) : Z :=
  match g_quantum_base_length !! Z.to_nat i with Some q => q | None => oob_base i end.
Definition quantum_max_at (i : Z) : Z :=
  match g_quantum_max_length !! Z.to_nat i with Some q => q | None => oob_max i end.

Definition vcpu_effective_quantum_length_np (v : vcpu) : Z :=
  let qos_class := s8 (SCHED_QOS_GRADE (cur_priority v)) in
  let base_len := quantum_base_at qos_class in
  let max_len := quantum_max_at qos_class in
  s8 (Z.min (base_len + quantum_boost v) max_len).

Definition vcpu_reset_quantum_np (v : vcpu) : vcpu :=
  set_quantum_countdown (vcpu_effective_quantum_length_np v) v.

Definition vcpu_set_quantum_boost_np (boost : Z) (v : vcpu) : vcpu :=
  set_quantum_boost (Z.max (Z.min boost 127) 0) v.

Definition vcpu_set_nice_np (nice : Z) (v : vcpu) : vcpu :=
  let new_nice := Z.max (Z.min nice (VCPU_QOS_URGENT * VCPU_PRI_COUNT)) 0 in
  let v := set_sched_nice (s8 new_nice) v in
  if 0 <? sched_nice v then set_priority_penalty 0 v else v.

Definition vcpu_set_base_priority_np (p : vcpu_policy) (v : vcpu) : vcpu :=
  set_base_priority (s8 (SCHED_PRI_FROM_QOS (grade (qos p)) (priority (qos p)))) v.

Definition vcpu_reset_penalties_and_boosts_np (v : vcpu) : vcpu :=
  set_sched_nice 0 (set_quantum_boost 0 (set_priority_penalty 0 (set_priority_boost 0 v))).

(** ** Effective priority *)

Definition vcpu_on_sched_param_changed_np (v : vcpu) : vcpu :=
  let base_qos_class := SCHED_QOS_GRADE (base_priority v) in
  let base_qos_pri := SCHED_QOS_PRI (base_priority v) in
  let v := set_flag_fixed_pri false v in
  let v :=
    if ((base_qos_class =? VCPU_QOS_BACKGROUND) && (base_qos_pri =? VCPU_PRI_LOWEST))
       || (base_qos_class =? VCPU_QOS_REALTIME)
    then set_flag_fixed_pri true v else v in
  let eff_pri :=
    if vcpu_is_fixed_pri v then base_priority v
    else
      let pri_boost := if priority_penalty v <=? 0 then priority_boost v else 0 in
      let boosted_qos_pri := Z.min (base_qos_pri + pri_boost) VCPU_PRI_HIGHEST in
      let boosted_pri := SCHED_PRI_FROM_QOS base_qos_class boosted_qos_pri in
      let dyn_top_pri := VCPU_QOS_URGENT * VCPU_PRI_COUNT - 1 in
      let dyn_bot_pri := SCHED_PRI_LOWEST + 1 in
      let eff := boosted_pri - priority_penalty v - sched_nice v in
      Z.max (Z.min eff dyn_top_pri) dyn_bot_pri in
  let v := set_cur_priority (s8 eff_pri) v in
  set_quantum_countdown (vcpu_effective_quantum_length_np v) v.

(** The slate that a vcpu gets when a process acquires it.  The fields that the
    scheduler does not read ([dispatch_worker], [udata], [uerrno], the exception
    state) are not in the record. *)
Definition vcpu_reset_np (policy : vcpu_policy) (nice boost : Z) (v : vcpu) : vcpu :=
  let v := set_proc None v in
  let v := set_pending_sigs 0 v in
  let v := set_v_usr_ticks 0 v in
  let v := set_v_sys_ticks 0 v in
  let v := set_v_wait_ticks 0 v in
  let v := set_flag_did_wait false v in
  let v := vcpu_reset_penalties_and_boosts_np v in
  let v := vcpu_set_base_priority_np policy v in
  let v := vcpu_set_nice_np nice v in
  let v := vcpu_set_quantum_boost_np boost v in
  vcpu_on_sched_param_changed_np v.

(** [memset] and the default scheduling state of vcpu_init.  The stacks are
    valid only after vcpu_hard_reset_stacks. *)
Definition vcpu_init : vcpu :=
  let v := Vcpu 0 0 0 0 0 0 VCPU_STATE_READY false false 0 0 0 0 None 0 false 0 0 0 0 0 None false in
  let v := set_run_state VCPU_STATE_SUSPENDED v in
  let v := set_suspension_count 1 v in
  let v := set_base_priority (s8 (SCHED_PRI_FROM_QOS VCPU_QOS_BACKGROUND (VCPU_PRI_LOWEST + 1))) v in
  vcpu_on_sched_param_changed_np v.
End Quantum.

(** ** Policies *)

Definition vcpu_policy_get (v : vcpu) (ver : Z) : errno * option vcpu_policy :=
  if negb (ver =? sizeof_vcpu_policy) then (EINVAL, None)
  else (EOK, Some (Policy sizeof_vcpu_policy
         (Qos (SCHED_QOS_GRADE (base_priority v)) (SCHED_QOS_PRI (base_priority v))))).

Definition validate_vcpu_policy (p : vcpu_policy) : errno :=
  let g := grade (qos p) in
  let pr := priority (qos p) in
  if negb (version p =? sizeof_vcpu_policy) then EINVAL
  else if (g <? VCPU_QOS_BACKGROUND) || (VCPU_QOS_REALTIME <? g) then EINVAL
  else if (pr <? VCPU_PRI_LOWEST) || (VCPU_PRI_HIGHEST <? pr) then EINVAL
  else if (g =? VCPU_QOS_BACKGROUND) && (pr =? VCPU_PRI_LOWEST) then EPERM
  else if (g =? VCPU_QOS_REALTIME) && (pr =? VCPU_PRI_HIGHEST) then EPERM
  else EOK.

(** ** Priority arithmetic *)

Lemma pri_from_qos_eq g p : SCHED_PRI_FROM_QOS g p = 16 * (g - 1) + p + 8.
Proof. unfold SCHED_PRI_FROM_QOS, VCPU_PRI_LOWEST. rewrite Z.shiftl_mul_pow2 by done.
  change (2 ^ VCPU_PRI_SHIFT) with 16. lia. Qed.

Lemma qos_grade_eq p : SCHED_QOS_GRADE p = p / 16 + 1.
Proof. unfold SCHED_QOS_GRADE. rewrite Z.shiftr_div_pow2 by done. done. Qed.

Lemma qos_pri_eq p : SCHED_QOS_PRI p = p mod 16 - 8.
Proof.
  unfold SCHED_QOS_PRI, VCPU_PRI_LOWEST, VCPU_PRI_COUNT, VCPU_PRI_SHIFT.
  change (Z.shiftl 1 4 - 1) with (Z.ones 4). rewrite Z.land_ones by done. change (2 ^ 4) with 16. lia.
Qed.

Lemma qos_of_pri g p :
  -8 <= p <= 7 ->
  SCHED_QOS_GRADE (SCHED_PRI_FROM_QOS g p) = g /\ SCHED_QOS_PRI (SCHED_PRI_FROM_QOS g p) = p.
Proof.
  intros Hp. rewrite qos_grade_eq, qos_pri_eq, pri_from_qos_eq.
  split; Z.to_euclidean_division_equations; lia.
Qed.

Lemma pri_of_qos p : SCHED_PRI_FROM_QOS (SCHED_QOS_GRADE p) (SCHED_QOS_PRI p) = p.
Proof.
  rewrite qos_grade_eq, qos_pri_eq, pri_from_qos_eq. Z.to_euclidean_division_equations; lia.
Qed.

(** ** Well-formed scheduling parameters *)

Record params_ok (v : vcpu) : Prop := {
  po_base : 0 <= base_priority v < SCHED_PRI_COUNT;
  po_penalty : 0 <= priority_penalty v <= SCHED_PRI_HIGHEST;
  po_boost : 0 <= priority_boost v < VCPU_PRI_COUNT;
  po_nice : 0 <= sched_nice v <= VCPU_QOS_URGENT * VCPU_PRI_COUNT;
}.

(** The band of priorities the scheduler reserves: its fixed-priority vcpus. *)
Definition is_fixed_band (p : Z) : bool := (p =? SCHED_PRI_LOWEST) || (64 <=? p).

(** The effective priority, as the comment in vcpu.h describes it: the base
    priority raised by the boost inside its grade, lowered by penalty and
    nice, and clamped to the dynamic band. *)
Definition effective_priority (v : vcpu) : Z :=
  if is_fixed_band (base_priority v) then base_priority v
  else
    let boost := if priority_penalty v <=? 0 then priority_boost v else 0 in
    let top := 16 * (base_priority v / 16) + 15 in
    Z.max 1 (Z.min 63 (Z.min (base_priority v + boost) top - priority_penalty v - sched_nice v)).

Lemma fixed_band_eq p :
  0 <= p < 80 ->
  ((SCHED_QOS_GRADE p =? VCPU_QOS_BACKGROUND) && (SCHED_QOS_PRI p =? VCPU_PRI_LOWEST))
    || (SCHED_QOS_GRADE p =? VCPU_QOS_REALTIME) = is_fixed_band p.
Proof.
  intros Hp. unfold is_fixed_band, VCPU_QOS_BACKGROUND, VCPU_PRI_LOWEST, VCPU_QOS_REALTIME, SCHED_PRI_LOWEST.
  rewrite qos_grade_eq, qos_pri_eq. Z.to_euclidean_division_equations. lia.
Qed.

Section ParamLemmas.
Context (ob om : Z -> Z).
Local Abbreviation changed := (vcpu_on_sched_param_changed_np ob om).

Lemma effective_priority_range v :
  params_ok v -> 0 <= effective_priority v < SCHED_PRI_COUNT.
Proof.
  intros [Hb Hp Hbo Hn]. unfold effective_priority, is_fixed_band.
  change SCHED_PRI_COUNT with 80 in *. change SCHED_PRI_LOWEST with 0 in *.
  destruct ((base_priority v =? 0) || (64 <=? base_priority v)) eqn:E; lia.
Qed.

Lemma param_changed_cur v :
  params_ok v -> cur_priority (changed v) = effective_priority v.
Proof.
  intros Hok. pose proof (effective_priority_range v Hok) as Hr. destruct Hok as [Hb Hp Hbo Hn].
  unfold vcpu_on_sched_param_changed_np.
  rewrite (fixed_band_eq (base_priority v)) by done.
  change SCHED_PRI_COUNT with 80 in *. change SCHED_PRI_HIGHEST with 79 in *.
  change (VCPU_QOS_URGENT * VCPU_PRI_COUNT) with 64 in *. change VCPU_PRI_COUNT with 16 in *.
  unfold effective_priority in *. cbn [cur_priority set_quantum_countdown set_cur_priority].
  destruct (is_fixed_band (base_priority v)) eqn:E;
    cbn [vcpu_is_fixed_pri flag_fixed_pri set_flag_fixed_pri base_priority priority_penalty
         priority_boost sched_nice].
  - apply s8_small. lia.
  - rewrite pri_from_qos_eq, qos_grade_eq, qos_pri_eq.
    change (VCPU_QOS_URGENT * VCPU_PRI_COUNT - 1) with 63. change (SCHED_PRI_LOWEST + 1) with 1.
    change VCPU_PRI_HIGHEST with 7.
    set (bo := if priority_penalty v <=? 0 then priority_boost v else 0) in *.
    assert (Heq : 16 * (base_priority v / 16 + 1 - 1) + Z.min (base_priority v mod 16 - 8 + bo) 7 + 8
                  = Z.min (base_priority v + bo) (16 * (base_priority v / 16) + 15)).
    { pose proof (Z.div_mod (base_priority v) 16). lia. }
    rewrite Heq. rewrite s8_small; lia.
Qed.

Lemma param_changed_flag v :
  params_ok v -> flag_fixed_pri (changed v) = is_fixed_band (base_priority v).
Proof.
  intros [Hb _ _ _]. unfold vcpu_on_sched_param_changed_np.
  rewrite (fixed_band_eq (base_priority v)) by done.
  by destruct (is_fixed_band (base_priority v)).
Qed.

(** Recomputing the priority touches nothing but [cur_priority], the fixed
    flag and the quantum. *)
Lemma param_changed_frame v :
  base_priority (changed v) = base_priority v /\
  priority_penalty (changed v) = priority_penalty v /\
  priority_boost (changed v) = priority_boost v /\
  sched_nice (changed v) = sched_nice v /\
  run_state (changed v) = run_state v /\
  waiting_on_wait_queue (changed v) = waiting_on_wait_queue v /\
  suspension_count (changed v) = suspension_count v /\
  timeout_isArmed (changed v) = timeout_isArmed v /\
  timeout_deadline (changed v) = timeout_deadline v /\
  stack_ok (changed v) = stack_ok v /\ proc (changed v) = proc v.
Proof.
  unfold vcpu_on_sched_param_changed_np. by destruct (_ || _).
Qed.
End ParamLemmas.

(** The policies that validate_vcpu_policy accepts select a base priority in
    the range of the ready queue. *)
Lemma valid_policy_base p :
  validate_vcpu_policy p = EOK ->
  0 <= SCHED_PRI_FROM_QOS (grade (qos p)) (priority (qos p)) < SCHED_PRI_COUNT /\
  1 <= grade (qos p) <= 5 /\ -8 <= priority (qos p) <= 7.
Proof.
  unfold validate_vcpu_policy. destruct p as [ver [g pr]]. cbn [qos grade priority version].
  change VCPU_QOS_BACKGROUND with 1. change VCPU_QOS_REALTIME with 5.
  change VCPU_PRI_LOWEST with (-8). change VCPU_PRI_HIGHEST with 7. change SCHED_PRI_COUNT with 80.
  rewrite pri_from_qos_eq.
  destruct (negb _); [done|]. destruct ((g <? 1) || (5 <? g)) eqn:E1; [done|].
  destruct ((pr <? -8) || (7 <? pr)) eqn:E2; [done|]. intros _. lia.
Qed.

(** ** Theorems *)

(** For all well-formed parameters the priority that
    vcpu_on_sched_param_changed_np computes with shifts, masks and 8-bit stores
    is the effective priority: the base priority with the boost inside its
    grade, lowered by penalty and nice and clamped to the dynamic band, and the
    base priority itself in the fixed bands.  It is always an index of the
    ready queue. *)
Theorem param_changed_effective (ob om : Z -> Z) (v : vcpu) :
  params_ok v ->
  cur_priority (vcpu_on_sched_param_changed_np ob om v) = effective_priority v /\
  0 <= cur_priority (vcpu_on_sched_param_changed_np ob om v) < SCHED_PRI_COUNT /\
  flag_fixed_pri (vcpu_on_sched_param_changed_np ob om v) = is_fixed_band (base_priority v).
Proof.
  intros Hok. rewrite param_changed_cur by done.
  split_and!; [done|by apply effective_priority_range..|by apply param_changed_flag].
Qed.

Lemma param_changed_effective_witness :
  let v := set_priority_boost 9 (set_base_priority 60 (vcpu_init (fun _ => 0) (fun _ => 0))) in
  cur_priority (vcpu_on_sched_param_changed_np (fun _ => 0) (fun _ => 0) v) = 63 /\ effective_priority v = 63.
Proof.
  intros v. split; [|vm_compute; reflexivity].
  destruct (param_changed_effective (fun _ => 0) (fun _ => 0) v) as [-> _].
  - constructor; vm_compute; split; congruence.
  - vm_compute. reflexivity.
Defined.

(** vcpu_policy returns the policy that was set: packing a valid grade and
    priority into the 8-bit base priority loses nothing. *)
Theorem policy_round_trip (p : vcpu_policy) (v : vcpu) :
  validate_vcpu_policy p = EOK ->
  vcpu_policy_get (vcpu_set_base_priority_np p v) sizeof_vcpu_policy = (EOK, Some p).
Proof.
  intros Hv. destruct (valid_policy_base p Hv) as (Hr & Hg & Hp).
  assert (Hver : version p = sizeof_vcpu_policy).
  { unfold validate_vcpu_policy in Hv. destruct (Z.eqb_spec (version p) sizeof_vcpu_policy); done. }
  unfold vcpu_policy_get, vcpu_set_base_priority_np. rewrite Z.eqb_refl.
  cbn [negb base_priority set_base_priority]. change SCHED_PRI_COUNT with 80 in Hr.
  rewrite s8_small by lia. destruct (qos_of_pri (grade (qos p)) (priority (qos p)) Hp) as [-> ->].
  destruct p as [ver [g pr]]. simpl in *. by subst.
Qed.

Lemma policy_round_trip_witness :
  let p := Policy sizeof_vcpu_policy (Qos VCPU_QOS_URGENT (-3)) in
  vcpu_policy_get (vcpu_set_base_priority_np p (vcpu_init (fun _ => 0) (fun _ => 0))) sizeof_vcpu_policy
  = (EOK, Some p).
Proof. intros p. apply policy_round_trip. reflexivity. Defined.

(** The quantum tables list the grades from Realtime to Background, but they
    are indexed with the grade numbers 1 (Background) to 5 (Realtime).  So a
    background vcpu gets the short quantum of the entry meant for Urgent, an
    urgent vcpu gets the longest quantum, that of Background, and the quantum of
    a realtime vcpu is read from behind the tables. *)
Theorem quantum_tables_misindexed (ob om : Z -> Z) (v : vcpu) :
  quantum_boost v = 0 ->
  (SCHED_QOS_GRADE (cur_priority v) = VCPU_QOS_BACKGROUND ->
     vcpu_effective_quantum_length_np ob om v = SCHED_QUANTUM 2) /\
  (SCHED_QOS_GRADE (cur_priority v) = VCPU_QOS_URGENT ->
     vcpu_effective_quantum_length_np ob om v = SCHED_QUANTUM 12) /\
  (SCHED_QOS_GRADE (cur_priority v) = VCPU_QOS_REALTIME ->
     vcpu_effective_quantum_length_np ob om v = s8 (Z.min (ob 5) (om 5))).
Proof.
  intros Hb. unfold vcpu_effective_quantum_length_np. rewrite Hb.
  split_and!; intros ->; [done|done|]. cbn -[s8 Z.min].
  change (s8 VCPU_QOS_REALTIME) with 5. unfold quantum_base_at, quantum_max_at. cbn -[s8 Z.min]. by rewrite Z.add_0_r.
Qed.

Lemma quantum_tables_misindexed_witness :
  vcpu_effective_quantum_length_np (fun _ => 0) (fun _ => 0) (set_cur_priority 8 (vcpu_init (fun _ => 0) (fun _ => 0)))
    = SCHED_QUANTUM 2.
Proof.
  apply (quantum_tables_misindexed (fun _ => 0) (fun _ => 0)
    (set_cur_priority 8 (vcpu_init (fun _ => 0) (fun _ => 0)))); reflexivity.
Defined.
