(* ===== verification/Sched.v ===== *)
(** * The scheduler (kern/src/sched/sched.c, waitqueue.c, sched_irq.c,
      vcpu.c, vcpu_signal.c; kern/src/hal/hw/m68k-amiga/clock.c)

    The state is [kstate]: the vcpus, the ready queue with its population
    bitmap, the wait queues and the clock's deadline queue.  An operation runs
    with preemption disabled, so it is one atomic function on [kstate]; [None]
    is a failed [assert], an [abort] or the dereference of a NULL pointer. *)

From S2P Require Import Prelude Deque ExtBit Vcpu.

Definition TICKS_MAX : Z := 2 ^ 32 - 1.
(** An assignment to a [ticks_t]. *)
Definition ticks (z : Z) : Z := u32 z.

Definition WAKEUP_ALL : Z := 0.
Definition WAKEUP_ONE : Z := 1.
Definition WAKEUP_TIMEOUT : Z := 2.
Definition WAKEUP_NO_IMMED_CSW : Z := 4.
Definition WRES_WAKEUP : Z := 1.
Definition WRES_TIMEOUT : Z := 2.

Definition SCHED_POP_SHIFT : Z := 5.
Definition SCHED_POP_MASK : Z := 31.
Definition SCHED_POP_WORD_COUNT : Z := 3.

(** The per-process counters that the scheduler maintains ([vp->proc]). *)
Record procstat := Procstat {
  vcpu_waiting_count : Z;
  p_usr_ticks : Z;
  p_sys_ticks : Z;
  p_wait_ticks : Z
}.

Definition set_vcpu_waiting_count (x : Z) (s : procstat) : procstat :=
  Procstat x (p_usr_ticks s) (p_sys_ticks s) (p_wait_ticks s).
Definition set_p_usr_ticks (x : Z) (s : procstat) : procstat :=
  Procstat (vcpu_waiting_count s) x (p_sys_ticks s) (p_wait_ticks s).
Definition set_p_sys_ticks (x : Z) (s : procstat) : procstat :=
  Procstat (vcpu_waiting_count s) (p_usr_ticks s) x (p_wait_ticks s).
Definition set_p_wait_ticks (x : Z) (s : procstat) : procstat :=
  Procstat (vcpu_waiting_count s) (p_usr_ticks s) (p_sys_ticks s) x.

(** [struct sched], the vcpus, the wait queues and the monotonic clock.
    [csw_switch] and [csw_preempted] are the bits of [csw_signals]; a queue of
    the source is the list of its nodes (Deque.v); an entry of
    [deadline_queue] is a vcpu's armed [timeout] with its deadline. *)
Record kstate := Kstate {
  vcpus : gmap positive vcpu;
  procs : gmap positive procstat;
  running : option positive;
  scheduled : option positive;
  csw_switch : bool;
  csw_preempted : bool;
  irq_nest_count : Z;
  idle_vp : positive;
  boot_vp : positive;
  sys_ticks : Z;
  usr_ticks : Z;
  idle_ticks : Z;
  rq_priority : list (list positive);
  rq_populated : list Z;
  waitqs : gmap positive (list positive);
  tick_count : Z;
  deadline_queue : list (positive * Z)
}.

Definition set_vcpus (x : gmap positive vcpu) (s : kstate) : kstate :=
  Kstate x (procs s) (running s) (scheduled s) (csw_switch s) (csw_preempted s) (irq_nest_count s) (idle_vp s) (boot_vp s) (sys_ticks s) (usr_ticks s) (idle_ticks s) (rq_priority s) (rq_populated s) (waitqs s) (tick_count s) (deadline_queue s).
Definition set_procs (x : gmap positive procstat) (s : kstate) : kstate :=
  Kstate (vcpus s) x (running s) (scheduled s) (csw_switch s) (csw_preempted s) (irq_nest_count s) (idle_vp s) (boot_vp s) (sys_ticks s) (usr_ticks s) (idle_ticks s) (rq_priority s) (rq_populated s) (waitqs s) (tick_count s) (deadline_queue s).
Definition set_running (x : option positive) (s : kstate) : kstate :=
  Kstate (vcpus s) (procs s) x (scheduled s) (csw_switch s) (csw_preempted s) (irq_nest_count s) (idle_vp s) (boot_vp s) (sys_ticks s) (usr_ticks s) (idle_ticks s) (rq_priority s) (rq_populated s) (waitqs s) (tick_count s) (deadline_queue s).
Definition set_scheduled (x : option positive) (s : kstate) : kstate :=
  Kstate (vcpus s) (procs s) (running s) x (csw_switch s) (csw_preempted s) (irq_nest_count s) (idle_vp s) (boot_vp s) (sys_ticks s) (usr_ticks s) (idle_ticks s) (rq_priority s) (rq_populated s) (waitqs s) (tick_count s) (deadline_queue s).
Definition set_csw_switch (x : bool) (s : kstate) : kstate :=
  Kstate (vcpus s) (procs s) (running s) (scheduled s) x (csw_preempted s) (irq_nest_count s) (idle_vp s) (boot_vp s) (sys_ticks s) (usr_ticks s) (idle_ticks s) (rq_priority s) (rq_populated s) (waitqs s) (tick_count s) (deadline_queue s).
Definition set_csw_preempted (x : bool) (s : kstate) : kstate :=
  Kstate (vcpus s) (procs s) (running s) (scheduled s) (csw_switch s) x (irq_nest_count s) (idle_vp s) (boot_vp s) (sys_ticks s) (usr_ticks s) (idle_ticks s) (rq_priority s) (rq_populated s) (waitqs s) (tick_count s) (deadline_queue s).
Definition set_irq_nest_count (x : Z) (s : kstate) : kstate :=
  Kstate (vcpus s) (procs s) (running s) (scheduled s) (csw_switch s) (csw_preempted s) x (idle_vp s) (boot_vp s) (sys_ticks s) (usr_ticks s) (idle_ticks s) (rq_priority s) (rq_populated s) (waitqs s) (tick_count s) (deadline_queue s).
Definition set_idle_vp (x : positive) (s : kstate) : kstate :=
  Kstate (vcpus s) (procs s) (running s) (scheduled s) (csw_switch s) (csw_preempted s) (irq_nest_count s) x (boot_vp s) (sys_ticks s) (usr_ticks s) (idle_ticks s) (rq_priority s) (rq_populated s) (waitqs s) (tick_count s) (deadline_queue s).
Definition set_boot_vp (x : positive) (s : kstate) : kstate :=
  Kstate (vcpus s) (procs s) (running s) (scheduled s) (csw_switch s) (csw_preempted s) (irq_nest_count s) (idle_vp s) x (sys_ticks s) (usr_ticks s) (idle_ticks s) (rq_priority s) (rq_populated s) (waitqs s) (tick_count s) (deadline_queue s).
Definition set_sys_ticks (x : Z) (s : kstate) : kstate :=
  Kstate (vcpus s) (procs s) (running s) (scheduled s) (csw_switch s) (csw_preempted s) (irq_nest_count s) (idle_vp s) (boot_vp s) x (usr_ticks s) (idle_ticks s) (rq_priority s) (rq_populated s) (waitqs s) (tick_count s) (deadline_queue s).
Definition set_usr_ticks (x : Z) (s : kstate) : kstate :=
  Kstate (vcpus s) (procs s) (running s) (scheduled s) (csw_switch s) (csw_preempted s) (irq_nest_count s) (idle_vp s) (boot_vp s) (sys_ticks s) x (idle_ticks s) (rq_priority s) (rq_populated s) (waitqs s) (tick_count s) (deadline_queue s).
Definition set_idle_ticks (x : Z) (s : kstate) : kstate :=
  Kstate (vcpus s) (procs s) (running s) (scheduled s) (csw_switch s) (csw_preempted s) (irq_nest_count s) (idle_vp s) (boot_vp s) (sys_ticks s) (usr_ticks s) x (rq_priority s) (rq_populated s) (waitqs s) (tick_count s) (deadline_queue s).
Definition set_rq_priority (x : list (list positive)) (s : kstate) : kstate :=
  Kstate (vcpus s) (procs s) (running s) (scheduled s) (csw_switch s) (csw_preempted s) (irq_nest_count s) (idle_vp s) (boot_vp s) (sys_ticks s) (usr_ticks s) (idle_ticks s) x (rq_populated s) (waitqs s) (tick_count s) (deadline_queue s).
Definition set_rq_populated (x : list Z) (s : kstate) : kstate :=
  Kstate (vcpus s) (procs s) (running s) (scheduled s) (csw_switch s) (csw_preempted s) (irq_nest_count s) (idle_vp s) (boot_vp s) (sys_ticks s) (usr_ticks s) (idle_ticks s) (rq_priority s) x (waitqs s) (tick_count s) (deadline_queue s).
Definition set_waitqs (x : gmap positive (list positive)) (s : kstate) : kstate :=
  Kstate (vcpus s) (procs s) (running s) (scheduled s) (csw_switch s) (csw_preempted s) (irq_nest_count s) (idle_vp s) (boot_vp s) (sys_ticks s) (usr_ticks s) (idle_ticks s) (rq_priority s) (rq_populated s) x (tick_count s) (deadline_queue s).
Definition set_tick_count (x : Z) (s : kstate) : kstate :=
  Kstate (vcpus s) (procs s) (running s) (scheduled s) (csw_switch s) (csw_preempted s) (irq_nest_count s) (idle_vp s) (boot_vp s) (sys_ticks s) (usr_ticks s) (idle_ticks s) (rq_priority s) (rq_populated s) (waitqs s) x (deadline_queue s).
Definition set_deadline_queue (x : list (positive * Z)) (s : kstate) : kstate :=
  Kstate (vcpus s) (procs s) (running s) (scheduled s) (csw_switch s) (csw_preempted s) (irq_nest_count s) (idle_vp s) (boot_vp s) (sys_ticks s) (usr_ticks s) (idle_ticks s) (rq_priority s) (rq_populated s) (waitqs s) (tick_count s) x.

Definition upd_vp (vp : positive) (f : vcpu -> vcpu) (ks : kstate) : kstate :=
  set_vcpus (alter f vp (vcpus ks)) ks.
Definition upd_proc (p : positive) (f : procstat -> procstat) (ks : kstate) : kstate :=
  set_procs (alter f p (procs ks)) ks.

(** ** The ready queue (sched.h, sched.c) *)

Definition sched_rq_mark_populated (pri : Z) (ks : kstate) : kstate :=
  let i := Z.shiftr pri SCHED_POP_SHIFT in
  set_rq_populated
    (arr_set (rq_populated ks) i
       (Z.lor (arr_get 0 (rq_populated ks) i) (Z.shiftl 1 (Z.land pri SCHED_POP_MASK)))) ks.

Definition sched_rq_clear_populated (pri : Z) (ks : kstate) : kstate :=
  let i := Z.shiftr pri SCHED_POP_SHIFT in
  set_rq_populated
    (arr_set (rq_populated ks) i
       (Z.land (arr_get 0 (rq_populated ks) i)
          (Z.lnot (Z.shiftl 1 (Z.land pri SCHED_POP_MASK))))) ks.

(** A node's [prev] or [next] is not NULL exactly when it is on a queue with
    another node. *)
Definition on_longer_queue (vp : positive) (q : list positive) : bool :=
  bool_decide (vp ∈ q) && (1 <? Z.of_nat (length q)).
Definition rewa_linked (ks : kstate) (vp : positive) : bool :=
  existsb (on_longer_queue vp) (rq_priority ks)
  || existsb (on_longer_queue vp) ((map_to_list (waitqs ks)).*2).

Definition sched_set_ready (ks : kstate) (vp : positive) (doAddToTail : bool) : option kstate :=
  v ← vcpus ks !! vp;
  if rewa_linked ks vp then None
  else
    let ks := upd_vp vp (set_run_state VCPU_STATE_READY) ks in
    let pri := cur_priority v in
    let q := arr_get [] (rq_priority ks) pri in
    let q' := if doAddToTail then dq_add_last vp q else dq_add_first vp q in
    let ks := set_rq_priority (arr_set (rq_priority ks) pri q') ks in
    Some (sched_rq_mark_populated pri ks).

Definition sched_set_unready (ks : kstate) (vp : positive) (doReadyToRun : bool) : option kstate :=
  v ← vcpus ks !! vp;
  let pri := cur_priority v in
  if doReadyToRun && negb (stack_ok v) then None
  else
    let ks := if doReadyToRun then upd_vp vp (set_run_state VCPU_STATE_RUNNING) ks else ks in
    let q' := dq_remove vp (arr_get [] (rq_priority ks) pri) in
    let ks := set_rq_priority (arr_set (rq_priority ks) pri q') ks in
    Some (match q' with [] => sched_rq_clear_populated pri ks | _ => ks end).

Definition sched_highest_priority_ready (ks : kstate) : option positive :=
  let lzc := leading_zeros_ul (arr_get 0 (rq_populated ks) 2) in
  if lzc <? 32 then head (arr_get [] (rq_priority ks) ((31 - lzc) + 64))
  else
    let lzc := leading_zeros_ul (arr_get 0 (rq_populated ks) 1) in
    if lzc <? 32 then head (arr_get [] (rq_priority ks) ((31 - lzc) + 32))
    else
      let lzc := leading_zeros_ul (arr_get 0 (rq_populated ks) 0) in
      if lzc <? 32 then head (arr_get [] (rq_priority ks) (31 - lzc))
      else None.

(** ** Context switch (sched.h, sched.c; sched_csw.s) *)

Definition sched_set_running (vp : option positive) (ks : kstate) : kstate :=
  set_csw_switch true (set_scheduled vp ks).

Definition sched_set_running_as_preemptor (vp : option positive) (ks : kstate) : kstate :=
  set_csw_preempted true (set_csw_switch true (set_scheduled vp ks)).

(** [__csw_restore]: the scheduled vcpu becomes the running one. *)
Definition csw_restore (ks : kstate) : option kstate :=
  s ← scheduled ks;
  ks ← sched_set_unready ks s true;
  Some (set_csw_preempted false (set_csw_switch false (set_scheduled None (set_running (Some s) ks)))).

(** [__sched_switch_context]: the outgoing vcpu goes to the ready queue when
    its state is still RUNNING (to the tail unless it was preempted), then the
    scheduled vcpu is restored. *)
Definition sched_switch_context (ks : kstate) : option kstate :=
  r ← running ks;
  v ← vcpus ks !! r;
  ks ← (if bool_decide (run_state v = VCPU_STATE_RUNNING)
        then sched_set_ready ks r (negb (csw_preempted ks)) else Some ks);
  csw_restore ks.

Definition sched_switch_to (ks : kstate) (vp : option positive) : option kstate :=
  sched_switch_context (sched_set_running vp ks).

(** ** The clock's deadline queue (clock.c) *)

Fixpoint deadline_insert (d : positive * Z) (l : list (positive * Z)) : list (positive * Z) :=
  match l with
  | [] => [d]
  | c :: l' => if c.2 <=? d.2 then c :: deadline_insert d l' else d :: l
  end.

Definition clock_deadline (vp : positive) (ks : kstate) : option kstate :=
  v ← vcpus ks !! vp;
  if timeout_isArmed v then None
  else
    let ks := set_deadline_queue (deadline_insert (vp, timeout_deadline v) (deadline_queue ks)) ks in
    Some (upd_vp vp (set_timeout_isArmed true) ks).

Definition clock_cancel_deadline (vp : positive) (ks : kstate) : kstate :=
  match vcpus ks !! vp with
  | Some v =>
      if timeout_isArmed v then
        let ks := set_deadline_queue (filter (fun c => c.1 <> vp) (deadline_queue ks)) ks in
        upd_vp vp (set_timeout_isArmed false) ks
      else ks
  | None => ks
  end.

Section Ops.
Context (oob_base oob_max : Z -> Z).

Let param_changed := vcpu_on_sched_param_changed_np oob_base oob_max.
Let reset_quantum := vcpu_reset_quantum_np oob_base oob_max.

(** ** Wait queues (waitqueue.c) *)

Definition wq_get (wq : positive) (ks : kstate) : list positive := default [] (waitqs ks !! wq).
Definition wq_set (wq : positive) (q : list positive) (ks : kstate) : kstate :=
  set_waitqs (<[wq := q]> (waitqs ks)) ks.

Definition wq_deinit (wq : positive) (ks : kstate) : errno :=
  match wq_get wq ks with [] => EOK | _ => EBUSY end.

(** What wq_wait_np writes to the vcpu before it looks at the deadline. *)
Definition wait_mark (wq : positive) (v : vcpu) : vcpu :=
  let v := set_run_state VCPU_STATE_WAITING v in
  let v := set_waiting_on_wait_queue (Some wq) v in
  let v := set_wakeup_reason 0 v in
  let v := set_flag_did_wait true v in
  if 0 <? quantum_countdown v
  then set_quantum_countdown (quantum_countdown v - SCHED_QUANTUM_NUDGE) v else v.

(** wq_wait_np up to the context switch.  The result is the error the call
    returns at once, or [None] when the caller was switched away and goes on
    with [wq_wait_np_finish] once it runs again. *)
Definition wq_wait_np (wq : positive) (deadline : Z) (ks : kstate)
  : option (option errno * kstate) :=
  vp ← running ks;
  v ← vcpus ks !! vp;
  let start_ticks := tick_count ks in
  let ks := wq_set wq (dq_add_last vp (wq_get wq ks)) ks in
  let ks := upd_vp vp (wait_mark wq) ks in
  if (deadline <? TICKS_MAX) && (deadline <=? start_ticks) then Some (Some ETIMEDOUT, ks)
  else
    ks ← (if deadline <? TICKS_MAX
          then clock_deadline vp (upd_vp vp (set_timeout_deadline deadline) ks)
          else Some ks);
    p ← proc v;
    let ks := upd_proc p (fun s => set_vcpu_waiting_count (vcpu_waiting_count s + 1) s) ks in
    ks ← sched_switch_to ks (sched_highest_priority_ready ks);
    Some (None, ks).

(** The rest of wq_wait_np, run by the vcpu when it is running again. *)
Definition wq_wait_np_finish (start_ticks : Z) (bTimeout : bool) (ks : kstate)
  : option (errno * kstate) :=
  vp ← running ks;
  v ← vcpus ks !! vp;
  p ← proc v;
  let ks := upd_proc p (fun s => set_vcpu_waiting_count (vcpu_waiting_count s - 1) s) ks in
  let ks := if bTimeout then clock_cancel_deadline vp ks else ks in
  let wait_ticks := ticks (tick_count ks - start_ticks) in
  let ks := upd_vp vp (fun v => set_v_wait_ticks (ticks (v_wait_ticks v + wait_ticks)) v) ks in
  let ks := upd_proc p (fun s => set_p_wait_ticks (ticks (p_wait_ticks s + wait_ticks)) s) ks in
  Some (if wakeup_reason v =? WRES_TIMEOUT then ETIMEDOUT else EOK, ks).

(** The priority part of a wakeup, for a vcpu with a dynamic priority. *)
Definition wakeup_boost (pri_boost : Z) (v : vcpu) : vcpu :=
  if vcpu_is_fixed_pri v then v
  else
    let c1 := 0 <? priority_penalty v in
    let v := if c1 then set_priority_penalty 0 v else v in
    let c2 := 0 <? pri_boost in
    let v := if c2 then set_priority_boost (s8 (Z.min pri_boost (VCPU_PRI_COUNT - 1))) v else v in
    if c1 || c2 then param_changed v else v.

Definition sched_is_irq_ctx (ks : kstate) : bool := 0 <? irq_nest_count ks.

(** The first part of wq_wakeup_vcpu_np: the waiting vcpu leaves the wait queue
    and becomes ready. *)
Definition wakeup_make_ready (w vp : positive) (flags pri_boost : Z) (ks : kstate) : option kstate :=
  let ks := wq_set w (dq_remove vp (wq_get w ks)) ks in
  let ks := clock_cancel_deadline vp ks in
  let ks := upd_vp vp (set_waiting_on_wait_queue None) ks in
  let ks := upd_vp vp (set_wakeup_reason
              (if Z.land flags WAKEUP_TIMEOUT =? WAKEUP_TIMEOUT then WRES_TIMEOUT else WRES_WAKEUP)) ks in
  let ks := upd_vp vp (wakeup_boost pri_boost) ks in
  let ks := upd_vp vp (fun v =>
              if vcpu_effective_qos_class v =? VCPU_QOS_REALTIME then reset_quantum v else v) ks in
  sched_set_ready ks vp true.

(** Its last part: the immediate switch to the woken vcpu. *)
Definition wakeup_immed_csw (vp : positive) (flags : Z) (ks : kstate) : option kstate :=
  if (Z.land flags WAKEUP_NO_IMMED_CSW =? 0) && negb (sched_is_irq_ctx ks) then
    v ← vcpus ks !! vp;
    if VCPU_QOS_INTERACTIVE <=? vcpu_effective_qos_class v then
      r ← running ks;
      rv ← vcpus ks !! r;
      if bool_decide (sched_highest_priority_ready ks = Some vp)
         && (cur_priority rv <=? cur_priority v)
      then sched_switch_to ks (Some vp)
      else Some ks
    else Some ks
  else Some ks.

Definition wq_wakeup_vcpu_np (wq : option positive) (vp : positive) (flags pri_boost : Z) (ks : kstate)
  : option kstate :=
  v ← vcpus ks !! vp;
  if negb (bool_decide (run_state v = VCPU_STATE_WAITING)) then Some ks
  else
    w ← wq;
    ks ← wakeup_make_ready w vp flags pri_boost ks;
    wakeup_immed_csw vp flags ks.

Fixpoint wakeup_each (wq : positive) (q : list positive) (pri_boost : Z) (ks : kstate) : option kstate :=
  match q with
  | [] => Some ks
  | cp :: q' => ks ← wq_wakeup_vcpu_np (Some wq) cp WAKEUP_NO_IMMED_CSW pri_boost ks;
                wakeup_each wq q' pri_boost ks
  end.

Definition wq_wakeup_np (wq : positive) (flags pri_boost : Z) (ks : kstate) : option kstate :=
  if Z.land flags WAKEUP_ONE =? 0 then wakeup_each wq (wq_get wq ks) pri_boost ks
  else
    cp ← head (wq_get wq ks);
    wq_wakeup_vcpu_np (Some wq) cp (Z.land flags (Z.lnot WAKEUP_ONE)) pri_boost ks.

(** ** Interrupts (sched_irq.c, clock.c) *)

Definition sched_wait_timeout_irq (vp : positive) (ks : kstate) : option kstate :=
  v ← vcpus ks !! vp;
  wq_wakeup_vcpu_np (waiting_on_wait_queue v) vp (Z.lor WAKEUP_TIMEOUT WAKEUP_ONE) 0 ks.

(** [isuser] is [excpt_frame_isuser(efp)]. *)
Definition sched_on_tick_irq (isuser : bool) (ks : kstate) : option kstate :=
  r ← running ks;
  v ← vcpus ks !! r;
  let ks := if 0 <? quantum_countdown v
            then upd_vp r (fun v => set_quantum_countdown (quantum_countdown v - SCHED_QUANTUM_SCALE) v) ks
            else ks in
  if isuser then
    let ks := upd_vp r (fun v => set_v_usr_ticks (ticks (v_usr_ticks v + 1)) v) ks in
    p ← proc v;
    let ks := upd_proc p (fun s => set_p_usr_ticks (ticks (p_usr_ticks s + 1)) s) ks in
    Some (set_usr_ticks (ticks (usr_ticks ks + 1)) ks)
  else
    let ks := upd_vp r (fun v => set_v_sys_ticks (ticks (v_sys_ticks v + 1)) v) ks in
    let ks := match proc v with
              | Some p => upd_proc p (fun s => set_p_sys_ticks (ticks (p_sys_ticks s + 1)) s) ks
              | None => ks end in
    Some (if tag v =? VP_TAG_SYS then set_sys_ticks (ticks (sys_ticks ks + 1)) ks
          else set_idle_ticks (ticks (idle_ticks ks + 1)) ks).

(** The one-shot timers whose deadline has passed.  Every round takes one
    entry off the queue and a wakeup adds none, so the queue's length is
    enough fuel. *)
Fixpoint run_deadlines (fuel : nat) (now : Z) (ks : kstate) : option kstate :=
  match deadline_queue ks with
  | [] => Some ks
  | (vp, d) :: l =>
      if now <? d then Some ks
      else
        match fuel with
        | O => None
        | S fuel =>
            let ks := set_deadline_queue l ks in
            let ks := upd_vp vp (set_timeout_isArmed false) ks in
            ks ← sched_wait_timeout_irq vp ks;
            run_deadlines fuel now ks
        end
  end.

Definition clock_irq (isuser : bool) (ks : kstate) : option kstate :=
  let ks := set_tick_count (ticks (tick_count ks + 1)) ks in
  ks ← run_deadlines (length (deadline_queue ks)) (tick_count ks) ks;
  sched_on_tick_irq isuser ks.

(** What the end of a quantum does to the vcpu that was running. *)
Definition quantum_end (v : vcpu) : vcpu :=
  let v :=
    if vcpu_is_fixed_pri v then v
    else
      let c1 := negb (flag_did_wait v) in
      let v := if c1 then
                 let v := set_quantum_boost 0 (set_priority_boost 0 v) in
                 if priority_penalty v <? SCHED_PRI_HIGHEST
                 then set_priority_penalty (priority_penalty v + 1) v else v
               else v in
      let c2 := 0 <? priority_boost v in
      let v := if c2 then set_priority_boost (priority_boost v - 1) v else v in
      if c1 || c2 then param_changed v else v in
  let v := set_flag_did_wait false v in
  reset_quantum v.

Definition sched_on_any_irq (ks : kstate) : option kstate :=
  r ← running ks;
  v ← vcpus ks !! r;
  let rdy := sched_highest_priority_ready ks in
  let rdy_pri := (rp ← rdy; rv ← vcpus ks !! rp; Some (cur_priority rv)) in
  if 0 <? quantum_countdown v then
    Some (match rdy_pri with
          | Some p => if cur_priority v <? p then sched_set_running_as_preemptor rdy ks else ks
          | None => ks end)
  else
    let ks := match rdy_pri with
              | Some p => if cur_priority v <=? p then sched_set_running rdy ks else ks
              | None => ks end in
    Some (upd_vp r quantum_end ks).

(** A clock interrupt from entry to return (irq_asm.s): the handler runs in
    the interrupt context, then sched_on_any_irq, then the context switch if
    one was requested. *)
Definition clock_interrupt (isuser : bool) (ks : kstate) : option kstate :=
  let ks := set_irq_nest_count (irq_nest_count ks + 1) ks in
  ks ← clock_irq isuser ks;
  let ks := set_irq_nest_count (irq_nest_count ks - 1) ks in
  ks ← sched_on_any_irq ks;
  if csw_switch ks then sched_switch_context ks else Some ks.

(** ** vcpu state changes (vcpu.c) *)

Definition vcpu_set_policy (self : positive) (p : vcpu_policy) (ks : kstate) : option (errno * kstate) :=
  let err := validate_vcpu_policy p in
  if negb (is_ok err) then Some (err, ks)
  else
    v ← vcpus ks !! self;
    match run_state v with
    | VCPU_STATE_READY =>
        ks ← sched_set_unready ks self false;
        let ks := upd_vp self (vcpu_set_base_priority_np p) ks in
        let ks := upd_vp self param_changed ks in
        ks ← sched_set_ready ks self true;
        Some (EOK, ks)
    | _ =>
        let ks := upd_vp self (vcpu_set_base_priority_np p) ks in
        Some (EOK, upd_vp self param_changed ks)
    end.

Definition vcpu_yield_np (self : positive) (ks : kstate) : option kstate :=
  v ← vcpus ks !! self;
  if bool_decide (run_state v = VCPU_STATE_RUNNING) then
    let ks := if negb (vcpu_is_fixed_pri v) && (0 <? priority_penalty v)
              then upd_vp self (fun v => param_changed (set_priority_penalty (priority_penalty v / 2) v)) ks
              else ks in
    let ks := upd_vp self (set_flag_did_wait true) ks in
    sched_switch_to ks (sched_highest_priority_ready ks)
  else Some ks.

Definition vcpu_yield (ks : kstate) : option kstate :=
  self ← running ks; vcpu_yield_np self ks.

Definition vcpu_resume (self : positive) (force : bool) (ks : kstate) : option kstate :=
  v ← vcpus ks !! self;
  if 0 <? suspension_count v then
    let n := if force then 0 else suspension_count v - 1 in
    let ks := upd_vp self (set_suspension_count n) ks in
    if (n =? 0) && bool_decide (run_state v = VCPU_STATE_SUSPENDED)
    then sched_set_ready ks self true
    else Some ks
  else Some ks.

Definition SIG_FORCE_QUIT : Z := 1.
Definition SIG_URGENT : Z := 2.
Definition SIG_MIN : Z := 1.
Definition SIG_MAX : Z := 32.
Definition sig_bit (signo : Z) : Z := Z.shiftl 1 (signo - 1).

Definition vcpu_send_signal_boost (self : positive) (signo pri_boost : Z) (ks : kstate)
  : option (errno * kstate) :=
  if (signo <? SIG_MIN) || (SIG_MAX <? signo) then Some (EINVAL, ks)
  else
    let sigbit := sig_bit signo in
    let ks := upd_vp self (fun v => set_pending_sigs (Z.lor (pending_sigs v) sigbit) v) ks in
    ks ← (if signo =? SIG_FORCE_QUIT then vcpu_resume self true ks else Some ks);
    v ← vcpus ks !! self;
    ks ← (if negb (Z.land (wait_sigs v) sigbit =? 0)
          then wq_wakeup_vcpu_np (waiting_on_wait_queue v) self 0 pri_boost ks
          else Some ks);
    Some (EOK, ks).

Definition vcpu_suspend (self : positive) (ks : kstate) : option (errno * kstate) :=
  cur_vp ← running ks;
  v ← vcpus ks !! self;
  if bool_decide (self = idle_vp ks) || bool_decide (self = boot_vp ks) then Some (EINVAL, ks)
  else if negb (vcpu_is_user v) && negb (bool_decide (self = cur_vp)) then Some (EPERM, ks)
  else if suspension_count v =? 32767 then Some (EINVAL, ks)
  else
    let n := suspension_count v + 1 in
    let ks := upd_vp self (set_suspension_count n) ks in
    if bool_decide (cur_vp = self) then
      let ks := upd_vp self (set_run_state VCPU_STATE_SUSPENDED) ks in
      ks ← sched_switch_to ks (sched_highest_priority_ready ks);
      Some (EOK, ks)
    else if (n =? 1) && negb (bool_decide (run_state v = VCPU_STATE_SUSPENDED)) then
      '(_, ks) ← vcpu_send_signal_boost self SIG_URGENT 0 ks;
      Some (EOK, ks)
    else Some (EOK, ks).

Definition vcpu_do_deferred_suspend_np (self : positive) (ks : kstate) : option kstate :=
  v ← vcpus ks !! self;
  if (0 <? suspension_count v) && negb (bool_decide (run_state v = VCPU_STATE_SUSPENDED)) then
    let ks := upd_vp self (set_run_state VCPU_STATE_SUSPENDED) ks in
    sched_switch_to ks (sched_highest_priority_ready ks)
  else Some ks.

(** ** Acquiring and destroying vcpus (vcpu.c, vcpu_pool.c,
    Process_VirtualProcessor.c) *)

(** vcpu_pool_checkout: [vp] is the vcpu the pool hands out, created when it
    does not exist yet; the caller goes on once it is suspended. *)
Definition vcpu_pool_checkout (vp : positive) (ks : kstate) : option kstate :=
  match vcpus ks !! vp with
  | None => Some (set_vcpus (<[vp := vcpu_init oob_base oob_max]> (vcpus ks)) ks)
  | Some v => if bool_decide (run_state v = VCPU_STATE_SUSPENDED) then Some ks else None
  end.

(** _proc_acquire_vcpu followed by the resume of
    Process_AcquireVirtualProcessor.  [attr_ok] is the outcome of the checks of
    the attribute's version and of the function, [terminating] is
    [_proc_is_terminating(self)]; the stack allocations succeed. *)
Definition proc_acquire_vcpu (vp p : positive) (attr_ok terminating is_user resumed : bool)
    (policy : vcpu_policy) (nice boost : Z) (ks : kstate) : option (errno * kstate) :=
  if negb attr_ok then Some (EINVAL, ks)
  else if negb (is_ok (validate_vcpu_policy policy)) then Some (validate_vcpu_policy policy, ks)
  else if terminating then Some (ECANCELED, ks)
  else
    ks ← vcpu_pool_checkout vp ks;
    let ks := upd_vp vp (vcpu_reset_np oob_base oob_max policy nice boost) ks in
    let ks := upd_vp vp (set_stack_ok true) ks in
    let ks := upd_vp vp (set_tag (if is_user then VP_TAG_USER else VP_TAG_SYS)) ks in
    let ks := upd_vp vp (set_proc (Some p)) ks in
    ks ← (if resumed then vcpu_resume vp false ks else Some ks);
    Some (EOK, ks).

Definition vcpu_destroy (vp : positive) (ks : kstate) : option kstate :=
  v ← vcpus ks !! vp;
  if bool_decide (run_state v = VCPU_STATE_SUSPENDED)
  then Some (set_vcpus (delete vp (vcpus ks)) ks) else None.

(** ** Boot (sched.c)

    The two vcpus of the scheduler; [vcpu_hard_reset_stacks] is the point from
    which their saved stack pointers are valid.  The result of vcpu_set_policy
    is dropped, as in the source. *)

Definition create_sched_vcpu (vp : positive) (grade pri vtag : Z) (ks : kstate) : option kstate :=
  let ks := set_vcpus (<[vp := vcpu_init oob_base oob_max]> (vcpus ks)) ks in
  '(_, ks) ← vcpu_set_policy vp (Policy sizeof_vcpu_policy (Qos grade pri)) ks;
  let ks := upd_vp vp (set_stack_ok true) ks in
  Some (upd_vp vp (set_tag vtag) ks).

(** The boot vcpu keeps the tag 0 of its [memset] record. *)
Definition boot_vcpu_create (vp : positive) (ks : kstate) : option kstate :=
  create_sched_vcpu vp VCPU_QOS_REALTIME VCPU_PRI_HIGHEST 0 ks.
Definition idle_vcpu_create (vp : positive) (ks : kstate) : option kstate :=
  create_sched_vcpu vp VCPU_QOS_BACKGROUND VCPU_PRI_LOWEST VP_TAG_IDLE ks.

(** The state after the [memset] of struct sched. *)
Definition zero_kstate : kstate :=
  Kstate ∅ ∅ None None false false 0 1%positive 1%positive 0 0 0
    (replicate 80 []) [0; 0; 0] ∅ 0 [].

Definition sched_create (boot idle : positive) : option kstate :=
  ks ← boot_vcpu_create boot zero_kstate;
  ks ← vcpu_resume boot false (set_boot_vp boot ks);
  ks ← idle_vcpu_create idle ks;
  ks ← vcpu_resume idle false (set_idle_vp idle ks);
  let ks := sched_set_running (sched_highest_priority_ready ks) (set_running None ks) in
  if bool_decide (scheduled ks = Some boot) then Some ks else None.

(** sched_switch_to_boot_vcpu, the first (half) context switch. *)
Definition sched_boot (boot idle : positive) : option kstate :=
  ks ← sched_create boot idle; csw_restore ks.
End Ops.
