(* ===== verification/SchedInv.v ===== *)
(** * The scheduler's invariant and its preservation

    [core_inv] relates the queues, the population bitmap and the states of the
    vcpus; [sched_inv] adds the running vcpu, the idle vcpu, the clock's
    deadline queue and the ranges of the scheduling parameters.  A vcpu that an
    operation has taken off its queue and not yet put on another one is the
    "limbo" argument of [core_inv]. *)

From S2P Require Import Prelude Deque ExtBit Vcpu Sched.

(** ** Queues and bitmap *)

Abbreviation rq_at ks pri := (arr_get [] (rq_priority ks) pri).
Abbreviation pop_at ks i := (arr_get 0 (rq_populated ks) i).

Record rq_wf (ks : kstate) : Prop := {
  rq_len : length (rq_priority ks) = 80%nat;
  pop_len : length (rq_populated ks) = 3%nat;
  pop_range : forall i, 0 <= pop_at ks i < 2 ^ 32;
  pop_bit : forall pri, 0 <= pri < 96 ->
    Z.testbit (pop_at ks (pri / 32)) (pri mod 32) = true <-> rq_at ks pri <> [];
  rq_nodup : forall pri, NoDup (rq_at ks pri);
  wq_nodup : forall wq, NoDup (wq_get wq ks);
}.

Record core_inv (limbo : option positive) (ks : kstate) : Prop := {
  ci_wf : rq_wf ks;
  ci_ready : forall pri vp, 0 <= pri ->
    vp ∈ rq_at ks pri <->
    limbo <> Some vp /\ exists v, vcpus ks !! vp = Some v /\
      run_state v = VCPU_STATE_READY /\ cur_priority v = pri;
  ci_wait : forall wq vp,
    vp ∈ wq_get wq ks <->
    limbo <> Some vp /\ exists v, vcpus ks !! vp = Some v /\
      run_state v = VCPU_STATE_WAITING /\ waiting_on_wait_queue v = Some wq;
  ci_pri : forall vp v, vcpus ks !! vp = Some v -> 0 <= cur_priority v < 80;
}.

(** The fields that queue operations leave alone. *)
Record same_env (ks ks' : kstate) : Prop := {
  se_procs : procs ks' = procs ks;
  se_running : running ks' = running ks;
  se_scheduled : scheduled ks' = scheduled ks;
  se_switch : csw_switch ks' = csw_switch ks;
  se_preempted : csw_preempted ks' = csw_preempted ks;
  se_nest : irq_nest_count ks' = irq_nest_count ks;
  se_idle : idle_vp ks' = idle_vp ks;
  se_boot : boot_vp ks' = boot_vp ks;
  se_waitqs : waitqs ks' = waitqs ks;
  se_ticks : tick_count ks' = tick_count ks;
  se_deadlines : deadline_queue ks' = deadline_queue ks;
}.

Lemma lookup_upd_vp vp f ks x :
  vcpus (upd_vp vp f ks) !! x = if decide (vp = x) then f <$> vcpus ks !! x else vcpus ks !! x.
Proof. unfold upd_vp. simpl. rewrite lookup_alter. by case_decide; subst. Qed.

Lemma pri_shiftr pri : Z.shiftr pri SCHED_POP_SHIFT = pri / 32.
Proof. unfold SCHED_POP_SHIFT. by rewrite Z.shiftr_div_pow2. Qed.
Lemma pri_land pri : Z.land pri SCHED_POP_MASK = pri mod 32.
Proof. unfold SCHED_POP_MASK. change 31 with (Z.ones 5). by rewrite Z.land_ones. Qed.

(** Two priorities select the same bit only when they are equal. *)
Lemma pri_bit_inj p q : p / 32 = q / 32 -> p mod 32 = q mod 32 -> p = q.
Proof. intros. rewrite (Z.div_mod p 32), (Z.div_mod q 32) by lia. lia. Qed.

(** ** Changing one queue *)

(** The bitmap after one priority's queue was replaced by [q], with the bit
    set or cleared as [b] says. *)
Definition replace_queue (pri : Z) (q : list positive) (b : bool) (ks : kstate) : kstate :=
  let ks := set_rq_priority (arr_set (rq_priority ks) pri q) ks in
  if b then sched_rq_mark_populated pri ks else sched_rq_clear_populated pri ks.

Lemma rq_at_replace pri q b ks p :
  0 <= pri < 80 -> 0 <= p -> length (rq_priority ks) = 80%nat ->
  rq_at (replace_queue pri q b ks) p = if decide (p = pri) then q else rq_at ks p.
Proof.
  intros Hp Hq Hl. unfold replace_queue.
  assert (rq_priority (if b then _ else _) = arr_set (rq_priority ks) pri q) as -> by (by destruct b).
  case_decide as E; [subst; rewrite arr_get_set_eq by lia; done|].
  rewrite arr_get_set_ne by lia. done.
Qed.

Lemma pop_at_replace pri q b ks i :
  0 <= pri < 80 -> 0 <= i -> length (rq_populated ks) = 3%nat ->
  pop_at (replace_queue pri q b ks) i =
    if decide (i = pri / 32) then
      if b then Z.lor (pop_at ks i) (Z.shiftl 1 (pri mod 32))
      else Z.land (pop_at ks i) (Z.lnot (Z.shiftl 1 (pri mod 32)))
    else pop_at ks i.
Proof.
  intros Hp Hi Hl. unfold replace_queue, sched_rq_mark_populated, sched_rq_clear_populated.
  assert (0 <= pri / 32 < 3) by (Z.to_euclidean_division_equations; lia).
  rewrite pri_shiftr, pri_land. destruct b; cbn [rq_populated set_rq_populated set_rq_priority];
    (case_decide as E; [subst; rewrite arr_get_set_eq by lia; done|rewrite arr_get_set_ne by lia; done]).
Qed.

Lemma testbit_replace pri q b ks p :
  0 <= pri < 80 -> 0 <= p < 96 -> length (rq_populated ks) = 3%nat ->
  Z.testbit (pop_at (replace_queue pri q b ks) (p / 32)) (p mod 32) =
    if decide (p = pri) then b else Z.testbit (pop_at ks (p / 32)) (p mod 32).
Proof.
  intros Hp Hq Hl. assert (0 <= p / 32) by (Z.to_euclidean_division_equations; lia).
  assert (0 <= p mod 32 < 32) by (Z.to_euclidean_division_equations; lia).
  assert (0 <= pri mod 32 < 32) by (Z.to_euclidean_division_equations; lia).
  rewrite pop_at_replace by done. destruct (decide (p / 32 = pri / 32)) as [E|E].
  - destruct b; rewrite ?testbit_or_pow2, ?testbit_andnot_pow2 by lia;
      (destruct (decide (p = pri)) as [->|Hne];
       [rewrite Z.eqb_refl; by rewrite ?orb_true_r, ?andb_false_r|]);
      (rewrite (proj2 (Z.eqb_neq _ _)); [by rewrite ?orb_false_r, ?andb_true_r|]);
      intros E'; apply Hne; by apply pri_bit_inj.
  - rewrite decide_False; [done|]. by intros ->.
Qed.

Lemma replace_queue_wf pri q b ks :
  rq_wf ks -> 0 <= pri < 80 -> NoDup q -> (b = true <-> q <> []) ->
  rq_wf (replace_queue pri q b ks).
Proof.
  intros [H1 H2 H3 H4 H5 H6] Hp Hnd Hb. constructor.
  - unfold replace_queue. destruct b; simpl; by rewrite length_arr_set.
  - unfold replace_queue. destruct b; simpl; by rewrite length_arr_set.
  - intros i. destruct (decide (0 <= i)).
    + rewrite pop_at_replace by done. case_decide; [|done].
      assert (0 <= pri mod 32 < 32) by (Z.to_euclidean_division_equations; lia).
      destruct b; [by apply lor_pow2_range|by apply land_range].
    + unfold arr_get. replace (Z.to_nat i) with (Z.to_nat 0) by lia.
      change (0 <= pop_at (replace_queue pri q b ks) 0 < 2 ^ 32).
      rewrite pop_at_replace by done. case_decide; [|apply H3].
      assert (0 <= pri mod 32 < 32) by (Z.to_euclidean_division_equations; lia).
      destruct b; [by apply lor_pow2_range|by apply land_range].
  - intros p Hq. rewrite testbit_replace, rq_at_replace by (done || lia).
    case_decide; [done|]. by apply H4.
  - intros p. destruct (decide (0 <= p)).
    + rewrite rq_at_replace by done. by case_decide.
    + unfold arr_get. replace (Z.to_nat p) with (Z.to_nat 0) by lia.
      change (NoDup (rq_at (replace_queue pri q b ks) 0)).
      rewrite rq_at_replace by done. by case_decide.
  - intros wq. replace (wq_get wq (replace_queue pri q b ks)) with (wq_get wq ks); [apply H6|].
    unfold replace_queue. by destruct b.
Qed.

(** Marking a queue whose bit is already set changes nothing. *)
Lemma mark_populated_id pri ks :
  0 <= pri < 80 -> length (rq_populated ks) = 3%nat ->
  Z.testbit (pop_at ks (pri / 32)) (pri mod 32) = true ->
  sched_rq_mark_populated pri ks = ks.
Proof.
  intros Hp Hl Hb. unfold sched_rq_mark_populated. rewrite pri_shiftr, pri_land.
  assert (0 <= pri / 32 < 3) by (Z.to_euclidean_division_equations; lia).
  assert (0 <= pri mod 32 < 32) by (Z.to_euclidean_division_equations; lia).
  assert (Z.lor (pop_at ks (pri / 32)) (Z.shiftl 1 (pri mod 32)) = pop_at ks (pri / 32)) as ->.
  { apply Z.bits_inj'. intros n Hn. rewrite testbit_or_pow2 by lia.
    destruct (Z.eqb_spec n (pri mod 32)) as [->|]; [by rewrite Hb|by rewrite orb_false_r]. }
  unfold arr_set. rewrite list_insert_id; [by destruct ks|]. apply arr_get_Some. lia.
Qed.

(** ** Frame lemmas *)

Lemma rq_at_upd_vp vp f ks pri : rq_at (upd_vp vp f ks) pri = rq_at ks pri.
Proof. done. Qed.
Lemma wq_get_upd_vp vp f ks wq : wq_get wq (upd_vp vp f ks) = wq_get wq ks.
Proof. done. Qed.

Lemma upd_vp_wf vp f ks : rq_wf ks -> rq_wf (upd_vp vp f ks).
Proof. intros []. by constructor. Qed.

(** A vcpu in limbo may be changed freely. *)
Lemma core_upd_limbo vp f ks :
  core_inv (Some vp) ks ->
  (forall v, vcpus ks !! vp = Some v -> 0 <= cur_priority (f v) < 80) ->
  core_inv (Some vp) (upd_vp vp f ks).
Proof.
  intros [Hwf Hr Hw Hp] Hf. constructor.
  - by apply upd_vp_wf.
  - intros pri x Hpri. rewrite rq_at_upd_vp, Hr, lookup_upd_vp by done.
    case_decide as E; [subst; naive_solver|done].
  - intros wq x. rewrite wq_get_upd_vp, Hw, lookup_upd_vp.
    case_decide as E; [subst; naive_solver|done].
  - intros x v. rewrite lookup_upd_vp. case_decide as E; [subst|by apply Hp].
    intros (v0 & Hv & ->)%fmap_Some. by apply Hf.
Qed.

(** What the queues depend on. *)
Definition same_place (v v' : vcpu) : Prop :=
  run_state v' = run_state v /\
  (run_state v = VCPU_STATE_READY -> cur_priority v' = cur_priority v) /\
  waiting_on_wait_queue v' = waiting_on_wait_queue v.

Lemma core_upd_same l vp f ks :
  core_inv l ks ->
  (forall v, vcpus ks !! vp = Some v -> same_place v (f v) /\ 0 <= cur_priority (f v) < 80) ->
  core_inv l (upd_vp vp f ks).
Proof.
  intros [Hwf Hr Hw Hp] Hf. constructor.
  - by apply upd_vp_wf.
  - intros pri x Hpri. rewrite rq_at_upd_vp, Hr, lookup_upd_vp by done.
    case_decide as E; [subst x|done]. destruct (vcpus ks !! vp) as [v|] eqn:Hv; [|naive_solver].
    destruct (Hf v eq_refl) as [(H1 & H2 & H3) _]. simpl.
    split; (intros [? (v' & [= <-] & Hs & ?)]; split; [done|]; eexists; split; [done|]);
      [rewrite H1, H2 by done; done|]. rewrite H1 in Hs. by rewrite <-H2.
  - intros wq x. rewrite wq_get_upd_vp, Hw, lookup_upd_vp.
    case_decide as E; [subst x|done]. destruct (vcpus ks !! vp) as [v|] eqn:Hv; [|naive_solver].
    destruct (Hf v eq_refl) as [(H1 & H2 & H3) _]. simpl.
    split; (intros [? (v' & [= <-] & ? & ?)]; split; [done|]; eexists; split; [done|]; split; congruence).
  - intros x v. rewrite lookup_upd_vp. case_decide as E; [subst|by apply Hp].
    intros (v0 & Hv & ->)%fmap_Some. by apply Hf.
Qed.

(** A vcpu is on no queue when it is neither ready nor waiting. *)
Definition off_queue (v : vcpu) : Prop :=
  run_state v = VCPU_STATE_RUNNING \/ run_state v = VCPU_STATE_SUSPENDED.

Lemma core_to_limbo vp v ks :
  core_inv None ks -> vcpus ks !! vp = Some v -> off_queue v -> core_inv (Some vp) ks.
Proof.
  intros [Hwf Hr Hw Hp] Hv Hoff. constructor; [done| | |done].
  - intros pri x Hpri. rewrite Hr by done.
    split; intros (_ & v' & Hv' & Hs & Hc); (split; [|by eauto]); [|done].
    intros [= <-]. destruct Hoff; simplify_eq; congruence.
  - intros wq x. rewrite Hw.
    split; intros (_ & v' & Hv' & Hs & Hc); (split; [|by eauto]); [|done].
    intros [= <-]. destruct Hoff; simplify_eq; congruence.
Qed.

Lemma core_from_limbo vp v ks :
  core_inv (Some vp) ks -> vcpus ks !! vp = Some v -> off_queue v -> core_inv None ks.
Proof.
  intros [Hwf Hr Hw Hp] Hv Hoff. constructor; [done| | |done].
  - intros pri x Hpri. rewrite Hr by done.
    split; intros (_ & v' & Hv' & Hs & Hc); (split; [|by eauto]); [done|].
    intros [= <-]. destruct Hoff; simplify_eq; congruence.
  - intros wq x. rewrite Hw.
    split; intros (_ & v' & Hv' & Hs & Hc); (split; [|by eauto]); [done|].
    intros [= <-]. destruct Hoff; simplify_eq; congruence.
Qed.

Lemma core_limbo_unlinked vp ks : core_inv (Some vp) ks -> rewa_linked ks vp = false.
Proof.
  intros [Hwf Hr Hw Hp]. unfold rewa_linked, on_longer_queue. apply orb_false_iff. split.
  - apply not_true_iff_false. intros (q & Hq & [Hin _]%andb_true_iff)%existsb_exists.
    apply bool_decide_eq_true in Hin. apply list_elem_of_In, list_elem_of_lookup in Hq as [i Hi].
    destruct (proj1 (Hr (Z.of_nat i) vp ltac:(lia))) as [? _]; [|done].
    unfold arr_get. by rewrite Nat2Z.id, Hi.
  - apply not_true_iff_false. intros (q & Hq & [Hin _]%andb_true_iff)%existsb_exists.
    apply bool_decide_eq_true in Hin. apply list_elem_of_In, list_elem_of_fmap in Hq as ([wq q'] & -> & Hq).
    apply elem_of_map_to_list in Hq.
    destruct (proj1 (Hw wq vp)) as [? _]; [|done]. unfold wq_get. by rewrite Hq.
Qed.

(** ** Ready and unready *)

Lemma same_env_refl ks : same_env ks ks.
Proof. by constructor. Qed.

Lemma same_env_trans a b c : same_env a b -> same_env b c -> same_env a c.
Proof. intros [] []. constructor; congruence. Qed.

Lemma replace_queue_env pri q b ks : same_env ks (replace_queue pri q b ks).
Proof. unfold replace_queue. destruct b; by constructor. Qed.

Lemma replace_queue_vcpus pri q b ks : vcpus (replace_queue pri q b ks) = vcpus ks.
Proof. unfold replace_queue. by destruct b. Qed.

Lemma replace_queue_wq pri q b ks wq : wq_get wq (replace_queue pri q b ks) = wq_get wq ks.
Proof. unfold replace_queue. by destruct b. Qed.

Lemma elem_of_enqueue (b : bool) (x vp : positive) q :
  x ∈ (if b then dq_add_last vp q else dq_add_first vp q) <-> x = vp \/ x ∈ q.
Proof. unfold dq_add_last, dq_add_first. destruct b; set_solver. Qed.

Lemma NoDup_enqueue (b : bool) (vp : positive) q :
  NoDup q -> vp ∉ q -> NoDup (if b then dq_add_last vp q else dq_add_first vp q).
Proof.
  intros Hq Hn. unfold dq_add_last, dq_add_first. destruct b.
  - apply NoDup_app. split_and!; [done| |apply NoDup_singleton]. set_solver.
  - by constructor.
Qed.

Lemma set_ready_spec ks vp v b :
  core_inv (Some vp) ks -> vcpus ks !! vp = Some v ->
  exists ks', sched_set_ready ks vp b = Some ks' /\ core_inv None ks' /\ same_env ks ks' /\
    vcpus ks' = alter (set_run_state VCPU_STATE_READY) vp (vcpus ks).
Proof.
  intros Hc Hv. pose proof (core_limbo_unlinked _ _ Hc) as Hl.
  destruct (core_upd_limbo vp (set_run_state VCPU_STATE_READY) ks Hc) as [Hwf Hr Hw Hp].
  { intros v0 Hv0. apply (ci_pri _ _ Hc vp v0 Hv0). }
  set (ks1 := upd_vp vp (set_run_state VCPU_STATE_READY) ks) in *.
  pose proof (ci_pri _ _ Hc vp v Hv) as Hpri.
  set (q := rq_at ks1 (cur_priority v)).
  assert (Hn : vp ∉ q) by (intros Hin; by apply Hr in Hin as [? _]; [|lia]).
  exists (replace_queue (cur_priority v) (if b then dq_add_last vp q else dq_add_first vp q) true ks1).
  assert (Hv1 : vcpus ks1 !! vp = Some (set_run_state VCPU_STATE_READY v)).
  { unfold ks1. by rewrite lookup_upd_vp, decide_True, Hv by done. }
  split_and!; [by unfold sched_set_ready; rewrite Hv; simpl; rewrite Hl| | |].
  - constructor.
    + apply replace_queue_wf; [done|done|apply NoDup_enqueue; [apply Hwf|done]|].
      split; [intros _|done]. destruct b; unfold dq_add_last, dq_add_first; by destruct q.
    + intros pri x Hx. rewrite rq_at_replace, replace_queue_vcpus by (done || apply Hwf).
      case_decide as E; [subst pri; rewrite elem_of_enqueue; unfold q|]; rewrite Hr by done.
      * destruct (decide (x = vp)) as [->|]; [|naive_solver]. naive_solver.
      * destruct (decide (x = vp)) as [->|]; [|naive_solver].
        split; [naive_solver|]. intros (_ & v' & Hv' & _ & Hc'). by simplify_eq.
    + intros wq x. rewrite replace_queue_wq, replace_queue_vcpus, Hw.
      destruct (decide (x = vp)) as [->|]; [|naive_solver].
      split; [naive_solver|]. intros (_ & v' & Hv' & Hs & _). simplify_eq.
    + intros x. rewrite replace_queue_vcpus. apply Hp.
  - eapply same_env_trans; [|apply replace_queue_env]. by constructor.
  - by rewrite replace_queue_vcpus.
Qed.

(** sched_set_unready's queue update, with the bit that it leaves. *)
Lemma unready_replace ks pri vp :
  rq_wf ks -> 0 <= pri < 80 -> rq_at ks pri <> [] ->
  let q' := dq_remove vp (rq_at ks pri) in
  match q' with
  | [] => sched_rq_clear_populated pri (set_rq_priority (arr_set (rq_priority ks) pri q') ks)
  | _ => set_rq_priority (arr_set (rq_priority ks) pri q') ks
  end = replace_queue pri q' (match q' with [] => false | _ => true end) ks.
Proof.
  intros Hwf Hp Hne q'. unfold replace_queue. destruct q' eqn:E; [done|].
  symmetry. apply mark_populated_id; [done|by apply Hwf|].
  change (Z.testbit (pop_at ks (pri / 32)) (pri mod 32) = true). apply Hwf; [lia|done].
Qed.

Lemma unready_core ks vp v :
  core_inv None ks -> vcpus ks !! vp = Some v -> run_state v = VCPU_STATE_READY ->
  let q' := dq_remove vp (rq_at ks (cur_priority v)) in
  core_inv (Some vp)
    (replace_queue (cur_priority v) q' (match q' with [] => false | _ => true end) ks).
Proof.
  intros [Hwf Hr Hw Hp] Hv Hs q'. pose proof (Hp _ _ Hv) as Hpri. constructor.
  - apply replace_queue_wf; [done..| |by destruct q'].
    apply NoDup_dq_remove, Hwf.
  - intros pri x Hx. rewrite rq_at_replace, replace_queue_vcpus by (done || apply Hwf).
    case_decide as E; [subst pri; unfold q'; rewrite elem_of_dq_remove|]; rewrite Hr by done.
    + naive_solver.
    + destruct (decide (x = vp)) as [->|]; [|naive_solver]. naive_solver.
  - intros wq x. rewrite replace_queue_wq, replace_queue_vcpus, Hw.
    destruct (decide (x = vp)) as [->|]; [|naive_solver].
    split; [|naive_solver]. intros (_ & v' & Hv' & Hs' & _). simplify_eq. congruence.
  - intros x. rewrite replace_queue_vcpus. apply Hp.
Qed.

Lemma set_unready_spec ks vp v (b : bool) :
  core_inv None ks -> vcpus ks !! vp = Some v -> run_state v = VCPU_STATE_READY ->
  (b = true -> stack_ok v = true) ->
  exists ks', sched_set_unready ks vp b = Some ks' /\ core_inv (Some vp) ks' /\ same_env ks ks' /\
    vcpus ks' = if b then alter (set_run_state VCPU_STATE_RUNNING) vp (vcpus ks) else vcpus ks.
Proof.
  intros Hc Hv Hs Hst. pose proof (unready_core ks vp v Hc Hv Hs) as Hc'. simpl in Hc'.
  pose proof (ci_pri _ _ Hc vp v Hv) as Hpri.
  assert (Hne : rq_at ks (cur_priority v) <> []).
  { intros E. apply (not_elem_of_nil vp). rewrite <-E. apply Hc; [lia|]. naive_solver. }
  set (ks1 := replace_queue _ _ _ ks) in Hc'.
  assert (He : same_env ks ks1) by apply replace_queue_env.
  unfold sched_set_unready. rewrite Hv. cbn [mbind option_bind]. destruct b; cbn [andb negb].
  - rewrite Hst by done. cbn [negb].
    rewrite (unready_replace (upd_vp vp (set_run_state VCPU_STATE_RUNNING) ks) (cur_priority v) vp) by (done || by eapply upd_vp_wf, ci_wf).
    eexists. split; [done|]. split_and!.
    + pose proof (core_upd_limbo vp (set_run_state VCPU_STATE_RUNNING) ks1 Hc') as Hu.
      replace (replace_queue _ _ _ _) with (upd_vp vp (set_run_state VCPU_STATE_RUNNING) ks1).
      * apply Hu. intros v0 Hv0. apply (ci_pri _ _ Hc' vp v0 Hv0).
      * unfold ks1, replace_queue. by destruct (dq_remove _ _).
    + eapply same_env_trans; [|apply replace_queue_env]. by constructor.
    + by rewrite replace_queue_vcpus.
  - rewrite (unready_replace ks (cur_priority v) vp) by (done || by eapply ci_wf).
    exists ks1. split_and!; try done. apply replace_queue_vcpus.
Qed.

(** ** The highest priority ready vcpu *)

Lemma rq_at_beyond ks p : rq_wf ks -> 80 <= p -> rq_at ks p = [].
Proof.
  intros Hwf Hp. unfold arr_get. rewrite lookup_ge_None_2; [done|]. rewrite (rq_len _ Hwf). lia.
Qed.

Lemma pop_word_empty ks i p :
  rq_wf ks -> 0 <= i < 3 -> 32 * i <= p < 32 * i + 32 ->
  Z.testbit (pop_at ks i) (p - 32 * i) = false -> rq_at ks p = [].
Proof.
  intros Hwf Hi Hp Hb. destruct (rq_at ks p) eqn:E; [done|]. exfalso.
  assert (Hd : p / 32 = i /\ p mod 32 = p - 32 * i) by (Z.to_euclidean_division_equations; lia).
  destruct Hd as [Hd Hm]. pose proof (proj2 (pop_bit _ Hwf p ltac:(lia))) as H.
  rewrite Hd, Hm, Hb, E in H. by discriminate H.
Qed.

(** The count of leading zeros of a word is 32 when the word's queues are all
    empty and otherwise selects the word's highest non-empty queue. *)
Lemma pop_word_lzc ks i :
  rq_wf ks -> 0 <= i < 3 ->
  let lzc := leading_zeros_ul (pop_at ks i) in
  if lzc <? 32 then
    0 <= lzc /\ rq_at ks (31 - lzc + 32 * i) <> [] /\
    forall p, 31 - lzc + 32 * i < p < 32 * i + 32 -> rq_at ks p = []
  else forall p, 32 * i <= p < 32 * i + 32 -> rq_at ks p = [].
Proof.
  intros Hwf Hi lzc. pose proof (pop_range _ Hwf i) as Hr. unfold lzc. clear lzc.
  destruct (decide (pop_at ks i = 0)) as [E|E].
  - rewrite E. change (leading_zeros_ul 0 <? 32) with false. intros p Hp.
    apply (pop_word_empty ks i); [done..|]. by rewrite E, Z.bits_0.
  - rewrite leading_zeros_ul_log2 by lia.
    assert (Hl : 0 <= Z.log2 (pop_at ks i) < 32)
      by (split; [apply Z.log2_nonneg|apply Z.log2_lt_pow2; lia]).
    rewrite (proj2 (Z.ltb_lt _ _)) by lia. split; [lia|].
    replace (31 - (31 - Z.log2 (pop_at ks i))) with (Z.log2 (pop_at ks i)) by lia.
    set (k := Z.log2 (pop_at ks i)) in *. split.
    + apply (pop_bit _ Hwf); [lia|].
      replace ((k + 32 * i) / 32) with i by (Z.to_euclidean_division_equations; lia).
      replace ((k + 32 * i) mod 32) with k by (Z.to_euclidean_division_equations; lia).
      apply Z.bit_log2. lia.
    + intros p Hp. apply (pop_word_empty ks i); [done|done|lia|].
      apply Z.bits_above_log2; [lia|]. fold k. lia.
Qed.

(** The reference: scan the queues from the highest priority down. *)
Definition highest_ready_scan (ks : kstate) : option positive := head (concat (reverse (rq_priority ks))).

Lemma head_concat_skip {A} (l : list (list A)) (n : nat) :
  (forall i q, (n <= i)%nat -> l !! i = Some q -> q = []) ->
  head (concat (reverse l)) = head (concat (reverse (take n l))).
Proof.
  revert n. induction l as [|q l IH] using rev_ind; intros n H; [by rewrite take_nil|].
  destruct (decide (n <= length l)%nat) as [Hn|Hn].
  - rewrite reverse_snoc. simpl. rewrite (H (length l) q), take_app_le by (done || by apply list_lookup_middle).
    apply IH. intros i q' Hi Hq. apply (H i); [done|]. by apply lookup_app_l_Some.
  - rewrite take_ge; [done|]. rewrite length_app. simpl. lia.
Qed.

Lemma scan_at ks p :
  rq_wf ks -> 0 <= p < 80 -> rq_at ks p <> [] ->
  (forall p', p < p' < 80 -> rq_at ks p' = []) -> highest_ready_scan ks = head (rq_at ks p).
Proof.
  intros Hwf Hp Hne Hab. unfold highest_ready_scan. pose proof (rq_len _ Hwf) as Hlen.
  rewrite (head_concat_skip _ (S (Z.to_nat p))).
  - rewrite (take_S_r _ _ (rq_at ks p)) by (apply arr_get_Some; lia).
    rewrite reverse_snoc. simpl. by destruct (rq_at ks p).
  - intros i q Hi Hq. pose proof (lookup_lt_Some _ _ _ Hq).
    rewrite <-(Hab (Z.of_nat i)) by lia. symmetry. apply arr_get_lookup. by rewrite Nat2Z.id.
Qed.

Lemma highest_ready_is_scan ks :
  rq_wf ks -> sched_highest_priority_ready ks = highest_ready_scan ks.
Proof.
  intros Hwf. unfold sched_highest_priority_ready.
  pose proof (pop_word_lzc ks 2 Hwf ltac:(lia)) as H2. pose proof (pop_word_lzc ks 1 Hwf ltac:(lia)) as H1.
  pose proof (pop_word_lzc ks 0 Hwf ltac:(lia)) as H0. simpl in H2, H1, H0.
  assert (Hin : forall p, 0 <= p -> rq_at ks p <> [] -> p < 80).
  { intros p Hp Hne. destruct (decide (p < 80)); [done|]. by rewrite rq_at_beyond in Hne by (done || lia). }
  destruct (leading_zeros_ul (pop_at ks 2) <? 32) eqn:E2; [|destruct (leading_zeros_ul (pop_at ks 1) <? 32) eqn:E1;
    [|destruct (leading_zeros_ul (pop_at ks 0) <? 32) eqn:E0]].
  1-3: apply Z.ltb_lt in E2 || apply Z.ltb_lt in E1 || apply Z.ltb_lt in E0.
  - destruct H2 as (Ha & Hb & Hc). symmetry. apply scan_at; [done|split; [lia|apply Hin; [lia|done]]|done|].
    intros p Hp. apply Hc. lia.
  - destruct H1 as (Ha & Hb & Hc). symmetry. apply scan_at; [done|split; [lia|apply Hin; [lia|done]]|done|].
    intros p Hp. destruct (decide (p < 64)); [apply Hc; lia|apply H2; lia].
  - destruct H0 as (Ha & Hb & Hc). rewrite Z.add_0_r in *.
    symmetry. apply scan_at; [done|split; [lia|apply Hin; [lia|done]]|done|].
    intros p Hp. destruct (decide (p < 32)); [apply Hc; lia|].
    destruct (decide (p < 64)); [apply H1; lia|apply H2; lia].
  - unfold highest_ready_scan. rewrite (head_concat_skip _ 0); [done|].
    intros i q _ Hq. pose proof (lookup_lt_Some _ _ _ Hq). rewrite (rq_len _ Hwf) in *.
    assert (rq_at ks (Z.of_nat i) = q) as <- by (apply arr_get_lookup; by rewrite Nat2Z.id).
    destruct (decide (Z.of_nat i < 32)); [apply H0; lia|].
    destruct (decide (Z.of_nat i < 64)); [apply H1; lia|apply H2; lia].
Qed.

(** The invariant reads the vcpus and the queues only. *)
Lemma core_inv_ext l ks ks' :
  vcpus ks' = vcpus ks -> rq_priority ks' = rq_priority ks ->
  rq_populated ks' = rq_populated ks -> waitqs ks' = waitqs ks ->
  core_inv l ks -> core_inv l ks'.
Proof.
  destruct ks, ks'. simpl. intros -> -> -> -> [[H1 H2 H3 H4 H5 H6] Hr Hw Hp].
  constructor; [constructor; assumption|assumption..].
Qed.

(** ** What the search returns *)

Lemma top_queue ks (n : nat) :
  (forall p, 0 <= p < Z.of_nat n -> rq_at ks p = []) \/
  exists p, 0 <= p < Z.of_nat n /\ rq_at ks p <> [] /\
    forall p', p < p' < Z.of_nat n -> rq_at ks p' = [].
Proof.
  induction n as [|n [IH|(p & Hp & Hne & Hab)]]; [left; lia|..];
    (destruct (rq_at ks (Z.of_nat n)) eqn:E;
     [|right; exists (Z.of_nat n); rewrite E; split_and!; [lia|lia|done|lia]]).
  - left. intros p Hp. destruct (decide (p = Z.of_nat n)); [by subst|apply IH; lia].
  - right. exists p. split_and!; [lia|lia|done|]. intros p' Hp'.
    destruct (decide (p' = Z.of_nat n)); [by subst|apply Hab; lia].
Qed.

Lemma highest_ready_Some ks vp :
  core_inv None ks -> sched_highest_priority_ready ks = Some vp ->
  exists v, vcpus ks !! vp = Some v /\ run_state v = VCPU_STATE_READY /\
    forall x u, vcpus ks !! x = Some u -> run_state u = VCPU_STATE_READY -> cur_priority u <= cur_priority v.
Proof.
  intros Hc. rewrite highest_ready_is_scan by apply Hc. intros Hs.
  destruct (top_queue ks 80) as [H|(p & Hp & Hne & Hab)].
  - exfalso. unfold highest_ready_scan in Hs. rewrite (head_concat_skip _ 0) in Hs; [done|].
    intros i q _ Hq. pose proof (lookup_lt_Some _ _ _ Hq) as Hi. rewrite (rq_len _ (ci_wf _ _ Hc)) in Hi.
    rewrite <-(H (Z.of_nat i)) by lia. symmetry. apply arr_get_lookup. by rewrite Nat2Z.id.
  - rewrite (scan_at ks p) in Hs by (done || apply Hc).
    assert (Hin : vp ∈ rq_at ks p) by (destruct (rq_at ks p); simplify_eq/=; set_solver).
    apply (ci_ready _ _ Hc) in Hin as (_ & v & Hv & Hr & Hcp); [|lia].
    exists v. split_and!; [done..|]. intros x u Hx Hu. pose proof (ci_pri _ _ Hc x u Hx) as Hpu.
    destruct (decide (cur_priority u <= cur_priority v)); [done|]. exfalso.
    apply (not_elem_of_nil x). rewrite <-(Hab (cur_priority u)) by lia.
    apply (ci_ready _ _ Hc); [lia|]. naive_solver.
Qed.

Lemma highest_ready_exists ks vp v :
  core_inv None ks -> vcpus ks !! vp = Some v -> run_state v = VCPU_STATE_READY ->
  is_Some (sched_highest_priority_ready ks).
Proof.
  intros Hc Hv Hr. rewrite highest_ready_is_scan by apply Hc. pose proof (ci_pri _ _ Hc vp v Hv) as Hp.
  assert (Hin : vp ∈ rq_at ks (cur_priority v)) by (apply (ci_ready _ _ Hc); [lia|naive_solver]).
  destruct (top_queue ks 80) as [H|(p & Hp' & Hne & Hab)].
  - rewrite H in Hin by lia. by apply not_elem_of_nil in Hin.
  - rewrite (scan_at ks p) by (done || apply Hc). destruct (rq_at ks p); [done|by eexists].
Qed.

(** ** Wait queues *)

Lemma wq_get_set w q ks x : wq_get x (wq_set w q ks) = if decide (w = x) then q else wq_get x ks.
Proof. unfold wq_get, wq_set. simpl. rewrite lookup_insert. by case_decide. Qed.

Lemma wq_set_wf w q ks : rq_wf ks -> NoDup q -> rq_wf (wq_set w q ks).
Proof.
  intros [] Hq. constructor; try done. intros x. rewrite wq_get_set. by case_decide.
Qed.

Lemma core_wq_remove w vp v ks :
  core_inv None ks -> vcpus ks !! vp = Some v -> run_state v = VCPU_STATE_WAITING ->
  waiting_on_wait_queue v = Some w ->
  core_inv (Some vp) (wq_set w (dq_remove vp (wq_get w ks)) ks).
Proof.
  intros [Hwf Hr Hw Hp] Hv Hs Hwo. constructor.
  - apply wq_set_wf; [done|]. apply NoDup_dq_remove, Hwf.
  - intros pri x Hx. rewrite (Hr pri x Hx : x ∈ rq_at (wq_set _ _ ks) pri <-> _). simpl.
    destruct (decide (x = vp)) as [->|]; [|naive_solver].
    split; [|naive_solver]. intros (_ & v' & Hv' & Hs' & _). simplify_eq. congruence.
  - intros wq x. rewrite wq_get_set. case_decide as E; [subst; rewrite elem_of_dq_remove|]; rewrite Hw; simpl.
    + naive_solver.
    + destruct (decide (x = vp)) as [->|]; [|naive_solver]. naive_solver.
  - done.
Qed.

(** The running vcpu, marked as waiting on [w], joins the queue. *)
Lemma core_wq_add w vp v f ks :
  core_inv None ks -> vcpus ks !! vp = Some v -> off_queue v ->
  run_state (f v) = VCPU_STATE_WAITING -> waiting_on_wait_queue (f v) = Some w ->
  cur_priority (f v) = cur_priority v ->
  core_inv None (upd_vp vp f (wq_set w (dq_add_last vp (wq_get w ks)) ks)).
Proof.
  intros Hc Hv Hoff Hs Hwo Hcp. pose proof (core_to_limbo _ _ _ Hc Hv Hoff) as [Hwf Hr Hw Hp].
  assert (Hlk : forall x, vcpus (upd_vp vp f (wq_set w (dq_add_last vp (wq_get w ks)) ks)) !! x
    = if decide (vp = x) then Some (f v) else vcpus ks !! x).
  { intros x. rewrite lookup_upd_vp. simpl. case_decide; [subst; by rewrite Hv|done]. }
  constructor.
  - apply upd_vp_wf, wq_set_wf; [done|]. apply (NoDup_enqueue true); [apply Hwf|].
    intros Hin. by apply Hw in Hin as [? _].
  - intros pri x Hx. rewrite Hlk. etrans; [exact (Hr pri x Hx)|].
    case_decide as E; [subst x|naive_solver].
    split; [by intros [? _]|]. intros (_ & v' & [= <-] & Hs' & _). congruence.
  - intros wq x. rewrite wq_get_upd_vp, wq_get_set, Hlk. destruct (decide (vp = x)) as [<-|Hne].
    + split; [intros Hin|intros (_ & v' & [= <-] & _ & Hwo')].
      * split; [done|]. exists (f v). case_decide; [by subst|]. by apply Hw in Hin as [? _].
      * rewrite decide_True by congruence. apply (elem_of_enqueue true). by left.
    + pose proof (ci_wait _ _ Hc wq x) as Hx.
      rewrite <-Hx. case_decide; [subst|done]. rewrite (elem_of_enqueue true). naive_solver.
  - intros x u. rewrite Hlk. case_decide; [intros [= <-]; rewrite Hcp|]; by eauto.
Qed.
