(* ===== verification/SchedOps.v ===== *)
(** * Every scheduler operation keeps the scheduler's invariant

    The invariant of a vcpu on its own ([vcpu_local]), of the whole scheduler
    ([inv_l], with an optional vcpu in limbo, and [sched_inv]), one lemma per
    operation that it succeeds and preserves the invariant, and the transition
    relation of the scheduler with its reachable states. *)

From Stdlib Require Import Sorting.Sorted.
From S2P Require Import Prelude Deque ExtBit Vcpu Sched SchedInv.

(** ** The invariant *)

Record vcpu_ok (v : vcpu) : Prop := {
  vk_params : params_ok v;
  vk_cur : cur_priority v = effective_priority v;
  vk_fixed : flag_fixed_pri v = is_fixed_band (base_priority v);
  vk_stack : stack_ok v = true;
  vk_susp : 0 <= suspension_count v <= 32767;
  vk_susp_pos : run_state v = VCPU_STATE_SUSPENDED -> 0 < suspension_count v;
}.

(** What holds of each vcpu: it waits on some queue when it is waiting, it is
    the running one when it is RUNNING, its timeout is armed only while it
    waits and exactly when the clock has it, and the idle vcpu never blocks. *)
Record vcpu_local (run : option positive) (idle : positive) (dq : list (positive * Z))
    (vp : positive) (v : vcpu) : Prop := {
  vl_ok : vcpu_ok v;
  vl_wait : run_state v = VCPU_STATE_WAITING -> is_Some (waiting_on_wait_queue v);
  vl_run : run_state v = VCPU_STATE_RUNNING -> run = Some vp;
  vl_armed : timeout_isArmed v = true -> run_state v = VCPU_STATE_WAITING;
  vl_dq : forall d, (vp, d) ∈ dq <-> timeout_isArmed v = true /\ timeout_deadline v = d;
  vl_idle : vp = idle ->
    (run_state v = VCPU_STATE_READY \/ run_state v = VCPU_STATE_RUNNING) /\ suspension_count v = 0;
}.

Record inv_l (limbo : option positive) (ks : kstate) : Prop := {
  il_core : core_inv limbo ks;
  il_local : forall vp v, limbo <> Some vp -> vcpus ks !! vp = Some v ->
    vcpu_local (running ks) (idle_vp ks) (deadline_queue ks) vp v;
  il_sorted : StronglySorted (fun a b : positive * Z => a.2 <= b.2) (deadline_queue ks);
  il_nodup : NoDup (deadline_queue ks).*1;
  il_dom : forall vp d, (vp, d) ∈ deadline_queue ks -> is_Some (vcpus ks !! vp);
  il_idle : is_Some (vcpus ks !! idle_vp ks);
  il_run : exists r v, running ks = Some r /\ vcpus ks !! r = Some v;
}.

(** Between two operations: the running vcpu is RUNNING, no context switch is
    pending and no interrupt is being served. *)
Record sched_inv (ks : kstate) : Prop := {
  si_inv : inv_l None ks;
  si_running : exists r v, running ks = Some r /\ vcpus ks !! r = Some v /\
    run_state v = VCPU_STATE_RUNNING;
  si_scheduled : scheduled ks = None;
  si_switch : csw_switch ks = false;
  si_preempted : csw_preempted ks = false;
  si_nest : irq_nest_count ks = 0;
}.

Lemma inv_local ks vp v :
  inv_l None ks -> vcpus ks !! vp = Some v ->
  vcpu_local (running ks) (idle_vp ks) (deadline_queue ks) vp v.
Proof. intros H Hv. by apply (il_local _ _ H). Qed.

Lemma vcpu_ok_cur v : vcpu_ok v -> 0 <= cur_priority v < 80.
Proof. intros H. rewrite (vk_cur _ H). by apply effective_priority_range, H. Qed.

(** Recomputing the priority of well-formed parameters gives a vcpu whose
    priority is the effective one. *)
Lemma changed_ok ob om v :
  params_ok v -> stack_ok v = true -> 0 <= suspension_count v <= 32767 ->
  (run_state v = VCPU_STATE_SUSPENDED -> 0 < suspension_count v) ->
  vcpu_ok (vcpu_on_sched_param_changed_np ob om v).
Proof.
  intros Hp Hs Hc Hc'. pose proof (param_changed_frame ob om v) as (E1&E2&E3&E4&E5&E6&E7&E8&E9&E10&E11).
  constructor; rewrite ?E1, ?E5, ?E7, ?E10; try done.
  - destruct Hp. constructor; congruence || (rewrite ?E1, ?E2, ?E3, ?E4; done).
  - rewrite param_changed_cur by done. unfold effective_priority. by rewrite E1, E2, E3, E4.
  - by apply param_changed_flag.
Qed.

(** A change that touches none of the fields [vcpu_ok] reads. *)
Lemma vcpu_ok_frame v v' :
  vcpu_ok v ->
  base_priority v' = base_priority v -> cur_priority v' = cur_priority v ->
  priority_penalty v' = priority_penalty v -> priority_boost v' = priority_boost v ->
  sched_nice v' = sched_nice v -> flag_fixed_pri v' = flag_fixed_pri v ->
  stack_ok v' = stack_ok v -> suspension_count v' = suspension_count v ->
  (run_state v' = VCPU_STATE_SUSPENDED -> run_state v = VCPU_STATE_SUSPENDED) ->
  vcpu_ok v'.
Proof.
  intros [[]] E1 E2 E3 E4 E5 E6 E7 E8 E9.
  constructor; rewrite ?E2, ?E6, ?E7, ?E8, ?E1; auto; [constructor; congruence|].
  unfold effective_priority in *. by rewrite E1, E3, E4, E5.
Qed.

(** ** Taking a vcpu into limbo and back *)

Lemma inv_weaken vp ks : core_inv (Some vp) ks -> inv_l None ks -> inv_l (Some vp) ks.
Proof. intros Hc []. constructor; naive_solver. Qed.

Lemma inv_upd_limbo vp f ks :
  inv_l (Some vp) ks ->
  (forall v, vcpus ks !! vp = Some v -> 0 <= cur_priority (f v) < 80) ->
  inv_l (Some vp) (upd_vp vp f ks).
Proof.
  intros [Hc Hl Hs Hn Hd Hi (r & v & Hr & Hv)] Hf. constructor; try done.
  - by apply core_upd_limbo.
  - intros x v' Hx. rewrite lookup_upd_vp, decide_False by naive_solver. by apply Hl.
  - intros x d Hx. rewrite lookup_upd_vp. case_decide; [apply fmap_is_Some|]; by eapply Hd.
  - rewrite lookup_upd_vp. simpl. case_decide; [by apply fmap_is_Some|done].
  - exists r. simpl. destruct (vcpus (upd_vp vp f ks) !! r) eqn:E; [by eauto|].
    rewrite lookup_upd_vp, Hv in E. by case_decide.
Qed.

Lemma inv_restore vp f ks ks' :
  inv_l (Some vp) ks -> core_inv None ks' -> same_env ks ks' ->
  vcpus ks' = alter f vp (vcpus ks) ->
  (forall v, vcpus ks !! vp = Some v ->
     vcpu_local (running ks) (idle_vp ks) (deadline_queue ks) vp (f v)) ->
  inv_l None ks'.
Proof.
  intros [_ Hl Hs Hn Hd Hi (r & v & Hr & Hv)] Hc He Hvs Hf. destruct He as [Ep Er Es Esw Epr En Eid Eb Ewq Et Ed].
  assert (Hlk : forall x, is_Some (vcpus ks !! x) -> is_Some (vcpus ks' !! x)).
  { intros x Hx. rewrite Hvs, lookup_alter. case_decide; subst; [by apply fmap_is_Some|done]. }
  constructor; rewrite ?Er, ?Eid, ?Ed; try done.
  - intros x v' _. rewrite Hvs, lookup_alter. case_decide as E; [subst x|apply Hl; naive_solver].
    intros (v0 & Hv0 & ->)%fmap_Some. by apply Hf.
  - intros x d Hx. by eapply Hlk, Hd.
  - by apply Hlk.
  - destruct (Hlk r) as [v' Hv']; [by eauto|]. eauto.
Qed.

Lemma inv_set_ready vp v b ks :
  inv_l (Some vp) ks -> vcpus ks !! vp = Some v ->
  vcpu_local (running ks) (idle_vp ks) (deadline_queue ks) vp (set_run_state VCPU_STATE_READY v) ->
  exists ks', sched_set_ready ks vp b = Some ks' /\ inv_l None ks' /\ same_env ks ks' /\
    vcpus ks' = alter (set_run_state VCPU_STATE_READY) vp (vcpus ks).
Proof.
  intros Hi Hv Hl. destruct (set_ready_spec ks vp v b (il_core _ _ Hi) Hv) as (ks' & Hk & Hc & He & Hvs).
  exists ks'. split_and!; try done. eapply inv_restore; [done..|]. intros v0 Hv0. by simplify_eq.
Qed.

(** ** Context switches *)

(** The state after a context switch: [s] runs and nothing is pending. *)
Record switched (ks : kstate) (s : positive) (ks' : kstate) : Prop := {
  sw_inv : inv_l None ks';
  sw_running : running ks' = Some s;
  sw_state : exists v, vcpus ks' !! s = Some v /\ run_state v = VCPU_STATE_RUNNING;
  sw_scheduled : scheduled ks' = None;
  sw_switch : csw_switch ks' = false;
  sw_preempted : csw_preempted ks' = false;
  sw_nest : irq_nest_count ks' = irq_nest_count ks;
  sw_ids : idle_vp ks' = idle_vp ks /\ boot_vp ks' = boot_vp ks;
  sw_waitqs : waitqs ks' = waitqs ks;
}.

Lemma switched_inv ks s ks' : switched ks s ks' -> irq_nest_count ks = 0 -> sched_inv ks'.
Proof. intros [? ? (v & ? & ?)] Hn. constructor; try done; [by eauto|congruence]. Qed.

Definition none_running (ks : kstate) : Prop :=
  forall vp v, vcpus ks !! vp = Some v -> run_state v <> VCPU_STATE_RUNNING.

Lemma local_running run idle dq vp v :
  vcpu_local run idle dq vp v -> run_state v = VCPU_STATE_READY ->
  vcpu_local (Some vp) idle dq vp (set_run_state VCPU_STATE_RUNNING v).
Proof.
  intros [Hok Hw Hr Ha Hd Hi] Hs. constructor; simpl; try done.
  - by eapply vcpu_ok_frame.
  - intros Ht. specialize (Ha Ht). congruence.
  - intros E. destruct (Hi E). auto.
Qed.

Lemma csw_restore_spec ks s v :
  inv_l None ks -> none_running ks -> scheduled ks = Some s ->
  vcpus ks !! s = Some v -> run_state v = VCPU_STATE_READY ->
  exists ks', csw_restore ks = Some ks' /\ switched ks s ks' /\
    vcpus ks' = alter (set_run_state VCPU_STATE_RUNNING) s (vcpus ks).
Proof.
  intros Hi Hnr Hs Hv Hrd. pose proof (inv_local _ _ _ Hi Hv) as Hl.
  destruct (set_unready_spec ks s v true (il_core _ _ Hi) Hv Hrd) as (k1 & Hk & Hc & He & Hvs).
  { intros _. apply Hl. }
  unfold csw_restore. rewrite Hs. simpl. rewrite Hk. simpl. eexists. split; [done|]. split; [|done].
  assert (Hv1 : vcpus k1 !! s = Some (set_run_state VCPU_STATE_RUNNING v)).
  { by rewrite Hvs, lookup_alter, decide_True, Hv by done. }
  destruct He as [Ep Er Es Esw Epr En Eid Eb Ewq Et Ed], Hi as [_ Hil Hso Hnd Hd Hid _]. constructor; simpl; try done; [|by eauto].
  constructor; simpl; rewrite ?Ed, ?Eid; try done.
  - eapply core_inv_ext; [..|eapply (core_from_limbo s); [exact Hc|exact Hv1|by left]]; done.
  - intros x v' _. rewrite Hvs, lookup_alter. case_decide as E; [subst x; rewrite Hv; intros [= <-]; by eapply local_running|].
    intros Hx. pose proof (Hnr _ _ Hx). destruct (Hil x v' ltac:(done) Hx). by constructor.
  - intros x d Hx. rewrite Hvs, lookup_alter. case_decide; [subst; apply fmap_is_Some|]; by eapply Hd.
  - rewrite Hvs, lookup_alter. case_decide; [subst; by apply fmap_is_Some|done].
  - eauto.
Qed.

Lemma local_ready run run' idle dq vp v :
  vcpu_local run idle dq vp v -> run_state v = VCPU_STATE_RUNNING ->
  vcpu_local run' idle dq vp (set_run_state VCPU_STATE_READY v).
Proof.
  intros [Hok Hw Hr Ha Hd Hi] Hs. constructor; simpl; try done.
  - by eapply vcpu_ok_frame.
  - intros Ht. specialize (Ha Ht). congruence.
  - intros E. destruct (Hi E). auto.
Qed.

Lemma switch_context_spec ks s v :
  inv_l None ks -> scheduled ks = Some s ->
  vcpus ks !! s = Some v -> run_state v = VCPU_STATE_READY ->
  exists ks', sched_switch_context ks = Some ks' /\ switched ks s ks' /\
    forall vp u, vcpus ks !! vp = Some u ->
      vcpus ks' !! vp = Some (if decide (vp = s) then set_run_state VCPU_STATE_RUNNING u
        else if decide (run_state u = VCPU_STATE_RUNNING) then set_run_state VCPU_STATE_READY u else u).
Proof.
  intros Hi Hs Hv Hrd. destruct (il_run _ _ Hi) as (r & rv & Hr & Hrv).
  unfold sched_switch_context. rewrite Hr. cbn [mbind option_bind]. rewrite Hrv. cbn [mbind option_bind].
  assert (Honly : forall vp u, vcpus ks !! vp = Some u -> run_state u = VCPU_STATE_RUNNING -> vp = r).
  { intros vp u Hu Hru. pose proof (vl_run _ _ _ _ _ (inv_local _ _ _ Hi Hu) Hru). congruence. }
  case_bool_decide as E.
  - assert (Hne : s <> r) by (intros ->; congruence).
    destruct (inv_set_ready r rv (negb (csw_preempted ks)) ks) as (k1 & Hk1 & Hi1 & He & Hvs); [|done| |].
    { apply inv_weaken; [|done]. eapply core_to_limbo; [apply Hi|done|by left]. }
    { eapply local_ready; [by apply inv_local|done]. }
    assert (Hlk : forall x, vcpus k1 !! x = if decide (r = x) then Some (set_run_state VCPU_STATE_READY rv) else vcpus ks !! x).
    { intros x. rewrite Hvs, lookup_alter. case_decide; subst; [by rewrite Hrv|done]. }
    rewrite Hk1. cbn [mbind option_bind].
    destruct (csw_restore_spec k1 s v) as (k2 & -> & Hsw & Hv2); try done.
    { intros x u. rewrite Hlk. case_decide; [by intros [= <-]|]. intros Hu Hru. by eapply Honly in Hu. }
    { destruct He as [Ep Er Es Esw Epr En Eid Eb Ewq Et Ed]. congruence. }
    { by rewrite Hlk, decide_False. }
    exists k2. destruct He as [Ep Er Es Esw Epr En Eid Eb Ewq Et Ed], Hsw as [? ? ? ? ? ? ? [? ?] ?].
    split_and!; [done| |].
    + constructor; try done; [congruence|split; congruence|congruence].
    + intros vp u Hu. rewrite Hv2, lookup_alter, !Hlk.
      destruct (decide (s = vp)) as [->|]; [by rewrite decide_False, decide_True, Hu|].
      rewrite (decide_False (P := vp = s)) by done.
      destruct (decide (r = vp)) as [->|]; [simplify_eq; by rewrite decide_True|].
      rewrite decide_False; [done|]. intros Hru. by eapply Honly in Hu.
  - cbn [mbind option_bind]. destruct (csw_restore_spec ks s v) as (k2 & -> & Hsw & Hv2); try done.
    { intros x u Hu Hru. pose proof (Honly _ _ Hu Hru). by simplify_eq. }
    exists k2. split_and!; [done..|]. intros vp u Hu. rewrite Hv2, lookup_alter, Hu.
    destruct (decide (s = vp)) as [->|]; [by rewrite Hu, decide_True|]. rewrite (decide_False (P := vp = s)) by done.
    rewrite decide_False; [done|]. intros Hru. pose proof (Honly _ _ Hu Hru). by simplify_eq.
Qed.

(** ** Changing one vcpu in place *)

(** A change is in place when the queues need not follow it. *)
Definition in_place (v v' : vcpu) : Prop := same_place v v' \/ (off_queue v /\ off_queue v').

Lemma inv_upd vp f ks :
  inv_l None ks ->
  (forall v, vcpus ks !! vp = Some v -> in_place v (f v)) ->
  (forall v, vcpus ks !! vp = Some v ->
     vcpu_local (running ks) (idle_vp ks) (deadline_queue ks) vp (f v)) ->
  inv_l None (upd_vp vp f ks).
Proof.
  intros Hi Hpl Hl. destruct (vcpus ks !! vp) as [v|] eqn:Hv.
  2:{ replace (upd_vp vp f ks) with ks; [done|]. unfold upd_vp.
      rewrite alter_id; [by destruct ks|]. intros v Hv'. congruence. }
  assert (Hok : 0 <= cur_priority (f v) < 80) by (apply vcpu_ok_cur, (Hl v); done).
  destruct (Hpl v eq_refl) as [Hs|[Ho Ho']].
  - destruct Hi as [Hc Hil Hso Hnd Hd Hid (r & rv & Hr & Hrv)].
    assert (Hlk : forall x, is_Some (vcpus ks !! x) -> is_Some (vcpus (upd_vp vp f ks) !! x)).
    { intros x Hx. rewrite lookup_upd_vp. case_decide; [by apply fmap_is_Some|done]. }
    constructor; try done.
    + apply core_upd_same; [done|]. intros v0 Hv0. by simplify_eq.
    + intros x u _. rewrite lookup_upd_vp. case_decide; [subst x; rewrite Hv|by apply Hil].
      intros [= <-]. by apply Hl.
    + intros x d Hx. by eapply Hlk, Hd.
    + by apply Hlk.
    + destruct (Hlk r) as [u Hu]; [by eauto|]. exists r, u. done.
  - assert (Hc1 : core_inv (Some vp) ks) by (eapply core_to_limbo; [apply Hi|done..]).
    eapply (inv_restore vp f ks); [by apply inv_weaken| |by constructor|done|intros ? ?; apply Hl; congruence].
    eapply (core_from_limbo vp (f v)); [|by rewrite lookup_upd_vp, decide_True, Hv by done|done].
    apply core_upd_limbo; [done|]. intros v0 Hv0. by simplify_eq.
Qed.

(** The fields of a vcpu that say what it waits for. *)
Record wait_frame (v v' : vcpu) : Prop := {
  wf_state : run_state v' = run_state v;
  wf_wait : waiting_on_wait_queue v' = waiting_on_wait_queue v;
  wf_armed : timeout_isArmed v' = timeout_isArmed v;
  wf_deadline : timeout_deadline v' = timeout_deadline v;
  wf_susp : suspension_count v' = suspension_count v;
}.

Lemma local_frame run idle dq vp v v' :
  vcpu_local run idle dq vp v -> vcpu_ok v' -> wait_frame v v' -> vcpu_local run idle dq vp v'.
Proof.
  intros [] Hok [E1 E2 E3 E4 E5]. constructor; rewrite ?E1, ?E2, ?E3, ?E4, ?E5; auto.
Qed.

(** Changing the scheduling parameters of a vcpu keeps the invariant when the
    priority of a ready one stays. *)
Lemma inv_upd_frame vp f ks :
  inv_l None ks ->
  (forall v, vcpus ks !! vp = Some v -> vcpu_ok v ->
     vcpu_ok (f v) /\ wait_frame v (f v) /\
     (run_state v = VCPU_STATE_READY -> cur_priority (f v) = cur_priority v)) ->
  inv_l None (upd_vp vp f ks).
Proof.
  intros Hi Hf. apply inv_upd; [done|..]; intros v Hv; pose proof (inv_local _ _ _ Hi Hv) as Hl;
    destruct (Hf v Hv (vl_ok _ _ _ _ _ Hl)) as (Hok & Hfr & Hoff).
  - destruct Hfr as [E1 E2 _ _ _]. by left.
  - by eapply local_frame.
Qed.

Lemma sched_inv_upd_frame vp f ks :
  sched_inv ks ->
  (forall v, vcpus ks !! vp = Some v -> vcpu_ok v ->
     vcpu_ok (f v) /\ wait_frame v (f v) /\
     (run_state v = VCPU_STATE_READY -> cur_priority (f v) = cur_priority v)) ->
  sched_inv (upd_vp vp f ks).
Proof.
  intros [Hi (r & v & Hr & Hv & Hs) H1 H2 H3 H4] Hf. constructor; try done; [by apply inv_upd_frame|].
  exists r, (if decide (vp = r) then f v else v). split; [done|].
  rewrite lookup_upd_vp, Hv. case_decide as E; [subst|done]. split; [done|].
  destruct (Hf v Hv) as (_ & [E1 _ _ _ _] & _); [by eapply inv_local|congruence].
Qed.

(** The counters of processes and of the scheduler are outside the invariant. *)
Lemma inv_ext l ks ks' :
  vcpus ks' = vcpus ks -> rq_priority ks' = rq_priority ks ->
  rq_populated ks' = rq_populated ks -> waitqs ks' = waitqs ks ->
  running ks' = running ks -> idle_vp ks' = idle_vp ks -> deadline_queue ks' = deadline_queue ks ->
  inv_l l ks -> inv_l l ks'.
Proof.
  intros E1 E2 E3 E4 E5 E6 E7 [Hc Hil Hso Hnd Hd Hid Hr].
  constructor; rewrite ?E1, ?E5, ?E6, ?E7; try done. by eapply core_inv_ext.
Qed.
Lemma sched_inv_ext ks ks' :
  vcpus ks' = vcpus ks -> rq_priority ks' = rq_priority ks ->
  rq_populated ks' = rq_populated ks -> waitqs ks' = waitqs ks ->
  running ks' = running ks -> idle_vp ks' = idle_vp ks -> deadline_queue ks' = deadline_queue ks ->
  scheduled ks' = scheduled ks -> csw_switch ks' = csw_switch ks ->
  csw_preempted ks' = csw_preempted ks -> irq_nest_count ks' = irq_nest_count ks ->
  sched_inv ks -> sched_inv ks'.
Proof.
  intros E1 E2 E3 E4 E5 E6 E7 E8 E9 E10 E11 [Hi Hr H1 H2 H3 H4].
  constructor; rewrite ?E1, ?E5, ?E8, ?E9, ?E10, ?E11; try done. by eapply inv_ext.
Qed.

Lemma sched_inv_upd_proc p f ks : sched_inv ks -> sched_inv (upd_proc p f ks).
Proof. by apply sched_inv_ext. Qed.

(** ** Switching to the best ready vcpu *)

(** While another vcpu runs, the idle vcpu is ready, so there is always a vcpu
    to switch to. *)
Lemma switch_to_best ks :
  inv_l None ks -> (forall v, vcpus ks !! idle_vp ks = Some v -> run_state v = VCPU_STATE_READY) ->
  exists ks' s, sched_highest_priority_ready ks = Some s /\
    sched_switch_to ks (sched_highest_priority_ready ks) = Some ks' /\ switched ks s ks'.
Proof.
  intros Hi Hid. destruct (il_idle _ _ Hi) as [iv Hiv].
  destruct (highest_ready_exists ks _ iv (il_core _ _ Hi) Hiv (Hid iv Hiv)) as [s Hs].
  destruct (highest_ready_Some ks s (il_core _ _ Hi) Hs) as (v & Hv & Hr & _).
  destruct (switch_context_spec (sched_set_running (Some s) ks) s v) as (ks' & Hk & Hsw & _); try done.
  { by eapply inv_ext; [..|exact Hi]. }
  exists ks', s. rewrite Hs. split_and!; [done..|]. by destruct Hsw.
Qed.

Section OpSpecs.
Context (ob om : Z -> Z).
Local Abbreviation changed := (vcpu_on_sched_param_changed_np ob om).

(** ** The parameter updates keep a vcpu well formed *)

Ltac sched_consts :=
  change SCHED_PRI_COUNT with 80 in *; change SCHED_PRI_HIGHEST with 79 in *;
  change (VCPU_QOS_URGENT * VCPU_PRI_COUNT) with 64 in *; change VCPU_PRI_COUNT with 16 in *.
Ltac solve_params :=
  constructor; sched_consts;
  cbn [base_priority priority_penalty priority_boost sched_nice set_priority_penalty set_priority_boost
       set_quantum_boost set_base_priority vcpu_set_base_priority_np];
  try rewrite s8_small by lia; try (Z.to_euclidean_division_equations; lia).

Lemma changed_frame v : wait_frame v (changed v).
Proof. pose proof (param_changed_frame ob om v). constructor; naive_solver. Qed.

Lemma wait_frame_trans a b c : wait_frame a b -> wait_frame b c -> wait_frame a c.
Proof. intros [] []. constructor; congruence. Qed.

(** Recomputing after a change [v'] of the parameters of [v]. *)
Lemma changed_step v v' :
  vcpu_ok v -> params_ok v' -> stack_ok v' = stack_ok v -> wait_frame v v' ->
  vcpu_ok (changed v') /\ wait_frame v (changed v').
Proof.
  intros [] Hp Hs Hf. split; [|eapply wait_frame_trans; [done|apply changed_frame]].
  destruct Hf as [E1 _ _ _ E5]. apply changed_ok; rewrite ?E1, ?E5; auto. congruence.
Qed.

Lemma wakeup_boost_ok b v :
  vcpu_ok v -> vcpu_ok (wakeup_boost ob om b v) /\ wait_frame v (wakeup_boost ob om b v).
Proof.
  intros Hok. unfold wakeup_boost. pose proof (vk_params _ Hok) as [Hb Hp Hbo Hn].
  sched_consts.
  destruct (vcpu_is_fixed_pri v); [done|].
  destruct (Z.ltb_spec 0 (priority_penalty v)), (Z.ltb_spec 0 b); cbn [orb]; [..|done];
    (apply changed_step; [done| |done|done]); solve_params.
Qed.

Lemma quantum_end_ok v :
  vcpu_ok v -> vcpu_ok (quantum_end ob om v) /\ wait_frame v (quantum_end ob om v).
Proof.
  intros Hok. pose proof (vk_params _ Hok) as [Hb Hp Hbo Hn].
  sched_consts.
  assert (Hend : forall v1, vcpu_ok v1 /\ wait_frame v v1 ->
    vcpu_ok (vcpu_reset_quantum_np ob om (set_flag_did_wait false v1)) /\
    wait_frame v (vcpu_reset_quantum_np ob om (set_flag_did_wait false v1))).
  { intros v1 [H1 H2]. split; [by eapply vcpu_ok_frame|]. eapply wait_frame_trans; [done|done]. }
  unfold quantum_end. apply Hend. change SCHED_PRI_HIGHEST with 79.
  destruct (vcpu_is_fixed_pri v); [done|].
  destruct (flag_did_wait v); cbn [negb orb].
  - destruct (Z.ltb_spec 0 (priority_boost v)); [|done].
    apply changed_step; [done| |done|done]. solve_params.
  - assert (Hlt : forall x, (0 <? priority_boost (if x : bool then
       set_priority_penalty (priority_penalty v + 1) (set_quantum_boost 0 (set_priority_boost 0 v))
       else set_quantum_boost 0 (set_priority_boost 0 v))) = false) by (by intros []).
    change (priority_penalty (set_quantum_boost 0 (set_priority_boost 0 v))) with (priority_penalty v).
    rewrite Hlt. destruct (Z.ltb_spec (priority_penalty v) 79);
      (apply changed_step; [done| |done|done]); solve_params.
Qed.

Lemma halve_penalty_ok v :
  vcpu_ok v ->
  let v' := changed (set_priority_penalty (priority_penalty v / 2) v) in
  vcpu_ok v' /\ wait_frame v v'.
Proof.
  intros Hok. pose proof (vk_params _ Hok) as [Hb Hp Hbo Hn].
  apply changed_step; [done| |done|done]. solve_params.
Qed.

Lemma set_policy_ok p v :
  validate_vcpu_policy p = EOK -> vcpu_ok v ->
  let v' := changed (vcpu_set_base_priority_np p v) in vcpu_ok v' /\ wait_frame v v'.
Proof.
  intros Hp Hok. destruct (valid_policy_base p Hp) as [Hr _].
  pose proof (vk_params _ Hok) as [Hb Hpe Hbo Hn].
  apply changed_step; [done| |done|done]. solve_params.
Qed.

(** ** Cancelling a timeout *)

(** What is the same before and after an operation that does not switch. *)
Record same_ctx (ks ks' : kstate) : Prop := {
  sc_running : running ks' = running ks;
  sc_scheduled : scheduled ks' = scheduled ks;
  sc_switch : csw_switch ks' = csw_switch ks;
  sc_preempted : csw_preempted ks' = csw_preempted ks;
  sc_nest : irq_nest_count ks' = irq_nest_count ks;
  sc_idle : idle_vp ks' = idle_vp ks;
  sc_boot : boot_vp ks' = boot_vp ks;
}.

Lemma same_ctx_refl ks : same_ctx ks ks.
Proof. by constructor. Qed.
Lemma same_ctx_trans a b c : same_ctx a b -> same_ctx b c -> same_ctx a c.
Proof. intros [] []. constructor; congruence. Qed.
Lemma same_env_ctx a b : same_env a b -> same_ctx a b.
Proof. intros []. by constructor. Qed.

Lemma sorted_filter {A} (R : A -> A -> Prop) (P : A -> Prop) `{forall x, Decision (P x)} l :
  StronglySorted R l -> StronglySorted R (filter P l).
Proof.
  induction 1 as [|x l Hs IH Hf]; [constructor|]. rewrite filter_cons. case_decide; [|done].
  constructor; [done|]. rewrite Forall_forall in *. intros y [_ Hy]%list_elem_of_filter. auto.
Qed.

Lemma armed_false_id v : timeout_isArmed v = false -> set_timeout_isArmed false v = v.
Proof. destruct v. simpl. by intros ->. Qed.

Lemma not_in_filter (vp : positive) (d : Z) (dq : list (positive * Z)) : (vp, d) ∉ filter (fun c => c.1 <> vp) dq.
Proof. intros [Hn _]%list_elem_of_filter. by simpl in Hn. Qed.

Lemma filter_id (vp : positive) (dq : list (positive * Z)) :
  (forall d, (vp, d) ∉ dq) -> filter (fun c => c.1 <> vp) dq = dq.
Proof.
  intros H. induction dq as [|[x d] dq IH]; [done|].
  rewrite filter_cons_True, IH; [done|intros d' Hd'; apply (H d'); set_solver|].
  simpl. intros ->. apply (H d). set_solver.
Qed.

Lemma cancel_eq vp v ks :
  vcpus ks !! vp = Some v -> (forall d, (vp, d) ∈ deadline_queue ks -> timeout_isArmed v = true) ->
  clock_cancel_deadline vp ks =
    upd_vp vp (set_timeout_isArmed false)
      (set_deadline_queue (filter (fun c => c.1 <> vp) (deadline_queue ks)) ks).
Proof.
  intros Hv Hd. unfold clock_cancel_deadline. rewrite Hv. destruct (timeout_isArmed v) eqn:E; [done|].
  rewrite filter_id by (intros d Hin; by apply Hd in Hin). unfold upd_vp. simpl.
  rewrite alter_id; [by destruct ks|]. intros v' Hv'. simplify_eq. by apply armed_false_id.
Qed.

(** Dropping the limbo vcpu's entry from the deadline queue. *)
Lemma inv_drop_deadline vp ks :
  inv_l (Some vp) ks ->
  inv_l (Some vp) (set_deadline_queue (filter (fun c => c.1 <> vp) (deadline_queue ks)) ks).
Proof.
  intros [Hc Hl Hs Hn Hd Hi Hr]. constructor; try done.
  - by apply (core_inv_ext _ ks).
  - intros x v Hx Hv. destruct (Hl x v Hx Hv) as [? ? ? ? Hdq ?]. constructor; try done.
    intros d. simpl. rewrite list_elem_of_filter, <-Hdq. naive_solver.
  - by apply sorted_filter.
  - eapply sublist_NoDup; [exact Hn|]. simpl. apply fmap_sublist, sublist_filter.
  - intros x d [_ Hx]%list_elem_of_filter. by eapply Hd.
Qed.

(** ** Wakeups *)

(** [woken w vp ks ks']: [vp] left the queue [w] and is ready. *)
Record woken (w vp : positive) (reason : Z) (ks ks' : kstate) : Prop := {
  wk_inv : inv_l None ks';
  wk_ctx : same_ctx ks ks';
  wk_vp : exists v, vcpus ks' !! vp = Some v /\ run_state v = VCPU_STATE_READY /\
    waiting_on_wait_queue v = None /\ wakeup_reason v = reason;
  wk_other : forall x, x <> vp -> vcpus ks' !! x = vcpus ks !! x;
  wk_wq : forall x, wq_get x ks' = if decide (w = x) then dq_remove vp (wq_get w ks) else wq_get x ks;
  wk_dq : deadline_queue ks' = filter (fun c => c.1 <> vp) (deadline_queue ks);
}.

Definition reason_of (flags : Z) : Z :=
  if Z.land flags WAKEUP_TIMEOUT =? WAKEUP_TIMEOUT then WRES_TIMEOUT else WRES_WAKEUP.

(** The vcpu that wakeup_make_ready puts on the ready queue. *)
Definition woken_vcpu (flags b : Z) (v : vcpu) : vcpu :=
  let v := wakeup_boost ob om b (set_wakeup_reason (reason_of flags)
             (set_waiting_on_wait_queue None (set_timeout_isArmed false v))) in
  if vcpu_effective_qos_class v =? VCPU_QOS_REALTIME then vcpu_reset_quantum_np ob om v else v.

Lemma wakeup_boost_reason b v : wakeup_reason (wakeup_boost ob om b v) = wakeup_reason v.
Proof.
  unfold wakeup_boost, vcpu_on_sched_param_changed_np. destruct (vcpu_is_fixed_pri v); [done|].
  by destruct (0 <? priority_penalty v), (0 <? b), (_ || (_ =? VCPU_QOS_REALTIME)).
Qed.

Lemma woken_vcpu_facts flags b v :
  vcpu_ok v ->
  vcpu_ok (woken_vcpu flags b v) /\ run_state (woken_vcpu flags b v) = run_state v /\
  waiting_on_wait_queue (woken_vcpu flags b v) = None /\
  timeout_isArmed (woken_vcpu flags b v) = false /\
  wakeup_reason (woken_vcpu flags b v) = reason_of flags.
Proof.
  intros Hok. unfold woken_vcpu.
  set (v1 := set_wakeup_reason _ _). assert (Hok1 : vcpu_ok v1) by (by eapply vcpu_ok_frame).
  destruct (wakeup_boost_ok b v1 Hok1) as [Hok2 [E1 E2 E3 E4 E5]].
  pose proof (wakeup_boost_reason b v1) as E6.
  destruct (_ =? VCPU_QOS_REALTIME); [|by rewrite E1, E2, E3, E6].
  split; [by eapply vcpu_ok_frame|]. simpl. by rewrite E1, E2, E3, E6.
Qed.

Lemma upd_upd vp f g ks : upd_vp vp g (upd_vp vp f ks) = upd_vp vp (fun v => g (f v)) ks.
Proof. unfold upd_vp, set_vcpus. simpl. f_equal. apply alter_alter_eq. Qed.

Lemma make_ready_eq w vp flags b v ks :
  vcpus ks !! vp = Some v ->
  (forall d, (vp, d) ∈ deadline_queue ks -> timeout_isArmed v = true) ->
  wakeup_make_ready ob om w vp flags b ks =
    sched_set_ready (upd_vp vp (woken_vcpu flags b)
      (set_deadline_queue (filter (fun c => c.1 <> vp) (deadline_queue ks))
        (wq_set w (dq_remove vp (wq_get w ks)) ks))) vp true.
Proof.
  intros Hv Hd. unfold wakeup_make_ready. rewrite (cancel_eq vp v) by done. by rewrite !upd_upd.
Qed.

Lemma make_ready_spec w vp flags b v ks :
  inv_l None ks -> vcpus ks !! vp = Some v -> run_state v = VCPU_STATE_WAITING ->
  waiting_on_wait_queue v = Some w ->
  exists ks', wakeup_make_ready ob om w vp flags b ks = Some ks' /\ woken w vp (reason_of flags) ks ks'.
Proof.
  intros Hi Hv Hs Hw. pose proof (inv_local _ _ _ Hi Hv) as [Hok _ _ _ Hdq Hid].
  destruct (woken_vcpu_facts flags b v Hok) as (Hok' & Hs' & Hw' & Ha' & Hr').
  rewrite (make_ready_eq w vp flags b v) by (done || (intros d Hin; by apply Hdq in Hin as [? _])).
  set (k1 := wq_set w _ ks). set (k2 := set_deadline_queue _ k1).
  assert (Hi2 : inv_l (Some vp) k2).
  { apply (inv_drop_deadline vp k1). pose proof (core_wq_remove w vp v ks (il_core _ _ Hi) Hv Hs Hw) as Hc.
    destruct Hi as [_ Hil Hso Hnd Hd Hidl Hrn]. constructor; try done. intros x u _ Hu. by apply Hil. }
  assert (Hi3 : inv_l (Some vp) (upd_vp vp (woken_vcpu flags b) k2)).
  { apply inv_upd_limbo; [done|]. intros v0 Hv0. simpl in Hv0. simplify_eq. by apply vcpu_ok_cur. }
  assert (Hv3 : vcpus (upd_vp vp (woken_vcpu flags b) k2) !! vp = Some (woken_vcpu flags b v)).
  { by rewrite lookup_upd_vp, decide_True by done; simpl; rewrite Hv. }
  destruct (inv_set_ready vp _ true _ Hi3 Hv3) as (ks' & -> & Hi' & He & Hvs).
  { constructor; simpl; try done; [by eapply vcpu_ok_frame|congruence| |].
    - intros d. rewrite Ha'. split; [by intros ?%not_in_filter|naive_solver].
    - intros E. destruct (Hid E) as [[] _]; congruence. }
  exists ks'. split; [done|]. pose proof (same_env_ctx _ _ He) as Hctx.
  destruct He as [_ _ _ _ _ _ _ _ Ewq _ Ed]. constructor; try done.
  - destruct Hctx. by constructor.
  - exists (set_run_state VCPU_STATE_READY (woken_vcpu flags b v)). rewrite Hvs, lookup_alter, decide_True, Hv3 by done. simpl. by rewrite Hw', Hr'.
  - intros x Hx. rewrite Hvs, lookup_alter_ne, lookup_upd_vp, decide_False by done. done.
  - intros x. unfold wq_get at 1. rewrite Ewq. apply (wq_get_set w (dq_remove vp (wq_get w ks)) ks x).
Qed.

Lemma immed_csw_none vp flags ks :
  (Z.land flags WAKEUP_NO_IMMED_CSW <> 0 \/ 0 < irq_nest_count ks) ->
  wakeup_immed_csw vp flags ks = Some ks.
Proof.
  intros Hno. unfold wakeup_immed_csw, sched_is_irq_ctx. destruct (_ && _) eqn:Eb; [exfalso|done].
  apply not_false_iff_true in Eb. apply Eb.
  destruct Hno as [Hf|Hn]; [by rewrite (proj2 (Z.eqb_neq _ _) Hf)|].
  by rewrite (proj2 (Z.ltb_lt _ _) Hn), andb_false_r.
Qed.

Lemma wakeup_vcpu_waiting w vp flags b v ks k1 :
  vcpus ks !! vp = Some v -> run_state v = VCPU_STATE_WAITING ->
  wakeup_make_ready ob om w vp flags b ks = Some k1 ->
  wq_wakeup_vcpu_np ob om (Some w) vp flags b ks = wakeup_immed_csw vp flags k1.
Proof.
  intros Hv Hs Hk. unfold wq_wakeup_vcpu_np. rewrite (bind_some Hv), bool_decide_true by done.
  by rewrite (bind_some (eq_refl (Some w))), (bind_some Hk).
Qed.

Lemma wakeup_vcpu_not_waiting wq vp flags b v ks :
  vcpus ks !! vp = Some v -> run_state v <> VCPU_STATE_WAITING ->
  wq_wakeup_vcpu_np ob om wq vp flags b ks = Some ks.
Proof.
  intros Hv Hs. unfold wq_wakeup_vcpu_np. by rewrite (bind_some Hv), bool_decide_false.
Qed.

(** The two outcomes of wq_wakeup_vcpu_np before the switch. *)
Lemma wakeup_vcpu_eq wq vp flags b v ks :
  inv_l None ks -> vcpus ks !! vp = Some v ->
  (run_state v = VCPU_STATE_WAITING -> wq = waiting_on_wait_queue v) ->
  (run_state v <> VCPU_STATE_WAITING /\ wq_wakeup_vcpu_np ob om wq vp flags b ks = Some ks) \/
  (exists w k1, wq = Some w /\ run_state v = VCPU_STATE_WAITING /\
     woken w vp (reason_of flags) ks k1 /\
     wq_wakeup_vcpu_np ob om wq vp flags b ks = wakeup_immed_csw vp flags k1).
Proof.
  intros Hi Hv Hwq. destruct (decide (run_state v = VCPU_STATE_WAITING)) as [E|E].
  - right. destruct (vl_wait _ _ _ _ _ (inv_local _ _ _ Hi Hv) E) as [w Hw].
    destruct (make_ready_spec w vp flags b v ks Hi Hv E Hw) as (k1 & Hk & Hwk).
    exists w, k1. rewrite (Hwq E), Hw. split_and!; [done..|]. by eapply wakeup_vcpu_waiting.
  - left. split; [done|]. by eapply wakeup_vcpu_not_waiting.
Qed.

(** wq_wakeup_vcpu_np when no immediate context switch is allowed. *)
Lemma wakeup_vcpu_noswitch wq vp flags b v ks :
  inv_l None ks -> vcpus ks !! vp = Some v ->
  (Z.land flags WAKEUP_NO_IMMED_CSW <> 0 \/ 0 < irq_nest_count ks) ->
  (run_state v = VCPU_STATE_WAITING -> wq = waiting_on_wait_queue v) ->
  exists ks', wq_wakeup_vcpu_np ob om wq vp flags b ks = Some ks' /\
    ((run_state v <> VCPU_STATE_WAITING /\ ks' = ks) \/
     exists w, wq = Some w /\ woken w vp (reason_of flags) ks ks').
Proof.
  intros Hi Hv Hno Hwq.
  destruct (wakeup_vcpu_eq wq vp flags b v ks Hi Hv Hwq) as [[Hs ->]|(w & k1 & -> & _ & Hwk & ->)]; [by eauto|].
  exists k1. split; [|by eauto]. apply immed_csw_none. by rewrite (sc_nest _ _ (wk_ctx _ _ _ _ _ Hwk)).
Qed.

Lemma woken_sched_inv w vp v reason ks ks' :
  sched_inv ks -> woken w vp reason ks ks' -> vcpus ks !! vp = Some v ->
  run_state v = VCPU_STATE_WAITING -> sched_inv ks'.
Proof.
  intros [Hi (r & rv & Hr & Hrv & Hrs) H1 H2 H3 H4] [Hi' [] _ Ho _ _] Hv Hs.
  constructor; try (done || congruence). exists r, rv. split_and!; [congruence| |done].
  rewrite Ho; [done|]. intros ->. congruence.
Qed.

(** wq_wakeup_vcpu_np from a vcpu: it may switch to the woken vcpu at once. *)
Lemma wakeup_vcpu_spec wq vp flags b v ks :
  sched_inv ks -> vcpus ks !! vp = Some v ->
  (run_state v = VCPU_STATE_WAITING -> wq = waiting_on_wait_queue v) ->
  exists ks', wq_wakeup_vcpu_np ob om wq vp flags b ks = Some ks' /\ sched_inv ks'.
Proof.
  intros Hsi Hv Hwq.
  destruct (wakeup_vcpu_eq wq vp flags b v ks (si_inv _ Hsi) Hv Hwq) as [[Hs ->]|(w & k1 & -> & E & Hwk & ->)]; [by eauto|].
  pose proof (woken_sched_inv _ _ _ _ _ _ Hsi Hwk Hv E) as Hsi1. unfold wakeup_immed_csw.
  destruct (_ && _); [|by eauto]. destruct (wk_vp _ _ _ _ _ Hwk) as (v1 & Hv1 & Hr1 & _).
  rewrite (bind_some Hv1). destruct (_ <=? _); [|by eauto].
  destruct (si_running _ Hsi1) as (r & rv & Hr & Hrv & _). rewrite (bind_some Hr), (bind_some Hrv).
  destruct (_ && _); [|by eauto].
  destruct (switch_context_spec (sched_set_running (Some vp) k1) vp v1) as (ks' & Hk & Hsw & _); try done.
  { by eapply inv_ext; [..|exact (si_inv _ Hsi1)]. }
  exists ks'. split; [done|]. eapply switched_inv; [done|]. apply Hsi1.
Qed.

Lemma waiter_lookup ks w vp :
  core_inv None ks -> vp ∈ wq_get w ks ->
  exists v, vcpus ks !! vp = Some v /\ run_state v = VCPU_STATE_WAITING /\ waiting_on_wait_queue v = Some w.
Proof. intros Hc Hin. by apply (ci_wait _ _ Hc) in Hin as [_ Hv]. Qed.

(** [woken_all w q ks ks']: exactly the vcpus of [q] left the queue [w], and
    they are ready. *)
Record woken_all (w : positive) (q : list positive) (ks ks' : kstate) : Prop := {
  wa_inv : sched_inv ks';
  wa_ctx : same_ctx ks ks';
  wa_in : forall x, x ∈ q -> exists v, vcpus ks' !! x = Some v /\ run_state v = VCPU_STATE_READY /\
    waiting_on_wait_queue v = None /\ wakeup_reason v = WRES_WAKEUP;
  wa_out : forall x, x ∉ q -> vcpus ks' !! x = vcpus ks !! x;
  wa_wq : forall x, x ∈ wq_get w ks' <-> x ∈ wq_get w ks /\ x ∉ q;
  wa_other : forall w', w' <> w -> wq_get w' ks' = wq_get w' ks;
}.

Lemma wakeup_each_spec w b q ks :
  sched_inv ks -> NoDup q -> (forall x, x ∈ q -> x ∈ wq_get w ks) ->
  exists ks', wakeup_each ob om w q b ks = Some ks' /\ woken_all w q ks ks'.
Proof.
  revert ks. induction q as [|cp q IH]; intros ks Hsi Hnd Hq.
  { exists ks. split; [done|]. constructor; try done.
    - intros x Hx. by apply not_elem_of_nil in Hx.
    - intros x. split; [|by intros [? _]]. intros Hx. split; [done|apply not_elem_of_nil]. }
  apply NoDup_cons in Hnd as [Hcp Hnd]. pose proof (si_inv _ Hsi) as Hi.
  destruct (waiter_lookup ks w cp (il_core _ _ Hi)) as (v & Hv & Hs & Hw); [set_solver|].
  destruct (wakeup_vcpu_noswitch (Some w) cp WAKEUP_NO_IMMED_CSW b v ks) as (k1 & Hk & [[? _]|(w' & [= <-] & Hwk)]);
    [done..|by left|done|done|].
  pose proof (woken_sched_inv _ _ _ _ _ _ Hsi Hwk Hv Hs) as Hsi1. destruct Hwk as [_ Hc1 Hvp Ho Hwq _].
  destruct (IH k1 Hsi1 Hnd) as (ks' & Hk' & [Hsi' Hc' Hin Hout Hwq' Hoth]).
  { intros x Hx. rewrite Hwq, decide_True, elem_of_dq_remove by done. split; [set_solver|]. by intros ->. }
  exists ks'. split; [simpl; by rewrite (bind_some Hk)|]. constructor; [done|by eapply same_ctx_trans|..].
  - intros x [->|Hx]%elem_of_cons; [|by apply Hin]. by rewrite Hout.
  - intros x [Hx1 Hx2]%not_elem_of_cons. by rewrite Hout, Ho.
  - intros x. rewrite Hwq', Hwq, decide_True, elem_of_dq_remove, not_elem_of_cons by done. tauto.
  - intros x Hx. by rewrite Hoth, Hwq, decide_False.
Qed.

(** Waking all waiters empties the queue. *)
Lemma wakeup_all_spec w flags b ks :
  sched_inv ks -> Z.land flags WAKEUP_ONE = 0 ->
  exists ks', wq_wakeup_np ob om w flags b ks = Some ks' /\ woken_all w (wq_get w ks) ks ks'.
Proof.
  intros Hsi Hf. unfold wq_wakeup_np. rewrite Hf. change (0 =? 0) with true. cbv iota.
  apply wakeup_each_spec; [done| |done]. apply Hsi.
Qed.

Lemma wakeup_one_spec w flags b cp ks :
  sched_inv ks -> Z.land flags WAKEUP_ONE <> 0 -> head (wq_get w ks) = Some cp ->
  exists ks', wq_wakeup_np ob om w flags b ks = Some ks' /\ sched_inv ks'.
Proof.
  intros Hsi Hf Hh. unfold wq_wakeup_np. rewrite (proj2 (Z.eqb_neq _ _) Hf), (bind_some Hh).
  destruct (waiter_lookup ks w cp) as (v & Hv & Hs & Hw); [apply Hsi|by apply list.head_Some_elem_of|].
  eapply wakeup_vcpu_spec; [done|done|]. by rewrite Hw.
Qed.

(** ** The operations of vcpu.c *)

Lemma sched_inv_same_ctx ks ks' :
  sched_inv ks -> same_ctx ks ks' -> inv_l None ks' ->
  (forall r, running ks = Some r -> vcpus ks' !! r = vcpus ks !! r) -> sched_inv ks'.
Proof.
  intros [_ (r & v & Hr & Hv & Hs) H1 H2 H3 H4] [] Hi Heq. constructor; try congruence; try done.
  exists r, v. by rewrite Heq; [split_and!; congruence|].
Qed.

Lemma sched_inv_upd vp f ks :
  sched_inv ks ->
  (forall v, vcpus ks !! vp = Some v -> in_place v (f v) /\ run_state (f v) = run_state v /\
     vcpu_local (running ks) (idle_vp ks) (deadline_queue ks) vp (f v)) ->
  sched_inv (upd_vp vp f ks).
Proof.
  intros [Hi (r & v & Hr & Hv & Hs) H1 H2 H3 H4] Hf. constructor; try done.
  - apply inv_upd; [done|..]; intros v0 Hv0; by apply Hf.
  - exists r, (if decide (vp = r) then f v else v). split; [done|].
    rewrite lookup_upd_vp, Hv. case_decide as E; [subst|done]. split; [done|].
    destruct (Hf v Hv) as (_ & -> & _). done.
Qed.

(** Lowering the suspension count of a vcpu to [n]. *)
Lemma local_resumed run idle dq self v n st :
  vcpu_local run idle dq self v -> 0 < suspension_count v -> 0 <= n < 32767 ->
  (st = VCPU_STATE_SUSPENDED -> 0 < n) ->
  (st = run_state v \/ (st = VCPU_STATE_READY /\ run_state v = VCPU_STATE_SUSPENDED)) ->
  vcpu_local run idle dq self (set_run_state st (set_suspension_count n v)).
Proof.
  intros [Hok Hwt Hrn Har Hdq Hid] Hpos Hn Hst Hor. constructor; simpl; try done.
  - destruct Hok as [[] ? ? ? ? ?]. constructor; simpl; try done; lia.
  - intros ->. destruct Hor as [|[]]; [auto|done].
  - intros ->. destruct Hor as [|[]]; [auto|done].
  - intros Ha. specialize (Har Ha). destruct Hor as [->|[]]; [done|congruence].
  - intros E. destruct (Hid E). lia.
Qed.

Lemma resume_spec self force v ks :
  sched_inv ks -> vcpus ks !! self = Some v ->
  exists ks', vcpu_resume self force ks = Some ks' /\ sched_inv ks' /\ is_Some (vcpus ks' !! self).
Proof.
  intros Hsi Hv. unfold vcpu_resume. rewrite (bind_some Hv).
  destruct (Z.ltb_spec 0 (suspension_count v)) as [Hpos|]; [|by eauto].
  set (n := if force then 0 else suspension_count v - 1).
  pose proof (si_inv _ Hsi) as Hi. pose proof (inv_local _ _ _ Hi Hv) as Hl.
  assert (Hn : 0 <= n < 32767).
  { pose proof (vk_susp _ (vl_ok _ _ _ _ _ Hl)). unfold n. destruct force; lia. }
  assert (Hv1 : vcpus (upd_vp self (set_suspension_count n) ks) !! self = Some (set_suspension_count n v))
    by (by rewrite lookup_upd_vp, decide_True, Hv by done).
  destruct ((n =? 0) && bool_decide (run_state v = VCPU_STATE_SUSPENDED)) eqn:Eb.
  - apply andb_true_iff in Eb as [_ Hs%bool_decide_eq_true].
    destruct (inv_set_ready self (set_suspension_count n v) true (upd_vp self (set_suspension_count n) ks)) as (ks' & Hk & Hi' & He & Hvs);
      [|exact Hv1|by apply local_resumed; auto|].
    + apply inv_upd_limbo.
      * apply inv_weaken; [eapply core_to_limbo; [apply Hi|done|by right]|done].
      * intros v0 Hv0. exact (ci_pri _ _ (il_core _ _ Hi) self v0 Hv0).
    + exists ks'. split_and!; [done| |by rewrite Hvs, lookup_alter, decide_True, Hv1].
      eapply sched_inv_same_ctx; [done| |done|]; [by destruct (same_env_ctx _ _ He)|].
      intros r Hr. destruct (si_running _ Hsi) as (r' & rv & Hr' & Hrv & Hrs).
      rewrite Hvs, lookup_alter_ne, lookup_upd_vp, decide_False by (intros ->; congruence). done.
  - eexists. split_and!; [done| |by eauto]. apply sched_inv_upd; [done|]. intros v0 Hv0. simplify_eq.
    split_and!; [by left|done|]. change (set_suspension_count n v) with (set_run_state (run_state v) (set_suspension_count n v)).
    apply local_resumed; [done..| |by left]. intros Hs.
    rewrite bool_decide_true, andb_true_r in Eb by done. lia.
Qed.

Lemma idle_is_ready ks r v :
  inv_l None ks -> running ks = Some r -> r <> idle_vp ks ->
  vcpus ks !! idle_vp ks = Some v -> run_state v = VCPU_STATE_READY.
Proof.
  intros Hi Hr Hne Hv. pose proof (inv_local _ _ _ Hi Hv) as Hl.
  destruct (vl_idle _ _ _ _ _ Hl eq_refl) as [[|Hs] _]; [done|].
  pose proof (vl_run _ _ _ _ _ Hl Hs). congruence.
Qed.

(** After the running vcpu was changed in place, the switch to the best ready
    vcpu succeeds. *)
Lemma switch_after ks ks' r :
  sched_inv ks -> running ks = Some r -> r <> idle_vp ks -> inv_l None ks' ->
  running ks' = Some r -> idle_vp ks' = idle_vp ks -> irq_nest_count ks' = irq_nest_count ks ->
  exists ks'', sched_switch_to ks' (sched_highest_priority_ready ks') = Some ks'' /\ sched_inv ks''.
Proof.
  intros Hsi Hr Hne Hi' Hr' Hid Hn.
  destruct (switch_to_best ks' Hi') as (ks'' & s & _ & Hk & Hsw).
  { intros v. apply (idle_is_ready ks' r); [done..|congruence]. }
  exists ks''. split; [done|]. eapply switched_inv; [done|]. rewrite Hn. apply Hsi.
Qed.

Lemma yield_spec ks r :
  sched_inv ks -> running ks = Some r -> r <> idle_vp ks ->
  exists ks', vcpu_yield ob om ks = Some ks' /\ sched_inv ks'.
Proof.
  intros Hsi Hr Hne. destruct (si_running _ Hsi) as (r' & v & Hr' & Hv & Hs). simplify_eq.
  unfold vcpu_yield, vcpu_yield_np. rewrite (bind_some Hr), (bind_some Hv), bool_decide_true by done.
  eapply (switch_after ks); [done..| |by destruct (_ && _)|by destruct (_ && _)|by destruct (_ && _)].
  apply inv_upd_frame; [destruct (_ && _)|].
  - apply inv_upd_frame; [apply Hsi|]. intros v0 Hv0 Hok. simplify_eq.
    destruct (halve_penalty_ok v Hok). split_and!; [done..|congruence].
  - apply Hsi.
  - intros v0 _ Hok. split_and!; [by eapply vcpu_ok_frame|done|done].
Qed.

(** A ready vcpu is taken off its queue, changed, and queued again. *)
Lemma requeue_spec self f v ks :
  sched_inv ks -> vcpus ks !! self = Some v -> run_state v = VCPU_STATE_READY ->
  vcpu_ok (f v) -> wait_frame v (f v) ->
  exists k1 ks', sched_set_unready ks self false = Some k1 /\
    sched_set_ready (upd_vp self f k1) self true = Some ks' /\ sched_inv ks'.
Proof.
  intros Hsi Hv Hs Hok Hf. pose proof (si_inv _ Hsi) as Hi. pose proof (inv_local _ _ _ Hi Hv) as Hl.
  destruct (set_unready_spec ks self v false (il_core _ _ Hi) Hv Hs) as (k1 & Hk1 & Hc1 & He1 & Hvs1); [done|].
  pose proof (same_env_ctx _ _ He1) as Hctx. destruct He1 as [_ Er _ _ _ _ Ei _ _ _ Ed].
  assert (Hi2 : inv_l (Some self) (upd_vp self f k1)).
  { apply inv_upd_limbo; [|intros v0; rewrite Hvs1, Hv; intros [= <-]; by apply vcpu_ok_cur].
    destruct Hi as [_ Hil Hso Hnd Hd Hid Hrn].
    constructor; rewrite ?Hvs1, ?Er, ?Ei, ?Ed; try done. intros x u _ Hu. by apply Hil. }
  assert (Hv2 : vcpus (upd_vp self f k1) !! self = Some (f v))
    by (by rewrite lookup_upd_vp, decide_True, Hvs1, Hv by done).
  destruct (inv_set_ready self (f v) true (upd_vp self f k1) Hi2 Hv2) as (k3 & Hk3 & Hi3 & He3 & Hvs3).
  { simpl. rewrite Er, Ei, Ed. eapply local_frame; [done|by eapply vcpu_ok_frame|].
    destruct Hf. constructor; simpl; congruence. }
  exists k1, k3. split_and!; [done..|]. eapply sched_inv_same_ctx; [done| |done|].
  - eapply same_ctx_trans; [exact Hctx|]. destruct (same_env_ctx _ _ He3). by constructor.
  - intros r Hr. destruct (si_running _ Hsi) as (r' & rv & Hr' & Hrv & Hrs).
    rewrite Hvs3, lookup_alter_ne, lookup_upd_vp, decide_False, Hvs1 by (intros ->; congruence). done.
Qed.

Lemma set_policy_spec self p v ks :
  sched_inv ks -> vcpus ks !! self = Some v ->
  exists ks', vcpu_set_policy ob om self p ks = Some (validate_vcpu_policy p, ks') /\ sched_inv ks'.
Proof.
  intros Hsi Hv. unfold vcpu_set_policy.
  destruct (is_ok (validate_vcpu_policy p)) eqn:Ep; cbn [negb]; [|by eauto].
  apply is_ok_true in Ep. rewrite (bind_some Hv), Ep.
  pose proof (vl_ok _ _ _ _ _ (inv_local _ _ _ (si_inv _ Hsi) Hv)) as Hok0.
  pose proof (set_policy_ok p v Ep Hok0) as [Hok Hf].
  destruct (run_state v) eqn:Hs; [|eexists; split; [done|]; rewrite upd_upd; apply sched_inv_upd_frame; [done|];
    intros v0 Hv0 _; simplify_eq; split_and!; [done..|congruence]..].
  destruct (requeue_spec self (fun v => changed (vcpu_set_base_priority_np p v)) v ks Hsi Hv Hs Hok Hf)
    as (k1 & k2 & Hk1 & Hk2 & Hsi2).
  rewrite (bind_some Hk1). cbv zeta. rewrite upd_upd, (bind_some Hk2). by eauto.
Qed.

(** ** Signals and suspension *)

Lemma send_signal_spec self signo b v ks :
  sched_inv ks -> vcpus ks !! self = Some v ->
  exists err ks', vcpu_send_signal_boost ob om self signo b ks = Some (err, ks') /\ sched_inv ks'.
Proof.
  intros Hsi Hv. unfold vcpu_send_signal_boost. destruct (_ || _); [by eauto|].
  set (k1 := upd_vp self _ ks).
  assert (Hsi1 : sched_inv k1).
  { apply sched_inv_upd_frame; [done|]. intros v0 _ Hok. split_and!; [by eapply vcpu_ok_frame|done|done]. }
  assert (H2 : exists k2, (if signo =? SIG_FORCE_QUIT then vcpu_resume self true k1 else Some k1) = Some k2 /\
     sched_inv k2 /\ is_Some (vcpus k2 !! self)).
  { assert (Hv1 : is_Some (vcpus k1 !! self)) by (unfold k1; rewrite lookup_upd_vp, decide_True, Hv by done; by eexists).
    destruct (_ =? _); [|by eauto]. destruct Hv1 as [v1 Hv1]. by eapply resume_spec. }
  destruct H2 as (k2 & Hk2 & Hsi2 & [v2 Hv2]). rewrite (bind_some Hk2), (bind_some Hv2).
  destruct (negb _); [|by eauto].
  destruct (wakeup_vcpu_spec (waiting_on_wait_queue v2) self 0 b v2 k2 Hsi2 Hv2) as (k3 & Hk3 & Hsi3); [done|].
  rewrite (bind_some Hk3). by eauto.
Qed.

(** Suspending the running vcpu. *)
Lemma suspend_running n r v ks :
  sched_inv ks -> running ks = Some r -> vcpus ks !! r = Some v -> r <> idle_vp ks -> 0 < n <= 32767 ->
  exists ks', (let k1 := upd_vp r (fun v => set_run_state VCPU_STATE_SUSPENDED (set_suspension_count n v)) ks in
    sched_switch_to k1 (sched_highest_priority_ready k1)) = Some ks' /\ sched_inv ks'.
Proof.
  intros Hsi Hr Hv Hne Hn. destruct (si_running _ Hsi) as (r' & v' & Hr' & Hv' & Hs). simplify_eq.
  pose proof (si_inv _ Hsi) as Hi. destruct (inv_local _ _ _ Hi Hv) as [Hok Hw Hrn Ha Hdq _].
  eapply (switch_after ks); [done..| |done|done|done]. apply inv_upd; [done|..]; intros v0 Hv0; simplify_eq.
  - right. split; [by left|by right].
  - constructor; simpl; try done; [|intros Har; specialize (Ha Har); congruence].
    destruct Hok as [[] ? ? ? ? ?]. constructor; simpl; try done; lia.
Qed.

Lemma suspend_spec self v ks :
  sched_inv ks -> vcpus ks !! self = Some v ->
  exists err ks', vcpu_suspend ob om self ks = Some (err, ks') /\ sched_inv ks'.
Proof.
  intros Hsi Hv. destruct (si_running _ Hsi) as (r & rv & Hr & Hrv & Hrs).
  unfold vcpu_suspend. rewrite (bind_some Hr), (bind_some Hv).
  destruct (bool_decide_reflect (self = idle_vp ks)) as [|Hni]; [by eauto|].
  destruct (_ || _); [by eauto|]. destruct (_ && _); [by eauto|].
  destruct (Z.eqb_spec (suspension_count v) 32767) as [|Hmax]; [by eauto|].
  pose proof (inv_local _ _ _ (si_inv _ Hsi) Hv) as Hl.
  pose proof (vk_susp _ (vl_ok _ _ _ _ _ Hl)) as Hc.
  set (n := suspension_count v + 1). assert (Hn : 0 < n <= 32767) by lia.
  destruct (bool_decide_reflect (r = self)) as [->|Hne]; cbv zeta.
  { rewrite upd_upd. destruct (suspend_running n self v ks Hsi Hr Hv Hni Hn) as (ks' & Hk & Hsi').
    rewrite (bind_some Hk). by eauto. }
  assert (Hsi1 : sched_inv (upd_vp self (set_suspension_count n) ks)).
  { apply sched_inv_upd; [done|]. intros v0 Hv0. simplify_eq. split_and!; [by left|done|].
    destruct Hl as [Hok ? ? ? ? ?]. constructor; simpl; try done.
    destruct Hok as [[] ? ? ? ? ?]. constructor; simpl; try done; lia. }
  destruct (_ && _); [|by eauto].
  destruct (send_signal_spec self SIG_URGENT 0 (set_suspension_count n v) _ Hsi1) as (err & k2 & Hk2 & Hsi2).
  { by rewrite lookup_upd_vp, decide_True, Hv by done. }
  rewrite (bind_some Hk2). by eauto.
Qed.

(** _vcpu_do_deferred_suspend_np runs on the vcpu that it suspends. *)
Lemma deferred_suspend_spec r ks :
  sched_inv ks -> running ks = Some r ->
  exists ks', vcpu_do_deferred_suspend_np r ks = Some ks' /\ sched_inv ks'.
Proof.
  intros Hsi Hr. destruct (si_running _ Hsi) as (r' & v & Hr' & Hv & Hs). simplify_eq.
  unfold vcpu_do_deferred_suspend_np. rewrite (bind_some Hv).
  destruct (Z.ltb_spec 0 (suspension_count v)) as [Hpos|]; [|by eauto].
  destruct (_ && _); [|by eauto]. pose proof (inv_local _ _ _ (si_inv _ Hsi) Hv) as Hl.
  assert (Hni : r <> idle_vp ks) by (intros E; destruct (vl_idle _ _ _ _ _ Hl E); lia).
  pose proof (vk_susp _ (vl_ok _ _ _ _ _ Hl)) as Hc.
  destruct (suspend_running (suspension_count v) r v ks Hsi Hr Hv Hni ltac:(lia)) as (ks' & Hk & Hsi').
  exists ks'. split; [|done]. rewrite <-Hk. unfold upd_vp. cbv zeta.
  replace (alter (fun v0 => set_run_state VCPU_STATE_SUSPENDED (set_suspension_count (suspension_count v) v0)) r (vcpus ks))
    with (alter (set_run_state VCPU_STATE_SUSPENDED) r (vcpus ks)); [done|].
  apply alter_ext. intros x Hx. by simplify_eq.
Qed.

(** ** Waiting *)

Lemma elem_of_deadline_insert d l x : x ∈ deadline_insert d l <-> x = d \/ x ∈ l.
Proof. induction l as [|c l IH]; simpl; [set_solver|]. destruct (_ <=? _); set_solver. Qed.

Lemma deadline_insert_sorted d l :
  StronglySorted (fun a b : positive * Z => a.2 <= b.2) l ->
  StronglySorted (fun a b : positive * Z => a.2 <= b.2) (deadline_insert d l).
Proof.
  induction 1 as [|c l Hs IH Hf]; simpl; [by repeat constructor|]. destruct (Z.leb_spec c.2 d.2).
  - constructor; [done|]. rewrite Forall_forall in *. intros x [->|Hx]%elem_of_deadline_insert; auto.
  - constructor; [by constructor|]. constructor; [lia|].
    eapply Forall_impl; [done|]. simpl. lia.
Qed.

Lemma deadline_insert_perm d l : deadline_insert d l ≡ₚ d :: l.
Proof.
  induction l as [|c l IH]; simpl; [done|]. destruct (_ <=? _); [|done].
  rewrite IH. apply Permutation_swap.
Qed.

(** The running vcpu joins the wait queue [w], with its timeout armed when the
    deadline queue gets an entry for it. *)
Lemma inv_wait w vp v f dq ks :
  sched_inv ks -> running ks = Some vp -> vcpus ks !! vp = Some v -> vp <> idle_vp ks ->
  vcpu_ok (f v) -> run_state (f v) = VCPU_STATE_WAITING -> waiting_on_wait_queue (f v) = Some w ->
  cur_priority (f v) = cur_priority v ->
  (timeout_isArmed (f v) = false /\ dq = deadline_queue ks \/
   timeout_isArmed (f v) = true /\ dq = deadline_insert (vp, timeout_deadline (f v)) (deadline_queue ks)) ->
  inv_l None (set_deadline_queue dq (upd_vp vp f (wq_set w (dq_add_last vp (wq_get w ks)) ks))).
Proof.
  intros Hsi Hr Hv Hne Hok Hs Hw Hcp Hdq. destruct (si_running _ Hsi) as (r & rv & Hr' & Hrv & Hrs). simplify_eq.
  pose proof (si_inv _ Hsi) as [Hc Hl Hso Hnd Hd Hid Hrn].
  assert (Hnin : forall d, (vp, d) ∉ deadline_queue ks).
  { intros d Hin. destruct (Hl vp v ltac:(done) Hv) as [_ _ _ Ha Hdq' _]. apply Hdq' in Hin as [Har _].
    specialize (Ha Har). congruence. }
  set (ks' := upd_vp vp f _).
  assert (Hlk : forall x, vcpus ks' !! x = if decide (vp = x) then Some (f v) else vcpus ks !! x).
  { intros x. unfold ks'. rewrite lookup_upd_vp. simpl. case_decide; [subst; by rewrite Hv|done]. }
  assert (Hin : forall x d, (x, d) ∈ dq <-> (x, d) ∈ deadline_queue ks \/
    (x = vp /\ timeout_isArmed (f v) = true /\ d = timeout_deadline (f v))).
  { intros x d. destruct Hdq as [[Ha ->]|[Ha ->]]; rewrite Ha; [naive_solver|].
    rewrite elem_of_deadline_insert. naive_solver. }
  assert (Hsome : forall x, is_Some (vcpus ks !! x) -> is_Some (vcpus ks' !! x)).
  { intros x Hx. rewrite Hlk. by case_decide. }
  constructor; simpl.
  - apply (core_inv_ext _ ks'); [done..|]. eapply core_wq_add; [done|done|by left|done..].
  - intros x u _ Hu. change (vcpus ks' !! x = Some u) in Hu. rewrite Hlk in Hu. case_decide as E.
    + simplify_eq. constructor; try (done || by eexists || congruence). intros d. rewrite Hin. naive_solver.
    + destruct (Hl x u ltac:(done) Hu) as [? ? ? ? Hdx ?]. constructor; try done.
      intros d. rewrite Hin, Hdx. naive_solver.
  - destruct Hdq as [[_ ->]|[_ ->]]; [done|by apply deadline_insert_sorted].
  - destruct Hdq as [[_ ->]|[_ ->]]; [done|]. rewrite deadline_insert_perm. simpl. apply NoDup_cons.
    split; [|done]. intros ([x d] & ? & Hx)%list_elem_of_fmap. simplify_eq/=. by eapply Hnin.
  - intros x d [Hx|(-> & _)]%Hin; apply Hsome; [by eapply Hd|by eexists].
  - by apply Hsome.
  - destruct (Hsome vp) as [u Hu]; [by eexists|]. exists vp, u. done.
Qed.

Lemma wait_mark_ok w v : vcpu_ok v -> vcpu_ok (wait_mark w v) /\ cur_priority (wait_mark w v) = cur_priority v /\
  run_state (wait_mark w v) = VCPU_STATE_WAITING /\ waiting_on_wait_queue (wait_mark w v) = Some w /\
  timeout_isArmed (wait_mark w v) = timeout_isArmed v.
Proof.
  intros Hok. unfold wait_mark. destruct (_ <? _); (split; [by eapply vcpu_ok_frame|done]).
Qed.

Lemma upd_dq vp f q ks :
  upd_vp vp f (set_deadline_queue q ks) = set_deadline_queue q (upd_vp vp f ks).
Proof. done. Qed.

(** The state in which wq_wait_np leaves the caller before the switch. *)
Definition wait_armed (w : positive) (deadline : Z) (v : vcpu) : vcpu :=
  set_timeout_isArmed true (set_timeout_deadline deadline (wait_mark w v)).

Lemma arm_eq w deadline r v ks k0 :
  vcpus k0 !! r = Some v -> timeout_isArmed v = false -> deadline_queue k0 = deadline_queue ks ->
  clock_deadline r (upd_vp r (set_timeout_deadline deadline) (upd_vp r (wait_mark w) k0)) =
  Some (set_deadline_queue (deadline_insert (r, deadline) (deadline_queue ks))
          (upd_vp r (wait_armed w deadline) k0)).
Proof.
  intros Hv Ha Hd. rewrite upd_upd. unfold clock_deadline.
  assert (Hv2 : vcpus (upd_vp r (fun v => set_timeout_deadline deadline (wait_mark w v)) k0) !! r =
    Some (set_timeout_deadline deadline (wait_mark w v))) by (by rewrite lookup_upd_vp, decide_True, Hv).
  rewrite (bind_some Hv2).
  replace (timeout_isArmed _) with false by (unfold wait_mark; by destruct (_ <? _)).
  cbv zeta. rewrite upd_dq, upd_upd, <-Hd. done.
Qed.

(** A wait that is not past its deadline blocks the caller and runs another
    vcpu. *)
Lemma wait_spec w deadline r v p ks :
  sched_inv ks -> running ks = Some r -> vcpus ks !! r = Some v -> r <> idle_vp ks -> proc v = Some p ->
  (TICKS_MAX <= deadline \/ tick_count ks < deadline) ->
  exists ks', wq_wait_np w deadline ks = Some (None, ks') /\ sched_inv ks'.
Proof.
  intros Hsi Hr Hv Hne Hp Hdl. unfold wq_wait_np. rewrite (bind_some Hr), (bind_some Hv). cbv zeta.
  destruct ((deadline <? TICKS_MAX) && (deadline <=? tick_count ks)) eqn:Eb; [lia|].
  destruct (si_running _ Hsi) as (r' & v' & Hr' & Hv' & Hs). simplify_eq.
  destruct (inv_local _ _ _ (si_inv _ Hsi) Hv) as [Hok _ _ Ha _ _].
  assert (Hna : timeout_isArmed v = false) by (destruct (timeout_isArmed v); [by rewrite Ha in Hs|done]).
  destruct (wait_mark_ok w v Hok) as (Hok1 & Hc1 & Hs1 & Hw1 & Ha1).
  set (k0 := wq_set w (dq_add_last r (wq_get w ks)) ks).
  assert (H2 : exists k2, (if deadline <? TICKS_MAX
      then clock_deadline r (upd_vp r (set_timeout_deadline deadline) (upd_vp r (wait_mark w) k0))
      else Some (upd_vp r (wait_mark w) k0)) = Some k2 /\ inv_l None k2 /\ same_ctx ks k2).
  { destruct (deadline <? TICKS_MAX).
    - rewrite (arm_eq w deadline r v ks k0 Hv Hna eq_refl). eexists. split; [done|]. split; [|by constructor].
      eapply (inv_wait w r v (wait_armed w deadline)); [done..|by eapply vcpu_ok_frame|done|done|done|]. by right.
    - eexists. split; [done|]. split; [|by constructor].
      pose proof (inv_wait w r v (wait_mark w) (deadline_queue ks) ks) as Hiw.
      apply (inv_ext _ (set_deadline_queue (deadline_queue ks) (upd_vp r (wait_mark w) k0))); try done.
      apply Hiw; try done. left. by rewrite Ha1. }
  destruct H2 as (k2 & Hk2 & Hi2 & []). rewrite (bind_some Hk2), (bind_some Hp).
  destruct (switch_after ks (upd_proc p (fun s => set_vcpu_waiting_count (vcpu_waiting_count s + 1) s) k2) r)
    as (k3 & Hk3 & Hsi3); [done|done|done| |simpl; congruence..|].
  { by eapply inv_ext; [..|exact Hi2]. }
  rewrite (bind_some Hk3). by eauto.
Qed.

(** The end of a wait is accounting only. *)
Lemma wait_finish_spec start bTimeout r v p ks :
  sched_inv ks -> running ks = Some r -> vcpus ks !! r = Some v -> proc v = Some p ->
  exists ks', wq_wait_np_finish start bTimeout ks =
    Some (if wakeup_reason v =? WRES_TIMEOUT then ETIMEDOUT else EOK, ks') /\ sched_inv ks'.
Proof.
  intros Hsi Hr Hv Hp. unfold wq_wait_np_finish. rewrite (bind_some Hr), (bind_some Hv), (bind_some Hp).
  eexists. split; [done|]. apply sched_inv_upd_proc, sched_inv_upd_frame.
  2:{ intros v0 _ Hok. split_and!; [by eapply vcpu_ok_frame|done|done]. }
  destruct (si_running _ Hsi) as (r' & v' & Hr' & Hv' & Hs). simplify_eq.
  destruct (inv_local _ _ _ (si_inv _ Hsi) Hv) as [_ _ _ Ha _ _].
  assert (Hna : timeout_isArmed v = false) by (destruct (timeout_isArmed v); [by rewrite Ha in Hs|done]).
  destruct bTimeout; [|by apply sched_inv_upd_proc].
  unfold clock_cancel_deadline. simpl. rewrite Hv, Hna. by apply sched_inv_upd_proc.
Qed.

(** ** Interrupts *)

(** The first entry of the deadline queue is taken off. *)
Lemma inv_pop_deadline vp d l ks :
  inv_l None ks -> deadline_queue ks = (vp, d) :: l ->
  inv_l None (upd_vp vp (set_timeout_isArmed false) (set_deadline_queue l ks)) /\
  exists v, vcpus ks !! vp = Some v /\ run_state v = VCPU_STATE_WAITING /\ (forall d', (vp, d') ∉ l).
Proof.
  intros [Hc Hl Hso Hnd Hd Hid (r & rv & Hr & Hrv)] Hq.
  destruct (Hd vp d) as [v Hv]; [rewrite Hq; by left|].
  destruct (Hl vp v ltac:(done) Hv) as [Hok Hw Hrn Ha Hdq Hi].
  assert (Har : timeout_isArmed v = true) by (apply (Hdq d); rewrite Hq; by left).
  assert (Hnin : forall d', (vp, d') ∉ l).
  { intros d' Hin. rewrite Hq in Hnd. simpl in Hnd. apply NoDup_cons in Hnd as [Hn _]. apply Hn.
    apply list_elem_of_fmap. by exists (vp, d'). }
  rewrite Hq in Hso. apply StronglySorted_inv in Hso as [Hso _].
  split; [|exists v; split_and!; auto].
  assert (Hsome : forall x, is_Some (vcpus ks !! x) ->
    is_Some (vcpus (upd_vp vp (set_timeout_isArmed false) (set_deadline_queue l ks)) !! x)).
  { intros x Hx. rewrite lookup_upd_vp. case_decide; [by apply fmap_is_Some|done]. }
  constructor; [..|done| | | |].
  - apply core_upd_same; [by apply (core_inv_ext _ ks)|]. intros v0 Hv0. split; [done|].
    exact (ci_pri _ _ Hc vp v0 Hv0).
  - intros x u _. rewrite lookup_upd_vp. simpl. case_decide as E; [subst x; rewrite Hv; intros [= <-]|intros Hu].
    + constructor; simpl; try done; [by eapply vcpu_ok_frame|]. intros d'. split; [intros []%Hnin|by intros [? _]].
    + destruct (Hl x u ltac:(done) Hu) as [? ? ? ? Hdx ?]. constructor; try done. intros d'.
      rewrite <-Hdx, Hq, elem_of_cons. naive_solver.
  - simpl. rewrite Hq in Hnd. by apply NoDup_cons in Hnd as [_ ?].
  - intros x d' Hx. apply Hsome, (Hd x d'). rewrite Hq. by right.
  - by apply Hsome.
  - destruct (Hsome r) as [u Hu]; [by eexists|]. exists r, u. done.
Qed.

(** Every timer that is due wakes its vcpu; the timers that are left are not
    due. *)
Lemma run_deadlines_spec now fuel ks :
  inv_l None ks -> 0 < irq_nest_count ks -> (length (deadline_queue ks) <= fuel)%nat ->
  exists ks', run_deadlines ob om fuel now ks = Some ks' /\ inv_l None ks' /\ same_ctx ks ks' /\
    (forall x v, vcpus ks !! x = Some v -> run_state v <> VCPU_STATE_WAITING -> vcpus ks' !! x = Some v) /\
    (forall x d, (x, d) ∈ deadline_queue ks' -> now < d) /\
    (forall x d, (x, d) ∈ deadline_queue ks -> d <= now -> exists v, vcpus ks' !! x = Some v /\
       run_state v = VCPU_STATE_READY /\ wakeup_reason v = WRES_TIMEOUT).
Proof.
  revert ks. induction fuel as [|fuel IH]; intros ks Hi Hn Hlen;
    (destruct (deadline_queue ks) as [|[vp d] l] eqn:Hq;
     [exists ks; simpl; rewrite Hq; split_and!; try done; intros x d Hx; by apply not_elem_of_nil in Hx|]).
  { simpl in Hlen. lia. }
  simpl. rewrite Hq. destruct (Z.ltb_spec now d) as [Hlt|Hge].
  { assert (Hall : forall x d', (x, d') ∈ (vp, d) :: l -> now < d').
    { intros x d' [[= -> ->]|Hx]%elem_of_cons; [done|].
      pose proof (il_sorted _ _ Hi) as Hso. rewrite Hq in Hso. apply StronglySorted_inv in Hso as [_ Hf].
      rewrite Forall_forall in Hf. specialize (Hf _ Hx). simpl in Hf. lia. }
    exists ks. split_and!; try done; [by rewrite Hq|]. intros x d' Hx%Hall. lia. }
  destruct (inv_pop_deadline vp d l ks Hi Hq) as (Hi1 & v & Hv & Hs & Hnin).
  set (k1 := upd_vp vp _ _) in *.
  assert (Hv1 : vcpus k1 !! vp = Some (set_timeout_isArmed false v))
    by (unfold k1; rewrite lookup_upd_vp, decide_True by done; simpl; by rewrite Hv).
  unfold sched_wait_timeout_irq. rewrite (bind_some Hv1).
  destruct (wakeup_vcpu_noswitch (waiting_on_wait_queue v) vp (Z.lor WAKEUP_TIMEOUT WAKEUP_ONE) 0
    (set_timeout_isArmed false v) k1 Hi1 Hv1) as (k2 & Hk2 & [[? _]|(w & _ & Hwk)]); [by right|done|done|].
  rewrite (bind_some (Hk2 : wq_wakeup_vcpu_np _ _ (waiting_on_wait_queue (set_timeout_isArmed false v)) _ _ _ _ = _)).
  destruct Hwk as [Hi2 Hc2 (v2 & Hv2 & Hs2 & _ & Hr2) Ho2 _ Hd2].
  assert (Hd2' : deadline_queue k2 = l) by (rewrite Hd2; by apply filter_id).
  destruct (IH k2 Hi2) as (ks' & Hk' & Hi' & Hc' & Ho' & Hdq' & Hdue').
  { by rewrite (sc_nest _ _ Hc2). } { rewrite Hd2'. simpl in Hlen. lia. }
  exists ks'. split_and!; [done|done| | |done|]; cycle 2.
  { intros x d' [[= -> ->]|Hx]%elem_of_cons Hd'; [|apply (Hdue' x d'); [by rewrite Hd2'|done]].
    exists v2. split_and!; [apply Ho'; [done|congruence]|done|done]. }
  - eapply same_ctx_trans; [|exact Hc']. destruct Hc2. by constructor.
  - intros x u Hu Hsu. apply Ho'; [|done]. assert (x <> vp) by (intros ->; congruence).
    rewrite Ho2 by done. unfold k1. by rewrite lookup_upd_vp, decide_False.
Qed.

(** The tick charges the running vcpu; it faults only in user mode without a
    process. *)
Lemma on_tick_spec isuser r v ks :
  sched_inv ks -> running ks = Some r -> vcpus ks !! r = Some v ->
  (isuser = true -> is_Some (proc v)) ->
  exists ks', sched_on_tick_irq isuser ks = Some ks' /\ sched_inv ks'.
Proof.
  intros Hsi Hr Hv Hu. unfold sched_on_tick_irq. rewrite (bind_some Hr), (bind_some Hv). cbv zeta.
  set (k1 := if 0 <? quantum_countdown v then _ else ks).
  assert (Hfr : forall f k, sched_inv k -> (forall v, vcpu_ok v -> vcpu_ok (f v)) ->
    (forall v, wait_frame v (f v)) -> (forall v, cur_priority (f v) = cur_priority v) -> sched_inv (upd_vp r f k)).
  { intros f k Hk H1 H2 H3. apply sched_inv_upd_frame; [done|]. intros v0 _ Hok. auto. }
  assert (Hk1 : sched_inv k1).
  { unfold k1. destruct (_ <? _); [|done]. apply Hfr; try done. intros v0 Hok. by eapply vcpu_ok_frame. }
  destruct isuser.
  - destruct Hu as [p Hp]; [done|]. rewrite (bind_some Hp). eexists. split; [done|].
    eapply (sched_inv_ext (upd_vp r _ k1)); [done..|]. apply Hfr; try done. intros v0 Hok. by eapply vcpu_ok_frame.
  - eexists. split; [done|].
    assert (Hk2 : sched_inv (upd_vp r (fun v => set_v_sys_ticks (ticks (v_sys_ticks v + 1)) v) k1)).
    { apply Hfr; try done. intros v0 Hok. by eapply vcpu_ok_frame. }
    destruct (proc v), (_ =? _); by eapply sched_inv_ext; [..|exact Hk2].
Qed.

(** The end of an interrupt with the context switch that it may request. *)
Definition irq_epilogue (ks : kstate) : option kstate :=
  ks ← sched_on_any_irq ob om ks;
  if csw_switch ks then sched_switch_context ks else Some ks.

Lemma end_quantum_inv r ks :
  inv_l None ks -> (exists v, vcpus ks !! r = Some v /\ run_state v = VCPU_STATE_RUNNING) ->
  inv_l None (upd_vp r (quantum_end ob om) ks).
Proof.
  intros Hi (v & Hv & Hs). apply inv_upd_frame; [done|]. intros v0 Hv0 Hok. simplify_eq.
  destruct (quantum_end_ok v Hok). split_and!; [done..|congruence].
Qed.

Lemma any_irq_spec ks : sched_inv ks -> exists ks', irq_epilogue ks = Some ks' /\ sched_inv ks'.
Proof.
  intros Hsi. destruct (si_running _ Hsi) as (r & v & Hr & Hv & Hs). pose proof (si_inv _ Hsi) as Hi.
  unfold irq_epilogue, sched_on_any_irq. rewrite (bind_some Hr), (bind_some Hv). cbv zeta.
  assert (Hnone : csw_switch ks = false) by apply Hsi.
  assert (Hsw : forall s k, inv_l None k -> scheduled k = Some s -> irq_nest_count k = 0 ->
    (exists u, vcpus k !! s = Some u /\ run_state u = VCPU_STATE_READY) ->
    exists ks', sched_switch_context k = Some ks' /\ sched_inv ks').
  { intros s k Hik Hsk Hnk (u & Hu & Hru). destruct (switch_context_spec k s u Hik Hsk Hu Hru) as (ks' & Hk & Hsw & _).
    exists ks'. split; [done|]. by eapply switched_inv. }
  assert (Hq : sched_inv (upd_vp r (quantum_end ob om) ks)).
  { apply sched_inv_upd_frame; [done|]. intros v0 Hv0 Hok. simplify_eq.
    destruct (quantum_end_ok v Hok). split_and!; [done..|congruence]. }
  destruct (sched_highest_priority_ready ks) as [s|] eqn:Hh; cycle 1.
  { destruct (0 <? _); [by exists ks; simpl; rewrite Hnone|].
    exists (upd_vp r (quantum_end ob om) ks). simpl. by rewrite Hnone. }
  destruct (highest_ready_Some ks s (il_core _ _ Hi) Hh) as (u & Hu & Hru & _).
  rewrite (bind_some (eq_refl (Some s))), (bind_some Hu).
  destruct (0 <? quantum_countdown v).
  - destruct (cur_priority v <? _); [|by exists ks; simpl; rewrite Hnone].
    apply (Hsw s); [by eapply inv_ext; [..|exact Hi]|done|apply Hsi|by eauto].
  - destruct (cur_priority v <=? _); [|exists (upd_vp r (quantum_end ob om) ks); simpl; by rewrite Hnone].
    apply (Hsw s); [|done|apply Hsi|].
    + apply end_quantum_inv; [by eapply inv_ext; [..|exact Hi]|]. by exists v.
    + exists u. rewrite lookup_upd_vp, decide_False by (intros ->; congruence). done.
Qed.

(** The tick does not look at the interrupt nesting. *)
Lemma tick_nest isuser n ks :
  sched_on_tick_irq isuser (set_irq_nest_count n ks) = set_irq_nest_count n <$> sched_on_tick_irq isuser ks.
Proof.
  unfold sched_on_tick_irq. simpl. destruct (running ks) as [r|]; [|done]. simpl.
  destruct (vcpus ks !! r) as [v|]; [|done]. simpl.
  by destruct isuser, (0 <? quantum_countdown v), (proc v), (tag v =? VP_TAG_SYS).
Qed.

Lemma set_nest_id n ks : irq_nest_count ks = n -> set_irq_nest_count n ks = ks.
Proof. destruct ks. simpl. by intros ->. Qed.

Lemma clock_interrupt_spec isuser r v ks :
  sched_inv ks -> running ks = Some r -> vcpus ks !! r = Some v ->
  (isuser = true -> is_Some (proc v)) ->
  exists ks', clock_interrupt ob om isuser ks = Some ks' /\ sched_inv ks'.
Proof.
  intros Hsi Hr Hv Hu. destruct (si_running _ Hsi) as (r' & v' & Hr' & Hv' & Hs). simplify_eq.
  unfold clock_interrupt, clock_irq. cbv zeta. rewrite (si_nest _ Hsi).
  set (k0 := set_tick_count _ _).
  destruct (run_deadlines_spec (tick_count k0) (length (deadline_queue k0)) k0)
    as (k1 & Hk1 & Hi1 & [Er Esch Esw Epr En Eid Eb] & Ho & _); [|done|done|].
  { by eapply inv_ext; [..|exact (si_inv _ Hsi)]. }
  rewrite (bind_some Hk1). simpl in Er, Esch, Esw, Epr, En, Eid.
  assert (Hv1 : vcpus k1 !! r = Some v) by (apply Ho; [done|congruence]).
  assert (Hsi1 : sched_inv (set_irq_nest_count 0 k1)).
  { destruct Hsi. constructor; simpl; try congruence; [by eapply inv_ext; [..|exact Hi1]|].
    exists r, v. split_and!; [congruence|done|done]. }
  destruct (on_tick_spec isuser r v _ Hsi1) as (k2 & Hk2 & Hsi2); [simpl; congruence|done|done|].
  assert (Hk2' : sched_on_tick_irq isuser k1 = Some (set_irq_nest_count 1 k2)).
  { rewrite <-(set_nest_id 1 k1) by done.
    change (set_irq_nest_count 1 k1) with (set_irq_nest_count 1 (set_irq_nest_count 0 k1)).
    by rewrite tick_nest, Hk2. }
  rewrite (bind_some Hk2'). apply any_irq_spec. simpl. change (1 - 1) with 0.
  destruct Hsi2 as [? ? ? ? ? Hn2]. eapply (sched_inv_ext k2); [done..|simpl; congruence|by constructor].
Qed.

(** ** Creating and destroying vcpus *)

(** A suspended vcpu other than the idle one. *)
Definition parked (ks : kstate) (vp : positive) : Prop :=
  vp <> idle_vp ks /\ forall v, vcpus ks !! vp = Some v -> run_state v = VCPU_STATE_SUSPENDED.

Lemma core_parked vp ks :
  core_inv None ks -> (forall v, vcpus ks !! vp = Some v -> run_state v = VCPU_STATE_SUSPENDED) ->
  core_inv (Some vp) ks.
Proof.
  intros Hc Hs. destruct (vcpus ks !! vp) as [v|] eqn:Hv.
  - eapply core_to_limbo; [done|done|]. right. by apply Hs.
  - destruct Hc as [Hwf Hr Hw Hp]. constructor; [done| | |done];
      intros a x; [intros Ha; rewrite Hr by done|rewrite Hw]; naive_solver.
Qed.

(** The queues do not depend on a vcpu in limbo, present or not. *)
Lemma core_partial_alter vp (o : option vcpu) ks :
  core_inv (Some vp) ks ->
  (forall v, o = Some v -> off_queue v /\ 0 <= cur_priority v < 80) ->
  core_inv None (set_vcpus (partial_alter (fun _ => o) vp (vcpus ks)) ks).
Proof.
  intros [[H1 H2 H3 H4 H5 H6] Hr Hw Hp] Ho. constructor; [by constructor|..]; simpl.
  - intros pri x Hpri. etrans; [exact (Hr pri x Hpri)|]. destruct (decide (vp = x)) as [<-|Hne].
    + rewrite lookup_partial_alter_eq. split; [by intros [? _]|].
      intros (_ & v & Hv & Hs & _). destruct (Ho v Hv) as [[] _]; congruence.
    + rewrite lookup_partial_alter_ne by done. naive_solver.
  - intros wq x. etrans; [exact (Hw wq x)|]. destruct (decide (vp = x)) as [<-|Hne].
    + rewrite lookup_partial_alter_eq. split; [by intros [? _]|].
      intros (_ & v & Hv & Hs & _). destruct (Ho v Hv) as [[] _]; congruence.
    + rewrite lookup_partial_alter_ne by done. naive_solver.
  - intros x v. destruct (decide (vp = x)) as [<-|Hne].
    + rewrite lookup_partial_alter_eq. by intros [_ ?]%Ho.
    + rewrite lookup_partial_alter_ne by done. apply Hp.
Qed.

(** Replacing a parked vcpu, or removing it. *)
Lemma sched_inv_parked vp (o : option vcpu) ks :
  sched_inv ks -> parked ks vp ->
  (forall v, o = Some v -> vcpu_ok v /\ run_state v = VCPU_STATE_SUSPENDED /\ timeout_isArmed v = false) ->
  sched_inv (set_vcpus (partial_alter (fun _ => o) vp (vcpus ks)) ks).
Proof.
  intros [[Hc Hl Hso Hnd Hd Hid Hrn] (r & rv & Hr & Hrv & Hrs) S1 S2 S3 S4] [Hni Hpk] Ho.
  assert (Hrne : vp <> r) by (intros ->; specialize (Hpk _ Hrv); congruence).
  assert (Hnin : forall d, (vp, d) ∉ deadline_queue ks).
  { intros d Hin. pose proof (Hd vp d Hin) as [v Hv]. destruct (Hl vp v ltac:(done) Hv) as [_ _ _ Ha Hdq _].
    destruct (proj1 (Hdq d) Hin) as [Har _]. specialize (Ha Har). specialize (Hpk v Hv). congruence. }
  constructor; try done; [constructor; simpl; try done|].
  - apply core_partial_alter; [by apply core_parked|]. intros v Hv. destruct (Ho v Hv) as (Hok & Hs & _).
    split; [by right|by apply vcpu_ok_cur].
  - intros x v _. destruct (decide (vp = x)) as [<-|Hne].
    + rewrite lookup_partial_alter_eq. intros Hv. destruct (Ho v Hv) as (Hok & Hs & Har).
      constructor; try (done || congruence). intros d. rewrite Har. split; [intros []%Hnin|by intros [? _]].
    + rewrite lookup_partial_alter_ne by done. by apply Hl.
  - intros x d Hx. rewrite lookup_partial_alter_ne; [by eapply Hd|]. intros ->. by eapply Hnin.
  - by rewrite lookup_partial_alter_ne.
  - exists r, rv. by rewrite lookup_partial_alter_ne.
  - exists r, rv. simpl. by rewrite lookup_partial_alter_ne.
Qed.

Lemma changed_stack_ok v :
  params_ok v -> 0 <= suspension_count v <= 32767 ->
  (run_state v = VCPU_STATE_SUSPENDED -> 0 < suspension_count v) ->
  vcpu_ok (set_stack_ok true (changed v)).
Proof.
  intros Hp Hc Hc'. pose proof (param_changed_frame ob om v) as (E1&E2&E3&E4&E5&E6&E7&_).
  constructor; cbn [run_state suspension_count base_priority cur_priority flag_fixed_pri stack_ok set_stack_ok];
    rewrite ?E5, ?E7; try done.
  - destruct Hp. constructor; cbn [base_priority priority_penalty priority_boost sched_nice set_stack_ok]; congruence.
  - rewrite param_changed_cur by done. unfold effective_priority.
    cbn [base_priority priority_penalty priority_boost sched_nice set_stack_ok]. by rewrite E1, E2, E3, E4.
  - rewrite E1. by apply param_changed_flag.
Qed.

Lemma owned_ok p t v : vcpu_ok v -> vcpu_ok (set_proc (Some p) (set_tag t v)).
Proof. intros Hok. by eapply vcpu_ok_frame. Qed.
Lemma owned_frame p t b v : wait_frame v (set_proc (Some p) (set_tag t (set_stack_ok b v))).
Proof. by constructor. Qed.

(** The vcpu that a process acquires. *)
Definition acquired (p : positive) (is_user : bool) (policy : vcpu_policy) (nice boost : Z) (v : vcpu) : vcpu :=
  set_proc (Some p) (set_tag (if is_user then VP_TAG_USER else VP_TAG_SYS)
    (set_stack_ok true (vcpu_reset_np ob om policy nice boost v))).

Lemma acquired_ok p is_user policy nice boost v :
  validate_vcpu_policy policy = EOK -> 0 < suspension_count v <= 32767 ->
  vcpu_ok (acquired p is_user policy nice boost v) /\
  wait_frame v (acquired p is_user policy nice boost v).
Proof.
  intros Hp Hc. destruct (valid_policy_base policy Hp) as [Hb _]. unfold acquired, vcpu_reset_np. cbv zeta.
  set (v1 := vcpu_set_quantum_boost_np _ _).
  assert (Hf : wait_frame v v1) by (unfold v1, vcpu_set_nice_np; by destruct (_ <? _)).
  assert (Hp1 : params_ok v1).
  { unfold v1, vcpu_set_nice_np, vcpu_set_base_priority_np, vcpu_set_quantum_boost_np, vcpu_reset_penalties_and_boosts_np.
    cbv zeta. destruct (_ <? _); constructor; sched_consts; simpl; try rewrite s8_small by lia; lia. }
  assert (Hok : vcpu_ok (set_stack_ok true (changed v1)))
    by (destruct Hf as [E1 _ _ _ E5]; apply changed_stack_ok; rewrite ?E5; [done|lia|lia]).
  split; [by apply owned_ok|]. eapply wait_frame_trans; [exact Hf|].
  eapply wait_frame_trans; [apply changed_frame|apply owned_frame].
Qed.

Lemma upd_as_partial vp f v ks m :
  m !! vp = Some v -> upd_vp vp f (set_vcpus m ks) = set_vcpus (partial_alter (fun _ => Some (f v)) vp m) ks.
Proof.
  intros Hm. unfold upd_vp, set_vcpus. simpl. f_equal. apply map_eq. intros x.
  rewrite lookup_alter. case_decide as E; [subst; by rewrite Hm, lookup_partial_alter_eq|].
  by rewrite lookup_partial_alter_ne.
Qed.

(** Checking a vcpu out of the pool and setting it up. *)
Lemma checkout_setup vp p is_user policy nice boost ks :
  sched_inv ks -> parked ks vp -> validate_vcpu_policy policy = EOK ->
  exists k1, vcpu_pool_checkout ob om vp ks = Some k1 /\
    sched_inv (upd_vp vp (acquired p is_user policy nice boost) k1) /\ is_Some (vcpus k1 !! vp).
Proof.
  intros Hsi Hpk Hp. unfold vcpu_pool_checkout. destruct (vcpus ks !! vp) as [v|] eqn:Hv.
  - pose proof (proj2 Hpk v Hv) as Hs. rewrite bool_decide_true by done. exists ks. split_and!; [done| |by eexists].
    pose proof (inv_local _ _ _ (si_inv _ Hsi) Hv) as [Hok _ _ Ha _ _].
    pose proof (vk_susp _ Hok). pose proof (vk_susp_pos _ Hok Hs).
    destruct (acquired_ok p is_user policy nice boost v Hp ltac:(lia)) as [Hok' [E1 _ E3 _ _]].
    replace ks with (set_vcpus (vcpus ks) ks) by (by destruct ks). rewrite (upd_as_partial _ _ v) by done.
    apply sched_inv_parked; [done..|]. intros v' [= <-]. split_and!; [done|congruence|].
    rewrite E3. destruct (timeout_isArmed v); [by rewrite Ha in Hs|done].
  - eexists. split_and!; [done| |simpl; rewrite lookup_insert_eq; by eexists].
    destruct (acquired_ok p is_user policy nice boost (vcpu_init ob om) Hp ltac:(by vm_compute)) as [Hok' [E1 _ E3 _ _]].
    rewrite (upd_as_partial _ _ (vcpu_init ob om)) by apply lookup_insert_eq.
    unfold insert, map_insert. rewrite partial_alter_partial_alter_eq.
    apply sched_inv_parked; [done..|]. intros v' [= <-]. split_and!; [done|by rewrite E1|by rewrite E3].
Qed.

Lemma acquire_spec vp p attr_ok terminating is_user resumed policy nice boost ks :
  sched_inv ks -> parked ks vp ->
  exists err ks', proc_acquire_vcpu ob om vp p attr_ok terminating is_user resumed policy nice boost ks
    = Some (err, ks') /\ sched_inv ks'.
Proof.
  intros Hsi Hpk. unfold proc_acquire_vcpu. destruct (negb attr_ok); [by eauto|].
  destruct (is_ok _) eqn:Ep; cbn [negb]; [|by eauto]. destruct terminating; [by eauto|].
  apply is_ok_true in Ep.
  destruct (checkout_setup vp p is_user policy nice boost ks Hsi Hpk Ep) as (k1 & Hk1 & Hsi1 & [v1 Hv1]).
  rewrite (bind_some Hk1). cbv zeta. rewrite !upd_upd. fold (acquired p is_user policy nice boost).
  destruct resumed; [|by eauto].
  destruct (resume_spec vp false (acquired p is_user policy nice boost v1) _ Hsi1) as (k2 & Hk2 & Hsi2 & _).
  { by rewrite lookup_upd_vp, decide_True, Hv1. }
  unfold acquired in Hk2. rewrite (bind_some Hk2). by eauto.
Qed.

Lemma destroy_spec vp v ks :
  sched_inv ks -> parked ks vp -> vcpus ks !! vp = Some v ->
  exists ks', vcpu_destroy vp ks = Some ks' /\ sched_inv ks'.
Proof.
  intros Hsi Hpk Hv. unfold vcpu_destroy. rewrite (bind_some Hv), bool_decide_true by (by apply Hpk).
  eexists. split; [done|]. by apply (sched_inv_parked vp None).
Qed.
End OpSpecs.
