(* ===== verification/SchedThm.v ===== *)
(** * Theorems about the scheduler

    The calls that drive the scheduler as a transition relation, the state
    after boot, and the theorems: every call that is enabled in a reachable
    state succeeds and keeps the invariant, and what the operations do. *)

From Stdlib Require Import Sorting.Sorted.
From S2P Require Import Prelude Deque ExtBit Vcpu Sched SchedInv SchedOps.

(** ** The transition system *)

Inductive sched_call :=
| CTick (isuser : bool)
| CWait (wq : positive) (deadline : Z)
| CWaitFinish (start_ticks : Z) (bTimeout : bool)
| CWakeup (wq : positive) (flags pri_boost : Z)
| CYield
| CSuspend (vp : positive)
| CResume (vp : positive) (force : bool)
| CDeferredSuspend
| CSetPolicy (vp : positive) (p : vcpu_policy)
| CSendSignal (vp : positive) (signo pri_boost : Z)
| CAcquire (vp p : positive) (attr_ok terminating is_user resumed : bool)
    (policy : vcpu_policy) (nice boost : Z)
| CDestroy (vp : positive).

Section Calls.
Context (ob om : Z -> Z).

Definition exec (c : sched_call) (ks : kstate) : option kstate :=
  match c with
  | CTick isuser => clock_interrupt ob om isuser ks
  | CWait wq deadline => snd <$> wq_wait_np wq deadline ks
  | CWaitFinish start b => snd <$> wq_wait_np_finish start b ks
  | CWakeup wq flags boost => wq_wakeup_np ob om wq flags boost ks
  | CYield => vcpu_yield ob om ks
  | CSuspend vp => snd <$> vcpu_suspend ob om vp ks
  | CResume vp force => vcpu_resume vp force ks
  | CDeferredSuspend => r ← running ks; vcpu_do_deferred_suspend_np r ks
  | CSetPolicy vp p => snd <$> vcpu_set_policy ob om vp p ks
  | CSendSignal vp signo boost => snd <$> vcpu_send_signal_boost ob om vp signo boost ks
  | CAcquire vp p a t u r policy nice boost =>
      snd <$> proc_acquire_vcpu ob om vp p a t u r policy nice boost ks
  | CDestroy vp => vcpu_destroy vp ks
  end.

(** The running vcpu belongs to a process. *)
Definition runs_in_proc (ks : kstate) : Prop :=
  exists r v, running ks = Some r /\ vcpus ks !! r = Some v /\ is_Some (proc v).

(** What the kernel's callers guarantee: the vcpu that a call names exists; the
    idle vcpu, whose loop only sleeps, neither waits nor yields; a vcpu that
    waits or runs in user mode belongs to a process; a wait has its deadline in
    the future; WAKEUP_ONE is used on a queue with a waiter; and a vcpu that is
    acquired or destroyed is suspended. *)
Definition enabled (c : sched_call) (ks : kstate) : Prop :=
  match c with
  | CTick isuser => isuser = true -> runs_in_proc ks
  | CWait _ deadline => runs_in_proc ks /\ running ks <> Some (idle_vp ks) /\
      (TICKS_MAX <= deadline \/ tick_count ks < deadline)
  | CWaitFinish _ _ => runs_in_proc ks
  | CWakeup wq flags _ => Z.land flags WAKEUP_ONE = 0 \/ wq_get wq ks <> []
  | CYield => running ks <> Some (idle_vp ks)
  | CDeferredSuspend => True
  | CSuspend vp | CResume vp _ | CSetPolicy vp _ | CSendSignal vp _ _ => is_Some (vcpus ks !! vp)
  | CAcquire vp _ _ _ _ _ _ _ _ => parked ks vp
  | CDestroy vp => parked ks vp /\ is_Some (vcpus ks !! vp)
  end.

Definition step (ks ks' : kstate) : Prop := exists c, enabled c ks /\ exec c ks = Some ks'.

(** The boot vcpu is 1, the idle vcpu is 2. *)
Inductive reachable : kstate -> Prop :=
| reach_boot ks : sched_boot ob om 1 2 = Some ks -> reachable ks
| reach_step ks ks' : reachable ks -> step ks ks' -> reachable ks'.

(** ** Every call succeeds and keeps the invariant *)

Lemma fmap_snd_some {A} (m : option (A * kstate)) :
  (exists a ks', m = Some (a, ks') /\ sched_inv ks') -> exists ks', snd <$> m = Some ks' /\ sched_inv ks'.
Proof. intros (a & ks' & -> & H). by exists ks'. Qed.

Lemma exec_safe c ks :
  sched_inv ks -> enabled c ks -> exists ks', exec c ks = Some ks' /\ sched_inv ks'.
Proof.
  intros Hsi He. destruct (si_running _ Hsi) as (r & v & Hr & Hv & Hs).
  assert (Hp : runs_in_proc ks -> is_Some (proc v)).
  { intros (r' & v' & Hr' & Hv' & Hp). by simplify_eq. }
  destruct c; simpl in He |- *; try apply fmap_snd_some.
  - eapply clock_interrupt_spec; [done..|]. auto.
  - destruct He as (Hrp & Hne & Hd). destruct (Hp Hrp) as [p Hpr].
    eexists None. eapply wait_spec; [done..|congruence|done|done].
  - destruct (Hp He) as [p Hpr]. eexists. by eapply wait_finish_spec.
  - destruct (decide (Z.land flags WAKEUP_ONE = 0)) as [E|E].
    + destruct (wakeup_all_spec ob om wq flags pri_boost ks Hsi E) as (ks' & Hk & []). by eauto.
    + destruct He as [|He]; [done|]. destruct (wq_get wq ks) as [|cp q] eqn:Eq; [done|].
      eapply wakeup_one_spec; [done..|]. by rewrite Eq.
  - eapply yield_spec; [done..|congruence].
  - destruct He as [u Hu]. by eapply suspend_spec.
  - destruct He as [u Hu]. destruct (resume_spec vp force u ks Hsi Hu) as (ks' & Hk & Hsi' & _). by eauto.
  - rewrite (bind_some Hr). by apply deferred_suspend_spec.
  - destruct He as [u Hu]. eexists. by eapply set_policy_spec.
  - destruct He as [u Hu]. by eapply send_signal_spec.
  - by apply acquire_spec.
  - destruct He as [Hpk [u Hu]]. by eapply destroy_spec.
Qed.

(** ** The state after boot *)

Definition booted_vcpu (st : rstate) (vtag : Z) : vcpu :=
  set_run_state st (set_tag vtag (set_stack_ok true (set_suspension_count 0 (vcpu_init ob om)))).

Definition booted : kstate :=
  Kstate (<[1%positive := booted_vcpu VCPU_STATE_RUNNING 0]>
            (<[2%positive := booted_vcpu VCPU_STATE_READY VP_TAG_IDLE]> ∅))
    ∅ (Some 1%positive) None false false 0 2%positive 1%positive 0 0 0
    (<[1%nat := [2%positive]]> (replicate 80 [])) [2; 0; 0] ∅ 0 [].

Lemma sched_boot_eq : sched_boot ob om 1 2 = Some booted.
Proof. vm_compute. reflexivity. Qed.

Lemma booted_lookup x v :
  vcpus booted !! x = Some v ->
  (x = 1%positive /\ v = booted_vcpu VCPU_STATE_RUNNING 0) \/
  (x = 2%positive /\ v = booted_vcpu VCPU_STATE_READY VP_TAG_IDLE).
Proof.
  simpl. intros [[<- <-]|[? [[<- <-]|[? ?]]%lookup_insert_Some]]%lookup_insert_Some; [by left|by right|].
  by rewrite lookup_empty in *.
Qed.

Lemma booted_vcpu_ok st t : st <> VCPU_STATE_SUSPENDED -> vcpu_ok (booted_vcpu st t).
Proof.
  intros Hst. constructor; [|by vm_compute..|vm_compute; split; discriminate|done].
  constructor; vm_compute; split; congruence.
Qed.

Lemma booted_rq p : 0 <= p -> arr_get [] (rq_priority booted) p = if decide (p = 1) then [2%positive] else [].
Proof.
  intros Hp. unfold arr_get. change (rq_priority booted) with (<[1%nat := [2%positive]]> (replicate 80 ([] : list positive))).
  case_decide as E; [by subst|]. rewrite list_lookup_insert_ne by lia.
  destruct (decide (p < 80)); [by rewrite lookup_replicate_2 by lia|].
  rewrite lookup_ge_None_2; [done|]. rewrite length_replicate. lia.
Qed.

Lemma booted_bits p : 0 <= p < 96 ->
  Z.testbit (arr_get 0 (rq_populated booted) (p / 32)) (p mod 32) = bool_decide (p = 1).
Proof.
  intros Hp. assert (H : forallb (fun n => let p := Z.of_nat n in
    eqb (Z.testbit (arr_get 0 (rq_populated booted) (p / 32)) (p mod 32)) (bool_decide (p = 1))) (seq 0 96) = true)
    by (by vm_compute).
  rewrite forallb_forall in H. specialize (H (Z.to_nat p)). rewrite Z2Nat.id in H by lia.
  apply eqb_prop, H, in_seq. lia.
Qed.

Lemma booted_core : core_inv None booted.
Proof.
  constructor; [constructor| | |].
  - done.
  - done.
  - intros i. unfold arr_get. change (rq_populated booted) with [2; 0; 0].
    destruct (Z.to_nat i) as [|[|[|]]]; simpl; lia.
  - intros p Hp. rewrite booted_bits, booted_rq, bool_decide_eq_true by lia. by case_decide.
  - intros p. destruct (decide (0 <= p)).
    + rewrite booted_rq by done. case_decide; [apply NoDup_singleton|apply NoDup_nil_2].
    + unfold arr_get. replace (Z.to_nat p) with 0%nat by lia. apply NoDup_nil_2.
  - intros wq. unfold wq_get. simpl. rewrite lookup_empty. apply NoDup_nil_2.
  - intros p x Hp. rewrite booted_rq by done. split.
    + case_decide; [|by intros ?%not_elem_of_nil]. intros ->%list_elem_of_singleton.
      split; [done|]. exists (booted_vcpu VCPU_STATE_READY VP_TAG_IDLE). by subst.
    + intros (_ & v & [[-> ->]|[-> ->]]%booted_lookup & Hs & Hc); [done|].
      rewrite decide_True by (by rewrite <-Hc). set_solver.
  - intros wq x. unfold wq_get. simpl. rewrite lookup_empty. split; [by intros ?%not_elem_of_nil|].
    intros (_ & v & [[-> ->]|[-> ->]]%booted_lookup & Hs & Hc); done.
  - intros x v [[-> ->]|[-> ->]]%booted_lookup; by vm_compute.
Qed.

Lemma booted_inv : sched_inv booted.
Proof.
  constructor; try done.
  - constructor; try done; [apply booted_core| |apply SSorted_nil|apply NoDup_nil_2| |].
    + intros x v _ [[-> ->]|[-> ->]]%booted_lookup; constructor; try done; try (by apply booted_vcpu_ok);
        try (intros d; split; [by intros ?%not_elem_of_nil|by intros [? _]]); (split; [by right + by left|done]).
    + intros x d Hx. by apply not_elem_of_nil in Hx.
    + by eexists _, _.
  - by eexists _, _.
Qed.
End Calls.

(** ** Queue contents after the basic operations *)

Lemma ready_queues ks vp v b ks' p :
  core_inv (Some vp) ks -> vcpus ks !! vp = Some v -> sched_set_ready ks vp b = Some ks' -> 0 <= p ->
  rq_at ks' p = if decide (p = cur_priority v)
                then (if b then dq_add_last vp (rq_at ks p) else dq_add_first vp (rq_at ks p))
                else rq_at ks p.
Proof.
  intros Hc Hv Hk Hp. pose proof (ci_pri _ _ Hc vp v Hv) as Hpri.
  unfold sched_set_ready in Hk. rewrite (bind_some Hv), (core_limbo_unlinked _ _ Hc) in Hk.
  injection Hk as <-. cbn [rq_priority sched_rq_mark_populated set_rq_populated set_rq_priority upd_vp set_vcpus].
  case_decide as E; [subst p|by rewrite arr_get_set_ne by lia].
  rewrite arr_get_set_eq; [done|]. rewrite (rq_len _ (ci_wf _ _ Hc)). lia.
Qed.

Lemma unready_queues ks vp v ks' p :
  core_inv None ks -> vcpus ks !! vp = Some v -> run_state v = VCPU_STATE_READY ->
  sched_set_unready ks vp true = Some ks' -> 0 <= p -> rq_at ks' p = dq_remove vp (rq_at ks p).
Proof.
  intros Hc Hv Hs Hk Hp. pose proof (ci_pri _ _ Hc vp v Hv) as Hpri.
  unfold sched_set_unready in Hk. rewrite (bind_some Hv) in Hk. destruct (_ && _); [done|].
  injection Hk as <-. set (q' := dq_remove vp _).
  assert (Hrq : forall k, rq_priority (match q' with [] => sched_rq_clear_populated (cur_priority v) k | _ => k end)
    = rq_priority k) by (intros k; by destruct q').
  rewrite Hrq. cbn [rq_priority set_rq_priority upd_vp set_vcpus].
  destruct (decide (p = cur_priority v)) as [->|Hne].
  - rewrite arr_get_set_eq; [done|]. rewrite (rq_len _ (ci_wf _ _ Hc)). lia.
  - rewrite arr_get_set_ne by lia. rewrite dq_remove_not_elem; [done|].
    intros Hin. apply (ci_ready _ _ Hc) in Hin as (_ & v' & Hv' & _ & Hc'); [|done]. congruence.
Qed.

(** ** Reachable states *)

(** C1. In every state that the scheduler can reach after boot the invariant
    holds (the queues and the bitmap agree with the states of the vcpus, one
    vcpu runs, priorities are the effective ones, the clock has exactly the
    armed timeouts), and every call that is enabled there succeeds: no
    assertion fails, no NULL pointer is used and no context switch lacks a
    vcpu to switch to. *)
Theorem reachable_safe (ob om : Z -> Z) (ks : kstate) :
  reachable ob om ks ->
  sched_inv ks /\
  forall c, enabled c ks -> exists ks', exec ob om c ks = Some ks' /\ reachable ob om ks'.
Proof.
  intros Hr. assert (Hsi : sched_inv ks).
  { induction Hr as [ks Hb|ks ks' _ IH (c & He & Hx)].
    - rewrite sched_boot_eq in Hb. injection Hb as <-. apply booted_inv.
    - destruct (exec_safe ob om c ks IH He) as (k & Hk & ?). congruence. }
  split; [done|]. intros c He. destruct (exec_safe ob om c ks Hsi He) as (ks' & Hk & _).
  exists ks'. split; [done|]. eapply reach_step; [done|]. by exists c.
Qed.

Lemma reachable_safe_witness :
  let z := fun _ : Z => 0 in
  sched_inv (booted z z) /\ exists ks', exec z z CYield (booted z z) = Some ks' /\ reachable z z ks'.
Proof.
  intros z. destruct (reachable_safe z z (booted z z)) as [H1 H2].
  - apply reach_boot. vm_compute. reflexivity.
  - split; [exact H1|]. apply H2. vm_compute. discriminate.
Defined.

(** The search through the population bitmap with leading-zero counts
    returns the first vcpu of the highest-priority non-empty queue, as a scan
    of all 80 queues from the top would. *)
Theorem highest_priority_ready_scan (ks : kstate) :
  rq_wf ks -> sched_highest_priority_ready ks = highest_ready_scan ks.
Proof. apply highest_ready_is_scan. Qed.

Lemma highest_priority_ready_scan_witness :
  let k := booted (fun _ => 0) (fun _ => 0) in
  sched_highest_priority_ready k = highest_ready_scan k /\ highest_ready_scan k = Some 2%positive.
Proof.
  split; [|vm_compute; reflexivity]. apply highest_priority_ready_scan.
  apply (ci_wf None). apply booted_core.
Defined.

(** A context switch: the scheduled vcpu becomes the running one and leaves
    its ready queue; the vcpu that was running goes to the front of its queue
    when it was preempted and to the back otherwise; the order of every queue
    is kept. *)
Theorem switch_queue_discipline (ks : kstate) (r s : positive) (v u : vcpu) :
  inv_l None ks -> running ks = Some r -> vcpus ks !! r = Some v -> run_state v = VCPU_STATE_RUNNING ->
  scheduled ks = Some s -> vcpus ks !! s = Some u -> run_state u = VCPU_STATE_READY ->
  exists ks', sched_switch_context ks = Some ks' /\ running ks' = Some s /\
    forall p, 0 <= p ->
      arr_get [] (rq_priority ks') p = dq_remove s
        (if decide (p = cur_priority v)
         then (if csw_preempted ks then r :: arr_get [] (rq_priority ks) p
               else arr_get [] (rq_priority ks) p ++ [r])
         else arr_get [] (rq_priority ks) p).
Proof.
  intros Hi Hr Hv Hs Hsc Hu Hru.
  destruct (switch_context_spec ks s u Hi Hsc Hu Hru) as (ks' & Hk & Hsw & _).
  exists ks'. split_and!; [done|apply Hsw|]. intros p Hp.
  assert (Hc1 : core_inv (Some r) ks) by (eapply core_to_limbo; [apply Hi|done|by left]).
  destruct (set_ready_spec ks r v (negb (csw_preempted ks)) Hc1 Hv) as (k1 & Hk1 & Hc2 & He & Hvs).
  unfold sched_switch_context in Hk.
  rewrite (bind_some Hr), (bind_some Hv), bool_decide_true, (bind_some Hk1) in Hk by done.
  unfold csw_restore in Hk. rewrite (se_scheduled _ _ He), (bind_some Hsc) in Hk.
  assert (Hu1 : vcpus k1 !! s = Some u) by (rewrite Hvs, lookup_alter_ne by (intros ->; congruence); done).
  destruct (sched_set_unready k1 s true) as [k2|] eqn:Hk2; [|done]. injection Hk as <-.
  cbn [rq_priority set_csw_preempted set_csw_switch set_scheduled set_running].
  rewrite (unready_queues k1 s u k2 p), (ready_queues ks r v _ k1 p Hc1 Hv Hk1) by done.
  case_decide; [|done]. by destruct (csw_preempted ks).
Qed.

Lemma switch_queue_discipline_witness :
  let z := fun _ : Z => 0 in
  let k := sched_set_running (Some 2%positive) (booted z z) in
  exists ks', sched_switch_context k = Some ks' /\ running ks' = Some 2%positive /\
    arr_get [] (rq_priority ks') 1 = [1%positive].
Proof.
  intros z k.
  destruct (switch_queue_discipline k 1%positive 2%positive
    (booted_vcpu z z VCPU_STATE_RUNNING 0) (booted_vcpu z z VCPU_STATE_READY VP_TAG_IDLE)) as (ks' & H1 & H2 & H3);
    try reflexivity.
  - apply (inv_ext None (booted z z)); try reflexivity. apply booted_inv.
  - exists ks'. split; [exact H1|]. split; [exact H2|]. rewrite H3 by lia. vm_compute. reflexivity.
Defined.

(** ** Wakeups and timeouts *)

(** Waking all waiters of a wait queue empties it: every vcpu that waited on
    it, and no other, is made ready with the reason WRES_WAKEUP, the other wait
    queues keep their waiters, and no context switch happens. *)
Theorem wakeup_all_wakes_exactly (ob om : Z -> Z) (wq : positive) (flags pri_boost : Z) (ks : kstate) :
  sched_inv ks -> Z.land flags WAKEUP_ONE = 0 ->
  exists ks', wq_wakeup_np ob om wq flags pri_boost ks = Some ks' /\ sched_inv ks' /\
    wq_get wq ks' = [] /\ running ks' = running ks /\
    (forall x, x ∈ wq_get wq ks -> exists v, vcpus ks' !! x = Some v /\
       run_state v = VCPU_STATE_READY /\ wakeup_reason v = WRES_WAKEUP) /\
    (forall x, x ∉ wq_get wq ks -> vcpus ks' !! x = vcpus ks !! x) /\
    (forall w, w <> wq -> wq_get w ks' = wq_get w ks).
Proof.
  intros Hsi Hf. destruct (wakeup_all_spec ob om wq flags pri_boost ks Hsi Hf) as (ks' & Hk & [H1 [] H3 H4 H5 H6]).
  exists ks'. split_and!; try done.
  - destruct (wq_get wq ks') as [|x q] eqn:E; [done|].
    destruct (proj1 (H5 x)) as [? []]; [by left|done].
  - intros x Hx. destruct (H3 x Hx) as (v & ? & ? & _ & ?). by eauto.
Qed.

Lemma inv_nest n ks : sched_inv ks -> inv_l None (set_irq_nest_count n ks).
Proof. intros Hsi. by apply (inv_ext None ks), Hsi. Qed.

(** A scheduler whose boot vcpu belongs to a process. *)
Definition booted_proc : kstate :=
  let z := fun _ : Z => 0 in upd_vp 1 (set_proc (Some 1%positive)) (booted z z).

Lemma booted_proc_inv : sched_inv booted_proc.
Proof.
  apply sched_inv_upd_frame; [apply booted_inv|]. intros v _ Hok. split_and!; [by eapply vcpu_ok_frame|done|done].
Qed.

(** The same after its boot vcpu went to wait on the queue 7 until tick 3. *)
Definition waiting_state : kstate := default booted_proc (snd <$> wq_wait_np 7 3 booted_proc).

Lemma waiting_state_inv : sched_inv waiting_state.
Proof.
  destruct (wait_spec (fun _ => 0) (fun _ => 0) 7 3 1 (set_proc (Some 1%positive) (booted_vcpu (fun _ => 0) (fun _ => 0) VCPU_STATE_RUNNING 0))
    1 booted_proc booted_proc_inv) as (ks' & Hk & Hsi); try reflexivity; [done|by right|].
  unfold waiting_state. rewrite Hk. exact Hsi.
Qed.

Lemma wakeup_all_wakes_exactly_witness :
  wq_get 7 waiting_state = [1%positive] /\
  exists ks', wq_wakeup_np (fun _ => 0) (fun _ => 0) 7 WAKEUP_ALL 0 waiting_state = Some ks' /\
    wq_get 7 ks' = [].
Proof.
  split; [vm_compute; reflexivity|].
  destruct (wakeup_all_wakes_exactly (fun _ => 0) (fun _ => 0) 7 WAKEUP_ALL 0 waiting_state) as (ks' & H1 & _ & H2 & _).
  - apply waiting_state_inv.
  - reflexivity.
  - exists ks'. split; [exact H1|exact H2].
Defined.

(** C38. A clock interrupt wakes the vcpu of every timeout that is due: it is
    ready with the reason WRES_TIMEOUT.  The timeouts that stay in the deadline
    queue are not due yet.  The number of queued timeouts is enough fuel. *)
Theorem due_timeouts_wake (ob om : Z -> Z) (now : Z) (ks : kstate) :
  inv_l None ks -> 0 < irq_nest_count ks ->
  exists ks', run_deadlines ob om (length (deadline_queue ks)) now ks = Some ks' /\
    (forall x d, (x, d) ∈ deadline_queue ks' -> now < d) /\
    (forall x d, (x, d) ∈ deadline_queue ks -> d <= now ->
       exists v, vcpus ks' !! x = Some v /\ run_state v = VCPU_STATE_READY /\ wakeup_reason v = WRES_TIMEOUT).
Proof.
  intros Hi Hn. destruct (run_deadlines_spec ob om now (length (deadline_queue ks)) ks Hi Hn)
    as (ks' & H1 & _ & _ & _ & H2 & H3); [done|]. by eauto.
Qed.

Lemma due_timeouts_wake_witness :
  let k := set_irq_nest_count 1 waiting_state in
  deadline_queue k = [(1%positive, 3)] /\
  exists ks', run_deadlines (fun _ => 0) (fun _ => 0) (length (deadline_queue k)) 3 k = Some ks' /\
    forall x d, (x, d) ∈ deadline_queue ks' -> 3 < d.
Proof.
  intros k. split; [vm_compute; reflexivity|].
  destruct (due_timeouts_wake (fun _ => 0) (fun _ => 0) 3 k) as (ks' & H1 & H2 & _).
  - apply inv_nest, waiting_state_inv.
  - reflexivity.
  - exists ks'. split; [exact H1|exact H2].
Defined.

(** A wait whose deadline has passed returns ETIMEDOUT at once, but only
    after the caller was put on the wait queue and marked as waiting: the vcpu
    that goes on running is in the state WAITING and still on the queue, so the
    scheduler's invariant is broken. *)
Theorem past_deadline_wait_leaves_waiter (wq r : positive) (deadline : Z) (ks : kstate) :
  sched_inv ks -> running ks = Some r -> deadline < TICKS_MAX -> deadline <= tick_count ks ->
  exists ks', wq_wait_np wq deadline ks = Some (Some ETIMEDOUT, ks') /\ running ks' = Some r /\
    (exists v, vcpus ks' !! r = Some v /\ run_state v = VCPU_STATE_WAITING) /\
    r ∈ wq_get wq ks' /\ ~ sched_inv ks'.
Proof.
  intros Hsi Hr Hd Ht. destruct (si_running _ Hsi) as (r' & v & Hr' & Hv & Hs). simplify_eq.
  destruct (wait_mark_ok wq v) as (_ & _ & Hs1 & _ & _); [by eapply vl_ok, inv_local; [apply Hsi|]|].
  unfold wq_wait_np. rewrite (bind_some Hr), (bind_some Hv). cbv zeta.
  rewrite (proj2 (Z.ltb_lt _ _) Hd), (proj2 (Z.leb_le _ _) Ht). cbn [andb].
  eexists. split; [done|]. set (k := upd_vp _ _ _).
  assert (Hv' : vcpus k !! r = Some (wait_mark wq v))
    by (unfold k; rewrite lookup_upd_vp, decide_True by done; simpl; by rewrite Hv).
  split_and!; [done|by eauto| |].
  - unfold k. rewrite wq_get_upd_vp, wq_get_set, decide_True by done. unfold dq_add_last. set_solver.
  - intros [_ (r' & v' & Hr'' & Hv'' & Hs'') _ _ _ _]. assert (r' = r) by (unfold k in Hr''; simpl in Hr''; congruence).
    subst. congruence.
Qed.

Lemma past_deadline_wait_leaves_waiter_witness :
  exists ks', wq_wait_np 7 0 booted_proc = Some (Some ETIMEDOUT, ks') /\ 1%positive ∈ wq_get 7 ks'.
Proof.
  destruct (past_deadline_wait_leaves_waiter 7 1 0 booted_proc) as (ks' & H1 & _ & _ & H2 & _).
  - apply booted_proc_inv.
  - reflexivity.
  - reflexivity.
  - discriminate.
  - exists ks'. split; [exact H1|exact H2].
Defined.

(** sched_create asks for the highest real-time priority for the boot vcpu
    and for the lowest background priority for the idle vcpu, but
    vcpu_set_policy reserves exactly these two policies and answers EPERM, which
    is ignored.  After boot both vcpus have priority 1, neither is of fixed
    priority, and the boot vcpu runs first only because it was queued first. *)
Theorem boot_policies_refused (ob om : Z -> Z) :
  validate_vcpu_policy (Policy sizeof_vcpu_policy (Qos VCPU_QOS_REALTIME VCPU_PRI_HIGHEST)) = EPERM /\
  validate_vcpu_policy (Policy sizeof_vcpu_policy (Qos VCPU_QOS_BACKGROUND VCPU_PRI_LOWEST)) = EPERM /\
  exists ks, sched_boot ob om 1 2 = Some ks /\ running ks = Some 1%positive /\
    forall vp, vp = 1%positive \/ vp = 2%positive -> exists v, vcpus ks !! vp = Some v /\
      cur_priority v = 1 /\ flag_fixed_pri v = false.
Proof.
  split_and!; [done..|]. exists (booted ob om). split_and!; [apply sched_boot_eq|done|].
  intros vp [->| ->]; eexists; split_and!; try reflexivity; by vm_compute.
Qed.
