(* ===== verification/Mtx.v ===== *)
(** * Mutexes and condition variables (kern/src/sched/mtx.c, cnd.c; kern/src/hal/hw/m68k/mtx_asm.s)

    A mutex is a bit that is set atomically, a queue of waiters and the owner; a
    condition variable is a queue of waiters.  The parts of a call that run with
    preemption enabled are single instructions, the parts that run with
    preemption disabled are atomic; a thread is always between two such parts.
    The model is one mutex with one condition variable and any number of
    threads, which call the functions in any order that the interface allows.

    The wait queues are the FIFO queues of Sched.v, reduced to the order of the
    waiters.  The deadline of a timed wait is in the future when the wait
    begins. *)

From S2P Require Import Prelude.

(** Where a thread is in the calls. *)
Inductive pc :=
| Idle          (* outside, not holding the mutex *)
| LockFast      (* mtx_lock: before the first bset *)
| LockSlow      (* mtx_lock: before the bset at l_retry *)
| LockWait      (* mtx_lock: in mtx_onwait *)
| LockOwner     (* the bit is set, the owner not yet *)
| Critical      (* holds the mutex *)
| Unlock        (* mtx_unlock: the owner is cleared, before _mtx_unlock *)
| UnlockWait    (* mtx_unlock_then_wait: the same *)
| CndWait.      (* waits on the condition variable *)

#[export] Instance pc_eq_dec : EqDecision pc.
Proof. solve_decision. Defined.

Notation tid := positive.

Record mtx := Mtx {
  mtx_value : bool;
  mtx_wq : list tid;
  owner : option tid;
  cnd_wq : list tid;
  threads : gmap tid pc }.

Definition mtx_init (ts : gset tid) : mtx := Mtx false [] None [] (gset_to_gmap Idle ts).

Definition goto (t : tid) (p : pc) (s : mtx) : mtx :=
  Mtx (mtx_value s) (mtx_wq s) (owner s) (cnd_wq s) (<[t := p]> (threads s)).

Definition set_all (ts : list tid) (p : pc) (m : gmap tid pc) : gmap tid pc := foldr (fun t => <[t := p]>) m ts.

(** bset #7: whether the bit was clear, and the new state. *)
Definition bset (s : mtx) : bool * mtx :=
  (negb (mtx_value s), Mtx true (mtx_wq s) (owner s) (cnd_wq s) (threads s)).

(** mtx_trylock up to the bset; it returns at once if the mutex is busy. *)
Definition mtx_trylock (t : tid) (s : mtx) : mtx :=
  let '(ok, s) := bset s in goto t (if ok : bool then LockOwner else Idle) s.

(** mtx_lock up to the first bset. *)
Definition lock_fast (t : tid) (s : mtx) : mtx :=
  let '(ok, s) := bset s in goto t (if ok : bool then LockOwner else LockSlow) s.

(** mtx_onwait: the thread enters the wait queue. *)
Definition mtx_onwait (t : tid) (s : mtx) : mtx :=
  goto t LockWait (Mtx (mtx_value s) (mtx_wq s ++ [t]) (owner s) (cnd_wq s) (threads s)).

(** One round of the loop at l_retry. *)
Definition lock_slow (t : tid) (s : mtx) : mtx :=
  let '(ok, s) := bset s in if ok : bool then goto t LockOwner s else mtx_onwait t s.

(** The owner is set after the acquisition. *)
Definition lock_set_owner (t : tid) (s : mtx) : mtx :=
  goto t Critical (Mtx (mtx_value s) (mtx_wq s) (Some t) (cnd_wq s) (threads s)).

(** mtx_unlock and mtx_unlock_then_wait up to the call of the assembly part;
    [None] is the fatal error of a caller that is not the owner. *)
Definition unlock_begin (wait : bool) (t : tid) (s : mtx) : option mtx :=
  if decide (owner s = Some t)
  then Some (goto t (if wait then UnlockWait else Unlock) (Mtx (mtx_value s) (mtx_wq s) None (cnd_wq s) (threads s)))
  else None.

Definition bclr (s : mtx) : mtx := Mtx false (mtx_wq s) (owner s) (cnd_wq s) (threads s).

(** mtx_wake: all waiters of the mutex become ready. *)
Definition mtx_wake (s : mtx) : mtx :=
  Mtx (mtx_value s) [] (owner s) (cnd_wq s) (set_all (mtx_wq s) LockSlow (threads s)).

(** _mtx_unlock. *)
Definition mtx_release (t : tid) (s : mtx) : mtx := goto t Idle (mtx_wake (bclr s)).

(** _mtx_unlock_then_wait with mtx_wake_then_wait. *)
Definition mtx_release_then_wait (t : tid) (s : mtx) : mtx :=
  let s := mtx_wake (bclr s) in
  goto t CndWait (Mtx (mtx_value s) (mtx_wq s) (owner s) (cnd_wq s ++ [t]) (threads s)).

(** _cnd_wake; a woken thread goes on with the mtx_lock of cnd_wait.  [None] is
    the signal of a condition variable without waiters (see Sched.v). *)
Definition cnd_wake (broadcast : bool) (s : mtx) : option mtx :=
  if broadcast then Some (Mtx (mtx_value s) (mtx_wq s) (owner s) [] (set_all (cnd_wq s) LockFast (threads s)))
  else match cnd_wq s with
       | [] => None
       | w :: q => Some (goto w LockFast (Mtx (mtx_value s) (mtx_wq s) (owner s) q (threads s)))
       end.

(** A timeout of cnd_timedwait. *)
Definition cnd_timeout (t : tid) (s : mtx) : mtx :=
  goto t LockFast (Mtx (mtx_value s) (mtx_wq s) (owner s) (filter (fun u => u <> t) (cnd_wq s)) (threads s)).

Definition mtx_owner (s : mtx) : option tid := if mtx_value s then owner s else None.

(** The asserts of mtx_deinit and cnd_deinit. *)
Definition mtx_can_deinit (s : mtx) : bool :=
  bool_decide (mtx_owner s = None) && bool_decide (mtx_wq s = []).
Definition cnd_can_deinit (s : mtx) : bool := bool_decide (cnd_wq s = []).

(** One step of one thread, or a timeout. *)
Inductive mtx_step (s : mtx) : mtx -> Prop :=
| ms_trylock t : threads s !! t = Some Idle -> mtx_step s (mtx_trylock t s)
| ms_lock t : threads s !! t = Some Idle -> mtx_step s (goto t LockFast s)
| ms_fast t : threads s !! t = Some LockFast -> mtx_step s (lock_fast t s)
| ms_slow t : threads s !! t = Some LockSlow -> mtx_step s (lock_slow t s)
| ms_owner t : threads s !! t = Some LockOwner -> mtx_step s (lock_set_owner t s)
| ms_unlock t wait s' : threads s !! t = Some Critical -> unlock_begin wait t s = Some s' -> mtx_step s s'
| ms_release t : threads s !! t = Some Unlock -> mtx_step s (mtx_release t s)
| ms_wait t : threads s !! t = Some UnlockWait -> mtx_step s (mtx_release_then_wait t s)
| ms_wake b s' : cnd_wake b s = Some s' -> mtx_step s s'
| ms_timeout t : threads s !! t = Some CndWait -> mtx_step s (cnd_timeout t s).

Definition mtx_reachable (ts : gset tid) (s : mtx) : Prop := rtc mtx_step (mtx_init ts) s.

(** ** The invariant *)

(** The thread has set the bit and not cleared it. *)
Definition holds_bit (p : pc) : bool :=
  match p with LockOwner | Critical | Unlock | UnlockWait => true | _ => false end.

Definition queued (p : pc) : bool := match p with LockWait | CndWait => true | _ => false end.

(** [q] is the queue of the threads at [p]. *)
Definition queue_of (p : pc) (q : list tid) (m : gmap tid pc) : Prop :=
  NoDup q /\ forall t, t ∈ q <-> m !! t = Some p.

(** [h] is the thread that has the bit. *)
Record mtx_inv (h : option tid) (s : mtx) : Prop := {
  mi_value : mtx_value s = bool_decide (is_Some h);
  mi_holder : forall t, h = Some t <-> exists p, threads s !! t = Some p /\ holds_bit p = true;
  mi_owner : forall t, owner s = Some t <-> threads s !! t = Some Critical;
  mi_wq : queue_of LockWait (mtx_wq s) (threads s);
  mi_cv : queue_of CndWait (cnd_wq s) (threads s);
  mi_wait : mtx_wq s <> [] -> is_Some h }.

Lemma lookup_set_all ts p m t : set_all ts p m !! t = if decide (t ∈ ts) then Some p else m !! t.
Proof.
  unfold set_all. induction ts as [|u ts IH]; cbn [foldr]; [rewrite decide_False by apply not_elem_of_nil; done|].
  destruct (decide (u = t)) as [->|E].
  - rewrite lookup_insert_eq, decide_True; [done|]. apply elem_of_cons; auto.
  - rewrite lookup_insert_ne, IH by done. apply decide_ext. rewrite elem_of_cons. intuition congruence.
Qed.

(** A queue after its threads have left it. *)
Lemma queue_wake p p' q q' m :
  queue_of p q m -> queue_of p' q' m -> p <> p' -> forall r, r <> p -> r <> p' ->
  queue_of p [] (set_all q r m) /\ queue_of p' q' (set_all q r m).
Proof.
  intros [_ Hq] [Hn Hq'] Hp r Hr Hr'. split; (split; [by try constructor|]); intros t; rewrite lookup_set_all.
  - rewrite elem_of_nil. case_decide as E; [naive_solver|]. by rewrite <- Hq.
  - case_decide as E; [|apply Hq']. rewrite Hq' . apply Hq in E. split; congruence.
Qed.

(** A thread goes from [p] to [q]. *)
Lemma goto_inv h s t p q h' v' w' o' c' :
  mtx_inv h s -> threads s !! t = Some p ->
  (forall a, h' = Some a <-> if decide (a = t) then holds_bit q = true else h = Some a) ->
  v' = bool_decide (is_Some h') ->
  (forall a, o' = Some a <-> if decide (a = t) then q = Critical else owner s = Some a) ->
  NoDup w' -> (forall a, a ∈ w' <-> if decide (a = t) then q = LockWait else a ∈ mtx_wq s) ->
  NoDup c' -> (forall a, a ∈ c' <-> if decide (a = t) then q = CndWait else a ∈ cnd_wq s) ->
  (w' <> [] -> is_Some h') ->
  mtx_inv h' (Mtx v' w' o' c' (<[t := q]> (threads s))).
Proof.
  intros [Hv Hh Ho [_ Hw] [_ Hc] Hb] Ht Hh' Hv' Ho' Hn Hw' Hn' Hc' Hb'.
  split; simpl; try done; try (split; [done|]); intros a;
    rewrite ?Hh', ?Ho', ?Hw', ?Hc', lookup_insert; repeat case_decide; subst; naive_solver.
Qed.

Lemma not_queued p : queued p = false -> p <> LockWait /\ p <> CndWait.
Proof. by destruct p. Qed.

Lemma bset_busy s : mtx_value s = true -> bset s = (false, s).
Proof. intros E. destruct s; simpl in *; subst. done. Qed.

Lemma bset_free s : mtx_value s = false -> bset s = (true, (bset s).2).
Proof. intros E. unfold bset. by rewrite E. Qed.

Section Steps.
Variable s : mtx.
Variable h : option tid.
Hypothesis Hi : mtx_inv h s.

Lemma at_queues t p : threads s !! t = Some p ->
  (p <> LockWait -> t ∉ mtx_wq s) /\ (p <> CndWait -> t ∉ cnd_wq s) /\ (p <> Critical -> owner s <> Some t).
Proof.
  intros Ht. destruct Hi as [_ _ Ho [_ Hw] [_ Hc] _]. rewrite Hw, Hc, Ho, Ht. split_and!; congruence.
Qed.

(** A step between places without the bit that leaves the queues alone. *)
Lemma move_inv t p q :
  threads s !! t = Some p -> holds_bit p = false -> holds_bit q = false ->
  queued p = false -> queued q = false -> mtx_inv h (goto t q s).
Proof.
  intros Ht Hp Hq Hp' Hq'. destruct (not_queued p Hp'), (not_queued q Hq').
  assert (p <> Critical /\ q <> Critical) as [Hpc Hqc] by (by split; intros ->).
  destruct (at_queues t p Ht) as (Hw & Hc & Ho). pose proof Hi as [Hv Hh _ [Hn _] [Hn' _] Hb].
  assert (h <> Some t) by (rewrite Hh; intros (? & ? & ?); congruence).
  eapply goto_inv; eauto; intros a; destruct (decide (a = t)) as [->|]; intuition congruence.
Qed.

Lemma acquire_inv t p :
  threads s !! t = Some p -> queued p = false -> holds_bit p = false -> mtx_value s = false ->
  mtx_inv (Some t) (goto t LockOwner (bset s).2).
Proof.
  intros Ht Hp Hpb Hv. destruct (not_queued p Hp). assert (p <> Critical) by (by intros ->). destruct (at_queues t p Ht) as (Hw & Hc & Ho).
  pose proof Hi as [Hv' _ _ [Hn _] [Hn' _] _]. rewrite Hv in Hv'. symmetry in Hv'. apply bool_decide_eq_false in Hv'.
  assert (h = None) by (by apply eq_None_not_Some). clear Hv'. subst h.
  unfold goto; simpl. eapply goto_inv; eauto; intros a; destruct (decide (a = t)) as [->|]; simpl; intuition congruence.
Qed.

Lemma onwait_inv t p :
  threads s !! t = Some p -> queued p = false -> holds_bit p = false -> mtx_value s = true ->
  mtx_inv h (mtx_onwait t s).
Proof.
  intros Ht Hp Hb Hv. destruct (not_queued p Hp). assert (p <> Critical) by (by intros ->).
  destruct (at_queues t p Ht) as (Hw & Hc & Ho). pose proof Hi as [Hv' Hh _ [Hn _] [Hn' _] _].
  assert (h <> Some t) by (rewrite Hh; intros (? & ? & ?); congruence).
  rewrite Hv in Hv'. symmetry in Hv'. apply bool_decide_eq_true in Hv'.
  unfold mtx_onwait, goto; simpl. eapply goto_inv; eauto.
  - intros a; destruct (decide (a = t)) as [->|]; simpl; intuition congruence.
  - apply Hi.
  - intros a; destruct (decide (a = t)) as [->|]; intuition congruence.
  - apply NoDup_app. split_and!; [done| |apply NoDup_singleton]. intros a Ha ->%list_elem_of_singleton. tauto.
  - intros a. rewrite elem_of_app, list_elem_of_singleton. destruct (decide (a = t)) as [->|]; intuition congruence.
  - intros a; destruct (decide (a = t)) as [->|]; intuition congruence.
Qed.

(** The holder goes on holding; [o] is the owner that it sets. *)
Lemma holder_inv t p q (o : option tid) :
  threads s !! t = Some p -> holds_bit p = true -> holds_bit q = true ->
  o = (if decide (q = Critical) then Some t else None) ->
  mtx_inv h (goto t q (Mtx (mtx_value s) (mtx_wq s) o (cnd_wq s) (threads s))).
Proof.
  intros Ht Hp Hq ->. destruct (at_queues t p Ht) as (Hw & Hc & _). pose proof Hi as [Hv Hh Ho [Hn _] [Hn' _] Hb].
  assert (Hht : h = Some t) by (apply Hh; eauto).
  assert (Hown : forall a, owner s = Some a -> a = t).
  { intros a Ha%Ho. assert (h = Some a) by (apply Hh; eauto). congruence. }
  assert (p <> LockWait /\ p <> CndWait /\ q <> LockWait /\ q <> CndWait) as (? & ? & ? & ?) by (by split_and!; intros ->).
  unfold goto; simpl. eapply goto_inv; eauto; intros a; destruct (decide (a = t)) as [->|]; try case_decide;
    try (specialize (Hown a)); intuition congruence.
Qed.

Lemma mtx_wake_inv : mtx_inv h (mtx_wake s).
Proof.
  pose proof Hi as [Hv Hh Ho Hw Hc Hb]. destruct (queue_wake LockWait CndWait _ _ _ Hw Hc) with (r := LockSlow) as [Hw' Hc']; try done.
  split; try done; simpl; intros t; rewrite ?Hh, ?Ho; [|]; (setoid_rewrite lookup_set_all; case_decide as E; [|done]);
    apply (proj2 Hw) in E; naive_solver.
Qed.

Lemma cnd_broadcast_inv :
  mtx_inv h (Mtx (mtx_value s) (mtx_wq s) (owner s) [] (set_all (cnd_wq s) LockFast (threads s))).
Proof.
  pose proof Hi as [Hv Hh Ho Hw Hc Hb]. destruct (queue_wake CndWait LockWait _ _ _ Hc Hw) with (r := LockFast) as [Hc' Hw']; try done.
  split; try done; simpl; intros t; rewrite ?Hh, ?Ho; [|]; (setoid_rewrite lookup_set_all; case_decide as E; [|done]);
    apply (proj2 Hc) in E; naive_solver.
Qed.
End Steps.

(** The holder releases the bit, and waits if [q] is [CndWait]. *)
Lemma release_inv h s t p q c :
  mtx_inv h s -> threads s !! t = Some p -> p = Unlock \/ p = UnlockWait ->
  (q = Idle /\ c = cnd_wq s) \/ (q = CndWait /\ c = cnd_wq s ++ [t]) ->
  mtx_inv None (goto t q (Mtx false [] (owner s) c (set_all (mtx_wq s) LockSlow (threads s)))).
Proof.
  intros Hi Ht Hp Hq. pose proof (mtx_wake_inv s h Hi) as Hw. destruct (at_queues s h Hi t p Ht) as (Htw & Htc & Hto).
  assert (Ht' : threads (mtx_wake s) !! t = Some p).
  { simpl. rewrite lookup_set_all, decide_False; [done|]. apply Htw. destruct Hp; congruence. }
  assert (Hh : h = Some t) by (apply (mi_holder h s Hi); exists p; destruct Hp as [-> | ->]; done).
  assert (t ∉ cnd_wq s) by (apply Htc; destruct Hp; congruence).
  assert (owner s <> Some t) by (apply Hto; destruct Hp; congruence).
  pose proof (mi_cv _ _ Hi) as [Hn _].
  unfold goto; simpl. apply (goto_inv h (mtx_wake s) t p); simpl; try done.
  - intros a. destruct (decide (a = t)) as [->|]; [destruct Hq as [[-> _] | [-> _]]|]; split; intros; simplify_eq/=; done.
  - intros a. destruct (decide (a = t)) as [->|]; [destruct Hq as [[-> _] | [-> _]]; split; congruence|done].
  - constructor.
  - intros a. rewrite elem_of_nil. destruct (decide (a = t)) as [->|]; [|by rewrite elem_of_nil].
    destruct Hq as [[-> _] | [-> _]]; by split.
  - destruct Hq as [[_ ->] | [_ ->]]; [done|]. apply NoDup_app. split_and!; [done| |apply NoDup_singleton].
    intros a Ha ->%list_elem_of_singleton. tauto.
  - intros a. destruct Hq as [[-> ->] | [-> ->]]; rewrite ?elem_of_app, ?list_elem_of_singleton;
      destruct (decide (a = t)) as [->|]; intuition congruence.
Qed.

(** A thread leaves the condition variable's queue. *)
Lemma dequeue_inv h s t c :
  mtx_inv h s -> threads s !! t = Some CndWait -> NoDup c -> (forall a, a ∈ c <-> a ∈ cnd_wq s /\ a <> t) ->
  mtx_inv h (goto t LockFast (Mtx (mtx_value s) (mtx_wq s) (owner s) c (threads s))).
Proof.
  intros Hi Ht Hn Hc. destruct (at_queues s h Hi t _ Ht) as (Htw & _ & Hto).
  pose proof Hi as [Hv Hh _ [Hnw _] _ Hb].
  assert (h <> Some t) by (rewrite Hh, Ht; intros (? & [= <-] & [=])).
  unfold goto; simpl. eapply goto_inv; eauto; intros a; rewrite ?Hc; destruct (decide (a = t)) as [->|]; simpl; intuition congruence.
Qed.

Lemma init_inv ts : mtx_inv None (mtx_init ts).
Proof.
  assert (Hp : forall t p, gset_to_gmap Idle ts !! t = Some p -> p = Idle)
    by (by intros t p [_ <-]%lookup_gset_to_gmap_Some).
  split; simpl; try done; try (split; [constructor|]); intros t; rewrite ?elem_of_nil; split; try done.
  - by intros (p & ->%Hp & ?).
  - by intros ?%Hp.
  - by intros ?%Hp.
  - by intros ?%Hp.
Qed.

Lemma mtx_step_inv h s s' : mtx_inv h s -> mtx_step s s' -> exists h', mtx_inv h' s'.
Proof.
  intros Hi. destruct 1 as [t Ht|t Ht|t Ht|t Ht|t Ht|t w s' Ht Hu|t Ht|t Ht|b s' Hw|t Ht].
  - unfold mtx_trylock. destruct (mtx_value s) eqn:Hv; [rewrite bset_busy by done|rewrite bset_free by done].
    + exists h. by eapply move_inv.
    + eexists. by eapply (acquire_inv s h Hi t).
  - exists h. by eapply move_inv.
  - unfold lock_fast. destruct (mtx_value s) eqn:Hv; [rewrite bset_busy by done|rewrite bset_free by done].
    + exists h. by eapply move_inv.
    + eexists. by eapply (acquire_inv s h Hi t).
  - unfold lock_slow. destruct (mtx_value s) eqn:Hv; [rewrite bset_busy by done|rewrite bset_free by done].
    + exists h. by eapply onwait_inv.
    + eexists. by eapply (acquire_inv s h Hi t).
  - exists h. by eapply holder_inv.
  - exists h. unfold unlock_begin in Hu. case_decide; simplify_eq. by destruct w; eapply holder_inv.
  - exists None. apply (release_inv h s t Unlock Idle (cnd_wq s)); auto.
  - exists None. apply (release_inv h s t UnlockWait CndWait (cnd_wq s ++ [t])); auto.
  - exists h. unfold cnd_wake in Hw. destruct b; [injection Hw as <-; by apply cnd_broadcast_inv|].
    destruct (mi_cv _ _ Hi) as [Hn Hc]. destruct (cnd_wq s) as [|w q] eqn:E; [done|]. injection Hw as <-.
    apply NoDup_cons in Hn as [Hn1 Hn2]. apply dequeue_inv; [done|apply Hc; by left|done|].
    intros a. rewrite E, elem_of_cons. intuition congruence.
  - exists h. destruct (mi_cv _ _ Hi) as [Hn _]. apply dequeue_inv; [done|done|by apply NoDup_filter|].
    intros a. rewrite list_elem_of_filter. tauto.
Qed.

Lemma reachable_inv ts s : mtx_reachable ts s -> exists h, mtx_inv h s.
Proof.
  intros Hr. assert (H0 : exists h, mtx_inv h (mtx_init ts)) by (exists None; apply init_inv).
  unfold mtx_reachable in Hr. induction Hr as [|s0 s1 s2 Hs _ IH]; [done|].
  destruct H0 as [h Hi]. apply IH. by eapply mtx_step_inv.
Qed.

(** ** What the mutex promises *)

Lemma holders_equal h s t u p q :
  mtx_inv h s -> threads s !! t = Some p -> threads s !! u = Some q ->
  holds_bit p = true -> holds_bit q = true -> t = u.
Proof.
  intros Hi Ht Hu Hp Hq. assert (h = Some t) by (apply (mi_holder _ _ Hi); eauto).
  assert (h = Some u) by (apply (mi_holder _ _ Hi); eauto). congruence.
Qed.

Lemma owner_correct h s t : mtx_inv h s -> mtx_owner s = Some t <-> threads s !! t = Some Critical.
Proof.
  intros Hi. rewrite <- (mi_owner _ _ Hi). unfold mtx_owner. rewrite (mi_value _ _ Hi).
  case_bool_decide as E; [done|]. split; [done|]. intros Ho%(mi_owner _ _ Hi). destruct E. exists t.
  apply (mi_holder _ _ Hi). eauto.
Qed.

(** C4. For any number of threads and any interleaving of the instructions of
    mtx_trylock, mtx_lock, mtx_unlock, cnd_wait and cnd_timedwait with the
    wakeups and timeouts: at most one thread holds the mutex; mtx_owner returns
    exactly this thread, so that its unlock is never the fatal error; while a
    thread is on the mutex' wait queue some thread has the bit and will wake it,
    so no wakeup is lost between the test and the wait; and when a thread holds
    the mutex, every other thread that has called cnd_wait is on the queue or
    was woken, so that a broadcast reaches all of them and nobody else. *)
Theorem mutex_safe ts s :
  mtx_reachable ts s ->
  (forall t u, threads s !! t = Some Critical -> threads s !! u = Some Critical -> t = u) /\
  (forall t, mtx_owner s = Some t <-> threads s !! t = Some Critical) /\
  (forall t w, threads s !! t = Some Critical -> is_Some (unlock_begin w t s)) /\
  (forall t, threads s !! t = Some LockWait -> exists u p, threads s !! u = Some p /\ holds_bit p = true) /\
  (forall t u, threads s !! t = Some Critical -> threads s !! u <> Some UnlockWait) /\
  (forall s' u, cnd_wake true s = Some s' ->
     threads s' !! u = if decide (threads s !! u = Some CndWait) then Some LockFast else threads s !! u).
Proof.
  intros [h Hi]%reachable_inv. split_and!.
  - intros t u Ht Hu. by eapply holders_equal.
  - intros t. by eapply owner_correct.
  - intros t w Ht%(mi_owner _ _ Hi). unfold unlock_begin. by rewrite decide_True.
  - intros t Ht%(proj2 (mi_wq _ _ Hi)). destruct (mi_wait _ _ Hi) as [u Hu]; [by intros E; rewrite E in Ht; apply elem_of_nil in Ht|].
    exists u. by apply (mi_holder _ _ Hi).
  - intros t u Ht Hu. assert (t = u) as -> by (by eapply holders_equal). congruence.
  - intros s' u [= <-]. simpl. rewrite lookup_set_all. apply decide_ext. apply (mi_cv _ _ Hi).
Qed.

(** ** Progress *)

Definition wants (p : pc) : bool := match p with LockFast | LockSlow | LockWait => true | _ => false end.

(** A thread that wants the mutex still does after another thread's release, and
    is no longer on the queue. *)
Lemma release_frees h s t p :
  mtx_inv h s -> threads s !! t = Some p -> p = Unlock \/ p = UnlockWait ->
  exists s', rtc mtx_step s s' /\ mtx_value s' = false /\
    forall u r, threads s !! u = Some r -> wants r = true ->
      threads s' !! u = Some LockFast \/ threads s' !! u = Some LockSlow.
Proof.
  intros Hi Ht Hp.
  exists (if decide (p = Unlock) then mtx_release t s else mtx_release_then_wait t s). split_and!.
  - apply rtc_once. destruct Hp as [-> | ->]; simpl; by constructor.
  - by destruct Hp as [-> | ->].
  - intros u r Hu Hr. assert (u <> t) by (intros ->; destruct Hp, r; simplify_eq/=).
    assert (E : set_all (mtx_wq s) LockSlow (threads s) !! u = Some LockFast \/
                set_all (mtx_wq s) LockSlow (threads s) !! u = Some LockSlow).
    { rewrite lookup_set_all. case_decide as E; [by right|]. rewrite (proj2 (mi_wq _ _ Hi)) in E. destruct r; naive_solver. }
    destruct Hp as [-> | ->]; simpl; by rewrite lookup_insert_ne by done.
Qed.

(** The holder can always leave. *)
Lemma holder_leaves h s t p :
  mtx_inv h s -> threads s !! t = Some p -> holds_bit p = true ->
  exists s', rtc mtx_step s s' /\ mtx_value s' = false /\
    forall u r, threads s !! u = Some r -> wants r = true ->
      threads s' !! u = Some LockFast \/ threads s' !! u = Some LockSlow.
Proof.
  intros Hi Ht Hp.
  assert (Hu : forall s, mtx_inv h s -> threads s !! t = Some Critical ->
    exists s', rtc mtx_step s s' /\ mtx_value s' = false /\
      forall u r, threads s !! u = Some r -> wants r = true ->
        threads s' !! u = Some LockFast \/ threads s' !! u = Some LockSlow).
  { clear. intros s Hi Ht. pose proof Ht as Ho%(mi_owner _ _ Hi).
    pose proof (holder_inv s h Hi t Critical Unlock None Ht eq_refl eq_refl eq_refl) as Hi'.
    destruct (release_frees _ _ t Unlock Hi') as (s' & Hr & Hv & Hw); [apply lookup_insert_eq|by left|].
    exists s'. split_and!; [|done|].
    - eapply rtc_l; [|exact Hr]. eapply (ms_unlock s t false); [done|]. unfold unlock_begin. by rewrite decide_True.
    - intros u r Hu Hwr. apply (Hw u r); [|done]. simpl. rewrite lookup_insert_ne; [done|]. intros ->. destruct r; simplify_eq/=. }
  destruct p; try done; [|by apply Hu|by eapply release_frees; eauto|by eapply release_frees; eauto].
  pose proof (holder_inv s h Hi t LockOwner Critical (Some t) Ht eq_refl eq_refl eq_refl) as Hi'.
  destruct (Hu _ Hi') as (s' & Hr & Hv & Hw); [apply lookup_insert_eq|]. exists s'. split_and!; [|done|].
  - eapply rtc_l; [by eapply (ms_owner s t)|exact Hr].
  - intros u r Hu' Hwr. apply (Hw u r); [|done]. simpl. rewrite lookup_insert_ne; [done|]. intros ->. destruct r; simplify_eq/=.
Qed.

(** A free mutex can be entered. *)
Lemma free_enters s t :
  mtx_value s = false -> threads s !! t = Some LockFast \/ threads s !! t = Some LockSlow ->
  exists s', rtc mtx_step s s' /\ threads s' !! t = Some Critical.
Proof.
  intros Hv Ht. exists (lock_set_owner t (goto t LockOwner (bset s).2)). split; [|apply lookup_insert_eq].
  apply rtc_l with (goto t LockOwner (bset s).2).
  - assert (lock_fast t s = goto t LockOwner (bset s).2 /\ lock_slow t s = goto t LockOwner (bset s).2) as [E1 E2].
    { unfold lock_fast, lock_slow. by rewrite bset_free. }
    destruct Ht; [rewrite <- E1|rewrite <- E2]; by constructor.
  - apply rtc_once, ms_owner. apply lookup_insert_eq.
Qed.

(** C31. From every reachable state, a thread that is anywhere in mtx_lock, on the
    wait queue included, can get the mutex: the holder can always release it,
    the release makes every waiter runnable, and a runnable waiter acquires the
    free mutex. *)
Theorem mutex_lock_completes ts s t p :
  mtx_reachable ts s -> threads s !! t = Some p -> wants p = true ->
  exists s', rtc mtx_step s s' /\ threads s' !! t = Some Critical.
Proof.
  intros [h Hi]%reachable_inv Ht Hp. destruct h as [u|] eqn:Eh.
  - destruct (proj1 (mi_holder _ _ Hi u) eq_refl) as (q & Hu & Hq).
    destruct (holder_leaves _ _ u q Hi Hu Hq) as (s1 & Hr & Hv & Hw).
    destruct (free_enters s1 t Hv (Hw t p Ht Hp)) as (s2 & Hr2 & Hc). exists s2. split; [by etrans|done].
  - apply free_enters; [apply (mi_value _ _ Hi)|]. pose proof (mi_wait _ _ Hi) as Hw.
    destruct p; try done; [by left|by right|]. apply (proj2 (mi_wq _ _ Hi)) in Ht.
    destruct Hw as [? ?]; [|done]. intros E. rewrite E in Ht. by apply elem_of_nil in Ht.
Qed.

(** Thread 1 holds the mutex, thread 2 waits for it, thread 3 waits on the
    condition variable. *)
Definition sample : mtx :=
  Mtx true [2%positive] (Some 1%positive) [3%positive] (list_to_map [(1%positive, Critical); (2%positive, LockWait); (3%positive, CndWait)]).

Lemma sample_reachable : mtx_reachable (list_to_set [1; 2; 3]%positive) sample.
Proof.
  unfold mtx_reachable.
  eapply rtc_l; [apply (ms_trylock _ 3); reflexivity|]. eapply rtc_l; [apply (ms_owner _ 3); reflexivity|].
  eapply rtc_l; [apply (ms_unlock _ 3 true); reflexivity|]. eapply rtc_l; [apply (ms_wait _ 3); reflexivity|].
  eapply rtc_l; [apply (ms_lock _ 1); reflexivity|]. eapply rtc_l; [apply (ms_fast _ 1); reflexivity|].
  eapply rtc_l; [apply (ms_owner _ 1); reflexivity|]. eapply rtc_l; [apply (ms_lock _ 2); reflexivity|].
  eapply rtc_l; [apply (ms_fast _ 2); reflexivity|].
  eapply rtc_once. replace sample with (lock_slow 2 (lock_fast 2 (goto 2 LockFast (lock_set_owner 1 (lock_fast 1 (goto 1 LockFast
    (mtx_release_then_wait 3 (goto 3 UnlockWait (Mtx true [] None [] (threads (lock_set_owner 3 (mtx_trylock 3
      (mtx_init (list_to_set [1; 2; 3]%positive)))))))))))))) by (vm_compute; reflexivity).
  apply (ms_slow _ 2). reflexivity.
Qed.

Lemma mutex_safe_witness : threads sample !! 2%positive = Some LockWait /\ mtx_owner sample = Some 1%positive.
Proof.
  pose proof (mutex_safe _ sample sample_reachable) as (_ & Ho & _). split; [reflexivity|]. by apply Ho.
Defined.

Lemma mutex_lock_completes_witness :
  wants LockWait = true /\ exists s', rtc mtx_step sample s' /\ threads s' !! 2%positive = Some Critical.
Proof.
  split; [reflexivity|]. apply (mutex_lock_completes _ sample 2%positive LockWait sample_reachable); reflexivity.
Defined.
