(* ===== verification/RwMtx.v ===== *)
(** * Readers-writer lock (kern/src/sched/rwmtx.c)

    The state word, the count of the owners and the exclusive owner.  A call
    runs under the management mutex, from its beginning or from the return of
    cnd_wait to its end or to the next cnd_wait, and is one step by Mtx.v.
    cnd_wait always returns EOK, as mtx_wake_then_wait does.

    The system around the lock has the threads, which are idle, on the condition
    variable or woken, and the lock calls that have returned and are not yet
    unlocked. *)

From S2P Require Import Prelude.

Notation tid := positive.

Definition RWMTX_UNLOCKED : Z := 0.
Definition RWMTX_LOCKED_SHARED : Z := 1.
Definition RWMTX_LOCKED_EXCLUSIVE : Z := 2.

Record rwmtx := RW { exclusiveOwnerVpId : Z; ownerCount : Z; rw_state : Z }.

Definition rwmtx_init : rwmtx := RW 0 0 RWMTX_UNLOCKED.

(** What a lock call does: it returns, or it waits. *)
Inductive outcome := Done | Wait.

(** One round of the loop of _rwmtx_rdlock_slow, after cnd_wait. *)
Definition rdlock_slow (l : rwmtx) : rwmtx * outcome :=
  if (rw_state l =? RWMTX_UNLOCKED) || (rw_state l =? RWMTX_LOCKED_SHARED)
  then (RW (exclusiveOwnerVpId l) (s32 (ownerCount l + 1)) RWMTX_LOCKED_SHARED, Done)
  else (l, Wait).

(** [None] is the abort of an unknown state. *)
Definition rwmtx_rdlock (l : rwmtx) : option (rwmtx * outcome) :=
  if rw_state l =? RWMTX_UNLOCKED then Some (RW (exclusiveOwnerVpId l) 1 RWMTX_LOCKED_SHARED, Done)
  else if rw_state l =? RWMTX_LOCKED_SHARED
       then Some (RW (exclusiveOwnerVpId l) (s32 (ownerCount l + 1)) RWMTX_LOCKED_SHARED, Done)
  else if rw_state l =? RWMTX_LOCKED_EXCLUSIVE then Some (l, Wait)
  else None.

(** One round of the loop of _rwmtx_wrlock_slow, after cnd_wait. *)
Definition wrlock_slow (self : tid) (l : rwmtx) : rwmtx * outcome :=
  if rw_state l =? RWMTX_UNLOCKED then (RW (Zpos self) 1 RWMTX_LOCKED_EXCLUSIVE, Done) else (l, Wait).

Definition rwmtx_wrlock (self : tid) (l : rwmtx) : option (rwmtx * outcome) :=
  if rw_state l =? RWMTX_UNLOCKED then Some (RW (Zpos self) 1 RWMTX_LOCKED_EXCLUSIVE, Done)
  else if rw_state l =? RWMTX_LOCKED_SHARED then Some (l, Wait)
  else if rw_state l =? RWMTX_LOCKED_EXCLUSIVE
       then if exclusiveOwnerVpId l =? Zpos self
            then Some (RW (exclusiveOwnerVpId l) (s32 (ownerCount l + 1)) (rw_state l), Done)
            else Some (l, Wait)
  else None.

(** The error, the lock and whether the waiters are woken. *)
Definition rwmtx_unlock (self : tid) (l : rwmtx) : option (errno * rwmtx * bool) :=
  if rw_state l =? RWMTX_LOCKED_SHARED then
    if ownerCount l =? 1 then Some (EOK, RW (exclusiveOwnerVpId l) 0 RWMTX_UNLOCKED, true)
    else Some (EOK, RW (exclusiveOwnerVpId l) (s32 (ownerCount l - 1)) (rw_state l), false)
  else if rw_state l =? RWMTX_LOCKED_EXCLUSIVE then
    if negb (exclusiveOwnerVpId l =? Zpos self) then Some (EPERM, l, false)
    else if ownerCount l =? 1 then Some (EOK, RW 0 0 RWMTX_UNLOCKED, true)
    else Some (EOK, RW (exclusiveOwnerVpId l) (s32 (ownerCount l - 1)) (rw_state l), false)
  else if rw_state l =? RWMTX_UNLOCKED then Some (EPERM, l, false)
  else None.

(** ** The threads *)

(** [w] tells whether the call is rwmtx_wrlock. *)
Inductive rwthread := RIdle | RWaiting (w : bool) | RWoken (w : bool).

Record rwsys := RWS {
  lock : rwmtx;
  readers : list tid;
  writers : list tid;
  rwthreads : gmap tid rwthread }.

Definition rwsys_init (ts : gset tid) : rwsys := RWS rwmtx_init [] [] (gset_to_gmap RIdle ts).

Definition call (w : bool) (t : tid) (l : rwmtx) : option (rwmtx * outcome) :=
  if w then rwmtx_wrlock t l else rwmtx_rdlock l.

Definition slow (w : bool) (t : tid) (l : rwmtx) : rwmtx * outcome :=
  if w then wrlock_slow t l else rdlock_slow l.

(** The system after a step of a lock call. *)
Definition after_lock (w : bool) (t : tid) (r : rwmtx * outcome) (s : rwsys) : rwsys :=
  match r.2 with
  | Wait => RWS r.1 (readers s) (writers s) (<[t := RWaiting w]> (rwthreads s))
  | Done => RWS r.1 (if w then readers s else t :: readers s) (if w then t :: writers s else writers s)
              (<[t := RIdle]> (rwthreads s))
  end.

(** cnd_broadcast. *)
Definition wake (x : rwthread) : rwthread := match x with RWaiting w => RWoken w | _ => x end.
Definition broadcast (b : bool) (m : gmap tid rwthread) : gmap tid rwthread := if b then wake <$> m else m.

(** A step: a lock call, a retry after cnd_wait, or the unlock of a lock that the
    thread has taken.  The number of locks that are held stays in an int32_t. *)
Inductive rw_step (s : rwsys) : rwsys -> Prop :=
| rws_call t w r : rwthreads s !! t = Some RIdle -> ownerCount (lock s) < 2 ^ 31 - 1 ->
    call w t (lock s) = Some r -> rw_step s (after_lock w t r s)
| rws_retry t w : rwthreads s !! t = Some (RWoken w) -> ownerCount (lock s) < 2 ^ 31 - 1 ->
    rw_step s (after_lock w t (slow w t (lock s)) s)
| rws_unlock_rd t l1 l2 e l b : rwthreads s !! t = Some RIdle -> readers s = l1 ++ t :: l2 ->
    rwmtx_unlock t (lock s) = Some (e, l, b) ->
    rw_step s (RWS l (l1 ++ l2) (writers s) (broadcast b (rwthreads s)))
| rws_unlock_wr t l1 l2 e l b : rwthreads s !! t = Some RIdle -> writers s = l1 ++ t :: l2 ->
    rwmtx_unlock t (lock s) = Some (e, l, b) ->
    rw_step s (RWS l (readers s) (l1 ++ l2) (broadcast b (rwthreads s))).

Definition rw_reachable (ts : gset tid) (s : rwsys) : Prop := rtc rw_step (rwsys_init ts) s.

(** ** The invariant *)

(** The lock that the calls which have returned describe. *)
Inductive lock_of : list tid -> list tid -> rwmtx -> Prop :=
| lo_free : lock_of [] [] (RW 0 0 RWMTX_UNLOCKED)
| lo_shared rs : rs <> [] -> lock_of rs [] (RW 0 (Z.of_nat (length rs)) RWMTX_LOCKED_SHARED)
| lo_exclusive t ws : ws <> [] -> Forall (eq t) ws ->
    lock_of [] ws (RW (Zpos t) (Z.of_nat (length ws)) RWMTX_LOCKED_EXCLUSIVE).

Record rw_inv (s : rwsys) : Prop := {
  ri_lock : lock_of (readers s) (writers s) (lock s);
  ri_count : ownerCount (lock s) < 2 ^ 31;
  ri_rd : forall t, rwthreads s !! t = Some (RWaiting false) -> writers s <> [];
  ri_wr : forall t, rwthreads s !! t = Some (RWaiting true) -> readers s ++ writers s <> [] }.

(** The lock calls in terms of who holds the lock. *)
Lemma rdlock_spec rs ws l t :
  lock_of rs ws l -> ownerCount l < 2 ^ 31 - 1 ->
  exists l' o, rwmtx_rdlock l = Some (l', o) /\ rdlock_slow l = (l', o) /\
    match o with Done => ws = [] /\ lock_of (t :: rs) [] l' /\ ownerCount l' < 2 ^ 31 | Wait => ws <> [] /\ l' = l end.
Proof.
  intros [|rs' Hr|u ws' Hw Hf] Hc; cbn in Hc.
  - eexists _, Done. split_and!; [done|done|done| |cbn; lia]. by apply (lo_shared [t]).
  - eexists _, Done. unfold rwmtx_rdlock, rdlock_slow. cbn. rewrite s32_small by lia. split_and!; [done|done|done| |cbn; lia].
    replace (Z.of_nat (length rs') + 1) with (Z.of_nat (length (t :: rs'))) by (cbn; lia). by apply lo_shared.
  - by eexists _, Wait.
Qed.

Lemma wrlock_spec rs ws l t :
  lock_of rs ws l -> ownerCount l < 2 ^ 31 - 1 ->
  exists l' o, rwmtx_wrlock t l = Some (l', o) /\
    match o with
    | Done => rs = [] /\ Forall (eq t) ws /\ lock_of [] (t :: ws) l' /\ ownerCount l' < 2 ^ 31
    | Wait => rs ++ ws <> [] /\ ~ (rs = [] /\ Forall (eq t) ws) /\ l' = l
    end.
Proof.
  intros [|rs' Hr|u ws' Hw Hf] Hc; cbn in Hc.
  - eexists _, Done. split_and!; [done|done|done|by apply (lo_exclusive t [t]); repeat constructor|cbn; lia].
  - eexists _, Wait. split; [done|]. split_and!; [by rewrite app_nil_r|naive_solver|done].
  - unfold rwmtx_wrlock; cbn. destruct (Pos.eqb_spec u t) as [->|Hne].
    + eexists _, Done. split_and!; [done|done|done| |cbn; rewrite s32_small; lia]. rewrite s32_small by lia.
      replace (Z.of_nat (length ws') + 1) with (Z.of_nat (length (t :: ws'))) by (cbn; lia).
      apply lo_exclusive; [done|by constructor].
    + eexists _, Wait. repeat split; [done|]. intros [_ Hf']. destruct ws' as [|v ws']; [done|].
      apply Forall_cons in Hf as [-> _]. apply Forall_cons in Hf' as [-> _]. done.
Qed.

Lemma wrlock_slow_spec rs ws l t :
  lock_of rs ws l ->
  exists l' o, wrlock_slow t l = (l', o) /\
    match o with
    | Done => rs = [] /\ ws = [] /\ lock_of [] [t] l' /\ ownerCount l' < 2 ^ 31
    | Wait => rs ++ ws <> [] /\ l' = l
    end.
Proof.
  intros [|rs' Hr|u ws' Hw Hf].
  - eexists _, Done. split_and!; [done|done|done|by apply (lo_exclusive t [t]); repeat constructor|cbn; lia].
  - eexists _, Wait. repeat split. by rewrite app_nil_r.
  - by eexists _, Wait.
Qed.

(** The unlock of one of the locks that are held. *)
Lemma unlock_spec rs ws l t :
  lock_of rs ws l -> ownerCount l < 2 ^ 31 -> t ∈ rs ++ ws ->
  exists l', rwmtx_unlock t l = Some (EOK, l', bool_decide (length (rs ++ ws) = 1%nat)) /\ ownerCount l' < 2 ^ 31 /\
    forall rs' ws', (rs ≡ₚ t :: rs' /\ ws' = ws) \/ (ws ≡ₚ t :: ws' /\ rs' = rs) -> lock_of rs' ws' l'.
Proof.
  intros [|rs0 Hr|u ws0 Hw Hf] Hc Ht; cbn in Hc; [by apply elem_of_nil in Ht| |].
  - rewrite app_nil_r in *. unfold rwmtx_unlock; cbn.
    destruct (Z.eqb_spec (Z.of_nat (length rs0)) 1) as [E|E].
    + eexists. rewrite bool_decide_true by lia. split_and!; [done|cbn; lia|].
      intros rs' ws' [[Hp ->]|[Hp _]]; [|by apply Permutation_nil_cons in Hp].
      apply Permutation_length in Hp. destruct rs'; [constructor|cbn in Hp; lia].
    + eexists. rewrite bool_decide_false by lia. rewrite s32_small by lia. split_and!; [done|cbn; lia|].
      intros rs' ws' [[Hp ->]|[Hp _]]; [|by apply Permutation_nil_cons in Hp].
      apply Permutation_length in Hp. cbn in Hp. replace (Z.of_nat (length rs0) - 1) with (Z.of_nat (length rs')) by lia.
      apply lo_shared. intros ->. cbn in Hp. lia.
  - cbn in Ht. rewrite Forall_forall in Hf. pose proof (Hf t Ht) as ->. unfold rwmtx_unlock; cbn. rewrite Pos.eqb_refl; cbn.
    destruct (Z.eqb_spec (Z.of_nat (length ws0)) 1) as [E|E].
    + eexists. rewrite bool_decide_true by lia. split_and!; [done|cbn; lia|].
      intros rs' ws' [[Hp _]|[Hp ->]]; [by apply Permutation_nil_cons in Hp|].
      apply Permutation_length in Hp. destruct ws'; [constructor|cbn in Hp; lia].
    + eexists. rewrite bool_decide_false by lia. rewrite s32_small by lia. split_and!; [done|cbn; lia|].
      intros rs' ws' [[Hp _]|[Hp ->]]; [by apply Permutation_nil_cons in Hp|].
      assert (Forall (eq t) ws') by (apply Forall_forall; intros x Hx; apply Hf; rewrite Hp; by right).
      apply Permutation_length in Hp. cbn in Hp. replace (Z.of_nat (length ws0) - 1) with (Z.of_nat (length ws')) by lia.
      apply lo_exclusive; [|done]. intros ->. cbn in Hp. lia.
Qed.

(** What a step of a lock call may do. *)
Definition granted (w : bool) (t : tid) (s : rwsys) (r : rwmtx * outcome) : Prop :=
  match r.2 with
  | Done => ownerCount r.1 < 2 ^ 31 /\
      if w then readers s = [] /\ lock_of [] (t :: writers s) r.1 else writers s = [] /\ lock_of (t :: readers s) [] r.1
  | Wait => r.1 = lock s /\ if w then readers s ++ writers s <> [] else writers s <> []
  end.

Lemma call_granted s t w :
  rw_inv s -> ownerCount (lock s) < 2 ^ 31 - 1 ->
  (exists r, call w t (lock s) = Some r /\ granted w t s r) /\ granted w t s (slow w t (lock s)).
Proof.
  intros [Hl Hc _ _] Hb. destruct w; cbn.
  - destruct (wrlock_spec _ _ _ t Hl Hb) as (l' & o & -> & Ho).
    destruct (wrlock_slow_spec _ _ _ t Hl) as (l2 & o2 & -> & Ho2). unfold granted.
    split; [exists (l', o); split; [done|]; destruct o; naive_solver|].
    destruct o2; cbn; [|naive_solver]. destruct Ho2 as (? & E & ? & ?). rewrite E. done.
  - destruct (rdlock_spec _ _ _ t Hl Hb) as (l' & o & -> & -> & Ho). unfold granted.
    split; [exists (l', o); split; [done|]|]; destruct o; naive_solver.
Qed.

Lemma after_lock_inv w t r s : rw_inv s -> granted w t s r -> rw_inv (after_lock w t r s).
Proof.
  intros [Hl Hc Hr Hw]. destruct r as [l []]; unfold granted, after_lock; cbn.
  - intros [Hc' Hg]. destruct w; destruct Hg as [E Hg]; (split; cbn; [by rewrite ?E|done|..]);
      intros u; rewrite lookup_insert; case_decide; try done; intros Hu; try (by apply Hr in Hu); try (by apply Hw in Hu);
      rewrite ?E; try done.
  - intros [-> Hg]. destruct w; (split; cbn; [done|done|..]); intros u; rewrite lookup_insert; case_decide;
      intros Hu; try done; by eauto.
Qed.

Lemma broadcast_waiting b m t w : broadcast b m !! t = Some (RWaiting w) -> b = false /\ m !! t = Some (RWaiting w).
Proof.
  destruct b; cbn; [|done]. rewrite lookup_fmap. destruct (m !! t) as [[]|]; cbn; naive_solver.
Qed.

Lemma unlock_inv s t rs' ws' e l b :
  rw_inv s -> rwmtx_unlock t (lock s) = Some (e, l, b) ->
  (readers s ≡ₚ t :: rs' /\ ws' = writers s) \/ (writers s ≡ₚ t :: ws' /\ rs' = readers s) ->
  e = EOK /\ rw_inv (RWS l rs' ws' (broadcast b (rwthreads s))).
Proof.
  intros [Hl Hc Hr Hw] Hu Hp.
  assert (Ht : t ∈ readers s ++ writers s).
  { apply elem_of_app. destruct Hp as [[-> _]|[-> _]]; [left|right]; by left. }
  destruct (unlock_spec _ _ _ t Hl Hc Ht) as (l' & E & Hc' & Hl'). rewrite E in Hu. injection Hu as <- <- <-.
  assert (Hlen : (S (length (rs' ++ ws')) = length (readers s ++ writers s))%nat).
  { rewrite !length_app. destruct Hp as [[Hp ->]|[Hp ->]]; apply Permutation_length in Hp; cbn in Hp; lia. }
  assert (Hne : length (readers s ++ writers s) <> 1%nat -> rs' ++ ws' <> []).
  { intros Hn E'. rewrite E' in Hlen. cbn in Hlen. lia. }
  split; [done|]. split; cbn; [by apply Hl'|done|..]; intros u [Hb Hu]%broadcast_waiting; apply bool_decide_eq_false in Hb.
  - pose proof (Hr u Hu) as Hws. pose proof (Hl' rs' ws' Hp) as Hk. destruct Hp as [[Hp ->]|[Hp ->]]; [done|].
    specialize (Hne Hb). inversion Hl; subst; try congruence. destruct (readers s); [done|congruence].
  - by apply Hne.
Qed.

Lemma rw_step_inv s s' : rw_inv s -> rw_step s s' -> rw_inv s'.
Proof.
  intros Hi. destruct 1 as [t w r Ht Hc Hr|t w Ht Hc|t l1 l2 e l b Ht Hr Hu|t l1 l2 e l b Ht Hr Hu].
  - apply after_lock_inv; [done|]. destruct (call_granted s t w Hi Hc) as [(r' & E & Hg) _]. congruence.
  - apply after_lock_inv; [done|]. by apply call_granted.
  - eapply unlock_inv; [done|done|]. left. split; [|done]. rewrite Hr. by rewrite Permutation_middle.
  - eapply unlock_inv; [done|done|]. right. split; [|done]. rewrite Hr. by rewrite Permutation_middle.
Qed.

Lemma rw_init_inv ts : rw_inv (rwsys_init ts).
Proof.
  split; cbn; [constructor|lia|..]; intros t [_ ?]%lookup_gset_to_gmap_Some; done.
Qed.

Lemma rw_reachable_inv ts s : rw_reachable ts s -> rw_inv s.
Proof.
  pose proof (rw_init_inv ts) as H0. unfold rw_reachable. induction 1; eauto using rw_step_inv.
Qed.

(** ** What the lock promises *)


(** ** Progress *)

(** No thread waits for the lock while it holds it. *)
Definition no_self_wait (s : rwsys) : Prop :=
  forall t, t ∈ readers s ++ writers s -> rwthreads s !! t = Some RIdle.

(** One of the locks is released. *)
Lemma release_one s :
  rw_inv s -> no_self_wait s -> readers s ++ writers s <> [] ->
  exists s', rw_step s s' /\ no_self_wait s' /\ S (length (readers s' ++ writers s')) = length (readers s ++ writers s) /\
    (forall t w, rwthreads s !! t = Some (RWaiting w) \/ rwthreads s !! t = Some (RWoken w) ->
       rwthreads s' !! t = Some (RWaiting w) \/ rwthreads s' !! t = Some (RWoken w)).
Proof.
  intros Hi Hn Hne. pose proof Hi as [Hl Hc _ _].
  assert (Hb : forall b t w, rwthreads s !! t = Some (RWaiting w) \/ rwthreads s !! t = Some (RWoken w) ->
    broadcast b (rwthreads s) !! t = Some (RWaiting w) \/ broadcast b (rwthreads s) !! t = Some (RWoken w)).
  { intros [] t w Ht; cbn; [|done]. rewrite lookup_fmap. destruct Ht as [-> | ->]; by right. }
  assert (Hid : forall b t, rwthreads s !! t = Some RIdle -> broadcast b (rwthreads s) !! t = Some RIdle).
  { intros [] t Ht; cbn; [|done]. by rewrite lookup_fmap, Ht. }
  unfold no_self_wait in *. destruct (readers s) as [|t rs] eqn:Er; [destruct (writers s) as [|t ws] eqn:Ew; [done|]|].
  - destruct (unlock_spec _ _ _ t Hl Hc) as (l & E & _); [left|].
    eexists. split_and!; [by eapply (rws_unlock_wr s t [] ws); [apply Hn; left|..]|..]; cbn; rewrite ?Er; eauto.
    intros u Hu. apply Hid, Hn. by right.
  - destruct (unlock_spec _ _ _ t Hl Hc) as (l & E & _); [left|].
    eexists. split_and!; [by eapply (rws_unlock_rd s t [] rs); [apply Hn; left|..]|..]; cbn; eauto.
    intros u Hu. apply Hid, Hn. by right.
Qed.

Lemma release_all s :
  rw_inv s -> no_self_wait s ->
  exists s', rtc rw_step s s' /\ rw_inv s' /\ readers s' ++ writers s' = [] /\
    (forall t w, rwthreads s !! t = Some (RWaiting w) \/ rwthreads s !! t = Some (RWoken w) ->
       rwthreads s' !! t = Some (RWaiting w) \/ rwthreads s' !! t = Some (RWoken w)).
Proof.
  remember (length (readers s ++ writers s)) as n eqn:En. revert s En. induction n as [|n IH]; intros s En Hi Hn.
  - exists s. split_and!; [done|done|by apply length_zero_iff_nil|done].
  - destruct (release_one s Hi Hn) as (s1 & Hs & Hn1 & Hlen & Hk); [by intros E; rewrite E in En|].
    destruct (IH s1) as (s2 & Hr & Hi2 & E2 & Hk2); [lia|by eapply rw_step_inv|done|].
    exists s2. split_and!; [by eapply rtc_l|done|done|]. auto.
Qed.

(** If no thread waits for a lock that it holds itself, every call that waits
    can return with the lock: the holders can unlock, the last unlock wakes all
    waiters of both modes, and a woken waiter takes the free lock. *)
Theorem rwmtx_waiters_complete ts s t w :
  rw_reachable ts s -> no_self_wait s ->
  rwthreads s !! t = Some (RWaiting w) \/ rwthreads s !! t = Some (RWoken w) ->
  exists s', rtc rw_step s s' /\ rwthreads s' !! t = Some RIdle /\ t ∈ (if w then writers s' else readers s').
Proof.
  intros Hi%rw_reachable_inv Hn Ht. destruct (release_all s Hi Hn) as (s1 & Hr & Hi1 & E & Hk).
  apply app_nil in E as [Er Ew]. pose proof Hi1 as [Hl _ Hrd Hwr]. rewrite Er, Ew in *.
  assert (Ht1 : rwthreads s1 !! t = Some (RWoken w)).
  { destruct (Hk t w Ht) as [H1|]; [|done]. destruct w; [by apply Hwr in H1|by apply Hrd in H1]. }
  assert (E : lock s1 = RW 0 0 RWMTX_UNLOCKED) by (by inversion Hl).
  exists (after_lock w t (slow w t (lock s1)) s1). split_and!.
  - eapply rtc_r; [exact Hr|]. apply rws_retry; [done|]. rewrite E. cbn. lia.
  - rewrite E. destruct w; cbn; apply lookup_insert_eq.
  - rewrite E. destruct w; cbn; left.
Qed.

(** Thread 1 reads, thread 2 waits to write. *)
Definition rw_sample : rwsys :=
  RWS (RW 0 1 RWMTX_LOCKED_SHARED) [1%positive] []
    (list_to_map [(1%positive, RIdle); (2%positive, RWaiting true)]).

Lemma rw_sample_reachable : rw_reachable (list_to_set [1; 2]%positive) rw_sample.
Proof.
  unfold rw_reachable.
  eapply rtc_l; [apply (rws_call _ 1 false (RW 0 1 RWMTX_LOCKED_SHARED, Done)); [reflexivity|cbn; lia|reflexivity]|].
  eapply rtc_l; [apply (rws_call _ 2 true (RW 0 1 RWMTX_LOCKED_SHARED, Wait)); [reflexivity|cbn; lia|reflexivity]|].
  by apply reflexive_eq; vm_compute.
Qed.


Lemma rwmtx_waiters_complete_witness :
  rwthreads rw_sample !! 2%positive = Some (RWaiting true) /\
  exists s', rtc rw_step rw_sample s' /\ rwthreads s' !! 2%positive = Some RIdle /\ 2%positive ∈ writers s'.
Proof.
  split; [reflexivity|]. apply (rwmtx_waiters_complete _ rw_sample 2%positive true rw_sample_reachable).
  - intros t Ht. apply list_elem_of_singleton in Ht as ->. reflexivity.
  - left. reflexivity.
Defined.
