(* ===== verification/Sem.v ===== *)
(** * Counting semaphores (kern/src/sched/sem.c, kern/src/hal/hw/m68k/sem_asm.s)

    Every call runs with preemption disabled and is one step, except that
    sem_timedwait is left while it waits and goes on at its retry label.  The
    deadline of a wait is in the future when the wait begins.

    sem_post wakes the first waiter; without a waiter it reads the run state
    through a null pointer.  Whether that read finds a waiting vcpu depends on
    the content of low memory and is a parameter. *)

From S2P Require Import Prelude.

Notation tid := positive.

(** [woken] are the threads that are about to go on at the retry label; [taken]
    and [posted] count the permits that were handed out and returned. *)
Record sem := Sem {
  sem_value : Z;
  sem_wq : list tid;
  woken : list tid;
  taken : Z;
  posted : Z }.

Definition sem_init (value : Z) : sem := Sem value [] [] 0 0.

Definition claim_permit (s : sem) : sem :=
  Sem (s32 (sem_value s - 1)) (sem_wq s) (woken s) (taken s + 1) (posted s).

(** sem_on_wait. *)
Definition sem_on_wait (t : tid) (s : sem) : sem :=
  Sem (sem_value s) (sem_wq s ++ [t]) (woken s) (taken s) (posted s).

(** sem_timedwait from its retry label to its return or to its wait. *)
Definition sem_timedwait (t : tid) (s : sem) : sem :=
  if 1 <=? sem_value s then claim_permit s else sem_on_wait t s.

Definition sem_trywait (s : sem) : bool * sem :=
  if 1 <=? sem_value s then (true, claim_permit s) else (false, s).

Section Post.
(** The word that is read through the null pointer is VCPU_STATE_WAITING. *)
Variable null_waits : bool.

(** sem_wakeup; [None] is the wakeup of something that is not a vcpu. *)
Definition sem_wakeup (s : sem) : option sem :=
  match sem_wq s with
  | t :: q => Some (Sem (sem_value s) q (woken s ++ [t]) (taken s) (posted s))
  | [] => if null_waits then None else Some s
  end.

Definition sem_post (s : sem) : option sem :=
  sem_wakeup (Sem (s32 (sem_value s + 1)) (sem_wq s) (woken s) (taken s) (posted s + 1)).

(** A step of one thread, or the timeout of a waiter.  The number of permits
    stays in an int. *)
Inductive sem_step (s : sem) : sem -> Prop :=
| ss_wait t : t ∉ sem_wq s ++ woken s -> sem_step s (sem_timedwait t s)
| ss_retry t l1 l2 : woken s = l1 ++ t :: l2 ->
    sem_step s (sem_timedwait t (Sem (sem_value s) (sem_wq s) (l1 ++ l2) (taken s) (posted s)))
| ss_try : sem_step s (sem_trywait s).2
| ss_post s' : sem_value s < 2 ^ 31 - 1 -> sem_post s = Some s' -> sem_step s s'
| ss_timeout t l1 l2 : sem_wq s = l1 ++ t :: l2 ->
    sem_step s (Sem (sem_value s) (l1 ++ l2) (woken s) (taken s) (posted s)).

Record sem_inv (n : Z) (s : sem) : Prop := {
  si_range : 0 <= sem_value s < 2 ^ 31;
  si_count : sem_value s + taken s = n + posted s;
  si_wake : sem_wq s <> [] -> sem_value s <= Z.of_nat (length (woken s));
  si_nodup : NoDup (sem_wq s ++ woken s) }.

(** A thread that is on neither list tries to take a permit; it may be the last
    of the woken threads that the free permits are for. *)
Lemma timedwait_inv n s t :
  0 <= sem_value s < 2 ^ 31 -> sem_value s + taken s = n + posted s ->
  (sem_wq s <> [] -> sem_value s <= Z.of_nat (length (woken s)) + 1) ->
  NoDup (sem_wq s ++ woken s) -> t ∉ sem_wq s ++ woken s -> sem_inv n (sem_timedwait t s).
Proof.
  intros Hr Hc Hw Hn Ht. unfold sem_timedwait. destruct (Z.leb_spec 1 (sem_value s)) as [Hv|Hv]; split; cbn; try done; try lia.
  - rewrite s32_small; lia.
  - rewrite s32_small; lia.
  - intros Hq. rewrite s32_small by lia. specialize (Hw Hq). lia.
  - rewrite <- app_assoc. cbn. rewrite <- Permutation_middle. by constructor.
Qed.

Lemma sem_step_inv n s s' : sem_inv n s -> sem_step s s' -> sem_inv n s'.
Proof.
  intros [Hr Hc Hw Hn]. destruct 1 as [t Ht|t l1 l2 Hl| |s' Hb Hp|t l1 l2 Hl].
  - apply timedwait_inv; try done. intros Hq. specialize (Hw Hq). lia.
  - rewrite Hl, <- Permutation_middle, <- Permutation_middle in Hn. apply NoDup_cons in Hn as [Ht Hn].
    apply timedwait_inv; cbn; try done. intros Hq. specialize (Hw Hq). rewrite Hl, length_app in Hw. cbn in Hw.
    rewrite length_app. lia.
  - unfold sem_trywait. destruct (Z.leb_spec 1 (sem_value s)); [|by split]. split; cbn; rewrite ?s32_small by lia; try done; try lia.
    intros Hq. specialize (Hw Hq). lia.
  - unfold sem_post, sem_wakeup in Hp. cbn in Hp. destruct (sem_wq s) as [|t q] eqn:Eq.
    + destruct null_waits; [done|]. injection Hp as <-. split; cbn; rewrite ?s32_small by lia; try done; lia.
    + injection Hp as <-. split; cbn; rewrite ?s32_small by lia; try lia.
      * intros _. rewrite length_app. cbn. assert (t :: q <> []) as Hne by done. specialize (Hw Hne). lia.
      * rewrite (Permutation_app_comm (woken s)). cbn. by rewrite <- Permutation_middle.
  - split; cbn; try done.
    + intros Hq. apply Hw. rewrite Hl. by destruct l1.
    + rewrite Hl, <- app_assoc in Hn. cbn in Hn. rewrite <- Permutation_middle in Hn. apply NoDup_cons in Hn as [_ Hn].
      by rewrite <- app_assoc.
Qed.

(** C32. For any interleaving of sem_timedwait, sem_trywait, sem_post and
    timeouts on a semaphore of [n] permits, where the read through the null
    pointer finds no waiting vcpu: sem_post always succeeds; the value and the
    permits taken are together [n] and the permits posted, and the value is never
    negative, so that never more permits are out than exist; and no permit is
    stranded: while a thread waits and a permit is free, a woken thread exists
    that takes a permit when it runs. *)
Theorem sem_conserves n s :
  0 <= n < 2 ^ 31 -> null_waits = false -> rtc sem_step (sem_init n) s ->
  is_Some (sem_post s) /\ 0 <= sem_value s /\ sem_value s + taken s = n + posted s /\
  (sem_wq s <> [] -> 0 < sem_value s ->
     exists t, t ∈ woken s /\ forall l1 l2, woken s = l1 ++ t :: l2 ->
       let s1 := Sem (sem_value s) (sem_wq s) (l1 ++ l2) (taken s) (posted s) in
       sem_step s (sem_timedwait t s1) /\ taken (sem_timedwait t s1) = taken s + 1).
Proof.
  intros Hn Hnull Hr. assert (Hi : sem_inv n s).
  { assert (H0 : sem_inv n (sem_init n)) by (split; cbn; [done|lia|done|constructor]).
    induction Hr; eauto using sem_step_inv. }
  destruct Hi as [Hrange Hc Hw _]. split_and!; [|lia|done|].
  - unfold sem_post, sem_wakeup. cbn. rewrite Hnull. by destruct (sem_wq s).
  - intros Hq Hv. specialize (Hw Hq). destruct (woken s) as [|t q] eqn:E; [cbn in Hw; lia|].
    exists t. split; [by left|]. intros l1 l2 El. cbn. split; [apply ss_retry; congruence|].
    unfold sem_timedwait. cbn. destruct (Z.leb_spec 1 (sem_value s)); [done|lia].
Qed.
End Post.

Lemma sem_conserves_witness :
  let s := Sem 1 [2%positive] [1%positive] 0 1 in
  rtc (sem_step false) (sem_init 0) s /\ sem_value s + taken s = 0 + posted s.
Proof.
  assert (Hr : rtc (sem_step false) (sem_init 0) (Sem 1 [2%positive] [1%positive] 0 1)).
  { eapply rtc_l; [apply (ss_wait _ _ 1); set_solver|]. eapply rtc_l; [apply (ss_wait _ _ 2); set_solver|].
    eapply rtc_l; [apply ss_post; [cbn; lia|reflexivity]|]. by apply reflexive_eq. }
  split; [exact Hr|]. apply (sem_conserves false 0 (Sem 1 [2%positive] [1%positive] 0 1)); [lia|reflexivity|exact Hr].
Defined.
