(* ===== verification/HandlerTable.v ===== *)
(** * File descriptor tables (kern/src/handler/HandlerTable.c)

    A table maps descriptors to handlers; a handler is shared by reference
    counting, so the state is all tables and the reference count of every
    handler.  The table's mutex makes each operation atomic.  [None] is an
    access outside of a table. *)

From S2P Require Import Prelude.

Definition FDTAB_PAGE_SHIFT : Z := 7.
Definition FDTAB_PAGE_SIZE : Z := Z.shiftl 1 FDTAB_PAGE_SHIFT.
Definition FDNO_MAX : Z := 2048.
Definition O_PRSVEXEC : Z := 0x40.
(** [sizeof(HandlerRef)] *)
Definition sizeof_HandlerRef : Z := 4.

(** A [HandlerRef]; NULL is [None]. *)
Abbreviation hid := positive (only parsing).

Record HandlerTable := HT {
  table : list (option hid);
  table_size : Z;
  max_fd_num : Z
}.

(** All tables, and the strong references to each handler. *)
Record hworld := HW { tabs : gmap positive HandlerTable; refcount : gmap hid Z }.

Definition HandlerTable_Init : HandlerTable := HT [] 0 (-1).

Definition Object_Retain (h : hid) (w : hworld) : hworld := HW (tabs w) (alter Z.succ h (refcount w)).
Definition Object_Release (h : hid) (w : hworld) : hworld := HW (tabs w) (alter Z.pred h (refcount w)).

Definition put_tab (t : positive) (x : HandlerTable) (w : hworld) : hworld :=
  HW (<[t := x]> (tabs w)) (refcount w).

(** [table[fd]] *)
Definition slot (self : HandlerTable) (fd : Z) : option hid := arr_get None (table self) fd.

(** [fd >= 0 && fd <= max_fd_num && table[fd]] *)
Definition valid_fd (self : HandlerTable) (fd : Z) : option hid :=
  if (0 <=? fd) && (fd <=? max_fd_num self) then slot self fd else None.

Section Table.
(** Whether [kalloc_cleared] has that many bytes. *)
Context (kalloc_ok : Z -> bool).

Definition ensure_fd_slot_exists (fd_slot : Z) (self : HandlerTable) : errno * HandlerTable :=
  if fd_slot <? table_size self then (EOK, self)
  else if FDNO_MAX <? fd_slot then (EMFILE, self)
  else
    let new_page_count := Z.shiftr fd_slot FDTAB_PAGE_SHIFT + 1 in
    let new_table_size := new_page_count * FDTAB_PAGE_SIZE in
    let new_memblk_size := s32 (new_table_size * sizeof_HandlerRef) in
    if new_memblk_size <? 0 then (EMFILE, self)
    else if kalloc_ok new_memblk_size then
      let kept := take (Z.to_nat (max_fd_num self + 1)) (table self) in
      (EOK, HT (kept ++ replicate (Z.to_nat new_table_size - length kept) None)
              new_table_size (max_fd_num self))
    else (ENOMEM, self).

(** The [for] loop of _alloc_fd_slot, from index [i] on. *)
Fixpoint find_free (i : Z) (l : list (option hid)) : option Z :=
  match l with
  | [] => None
  | None :: _ => Some i
  | Some _ :: l => find_free (i + 1) l
  end.

(** The [do] loop.  A round that does not return grows the table by a page or
    fails, and a table has at most 17 pages, so 18 rounds are enough. *)
Fixpoint alloc_loop (fuel : nat) (min_fd : Z) (self : HandlerTable) : option (errno * Z * HandlerTable) :=
  match fuel with
  | O => None
  | S fuel =>
      match find_free min_fd (drop (Z.to_nat min_fd) (table self)) with
      | Some i => Some (EOK, i, HT (table self) (table_size self) (Z.max (max_fd_num self) i))
      | None =>
          let '(err, self) := ensure_fd_slot_exists (table_size self) self in
          if is_ok err then alloc_loop fuel min_fd self else Some (err, -1, self)
      end
  end.

Definition alloc_fd_slot (min_fd : Z) (self : HandlerTable) : option (errno * Z * HandlerTable) :=
  if min_fd <? 0 then None else alloc_loop 18 min_fd self.

(** [while (max_fd_num >= 0 && table[max_fd_num] == NULL) max_fd_num--], for
    [max_fd_num = n - 1]. *)
Fixpoint trim_max (n : nat) (l : list (option hid)) : Z :=
  match n with
  | O => -1
  | S n => match l !! n with Some (Some _) => Z.of_nat n | _ => trim_max n l end
  end.

Definition set_slot (fd : Z) (h : option hid) (self : HandlerTable) : HandlerTable :=
  HT (arr_set (table self) fd h) (table_size self) (max_fd_num self).

Definition clear_fd_slot (fd : Z) (self : HandlerTable) : HandlerTable :=
  let self := set_slot fd None self in
  if fd =? max_fd_num self
  then HT (table self) (table_size self) (trim_max (Z.to_nat (max_fd_num self + 1)) (table self))
  else self.

Definition HandlerTable_AdoptHandler (t : positive) (hnd : hid) (w : hworld) : option (errno * Z * hworld) :=
  self ← tabs w !! t;
  '(err, new_fd, self) ← alloc_fd_slot 0 self;
  let self := if is_ok err then set_slot new_fd (Some hnd) self else self in
  Some (err, new_fd, put_tab t self w).

Definition HandlerTable_CopyHandler (t : positive) (fd : Z) (w : hworld) : option (errno * option hid * hworld) :=
  self ← tabs w !! t;
  match valid_fd self fd with
  | Some h => Some (EOK, Some h, Object_Retain h w)
  | None => Some (EBADF, None, w)
  end.

Definition HandlerTable_DupHandler (t : positive) (fd min_fd : Z) (w : hworld) : option (errno * Z * hworld) :=
  self ← tabs w !! t;
  match valid_fd self fd with
  | Some h =>
      '(err, new_fd, self) ← alloc_fd_slot min_fd self;
      if is_ok err then Some (err, new_fd, put_tab t (set_slot new_fd (Some h) self) (Object_Retain h w))
      else Some (err, new_fd, put_tab t self w)
  | None => Some (EOK, -1, w)
  end.

Definition HandlerTable_DupHandlerTo (t : positive) (fd : Z) (o : positive) (target_fd : Z) (w : hworld)
  : option (errno * hworld) :=
  self ← tabs w !! t;
  other ← tabs w !! o;
  match valid_fd self fd with
  | None => Some (EBADF, w)
  | Some h =>
      if target_fd <? 0 then Some (EBADF, w)
      else
        let exists_ := target_fd <=? max_fd_num other in
        let hnd_to_close := if exists_ then slot other target_fd else None in
        let '(err, other) := if exists_ then (EOK, other) else ensure_fd_slot_exists target_fd other in
        if is_ok err then
          let other := set_slot target_fd (Some h) other in
          let other := HT (table other) (table_size other) (Z.max (max_fd_num other) target_fd) in
          let w := put_tab o other (Object_Retain h w) in
          Some (EOK, match hnd_to_close with Some c => Object_Release c w | None => w end)
        else Some (err, w)
  end.

Definition HandlerTable_CloseHandler (t : positive) (fd : Z) (w : hworld) : option (errno * hworld) :=
  self ← tabs w !! t;
  match valid_fd self fd with
  | Some h => Some (EOK, Object_Release h (put_tab t (clear_fd_slot fd self) w))
  | None => Some (EBADF, w)
  end.

Fixpoint release_all (l : list (option hid)) (w : hworld) : hworld :=
  match l with
  | [] => w
  | Some h :: l => release_all l (Object_Release h w)
  | None :: l => release_all l w
  end.

(** [for (int i = 0; i < max_fd_num; i++)] *)
Definition HandlerTable_CloseAll (t : positive) (w : hworld) : option hworld :=
  self ← tabs w !! t;
  Some (release_all (take (Z.to_nat (max_fd_num self)) (table self)) (put_tab t HandlerTable_Init w)).

(** [flags] is [Handler_GetFlags]. *)
Definition closes_on_exec (flags : hid -> Z) (h : hid) : bool := Z.land (flags h) O_PRSVEXEC =? 0.

Definition exec_keep (flags : hid -> Z) (s : option hid) : option hid :=
  match s with Some h => if closes_on_exec flags h then None else Some h | None => None end.
Definition exec_drop (flags : hid -> Z) (s : option hid) : option hid :=
  match s with Some h => if closes_on_exec flags h then Some h else None | None => None end.

(** The first loop visits the slots up to [max_fd_num] from the top down, the
    second one lowers [max_fd_num]. *)
Definition HandlerTable_CloseHandlersOnExec (flags : hid -> Z) (t : positive) (w : hworld) : option hworld :=
  self ← tabs w !! t;
  let n := Z.to_nat (max_fd_num self + 1) in
  let l := (exec_keep flags <$> take n (table self)) ++ drop n (table self) in
  let self' := HT l (table_size self) (trim_max n l) in
  Some (release_all (reverse (exec_drop flags <$> take n (table self))) (put_tab t self' w)).
End Table.

(** ** The invariant of a table *)

Record ht_core (self : HandlerTable) : Prop := {
  hc_size : table_size self = Z.of_nat (length (table self));
  hc_max : -1 <= max_fd_num self < table_size self;
  hc_above : forall i, max_fd_num self < i -> 0 <= i -> slot self i = None;
  hc_limit : 0 <= table_size self <= 2176;
  hc_pages : (128 | table_size self);
}.

(** The highest descriptor is in use. *)
Record ht_ok (self : HandlerTable) : Prop := {
  ho_core : ht_core self;
  ho_top : 0 <= max_fd_num self -> slot self (max_fd_num self) <> None;
}.

Lemma slot_beyond self i : Z.of_nat (length (table self)) <= i -> slot self i = None.
Proof. intros. unfold slot, arr_get. by rewrite lookup_ge_None_2 by lia. Qed.

Lemma slot_set fd h self i :
  0 <= fd < Z.of_nat (length (table self)) -> 0 <= i ->
  slot (set_slot fd h self) i = if decide (i = fd) then h else slot self i.
Proof.
  intros Hfd Hi. unfold slot, set_slot. simpl. case_decide; subst;
    [by rewrite arr_get_set_eq|by rewrite arr_get_set_ne by lia].
Qed.

Lemma find_free_spec i l :
  match find_free i l with
  | Some j => i <= j < i + Z.of_nat (length l) /\ arr_get None l (j - i) = None /\
      forall k, i <= k < j -> arr_get None l (k - i) <> None
  | None => forall k, i <= k < i + Z.of_nat (length l) -> arr_get None l (k - i) <> None
  end.
Proof.
  revert i. induction l as [|[h|] l IH]; intros i; simpl.
  - lia.
  - assert (Hc : forall k, i < k -> arr_get None (Some h :: l) (k - i) = arr_get None l (k - (i + 1))).
    { intros k Hk. unfold arr_get. replace (Z.to_nat (k - i)) with (S (Z.to_nat (k - (i + 1)))) by lia. done. }
    specialize (IH (i + 1)). destruct (find_free (i + 1) l) as [j|].
    + destruct IH as (H1 & H2 & H3). split; [lia|]. rewrite Hc by lia. split; [done|].
      intros k Hk. destruct (decide (k = i)) as [->|]; [by rewrite Z.sub_diag|]. rewrite Hc by lia. apply H3. lia.
    + intros k Hk. destruct (decide (k = i)) as [->|]; [by rewrite Z.sub_diag|]. rewrite Hc by lia. apply IH. lia.
  - rewrite Z.sub_diag. split; [lia|]. split; [done|lia].
Qed.

Lemma arr_get_drop {A} (d : A) (l : list A) m k :
  0 <= m <= k -> arr_get d (drop (Z.to_nat m) l) (k - m) = arr_get d l k.
Proof. intros H. unfold arr_get. rewrite lookup_drop. do 2 f_equal. lia. Qed.

(** Growing a table keeps every descriptor. *)
Lemma ensure_spec kok fd self :
  ht_core self -> 0 <= fd ->
  let '(err, self') := ensure_fd_slot_exists kok fd self in
  ht_core self' /\ (forall i, 0 <= i -> slot self' i = slot self i) /\
  max_fd_num self' = max_fd_num self /\ table_size self <= table_size self' /\
  (err = EOK -> fd < table_size self') /\ (err <> EOK -> self' = self).
Proof.
  intros [H1 H2 H3 H4 H5] Hfd. unfold ensure_fd_slot_exists.
  destruct (Z.ltb_spec fd (table_size self)); [by split_and!|].
  destruct (Z.ltb_spec FDNO_MAX fd) as [|Hmax]; [by split_and!|].
  rewrite Z.shiftr_div_pow2 by done. change (2 ^ FDTAB_PAGE_SHIFT) with 128. change FDTAB_PAGE_SIZE with 128.
  change FDNO_MAX with 2048 in *. change sizeof_HandlerRef with 4.
  assert (Hq : 0 <= fd / 128 <= 16 /\ fd < (fd / 128 + 1) * 128) by (Z.to_euclidean_division_equations; lia).
  rewrite s32_small by lia. rewrite (proj2 (Z.ltb_ge _ 0)) by lia.
  destruct (kok _); [|by split_and!]. set (kept := take _ _).
  assert (Hk : Z.of_nat (length kept) = max_fd_num self + 1) by (unfold kept; rewrite length_take; lia).
  assert (Hlen : length (kept ++ replicate (Z.to_nat ((fd / 128 + 1) * 128) - length kept) (None : option positive))
    = Z.to_nat ((fd / 128 + 1) * 128)) by (rewrite length_app, length_replicate; lia).
  assert (Hs : forall i, 0 <= i -> slot (HT (kept ++ replicate (Z.to_nat ((fd / 128 + 1) * 128) - length kept) None)
      ((fd / 128 + 1) * 128) (max_fd_num self)) i = slot self i).
  { intros i Hi. destruct (decide (i < Z.of_nat (length kept))) as [Hlt|Hge].
    - unfold slot, arr_get. simpl. rewrite lookup_app_l by lia. unfold kept. by rewrite lookup_take_lt by lia.
    - replace (slot self i) with (None : option positive) by (symmetry; apply H3; lia).
      unfold slot, arr_get. simpl. rewrite lookup_app_r by lia.
      destruct (replicate _ _ !! _) eqn:E; [|done]. by apply lookup_replicate in E as [-> _]. }
  split_and!; try done; simpl; [|lia|lia].
  constructor; simpl; [lia|lia| |lia|by apply Z.divide_factor_r].
  intros i Hi Hi'. rewrite Hs by done. by apply H3.
Qed.

(** ** Allocating a descriptor *)

(** The outcome of a search for a descriptor that is at least [min_fd]. *)
Record alloc_ok (min_fd : Z) (self : HandlerTable) (fd : Z) (self' : HandlerTable) : Prop := {
  ao_core : ht_core self';
  ao_range : min_fd <= fd < table_size self';
  ao_free : slot self fd = None;
  ao_lowest : forall i, min_fd <= i < fd -> slot self i <> None;
  ao_max : max_fd_num self' = Z.max (max_fd_num self) fd;
  ao_keep : forall i, 0 <= i -> slot self' i = slot self i;
}.

Lemma alloc_loop_spec kok fuel min_fd self :
  ht_core self -> 0 <= min_fd -> (2176 - table_size self) / 128 + 1 <= Z.of_nat fuel ->
  exists err fd self', alloc_loop kok fuel min_fd self = Some (err, fd, self') /\
    (err = EOK -> alloc_ok min_fd self fd self') /\
    (err <> EOK -> fd = -1 /\ ht_core self' /\ max_fd_num self' = max_fd_num self /\
       forall i, 0 <= i -> slot self' i = slot self i).
Proof.
  revert self. induction fuel as [|fuel IH]; intros self Hc Hm Hf.
  { pose proof (hc_limit _ Hc). Z.to_euclidean_division_equations. lia. }
  simpl. pose proof (find_free_spec min_fd (drop (Z.to_nat min_fd) (table self))) as Hff.
  pose proof (hc_size _ Hc) as Hsz. rewrite length_drop in Hff.
  destruct (find_free min_fd _) as [j|] eqn:Ef.
  - destruct Hff as (H1 & H2 & H3). rewrite arr_get_drop in H2 by lia.
    eexists _, _, _. split; [done|]. split; [intros _|done]. destruct Hc as [C1 C2 C3 C4 C5].
    constructor; simpl; try done; [|lia|].
    + constructor; simpl; try done; [lia|]. intros i Hi. apply C3. lia.
    + intros i Hi. unfold slot. rewrite <-(arr_get_drop None (table self) min_fd i) by lia. by apply H3.
  - pose proof (ensure_spec kok (table_size self) self Hc ltac:(apply Hc)) as He.
    destruct (ensure_fd_slot_exists kok (table_size self) self) as [err self1].
    destruct He as (Hc1 & Hs1 & Hm1 & _ & Hgrow & Hsame). destruct (is_ok err) eqn:Eo.
    + apply is_ok_true in Eo. specialize (Hgrow Eo).
      assert (Hpg : table_size self + 128 <= table_size self1).
      { destruct (hc_pages _ Hc) as [a Ha], (hc_pages _ Hc1) as [b Hb]. nia. }
      destruct (IH self1 Hc1 Hm) as (err' & fd & self' & Hk & Hok & Hbad).
      { Z.to_euclidean_division_equations. lia. }
      exists err', fd, self'. split; [done|]. split; intros E.
      * destruct (Hok E) as [A1 A2 A3 A4 A5 A6]. constructor; try done; [| |congruence|].
        -- rewrite <-Hs1 by lia. done.
        -- intros i Hi. rewrite <-Hs1 by lia. by apply A4.
        -- intros i Hi. by rewrite A6, Hs1.
      * destruct (Hbad E) as (B1 & B2 & B3 & B4). split_and!; [done|done|congruence|].
        intros i Hi. by rewrite B4, Hs1.
    + apply is_ok_false in Eo. eexists _, _, _. split; [done|]. split; [done|]. intros _. by split_and!.
Qed.

Lemma alloc_spec kok min_fd self :
  ht_core self -> 0 <= min_fd ->
  exists err fd self', alloc_fd_slot kok min_fd self = Some (err, fd, self') /\
    (err = EOK -> alloc_ok min_fd self fd self') /\
    (err <> EOK -> fd = -1 /\ ht_core self' /\ max_fd_num self' = max_fd_num self /\
       forall i, 0 <= i -> slot self' i = slot self i).
Proof.
  intros Hc Hm. unfold alloc_fd_slot. rewrite (proj2 (Z.ltb_ge _ _)) by done.
  apply alloc_loop_spec; [done|done|]. pose proof (hc_limit _ Hc). Z.to_euclidean_division_equations. lia.
Qed.

(** Filling the slot that was found. *)
Lemma fill_ok min_fd self fd self' h :
  ht_ok self -> 0 <= min_fd -> alloc_ok min_fd self fd self' -> ht_ok (set_slot fd (Some h) self').
Proof.
  intros [[C1 C2 C3 C4 C5] Ht] Hm [[D1 D2 D3 D4 D5] A2 A3 A4 A5 A6].
  assert (Hs : forall i, 0 <= i -> slot (set_slot fd (Some h) self') i = if decide (i = fd) then Some h else slot self i).
  { intros i Hi. rewrite slot_set by lia. case_decide; [done|by apply A6]. }
  constructor; [constructor|]; cbn [set_slot table table_size max_fd_num]; try done.
  - by rewrite length_arr_set.
  - intros i Hi Hi'. rewrite Hs, decide_False, <-A6 by lia. by apply D3.
  - intros H0. rewrite Hs by done. case_decide; [done|]. rewrite A5 in *.
    replace (Z.max (max_fd_num self) fd) with (max_fd_num self) by lia. apply Ht. lia.
Qed.

(** ** Closing descriptors *)

Lemma trim_max_spec (n : nat) l :
  -1 <= trim_max n l < Z.max 1 (Z.of_nat n) /\ trim_max n l < Z.of_nat (Nat.max 1 n) /\
  (0 <= trim_max n l -> arr_get None l (trim_max n l) <> None) /\
  forall i, trim_max n l < i < Z.of_nat n -> 0 <= i -> arr_get None l i = None.
Proof.
  induction n as [|n IH]; simpl; [split_and!; lia|].
  destruct (l !! n) as [[h|]|] eqn:E.
  - split_and!; try lia. intros _. unfold arr_get. by rewrite Nat2Z.id, E.
  - destruct IH as (H1 & H2 & H3 & H4). split_and!; try lia; [done|]. intros i Hi Hi0.
    destruct (decide (i = Z.of_nat n)) as [->|]; [unfold arr_get; by rewrite Nat2Z.id, E|apply H4; lia].
  - destruct IH as (H1 & H2 & H3 & H4). split_and!; try lia; [done|]. intros i Hi Hi0.
    destruct (decide (i = Z.of_nat n)) as [->|]; [unfold arr_get; by rewrite Nat2Z.id, E|apply H4; lia].
Qed.

(** Lowering [max_fd_num] of a table whose slots above it are free. *)
Lemma trim_ok self :
  ht_core self ->
  ht_ok (HT (table self) (table_size self) (trim_max (Z.to_nat (max_fd_num self + 1)) (table self))).
Proof.
  intros [C1 C2 C3 C4 C5].
  destruct (trim_max_spec (Z.to_nat (max_fd_num self + 1)) (table self)) as (T1 & T2 & T3 & T4).
  assert (Hle : trim_max (Z.to_nat (max_fd_num self + 1)) (table self) <= max_fd_num self).
  { destruct (decide (max_fd_num self = -1)) as [->|]; [done|lia]. }
  constructor; [constructor|]; cbn [table table_size max_fd_num]; try done; [lia|].
  intros i Hi Hi0. destruct (decide (i <= max_fd_num self)); [apply T4; lia|apply C3; lia].
Qed.

Lemma set_slot_core fd h self :
  ht_core self -> 0 <= fd <= max_fd_num self -> ht_core (set_slot fd h self).
Proof.
  intros [C1 C2 C3 C4 C5] Hfd. constructor; cbn [set_slot table table_size max_fd_num]; try done.
  - by rewrite length_arr_set.
  - intros i Hi Hi0. rewrite slot_set, decide_False by lia. by apply C3.
Qed.

Lemma clear_ok fd self : ht_ok self -> 0 <= fd <= max_fd_num self -> ht_ok (clear_fd_slot fd self).
Proof.
  intros [Hc Ht] Hfd. pose proof (set_slot_core fd None self Hc Hfd) as Hc'. unfold clear_fd_slot.
  cbn [max_fd_num set_slot]. destruct (Z.eqb_spec fd (max_fd_num self)) as [E|E].
  - by apply (trim_ok (set_slot fd None self)).
  - constructor; [done|]. cbn [max_fd_num set_slot]. intros H0. pose proof (hc_size _ Hc). pose proof (hc_max _ Hc).
    rewrite slot_set, decide_False by lia. by apply Ht.
Qed.

Lemma clear_table fd self : table (clear_fd_slot fd self) = table (set_slot fd None self).
Proof. unfold clear_fd_slot. by destruct (_ =? _). Qed.

Lemma valid_fd_Some self fd h :
  valid_fd self fd = Some h -> 0 <= fd <= max_fd_num self /\ slot self fd = Some h.
Proof. unfold valid_fd. destruct (_ && _) eqn:E; [|done]. intros H. split; [lia|done]. Qed.

Lemma valid_fd_slot self fd : ht_core self -> 0 <= fd -> valid_fd self fd = slot self fd.
Proof.
  intros Hc H0. unfold valid_fd. destruct (_ && _) eqn:E; [done|].
  symmetry. apply (hc_above _ Hc); lia.
Qed.

(** ** Counting references *)

Definition ind (h : hid) (s : option hid) : Z := if decide (s = Some h) then 1 else 0.
Fixpoint occ (h : hid) (l : list (option hid)) : Z :=
  match l with [] => 0 | s :: l => ind h s + occ h l end.

Lemma occ_app h l1 l2 : occ h (l1 ++ l2) = occ h l1 + occ h l2.
Proof. induction l1 as [|s l1 IH]; simpl; lia. Qed.

Lemma occ_reverse h l : occ h (reverse l) = occ h l.
Proof. induction l as [|s l IH]; [done|]. rewrite reverse_cons, occ_app, IH. simpl. lia. Qed.

Lemma occ_none h l : (forall n : nat, default None (l !! n) = (None : option hid)) -> occ h l = 0.
Proof.
  induction l as [|s l IH]; intros H; [done|]. simpl. specialize (H 0%nat) as H0. simpl in H0. subst.
  rewrite IH; [done|]. intros n. apply (H (S n)).
Qed.

(** The number of references in a table depends on its descriptors only. *)
Lemma occ_ext h l1 l2 :
  (forall n : nat, default None (l1 !! n) = default None (l2 !! n)) -> occ h l1 = occ h l2.
Proof.
  revert l2. induction l1 as [|s l1 IH]; intros l2 H.
  - symmetry. apply occ_none. intros n. by rewrite <-H.
  - destruct l2 as [|s2 l2]; [apply (occ_none h (s :: l1)), H|].
    simpl. specialize (H 0%nat) as H0. simpl in H0. subst. f_equal. apply IH. intros n. apply (H (S n)).
Qed.

Lemma occ_slots h a b : (forall i, 0 <= i -> slot a i = slot b i) -> occ h (table a) = occ h (table b).
Proof.
  intros H. apply occ_ext. intros n. specialize (H (Z.of_nat n) ltac:(lia)).
  unfold slot, arr_get in H. by rewrite Nat2Z.id in H.
Qed.

Lemma occ_set h fd x self :
  0 <= fd < Z.of_nat (length (table self)) ->
  occ h (table (set_slot fd x self)) = occ h (table self) - ind h (slot self fd) + ind h x.
Proof.
  intros Hfd. pose proof (arr_get_Some None (table self) fd Hfd) as Hl. fold (slot self fd) in Hl.
  cbn [table set_slot]. unfold arr_set. rewrite insert_take_drop by lia.
  rewrite <-(take_drop_middle (table self) _ _ Hl) at 3. rewrite !occ_app. simpl. lia.
Qed.

(** All references to [h] that tables hold. *)
Definition total (h : hid) (w : hworld) : Z := map_fold (fun _ t a => occ h (table t) + a) 0 (tabs w).

(** The strong references to [h] that are held outside of the tables. *)
Definition balance (h : hid) (w : hworld) : Z := default 0 (refcount w !! h) - total h w.

Lemma total_put h t self x w :
  tabs w !! t = Some self ->
  total h (put_tab t x w) = total h w - occ h (table self) + occ h (table x).
Proof.
  intros Ht. unfold total, put_tab. cbn [tabs].
  rewrite (map_fold_delete_L _ _ t self (tabs w)) by (done || (intros; lia)).
  rewrite <-insert_delete_eq, map_fold_insert_L by (apply lookup_delete_eq || (intros; lia)). lia.
Qed.

Lemma total_retain h h' w : total h (Object_Retain h' w) = total h w.
Proof. done. Qed.
Lemma total_release h h' w : total h (Object_Release h' w) = total h w.
Proof. done. Qed.

Lemma balance_put h t self x w :
  tabs w !! t = Some self ->
  balance h (put_tab t x w) = balance h w + occ h (table self) - occ h (table x).
Proof. intros Ht. unfold balance. rewrite (total_put h t self) by done. cbn [put_tab refcount]. lia. Qed.

Lemma balance_retain h x w :
  is_Some (refcount w !! x) -> balance h (Object_Retain x w) = balance h w + ind h (Some x).
Proof.
  intros [n Hn]. unfold balance, ind. rewrite total_retain. cbn [Object_Retain refcount].
  destruct (decide (x = h)) as [->|Hne].
  - rewrite lookup_alter_eq, Hn, decide_True by done. simpl. lia.
  - rewrite lookup_alter_ne, decide_False by congruence. lia.
Qed.

Lemma balance_release h x w :
  is_Some (refcount w !! x) -> balance h (Object_Release x w) = balance h w - ind h (Some x).
Proof.
  intros [n Hn]. unfold balance, ind. rewrite total_release. cbn [Object_Release refcount].
  destruct (decide (x = h)) as [->|Hne].
  - rewrite lookup_alter_eq, Hn, decide_True by done. simpl. lia.
  - rewrite lookup_alter_ne, decide_False by congruence. lia.
Qed.

(** ** The world of all tables *)

Definition live (w : hworld) (h : hid) : Prop := is_Some (refcount w !! h).

(** Every table is well formed and holds live handlers only. *)
Definition world_ok (w : hworld) : Prop :=
  forall t self, tabs w !! t = Some self ->
    ht_ok self /\ forall fd h, 0 <= fd -> slot self fd = Some h -> live w h.

Lemma live_retain w x h : live (Object_Retain x w) h <-> live w h.
Proof. unfold live. simpl. by rewrite lookup_alter_is_Some. Qed.
Lemma live_release w x h : live (Object_Release x w) h <-> live w h.
Proof. unfold live. simpl. by rewrite lookup_alter_is_Some. Qed.
Lemma live_put w t x h : live (put_tab t x w) h <-> live w h.
Proof. done. Qed.

Lemma world_retain x w : world_ok w -> world_ok (Object_Retain x w).
Proof. intros H t self Ht. destruct (H t self Ht) as [? Hl]. split; [done|]. intros. rewrite live_retain. eauto. Qed.
Lemma world_release x w : world_ok w -> world_ok (Object_Release x w).
Proof. intros H t self Ht. destruct (H t self Ht) as [? Hl]. split; [done|]. intros. rewrite live_release. eauto. Qed.

Lemma world_put t x w :
  world_ok w -> ht_ok x -> (forall fd h, 0 <= fd -> slot x fd = Some h -> live w h) -> world_ok (put_tab t x w).
Proof.
  intros H Hx Hl t' self. cbn [put_tab tabs]. rewrite lookup_insert. case_decide; [|apply H].
  intros [= <-]. done.
Qed.

Lemma release_all_spec l w :
  world_ok w -> (forall s h, s ∈ l -> s = Some h -> live w h) ->
  world_ok (release_all l w) /\ tabs (release_all l w) = tabs w /\
  (forall h, live (release_all l w) h <-> live w h) /\
  forall h, balance h (release_all l w) = balance h w - occ h l.
Proof.
  revert w. induction l as [|[x|] l IH]; intros w Hw Hl; simpl.
  - split_and!; try done. intros. lia.
  - assert (Hx : live w x) by (apply (Hl (Some x)); [by left|done]).
    destruct (IH (Object_Release x w)) as (I1 & I2 & I3 & I4).
    + by apply world_release.
    + intros s h Hs Hh. rewrite live_release. apply (Hl s); [by right|done].
    + split_and!; [done|done| |]; intros h; [rewrite I3; apply live_release|].
      rewrite I4, balance_release by done. lia.
  - destruct (IH w Hw) as (I1 & I2 & I3 & I4); [intros s h Hs; apply Hl; by right|].
    split_and!; try done.
Qed.

(** ** The calls *)

Inductive hcall :=
| HAdopt (t : positive) (h : hid)
| HCopy (t : positive) (fd : Z)
| HDup (t : positive) (fd min_fd : Z)
| HDupTo (t : positive) (fd : Z) (o : positive) (target_fd : Z)
| HClose (t : positive) (fd : Z)
| HCloseOnExec (t : positive).

Section Calls.
Context (kalloc_ok : Z -> bool) (flags : hid -> Z).

(** The error, the handler that the caller gets, and the new state. *)
Definition hexec (c : hcall) (w : hworld) : option (errno * option hid * hworld) :=
  match c with
  | HAdopt t h => '(e, _, w) ← HandlerTable_AdoptHandler kalloc_ok t h w; Some (e, None, w)
  | HCopy t fd => HandlerTable_CopyHandler t fd w
  | HDup t fd m => '(e, _, w) ← HandlerTable_DupHandler kalloc_ok t fd m w; Some (e, None, w)
  | HDupTo t fd o g => '(e, w) ← HandlerTable_DupHandlerTo kalloc_ok t fd o g w; Some (e, None, w)
  | HClose t fd => '(e, w) ← HandlerTable_CloseHandler t fd w; Some (e, None, w)
  | HCloseOnExec t => w ← HandlerTable_CloseHandlersOnExec flags t w; Some (EOK, None, w)
  end.

(** The tables exist, an adopted handler is live, and [min_fd] is not negative. *)
Definition hcall_ok (c : hcall) (w : hworld) : Prop :=
  match c with
  | HAdopt t h => is_Some (tabs w !! t) /\ live w h
  | HCopy t _ | HClose t _ | HCloseOnExec t => is_Some (tabs w !! t)
  | HDup t _ m => is_Some (tabs w !! t) /\ 0 <= m
  | HDupTo t _ o _ => is_Some (tabs w !! t) /\ is_Some (tabs w !! o)
  end.

(** How the references held outside of the tables change: a successful adopt
    consumes the caller's reference, a copy gives the caller one. *)
Definition handed_over (c : hcall) (e : errno) (r : option hid) (h : hid) : Z :=
  match c with
  | HAdopt _ x => if is_ok e then - ind h (Some x) else 0
  | HCopy _ _ => ind h r
  | _ => 0
  end.

Definition hcall_safe (c : hcall) (w : hworld) : Prop :=
  exists e r w', hexec c w = Some (e, r, w') /\ world_ok w' /\
    forall h, balance h w' = balance h w + handed_over c e r h.

Lemma adopt_safe t x w : world_ok w -> hcall_ok (HAdopt t x) w -> hcall_safe (HAdopt t x) w.
Proof.
  intros Hw [[self Ht] Hx]. destruct (Hw t self Ht) as [Hok Hl].
  destruct (alloc_spec kalloc_ok 0 self (ho_core _ Hok) ltac:(done)) as (e & fd & self' & Ha & Hy & Hn).
  unfold hcall_safe. simpl. unfold HandlerTable_AdoptHandler. rewrite (bind_some Ht), (bind_some Ha).
  eexists _, _, _. split; [done|]. destruct (is_ok e) eqn:Eo.
  - apply is_ok_true in Eo. pose proof (Hy Eo) as [A1 A2 A3 A4 A5 A6]. pose proof (hc_size _ A1).
    split; [apply world_put; [done|eapply fill_ok; [done|done|by apply Hy]|]|].
    + intros fd' h Hfd'. rewrite slot_set by lia. case_decide; [by intros [= <-]|]. rewrite A6 by done. by apply Hl.
    + intros h. rewrite (balance_put h t self), occ_set, A6, A3 by (done || lia).
      rewrite (occ_slots h self' self) by done. change (ind h None) with 0. lia.
  - apply is_ok_false in Eo. destruct (Hn Eo) as (_ & Hc & Hm & Hs). split; [apply world_put; [done| |]|].
    + constructor; [done|]. rewrite Hm. intros H0. rewrite Hs by done. by apply Hok.
    + intros fd' h Hfd'. rewrite Hs by done. by apply Hl.
    + intros h. rewrite (balance_put h t self), (occ_slots h self' self) by done. lia.
Qed.

Lemma copy_safe t fd w : world_ok w -> hcall_ok (HCopy t fd) w -> hcall_safe (HCopy t fd) w.
Proof.
  intros Hw [self Ht]. destruct (Hw t self Ht) as [Hok Hl].
  unfold hcall_safe. simpl. unfold HandlerTable_CopyHandler. rewrite (bind_some Ht).
  destruct (valid_fd self fd) as [x|] eqn:Ev; eexists _, _, _; (split; [done|]).
  - apply valid_fd_Some in Ev as [Hfd Hs]. split; [by apply world_retain|].
    intros h. apply balance_retain. eapply Hl; [|done]. lia.
  - split; [done|]. intros h. change (ind h None) with 0. lia.
Qed.

Lemma dup_safe t fd m w : world_ok w -> hcall_ok (HDup t fd m) w -> hcall_safe (HDup t fd m) w.
Proof.
  intros Hw [[self Ht] Hm]. destruct (Hw t self Ht) as [Hok Hl].
  unfold hcall_safe. simpl. unfold HandlerTable_DupHandler. rewrite (bind_some Ht).
  destruct (valid_fd self fd) as [x|] eqn:Ev; [|eexists _, _, _; split; [done|]; split; [done|intros; lia]].
  apply valid_fd_Some in Ev as [Hfd Hs]. assert (Hx : live w x) by (eapply Hl; [|done]; lia).
  destruct (alloc_spec kalloc_ok m self (ho_core _ Hok) Hm) as (e & nfd & self' & Ha & Hy & Hn).
  rewrite (bind_some Ha). destruct (is_ok e) eqn:Eo; eexists _, _, _; (split; [done|]).
  - apply is_ok_true in Eo. pose proof (Hy Eo) as [A1 A2 A3 A4 A5 A6]. pose proof (hc_size _ A1).
    split; [apply world_put; [by apply world_retain|eapply fill_ok; [done|done|by apply Hy]|]|].
    + intros fd' h Hfd'. rewrite slot_set, live_retain by lia. case_decide; [by intros [= <-]|].
      rewrite A6 by done. by apply Hl.
    + intros h. rewrite (balance_put h t self), occ_set, A6, A3, balance_retain by (done || lia).
      rewrite (occ_slots h self' self) by done. change (ind h None) with 0. lia.
  - apply is_ok_false in Eo. destruct (Hn Eo) as (_ & Hc & Hm' & Hs'). split; [apply world_put; [done| |]|].
    + constructor; [done|]. rewrite Hm'. intros H0. rewrite Hs' by done. by apply Hok.
    + intros fd' h Hfd'. rewrite Hs' by done. by apply Hl.
    + intros h. rewrite (balance_put h t self), (occ_slots h self' self) by done. lia.
Qed.

Lemma close_safe t fd w : world_ok w -> hcall_ok (HClose t fd) w -> hcall_safe (HClose t fd) w.
Proof.
  intros Hw [self Ht]. destruct (Hw t self Ht) as [Hok Hl].
  unfold hcall_safe. simpl. unfold HandlerTable_CloseHandler. rewrite (bind_some Ht).
  destruct (valid_fd self fd) as [x|] eqn:Ev; [|eexists _, _, _; split; [done|]; split; [done|intros; lia]].
  apply valid_fd_Some in Ev as [Hfd Hs]. assert (Hx : live w x) by (eapply Hl; [|done]; lia).
  pose proof (hc_size _ (ho_core _ Hok)). pose proof (hc_max _ (ho_core _ Hok)).
  eexists _, _, _. split; [done|]. split.
  - apply world_release, world_put; [done|by apply clear_ok|].
    intros fd' h Hfd'. unfold slot. rewrite clear_table. fold (slot (set_slot fd None self) fd').
    rewrite slot_set by lia. case_decide; [done|]. by apply Hl.
  - intros h. rewrite balance_release, (balance_put h t self), clear_table, occ_set, Hs by (done || lia).
    change (ind h None) with 0. lia.
Qed.

(** Storing a handler at a slot of the table and raising [max_fd_num] to it. *)
Definition store_at (fd : Z) (h : hid) (self : HandlerTable) : HandlerTable :=
  let self := set_slot fd (Some h) self in HT (table self) (table_size self) (Z.max (max_fd_num self) fd).

Lemma store_ok fd h self :
  ht_core self -> (0 <= max_fd_num self -> slot self (max_fd_num self) <> None) ->
  0 <= fd < table_size self -> ht_ok (store_at fd h self).
Proof.
  intros [C1 C2 C3 C4 C5] Ht Hfd.
  assert (Hs : forall i, 0 <= i -> slot (store_at fd h self) i = if decide (i = fd) then Some h else slot self i).
  { intros i Hi. apply (slot_set fd (Some h) self i); lia. }
  constructor; [constructor|]; cbn [store_at set_slot table table_size max_fd_num]; try done; [|lia| |].
  - by rewrite length_arr_set.
  - intros i Hi Hi0. rewrite Hs, decide_False by lia. apply C3; lia.
  - intros H0. rewrite Hs by lia. case_decide; [done|].
    replace (Z.max (max_fd_num self) fd) with (max_fd_num self) by lia. apply Ht. lia.
Qed.

(** The common end of DupHandlerTo: [other1] is the table [other], maybe grown. *)
Lemma dup_store_safe o fd x other other1 w :
  world_ok w -> tabs w !! o = Some other -> live w x -> ht_core other1 ->
  (forall i, 0 <= i -> slot other1 i = slot other i) -> max_fd_num other1 = max_fd_num other ->
  0 <= fd < table_size other1 ->
  let w1 := put_tab o (store_at fd x other1) (Object_Retain x w) in
  world_ok w1 /\ (forall h, live w1 h <-> live w h) /\
  forall h, balance h w1 = balance h w + ind h (slot other fd).
Proof.
  intros Hw Ho Hx Hc Hs Hm Hfd w1. destruct (Hw o other Ho) as [Hok Hl]. pose proof (hc_size _ Hc) as Hsz.
  split_and!.
  - apply world_put; [by apply world_retain|apply store_ok; [done| |done]|].
    + rewrite Hm. intros H0. rewrite Hs by done. by apply Hok.
    + intros i h Hi Hsl. rewrite live_retain. change (slot (set_slot fd (Some x) other1) i = Some h) in Hsl.
      rewrite slot_set in Hsl by lia. case_decide; [by simplify_eq|]. rewrite Hs in Hsl by done. by eapply Hl.
  - intros h. apply live_retain.
  - intros h. unfold w1. rewrite (balance_put h o other), balance_retain by done.
    change (table (store_at fd x other1)) with (table (set_slot fd (Some x) other1)).
    rewrite occ_set, Hs, (occ_slots h other1 other) by (done || lia). lia.
Qed.

Lemma dup_to_safe t fd o g w : world_ok w -> hcall_ok (HDupTo t fd o g) w -> hcall_safe (HDupTo t fd o g) w.
Proof.
  intros Hw [[self Ht] [other Ho]]. destruct (Hw t self Ht) as [Hok Hl]. destruct (Hw o other Ho) as [Hok2 Hl2].
  unfold hcall_safe. simpl. unfold HandlerTable_DupHandlerTo. rewrite (bind_some Ht), (bind_some Ho).
  destruct (valid_fd self fd) as [x|] eqn:Ev; [|eexists _, _, _; split; [done|]; split; [done|intros; simpl; lia]].
  apply valid_fd_Some in Ev as [Hfd Hs]. assert (Hx : live w x) by (eapply Hl; [|done]; lia).
  destruct (Z.ltb_spec g 0); [eexists _, _, _; split; [done|]; split; [done|intros; simpl; lia]|].
  pose proof (ho_core _ Hok2) as Hc2. destruct (Z.leb_spec g (max_fd_num other)) as [Hg|Hg].
  - pose proof (hc_max _ Hc2).
    destruct (dup_store_safe o g x other other w Hw Ho Hx Hc2) as (D1 & D2 & D3); [done|done|lia|].
    cbn [is_ok]. destruct (slot other g) as [c|] eqn:Eg; eexists _, _, _; (split; [done|]).
    + split; [by apply world_release|]. intros h. cbn [handed_over].
      rewrite balance_release by (apply D2; eapply Hl2; [|done]; lia).
      etrans; [apply f_equal2; [exact (D3 h)|reflexivity]|]. lia.
    + split; [done|]. intros h. etrans; [exact (D3 h)|]. done.
  - pose proof (ensure_spec kalloc_ok g other Hc2 ltac:(lia)) as He.
    destruct (ensure_fd_slot_exists kalloc_ok g other) as [e other1].
    destruct He as (E1 & E2 & E3 & _ & E5 & _). destruct (is_ok e) eqn:Eo.
    + apply is_ok_true in Eo. destruct (dup_store_safe o g x other other1 w Hw Ho Hx E1 E2 E3) as (D1 & D2 & D3);
        [split; [lia|by apply E5]|].
      eexists _, _, _. split; [done|]. split; [done|]. intros h. etrans; [exact (D3 h)|].
      rewrite (hc_above _ Hc2) by lia. done.
    + eexists _, _, _. split; [done|]. split; [done|]. intros h. simpl. lia.
Qed.

Lemma exec_slot self i :
  ht_core self -> 0 <= i ->
  let n := Z.to_nat (max_fd_num self + 1) in
  arr_get None ((exec_keep flags <$> take n (table self)) ++ drop n (table self)) i = exec_keep flags (slot self i).
Proof.
  intros [C1 C2 C3 C4 C5] Hi. cbv zeta. unfold arr_get. destruct (decide (i <= max_fd_num self)) as [Hle|Hgt].
  - rewrite lookup_app_l by (rewrite length_fmap, length_take; lia).
    rewrite list_lookup_fmap, lookup_take_lt by lia. unfold slot, arr_get.
    by destruct (table self !! Z.to_nat i) as [[]|].
  - rewrite C3 by lia. rewrite lookup_app_r by (rewrite length_fmap, length_take; lia).
    rewrite length_fmap, length_take, lookup_drop.
    match goal with |- context [table self !! ?k] => replace k with (Z.to_nat i) by lia end.
    apply (C3 i); lia.
Qed.

Lemma occ_exec h l : occ h (exec_keep flags <$> l) + occ h (exec_drop flags <$> l) = occ h l.
Proof.
  induction l as [|[x|] l IH]; rewrite ?fmap_cons; cbn [occ exec_keep exec_drop]; [done| |].
  - destruct (closes_on_exec flags x); change (ind h None) with 0; lia.
  - change (ind h None) with 0. lia.
Qed.

Lemma close_on_exec_safe t w : world_ok w -> hcall_ok (HCloseOnExec t) w -> hcall_safe (HCloseOnExec t) w.
Proof.
  intros Hw [self Ht]. destruct (Hw t self Ht) as [Hok Hl]. pose proof (ho_core _ Hok) as Hc.
  unfold hcall_safe. simpl. unfold HandlerTable_CloseHandlersOnExec. rewrite (bind_some Ht).
  set (n := Z.to_nat (max_fd_num self + 1)). set (l := _ ++ drop n (table self)).
  assert (Hslot : forall i, 0 <= i -> arr_get None l i = exec_keep flags (slot self i)) by (intros; by apply exec_slot).
  assert (Hlen : length l = length (table self)).
  { unfold l. rewrite length_app, length_fmap, length_take, length_drop. lia. }
  assert (Hc' : ht_core (HT l (table_size self) (max_fd_num self))).
  { destruct Hc as [C1 C2 C3 C4 C5]. constructor; simpl; try done; [congruence|].
    intros i Hi Hi0. unfold slot. simpl. rewrite Hslot, C3 by done. done. }
  assert (Hw1 : world_ok (put_tab t (HT l (table_size self) (trim_max n l)) w)).
  { apply world_put; [done|by apply (trim_ok (HT l (table_size self) (max_fd_num self)))|].
    intros fd h Hfd. unfold slot. simpl. rewrite Hslot by done. unfold exec_keep.
    destruct (slot self fd) as [x|] eqn:Es; [|done]. destruct (closes_on_exec flags x); [done|].
    intros [= <-]. by eapply Hl. }
  destruct (release_all_spec (reverse (exec_drop flags <$> take n (table self))) _ Hw1) as (R1 & _ & _ & R4).
  { intros s h Hs ->. apply elem_of_reverse, list_elem_of_fmap in Hs as (s & Heq & Hs).
    unfold exec_drop in Heq. destruct s as [x|]; [|done]. destruct (closes_on_exec flags x); [|done]. simplify_eq.
    apply elem_of_take in Hs as (i & Hi & _). apply (Hl (Z.of_nat i) x ltac:(lia)).
    unfold slot, arr_get. by rewrite Nat2Z.id, Hi. }
  eexists _, _, _. split; [done|]. split; [done|]. intros h. rewrite R4, (balance_put h t self), occ_reverse by done.
  cbn [table handed_over]. unfold l. rewrite occ_app.
  pose proof (occ_exec h (take n (table self))).
  rewrite <-(take_drop n (table self)) at 1. rewrite occ_app. lia.
Qed.
End Calls.

(** ** Theorems *)


(** One empty table and two live handlers. *)
Definition sample_world : hworld :=
  HW {[1%positive := HandlerTable_Init]} (<[5%positive := 1]> {[6%positive := 1]}).

Lemma init_ok : ht_ok HandlerTable_Init.
Proof.
  constructor; [constructor|]; cbn [HandlerTable_Init table table_size max_fd_num]; try done; by exists 0.
Qed.

Lemma sample_world_ok : world_ok sample_world.
Proof.
  intros t self Ht. cbn [sample_world tabs] in Ht. apply lookup_singleton_Some in Ht as [<- <-]. split; [apply init_ok|].
  intros fd h Hfd. by rewrite slot_beyond.
Qed.


(** Adopting a handler stores it at the lowest free descriptor and changes
    no other descriptor; when the table cannot grow, the descriptor is -1 and
    every descriptor keeps its handler. *)
Theorem adopt_lowest_free (kalloc_ok : Z -> bool) (t : positive) (h : hid) (self : HandlerTable) (w : hworld) :
  tabs w !! t = Some self -> ht_ok self ->
  exists e fd w' self', HandlerTable_AdoptHandler kalloc_ok t h w = Some (e, fd, w') /\
    tabs w' !! t = Some self' /\
    (e = EOK -> 0 <= fd /\ slot self fd = None /\ (forall i, 0 <= i < fd -> slot self i <> None) /\
       forall i, 0 <= i -> slot self' i = if decide (i = fd) then Some h else slot self i) /\
    (e <> EOK -> fd = -1 /\ forall i, 0 <= i -> slot self' i = slot self i).
Proof.
  intros Ht Hok. destruct (alloc_spec kalloc_ok 0 self (ho_core _ Hok) ltac:(done)) as (e & fd & self1 & Ha & Hy & Hn).
  unfold HandlerTable_AdoptHandler. rewrite (bind_some Ht), (bind_some Ha).
  eexists _, _, _, _. split; [done|]. split; [apply lookup_insert_eq|]. destruct (is_ok e) eqn:Eo.
  - apply is_ok_true in Eo. split; [intros _|done]. destruct (Hy Eo) as [A1 A2 A3 A4 A5 A6].
    pose proof (hc_size _ A1). split_and!; [lia|done|done|]. intros i Hi. rewrite slot_set by lia.
    case_decide; [done|by apply A6].
  - apply is_ok_false in Eo. split; [done|]. intros _. by destruct (Hn Eo) as (? & _ & _ & ?).
Qed.

Lemma adopt_lowest_free_witness :
  exists e fd w' self', HandlerTable_AdoptHandler (fun _ => true) 1 5 sample_world = Some (e, fd, w') /\
    tabs w' !! 1%positive = Some self' /\ e = EOK /\ fd = 0 /\ slot self' 0 = Some 5%positive.
Proof.
  destruct (adopt_lowest_free (fun _ => true) 1 5 HandlerTable_Init sample_world) as (e & fd & w' & self' & H1 & H2 & H3 & _).
  - reflexivity.
  - apply init_ok.
  - exists e, fd, w', self'. split; [exact H1|]. split; [exact H2|]. vm_compute in H1. injection H1 as <- <- <-.
    split; [reflexivity|]. split; [reflexivity|]. destruct (H3 eq_refl) as (_ & _ & _ & H4). rewrite H4 by lia. reflexivity.
Defined.

(** A duplicated descriptor is the lowest free one that is not below
    [min_fd]; looking it up gives the handler of the original, closing it gives
    all descriptors back as they were, and it holds exactly one more reference. *)
Theorem dup_copy_close (kalloc_ok : Z -> bool) (t : positive) (fd min_fd : Z) (h : hid) (self : HandlerTable) (w : hworld) :
  tabs w !! t = Some self -> ht_ok self -> 0 <= min_fd -> valid_fd self fd = Some h ->
  exists e n w1, HandlerTable_DupHandler kalloc_ok t fd min_fd w = Some (e, n, w1) /\
    (e = EOK -> min_fd <= n /\ slot self n = None /\ (forall i, min_fd <= i < n -> slot self i <> None) /\
       refcount w1 = alter Z.succ h (refcount w) /\
       HandlerTable_CopyHandler t n w1 = Some (EOK, Some h, Object_Retain h w1) /\
       exists w2 self2, HandlerTable_CloseHandler t n w1 = Some (EOK, w2) /\ tabs w2 !! t = Some self2 /\
         (forall i, 0 <= i -> slot self2 i = slot self i) /\
         refcount w2 = alter Z.pred h (alter Z.succ h (refcount w))).
Proof.
  intros Ht Hok Hm Hv. destruct (alloc_spec kalloc_ok min_fd self (ho_core _ Hok) Hm) as (e & n & self1 & Ha & Hy & _).
  unfold HandlerTable_DupHandler. rewrite (bind_some Ht), Hv, (bind_some Ha).
  destruct (is_ok e) eqn:Eo; [|eexists _, _, _; split; [done|]; intros ->; done].
  apply is_ok_true in Eo. pose proof (Hy Eo) as [A1 A2 A3 A4 A5 A6]. pose proof (hc_size _ A1).
  eexists _, _, _. split; [done|]. intros _. set (self2 := set_slot n (Some h) self1). set (w1 := put_tab t self2 _).
  assert (Ht1 : tabs w1 !! t = Some self2) by apply lookup_insert_eq.
  assert (Hs2 : forall i, 0 <= i -> slot self2 i = if decide (i = n) then Some h else slot self1 i)
    by (intros; apply slot_set; lia).
  assert (Hv1 : valid_fd self2 n = Some h).
  { rewrite valid_fd_slot, Hs2, decide_True by (done || lia || eapply ho_core, fill_ok; done). done. }
  unfold HandlerTable_CopyHandler, HandlerTable_CloseHandler. rewrite !(bind_some Ht1), Hv1.
  split_and!; try done; [lia|]. eexists _, _. split; [done|]. split; [apply lookup_insert_eq|]. split; [|done].
  intros i Hi. unfold slot. rewrite clear_table. fold (slot (set_slot n None self2) i).
  assert (length (table self2) = length (table self1)) by apply length_arr_set.
  rewrite slot_set, Hs2 by lia. case_decide; [by subst|by apply A6].
Qed.

(** The sample world after handler 5 was adopted as descriptor 0. *)
Definition adopted_world : hworld :=
  default sample_world (snd <$> HandlerTable_AdoptHandler (fun _ => true) 1 5 sample_world).
Definition adopted_table : HandlerTable := default HandlerTable_Init (tabs adopted_world !! 1%positive).

Lemma adopted_table_ok : ht_ok adopted_table.
Proof.
  destruct (adopt_safe (fun _ => true) (fun _ => 0) 1 5 sample_world sample_world_ok) as (e & r & w' & H1 & H2 & _).
  { split; [by eexists|by eexists]. }
  unfold adopted_table, adopted_world. simpl in H1.
  destruct (HandlerTable_AdoptHandler _ _ _ _) as [[[e1 fd1] w1]|] eqn:E; [|done]. simpl in H1. simplify_eq.
  simpl. destruct (tabs w' !! 1%positive) as [self|] eqn:Es; [by eapply H2|apply init_ok].
Qed.

Lemma dup_copy_close_witness :
  exists e n w1, HandlerTable_DupHandler (fun _ => true) 1 0 40 adopted_world = Some (e, n, w1) /\
    e = EOK /\ n = 40 /\ HandlerTable_CopyHandler 1 40 w1 = Some (EOK, Some 5%positive, Object_Retain 5 w1).
Proof.
  destruct (dup_copy_close (fun _ => true) 1 0 40 5 adopted_table adopted_world) as (e & n & w1 & H1 & H2).
  - vm_compute. reflexivity.
  - apply adopted_table_ok.
  - lia.
  - vm_compute. reflexivity.
  - exists e, n, w1. split; [exact H1|].
    assert (He : e = EOK /\ n = 40) by (vm_compute in H1; injection H1 as <- <- _; split; reflexivity).
    destruct He as [-> ->]. split; [reflexivity|]. split; [reflexivity|].
    destruct (H2 eq_refl) as (_ & _ & _ & _ & H3 & _). exact H3.
Defined.

(** Closing all descriptors of a table stops one slot early: the handler at
    the highest descriptor keeps the reference that the table had to it, and
    nothing refers to it any more.  All other handlers are released. *)
Theorem close_all_leaks_last (t : positive) (self : HandlerTable) (w : hworld) :
  world_ok w -> tabs w !! t = Some self -> 0 <= max_fd_num self ->
  exists w', HandlerTable_CloseAll t w = Some w' /\ tabs w' !! t = Some HandlerTable_Init /\
    slot self (max_fd_num self) <> None /\
    forall h, balance h w' = balance h w + ind h (slot self (max_fd_num self)).
Proof.
  intros Hw Ht Hm. destruct (Hw t self Ht) as [Hok Hl]. pose proof (ho_core _ Hok) as [C1 C2 C3 C4 C5].
  unfold HandlerTable_CloseAll. rewrite (bind_some Ht).
  assert (Hw1 : world_ok (put_tab t HandlerTable_Init w)).
  { apply world_put; [done|apply init_ok|]. intros fd h Hfd. by rewrite slot_beyond. }
  set (m := Z.to_nat (max_fd_num self)).
  destruct (release_all_spec (take m (table self)) _ Hw1) as (_ & R2 & _ & R4).
  { intros s h (i & Hi & _)%elem_of_take ->. apply (Hl (Z.of_nat i) h ltac:(lia)).
    unfold slot, arr_get. by rewrite Nat2Z.id, Hi. }
  eexists. split; [done|]. split; [rewrite R2; apply lookup_insert_eq|]. split; [by apply Hok|].
  intros h. rewrite R4, (balance_put h t self) by done. cbn [HandlerTable_Init table occ].
  assert (Hsl : table self !! m = Some (slot self (max_fd_num self))) by (apply arr_get_Some; lia).
  rewrite <-(take_drop_middle (table self) m _ Hsl) at 1. rewrite occ_app. cbn [occ].
  rewrite (occ_none h (drop (S m) (table self))); [lia|].
  intros n. rewrite lookup_drop. pose proof (C3 (Z.of_nat (S m + n)) ltac:(lia) ltac:(lia)) as H.
  unfold slot, arr_get in H. by rewrite Nat2Z.id in H.
Qed.

Lemma close_all_leaks_last_witness :
  exists w', HandlerTable_CloseAll 1 adopted_world = Some w' /\ balance 5 w' = 1.
Proof.
  destruct (close_all_leaks_last 1 adopted_table adopted_world) as (w' & H1 & _ & _ & H4).
  - intros t self Ht. destruct (adopt_safe (fun _ => true) (fun _ => 0) 1 5 sample_world sample_world_ok)
      as (e & r & w' & H1 & H2 & _); [split; eexists; vm_compute; reflexivity|].
    vm_compute in H1. injection H1 as _ _ <-. apply (H2 t). exact Ht.
  - vm_compute. reflexivity.
  - vm_compute. discriminate.
  - exists w'. split; [exact H1|]. rewrite H4. vm_compute. reflexivity.
Defined.

(** Duplicating a descriptor that names no handler reports success: the
    call returns EOK with the descriptor -1 and changes nothing. *)
Theorem dup_bad_fd_reports_success (kalloc_ok : Z -> bool) (t : positive) (fd min_fd : Z) (self : HandlerTable) (w : hworld) :
  tabs w !! t = Some self -> valid_fd self fd = None ->
  HandlerTable_DupHandler kalloc_ok t fd min_fd w = Some (EOK, -1, w) /\
  HandlerTable_CopyHandler t fd w = Some (EBADF, None, w).
Proof.
  intros Ht Hv. unfold HandlerTable_DupHandler, HandlerTable_CopyHandler. by rewrite !(bind_some Ht), Hv.
Qed.

Lemma dup_bad_fd_reports_success_witness :
  HandlerTable_DupHandler (fun _ => true) 1 77 0 adopted_world = Some (EOK, -1, adopted_world) /\
  HandlerTable_CopyHandler 1 77 adopted_world = Some (EBADF, None, adopted_world).
Proof. apply (dup_bad_fd_reports_success (fun _ => true) 1 77 0 adopted_table); vm_compute; reflexivity. Defined.

(** The limit _FDNO_MAX is checked against the size of the table before it
    grows by a whole page: once descriptors 0 to 2048 are in use, the next one
    that is handed out is 2049, above the highest allowed descriptor. *)
Theorem fd_above_limit (kalloc_ok : Z -> bool) (t : positive) (h : hid) (self : HandlerTable) (w : hworld) :
  tabs w !! t = Some self -> ht_ok self -> table_size self = 2176 ->
  (forall i, 0 <= i <= FDNO_MAX -> slot self i <> None) -> slot self (FDNO_MAX + 1) = None ->
  exists w', HandlerTable_AdoptHandler kalloc_ok t h w = Some (EOK, FDNO_MAX + 1, w').
Proof.
  intros Ht [Hc _] Hsz Hused Hfree. change FDNO_MAX with 2048 in *. pose proof (hc_size _ Hc).
  unfold HandlerTable_AdoptHandler, alloc_fd_slot. rewrite (bind_some Ht). cbn [Z.ltb Z.compare alloc_loop].
  pose proof (find_free_spec 0 (drop (Z.to_nat 0) (table self))) as Hff.
  change (drop (Z.to_nat 0) (table self)) with (table self) in *.
  assert (Hn : forall j, arr_get None (table self) (j - 0) = slot self j) by (intros j; by rewrite Z.sub_0_r).
  destruct (find_free 0 (table self)) as [j|].
  - destruct Hff as (H1 & H2 & H3). rewrite Hn in H2.
    assert (j = 2049) as ->.
    { destruct (decide (j <= 2048)); [exfalso; apply (Hused j); [lia|done]|].
      destruct (decide (2049 < j)); [|lia]. exfalso. apply (H3 2049); [lia|]. by rewrite Hn. }
    by eexists.
  - exfalso. apply (Hff 2049); [lia|]. by rewrite Hn.
Qed.

(** A table with the descriptors 0 to 2048 in use. *)
Definition full_table : HandlerTable :=
  HT (replicate 2049 (Some 5%positive) ++ replicate 127 None) 2176 2048.

Lemma full_slot i : 0 <= i -> slot full_table i = if decide (i <= 2048) then Some 5%positive else None.
Proof.
  intros Hi. unfold slot, arr_get, full_table. cbn [table]. case_decide.
  - rewrite lookup_app_l by (rewrite length_replicate; lia). by rewrite lookup_replicate_2 by lia.
  - rewrite lookup_app_r by (rewrite length_replicate; lia).
    destruct (replicate 127 None !! _) eqn:E; [|done]. by apply lookup_replicate in E as [-> _].
Qed.

Lemma full_table_ok : ht_ok full_table.
Proof.
  constructor; [constructor|]; cbn [full_table table table_size max_fd_num]; try lia.
  - rewrite length_app, !length_replicate. lia.
  - intros i Hi Hi0. rewrite full_slot, decide_False by lia. done.
  - by exists 17.
  - intros _. rewrite full_slot, decide_True by lia. done.
Qed.

Lemma fd_above_limit_witness :
  exists w', HandlerTable_AdoptHandler (fun _ => true) 1 5 (HW {[1%positive := full_table]} {[5%positive := 2049]})
    = Some (EOK, 2049, w').
Proof.
  apply (fd_above_limit (fun _ => true) 1 5 full_table).
  - reflexivity.
  - apply full_table_ok.
  - reflexivity.
  - intros i Hi. rewrite full_slot, decide_True by (unfold FDNO_MAX in Hi; lia). discriminate.
  - rewrite full_slot by discriminate. reflexivity.
Defined.
