(* ===== verification/CBuf.v ===== *)
(** * Ring buffers (kern/h/kern/cbuf.h, kern/src/kernlib/cbuf.c)

    The indices of a ring buffer run freely through the 32-bit numbers; the
    capacity is a power of two and masks them into the storage. *)

From S2P Require Import Prelude ExtBit.

Abbreviation byte := Z (only parsing).

Record cbuf := CB { data : list byte; capacity : Z; readIdx : Z; writeIdx : Z }.

(** [mem] is the content of the fresh storage of that size; [None] is the
    endless loop of pow2_ceil_ul. *)
Definition cbuf_init (mem : Z -> list byte) (cap : Z) : option cbuf :=
  c ← pow2_ceil_ul cap; Some (CB (mem c) c 0 0).

Definition cbuf_init_extbuf (buf : list byte) (cap : Z) : cbuf := CB buf cap 0 0.

Definition cbuf_empty (self : cbuf) : bool := readIdx self =? writeIdx self.
Definition cbuf_readable (self : cbuf) : Z := u32 (writeIdx self - readIdx self).
Definition cbuf_writable (self : cbuf) : Z := u32 (capacity self - u32 (writeIdx self - readIdx self)).
Definition cbuf_clear (self : cbuf) : cbuf := CB (data self) (capacity self) 0 0.
Definition cbuf_mask_index (self : cbuf) (val : Z) : Z := Z.land val (u32 (capacity self - 1)).

Definition cbuf_put (self : cbuf) (b : byte) : Z * cbuf :=
  if 1 <=? cbuf_writable self then
    (1, CB (arr_set (data self) (cbuf_mask_index self (writeIdx self)) b)
          (capacity self) (readIdx self) (u32 (writeIdx self + 1)))
  else (0, self).

Definition cbuf_get (self : cbuf) : Z * byte * cbuf :=
  if 1 <=? cbuf_readable self then
    (1, arr_get 0 (data self) (cbuf_mask_index self (readIdx self)),
      CB (data self) (capacity self) (u32 (readIdx self + 1)) (writeIdx self))
  else (0, 0, self).

(** The copy loop of cbuf_puts for the bytes that are left, at index [i]. *)
Fixpoint copy_in (self : cbuf) (i : Z) (bs : list byte) (d : list byte) : list byte :=
  match bs with
  | [] => d
  | b :: bs => copy_in self (i + 1) bs (arr_set d (cbuf_mask_index self (u32 (writeIdx self + i))) b)
  end.

(** [avail] and [nBytesToCopy] are ints; the comparison of [__min] is unsigned.
    [bs] holds the [count] bytes at [pBytes]. *)
Definition cbuf_puts (self : cbuf) (bs : list byte) : Z * cbuf :=
  let count := Z.of_nat (length bs) in
  let avail := s32 (cbuf_writable self) in
  if (count =? 0) || (avail =? 0) then (0, self)
  else
    let n := s32 (if u32 avail <? count then u32 avail else count) in
    (u32 n, CB (copy_in self 0 (take (Z.to_nat n) bs) (data self)) (capacity self)
              (readIdx self) (u32 (writeIdx self + n))).

Definition cbuf_gets (self : cbuf) (count : Z) : list byte * cbuf :=
  let avail := s32 (cbuf_readable self) in
  if (count =? 0) || (avail =? 0) then ([], self)
  else
    let n := s32 (if u32 avail <? count then u32 avail else count) in
    (map (fun i => arr_get 0 (data self) (cbuf_mask_index self (u32 (readIdx self + Z.of_nat i))))
       (seq 0 (Z.to_nat n)),
     CB (data self) (capacity self) (u32 (readIdx self + n)) (writeIdx self)).

(** ** The queue of bytes that a ring buffer represents *)

Record cb_ok (self : cbuf) : Prop := {
  cb_pow2 : exists k, 0 <= k <= 30 /\ capacity self = 2 ^ k;
  cb_len : Z.of_nat (length (data self)) = capacity self;
  cb_ridx : 0 <= readIdx self < 2 ^ 32;
  cb_widx : 0 <= writeIdx self < 2 ^ 32;
  cb_fill : cbuf_readable self <= capacity self;
}.

(** The byte at distance [i] from the read index. *)
Definition cb_at (self : cbuf) (i : Z) : byte := arr_get 0 (data self) ((readIdx self + i) mod capacity self).

Definition contents (self : cbuf) : list byte :=
  map (fun i => cb_at self (Z.of_nat i)) (seq 0 (Z.to_nat (cbuf_readable self))).

Lemma cap_facts self : cb_ok self -> 0 < capacity self <= 2 ^ 30 /\ (capacity self | 2 ^ 32) /\
  forall x, Z.land x (u32 (capacity self - 1)) = x mod capacity self.
Proof.
  intros [(k & Hk & E) _ _ _ _]. rewrite E. pose proof (Z.pow_pos_nonneg 2 k). pose proof (Z.pow_le_mono_r 2 k 30).
  split; [lia|]. split.
  - exists (2 ^ (32 - k)). rewrite <-Z.pow_add_r by lia. f_equal. lia.
  - intros x. rewrite u32_small by lia. rewrite Z.sub_1_r, <-Z.ones_equiv. apply Z.land_ones. lia.
Qed.

Lemma u32_mod_cap self x : cb_ok self -> u32 x mod capacity self = x mod capacity self.
Proof.
  intros Hok. destruct (cap_facts self Hok) as (Hc & Hd & _). unfold u32.
  by apply Z.mod_mod_divide.
Qed.

Lemma mask_eq self x : cb_ok self -> cbuf_mask_index self (u32 x) = x mod capacity self.
Proof.
  intros Hok. destruct (cap_facts self Hok) as (_ & _ & Hm). unfold cbuf_mask_index. rewrite Hm. by apply u32_mod_cap.
Qed.

Lemma readable_range self : cb_ok self -> 0 <= cbuf_readable self <= capacity self.
Proof. intros Hok. split; [apply u32_range|apply Hok]. Qed.

Lemma writable_eq self : cb_ok self -> cbuf_writable self = capacity self - cbuf_readable self.
Proof.
  intros Hok. destruct (cap_facts self Hok) as (Hc & _). pose proof (readable_range self Hok).
  unfold cbuf_writable. fold (cbuf_readable self). apply u32_small. lia.
Qed.

(** The write index is the read index plus the fill, modulo the capacity. *)
Lemma widx_mod self i : cb_ok self ->
  (writeIdx self + i) mod capacity self = (readIdx self + (cbuf_readable self + i)) mod capacity self.
Proof.
  intros Hok. destruct (cap_facts self Hok) as (Hc & _). unfold cbuf_readable.
  replace (readIdx self + (u32 (writeIdx self - readIdx self) + i))
    with ((readIdx self + i) + u32 (writeIdx self - readIdx self)) by lia.
  rewrite <-(Zplus_mod_idemp_r (u32 (writeIdx self - readIdx self))), u32_mod_cap, Zplus_mod_idemp_r by done.
  f_equal. lia.
Qed.

(** Two distances below the capacity select different bytes. *)
Lemma slots_distinct self i j :
  cb_ok self -> 0 <= i < j -> j - i < capacity self ->
  (readIdx self + i) mod capacity self <> (readIdx self + j) mod capacity self.
Proof.
  intros Hok Hij Hd E. destruct (cap_facts self Hok) as (Hc & _).
  pose proof (Z.div_mod (readIdx self + i) (capacity self)). pose proof (Z.div_mod (readIdx self + j) (capacity self)).
  set (q := (readIdx self + j) / capacity self - (readIdx self + i) / capacity self).
  assert (Hq : capacity self * q = j - i) by (unfold q; lia).
  destruct (Z.le_gt_cases q 0); nia.
Qed.

Lemma length_contents self : length (contents self) = Z.to_nat (cbuf_readable self).
Proof. unfold contents. by rewrite length_map, length_seq. Qed.

Lemma contents_lookup self (n : nat) :
  Z.of_nat n < cbuf_readable self -> contents self !! n = Some (cb_at self (Z.of_nat n)).
Proof.
  intros Hn. unfold contents. rewrite list_lookup_fmap, lookup_seq_lt by lia. done.
Qed.

(** ** Writing *)

(** What the copy loop leaves in the storage. *)
Lemma copy_in_spec self bs i d j :
  cb_ok self -> length d = length (data self) -> 0 <= i ->
  i + Z.of_nat (length bs) <= capacity self - cbuf_readable self ->
  0 <= j < capacity self ->
  length (copy_in self i bs d) = length d /\
  arr_get 0 (copy_in self i bs d) ((readIdx self + j) mod capacity self) =
    if decide (cbuf_readable self + i <= j < cbuf_readable self + i + Z.of_nat (length bs))
    then arr_get 0 bs (j - (cbuf_readable self + i))
    else arr_get 0 d ((readIdx self + j) mod capacity self).
Proof.
  intros Hok. pose proof (readable_range self Hok) as Hr. destruct (cap_facts self Hok) as (Hc & _).
  pose proof (cb_len _ Hok) as Hlen.
  revert i d. induction bs as [|b bs IH]; intros i d Hd Hi Hfit Hj; simpl.
  { split; [done|]. rewrite decide_False by lia. done. }
  simpl in Hfit. rewrite mask_eq, widx_mod by done. set (p := (readIdx self + (cbuf_readable self + i)) mod capacity self).
  assert (Hp : 0 <= p < Z.of_nat (length d)) by (unfold p; pose proof (Z.mod_pos_bound (readIdx self + (cbuf_readable self + i)) (capacity self)); lia).
  destruct (IH (i + 1) (arr_set d p b)) as [I1 I2]; [by rewrite length_arr_set|lia|lia|done|].
  rewrite I1, length_arr_set. split; [done|]. rewrite I2. clear I1 I2 IH.
  destruct (decide (j = cbuf_readable self + i)) as [->|Hne].
  - rewrite decide_False, decide_True by lia. fold p. rewrite arr_get_set_eq by done. by rewrite Z.sub_diag.
  - destruct (decide (cbuf_readable self + (i + 1) <= j < cbuf_readable self + (i + 1) + Z.of_nat (length bs))) as [Hin|Hout].
    + rewrite decide_True by lia. unfold arr_get.
      replace (Z.to_nat (j - (cbuf_readable self + i))) with (S (Z.to_nat (j - (cbuf_readable self + (i + 1))))) by lia. done.
    + rewrite decide_False by lia. apply arr_get_set_ne; [lia|apply Z.mod_pos_bound; lia|].
      unfold p. destruct (decide (j < cbuf_readable self + i)).
      * intros E. symmetry in E. revert E. apply slots_distinct; [done|lia|lia].
      * apply slots_distinct; [done|lia|lia].
Qed.

(** Storing [bs] and moving the write index appends [bs]. *)
Lemma append_spec self bs :
  cb_ok self -> Z.of_nat (length bs) <= capacity self - cbuf_readable self ->
  let self' := CB (copy_in self 0 bs (data self)) (capacity self) (readIdx self)
                 (u32 (writeIdx self + Z.of_nat (length bs))) in
  cb_ok self' /\ contents self' = contents self ++ bs.
Proof.
  intros Hok Hfit self'. pose proof (readable_range self Hok) as Hr. destruct (cap_facts self Hok) as (Hc & _).
  assert (Hrd : cbuf_readable self' = cbuf_readable self + Z.of_nat (length bs)).
  { unfold cbuf_readable at 1. cbn [self' writeIdx readIdx]. unfold u32 at 1 2.
    rewrite Zminus_mod_idemp_l. replace (writeIdx self + Z.of_nat (length bs) - readIdx self)
      with (Z.of_nat (length bs) + (writeIdx self - readIdx self)) by lia.
    rewrite <-Zplus_mod_idemp_r. fold (u32 (writeIdx self - readIdx self)). fold (cbuf_readable self).
    rewrite Z.mod_small; lia. }
  pose proof (fun j Hj => copy_in_spec self bs 0 (data self) j Hok eq_refl ltac:(lia) ltac:(lia) Hj) as Hcp.
  destruct (Hcp 0 ltac:(lia)) as [Hl _]. pose proof Hok as [K1 K2 K3 K4 K5].
  split; [constructor; cbn [self' capacity data readIdx writeIdx]; try done; [lia|apply u32_range|lia]|].
  apply list_eq. intros n. destruct (decide (Z.of_nat n < cbuf_readable self')) as [Hn|Hn].
  - rewrite contents_lookup by done. unfold cb_at. cbn [self' capacity data readIdx].
    destruct (Hcp (Z.of_nat n) ltac:(lia)) as [_ ->]. rewrite Z.add_0_r.
    case_decide as E.
    + rewrite lookup_app_r by (rewrite length_contents; lia). rewrite length_contents.
      replace (n - Z.to_nat (cbuf_readable self))%nat with (Z.to_nat (Z.of_nat n - cbuf_readable self)) by lia.
      symmetry. apply arr_get_Some. lia.
    + rewrite lookup_app_l by (rewrite length_contents; lia). by rewrite contents_lookup by lia.
  - rewrite !lookup_ge_None_2; [done|rewrite length_app, length_contents; lia|rewrite length_contents; lia].
Qed.

Lemma puts_spec self bs :
  cb_ok self -> Z.of_nat (length bs) < 2 ^ 31 ->
  let n := Z.min (capacity self - cbuf_readable self) (Z.of_nat (length bs)) in
  let '(r, self') := cbuf_puts self bs in
  r = n /\ cb_ok self' /\ capacity self' = capacity self /\
  contents self' = contents self ++ take (Z.to_nat n) bs.
Proof.
  intros Hok Hlen. pose proof (readable_range self Hok) as Hr. destruct (cap_facts self Hok) as (Hc & _).
  cbv zeta. remember (Z.min (capacity self - cbuf_readable self) (Z.of_nat (length bs))) as n eqn:En.
  unfold cbuf_puts. rewrite writable_eq by done. rewrite s32_small by lia.
  destruct ((Z.of_nat (length bs) =? 0) || (capacity self - cbuf_readable self =? 0)) eqn:E.
  { assert (n = 0) as -> by lia. split_and!; try done. by rewrite app_nil_r. }
  rewrite (u32_small (capacity self - cbuf_readable self)) by lia.
  assert ((if capacity self - cbuf_readable self <? Z.of_nat (length bs)
           then capacity self - cbuf_readable self else Z.of_nat (length bs)) = n) as ->
    by (destruct (Z.ltb_spec (capacity self - cbuf_readable self) (Z.of_nat (length bs))); lia).
  rewrite (s32_small n), (u32_small n) by lia.
  assert (Ht : Z.of_nat (length (take (Z.to_nat n) bs)) = n) by (rewrite length_take; lia).
  destruct (append_spec self (take (Z.to_nat n) bs) Hok ltac:(lia)) as [H1 H2]. rewrite Ht in H1, H2.
  split_and!; done.
Qed.

(** ** Reading *)

Lemma gets_spec self count :
  cb_ok self -> 0 <= count < 2 ^ 31 ->
  let '(r, self') := cbuf_gets self count in
  r = take (Z.to_nat count) (contents self) /\ cb_ok self' /\ capacity self' = capacity self /\
  contents self' = drop (Z.to_nat count) (contents self).
Proof.
  intros Hok Hcnt. pose proof (readable_range self Hok) as Hr. destruct (cap_facts self Hok) as (Hc & _).
  unfold cbuf_gets. rewrite s32_small by lia.
  destruct ((count =? 0) || (cbuf_readable self =? 0)) eqn:E.
  { destruct (decide (count = 0)) as [->|]; [by split_and!|].
    assert (He : contents self = []) by (apply length_zero_iff_nil; rewrite length_contents; lia).
    by rewrite He, take_nil, drop_nil. }
  rewrite (u32_small (cbuf_readable self)) by lia.
  set (n := if cbuf_readable self <? count then cbuf_readable self else count).
  assert (Hn : n = Z.min (cbuf_readable self) count) by (unfold n; destruct (Z.ltb_spec (cbuf_readable self) count); lia).
  rewrite (s32_small n) by lia. set (self' := CB _ _ _ _).
  assert (Hrd : cbuf_readable self' = cbuf_readable self - n).
  { unfold cbuf_readable at 1. cbn [self' writeIdx readIdx]. unfold u32 at 1 2.
    rewrite Zminus_mod_idemp_r. replace (writeIdx self - (readIdx self + n))
      with ((writeIdx self - readIdx self) - n) by lia.
    rewrite <-Zminus_mod_idemp_l. fold (u32 (writeIdx self - readIdx self)). fold (cbuf_readable self).
    rewrite Z.mod_small; lia. }
  pose proof Hok as [K1 K2 K3 K4 K5].
  split_and!; [| |done|].
  - apply list_eq. intros i. destruct (decide (Z.of_nat i < n)) as [Hi|Hi].
    + rewrite list_lookup_fmap, lookup_seq_lt by lia. rewrite lookup_take_lt, contents_lookup by lia.
      simpl. rewrite mask_eq by done. done.
    + rewrite !lookup_ge_None_2; [done|rewrite length_take, length_contents; lia|rewrite length_map, length_seq; lia].
  - constructor; cbn [self' capacity data readIdx writeIdx]; try done; [apply u32_range|lia].
  - apply list_eq. intros i. rewrite lookup_drop. destruct (decide (Z.of_nat i < cbuf_readable self')) as [Hi|Hi].
    + rewrite !contents_lookup by lia. unfold cb_at. cbn [self' capacity data readIdx]. do 2 f_equal.
      rewrite <-(Zplus_mod_idemp_l (u32 (readIdx self + n))), u32_mod_cap, Zplus_mod_idemp_l by done. f_equal. lia.
    + rewrite !lookup_ge_None_2; [done|rewrite length_contents; lia|rewrite length_contents; lia].
Qed.

(** A single byte is a sequence of length one. *)
Lemma put_is_puts self b : cb_ok self -> cbuf_put self b = cbuf_puts self [b].
Proof.
  intros Hok. pose proof (readable_range self Hok) as Hr. destruct (cap_facts self Hok) as (Hc & _).
  pose proof (cb_widx _ Hok). unfold cbuf_put, cbuf_puts. rewrite writable_eq by done. rewrite s32_small by lia.
  cbn [length]. change (Z.of_nat 1 =? 0) with false. cbn [orb].
  destruct (Z.eqb_spec (capacity self - cbuf_readable self) 0) as [E|E].
  { rewrite E. done. }
  rewrite (proj2 (Z.leb_le _ _)) by lia. rewrite (u32_small (capacity self - cbuf_readable self)) by lia.
  destruct (Z.ltb_spec (capacity self - cbuf_readable self) (Z.of_nat 1)); [lia|].
  change (s32 (Z.of_nat 1)) with 1. change (take (Z.to_nat 1) [b]) with [b]. cbn [copy_in].
  rewrite Z.add_0_r, (u32_small (writeIdx self)) by lia. done.
Qed.

Lemma get_is_gets self :
  cb_ok self ->
  let '(n, b, self1) := cbuf_get self in let '(r, self2) := cbuf_gets self 1 in
  self1 = self2 /\ r = (if n =? 1 then [b] else []).
Proof.
  intros Hok. pose proof (readable_range self Hok) as Hr. destruct (cap_facts self Hok) as (Hc & _).
  pose proof (cb_ridx _ Hok). unfold cbuf_get, cbuf_gets. rewrite s32_small by lia. cbn [Z.eqb orb].
  destruct (Z.eqb_spec (cbuf_readable self) 0) as [E|E]; [by rewrite E|].
  rewrite (proj2 (Z.leb_le _ _)) by lia. rewrite (u32_small (cbuf_readable self)) by lia.
  destruct (Z.ltb_spec (cbuf_readable self) 1); [lia|].
  change (s32 1) with 1. change (seq 0 (Z.to_nat 1)) with [0%nat]. cbn [map]. split; [done|].
  change (Z.of_nat 0) with 0. by rewrite Z.add_0_r, (u32_small (readIdx self)) by lia.
Qed.

Lemma cbuf_init_ok mem cap :
  (forall n, Z.of_nat (length (mem n)) = Z.max n 0) -> 1 <= cap <= 2 ^ 30 ->
  exists self, cbuf_init mem cap = Some self /\ cb_ok self /\ contents self = [] /\
    cap <= capacity self /\ capacity self < 2 * cap.
Proof.
  intros Hmem Hcap. destruct (pow2_ceil_ul_small cap ltac:(lia)) as (k & Hk & Hc & Hle & Hlt).
  unfold cbuf_init. rewrite (bind_some Hc). eexists. split; [done|].
  assert (Hk30 : k <= 30).
  { destruct (decide (k <= 30)); [done|]. specialize (Hlt 30 ltac:(lia)). lia. }
  pose proof (Z.pow_pos_nonneg 2 k). split_and!.
  - constructor; cbn [data capacity readIdx writeIdx]; [exists k; split; [lia|done]|rewrite Hmem; lia|lia|lia|].
    unfold cbuf_readable. simpl. change (u32 (0 - 0)) with 0. lia.
  - done.
  - simpl. lia.
  - simpl. destruct (decide (k = 0)) as [->|]; [lia|]. specialize (Hlt (k - 1) ltac:(lia)).
    replace (2 ^ k) with (2 * 2 ^ (k - 1)); [lia|]. rewrite <-Z.pow_succ_r by lia. f_equal. lia.
Qed.

Lemma cbuf_clear_ok self : cb_ok self -> cb_ok (cbuf_clear self) /\ contents (cbuf_clear self) = [].
Proof.
  intros Hok. destruct (cap_facts self Hok) as (Hc & _). destruct Hok as [K1 K2 K3 K4 K5]. split; [|done].
  constructor; cbn [cbuf_clear data capacity readIdx writeIdx]; try done.
  unfold cbuf_readable. simpl. change (u32 (0 - 0)) with 0. lia.
Qed.

(** ** Sequences of operations *)

Inductive cb_op := BPut (b : byte) | BPuts (bs : list byte) | BGet | BGets (count : Z) | BClear.

(** The count that is returned and the bytes that come out. *)
Definition cb_exec (o : cb_op) (self : cbuf) : Z * list byte * cbuf :=
  match o with
  | BPut b => let '(n, self) := cbuf_put self b in (n, [], self)
  | BPuts bs => let '(n, self) := cbuf_puts self bs in (n, [], self)
  | BGet => let '(n, b, self) := cbuf_get self in (n, if n =? 1 then [b] else [], self)
  | BGets c => let '(r, self) := cbuf_gets self c in (Z.of_nat (length r), r, self)
  | BClear => (0, [], cbuf_clear self)
  end.

(** A first-in first-out queue of at most [cap] bytes. *)
Definition fifo_exec (cap : Z) (o : cb_op) (q : list byte) : Z * list byte * list byte :=
  let put bs := let n := Z.min (cap - Z.of_nat (length q)) (Z.of_nat (length bs)) in
                (n, [], q ++ take (Z.to_nat n) bs) in
  let get c := let r := take (Z.to_nat c) q in (Z.of_nat (length r), r, drop (Z.to_nat c) q) in
  match o with
  | BPut b => put [b]
  | BPuts bs => put bs
  | BGet => get 1
  | BGets c => get c
  | BClear => (0, [], [])
  end.

Definition cb_op_ok (o : cb_op) : Prop :=
  match o with BPuts bs => Z.of_nat (length bs) < 2 ^ 31 | BGets c => 0 <= c < 2 ^ 31 | _ => True end.

Fixpoint cb_execs (os : list cb_op) (self : cbuf) : list (Z * list byte) * cbuf :=
  match os with
  | [] => ([], self)
  | o :: os => let '(n, r, self) := cb_exec o self in
               let '(rs, self) := cb_execs os self in ((n, r) :: rs, self)
  end.
Fixpoint fifo_execs (cap : Z) (os : list cb_op) (q : list byte) : list (Z * list byte) * list byte :=
  match os with
  | [] => ([], q)
  | o :: os => let '(n, r, q) := fifo_exec cap o q in
               let '(rs, q) := fifo_execs cap os q in ((n, r) :: rs, q)
  end.

Lemma readable_contents self : cb_ok self -> cbuf_readable self = Z.of_nat (length (contents self)).
Proof. intros Hok. pose proof (readable_range self Hok). rewrite length_contents. lia. Qed.

Lemma cb_exec_refines o self :
  cb_ok self -> cb_op_ok o ->
  let '(n, r, self') := cb_exec o self in
  cb_ok self' /\ capacity self' = capacity self /\
  fifo_exec (capacity self) o (contents self) = (n, r, contents self').
Proof.
  intros Hok Ho. pose proof (readable_contents self Hok) as Hr. destruct o as [b|bs| |c|]; cbn [cb_exec fifo_exec].
  - rewrite put_is_puts by done. pose proof (puts_spec self [b] Hok ltac:(done)) as H.
    destruct (cbuf_puts self [b]) as [n self']. destruct H as (-> & H1 & H2 & H3).
    split_and!; [done|done|]. by rewrite H3, Hr.
  - pose proof (puts_spec self bs Hok Ho) as H. destruct (cbuf_puts self bs) as [n self'].
    destruct H as (-> & H1 & H2 & H3). split_and!; [done|done|]. by rewrite H3, Hr.
  - pose proof (get_is_gets self Hok) as Hg. pose proof (gets_spec self 1 Hok ltac:(done)) as H.
    unfold cbuf_get in *. destruct (cbuf_gets self 1) as [r self'].
    destruct H as (-> & H1 & H2 & H3). destruct (1 <=? cbuf_readable self); destruct Hg as [<- Hg];
      (split_and!; [done|done|]); rewrite Hg, <-H3; done.
  - pose proof (gets_spec self c Hok Ho) as H. destruct (cbuf_gets self c) as [r self'].
    destruct H as (-> & H1 & H2 & H3). split_and!; [done|done|]. by rewrite H3.
  - destruct (cbuf_clear_ok self Hok) as [H1 H2]. split_and!; [done|done|]. by rewrite H2.
Qed.

(** C28. Whatever sequence of operations is performed on a ring buffer, its free
    running 32-bit indices included, every call returns what a first-in
    first-out queue with the same capacity returns, and the buffer goes on
    representing that queue. *)
Theorem cbuf_refines_fifo (os : list cb_op) (self : cbuf) :
  cb_ok self -> Forall cb_op_ok os ->
  let '(rs, self') := cb_execs os self in
  cb_ok self' /\ fifo_execs (capacity self) os (contents self) = (rs, contents self').
Proof.
  revert self. induction os as [|o os IH]; intros self Hok Hos; simpl; [done|].
  apply Forall_cons in Hos as [Ho Hos]. pose proof (cb_exec_refines o self Hok Ho) as H.
  destruct (cb_exec o self) as [[n r] self1]. destruct H as (H1 & H2 & H3). rewrite H3.
  specialize (IH self1 H1 Hos). destruct (cb_execs os self1) as [rs self2]. destruct IH as [I1 I2].
  rewrite H2 in I2. by rewrite I2.
Qed.

(** A buffer of four bytes whose indices are about to wrap around. *)
Definition wrapping_cbuf : cbuf := CB [0; 0; 0; 0] 4 (2 ^ 32 - 2) (2 ^ 32 - 2).

Lemma wrapping_cbuf_ok : cb_ok wrapping_cbuf.
Proof. constructor; vm_compute; try done; [exists 2; done|split; congruence..]. Qed.

Lemma cbuf_refines_fifo_witness :
  (cb_execs [BPuts [1; 2; 3; 4; 5]; BGets 3; BPut 6; BGet; BGet; BGet] wrapping_cbuf).1
  = [(4, []); (3, [1; 2; 3]); (1, []); (1, [4]); (1, [6]); (0, [])].
Proof.
  pose proof (cbuf_refines_fifo [BPuts [1; 2; 3; 4; 5]; BGets 3; BPut 6; BGet; BGet; BGet] wrapping_cbuf) as H.
  destruct (cb_execs _ wrapping_cbuf) as [rs self']. destruct H as [_ H].
  - apply wrapping_cbuf_ok.
  - repeat constructor; simpl; lia.
  - apply (f_equal fst) in H. cbn [fst] in *. rewrite <-H. vm_compute. reflexivity.
Defined.
