(* ===== verification/Pipe.v ===== *)
(** * Pipes (kern/src/ipc/Pipe.c)

    A pipe is a ring buffer with the numbers of its open read and write ends.
    Its mutex makes the code between two waits atomic; a call that waits on one
    of the condition variables is pending until a broadcast wakes it.  The
    state has all pending calls, so that any number of readers and writers
    interleave. *)

From S2P Require Import Prelude ExtBit CBuf.

Inductive pipe_end := kPipeEnd_Read | kPipeEnd_Write.

Record pipe := Pipe { readerCount : Z; writerCount : Z; buffer : cbuf }.

(** [mem] is the fresh storage of the buffer. *)
Definition Pipe_Create (mem : Z -> list byte) (bufferSize : Z) : option pipe :=
  b ← cbuf_init mem (Z.max bufferSize 1); Some (Pipe 0 0 b).

Definition Pipe_GetNonBlockingReadableCount (self : pipe) : Z := cbuf_readable (buffer self).
Definition Pipe_GetNonBlockingWritableCount (self : pipe) : Z := cbuf_writable (buffer self).
Definition Pipe_GetCapacity (self : pipe) : Z := capacity (buffer self).

(** How the locked part of a read or a write ends: with the call's error, or at
    the wait on the condition variable. *)
Inductive outcome := Done (err : errno) | Block.

Definition with_buffer (self : pipe) (b : cbuf) : pipe := Pipe (readerCount self) (writerCount self) b.

(** The loop of Pipe_Read; [got] is what was read so far.  After a chunk the
    request is complete or the buffer is empty, so two rounds are enough. *)
Fixpoint read_loop (fuel : nat) (self : pipe) (want : Z) (got : list byte)
  : option (outcome * list byte * pipe) :=
  match fuel with
  | O => None
  | S fuel =>
      if (Z.of_nat (length got) <? want) && (0 <? readerCount self) then
        let '(chunk, b) := cbuf_gets (buffer self) (want - Z.of_nat (length got)) in
        let self := with_buffer self b in
        match chunk with
        | [] => if writerCount self =? 0 then Some (Done EOK, got, self) else Some (Block, got, self)
        | _ => read_loop fuel self want (got ++ chunk)
        end
      else Some (Done EOK, got, self)
  end.

(** The loop of Pipe_Write; [n] bytes of [bs] are written so far. *)
Fixpoint write_loop (fuel : nat) (self : pipe) (bs : list byte) (n : Z)
  : option (outcome * Z * pipe) :=
  match fuel with
  | O => None
  | S fuel =>
      if (n <? Z.of_nat (length bs)) && (0 <? writerCount self) then
        let '(chunk, b) := cbuf_puts (buffer self) (drop (Z.to_nat n) bs) in
        let self := with_buffer self b in
        if chunk =? 0 then
          if readerCount self =? 0 then Some (Done (if n =? 0 then EPIPE else EOK), n, self)
          else Some (Block, n, self)
        else write_loop fuel self bs (n + chunk)
      else Some (Done EOK, n, self)
  end.

(** ** The system of a pipe and its pending calls *)

(** A call that waits; [woken] says that a broadcast has reached it. *)
Inductive pending :=
| PRead (want : Z) (got : list byte) (woken : bool)
| PWrite (bs : list byte) (n : Z) (woken : bool).

(** [wlog] and [rlog] record all bytes that went into and came out of the
    buffer; they are not part of the program. *)
Record psys := PSys {
  pp : pipe;
  pend : gmap positive pending;
  wlog : list byte;
  rlog : list byte
}.

Definition wake_reader (p : pending) : pending :=
  match p with PRead want got _ => PRead want got true | _ => p end.
Definition wake_writer (p : pending) : pending :=
  match p with PWrite bs n _ => PWrite bs n true | _ => p end.

Definition broadcast_readers (s : psys) : psys := PSys (pp s) (wake_reader <$> pend s) (wlog s) (rlog s).
Definition broadcast_writers (s : psys) : psys := PSys (pp s) (wake_writer <$> pend s) (wlog s) (rlog s).

Definition Pipe_Open (e : pipe_end) (s : psys) : psys :=
  let p := pp s in
  let p := match e with
           | kPipeEnd_Read => Pipe (readerCount p + 1) (writerCount p) (buffer p)
           | kPipeEnd_Write => Pipe (readerCount p) (writerCount p + 1) (buffer p)
           end in
  broadcast_writers (broadcast_readers (PSys p (pend s) (wlog s) (rlog s))).

Definition Pipe_Close (e : pipe_end) (s : psys) : psys :=
  let p := pp s in
  let dec n := if 0 <? n then n - 1 else n in
  let p := match e with
           | kPipeEnd_Read => Pipe (dec (readerCount p)) (writerCount p) (buffer p)
           | kPipeEnd_Write => Pipe (readerCount p) (dec (writerCount p)) (buffer p)
           end in
  broadcast_writers (broadcast_readers (PSys p (pend s) (wlog s) (rlog s))).

(** Runs the locked part of a read by [id]: the call returns with its error and
    its bytes, or it stays pending after the writers were woken. *)
Definition run_read (id : positive) (want : Z) (got : list byte) (s : psys)
  : option (option (errno * list byte) * psys) :=
  '(o, got', p) ← read_loop 2 (pp s) want got;
  let log := rlog s ++ drop (length got) got' in
  match o with
  | Done e => Some (Some (e, got'), PSys p (delete id (pend s)) (wlog s) log)
  | Block => let s := broadcast_writers (PSys p (pend s) (wlog s) log) in
             Some (None, PSys (pp s) (<[id := PRead want got' false]> (pend s)) (wlog s) (rlog s))
  end.

Definition run_write (id : positive) (bs : list byte) (n : Z) (s : psys)
  : option (option (errno * Z) * psys) :=
  '(o, n', p) ← write_loop 2 (pp s) bs n;
  let log := wlog s ++ take (Z.to_nat (n' - n)) (drop (Z.to_nat n) bs) in
  match o with
  | Done e => Some (Some (e, n'), PSys p (delete id (pend s)) log (rlog s))
  | Block => let s := broadcast_readers (PSys p (pend s) log (rlog s)) in
             Some (None, PSys (pp s) (<[id := PWrite bs n' false]> (pend s)) (wlog s) (rlog s))
  end.

Definition Pipe_Read (id : positive) (nBytesToRead : Z) (s : psys) : option (option (errno * list byte) * psys) :=
  if 0 <? nBytesToRead then run_read id nBytesToRead [] s else Some (Some (EOK, []), s).

Definition Pipe_Write (id : positive) (bs : list byte) (s : psys) : option (option (errno * Z) * psys) :=
  if 0 <? Z.of_nat (length bs) then run_write id bs 0 s else Some (Some (EOK, 0), s).

(** The wait of a call returned [err]. *)
Definition resume_read (id : positive) (err : errno) (want : Z) (got : list byte) (s : psys)
  : option (option (errno * list byte) * psys) :=
  if is_ok err then run_read id want got s
  else Some (Some (match got with [] => ECANCELED | _ => EOK end, got),
             PSys (pp s) (delete id (pend s)) (wlog s) (rlog s)).

Definition resume_write (id : positive) (err : errno) (bs : list byte) (n : Z) (s : psys)
  : option (option (errno * Z) * psys) :=
  if is_ok err then run_write id bs n s
  else Some (Some (if n =? 0 then ECANCELED else EOK, n),
             PSys (pp s) (delete id (pend s)) (wlog s) (rlog s)).

(** ** The loops *)

Definition pipe_ok (p : pipe) : Prop := cb_ok (buffer p).
Definition stored (p : pipe) : list byte := contents (buffer p).

Lemma gets_facts p want :
  pipe_ok p -> 0 < want < 2 ^ 31 ->
  let '(chunk, b) := cbuf_gets (buffer p) want in
  pipe_ok (with_buffer p b) /\ stored p = chunk ++ contents b /\ capacity b = capacity (buffer p) /\
  Z.of_nat (length chunk) <= want /\
  (Z.of_nat (length chunk) < want -> contents b = []) /\ (chunk = [] -> stored p = []).
Proof.
  intros Hok Hw. pose proof (gets_spec (buffer p) want Hok ltac:(lia)) as H.
  destruct (cbuf_gets (buffer p) want) as [chunk b]. destruct H as (-> & H1 & H2 & H3). unfold stored.
  split_and!; [done|by rewrite H3, take_drop|done|rewrite length_take; lia| |].
  - intros Hl. rewrite H3. apply drop_ge. rewrite length_take in Hl. lia.
  - intros Ht. destruct (contents (buffer p)) as [|x l]; [done|].
    destruct (Z.to_nat want) eqn:E; [lia|done].
Qed.

(** What a locked read does: [chunk] is moved from the buffer to the caller,
    and the reason why it stopped. *)
Record read_ok (p : pipe) (want : Z) (got : list byte) (o : outcome) (got' : list byte) (p' : pipe) : Prop := {
  ro_pipe : pipe_ok p';
  ro_counts : readerCount p' = readerCount p /\ writerCount p' = writerCount p /\
    capacity (buffer p') = capacity (buffer p);
  ro_moved : exists chunk, got' = got ++ chunk /\ stored p = chunk ++ stored p';
  ro_limit : Z.of_nat (length got') <= Z.max want (Z.of_nat (length got));
  ro_done : forall e, o = Done e -> e = EOK /\
    (want <= Z.of_nat (length got') \/ readerCount p <= 0 \/ (stored p' = [] /\ writerCount p = 0));
  ro_block : o = Block -> stored p' = [] /\ writerCount p <> 0 /\ Z.of_nat (length got') < want;
}.

Lemma read_loop_stop fuel p want got :
  pipe_ok p -> stored p = [] \/ want <= Z.of_nat (length got) -> want < 2 ^ 31 ->
  exists o p', read_loop (S fuel) p want got = Some (o, got, p') /\ read_ok p want got o got p'.
Proof.
  intros Hok Hstop Hw. cbn [read_loop].
  destruct ((Z.of_nat (length got) <? want) && (0 <? readerCount p)) eqn:E.
  - destruct Hstop as [He|]; [|lia].
    pose proof (gets_facts p (want - Z.of_nat (length got)) Hok ltac:(lia)) as H.
    destruct (cbuf_gets _ _) as [chunk b]. destruct H as (H1 & H2 & Hcap & _).
    rewrite He in H2. symmetry in H2. apply app_eq_nil in H2 as [-> Hb]. cbn [writerCount with_buffer].
    destruct (Z.eqb_spec (writerCount p) 0) as [E0|E0]; eexists _, _; (split; [done|]);
      (constructor; [done|done|by exists []; rewrite app_nil_r, He|lia| |]);
      intros; simplify_eq; unfold stored; cbn [buffer with_buffer]; (split_and!; auto; lia).
  - eexists _, _. split; [done|].
    constructor; [done|done|by exists []; rewrite app_nil_r|lia| |]; intros; simplify_eq; split; [done|lia].
Qed.

Lemma read_loop_spec p want got :
  pipe_ok p -> want < 2 ^ 31 ->
  exists o got' p', read_loop 2 p want got = Some (o, got', p') /\ read_ok p want got o got' p'.
Proof.
  intros Hok Hw.
  destruct ((Z.of_nat (length got) <? want) && (0 <? readerCount p)) eqn:E; cycle 1.
  { cbn [read_loop]. rewrite E. eexists _, _, _. split; [done|].
    constructor; [done|done|by exists []; rewrite app_nil_r|lia| |]; intros; simplify_eq; split; [done|lia]. }
  pose proof (gets_facts p (want - Z.of_nat (length got)) Hok ltac:(lia)) as H.
  destruct (cbuf_gets _ _) as [[|x chunk] b] eqn:Eg.
  - destruct H as (_ & _ & _ & _ & _ & Hnil). destruct (read_loop_stop 1 p want got) as (o & p' & H1 & H2); [done|auto|done|].
    by exists o, got, p'.
  - destruct H as (H1 & H2 & Hcap & Hlim & Hemp & _).
    remember (x :: chunk) as ch. assert (length ch <> 0)%nat by (subst; done).
    destruct (read_loop_stop 0 (with_buffer p b) want (got ++ ch)) as (o & p' & Hl & Hr);
      [done| |done|].
    { rewrite length_app. destruct (decide (Z.of_nat (length ch) < want - Z.of_nat (length got))); [left; by apply Hemp|right; lia]. }
    exists o, (got ++ ch), p'. split.
    + change (read_loop 2 p want got) with
        (if (Z.of_nat (length got) <? want) && (0 <? readerCount p) then
           let '(chunk, b) := cbuf_gets (buffer p) (want - Z.of_nat (length got)) in
           match chunk with
           | [] => if writerCount p =? 0 then Some (Done EOK, got, with_buffer p b) else Some (Block, got, with_buffer p b)
           | _ => read_loop 1 (with_buffer p b) want (got ++ chunk)
           end else Some (Done EOK, got, p)).
      rewrite E, Eg, Hl. by subst.
    + destruct Hr as [? (? & ? & ?) (c & Hc1 & Hc2) ? Hd Hb]. constructor; try done.
      * split_and!; [done|done|]. by rewrite <- Hcap.
      * exists ch. split; [done|]. rewrite H2. f_equal.
        assert (c = []) as -> by (apply (f_equal length) in Hc1; rewrite !length_app in Hc1; destruct c; [done|simpl in Hc1; lia]).
        done.
      * rewrite length_app in *. lia.
Qed.

Definition space (p : pipe) : Z := capacity (buffer p) - cbuf_readable (buffer p).

Lemma puts_facts p bs :
  pipe_ok p -> Z.of_nat (length bs) < 2 ^ 31 ->
  let '(n, b) := cbuf_puts (buffer p) bs in
  pipe_ok (with_buffer p b) /\ n = Z.min (space p) (Z.of_nat (length bs)) /\ 0 <= n /\
  contents b = stored p ++ take (Z.to_nat n) bs /\ capacity b = capacity (buffer p) /\
  space (with_buffer p b) = space p - n.
Proof.
  intros Hok Hl. pose proof (puts_spec (buffer p) bs Hok Hl) as H. cbv zeta in H.
  pose proof (readable_range _ Hok). unfold space.
  destruct (cbuf_puts (buffer p) bs) as [n b]. destruct H as (-> & H1 & H2 & H3).
  cbn [buffer with_buffer]. split_and!; [done|done|lia|done|done|].
  pose proof (readable_contents (buffer p) Hok). rewrite H2, (readable_contents b H1), H3, length_app, length_take. lia.
Qed.

(** What a locked write does: the bytes from [n] to [n'] of the request are
    appended to the buffer, and the reason why it stopped. *)
Record write_ok (p : pipe) (bs : list byte) (n : Z) (o : outcome) (n' : Z) (p' : pipe) : Prop := {
  wo_pipe : pipe_ok p';
  wo_counts : readerCount p' = readerCount p /\ writerCount p' = writerCount p /\
    capacity (buffer p') = capacity (buffer p);
  wo_range : n <= n' <= Z.max n (Z.of_nat (length bs));
  wo_moved : stored p' = stored p ++ take (Z.to_nat (n' - n)) (drop (Z.to_nat n) bs);
  wo_done : forall e, o = Done e ->
    (e = EOK /\ (Z.of_nat (length bs) <= n' \/ writerCount p <= 0 \/ (space p' = 0 /\ readerCount p = 0 /\ n' <> 0))) \/
    (e = EPIPE /\ n' = 0 /\ space p' = 0 /\ readerCount p = 0);
  wo_block : o = Block -> space p' = 0 /\ readerCount p <> 0 /\ n' < Z.of_nat (length bs);
}.

Lemma write_idle p bs n :
  pipe_ok p -> Z.of_nat (length bs) <= n \/ writerCount p <= 0 -> write_ok p bs n (Done EOK) n p.
Proof.
  intros Hok Hd. constructor; try done; [lia| |].
  - rewrite Z.sub_diag. by rewrite app_nil_r.
  - intros e [= <-]. left. split; [done|]. destruct Hd; auto.
Qed.

Lemma write_loop_stop fuel p bs n :
  pipe_ok p -> Z.of_nat (length bs) < 2 ^ 31 -> 0 <= n -> space p = 0 \/ Z.of_nat (length bs) <= n ->
  exists o p', write_loop (S fuel) p bs n = Some (o, n, p') /\ write_ok p bs n o n p'.
Proof.
  intros Hok Hl Hn Hstop. cbn [write_loop].
  destruct ((n <? Z.of_nat (length bs)) && (0 <? writerCount p)) eqn:E; cycle 1.
  { eexists _, _. split; [done|]. apply write_idle; [done|lia]. }
  pose proof (puts_facts p (drop (Z.to_nat n) bs) Hok) as H. rewrite length_drop in H. ospecialize (H _); [lia|].
  destruct (cbuf_puts _ _) as [c b]. destruct H as (H1 & H2 & _ & H3 & H4 & H5).
  assert (c = 0) as -> by lia. rewrite Z.eqb_refl. cbn [readerCount with_buffer].
  destruct (Z.eqb_spec (readerCount p) 0) as [E0|E0]; eexists _, _; (split; [done|]);
    (constructor; [done|done|lia|by rewrite Z.sub_diag| |]); intros; simplify_eq; try (split_and!; lia).
  destruct (Z.eqb_spec n 0); [right|left]; split_and!; auto; [lia|right; right; split_and!; lia].
Qed.

Lemma write_loop_spec p bs n :
  pipe_ok p -> Z.of_nat (length bs) < 2 ^ 31 -> 0 <= n ->
  exists o n' p', write_loop 2 p bs n = Some (o, n', p') /\ write_ok p bs n o n' p'.
Proof.
  intros Hok Hl Hn.
  destruct ((n <? Z.of_nat (length bs)) && (0 <? writerCount p)) eqn:E; cycle 1.
  { cbn [write_loop]. rewrite E. eexists _, _, _. split; [done|]. apply write_idle; [done|lia]. }
  destruct (decide (space p = 0)) as [|Hs].
  { destruct (write_loop_stop 1 p bs n) as (o & p' & ? & ?); auto. by exists o, n, p'. }
  pose proof (puts_facts p (drop (Z.to_nat n) bs) Hok) as H. rewrite length_drop in H. ospecialize (H _); [lia|].
  destruct (cbuf_puts _ _) as [c b] eqn:Ep. destruct H as (H1 & H2 & Hc & H3 & H4 & H5).
  destruct (write_loop_stop 0 (with_buffer p b) bs (n + c)) as (o & p' & Hw & Hr); [done|lia|lia|lia|].
  exists o, (n + c), p'. split.
  - change (write_loop 2 p bs n) with
      (if (n <? Z.of_nat (length bs)) && (0 <? writerCount p) then
         let '(chunk, b) := cbuf_puts (buffer p) (drop (Z.to_nat n) bs) in
         if chunk =? 0 then
           if readerCount p =? 0 then Some (Done (if n =? 0 then EPIPE else EOK), n, with_buffer p b)
           else Some (Block, n, with_buffer p b)
         else write_loop 1 (with_buffer p b) bs (n + chunk)
       else Some (Done EOK, n, p)).
    rewrite E, Ep. destruct (Z.eqb_spec c 0); [lia|done].
  - destruct Hr as [? (? & ? & ?) ? Hm Hd Hb]. constructor; try done.
    + split_and!; [done|done|]. by rewrite <- H4.
    + lia.
    + rewrite Hm, Z.sub_diag, app_nil_r. unfold stored at 1. cbn [buffer with_buffer]. rewrite H3.
      by replace (n + c - n) with c by lia.
Qed.

(** ** Calls on a pipe and their interleavings *)

Inductive pcall :=
| COpen (e : pipe_end)
| CClose (e : pipe_end)
| CRead (id : positive) (want : Z)
| CWrite (id : positive) (bs : list byte)
| CResume (id : positive) (err : errno).

(** One atomic part of a call.  Only a pending call resumes, and a thread has
    one call at a time. *)
Definition pexec (c : pcall) (s : psys) : option psys :=
  match c with
  | COpen e => Some (Pipe_Open e s)
  | CClose e => Some (Pipe_Close e s)
  | CRead id want => snd <$> Pipe_Read id want s
  | CWrite id bs => snd <$> Pipe_Write id bs s
  | CResume id err =>
      p ← pend s !! id;
      match p with
      | PRead want got _ => snd <$> resume_read id err want got s
      | PWrite bs n _ => snd <$> resume_write id err bs n s
      end
  end.

Definition penabled (c : pcall) (s : psys) : Prop :=
  match c with
  | CRead id want => pend s !! id = None /\ want < 2 ^ 31
  | CWrite id bs => pend s !! id = None /\ Z.of_nat (length bs) < 2 ^ 31
  | CResume id _ => is_Some (pend s !! id)
  | _ => True
  end.

Inductive preach (s0 : psys) : psys -> Prop :=
| preach_refl : preach s0 s0
| preach_step s c s' : preach s0 s -> penabled c s -> pexec c s = Some s' -> preach s0 s'.

Definition pending_ok (p : pending) : Prop :=
  match p with
  | PRead want got _ => Z.of_nat (length got) < want < 2 ^ 31
  | PWrite bs n _ => 0 <= n < Z.of_nat (length bs) /\ Z.of_nat (length bs) < 2 ^ 31
  end.

Record psys_inv (s : psys) : Prop := {
  pi_pipe : pipe_ok (pp s);
  pi_log : wlog s = rlog s ++ stored (pp s);
  pi_counts : 0 <= readerCount (pp s) /\ 0 <= writerCount (pp s);
  pi_pend : map_Forall (fun _ => pending_ok) (pend s);
}.

Lemma pending_ok_wake_r p : pending_ok (wake_reader p) <-> pending_ok p.
Proof. by destruct p. Qed.
Lemma pending_ok_wake_w p : pending_ok (wake_writer p) <-> pending_ok p.
Proof. by destruct p. Qed.

Lemma broadcast_readers_inv s : psys_inv s -> psys_inv (broadcast_readers s).
Proof.
  intros []. constructor; try done. intros id p. cbn [pend broadcast_readers]. rewrite lookup_fmap.
  intros (q & Hq & ->)%fmap_Some. apply pending_ok_wake_r. eauto.
Qed.

Lemma broadcast_writers_inv s : psys_inv s -> psys_inv (broadcast_writers s).
Proof.
  intros []. constructor; try done. intros id p. cbn [pend broadcast_writers]. rewrite lookup_fmap.
  intros (q & Hq & ->)%fmap_Some. apply pending_ok_wake_w. eauto.
Qed.

Create HintDb pipe.
#[export] Hint Resolve broadcast_readers_inv broadcast_writers_inv : pipe.

Lemma forget_inv id s : psys_inv s -> psys_inv (PSys (pp s) (delete id (pend s)) (wlog s) (rlog s)).
Proof. intros []. constructor; try done. by apply map_Forall_delete. Qed.

Lemma remember_inv id p s :
  psys_inv s -> pending_ok p -> psys_inv (PSys (pp s) (<[id := p]> (pend s)) (wlog s) (rlog s)).
Proof. intros [] ?. constructor; try done. by apply map_Forall_insert_2. Qed.

#[export] Hint Resolve forget_inv remember_inv : pipe.

Lemma open_inv e s : psys_inv s -> psys_inv (Pipe_Open e s).
Proof.
  intros [? ? [? ?] ?]. unfold Pipe_Open. apply broadcast_writers_inv, broadcast_readers_inv.
  destruct e; constructor; try done; cbn [pp readerCount writerCount]; lia.
Qed.

Lemma close_inv e s : psys_inv s -> psys_inv (Pipe_Close e s).
Proof.
  intros [? ? [? ?] ?]. unfold Pipe_Close. apply broadcast_writers_inv, broadcast_readers_inv.
  destruct e; constructor; try done; cbn [pp readerCount writerCount];
    destruct (Z.ltb_spec 0 (readerCount (pp s))); destruct (Z.ltb_spec 0 (writerCount (pp s))); lia.
Qed.

(** What one locked part of a read means to its caller. *)
Record read_result (id : positive) (want : Z) (got : list byte) (s : psys)
  (r : option (errno * list byte)) (s' : psys) : Prop := {
  rr_inv : psys_inv s';
  rr_wlog : wlog s' = wlog s;
  rr_counts : readerCount (pp s') = readerCount (pp s) /\ writerCount (pp s') = writerCount (pp s);
  rr_done : forall e bs, r = Some (e, bs) ->
    exists new, bs = got ++ new /\ rlog s' = rlog s ++ new /\ e = EOK /\ pend s' = delete id (pend s) /\
      (Z.of_nat (length bs) = want \/ readerCount (pp s) = 0 \/ (stored (pp s') = [] /\ writerCount (pp s) = 0));
  rr_wait : r = None ->
    exists new, rlog s' = rlog s ++ new /\ stored (pp s') = [] /\ 0 < writerCount (pp s) /\
      pend s' = <[id := PRead want (got ++ new) false]> (wake_writer <$> pend s);
}.

Lemma run_read_spec id want got s :
  psys_inv s -> Z.of_nat (length got) < want < 2 ^ 31 ->
  exists r s', run_read id want got s = Some (r, s') /\ read_result id want got s r s'.
Proof.
  intros Hi Hw. destruct (read_loop_spec (pp s) want got) as (o & got' & p' & Hl & Hr); [apply Hi|lia|].
  destruct Hr as [Hp (Hc1 & Hc2 & _) (chunk & -> & Hs) Hlim Hd Hb].
  unfold run_read. rewrite (bind_some Hl), drop_app_length.
  assert (Hi' : psys_inv (PSys p' (pend s) (wlog s) (rlog s ++ chunk))).
  { destruct Hi as [? Hlog ? ?]. constructor; try done; cbn [pp wlog rlog].
    - by rewrite Hlog, Hs, app_assoc.
    - lia. }
  pose proof (pi_counts _ Hi). destruct o as [e|]; eexists _, _; (split; [done|]).
  - destruct (Hd e eq_refl) as [-> Hwhy]. constructor; [exact (forget_inv id _ Hi')|done|done| |done].
    intros e bs [= <- <-]. exists chunk. split_and!; try done. cbn [pp].
    destruct Hwhy as [|[|[]]]; [left; lia|right; left; lia|auto].
  - destruct (Hb eq_refl) as (He & Hwc & Hlt). constructor; [|done|done|done|].
    + apply (remember_inv id (PRead want (got ++ chunk) false) (broadcast_writers _)); [by apply broadcast_writers_inv|].
      simpl. rewrite length_app in *. lia.
    + intros _. exists chunk. split_and!; try done. lia.
Qed.

(** What one locked part of a write means to its caller. *)
Record write_result (id : positive) (bs : list byte) (n : Z) (s : psys)
  (r : option (errno * Z)) (s' : psys) : Prop := {
  wr_inv : psys_inv s';
  wr_rlog : rlog s' = rlog s;
  wr_counts : readerCount (pp s') = readerCount (pp s) /\ writerCount (pp s') = writerCount (pp s);
  wr_done : forall e n', r = Some (e, n') ->
    n <= n' <= Z.of_nat (length bs) /\
    wlog s' = wlog s ++ take (Z.to_nat (n' - n)) (drop (Z.to_nat n) bs) /\ pend s' = delete id (pend s) /\
    (e = EOK /\ (n' = Z.of_nat (length bs) \/ writerCount (pp s) = 0 \/
                 (space (pp s') = 0 /\ readerCount (pp s) = 0 /\ n' <> 0)) \/
     e = EPIPE /\ n' = 0 /\ space (pp s') = 0 /\ readerCount (pp s) = 0);
  wr_wait : r = None ->
    exists n', n <= n' < Z.of_nat (length bs) /\
      wlog s' = wlog s ++ take (Z.to_nat (n' - n)) (drop (Z.to_nat n) bs) /\
      space (pp s') = 0 /\ 0 < readerCount (pp s) /\
      pend s' = <[id := PWrite bs n' false]> (wake_reader <$> pend s);
}.

Lemma run_write_spec id bs n s :
  psys_inv s -> 0 <= n < Z.of_nat (length bs) -> Z.of_nat (length bs) < 2 ^ 31 ->
  exists r s', run_write id bs n s = Some (r, s') /\ write_result id bs n s r s'.
Proof.
  intros Hi Hn Hl. destruct (write_loop_spec (pp s) bs n) as (o & n' & p' & Hw & Hr); [apply Hi|lia|lia|].
  destruct Hr as [Hp (Hc1 & Hc2 & _) Hrng Hm Hd Hb]. pose proof (pi_counts _ Hi).
  unfold run_write. rewrite (bind_some Hw).
  assert (Hi' : psys_inv (PSys p' (pend s) (wlog s ++ take (Z.to_nat (n' - n)) (drop (Z.to_nat n) bs)) (rlog s))).
  { destruct Hi as [? Hlog ? ?]. constructor; try done; cbn [pp wlog rlog].
    - by rewrite Hlog, Hm, app_assoc.
    - lia. }
  destruct o as [e|]; eexists _, _; (split; [done|]).
  - specialize (Hd e eq_refl). constructor; [exact (forget_inv id _ Hi')|done|done| |done].
    intros e' m [= <- <-]. cbn [pp]. split_and!; [lia|lia|done|done|].
    destruct Hd as [[-> [|[|]]]|]; [left|left|left|auto]; (split; [done|]); [left; lia|right; left; lia|auto].
  - destruct (Hb eq_refl) as (He & Hwc & Hlt). constructor; [|done|done|done|].
    + apply (remember_inv id (PWrite bs n' false) (broadcast_readers _)); [by apply broadcast_readers_inv|].
      simpl. lia.
    + intros _. exists n'. split_and!; try done; lia.
Qed.

Lemma pexec_inv c s : psys_inv s -> penabled c s -> exists s', pexec c s = Some s' /\ psys_inv s'.
Proof.
  intros Hi He. destruct c as [e|e|id want|id bs|id err]; cbn [pexec].
  - eauto using open_inv.
  - eauto using close_inv.
  - unfold Pipe_Read. destruct (Z.ltb_spec 0 want); [|by eexists].
    destruct (run_read_spec id want [] s) as (r & s' & -> & Hr); [done|simpl; split; [lia|apply He]|].
    eexists; split; [done|apply Hr].
  - unfold Pipe_Write. destruct (Z.ltb_spec 0 (Z.of_nat (length bs))); [|by eexists].
    destruct (run_write_spec id bs 0 s) as (r & s' & -> & Hr); [done|lia|apply He|].
    eexists; split; [done|apply Hr].
  - destruct He as [p Hp]. rewrite (bind_some Hp). pose proof (pi_pend _ Hi id p Hp) as Hpok.
    destruct p as [want got w|bs n w]; simpl in Hpok; unfold resume_read, resume_write; destruct (is_ok err);
      [|eauto with pipe| |eauto with pipe].
    + destruct (run_read_spec id want got s) as (r & s' & -> & Hr); [done|lia|]. eexists; split; [done|apply Hr].
    + destruct (run_write_spec id bs n s) as (r & s' & -> & Hr); [done|lia|lia|]. eexists; split; [done|apply Hr].
Qed.

Definition psys_init (p : pipe) : psys := PSys p ∅ [] [].

Lemma create_inv mem size p :
  (forall n, Z.of_nat (length (mem n)) = Z.max n 0) -> 0 <= size <= 2 ^ 30 ->
  Pipe_Create mem size = Some p -> psys_inv (psys_init p) /\ size <= capacity (buffer p).
Proof.
  intros Hmem Hs. destruct (cbuf_init_ok mem (Z.max size 1) Hmem ltac:(lia)) as (b & Hb & Hok & Hc & Hle & _).
  unfold Pipe_Create. rewrite (bind_some Hb). intros [= <-]. split; [|simpl; lia].
  constructor; [done| |simpl; lia|apply map_Forall_empty]. unfold stored. simpl. by rewrite Hc.
Qed.

Lemma preach_inv s0 s : psys_inv s0 -> preach s0 s -> psys_inv s.
Proof.
  intros H0. induction 1 as [|s c s' _ IH He Hx]; [done|].
  destruct (pexec_inv c s IH He) as (s'' & Hs'' & Hi). congruence.
Qed.

(** A write for which there is space, and a read for which there is data,
    complete at once and leave the other pending calls as they are. *)
Lemma write_fits s id bs :
  psys_inv s -> 0 < Z.of_nat (length bs) <= space (pp s) -> 0 < writerCount (pp s) ->
  exists s', Pipe_Write id bs s = Some (Some (EOK, Z.of_nat (length bs)), s') /\
    pend s' = delete id (pend s) /\ stored (pp s') = stored (pp s) ++ bs.
Proof.
  intros Hi Hb Hw. destruct (cap_facts _ (pi_pipe _ Hi)) as (Hcap & _).
  pose proof (readable_range _ (pi_pipe _ Hi)) as Hrr. unfold space in Hb.
  pose proof (puts_facts (pp s) bs (pi_pipe _ Hi) ltac:(lia)) as H.
  unfold Pipe_Write, run_write. destruct (Z.ltb_spec 0 (Z.of_nat (length bs))); [|lia].
  cbn [write_loop]. rewrite drop_0. destruct (cbuf_puts _ _) as [c b]. destruct H as (H1 & H2 & _ & H3 & _).
  unfold space in H2. assert (c = Z.of_nat (length bs)) as -> by lia.
  destruct (Z.ltb_spec 0 (Z.of_nat (length bs))); [|lia]. destruct (Z.ltb_spec 0 (writerCount (pp s))); [|lia].
  cbn [andb]. destruct (Z.eqb_spec (Z.of_nat (length bs)) 0); [lia|]. rewrite Z.add_0_l, Z.ltb_irrefl. cbn.
  eexists. split_and!; [done|done|]. unfold stored at 1. cbn. by rewrite H3, Nat2Z.id, firstn_all.
Qed.

Lemma read_satisfied s id want :
  psys_inv s -> 0 < want <= Z.of_nat (length (stored (pp s))) -> 0 < readerCount (pp s) ->
  exists s', Pipe_Read id want s = Some (Some (EOK, take (Z.to_nat want) (stored (pp s))), s') /\
    pend s' = delete id (pend s) /\ stored (pp s) = take (Z.to_nat want) (stored (pp s)) ++ stored (pp s').
Proof.
  intros Hi Hb Hw. destruct (cap_facts _ (pi_pipe _ Hi)) as (Hcap & _).
  pose proof (readable_range _ (pi_pipe _ Hi)) as Hrr. unfold stored in Hb.
  rewrite <- (readable_contents _ (pi_pipe _ Hi)) in Hb.
  pose proof (gets_spec (buffer (pp s)) want (pi_pipe _ Hi) ltac:(lia)) as H.
  unfold Pipe_Read, run_read. destruct (Z.ltb_spec 0 want); [|lia]. cbn [read_loop length].
  change (Z.of_nat 0) with 0. rewrite Z.sub_0_r. destruct (cbuf_gets _ _) as [chunk b]. destruct H as (-> & H1 & _ & H3).
  destruct (Z.ltb_spec 0 want); [|lia]. destruct (Z.ltb_spec 0 (readerCount (pp s))); [|lia]. cbn [andb].
  fold (stored (pp s)). assert (Hlen : Z.of_nat (length (take (Z.to_nat want) (stored (pp s)))) = want).
  { rewrite length_take. unfold stored. pose proof (readable_contents _ (pi_pipe _ Hi)). lia. }
  remember (take (Z.to_nat want) (stored (pp s))) as l eqn:El. destruct l as [|x l]; [simpl in Hlen; lia|].
  rewrite app_nil_l, Hlen, Z.ltb_irrefl. cbn. eexists. split_and!; [done|done|].
  change (stored (pp s) = (x :: l) ++ contents b). rewrite H3, El. symmetry. apply take_drop.
Qed.

(** ** Properties *)

(** C14. A pipe is a queue of bytes for every interleaving of any number of
    readers and writers.  In every state reachable from a new pipe by opening
    and closing ends, by starting reads and writes, and by resuming waiting
    calls with or without an error, the bytes that were written are, in order,
    the bytes that were read followed by the bytes in the buffer; nothing is
    lost, duplicated or reordered, the buffer stays within its capacity, and
    every next call runs. *)
Theorem pipe_is_fifo (mem : Z -> list byte) (size : Z) (p : pipe) (s : psys)
  (Hmem : forall n, Z.of_nat (length (mem n)) = Z.max n 0) (Hsize : 0 <= size <= 2 ^ 30)
  (Hp : Pipe_Create mem size = Some p) (Hs : preach (psys_init p) s) :
  wlog s = rlog s ++ stored (pp s) /\
  Z.of_nat (length (stored (pp s))) = Pipe_GetNonBlockingReadableCount (pp s) /\
  0 <= Pipe_GetNonBlockingReadableCount (pp s) <= Pipe_GetCapacity (pp s) /\
  Pipe_GetNonBlockingWritableCount (pp s) = Pipe_GetCapacity (pp s) - Pipe_GetNonBlockingReadableCount (pp s) /\
  forall c, penabled c s -> is_Some (pexec c s).
Proof.
  destruct (create_inv mem size p Hmem Hsize Hp) as [H0 _]. pose proof (preach_inv _ _ H0 Hs) as Hi.
  split; [apply Hi|]. unfold Pipe_GetNonBlockingReadableCount, Pipe_GetNonBlockingWritableCount, Pipe_GetCapacity.
  split_and!; [symmetry; apply readable_contents, Hi|apply readable_range, Hi|apply readable_range, Hi|apply writable_eq, Hi|].
  intros c Hc. destruct (pexec_inv c s Hi Hc) as (s' & -> & _). by eexists.
Qed.

Definition demo_mem (n : Z) : list byte := replicate (Z.to_nat n) 0.
Definition demo_pipe : pipe := Pipe 0 0 (CB [0; 0; 0; 0] 4 0 0).
Definition demo_open : psys := Pipe_Open kPipeEnd_Write (Pipe_Open kPipeEnd_Read (psys_init demo_pipe)).
Definition demo_w : psys := default demo_open (pexec (CWrite 1 [1; 2; 3; 4; 5; 6]) demo_open).
Definition demo_r : psys := default demo_open (pexec (CRead 2 3) demo_w).
Definition demo_full : psys := default demo_open (pexec (CResume 1 EOK) demo_r).

Lemma demo_open_reach : preach (psys_init demo_pipe) demo_open.
Proof.
  apply (preach_step _ (Pipe_Open kPipeEnd_Read (psys_init demo_pipe)) (COpen kPipeEnd_Write)); [|done|done].
  apply (preach_step _ (psys_init demo_pipe) (COpen kPipeEnd_Read)); [constructor|done|done].
Qed.

Lemma pipe_is_fifo_witness :
  wlog demo_full = [1; 2; 3; 4; 5; 6] /\ rlog demo_full = [1; 2; 3] /\ stored (pp demo_full) = [4; 5; 6] /\
  wlog demo_full = rlog demo_full ++ stored (pp demo_full).
Proof.
  split_and!; [vm_compute; reflexivity|vm_compute; reflexivity|vm_compute; reflexivity|].
  refine (proj1 (pipe_is_fifo demo_mem 4 demo_pipe demo_full _ _ _ _)).
  - intros n. unfold demo_mem. rewrite length_replicate. lia.
  - lia.
  - vm_compute. reflexivity.
  - apply (preach_step _ demo_r (CResume 1 EOK)); [|by eexists|vm_compute; reflexivity].
    apply (preach_step _ demo_w (CRead 2 3)); [|split; [done|lia]|vm_compute; reflexivity].
    apply (preach_step _ demo_open (CWrite 1 [1; 2; 3; 4; 5; 6])); [|split; [done|simpl; lia]|vm_compute; reflexivity].
    apply demo_open_reach.
Defined.

(** What a read and a write on a pipe return.  A read that returns at once
    returns EOK with the next bytes of the stream, and returns fewer than it
    was asked for only when its end was closed or, at the end of the file, when
    the buffer is empty and no writer is left; it waits only on an empty buffer
    that has a writer, after waking every waiting writer.  A write that returns
    at once returns the number of bytes it appended: all of them, or fewer when
    its end was closed or the buffer is full and no reader is left, which is
    EPIPE when it appended none; it waits only on a full buffer that has a
    reader, after waking every waiting reader. *)
Theorem pipe_results (s : psys) (id : positive) (want : Z) (bs : list byte)
  (Hi : psys_inv s) (Hw : 0 < want < 2 ^ 31) (Hb : 0 < Z.of_nat (length bs) < 2 ^ 31) :
  (exists r s', Pipe_Read id want s = Some (r, s') /\ psys_inv s' /\ wlog s' = wlog s /\
    match r with
    | Some (e, l) => e = EOK /\ rlog s' = rlog s ++ l /\ pend s' = delete id (pend s) /\
        (Z.of_nat (length l) = want \/ readerCount (pp s) = 0 \/
         (stored (pp s') = [] /\ writerCount (pp s) = 0))
    | None => exists got, rlog s' = rlog s ++ got /\ stored (pp s') = [] /\ 0 < writerCount (pp s) /\
        pend s' = <[id := PRead want got false]> (wake_writer <$> pend s)
    end) /\
  (exists r s', Pipe_Write id bs s = Some (r, s') /\ psys_inv s' /\ rlog s' = rlog s /\
    match r with
    | Some (e, n) => 0 <= n <= Z.of_nat (length bs) /\ wlog s' = wlog s ++ take (Z.to_nat n) bs /\
        pend s' = delete id (pend s) /\
        (e = EOK /\ (n = Z.of_nat (length bs) \/ writerCount (pp s) = 0 \/
                     (space (pp s') = 0 /\ readerCount (pp s) = 0 /\ n <> 0)) \/
         e = EPIPE /\ n = 0 /\ space (pp s') = 0 /\ readerCount (pp s) = 0)
    | None => exists n, 0 <= n < Z.of_nat (length bs) /\ wlog s' = wlog s ++ take (Z.to_nat n) bs /\
        space (pp s') = 0 /\ 0 < readerCount (pp s) /\
        pend s' = <[id := PWrite bs n false]> (wake_reader <$> pend s)
    end).
Proof.
  unfold Pipe_Read, Pipe_Write. destruct (Z.ltb_spec 0 want), (Z.ltb_spec 0 (Z.of_nat (length bs))); try lia. split.
  - destruct (run_read_spec id want [] s) as (r & s' & Hr & [H1 H2 H3 H4 H5]); [done|simpl; lia|].
    exists r, s'. split_and!; try done. destruct r as [[e l]|]; [|by apply H5].
    destruct (H4 e l eq_refl) as (new & -> & H6). simpl in *. naive_solver.
  - destruct (run_write_spec id bs 0 s) as (r & s' & Hr & [H1 H2 H3 H4 H5]); [done|lia|lia|].
    exists r, s'. split_and!; try done. destruct r as [[e n]|].
    + specialize (H4 e n eq_refl). by rewrite Z.sub_0_r, drop_0 in H4.
    + destruct (H5 eq_refl) as (n & H6). rewrite Z.sub_0_r, drop_0 in H6. by exists n.
Qed.

Lemma demo_open_inv : psys_inv demo_open.
Proof.
  apply open_inv, open_inv. apply (create_inv demo_mem 4); [|lia|by vm_compute].
  intros n. unfold demo_mem. rewrite length_replicate. lia.
Qed.

Lemma pipe_results_witness :
  exists r s', Pipe_Read 3 5 demo_open = Some (r, s') /\ psys_inv s'.
Proof.
  destruct (proj1 (pipe_results demo_open 3 5 [9] demo_open_inv ltac:(lia) ltac:(simpl; lia)))
    as (r & s' & H1 & H2 & _).
  exists r, s'. split; assumption.
Defined.

(** C40. A write that fits into the buffer does not wake a reader that waits
    for data, nor does a read that the buffer satisfies wake a writer that waits
    for space: the call returns EOK, the other call stays asleep, and the data
    (the space) it waits for is there.  Broadcasts happen only when a call is
    about to sleep itself or when an end is opened or closed. *)
Theorem pipe_lost_wakeup (s : psys) (id other : positive) (Hi : psys_inv s) (Hne : id <> other) :
  (forall want got bs,
    pend s !! id = Some (PRead want got false) ->
    0 < Z.of_nat (length bs) <= space (pp s) -> 0 < writerCount (pp s) ->
    exists s', Pipe_Write other bs s = Some (Some (EOK, Z.of_nat (length bs)), s') /\
      pend s' !! id = Some (PRead want got false) /\ stored (pp s') = stored (pp s) ++ bs) /\
  (forall bs n want,
    pend s !! id = Some (PWrite bs n false) ->
    0 < want <= Z.of_nat (length (stored (pp s))) -> 0 < readerCount (pp s) ->
    exists s', Pipe_Read other want s = Some (Some (EOK, take (Z.to_nat want) (stored (pp s))), s') /\
      pend s' !! id = Some (PWrite bs n false) /\ stored (pp s) = take (Z.to_nat want) (stored (pp s)) ++ stored (pp s')).
Proof.
  split.
  - intros want got bs Hr Hb Hw. destruct (write_fits s other bs Hi Hb Hw) as (s' & H1 & H2 & H3).
    exists s'. split_and!; [done|by rewrite H2, lookup_delete_ne|done].
  - intros bs n want Hw Hb Hr. destruct (read_satisfied s other want Hi Hb Hr) as (s' & H1 & H2 & H3).
    exists s'. split_and!; [done|by rewrite H2, lookup_delete_ne|done].
Qed.

Definition demo_asleep : psys := default demo_open (pexec (CRead 1 2) demo_open).

Lemma pipe_lost_wakeup_witness :
  exists s', Pipe_Write 2 [7; 8] demo_asleep = Some (Some (EOK, 2), s') /\
    pend s' !! 1%positive = Some (PRead 2 [] false) /\ stored (pp s') = [7; 8].
Proof.
  assert (Hi : psys_inv demo_asleep).
  { apply (preach_inv demo_open); [exact demo_open_inv|].
    apply (preach_step _ demo_open (CRead 1 2)); [constructor|split; [done|lia]|vm_compute; reflexivity]. }
  apply (proj1 (pipe_lost_wakeup demo_asleep 1 2 Hi ltac:(done)) 2 [] [7; 8]).
  - vm_compute. reflexivity.
  - vm_compute. split; congruence.
  - vm_compute. reflexivity.
Defined.
