(* ===== verification/Bytes.v ===== *)
(** * Byte buffers and big-endian fields

    Disk blocks and on-disk structures: a buffer is a list of bytes, memcpy is
    [patch], and a 16, 32 or 64 bit field is read and written in big-endian
    order.  The machine is big endian, so be32toh(p->f) is a plain load. *)

From S2P Require Import Prelude.

Definition is_byte (b : Z) : Prop := 0 <= b < 256.

(** [n] bytes of a buffer from offset [off] on. *)
Definition slice (off n : nat) (l : list Z) : list Z := take n (drop off l).

(** memcpy of [bs] to offset [off]; only used where [bs] fits. *)
Definition patch (off : nat) (bs l : list Z) : list Z := take off l ++ bs ++ drop (off + length bs) l.

Definition be_step (a b : Z) : Z := a * 256 + b.
Definition be_val (l : list Z) : Z := fold_left be_step l 0.

Fixpoint be_bytes (n : nat) (v : Z) : list Z :=
  match n with
  | O => []
  | S n => (v / 256 ^ Z.of_nat n) mod 256 :: be_bytes n v
  end.

Definition load (n off : nat) (l : list Z) : Z := be_val (slice off n l).
Definition store (n off : nat) (v : Z) (l : list Z) : list Z := patch off (be_bytes n v) l.

Notation load32 := (load 4).
Notation store32 := (store 4).

(** ** Slices and patches *)

Section Buffers.
Implicit Types (l bs : list Z) (off n : nat).

Lemma length_slice off n l : (off + n <= length l)%nat -> length (slice off n l) = n.
Proof. intros. unfold slice. rewrite length_take, length_drop. lia. Qed.

Lemma length_patch off bs l : (off + length bs <= length l)%nat -> length (patch off bs l) = length l.
Proof. intros. unfold patch. rewrite !length_app, length_take, length_drop. lia. Qed.

Lemma lookup_slice off n l i : (i < n)%nat -> slice off n l !! i = l !! (off + i)%nat.
Proof. intros. unfold slice. by rewrite lookup_take_lt, lookup_drop. Qed.

Lemma lookup_patch_in off bs l i :
  (off <= length l)%nat -> (off <= i < off + length bs)%nat -> patch off bs l !! i = bs !! (i - off)%nat.
Proof.
  intros Ho Hi. unfold patch. rewrite lookup_app_r by (rewrite length_take; lia). rewrite length_take, Nat.min_l by lia.
  by rewrite lookup_app_l by lia.
Qed.

Lemma lookup_patch_out off bs l i :
  (off + length bs <= length l)%nat -> (i < off \/ off + length bs <= i)%nat -> patch off bs l !! i = l !! i.
Proof.
  intros Ho [Hi|Hi]; unfold patch.
  - rewrite lookup_app_l by (rewrite length_take; lia). by rewrite lookup_take_lt.
  - rewrite lookup_app_r by (rewrite length_take; lia). rewrite length_take, Nat.min_l by lia.
    rewrite lookup_app_r by lia. rewrite lookup_drop. f_equal. lia.
Qed.

Lemma slice_patch_same off bs l :
  (off + length bs <= length l)%nat -> slice off (length bs) (patch off bs l) = bs.
Proof.
  intros. unfold slice, patch. rewrite drop_app_ge by (rewrite length_take; lia).
  rewrite length_take, Nat.min_l, Nat.sub_diag, drop_0 by lia. by rewrite take_app_length.
Qed.

Lemma slice_patch_other off bs l off' n :
  (off + length bs <= length l)%nat -> (off' + n <= off \/ off + length bs <= off')%nat ->
  slice off' n (patch off bs l) = slice off' n l.
Proof.
  intros Ho Hd. apply list_eq. intros i. destruct (decide (i < n)%nat).
  - rewrite !lookup_slice, lookup_patch_out by lia. done.
  - unfold slice. by rewrite !lookup_take_ge by lia.
Qed.

Lemma patch_all bs l : length bs = length l -> patch 0 bs l = bs.
Proof. intros H. unfold patch. rewrite drop_ge by lia. by rewrite app_nil_r. Qed.

Lemma Forall_patch P off bs l : Forall P l -> Forall P bs -> Forall P (patch off bs l).
Proof. intros. unfold patch. repeat apply Forall_app_2; auto using Forall_take, Forall_drop. Qed.

Lemma Forall_slice P off n l : Forall P l -> Forall P (slice off n l).
Proof. intros. unfold slice. auto using Forall_take, Forall_drop. Qed.

(** ** Big-endian fields *)

Lemma length_be_bytes n v : length (be_bytes n v) = n.
Proof. induction n; simpl; congruence. Qed.

Lemma Forall_be_bytes n v : Forall is_byte (be_bytes n v).
Proof. induction n; simpl; constructor; [unfold is_byte; apply Z.mod_pos_bound; lia|done]. Qed.

Lemma be_fold a l : fold_left be_step l a = a * 256 ^ Z.of_nat (length l) + be_val l.
Proof.
  unfold be_val. revert a. induction l as [|b l IH]; intros a; cbn [fold_left length]; [lia|].
  rewrite (IH (be_step a b)), (IH (be_step 0 b)). unfold be_step.
  rewrite Nat2Z.inj_succ, Z.pow_succ_r by lia. lia.
Qed.

Lemma be_val_cons b l : be_val (b :: l) = b * 256 ^ Z.of_nat (length l) + be_val l.
Proof. unfold be_val at 1. cbn [fold_left]. rewrite be_fold. unfold be_step. lia. Qed.

Lemma be_val_range l : Forall is_byte l -> 0 <= be_val l < 256 ^ Z.of_nat (length l).
Proof.
  induction 1 as [|b l Hb Hl IH]; [unfold be_val; simpl; lia|].
  rewrite be_val_cons. cbn [length]. rewrite Nat2Z.inj_succ, Z.pow_succ_r by lia. unfold is_byte in Hb. nia.
Qed.

Lemma be_val_bytes_mod n v : be_val (be_bytes n v) = v mod 256 ^ Z.of_nat n.
Proof.
  induction n as [|n IH]; [unfold be_val; simpl; by rewrite Z.mod_1_r|].
  cbn [be_bytes]. rewrite be_val_cons, length_be_bytes, IH, Nat2Z.inj_succ, Z.pow_succ_r by lia.
  rewrite (Z.mul_comm 256), Z.rem_mul_r by lia. lia.
Qed.

Lemma be_val_bytes n v : 0 <= v < 256 ^ Z.of_nat n -> be_val (be_bytes n v) = v.
Proof. intros H. rewrite be_val_bytes_mod. by apply Z.mod_small. Qed.

Lemma load_range n off l : Forall is_byte l -> (off + n <= length l)%nat -> 0 <= load n off l < 256 ^ Z.of_nat n.
Proof.
  intros Hl Hn. pose proof (be_val_range (slice off n l) (Forall_slice _ _ _ _ Hl)) as H.
  by rewrite length_slice in H.
Qed.

Lemma load_store_same n off v l :
  (off + n <= length l)%nat -> 0 <= v < 256 ^ Z.of_nat n -> load n off (store n off v l) = v.
Proof.
  intros Hl Hv. unfold load, store. pose proof (slice_patch_same off (be_bytes n v) l) as H.
  rewrite length_be_bytes in H. rewrite H by done. by apply be_val_bytes.
Qed.

Lemma load_store_mod n off v l :
  (off + n <= length l)%nat -> load n off (store n off v l) = v mod 256 ^ Z.of_nat n.
Proof.
  intros Hl. unfold load, store. pose proof (slice_patch_same off (be_bytes n v) l) as H.
  rewrite length_be_bytes in H. rewrite H by done. apply be_val_bytes_mod.
Qed.

(** A field inside of a copied structure. *)
Lemma load_patch_in n k off bs l :
  (off + length bs <= length l)%nat -> (k + n <= length bs)%nat -> load n (off + k) (patch off bs l) = load n k bs.
Proof.
  intros Hl Hk. unfold load. f_equal. apply list_eq. intros i. destruct (decide (i < n)%nat).
  - rewrite !lookup_slice, lookup_patch_in by lia. f_equal. lia.
  - unfold slice. by rewrite !lookup_take_ge by lia.
Qed.

Lemma load_patch_other n k off bs l :
  (off + length bs <= length l)%nat -> (k + n <= off \/ off + length bs <= k)%nat -> load n k (patch off bs l) = load n k l.
Proof. intros. unfold load. by rewrite slice_patch_other. Qed.

(** An array of [n]-byte fields. *)
Definition be_array (n : nat) (vs : list Z) : list Z := concat (be_bytes n <$> vs).

Lemma length_be_array n vs : length (be_array n vs) = (n * length vs)%nat.
Proof.
  unfold be_array. induction vs as [|v vs IH]; [simpl; lia|]. rewrite fmap_cons. cbn [concat length].
  rewrite length_app, length_be_bytes, IH. lia.
Qed.

Lemma Forall_be_array n vs : Forall is_byte (be_array n vs).
Proof.
  unfold be_array. induction vs as [|v vs IH]; [constructor|]. rewrite fmap_cons. cbn [concat].
  apply Forall_app_2; [apply Forall_be_bytes|done].
Qed.

Lemma load_be_array n vs i v :
  vs !! i = Some v -> 0 <= v < 256 ^ Z.of_nat n -> load n (n * i) (be_array n vs) = v.
Proof.
  revert i. induction vs as [|w vs IH]; intros i Hi Hv; [done|]. unfold be_array. rewrite fmap_cons. cbn [concat].
  unfold load, slice. destruct i as [|i]; cbn in Hi.
  - injection Hi as ->. rewrite Nat.mul_0_r, drop_0, take_app_le by (rewrite length_be_bytes; lia).
    rewrite take_ge by (rewrite length_be_bytes; lia). by apply be_val_bytes.
  - rewrite drop_app_ge by (rewrite length_be_bytes; lia). rewrite length_be_bytes.
    replace (n * S i - n)%nat with (n * i)%nat by lia. by apply IH.
Qed.

Lemma load_store_other n off v l n' off' :
  (off + n <= length l)%nat -> (off' + n' <= off \/ off + n <= off')%nat ->
  load n' off' (store n off v l) = load n' off' l.
Proof. intros Hl Hd. unfold load, store. rewrite slice_patch_other; rewrite ?length_be_bytes; auto. Qed.

Lemma length_store n off v l : (off + n <= length l)%nat -> length (store n off v l) = length l.
Proof. intros. unfold store. apply length_patch. by rewrite length_be_bytes. Qed.

Lemma Forall_store n off v l : Forall is_byte l -> Forall is_byte (store n off v l).
Proof. intros. apply Forall_patch; [done|apply Forall_be_bytes]. Qed.

Lemma slice_replicate off n k (x : Z) : (off + n <= k)%nat -> slice off n (replicate k x) = replicate n x.
Proof. intros. unfold slice. rewrite drop_replicate, take_replicate. f_equal. lia. Qed.

Lemma be_val_zeros n : be_val (replicate n 0) = 0.
Proof. induction n as [|n IH]; [done|]. cbn [replicate]. by rewrite be_val_cons, IH. Qed.
End Buffers.

Create HintDb bytes.
#[export] Hint Resolve Forall_patch Forall_slice Forall_store Forall_be_bytes : bytes.

(** Arithmetic on the lengths of patched buffers. *)
Ltac buf_lia :=
  repeat first [ rewrite length_patch by buf_lia | rewrite length_replicate | rewrite length_be_bytes | progress cbn [length] ]; lia.
