(* ===== verification/FSContainer.v ===== *)
(** * Filesystem containers (kern/src/filesystem/FSContainer.h, FSBlock.h)

    A filesystem sees its storage through a container: it maps a block, works
    on the mapped bytes and unmaps the block with a write-back mode.  The
    operations are an interface; what the header promises about them is the
    class [FSContainerSpec], against which the filesystem is verified.  A disk
    in memory with unreadable blocks implements it. *)

From S2P Require Import Prelude Bytes.

Inductive MapBlock := kMapBlock_ReadOnly | kMapBlock_Update | kMapBlock_Replace | kMapBlock_Cleared.
Inductive WriteBlock := kWriteBlock_None | kWriteBlock_Sync | kWriteBlock_Deferred.

#[export] Instance MapBlock_eq_dec : EqDecision MapBlock.
Proof. solve_decision. Defined.
#[export] Instance WriteBlock_eq_dec : EqDecision WriteBlock.
Proof. solve_decision. Defined.

(** The token of a mapped block is its address; the bytes that the client left
    in the mapped block are passed to the unmap. *)
Class FSContainer (C : Type) := {
  fsc_blockSize : nat;
  FSContainer_MapBlock : Z -> MapBlock -> C -> errno * list Z * C;
  FSContainer_UnmapBlock : Z -> list Z -> WriteBlock -> C -> errno * C;
}.

Definition is_block `{FSContainer C} (d : list Z) : Prop := length d = fsc_blockSize /\ Forall is_byte d.

(** [fsc_data c lba] is the content of block [lba] that the next client sees. *)
Class FSContainerSpec (C : Type) `{FSContainer C} := {
  fsc_ok : C -> Prop;
  fsc_data : C -> Z -> list Z;
  fsc_data_block : forall c lba, fsc_ok c -> is_block (fsc_data c lba);
  fsc_map_ok : forall c lba m d c', fsc_ok c -> FSContainer_MapBlock lba m c = (EOK, d, c') ->
    fsc_ok c' /\ is_block d /\ (forall l, l <> lba -> fsc_data c' l = fsc_data c l) /\
    (m = kMapBlock_ReadOnly \/ m = kMapBlock_Update -> d = fsc_data c lba /\ fsc_data c' lba = fsc_data c lba) /\
    (m = kMapBlock_Cleared -> d = replicate fsc_blockSize 0);
  fsc_map_err : forall c lba m e d c', fsc_ok c -> FSContainer_MapBlock lba m c = (e, d, c') -> e <> EOK ->
    fsc_ok c' /\ forall l, fsc_data c' l = fsc_data c l;
  fsc_unmap : forall c lba d w e c', fsc_ok c -> is_block d -> FSContainer_UnmapBlock lba d w c = (e, c') ->
    fsc_ok c' /\ (forall l, l <> lba -> fsc_data c' l = fsc_data c l) /\
    (w <> kWriteBlock_None -> fsc_data c' lba = d) /\
    (w = kWriteBlock_Deferred -> e = EOK) /\
    (w = kWriteBlock_None -> d = fsc_data c lba -> fsc_data c' lba = d);
}.

(** ** What a client uses *)

Section Client.
Context {C} `{FSContainerSpec C}.

Lemma block_zeros : is_block (replicate fsc_blockSize 0).
Proof. split; [apply length_replicate|]. apply Forall_replicate. unfold is_byte. lia. Qed.

Lemma block_patch off bs d :
  is_block d -> Forall is_byte bs -> (off + length bs <= fsc_blockSize)%nat -> is_block (patch off bs d).
Proof.
  intros [Hl Hb] Hbs Ho. split; [rewrite length_patch; lia|]. by apply Forall_patch.
Qed.

(** Looking at a block changes nothing. *)
Lemma map_read c lba m d c' e c'' :
  fsc_ok c -> m = kMapBlock_ReadOnly \/ m = kMapBlock_Update ->
  FSContainer_MapBlock lba m c = (EOK, d, c') ->
  FSContainer_UnmapBlock lba d kWriteBlock_None c' = (e, c'') ->
  d = fsc_data c lba /\ fsc_ok c'' /\ forall l, fsc_data c'' l = fsc_data c l.
Proof.
  intros Hc Hm H1 H2. destruct (fsc_map_ok c lba m d c' Hc H1) as (Hc' & Hb & Ho & Hr & _).
  destruct (Hr Hm) as [Hd Hd']. destruct (fsc_unmap c' lba d _ e c'' Hc' Hb H2) as (Hc'' & Ho' & _ & _ & Hn).
  split_and!; [done|done|]. intros l. destruct (decide (l = lba)) as [->|Hne].
  - rewrite Hn by congruence. done.
  - rewrite Ho', Ho by done. done.
Qed.

(** Replacing the content of a block changes only this block. *)
Lemma map_write c lba m d c' w e c'' d' :
  fsc_ok c -> FSContainer_MapBlock lba m c = (EOK, d, c') -> is_block d' -> w <> kWriteBlock_None ->
  FSContainer_UnmapBlock lba d' w c' = (e, c'') ->
  fsc_ok c'' /\ fsc_data c'' lba = d' /\ (forall l, l <> lba -> fsc_data c'' l = fsc_data c l) /\
  (w = kWriteBlock_Deferred -> e = EOK).
Proof.
  intros Hc H1 Hd' Hw H2. destruct (fsc_map_ok c lba m d c' Hc H1) as (Hc' & _ & Ho & _).
  destruct (fsc_unmap c' lba d' w e c'' Hc' Hd' H2) as (Hc'' & Ho' & Hs & He & _).
  split_and!; [done|auto| |done]. intros l Hl. by rewrite Ho', Ho.
Qed.
End Client.

(** ** A disk in memory *)

(** The blocks in [md_bad] cannot be mapped. *)
Record memdisk := MD { md_blocks : gmap Z (list Z); md_bad : gset Z }.

Section MemDisk.
Variable bs : nat.

Definition md_data (c : memdisk) (lba : Z) : list Z := default (replicate bs 0) (md_blocks c !! lba).

Definition md_map (lba : Z) (m : MapBlock) (c : memdisk) : errno * list Z * memdisk :=
  if decide (lba ∈ md_bad c) then (EIO, [], c)
  else match m with
       | kMapBlock_Cleared => (EOK, replicate bs 0, c)
       | _ => (EOK, md_data c lba, c)
       end.

Definition md_unmap (lba : Z) (d : list Z) (w : WriteBlock) (c : memdisk) : errno * memdisk :=
  match w with
  | kWriteBlock_None => (EOK, c)
  | _ => (EOK, MD (<[lba := d]> (md_blocks c)) (md_bad c))
  end.

Definition md_ok (c : memdisk) : Prop :=
  map_Forall (fun _ d => length d = bs /\ Forall is_byte d) (md_blocks c).

Lemma md_data_block c lba : md_ok c -> length (md_data c lba) = bs /\ Forall is_byte (md_data c lba).
Proof.
  intros Hc. unfold md_data. destruct (md_blocks c !! lba) as [d|] eqn:E; [by apply (Hc lba d)|].
  simpl. split; [apply length_replicate|]. apply Forall_replicate. unfold is_byte. lia.
Qed.

#[local] Instance mem_container : FSContainer memdisk :=
  {| fsc_blockSize := bs; FSContainer_MapBlock := md_map; FSContainer_UnmapBlock := md_unmap |}.

#[refine] #[local] Instance mem_container_spec : FSContainerSpec memdisk :=
  {| fsc_ok := md_ok; fsc_data := md_data |}.
Proof.
  - apply md_data_block.
  - intros c lba m d c' Hc. cbn. unfold md_map. destruct (decide (lba ∈ md_bad c)); [done|].
    destruct m; intros [= <- <-]; (split_and!; [done| |done| |]; try naive_solver);
      solve [apply (md_data_block c lba Hc)|apply (@block_zeros _ mem_container)].
  - intros c lba m e d c' Hc. cbn. unfold md_map. destruct (decide (lba ∈ md_bad c)); [by intros [= <- <- <-]|].
    destruct m; intros [= <- <- <-]; done.
  - intros c lba d w e c' Hc Hd. cbn. unfold md_unmap.
    assert (Hins : forall l, md_data (MD (<[lba := d]> (md_blocks c)) (md_bad c)) l =
      if decide (l = lba) then d else md_data c l).
    { intros l. unfold md_data. cbn. destruct (decide (l = lba)) as [->|];
        [by rewrite lookup_insert_eq|by rewrite lookup_insert_ne]. }
    destruct w; intros [= <- <-]; split_and!; try done;
      try (by apply map_Forall_insert_2); intros; rewrite ?Hins; repeat case_decide; naive_solver.
Defined.
End MemDisk.

Arguments mem_container_spec : clear implicits.
