(* ===== verification/Disk.v ===== *)
(** * Disk drivers (kern/src/driver/disk/DiskDriver.c, RamDisk.c, RomDisk.c)

    A disk driver moves sectors between a device and the buffers of a request.
    The geometry and the state of the drive are those of the base class; the
    device behind it is an interface, with what DiskDriver.h promises about
    getSector and putSector as its laws.  The RAM disk, which stores only the
    extents that were written to, and the ROM disk implement it. *)

From S2P Require Import Prelude Bytes.

(** ** Addresses and geometry *)

Record chs := CHS { chs_c : Z; chs_h : Z; chs_s : Z }.

#[export] Instance chs_eq_dec : EqDecision chs.
Proof. solve_decision. Defined.

Record SensedDisk := Sensed {
  sd_sectorsPerTrack : Z; sd_heads : Z; sd_cylinders : Z; sd_sectorSize : Z; sd_sectorsPerRdwr : Z; sd_flags : Z }.

Record DiskDriver := Drive {
  sectorsPerTrack : Z; headsPerCylinder : Z; cylindersPerDisk : Z; sectorsPerCylinder : Z;
  sectorCount : Z; sectorSize : Z; sectorsPerRdwr : Z; diskFlags : Z; diskId : Z;
  isChsLinear : bool; isDiskChangeActive : bool; hasDisk : bool }.

Definition DISK_FLAG_READ_ONLY : Z := 2.

Definition DiskDriver_NoteSensedDisk (info : option SensedDisk) (self : DiskDriver) : DiskDriver :=
  match info with
  | Some i =>
      let id := u32 (diskId self + 1) in
      Drive (sd_sectorsPerTrack i) (sd_heads i) (sd_cylinders i) (u32 (sd_heads i * sd_sectorsPerTrack i))
        (u32 (u32 (sd_sectorsPerTrack i * sd_heads i) * sd_cylinders i)) (sd_sectorSize i) (sd_sectorsPerRdwr i)
        (sd_flags i) (if id =? 0 then u32 (id + 1) else id)
        ((sd_heads i =? 1) && (sd_cylinders i =? 1)) false true
  | None => Drive 0 1 1 0 0 0 1 DISK_FLAG_READ_ONLY (diskId self) true false false
  end.

Definition DiskDriver_NoteDiskChanged (self : DiskDriver) : DiskDriver :=
  Drive (sectorsPerTrack self) (headsPerCylinder self) (cylindersPerDisk self) (sectorsPerCylinder self)
    (sectorCount self) (sectorSize self) (sectorsPerRdwr self) (diskFlags self) (diskId self)
    (isChsLinear self) true (hasDisk self).

Definition DiskDriver_LsaToChs (self : DiskDriver) (lsa : Z) : chs :=
  if isChsLinear self then CHS 1 1 lsa
  else CHS (lsa / sectorsPerCylinder self) ((lsa / sectorsPerTrack self) mod headsPerCylinder self)
         (lsa mod sectorsPerTrack self).

Definition DiskDriver_ChsToLsa (self : DiskDriver) (a : chs) : Z :=
  if isChsLinear self then chs_s a
  else u32 (u32 ((u32 (u32 (chs_c a * headsPerCylinder self) + chs_h a)) * sectorsPerTrack self) + chs_s a).

(** ** Devices *)

(** getSector returns the sector or an error and no data. *)
Class SectorDevice (D : Type) := {
  DiskDriver_GetSector : chs -> nat -> D -> errno * list Z;
  DiskDriver_PutSector : chs -> list Z -> D -> errno * D;
}.

(** [dev_data d n a] are the [n] bytes of the sector at [a].  A write that fails
    leaves its own sector in an indeterminate state. *)
Class SectorDeviceSpec (D : Type) `{SectorDevice D} := {
  dev_ok : nat -> D -> Prop;
  dev_valid : D -> chs -> Prop;
  dev_data : nat -> D -> chs -> list Z;
  dev_data_length : forall n d a, dev_ok n d -> dev_valid d a ->
    length (dev_data n d a) = n /\ Forall is_byte (dev_data n d a);
  dev_get : forall n d a bs, dev_ok n d -> dev_valid d a -> DiskDriver_GetSector a n d = (EOK, bs) ->
    bs = dev_data n d a;
  dev_put : forall n d a bs e d', dev_ok n d -> dev_valid d a -> length bs = n -> Forall is_byte bs ->
    DiskDriver_PutSector a bs d = (e, d') ->
    dev_ok n d' /\ (forall a', dev_valid d' a' <-> dev_valid d a') /\
    (e = EOK -> dev_data n d' a = bs) /\
    (forall a', dev_valid d a' -> a' <> a -> dev_data n d' a' = dev_data n d a');
}.

(** ** Requests *)

Inductive IODiskCommand_type :=
| kIODiskCommand_Read | kIODiskCommand_Write | kIODiskCommand_ReadAsync | kIODiskCommand_WriteAsync.

(** [iov_base] is the content of the buffer, which has at least [iov_len] bytes. *)
Record iovec := Iov { iov_base : list Z; iov_len : Z }.

Section Driver.
Context {D} `{SectorDevice D}.

(** The transfer of one sector, between the device and offset [off] of the buffer. *)
Definition rw_sector (ty : IODiskCommand_type) (self : DiskDriver) (lsa : Z) (off : nat) (data : list Z) (d : D)
    : errno * list Z * D :=
  let a := DiskDriver_LsaToChs self lsa in
  let n := Z.to_nat (sectorSize self) in
  if sectorCount self <=? lsa then (ENXIO, data, d)
  else match ty with
       | kIODiskCommand_ReadAsync =>
           let '(e, bs) := DiskDriver_GetSector a n d in (e, if is_ok e then patch off bs data else data, d)
       | kIODiskCommand_WriteAsync =>
           let '(e, d') := DiskDriver_PutSector a (slice off n data) d in (e, data, d')
       | _ => (EIO, data, d)
       end.

(** The state of the loops of _do_rw. *)
Record rw_state := RwState { rw_err : errno; rw_lsa : Z; rw_rlen : Z; rw_dev : D }.

(** [while (size >= self->sectorSize)] *)
Fixpoint rw_iov (fuel : nat) (ty : IODiskCommand_type) (self : DiskDriver) (size : Z) (off : nat) (data : list Z)
    (s : rw_state) : option (list Z * rw_state) :=
  if size <? sectorSize self then Some (data, s)
  else match fuel with
       | O => None
       | S fuel =>
           let '(e, data, d) := rw_sector ty self (rw_lsa s) off data (rw_dev s) in
           if is_ok e
           then rw_iov fuel ty self (size - sectorSize self) (off + Z.to_nat (sectorSize self)) data
                  (RwState EOK (u32 (rw_lsa s + 1)) (rw_rlen s + sectorSize self) d)
           else Some (data, RwState e (rw_lsa s) (rw_rlen s) d)
       end.

(** The checks at the head of the loop over the buffers. *)
Definition rw_check (self : DiskDriver) (offset size : Z) : errno :=
  if size <? 0 then EINVAL
  else if (0 <? size) && (offset <? 0) then EOVERFLOW
  else if isDiskChangeActive self then EDISKCHANGE
  else if negb (hasDisk self) then ENOMEDIUM
  else EOK.

Fixpoint rw_iovs (ty : IODiskCommand_type) (self : DiskDriver) (offset : Z) (iovs : list iovec) (s : rw_state)
    : option (list iovec * rw_state) :=
  match iovs with
  | [] => Some ([], s)
  | v :: vs =>
      if negb (is_ok (rw_err s)) then Some (v :: vs, s)
      else
        let e := rw_check self offset (iov_len v) in
        if is_ok e then
          r ← rw_iov (Z.to_nat (iov_len v)) ty self (iov_len v) 0 (iov_base v) s;
          r' ← rw_iovs ty self offset vs r.2;
          Some (Iov r.1 (iov_len v) :: r'.1, r'.2)
        else Some (v :: vs, RwState e (rw_lsa s) (rw_rlen s) (rw_dev s))
  end.

(** _do_rw: the buffers, the error and the length that the completion or the
    result of the command gets, and the device.  [None] is the division of the
    offset by a sector size of zero. *)
Definition do_rw (ty : IODiskCommand_type) (self : DiskDriver) (offset : Z) (iovs : list iovec) (d : D)
    : option (list iovec * errno * Z * D) :=
  if sectorSize self =? 0 then None
  else
    r ← rw_iovs ty self offset iovs (RwState EOK (u32 (offset ÷ sectorSize self)) 0 d);
    let s := r.2 in
    Some (r.1, if 0 <? rw_rlen s then EOK else rw_err s, rw_rlen s, rw_dev s).

(** DiskDriver_read and DiskDriver_write: the command is executed on the queue of
    the driver and its status, which _do_rw leaves alone, is the result. *)
Definition DiskDriver_rdwr (ty : IODiskCommand_type) (self : DiskDriver) (offset : Z) (buf : list Z) (d : D)
    : option (errno * Z * Z * list Z * D) :=
  r ← do_rw ty self offset [Iov buf (Z.of_nat (length buf))] d;
  let '(iovs, e, rlen, d') := r in
  Some (EOK, rlen, if 0 <? rlen then offset + rlen else offset, default buf (iov_base <$> head iovs), d').

Definition DiskDriver_read := DiskDriver_rdwr kIODiskCommand_Read.
Definition DiskDriver_write := DiskDriver_rdwr kIODiskCommand_Write.

Definition DiskDriver_getSeekableSize (self : DiskDriver) : Z :=
  if isDiskChangeActive self then 0
  else if hasDisk self then sectorCount self * sectorSize self else 0.
End Driver.

(** ** The geometry *)

(** What NoteSensedDisk sets up for a disk whose sectors can be counted. *)
Record drive_ok (self : DiskDriver) : Prop := {
  do_pos : 0 < sectorsPerTrack self /\ 0 < headsPerCylinder self /\ 0 < cylindersPerDisk self /\ 0 < sectorSize self;
  do_cylinder : sectorsPerCylinder self = headsPerCylinder self * sectorsPerTrack self;
  do_count : sectorCount self = sectorsPerTrack self * headsPerCylinder self * cylindersPerDisk self;
  do_range : sectorCount self < 2 ^ 32;
  do_linear : isChsLinear self = true -> headsPerCylinder self = 1 /\ cylindersPerDisk self = 1 }.

Lemma note_sensed_ok i self :
  0 < sd_sectorsPerTrack i -> 0 < sd_heads i -> 0 < sd_cylinders i -> 0 < sd_sectorSize i ->
  sd_sectorsPerTrack i * sd_heads i * sd_cylinders i < 2 ^ 32 ->
  let d := DiskDriver_NoteSensedDisk (Some i) self in
  drive_ok d /\ hasDisk d = true /\ isDiskChangeActive d = false.
Proof.
  intros Ht Hh Hc Hs Hr. assert (sd_sectorsPerTrack i * sd_heads i < 2 ^ 32) by nia.
  split_and!; [|done|done]. split; cbn.
  - done.
  - apply u32_small. nia.
  - rewrite (u32_small (_ * sd_heads i)) by nia. apply u32_small. nia.
  - apply u32_range.
  - rewrite andb_true_iff, !Z.eqb_eq. done.
Qed.

Lemma chs_to_lsa_raw self c h s :
  drive_ok self -> 0 <= c < cylindersPerDisk self -> 0 <= h < headsPerCylinder self -> 0 <= s < sectorsPerTrack self ->
  isChsLinear self = false ->
  DiskDriver_ChsToLsa self (CHS c h s) = (c * headsPerCylinder self + h) * sectorsPerTrack self + s /\
  (c * headsPerCylinder self + h) * sectorsPerTrack self + s < sectorCount self.
Proof.
  intros [(Ht & Hh & Hc & _) _ Hcnt Hr _] Hc' Hh' Hs' Hl.
  assert (Hch : c * headsPerCylinder self + h + 1 <= cylindersPerDisk self * headsPerCylinder self) by nia.
  assert (Hlt : (c * headsPerCylinder self + h) * sectorsPerTrack self + s < sectorCount self) by (rewrite Hcnt; nia).
  split; [|done]. unfold DiskDriver_ChsToLsa. rewrite Hl. cbn.
  assert (c * headsPerCylinder self + h < 2 ^ 32) by nia.
  rewrite (u32_small (c * _)) by nia. rewrite (u32_small (_ + h)) by nia. rewrite (u32_small (_ * _)) by nia.
  apply u32_small. nia.
Qed.

Lemma lsa_to_chs_range self lsa :
  drive_ok self -> 0 <= lsa < sectorCount self -> isChsLinear self = false ->
  let a := DiskDriver_LsaToChs self lsa in
  0 <= chs_c a < cylindersPerDisk self /\ 0 <= chs_h a < headsPerCylinder self /\ 0 <= chs_s a < sectorsPerTrack self.
Proof.
  intros [(Ht & Hh & Hc & _) Hcyl Hcnt _ _] Hlsa Hl. unfold DiskDriver_LsaToChs. rewrite Hl. cbn. split_and!.
  - apply Z.div_pos; nia.
  - apply Z.div_lt_upper_bound; nia.
  - by apply Z.mod_pos_bound.
  - by apply Z.mod_pos_bound.
  - by apply Z.mod_pos_bound.
  - by apply Z.mod_pos_bound.
Qed.

Lemma lsa_chs_lsa self lsa :
  drive_ok self -> 0 <= lsa < sectorCount self -> DiskDriver_ChsToLsa self (DiskDriver_LsaToChs self lsa) = lsa.
Proof.
  intros Hok Hlsa. destruct (isChsLinear self) eqn:Hl.
  { unfold DiskDriver_ChsToLsa, DiskDriver_LsaToChs. by rewrite Hl. }
  pose proof (lsa_to_chs_range self lsa Hok Hlsa Hl) as (Hc & Hh & Hs).
  pose proof Hok as [(Ht & Hh0 & _) Hcyl _ _ _].
  unfold DiskDriver_LsaToChs in *. rewrite Hl in *. cbn in *.
  destruct (chs_to_lsa_raw self _ _ _ Hok Hc Hh Hs Hl) as [-> _].
  rewrite Hcyl, (Z.mul_comm (headsPerCylinder self)), <- Z.div_div by lia.
  pose proof (Z.div_mod (lsa / sectorsPerTrack self) (headsPerCylinder self)).
  pose proof (Z.div_mod lsa (sectorsPerTrack self)). nia.
Qed.

Lemma chs_lsa_chs self c h s :
  drive_ok self -> 0 <= c < cylindersPerDisk self -> 0 <= h < headsPerCylinder self -> 0 <= s < sectorsPerTrack self ->
  isChsLinear self = false ->
  DiskDriver_LsaToChs self (DiskDriver_ChsToLsa self (CHS c h s)) = CHS c h s.
Proof.
  intros Hok Hc Hh Hs Hl. destruct (chs_to_lsa_raw self c h s Hok Hc Hh Hs Hl) as [-> _].
  pose proof Hok as [_ Hcyl _ _ _]. unfold DiskDriver_LsaToChs. rewrite Hl.
  assert (E : ((c * headsPerCylinder self + h) * sectorsPerTrack self + s) / sectorsPerTrack self = c * headsPerCylinder self + h).
  { rewrite Z.div_add_l by lia. rewrite (Z.div_small s) by lia. lia. }
  f_equal.
  - rewrite Hcyl, (Z.mul_comm (headsPerCylinder self)), <- Z.div_div, E by lia.
    rewrite Z.div_add_l by lia. rewrite (Z.div_small h) by lia. lia.
  - rewrite E, Z.add_comm, Z.mod_add by lia. by apply Z.mod_small.
  - rewrite Z.add_comm, Z.mod_add by lia. by apply Z.mod_small.
Qed.

Lemma lsa_to_chs_inj self l1 l2 :
  drive_ok self -> 0 <= l1 < sectorCount self -> 0 <= l2 < sectorCount self ->
  DiskDriver_LsaToChs self l1 = DiskDriver_LsaToChs self l2 -> l1 = l2.
Proof. intros Hok H1 H2 E. rewrite <- (lsa_chs_lsa self l1), <- (lsa_chs_lsa self l2) by done. by rewrite E. Qed.

(** ** Transfers *)

Section Transfer.
Context {D} `{SectorDeviceSpec D}.
Variable self : DiskDriver.
Hypothesis Hdrive : drive_ok self.

Notation ss := (Z.to_nat (sectorSize self)).

(** The device stores every sector of the drive. *)
Definition dev_ready (d : D) : Prop :=
  dev_ok ss d /\ forall lsa, 0 <= lsa < sectorCount self -> dev_valid d (DiskDriver_LsaToChs self lsa).

Definition sector (d : D) (lsa : Z) : list Z := dev_data ss d (DiskDriver_LsaToChs self lsa).

(** The bytes of [n] sectors. *)
Fixpoint sectors (d : D) (lsa : Z) (n : nat) : list Z :=
  match n with O => [] | S n => sector d lsa ++ sectors d (lsa + 1) n end.

Lemma sector_length d lsa : dev_ready d -> 0 <= lsa < sectorCount self -> length (sector d lsa) = ss.
Proof. intros [Hd Hv] Hl. by apply dev_data_length; [|apply Hv]. Qed.

Lemma sectors_length d lsa n :
  dev_ready d -> 0 <= lsa -> lsa + Z.of_nat n <= sectorCount self -> length (sectors d lsa n) = (n * ss)%nat.
Proof.
  intros Hd. revert lsa. induction n as [|n IH]; intros lsa Hz Hn; [done|].
  cbn [sectors]. rewrite length_app, sector_length, IH by (done || lia). lia.
Qed.

Lemma sectors_bytes d lsa n :
  dev_ready d -> 0 <= lsa -> lsa + Z.of_nat n <= sectorCount self -> Forall is_byte (sectors d lsa n).
Proof.
  intros Hd. revert lsa. induction n as [|n IH]; intros lsa Hz Hn; [constructor|].
  cbn [sectors]. apply Forall_app; split; [apply dev_data_length; apply Hd; lia|apply IH; lia].
Qed.

Lemma sectors_ext d d' lsa n :
  (forall l, lsa <= l < lsa + Z.of_nat n -> sector d' l = sector d l) -> sectors d' lsa n = sectors d lsa n.
Proof.
  revert lsa. induction n as [|n IH]; intros lsa E; [done|]. cbn [sectors]. rewrite E by lia. f_equal.
  apply IH. intros l Hl. apply E. lia.
Qed.

Lemma patch_app off a b (l : list Z) :
  (off + length a + length b <= length l)%nat -> patch (off + length a) b (patch off a l) = patch off (a ++ b) l.
Proof.
  intros Hl. apply list_eq. intros i.
  assert (Hpl : length (patch off a l) = length l) by (apply length_patch; lia).
  destruct (decide (i < off)%nat); [rewrite !lookup_patch_out by (rewrite ?length_app; lia); done|].
  destruct (decide (i < off + length a)%nat).
  - rewrite lookup_patch_out, lookup_patch_in, lookup_patch_in by (rewrite ?length_app; lia).
    by rewrite lookup_app_l by lia.
  - destruct (decide (i < off + length a + length b)%nat).
    + rewrite lookup_patch_in, lookup_patch_in by (rewrite ?length_app; lia). rewrite lookup_app_r by lia. f_equal. lia.
    + rewrite !lookup_patch_out by (rewrite ?length_app; lia). done.
Qed.

(** A read stops after [k] sectors or reads all of them. *)
Lemma rw_iov_read n fuel off data s :
  dev_ready (rw_dev s) -> rw_err s = EOK -> 0 <= rw_lsa s -> rw_lsa s + Z.of_nat n <= sectorCount self ->
  (n <= fuel)%nat -> (off + n * ss <= length data)%nat ->
  exists k e, (k <= n)%nat /\ (e = EOK <-> k = n) /\
    rw_iov fuel kIODiskCommand_ReadAsync self (Z.of_nat n * sectorSize self) off data s =
    Some (patch off (sectors (rw_dev s) (rw_lsa s) k) data,
          RwState e (rw_lsa s + Z.of_nat k) (rw_rlen s + Z.of_nat k * sectorSize self) (rw_dev s)).
Proof.
  pose proof Hdrive as [(_ & _ & _ & Hss) _ _ Hr _]. destruct s as [e0 lsa rlen d]; cbn. intros Hd -> Hl Hn Hf Hlen.
  assert (Hnil : patch off [] data = data).
  { unfold patch. cbn. by rewrite Nat.add_0_r, take_drop. }
  revert fuel lsa rlen off data Hl Hn Hf Hlen Hnil. induction n as [|n IH]; intros fuel lsa rlen off data Hl Hn Hf Hlen Hnil.
  { exists O, EOK. split_and!; [done|done|]. destruct fuel; cbn [rw_iov sectors]; rewrite (proj2 (Z.ltb_lt _ _)) by lia;
      rewrite Hnil; cbn; do 3 f_equal; lia. }
  destruct fuel as [|fuel]; [lia|]. cbn [rw_iov]. rewrite (proj2 (Z.ltb_ge _ _)) by nia. cbn [rw_lsa rw_dev].
  unfold rw_sector. rewrite (proj2 (Z.leb_gt _ _)) by lia.
  destruct (DiskDriver_GetSector _ _ d) as [e bs] eqn:Eg. destruct (is_ok e) eqn:Ee; cbn [rw_rlen].
  - apply is_ok_true in Ee as ->.
    apply dev_get in Eg as ->; [|apply Hd|apply Hd; lia]. fold (sector d lsa).
    assert (Hsl : length (sector d lsa) = ss) by (apply sector_length; [done|lia]).
    rewrite u32_small by lia. replace (Z.of_nat (S n) * sectorSize self - sectorSize self) with (Z.of_nat n * sectorSize self) by lia.
    destruct (IH fuel (lsa + 1) (rlen + sectorSize self) (off + ss)%nat (patch off (sector d lsa) data)) as (k & e & Hk & He & ->);
      [lia|lia|lia|rewrite length_patch; lia| |].
    { unfold patch at 1. cbn. by rewrite Nat.add_0_r, take_drop. }
    exists (S k), e. split_and!; [lia|rewrite He; lia|]. cbn [sectors].
    assert (k * ss <= n * ss)%nat by (apply Nat.mul_le_mono_r; lia).
    rewrite <- Hsl at 1. rewrite patch_app by (rewrite Hsl, sectors_length by (done || lia); lia).
    do 3 f_equal; lia.
  - apply is_ok_false in Ee. exists O, e. split_and!; [lia|split; [done|lia]|]. cbn [sectors]. rewrite Hnil. do 3 f_equal; lia.
Qed.

Lemma slice_app off m n (l : list Z) : slice off (m + n) l = slice off m l ++ slice (off + m) n l.
Proof. unfold slice. rewrite <- drop_drop. symmetry. apply take_take_drop. Qed.

(** One sector is written. *)
Lemma put_sector d lsa bs e d' :
  dev_ready d -> 0 <= lsa < sectorCount self -> length bs = ss -> Forall is_byte bs ->
  DiskDriver_PutSector (DiskDriver_LsaToChs self lsa) bs d = (e, d') ->
  dev_ready d' /\ (e = EOK -> sector d' lsa = bs) /\
  forall l, 0 <= l < sectorCount self -> l <> lsa -> sector d' l = sector d l.
Proof.
  intros [Hd Hv] Hl Hbs Hb Hp. destruct (dev_put ss d _ bs e d' Hd (Hv lsa Hl) Hbs Hb Hp) as (Hd' & Hv' & He & Ho).
  split_and!; [|done|].
  - split; [done|]. intros l Hl'. by apply Hv', Hv.
  - intros l Hl' Hne. apply Ho; [by apply Hv|]. intros E. by apply lsa_to_chs_inj in E.
Qed.

(** A write stops in the sector after [k] sectors or writes all of them. *)
Lemma rw_iov_write n fuel off data s :
  dev_ready (rw_dev s) -> rw_err s = EOK -> 0 <= rw_lsa s -> rw_lsa s + Z.of_nat n <= sectorCount self ->
  (n <= fuel)%nat -> (off + n * ss <= length data)%nat -> Forall is_byte data ->
  exists k e d', (k <= n)%nat /\ (e = EOK <-> k = n) /\
    rw_iov fuel kIODiskCommand_WriteAsync self (Z.of_nat n * sectorSize self) off data s =
    Some (data, RwState e (rw_lsa s + Z.of_nat k) (rw_rlen s + Z.of_nat k * sectorSize self) d') /\
    dev_ready d' /\ sectors d' (rw_lsa s) k = slice off (k * ss) data /\
    forall l, 0 <= l < sectorCount self -> l < rw_lsa s \/ rw_lsa s + Z.of_nat n <= l -> sector d' l = sector (rw_dev s) l.
Proof.
  pose proof Hdrive as [(_ & _ & _ & Hss) _ _ Hr _]. destruct s as [e0 lsa rlen d]; cbn. intros Hd -> Hl Hn Hf Hlen Hb.
  revert fuel lsa rlen off d Hd Hl Hn Hf Hlen. induction n as [|n IH]; intros fuel lsa rlen off d Hd Hl Hn Hf Hlen.
  { exists O, EOK, d. split_and!; try done. destruct fuel; cbn [rw_iov]; rewrite (proj2 (Z.ltb_lt _ _)) by lia; do 3 f_equal; lia. }
  destruct fuel as [|fuel]; [lia|]. cbn [rw_iov]. rewrite (proj2 (Z.ltb_ge _ _)) by nia. cbn [rw_lsa rw_dev].
  unfold rw_sector. rewrite (proj2 (Z.leb_gt _ _)) by lia.
  destruct (DiskDriver_PutSector _ _ d) as [e d1] eqn:Ep.
  apply put_sector in Ep as (Hd1 & Hs1 & Ho1); [|done|lia|apply length_slice; lia|by apply Forall_slice].
  destruct (is_ok e) eqn:Ee; cbn [rw_rlen].
  - apply is_ok_true in Ee as ->. rewrite u32_small by lia.
    replace (Z.of_nat (S n) * sectorSize self - sectorSize self) with (Z.of_nat n * sectorSize self) by lia.
    destruct (IH fuel (lsa + 1) (rlen + sectorSize self) (off + ss)%nat d1) as (k & e & d' & Hk & He & -> & Hd' & Hs & Ho);
      [done|lia|lia|lia|lia|].
    exists (S k), e, d'. split_and!; [lia|rewrite He; lia|do 3 f_equal; lia|done| |].
    + cbn [sectors]. rewrite Hs, Ho, Hs1 by (done || lia). by rewrite <- slice_app.
    + intros l Hl' Hout. rewrite Ho, Ho1 by lia. done.
  - apply is_ok_false in Ee. exists O, e, d1. split_and!; [lia|split; [done|lia]|do 3 f_equal; lia|done|done|].
    intros l Hl' Hout. apply Ho1; lia.
Qed.

(** A request for [n] whole sectors in one buffer. *)
Definition drive_loaded : Prop := hasDisk self = true /\ isDiskChangeActive self = false.

Lemma rw_iovs_one ty offset n buf d :
  drive_loaded -> 0 <= offset -> 0 < sectorSize self ->
  rw_iovs ty self offset [Iov buf (Z.of_nat n * sectorSize self)] (RwState EOK (u32 (offset ÷ sectorSize self)) 0 d) =
  r ← rw_iov (Z.to_nat (Z.of_nat n * sectorSize self)) ty self (Z.of_nat n * sectorSize self) 0 buf
        (RwState EOK (u32 (offset ÷ sectorSize self)) 0 d);
  Some ([Iov r.1 (Z.of_nat n * sectorSize self)], r.2).
Proof.
  intros [Hh Hc] Ho Hs. cbn [rw_iovs rw_err]. unfold rw_check. cbn [iov_len iov_base negb is_ok].
  rewrite (proj2 (Z.ltb_ge _ 0)), (proj2 (Z.ltb_ge offset 0)), andb_false_r, Hc, Hh by lia. cbn [negb is_ok]. done.
Qed.

Lemma do_rw_read_block d lsa n buf :
  dev_ready d -> drive_loaded -> 0 <= lsa -> lsa + Z.of_nat n <= sectorCount self -> (0 < n)%nat ->
  (n * ss <= length buf)%nat ->
  exists buf' e rlen,
    do_rw kIODiskCommand_ReadAsync self (lsa * sectorSize self) [Iov buf (Z.of_nat n * sectorSize self)] d =
      Some ([Iov buf' (Z.of_nat n * sectorSize self)], e, rlen, d) /\
    length buf' = length buf /\ (Forall is_byte buf -> Forall is_byte buf') /\
    ((e = EOK /\ rlen = Z.of_nat n * sectorSize self /\ buf' = patch 0 (sectors d lsa n) buf) \/
     rlen < Z.of_nat n * sectorSize self).
Proof.
  pose proof Hdrive as [(_ & _ & _ & Hss) _ _ Hr _]. intros Hd Hld Hl Hn Hpos Hlen.
  unfold do_rw. rewrite (proj2 (Z.eqb_neq _ 0)) by lia. rewrite rw_iovs_one by (done || nia).
  rewrite Z.quot_mul, u32_small by lia.
  destruct (rw_iov_read n (Z.to_nat (Z.of_nat n * sectorSize self)) 0 buf (RwState EOK lsa 0 d)) as (k & e & Hk & He & E);
    cbn; [done|done|done|done|nia|done|].
  cbn in E. rewrite (bind_some E). cbn. eexists _, _, _. split; [done|].
  assert (k * ss <= n * ss)%nat by (apply Nat.mul_le_mono_r; lia).
  assert (Hsl : length (sectors d lsa k) = (k * ss)%nat) by (apply sectors_length; [done|lia|lia]).
  split_and!.
  - apply length_patch. lia.
  - intros Hb. apply Forall_patch; [done|]. apply sectors_bytes; [done|lia|lia].
  - destruct (decide (k = n)) as [->|Hne]; [left|right; nia].
    split_and!; [|lia|done]. rewrite (proj2 (Z.ltb_lt 0 _)) by nia. done.
Qed.

Lemma do_rw_write_block d lsa n buf :
  dev_ready d -> drive_loaded -> 0 <= lsa -> lsa + Z.of_nat n <= sectorCount self -> (0 < n)%nat ->
  (n * ss <= length buf)%nat -> Forall is_byte buf ->
  exists e rlen d',
    do_rw kIODiskCommand_WriteAsync self (lsa * sectorSize self) [Iov buf (Z.of_nat n * sectorSize self)] d =
      Some ([Iov buf (Z.of_nat n * sectorSize self)], e, rlen, d') /\
    dev_ready d' /\
    (forall l, 0 <= l < sectorCount self -> l < lsa \/ lsa + Z.of_nat n <= l -> sector d' l = sector d l) /\
    ((e = EOK /\ rlen = Z.of_nat n * sectorSize self /\ sectors d' lsa n = slice 0 (n * ss) buf) \/
     rlen < Z.of_nat n * sectorSize self).
Proof.
  pose proof Hdrive as [(_ & _ & _ & Hss) _ _ Hr _]. intros Hd Hld Hl Hn Hpos Hlen Hb.
  unfold do_rw. rewrite (proj2 (Z.eqb_neq _ 0)) by lia. rewrite rw_iovs_one by (done || nia).
  rewrite Z.quot_mul, u32_small by lia.
  destruct (rw_iov_write n (Z.to_nat (Z.of_nat n * sectorSize self)) 0 buf (RwState EOK lsa 0 d))
    as (k & e & d' & Hk & He & E & Hd' & Hs & Ho); cbn; [done|done|done|done|nia|done|done|].
  cbn in *. rewrite (bind_some E). cbn. eexists _, _, _. split_and!; [done|done|done|].
  destruct (decide (k = n)) as [->|Hne]; [left|right; nia].
  split_and!; [|lia|done]. rewrite (proj2 (Z.ltb_lt 0 _)) by nia. done.
Qed.
End Transfer.

(** ** What a driver promises *)

(** What a write request of whole sectors stores is what a later read request
    for these sectors returns: if the write transferred everything and the read
    does, the read succeeds and its buffer is the buffer of the write; and the
    write changes no other sector, even if it fails. *)
Theorem driver_write_read_back {D} `{SectorDeviceSpec D} (self : DiskDriver) (d : D) lsa n buf buf0 iovs e rlen d' :
  drive_ok self -> drive_loaded self -> dev_ready self d ->
  0 <= lsa -> lsa + Z.of_nat n <= sectorCount self -> (0 < n)%nat ->
  length buf = (n * Z.to_nat (sectorSize self))%nat -> length buf0 = length buf -> Forall is_byte buf ->
  do_rw kIODiskCommand_WriteAsync self (lsa * sectorSize self) [Iov buf (Z.of_nat n * sectorSize self)] d =
    Some (iovs, e, rlen, d') ->
  (forall l, 0 <= l < sectorCount self -> l < lsa \/ lsa + Z.of_nat n <= l -> sector self d' l = sector self d l) /\
  exists iovs2 e2 rlen2,
    do_rw kIODiskCommand_ReadAsync self (lsa * sectorSize self) [Iov buf0 (Z.of_nat n * sectorSize self)] d' =
      Some (iovs2, e2, rlen2, d') /\
    (rlen = Z.of_nat n * sectorSize self -> rlen2 = Z.of_nat n * sectorSize self ->
     e = EOK /\ e2 = EOK /\ iovs2 = [Iov buf (Z.of_nat n * sectorSize self)]).
Proof.
  intros Hdr Hld Hd Hl Hn Hpos Hb Hb0 Hby Hw.
  destruct (do_rw_write_block self Hdr d lsa n buf) as (e1 & r1 & d1 & E1 & Hd1 & Ho & Hc1); try done; [lia|].
  rewrite E1 in Hw. injection Hw as <- <- <- <-. split; [done|].
  destruct (do_rw_read_block self Hdr d1 lsa n buf0) as (b2 & e2 & r2 & E2 & Hlb & _ & Hc2); try done; [lia|].
  eexists _, _, _. split; [done|]. intros Hr1 Hr2.
  destruct Hc1 as [(-> & _ & Hs)|?]; [|lia]. destruct Hc2 as [(-> & _ & ->)|?]; [|lia]. split_and!; [done|done|].
  rewrite Hs, <- Hb. unfold slice. rewrite drop_0, take_ge by lia. by rewrite patch_all.
Qed.

(** DiskDriver_read and DiskDriver_write execute commands that _do_rw does not
    know: nothing is transferred and the call reports success. *)
Lemma sync_rdwr_transfers_nothing {D} `{SectorDevice D} (self : DiskDriver) (d : D) ty offset buf r :
  ty = kIODiskCommand_Read \/ ty = kIODiskCommand_Write -> 0 < sectorSize self ->
  DiskDriver_rdwr ty self offset buf d = Some r -> r = (EOK, 0, offset, buf, d).
Proof.
  intros Hty Hs. unfold DiskDriver_rdwr, do_rw. rewrite (proj2 (Z.eqb_neq _ 0)) by lia. cbn [rw_iovs rw_err is_ok negb].
  destruct (is_ok (rw_check self offset _)); [|cbn; congruence]. cbn [iov_len iov_base].
  assert (E : forall fuel s, rw_rlen s = 0 -> rw_dev s = d ->
    rw_iov fuel ty self (Z.of_nat (length buf)) 0 buf s = None \/
    exists s', rw_iov fuel ty self (Z.of_nat (length buf)) 0 buf s = Some (buf, s') /\ rw_rlen s' = 0 /\ rw_dev s' = d).
  { intros [|fuel] s Hr Hd; cbn [rw_iov]; (destruct (_ <? _); [right; by exists s|]); [by left|]. right.
    unfold rw_sector. destruct (_ <=? _); [|destruct Hty as [-> | ->]]; cbn; eexists; split_and!; done. }
  destruct (E (Z.to_nat (Z.of_nat (length buf))) (RwState EOK (u32 (offset ÷ sectorSize self)) 0 d)) as [->|(s' & -> & Hr & Hd)];
    [done|done|done|]. cbn. rewrite Hr, Hd. cbn. by intros [= <-].
Qed.

(** A request to a drive without a disk divides by the sector size of zero before
    it looks at the state of the drive. *)
Lemma no_disk_divides_by_zero {D} `{SectorDevice D} (self : DiskDriver) ty offset iovs (d : D) :
  do_rw ty (DiskDriver_NoteSensedDisk None self) offset iovs d = None.
Proof. done. Qed.
