(* ===== verification/RamDisk.v ===== *)
(** * RAM disk and ROM disk (kern/src/driver/disk/RamDisk.c, RomDisk.c)

    The RAM disk stores its sectors in extents of a fixed number of sectors that
    are allocated when one of their sectors is written for the first time, in a
    list that is sorted by the first sector.  It implements the device interface
    of Disk.v: a sector holds what was last written to it.  This needs a disk
    that was formatted with zeros, because a new extent is cleared with zeros
    whatever byte the disk was formatted with. *)

From S2P Require Import Prelude Bytes ExtBit Disk.
From Stdlib Require Import Sorting.Sorted.

Record DiskExtent := Ext { firstSectorIndex : Z; ext_data : list Z }.

Record RamDisk := RamD {
  extents : list DiskExtent; extentSectorCount : Z; rd_sectorCount : Z; sectorShift : Z; rd_sectorSize : Z;
  fillByte : Z }.

(** The error or the disk; the inner option is the loop of log2 that never ends. *)
Definition RamDisk_Create (secSize secCount extCount : Z) : errno + option RamDisk :=
  if negb (ispow2_ul secSize) then inl EINVAL
  else inr (k ← log2_ul secSize; Some (RamD [] (Z.min extCount secCount) secCount k secSize 0)).

Definition RamDisk_start (self : RamDisk) : DiskDriver -> DiskDriver :=
  DiskDriver_NoteSensedDisk (Some (Sensed (rd_sectorCount self) 1 1 (rd_sectorSize self) 1 0)).

(** The number of extents before the sector and the extent of the sector. *)
Fixpoint RamDisk_GetDiskExtentForSectorIndex (cnt lba : Z) (l : list DiskExtent) : nat * option DiskExtent :=
  match l with
  | [] => (O, None)
  | it :: l =>
      if (firstSectorIndex it <=? lba) && (lba <? u32 (firstSectorIndex it + cnt)) then (O, Some it)
      else if lba <? firstSectorIndex it then (O, None)
      else let '(n, r) := RamDisk_GetDiskExtentForSectorIndex cnt lba l in (S n, r)
  end.

Definition sector_offset (self : RamDisk) (e : DiskExtent) (s : Z) : nat :=
  Z.to_nat (Z.shiftl (s - firstSectorIndex e) (sectorShift self)).

Definition RamDisk_getSector (a : chs) (n : nat) (self : RamDisk) : errno * list Z :=
  match (RamDisk_GetDiskExtentForSectorIndex (extentSectorCount self) (chs_s a) (extents self)).2 with
  | Some e => (EOK, slice (sector_offset self e (chs_s a)) n (ext_data e))
  | None => (EOK, replicate n (fillByte self))
  end.

Definition set_extents (l : list DiskExtent) (self : RamDisk) : RamDisk :=
  RamD l (extentSectorCount self) (rd_sectorCount self) (sectorShift self) (rd_sectorSize self) (fillByte self).

(** RamDisk_AddExtentAfter_Locked after the first [i] extents. *)
Definition RamDisk_AddExtentAfter (i : nat) (first : Z) (self : RamDisk) : DiskExtent * RamDisk :=
  let e := Ext first (replicate (Z.to_nat (Z.shiftl (extentSectorCount self) (sectorShift self))) 0) in
  (e, set_extents (take i (extents self) ++ e :: drop i (extents self)) self).

Definition RamDisk_doFormatDisk (fill : Z) (self : RamDisk) : RamDisk :=
  RamD [] (extentSectorCount self) (rd_sectorCount self) (sectorShift self) (rd_sectorSize self) fill.

Section RamDisk.
(** Whether the allocation of an extent succeeds. *)
Variable can_alloc : RamDisk -> bool.

Definition RamDisk_putSector (a : chs) (data : list Z) (self : RamDisk) : errno * RamDisk :=
  let '(i, r) := RamDisk_GetDiskExtentForSectorIndex (extentSectorCount self) (chs_s a) (extents self) in
  let put e self :=
    set_extents (<[i := Ext (firstSectorIndex e) (patch (sector_offset self e (chs_s a)) data (ext_data e))]> (extents self)) self in
  match r with
  | Some e => (EOK, put e self)
  | None =>
      if can_alloc self then
        let '(e, self) := RamDisk_AddExtentAfter i (chs_s a / extentSectorCount self * extentSectorCount self) self in
        (EOK, put e self)
      else (ENOMEM, self)
  end.

#[local] Instance ram_device : SectorDevice RamDisk :=
  {| DiskDriver_GetSector := RamDisk_getSector; DiskDriver_PutSector := RamDisk_putSector |}.

(** ** The extents *)

(** The extents start at the multiples [qs] of the size of an extent. *)
Definition aligned (cnt : Z) (l : list DiskExtent) (qs : list Z) : Prop :=
  firstSectorIndex <$> l = (fun q => q * cnt) <$> qs /\ StronglySorted Z.lt qs /\ Forall (fun q => 0 <= q) qs.

Definition ram_ok (n : nat) (self : RamDisk) : Prop :=
  Z.of_nat n = 2 ^ sectorShift self /\ 0 <= sectorShift self /\ 0 < extentSectorCount self /\
  rd_sectorCount self + extentSectorCount self < 2 ^ 32 /\ fillByte self = 0 /\
  (exists qs, aligned (extentSectorCount self) (extents self) qs) /\
  Forall (fun e => firstSectorIndex e < rd_sectorCount self /\
                   length (ext_data e) = (Z.to_nat (extentSectorCount self) * n)%nat /\ Forall is_byte (ext_data e))
    (extents self).

Definition ram_valid (self : RamDisk) (a : chs) : Prop :=
  chs_c a = 1 /\ chs_h a = 1 /\ 0 <= chs_s a < rd_sectorCount self.

Lemma find_extent_spec cnt lba l qs :
  0 < cnt -> 0 <= lba -> aligned cnt l qs -> Forall (fun e => firstSectorIndex e + cnt < 2 ^ 32) l ->
  let '(i, r) := RamDisk_GetDiskExtentForSectorIndex cnt lba l in
  Forall (fun q => q < lba / cnt) (take i qs) /\
  match r with
  | Some e => l !! i = Some e /\ qs !! i = Some (lba / cnt) /\ firstSectorIndex e = lba / cnt * cnt
  | None => Forall (fun q => lba / cnt < q) (drop i qs) /\ (i <= length qs)%nat
  end.
Proof.
  intros Hc Hl [Hm [Hs Hp]]. revert l Hm. induction qs as [|q qs IH]; intros [|e l] Hm Hb; try done.
  cbn [fmap list_fmap] in Hm. injection Hm as He Hm. apply StronglySorted_inv in Hs as [Hs Hq]. apply Forall_cons in Hp as [Hp0 Hp].
  apply Forall_cons in Hb as [Hb0 Hb]. cbn [RamDisk_GetDiskExtentForSectorIndex]. rewrite He, u32_small by nia.
  pose proof (Z.div_mod lba cnt ltac:(lia)). pose proof (Z.mod_pos_bound lba cnt Hc).
  destruct ((q * cnt <=? lba) && (lba <? q * cnt + cnt)) eqn:E1.
  - apply andb_true_iff in E1 as [E1%Z.leb_le E2%Z.ltb_lt]. assert (lba / cnt = q) as -> by (symmetry; apply Z.div_unique_pos with (lba - q * cnt); lia).
    repeat split; [constructor|done].
  - destruct (Z.ltb_spec lba (q * cnt)) as [E2|E2].
    + repeat split; [constructor| |cbn; lia]. assert (lba / cnt < q) by (apply Z.div_lt_upper_bound; lia).
      constructor; [done|]. eapply Forall_impl; [exact Hq|]. cbn. lia.
    + apply andb_false_iff in E1 as [E1%Z.leb_gt|E1%Z.ltb_ge]; [lia|].
      assert (q + 1 <= lba / cnt) by (apply Z.div_le_lower_bound; lia).
      specialize (IH Hs Hp l Hm Hb). destruct (RamDisk_GetDiskExtentForSectorIndex cnt lba l) as [i [e'|]]; cbn.
      * destruct IH as (IH1 & IH2 & IH3). split; [constructor; [lia|done]|done].
      * destruct IH as (IH1 & IH2 & IH3). split_and!; [constructor; [lia|done]|done|lia].
Qed.

Lemma sorted_lt_NoDup qs : StronglySorted Z.lt qs -> NoDup qs.
Proof.
  induction 1 as [|q qs Hs IH Hq]; constructor; [|done]. intros Hin. rewrite Forall_forall in Hq. specialize (Hq q Hin). lia.
Qed.

Notation find_extent self lba := (RamDisk_GetDiskExtentForSectorIndex (extentSectorCount self) lba (extents self)).

(** The extent of a sector is the one that starts at its multiple of the size. *)
Lemma find_extent_elem n self lba e :
  ram_ok n self -> 0 <= lba < rd_sectorCount self ->
  (find_extent self lba).2 = Some e <->
  e ∈ extents self /\ firstSectorIndex e = lba / extentSectorCount self * extentSectorCount self.
Proof.
  intros (_ & _ & Hc & Hr & _ & [qs Ha] & Hf) Hl.
  assert (Hb : Forall (fun e => firstSectorIndex e + extentSectorCount self < 2 ^ 32) (extents self)).
  { eapply Forall_impl; [exact Hf|]. cbn. lia. }
  pose proof (find_extent_spec _ lba _ qs Hc (proj1 Hl) Ha Hb) as Hs. destruct Ha as [Hm [Hst Hp]].
  assert (Hin : forall e, e ∈ extents self -> firstSectorIndex e = lba / extentSectorCount self * extentSectorCount self ->
    exists j, extents self !! j = Some e /\ qs !! j = Some (lba / extentSectorCount self)).
  { intros x [j Hj]%list_elem_of_lookup Hx. exists j. split; [done|].
    assert (Hq : (firstSectorIndex <$> extents self) !! j = Some (firstSectorIndex x)) by (by rewrite list_lookup_fmap, Hj).
    rewrite Hm, list_lookup_fmap in Hq. destruct (qs !! j) as [q|]; [|done]. cbn in Hq. injection Hq as Hq. f_equal. nia. }
  destruct (find_extent self lba) as [i [e'|]]; cbn.
  - destruct Hs as (_ & Hli & Hqi & Hfe). split; [intros [= <-]; split; [by eapply list_elem_of_lookup_2|done]|].
    intros [He Hfe']. destruct (Hin e He Hfe') as (j & Hj & Hqj).
    assert (i = j) as -> by (eapply (NoDup_lookup qs); [by apply sorted_lt_NoDup|done|done]). congruence.
  - destruct Hs as (Hlt & Hgt & Hi). split; [done|]. intros [He Hfe']. destruct (Hin e He Hfe') as (j & _ & Hqj).
    rewrite Forall_lookup in Hlt, Hgt. destruct (decide (j < i)%nat) as [Hj|Hj].
    + specialize (Hlt j (lba / extentSectorCount self)). rewrite lookup_take_lt in Hlt by done. specialize (Hlt Hqj). lia.
    + specialize (Hgt (j - i)%nat (lba / extentSectorCount self)). rewrite lookup_drop in Hgt.
      replace (i + (j - i))%nat with j in Hgt by lia. specialize (Hgt Hqj). lia.
Qed.

(** The extent list after a write: the extent of the sector is new or updated. *)
Inductive put_extent (self : RamDisk) (s : Z) (data : list Z) : list DiskExtent -> Prop :=
| pe_update l1 e l2 : extents self = l1 ++ e :: l2 ->
    firstSectorIndex e = s / extentSectorCount self * extentSectorCount self ->
    put_extent self s data (l1 ++ Ext (firstSectorIndex e) (patch (sector_offset self e s) data (ext_data e)) :: l2)
| pe_new l1 l2 e : extents self = l1 ++ l2 ->
    e = Ext (s / extentSectorCount self * extentSectorCount self)
            (replicate (Z.to_nat (Z.shiftl (extentSectorCount self) (sectorShift self))) 0) ->
    (find_extent self s).2 = None ->
    (exists qs1 qs2, aligned (extentSectorCount self) (l1 ++ l2) (qs1 ++ qs2) /\ length qs1 = length l1 /\
       Forall (fun q => q < s / extentSectorCount self) qs1 /\ Forall (fun q => s / extentSectorCount self < q) qs2) ->
    put_extent self s data (l1 ++ Ext (firstSectorIndex e) (patch (sector_offset self e s) data (ext_data e)) :: l2).

Lemma put_sector_extents n self a data e self' :
  ram_ok n self -> ram_valid self a -> RamDisk_putSector a data self = (e, self') ->
  (e = ENOMEM /\ self' = self) \/
  (e = EOK /\ exists l, put_extent self (chs_s a) data l /\ self' = set_extents l self).
Proof.
  intros Hok (_ & _ & Hs). pose proof Hok as (_ & _ & Hc & Hr & _ & [qs Ha] & Hf). unfold RamDisk_putSector.
  assert (Hb : Forall (fun e => firstSectorIndex e + extentSectorCount self < 2 ^ 32) (extents self)).
  { eapply Forall_impl; [exact Hf|]. cbn. lia. }
  pose proof (find_extent_spec _ (chs_s a) _ qs Hc (proj1 Hs) Ha Hb) as Hfs.
  destruct (find_extent self (chs_s a)) as [i [x|]] eqn:Ef.
  - destruct Hfs as (_ & Hli & _ & Hfx). intros [= <- <-]. right. split; [done|]. eexists; split; [|done].
    apply list_elem_of_split_length in Hli as (l1 & l2 & El & Hi). rewrite El, Hi.
    rewrite insert_app_r_alt by lia. rewrite Nat.sub_diag. cbn. by apply pe_update.
  - destruct Hfs as (Hlt & Hgt & Hi). destruct (can_alloc self); [|intros [= <- <-]; by left].
    intros [= <- <-]. right. split; [done|].
    assert (Hlen : length qs = length (extents self)).
    { destruct Ha as [Hm _]. apply (f_equal length) in Hm. by rewrite !length_fmap in Hm. }
    set (x := Ext (chs_s a / extentSectorCount self * extentSectorCount self)
                  (replicate (Z.to_nat (Z.shiftl (extentSectorCount self) (sectorShift self))) 0)).
    exists (take i (extents self) ++ Ext (firstSectorIndex x) (patch (sector_offset self x (chs_s a)) data (ext_data x)) :: drop i (extents self)).
    split.
    + apply pe_new; [by rewrite take_drop|done|by rewrite Ef|].
      exists (take i qs), (drop i qs). rewrite !take_drop. split_and!; [done| |done|done]. rewrite !length_take. lia.
    + unfold set_extents. cbn. f_equal. rewrite insert_app_r_alt by (rewrite length_take; lia).
      rewrite length_take, Nat.min_l, Nat.sub_diag by lia. done.
Qed.

Lemma sector_offset_eq n self e s :
  ram_ok n self -> firstSectorIndex e = s / extentSectorCount self * extentSectorCount self ->
  sector_offset self e s = (Z.to_nat (s mod extentSectorCount self) * n)%nat /\
  (sector_offset self e s + n <= Z.to_nat (extentSectorCount self) * n)%nat.
Proof.
  intros (Hn & Hsh & Hc & _) He. unfold sector_offset. rewrite He, Z.shiftl_mul_pow2, <- Hn by done.
  replace (s - s / extentSectorCount self * extentSectorCount self) with (s mod extentSectorCount self) by (rewrite Z.mod_eq by lia; lia).
  pose proof (Z.mod_pos_bound s (extentSectorCount self) Hc). rewrite Z2Nat.inj_mul, Nat2Z.id by lia.
  split; [done|]. assert (S (Z.to_nat (s mod extentSectorCount self)) <= Z.to_nat (extentSectorCount self))%nat by lia. nia.
Qed.

Lemma sorted_insert qs1 q qs2 :
  StronglySorted Z.lt (qs1 ++ qs2) -> Forall (fun x => x < q) qs1 -> Forall (fun x => q < x) qs2 ->
  StronglySorted Z.lt (qs1 ++ q :: qs2).
Proof.
  induction qs1 as [|x qs1 IH]; cbn; intros Hs H1 H2; [by constructor|].
  apply StronglySorted_inv in Hs as [Hs Hx]. apply Forall_cons in H1 as [Hxq H1]. constructor; [by apply IH|].
  apply Forall_app in Hx as [Hx1 Hx2]. apply Forall_app; split; [done|]. by constructor.
Qed.

Lemma put_extent_ok n self s data l :
  ram_ok n self -> 0 <= s < rd_sectorCount self -> length data = n -> Forall is_byte data ->
  put_extent self s data l -> ram_ok n (set_extents l self).
Proof.
  intros Hok Hs Hd Hb Hp. pose proof Hok as (Hn & Hsh & Hc & Hr & Hfill & [qs Ha] & Hf).
  assert (Hq : 0 <= s / extentSectorCount self) by (apply Z.div_pos; lia).
  assert (Hle : s / extentSectorCount self * extentSectorCount self <= s) by (rewrite Z.mul_comm; apply Z.mul_div_le; lia).
  destruct Hp as [l1 e l2 El He|l1 l2 e El -> Hno (qs1 & qs2 & [Hm [Hss Hp]] & Hlen & H1 & H2)]; rewrite El in *;
    (repeat split; cbn; try done); cbn [fmap list_fmap] in *.
  - exists qs. destruct Ha as [Hm Hss]. split; [|done]. rewrite <- Hm, !fmap_app. done.
  - rewrite Forall_app, Forall_cons in Hf |- *. destruct Hf as (Hf1 & (Hfe & Hle' & Hbe) & Hf2). split_and!; try done.
    + cbn. rewrite length_patch; [done|]. destruct (sector_offset_eq n self e s Hok He). lia.
    + cbn. by apply Forall_patch.
  - exists (qs1 ++ s / extentSectorCount self :: qs2). rewrite fmap_app in Hm. rewrite (fmap_app _ qs1 qs2) in Hm.
    apply app_inj_1 in Hm as [Hm1 Hm2]; [|by rewrite !length_fmap]. apply Forall_app in Hp as [Hp1 Hp2].
    split_and!; [|by apply sorted_insert|by apply Forall_app; split; [|constructor]].
    rewrite !fmap_app, !fmap_cons. cbn. by rewrite Hm1, Hm2.
  - rewrite Forall_app in Hf. destruct Hf as [Hf1 Hf2]. rewrite Forall_app, Forall_cons. cbn.
    assert (Hz : length (replicate (Z.to_nat (Z.shiftl (extentSectorCount self) (sectorShift self))) 0) =
                 (Z.to_nat (extentSectorCount self) * n)%nat).
    { rewrite length_replicate, Z.shiftl_mul_pow2, <- Hn, Z2Nat.inj_mul, Nat2Z.id by lia. done. }
    split_and!; try done; [lia| |].
    + rewrite length_patch; [done|]. rewrite Hz. destruct (sector_offset_eq n self (Ext _ []) s Hok eq_refl) as [_ Ho]. cbn in Ho.
      unfold sector_offset in *. cbn in *. lia.
    + apply Forall_patch; [|done]. apply Forall_replicate. unfold is_byte. lia.
Qed.

(** The extent that a write leaves behind, and the others. *)
Lemma put_extent_elem self s data l :
  put_extent self s data l ->
  exists base, let f := s / extentSectorCount self * extentSectorCount self in
    Ext f (patch (sector_offset self (Ext f base) s) data base) ∈ l /\
    (forall e, firstSectorIndex e <> f -> e ∈ l <-> e ∈ extents self) /\
    (Ext f base ∈ extents self \/
     ((find_extent self s).2 = None /\
      base = replicate (Z.to_nat (Z.shiftl (extentSectorCount self) (sectorShift self))) 0)).
Proof.
  intros [l1 e l2 El He|l1 l2 e El -> Hno _].
  - exists (ext_data e). destruct e as [f d]. cbn in *. subst f. rewrite El. split_and!.
    + apply elem_of_app. right. left.
    + intros x Hx. rewrite !elem_of_app, !elem_of_cons. split; intros [?|[->|?]]; auto; done.
    + left. apply elem_of_app. right. left.
  - eexists. split_and!; [| |by right].
    + apply elem_of_app. right. left.
    + cbn. intros x Hx. rewrite El, !elem_of_app, elem_of_cons. split; [intros [?|[->|?]]; auto; done|tauto].
Qed.

Lemma option_ext {A} (x y : option A) : (forall a, x = Some a <-> y = Some a) -> x = y.
Proof.
  intros E. destruct x as [a|]; [symmetry; by apply E|]. destruct y as [b|]; [|done]. by destruct (proj2 (E b) eq_refl).
Qed.

Notation rd_sector n self s := (RamDisk_getSector (CHS 1 1 s) n self).2.

Lemma get_put n self s data l s' :
  ram_ok n self -> 0 <= s < rd_sectorCount self -> 0 <= s' < rd_sectorCount self ->
  length data = n -> Forall is_byte data -> put_extent self s data l ->
  rd_sector n (set_extents l self) s' = if decide (s' = s) then data else rd_sector n self s'.
Proof.
  intros Hok Hs Hs' Hd Hb Hp. pose proof (put_extent_ok n self s data l Hok Hs Hd Hb Hp) as Hok'.
  destruct (put_extent_elem self s data l Hp) as (base & Hin & Hoth & Hbase). cbn in Hin, Hoth, Hbase.
  set (c := extentSectorCount self) in *. set (f := s / c * c) in *. unfold RamDisk_getSector. cbn [chs_s].
  destruct (decide (s' / c = s / c)) as [Eq|Nq].
  - (* the same extent *)
    assert (Ef : s' / c * c = f) by (unfold f; by rewrite Eq).
    rewrite (proj2 (find_extent_elem n _ s' _ Hok' Hs') (conj Hin (eq_sym Ef))). cbn [ext_data].
    destruct (sector_offset_eq n self (Ext f base) s Hok eq_refl) as [O1 B1].
    destruct (sector_offset_eq n self (Ext f base) s' Hok) as [O2 B2]; [by cbn; rewrite <- Ef|].
    replace (sector_offset _ _ s') with (sector_offset self (Ext f base) s') by done.
    assert (Hlen : length base = (Z.to_nat c * n)%nat).
    { pose proof Hok as (Hn & Hsh & Hc & _ & _ & _ & Hf). destruct Hbase as [Hbase|[_ ->]].
      - rewrite Forall_forall in Hf. by apply (Hf _ Hbase).
      - rewrite length_replicate, Z.shiftl_mul_pow2, <- Hn, Z2Nat.inj_mul, Nat2Z.id by lia. done. }
    case_decide as E; [subst s'; rewrite <- Hd at 1; apply slice_patch_same; fold c in B1; lia|].
    assert (Hm : Z.to_nat (s' mod c) <> Z.to_nat (s mod c)).
    { pose proof Hok as (_ & _ & Hc & _). fold c in Hc. rewrite !Z.mod_eq by lia. rewrite Eq.
      pose proof (Z.mod_pos_bound s c Hc). pose proof (Z.mod_pos_bound s' c Hc). rewrite !Z.mod_eq in * by lia. rewrite Eq in *. lia. }
    fold c in B1, B2, O1, O2. rewrite slice_patch_other by (rewrite ?Hd; rewrite ?O1, ?O2 in *; nia).
    destruct Hbase as [Hbase|[Hno ->]].
    + rewrite (proj2 (find_extent_elem n self s' (Ext f base) Hok Hs')); [done|]. by split.
    + destruct (find_extent self s').2 as [x|] eqn:Ex; cbn [snd].
      * apply (find_extent_elem n self s' x Hok Hs') in Ex as [Hx Hfx]. fold c in Hfx. rewrite Eq in Hfx.
        pose proof (proj2 (find_extent_elem n self s x Hok Hs) (conj Hx Hfx)) as Hy. unfold c in Hno. congruence.
      * pose proof Hok as (_ & _ & _ & _ & -> & _). unfold slice. rewrite drop_replicate, take_replicate. f_equal.
        rewrite length_replicate in Hlen. lia.
  - (* another extent *)
    assert (s' <> s) by (intros ->; done). rewrite decide_False by done.
    assert (Hc : 0 < c) by apply Hok.
    replace ((RamDisk_GetDiskExtentForSectorIndex _ s' (extents (set_extents l self))).2) with (find_extent self s').2; [done|].
    apply option_ext. intros x. rewrite (find_extent_elem n self s' x Hok Hs'), (find_extent_elem n _ s' x Hok' Hs'). cbn. fold c.
    split; intros [Hx Hfx]; (split; [|done]); apply Hoth; try done; rewrite Hfx; unfold f; nia.
Qed.

Lemma get_sector_length n self a :
  ram_ok n self -> ram_valid self a ->
  length (RamDisk_getSector a n self).2 = n /\ Forall is_byte (RamDisk_getSector a n self).2.
Proof.
  intros Hok (_ & _ & Hs). pose proof Hok as (_ & _ & _ & _ & Hfill & _ & Hf). unfold RamDisk_getSector.
  destruct (find_extent self (chs_s a)).2 as [e|] eqn:E; cbn.
  - apply (find_extent_elem n self (chs_s a) e Hok Hs) in E as [Hin He].
    rewrite Forall_forall in Hf. destruct (Hf e Hin) as (_ & Hl & Hb). destruct (sector_offset_eq n self e (chs_s a) Hok He) as [_ Ho].
    split; [apply length_slice; lia|by apply Forall_slice].
  - rewrite length_replicate. split; [done|]. apply Forall_replicate. rewrite Hfill. unfold is_byte. lia.
Qed.

#[refine] #[local] Instance ram_device_spec : SectorDeviceSpec RamDisk :=
  {| dev_ok := ram_ok; dev_valid := ram_valid; dev_data := fun n d a => (RamDisk_getSector a n d).2 |}.
Proof.
  - intros n d a. apply get_sector_length.
  - intros n d a bs _ _ E. cbn in E. by rewrite E.
  - intros n d a bs e d' Hok Hv Hl Hb Hp. cbn in Hp.
    destruct (put_sector_extents n d a bs e d' Hok Hv Hp) as [[-> ->]|[-> (l & Hpe & ->)]]; [done|].
    destruct a as [c h s]. destruct Hv as (Hc & Hh & Hs). cbn in Hc, Hh, Hs. subst c h.
    split_and!; [by eapply put_extent_ok|done| |].
    + intros _. cbn. rewrite (get_put n d s bs l s) by done. by rewrite decide_True.
    + intros [c' h' s'] (Hc' & Hh' & Hs') Hne. cbn in *. subst c' h'.
      rewrite (get_put n d s bs l s') by done. rewrite decide_False; [done|]. congruence.
Defined.

(** ** What the RAM disk stores *)

(** The disk after a sequence of writes, and the sectors that were written. *)
Fixpoint run_puts (ops : list (Z * list Z)) (self : RamDisk) (m : gmap Z (list Z)) : RamDisk * gmap Z (list Z) :=
  match ops with
  | [] => (self, m)
  | (s, data) :: ops =>
      let '(e, self') := RamDisk_putSector (CHS 1 1 s) data self in
      run_puts ops self' (if is_ok e then <[s := data]> m else m)
  end.

Lemma run_puts_spec n ops self m :
  ram_ok n self -> Forall (fun op => 0 <= op.1 < rd_sectorCount self /\ length op.2 = n /\ Forall is_byte op.2) ops ->
  (forall s, 0 <= s < rd_sectorCount self -> rd_sector n self s = default (replicate n 0) (m !! s)) ->
  let '(self', m') := run_puts ops self m in
  forall s, 0 <= s < rd_sectorCount self -> rd_sector n self' s = default (replicate n 0) (m' !! s).
Proof.
  revert self m. induction ops as [|[s data] ops IH]; intros self m Hok Hops Hm; [done|].
  apply Forall_cons in Hops as [(Hs & Hl & Hb) Hops]. cbn [run_puts].
  destruct (RamDisk_putSector (CHS 1 1 s) data self) as [e self1] eqn:Ep.
  apply (put_sector_extents n self (CHS 1 1 s) data e self1 Hok) in Ep; [|split_and!; cbn in *; (done || lia)].
  destruct Ep as [[-> ->]|[-> (l & Hpe & ->)]]; cbn [is_ok chs_s] in *; [by apply IH|].
  apply (IH (set_extents l self)); [by eapply put_extent_ok|done|].
  intros s' Hs'. cbn in Hs'. rewrite (get_put n self s data l s') by done. case_decide as E.
  - subst. by rewrite lookup_insert_eq.
  - rewrite lookup_insert_ne by done. by apply Hm.
Qed.

Lemma create_ok secSize secCount extCount self :
  0 < secSize < 2 ^ 32 -> 0 < extCount -> 0 < secCount -> secCount + Z.min extCount secCount < 2 ^ 32 ->
  RamDisk_Create secSize secCount extCount = inr (Some self) ->
  ram_ok (Z.to_nat secSize) self /\ rd_sectorCount self = secCount /\ rd_sectorSize self = secSize /\ extents self = [].
Proof.
  intros Hss He Hc Hr. unfold RamDisk_Create. destruct (ispow2_ul secSize) eqn:Ep; [|done].
  apply ispow2_ul_spec in Ep as [k [Hk ->]]; [|lia]. unfold negb.
  rewrite (bind_some (log2_ul_pow2 k Hk)). intros [= <-]. split_and!; try done. unfold ram_ok. cbn. split_and!; try done; try lia.
  exists []. repeat split; constructor.
Qed.

(** C34. A RAM disk is an array of sectors: after any sequence of writes, some of
    which may fail because memory is exhausted, every sector reads as what the
    last successful write to it stored, or as zeros if there was none, whatever
    extents the writes allocated and in whatever order. *)
Theorem ram_disk_stores secSize secCount extCount self ops s :
  0 < secSize < 2 ^ 32 -> 0 < extCount -> 0 < secCount -> secCount + Z.min extCount secCount < 2 ^ 32 ->
  RamDisk_Create secSize secCount extCount = inr (Some self) ->
  Forall (fun op => 0 <= op.1 < secCount /\ length op.2 = Z.to_nat secSize /\ Forall is_byte op.2) ops ->
  0 <= s < secCount ->
  let '(self', m) := run_puts ops self ∅ in
  RamDisk_getSector (CHS 1 1 s) (Z.to_nat secSize) self' = (EOK, default (replicate (Z.to_nat secSize) 0) (m !! s)).
Proof.
  intros Hss He Hc Hr Hcr Hops Hs. destruct (create_ok secSize secCount extCount self Hss He Hc Hr Hcr) as (Hok & Ec & _ & Eext).
  pose proof (run_puts_spec (Z.to_nat secSize) ops self ∅ Hok) as Hp. rewrite Ec in Hp. specialize (Hp Hops).
  destruct (run_puts ops self ∅) as [self' m]. rewrite <- Hp; [|intros s' Hs'|done].
  - unfold RamDisk_getSector. by case_match.
  - unfold RamDisk_getSector. rewrite Eext, lookup_empty. cbn. pose proof Hok as (_ & _ & _ & _ & -> & _). done.
Qed.
End RamDisk.

Lemma ram_disk_stores_witness :
  let '(d, m) := run_puts (fun _ => true) [(9, replicate 16 7); (2, replicate 16 5); (9, replicate 16 8)]
                   (RamD [] 4 12 4 16 0) ∅ in
  RamDisk_getSector (CHS 1 1 9) 16 d = (EOK, replicate 16 8).
Proof.
  apply (ram_disk_stores (fun _ => true) 16 12 4 (RamD [] 4 12 4 16 0)
           [(9, replicate 16 7); (2, replicate 16 5); (9, replicate 16 8)] 9); try lia; [reflexivity|].
  repeat (constructor; [cbn; unfold is_byte; split_and!; try lia; repeat (constructor; [lia|]); constructor|]). constructor.
Defined.

(** A disk that was formatted with another byte than zero shows zeros in the
    sectors next to a sector that is written for the first time. *)
Lemma format_fill_lost :
  let d := RamDisk_doFormatDisk 0xe5 (RamD [] 4 12 4 16 0) in
  RamDisk_getSector (CHS 1 1 1) 16 d = (EOK, replicate 16 0xe5) /\
  RamDisk_getSector (CHS 1 1 1) 16 (RamDisk_putSector (fun _ => true) (CHS 1 1 0) (replicate 16 1) d).2 = (EOK, replicate 16 0).
Proof. split; reflexivity. Qed.

(** ** ROM disk *)

Record RomDisk := RomD { diskImage : list Z; rom_sectorCount : Z; rom_sectorShift : Z; rom_sectorSize : Z }.

Definition RomDisk_Create (image : list Z) (secSize secCount : Z) : errno + option RomDisk :=
  if negb (ispow2_ul secSize) then inl EINVAL
  else inr (k ← log2_ul secSize; Some (RomD image secCount k secSize)).

Definition RomDisk_start (self : RomDisk) : DiskDriver -> DiskDriver :=
  DiskDriver_NoteSensedDisk (Some (Sensed (rom_sectorCount self) 1 1 (rom_sectorSize self) 1 DISK_FLAG_READ_ONLY)).

Definition RomDisk_getSector (a : chs) (n : nat) (self : RomDisk) : errno * list Z :=
  (EOK, slice (Z.to_nat (Z.shiftl (chs_s a) (rom_sectorShift self))) n (diskImage self)).

(** putSector of the base class. *)
Definition DiskDriver_putSector {D} (a : chs) (data : list Z) (self : D) : errno * D := (EIO, self).

#[export] Instance rom_device : SectorDevice RomDisk :=
  {| DiskDriver_GetSector := RomDisk_getSector; DiskDriver_PutSector := DiskDriver_putSector |}.

Definition rom_ok (n : nat) (self : RomDisk) : Prop :=
  Z.of_nat n = 2 ^ rom_sectorShift self /\ 0 <= rom_sectorShift self /\
  (Z.to_nat (rom_sectorCount self) * n <= length (diskImage self))%nat /\ Forall is_byte (diskImage self).

#[refine] #[export] Instance rom_device_spec : SectorDeviceSpec RomDisk :=
  {| dev_ok := rom_ok;
     dev_valid := fun d a => 0 <= chs_s a < rom_sectorCount d;
     dev_data := fun n d a => (RomDisk_getSector a n d).2 |}.
Proof.
  - intros n d a (Hn & Hs & Hl & Hb) Ha. cbn. rewrite Z.shiftl_mul_pow2, <- Hn, Z2Nat.inj_mul, Nat2Z.id by lia.
    split; [|by apply Forall_slice]. apply length_slice.
    assert (S (Z.to_nat (chs_s a)) <= Z.to_nat (rom_sectorCount d))%nat by lia. nia.
  - intros n d a bs _ _ [= <-]. done.
  - intros n d a bs e d' Hd Ha _ _ [= <- <-]. split_and!; try done.
Defined.

(** Requests to a RAM disk of 12 sectors of two bytes. *)
Definition ram_sample : RamDisk := RamD [] 4 12 1 2 0.
Definition ram_sample_drive : DiskDriver := Drive 12 1 1 12 12 2 1 0 1 true false true.

Lemma ram_sample_ready :
  drive_ok ram_sample_drive /\ @dev_ready _ _ (ram_device_spec (fun _ => true)) ram_sample_drive ram_sample.
Proof.
  split; [split; cbn; lia|]. split; [|intros lsa Hl; cbn in Hl; repeat split; cbn; lia].
  unfold dev_ok, ram_device_spec, ram_ok; cbn. split_and!; try done; [exists []; repeat split; constructor].
Qed.

#[local] Instance ram_sample_device : SectorDevice RamDisk := ram_device (fun _ => true).

Lemma driver_write_read_back_witness :
  let d' := RamD [Ext 0 [0; 0; 0; 0; 7; 8; 9; 10]] 4 12 1 2 0 in
  do_rw kIODiskCommand_WriteAsync ram_sample_drive (2 * 2) [Iov [7; 8; 9; 10] (2 * 2)] ram_sample =
    Some ([Iov [7; 8; 9; 10] (2 * 2)], EOK, 4, d') /\
  exists iovs2 e2 rlen2,
    do_rw kIODiskCommand_ReadAsync ram_sample_drive (2 * 2) [Iov [0; 0; 0; 0] (2 * 2)] d' = Some (iovs2, e2, rlen2, d') /\
    (4 = 2 * 2 -> rlen2 = 2 * 2 -> EOK = EOK /\ e2 = EOK /\ iovs2 = [Iov [7; 8; 9; 10] (2 * 2)]).
Proof.
  intros d'. assert (Hw : do_rw kIODiskCommand_WriteAsync ram_sample_drive (2 * 2) [Iov [7; 8; 9; 10] (2 * 2)] ram_sample =
    Some ([Iov [7; 8; 9; 10] (2 * 2)], EOK, 4, d')) by (vm_compute; reflexivity).
  split; [exact Hw|].
  refine (proj2 (driver_write_read_back (H0 := ram_device_spec (fun _ => true))
    ram_sample_drive ram_sample 2 2 [7; 8; 9; 10] [0; 0; 0; 0] [Iov [7; 8; 9; 10] (2 * 2)] EOK 4 d'
    (proj1 ram_sample_ready) (conj eq_refl eq_refl) (proj2 ram_sample_ready) _ _ _ eq_refl eq_refl _ Hw)).
  - lia.
  - cbn. lia.
  - lia.
  - repeat (constructor; [unfold is_byte; lia|]). constructor.
Defined.
