(* ===== verification/DiskCache.v ===== *)
(** * The disk cache (kern/src/diskcache)

    Blocks of all disks are kept in one cache: a hash table by disk address, an
    LRU chain, and for each block a shared/exclusive lock on its content.  All
    of this is protected by the interlock; a call drops the interlock where it
    waits for a block, for the content lock of a block, for the request object
    of its session, or for the disk.  Each function here runs under the
    interlock and stops where the call waits; a call that waits tries again
    when it is woken, and waking it at other times does no harm because every
    wait is a loop.

    This file has the operations.  DiskCacheInv.v has the hash table and the
    search for a block, DiskCacheSys.v the invariant of a cache with the calls
    that use it, DiskCacheCalls.v what each call does to it, and DiskCacheThm.v
    the transition system of all calls with its theorems. *)

From S2P Require Import Prelude Bytes ExtBit FSContainer Disk.

(** ** Data *)

Inductive DiskBlockOp := kDiskBlockOp_Idle | kDiskBlockOp_Read | kDiskBlockOp_Write.
Inductive LockMode := kLockMode_Shared | kLockMode_Exclusive.

#[export] Instance DiskBlockOp_eq_dec : EqDecision DiskBlockOp.
Proof. solve_decision. Defined.
#[export] Instance LockMode_eq_dec : EqDecision LockMode.
Proof. solve_decision. Defined.

Record DiskBlock := Blk {
  b_sessionId : Z; b_lba : Z; shareCount : Z;
  exclusive : bool; hasData : bool; isDirty : bool; isPinned : bool;
  op : DiskBlockOp; async : bool; readError : errno; data : list Z }.

(** Updates of the groups of fields that change together. *)
Definition set_lock (x : bool) (n : Z) (b : DiskBlock) : DiskBlock :=
  Blk (b_sessionId b) (b_lba b) n x (hasData b) (isDirty b) (isPinned b) (op b) (async b) (readError b) (data b).
Definition set_data (h : bool) (d : list Z) (b : DiskBlock) : DiskBlock :=
  Blk (b_sessionId b) (b_lba b) (shareCount b) (exclusive b) h (isDirty b) (isPinned b) (op b) (async b) (readError b) d.
Definition set_dirty (x : bool) (b : DiskBlock) : DiskBlock :=
  Blk (b_sessionId b) (b_lba b) (shareCount b) (exclusive b) (hasData b) x (isPinned b) (op b) (async b) (readError b) (data b).
Definition set_pinned (x : bool) (b : DiskBlock) : DiskBlock :=
  Blk (b_sessionId b) (b_lba b) (shareCount b) (exclusive b) (hasData b) (isDirty b) x (op b) (async b) (readError b) (data b).
Definition set_op (o : DiskBlockOp) (a : bool) (e : errno) (b : DiskBlock) : DiskBlock :=
  Blk (b_sessionId b) (b_lba b) (shareCount b) (exclusive b) (hasData b) (isDirty b) (isPinned b) o a e (data b).
Definition set_address (sid lba : Z) (b : DiskBlock) : DiskBlock :=
  Blk sid lba (shareCount b) (exclusive b) (hasData b) (isDirty b) (isPinned b) (op b) (async b) (readError b) (data b).

Definition DiskBlock_InUse (b : DiskBlock) : bool := (0 <? shareCount b) || exclusive b.
Definition DISK_BLOCK_HASH_CHAIN_COUNT : nat := 8.
Definition DiskBlock_HashKey (sid lba : Z) : Z := u32 (u32 sid + u32 lba).
Definition hash_index (sid lba : Z) : nat := Z.to_nat (Z.land (DiskBlock_HashKey sid lba) 7).
Definition DiskBlock_IsEqualKey (b : DiskBlock) (sid lba : Z) : bool := (b_sessionId b =? sid) && (b_lba b =? lba).

(** DiskBlock_Create: cleared memory with the address. *)
Definition DiskBlock_Create (sid lba : Z) (size : nat) : DiskBlock :=
  Blk sid lba 0 false false false false kDiskBlockOp_Idle false EOK (replicate size 0).

(** Blocks are addressed by where they are in memory. *)
Notation blkref := positive.

(** The request object: the type, the count and the array of blocks, which keeps
    the entries of earlier requests; an entry that was never set is [None].  The
    I/O vector points to the data of the blocks. *)
Record DiskOp := Dop {
  dop_write : bool; dop_cnt : nat; dop_blk : list (option blkref); dop_offset : Z;
  dop_queued : bool  (* the request is on the queue of the driver *) }.

Section Cache.
Context {D} `{SectorDevice D}.

(** A session owns one request object, which is in [dopsCache] or is in use by
    the request that is on the queue of the driver. *)
Record DiskSession := Ses {
  s_disk : DiskDriver; s_dev : D; sessionId : Z; s_sectorSize : Z; s2bFactor : Z; trailPadSize : Z; rwClusterSize : Z;
  activeMappingsCount : Z; dop : DiskOp; dopInUse : bool; isOpen : bool; wantsDop : bool }.

Record DiskCache := DC {
  nextAvailSessionId : Z; lruChainGeneration : Z; lruChain : list blkref;
  blockSize : nat; blockCount : Z; blockCapacity : Z; dirtyBlockCount : Z;
  diskAddrHash : list (list blkref);
  blocks : gmap blkref DiskBlock;
  sessions : gmap positive DiskSession }.

Definition upd_block (b : blkref) (f : DiskBlock -> DiskBlock) (c : DiskCache) : DiskCache :=
  DC (nextAvailSessionId c) (lruChainGeneration c) (lruChain c) (blockSize c) (blockCount c) (blockCapacity c)
    (dirtyBlockCount c) (diskAddrHash c) (alter f b (blocks c)) (sessions c).
Definition upd_session (s : positive) (f : DiskSession -> DiskSession) (c : DiskCache) : DiskCache :=
  DC (nextAvailSessionId c) (lruChainGeneration c) (lruChain c) (blockSize c) (blockCount c) (blockCapacity c)
    (dirtyBlockCount c) (diskAddrHash c) (blocks c) (alter f s (sessions c)).
Definition set_chains (lru : list blkref) (hash : list (list blkref)) (c : DiskCache) : DiskCache :=
  DC (nextAvailSessionId c) (u32 (lruChainGeneration c + 1)) lru (blockSize c) (blockCount c) (blockCapacity c)
    (dirtyBlockCount c) hash (blocks c) (sessions c).
Definition set_dirtyCount (n : Z) (c : DiskCache) : DiskCache :=
  DC (nextAvailSessionId c) (lruChainGeneration c) (lruChain c) (blockSize c) (blockCount c) (blockCapacity c)
    n (diskAddrHash c) (blocks c) (sessions c).

Definition set_mappings (n : Z) (s : DiskSession) : DiskSession :=
  Ses (s_disk s) (s_dev s) (sessionId s) (s_sectorSize s) (s2bFactor s) (trailPadSize s) (rwClusterSize s)
    n (dop s) (dopInUse s) (isOpen s) (wantsDop s).
Definition set_dop (d : DiskOp) (u w : bool) (s : DiskSession) : DiskSession :=
  Ses (s_disk s) (s_dev s) (sessionId s) (s_sectorSize s) (s2bFactor s) (trailPadSize s) (rwClusterSize s)
    (activeMappingsCount s) d u (isOpen s) w.
Definition set_dev (d : D) (s : DiskSession) : DiskSession :=
  Ses (s_disk s) d (sessionId s) (s_sectorSize s) (s2bFactor s) (trailPadSize s) (rwClusterSize s)
    (activeMappingsCount s) (dop s) (dopInUse s) (isOpen s) (wantsDop s).

(** [None]: a failed assertion. *)
Definition DiskCache_Create (size : nat) (maxBlockCount : Z) : option DiskCache :=
  if ispow2_ul (Z.of_nat size) && (0 <? maxBlockCount)
  then Some (DC 1 0 [] size 0 maxBlockCount 0 (replicate DISK_BLOCK_HASH_CHAIN_COUNT []) ∅ ∅)
  else None.

(** ** The lock on the content of a block *)

(** One round of the loop: whether the lock was taken; otherwise the call waits. *)
Definition LockBlockContent (b : blkref) (mode : LockMode) (c : DiskCache) : option (bool * DiskCache) :=
  blk ← blocks c !! b;
  match mode with
  | kLockMode_Shared =>
      if negb (exclusive blk) then Some (true, upd_block b (set_lock (exclusive blk) (shareCount blk + 1)) c)
      else Some (false, c)
  | kLockMode_Exclusive =>
      if negb (exclusive blk) && (shareCount blk =? 0) then Some (true, upd_block b (set_lock true (shareCount blk)) c)
      else Some (false, c)
  end.

(** [None] is the abort on a lock that is not held. *)
Definition UnlockBlockContent (b : blkref) (c : DiskCache) : option DiskCache :=
  blk ← blocks c !! b;
  if exclusive blk then Some (upd_block b (set_lock false (shareCount blk)) c)
  else if 0 <? shareCount blk then Some (upd_block b (set_lock false (shareCount blk - 1)) c)
  else None.

Definition assert_exclusive (b : blkref) (c : DiskCache) : option unit :=
  blk ← blocks c !! b; if exclusive blk then Some tt else None.
Definition assert_shared (b : blkref) (c : DiskCache) : option unit :=
  blk ← blocks c !! b; if (0 <? shareCount blk) && negb (exclusive blk) then Some tt else None.

Definition DowngradeBlockContentLock (b : blkref) (c : DiskCache) : option DiskCache :=
  assert_exclusive b c ;; blk ← blocks c !! b; Some (upd_block b (set_lock false (shareCount blk + 1)) c).

(** ** Getting and putting blocks *)

(** [deque_remove] of a member of the chain. *)
Fixpoint ref_remove (b : blkref) (l : list blkref) : list blkref :=
  match l with [] => [] | x :: l => if decide (x = b) then l else x :: ref_remove b l end.

Definition RegisterBlock (b : blkref) (c : DiskCache) : option DiskCache :=
  blk ← blocks c !! b;
  Some (set_chains (b :: lruChain c) (alter (cons b) (hash_index (b_sessionId blk) (b_lba blk)) (diskAddrHash c)) c).

Definition DeregisterBlock (b : blkref) (c : DiskCache) : option DiskCache :=
  blk ← blocks c !! b;
  Some (set_chains (ref_remove b (lruChain c))
          (alter (ref_remove b) (hash_index (b_sessionId blk) (b_lba blk)) (diskAddrHash c)) c).

(** [mem] tells whether the allocation succeeds. *)
Definition CreateBlock (mem : bool) (sid lba : Z) (c : DiskCache) : option (errno * option blkref * DiskCache) :=
  if mem then
    let b := fresh (dom (blocks c)) in
    let c := DC (nextAvailSessionId c) (lruChainGeneration c) (lruChain c) (blockSize c) (blockCount c) (blockCapacity c)
               (dirtyBlockCount c) (diskAddrHash c) (<[b := DiskBlock_Create sid lba (blockSize c)]> (blocks c)) (sessions c) in
    c ← RegisterBlock b c;
    Some (EOK, Some b, DC (nextAvailSessionId c) (lruChainGeneration c) (lruChain c) (blockSize c) (blockCount c + 1)
            (blockCapacity c) (dirtyBlockCount c) (diskAddrHash c) (blocks c) (sessions c))
  else Some (ENOMEM, None, c).

(** A block that can be given to another disk address. *)
Definition reusable (blk : DiskBlock) : bool :=
  negb (DiskBlock_InUse blk) && negb (isDirty blk) && negb (isPinned blk).

(** The search in the given order; [None] inside is a dangling pointer. *)
Fixpoint find_reusable (m : gmap blkref DiskBlock) (l : list blkref) : option (option blkref) :=
  match l with
  | [] => Some None
  | b :: l => blk ← m !! b; if reusable blk then Some (Some b) else find_reusable m l
  end.

Definition ReuseCachedBlock (sid lba : Z) (c : DiskCache) : option (option blkref * DiskCache) :=
  r ← find_reusable (blocks c) (reverse (lruChain c));
  match r with
  | None => Some (None, c)
  | Some b =>
      c ← DeregisterBlock b c;
      let c := upd_block b (fun blk => set_data false (replicate (blockSize c) 0) (set_address sid lba blk)) c in
      c ← RegisterBlock b c;
      Some (Some b, c)
  end.

Fixpoint find_block (m : gmap blkref DiskBlock) (sid lba : Z) (l : list blkref) : option (option blkref) :=
  match l with
  | [] => Some None
  | b :: l => blk ← m !! b; if DiskBlock_IsEqualKey blk sid lba then Some (Some b) else find_block m sid lba l
  end.

Definition kGetBlock_RecentUse : Z := 1.
Definition kGetBlock_Allocate : Z := 2.
Definition kGetBlock_Exclusive : Z := 4.
Definition has_opt (options o : Z) : bool := Z.land options o =? o.

(** The end of _DiskCache_GetBlock for the block that was found or made. *)
Definition get_block_end (options : Z) (e : errno) (r : option blkref) (c : DiskCache)
    : option (errno * option blkref * DiskCache) :=
  match r with
  | None => Some (e, None, c)
  | Some b =>
      blk ← blocks c !! b;
      if has_opt options kGetBlock_Exclusive && DiskBlock_InUse blk then Some (e, None, c)
      else if has_opt options kGetBlock_RecentUse
           then Some (e, Some b, set_chains (b :: ref_remove b (lruChain c)) (diskAddrHash c) c)
           else Some (e, Some b, c)
  end.

(** One round of _DiskCache_GetBlock; the inner [None] means that the call waits. *)
Definition GetBlock (mem : bool) (sid lba options : Z) (c : DiskCache)
    : option (option (errno * option blkref * DiskCache)) :=
  r ← find_block (blocks c) sid lba (default [] (diskAddrHash c !! hash_index sid lba));
  if bool_decide (is_Some r) || negb (has_opt options kGetBlock_Allocate)
  then x ← get_block_end options EOK r c; Some (Some x)
  else if blockCount c <? blockCapacity c then
    y ← CreateBlock mem sid lba c;
    x ← get_block_end options y.1.1 y.1.2 y.2; Some (Some x)
  else
    y ← ReuseCachedBlock sid lba c;
    match y.1 with
    | Some b => x ← get_block_end options EOK (Some b) y.2; Some (Some x)
    | None => Some None
    end.

Definition PutBlock (b : blkref) (c : DiskCache) : option DiskCache :=
  blk ← blocks c !! b;
  if negb (DiskBlock_InUse blk) && negb (bool_decide (op blk = kDiskBlockOp_Idle)) then None else Some c.

Definition UnlockContentAndPutBlock (b : blkref) (c : DiskCache) : option DiskCache :=
  c ← UnlockBlockContent b c; PutBlock b c.

(** ** Disk requests *)

(** _DiskCache_AcquireDiskOp: one round; [false]: the call waits. *)
Definition AcquireDiskOp (s : positive) (c : DiskCache) : option (bool * DiskCache) :=
  ses ← sessions c !! s;
  if dopInUse ses then Some (false, upd_session s (set_dop (dop ses) true true) c)
  else Some (true, upd_session s (set_dop (dop ses) true false) c).

Definition RelinquishDiskOp (s : positive) (c : DiskCache) : DiskCache :=
  upd_session s (fun ses => set_dop (Dop (dop_write (dop ses)) (dop_cnt (dop ses)) (dop_blk (dop ses)) (dop_offset (dop ses)) false)
                              false (wantsDop ses) ses) c.

(** What became of the start of a request. *)
Inductive io_result := IoErr (e : errno) | IoStarted | IoWaitDop | IoWaitCluster (i idx : nat).

(** The request goes to the queue of the driver, which may refuse it with [e0]. *)
Definition queue_request (e0 : errno) (s : positive) (c : DiskCache) : io_result * DiskCache :=
  if is_ok e0
  then (IoStarted, upd_session s (fun ses => set_dop (Dop (dop_write (dop ses)) (dop_cnt (dop ses)) (dop_blk (dop ses))
                                                        (dop_offset (dop ses)) true) (dopInUse ses) (wantsDop ses) ses) c)
  else (IoErr e0, c).

Definition set_dop_blk (idx : nat) (b : blkref) (ses : DiskSession) : DiskSession :=
  set_dop (Dop (dop_write (dop ses)) (dop_cnt (dop ses)) (<[idx := Some b]> (dop_blk (dop ses))) (dop_offset (dop ses))
             (dop_queued (dop ses))) (dopInUse ses) (wantsDop ses) ses.

Definition lba_offset (ses : DiskSession) (lba : Z) : Z := u32 (u32 (lba * s2bFactor ses) * s_sectorSize ses).

Definition cluster_lba (ses : DiskSession) (lba : Z) : Z :=
  if 1 <? rwClusterSize ses
  then u32 (u32 (lba * s2bFactor ses) / rwClusterSize ses * rwClusterSize ses) / s2bFactor ses
  else lba.

(** The loop over the blocks of the cluster from [i] on; [inr (i, idx)]: the call
    waits for a block. *)
Fixpoint cluster_loop (n : nat) (mem isSync : bool) (s : positive) (b : blkref) (start : Z) (i idx : nat) (c : DiskCache)
    : option (DiskCache + nat * nat * DiskCache) :=
  match n with
  | O => Some (inl c)
  | S n =>
      ses ← sessions c !! s;
      blk ← blocks c !! b;
      let lba := u32 (start + Z.of_nat i) in
      if lba =? b_lba blk then
        cluster_loop n mem isSync s b start (S i) (S idx)
          (upd_session s (set_dop_blk idx b) (upd_block b (set_op kDiskBlockOp_Read (negb isSync) EOK) c))
      else
        g ← GetBlock mem (sessionId ses) lba (Z.lor kGetBlock_Allocate kGetBlock_Exclusive) c;
        match g with
        | None => Some (inr (i, idx, c))
        | Some (e, r, c) =>
            other ← r;
            oblk ← blocks c !! other;
            if is_ok e then
              if negb (hasData oblk) && negb (bool_decide (op oblk = kDiskBlockOp_Read)) then
                l ← LockBlockContent other kLockMode_Exclusive c;
                assert_exclusive other l.2 ;;
                cluster_loop n mem isSync s b start (S i) (S idx)
                  (upd_session s (set_dop_blk idx other) (upd_block other (set_op kDiskBlockOp_Read true EOK) l.2))
              else cluster_loop n mem isSync s b start (S i) idx c
            else c ← PutBlock other c; cluster_loop n mem isSync s b start (S i) idx c
        end
  end.

(** _DiskCache_StartReadOp from position [i] of the cluster on, and its end. *)
Definition start_read_from (e0 : errno) (mem isSync : bool) (s : positive) (b : blkref) (i idx : nat) (c : DiskCache)
    : option (io_result * DiskCache) :=
  ses ← sessions c !! s;
  blk ← blocks c !! b;
  r ← cluster_loop (Z.to_nat (rwClusterSize ses) - i) mem isSync s b (cluster_lba ses (b_lba blk)) i idx c;
  match r with
  | inl c => Some (queue_request e0 s c)
  | inr (i, idx, c) => Some (IoWaitCluster i idx, c)
  end.

Definition StartReadOp (e0 : errno) (mem isSync : bool) (s : positive) (b : blkref) (c : DiskCache)
    : option (io_result * DiskCache) :=
  a ← AcquireDiskOp s c;
  let c := a.2 in
  if a.1 : bool then
    ses ← sessions c !! s;
    blk ← blocks c !! b;
    let d := Dop false (Z.to_nat (rwClusterSize ses)) (dop_blk (dop ses)) (lba_offset ses (cluster_lba ses (b_lba blk))) false in
    start_read_from e0 mem isSync s b 0 0 (upd_session s (set_dop d true (wantsDop ses)) c)
  else Some (IoWaitDop, c).

Definition StartWriteOp (e0 : errno) (isSync : bool) (s : positive) (b : blkref) (c : DiskCache)
    : option (io_result * DiskCache) :=
  a ← AcquireDiskOp s c;
  let c := a.2 in
  if a.1 : bool then
    ses ← sessions c !! s;
    blk ← blocks c !! b;
    let d := Dop true 1 (<[0%nat := Some b]> (dop_blk (dop ses))) (lba_offset ses (b_lba blk)) false in
    let c := upd_session s (set_dop d true (wantsDop ses)) (upd_block b (set_op kDiskBlockOp_Write (negb isSync) EOK) c) in
    Some (queue_request e0 s c)
  else Some (IoWaitDop, c).

(** _DiskCache_DoIO up to its wait; [IoStarted] also when the call joins a request
    that is under way. *)
Definition DoIO (e0 : errno) (mem : bool) (s : positive) (b : blkref) (o : DiskBlockOp) (isSync : bool) (c : DiskCache)
    : option (io_result * DiskCache) :=
  blk ← blocks c !! b;
  if bool_decide (op blk <> kDiskBlockOp_Idle /\ op blk <> o) then None
  else if bool_decide (o = kDiskBlockOp_Write) && isPinned blk then Some (IoErr ENXIO, c)
  else if bool_decide (op blk = o) then Some (IoStarted, c)
  else match o with
       | kDiskBlockOp_Read => StartReadOp e0 mem isSync s b c
       | kDiskBlockOp_Write => StartWriteOp e0 isSync s b c
       | kDiskBlockOp_Idle => None
       end.

(** _DiskCache_WaitIO: whether the wait is over. *)
Definition io_over (b : blkref) (o : DiskBlockOp) (c : DiskCache) : option bool :=
  blk ← blocks c !! b; Some (negb (bool_decide (op blk = o))).

(** ** Completion *)

Definition OnBlockRequestDone (b : blkref) (write : bool) (status : errno) (c : DiskCache) : option DiskCache :=
  blk ← blocks c !! b;
  c' ← (if write
        then assert_shared b c ;;
             Some (if is_ok status && isDirty blk
                   then set_dirtyCount (dirtyBlockCount c - 1) (upd_block b (set_dirty false) c) else c)
        else assert_exclusive b c ;;
             Some (if is_ok status then upd_block b (fun x => set_data true (data x) x) c else c));
  let c' := upd_block b (fun x => set_op kDiskBlockOp_Idle false (if write then readError x else status) x) c' in
  if async blk then UnlockContentAndPutBlock b c' else Some c'.

(** The loop of _on_disk_op_done. *)
Fixpoint blocks_done (bs : list (option blkref)) (write : bool) (e : errno) (rlen : Z) (c : DiskCache) : option DiskCache :=
  match bs with
  | [] => Some c
  | r :: bs =>
      b ← r;
      let full := Z.of_nat (blockSize c) <=? rlen in
      let rlen := if full then rlen - Z.of_nat (blockSize c) else rlen in
      let e := if negb full && is_ok e then EIO else e in
      c ← OnBlockRequestDone b write e c;
      blocks_done bs write e rlen c
  end.

(** The vector of a request: the data of its blocks. *)
Fixpoint request_iov (ses : DiskSession) (bs : list (option blkref)) (c : DiskCache) : option (list iovec) :=
  match bs with
  | [] => Some []
  | r :: bs => b ← r; blk ← blocks c !! b; vs ← request_iov ses bs c;
      Some (Iov (data blk) (Z.of_nat (blockSize c) - trailPadSize ses) :: vs)
  end.

Fixpoint store_iov (bs : list (option blkref)) (vs : list iovec) (c : DiskCache) : DiskCache :=
  match bs, vs with
  | Some b :: bs, v :: vs => store_iov bs vs (upd_block b (fun x => set_data (hasData x) (iov_base v) x) c)
  | _, _ => c
  end.

(** The driver executes the request of the session and calls _on_disk_op_done. *)
Definition request_done (s : positive) (c : DiskCache) : option DiskCache :=
  ses ← sessions c !! s;
  let d := dop ses in
  let bs := take (dop_cnt d) (dop_blk d) in
  vs ← request_iov ses bs c;
  x ← do_rw (if dop_write d then kIODiskCommand_WriteAsync else kIODiskCommand_ReadAsync) (s_disk ses) (dop_offset d) vs (s_dev ses);
  let '(vs, e, rlen, dev) := x in
  let c := store_iov bs vs (upd_session s (set_dev dev) c) in
  c ← blocks_done bs (dop_write d) e rlen c;
  Some (RelinquishDiskOp s c).

(** ** Sessions *)

Definition DiskCache_OpenSession (s : positive) (disk : DiskDriver) (dev : D) (c : DiskCache) : option DiskCache :=
  let pow2 := (0 <? sectorSize disk) && ispow2_ul (sectorSize disk) in
  let bs := Z.of_nat (blockSize c) in
  let ses := Ses disk dev (nextAvailSessionId c) (sectorSize disk)
               (if pow2 then bs / sectorSize disk else 1) (if pow2 then 0 else u32 (bs - sectorSize disk)) (sectorsPerRdwr disk)
               0 (Dop false 0 (replicate (Z.to_nat (sectorsPerRdwr disk)) None) 0 false) false true false in
  let next := s32 (nextAvailSessionId c + 1) in
  if 0 <=? next
  then Some (DC next (lruChainGeneration c) (lruChain c) (blockSize c) (blockCount c) (blockCapacity c)
               (dirtyBlockCount c) (diskAddrHash c) (blocks c) (<[s := ses]> (sessions c)))
  else None.

(** [false]: the call waits for the mappings of the session to go away. *)
Definition DiskCache_CloseSession (s : positive) (c : DiskCache) : option (bool * DiskCache) :=
  ses ← sessions c !! s;
  if isOpen ses then
    if 0 <? activeMappingsCount ses then Some (false, c)
    else Some (true, upd_session s (fun ses => Ses (s_disk ses) (s_dev ses) 0 (s_sectorSize ses) (s2bFactor ses) (trailPadSize ses)
                                               (rwClusterSize ses) (activeMappingsCount ses) (dop ses) (dopInUse ses) false (wantsDop ses)) c)
  else Some (true, c).

(** ** Mapping *)

(** Where a call waits. *)
Inductive wait_point :=
| WGet                          (* for a block that can be reused *)
| WLock (b : blkref) (m : LockMode)  (* for the lock on the content *)
| WDop (b : blkref)             (* for the request object *)
| WCluster (b : blkref) (i idx : nat)  (* for a block of the cluster *)
| WIO (b : blkref).             (* for the disk *)

Inductive map_result := MapDone (e : errno) (r : option blkref) | MapWait (w : wait_point).

(** From the label [catch] on. *)
Definition map_finish (s : positive) (b : blkref) (e : errno) (c : DiskCache) : option (map_result * DiskCache) :=
  if is_ok e
  then ses ← sessions c !! s; Some (MapDone EOK (Some b), upd_session s (set_mappings (activeMappingsCount ses + 1)) c)
  else c ← UnlockContentAndPutBlock b c; Some (MapDone e None, c).

(** After the read of the block. *)
Definition map_read_end (s : positive) (b : blkref) (mode : MapBlock) (e : errno) (c : DiskCache)
    : option (map_result * DiskCache) :=
  c ← (if bool_decide (mode = kMapBlock_ReadOnly) then DowngradeBlockContentLock b c else Some c);
  map_finish s b e c.

Definition map_wait_io (s : positive) (b : blkref) (mode : MapBlock) (c : DiskCache) : option (map_result * DiskCache) :=
  blk ← blocks c !! b;
  over ← io_over b kDiskBlockOp_Read c;
  if over : bool then map_read_end s b mode (readError blk) c else Some (MapWait (WIO b), c).

Definition map_io (s : positive) (b : blkref) (mode : MapBlock) (r : io_result * DiskCache) : option (map_result * DiskCache) :=
  match r.1 with
  | IoErr e => map_read_end s b mode e r.2
  | IoStarted => map_wait_io s b mode r.2
  | IoWaitDop => Some (MapWait (WDop b), r.2)
  | IoWaitCluster i idx => Some (MapWait (WCluster b i idx), r.2)
  end.

(** The switch on the mode. *)
Definition map_body (e0 : errno) (mem : bool) (s : positive) (b : blkref) (mode : MapBlock) (c : DiskCache)
    : option (map_result * DiskCache) :=
  blk ← blocks c !! b;
  match mode with
  | kMapBlock_Cleared =>
      assert_exclusive b c ;; map_finish s b EOK (upd_block b (set_data true (replicate (blockSize c) 0)) c)
  | kMapBlock_Replace =>
      assert_exclusive b c ;; map_finish s b EOK (upd_block b (set_data true (data blk)) c)
  | kMapBlock_Update =>
      assert_exclusive b c ;;
      if hasData blk then map_finish s b EOK c
      else r ← DoIO e0 mem s b kDiskBlockOp_Read true c; map_io s b mode r
  | kMapBlock_ReadOnly =>
      if hasData blk then map_finish s b EOK c
      else assert_exclusive b c ;; r ← DoIO e0 mem s b kDiskBlockOp_Read true c; map_io s b mode r
  end.

Definition map_lock (e0 : errno) (mem : bool) (s : positive) (b : blkref) (m : LockMode) (mode : MapBlock) (c : DiskCache)
    : option (map_result * DiskCache) :=
  l ← LockBlockContent b m c;
  if l.1 : bool then map_body e0 mem s b mode l.2 else Some (MapWait (WLock b m), l.2).

Definition map_get (e0 : errno) (mem : bool) (s : positive) (lba : Z) (mode : MapBlock) (c : DiskCache)
    : option (map_result * DiskCache) :=
  ses ← sessions c !! s;
  g ← GetBlock mem (sessionId ses) lba (Z.lor kGetBlock_Allocate kGetBlock_RecentUse) c;
  match g with
  | None => Some (MapWait WGet, c)
  | Some (e, r, c) =>
      if is_ok e then
        b ← r;
        blk ← blocks c !! b;
        map_lock e0 mem s b
          (if bool_decide (mode = kMapBlock_ReadOnly) && hasData blk then kLockMode_Shared else kLockMode_Exclusive) mode c
      else Some (MapDone e None, c)
  end.

Definition DiskCache_MapBlock (e0 : errno) (mem : bool) (s : positive) (lba : Z) (mode : MapBlock) (c : DiskCache)
    : option (map_result * DiskCache) :=
  ses ← sessions c !! s;
  if isOpen ses then map_get e0 mem s lba mode c else Some (MapDone ENODEV None, c).

(** A mapping call goes on after a wait. *)
Definition map_resume (e0 : errno) (mem : bool) (s : positive) (lba : Z) (mode : MapBlock) (w : wait_point) (c : DiskCache)
    : option (map_result * DiskCache) :=
  match w with
  | WGet => map_get e0 mem s lba mode c
  | WLock b m => map_lock e0 mem s b m mode c
  | WDop b => r ← StartReadOp e0 mem true s b c; map_io s b mode r
  | WCluster b i idx => r ← start_read_from e0 mem true s b i idx c; map_io s b mode r
  | WIO b => map_wait_io s b mode c
  end.

(** ** Unmapping *)

Inductive unmap_result := UnmapDone (e : errno) | UnmapWait (w : wait_point).

Definition unmap_finish (s : positive) (b : blkref) (e : errno) (c : DiskCache) : option (unmap_result * DiskCache) :=
  ses ← sessions c !! s;
  c ← UnlockContentAndPutBlock b (upd_session s (set_mappings (activeMappingsCount ses - 1)) c);
  Some (UnmapDone e, c).

Definition unmap_wait_io (s : positive) (b : blkref) (c : DiskCache) : option (unmap_result * DiskCache) :=
  over ← io_over b kDiskBlockOp_Write c;
  if over : bool then unmap_finish s b EOK c else Some (UnmapWait (WIO b), c).

Definition unmap_io (s : positive) (b : blkref) (r : io_result * DiskCache) : option (unmap_result * DiskCache) :=
  match r.1 with
  | IoErr e => unmap_finish s b e r.2
  | IoStarted => unmap_wait_io s b r.2
  | IoWaitDop => Some (UnmapWait (WDop b), r.2)
  | IoWaitCluster _ _ => None
  end.

Definition DiskCache_UnmapBlock (e0 : errno) (s : positive) (b : blkref) (mode : WriteBlock) (c : DiskCache)
    : option (unmap_result * DiskCache) :=
  ses ← sessions c !! s;
  if isOpen ses then
    match mode with
    | kWriteBlock_None => unmap_finish s b EOK c
    | kWriteBlock_Sync =>
        c ← DowngradeBlockContentLock b c;
        assert_shared b c ;;
        r ← DoIO e0 true s b kDiskBlockOp_Write true c; unmap_io s b r
    | kWriteBlock_Deferred =>
        assert_exclusive b c ;;
        blk ← blocks c !! b;
        unmap_finish s b EOK
          (if isDirty blk then c else set_dirtyCount (dirtyBlockCount c + 1) (upd_block b (set_dirty true) c))
    end
  else Some (UnmapDone ENODEV, c).

Definition unmap_resume (e0 : errno) (s : positive) (w : wait_point) (c : DiskCache) : option (unmap_result * DiskCache) :=
  match w with
  | WDop b => r ← StartWriteOp e0 true s b c; unmap_io s b r
  | WIO b => unmap_wait_io s b c
  | _ => None
  end.

(** ** Writing dirty blocks back *)

(** _DiskCache_SyncBlock up to its wait; [None] inside: there is nothing to do.
    The block is not in use, so that the shared lock is free. *)
Definition sync_begin (e0 : errno) (s : positive) (b : blkref) (c : DiskCache) : option (option io_result * DiskCache) :=
  blk ← blocks c !! b;
  if isDirty blk && negb (bool_decide (op blk = kDiskBlockOp_Write)) then
    l ← LockBlockContent b kLockMode_Shared c;
    assert_shared b l.2 ;;
    r ← DoIO e0 true s b kDiskBlockOp_Write true l.2;
    Some (Some r.1, r.2)
  else Some (None, c).

Inductive sync_result :=
| SyncDone (e : errno)
| SyncWait (w : wait_point) (rest : list blkref) (e : errno)
| SyncFuel.

(** DiskCache_Sync: the loops over the LRU chain from [rest], the remaining blocks,
    on, with the error so far.  [gen] is the generation that was noted at the
    beginning.  Each round consumes fuel, as the chain may be started over. *)
Fixpoint sync_scan (fuel : nat) (e0 : errno) (s : positive) (gen : Z) (rest : list blkref) (e : errno) (c : DiskCache)
    : option (sync_result * DiskCache) :=
  match fuel with
  | O => Some (SyncFuel, c)
  | S fuel =>
      match rest with
      | [] => Some (SyncDone e, c)
      | b :: rest =>
          ses ← sessions c !! s;
          blk ← blocks c !! b;
          let next e c := if gen =? lruChainGeneration c then sync_scan fuel e0 s gen rest e c
                          else sync_scan fuel e0 s gen (reverse (lruChain c)) e c in
          if negb (DiskBlock_InUse blk) && (isDirty blk && negb (isPinned blk)) then
            if b_sessionId blk =? sessionId ses then
              r ← sync_begin e0 s b c;
              match r.1 with
              | None => c ← PutBlock b r.2; next e c
              | Some (IoErr e1) =>
                  c ← UnlockBlockContent b r.2; c ← PutBlock b c; next (if is_ok e then e1 else e) c
              | Some IoStarted => Some (SyncWait (WIO b) rest e, r.2)
              | Some IoWaitDop => Some (SyncWait (WDop b) rest e, r.2)
              | Some (IoWaitCluster _ _) => None
              end
            else c ← PutBlock b c; next e c
          else next e c
      end
  end.

Definition DiskCache_Sync (fuel : nat) (e0 : errno) (s : positive) (c : DiskCache) : option (sync_result * DiskCache) :=
  ses ← sessions c !! s;
  if isOpen ses then
    if 0 <? dirtyBlockCount c then sync_scan fuel e0 s (lruChainGeneration c) (reverse (lruChain c)) EOK c
    else Some (SyncDone EOK, c)
  else Some (SyncDone ENODEV, c).

(** The write of block [b] is over: the rest of the loop body, and the loop. *)
Definition sync_next (fuel : nat) (e0 : errno) (s : positive) (gen : Z) (b : blkref) (rest : list blkref) (e : errno) (c : DiskCache)
    : option (sync_result * DiskCache) :=
  c ← UnlockBlockContent b c;
  c ← PutBlock b c;
  if gen =? lruChainGeneration c then sync_scan fuel e0 s gen rest e c
  else sync_scan fuel e0 s gen (reverse (lruChain c)) e c.

Definition sync_resume (fuel : nat) (e0 : errno) (s : positive) (gen : Z) (w : wait_point) (rest : list blkref) (e : errno)
    (c : DiskCache) : option (sync_result * DiskCache) :=
  match w with
  | WDop b =>
      r ← StartWriteOp e0 true s b c;
      match r.1 with
      | IoErr e1 => sync_next fuel e0 s gen b rest (if is_ok e then e1 else e) r.2
      | IoStarted => Some (SyncWait (WIO b) rest e, r.2)
      | IoWaitDop => Some (SyncWait (WDop b) rest e, r.2)
      | IoWaitCluster _ _ => None
      end
  | WIO b =>
      over ← io_over b kDiskBlockOp_Write c;
      if over : bool then sync_next fuel e0 s gen b rest e c else Some (SyncWait (WIO b) rest e, c)
  | _ => None
  end.

(** DiskCache_SyncBlock up to its wait or its end; a block that is not in the
    cache or that is in use is a NULL pointer here. *)
Definition DiskCache_SyncBlock (e0 : errno) (s : positive) (lba : Z) (c : DiskCache) : option (unmap_result * DiskCache) :=
  ses ← sessions c !! s;
  if isOpen ses then
    g ← GetBlock true (sessionId ses) lba kGetBlock_Exclusive c;
    match g with
    | None => None
    | Some (e, r, c) =>
        b ← r;
        x ← sync_begin e0 s b c;
        match x.1 with
        | None => c ← PutBlock b x.2; Some (UnmapDone EOK, c)
        | Some (IoErr e1) => c ← UnlockBlockContent b x.2; c ← PutBlock b c; Some (UnmapDone e1, c)
        | Some IoStarted => Some (UnmapWait (WIO b), x.2)
        | Some IoWaitDop => Some (UnmapWait (WDop b), x.2)
        | Some (IoWaitCluster _ _) => None
        end
    end
  else Some (UnmapDone ENODEV, c).

(** DiskCache_PinBlock and DiskCache_UnpinBlock. *)
Definition DiskCache_PinBlock (pin : bool) (s : positive) (lba : Z) (c : DiskCache) : option (errno * DiskCache) :=
  ses ← sessions c !! s;
  if isOpen ses then
    g ← GetBlock true (sessionId ses) lba 0 c;
    match g with
    | None => None
    | Some (e, r, c) => b ← r; c ← PutBlock b (upd_block b (set_pinned pin) c); Some (e, c)
    end
  else Some (ENODEV, c).

(** DiskCache_PrefetchBlock up to its wait or its end. *)
Definition DiskCache_PrefetchBlock (e0 : errno) (mem : bool) (s : positive) (lba : Z) (c : DiskCache)
    : option (map_result * DiskCache) :=
  ses ← sessions c !! s;
  if isOpen ses then
    g ← GetBlock mem (sessionId ses) lba (Z.lor kGetBlock_Allocate (Z.lor kGetBlock_RecentUse kGetBlock_Exclusive)) c;
    match g with
    | None => Some (MapWait WGet, c)
    | Some (e, r, c) =>
        if is_ok e then
          b ← r;
          blk ← blocks c !! b;
          if negb (hasData blk) && negb (bool_decide (op blk = kDiskBlockOp_Read)) then
            l ← LockBlockContent b kLockMode_Exclusive c;
            assert_exclusive b l.2 ;;
            x ← DoIO e0 mem s b kDiskBlockOp_Read false l.2;
            match x.1 with
            | IoErr e1 => c ← UnlockContentAndPutBlock b x.2; Some (MapDone e1 None, c)
            | IoStarted => Some (MapDone EOK None, x.2)
            | IoWaitDop => Some (MapWait (WDop b), x.2)
            | IoWaitCluster i idx => Some (MapWait (WCluster b i idx), x.2)
            end
          else c ← UnlockContentAndPutBlock b c; Some (MapDone EOK None, c)
        else match r with
             | None => Some (MapDone e None, c)
             | Some b => c ← UnlockContentAndPutBlock b c; Some (MapDone e None, c)
             end
    end
  else Some (MapDone ENODEV None, c).
End Cache.

Arguments DiskSession D : clear implicits.
Arguments DiskCache D : clear implicits.
