(* ===== verification/DiskCacheInv.v ===== *)
(** * The disk cache: hash table and LRU chain

    The chains hold exactly the blocks of the cache, no address is cached twice
    and the counters are right; _DiskCache_GetBlock keeps this and finds, makes
    or reuses the block of an address. *)

From S2P Require Import Prelude Bytes ExtBit FSContainer Disk DiskCache.

Definition key (blk : DiskBlock) : Z * Z := (b_sessionId blk, b_lba blk).

Lemma hash_index_lt sid lba : (hash_index sid lba < 8)%nat.
Proof.
  unfold hash_index. pose proof (Z.land_nonneg (DiskBlock_HashKey sid lba) 7) as Hn.
  assert (Z.land (DiskBlock_HashKey sid lba) 7 < 2 ^ 3).
  { rewrite Z.land_comm. apply land_range; lia. }
  lia.
Qed.

Lemma IsEqualKey_spec blk sid lba : DiskBlock_IsEqualKey blk sid lba = true <-> key blk = (sid, lba).
Proof. unfold DiskBlock_IsEqualKey, key. rewrite andb_true_iff, !Z.eqb_eq. naive_solver. Qed.

Lemma alter_lookup (f : DiskBlock -> DiskBlock) (m : gmap blkref DiskBlock) b blk :
  m !! b = Some blk -> alter f b m = <[b := f blk]> m.
Proof.
  intros Hb. apply map_eq. intros i. destruct (decide (i = b)) as [->|].
  - by rewrite lookup_alter_eq, lookup_insert_eq, Hb.
  - by rewrite lookup_alter_ne, lookup_insert_ne.
Qed.

Section Chains.
Context {D} `{SectorDevice D}.
Implicit Types c : DiskCache D.

Definition is_dirty (p : blkref * DiskBlock) : Prop := isDirty p.2 = true.

Record chains_ok c : Prop := {
  co_lru : NoDup (lruChain c);
  co_lru_dom : forall b, b ∈ lruChain c <-> is_Some (blocks c !! b);
  co_hash_len : length (diskAddrHash c) = 8%nat;
  co_hash : forall i ch, diskAddrHash c !! i = Some ch ->
    NoDup ch /\ forall b, b ∈ ch <-> exists blk, blocks c !! b = Some blk /\ hash_index (b_sessionId blk) (b_lba blk) = i;
  co_keys : forall b1 b2 k1 k2, blocks c !! b1 = Some k1 -> blocks c !! b2 = Some k2 -> key k1 = key k2 -> b1 = b2;
  co_count : blockCount c = Z.of_nat (size (blocks c));
  co_dirty : dirtyBlockCount c = Z.of_nat (size (filter is_dirty (blocks c))) }.

Lemma ref_remove_elem b l x : NoDup l -> x ∈ ref_remove b l <-> x ∈ l /\ x <> b.
Proof.
  induction l as [|y l IH]; intros Hn; cbn; [rewrite elem_of_nil; tauto|].
  apply NoDup_cons in Hn as [Hy Hn]. case_decide as E.
  - subst. rewrite elem_of_cons. split; [intros Hx; split; [by right|by intros ->]|tauto].
  - rewrite !elem_of_cons, IH by done. split; [intros [->|[? ?]]; auto|tauto].
Qed.

Lemma ref_remove_NoDup b l : NoDup l -> NoDup (ref_remove b l).
Proof.
  induction l as [|y l IH]; intros Hn; cbn; [done|]. apply NoDup_cons in Hn as [Hy Hn]. case_decide; [done|].
  constructor; [|by apply IH]. by rewrite ref_remove_elem; [intros [? _]|].
Qed.

(** ** Searching *)

Lemma find_cached_spec (m : gmap blkref DiskBlock) sid lba l :
  (forall b, b ∈ l -> is_Some (m !! b)) ->
  exists r, find_block m sid lba l = Some r /\
    match r with
    | Some b => b ∈ l /\ exists blk, m !! b = Some blk /\ key blk = (sid, lba)
    | None => forall b blk, b ∈ l -> m !! b = Some blk -> key blk <> (sid, lba)
    end.
Proof.
  induction l as [|b l IH]; intros Hl; cbn; [exists None; split; [done|]; intros b blk Hb; by apply elem_of_nil in Hb|].
  destruct (Hl b) as [blk Hb]; [by left|]. rewrite (bind_some Hb).
  destruct (DiskBlock_IsEqualKey blk sid lba) eqn:E.
  - exists (Some b). split; [done|]. split; [by left|]. exists blk. by rewrite <- IsEqualKey_spec.
  - destruct IH as (r & -> & Hr); [intros x Hx; apply Hl; by right|]. exists r. split; [done|]. destruct r as [b'|].
    + destruct Hr as [Hin Hk]. split; [by right|done].
    + intros x bx [->|Hx]%elem_of_cons Hbx; [|by apply (Hr x)].
      rewrite Hb in Hbx. injection Hbx as <-. rewrite <- IsEqualKey_spec. congruence.
Qed.

Lemma find_reusable_spec (m : gmap blkref DiskBlock) l :
  (forall b, b ∈ l -> is_Some (m !! b)) ->
  exists r, find_reusable m l = Some r /\
    match r with
    | Some b => b ∈ l /\ exists blk, m !! b = Some blk /\ reusable blk = true
    | None => forall b blk, b ∈ l -> m !! b = Some blk -> reusable blk = false
    end.
Proof.
  induction l as [|b l IH]; intros Hl; cbn; [exists None; split; [done|]; intros b blk Hb; by apply elem_of_nil in Hb|].
  destruct (Hl b) as [blk Hb]; [by left|]. rewrite (bind_some Hb). destruct (reusable blk) eqn:E.
  - exists (Some b). split; [done|]. split; [by left|]. by exists blk.
  - destruct IH as (r & -> & Hr); [intros x Hx; apply Hl; by right|]. exists r. split; [done|]. destruct r as [b'|].
    + destruct Hr as [Hin Hk]. split; [by right|done].
    + intros x bx [->|Hx]%elem_of_cons Hbx; [congruence|by apply (Hr x)].
Qed.

(** The chain of an address. *)
Lemma chain_lookup c sid lba :
  chains_ok c -> exists ch, diskAddrHash c !! hash_index sid lba = Some ch.
Proof.
  intros Hc. pose proof (hash_index_lt sid lba). rewrite <- (co_hash_len c Hc) in *. by apply lookup_lt_is_Some.
Qed.

(** The search in the hash table finds the block of the address if there is one. *)
Lemma lookup_block c sid lba :
  chains_ok c ->
  exists r, find_block (blocks c) sid lba (default [] (diskAddrHash c !! hash_index sid lba)) = Some r /\
    match r with
    | Some b => exists blk, blocks c !! b = Some blk /\ key blk = (sid, lba)
    | None => forall b blk, blocks c !! b = Some blk -> key blk <> (sid, lba)
    end.
Proof.
  intros Hc. destruct (chain_lookup c sid lba Hc) as [ch Hch]. rewrite Hch. cbn.
  destruct (co_hash c Hc _ _ Hch) as [_ Hin].
  destruct (find_cached_spec (blocks c) sid lba ch) as (r & E & Hr).
  { intros b Hb. apply Hin in Hb as (blk & Hb & _). by exists blk. }
  exists r. split; [done|]. destruct r as [b|]; [by destruct Hr as [_ Hr]|].
  intros b blk Hb Hk. apply (Hr b blk); [|done|done]. apply Hin. exists blk. split; [done|].
  unfold key in Hk. by injection Hk as -> ->.
Qed.

(** ** Updates *)

Lemma dirty_count_insert (m : gmap blkref DiskBlock) b blk :
  isDirty blk = false -> (forall x, m !! b = Some x -> isDirty x = false) ->
  filter is_dirty (<[b := blk]> m) = filter is_dirty m.
Proof.
  intros Hd Hm. apply map_eq. intros i. apply option_eq. intros x. rewrite !map_lookup_filter_Some.
  unfold is_dirty. cbn. destruct (decide (i = b)) as [->|Hne].
  - rewrite lookup_insert_eq. split; [naive_solver congruence|]. intros [Hx Hy]. apply Hm in Hx. congruence.
  - by rewrite lookup_insert_ne.
Qed.

(** A change of a block that leaves the address and the dirty flag alone. *)
Lemma chains_upd b f c :
  chains_ok c -> (forall blk, blocks c !! b = Some blk -> key (f blk) = key blk /\ isDirty (f blk) = isDirty blk) ->
  chains_ok (upd_block b f c).
Proof.
  intros [H1 H2 H3 H4 H5 H6 H7] Hf.
  assert (Hl : forall x k, alter f b (blocks c) !! x = Some k ->
            exists k0, blocks c !! x = Some k0 /\ key k = key k0 /\ isDirty k = isDirty k0 /\ k = (if decide (x = b) then f k0 else k0)).
  { intros x k Hx. destruct (decide (x = b)) as [->|Hne].
    - rewrite lookup_alter_eq in Hx. apply fmap_Some in Hx as (k0 & Hk0 & ->). exists k0. by destruct (Hf k0 Hk0).
    - rewrite lookup_alter_ne in Hx by done. by exists k. }
  assert (Hr : forall x k0, blocks c !! x = Some k0 -> exists k, alter f b (blocks c) !! x = Some k /\ key k = key k0).
  { intros x k0 Hx. destruct (decide (x = b)) as [->|Hne].
    - rewrite lookup_alter_eq, Hx. exists (f k0). by destruct (Hf k0 Hx).
    - rewrite lookup_alter_ne by done. by exists k0. }
  split; cbn; [done| |done| | | |].
  - intros x. by rewrite H2, lookup_alter_is_Some.
  - intros i ch Hi. destruct (H4 i ch Hi) as [Hn Hin]. split; [done|]. intros x. rewrite Hin. split; intros (k & Hk & Hh).
    + destruct (Hr x k Hk) as (k' & Hk' & [=E1 E2]). exists k'. by rewrite E1, E2.
    + destruct (Hl x k Hk) as (k0 & Hk0 & [=E1 E2] & _). exists k0. by rewrite <- E1, <- E2.
  - intros b1 b2 k1 k2 E1 E2 Hk. apply Hl in E1 as (x1 & E1 & F1 & _), E2 as (x2 & E2 & F2 & _). apply (H5 b1 b2 x1 x2); congruence.
  - rewrite H6. do 2 rewrite <- size_dom. by rewrite dom_alter_L.
  - rewrite H7. f_equal. do 2 rewrite <- size_dom. f_equal. apply set_eq. intros x. rewrite !elem_of_dom.
    unfold is_Some. setoid_rewrite map_lookup_filter_Some. unfold is_dirty. cbn. split; intros (k & Hk & Hd).
    + destruct (Hr x k Hk) as (k' & Hk' & _). exists k'. split; [done|]. apply Hl in Hk' as (k0 & Hk0 & _ & -> & _). congruence.
    + apply Hl in Hk as (k0 & Hk0 & _ & E & _). exists k0. split; [done|congruence].
Qed.

(** The dirty flag and the count change together. *)
Lemma chains_set_dirty b x blk c :
  chains_ok c -> blocks c !! b = Some blk -> isDirty blk = negb x ->
  chains_ok (set_dirtyCount (dirtyBlockCount c + (if x then 1 else -1)) (upd_block b (set_dirty x) c)).
Proof.
  intros [H1 H2 H3 H4 H5 H6 H7] Hb Hd. set (m := alter (set_dirty x) b (blocks c)).
  assert (Hm : m = <[b := set_dirty x blk]> (blocks c)) by by apply alter_lookup.
  split; cbn; fold m; [done| |done| | | |].
  - intros i. unfold m. by rewrite H2, lookup_alter_is_Some.
  - intros i ch Hi. destruct (H4 i ch Hi) as [Hn Hin]. split; [done|]. intros y. rewrite Hin, Hm.
    destruct (decide (y = b)) as [->|]; [rewrite lookup_insert_eq|by rewrite lookup_insert_ne].
    split; intros (k & Hk & Hh); [rewrite Hb in Hk|]; injection Hk as <-; eauto.
  - rewrite Hm. intros b1 b2 k1 k2 E1 E2 Hk.
    apply lookup_insert_Some in E1 as [[<- <-]|[? E1]]; apply lookup_insert_Some in E2 as [[<- <-]|[? E2]]; [done| | |];
      [apply (H5 _ _ _ _ Hb E2)|apply (H5 _ _ _ _ E1 Hb)|apply (H5 _ _ _ _ E1 E2)]; done.
  - unfold m. rewrite H6. do 2 rewrite <- size_dom. by rewrite dom_alter_L.
  - rewrite H7, Hm. destruct x; cbn in Hd.
    + rewrite map_filter_insert_True by done. rewrite map_size_insert_None; [lia|].
      apply map_lookup_filter_None. right. intros y Hy. unfold is_dirty. cbn. congruence.
    + rewrite map_filter_insert_False by done. rewrite map_filter_delete.
      rewrite map_size_delete_Some; [|exists blk; by apply map_lookup_filter_Some].
      assert (size (filter is_dirty (blocks c)) <> 0%nat); [|lia].
      intros E. apply map_size_empty_inv in E. assert (Hx : filter is_dirty (blocks c) !! b = Some blk) by by apply map_lookup_filter_Some.
      rewrite E in Hx. done.
Qed.

(** The block goes to the front of the LRU chain. *)
Lemma chains_recent b c :
  chains_ok c -> is_Some (blocks c !! b) -> chains_ok (set_chains (b :: ref_remove b (lruChain c)) (diskAddrHash c) c).
Proof.
  intros [H1 H2 H3 H4 H5 H6 H7] Hb. split; cbn; try done.
  - constructor; [by rewrite ref_remove_elem; [intros [_ ?]|]|by apply ref_remove_NoDup].
  - intros x. rewrite elem_of_cons, ref_remove_elem, H2 by done. destruct (decide (x = b)) as [->|]; tauto.
Qed.

(** A block gets a new address that no other block has, or comes into the cache. *)
Lemma chains_put b blk g n c lru hash :
  chains_ok c -> (forall x k, blocks c !! x = Some k -> key k <> key blk) ->
  isDirty blk = false -> (forall x, blocks c !! b = Some x -> isDirty x = false) ->
  n = Z.of_nat (size (<[b := blk]> (blocks c))) ->
  NoDup lru -> (forall x, x ∈ lru <-> x ∈ lruChain c /\ x <> b) ->
  length hash = 8%nat ->
  (forall i ch, hash !! i = Some ch -> NoDup ch /\
     forall x, x ∈ ch <-> x <> b /\ exists k, blocks c !! x = Some k /\ hash_index (b_sessionId k) (b_lba k) = i) ->
  chains_ok (DC (nextAvailSessionId c) g (b :: lru) (blockSize c) n (blockCapacity c)
    (dirtyBlockCount c) (alter (cons b) (hash_index (b_sessionId blk) (b_lba blk)) hash) (<[b := blk]> (blocks c)) (sessions c)).
Proof.
  intros [H1 H2 H3 H4 H5 H6 H7] Hk Hd Hb Hn Hlru Hin Hlen Hh. split; cbn.
  - constructor; [by rewrite Hin; intros [_ ?]|done].
  - intros x. rewrite elem_of_cons, Hin, H2, lookup_insert_is_Some. destruct (decide (x = b)) as [->|]; naive_solver.
  - by rewrite length_alter.
  - intros i ch Hi. destruct (decide (i = hash_index (b_sessionId blk) (b_lba blk))) as [->|Hne].
    + rewrite list_lookup_alter_eq in Hi. apply fmap_Some in Hi as (ch0 & Hi & ->). destruct (Hh _ _ Hi) as [Hnd Hc]. split.
      * constructor; [by rewrite Hc; intros [? _]|done].
      * intros x. rewrite elem_of_cons, Hc. destruct (decide (x = b)) as [->|Hx].
        { rewrite lookup_insert_eq. naive_solver. }
        rewrite lookup_insert_ne by done. naive_solver.
    + rewrite list_lookup_alter_ne in Hi by done. destruct (Hh _ _ Hi) as [Hnd Hc]. split; [done|].
      intros x. rewrite Hc. destruct (decide (x = b)) as [->|Hx]; [rewrite lookup_insert_eq|rewrite lookup_insert_ne by done]; naive_solver.
  - intros b1 b2 k1 k2 E1 E2 E.
    apply lookup_insert_Some in E1 as [[<- <-]|[? E1]]; apply lookup_insert_Some in E2 as [[<- <-]|[? E2]]; [done| | |].
    + by destruct (Hk _ _ E2).
    + by destruct (Hk _ _ E1).
    + by apply (H5 _ _ _ _ E1 E2).
  - done.
  - by rewrite dirty_count_insert.
Qed.

(** How the blocks change when the block [b] of a new address is made. *)
Inductive new_block (sid lba : Z) (c : DiskCache D) (b : blkref) : DiskBlock -> Prop :=
| nb_create : blocks c !! b = None -> new_block sid lba c b (DiskBlock_Create sid lba (blockSize c))
| nb_reuse blk : blocks c !! b = Some blk -> reusable blk = true ->
    new_block sid lba c b (set_data false (replicate (blockSize c) 0) (set_address sid lba blk)).

(** The cache but for the blocks, the chains and the counters. *)
Definition same_rest c c' : Prop :=
  nextAvailSessionId c' = nextAvailSessionId c /\ blockSize c' = blockSize c /\
  blockCapacity c' = blockCapacity c /\ sessions c' = sessions c.

Definition uncached sid lba c : Prop := forall b blk, blocks c !! b = Some blk -> key blk <> (sid, lba).

Lemma create_spec sid lba c :
  chains_ok c -> uncached sid lba c ->
  exists b c', CreateBlock true sid lba c = Some (EOK, Some b, c') /\ chains_ok c' /\ same_rest c c' /\
    new_block sid lba c b (DiskBlock_Create sid lba (blockSize c)) /\
    blocks c' = <[b := DiskBlock_Create sid lba (blockSize c)]> (blocks c).
Proof.
  intros Hc Hu. unfold CreateBlock. set (b := fresh (dom (blocks c))).
  assert (Hb : blocks c !! b = None) by (apply not_elem_of_dom, is_fresh).
  unfold RegisterBlock. cbn. rewrite lookup_insert_eq. cbn. eexists b, _. split; [done|]. split; [|split; [done|split; [by constructor|done]]].
  pose proof Hc as [H1 H2 H3 H4 H5 H6 H7].
  apply (chains_put b (DiskBlock_Create sid lba (blockSize c)) _ (blockCount c + 1) c (lruChain c) (diskAddrHash c));
    [done|exact Hu|done|intros x Hx; congruence| |done| |done|].
  - rewrite map_size_insert_None by done. lia.
  - intros x. rewrite H2. split; [|tauto]. intros Hx. split; [done|]. intros ->. rewrite Hb in Hx. by destruct Hx.
  - intros i ch Hi. destruct (H4 i ch Hi) as [Hn Hin]. split; [done|]. intros x. rewrite Hin. split; [|tauto].
    intros (k & Hk & E). split; [congruence|]. by exists k.
Qed.

Lemma reusable_clean blk : reusable blk = true -> isDirty blk = false /\ isPinned blk = false /\ DiskBlock_InUse blk = false.
Proof. unfold reusable. rewrite !andb_true_iff, !negb_true_iff. tauto. Qed.

Lemma reuse_spec sid lba c :
  chains_ok c -> uncached sid lba c ->
  exists r c', ReuseCachedBlock sid lba c = Some (r, c') /\
    match r with
    | None => c' = c /\ forall b blk, blocks c !! b = Some blk -> reusable blk = false
    | Some b => exists blk, chains_ok c' /\ same_rest c c' /\ new_block sid lba c b blk /\ blocks c' = <[b := blk]> (blocks c)
    end.
Proof.
  intros Hc Hu. unfold ReuseCachedBlock. pose proof Hc as [H1 H2 H3 H4 H5 H6 H7].
  destruct (find_reusable_spec (blocks c) (reverse (lruChain c))) as (r & -> & Hr).
  { intros b. by rewrite elem_of_reverse, H2. }
  cbn. destruct r as [b|]; [|exists None, c; split_and!; [done|done|]].
  2:{ intros b blk Hb. apply (Hr b blk); [|done]. rewrite elem_of_reverse, H2. by exists blk. }
  destruct Hr as (_ & blk & Hb & Hre). pose proof (reusable_clean blk Hre) as (Hcl & _).
  unfold DeregisterBlock. rewrite Hb. cbn. unfold RegisterBlock. cbn. rewrite lookup_alter_eq, Hb. cbn.
  set (blk' := set_data false (replicate (blockSize c) 0) (set_address sid lba blk)).
  exists (Some b). eexists. split; [done|]. exists blk'.
  assert (E : alter (fun x => set_data false (replicate (blockSize c) 0) (set_address sid lba x)) b (blocks c) = <[b := blk']> (blocks c))
    by by rewrite (alter_lookup _ _ _ blk).
  split; [|split; [done|split; [by econstructor|done]]].
  unfold set_chains, upd_block. cbn. rewrite E.
  apply (chains_put b blk'); [done|exact Hu|done|naive_solver congruence| |by apply ref_remove_NoDup| |by rewrite length_alter|].
  - rewrite H6. rewrite map_size_insert_Some by by exists blk. done.
  - intros x. by apply ref_remove_elem.
  - intros i ch Hi. destruct (decide (i = hash_index (b_sessionId blk) (b_lba blk))) as [->|Hne].
    + rewrite list_lookup_alter_eq in Hi. apply fmap_Some in Hi as (ch0 & Hi & ->). destruct (H4 _ _ Hi) as [Hn Hin].
      split; [by apply ref_remove_NoDup|]. intros x. rewrite ref_remove_elem, Hin by done. tauto.
    + rewrite list_lookup_alter_ne in Hi by done. destruct (H4 _ _ Hi) as [Hn Hin]. split; [done|]. intros x. rewrite Hin.
      split; [|tauto]. intros Hx. split; [|done]. intros ->. destruct Hx as (k & Hk & <-). apply Hne. congruence.
Qed.

(** ** _DiskCache_GetBlock *)

(** The block that was cached, the block that was made for the address, or no memory. *)
Inductive got (sid lba : Z) (c : DiskCache D) : errno -> option blkref -> DiskCache D -> Prop :=
| got_found b blk c' : blocks c !! b = Some blk -> key blk = (sid, lba) -> blocks c' = blocks c -> got sid lba c EOK (Some b) c'
| got_new b blk c' : uncached sid lba c -> new_block sid lba c b blk -> blocks c' = <[b := blk]> (blocks c) ->
    got sid lba c EOK (Some b) c'
| got_nomem : got sid lba c ENOMEM None c.

Lemma recent_end e b c :
  chains_ok c -> is_Some (blocks c !! b) ->
  exists c', get_block_end (Z.lor kGetBlock_Allocate kGetBlock_RecentUse) e (Some b) c = Some (e, Some b, c') /\
    chains_ok c' /\ same_rest c c' /\ blocks c' = blocks c.
Proof.
  intros Hc Hb. destruct (Hb) as [blk Eb]. cbn. rewrite Eb. cbn. eexists. split; [done|]. split; [by apply chains_recent|done].
Qed.

Lemma same_rest_trans c1 c2 c3 : same_rest c1 c2 -> same_rest c2 c3 -> same_rest c1 c3.
Proof. unfold same_rest. intuition congruence. Qed.

Lemma get_block_spec mem sid lba c :
  chains_ok c ->
  exists g, GetBlock mem sid lba (Z.lor kGetBlock_Allocate kGetBlock_RecentUse) c = Some g /\
    match g with
    | None => forall b blk, blocks c !! b = Some blk -> reusable blk = false
    | Some (e, r, c') => chains_ok c' /\ same_rest c c' /\ got sid lba c e r c'
    end.
Proof.
  intros Hc. unfold GetBlock. destruct (lookup_block c sid lba Hc) as (r & -> & Hr).
  cbn [mbind option_bind]. destruct r as [b|].
  - destruct Hr as (blk & Hb & Hk). destruct (recent_end EOK b c Hc) as (c' & E & Hc' & Hs & Eb); [by exists blk|].
    rewrite bool_decide_true by by exists b. cbn [orb]. rewrite E. cbn. eexists. split; [done|]. cbn. split_and!; [done|done|].
    by apply (got_found _ _ _ b blk).
  - rewrite bool_decide_false by by intros []. cbn [orb negb has_opt].
    replace (negb (has_opt (Z.lor kGetBlock_Allocate kGetBlock_RecentUse) kGetBlock_Allocate)) with false by done.
    destruct (_ <? _).
    + destruct mem; [|cbn; eexists; split; [done|]; cbn; split_and!; [done|done|constructor]].
      destruct (create_spec sid lba c Hc Hr) as (b & c1 & E & Hc1 & Hs & Hn & Eb). rewrite E. cbn [mbind option_bind fst snd].
      destruct (recent_end EOK b c1 Hc1) as (c2 & E2 & Hc2 & Hs2 & Eb2); [rewrite Eb, lookup_insert_eq; by eexists|].
      rewrite E2. cbn. eexists. split; [done|]. cbn. split_and!; [done|by eapply same_rest_trans|].
      eapply got_new; [done|done|congruence].
    + destruct (reuse_spec sid lba c Hc Hr) as (r & c1 & E & Hr1). rewrite E. cbn [mbind option_bind fst snd].
      destruct r as [b|]; [|exists None; split; [done|]; by destruct Hr1].
      destruct Hr1 as (blk & Hc1 & Hs & Hn & Eb).
      destruct (recent_end EOK b c1 Hc1) as (c2 & E2 & Hc2 & Hs2 & Eb2); [rewrite Eb, lookup_insert_eq; by eexists|].
      rewrite E2. cbn. eexists. split; [done|]. cbn. split_and!; [done|by eapply same_rest_trans|].
      eapply got_new; [done|done|congruence].
Qed.
End Chains.
