(* ===== verification/DiskCacheSys.v ===== *)
(** * The disk cache: calls, requests and the invariant

    Calls that wait, mappings that clients hold, and the requests that the
    drivers execute, with the invariant that ties the locks, the requests and
    the data of the blocks to them.  Each lemma moves one call over one part of
    its work; DiskCacheCalls.v composes them. *)

From S2P Require Import Prelude Bytes ExtBit FSContainer Disk DiskCache DiskCacheInv.

(** A call that waits, a mapping that a client holds, or ([TRun]) a call that
    holds the content lock of a block in the middle of its work. *)
Inductive task :=
| TMap (s : positive) (lba : Z) (mode : MapBlock) (w : wait_point)
| TRun (s : positive) (lba : Z) (b : blkref) (x : bool)
| TMapped (s : positive) (lba : Z) (b : blkref) (x : bool)
| TUnmap (s : positive) (lba : Z) (w : wait_point)
| TSync (s : positive) (lba : Z) (gen : Z) (w : wait_point) (rest : list blkref) (e : errno).

(** The block whose content lock the call holds, and whether it holds it exclusively. *)
Definition hold (t : task) : option (blkref * bool) :=
  match t with
  | TMap _ _ _ (WDop b) | TMap _ _ _ (WIO b) => Some (b, true)
  | TRun _ _ b x | TMapped _ _ b x => Some (b, x)
  | TUnmap _ _ (WDop b) | TUnmap _ _ (WIO b) | TSync _ _ _ (WDop b) _ _ | TSync _ _ _ (WIO b) _ _ => Some (b, false)
  | _ => None
  end.

Definition holders (b : blkref) (x : bool) (ts : list task) : nat := length (filter (fun t => hold t = Some (b, x)) ts).

(** The session and the address that a call is about. *)
Definition session_of (t : task) : positive :=
  match t with TMap s _ _ _ | TRun s _ _ _ | TMapped s _ _ _ | TUnmap s _ _ | TSync s _ _ _ _ _ => s end.
Definition lba_of (t : task) : Z :=
  match t with TMap _ l _ _ | TRun _ l _ _ | TMapped _ l _ _ | TUnmap _ l _ | TSync _ l _ _ _ _ => l end.

(** The session of which the task is an active mapping. *)
Definition mapping (t : task) : option positive :=
  match t with TMapped s _ _ _ | TUnmap s _ _ => Some s | _ => None end.
Definition mappings (s : positive) (ts : list task) : nat := length (filter (fun t => mapping t = Some s) ts).

(** The holder may be changing the data of the block. *)
Definition editing (b : blkref) (t : task) : Prop :=
  match t with TRun _ _ b' true | TMapped _ _ b' true => b' = b | _ => False end.
(** The call waits for a read, for a write. *)
Definition reading (b : blkref) (t : task) : Prop := match t with TMap _ _ _ (WIO b') => b' = b | _ => False end.
Definition writing (b : blkref) (t : task) : Prop :=
  match t with TUnmap _ _ (WIO b') | TSync _ _ _ (WIO b') _ _ => b' = b | _ => False end.
(** The data of the block is new and is about to be written to the disk. *)
Definition unsent (b : blkref) (t : task) : Prop :=
  match t with TUnmap _ _ (WDop b') => b' = b | _ => False end.

(** What the client relies on: the content of each address of each session. *)
Definition store := Z -> Z -> list Z.

Definition valid_io (o : DiskBlockOp) (h : bool) (b : blkref) (ts : list task) : Prop :=
  (o = kDiskBlockOp_Read -> h = false /\ Exists (reading b) ts) /\
  (o = kDiskBlockOp_Write -> h = true /\ Exists (writing b) ts).

Record blk_ok (n : nat) (ts : list task) (st : store) (b : blkref) (blk : DiskBlock) : Prop := {
  bo_len : length (data blk) = n;
  bo_bytes : Forall is_byte (data blk);
  bo_excl : holders b true ts = if exclusive blk then 1%nat else 0%nat;
  bo_share : shareCount blk = Z.of_nat (holders b false ts);
  bo_one : exclusive blk = true -> shareCount blk = 0;
  bo_dirty : isDirty blk = true -> hasData blk = true;
  bo_pinned : isPinned blk = false;
  bo_async : async blk = false;
  bo_op : valid_io (op blk) (hasData blk) b ts;
  bo_data : hasData blk = true -> ~ Exists (editing b) ts -> data blk = st (b_sessionId blk) (b_lba blk) }.

(** What a call has to do with a block is in the block it is about. *)
Definition block_of (t : task) : option blkref :=
  match t with
  | TMap _ _ _ (WLock b _) | TMap _ _ _ (WDop b) | TMap _ _ _ (WIO b) | TRun _ _ b _ | TMapped _ _ b _
  | TUnmap _ _ (WDop b) | TUnmap _ _ (WIO b) | TSync _ _ _ (WDop b) _ _ | TSync _ _ _ (WIO b) _ _ => Some b
  | _ => None
  end.

Ltac task_cases t := destruct t as [? ? ? []|? ? ? []|? ? ? []|? ? []|? ? ? [] ? ?].

Lemma hold_block t b x : hold t = Some (b, x) -> block_of t = Some b.
Proof. task_cases t; cbn; congruence. Qed.
Lemma editing_hold t b : editing b t -> hold t = Some (b, true).
Proof. task_cases t; cbn; naive_solver. Qed.
Lemma editing_dec b t : {editing b t} + {~ editing b t}.
Proof. task_cases t; cbn; try (right; tauto); apply decide, _. Defined.
Lemma reading_hold t b : reading b t -> hold t = Some (b, true).
Proof. task_cases t; cbn; naive_solver. Qed.
Lemma writing_hold t b : writing b t -> hold t = Some (b, false).
Proof. task_cases t; cbn; naive_solver. Qed.
Lemma unsent_hold t b : unsent b t -> hold t = Some (b, false).
Proof. task_cases t; cbn; naive_solver. Qed.

Lemma holders_cons b x t ts : holders b x (t :: ts) = ((if decide (hold t = Some (b, x)) then 1 else 0) + holders b x ts)%nat.
Proof. unfold holders. rewrite filter_cons. by destruct (decide _). Qed.
Lemma mappings_cons s t ts : mappings s (t :: ts) = ((if decide (mapping t = Some s) then 1 else 0) + mappings s ts)%nat.
Proof. unfold mappings. rewrite filter_cons. by destruct (decide _). Qed.
Lemma holders_elem b x t ts : t ∈ ts -> hold t = Some (b, x) -> (0 < holders b x ts)%nat.
Proof.
  intros Ht Hh. unfold holders. destruct (filter _ ts) eqn:E; [|cbn; lia].
  assert (Hf : t ∈ filter (fun t => hold t = Some (b, x)) ts) by by apply list_elem_of_filter.
  rewrite E in Hf. by apply elem_of_nil in Hf.
Qed.
Lemma holders_zero b x ts : holders b x ts = 0%nat -> forall t, t ∈ ts -> hold t <> Some (b, x).
Proof. intros Hz t Ht Hh. pose proof (holders_elem b x t ts Ht Hh). lia. Qed.

Lemma editing_none b ts : (forall t, t ∈ ts -> hold t <> Some (b, true)) -> ~ Exists (editing b) ts.
Proof. intros Hn Hx. apply list.Exists_exists in Hx as (t & Ht & Hx). apply (Hn t Ht). by apply editing_hold. Qed.

Section System.
Context {D} `{SectorDeviceSpec D}.
Implicit Types (c : DiskCache D) (ses : DiskSession D) (st : store).

(** The block of the disk at a logical block address. *)
Definition on_disk ses (lba : Z) : list Z :=
  sectors (s_disk ses) (s_dev ses) (lba * s2bFactor ses) (Z.to_nat (s2bFactor ses)).

Definition lba_ok ses (lba : Z) : Prop := 0 <= lba /\ (lba + 1) * s2bFactor ses <= sectorCount (s_disk ses).

(** A session on a disk with a sector size that divides the block size, whose size
    in bytes fits in 32 bits, and which is read block by block. *)
Record ses_ok c ses : Prop := {
  so_drive : drive_ok (s_disk ses);
  so_loaded : drive_loaded (s_disk ses);
  so_ready : dev_ready (s_disk ses) (s_dev ses);
  so_size : sectorCount (s_disk ses) * sectorSize (s_disk ses) <= 2 ^ 32;
  so_sector : s_sectorSize ses = sectorSize (s_disk ses);
  so_factor : 0 < s2bFactor ses /\ s2bFactor ses * s_sectorSize ses = Z.of_nat (blockSize c);
  so_pad : trailPadSize ses = 0;
  so_cluster : rwClusterSize ses = 1;
  so_id : 0 < sessionId ses < nextAvailSessionId c }.

(** The request object: free, or on the queue of the driver for a block. *)
Record request c ses (b : blkref) : Prop := {
  rq_queued : dop_queued (dop ses) = true;
  rq_cnt : dop_cnt (dop ses) = 1%nat;
  rq_blk : dop_blk (dop ses) = [Some b];
  rq_block : exists blk, blocks c !! b = Some blk /\ b_sessionId blk = sessionId ses /\ lba_ok ses (b_lba blk) /\
    op blk = (if dop_write (dop ses) then kDiskBlockOp_Write else kDiskBlockOp_Read) /\
    dop_offset (dop ses) = b_lba blk * s2bFactor ses * s_sectorSize ses }.

Definition dop_ok c ses : Prop :=
  if dopInUse ses then exists b, request c ses b else length (dop_blk (dop ses)) = 1%nat /\ dop_queued (dop ses) = false.

(** The modes that give the client the content of the block. *)
Definition reads (mode : MapBlock) : bool := match mode with kMapBlock_ReadOnly | kMapBlock_Update => true | _ => false end.

(** What a call knows about the block it holds or waits for. *)
Definition task_blk_ok (t : task) (blk : DiskBlock) : Prop :=
  match t with
  | TMap _ _ mode (WLock _ m) => m = kLockMode_Shared -> mode = kMapBlock_ReadOnly /\ hasData blk = true
  | TMap _ _ mode (WDop _) => reads mode = true /\ hasData blk = false /\ op blk = kDiskBlockOp_Idle
  | TMap _ _ mode (WIO _) =>
      reads mode = true /\ (op blk = kDiskBlockOp_Read \/ op blk = kDiskBlockOp_Idle /\ hasData blk = is_ok (readError blk))
  | TRun _ _ _ _ => True
  | TMapped _ _ _ _ | TUnmap _ _ (WDop _) | TUnmap _ _ (WIO _) | TSync _ _ _ (WDop _) _ _ | TSync _ _ _ (WIO _) _ _ => hasData blk = true
  | _ => False
  end.

Definition task_rest (t : task) : list blkref := match t with TSync _ _ _ _ rest _ => rest | _ => [] end.

Record task_ok c (t : task) : Prop := {
  to_session : exists ses, sessions c !! session_of t = Some ses /\ isOpen ses = true /\ lba_ok ses (lba_of t) /\
    forall b, block_of t = Some b -> exists blk, blocks c !! b = Some blk /\ key blk = (sessionId ses, lba_of t) /\ task_blk_ok t blk;
  to_shape : block_of t = None -> exists s lba mode, t = TMap s lba mode WGet;
  to_rest : forall b, b ∈ task_rest t -> is_Some (blocks c !! b) }.

(** The disk may be behind the cache for the address of this block. *)
Definition behind (ts : list task) (b : blkref) (blk : DiskBlock) : Prop :=
  isDirty blk = true \/ op blk = kDiskBlockOp_Write \/ Exists (unsent b) ts.

Record inv c (ts : list task) st : Prop := {
  i_next : 0 < nextAvailSessionId c < 2 ^ 31;
  i_chains : chains_ok c;
  i_blocks : forall b blk, blocks c !! b = Some blk -> blk_ok (blockSize c) ts st b blk /\ b_sessionId blk < nextAvailSessionId c;
  i_sessions : forall s ses, sessions c !! s = Some ses -> isOpen ses = true ->
    ses_ok c ses /\ dop_ok c ses /\ activeMappingsCount ses = Z.of_nat (mappings s ts);
  i_ids : forall s1 s2 ses1 ses2, sessions c !! s1 = Some ses1 -> sessions c !! s2 = Some ses2 ->
    isOpen ses1 = true -> isOpen ses2 = true -> sessionId ses1 = sessionId ses2 -> s1 = s2;
  i_lba : forall b blk s ses, blocks c !! b = Some blk -> sessions c !! s = Some ses -> isOpen ses = true ->
    sessionId ses = b_sessionId blk -> lba_ok ses (b_lba blk);
  i_tasks : forall t, t ∈ ts -> task_ok c t;
  i_disk : forall s ses lba, sessions c !! s = Some ses -> isOpen ses = true -> lba_ok ses lba ->
    on_disk ses lba = st (sessionId ses) lba \/
    exists b blk, blocks c !! b = Some blk /\ key blk = (sessionId ses, lba) /\ behind ts b blk }.

(** ** Framing *)

Definition not_holding (b : blkref) (t : task) : Prop := forall x, hold t <> Some (b, x).

Lemma not_about b t : block_of t <> Some b -> not_holding b t.
Proof. intros Hb x E. by apply hold_block in E. Qed.

Lemma holders_skip b x t ts : not_holding b t -> holders b x (t :: ts) = holders b x ts.
Proof. intros Hb. by rewrite holders_cons, decide_False. Qed.

Lemma exists_skip (P : task -> Prop) b t ts :
  (forall x, P x -> exists m, hold x = Some (b, m)) -> not_holding b t -> Exists P (t :: ts) <-> Exists P ts.
Proof.
  intros HP Hb. rewrite Exists_cons. split; [|by right]. intros [Ht|]; [|done].
  destruct (HP t Ht) as [m E]. by destruct (Hb m).
Qed.

Ltac skip_all := rewrite ?holders_skip by done;
  rewrite ?(exists_skip (editing _)) by (done || (intros ? ?; eexists; by apply editing_hold)).

Lemma valid_io_skip o h b t ts : not_holding b t -> valid_io o h b (t :: ts) <-> valid_io o h b ts.
Proof.
  intros Hb. unfold valid_io. rewrite !exists_skip; [done| |done| |done]; intros x Hx; eexists;
    (by apply reading_hold) || by apply writing_hold.
Qed.

(** A task that is not about the block does not matter for it. *)
Lemma blk_ok_skip n st b blk t ts : not_holding b t -> blk_ok n (t :: ts) st b blk <-> blk_ok n ts st b blk.
Proof.
  intros Hb. split; intros [H1 H2 H3 H4 H5 H6 H7 H8 H9 H10]; (split; [done|done| | |done|done|done|done| |]);
    revert H3 H4 H9 H10; skip_all; rewrite ?valid_io_skip by done; done.
Qed.

Lemma behind_skip b blk t ts : not_holding b t -> behind (t :: ts) b blk <-> behind ts b blk.
Proof.
  intros Hb. unfold behind. rewrite exists_skip; [done| |done]. intros x Hx. eexists. by apply unsent_hold.
Qed.

Lemma blk_ok_store n st st' b blk ts :
  st' (b_sessionId blk) (b_lba blk) = st (b_sessionId blk) (b_lba blk) -> blk_ok n ts st b blk -> blk_ok n ts st' b blk.
Proof. intros E [H1 H2 H3 H4 H5 H6 H7 H8 H9 H10]. split; try done. rewrite E. done. Qed.

(** Two states of a session that differ in the request object and the mappings only. *)
Record same_ses ses ses' : Prop := {
  ss_disk : s_disk ses' = s_disk ses; ss_dev : s_dev ses' = s_dev ses; ss_id : sessionId ses' = sessionId ses;
  ss_sector : s_sectorSize ses' = s_sectorSize ses; ss_factor : s2bFactor ses' = s2bFactor ses;
  ss_pad : trailPadSize ses' = trailPadSize ses; ss_cluster : rwClusterSize ses' = rwClusterSize ses;
  ss_open : isOpen ses' = isOpen ses }.

Lemma same_ses_refl ses : same_ses ses ses.
Proof. by split. Qed.

Lemma same_ses_lba ses ses' lba : same_ses ses ses' -> lba_ok ses' lba <-> lba_ok ses lba.
Proof. intros [E1 _ _ _ E5 _ _ _]. unfold lba_ok. by rewrite E1, E5. Qed.

Lemma same_ses_disk ses ses' lba : same_ses ses ses' -> on_disk ses' lba = on_disk ses lba.
Proof. intros []. unfold on_disk. congruence. Qed.

Lemma same_ses_ok c c' ses ses' :
  same_ses ses ses' -> blockSize c' = blockSize c -> nextAvailSessionId c' = nextAvailSessionId c -> ses_ok c ses -> ses_ok c' ses'.
Proof.
  intros [E1 E2 E3 E4 E5 E6 E7 E8] Eb En [H1 H2 H3 H4 H5 H6 H7 H8 H9]. split; rewrite ?E1, ?E2, ?E3, ?E4, ?E5, ?E6, ?E7, ?Eb, ?En; done.
Qed.

(** The sessions before and after a move. *)
Definition same_sessions (m m' : gmap positive (DiskSession D)) : Prop :=
  forall s, match m !! s, m' !! s with Some a, Some b => same_ses a b | None, None => True | _, _ => False end.

Lemma same_sessions_refl m : same_sessions m m.
Proof. intros s. destruct (m !! s); [apply same_ses_refl|done]. Qed.

Lemma same_sessions_alter s f m : (forall ses, same_ses ses (f ses)) -> same_sessions m (alter f s m).
Proof.
  intros Hf s'. destruct (decide (s' = s)) as [->|].
  - rewrite lookup_alter_eq. destruct (m !! s); cbn; [apply Hf|done].
  - rewrite lookup_alter_ne by done. apply same_sessions_refl.
Qed.

Lemma same_sessions_l m m' s a : same_sessions m m' -> m !! s = Some a -> exists b, m' !! s = Some b /\ same_ses a b.
Proof. intros Hs E. specialize (Hs s). rewrite E in Hs. destruct (m' !! s) as [b|]; [by exists b|done]. Qed.
Lemma same_sessions_r m m' s b : same_sessions m m' -> m' !! s = Some b -> exists a, m !! s = Some a /\ same_ses a b.
Proof. intros Hs E. specialize (Hs s). rewrite E in Hs. destruct (m !! s) as [a|]; [by exists a|done]. Qed.

(** A task that does not hold the block exclusively is not disturbed by a change of it. *)
Lemma task_blk_keep t b blk blk' :
  block_of t = Some b -> hold t <> Some (b, true) -> (hasData blk = true -> hasData blk' = true) ->
  task_blk_ok t blk -> task_blk_ok t blk'.
Proof. task_cases t; cbn; try done; naive_solver. Qed.

Lemma task_keep c c' b blk blk' t :
  blocks c !! b = Some blk -> blocks c' = <[b := blk']> (blocks c) -> same_sessions (sessions c) (sessions c') ->
  key blk' = key blk -> (hasData blk = true -> hasData blk' = true) -> hold t <> Some (b, true) ->
  task_ok c t -> task_ok c' t.
Proof.
  intros Hb Ebl Hs Hk Hd Hh [(ses & Hses & Ho & Hl & Hblk) Hsh Hr].
  destruct (same_sessions_l _ _ _ _ Hs Hses) as (ses' & Hses' & Hss). split.
  - exists ses'. split_and!; [done|by rewrite (ss_open _ _ Hss)|by apply (same_ses_lba ses)|].
    intros x Hx. destruct (Hblk x Hx) as (k & Ek & Hkk & Htk). rewrite Ebl, (ss_id _ _ Hss).
    destruct (decide (x = b)) as [->|]; [|rewrite lookup_insert_ne by done; by exists k].
    rewrite lookup_insert_eq. rewrite Hb in Ek. injection Ek as <-. exists blk'. split_and!; [done|congruence|].
    by apply (task_blk_keep t b blk).
  - done.
  - intros x Hx. rewrite Ebl. apply lookup_insert_is_Some'. right. by apply Hr.
Qed.


(** A call goes from [t] to [t'] and changes the block it is about. *)
Lemma move c c' ts st st' b blk blk' t t' :
  inv c (t :: ts) st -> blocks c !! b = Some blk ->
  chains_ok c' -> blocks c' = <[b := blk']> (blocks c) ->
  blockSize c' = blockSize c -> nextAvailSessionId c' = nextAvailSessionId c ->
  same_sessions (sessions c) (sessions c') ->
  (forall s ses, sessions c' !! s = Some ses -> isOpen ses = true ->
     dop_ok c' ses /\ activeMappingsCount ses = Z.of_nat (mappings s (t' :: ts))) ->
  key blk' = key blk -> (hasData blk = true -> hasData blk' = true) ->
  (forall b', b' <> b -> block_of t <> Some b' /\ block_of t' <> Some b') ->
  (forall t'', t'' ∈ ts -> hold t'' <> Some (b, true)) ->
  blk_ok (blockSize c) (t' :: ts) st' b blk' -> task_ok c' t' ->
  (forall sid lba, (sid, lba) <> key blk -> st' sid lba = st sid lba) ->
  behind (t' :: ts) b blk' \/
    st' (b_sessionId blk) (b_lba blk) = st (b_sessionId blk) (b_lba blk) /\ (behind (t :: ts) b blk -> behind (t' :: ts) b blk') ->
  inv c' (t' :: ts) st'.
Proof.
  intros [Hnx Hch Hbl Hse Hid Hlb Hta Hdi] Hb Hch' Ebl Ebs En Hss Hses Hk Hd Hat Hot Hbo Hto Hst Hbe.
  assert (Hkey : forall x k, blocks c !! x = Some k -> key k = key blk -> x = b) by (intros x k Hx Ek; by apply (co_keys c Hch x b k blk)).
  split.
  - by rewrite En.
  - done.
  - intros x k Hx. rewrite Ebl in Hx. rewrite Ebs, En. destruct (Hbl b blk Hb) as [_ Hlt].
    apply lookup_insert_Some in Hx as [[<- <-]|[Hne Hx]]; [split; [done|]; unfold key in Hk; congruence|].
    destruct (Hbl x k Hx) as [Hok Hl]. split; [|done]. destruct (Hat x) as [A1%not_about A2%not_about]; [done|].
    rewrite blk_ok_skip in Hok |- * by done. apply (blk_ok_store _ st); [|done]. apply Hst. intros E. apply Hne. symmetry. by apply (Hkey x k).
  - intros s ses' Hs Ho. destruct (Hses s ses' Hs Ho) as [Hdo Hmp]. destruct (same_sessions_r _ _ _ _ Hss Hs) as (ses & Hs0 & E).
    split; [|done]. apply (same_ses_ok c c' ses ses'); try done. rewrite (ss_open _ _ E) in Ho. by apply (Hse s).
  - intros s1 s2 a1 a2 E1 E2 O1 O2 E. destruct (same_sessions_r _ _ _ _ Hss E1) as (b1 & F1 & G1).
    destruct (same_sessions_r _ _ _ _ Hss E2) as (b2 & F2 & G2). rewrite (ss_open _ _ G1) in O1. rewrite (ss_open _ _ G2) in O2.
    rewrite (ss_id _ _ G1), (ss_id _ _ G2) in E. by apply (Hid s1 s2 b1 b2).
  - intros x k s ses' Hx Hs Ho E. rewrite Ebl in Hx. destruct (same_sessions_r _ _ _ _ Hss Hs) as (ses & Hs0 & G).
    rewrite (ss_open _ _ G) in Ho. rewrite (ss_id _ _ G) in E. apply (same_ses_lba ses); [done|].
    unfold key in Hk. injection Hk as Hk1 Hk2.
    apply lookup_insert_Some in Hx as [[<- <-]|[_ Hx]]; [rewrite Hk2; apply (Hlb b blk s); congruence|by apply (Hlb x k s)].
  - intros x [->|Hx]%elem_of_cons; [done|]. apply (task_keep c c' b blk blk'); try done; [by apply Hot|]. apply Hta. by right.
  - intros s ses' lba Hs Ho Hl. destruct (same_sessions_r _ _ _ _ Hss Hs) as (ses & Hs0 & E).
    rewrite (ss_open _ _ E) in Ho. rewrite (same_ses_lba ses) in Hl by done. rewrite (same_ses_disk ses), (ss_id _ _ E) by done.
    destruct (decide ((sessionId ses, lba) = key blk)) as [Ek|Ek].
    + assert (Hin : behind (t' :: ts) b blk' ->
        exists x k, blocks c' !! x = Some k /\ key k = (sessionId ses, lba) /\ behind (t' :: ts) x k).
      { intros Hx. exists b, blk'. rewrite Ebl, lookup_insert_eq. split_and!; [done|congruence|done]. }
      destruct Hbe as [Hx|[Est Hx]]; [by right; apply Hin|]. unfold key in Ek. injection Ek as Ei El.
      destruct (Hdi s ses lba Hs0 Ho Hl) as [Hd0|(x & k & Hxk & Hkk & Hbx)].
      * left. rewrite Hd0, Ei, El. done.
      * right. apply Hin, Hx. assert (x = b) as -> by (apply (Hkey x k); [done|rewrite Hkk; unfold key; congruence]). congruence.
    + rewrite Hst by done. destruct (Hdi s ses lba Hs0 Ho Hl) as [Hd0|(x & k & Hxk & Hkk & Hbx)]; [by left|right].
      assert (x <> b) by (intros ->; congruence). destruct (Hat x) as [A1%not_about A2%not_about]; [done|].
      exists x, k. rewrite Ebl, lookup_insert_ne by done. split_and!; [done|done|]. rewrite behind_skip in Hbx |- * by done. done.
Qed.

(** The request objects do not notice a change that leaves the address and the
    operation of the block alone. *)
Lemma dop_keep c c' ses b blk blk' :
  blocks c !! b = Some blk -> blocks c' = <[b := blk']> (blocks c) -> key blk' = key blk -> op blk' = op blk ->
  dop_ok c ses -> dop_ok c' ses.
Proof.
  intros Hb Ebl Hk Ho. unfold dop_ok. destruct (dopInUse ses); [|done]. intros [x [H1 H2 H3 (k & E & Es & El & Eo & Ef)]].
  exists x. split; [done|done|done|]. rewrite Ebl. unfold key in Hk. injection Hk as K1 K2. destruct (decide (x = b)) as [->|].
  - rewrite Hb in E. injection E as <-. exists blk'. rewrite lookup_insert_eq.
    split; [done|split; [congruence|rewrite K2; split; [done|split; [congruence|done]]]].
  - exists k. rewrite lookup_insert_ne by done. done.
Qed.


Lemma dop_same c c' ses ses' :
  blocks c' = blocks c -> dop ses' = dop ses -> dopInUse ses' = dopInUse ses -> same_ses ses ses' -> dop_ok c ses -> dop_ok c' ses'.
Proof.
  intros Eb Ed Eu E. unfold dop_ok. rewrite Eu, Ed. destruct (dopInUse ses); [|done].
  intros [b [H1 H2 H3 (blk & Hb & Hs & Hl & Ho & Hf)]]. exists b. split; [by rewrite Ed..|]. exists blk.
  rewrite Eb, Ed, (ss_id _ _ E), (same_ses_lba ses), (ss_factor _ _ E), (ss_sector _ _ E) by done. done.
Qed.

(** Who else holds the block of a task that holds it. *)
Lemma no_other c ts st b blk t :
  inv c (t :: ts) st -> blocks c !! b = Some blk -> (exists x, hold t = Some (b, x)) \/ exclusive blk = false ->
  forall t', t' ∈ ts -> hold t' <> Some (b, true).
Proof.
  intros Hi Hb Ht. destruct (i_blocks _ _ _ Hi b blk Hb) as [[_ _ He Hs Ho _ _ _ _ _] _].
  apply holders_zero. rewrite holders_cons in He. destruct (exclusive blk); [|lia].
  destruct Ht as [[x Hx]|]; [|done]. rewrite Hx in He. destruct (decide _) as [|Hn]; [lia|]. destruct x; [done|].
  specialize (Ho eq_refl). rewrite Ho in Hs. rewrite holders_cons, Hx, decide_True in Hs by done. lia.
Qed.

(** A block that is held exclusively is idle, unless the holder waits for the disk. *)
Lemma held_idle c ts st b blk t :
  inv c (t :: ts) st -> blocks c !! b = Some blk -> hold t = Some (b, true) -> ~ reading b t -> op blk = kDiskBlockOp_Idle.
Proof.
  intros Hi Hb Ht Hr. pose proof (no_other c ts st b blk t Hi Hb (or_introl (ex_intro _ true Ht))) as Hn.
  destruct (i_blocks _ _ _ Hi b blk Hb) as [[_ _ He Hs Ho _ _ _ Hv _] _].
  destruct Hv as [Hv1 Hv2]. destruct (op blk); [done| |]; [destruct (Hv1 eq_refl) as [_ Hx]|destruct (Hv2 eq_refl) as [_ Hx]]; exfalso.
  - apply Exists_cons in Hx as [|Hx]; [done|]. apply list.Exists_exists in Hx as (t' & Hin & Hx). apply (Hn t' Hin). by apply reading_hold.
  - rewrite holders_cons, Ht, decide_True in He by done. destruct (exclusive blk); [|lia]. rewrite Ho in Hs by done.
    apply list.Exists_exists in Hx as (t' & Hin & Hx). apply writing_hold in Hx. pose proof (holders_elem _ _ _ _ Hin Hx). lia.
Qed.

(** A change of the block alone. *)
Lemma move_blk c ts st st' b blk f t t' :
  inv c (t :: ts) st -> blocks c !! b = Some blk -> block_of t = Some b -> (exists x, hold t = Some (b, x)) \/ exclusive blk = false ->
  key (f blk) = key blk -> op (f blk) = op blk -> isDirty (f blk) = isDirty blk -> (hasData blk = true -> hasData (f blk) = true) ->
  session_of t' = session_of t -> lba_of t' = lba_of t -> mapping t' = mapping t ->
  (block_of t' = Some b /\ task_blk_ok t' (f blk)) \/ (exists s lba mode, t' = TMap s lba mode WGet) ->
  (forall x, x ∈ task_rest t' -> is_Some (blocks c !! x)) ->
  blk_ok (blockSize c) (t' :: ts) st' b (f blk) ->
  (forall sid lba, (sid, lba) <> key blk -> st' sid lba = st sid lba) ->
  behind (t' :: ts) b (f blk) \/
    st' (b_sessionId blk) (b_lba blk) = st (b_sessionId blk) (b_lba blk) /\ (behind (t :: ts) b blk -> behind (t' :: ts) b (f blk)) ->
  inv (upd_block b f c) (t' :: ts) st'.
Proof.
  intros Hi Hb Ht Hx Hk Ho Hdi Hd Es El Em Ht' Hrest Hbo Hst Hbe.
  assert (Ebl : blocks (upd_block b f c) = <[b := f blk]> (blocks c)) by by apply alter_lookup.
  apply (move c _ ts st st' b blk (f blk) t t'); try done.
  - apply chains_upd; [apply (i_chains _ _ _ Hi)|]. intros k E. rewrite Hb in E. by injection E as <-.
  - apply same_sessions_refl.
  - intros s ses Hs Hop. destruct (i_sessions _ _ _ Hi s ses Hs Hop) as (_ & Hdop & Hm). split; [by apply (dop_keep c _ ses b blk (f blk))|].
    rewrite Hm. f_equal. by rewrite !mappings_cons, Em.
  - intros b' Hne. split; [congruence|]. destruct Ht' as [[-> _]|(s & l & m & ->)]; [congruence|done].
  - by apply (no_other c ts st b blk t).
  - destruct (i_tasks _ _ _ Hi t) as [(ses & Hs & Hop & Hl & Hblk) _ _]; [by left|]. split.
    + exists ses. rewrite Es, El. split; [done|split; [done|split; [done|]]]. intros x Ex.
      destruct Ht' as [[E Hok]|(s & l & m & ->)]; [|done]. rewrite E in Ex. injection Ex as <-.
      destruct (Hblk b Ht) as (k & Ek & Hkk & _). rewrite Hb in Ek. injection Ek as <-.
      exists (f blk). rewrite Ebl, lookup_insert_eq. split_and!; [done|congruence|done].
    + destruct Ht' as [[E _]|Hw]; [congruence|done].
    + intros x Hxr. rewrite Ebl. apply lookup_insert_is_Some'. right. by apply Hrest.
Qed.


(** ** The lock on the content *)

(** The part of the first task in the counts and in the conditions. *)
Ltac heads :=
  unfold behind, valid_io in *; rewrite ?holders_cons, ?Exists_cons in *; cbn [hold editing reading writing unsent] in *;
  repeat case_decide; try congruence.

Ltac blk_move Hi Hb :=
  let A1 := fresh "A" in let A2 := fresh "A" in let A3 := fresh "Aex" in let A4 := fresh "Ash" in let A5 := fresh "Aone" in
  let A6 := fresh "A" in let A7 := fresh "A" in let A8 := fresh "A" in let A9 := fresh "Aop" in let A10 := fresh "Adata" in
  destruct (i_blocks _ _ _ Hi _ _ Hb) as [[A1 A2 A3 A4 A5 A6 A7 A8 A9 A10] _];
  split; try done; cbn [set_lock set_data set_dirty shareCount exclusive hasData isDirty op data b_sessionId b_lba];
  heads; try done; try lia; try tauto.

Lemma lock_shared c ts st s lba mode b m blk :
  inv c (TMap s lba mode (WLock b m) :: ts) st -> blocks c !! b = Some blk -> exclusive blk = false ->
  inv (upd_block b (set_lock false (shareCount blk + 1)) c) (TRun s lba b false :: ts) st.
Proof.
  intros Hi Hb Hx. eapply (move_blk c ts st st b blk); try done; try (by right); try (by left).
  - intros x Hr. by apply elem_of_nil in Hr.
  - blk_move Hi Hb. by rewrite Hx in *.
  - right. split; [done|]. heads. tauto.
Qed.

Lemma lock_exclusive c ts st s lba mode b m blk :
  inv c (TMap s lba mode (WLock b m) :: ts) st -> blocks c !! b = Some blk -> exclusive blk = false -> shareCount blk = 0 ->
  inv (upd_block b (set_lock true (shareCount blk)) c) (TRun s lba b true :: ts) st.
Proof.
  intros Hi Hb Hx Hs. eapply (move_blk c ts st st b blk); try done; try (by right); try (by left).
  - intros x Hr. by apply elem_of_nil in Hr.
  - blk_move Hi Hb. rewrite Hx in *. lia.
  - right. split; [done|]. heads. tauto.
Qed.

(** A holder gives its lock back and is done. *)
Lemma unlock c ts st s lba mode b x blk :
  inv c (TRun s lba b x :: ts) st -> blocks c !! b = Some blk ->
  (x = true -> hasData blk = true -> data blk = st (b_sessionId blk) (b_lba blk)) ->
  exists c', UnlockContentAndPutBlock b c = Some c' /\ UnlockBlockContent b c = Some c' /\ PutBlock b c' = Some c' /\
    c' = upd_block b (set_lock false (if x then shareCount blk else shareCount blk - 1)) c /\
    inv c' (TMap s lba mode WGet :: ts) st.
Proof.
  intros Hi Hb Hd. set (c' := upd_block b (set_lock false (if x then shareCount blk else shareCount blk - 1)) c).
  assert (Hi' : inv c' (TMap s lba mode WGet :: ts) st).
  { eapply (move_blk c ts st st b blk); try done; try (by left); try (by eauto).
    - intros y Hr. by apply elem_of_nil in Hr.
    - destruct x; blk_move Hi Hb; destruct (exclusive blk); try lia; try done; try tauto.
    - right. split; [done|]. heads. tauto. }
  assert (Eb : blocks c' !! b = Some (set_lock false (if x then shareCount blk else shareCount blk - 1) blk))
    by (unfold c'; cbn; by rewrite lookup_alter_eq, Hb).
  assert (Eu : UnlockBlockContent b c = Some c').
  { unfold UnlockBlockContent. rewrite (bind_some Hb). destruct (i_blocks _ _ _ Hi _ _ Hb) as [[_ _ A3 A4 A5 _ _ _ _ _] _].
    unfold c'. clear c' Hi' Eb. destruct x; heads; destruct (exclusive blk); lia || done || (rewrite (proj2 (Z.ltb_lt 0 _)) by lia; done). }
  assert (Ep : PutBlock b c' = Some c').
  { unfold PutBlock. rewrite (bind_some Eb). destruct (DiskBlock_InUse _) eqn:Eu'; [done|]. cbn [negb andb op set_lock].
    destruct (i_blocks _ _ _ Hi' _ _ Eb) as [[_ _ A3 A4 _ _ _ _ A9 _] _]. cbn [set_lock op exclusive shareCount hasData] in *.
    rewrite bool_decide_true; [done|]. unfold DiskBlock_InUse in Eu'. cbn [shareCount exclusive set_lock] in Eu'.
    apply orb_false_iff in Eu' as [Eu' _]. apply Z.ltb_ge in Eu'. destruct A9 as [A9 A9'].
    destruct (op blk); [done| |]; exfalso; [destruct (A9 eq_refl) as [_ Hx]|destruct (A9' eq_refl) as [_ Hx]];
      apply list.Exists_exists in Hx as (t & Ht & Hx).
    - apply reading_hold in Hx. pose proof (holders_elem _ _ _ _ Ht Hx). lia.
    - apply writing_hold in Hx. pose proof (holders_elem _ _ _ _ Ht Hx). lia. }
  exists c'. split_and!; [|done|done|done|done]. unfold UnlockContentAndPutBlock. by rewrite (bind_some Eu).
Qed.


(** The holder of the lock goes on without a change of the block. *)
Lemma retask c c' ts st b blk t t' x :
  inv c (t :: ts) st -> blocks c !! b = Some blk -> hold t = Some (b, x) -> hold t' = Some (b, x) ->
  chains_ok c' -> blocks c' = blocks c -> blockSize c' = blockSize c -> nextAvailSessionId c' = nextAvailSessionId c ->
  same_sessions (sessions c) (sessions c') ->
  (forall s ses, sessions c' !! s = Some ses -> isOpen ses = true ->
     dop_ok c' ses /\ activeMappingsCount ses = Z.of_nat (mappings s (t' :: ts))) ->
  session_of t' = session_of t -> lba_of t' = lba_of t -> task_blk_ok t' blk ->
  (forall x, x ∈ task_rest t' -> is_Some (blocks c !! x)) ->
  (op blk = kDiskBlockOp_Read -> reading b t -> reading b t') -> (op blk = kDiskBlockOp_Write -> writing b t -> writing b t') ->
  (editing b t -> editing b t' \/ (hasData blk = true -> data blk = st (b_sessionId blk) (b_lba blk))) ->
  (unsent b t -> unsent b t') ->
  inv c' (t' :: ts) st.
Proof.
  intros Hi Hb Ht Ht' Hch Ebl Ebs En Hss Hses Es El Hbk Hrest Hr Hw He Hu.
  assert (Eins : blocks c' = <[b := blk]> (blocks c)) by by rewrite insert_id.
  apply (move c c' ts st st b blk blk t t'); try done.
  - intros b' Hne. apply hold_block in Ht, Ht'. split; congruence.
  - eapply no_other; eauto.
  - destruct (i_blocks _ _ _ Hi b blk Hb) as [[A1 A2 A3 A4 A5 A6 A7 A8 A9 A10] _].
    split; try done; unfold valid_io in *; rewrite ?holders_cons, ?Exists_cons, ?Ht, ?Ht' in *; try done; [tauto|]. destruct (editing_dec b t); tauto.
  - destruct (i_tasks _ _ _ Hi t) as [(ses & Hs & Hop & Hl & Hblk) _ _]; [by left|].
    destruct (same_sessions_l _ _ _ _ Hss Hs) as (ses' & Hs' & E). split.
    + exists ses'. rewrite Es, El, Ebl. split; [done|]. rewrite (ss_open _ _ E), (same_ses_lba ses), (ss_id _ _ E) by done.
      split; [done|split; [done|]]. intros y Hy. pose proof (hold_block _ _ _ Ht') as E'. rewrite E' in Hy. injection Hy as <-.
      destruct (Hblk b (hold_block _ _ _ Ht)) as (k & Ek & Hk & _). exists k. rewrite Hb in Ek. injection Ek as <-. done.
    + apply hold_block in Ht'. congruence.
    + by rewrite Ebl.
  - right. split; [done|]. unfold behind. rewrite !Exists_cons. tauto.
Qed.

(** Without a change of the cache. *)
Lemma retask_same c ts st b blk t t' x :
  inv c (t :: ts) st -> blocks c !! b = Some blk -> hold t = Some (b, x) -> hold t' = Some (b, x) ->
  session_of t' = session_of t -> lba_of t' = lba_of t -> mapping t' = mapping t -> task_blk_ok t' blk ->
  (forall x, x ∈ task_rest t' -> is_Some (blocks c !! x)) ->
  (op blk = kDiskBlockOp_Read -> reading b t -> reading b t') -> (op blk = kDiskBlockOp_Write -> writing b t -> writing b t') ->
  (editing b t -> editing b t' \/ (hasData blk = true -> data blk = st (b_sessionId blk) (b_lba blk))) ->
  (unsent b t -> unsent b t') ->
  inv c (t' :: ts) st.
Proof.
  intros Hi Hb Ht Ht' Es El Em Hbk Hrest Hr Hw He Hu. apply (retask c c ts st b blk t t' x); try done.
  - apply (i_chains _ _ _ Hi).
  - apply same_sessions_refl.
  - intros s ses Hs Ho. destruct (i_sessions _ _ _ Hi s ses Hs Ho) as (_ & Hd & Hm). split; [done|].
    rewrite Hm. f_equal. by rewrite !mappings_cons, Em.
Qed.

(** The count of the mappings of the session follows the task. *)
Lemma remap c ts st s lba b x blk ses (on : bool) :
  let t := if on then TRun s lba b x else TMapped s lba b x in
  let t' := if on then TMapped s lba b x else TRun s lba b x in
  inv c (t :: ts) st -> blocks c !! b = Some blk -> hasData blk = true -> sessions c !! s = Some ses ->
  inv (upd_session s (set_mappings (activeMappingsCount ses + (if on then 1 else -1))) c) (t' :: ts) st.
Proof.
  intros t t' Hi Hb Hd Hs. apply (retask c _ ts st b blk t t' x); try (by destruct on); try done.
  - destruct (i_chains _ _ _ Hi). by split.
  - cbn. by apply same_sessions_alter.
  - intros s' ses' Hs' Ho. cbn in Hs'. destruct (decide (s' = s)) as [->|Hne].
    + rewrite lookup_alter_eq, Hs in Hs'. injection Hs' as <-. destruct (i_sessions _ _ _ Hi s ses Hs Ho) as (_ & Hdo & Hm).
      split; [by apply (dop_same c _ ses)|]. cbn [activeMappingsCount set_mappings]. rewrite Hm. unfold t, t'. destruct on; rewrite !mappings_cons; cbn [mapping]; repeat case_decide; try congruence; lia.
    + rewrite lookup_alter_ne in Hs' by done. destruct (i_sessions _ _ _ Hi s' ses' Hs' Ho) as (_ & Hdo & Hm).
      split; [by apply (dop_same c _ ses'); try done; apply same_ses_refl|]. rewrite Hm. unfold t, t'. destruct on; rewrite !mappings_cons; cbn [mapping]; repeat case_decide; try congruence; lia.
  - intros y Hy. unfold t' in Hy. destruct on; by apply elem_of_nil in Hy.
  - unfold t, t'. destruct on; cbn; tauto.
Qed.


(** ** The data *)

Definition st_upd (sid lba : Z) (d : list Z) st : store :=
  fun i l => if decide ((i, l) = (sid, lba)) then d else st i l.

Lemma st_upd_eq sid lba d st : st_upd sid lba d st sid lba = d.
Proof. unfold st_upd. by rewrite decide_True. Qed.
Lemma st_upd_ne sid lba d st i l : (i, l) <> (sid, lba) -> st_upd sid lba d st i l = st i l.
Proof. intros Hn. unfold st_upd. by rewrite decide_False. Qed.

Lemma downgrade_eq c b blk :
  blocks c !! b = Some blk -> exclusive blk = true ->
  DowngradeBlockContentLock b c = Some (upd_block b (set_lock false (shareCount blk + 1)) c).
Proof. intros Hb Hx. unfold DowngradeBlockContentLock, assert_exclusive. rewrite Hb. cbn. by rewrite Hx. Qed.

(** The holder of the exclusive lock. *)
Lemma holder_exclusive c ts st b blk t :
  inv c (t :: ts) st -> blocks c !! b = Some blk -> hold t = Some (b, true) -> exclusive blk = true.
Proof.
  intros Hi Hb Ht. destruct (i_blocks _ _ _ Hi b blk Hb) as [[_ _ A3 _ _ _ _ _ _ _] _].
  rewrite holders_cons, Ht, decide_True in A3 by done. destruct (exclusive blk); [done|lia].
Qed.

(** A read-only mapping goes on with a shared lock. *)
Lemma downgrade_run c ts st s lba b blk :
  inv c (TRun s lba b true :: ts) st -> blocks c !! b = Some blk ->
  (hasData blk = true -> data blk = st (b_sessionId blk) (b_lba blk)) ->
  inv (upd_block b (set_lock false (shareCount blk + 1)) c) (TRun s lba b false :: ts) st.
Proof.
  intros Hi Hb Hd. pose proof (holder_exclusive _ _ _ _ _ _ Hi Hb eq_refl) as Hx.
  eapply (move_blk c ts st st b blk); try done; try (by left); try (left; by exists true).
  - intros y Hr. by apply elem_of_nil in Hr.
  - blk_move Hi Hb. rewrite Hx in *. lia.
  - right. split; [done|]. heads. tauto.
Qed.

(** The client gives its block back and the new data is about to be written. *)
Lemma downgrade_unmap c ts st s lba b blk :
  inv c (TMapped s lba b true :: ts) st -> blocks c !! b = Some blk -> hasData blk = true ->
  inv (upd_block b (set_lock false (shareCount blk + 1)) c) (TUnmap s lba (WDop b) :: ts)
    (st_upd (b_sessionId blk) (b_lba blk) (data blk) st).
Proof.
  intros Hi Hb Hd. pose proof (holder_exclusive _ _ _ _ _ _ Hi Hb eq_refl) as Hx.
  eapply (move_blk c ts st _ b blk); try done; try (by left); try (left; by exists true).
  - intros y Hr. by apply elem_of_nil in Hr.
  - blk_move Hi Hb; [rewrite Hx in *; lia|]. intros _ _. by rewrite st_upd_eq.
  - intros sid l Hne. by apply st_upd_ne.
  - left. heads. tauto.
Qed.

(** The holder of the exclusive lock fills the block. *)
Lemma edit c ts st b blk d t :
  inv c (t :: ts) st -> editing b t -> blocks c !! b = Some blk -> length d = blockSize c -> Forall is_byte d ->
  inv (upd_block b (set_data true d) c) (t :: ts) st.
Proof.
  intros Hi Ht Hb Hl Hby. pose proof (editing_hold _ _ Ht) as Hh.
  assert (Hnr : ~ reading b t) by (revert Ht; clear; task_cases t; cbn; tauto).
  pose proof (held_idle _ _ _ _ _ _ Hi Hb Hh Hnr) as Hop.
  pose proof (hold_block _ _ _ Hh) as Hbt. destruct (i_tasks _ _ _ Hi t) as [(ses & _ & _ & _ & Hblk) _ Hrest]; [by left|].
  destruct (Hblk b Hbt) as (k & Ek & _ & Hk). rewrite Hb in Ek. injection Ek as <-.
  eapply (move_blk c ts st _ b blk _ t t); try done; try (by left); try (left; by exists true).
  - left. split; [done|]. revert Ht Hk. clear. task_cases t; cbn; tauto.
  - destruct (i_blocks _ _ _ Hi _ _ Hb) as [[A1 A2 A3 A4 A5 A6 A7 A8 A9 A10] _].
    split; try done; cbn [set_data op data hasData]; [by rewrite Hop|]. intros _ Hn. destruct Hn. by apply Exists_cons; left.
  - right. split; [done|]. unfold behind. cbn. done.
Qed.

(** The data of the client is the content of the address from now on; it is in a
    dirty block. *)
Lemma mark_dirty c ts st s lba b blk :
  inv c (TMapped s lba b true :: ts) st -> blocks c !! b = Some blk -> hasData blk = true ->
  let c' := if isDirty blk then c else set_dirtyCount (dirtyBlockCount c + 1) (upd_block b (set_dirty true) c) in
  let blk' := set_dirty true blk in
  blocks c' !! b = Some blk' /\ sessions c' = sessions c /\
  inv c' (TMapped s lba b true :: ts) (st_upd (b_sessionId blk) (b_lba blk) (data blk) st).
Proof.
  intros Hi Hb Hd c' blk'. pose proof (held_idle _ _ _ _ _ _ Hi Hb eq_refl (fun x => x)) as Hop.
  assert (Ebl : blocks c' = <[b := blk']> (blocks c)).
  { unfold c', blk'. destruct (isDirty blk) eqn:E; cbn; [|by rewrite (alter_lookup _ _ _ blk)].
    rewrite insert_id; [done|]. rewrite Hb. by destruct blk; cbn in *; subst. }
  assert (Es : sessions c' = sessions c) by (unfold c'; by destruct (isDirty blk)).
  split; [by rewrite Ebl, lookup_insert_eq|]. split; [done|].
  apply (move c c' ts st _ b blk blk' (TMapped s lba b true) (TMapped s lba b true)); try done.
  - unfold c'. destruct (isDirty blk) eqn:E; [apply (i_chains _ _ _ Hi)|].
    apply (chains_set_dirty b true blk); [apply (i_chains _ _ _ Hi)|done|done].
  - unfold c'. by destruct (isDirty blk).
  - unfold c'. by destruct (isDirty blk).
  - rewrite Es. apply same_sessions_refl.
  - rewrite Es. intros s' ses Hs Ho. destruct (i_sessions _ _ _ Hi s' ses Hs Ho) as (_ & Hdo & Hm).
    split; [|done]. by apply (dop_keep c c' ses b blk blk').
  - intros b' Hne. cbn. split; congruence.
  - eapply no_other; [done|done|]. left. by exists true.
  - blk_move Hi Hb.
  - destruct (i_tasks _ _ _ Hi (TMapped s lba b true)) as [(ses & Hs & Hop' & Hl & Hblk) _ _]; [by left|]. split.
    + exists ses. rewrite Es. split; [done|split; [done|split; [done|]]]. intros x [= <-].
      destruct (Hblk b eq_refl) as (k & Ek & Hkk & _). rewrite Hb in Ek. injection Ek as <-.
      exists blk'. rewrite Ebl, lookup_insert_eq. done.
    + done.
    + intros y Hy. by apply elem_of_nil in Hy.
  - intros sid l Hne. by apply st_upd_ne.
  - left. by left.
Qed.


(** ** Requests *)

(** The start of a request for block [b]: a read for the holder of the exclusive
    lock, a write for a holder of a shared lock. *)
Definition op_of (w : bool) : DiskBlockOp := if w then kDiskBlockOp_Write else kDiskBlockOp_Read.

Lemma started c c' ts st b blk s ses t t' (w : bool) :
  inv c (t :: ts) st -> hold t = Some (b, negb w) -> hold t' = Some (b, negb w) -> blocks c !! b = Some blk ->
  session_of t = s -> session_of t' = s -> lba_of t' = lba_of t -> mapping t' = mapping t -> task_rest t' = task_rest t ->
  sessions c !! s = Some ses ->
  (if w then writing b t' /\ hasData blk = true else reading b t' /\ hasData blk = false /\ op blk = kDiskBlockOp_Idle) ->
  task_blk_ok t' (set_op (op_of w) false EOK blk) -> ~ editing b t ->
  chains_ok c' -> blocks c' = <[b := set_op (op_of w) false EOK blk]> (blocks c) ->
  blockSize c' = blockSize c -> nextAvailSessionId c' = nextAvailSessionId c ->
  sessions c' = <[s := set_dop (Dop w 1 [Some b] (b_lba blk * s2bFactor ses * s_sectorSize ses) true) true false ses]> (sessions c) ->
  inv c' (t' :: ts) st.
Proof.
  intros Hi Ht Ht' Hb Es Es' El Em Er Hs Hw Htk Hed Hch Ebl Ebs En Ese. set (blk' := set_op (op_of w) false EOK blk) in *.
  destruct (i_tasks _ _ _ Hi t) as [(ses0 & Hs0 & Ho & Hl & Hblk) _ Hrest]; [by left|]. rewrite Es, Hs in Hs0. injection Hs0 as <-.
  destruct (Hblk b (hold_block _ _ _ Ht)) as (k & Ek & Hk & _). rewrite Hb in Ek. injection Ek as <-.
  assert (Hss : same_sessions (sessions c) (sessions c')).
  { rewrite Ese. intros s'. destruct (decide (s' = s)) as [->|]; [by rewrite lookup_insert_eq, Hs|].
    rewrite lookup_insert_ne by done. apply same_sessions_refl. }
  unfold key in Hk. injection Hk as Hk1 Hk2.
  apply (move c c' ts st st b blk blk' t t'); try done.
  - intros s' ses' Hs' Ho'. rewrite Ese in Hs'. apply lookup_insert_Some in Hs' as [[<- <-]|[Hne Hs']].
    + destruct (i_sessions _ _ _ Hi s ses Hs Ho) as (_ & _ & Hm). split.
      * unfold dop_ok. cbn. exists b. split; [done|done|done|]. cbn. exists blk'. rewrite Ebl, lookup_insert_eq.
        split; [done|]. split; [done|]. rewrite <- Hk2 in Hl. split; [done|]. split; [done|done].
      * cbn [activeMappingsCount set_dop]. rewrite Hm. f_equal. by rewrite !mappings_cons, Em.
    + destruct (i_sessions _ _ _ Hi s' ses' Hs' Ho') as (_ & Hd & Hm). split; [|rewrite Hm; f_equal; by rewrite !mappings_cons, Em].
      unfold dop_ok in *. destruct (dopInUse ses'); [|done]. destruct Hd as [b2 [H1 H2 H3 (k2 & E2 & I2 & R2)]].
      exists b2. split; [done|done|done|]. exists k2. rewrite Ebl, lookup_insert_ne; [done|]. intros ->.
      rewrite Hb in E2. injection E2 as <-. apply Hne. apply (i_ids _ _ _ Hi s s' ses ses'); congruence.
  - intros b' Hne. apply hold_block in Ht, Ht'. split; congruence.
  - eapply no_other; eauto.
  - destruct (i_blocks _ _ _ Hi b blk Hb) as [[A1 A2 A3 A4 A5 A6 A7 A8 A9 A10] _].
    split; try done; unfold valid_io; rewrite ?holders_cons, ?Exists_cons, ?Ht, ?Ht' in *; try done.
    + destruct w; cbn; split; try done; tauto.
    + cbn. tauto.
  - split.
    + exists (set_dop (Dop w 1 [Some b] (b_lba blk * s2bFactor ses * s_sectorSize ses) true) true false ses).
      rewrite Es', Ese, lookup_insert_eq, El. split; [done|split; [done|split; [done|]]].
      intros x Hx. pose proof (hold_block _ _ _ Ht') as E. rewrite E in Hx. injection Hx as <-.
      exists blk'. rewrite Ebl, lookup_insert_eq. split; [done|]. split; [unfold key; cbn; congruence|done].
    + apply hold_block in Ht'. congruence.
    + rewrite Er. intros x Hx. rewrite Ebl. apply lookup_insert_is_Some'. right. by apply Hrest.
  - destruct w; [left; right; by left|right]. split; [done|]. destruct Hw as (_ & _ & Hop).
    unfold behind. rewrite !Exists_cons. cbn. intros [?|[?|[Hu|?]]]; [by left|congruence| |by right; right; right].
    apply unsent_hold in Hu. rewrite Ht in Hu. done.
Qed.


Lemma lba_offset_ok c ses lba :
  ses_ok c ses -> lba_ok ses lba -> lba_offset ses lba = lba * s2bFactor ses * s_sectorSize ses.
Proof.
  intros [[(_ & _ & _ & Hp) _ _ Hr _] _ _ Hsz Hss [Hf _] _ _ _] [Hl Hu]. unfold lba_offset. rewrite Hss.
  rewrite (u32_small (lba * _)) by nia. apply u32_small. split; [nia|].
  assert ((lba + 1) * s2bFactor ses * sectorSize (s_disk ses) <= sectorCount (s_disk ses) * sectorSize (s_disk ses)) by nia. nia.
Qed.

(** What the start of a request does to the cache, if the request object is free. *)
Definition start_effect c c' (w : bool) s ses b blk : Prop :=
  chains_ok c' /\ blocks c' = <[b := set_op (op_of w) false EOK blk]> (blocks c) /\
  blockSize c' = blockSize c /\ nextAvailSessionId c' = nextAvailSessionId c /\
  sessions c' = <[s := set_dop (Dop w 1 [Some b] (b_lba blk * s2bFactor ses * s_sectorSize ses) true) true false ses]> (sessions c).

Lemma start_chains c b o blk :
  chains_ok c -> blocks c !! b = Some blk -> chains_ok (upd_block b (set_op o false EOK) c).
Proof. intros Hc Hb. by apply chains_upd. Qed.

Lemma start_write_eq c s ses b blk :
  chains_ok c -> sessions c !! s = Some ses -> blocks c !! b = Some blk -> ses_ok c ses -> lba_ok ses (b_lba blk) -> dop_ok c ses ->
  if dopInUse ses
  then StartWriteOp EOK true s b c = Some (IoWaitDop, upd_session s (set_dop (dop ses) true true) c)
  else exists c', StartWriteOp EOK true s b c = Some (IoStarted, c') /\ start_effect c c' true s ses b blk.
Proof.
  intros Hc Hs Hb Hok Hl Hd. unfold StartWriteOp, AcquireDiskOp. rewrite (bind_some Hs). unfold dop_ok in Hd.
  destruct (dopInUse ses) eqn:Eu; [done|]. destruct Hd as [Hlen Hq]. cbn [mbind option_bind fst snd].
  assert (E1 : sessions (upd_session s (set_dop (dop ses) true false) c) !! s = Some (set_dop (dop ses) true false ses))
    by (cbn; by rewrite lookup_alter_eq, Hs).
  rewrite (bind_some E1), (bind_some (m := blocks (upd_session _ _ c) !! b) Hb). cbn [queue_request is_ok]. eexists. split; [done|].
  split_and!; try done.
  - destruct (start_chains c b kDiskBlockOp_Write blk Hc Hb). by split.
  - cbn. by apply alter_lookup.
  - cbn. apply map_eq. intros i. destruct (decide (i = s)) as [->|].
    + rewrite !lookup_alter_eq, lookup_insert_eq, Hs. cbn. f_equal. unfold set_dop. cbn. f_equal.
      destruct (dop_blk (dop ses)) as [|x [|]] eqn:E; try (cbn in Hlen; lia). cbn.
      f_equal. etrans; [|apply (lba_offset_ok c ses (b_lba blk) Hok Hl)]. done.
    + rewrite !lookup_alter_ne, lookup_insert_ne by done. done.
Qed.


Lemma start_read_eq c mem s ses b blk :
  chains_ok c -> sessions c !! s = Some ses -> blocks c !! b = Some blk -> ses_ok c ses -> lba_ok ses (b_lba blk) -> dop_ok c ses ->
  if dopInUse ses
  then StartReadOp EOK mem true s b c = Some (IoWaitDop, upd_session s (set_dop (dop ses) true true) c)
  else exists c', StartReadOp EOK mem true s b c = Some (IoStarted, c') /\ start_effect c c' false s ses b blk.
Proof.
  intros Hc Hs Hb Hok Hl Hd. unfold StartReadOp, AcquireDiskOp. rewrite (bind_some Hs). unfold dop_ok in Hd.
  destruct (dopInUse ses) eqn:Eu; [done|]. destruct Hd as [Hlen Hq]. cbn [mbind option_bind fst snd].
  set (c1 := upd_session s (set_dop (dop ses) true false) c).
  assert (E1 : sessions c1 !! s = Some (set_dop (dop ses) true false ses)) by (cbn; by rewrite lookup_alter_eq, Hs).
  rewrite (bind_some E1), (bind_some (m := blocks c1 !! b) Hb).
  pose proof Hok as [[_ _ _ Hr _] _ _ _ _ [Hf _] _ Hcl _].
  assert (Ecl : cluster_lba (set_dop (dop ses) true false ses) (b_lba blk) = b_lba blk) by (unfold cluster_lba; cbn; by rewrite Hcl).
  rewrite Ecl. cbn [rwClusterSize set_dop dop wantsDop]. rewrite Hcl.
  set (d := Dop false (Z.to_nat 1) _ _ false). set (c2 := upd_session s (set_dop d true false) c1).
  assert (E2 : sessions c2 !! s = Some (set_dop d true false ses)) by (cbn; by rewrite !lookup_alter_eq, Hs).
  unfold start_read_from. rewrite (bind_some E2), (bind_some (m := blocks c2 !! b) Hb).
  cbn [rwClusterSize set_dop]. rewrite Hcl. change (Z.to_nat 1 - 0)%nat with 1%nat. cbn [cluster_loop].
  rewrite (bind_some E2), (bind_some (m := blocks c2 !! b) Hb).
  assert (Ecl2 : cluster_lba (set_dop d true false ses) (b_lba blk) = b_lba blk) by (unfold cluster_lba; cbn; by rewrite Hcl).
  destruct Hl as [Hl0 Hl1]. rewrite Ecl2. rewrite u32_small by nia. rewrite Z.add_0_r, Z.eqb_refl. cbn [mbind option_bind queue_request is_ok].
  eexists. split; [done|]. split_and!; try done.
  - destruct (start_chains c b kDiskBlockOp_Read blk Hc Hb). by split.
  - cbn. by apply alter_lookup.
  - cbn. apply map_eq. intros i. destruct (decide (i = s)) as [->|].
    + rewrite !lookup_alter_eq, lookup_insert_eq, Hs. cbn. f_equal. unfold set_dop_blk, set_dop. cbn. f_equal.
      destruct (dop_blk (dop ses)) as [|x [|]] eqn:E; try (cbn in Hlen; lia). cbn.
      f_equal. etrans; [|apply (lba_offset_ok c ses (b_lba blk) Hok (conj Hl0 Hl1))]. done.
    + rewrite !lookup_alter_ne, lookup_insert_ne by done. done.
Qed.


(** ** The rest of the state *)

(** The cache changes in the chains and the sessions only. *)
Lemma inv_rest c c' ts st :
  inv c ts st -> chains_ok c' -> blocks c' = blocks c -> blockSize c' = blockSize c -> nextAvailSessionId c' = nextAvailSessionId c ->
  same_sessions (sessions c) (sessions c') ->
  (forall s ses, sessions c' !! s = Some ses -> isOpen ses = true -> dop_ok c' ses /\ activeMappingsCount ses = Z.of_nat (mappings s ts)) ->
  inv c' ts st.
Proof.
  intros [Hnx Hch Hbl Hse Hid Hlb Hta Hdi] Hch' Eb Ebs En Hss Hses. split.
  - by rewrite En.
  - done.
  - rewrite Eb, Ebs, En. done.
  - intros s ses' Hs Ho. destruct (Hses s ses' Hs Ho). destruct (same_sessions_r _ _ _ _ Hss Hs) as (ses & Hs0 & E).
    split; [|done]. apply (same_ses_ok c c' ses ses'); try done. rewrite (ss_open _ _ E) in Ho. by apply (Hse s).
  - intros s1 s2 a1 a2 E1 E2 O1 O2 E. destruct (same_sessions_r _ _ _ _ Hss E1) as (b1 & F1 & G1).
    destruct (same_sessions_r _ _ _ _ Hss E2) as (b2 & F2 & G2). rewrite (ss_open _ _ G1) in O1. rewrite (ss_open _ _ G2) in O2.
    rewrite (ss_id _ _ G1), (ss_id _ _ G2) in E. by apply (Hid s1 s2 b1 b2).
  - rewrite Eb. intros b blk s ses' Hb Hs Ho E. destruct (same_sessions_r _ _ _ _ Hss Hs) as (ses & Hs0 & G).
    rewrite (ss_open _ _ G) in Ho. rewrite (ss_id _ _ G) in E. apply (same_ses_lba ses); [done|]. by apply (Hlb b blk s).
  - intros t Ht. destruct (Hta t Ht) as [(ses & Hs & Ho & Hl & Hblk) Hsh Hr].
    destruct (same_sessions_l _ _ _ _ Hss Hs) as (ses' & Hs' & E). split; [|done|by rewrite Eb].
    exists ses'. rewrite (ss_open _ _ E), (same_ses_lba ses), (ss_id _ _ E), Eb by done. done.
  - intros s ses' lba Hs Ho Hl. destruct (same_sessions_r _ _ _ _ Hss Hs) as (ses & Hs0 & E).
    rewrite (ss_open _ _ E) in Ho. rewrite (same_ses_lba ses) in Hl by done. rewrite (same_ses_disk ses), (ss_id _ _ E), Eb by done.
    by apply (Hdi s).
Qed.

(** A call waits for the request object. *)
Lemma inv_wants c ts st s ses :
  inv c ts st -> sessions c !! s = Some ses -> dopInUse ses = true -> inv (upd_session s (set_dop (dop ses) true true) c) ts st.
Proof.
  intros Hi Hs Hu. apply (inv_rest c); try done.
  - destruct (i_chains _ _ _ Hi). by split.
  - by apply same_sessions_alter.
  - cbn. intros s' ses' Hs' Ho. apply lookup_alter_Some in Hs' as [(<- & ses0 & E & ->)|[Hne E]].
    + rewrite Hs in E. injection E as <-. destruct (i_sessions _ _ _ Hi s ses Hs Ho) as (_ & Hd & Hm).
      split; [|done]. by apply (dop_same c _ ses).
    + destruct (i_sessions _ _ _ Hi s' ses' E Ho) as (_ & Hd & Hm). split; [|done].
      by apply (dop_same c _ ses'); try done; apply same_ses_refl.
Qed.

(** A call that holds nothing. *)
Lemma inv_idle c ts st t : hold t = None -> mapping t = None -> task_ok c t -> inv c (t :: ts) st <-> inv c ts st.
Proof.
  intros Hh Hmp Ht.
  assert (Hn : forall b, not_holding b t) by (intros b x; congruence).
  assert (Hm : forall s, mappings s (t :: ts) = mappings s ts) by (intros s; by rewrite mappings_cons, Hmp, decide_False).
  assert (Hb : forall b blk, behind (t :: ts) b blk <-> behind ts b blk) by (intros; by apply behind_skip).
  assert (Hk : forall b blk, blk_ok (blockSize c) (t :: ts) st b blk <-> blk_ok (blockSize c) ts st b blk)
    by (intros; by apply blk_ok_skip).
  split; intros [Hnx Hch Hbl Hse Hid Hlb Hta Hdi]; split; try done; try (setoid_rewrite Hm in Hse; done); try (by setoid_rewrite Hm);
    try (setoid_rewrite Hk in Hbl; done); try (by setoid_rewrite Hk); try (setoid_rewrite Hb in Hdi; done); try (by setoid_rewrite Hb).
  - intros t' Ht'. apply Hta. by right.
  - intros t' [->|Ht']%elem_of_cons; [done|by apply Hta].
Qed.

(** A call that waits for nothing in particular. *)
Lemma inv_null c ts st s lba mode ses :
  sessions c !! s = Some ses -> isOpen ses = true -> lba_ok ses lba -> inv c (TMap s lba mode WGet :: ts) st <-> inv c ts st.
Proof.
  intros Hs Ho Hl. apply inv_idle; [done|done|]. split; [by exists ses| |].
  - intros _. by exists s, lba, mode.
  - intros x Hx. by apply elem_of_nil in Hx.
Qed.

(** A call that waits for the lock of a block. *)
Lemma inv_lock_wait c ts st s lba mode b m blk ses :
  inv c ts st -> sessions c !! s = Some ses -> isOpen ses = true -> lba_ok ses lba ->
  blocks c !! b = Some blk -> key blk = (sessionId ses, lba) ->
  (m = kLockMode_Shared -> mode = kMapBlock_ReadOnly /\ hasData blk = true) ->
  inv c (TMap s lba mode (WLock b m) :: ts) st.
Proof.
  intros Hi Hs Ho Hl Hb Hk Hm. apply inv_idle; [done|done| |done]. split; [|done|].
  - exists ses. split; [done|]. split; [done|]. split; [done|]. intros x [= <-]. by exists blk.
  - intros x Hx. by apply elem_of_nil in Hx.
Qed.

Lemma inv_perm c ts ts' st : ts ≡ₚ ts' -> inv c ts st -> inv c ts' st.
Proof.
  intros Hp [Hnx Hch Hbl Hse Hid Hlb Hta Hdi].
  assert (Hh : forall b x, holders b x ts' = holders b x ts) by (intros; unfold holders; by rewrite Hp).
  assert (Hx : forall P : task -> Prop, Exists P ts' <-> Exists P ts) by (intros; by rewrite Hp).
  split; try done.
  - intros b blk Hb. destruct (Hbl b blk Hb) as [[A1 A2 A3 A4 A5 A6 A7 A8 A9 A10] Hn]. split; [|done].
    split; try done; unfold valid_io in *; rewrite ?Hh, ?Hx; done.
  - intros s ses Hs Ho. destruct (Hse s ses Hs Ho) as (A1 & A2 & A3). split_and!; [done|done|]. rewrite A3. unfold mappings. by rewrite Hp.
  - intros t. rewrite <- Hp. apply Hta.
  - intros s ses lba Hs Ho Hl. unfold behind. setoid_rewrite Hx. by apply (Hdi s).
Qed.


(** ** Getting a block *)

(** No block is given to another address while a call waits for its lock. *)
Definition keeps_waited c c' (ts : list task) : Prop :=
  forall s lba mode b m blk, TMap s lba mode (WLock b m) ∈ ts -> blocks c !! b = Some blk ->
    exists blk', blocks c' !! b = Some blk' /\ key blk' = key blk.

(** Nobody holds the block. *)
Lemma free_block n ts st b blk :
  blk_ok n ts st b blk -> DiskBlock_InUse blk = false ->
  op blk = kDiskBlockOp_Idle /\ exclusive blk = false /\ shareCount blk = 0 /\ forall t x, t ∈ ts -> hold t <> Some (b, x).
Proof.
  intros [_ _ A3 A4 _ _ _ _ [A9 A9'] _] Hu. unfold DiskBlock_InUse in Hu. apply orb_false_iff in Hu as [Hu Hx].
  apply Z.ltb_ge in Hu. rewrite Hx in A3.
  assert (Hn : forall t x, t ∈ ts -> hold t <> Some (b, x)).
  { intros t x Ht. apply (holders_zero b x ts); [|done]. destruct x; lia. }
  split_and!; [|done|lia|done].
  destruct (op blk); [done| |]; exfalso; [destruct (A9 eq_refl) as [_ Ex]|destruct (A9' eq_refl) as [_ Ex]];
    apply list.Exists_exists in Ex as (t & Ht & Ex); [apply (Hn t true Ht); by apply reading_hold|apply (Hn t false Ht); by apply writing_hold].
Qed.

Record fresh_blk (n : nat) (sid lba : Z) (blk : DiskBlock) : Prop := {
  fb_key : key blk = (sid, lba); fb_lock : exclusive blk = false /\ shareCount blk = 0;
  fb_flags : hasData blk = false /\ isDirty blk = false /\ isPinned blk = false /\ async blk = false;
  fb_op : op blk = kDiskBlockOp_Idle; fb_data : data blk = replicate n 0 }.

(** The new block is fresh, and no task was about what was there before. *)
Lemma new_block_fresh c c' ts st sid lba b blk :
  inv c ts st -> uncached sid lba c -> new_block sid lba c b blk -> blocks c' = <[b := blk]> (blocks c) -> keeps_waited c c' ts ->
  fresh_blk (blockSize c) sid lba blk /\ (forall t, t ∈ ts -> block_of t <> Some b) /\
  forall old, blocks c !! b = Some old -> op old = kDiskBlockOp_Idle /\ isDirty old = false.
Proof.
  intros Hi Hu Hn Ebl Hkw. destruct Hn as [Hb|old Hb Hre].
  - split; [done|]. split; [|intros old E; congruence]. intros t Ht E.
    destruct (i_tasks _ _ _ Hi t Ht) as [(ses & _ & _ & _ & Hblk) _ _]. destruct (Hblk b E) as (k & Ek & _). congruence.
  - destruct (reusable_clean old Hre) as (Hcl & Hpi & Hiu). destruct (i_blocks _ _ _ Hi b old Hb) as [Hok _].
    destruct (free_block _ _ _ _ _ Hok Hiu) as (Hop & Hx & Hs & Hno). pose proof (bo_async _ _ _ _ _ Hok) as Has. split; [done|].
    split; [|intros o E; rewrite Hb in E; by injection E as <-].
    intros t Ht E. specialize (Hno t). destruct t as [s l m w|s l b' x|s l b' x|s l w|s l g w r e].
    + destruct w; cbn in E, Hno; try done; injection E as ->; try (by apply (Hno true)).
      destruct (Hkw s l m b m0 old Ht Hb) as (k & Ek & Hk). rewrite Ebl, lookup_insert_eq in Ek. injection Ek as <-.
      apply (Hu b old Hb). rewrite <- Hk. done.
    + cbn in E, Hno. injection E as ->. by apply (Hno x).
    + cbn in E, Hno. injection E as ->. by apply (Hno x).
    + destruct w; cbn in E, Hno; try done; injection E as ->; by apply (Hno false).
    + destruct w; cbn in E, Hno; try done; injection E as ->; by apply (Hno false).
Qed.

Lemma about_nobody b ts x : (forall t, t ∈ ts -> block_of t <> Some b) -> holders b x ts = 0%nat.
Proof.
  intros Hn. unfold holders. destruct (filter _ ts) as [|t l] eqn:E; [done|].
  assert (Ht : t ∈ filter (fun t => hold t = Some (b, x)) ts) by (rewrite E; by left).
  apply list_elem_of_filter in Ht as [Hh Ht]. apply hold_block in Hh. by destruct (Hn t Ht).
Qed.

Lemma inv_new c c' ts st sid lba b blk :
  inv c ts st -> chains_ok c' -> same_rest c c' -> sid < nextAvailSessionId c ->
  (forall s ses, sessions c !! s = Some ses -> isOpen ses = true -> sessionId ses = sid -> lba_ok ses lba) ->
  uncached sid lba c -> new_block sid lba c b blk ->
  blocks c' = <[b := blk]> (blocks c) -> keeps_waited c c' ts -> inv c' ts st.
Proof.
  intros Hi Hch (En & Ebs & _ & Es) Hsid Hlba Hu Hn Ebl Hkw.
  destruct (new_block_fresh c c' ts st sid lba b blk Hi Hu Hn Ebl Hkw) as ([Hk [Hx Hsc] (Hd & Hdi & Hpi & Has) Hop Hda] & Hno & Hold).
  destruct Hi as [Hnx _ Hbl Hse Hid Hlb Hta Hdk]. split; [by rewrite En|done| | | | | |].
  - rewrite Ebl, Ebs, En. intros x k Hxk. apply lookup_insert_Some in Hxk as [[<- <-]|[_ Hxk]]; [|by apply Hbl].
    split; [|unfold key in Hk; congruence]. split; try congruence.
    + rewrite Hda. apply length_replicate.
    + rewrite Hda. apply Forall_replicate. done.
    + rewrite Hx. by apply about_nobody.
    + rewrite Hsc. by rewrite about_nobody.
    + unfold valid_io. rewrite Hop. done.
  - rewrite Es. intros s ses Hs Ho. destruct (Hse s ses Hs Ho) as (Hok & Hdo & Hm). split_and!; [|..].
    + apply (same_ses_ok c c' ses ses); try done.
    + unfold dop_ok in *. destruct (dopInUse ses); [|done]. destruct Hdo as [x [A1 A2 A3 (k & Ek & B1 & B2 & B3 & B4)]].
      exists x. split; [done|done|done|]. exists k. rewrite Ebl, lookup_insert_ne; [done|]. intros ->.
      destruct (Hold k Ek) as [Ho' _]. rewrite Ho' in B3. by destruct (dop_write (dop ses)).
    + done.
  - by rewrite Es.
  - rewrite Es, Ebl. intros x k s ses Hxk Hs Ho E. apply lookup_insert_Some in Hxk as [[<- <-]|[_ Hxk]]; [|by apply (Hlb x k s)].
    unfold key in Hk. injection Hk as Hk1 Hk2. rewrite Hk2. apply (Hlba s); congruence.
  - intros t Ht. destruct (Hta t Ht) as [(ses & Hs & Ho & Hl & Hblk) Hsh Hr]. split; [|done|].
    + exists ses. rewrite Es, Ebl. split; [done|split; [done|split; [done|]]]. intros x Ex. rewrite lookup_insert_ne; [by apply Hblk|].
      intros ->. by apply (Hno t Ht).
    + intros x Hxr. rewrite Ebl. apply lookup_insert_is_Some'. right. by apply Hr.
  - rewrite Es, Ebl. intros s ses l Hs Ho Hl. destruct (Hdk s ses l Hs Ho Hl) as [E|(x & k & Ek & Hkk & Hbe)]; [by left|right].
    exists x, k. rewrite lookup_insert_ne; [done|]. intros ->. destruct (Hold k Ek) as [Ho' Hd'].
    destruct Hbe as [?|[?|Hun]]; [congruence|congruence|]. apply list.Exists_exists in Hun as (t & Ht & Hun).
    apply unsent_hold, hold_block in Hun. by apply (Hno t Ht).
Qed.

Lemma inv_got c c' ts st sid lba e r :
  inv c ts st -> chains_ok c' -> same_rest c c' -> sid < nextAvailSessionId c ->
  (forall s ses, sessions c !! s = Some ses -> isOpen ses = true -> sessionId ses = sid -> lba_ok ses lba) ->
  got sid lba c e r c' -> keeps_waited c c' ts -> inv c' ts st.
Proof.
  intros Hi Hch Hsr Hsid Hlba Hg Hkw. destruct Hg as [b blk c' Hb Hk Eb|b blk c' Hu Hn Eb|]; [|by apply (inv_new c c' ts st sid lba b blk)|done].
  destruct Hsr as (En & Ebs & _ & Es). apply (inv_rest c); try done.
  - rewrite Es. apply same_sessions_refl.
  - rewrite Es. intros s ses Hs Ho. destruct (i_sessions _ _ _ Hi s ses Hs Ho) as (_ & Hd & Hm). split; [|done].
    apply (dop_same c _ ses); done.
Qed.
End System.
