(* ===== verification/DiskCacheCalls.v ===== *)
(** * The disk cache: the calls

    The completion of requests, and the calls of the cache composed of the moves
    of DiskCacheSys.v: each call keeps the invariant and does not abort. *)

From S2P Require Import Prelude Bytes ExtBit FSContainer Disk DiskCache DiskCacheInv DiskCacheSys.

Section Calls.
Context {D} `{SectorDeviceSpec D}.
Implicit Types (c : DiskCache D) (ses : DiskSession D) (st : store).

(** ** Completion of a request *)

(** The request for [b] is over: the block is idle, the request object is free,
    and only the part of the disk of this block has changed. *)
Record done_effect c c' (ts : list task) st s ses b blk : Prop := {
  de_chains : chains_ok c';
  de_rest : blockSize c' = blockSize c /\ nextAvailSessionId c' = nextAvailSessionId c;
  de_block : exists blk', blocks c' = <[b := blk']> (blocks c) /\ key blk' = key blk /\
    exclusive blk' = exclusive blk /\ shareCount blk' = shareCount blk /\ isPinned blk' = false /\ async blk' = false /\
    op blk' = kDiskBlockOp_Idle /\ length (data blk') = blockSize c /\ Forall is_byte (data blk') /\
    (isDirty blk' = true -> hasData blk' = true) /\ (hasData blk = true -> hasData blk' = true) /\
    (op blk = kDiskBlockOp_Read -> hasData blk' = is_ok (readError blk')) /\
    (hasData blk' = true -> data blk' = st (b_sessionId blk) (b_lba blk)) /\
    exists dev', sessions c' = <[s := set_dev dev' (set_dop (Dop (dop_write (dop ses)) 1 [Some b] (dop_offset (dop ses)) false) false (wantsDop ses) ses)]> (sessions c) /\
      dev_ready (s_disk ses) dev' /\
      (forall lba, lba_ok ses lba -> lba <> b_lba blk -> on_disk (set_dev dev' ses) lba = on_disk ses lba) /\
      (on_disk (set_dev dev' ses) (b_lba blk) = st (b_sessionId blk) (b_lba blk) \/ isDirty blk' = true) }.

Lemma inv_done c c' ts st s ses b blk :
  inv c ts st -> sessions c !! s = Some ses -> isOpen ses = true -> request c ses b -> blocks c !! b = Some blk ->
  done_effect c c' ts st s ses b blk -> inv c' ts st.
Proof.
  intros Hi Hs Ho [_ _ _ (k & Ek & Hsid & Hlb & Hop & _)] Hb [Hch [Ebs En] (blk' & Ebl & Hk & Hx & Hsh & Hpi & Has & Hid' & Hlen & Hby & Hdd & Hmono & Hre & Hdat & dev' & Ese & Hrdy & Hoth & Hthis)].
  rewrite Hb in Ek. injection Ek as <-. destruct Hi as [Hnx Hch0 Hbl Hse Hid Hlba Hta Hdk]. destruct (Hbl b blk Hb) as [Hok Hlt].
  set (ses' := set_dev dev' _) in Ese. pose proof Hk as Hk'. unfold key in Hk'. injection Hk' as Hk1 Hk2.
  split; [by rewrite En|done| | | | | |].
  - rewrite Ebl, Ebs, En. intros x kx Hxk. apply lookup_insert_Some in Hxk as [[<- <-]|[_ Hxk]]; [|by apply Hbl].
    split; [|congruence]. destruct Hok as [A1 A2 A3 A4 A5 A6 A7 A8 A9 A10]. split; rewrite ?Hx, ?Hsh; try done.
    + unfold valid_io. rewrite Hid'. done.
    + intros Hd _. rewrite Hk1, Hk2. by apply Hdat.
  - rewrite Ese. intros s2 ses2 Hs2 Ho2. apply lookup_insert_Some in Hs2 as [[<- <-]|[Hne Hs2]].
    + destruct (Hse s ses Hs Ho) as ([B1 B2 B3 B4 B5 B6 B7 B8 B9] & _ & Hm). split_and!; [|done|done].
      rewrite <- Ebs, <- En in *. by split.
    + destruct (Hse s2 ses2 Hs2 Ho2) as (Hso & Hdo & Hm). split_and!; [|..].
      * apply (same_ses_ok c c' ses2 ses2); done.
      * unfold dop_ok in *. destruct (dopInUse ses2); [|done]. destruct Hdo as [x [A1 A2 A3 (kx & Ekx & B1 & B2 & B3 & B4)]].
        exists x. split; [done|done|done|]. exists kx. rewrite Ebl, lookup_insert_ne; [done|]. intros ->.
        rewrite Hb in Ekx. injection Ekx as <-. apply Hne. apply (Hid s s2 ses ses2); congruence.
      * done.
  - rewrite Ese. intros s1 s2 a1 a2 E1 E2 O1 O2 E.
    apply lookup_insert_Some in E1 as [[<- <-]|[_ E1]]; apply lookup_insert_Some in E2 as [[<- <-]|[_ E2]]; [done| | |].
    + by apply (Hid s s2 ses a2).
    + by apply (Hid s1 s a1 ses).
    + by apply (Hid s1 s2 a1 a2).
  - rewrite Ebl, Ese. intros x kx s2 ses2 Hxk Hs2 Ho2 E.
    assert (Hx' : exists kx0, blocks c !! x = Some kx0 /\ key kx = key kx0)
      by (apply lookup_insert_Some in Hxk as [[<- <-]|[_ Hxk]]; [by exists blk|by exists kx]).
    destruct Hx' as (kx0 & Hxk0 & Ekx). unfold key in Ekx. injection Ekx as Ekx1 Ekx2. rewrite Ekx2.
    apply lookup_insert_Some in Hs2 as [[<- <-]|[_ Hs2]]; [change (lba_ok ses (b_lba kx0)); change (sessionId ses = b_sessionId kx) in E;
      apply (Hlba x kx0 s)|apply (Hlba x kx0 s2)]; congruence.
  - intros t Ht. destruct (Hta t Ht) as [(sest & Hst & Hot & Hlt' & Hblk) Hshp Hr].
    assert (Hst' : exists sest', sessions c' !! session_of t = Some sest' /\ isOpen sest' = true /\ lba_ok sest' (lba_of t) /\ sessionId sest' = sessionId sest).
    { rewrite Ese. destruct (decide (session_of t = s)) as [E|E].
      - rewrite E, lookup_insert_eq. rewrite E, Hs in Hst. injection Hst as <-. by exists ses'.
      - rewrite lookup_insert_ne by done. by exists sest. }
    destruct Hst' as (sest' & Hst' & Hot' & Hl' & Ei). split; [|done|].
    + exists sest'. rewrite Ei. split; [done|split; [done|split; [done|]]]. intros x Ex. destruct (Hblk x Ex) as (kx & Ekx & Hkx & Htk).
      rewrite Ebl. destruct (decide (x = b)) as [->|]; [|rewrite lookup_insert_ne by done; by exists kx].
      rewrite Hb in Ekx. injection Ekx as <-. exists blk'. rewrite lookup_insert_eq. split; [done|]. split; [congruence|].
      destruct (decide (hold t = Some (b, true))) as [Hh|Hh]; [|by apply (task_blk_keep t b blk)].
      revert Htk Hh Hmono Hre Hid' Hop. clear. task_cases t; cbn; try done; try tauto.
      * intros (_ & _ & Hi) _ _ _ _ Ho. rewrite Hi in Ho. by destruct (dop_write _).
      * intros [Hm Htk] _ Hmono Hre Hi Ho. split; [done|]. right. split; [done|]. destruct Htk as [Hr|[Hr _]]; [by apply Hre|].
        rewrite Hr in Ho. by destruct (dop_write _).
    + intros x Hxr. rewrite Ebl. apply lookup_insert_is_Some'. right. by apply Hr.
  - rewrite Ese. intros s2 ses2 l Hs2 Ho2 Hl2. apply lookup_insert_Some in Hs2 as [[<- <-]|[Hne Hs2]].
    + change (sessionId ses') with (sessionId ses). change (on_disk ses' l) with (on_disk (set_dev dev' ses) l).
      change (lba_ok ses l) in Hl2. destruct (decide (l = b_lba blk)) as [->|Hnl].
      * destruct Hthis as [E|E]; [left; congruence|right]. exists b, blk'. rewrite Ebl, lookup_insert_eq. split_and!; [done| |by left].
        rewrite Hk. unfold key. congruence.
      * rewrite Hoth by done. destruct (Hdk s ses l Hs Ho Hl2) as [E|(x & kx & Ekx & Hkx & Hbe)]; [by left|right].
        exists x, kx. rewrite Ebl, lookup_insert_ne; [done|]. intros ->. rewrite Hb in Ekx. injection Ekx as <-.
        unfold key in Hkx. congruence.
    + destruct (Hdk s2 ses2 l Hs2 Ho2 Hl2) as [E|(x & kx & Ekx & Hkx & Hbe)]; [by left|right].
      exists x, kx. rewrite Ebl, lookup_insert_ne; [done|]. intros ->. rewrite Hb in Ekx. injection Ekx as <-.
      apply Hne. apply (Hid s s2 ses ses2); try done. unfold key in Hkx. congruence.
Qed.


(** What the completion of a request for one block does: the transfer, the
    routine for the block, and the release of the request object. *)
Lemma request_done_eq c s ses b blk vs e rlen dev' :
  sessions c !! s = Some ses -> request c ses b -> blocks c !! b = Some blk -> trailPadSize ses = 0 ->
  do_rw (if dop_write (dop ses) then kIODiskCommand_WriteAsync else kIODiskCommand_ReadAsync) (s_disk ses) (dop_offset (dop ses))
    [Iov (data blk) (Z.of_nat (blockSize c))] (s_dev ses) = Some ([vs], e, rlen, dev') ->
  let c1 := upd_block b (fun x => set_data (hasData x) (iov_base vs) x) (upd_session s (set_dev dev') c) in
  let e' := if Z.of_nat (blockSize c) <=? rlen then e else if is_ok e then EIO else e in
  request_done s c = RelinquishDiskOp s <$> OnBlockRequestDone b (dop_write (dop ses)) e' c1.
Proof.
  intros Hs [_ Hcnt Hblk _] Hb Hpad Hrw c1 e'. unfold request_done. rewrite (bind_some Hs), Hcnt, Hblk. cbn [take firstn request_iov].
  cbn [mbind option_bind]. rewrite Hb. cbn [mbind option_bind]. rewrite Hpad, Z.sub_0_r, Hrw. cbn [store_iov].
  cbn [blocks_done mbind option_bind]. fold c1.
  replace (if negb (Z.of_nat (blockSize c1) <=? rlen) && is_ok e then EIO else e) with e'
    by (unfold e', c1; cbn; destruct (Z.of_nat (blockSize c) <=? rlen), (is_ok e); done).
  by destruct (OnBlockRequestDone b (dop_write (dop ses)) e' c1).
Qed.

(** The request in terms of sectors. *)
Lemma request_sectors c ses lba :
  ses_ok c ses -> lba_ok ses lba ->
  Z.of_nat (blockSize c) = Z.of_nat (Z.to_nat (s2bFactor ses)) * sectorSize (s_disk ses) /\
  lba * s2bFactor ses * s_sectorSize ses = lba * s2bFactor ses * sectorSize (s_disk ses) /\
  0 <= lba * s2bFactor ses /\ lba * s2bFactor ses + Z.of_nat (Z.to_nat (s2bFactor ses)) <= sectorCount (s_disk ses) /\
  (0 < Z.to_nat (s2bFactor ses))%nat /\
  (Z.to_nat (s2bFactor ses) * Z.to_nat (sectorSize (s_disk ses)))%nat = blockSize c.
Proof.
  intros [[(_ & _ & _ & Hp) _ _ Hr _] _ _ Hsz Hss [Hf Hbs] _ _ _] [Hl Hu]. rewrite Hss in *.
  rewrite Z2Nat.id by lia. split_and!; [done|done|nia|nia|lia|]. apply Nat2Z.inj. rewrite Nat2Z.inj_mul, !Z2Nat.id by lia. done.
Qed.

(** Blocks do not overlap. *)
Lemma on_disk_other ses dev' lba l :
  0 < s2bFactor ses -> lba_ok ses l -> l <> lba ->
  (forall k, 0 <= k < sectorCount (s_disk ses) ->
     k < lba * s2bFactor ses \/ lba * s2bFactor ses + Z.of_nat (Z.to_nat (s2bFactor ses)) <= k ->
     sector (s_disk ses) dev' k = sector (s_disk ses) (s_dev ses) k) ->
  on_disk (set_dev dev' ses) l = on_disk ses l.
Proof.
  intros Hf [Hl Hu] Hne Ho. unfold on_disk. cbn. apply sectors_ext. intros k Hk. rewrite Z2Nat.id in * by lia.
  apply Ho; [nia|]. destruct (decide (l < lba)); [left|right]; nia.
Qed.


Lemma chains_eq c c' :
  lruChain c' = lruChain c -> diskAddrHash c' = diskAddrHash c -> blockCount c' = blockCount c ->
  dirtyBlockCount c' = dirtyBlockCount c -> blocks c' = blocks c -> chains_ok c -> chains_ok c'.
Proof. intros E1 E2 E3 E4 E5 [B1 B2 B3 B4 B5 B6 B7]. by split; rewrite ?E1, ?E2, ?E3, ?E4, ?E5. Qed.

(** A block that is being read holds no data, is clean, and the disk is up to date. *)
Lemma reading_block c ts st s ses b blk :
  inv c ts st -> sessions c !! s = Some ses -> isOpen ses = true -> request c ses b -> blocks c !! b = Some blk ->
  dop_write (dop ses) = false ->
  hasData blk = false /\ isDirty blk = false /\ exclusive blk = true /\ on_disk ses (b_lba blk) = st (b_sessionId blk) (b_lba blk).
Proof.
  intros Hi Hs Ho [_ _ _ (k & Ek & Hsid & Hl & Hop & _)] Hb Hw. rewrite Hb in Ek. injection Ek as <-. rewrite Hw in Hop.
  destruct (i_blocks _ _ _ Hi b blk Hb) as [[_ _ A3 A4 A5 A6 _ _ [A9 _] _] _]. destruct (A9 Hop) as [Hd Hr].
  assert (Hdi : isDirty blk = false) by (destruct (isDirty blk); [rewrite A6 in Hd by done|]; done).
  assert (Hx : exclusive blk = true).
  { apply list.Exists_exists in Hr as (t & Ht & Hr). apply reading_hold in Hr. pose proof (holders_elem _ _ _ _ Ht Hr).
    destruct (exclusive blk); [done|lia]. }
  split_and!; try done. rewrite Hsid. destruct (i_disk _ _ _ Hi s ses (b_lba blk) Hs Ho Hl) as [E|(x & k & Ek & Hk & Hbe)]; [done|].
  assert (x = b) as -> by (apply (co_keys c (i_chains _ _ _ Hi) x b k blk); [done|done|rewrite Hk; unfold key; congruence]).
  rewrite Hb in Ek. injection Ek as <-. exfalso. destruct Hbe as [?|[?|Hun]]; [congruence|congruence|].
  apply list.Exists_exists in Hun as (t & Ht & Hun). apply unsent_hold in Hun. pose proof (holders_elem _ _ _ _ Ht Hun).
  rewrite (A5 Hx) in A4. lia.
Qed.

Lemma read_done c ts st s ses b blk :
  inv c ts st -> sessions c !! s = Some ses -> isOpen ses = true -> request c ses b -> blocks c !! b = Some blk ->
  dop_write (dop ses) = false -> exists c', request_done s c = Some c' /\ done_effect c c' ts st s ses b blk.
Proof.
  intros Hi Hs Ho Hrq Hb Hw. destruct (i_sessions _ _ _ Hi s ses Hs Ho) as (Hok & _ & _).
  destruct (reading_block c ts st s ses b blk Hi Hs Ho Hrq Hb Hw) as (Hd & Hdi & Hx & Hdk).
  pose proof Hrq as [_ Hcnt Hbk (k & Ek & Hsid & Hl & Hop & Hoff)]. rewrite Hb in Ek. injection Ek as <-. rewrite Hw in Hop.
  destruct (request_sectors c ses (b_lba blk) Hok Hl) as (E1 & E2 & E3 & E4 & E5 & E6).
  destruct (i_blocks _ _ _ Hi b blk Hb) as [[A1 A2 _ _ _ _ A7 A8 _ _] _].
  destruct (do_rw_read_block (s_disk ses) (so_drive _ _ Hok) (s_dev ses) (b_lba blk * s2bFactor ses) (Z.to_nat (s2bFactor ses)) (data blk))
    as (buf' & e & rlen & Erw & Hlen & Hby & Hres); [apply (so_ready _ _ Hok)|apply (so_loaded _ _ Hok)|done|done|done|by rewrite E6, A1|].
  rewrite <- E2, <- Hoff, <- E1 in Erw. rewrite <- E1 in Hres.
  assert (Erw' : do_rw (if dop_write (dop ses) then kIODiskCommand_WriteAsync else kIODiskCommand_ReadAsync) (s_disk ses)
    (dop_offset (dop ses)) [Iov (data blk) (Z.of_nat (blockSize c))] (s_dev ses) =
    Some ([Iov buf' (Z.of_nat (blockSize c))], e, rlen, s_dev ses)) by by rewrite Hw.
  rewrite (request_done_eq c s ses b blk _ e rlen (s_dev ses) Hs Hrq Hb (so_pad _ _ Hok) Erw'), Hw. cbn [iov_base].
  set (c1 := upd_block b _ _). set (e' := if _ <=? _ then _ else _).
  assert (He : (e' = EOK /\ buf' = on_disk ses (b_lba blk)) \/ e' <> EOK).
  { unfold e'. destruct Hres as [(-> & -> & ->)|Hlt]; [left|right].
    - rewrite Z.leb_refl. split; [done|]. unfold on_disk. apply patch_all. rewrite sectors_length by (done || apply Hok || lia). by rewrite E6, A1.
    - rewrite (proj2 (Z.leb_gt _ _)) by lia. destruct (is_ok e) eqn:E; [done|]. by apply is_ok_false. }
  set (blk' := set_op kDiskBlockOp_Idle false e' (set_data (is_ok e') buf' blk)).
  assert (Ebl1 : blocks c1 !! b = Some (set_data false buf' blk)) by (cbn; rewrite lookup_alter_eq, Hb; cbn; by rewrite Hd).
  unfold OnBlockRequestDone, assert_exclusive. rewrite (bind_some Ebl1). rewrite Ebl1. cbn [mbind option_bind exclusive set_data async]. rewrite Hx, A8.
  cbn [fmap option_fmap option_map]. eexists. split; [done|].
  set (c' := RelinquishDiskOp s _).
  assert (Ebl : blocks c' = <[b := blk']> (blocks c)).
  { apply map_eq. intros i. unfold c', blk', c1. destruct (is_ok e'); cbn; destruct (decide (i = b)) as [->|];
      rewrite ?lookup_alter_eq, ?lookup_insert_eq, ?lookup_alter_ne, ?lookup_insert_ne, ?Hb by done; cbn; rewrite ?Hd; done. }
  assert (Ese : sessions c' = <[s := set_dev (s_dev ses) (set_dop (Dop (dop_write (dop ses)) 1 [Some b] (dop_offset (dop ses)) false) false (wantsDop ses) ses)]> (sessions c)).
  { apply map_eq. intros i. unfold c', c1. destruct (is_ok e'); cbn; destruct (decide (i = s)) as [->|];
      rewrite ?lookup_alter_eq, ?lookup_insert_eq, ?lookup_alter_ne, ?lookup_insert_ne, ?Hs by done; cbn; rewrite ?Hcnt, ?Hbk; done. }
  split.
  - apply (chains_eq (upd_block b (fun _ => blk') c)); try (unfold c'; destruct (is_ok e'); done).
    + rewrite Ebl. symmetry. by apply (alter_lookup (fun _ => blk') _ _ blk).
    + apply chains_upd; [apply (i_chains _ _ _ Hi)|]. intros k Ek. rewrite Hb in Ek. by injection Ek as <-.
  - unfold c'. by destruct (is_ok e').
  - exists blk'. split; [done|]. split_and!; try done.
    + cbn. congruence.
    + by apply Hby.
    + cbn. congruence.
    + cbn. congruence.
    + cbn. destruct He as [[_ ->]|He]; [done|]. intros E. by apply is_ok_true in E.
    + exists (s_dev ses). split; [done|]. split; [apply Hok|]. split; [done|]. by left.
Qed.


(** A block that is being written is held by the writer only, so that its data is
    the content of the address. *)
Lemma writing_block c ts st ses b blk :
  inv c ts st -> request c ses b -> blocks c !! b = Some blk -> dop_write (dop ses) = true ->
  hasData blk = true /\ exclusive blk = false /\ 0 < shareCount blk /\ data blk = st (b_sessionId blk) (b_lba blk).
Proof.
  intros Hi [_ _ _ (k & Ek & _ & _ & Hop & _)] Hb Hw. rewrite Hb in Ek. injection Ek as <-. rewrite Hw in Hop.
  destruct (i_blocks _ _ _ Hi b blk Hb) as [[_ _ A3 A4 A5 A6 _ _ [_ A9] A10] _]. destruct (A9 Hop) as [Hd Hr].
  apply list.Exists_exists in Hr as (t & Ht & Hr). apply writing_hold in Hr. pose proof (holders_elem _ _ _ _ Ht Hr).
  destruct (exclusive blk); [rewrite A5 in A4 by done; lia|]. split_and!; [done|done|lia|].
  apply A10; [done|]. apply editing_none. intros t' Ht'. by apply (holders_zero b true ts).
Qed.

(** A write of a block that is not dirty, which is the only copy of the data, succeeds. *)
Definition written_through c c' s : Prop :=
  forall ses ses' b blk, sessions c !! s = Some ses -> sessions c' !! s = Some ses' -> dop_write (dop ses) = true ->
    dop_blk (dop ses) = [Some b] -> blocks c !! b = Some blk -> isDirty blk = true \/ on_disk ses' (b_lba blk) = data blk.

Lemma write_done c ts st s ses b blk :
  inv c ts st -> sessions c !! s = Some ses -> isOpen ses = true -> request c ses b -> blocks c !! b = Some blk ->
  dop_write (dop ses) = true ->
  exists c', request_done s c = Some c' /\ (written_through c c' s -> done_effect c c' ts st s ses b blk).
Proof.
  intros Hi Hs Ho Hrq Hb Hw. destruct (i_sessions _ _ _ Hi s ses Hs Ho) as (Hok & _ & _).
  destruct (writing_block c ts st ses b blk Hi Hrq Hb Hw) as (Hd & Hx & Hsh & Hst).
  pose proof Hrq as [_ Hcnt Hbk (k & Ek & Hsid & Hl & Hop & Hoff)]. rewrite Hb in Ek. injection Ek as <-. rewrite Hw in Hop.
  destruct (request_sectors c ses (b_lba blk) Hok Hl) as (E1 & E2 & E3 & E4 & E5 & E6).
  destruct (i_blocks _ _ _ Hi b blk Hb) as [[A1 A2 _ _ _ _ A7 A8 _ _] _].
  destruct (do_rw_write_block (s_disk ses) (so_drive _ _ Hok) (s_dev ses) (b_lba blk * s2bFactor ses) (Z.to_nat (s2bFactor ses)) (data blk))
    as (e & rlen & dev' & Erw & Hrdy & Hoth & Hres);
    [apply (so_ready _ _ Hok)|apply (so_loaded _ _ Hok)|done|done|done|by rewrite E6, A1|done|].
  rewrite <- E2, <- Hoff, <- E1 in Erw. rewrite <- E1 in Hres.
  assert (Erw' : do_rw (if dop_write (dop ses) then kIODiskCommand_WriteAsync else kIODiskCommand_ReadAsync) (s_disk ses)
    (dop_offset (dop ses)) [Iov (data blk) (Z.of_nat (blockSize c))] (s_dev ses) =
    Some ([Iov (data blk) (Z.of_nat (blockSize c))], e, rlen, dev')) by by rewrite Hw.
  rewrite (request_done_eq c s ses b blk _ e rlen dev' Hs Hrq Hb (so_pad _ _ Hok) Erw'), Hw. cbn [iov_base].
  set (c1 := upd_block b _ _). set (e' := if _ <=? _ then _ else _).
  assert (He : e' = EOK -> on_disk (set_dev dev' ses) (b_lba blk) = data blk).
  { unfold e'. destruct Hres as [(-> & -> & Hsec)|Hlt].
    - intros _. unfold on_disk. cbn. rewrite Hsec, E6, <- A1. unfold slice. rewrite drop_0. by apply take_ge.
    - rewrite (proj2 (Z.leb_gt _ _)) by lia. destruct (is_ok e) eqn:E; [done|]. apply is_ok_false in E. done. }
  set (blk' := set_op kDiskBlockOp_Idle false (readError blk) (set_dirty (isDirty blk && negb (is_ok e')) blk)).
  assert (Ebl1 : blocks c1 !! b = Some blk) by (cbn; rewrite lookup_alter_eq, Hb; by destruct blk).
  unfold OnBlockRequestDone, assert_shared. rewrite (bind_some Ebl1). rewrite Ebl1. cbn [mbind option_bind].
  rewrite (proj2 (Z.ltb_lt 0 _)), Hx, A8 by done. cbn [fmap option_fmap option_map andb negb]. eexists. split; [done|].
  set (c' := RelinquishDiskOp s _). intros Hwt.
  assert (Ebl : blocks c' = <[b := blk']> (blocks c)).
  { apply map_eq. intros i. unfold c', blk', c1. destruct (is_ok e'), (isDirty blk) eqn:Edi; cbn; destruct (decide (i = b)) as [->|];
      rewrite ?lookup_alter_eq, ?lookup_insert_eq, ?lookup_alter_ne, ?lookup_insert_ne, ?Hb by done; cbn; try done;
      f_equal; unfold set_op, set_dirty, set_data; cbn; congruence. }
  assert (Ese : sessions c' = <[s := set_dev dev' (set_dop (Dop (dop_write (dop ses)) 1 [Some b] (dop_offset (dop ses)) false) false (wantsDop ses) ses)]> (sessions c)).
  { apply map_eq. intros i. unfold c', c1. destruct (is_ok e' && isDirty blk); cbn; destruct (decide (i = s)) as [->|];
      rewrite ?lookup_alter_eq, ?lookup_insert_eq, ?lookup_alter_ne, ?lookup_insert_ne, ?Hs by done; cbn; rewrite ?Hcnt, ?Hbk; done. }
  split.
  - set (c2 := if is_ok e' && isDirty blk then set_dirtyCount (dirtyBlockCount c + -1) (upd_block b (set_dirty false) c) else c).
    assert (Hc2 : chains_ok c2 /\ exists k, blocks c2 !! b = Some k /\ key blk' = key k /\ isDirty blk' = isDirty k).
    { unfold c2. destruct (is_ok e' && isDirty blk) eqn:Eb.
      - apply andb_true_iff in Eb as [Ee Edi]. split; [apply (chains_set_dirty b false blk); [apply (i_chains _ _ _ Hi)|done|done]|].
        exists (set_dirty false blk). cbn. rewrite lookup_alter_eq, Hb, Ee, Edi. done.
      - split; [apply (i_chains _ _ _ Hi)|]. exists blk. split_and!; [done|done|]. cbn.
        destruct (isDirty blk); [|done]. rewrite andb_true_r in Eb. by rewrite Eb. }
    destruct Hc2 as (Hc2 & k & Ek & Hk1 & Hk2).
    apply (chains_eq (upd_block b (fun _ => blk') c2)); try (unfold c', c2; destruct (is_ok e' && isDirty blk); done).
    + rewrite Ebl. cbn. rewrite (alter_lookup _ _ _ k) by done. unfold c2. destruct (is_ok e' && isDirty blk); [|done].
      cbn. rewrite (alter_lookup _ _ _ blk) by done. by rewrite insert_insert_eq.
    + apply chains_upd; [done|]. intros k' Ek'. rewrite Ek in Ek'. by injection Ek' as <-.
  - unfold c'. by destruct (is_ok e' && isDirty blk).
  - exists blk'. split; [done|]. split_and!; try done.
    + by rewrite Hop.
    + exists dev'. split; [done|]. split; [done|]. split.
      * intros l Hl' Hne. apply (on_disk_other ses dev' (b_lba blk)); [apply Hok|done|done|done].
      * destruct (is_ok e') eqn:Ee; [left; rewrite He by (by apply is_ok_true); done|].
        pose proof (lookup_insert_eq (sessions c) s (set_dev dev' (set_dop (Dop (dop_write (dop ses)) 1 [Some b]
          (dop_offset (dop ses)) false) false (wantsDop ses) ses))) as Es'. rewrite <- Ese in Es'.
        destruct (Hwt ses _ b blk Hs Es' Hw Hbk Hb) as [Hdi|Hdk]; [right|left; by rewrite <- Hst, <- Hdk].
        cbn. rewrite Hdi. done.
Qed.

Lemma request_done_inv c ts st s ses :
  inv c ts st -> sessions c !! s = Some ses -> isOpen ses = true -> dopInUse ses = true ->
  exists c', request_done s c = Some c' /\ (written_through c c' s -> inv c' ts st).
Proof.
  intros Hi Hs Ho Hu. destruct (i_sessions _ _ _ Hi s ses Hs Ho) as (_ & Hd & _). unfold dop_ok in Hd. rewrite Hu in Hd.
  destruct Hd as [b Hrq]. pose proof Hrq as [_ _ _ (blk & Hb & _)]. destruct (dop_write (dop ses)) eqn:Hw.
  - destruct (write_done c ts st s ses b blk) as (c' & E & He); try done. exists c'. split; [done|]. intros Hwt.
    apply (inv_done c c' ts st s ses b blk); try done. by apply He.
  - destruct (read_done c ts st s ses b blk) as (c' & E & He); try done. exists c'. split; [done|]. intros _.
    by apply (inv_done c c' ts st s ses b blk).
Qed.

(** ** Mapping *)

(** What a mapping call leaves behind. *)
Definition map_post (ts : list task) st s (lba : Z) (mode : MapBlock) (p : map_result * DiskCache D) : Prop :=
  match p with
  | (MapDone e (Some b), c) => e = EOK /\ exists x ses blk, inv c (TMapped s lba b x :: ts) st /\ sessions c !! s = Some ses /\
      blocks c !! b = Some blk /\ (mode <> kMapBlock_ReadOnly -> x = true) /\
      (reads mode = true -> data blk = st (sessionId ses) lba) /\ (mode = kMapBlock_Cleared -> data blk = replicate (blockSize c) 0)
  | (MapDone e None, c) => e <> EOK /\ inv c ts st
  | (MapWait w, c) => inv c (TMap s lba mode w :: ts) st
  end.

(** The session and the block of a task. *)
Lemma task_facts c ts st t b :
  inv c (t :: ts) st -> block_of t = Some b ->
  exists ses blk, sessions c !! session_of t = Some ses /\ isOpen ses = true /\ lba_ok ses (lba_of t) /\
    ses_ok c ses /\ dop_ok c ses /\ blocks c !! b = Some blk /\ key blk = (sessionId ses, lba_of t) /\ task_blk_ok t blk.
Proof.
  intros Hi Hb. destruct (i_tasks _ _ _ Hi t) as [(ses & Hs & Ho & Hl & Hblk) _ _]; [by left|].
  destruct (Hblk b Hb) as (blk & Ek & Hk & Ht). destruct (i_sessions _ _ _ Hi _ _ Hs Ho) as (A1 & A2 & _). by exists ses, blk.
Qed.

Lemma map_finish_ok c ts st s lba mode b x blk :
  inv c (TRun s lba b x :: ts) st -> blocks c !! b = Some blk -> hasData blk = true ->
  (mode <> kMapBlock_ReadOnly -> x = true) -> (reads mode = true -> data blk = st (b_sessionId blk) (b_lba blk)) ->
  (mode = kMapBlock_Cleared -> data blk = replicate (blockSize c) 0) ->
  exists p, map_finish s b EOK c = Some p /\ map_post ts st s lba mode p.
Proof.
  intros Hi Hb Hd Hx Hr Hc. destruct (task_facts _ _ _ _ b Hi eq_refl) as (ses & k & Hs & Ho & Hl & _ & _ & Ek & Hk & _).
  rewrite Hb in Ek. injection Ek as <-. cbn in Hs, Hk. unfold map_finish. cbn [is_ok]. rewrite (bind_some Hs). eexists. split; [done|].
  split; [done|]. exists x, (set_mappings (activeMappingsCount ses + 1) ses), blk.
  unfold key in Hk. injection Hk as Hk1 Hk2. split; [|split; [|split; [|split; [|split]]]]; try done.
  - by apply (remap c ts st s lba b x blk ses true).
  - cbn. by rewrite lookup_alter_eq, Hs.
  - intros Hm. rewrite Hr by done. cbn. congruence.
Qed.

(** A call that cannot have its block gives it back. *)
Lemma map_finish_err c ts st s lba mode b x blk e :
  inv c (TRun s lba b x :: ts) st -> blocks c !! b = Some blk -> hasData blk = false -> e <> EOK ->
  exists p, map_finish s b e c = Some p /\ map_post ts st s lba mode p.
Proof.
  intros Hi Hb Hd He. destruct (task_facts _ _ _ _ b Hi eq_refl) as (ses & _ & Hs & Ho & Hl & _).
  destruct (unlock c ts st s lba mode b x blk Hi Hb) as (c' & E & _ & _ & Ec & Hi'); [congruence|].
  unfold map_finish. rewrite (proj2 (is_ok_false e) He), (bind_some E). eexists. split; [done|]. split; [done|].
  apply (inv_null c' ts st s lba mode ses); [by subst c'|done|done|done].
Qed.

(** The end of a read: for a read-only mapping the lock is downgraded. *)
Lemma map_read_end_post c ts st s lba mode b blk e :
  inv c (TRun s lba b true :: ts) st -> blocks c !! b = Some blk -> reads mode = true ->
  (if is_ok e then hasData blk = true /\ data blk = st (b_sessionId blk) (b_lba blk) else hasData blk = false) ->
  exists p, map_read_end s b mode e c = Some p /\ map_post ts st s lba mode p.
Proof.
  intros Hi Hb Hm He. unfold map_read_end.
  assert (Hfin : forall c1 x blk1, inv c1 (TRun s lba b x :: ts) st -> blocks c1 !! b = Some blk1 -> hasData blk1 = hasData blk ->
    data blk1 = data blk -> key blk1 = key blk -> (mode <> kMapBlock_ReadOnly -> x = true) ->
    exists p, map_finish s b e c1 = Some p /\ map_post ts st s lba mode p).
  { intros c1 x blk1 Hi1 Hb1 Ed Eda Ek Hx. unfold key in Ek. injection Ek as Ek1 Ek2. destruct (is_ok e) eqn:E.
    - apply is_ok_true in E as ->. destruct He as [Hd Hda]. apply (map_finish_ok c1 ts st s lba mode b x blk1);
        [done|done|congruence|done|intros _; congruence|intros Em; by rewrite Em in Hm].
    - apply (map_finish_err c1 ts st s lba mode b x blk1); try congruence. by apply is_ok_false. }
  destruct (bool_decide_reflect (mode = kMapBlock_ReadOnly)) as [Em|Em].
  - pose proof (holder_exclusive _ _ _ _ _ _ Hi Hb eq_refl) as Hx. rewrite (bind_some (downgrade_eq c b blk Hb Hx)).
    apply (Hfin _ false (set_lock false (shareCount blk + 1) blk)); try done.
    + apply downgrade_run; try done. destruct (is_ok e); [tauto|congruence].
    + cbn. by rewrite lookup_alter_eq, Hb.
  - cbn [mbind option_bind]. by apply (Hfin c true blk).
Qed.

Lemma map_wait_io_post c ts st s lba mode b :
  inv c (TMap s lba mode (WIO b) :: ts) st -> exists p, map_wait_io s b mode c = Some p /\ map_post ts st s lba mode p.
Proof.
  intros Hi. destruct (task_facts _ _ _ _ b Hi eq_refl) as (ses & blk & Hs & Ho & Hl & _ & _ & Hb & Hk & Hm & Hst).
  unfold map_wait_io, io_over. rewrite (bind_some Hb), Hb. cbn [mbind option_bind].
  destruct (bool_decide_reflect (op blk = kDiskBlockOp_Read)) as [E|E]; cbn [negb]; [by eexists|].
  destruct Hst as [?|[Hop Hst]]; [done|]. destruct (i_blocks _ _ _ Hi b blk Hb) as [Hok _].
  assert (Hne : ~ Exists (editing b) (TMap s lba mode (WIO b) :: ts)).
  { rewrite Exists_cons. intros [[]|Hx]. revert Hx. apply editing_none. eapply no_other; [done|done|]. left. by exists true. }
  apply (map_read_end_post c ts st s lba mode b blk); [|done|done|].
  - by apply (retask_same c ts st b blk (TMap s lba mode (WIO b)) (TRun s lba b true) true); try done; intros x Hx;
      apply elem_of_nil in Hx.
  - destruct (hasData blk) eqn:Ed.
    + rewrite <- Hst. split; [done|]. by apply (bo_data _ _ _ _ _ Hok).
    + by rewrite <- Hst.
Qed.


(** The read of the block is started, or the call waits for the request object. *)
Lemma map_start_post c ts st s lba mode b mem :
  inv c (TMap s lba mode (WDop b) :: ts) st ->
  exists r p, StartReadOp EOK mem true s b c = Some r /\ map_io s b mode r = Some p /\ map_post ts st s lba mode p.
Proof.
  intros Hi. destruct (task_facts _ _ _ _ b Hi eq_refl) as (ses & blk & Hs & Ho & Hl & Hok & Hd & Hb & Hk & Hm & Hda & Hop).
  cbn in Hs, Hk, Hl. assert (Hlb : lba_ok ses (b_lba blk)) by (unfold key in Hk; congruence).
  pose proof (start_read_eq c mem s ses b blk (i_chains _ _ _ Hi) Hs Hb Hok Hlb Hd) as Hst.
  destruct (dopInUse ses) eqn:Eu.
  - eexists _, _. split; [done|]. split; [done|]. by apply inv_wants.
  - destruct Hst as (c' & E & Hch & Ebl & Ebs & En & Ese). exists (IoStarted, c'). unfold map_io. cbn [fst snd].
    destruct (map_wait_io_post c' ts st s lba mode b) as (p & Ep & Hp); [|by exists p].
    apply (started c c' ts st b blk s ses (TMap s lba mode (WDop b)) (TMap s lba mode (WIO b)) false); try done.
    + cbn. split; [done|by left].
    + cbn. tauto.
Qed.

Lemma map_body_post c ts st s lba mode b x blk mem :
  inv c (TRun s lba b x :: ts) st -> blocks c !! b = Some blk -> exclusive blk = x ->
  (hasData blk = true -> data blk = st (b_sessionId blk) (b_lba blk)) ->
  (x = false -> mode = kMapBlock_ReadOnly /\ hasData blk = true) ->
  exists p, map_body EOK mem s b mode c = Some p /\ map_post ts st s lba mode p.
Proof.
  intros Hi Hb Hx Hd Hro. unfold map_body, assert_exclusive. rewrite (bind_some Hb), Hb. cbn [mbind option_bind].
  assert (Hread : x = true -> reads mode = true -> hasData blk = false ->
    exists p, (r ← DoIO EOK mem s b kDiskBlockOp_Read true c; map_io s b mode r) = Some p /\ map_post ts st s lba mode p).
  { intros -> Hm Hnd. pose proof (held_idle _ _ _ _ _ _ Hi Hb eq_refl (fun x => x)) as Hop.
    destruct (map_start_post c ts st s lba mode b mem) as (r & p & Er & Ep & Hp).
    - apply (retask_same c ts st b blk (TRun s lba b true) (TMap s lba mode (WDop b)) true); try done; [|by right].
      intros y Hy. by apply elem_of_nil in Hy.
    - exists p. split; [|done]. unfold DoIO. rewrite (bind_some Hb), Hop.
      rewrite (bool_decide_false (_ /\ _)) by tauto. rewrite !bool_decide_false by done. cbn [andb]. by rewrite (bind_some Er). }
  assert (Hset : forall d, x = true -> length d = blockSize c -> Forall is_byte d -> reads mode = false ->
    (mode = kMapBlock_Cleared -> d = replicate (blockSize c) 0) ->
    exists p, map_finish s b EOK (upd_block b (set_data true d) c) = Some p /\ map_post ts st s lba mode p).
  { intros d -> Hld Hby Hm Hcl. apply (map_finish_ok _ ts st s lba mode b true (set_data true d blk)); try done.
    - by apply (edit c ts st b blk d).
    - cbn. by rewrite lookup_alter_eq, Hb.
    - congruence. }
  assert (Hfin : hasData blk = true -> mode <> kMapBlock_Cleared -> (mode <> kMapBlock_ReadOnly -> x = true) ->
    exists p, map_finish s b EOK c = Some p /\ map_post ts st s lba mode p).
  { intros Hh Hc Hr. apply (map_finish_ok c ts st s lba mode b x blk); try done. intros _. by apply Hd. }
  destruct (i_blocks _ _ _ Hi b blk Hb) as [[A1 A2 _ _ _ _ _ _ _ _] _].
  destruct mode; rewrite ?Hx in *; (destruct x; [|try by destruct (Hro eq_refl)]).
  - destruct (hasData blk); [by apply Hfin|]. cbn [mbind option_bind]. by apply Hread.
  - destruct (Hro eq_refl) as [_ Hh]. rewrite Hh in *. by apply Hfin.
  - cbn [mbind option_bind]. destruct (hasData blk); [by apply Hfin|by apply Hread].
  - cbn [mbind option_bind]. by apply Hset.
  - cbn [mbind option_bind]. apply Hset; try done; [apply length_replicate|by apply Forall_replicate].
Qed.

Lemma map_lock_post c ts st s lba mode b m mem :
  inv c (TMap s lba mode (WLock b m) :: ts) st ->
  exists p, map_lock EOK mem s b m mode c = Some p /\ map_post ts st s lba mode p.
Proof.
  intros Hi. destruct (task_facts _ _ _ _ b Hi eq_refl) as (ses & blk & Hs & Ho & Hl & Hok & Hd & Hb & Hk & Hm). cbn in Hm.
  destruct (i_blocks _ _ _ Hi b blk Hb) as [Hbk _].
  assert (Hda : exclusive blk = false -> hasData blk = true -> data blk = st (b_sessionId blk) (b_lba blk)).
  { intros Hx Hh. apply (bo_data _ _ _ _ _ Hbk Hh). rewrite Exists_cons. intros [[]|He]. revert He. apply editing_none.
    eapply no_other; [done|done|by right]. }
  unfold map_lock, LockBlockContent. rewrite (bind_some Hb). destruct m.
  - destruct (exclusive blk) eqn:Ex; cbn [negb mbind option_bind fst snd]; [by eexists|].
    apply (map_body_post _ ts st s lba mode b false (set_lock false (shareCount blk + 1) blk)); try done.
    + by apply lock_shared with (mode := mode) (m := kLockMode_Shared).
    + cbn. by rewrite lookup_alter_eq, Hb.
    + cbn. intros Hh. by apply Hda.
    + intros _. by apply Hm.
  - destruct (negb (exclusive blk) && (shareCount blk =? 0)) eqn:Ex; cbn [mbind option_bind fst snd]; [|by eexists].
    apply andb_true_iff in Ex as [Ex Es]. apply negb_true_iff in Ex. apply Z.eqb_eq in Es.
    apply (map_body_post _ ts st s lba mode b true (set_lock true (shareCount blk) blk)); try done.
    + by apply lock_exclusive with (mode := mode) (m := kLockMode_Exclusive).
    + cbn. by rewrite lookup_alter_eq, Hb.
    + cbn. intros Hh. by apply Hda.
Qed.

(** The block that the call picks is not one whose lock another call waits for. *)
Definition get_keeps (mem : bool) s (lba : Z) c (ts : list task) : Prop :=
  forall ses e r c1, sessions c !! s = Some ses ->
    GetBlock mem (sessionId ses) lba (Z.lor kGetBlock_Allocate kGetBlock_RecentUse) c = Some (Some (e, r, c1)) -> keeps_waited c c1 ts.

Lemma map_get_post c ts st s ses lba mode mem :
  inv c ts st -> sessions c !! s = Some ses -> isOpen ses = true -> lba_ok ses lba -> get_keeps mem s lba c ts ->
  exists p, map_get EOK mem s lba mode c = Some p /\ map_post ts st s lba mode p.
Proof.
  intros Hi Hs Ho Hl Hkw. unfold map_get. rewrite (bind_some Hs).
  destruct (i_sessions _ _ _ Hi s ses Hs Ho) as (Hok & _ & _).
  destruct (get_block_spec mem (sessionId ses) lba c (i_chains _ _ _ Hi)) as (g & Eg & Hg).
  pose proof (fun e r c1 => Hkw ses e r c1 Hs) as Hkw1. rewrite (bind_some Eg). destruct g as [[[e r] c1]|].
  2:{ eexists. split; [done|]. by apply (inv_null c ts st s lba mode ses). }
  destruct Hg as (Hch & Hsr & Hgot). assert (Hi1 : inv c1 ts st).
  { apply (inv_got c c1 ts st (sessionId ses) lba e r); try done; [apply (so_id _ _ Hok)| |by apply (Hkw1 e r)].
    intros s' ses' Hs' Ho' E. assert (s' = s) as -> by (by apply (i_ids _ _ _ Hi s' s ses' ses)). congruence. }
  pose proof Hsr as (_ & _ & _ & Es). rewrite <- Es in Hs. cbn [fst snd].
  assert (Hfound : forall b blk, blocks c1 !! b = Some blk -> key blk = (sessionId ses, lba) ->
    exists p, map_lock EOK mem s b (if bool_decide (mode = kMapBlock_ReadOnly) && hasData blk then kLockMode_Shared else kLockMode_Exclusive)
      mode c1 = Some p /\ map_post ts st s lba mode p).
  { intros b blk Hb Hk. apply map_lock_post. apply (inv_lock_wait c1 ts st s lba mode b _ blk ses); try done. destruct (bool_decide_reflect (mode = kMapBlock_ReadOnly)), (hasData blk); done. }
  destruct Hgot as [b blk c1 Hb Hk Eb|b blk c1 Hu Hn Eb|]; cbn [is_ok mbind option_bind].
  - rewrite <- Eb in Hb. rewrite (bind_some Hb). by apply Hfound.
  - assert (Hb : blocks c1 !! b = Some blk) by by rewrite Eb, lookup_insert_eq.
    rewrite (bind_some Hb). apply Hfound; [done|]. by destruct Hn.
  - eexists. split; [done|]. done.
Qed.


(** ** Unmapping *)

Definition unmap_post (ts : list task) st s (lba : Z) (p : unmap_result * DiskCache D) : Prop :=
  match p with
  | (UnmapDone e, c) => inv c ts st
  | (UnmapWait w, c) => inv c (TUnmap s lba w :: ts) st
  end.

Lemma unmap_finish_post c ts st s lba b x blk e :
  inv c (TMapped s lba b x :: ts) st -> blocks c !! b = Some blk ->
  (x = true -> data blk = st (b_sessionId blk) (b_lba blk)) ->
  exists c', unmap_finish s b e c = Some (UnmapDone e, c') /\ inv c' ts st.
Proof.
  intros Hi Hb Hx. destruct (task_facts _ _ _ _ b Hi eq_refl) as (ses & k & Hs & Ho & Hl & _ & _ & Ek & _ & Hd).
  rewrite Hb in Ek. injection Ek as <-. cbn in Hs, Hl, Hd. unfold unmap_finish. rewrite (bind_some Hs).
  pose proof (remap c ts st s lba b x blk ses false Hi Hb Hd Hs) as Hi1. cbn zeta iota in Hi1.
  replace (activeMappingsCount ses + -1) with (activeMappingsCount ses - 1) in Hi1 by lia. set (c1 := upd_session _ _ _) in *.
  destruct (unlock c1 ts st s lba kMapBlock_ReadOnly b x blk Hi1 Hb) as (c' & E & _ & _ & Ec & Hi'); [by intros ? _; apply Hx|].
  rewrite (bind_some E). exists c'. split; [done|].
  assert (Hs' : sessions c' !! s = Some (set_mappings (activeMappingsCount ses - 1) ses))
    by (rewrite Ec; cbn; by rewrite lookup_alter_eq, Hs).
  by apply (inv_null c' ts st s lba kMapBlock_ReadOnly _ Hs').
Qed.

Lemma unmap_wait_io_post c ts st s lba b :
  inv c (TUnmap s lba (WIO b) :: ts) st -> exists p, unmap_wait_io s b c = Some p /\ unmap_post ts st s lba p.
Proof.
  intros Hi. destruct (task_facts _ _ _ _ b Hi eq_refl) as (ses & blk & Hs & Ho & Hl & _ & _ & Hb & Hk & Hd).
  unfold unmap_wait_io, io_over. rewrite Hb. cbn [mbind option_bind].
  destruct (bool_decide_reflect (op blk = kDiskBlockOp_Write)) as [E|E]; cbn [negb]; [by eexists|].
  destruct (unmap_finish_post c ts st s lba b false blk EOK) as (c' & Ef & Hi'); [|done|done|by eexists].
  apply (retask_same c ts st b blk (TUnmap s lba (WIO b)) (TMapped s lba b false) false); try done.
  intros y Hy. by apply elem_of_nil in Hy.
Qed.

Lemma unmap_start_post c ts st s lba b :
  inv c (TUnmap s lba (WDop b) :: ts) st ->
  exists r p, StartWriteOp EOK true s b c = Some r /\ unmap_io s b r = Some p /\ unmap_post ts st s lba p.
Proof.
  intros Hi. destruct (task_facts _ _ _ _ b Hi eq_refl) as (ses & blk & Hs & Ho & Hl & Hok & Hd & Hb & Hk & Hda).
  cbn in Hs, Hk, Hl. assert (Hlb : lba_ok ses (b_lba blk)) by (unfold key in Hk; congruence).
  pose proof (start_write_eq c s ses b blk (i_chains _ _ _ Hi) Hs Hb Hok Hlb Hd) as Hst. destruct (dopInUse ses) eqn:Eu.
  - eexists _, _. split; [done|]. split; [done|]. by apply inv_wants.
  - destruct Hst as (c' & E & Hch & Ebl & Ebs & En & Ese). exists (IoStarted, c'). unfold unmap_io. cbn [fst snd].
    destruct (unmap_wait_io_post c' ts st s lba b) as (p & Ep & Hp); [|by exists p].
    apply (started c c' ts st b blk s ses (TUnmap s lba (WDop b)) (TUnmap s lba (WIO b)) true); try done. cbn. tauto.
Qed.

(** The content that the client gives back. *)
Definition unmap_store (mode : WriteBlock) (blk : DiskBlock) st : store :=
  match mode with kWriteBlock_None => st | _ => st_upd (b_sessionId blk) (b_lba blk) (data blk) st end.

Lemma unmap_call_post c ts st s lba b x blk mode :
  inv c (TMapped s lba b x :: ts) st -> blocks c !! b = Some blk ->
  (mode = kWriteBlock_None -> x = true -> data blk = st (b_sessionId blk) (b_lba blk)) -> (mode <> kWriteBlock_None -> x = true) ->
  exists p, DiskCache_UnmapBlock EOK s b mode c = Some p /\ unmap_post ts (unmap_store mode blk st) s lba p.
Proof.
  intros Hi Hb Hx Hx'. destruct (task_facts _ _ _ _ b Hi eq_refl) as (ses & k & Hs & Ho & Hl & _ & _ & Ek & _ & Hd).
  rewrite Hb in Ek. injection Ek as <-. cbn in Hs, Hl, Hd. unfold DiskCache_UnmapBlock. rewrite (bind_some Hs), Ho.
  destruct mode; cbn [unmap_store].
  - destruct (unmap_finish_post c ts st s lba b x blk EOK Hi Hb (Hx eq_refl)) as (c' & E & Hi'). by eexists.
  - rewrite Hx' in * by done. pose proof (holder_exclusive _ _ _ _ _ _ Hi Hb eq_refl) as He. rewrite (bind_some (downgrade_eq c b blk Hb He)).
    set (c1 := upd_block b _ c). pose proof (downgrade_unmap c ts st s lba b blk Hi Hb Hd) as Hi1. fold c1 in Hi1.
    pose proof (held_idle _ _ _ _ _ _ Hi Hb eq_refl (fun x => x)) as Hop.
    destruct (i_blocks _ _ _ Hi b blk Hb) as [[_ _ _ A4 A5 _ A7 _ _ _] _].
    assert (Eb1 : blocks c1 !! b = Some (set_lock false (shareCount blk + 1) blk)) by (cbn; by rewrite lookup_alter_eq, Hb).
    unfold assert_shared. rewrite Eb1. cbn [mbind option_bind set_lock shareCount exclusive].
    rewrite (proj2 (Z.ltb_lt 0 _)) by lia. cbn [andb negb].
    destruct (unmap_start_post c1 ts _ s lba b Hi1) as (r & p & Er & Ep & Hp). exists p. split; [|done].
    unfold DoIO. rewrite (bind_some Eb1). cbn [op isPinned set_lock]. rewrite Hop, A7.
    rewrite (bool_decide_false (_ /\ _)) by tauto. rewrite andb_false_r, bool_decide_false by done. by rewrite (bind_some Er).
  - rewrite Hx' in * by done. pose proof (holder_exclusive _ _ _ _ _ _ Hi Hb eq_refl) as He. unfold assert_exclusive. rewrite Hb. cbn [mbind option_bind].
    rewrite He. destruct (mark_dirty c ts st s lba b blk Hi Hb Hd) as (Eb1 & _ & Hi1).
    destruct (unmap_finish_post _ ts _ s lba b true _ EOK Hi1 Eb1) as (c' & E & Hi'); [intros _; cbn; by rewrite st_upd_eq|].
    rewrite E. by eexists.
Qed.


(** ** Writing dirty blocks back *)

Definition sync_post (ts : list task) st s (gen : Z) (p : sync_result * DiskCache D) : Prop :=
  match p with
  | (SyncDone _, c) | (SyncFuel, c) => inv c ts st
  | (SyncWait w rest e, c) => exists lba, inv c (TSync s lba gen w rest e :: ts) st
  end.

Definition cached c (rest : list blkref) : Prop := forall b, b ∈ rest -> is_Some (blocks c !! b).

Lemma sync_start_post c ts st s lba gen b rest e :
  inv c (TSync s lba gen (WDop b) rest e :: ts) st ->
  exists r c', StartWriteOp EOK true s b c = Some (r, c') /\
    (r = IoStarted /\ inv c' (TSync s lba gen (WIO b) rest e :: ts) st \/ r = IoWaitDop /\ inv c' (TSync s lba gen (WDop b) rest e :: ts) st).
Proof.
  intros Hi. destruct (task_facts _ _ _ _ b Hi eq_refl) as (ses & blk & Hs & Ho & Hl & Hok & Hd & Hb & Hk & Hda).
  cbn in Hs, Hk, Hl. assert (Hlb : lba_ok ses (b_lba blk)) by (unfold key in Hk; congruence).
  pose proof (start_write_eq c s ses b blk (i_chains _ _ _ Hi) Hs Hb Hok Hlb Hd) as Hst. destruct (dopInUse ses) eqn:Eu.
  - eexists _, _. split; [done|]. right. split; [done|]. by apply inv_wants.
  - destruct Hst as (c' & E & Hch & Ebl & Ebs & En & Ese). exists IoStarted, c'. split; [done|]. left. split; [done|].
    apply (started c c' ts st b blk s ses (TSync s lba gen (WDop b) rest e) (TSync s lba gen (WIO b) rest e) true); try done. cbn. tauto.
Qed.

(** The write of a dirty block that nobody uses. *)
Lemma sync_begin_post c ts st s ses b blk gen rest e :
  inv c ts st -> sessions c !! s = Some ses -> isOpen ses = true -> blocks c !! b = Some blk -> b_sessionId blk = sessionId ses ->
  DiskBlock_InUse blk = false -> isDirty blk = true -> cached c rest ->
  exists r c', sync_begin EOK s b c = Some (Some r, c') /\
    (r = IoStarted /\ inv c' (TSync s (b_lba blk) gen (WIO b) rest e :: ts) st \/
     r = IoWaitDop /\ inv c' (TSync s (b_lba blk) gen (WDop b) rest e :: ts) st).
Proof.
  intros Hi Hs Ho Hb Hsid Hu Hdi Hrest. destruct (i_blocks _ _ _ Hi b blk Hb) as [Hbk _].
  destruct (free_block _ _ _ _ _ Hbk Hu) as (Hop & Hx & Hsc & _). pose proof (bo_dirty _ _ _ _ _ Hbk Hdi) as Hd.
  assert (Hi1 : inv c (TMap s (b_lba blk) kMapBlock_ReadOnly (WLock b kLockMode_Shared) :: ts) st).
  { apply (inv_lock_wait c ts st s _ _ b _ blk ses); try done; [by apply (i_lba _ _ _ Hi b blk s)|unfold key; congruence]. }
  apply (lock_shared c ts st s _ _ b _ blk) in Hi1; [|done|done]. set (c1 := upd_block b _ c) in Hi1.
  assert (Eb1 : blocks c1 !! b = Some (set_lock false (shareCount blk + 1) blk)) by (cbn; by rewrite lookup_alter_eq, Hb).
  assert (Hi2 : inv c1 (TSync s (b_lba blk) gen (WDop b) rest e :: ts) st).
  { apply (retask_same c1 ts st b _ (TRun s (b_lba blk) b false) (TSync s (b_lba blk) gen (WDop b) rest e) false Hi1 Eb1); try done.
    intros y Hy. cbn. apply lookup_alter_is_Some. by apply Hrest. }
  destruct (sync_start_post c1 ts st s (b_lba blk) gen b rest e Hi2) as (r & c' & Er & Hr).
  exists r, c'. split; [|done]. unfold sync_begin, LockBlockContent. rewrite (bind_some Hb), Hdi, Hop. cbn [andb].
  rewrite bool_decide_false by done. cbn [negb]. rewrite (bind_some Hb), Hx. cbn [negb mbind option_bind fst snd].
  fold c1. unfold assert_shared. rewrite Eb1. cbn [mbind option_bind set_lock shareCount exclusive].
  rewrite (proj2 (Z.ltb_lt 0 _)) by lia. cbn [andb negb]. unfold DoIO. rewrite (bind_some Eb1). cbn [op isPinned set_lock].
  rewrite Hop, (bo_pinned _ _ _ _ _ Hbk). rewrite (bool_decide_false (_ /\ _)) by tauto. rewrite andb_false_r, bool_decide_false by done.
  by rewrite (bind_some Er).
Qed.

Lemma put_free c ts st b blk :
  inv c ts st -> blocks c !! b = Some blk -> PutBlock b c = Some c.
Proof.
  intros Hi Hb. unfold PutBlock. rewrite (bind_some Hb). destruct (DiskBlock_InUse blk) eqn:Hu; [done|].
  destruct (i_blocks _ _ _ Hi b blk Hb) as [Hbk _]. destruct (free_block _ _ _ _ _ Hbk Hu) as (-> & _). done.
Qed.

Lemma lru_cached c : chains_ok c -> cached c (reverse (lruChain c)).
Proof. intros Hc b. rewrite elem_of_reverse. apply (co_lru_dom c Hc). Qed.

Lemma sync_scan_post fuel s ses gen : forall c ts st rest e,
  inv c ts st -> sessions c !! s = Some ses -> isOpen ses = true -> cached c rest ->
  exists p, sync_scan fuel EOK s gen rest e c = Some p /\ sync_post ts st s gen p.
Proof.
  induction fuel as [|fuel IH]; intros c ts st rest e Hi Hs Ho Hrest; [by eexists|]. cbn [sync_scan].
  destruct rest as [|b rest]; [by eexists|]. destruct (Hrest b) as [blk Hb]; [by left|]. rewrite (bind_some Hs), (bind_some Hb).
  assert (Hr : cached c rest) by (intros x Hx; apply Hrest; by right).
  assert (Hnext : exists p, (if gen =? lruChainGeneration c then sync_scan fuel EOK s gen rest e c
      else sync_scan fuel EOK s gen (reverse (lruChain c)) e c) = Some p /\ sync_post ts st s gen p).
  { destruct (gen =? lruChainGeneration c); apply IH; try done. apply lru_cached, (i_chains _ _ _ Hi). }
  destruct (negb (DiskBlock_InUse blk) && (isDirty blk && negb (isPinned blk))) eqn:E; [|done].
  apply andb_true_iff in E as [Hu%negb_true_iff [Hdi _]%andb_true_iff].
  destruct (b_sessionId blk =? sessionId ses) eqn:Ei.
  - apply Z.eqb_eq in Ei.
    destruct (sync_begin_post c ts st s ses b blk gen rest e Hi Hs Ho Hb Ei Hu Hdi Hr) as (r & c' & Er & Hr').
    rewrite (bind_some Er). cbn [fst snd]. destruct Hr' as [[-> Hi']|[-> Hi']]; eexists; (split; [done|]); by exists (b_lba blk).
  - rewrite (bind_some (put_free c ts st b blk Hi Hb)). done.
Qed.

Lemma sync_resume_post fuel c ts st s lba gen w rest e :
  inv c (TSync s lba gen w rest e :: ts) st ->
  exists p, sync_resume fuel EOK s gen w rest e c = Some p /\ sync_post ts st s gen p.
Proof.
  intros Hi. destruct (i_tasks _ _ _ Hi (TSync s lba gen w rest e)) as [(ses & Hs & Ho & Hl & Hblk) Hsh Hrest]; [by left|].
  cbn in Hs, Hrest, Hl. destruct w as [|? ?|b|? ? ?|b]; try by destruct (Hsh eq_refl) as (? & ? & ? & ?).
  - destruct (sync_start_post c ts st s lba gen b rest e Hi) as (r & c' & Er & Hr). cbn [sync_resume]. rewrite (bind_some Er).
    cbn [fst snd]. destruct Hr as [[-> Hi']|[-> Hi']]; eexists; (split; [done|]); by exists lba.
  - destruct (task_facts _ _ _ _ b Hi eq_refl) as (ses' & blk & _ & _ & _ & _ & _ & Hb & Hk & Hd). cbn [sync_resume]. unfold io_over.
    rewrite Hb. cbn [mbind option_bind].
    destruct (bool_decide_reflect (op blk = kDiskBlockOp_Write)) as [E|E]; cbn [negb]; [eexists; split; [done|]; by exists lba|].
    assert (Hi1 : inv c (TRun s lba b false :: ts) st).
    { apply (retask_same c ts st b blk (TSync s lba gen (WIO b) rest e) (TRun s lba b false) false); try done.
      intros y Hy. by apply elem_of_nil in Hy. }
    destruct (unlock c ts st s lba kMapBlock_ReadOnly b false blk Hi1 Hb) as (c' & _ & Eu & Ep & Ec & Hi'); [done|].
    unfold sync_next. rewrite (bind_some Eu), (bind_some Ep).
    assert (Hs' : sessions c' !! s = Some ses) by by rewrite Ec.
    apply (inv_null c' ts st s lba kMapBlock_ReadOnly ses) in Hi'; [|done|done|done].
    destruct (gen =? lruChainGeneration c'); apply (sync_scan_post fuel s ses); try done; [|apply lru_cached, (i_chains _ _ _ Hi')].
    intros y Hy. rewrite Ec. cbn. apply lookup_alter_is_Some. by apply Hrest.
Qed.

(** ** Sessions *)

(** The disks that are considered here: the sector size divides the block size,
    the size in bytes fits in 32 bits, and the driver wants single blocks. *)
Record disk_ok c (disk : DiskDriver) (dev : D) : Prop := {
  dk_drive : drive_ok disk;
  dk_loaded : drive_loaded disk;
  dk_ready : dev_ready disk dev;
  dk_size : sectorCount disk * sectorSize disk <= 2 ^ 32;
  dk_sector : ispow2_ul (sectorSize disk) = true /\ Z.of_nat (blockSize c) mod sectorSize disk = 0 /\ (0 < blockSize c)%nat;
  dk_cluster : sectorsPerRdwr disk = 1 }.

Lemma no_session_task c ts st s :
  inv c ts st -> (forall ses, sessions c !! s = Some ses -> isOpen ses = false) -> forall t, t ∈ ts -> session_of t <> s.
Proof.
  intros Hi Hs t Ht <-. destruct (i_tasks _ _ _ Hi t Ht) as [(ses & E & Ho & _) _ _]. apply Hs in E. congruence.
Qed.

Lemma mapping_session t s : mapping t = Some s -> session_of t = s.
Proof. task_cases t; cbn; congruence. Qed.

Lemma no_mappings s ts : (forall t, t ∈ ts -> session_of t <> s) -> mappings s ts = 0%nat.
Proof.
  intros Hn. unfold mappings. destruct (filter _ ts) as [|t l] eqn:E; [done|].
  assert (Ht : t ∈ filter (fun t => mapping t = Some s) ts) by (rewrite E; by left).
  apply list_elem_of_filter in Ht as [Hm%mapping_session Ht]. by destruct (Hn t Ht).
Qed.

(** The content of the disk becomes the content of the session. *)
Definition disk_content c (disk : DiskDriver) (dev : D) (lba : Z) : list Z :=
  sectors disk dev (lba * (Z.of_nat (blockSize c) / sectorSize disk)) (Z.to_nat (Z.of_nat (blockSize c) / sectorSize disk)).

Definition open_store c (disk : DiskDriver) (dev : D) st : store :=
  fun sid lba => if decide (sid = nextAvailSessionId c) then disk_content c disk dev lba else st sid lba.

Lemma open_session_inv c c' ts st s disk dev :
  inv c ts st -> (forall ses, sessions c !! s = Some ses -> isOpen ses = false) -> disk_ok c disk dev ->
  DiskCache_OpenSession s disk dev c = Some c' -> inv c' ts (open_store c disk dev st).
Proof.
  intros Hi Hs [Hdr Hld Hrd Hsz (Hp2 & Hdiv & Hbs) Hcl] E. pose proof (no_session_task c ts st s Hi Hs) as Hnt.
  pose proof Hdr as [(_ & _ & _ & Hss) _ _ _ _]. destruct Hi as [Hnx Hch Hbl Hse Hid Hlb Hta Hdi].
  unfold DiskCache_OpenSession in E. rewrite (proj2 (Z.ltb_lt 0 _)), Hp2, Hcl in E by done. cbn [andb] in E.
  destruct (0 <=? s32 (nextAvailSessionId c + 1)) eqn:En; [|done]. apply Z.leb_le in En.
  assert (Enx : s32 (nextAvailSessionId c + 1) = nextAvailSessionId c + 1 /\ nextAvailSessionId c + 1 < 2 ^ 31).
  { destruct (decide (nextAvailSessionId c + 1 < 2 ^ 31)); [split; [apply s32_small; lia|done]|].
    replace (nextAvailSessionId c) with (2 ^ 31 - 1) in En by lia.
    assert (s32 (2 ^ 31 - 1 + 1) = - 2 ^ 31) by done. lia. }
  destruct Enx as [Enx Hlt]. rewrite Enx in E. injection E as <-.
  set (ses := Ses disk dev _ _ _ _ _ _ _ _ _ _). set (f := Z.of_nat (blockSize c) / sectorSize disk) in *.
  assert (Hf : 0 < f /\ f * sectorSize disk = Z.of_nat (blockSize c)).
  { pose proof (Z.div_mod (Z.of_nat (blockSize c)) (sectorSize disk)). unfold f. rewrite Hdiv in *. nia. }
  assert (Hold : forall s' a, <[s := ses]> (sessions c) !! s' = Some a -> isOpen a = true ->
    (s' = s /\ a = ses) \/ s' <> s /\ sessions c !! s' = Some a).
  { intros s' a Ha _. apply lookup_insert_Some in Ha as [[<- <-]|[Hn Ha]]; [by left|by right]. }
  assert (Hsid : forall s' a, sessions c !! s' = Some a -> isOpen a = true -> sessionId a <> nextAvailSessionId c).
  { intros s' a Ha Ho. destruct (Hse s' a Ha Ho) as ([_ _ _ _ _ _ _ _ Hlt'] & _). lia. }
  assert (Hold_st : forall i l, i <> nextAvailSessionId c -> open_store c disk dev st i l = st i l)
    by (intros i l Hne; unfold open_store; by rewrite decide_False).
  split; cbn [nextAvailSessionId blocks sessions blockSize lruChain].
  - lia.
  - destruct Hch. by split.
  - intros b blk Hb. destruct (Hbl b blk Hb) as [Hok Hl]. split; [|lia]. apply (blk_ok_store _ st); [|done]. apply Hold_st. lia.
  - intros s' a Ha Ho. destruct (Hold s' a Ha Ho) as [[-> ->]|[Hne Ha']].
    + split_and!; [|done|]; [|by rewrite (no_mappings s ts Hnt)]. split; try done; cbn; lia.
    + destruct (Hse s' a Ha' Ho) as ([B1 B2 B3 B4 B5 B6 B7 B8 B9] & Hd & Hm). split_and!; [|by apply (dop_same c _ a)|done].
      split; try done. cbn. lia.
  - intros s1 s2 a1 a2 E1 E2 O1 O2 E. destruct (Hold s1 a1 E1 O1) as [[-> ->]|[N1 A1]], (Hold s2 a2 E2 O2) as [[-> ->]|[N2 A2]].
    + done.
    + destruct (Hsid s2 a2 A2 O2). by rewrite <- E.
    + destruct (Hsid s1 a1 A1 O1). by rewrite E.
    + by apply (Hid s1 s2 a1 a2).
  - intros b blk s' a Hb Ha Ho Ei. destruct (Hold s' a Ha Ho) as [[-> ->]|[_ Ha']]; [|by apply (Hlb b blk s')].
    destruct (Hbl b blk Hb) as [_ Hl]. cbn in Ei. lia.
  - intros t Ht. destruct (Hta t Ht) as [(a & Ha & Ho & Hl & Hblk) Hsh Hr]. split; [|done|done].
    exists a. cbn. rewrite lookup_insert_ne; [done|]. intros E. symmetry in E. by apply (Hnt t Ht).
  - intros s' a l Ha Ho Hl. destruct (Hold s' a Ha Ho) as [[-> ->]|[Hne Ha']].
    + left. unfold on_disk, open_store. cbn. by rewrite decide_True.
    + rewrite Hold_st by by apply (Hsid s'). by apply (Hdi s').
Qed.

(** A session without mappings and without calls under way is closed. *)
Lemma close_session_inv c ts st s ses :
  inv c ts st -> sessions c !! s = Some ses -> (forall t, t ∈ ts -> session_of t <> s) ->
  exists c', DiskCache_CloseSession s c = Some (true, c') /\ inv c' ts st.
Proof.
  intros Hi Hs Hnt. unfold DiskCache_CloseSession. rewrite (bind_some Hs). destruct (isOpen ses) eqn:Ho; [|by exists c].
  destruct (i_sessions _ _ _ Hi s ses Hs Ho) as (_ & _ & Hm). rewrite Hm, (no_mappings s ts Hnt). cbn [Z.of_nat Z.ltb Z.compare].
  eexists. split; [done|]. set (f := fun x : DiskSession D => _).
  assert (Hold : forall s' a, alter f s (sessions c) !! s' = Some a -> isOpen a = true -> s' <> s /\ sessions c !! s' = Some a).
  { intros s' a Ha Hoa. apply lookup_alter_Some in Ha as [(<- & a0 & E & ->)|[Hne Ha]]; [done|by split]. }
  destruct Hi as [Hnx Hch Hbl Hse Hid Hlb Hta Hdi]. split; cbn [nextAvailSessionId blocks sessions blockSize lruChain upd_session]; try done.
  - destruct Hch. by split.
  - intros s' a Ha Hoa. destruct (Hold s' a Ha Hoa) as [Hne Ha']. destruct (Hse s' a Ha' Hoa) as ([B1 B2 B3 B4 B5 B6 B7 B8 B9] & Hd & Hm').
    split_and!; [by split|by apply (dop_same c _ a)|done].
  - intros s1 s2 a1 a2 E1 E2 O1 O2 E. destruct (Hold s1 a1 E1 O1) as [_ A1], (Hold s2 a2 E2 O2) as [_ A2]. by apply (Hid s1 s2 a1 a2).
  - intros b blk s' a Hb Ha Hoa Ei. destruct (Hold s' a Ha Hoa) as [_ Ha']. by apply (Hlb b blk s').
  - intros t Ht. destruct (Hta t Ht) as [(a & Ha & Hoa & Hl & Hblk) Hsh Hr]. split; [|done|done].
    exists a. cbn. rewrite lookup_alter_ne; [done|]. intros E. symmetry in E. by apply (Hnt t Ht).
  - intros s' a l Ha Hoa Hl. destruct (Hold s' a Ha Hoa) as [_ Ha']. by apply (Hdi s').
Qed.
End Calls.
