(* ===== verification/DiskCacheThm.v ===== *)
(** * The disk cache: what it does

    Clients, drivers and the cache as a transition system: calls start, wait and
    go on in any order, and the drivers complete requests at any time.  The
    cache behaves like a store of blocks that is kept on the disks, and none of
    its assertions fails. *)

From S2P Require Import Prelude Bytes ExtBit FSContainer Disk RamDisk DiskCache DiskCacheInv DiskCacheSys DiskCacheCalls.

(** What the clients see: a session is opened on a disk with a content, a mapping
    shows the content of an address, and an unmapping sets it. *)
Inductive event :=
| EvOpen (sid : Z) (content : Z -> list Z)
| EvRead (sid lba : Z) (d : list Z)
| EvWrite (sid lba : Z) (d : list Z).

(** The specification: a store of blocks. *)
Definition store_step (ev : event) (st : store) : option store :=
  match ev with
  | EvOpen sid content => Some (fun i l => if decide (i = sid) then content l else st i l)
  | EvRead sid lba d => if decide (d = st sid lba) then Some st else None
  | EvWrite sid lba d => Some (st_upd sid lba d st)
  end.

Fixpoint store_run (evs : list event) (st : store) : option store :=
  match evs with [] => Some st | ev :: evs => st ← store_step ev st; store_run evs st end.

Lemma store_run_app evs1 evs2 st : store_run (evs1 ++ evs2) st = st ← store_run evs1 st; store_run evs2 st.
Proof. revert st. induction evs1 as [|ev evs1 IH]; intros st; [done|]. cbn. destruct (store_step ev st); [apply IH|done]. Qed.

Section Run.
Context {D} `{SectorDeviceSpec D}.
Implicit Types (c : DiskCache D) (st : store).

(** What a mapping call adds to the calls and mappings, and what the client sees. *)
Definition map_tasks (s : positive) (lba : Z) (mode : MapBlock) (r : map_result) c : list task :=
  match r with
  | MapDone _ (Some b) => [TMapped s lba b (default false (exclusive <$> blocks c !! b))]
  | MapDone _ None => []
  | MapWait w => [TMap s lba mode w]
  end.

Definition map_events (s : positive) (lba : Z) (mode : MapBlock) (r : map_result) c : list event :=
  match r, sessions c !! s with
  | MapDone _ (Some b), Some ses => if reads mode then [EvRead (sessionId ses) lba (default [] (data <$> blocks c !! b))] else []
  | _, _ => []
  end.

Definition unmap_tasks (s : positive) (lba : Z) (r : unmap_result) : list task :=
  match r with UnmapDone _ => [] | UnmapWait w => [TUnmap s lba w] end.

Definition unmap_events (mode : WriteBlock) (blk : DiskBlock) : list event :=
  match mode with kWriteBlock_None => [] | _ => [EvWrite (b_sessionId blk) (b_lba blk) (data blk)] end.

(** The address for which a call of sync waits. *)
Definition wait_lba (w : wait_point) c : Z :=
  match w with WDop b | WIO b => default 0 (b_lba <$> blocks c !! b) | _ => 0 end.
Definition sync_tasks (s : positive) (gen : Z) (r : sync_result) c : list task :=
  match r with SyncWait w rest e => [TSync s (wait_lba w c) gen w rest e] | _ => [] end.

(** The clients map addresses of the disk, change a block only while they hold it
    for writing, and give a block that they have changed back with a write mode. *)
Inductive step : DiskCache D * list task * store -> list event -> DiskCache D * list task * store -> Prop :=
| st_open c ts st s disk dev c' :
    (forall ses, sessions c !! s = Some ses -> isOpen ses = false) -> disk_ok c disk dev ->
    DiskCache_OpenSession s disk dev c = Some c' ->
    step (c, ts, st) [EvOpen (nextAvailSessionId c) (disk_content c disk dev)] (c', ts, open_store c disk dev st)
| st_close c ts st s c' :
    (forall t, t ∈ ts -> session_of t <> s) -> DiskCache_CloseSession s c = Some (true, c') -> step (c, ts, st) [] (c', ts, st)
| st_map c ts st s ses lba mode mem r c' :
    sessions c !! s = Some ses -> lba_ok ses lba -> get_keeps mem s lba c ts ->
    DiskCache_MapBlock EOK mem s lba mode c = Some (r, c') ->
    step (c, ts, st) (map_events s lba mode r c') (c', map_tasks s lba mode r c' ++ ts, st)
| st_map_resume c ts ts' st s lba mode w mem r c' :
    ts ≡ₚ TMap s lba mode w :: ts' -> (w = WGet -> get_keeps mem s lba c ts') ->
    map_resume EOK mem s lba mode w c = Some (r, c') ->
    step (c, ts, st) (map_events s lba mode r c') (c', map_tasks s lba mode r c' ++ ts', st)
| st_edit c ts ts' st s lba b d :
    ts ≡ₚ TMapped s lba b true :: ts' -> length d = blockSize c -> Forall is_byte d ->
    step (c, ts, st) [] (upd_block b (fun blk => set_data (hasData blk) d blk) c, ts, st)
| st_unmap c ts ts' st s lba b x blk mode r c' :
    ts ≡ₚ TMapped s lba b x :: ts' -> blocks c !! b = Some blk ->
    (mode = kWriteBlock_None -> x = true -> data blk = st (b_sessionId blk) (b_lba blk)) -> (mode <> kWriteBlock_None -> x = true) ->
    DiskCache_UnmapBlock EOK s b mode c = Some (r, c') ->
    step (c, ts, st) (unmap_events mode blk) (c', unmap_tasks s lba r ++ ts', unmap_store mode blk st)
| st_unmap_resume c ts ts' st s lba w r c' :
    ts ≡ₚ TUnmap s lba w :: ts' -> unmap_resume EOK s w c = Some (r, c') ->
    step (c, ts, st) [] (c', unmap_tasks s lba r ++ ts', st)
| st_sync c ts st s fuel r c' :
    DiskCache_Sync fuel EOK s c = Some (r, c') -> r <> SyncFuel ->
    step (c, ts, st) [] (c', sync_tasks s (lruChainGeneration c) r c' ++ ts, st)
| st_sync_resume c ts ts' st s lba gen w rest e fuel r c' :
    ts ≡ₚ TSync s lba gen w rest e :: ts' -> sync_resume fuel EOK s gen w rest e c = Some (r, c') -> r <> SyncFuel ->
    step (c, ts, st) [] (c', sync_tasks s gen r c' ++ ts', st)
| st_done c ts st s ses c' :
    sessions c !! s = Some ses -> isOpen ses = true -> dopInUse ses = true ->
    request_done s c = Some c' -> written_through c c' s -> step (c, ts, st) [] (c', ts, st).

Inductive run : DiskCache D * list task * store -> list event -> DiskCache D * list task * store -> Prop :=
| run_nil x : run x [] x
| run_snoc x evs y evs' z : run x evs y -> step y evs' z -> run x (evs ++ evs') z.

Definition sys_inv (x : DiskCache D * list task * store) : Prop := inv x.1.1 x.1.2 x.2.

Lemma holder_mode c ts st b blk t x :
  inv c (t :: ts) st -> blocks c !! b = Some blk -> hold t = Some (b, x) -> exclusive blk = x.
Proof.
  intros Hi Hb Ht. destruct x; [by apply (holder_exclusive c ts st b blk t)|].
  destruct (i_blocks _ _ _ Hi b blk Hb) as [[_ _ _ A4 A5 _ _ _ _ _] _]. destruct (exclusive blk); [|done].
  rewrite A5 in A4 by done. pose proof (holders_elem b false t (t :: ts) (list_elem_of_here _ _) Ht). lia.
Qed.

Lemma map_post_step ts st s lba mode r c :
  map_post ts st s lba mode (r, c) ->
  inv c (map_tasks s lba mode r c ++ ts) st /\ store_run (map_events s lba mode r c) st = Some st.
Proof.
  destruct r as [e [b|]|w]; cbn [map_post map_tasks map_events app].
  - intros (_ & x & ses & blk & Hi & Hs & Hb & _ & Hr & _). rewrite Hs, Hb. cbn.
    rewrite (holder_mode c ts st b blk (TMapped s lba b x) x Hi Hb eq_refl). split; [done|].
    destruct (reads mode); [|done]. cbn. by rewrite decide_True by auto.
  - intros [_ Hi]. split; [done|]. by destruct (sessions c !! s).
  - intros Hi. split; [done|]. by destruct (sessions c !! s).
Qed.

Lemma unmap_post_step ts st s lba r c : unmap_post ts st s lba (r, c) -> inv c (unmap_tasks s lba r ++ ts) st.
Proof. by destruct r. Qed.

Lemma sync_post_step ts st s gen r c : sync_post ts st s gen (r, c) -> inv c (sync_tasks s gen r c ++ ts) st.
Proof.
  destruct r as [|w rest e|]; cbn [sync_post sync_tasks app]; try done. intros [lba Hi].
  enough (Hw : wait_lba w c = lba) by by rewrite Hw.
  destruct (i_tasks _ _ _ Hi (TSync s lba gen w rest e)) as [(ses & _ & _ & _ & Hblk) Hsh _]; [by left|].
  destruct w as [|b m|b|b i idx|b]; try (by destruct (Hsh eq_refl) as (? & ? & ? & ?));
    destruct (Hblk b eq_refl) as (blk & Hb & Hk & _); cbn; rewrite Hb; cbn; by injection Hk.
Qed.


(** ** Every call that may be made returns, and keeps the invariant *)

Lemma map_call c ts st s ses lba mode mem :
  inv c ts st -> sessions c !! s = Some ses -> lba_ok ses lba -> get_keeps mem s lba c ts ->
  exists p, DiskCache_MapBlock EOK mem s lba mode c = Some p /\ map_post ts st s lba mode p.
Proof.
  intros Hi Hs Hl Hg. unfold DiskCache_MapBlock. rewrite (bind_some Hs). destruct (isOpen ses) eqn:Ho; [|by eexists].
  by apply (map_get_post c ts st s ses).
Qed.

Lemma map_resume_call c ts st s lba mode w mem :
  inv c (TMap s lba mode w :: ts) st -> (w = WGet -> get_keeps mem s lba c ts) ->
  exists p, map_resume EOK mem s lba mode w c = Some p /\ map_post ts st s lba mode p.
Proof.
  intros Hi Hg. destruct (i_tasks _ _ _ Hi (TMap s lba mode w)) as [(ses & Hs & Ho & Hl & _) Hsh _]; [by left|]. cbn in Hs, Hl.
  destruct w as [|b m|b|b i idx|b]; cbn [map_resume].
  - apply (map_get_post c ts st s ses); try done; [by apply (inv_null c ts st s lba mode ses)|by apply Hg].
  - by apply map_lock_post.
  - destruct (map_start_post c ts st s lba mode b mem Hi) as (r & p & Er & Ep & Hp). exists p. by rewrite (bind_some Er).
  - by destruct (Hsh eq_refl) as (? & ? & ? & ?).
  - by apply map_wait_io_post.
Qed.

Lemma unmap_resume_call c ts st s lba w :
  inv c (TUnmap s lba w :: ts) st -> exists p, unmap_resume EOK s w c = Some p /\ unmap_post ts st s lba p.
Proof.
  intros Hi. destruct (i_tasks _ _ _ Hi (TUnmap s lba w)) as [_ Hsh _]; [by left|].
  destruct w as [|b m|b|b i idx|b]; cbn [unmap_resume]; try by destruct (Hsh eq_refl) as (? & ? & ? & ?).
  - destruct (unmap_start_post c ts st s lba b Hi) as (r & p & Er & Ep & Hp). exists p. by rewrite (bind_some Er).
  - by apply unmap_wait_io_post.
Qed.

Lemma sync_call fuel c ts st s ses :
  inv c ts st -> sessions c !! s = Some ses ->
  exists p, DiskCache_Sync fuel EOK s c = Some p /\ sync_post ts st s (lruChainGeneration c) p.
Proof.
  intros Hi Hs. unfold DiskCache_Sync. rewrite (bind_some Hs). destruct (isOpen ses) eqn:Ho; [|by eexists].
  destruct (0 <? dirtyBlockCount c); [|by eexists]. apply (sync_scan_post fuel s ses); try done. apply lru_cached, (i_chains _ _ _ Hi).
Qed.

Lemma edit_call c ts st s lba b d :
  inv c (TMapped s lba b true :: ts) st -> length d = blockSize c -> Forall is_byte d ->
  inv (upd_block b (fun blk => set_data (hasData blk) d blk) c) (TMapped s lba b true :: ts) st.
Proof.
  intros Hi Hl Hd. destruct (task_facts _ _ _ _ b Hi eq_refl) as (ses & blk & _ & _ & _ & _ & _ & Hb & _ & Hh). cbn in Hh.
  pose proof (edit c ts st b blk d (TMapped s lba b true) Hi eq_refl Hb Hl Hd) as Hi'.
  replace (upd_block b (fun blk => set_data (hasData blk) d blk) c) with (upd_block b (set_data true d) c); [done|].
  unfold upd_block. f_equal. rewrite !(alter_lookup _ _ _ blk) by done. by rewrite Hh.
Qed.

Lemma cache_step_inv x evs y : sys_inv x -> step x evs y -> sys_inv y /\ store_run evs x.2 = Some y.2.
Proof.
  unfold sys_inv. intros Hi Hst. destruct Hst as
    [c ts st s disk dev c' Hs Hd E|c ts st s c' Hnt E|c ts st s ses lba mode mem r c' Hs Hl Hg E
    |c ts ts' st s lba mode w mem r c' Hp Hg E|c ts ts' st s lba b d Hp Hl Hd
    |c ts ts' st s lba b x blk mode r c' Hp Hb Hn Hx E|c ts ts' st s lba w r c' Hp E|c ts st s fuel r c' E Hf
    |c ts ts' st s lba gen w rest e fuel r c' Hp E Hf|c ts st s ses c' Hs Ho Hu E Hw];
    cbn [fst snd] in *; try (apply (inv_perm _ _ _ _ Hp) in Hi as Hi').
  - split; [by apply (open_session_inv c c' ts st s disk dev)|done].
  - split; [|done]. destruct (sessions c !! s) as [ses|] eqn:Hs; [|unfold DiskCache_CloseSession in E; by rewrite Hs in E].
    destruct (close_session_inv c ts st s ses Hi Hs Hnt) as (c1 & E1 & Hi'). congruence.
  - destruct (map_call c ts st s ses lba mode mem Hi Hs Hl Hg) as (p & E1 & Hp). rewrite E in E1. injection E1 as <-. by apply map_post_step.
  - destruct (map_resume_call c ts' st s lba mode w mem Hi' Hg) as (p & E1 & Hpp). rewrite E in E1. injection E1 as <-. by apply map_post_step.
  - split; [|done]. apply (inv_perm _ (TMapped s lba b true :: ts')); [done|]. by apply edit_call.
  - destruct (unmap_call_post c ts' st s lba b x blk mode Hi' Hb Hn Hx) as (p & E1 & Hpp). rewrite E in E1. injection E1 as <-.
    split; [by apply unmap_post_step|by destruct mode].
  - destruct (unmap_resume_call c ts' st s lba w Hi') as (p & E1 & Hpp). rewrite E in E1. injection E1 as <-.
    split; [by apply unmap_post_step|done].
  - split; [|done]. destruct (sessions c !! s) as [ses|] eqn:Hs; [|unfold DiskCache_Sync in E; by rewrite Hs in E].
    destruct (sync_call fuel c ts st s ses Hi Hs) as (p & E1 & Hpp). rewrite E in E1. injection E1 as <-. by apply sync_post_step.
  - destruct (sync_resume_post fuel c ts' st s lba gen w rest e Hi') as (p & E1 & Hpp). rewrite E in E1. injection E1 as <-.
    split; [by apply sync_post_step|done].
  - split; [|done]. destruct (request_done_inv c ts st s ses Hi Hs Ho Hu) as (c1 & E1 & Hi'). rewrite E in E1. injection E1 as <-. by apply Hi'.
Qed.

Lemma cache_run_inv x evs y : sys_inv x -> run x evs y -> sys_inv y /\ store_run evs x.2 = Some y.2.
Proof.
  intros Hi Hr. induction Hr as [|x evs y evs' z Hr IH Hst]; [done|]. destruct (IH Hi) as [Hy Hs].
  destruct (cache_step_inv y evs' z Hy Hst) as [Hz Hs']. split; [done|]. by rewrite store_run_app, Hs.
Qed.

Lemma create_cache_inv size n c st : DiskCache_Create size n = Some c -> inv (D := D) c [] st.
Proof.
  unfold DiskCache_Create. destruct (_ && _); [|done]. intros [= <-]. split; cbn; try done; try (intros ? ? E; by apply lookup_empty_Some in E).
  - split; cbn; try done.
    + constructor.
    + intros b. rewrite lookup_empty, elem_of_nil. split; [done|by intros []].
    + intros i ch Hi. apply (lookup_replicate 8 [] ch i) in Hi as [-> _]. split; [constructor|]. intros b. rewrite elem_of_nil.
      split; [done|]. by intros (k & E & _).
  - intros t Ht. by apply elem_of_nil in Ht.
Qed.


(** ** The theorems *)

(** Nobody edits a block that is not locked exclusively. *)
Lemma unlocked_data c ts st b blk :
  inv c ts st -> blocks c !! b = Some blk -> hasData blk = true -> exclusive blk = false -> data blk = st (b_sessionId blk) (b_lba blk).
Proof.
  intros Hi Hb Hd Hx. destruct (i_blocks _ _ _ Hi b blk Hb) as [[_ _ A3 _ _ _ _ _ _ A10] _].
  apply A10; [done|]. apply editing_none. rewrite Hx in A3. by apply holders_zero.
Qed.

Lemma shared_mapping_data c ts st s lba b ses blk :
  inv c ts st -> TMapped s lba b false ∈ ts -> sessions c !! s = Some ses -> blocks c !! b = Some blk -> data blk = st (sessionId ses) lba.
Proof.
  intros Hi Ht Hs Hb. apply elem_of_Permutation in Ht as [ts' Hp]. apply (inv_perm _ _ _ _ Hp) in Hi.
  destruct (task_facts _ _ _ _ b Hi eq_refl) as (ses' & k & Hs' & _ & _ & _ & _ & Hb' & Hk & Hd). cbn in Hs', Hk, Hd.
  rewrite Hs in Hs'. injection Hs' as <-. rewrite Hb in Hb'. injection Hb' as <-. unfold key in Hk. injection Hk as <- <-.
  apply (unlocked_data c _ st b blk Hi); try done. by apply (holder_mode c ts' st b blk (TMapped s (b_lba blk) b false) false).
Qed.

Lemma behind_data c ts st b blk :
  inv c ts st -> blocks c !! b = Some blk -> behind ts b blk -> exclusive blk = false -> data blk = st (b_sessionId blk) (b_lba blk).
Proof.
  intros Hi Hb Hbe Hx. apply (unlocked_data c ts st b blk Hi Hb); [|done].
  destruct (i_blocks _ _ _ Hi b blk Hb) as [[_ _ _ _ _ A6 _ _ [_ A9] _] _]. destruct Hbe as [?|[Ho|Hu]]; [by apply A6|by apply A9|].
  apply list.Exists_exists in Hu as (t & Ht & Hu). destruct (i_tasks _ _ _ Hi t Ht) as [(ses & _ & _ & _ & Hblk) _ _].
  pose proof (hold_block _ _ _ (unsent_hold _ _ Hu)) as Ht'. destruct (Hblk b Ht') as (k & Ek & _ & Hk).
  rewrite Hb in Ek. injection Ek as <-. revert Hu Hk. clear. task_cases t; cbn; tauto.
Qed.

Lemma quiet_not_behind c st b blk :
  inv c [] st -> dirtyBlockCount c = 0 -> blocks c !! b = Some blk -> ~ behind [] b blk.
Proof.
  intros Hi Hd Hb [Hx|[Hx|Hx]].
  - rewrite (co_dirty c (i_chains _ _ _ Hi)) in Hd. assert (Hz : filter is_dirty (blocks c) !! b = Some blk) by by apply map_lookup_filter_Some.
    rewrite (map_size_empty_inv (filter is_dirty (blocks c))) in Hz by lia. done.
  - destruct (i_blocks _ _ _ Hi b blk Hb) as [[_ _ _ _ _ _ _ _ [_ A9] _] _]. destruct (A9 Hx) as [_ He]. by apply Exists_nil in He.
  - by apply Exists_nil in Hx.
Qed.


End Run.

(** ** A run on a RAM disk *)

Module Sample.
#[local] Instance sample_device : SectorDevice RamDisk := ram_device (fun _ => true).
#[local] Instance sample_device_spec : SectorDeviceSpec RamDisk := ram_device_spec (fun _ => true).

(** The cache has two blocks of four bytes; block 1 of the disk is mapped, changed,
    unmapped, and written back by a sync. *)
Definition c0 : DiskCache RamDisk := DC 1 0 [] 4 0 2 0 (replicate DISK_BLOCK_HASH_CHAIN_COUNT []) ∅ ∅.
Definition c1 := default c0 (DiskCache_OpenSession 1 ram_sample_drive ram_sample c0).
Definition c2 := default c1 (snd <$> DiskCache_MapBlock EOK true 1 1 kMapBlock_Update c1).
Definition c3 := default c2 (request_done 1 c2).
Definition c4 := default c3 (snd <$> map_resume EOK true 1 1 kMapBlock_Update (WIO 1) c3).
Definition c5 := upd_block 1 (fun blk => set_data (hasData blk) [1; 2; 3; 4] blk) c4.
Definition c6 := default c5 (snd <$> DiskCache_UnmapBlock EOK 1 1 kWriteBlock_Deferred c5).
Definition c7 := default c6 (snd <$> DiskCache_Sync 10 EOK 1 c6).
Definition c8 := default c7 (request_done 1 c7).
Definition c9 := default c8 (snd <$> sync_resume 10 EOK 1 2 (WIO 1) [] EOK c8).

Definition st0 : store := fun _ _ => [].
Definition st1 : store := open_store c0 ram_sample_drive ram_sample st0.
Definition st2 : store := st_upd 1 1 [1; 2; 3; 4] st1.
Definition evs : list event := [EvOpen 1 (disk_content c0 ram_sample_drive ram_sample); EvRead 1 1 [0; 0; 0; 0]; EvWrite 1 1 [1; 2; 3; 4]].

Lemma disk_sample_ok : disk_ok c0 ram_sample_drive ram_sample.
Proof.
  split; [apply ram_sample_ready|done|apply ram_sample_ready|vm_compute; discriminate|split_and!; [done|done|cbn; lia]|done].
Qed.

Lemma keeps_none mem s lba (c : DiskCache RamDisk) : get_keeps mem s lba c [].
Proof. intros ses e r c' _ _ s' l m b k blk Hin. by apply elem_of_nil in Hin. Qed.

Lemma sample_bytes : Forall is_byte [1; 2; 3; 4].
Proof. repeat (constructor; [unfold is_byte; lia|]). constructor. Qed.

Notation open_ev := (EvOpen 1 (disk_content c0 ram_sample_drive ram_sample)).

(** Up to the change of the block by the client. *)
Lemma sample_run_mapped : run (c0, [], st0) [open_ev; EvRead 1 1 [0; 0; 0; 0]] (c5, [TMapped 1 1 1 true], st1).
Proof.
  assert (H1 : run (c0, [], st0) [open_ev] (c1, [], st1)).
  { apply (run_snoc _ [] (c0, [], st0) [open_ev]); [constructor|].
    apply (st_open c0 [] st0 1 ram_sample_drive ram_sample c1); [done|exact disk_sample_ok|vm_compute; reflexivity]. }
  assert (H2 : run (c0, [], st0) [open_ev] (c2, [TMap 1 1 kMapBlock_Update (WIO 1)], st1)).
  { apply (run_snoc _ [open_ev] (c1, [], st1) [] _ H1).
    eapply (st_map c1 [] st1 1 _ 1 kMapBlock_Update true (MapWait (WIO 1)) c2); [vm_compute; reflexivity| |apply keeps_none|vm_compute; reflexivity].
    split; discriminate. }
  assert (H3 : run (c0, [], st0) [open_ev] (c3, [TMap 1 1 kMapBlock_Update (WIO 1)], st1)).
  { apply (run_snoc _ [open_ev] (c2, [TMap 1 1 kMapBlock_Update (WIO 1)], st1) [] _ H2).
    eapply (st_done c2 _ st1 1 _ c3); [vm_compute; reflexivity|reflexivity|reflexivity|vm_compute; reflexivity|].
    intros ses ses' b blk Hs _ Hw. vm_compute in Hs. injection Hs as <-. discriminate Hw. }
  assert (H4 : run (c0, [], st0) [open_ev; EvRead 1 1 [0; 0; 0; 0]] (c4, [TMapped 1 1 1 true], st1)).
  { apply (run_snoc _ [open_ev] (c3, [TMap 1 1 kMapBlock_Update (WIO 1)], st1) [EvRead 1 1 [0; 0; 0; 0]] _ H3).
    apply (st_map_resume c3 _ [] st1 1 1 kMapBlock_Update (WIO 1) true (MapDone EOK (Some 1%positive)) c4).
    - done.
    - intros E. exfalso. discriminate E.
    - vm_compute; reflexivity. }
  apply (run_snoc _ [open_ev; EvRead 1 1 [0; 0; 0; 0]] (c4, [TMapped 1 1 1 true], st1) [] _ H4).
  apply (st_edit c4 [TMapped 1 1 1 true] [] st1 1 1 1 [1; 2; 3; 4]); [done|done|exact sample_bytes].
Qed.

Lemma sample_run : run (c0, [], st0) evs (c9, [], st2).
Proof.
  assert (H6 : run (c0, [], st0) evs (c6, [], st2)).
  { apply (run_snoc _ _ (c5, [TMapped 1 1 1 true], st1) [EvWrite 1 1 [1; 2; 3; 4]] _ sample_run_mapped).
    apply (st_unmap c5 [TMapped 1 1 1 true] [] st1 1 1 1 true (Blk 1 1 0 true true false false kDiskBlockOp_Idle false EOK [1; 2; 3; 4])
      kWriteBlock_Deferred (UnmapDone EOK) c6);
      [done|vm_compute; reflexivity|done|done|vm_compute; reflexivity]. }
  assert (H7 : run (c0, [], st0) evs (c7, [TSync 1 1 2 (WIO 1) [] EOK], st2)).
  { apply (run_snoc _ evs (c6, [], st2) [] _ H6).
    apply (st_sync c6 [] st2 1 10 (SyncWait (WIO 1) [] EOK) c7); [vm_compute; reflexivity|done]. }
  assert (H8 : run (c0, [], st0) evs (c8, [TSync 1 1 2 (WIO 1) [] EOK], st2)).
  { apply (run_snoc _ evs (c7, [TSync 1 1 2 (WIO 1) [] EOK], st2) [] _ H7).
    eapply (st_done c7 _ st2 1 _ c8); [vm_compute; reflexivity|reflexivity|reflexivity|vm_compute; reflexivity|].
    intros ses ses' b blk Hs _ _ Hbk Hb. vm_compute in Hs. injection Hs as <-. injection Hbk as <-. vm_compute in Hb. injection Hb as <-. by left. }
  apply (run_snoc _ evs (c8, [TSync 1 1 2 (WIO 1) [] EOK], st2) [] _ H8).
  apply (st_sync_resume c8 _ [] st2 1 1 2 (WIO 1) [] EOK 10 (SyncDone EOK) c9); [done|vm_compute; reflexivity|done].
Qed.


End Sample.

(** ** What goes wrong *)

(** Once the chain has changed since DiskCache_Sync noted its generation, the loop
    starts over at each block: with no dirty block left it never ends. *)
Lemma sync_never_ends {D} `{SectorDevice D} (c : DiskCache D) s ses gen fuel : forall rest e,
  sessions c !! s = Some ses -> gen <> lruChainGeneration c -> rest <> [] -> lruChain c <> [] ->
  (forall b, b ∈ rest \/ b ∈ lruChain c -> exists blk, blocks c !! b = Some blk /\ isDirty blk = false) ->
  sync_scan fuel EOK s gen rest e c = Some (SyncFuel, c).
Proof.
  induction fuel as [|fuel IH]; intros rest e Hs Hg Hr Hl Hcl; [done|]. cbn [sync_scan].
  destruct rest as [|b rest]; [done|]. destruct (Hcl b) as (blk & Hb & Hd); [left; by left|].
  rewrite (bind_some Hs), (bind_some Hb), Hd, andb_false_r. rewrite (proj2 (Z.eqb_neq _ _) Hg). apply IH; try done.
  - intros E. apply Hl. by rewrite <- (reverse_involutive (lruChain c)), E.
  - intros x [Hx|Hx]; apply Hcl; right; [by apply elem_of_reverse|done].
Qed.

Module Faults.
#[local] Instance fault_device : SectorDevice RamDisk := ram_device (fun _ => true).

Definition cache_of (capacity : Z) (cluster : Z) : option (DiskCache RamDisk) :=
  DiskCache_OpenSession 1 (Drive 12 1 1 12 12 2 cluster 0 1 true false true) ram_sample
    (DC 1 0 [] 4 0 capacity 0 (replicate DISK_BLOCK_HASH_CHAIN_COUNT []) ∅ ∅).

(** A block is mapped for which all waits are over. *)
Definition map_now (lba : Z) (mode : MapBlock) (c : DiskCache RamDisk) : option (DiskCache RamDisk) :=
  r ← DiskCache_MapBlock EOK true 1 lba mode c;
  match r.1 with
  | MapDone _ _ => Some r.2
  | MapWait w => c ← request_done 1 r.2; r ← map_resume EOK true 1 lba mode w c; Some r.2
  end.

(** A call that waits for the lock of a block gets the block of another address:
    the block is released, and reused for address 2 before the call goes on. *)
Lemma waiter_gets_other_block :
  (c ← cache_of 1 1; c ← map_now 1 kMapBlock_Update c;
   b ← DiskCache_MapBlock EOK true 1 1 kMapBlock_ReadOnly c;
   u ← DiskCache_UnmapBlock EOK 1 1 kWriteBlock_None b.2;
   c ← map_now 2 kMapBlock_ReadOnly u.2;
   u ← DiskCache_UnmapBlock EOK 1 1 kWriteBlock_None c;
   r ← map_resume EOK true 1 1 kMapBlock_ReadOnly (WLock 1 kLockMode_Shared) u.2;
   blk ← blocks r.2 !! 1%positive; Some (b.1, r.1, b_lba blk)) =
  Some (MapWait (WLock 1 kLockMode_Shared), MapDone EOK (Some 1%positive), 2).
Proof. vm_compute. reflexivity. Qed.


(** DiskCache_PrefetchBlock of a block that has data releases a lock that it does
    not hold, which aborts. *)
Lemma prefetch_of_cached_block_aborts :
  (c ← cache_of 2 1; c ← map_now 1 kMapBlock_ReadOnly c; u ← DiskCache_UnmapBlock EOK 1 1 kWriteBlock_None c;
   DiskCache_PrefetchBlock EOK true 1 1 u.2) = None /\
  is_Some (c ← cache_of 2 1; c ← map_now 1 kMapBlock_ReadOnly c; DiskCache_UnmapBlock EOK 1 1 kWriteBlock_None c).
Proof. split; [vm_compute; reflexivity|]. eexists. vm_compute. reflexivity. Qed.

(** DiskCache_SyncBlock and DiskCache_PinBlock follow a NULL pointer for a block
    that is not cached. *)
Lemma sync_and_pin_of_uncached_block :
  is_Some (cache_of 2 1) /\ (c ← cache_of 2 1; DiskCache_SyncBlock EOK 1 1 c) = None /\
  (c ← cache_of 2 1; DiskCache_PinBlock true 1 1 c) = None.
Proof. split_and!; [eexists; vm_compute; reflexivity|vm_compute; reflexivity|vm_compute; reflexivity]. Qed.

(** A read of a cluster of which one block is cached already: the request is for
    the whole cluster, but has one entry less, and the data of block 0 would go
    to block 1.  The completion follows the missing entry. *)
Lemma cluster_read_with_cached_block :
  (c ← cache_of 4 4; c ← map_now 0 kMapBlock_Cleared c;
   u ← DiskCache_UnmapBlock EOK 1 1 kWriteBlock_Deferred c;
   r ← DiskCache_MapBlock EOK true 1 1 kMapBlock_ReadOnly u.2;
   ses ← sessions r.2 !! 1%positive;
   Some (r.1, dop_cnt (dop ses), dop_blk (dop ses), dop_offset (dop ses), bool_decide (request_done 1 r.2 = None))) =
  Some (MapWait (WIO 2), 4%nat, [Some 2%positive; Some 3%positive; Some 4%positive; None], 0, true).
Proof. vm_compute. reflexivity. Qed.
End Faults.

(** A write that fails: the RAM disk has no memory for the sectors. *)
Module FailedWrite.
#[local] Instance full_device : SectorDevice RamDisk := ram_device (fun _ => false).

(** A client writes a block through to the disk; the write fails, the call reports
    success and the block is not dirty, so that the data is lost with the block. *)
Lemma failed_write_is_not_reported :
  (c ← DiskCache_OpenSession 1 ram_sample_drive ram_sample (DC 1 0 [] 4 0 2 0 (replicate DISK_BLOCK_HASH_CHAIN_COUNT []) ∅ ∅);
   r ← DiskCache_MapBlock EOK true 1 1 kMapBlock_Replace c;
   u ← DiskCache_UnmapBlock EOK 1 1 kWriteBlock_Sync (upd_block 1 (set_data true [1; 2; 3; 4]) r.2);
   c ← request_done 1 u.2;
   v ← unmap_resume EOK 1 (WIO 1) c;
   blk ← blocks v.2 !! 1%positive; ses ← sessions v.2 !! 1%positive;
   Some (r.1, u.1, v.1, isDirty blk, data blk, extents (s_dev ses))) =
  Some (MapDone EOK (Some 1%positive), UnmapWait (WIO 1), UnmapDone EOK, false, [1; 2; 3; 4], []).
Proof. vm_compute. reflexivity. Qed.
End FailedWrite.
