(* ===== verification/SfsAllocator.v ===== *)
(** * The block allocator of the Serena filesystem (kern/src/filesystem/serenafs/SfsAllocator.c)

    A bitmap with one bit for each block of the volume, cached in memory, and a
    second bitmap that says which blocks of the first one have to be written.
    [None] is an access outside of one of the buffers. *)

From S2P Require Import Prelude Bytes FSContainer.

Record SfsAllocator := SA {
  bitmap : list Z;
  bitmapByteSize : Z;
  bitmapLba : Z;
  bitmapBlockCount : Z;
  dirtyBitmapBlocks : list Z;
  sa_blockSize : Z;
  volumeBlockCount : Z;
}.

Definition SfsAllocator_Init : SfsAllocator := SA [] 0 0 0 [] 0 0.

Definition kSFSVolume_MinBlockCount : Z := 4.

(** Fields of the volume header (sfs_vol_header_t). *)
Definition vh_signature (d : list Z) : Z := load32 0 d.
Definition vh_version (d : list Z) : Z := load32 4 d.
Definition vh_attributes (d : list Z) : Z := load32 8 d.
Definition vh_volBlockSize (d : list Z) : Z := load32 28 d.
Definition vh_volBlockCount (d : list Z) : Z := load32 32 d.
Definition vh_allocBitmapByteSize (d : list Z) : Z := load32 36 d.
Definition vh_lbaRootDir (d : list Z) : Z := load32 40 d.
Definition vh_lbaAllocBitmap (d : list Z) : Z := load32 44 d.

Definition AllocationBitmap_IsBlockInUse (bm : list Z) (lba : Z) : option bool :=
  b ← bm !! Z.to_nat (Z.shiftr lba 3);
  Some (negb (Z.land b (Z.shiftl 1 (7 - Z.land lba 7)) =? 0)).

Definition AllocationBitmap_SetBlockInUse (bm : list Z) (lba : Z) (inUse : bool) : option (list Z) :=
  b ← bm !! Z.to_nat (Z.shiftr lba 3);
  let bit := Z.shiftl 1 (7 - Z.land lba 7) in
  Some (<[Z.to_nat (Z.shiftr lba 3) := if inUse then Z.lor b bit else Z.land b (Z.lnot bit)]> bm).

(** The loop of SfsAllocator_Allocate: the first free block of the [n] blocks
    from [i] on, 0 if there is none. *)
Fixpoint first_free (bm : list Z) (n : nat) (i : Z) : option Z :=
  match n with
  | O => Some 0
  | S n =>
      used ← AllocationBitmap_IsBlockInUse bm i;
      if (used : bool) then first_free bm n (i + 1) else Some i
  end.

Definition with_bitmap (self : SfsAllocator) (bm dirty : list Z) : SfsAllocator :=
  SA bm (bitmapByteSize self) (bitmapLba self) (bitmapBlockCount self) dirty (sa_blockSize self) (volumeBlockCount self).

(** Marks [lba] in the bitmap and its bitmap block as dirty. *)
Definition mark_block (self : SfsAllocator) (lba : Z) (inUse : bool) : option SfsAllocator :=
  bm ← AllocationBitmap_SetBlockInUse (bitmap self) lba inUse;
  dirty ← AllocationBitmap_SetBlockInUse (dirtyBitmapBlocks self) (Z.shiftr lba 3 / sa_blockSize self) true;
  Some (with_bitmap self bm dirty).

Definition SfsAllocator_Allocate (self : SfsAllocator) : option (errno * Z * SfsAllocator) :=
  lba ← first_free (bitmap self) (Z.to_nat (volumeBlockCount self - 1)) 1;
  if lba =? 0 then Some (ENOSPC, 0, self)
  else self ← mark_block self lba true; Some (EOK, lba, self).

Definition SfsAllocator_Deallocate (self : SfsAllocator) (lba : Z) : option SfsAllocator :=
  if lba =? 0 then Some self else mark_block self lba false.

Fixpoint count_used (bm : list Z) (n : nat) (i count : Z) : option Z :=
  match n with
  | O => Some count
  | S n =>
      used ← AllocationBitmap_IsBlockInUse bm i;
      count_used bm n (i + 1) (if (used : bool) then count + 1 else count)
  end.

Definition SfsAllocator_GetAllocatedBlockCount (self : SfsAllocator) : option Z :=
  count_used (bitmap self) (Z.to_nat (volumeBlockCount self)) 0 0.

Definition SfsAllocator_Stop (self : SfsAllocator) : SfsAllocator := SA [] 0 0 0 [] (sa_blockSize self) 0.

Section Disk.
Context {C} {FC : FSContainer C}.
(** The kernel heap: whether an allocation succeeds and what fresh memory holds. *)
Variable kalloc_ok : Z -> bool.
Variable fresh : Z -> list Z.

(** The loop of SfsAllocator_Start over the [n] bitmap blocks from [lba] on;
    [rem] bytes are left to copy to offset [off]. *)
Fixpoint start_loop (n : nat) (bmLba blockSize lba off rem : Z) (bm : list Z) (c : C) : errno * list Z * C :=
  match n with
  | O => (EOK, bm, c)
  | S n =>
      let nBytesToCopy := Z.min blockSize rem in
      match FSContainer_MapBlock (u32 (bmLba + lba)) kMapBlock_ReadOnly c with
      | (EOK, d, c) =>
          let bm := patch (Z.to_nat off) (take (Z.to_nat nBytesToCopy) d) bm in
          let '(_, c) := FSContainer_UnmapBlock (u32 (bmLba + lba)) d kWriteBlock_None c in
          start_loop n bmLba blockSize (lba + 1) (off + blockSize) (rem - nBytesToCopy) bm c
      | (e, _, c) => (e, bm, c)
      end
  end.

Definition SfsAllocator_Start (self : SfsAllocator) (vhp : list Z) (blockSize : Z) (c : C)
  : errno * SfsAllocator * C :=
  let vbc := vh_volBlockCount vhp in
  let size := vh_allocBitmapByteSize vhp in
  let bmLba := vh_lbaAllocBitmap vhp in
  if (size <? 1) || (vbc <? kSFSVolume_MinBlockCount) then (EIO, self, c)
  else
    let count := u32 (size + (blockSize - 1)) / blockSize in
    let self := SA (bitmap self) size bmLba count (dirtyBitmapBlocks self) blockSize vbc in
    let dsize := Z.shiftr (count + 7) 3 in
    if negb (kalloc_ok dsize) then (ENOMEM, self, c)
    else
      let self := with_bitmap self (bitmap self) (replicate (Z.to_nat dsize) 0) in
      if negb (kalloc_ok size) then (ENOMEM, self, c)
      else
        let '(e, bm, c) := start_loop (Z.to_nat count) bmLba blockSize 0 0 size (fresh size) c in
        (e, with_bitmap self bm (dirtyBitmapBlocks self), c).

(** The loop of SfsAllocator_CommitToDisk over the [n] bitmap blocks from [i]
    on.  The memcpy moves the size of the whole bitmap, so it stays within the
    source and the mapped block only if both are long enough. *)
Fixpoint commit_loop (n : nat) (i : Z) (self : SfsAllocator) (c : C) : option (errno * SfsAllocator * C) :=
  match n with
  | O => Some (EOK, self, c)
  | S n =>
      dirty ← AllocationBitmap_IsBlockInUse (dirtyBitmapBlocks self) i;
      if (dirty : bool) then
        let lba := u32 (bitmapLba self + i) in
        match FSContainer_MapBlock lba kMapBlock_Cleared c with
        | (EOK, d, c) =>
            let off := i * sa_blockSize self in
            if (Z.of_nat (length d) <? bitmapByteSize self)
               || (Z.of_nat (length (bitmap self)) <? off + bitmapByteSize self) then None
            else
              let d := patch 0 (slice (Z.to_nat off) (Z.to_nat (bitmapByteSize self)) (bitmap self)) d in
              let '(_, c) := FSContainer_UnmapBlock lba d kWriteBlock_Deferred c in
              db ← AllocationBitmap_SetBlockInUse (dirtyBitmapBlocks self) i false;
              commit_loop n (i + 1) (with_bitmap self (bitmap self) db) c
        | (e, _, c) => Some (e, self, c)
        end
      else commit_loop n (i + 1) self c
  end.

Definition SfsAllocator_CommitToDisk (self : SfsAllocator) (c : C) : option (errno * SfsAllocator * C) :=
  commit_loop (Z.to_nat (bitmapBlockCount self)) 0 self c.
End Disk.

(** ** The bitmap *)

(** Bit [lba] of a bitmap, most significant bit first. *)
Definition in_use (bm : list Z) (lba : Z) : bool := Z.testbit (arr_get 0 bm (lba / 8)) (7 - lba mod 8).

Lemma shiftr3 lba : Z.shiftr lba 3 = lba / 8.
Proof. by rewrite Z.shiftr_div_pow2. Qed.
Lemma land7 lba : Z.land lba 7 = lba mod 8.
Proof. by apply (Z.land_ones lba 3). Qed.

Lemma byte_index bm lba :
  0 <= lba < 8 * Z.of_nat (length bm) -> bm !! Z.to_nat (lba / 8) = Some (arr_get 0 bm (lba / 8)).
Proof. intros. apply arr_get_Some. split; [apply Z.div_pos; lia|apply Z.div_lt_upper_bound; lia]. Qed.

Lemma is_in_use bm lba :
  0 <= lba < 8 * Z.of_nat (length bm) -> AllocationBitmap_IsBlockInUse bm lba = Some (in_use bm lba).
Proof.
  intros Hl. unfold AllocationBitmap_IsBlockInUse, in_use. rewrite shiftr3, land7, (bind_some (byte_index bm lba Hl)).
  by rewrite land_pow2_testbit by (pose proof (Z.mod_pos_bound lba 8); lia).
Qed.

Lemma byte_pow w : is_byte w <-> 0 <= w < 2 ^ 8.
Proof. unfold is_byte. lia. Qed.

Lemma set_in_use bm lba b :
  0 <= lba < 8 * Z.of_nat (length bm) -> Forall is_byte bm ->
  exists bm', AllocationBitmap_SetBlockInUse bm lba b = Some bm' /\ length bm' = length bm /\ Forall is_byte bm' /\
    (forall k, k <> Z.to_nat (lba / 8) -> bm' !! k = bm !! k) /\
    forall j, 0 <= j -> in_use bm' j = if decide (j = lba) then b else in_use bm j.
Proof.
  intros Hl Hb. pose proof (Z.mod_pos_bound lba 8 ltac:(lia)) as Hm. pose proof (byte_index bm lba Hl) as Hix.
  pose proof (Forall_lookup_1 _ _ _ _ Hb Hix) as Hbyte. rewrite byte_pow in Hbyte.
  unfold AllocationBitmap_SetBlockInUse. rewrite shiftr3, land7, (bind_some Hix).
  eexists. split_and!; [done|apply length_insert| | |].
  - apply Forall_insert; [done|]. apply byte_pow. destruct b; [apply lor_pow2_range|apply land_range]; lia.
  - intros k Hk. by apply list_lookup_insert_ne.
  - intros j Hj. pose proof (Z.mod_pos_bound j 8 ltac:(lia)). unfold in_use. fold (arr_set bm (lba / 8)
      (if b then Z.lor (arr_get 0 bm (lba / 8)) (Z.shiftl 1 (7 - lba mod 8))
       else Z.land (arr_get 0 bm (lba / 8)) (Z.lnot (Z.shiftl 1 (7 - lba mod 8))))).
    destruct (decide (j / 8 = lba / 8)) as [E|E].
    + rewrite E, arr_get_set_eq by (pose proof (Z.div_pos lba 8); pose proof (Z.div_lt_upper_bound lba 8 (Z.of_nat (length bm))); lia).
      pose proof (Z.div_mod j 8). pose proof (Z.div_mod lba 8).
      destruct b; rewrite ?testbit_or_pow2, ?testbit_andnot_pow2 by lia; case_decide; subst;
        rewrite ?Z.eqb_refl, ?orb_true_r, ?andb_false_r; try done;
        destruct (Z.eqb_spec (7 - j mod 8) (7 - lba mod 8)); try lia; by rewrite ?orb_false_r, ?andb_true_r.
    + rewrite arr_get_set_ne by (pose proof (Z.div_pos lba 8); pose proof (Z.div_pos j 8); lia).
      case_decide; [by subst|done].
Qed.

(** ** The allocator *)

Record sa_ok (self : SfsAllocator) : Prop := {
  sa_bs : 0 < sa_blockSize self;
  sa_size : Z.of_nat (length (bitmap self)) = bitmapByteSize self;
  sa_bytes : Forall is_byte (bitmap self);
  sa_volume : 4 <= volumeBlockCount self <= 8 * bitmapByteSize self;
  sa_count : (bitmapBlockCount self - 1) * sa_blockSize self < bitmapByteSize self <= bitmapBlockCount self * sa_blockSize self;
  sa_dirty : bitmapBlockCount self <= 8 * Z.of_nat (length (dirtyBitmapBlocks self));
  sa_dbytes : Forall is_byte (dirtyBitmapBlocks self);
}.

(** The bitmap block that has the bit of [lba]. *)
Definition bitmap_block (self : SfsAllocator) (lba : Z) : Z := lba / 8 / sa_blockSize self.

Lemma bitmap_block_range self lba :
  sa_ok self -> 0 <= lba < 8 * bitmapByteSize self -> 0 <= bitmap_block self lba < bitmapBlockCount self.
Proof.
  intros [] Hl. unfold bitmap_block.
  assert (0 <= lba / 8 < bitmapByteSize self) by (split; [apply Z.div_pos|apply Z.div_lt_upper_bound]; lia).
  split; [apply Z.div_pos; lia|]. apply Z.div_lt_upper_bound; nia.
Qed.

Lemma mark_spec self lba b :
  sa_ok self -> 0 <= lba < 8 * bitmapByteSize self ->
  exists self', mark_block self lba b = Some self' /\ sa_ok self' /\
    bitmapByteSize self' = bitmapByteSize self /\ bitmapLba self' = bitmapLba self /\
    bitmapBlockCount self' = bitmapBlockCount self /\ sa_blockSize self' = sa_blockSize self /\
    volumeBlockCount self' = volumeBlockCount self /\ length (bitmap self') = length (bitmap self) /\
    (forall k, k <> Z.to_nat (lba / 8) -> bitmap self' !! k = bitmap self !! k) /\
    (forall j, 0 <= j -> in_use (bitmap self') j = if decide (j = lba) then b else in_use (bitmap self) j) /\
    (forall j, 0 <= j -> in_use (dirtyBitmapBlocks self') j =
       if decide (j = bitmap_block self lba) then true else in_use (dirtyBitmapBlocks self) j).
Proof.
  intros Hok Hl. pose proof (bitmap_block_range self lba Hok Hl) as Hb. pose proof Hok as [].
  destruct (set_in_use (bitmap self) lba b) as (bm & H1 & H2 & H3 & H4 & H4'); [lia|done|].
  destruct (set_in_use (dirtyBitmapBlocks self) (bitmap_block self lba) true) as (db & H5 & H6 & H7 & _ & H8); [lia|done|].
  unfold mark_block. rewrite shiftr3, (bind_some H1), (bind_some H5).
  eexists. split_and!; try done. constructor; cbn; try done; lia.
Qed.

Lemma first_free_spec bm n i :
  0 < i -> i + Z.of_nat n <= 8 * Z.of_nat (length bm) ->
  exists r, first_free bm n i = Some r /\
    (r = 0 /\ (forall j, i <= j < i + Z.of_nat n -> in_use bm j = true) \/
     i <= r < i + Z.of_nat n /\ in_use bm r = false /\ forall j, i <= j < r -> in_use bm j = true).
Proof.
  revert i. induction n as [|n IH]; intros i Hi Hn; cbn [first_free]; [exists 0; split; [done|left; split; [done|lia]]|].
  rewrite (bind_some (is_in_use bm i ltac:(lia))). destruct (in_use bm i) eqn:E.
  - destruct (IH (i + 1) ltac:(lia) ltac:(lia)) as (r & -> & Hr). exists r. split; [done|].
    assert (Hstep : forall k, (forall j, i + 1 <= j < k -> in_use bm j = true) -> forall j, i <= j < k -> in_use bm j = true).
    { intros k Hk j Hj. destruct (decide (j = i)) as [->|]; [done|]. apply Hk. lia. }
    destruct Hr as [[-> Hall]|(H1 & H2 & H3)]; [left|right].
    + split; [done|]. replace (i + Z.of_nat (S n)) with (i + 1 + Z.of_nat n) by lia. by apply Hstep.
    + split_and!; [lia|lia|done|by apply Hstep].
  - exists i. split; [done|]. right. split_and!; [lia|lia|done|lia].
Qed.

Lemma count_used_spec bm n i c :
  0 <= i -> i + Z.of_nat n <= 8 * Z.of_nat (length bm) ->
  count_used bm n i c = Some (c + Z.of_nat (length (filter (fun j => in_use bm j) (seqZ i (Z.of_nat n))))).
Proof.
  revert i c. induction n as [|n IH]; intros i c Hi Hn; cbn [count_used]; [simpl; f_equal; lia|].
  rewrite (bind_some (is_in_use bm i ltac:(lia))), IH by lia. f_equal.
  rewrite (seqZ_cons i) by lia. replace (Z.pred (Z.of_nat (S n))) with (Z.of_nat n) by lia.
  rewrite filter_cons, <- Z.add_1_r. destruct (in_use bm i); simpl; lia.
Qed.

(** ** The allocator as a set of used blocks *)

Inductive alloc_op := AAllocate | ADeallocate (lba : Z) | ACount.

Definition alloc_exec (o : alloc_op) (self : SfsAllocator) : option (errno * Z * SfsAllocator) :=
  match o with
  | AAllocate => SfsAllocator_Allocate self
  | ADeallocate lba => self ← SfsAllocator_Deallocate self lba; Some (EOK, lba, self)
  | ACount => n ← SfsAllocator_GetAllocatedBlockCount self; Some (EOK, n, self)
  end.

(** The specification, on the set of used blocks of a volume of [n] blocks. *)
Definition set_exec (n : Z) (o : alloc_op) (U : gset Z) : errno * Z * gset Z :=
  match o with
  | AAllocate =>
      match head (filter (fun j => j ∉ U) (seqZ 1 (n - 1))) with
      | Some j => (EOK, j, {[j]} ∪ U)
      | None => (ENOSPC, 0, U)
      end
  | ADeallocate lba => (EOK, lba, if lba =? 0 then U else U ∖ {[lba]})
  | ACount => (EOK, Z.of_nat (size U), U)
  end.

Definition alloc_op_ok (n : Z) (o : alloc_op) : Prop :=
  match o with ADeallocate lba => 0 <= lba < n | _ => True end.

Fixpoint alloc_execs (os : list alloc_op) (self : SfsAllocator) : option (list (errno * Z) * SfsAllocator) :=
  match os with
  | [] => Some ([], self)
  | o :: os =>
      '(e, r, self) ← alloc_exec o self;
      '(rs, self) ← alloc_execs os self;
      Some ((e, r) :: rs, self)
  end.

Fixpoint set_execs (n : Z) (os : list alloc_op) (U : gset Z) : list (errno * Z) * gset Z :=
  match os with
  | [] => ([], U)
  | o :: os =>
      let '(e, r, U) := set_exec n o U in
      let '(rs, U) := set_execs n os U in
      ((e, r) :: rs, U)
  end.

Record sa_repr (self : SfsAllocator) (U : gset Z) : Prop := {
  sr_ok : sa_ok self;
  sr_used : forall j, 0 <= j < volumeBlockCount self -> in_use (bitmap self) j = bool_decide (j ∈ U);
  sr_range : forall j, j ∈ U -> 0 <= j < volumeBlockCount self;
}.

(** What no operation changes. *)
Definition same_layout (self self' : SfsAllocator) : Prop :=
  bitmapByteSize self' = bitmapByteSize self /\ bitmapLba self' = bitmapLba self /\
  bitmapBlockCount self' = bitmapBlockCount self /\ sa_blockSize self' = sa_blockSize self /\
  volumeBlockCount self' = volumeBlockCount self.

Lemma head_filter_seqZ P `{!forall j : Z, Decision (P j)} i n r :
  i <= r < i + n -> P r -> (forall j, i <= j < r -> ~ P j) -> head (filter P (seqZ i n)) = Some r.
Proof.
  intros Hr HP Hno. replace n with ((r - i) + (n - (r - i))) by lia. rewrite seqZ_app, filter_app by lia.
  assert (filter P (seqZ i (r - i)) = []) as ->.
  { apply filter_none. intros j Hj. apply elem_of_seqZ in Hj. apply Hno. lia. }
  rewrite (seqZ_cons (i + (r - i))) by lia. replace (i + (r - i)) with r by lia.
  by rewrite filter_cons_True.
Qed.

Lemma filter_seqZ_nil P `{!forall j : Z, Decision (P j)} i n :
  (forall j, i <= j < i + n -> ~ P j) -> head (filter P (seqZ i n)) = None.
Proof.
  intros Hno. assert (filter P (seqZ i n) = []) as ->; [|done].
  apply filter_none. intros j Hj. apply elem_of_seqZ in Hj. by apply Hno.
Qed.

Lemma size_used self U :
  sa_repr self U -> Z.of_nat (size U) = Z.of_nat (length (filter (fun j => in_use (bitmap self) j) (seqZ 0 (volumeBlockCount self)))).
Proof.
  intros [Hok Hu Hr]. f_equal. rewrite <- (size_list_to_set (C := gset Z)) by apply NoDup_filter, NoDup_seqZ.
  f_equal. apply leibniz_equiv. intros j. rewrite elem_of_list_to_set, list_elem_of_filter, elem_of_seqZ.
  split.
  - intros Hj. specialize (Hr j Hj). split; [|lia]. rewrite Hu by done. by rewrite bool_decide_eq_true_2.
  - intros [Hj Hrange]. rewrite Hu in Hj by lia. by apply bool_decide_unpack in Hj.
Qed.

Lemma mark_repr self U lba b :
  sa_repr self U -> 0 <= lba < volumeBlockCount self ->
  exists self', mark_block self lba b = Some self' /\ same_layout self self' /\
    sa_repr self' (if b then {[lba]} ∪ U else U ∖ {[lba]}).
Proof.
  intros [Hok Hu Hr] Hl. destruct (mark_spec self lba b Hok) as (self' & H1 & H2 & Hs & Hlba & Hc & Hbs & Hv & _ & _ & Hin & _);
    [destruct Hok; lia|].
  exists self'. split; [done|]. split; [done|]. constructor; [done| |].
  - intros j Hj. rewrite Hv in Hj. rewrite Hin by lia. case_decide as E; [subst j|].
    + destruct b; symmetry; [apply bool_decide_eq_true_2|apply bool_decide_eq_false_2]; set_solver.
    + rewrite Hu by done. apply bool_decide_ext. destruct b; set_solver.
  - intros j Hj. rewrite Hv. destruct b; set_solver.
Qed.

Lemma alloc_exec_refines o self U :
  sa_repr self U -> alloc_op_ok (volumeBlockCount self) o ->
  exists e r self' U', alloc_exec o self = Some (e, r, self') /\ set_exec (volumeBlockCount self) o U = (e, r, U') /\
    same_layout self self' /\ sa_repr self' U'.
Proof.
  intros HR Ho. pose proof HR as [Hok Hu Hr]. pose proof Hok as []. destruct o as [|lba|]; cbn [alloc_exec set_exec].
  - unfold SfsAllocator_Allocate.
    destruct (first_free_spec (bitmap self) (Z.to_nat (volumeBlockCount self - 1)) 1) as (r & Hff & Hcase); [lia|lia|].
    rewrite (bind_some Hff). destruct Hcase as [[-> Hall]|(Hr1 & Hr2 & Hr3)].
    + rewrite filter_seqZ_nil; [by eexists _, _, _, _|]. intros j Hj Hn.
      specialize (Hall j ltac:(lia)). rewrite Hu in Hall by lia. by apply bool_decide_eq_true_1 in Hall.
    + rewrite (head_filter_seqZ _ 1 _ r); [|lia| |].
      * destruct (Z.eqb_spec r 0); [lia|]. destruct (mark_repr self U r true HR) as (self' & -> & Hl & HR'); [lia|].
        by eexists _, _, _, _.
      * intros Hin. rewrite Hu, bool_decide_eq_true_2 in Hr2 by (done || lia). done.
      * intros j Hj Hn. specialize (Hr3 j ltac:(lia)). rewrite Hu in Hr3 by lia. by apply bool_decide_eq_true_1 in Hr3.
  - unfold SfsAllocator_Deallocate. destruct (Z.eqb_spec lba 0); [by eexists _, _, _, _|].
    destruct (mark_repr self U lba false HR Ho) as (self' & -> & Hl & HR'). by eexists _, _, _, _.
  - unfold SfsAllocator_GetAllocatedBlockCount. rewrite count_used_spec by lia. cbn.
    eexists _, _, _, _. split_and!; [done| |done|done]. rewrite (size_used self U HR). do 2 f_equal.
    replace (Z.of_nat (Z.to_nat (volumeBlockCount self))) with (volumeBlockCount self) by lia. done.
Qed.

Lemma same_layout_trans s1 s2 s3 : same_layout s1 s2 -> same_layout s2 s3 -> same_layout s1 s3.
Proof. unfold same_layout. intuition congruence. Qed.

Lemma alloc_execs_refines os self U :
  sa_repr self U -> Forall (alloc_op_ok (volumeBlockCount self)) os ->
  exists rs self' U', alloc_execs os self = Some (rs, self') /\ set_execs (volumeBlockCount self) os U = (rs, U') /\
    same_layout self self' /\ sa_repr self' U'.
Proof.
  revert self U. induction os as [|o os IH]; intros self U HR Hos; cbn [alloc_execs set_execs].
  - by eexists _, _, _.
  - apply Forall_cons in Hos as [Ho Hos].
    destruct (alloc_exec_refines o self U HR Ho) as (e & r & self1 & U1 & H1 & H2 & Hl & HR1).
    assert (Hv : volumeBlockCount self1 = volumeBlockCount self) by apply Hl. rewrite <- Hv in Hos.
    destruct (IH self1 U1 HR1 Hos) as (rs & self2 & U2 & H3 & H4 & Hl2 & HR2).
    rewrite (bind_some H1), (bind_some H3), H2. rewrite Hv in H4. rewrite H4.
    eexists _, _, _. split_and!; [done|done|by eapply same_layout_trans|done].
Qed.

(** ** The bitmap on the disk *)

Section Persistence.
Context {C} {FC : FSContainer C} {FCS : FSContainerSpec C}.

(** Block [i] of the bitmap in memory, and where it belongs on the disk. *)
Definition piece (self : SfsAllocator) (i : Z) : list Z :=
  slice (Z.to_nat (i * sa_blockSize self)) (Z.to_nat (sa_blockSize self)) (bitmap self).
Definition piece_lba (self : SfsAllocator) (i : Z) : Z := u32 (bitmapLba self + i).

Definition on_disk (self : SfsAllocator) (c : C) (i : Z) : Prop :=
  take (length (piece self i)) (fsc_data c (piece_lba self i)) = piece self i.

(** Every block of the bitmap is on the disk or marked as dirty. *)
Definition synced (self : SfsAllocator) (c : C) : Prop :=
  forall i, 0 <= i < bitmapBlockCount self -> in_use (dirtyBitmapBlocks self) i = true \/ on_disk self c i.

Lemma mark_synced self lba b self' c :
  sa_ok self -> 0 <= lba < 8 * bitmapByteSize self -> mark_block self lba b = Some self' ->
  synced self c -> synced self' c.
Proof.
  intros Hok Hl Hm Hs i Hi. destruct (mark_spec self lba b Hok Hl) as (self1 & Hm1 & _ & _ & Hlba & Hc & Hbs & _ & _ & Hk & _ & Hd).
  rewrite Hm in Hm1. injection Hm1 as <-. rewrite Hc in Hi. rewrite Hd by lia. case_decide as E; [by left|].
  destruct (Hs i Hi) as [|Hon]; [by left|right].
  assert (Hp : piece self' i = piece self i).
  { unfold piece. rewrite Hbs. apply list_eq. intros k. destruct (decide (k < Z.to_nat (sa_blockSize self))%nat) as [Hlt|Hge].
    - rewrite !lookup_slice by done. apply Hk. intros Heq. apply E. unfold bitmap_block.
      assert (lba / 8 = i * sa_blockSize self + Z.of_nat k) as -> by (pose proof (Z.div_pos lba 8); destruct Hok; nia).
      rewrite Z.div_add_l, Z.div_small by (destruct Hok; lia). lia.
    - unfold slice. by rewrite !lookup_take_ge by lia. }
  unfold on_disk, piece_lba. rewrite Hp, Hlba. exact Hon.
Qed.

Lemma alloc_exec_synced o self U self' e r c :
  sa_repr self U -> alloc_op_ok (volumeBlockCount self) o -> alloc_exec o self = Some (e, r, self') ->
  synced self c -> synced self' c.
Proof.
  intros [Hok Hu Hr] Ho Hx Hs. pose proof Hok as []. destruct o as [|lba|]; cbn [alloc_exec] in Hx.
  - unfold SfsAllocator_Allocate in Hx.
    destruct (first_free_spec (bitmap self) (Z.to_nat (volumeBlockCount self - 1)) 1) as (f & Hff & Hcase); [lia|lia|].
    rewrite (bind_some Hff) in Hx. destruct (Z.eqb_spec f 0); [by simplify_eq|].
    destruct Hcase as [[-> _]|[Hf _]]; [done|]. destruct (mark_block self f true) as [s|] eqn:Em; [|done].
    injection Hx as _ _ <-. apply (mark_synced self f true); [done|lia|done|done].
  - unfold SfsAllocator_Deallocate in Hx. destruct (lba =? 0); [by simplify_eq/=|].
    destruct (mark_block self lba false) as [s|] eqn:Em; [|done]. injection Hx as _ _ <-.
    cbn in Ho. apply (mark_synced self lba false); [done|lia|done|done].
  - destruct (SfsAllocator_GetAllocatedBlockCount self); simplify_eq/=. done.
Qed.

Lemma alloc_execs_synced os self U rs self' c :
  sa_repr self U -> Forall (alloc_op_ok (volumeBlockCount self)) os -> alloc_execs os self = Some (rs, self') ->
  synced self c -> synced self' c.
Proof.
  revert self U rs. induction os as [|o os IH]; intros self U rs HR Hos Hx Hs; cbn [alloc_execs] in Hx; [by simplify_eq|].
  apply Forall_cons in Hos as [Ho Hos].
  destruct (alloc_exec_refines o self U HR Ho) as (e & r & self1 & U1 & H1 & _ & Hl & HR1).
  rewrite (bind_some H1) in Hx. destruct (alloc_execs os self1) as [[rs1 self2]|] eqn:E; [|done].
  injection Hx as _ <-. assert (Hv : volumeBlockCount self1 = volumeBlockCount self) by apply Hl. rewrite <- Hv in Hos.
  apply (IH self1 U1 rs1 HR1 Hos E). by apply (alloc_exec_synced o self U self1 e r).
Qed.

(** Reading the bitmap from the disk. *)
Lemma start_loop_spec n bmLba lba size bm c e bm' c' :
  let bs := Z.of_nat fsc_blockSize in
  fsc_ok c -> 0 < bs -> 0 <= lba -> Z.of_nat (length bm) = size -> (lba + Z.of_nat n - 1) * bs < size ->
  start_loop n bmLba bs lba (lba * bs) (Z.max 0 (size - lba * bs)) bm c = (e, bm', c') -> Forall is_byte bm ->
  fsc_ok c' /\ (forall l, fsc_data c' l = fsc_data c l) /\ Z.of_nat (length bm') = size /\ Forall is_byte bm' /\
  (forall k, (k < Z.to_nat (lba * bs))%nat -> bm' !! k = bm !! k) /\
  (e = EOK -> forall i, lba <= i < lba + Z.of_nat n ->
     slice (Z.to_nat (i * bs)) fsc_blockSize bm' =
       take (Z.to_nat (Z.min bs (size - i * bs))) (fsc_data c (u32 (bmLba + i)))).
Proof.
  intros bs Hc Hbs. revert lba bm c Hc. induction n as [|n IH]; intros lba bm c Hc Hlba Hlen Hcnt Hx Hb; cbn [start_loop] in Hx.
  { injection Hx as <- <- <-. split_and!; try done. lia. }
  destruct (FSContainer_MapBlock (u32 (bmLba + lba)) kMapBlock_ReadOnly c) as [[e1 d] c1] eqn:Em.
  destruct (decide (e1 = EOK)) as [->|He1]; cycle 1.
  { destruct (fsc_map_err _ _ _ _ _ _ Hc Em He1) as [Hc1 Hd1].
    assert ((e1, bm, c1) = (e, bm', c')) as [= <- <- <-] by (by destruct e1). by split_and!. }
  destruct (FSContainer_UnmapBlock _ _ _ c1) as [e2 c2] eqn:Eu.
  destruct (map_read c _ _ d c1 e2 c2 Hc ltac:(by left) Em Eu) as (Hd & Hc2 & Hsame).
  pose proof (fsc_data_block c (u32 (bmLba + lba)) Hc) as [Hdl Hdb]. rewrite <- Hd in Hdl, Hdb.
  assert (Hoff : 0 <= lba * bs < size) by nia.
  rewrite Z.max_r in Hx by lia. remember (Z.min bs (size - lba * bs)) as k eqn:Ek.
  assert (Hk : 0 < k <= bs) by lia.
  assert (Htl : length (take (Z.to_nat k) d) = Z.to_nat k) by (rewrite length_take; lia).
  replace (lba * bs + bs) with ((lba + 1) * bs) in Hx by lia.
  replace (size - lba * bs - k) with (Z.max 0 (size - (lba + 1) * bs)) in Hx by lia.
  destruct (IH (lba + 1) (patch (Z.to_nat (lba * bs)) (take (Z.to_nat k) d) bm) c2 Hc2) as (H1 & H2 & H3 & H4 & H5 & H6);
    [lia|rewrite length_patch; lia|lia|done|apply Forall_patch; [done|by apply Forall_take]|].
  split_and!; [done|by intros l; rewrite H2|done|done| |].
  - intros j Hj. rewrite H5 by nia. apply lookup_patch_out; lia.
  - intros He i Hi. destruct (decide (i = lba)) as [->|Hne].
    + rewrite <- Ek, <- Hd. apply list_eq. intros j. destruct (decide (j < Z.to_nat k)%nat) as [Hj|Hj].
      * rewrite lookup_slice by lia. rewrite H5 by nia. rewrite lookup_patch_in by lia. f_equal. lia.
      * rewrite (lookup_take_ge d) by lia. apply lookup_ge_None_2. unfold slice. rewrite length_take, length_drop. lia.
    + rewrite H6 by (done || lia). by rewrite Hsame.
Qed.

Lemma length_piece self i :
  sa_ok self -> 0 <= i -> length (piece self i) = Z.to_nat (Z.min (sa_blockSize self) (bitmapByteSize self - i * sa_blockSize self)).
Proof. intros [] Hi. unfold piece, slice. rewrite length_take, length_drop. nia. Qed.

Lemma piece_whole self : sa_ok self -> bitmapByteSize self <= sa_blockSize self -> piece self 0 = bitmap self.
Proof. intros [] Hs. unfold piece, slice. rewrite drop_0. apply take_ge. lia. Qed.

(** A volume header that describes the bitmap of a volume correctly. *)
Record vh_ok (vhp : list Z) : Prop := {
  vh_size : 1 <= vh_allocBitmapByteSize vhp < 2 ^ 31;
  vh_blocks : 4 <= vh_volBlockCount vhp <= 8 * vh_allocBitmapByteSize vhp;
}.

Definition no_dirty (self : SfsAllocator) : Prop :=
  forall i, 0 <= i < bitmapBlockCount self -> in_use (dirtyBitmapBlocks self) i = false.

Lemma in_use_zeros n i : in_use (replicate n 0) i = false.
Proof.
  unfold in_use, arr_get. destruct (replicate n 0 !! Z.to_nat (i / 8)) as [x|] eqn:E; [|apply Z.bits_0].
  apply lookup_replicate in E as [-> _]. apply Z.bits_0.
Qed.

Lemma start_ok kalloc_ok fresh self0 vhp c self c' :
  let bs := Z.of_nat fsc_blockSize in
  fsc_ok c -> 0 < bs < 2 ^ 31 -> vh_ok vhp ->
  (forall n, Z.of_nat (length (fresh n)) = Z.max n 0 /\ Forall is_byte (fresh n)) ->
  SfsAllocator_Start kalloc_ok fresh self0 vhp bs c = (EOK, self, c') ->
  sa_ok self /\ fsc_ok c' /\ (forall l, fsc_data c' l = fsc_data c l) /\ synced self c' /\ no_dirty self /\
  sa_blockSize self = bs /\ bitmapByteSize self = vh_allocBitmapByteSize vhp /\
  bitmapLba self = vh_lbaAllocBitmap vhp /\ volumeBlockCount self = vh_volBlockCount vhp.
Proof.
  intros bs Hc Hbs [Hsize Hblk] Hfresh. destruct (Hfresh (vh_allocBitmapByteSize vhp)) as [Hfl Hfb].
  unfold SfsAllocator_Start. remember (vh_allocBitmapByteSize vhp) as size eqn:Esize.
  rewrite u32_small by lia. remember ((size + (bs - 1)) / bs) as cnt eqn:Ecnt.
  assert (Hcnt : (cnt - 1) * bs < size <= cnt * bs).
  { pose proof (Z.div_mod (size + (bs - 1)) bs). pose proof (Z.mod_pos_bound (size + (bs - 1)) bs). nia. }
  unfold kSFSVolume_MinBlockCount. destruct ((size <? 1) || (vh_volBlockCount vhp <? 4)) eqn:E1; [done|].
  rewrite shiftr3. destruct (kalloc_ok ((cnt + 7) / 8)); [|done]. destruct (kalloc_ok size); [|done]. cbn [negb].
  destruct (start_loop _ _ _ _ _ _ _ c) as [[e bm] c1] eqn:El. intros [= -> <- <-].
  pose proof (start_loop_spec (Z.to_nat cnt) (vh_lbaAllocBitmap vhp) 0 size (fresh size) c EOK bm c1 Hc) as Hsl.
  destruct Hsl as (H1 & H2 & H3 & H4 & _ & H6); [lia|lia|lia|nia| |done|].
  { rewrite <- El. f_equal; lia. }
  assert (Hd8 : cnt <= 8 * ((cnt + 7) / 8)) by (pose proof (Z.div_mod (cnt + 7) 8); pose proof (Z.mod_pos_bound (cnt + 7) 8); lia).
  cbn [with_bitmap dirtyBitmapBlocks bitmapByteSize bitmapLba bitmapBlockCount sa_blockSize volumeBlockCount].
  assert (Hok : sa_ok (SA bm size (vh_lbaAllocBitmap vhp) cnt (replicate (Z.to_nat ((cnt + 7) / 8)) 0) bs (vh_volBlockCount vhp))).
  { constructor; cbn; try done; [lia|rewrite length_replicate; nia|]. apply Forall_replicate. unfold is_byte. lia. }
  split_and!; try done; [|intros i _; apply in_use_zeros].
  intros i Hi. right. cbn in Hi. unfold on_disk, piece_lba. rewrite length_piece by (done || lia). rewrite H2.
  unfold piece. cbn. replace (Z.to_nat bs) with fsc_blockSize by lia. symmetry. apply H6; [done|lia].
Qed.

(** Starting only reads, also when it fails. *)
Lemma start_data kalloc_ok fresh self0 vhp c e self c' :
  let bs := Z.of_nat fsc_blockSize in
  fsc_ok c -> 0 < bs < 2 ^ 31 -> vh_ok vhp ->
  (forall n, Z.of_nat (length (fresh n)) = Z.max n 0 /\ Forall is_byte (fresh n)) ->
  SfsAllocator_Start kalloc_ok fresh self0 vhp bs c = (e, self, c') ->
  fsc_ok c' /\ (forall l, fsc_data c' l = fsc_data c l).
Proof.
  intros bs Hc Hbs [Hsize Hblk] Hfresh. destruct (Hfresh (vh_allocBitmapByteSize vhp)) as [Hfl Hfb].
  unfold SfsAllocator_Start. destruct (_ || _); [by intros [= <- <- <-]|]. destruct (kalloc_ok _); cbn [negb]; [|by intros [= <- <- <-]].
  destruct (kalloc_ok _); cbn [negb]; [|by intros [= <- <- <-]]. rewrite u32_small by lia.
  pose proof (Z.div_mod (vh_allocBitmapByteSize vhp + (bs - 1)) bs). pose proof (Z.mod_pos_bound (vh_allocBitmapByteSize vhp + (bs - 1)) bs).
  destruct (start_loop _ _ _ _ _ _ _ c) as [[e1 bm] c1] eqn:El. intros [= <- <- <-].
  edestruct (start_loop_spec (Z.to_nat ((vh_allocBitmapByteSize vhp + (bs - 1)) / bs)) (vh_lbaAllocBitmap vhp) 0 (vh_allocBitmapByteSize vhp))
    as (H1 & H2 & _); [exact Hc|lia|lia| | | |exact Hfb|by split].
  - lia.
  - nia.
  - rewrite <- El. f_equal; lia.
Qed.

(** Writing a bitmap that fits into one block. *)
Lemma commit_single self c :
  sa_ok self -> fsc_ok c -> sa_blockSize self = Z.of_nat fsc_blockSize -> bitmapByteSize self <= sa_blockSize self ->
  synced self c ->
  exists e self' c', SfsAllocator_CommitToDisk self c = Some (e, self', c') /\ sa_ok self' /\ fsc_ok c' /\
    same_layout self self' /\ bitmap self' = bitmap self /\ synced self' c' /\ (e = EOK -> no_dirty self') /\
    (forall l, l <> piece_lba self 0 -> fsc_data c' l = fsc_data c l) /\
    (e <> EOK -> forall l, fsc_data c' l = fsc_data c l).
Proof.
  intros Hok Hc Hbs Hsz Hs. pose proof Hok as []. assert (Hcnt : bitmapBlockCount self = 1) by nia.
  unfold SfsAllocator_CommitToDisk. rewrite Hcnt. change (Z.to_nat 1) with 1%nat. cbn [commit_loop].
  rewrite (bind_some (is_in_use (dirtyBitmapBlocks self) 0 ltac:(lia))). fold (piece_lba self 0).
  destruct (in_use (dirtyBitmapBlocks self) 0) eqn:Ed; cycle 1.
  { eexists _, _, _. split; [done|]. split_and!; try done. intros _ i Hi. by replace i with 0 by lia. }
  destruct (FSContainer_MapBlock _ _ c) as [[e d] c1] eqn:Em. destruct (decide (e = EOK)) as [->|He]; cycle 1.
  { destruct (fsc_map_err _ _ _ _ _ _ Hc Em He) as [Hc1 Hd1]. exists e, self, c1. split; [by destruct e|]. split_and!; try done.
    intros i Hi. destruct (Hs i Hi) as [|Hon]; [by left|right]. unfold on_disk. by rewrite Hd1. }
  destruct (fsc_map_ok _ _ _ _ _ Hc Em) as (_ & [Hdl Hdb] & _).
  destruct ((Z.of_nat (length d) <? bitmapByteSize self) || (Z.of_nat (length (bitmap self)) <? 0 * sa_blockSize self + bitmapByteSize self))
    eqn:E1; [lia|].
  assert (Hsl : slice (Z.to_nat (0 * sa_blockSize self)) (Z.to_nat (bitmapByteSize self)) (bitmap self) = bitmap self).
  { unfold slice. rewrite drop_0. apply take_ge. lia. }
  rewrite Hsl. destruct (FSContainer_UnmapBlock _ _ _ c1) as [e2 c2] eqn:Eu.
  assert (Hblk : is_block (patch 0 (bitmap self) d)) by (apply block_patch; [done|done|lia]).
  destruct (map_write _ _ _ _ _ kWriteBlock_Deferred _ _ _ Hc Em Hblk ltac:(discriminate) Eu) as (Hc2 & Hw & Ho & _).
  destruct (set_in_use (dirtyBitmapBlocks self) 0 false) as (db & H1 & H2 & H3 & _ & H5); [lia|done|].
  rewrite (bind_some H1). eexists _, _, _. split; [done|].
  assert (Hok' : sa_ok (with_bitmap self (bitmap self) db)) by (constructor; cbn; try done; lia).
  split_and!; try done.
  - intros i Hi. cbn in Hi. right. replace i with 0 by lia. unfold on_disk. rewrite (piece_whole _ Hok' Hsz).
    change (piece_lba (with_bitmap self (bitmap self) db) 0) with (piece_lba self 0). rewrite Hw. cbn [bitmap with_bitmap].
    unfold patch. rewrite take_0, app_nil_l. apply take_app_length.
  - intros _ i Hi. cbn in Hi. replace i with 0 by lia. cbn. by rewrite H5 by lia.
Qed.
End Persistence.

Definition used_blocks (self : SfsAllocator) : gset Z :=
  list_to_set (filter (fun j => in_use (bitmap self) j) (seqZ 0 (volumeBlockCount self))).

Lemma used_blocks_repr self : sa_ok self -> sa_repr self (used_blocks self).
Proof.
  intros Hok. constructor; [done| |]; intros j; unfold used_blocks.
  - intros Hj. apply eq_bool_prop_intro. rewrite bool_decide_spec, elem_of_list_to_set, list_elem_of_filter, elem_of_seqZ.
    split; [intros ?; split; [done|lia]|by intros [? _]].
  - rewrite elem_of_list_to_set, list_elem_of_filter, elem_of_seqZ. lia.
Qed.

Lemma commit_loop_overrun {C} `{FSContainerSpec C} n i self c :
  sa_ok self -> fsc_ok c -> Z.of_nat fsc_blockSize < bitmapByteSize self -> 0 <= i ->
  i + Z.of_nat n <= bitmapBlockCount self ->
  (exists j, i <= j < i + Z.of_nat n /\ in_use (dirtyBitmapBlocks self) j = true) ->
  (forall l, exists d c', FSContainer_MapBlock l kMapBlock_Cleared c = (EOK, d, c')) ->
  commit_loop n i self c = None.
Proof.
  intros Hok Hc Hsz. revert i. induction n as [|n IH]; intros i Hi Hn (j & Hj & Hd) Hmap; [lia|]. cbn [commit_loop].
  rewrite (bind_some (is_in_use (dirtyBitmapBlocks self) i ltac:(destruct Hok; lia))).
  destruct (in_use (dirtyBitmapBlocks self) i) eqn:E.
  - destruct (Hmap (u32 (bitmapLba self + i))) as (d & c' & Hm). rewrite Hm.
    destruct (fsc_map_ok _ _ _ _ _ Hc Hm) as (_ & [Hdl _] & _).
    destruct (Z.ltb_spec (Z.of_nat (length d)) (bitmapByteSize self)); [done|lia].
  - apply IH; [lia|lia| |done]. exists j. split; [|done]. destruct (decide (j = i)) as [->|]; [congruence|lia].
Qed.

(** The operations as their callers see them. *)
Section Callers.
Context {C} {FC : FSContainer C} {FCS : FSContainerSpec C}.

Definition keeps_sync (self self' : SfsAllocator) : Prop := forall c : C, synced self c -> synced self' c.

Lemma allocate_spec self :
  sa_ok self ->
  exists e l self', SfsAllocator_Allocate self = Some (e, l, self') /\ sa_ok self' /\ same_layout self self' /\
    keeps_sync self self' /\
    (e = EOK /\ 0 < l < volumeBlockCount self /\ in_use (bitmap self) l = false /\
       (forall j, 0 <= j -> in_use (bitmap self') j = if decide (j = l) then true else in_use (bitmap self) j) \/
     e = ENOSPC /\ self' = self).
Proof.
  intros Hok. pose proof Hok as []. unfold SfsAllocator_Allocate.
  destruct (first_free_spec (bitmap self) (Z.to_nat (volumeBlockCount self - 1)) 1) as (f & Hff & Hcase); [lia|lia|].
  rewrite (bind_some Hff). destruct (Z.eqb_spec f 0).
  { exists ENOSPC, 0, self. split_and!; try done; [by intros c|by right]. }
  destruct Hcase as [[-> _]|(Hf & Hfree & _)]; [done|].
  destruct (mark_spec self f true Hok ltac:(lia)) as (s & Em & Hs & Hz & Hl & Hc & Hb & Hv & _ & _ & Hin & _).
  rewrite (bind_some Em). exists EOK, f, s. split_and!; try done.
  - intros c. apply (mark_synced self f true); [done|lia|done].
  - left. split_and!; [done|lia|lia|done|done].
Qed.

Lemma deallocate_spec self l :
  sa_ok self -> 0 < l < volumeBlockCount self ->
  exists self', SfsAllocator_Deallocate self l = Some self' /\ sa_ok self' /\ same_layout self self' /\
    keeps_sync self self' /\
    (forall j, 0 <= j -> in_use (bitmap self') j = if decide (j = l) then false else in_use (bitmap self) j).
Proof.
  intros Hok Hl. pose proof Hok as []. unfold SfsAllocator_Deallocate. destruct (Z.eqb_spec l 0); [lia|].
  destruct (mark_spec self l false Hok ltac:(lia)) as (s & Em & Hs & Hz & Hlb & Hc & Hb & Hv & _ & _ & Hin & _).
  exists s. split_and!; try done. intros c. apply (mark_synced self l false); [done|lia|done].
Qed.
End Callers.

(** ** Properties *)

(** C15. The allocator implements a set of used blocks: for every sequence of
    calls, each allocation returns the lowest free block above block 0 and adds
    it to the set or, when all are used, returns ENOSPC; each deallocation
    removes its block; the block count is the size of the set; and no call
    accesses memory outside of the bitmaps. *)
Theorem allocator_refines_set (os : list alloc_op) (self : SfsAllocator)
  (Hok : sa_ok self) (Hos : Forall (alloc_op_ok (volumeBlockCount self)) os) :
  exists rs self' U, alloc_execs os self = Some (rs, self') /\
    set_execs (volumeBlockCount self) os (used_blocks self) = (rs, U) /\
    sa_ok self' /\ used_blocks self' = U.
Proof.
  destruct (alloc_execs_refines os self (used_blocks self)) as (rs & self' & U & H1 & H2 & Hl & HR); [by apply used_blocks_repr|done|].
  exists rs, self', U. split_and!; [done|done|apply HR|]. apply leibniz_equiv. intros j. unfold used_blocks.
  rewrite elem_of_list_to_set, list_elem_of_filter, elem_of_seqZ. destruct HR as [_ Hu Hr]. split.
  - intros [Hj Hrange]. rewrite Hu in Hj by lia. by apply bool_decide_unpack in Hj.
  - intros Hj. specialize (Hr j Hj). rewrite Hu by done. by rewrite bool_decide_eq_true_2.
Qed.

(** A volume of 16 blocks with blocks of 64 bytes. *)
Definition demo_alloc : SfsAllocator := SA [0xe0; 0x01] 2 1 1 [0] 64 16.
Definition demo_header : list Z :=
  store32 32 16 (store32 36 2 (store32 44 1 (replicate 64 0))).
Definition demo_disk : memdisk := MD (<[1 := [0xe0; 0x01] ++ replicate 62 0]> (<[0 := demo_header]> ∅)) ∅.

Lemma demo_alloc_ok : sa_ok demo_alloc.
Proof. constructor; cbn; try lia; repeat constructor; unfold is_byte; lia. Qed.

Lemma allocator_refines_set_witness :
  exists rs self', alloc_execs [AAllocate; AAllocate; ADeallocate 3; AAllocate; ACount] demo_alloc = Some (rs, self') /\
    rs = [(EOK, 3); (EOK, 4); (EOK, 3); (EOK, 3); (EOK, 6)] /\ sa_ok self'.
Proof.
  destruct (allocator_refines_set [AAllocate; AAllocate; ADeallocate 3; AAllocate; ACount] demo_alloc demo_alloc_ok)
    as (rs & self' & U & H1 & _ & H3 & _).
  - repeat constructor; cbn; lia.
  - exists rs, self'. split; [exact H1|]. split; [|exact H3]. vm_compute in H1. injection H1 as <- _. reflexivity.
Defined.

(** What the allocator knows survives a remount.  On a volume whose bitmap
    fits into one block, any sequence of allocations and deallocations after
    the start followed by a commit writes nothing but the bitmap block, and if
    the commit succeeds then starting again from the disk gives the same
    bitmap. *)
Theorem allocator_persistent {C} `{FSContainerSpec C} (kalloc_ok : Z -> bool) (fresh : Z -> list Z)
  (vhp : list Z) (c c1 : C) (s1 : SfsAllocator) (os : list alloc_op)
  (Hc : fsc_ok c) (Hbs : 0 < Z.of_nat fsc_blockSize < 2 ^ 31) (Hvh : vh_ok vhp)
  (Hfit : vh_allocBitmapByteSize vhp <= Z.of_nat fsc_blockSize)
  (Hfresh : forall n, Z.of_nat (length (fresh n)) = Z.max n 0 /\ Forall is_byte (fresh n))
  (Hstart : SfsAllocator_Start kalloc_ok fresh SfsAllocator_Init vhp (Z.of_nat fsc_blockSize) c = (EOK, s1, c1))
  (Hos : Forall (alloc_op_ok (vh_volBlockCount vhp)) os) :
  exists rs s2 e s3 c3, alloc_execs os s1 = Some (rs, s2) /\ SfsAllocator_CommitToDisk s2 c1 = Some (e, s3, c3) /\
    (forall l, l <> u32 (vh_lbaAllocBitmap vhp) -> fsc_data c3 l = fsc_data c l) /\
    (e = EOK -> forall s4 c4,
       SfsAllocator_Start kalloc_ok fresh SfsAllocator_Init vhp (Z.of_nat fsc_blockSize) c3 = (EOK, s4, c4) ->
       bitmap s4 = bitmap s2 /\ volumeBlockCount s4 = volumeBlockCount s2).
Proof.
  destruct (start_ok _ _ _ _ _ _ _ Hc Hbs Hvh Hfresh Hstart) as (Hok1 & Hc1 & Hd1 & Hs1 & _ & Hb1 & Hz1 & Hl1 & Hv1).
  rewrite <- Hv1 in Hos. pose proof (used_blocks_repr s1 Hok1) as HR1.
  destruct (alloc_execs_refines os s1 _ HR1 Hos) as (rs & s2 & U & Hx & _ & (Hz2 & Hl2 & Hn2 & Hb2 & Hv2) & [Hok2 _ _]).
  pose proof (alloc_execs_synced os s1 _ rs s2 c1 HR1 Hos Hx Hs1) as Hs2.
  destruct (commit_single s2 c1 Hok2 Hc1) as (e & s3 & c3 & Hcm & Hok3 & Hc3 & (Hz3 & Hl3 & Hn3 & Hb3 & Hv3) & Hbm & Hs3 & Hnd & Ho & _);
    [congruence|lia|done|].
  exists rs, s2, e, s3, c3. split_and!; [done|done| |].
  - intros l Hl. rewrite Ho, Hd1; [done|]. unfold piece_lba. rewrite Hl2, Hl1, Z.add_0_r. done.
  - intros -> s4 c4 Hstart4. specialize (Hnd eq_refl).
    destruct (start_ok _ _ _ _ _ _ _ Hc3 Hbs Hvh Hfresh Hstart4) as (Hok4 & _ & Hd4 & Hs4 & Hnd4 & Hb4 & Hz4 & Hl4 & Hv4).
    split; [|congruence].
    assert (H4 : on_disk s4 c4 0) by (destruct (Hs4 0) as [Hf|]; [destruct Hok4; nia|rewrite Hnd4 in Hf; [done|destruct Hok4; nia]|done]).
    assert (H3 : on_disk s3 c3 0) by (destruct (Hs3 0) as [Hf|]; [destruct Hok3; nia|rewrite Hnd in Hf; [done|destruct Hok3; nia]|done]).
    unfold on_disk in H3, H4. rewrite piece_whole in H3, H4 by (done || lia). rewrite Hd4 in H4.
    rewrite <- H4, <- Hbm, <- H3. unfold piece_lba. rewrite Hl4, Hl3, Hl2, Hl1. f_equal.
    destruct Hok3, Hok4. lia.
Qed.

Lemma demo_disk_ok : md_ok 64 demo_disk.
Proof.
  assert (Hbyte : forall l, forallb (fun b => (0 <=? b) && (b <? 256)) l = true -> Forall is_byte l).
  { induction l as [|b l IH]; [constructor|]. cbn. intros [Hb Hl]%andb_prop. constructor; [unfold is_byte; lia|auto]. }
  apply map_Forall_insert_2; [split; [reflexivity|apply Hbyte; reflexivity]|].
  apply map_Forall_insert_2; [split; [reflexivity|apply Hbyte; reflexivity]|]. apply map_Forall_empty.
Qed.

Lemma allocator_persistent_witness :
  let M := mem_container 64 in
  exists s1 rs s2 s3 c3,
    SfsAllocator_Start (fun _ => true) (fun n => replicate (Z.to_nat n) 0) SfsAllocator_Init demo_header 64 demo_disk = (EOK, s1, demo_disk) /\
    alloc_execs [AAllocate; AAllocate] s1 = Some (rs, s2) /\ SfsAllocator_CommitToDisk s2 demo_disk = Some (EOK, s3, c3) /\
    bitmap s2 = [0xf8; 0x01] /\
    forall s4 c4, SfsAllocator_Start (fun _ => true) (fun n => replicate (Z.to_nat n) 0) SfsAllocator_Init demo_header 64 c3 = (EOK, s4, c4) ->
      bitmap s4 = [0xf8; 0x01].
Proof.
  intros M.
  destruct (SfsAllocator_Start (fun _ => true) (fun n => replicate (Z.to_nat n) 0) SfsAllocator_Init demo_header 64 demo_disk)
    as [[e1 s1] c1] eqn:E1.
  assert (e1 = EOK /\ c1 = demo_disk) as [-> ->] by (vm_compute in E1; injection E1 as <- _ <-; split; reflexivity).
  destruct (@allocator_persistent _ M (mem_container_spec 64) (fun _ => true) (fun n => replicate (Z.to_nat n) 0)
    demo_header demo_disk demo_disk s1 [AAllocate; AAllocate]) as (rs & s2 & e & s3 & c3 & H1 & H2 & _ & H4).
  - exact demo_disk_ok.
  - cbn. lia.
  - constructor; vm_compute; split; congruence.
  - vm_compute. congruence.
  - intros n. rewrite length_replicate. split; [lia|]. apply Forall_replicate. unfold is_byte. lia.
  - exact E1.
  - repeat constructor.
  - exists s1, rs, s2, s3, c3. split; [reflexivity|]. split; [exact H1|].
    vm_compute in E1. injection E1 as <-. vm_compute in H1. injection H1 as <- <-.
    assert (e = EOK) as -> by (vm_compute in H2; injection H2 as <- _ _; reflexivity).
    split; [exact H2|]. split; [reflexivity|]. intros s4 c4 Hs. exact (proj1 (H4 eq_refl s4 c4 Hs)).
Defined.

(** The commit copies the size of the whole bitmap into each dirty bitmap
    block.  On a volume whose bitmap needs more than one block, a commit of a
    modified bitmap therefore writes past the end of the mapped block (here
    [None]) as soon as the block can be mapped. *)
Theorem commit_overruns_block {C} `{FSContainerSpec C} (self : SfsAllocator) (c : C) (i : Z)
  (Hok : sa_ok self) (Hc : fsc_ok c) (Hbig : Z.of_nat fsc_blockSize < bitmapByteSize self)
  (Hi : 0 <= i < bitmapBlockCount self) (Hdirty : in_use (dirtyBitmapBlocks self) i = true)
  (Hmap : forall l, exists d c', FSContainer_MapBlock l kMapBlock_Cleared c = (EOK, d, c')) :
  SfsAllocator_CommitToDisk self c = None.
Proof.
  unfold SfsAllocator_CommitToDisk. apply commit_loop_overrun; [done|done|done|lia|lia| |done]. exists i. split; [lia|done].
Qed.

Lemma commit_overruns_block_witness :
  let M := mem_container 2 in
  SfsAllocator_CommitToDisk (SA [0xff; 0xff; 0x80] 3 1 2 [0x40] 2 24) (MD ∅ ∅) = None.
Proof.
  intros M. apply (@commit_overruns_block _ M (mem_container_spec 2) _ _ 1).
  - constructor; cbn; try lia; repeat constructor; unfold is_byte; lia.
  - apply map_Forall_empty.
  - cbn. lia.
  - cbn. lia.
  - reflexivity.
  - intros l. eexists _, _. reflexivity.
Defined.
