(* ===== verification/SfsFile.v ===== *)
(** * Files of the Serena filesystem (kern/src/filesystem/serenafs/SfsFile.c)

    A file has a block map: 110 direct block pointers and one block of indirect
    pointers.  A zero pointer is a hole.  [None] is a failed assertion or an
    access outside of a buffer. *)

From S2P Require Import Prelude Bytes FSContainer SfsAllocator.

Definition kSFSDirectBlockPointersCount : Z := 110.

Record sfs_bmap := Bmap { indirect : Z; direct : list Z }.

(** The part of a SerenaFS instance that its files use; the block of zeros for
    reads of holes is constant. *)
Record SerenaFS (C : Type) := SFS {
  fs_container : C;
  blockAllocator : SfsAllocator;
  fs_blockSize : Z;
  blockShift : Z;
  blockMask : Z;
  indirectBlockEntryCount : Z;
}.
Arguments SFS {C}.
Arguments fs_container {C}.
Arguments blockAllocator {C}.
Arguments fs_blockSize {C}.
Arguments blockShift {C}.
Arguments blockMask {C}.
Arguments indirectBlockEntryCount {C}.

(** A mapped block with its bytes. *)
Record SfsFileBlock := FB { fb_data : list Z; fb_lba : Z; wasAlloced : bool; isZeroFill : bool }.

Definition emptyReadOnlyBlock {C} (fs : SerenaFS C) : list Z := replicate (Z.to_nat (fs_blockSize fs)) 0.

Definition with_container {C} (fs : SerenaFS C) (c : C) : SerenaFS C :=
  SFS c (blockAllocator fs) (fs_blockSize fs) (blockShift fs) (blockMask fs) (indirectBlockEntryCount fs).
Definition with_allocator {C} (fs : SerenaFS C) (a : SfsAllocator) : SerenaFS C :=
  SFS (fs_container fs) a (fs_blockSize fs) (blockShift fs) (blockMask fs) (indirectBlockEntryCount fs).

Definition SfsFile_ConvertOffset {C} (fs : SerenaFS C) (offset : Z) : Z * Z :=
  (u32 (Z.shiftr offset (blockShift fs)), s32 (Z.land offset (blockMask fs))).

Section Files.
Context {C} {FC : FSContainer C}.

Definition fs_map (fs : SerenaFS C) (lba : Z) (mode : MapBlock) : errno * list Z * SerenaFS C :=
  let '(e, d, c) := FSContainer_MapBlock lba mode (fs_container fs) in (e, d, with_container fs c).
Definition fs_unmap (fs : SerenaFS C) (lba : Z) (d : list Z) (mode : WriteBlock) : errno * SerenaFS C :=
  let '(e, c) := FSContainer_UnmapBlock lba d mode (fs_container fs) in (e, with_container fs c).

(** The third component is the pointer to store if the block is new. *)
Definition map_disk_block (fs : SerenaFS C) (lba : Z) (mode : MapBlock)
  : option (errno * SfsFileBlock * option Z * SerenaFS C) :=
  if 0 <? lba then
    let '(e, d, fs) := fs_map fs lba mode in
    Some (e, FB d lba false false, None, fs)
  else if decide (mode = kMapBlock_ReadOnly) then
    Some (EOK, FB (emptyReadOnlyBlock fs) lba false true, None, fs)
  else
    '(e, new_lba, a) ← SfsAllocator_Allocate (blockAllocator fs);
    let fs := with_allocator fs a in
    if is_ok e then
      let '(e, d, fs) := fs_map fs new_lba kMapBlock_Cleared in
      if is_ok e then Some (EOK, FB d new_lba true false, Some new_lba, fs)
      else
        a ← SfsAllocator_Deallocate (blockAllocator fs) new_lba;
        Some (e, FB [] lba false false, None, with_allocator fs a)
    else Some (e, FB [] lba false false, None, fs).

Definition SfsFile_MapBlock (fs : SerenaFS C) (bm : sfs_bmap) (fba : Z) (mode : MapBlock)
  : option (errno * SfsFileBlock * SerenaFS C * sfs_bmap) :=
  if fba <? kSFSDirectBlockPointersCount then
    dat_lba ← direct bm !! Z.to_nat fba;
    '(e, blk, new, fs) ← map_disk_block fs dat_lba mode;
    Some (e, blk, fs, match new with Some l => Bmap (indirect bm) (<[Z.to_nat fba := l]> (direct bm)) | None => bm end)
  else
    let fba := fba - kSFSDirectBlockPointersCount in
    if fba <? indirectBlockEntryCount fs then
      '(e, i0_block, new, fs) ← map_disk_block fs (indirect bm) kMapBlock_Update;
      let bm := match new with Some l => Bmap l (direct bm) | None => bm end in
      if negb (is_ok e) then Some (e, FB [] 0 false false, fs, bm)
      else
        let i0_bmap := fb_data i0_block in
        let off := Z.to_nat (4 * fba) in
        '(e, blk, new, fs) ← map_disk_block fs (load32 off i0_bmap) mode;
        let i0_bmap := match new with Some l => store32 off l i0_bmap | None => i0_bmap end in
        let '(_, fs) := fs_unmap fs (fb_lba i0_block) i0_bmap
                          (if wasAlloced blk then kWriteBlock_Deferred else kWriteBlock_None) in
        Some (e, blk, fs, bm)
    else Some (EFBIG, FB [] 0 false false, fs, bm).

(** [d] is what the caller left in the mapped block. *)
Definition SfsFile_UnmapBlock (fs : SerenaFS C) (blk : SfsFileBlock) (d : list Z) (mode : WriteBlock)
  : option (errno * SerenaFS C) :=
  if isZeroFill blk then
    match mode with kWriteBlock_None => Some (EOK, fs) | _ => None end
  else Some (fs_unmap fs (fb_lba blk) d mode).

(** Frees the [n] direct blocks from [bn] on. *)
Fixpoint trim_direct (n : nat) (bn : Z) (fs : SerenaFS C) (dir : list Z) (did : bool)
  : option (SerenaFS C * list Z * bool) :=
  match n with
  | O => Some (fs, dir, did)
  | S n =>
      p ← dir !! Z.to_nat bn;
      if 0 <? p then
        a ← SfsAllocator_Deallocate (blockAllocator fs) p;
        trim_direct n (bn + 1) (with_allocator fs a) (<[Z.to_nat bn := 0]> dir) true
      else trim_direct n (bn + 1) fs dir did
  end.

(** Frees the blocks of the [n] pointers from [bn] on of an indirect block. *)
Fixpoint trim_indirect (n : nat) (bn : Z) (update : bool) (fs : SerenaFS C) (i0 : list Z) (did : bool)
  : option (SerenaFS C * list Z * bool) :=
  match n with
  | O => Some (fs, i0, did)
  | S n =>
      let p := load32 (Z.to_nat (4 * bn)) i0 in
      if 0 <? p then
        a ← SfsAllocator_Deallocate (blockAllocator fs) p;
        trim_indirect n (bn + 1) update (with_allocator fs a)
          (if update then store32 (Z.to_nat (4 * bn)) 0 i0 else i0) true
      else trim_indirect n (bn + 1) update fs i0 did
  end.

(** The part of SfsFile_Trim behind the direct blocks. *)
Definition trim_i0 (fs : SerenaFS C) (bm : sfs_bmap) (first : Z) (did : bool) : option (bool * SerenaFS C * sfs_bmap) :=
  let first_i0 := if first <? kSFSDirectBlockPointersCount then 0 else first - kSFSDirectBlockPointersCount in
  let is_i0_update := 0 <? first_i0 in
  if 0 <? indirect bm then
    let '(e, i0, fs) := fs_map fs (indirect bm) (if is_i0_update then kMapBlock_Update else kMapBlock_ReadOnly) in
    if is_ok e then
      '(fs, i0, did) ← trim_indirect (Z.to_nat (indirectBlockEntryCount fs - first_i0)) first_i0 is_i0_update fs i0 did;
      if is_i0_update then
        let '(_, fs) := fs_unmap fs (indirect bm) i0 kWriteBlock_Deferred in Some (did, fs, bm)
      else
        let '(_, fs) := fs_unmap fs (indirect bm) i0 kWriteBlock_None in Some (true, fs, Bmap 0 (direct bm))
    else Some (did, fs, bm)
  else Some (did, fs, bm).

(** Returns whether a block was freed; the caller stores the new file size in
    the inode. *)
Definition SfsFile_Trim (fs : SerenaFS C) (bm : sfs_bmap) (newLength : Z) : option (bool * SerenaFS C * sfs_bmap) :=
  let '(bn_nlen, boff_nlen) := SfsFile_ConvertOffset fs newLength in
  let first := if 0 <? boff_nlen then u32 (bn_nlen + 1) else bn_nlen in
  '(fs, dir, did) ← trim_direct (Z.to_nat (kSFSDirectBlockPointersCount - first)) first fs (direct bm) false;
  trim_i0 fs (Bmap (indirect bm) dir) first did.
End Files.

(** ** Well-formed filesystems and files *)

Section FileSpecs.
Context {C} {FC : FSContainer C} {FCS : FSContainerSpec C}.
Implicit Types (fs : SerenaFS C) (bm : sfs_bmap) (R : Z -> Prop).

Definition zero_block : list Z := replicate fsc_blockSize 0.
Definition fdata fs (l : Z) : list Z := fsc_data (fs_container fs) l.

(** Block [l] of the volume is allocated. *)
Definition used fs (l : Z) : Prop :=
  0 < l < volumeBlockCount (blockAllocator fs) /\ in_use (bitmap (blockAllocator fs)) l = true.

Record fs_ok fs : Prop := {
  fo_alloc : sa_ok (blockAllocator fs);
  fo_cont : fsc_ok (fs_container fs);
  fo_sync : synced (blockAllocator fs) (fs_container fs);
  fo_bs : fs_blockSize fs = Z.of_nat fsc_blockSize;
  fo_sabs : sa_blockSize (blockAllocator fs) = Z.of_nat fsc_blockSize;
  fo_fit : bitmapByteSize (blockAllocator fs) <= Z.of_nat fsc_blockSize;
  fo_shift : 2 <= blockShift fs <= 16 /\ Z.of_nat fsc_blockSize = 2 ^ blockShift fs;
  fo_mask : blockMask fs = Z.of_nat fsc_blockSize - 1;
  fo_ient : indirectBlockEntryCount fs = Z.of_nat fsc_blockSize / 4;
  fo_vbc : volumeBlockCount (blockAllocator fs) <= 2 ^ 32;
}.

(** What no file operation changes. *)
Definition same_params fs fs' : Prop :=
  fs_blockSize fs' = fs_blockSize fs /\ blockShift fs' = blockShift fs /\ blockMask fs' = blockMask fs /\
  indirectBlockEntryCount fs' = indirectBlockEntryCount fs /\ same_layout (blockAllocator fs) (blockAllocator fs').

(** The number of blocks that a block map can address. *)
Definition max_fba fs : Z := kSFSDirectBlockPointersCount + indirectBlockEntryCount fs.
Definition valid_fba fs (fba : Z) : Prop := 0 <= fba < max_fba fs.

Definition ptr fs bm (fba : Z) : Z :=
  if fba <? kSFSDirectBlockPointersCount then arr_get 0 (direct bm) fba
  else if indirect bm =? 0 then 0
  else load32 (Z.to_nat (4 * (fba - kSFSDirectBlockPointersCount))) (fdata fs (indirect bm)).

(** The content of a block of a file; a hole reads as zeros. *)
Definition file_block fs bm (fba : Z) : list Z :=
  let p := ptr fs bm fba in if p =? 0 then zero_block else fdata fs p.

(** A file whose blocks are allocated, used once and outside of the reserved
    blocks [R] (volume header, bitmap, inode blocks, other files). *)
Record file_ok fs bm R : Prop := {
  fi_len : length (direct bm) = 110%nat;
  fi_ptr : forall b, valid_fba fs b -> ptr fs bm b = 0 \/
    (used fs (ptr fs bm b) /\ ~ R (ptr fs bm b) /\ ptr fs bm b <> indirect bm);
  fi_ind : indirect bm = 0 \/ (used fs (indirect bm) /\ ~ R (indirect bm));
  fi_inj : forall a b, valid_fba fs a -> valid_fba fs b -> ptr fs bm a <> 0 -> ptr fs bm a = ptr fs bm b -> a = b;
  fi_res : forall l, R l -> l = 0 \/ used fs l;
  fi_bitmap : R (piece_lba (blockAllocator fs) 0) /\ used fs (piece_lba (blockAllocator fs) 0);
}.

Lemma used_fresh fs bm R l : file_ok fs bm R -> ~ used fs l -> 0 < l -> ~ R l.
Proof. intros Hf Hu Hl HR. destruct (fi_res _ _ _ Hf l HR); [lia|done]. Qed.

Lemma same_params_refl fs : same_params fs fs.
Proof. by repeat split. Qed.
Lemma same_params_trans fs1 fs2 fs3 : same_params fs1 fs2 -> same_params fs2 fs3 -> same_params fs1 fs3.
Proof.
  intros (? & ? & ? & ? & ?) (? & ? & ? & ? & ?). unfold same_params. split_and!; try congruence.
  by eapply same_layout_trans.
Qed.

Lemma valid_fba_params fs fs' b : same_params fs fs' -> valid_fba fs' b <-> valid_fba fs b.
Proof. intros (_ & _ & _ & He & _). unfold valid_fba, max_fba. by rewrite He. Qed.

(** A change of the block map at one place: [fba] gets the new block [l], and
    the indirect block may be new. *)
Lemma file_ok_set fs bm fs' bm' R fba l :
  file_ok fs bm R -> same_params fs fs' -> length (direct bm') = 110%nat ->
  (forall b, valid_fba fs b -> ptr fs' bm' b = if decide (b = fba) then l else ptr fs bm b) ->
  (forall x, used fs x -> used fs' x) ->
  (indirect bm' = indirect bm \/ (~ used fs (indirect bm') /\ used fs' (indirect bm'))) ->
  ~ used fs l -> used fs' l -> l <> indirect bm' ->
  file_ok fs' bm' R.
Proof.
  intros Hf Hp Hlen Hptr Hmono Hind Hnl Hl Hne. pose proof Hf as [_ Fptr Find Finj Fres Fbm].
  assert (Hpos : 0 < l) by apply Hl.
  assert (Hfresh : forall b, valid_fba fs b -> ptr fs bm b <> l).
  { intros b Hb E. destruct (Fptr b Hb) as [E0|[E0 _]]; [lia|]. by rewrite E in E0. }
  constructor; [done| | | | |].
  - intros b Hb. rewrite (valid_fba_params fs fs') in Hb by done. rewrite Hptr by done.
    case_decide; [right; split_and!; [done|by eapply used_fresh|done]|].
    destruct (Fptr b Hb) as [->|(H1 & H2 & H3)]; [by left|right]. split_and!; [auto|done|].
    destruct Hind as [->|[Hnu _]]; [done|]. intros E. by rewrite <- E in Hnu.
  - destruct Hind as [->|[Hnu Hu]]; [destruct Find as [|[]]; auto|]. right. split; [done|].
    eapply used_fresh; [done|done|apply Hu].
  - intros a b Ha Hb. rewrite (valid_fba_params fs fs') in Ha, Hb by done. rewrite !Hptr by done.
    repeat case_decide; subst; intros Hnz E; [done| | |by apply Finj].
    + symmetry in E. by apply Hfresh in E.
    + by apply Hfresh in E.
  - intros x Hx. destruct (Fres x Hx); auto.
  - destruct Hp as (_ & _ & _ & _ & (_ & Hl2 & _)). unfold piece_lba in *. rewrite Hl2. destruct Fbm; auto.
Qed.

(** No change of the block map. *)
Lemma file_ok_keep fs bm fs' R :
  file_ok fs bm R -> same_params fs fs' -> (forall b, valid_fba fs b -> ptr fs' bm b = ptr fs bm b) ->
  (forall x, used fs x -> used fs' x) -> file_ok fs' bm R.
Proof.
  intros [Hlen Fptr Find Finj Fres Fbm] Hp Hptr Hmono. constructor; [done| | | | |].
  - intros b Hb. rewrite (valid_fba_params fs fs') in Hb by done. rewrite Hptr by done.
    destruct (Fptr b Hb) as [|(? & ? & ?)]; [by left|right; auto].
  - destruct Find as [|[]]; auto.
  - intros a b Ha Hb. rewrite (valid_fba_params fs fs') in Ha, Hb by done. rewrite !Hptr by done. by apply Finj.
  - intros x Hx. destruct (Fres x Hx); auto.
  - destruct Hp as (_ & _ & _ & _ & (_ & Hl2 & _)). unfold piece_lba in *. rewrite Hl2. destruct Fbm; auto.
Qed.

Lemma ptr_data fs bm fs' b :
  indirect bm = 0 \/ fdata fs' (indirect bm) = fdata fs (indirect bm) -> ptr fs' bm b = ptr fs bm b.
Proof.
  intros Hd. unfold ptr. destruct (b <? _); [done|]. destruct (Z.eqb_spec (indirect bm) 0); [done|].
  destruct Hd as [|Hd]; [done|by rewrite Hd].
Qed.

Lemma ptr_range fs bm R b : fs_ok fs -> file_ok fs bm R -> valid_fba fs b -> 0 <= ptr fs bm b < 2 ^ 32.
Proof.
  intros Ho Hf Hb. destruct (fi_ptr _ _ _ Hf b Hb) as [->|[[Hu _] _]]; [lia|]. pose proof (fo_vbc _ Ho). lia.
Qed.

(** ** Mapping blocks *)

(** A new container whose data is the old one, except for the blocks in [S],
    which do not include the bitmap block. *)
Lemma fs_ok_container fs c' :
  fs_ok fs -> fsc_ok c' -> fsc_data c' (piece_lba (blockAllocator fs) 0) = fdata fs (piece_lba (blockAllocator fs) 0) ->
  fs_ok (with_container fs c').
Proof.
  intros [] Hc Hd. constructor; cbn; try done. intros i Hi. destruct (fo_sync0 i Hi) as [|Hon]; [by left|right].
  assert (i = 0) as -> by (destruct fo_alloc0; nia). unfold on_disk in *. by rewrite Hd.
Qed.

Lemma fs_ok_allocator fs a :
  fs_ok fs -> sa_ok a -> same_layout (blockAllocator fs) a -> keeps_sync (C := C) (blockAllocator fs) a ->
  fs_ok (with_allocator fs a).
Proof.
  intros [] Ha (Hz & Hl & Hn & Hb & Hv) Hk. constructor; cbn; try done; [by apply Hk|congruence|lia|lia].
Qed.

(** What mapping one disk block does; [new] is a block that was allocated. *)
Record mdb_post fs (lba : Z) (mode : MapBlock) (e : errno) (blk : SfsFileBlock) (new : option Z) fs' : Prop := {
  mp_ok : fs_ok fs';
  mp_par : same_params fs fs';
  mp_used : forall l, used fs' l <-> used fs l \/ new = Some l;
  mp_data : forall l, l <> fb_lba blk \/ e <> EOK -> fdata fs' l = fdata fs l;
  mp_alloced : wasAlloced blk = bool_decide (is_Some new);
  mp_new : forall l, new = Some l -> e = EOK /\ lba = 0 /\ fb_lba blk = l /\ 0 < l /\ ~ used fs l /\
    fb_data blk = zero_block /\ isZeroFill blk = false /\ mode <> kMapBlock_ReadOnly;
  mp_old : new = None -> e = EOK -> fb_lba blk = lba /\
    (lba <> 0 /\ isZeroFill blk = false \/ lba = 0 /\ isZeroFill blk = true /\ mode = kMapBlock_ReadOnly);
  mp_blk : e = EOK -> is_block (fb_data blk);
  mp_read : e = EOK -> mode = kMapBlock_ReadOnly \/ mode = kMapBlock_Update ->
    fb_data blk = (if lba =? 0 then zero_block else fdata fs lba) /\
    (new = None -> fdata fs' lba = fdata fs lba);
}.

Lemma piece_lba_layout a a' i : same_layout a a' -> piece_lba a' i = piece_lba a i.
Proof. intros (_ & Hl & _). unfold piece_lba. by rewrite Hl. Qed.

Lemma mdb_old fs lba mode :
  fs_ok fs -> 0 < lba -> lba <> piece_lba (blockAllocator fs) 0 ->
  exists e blk fs', map_disk_block fs lba mode = Some (e, blk, None, fs') /\ mdb_post fs lba mode e blk None fs'.
Proof.
  intros Hfs Hl Hne. unfold map_disk_block, fs_map. destruct (Z.ltb_spec 0 lba); [|lia].
  destruct (FSContainer_MapBlock lba mode (fs_container fs)) as [[e d] c'] eqn:Em.
  pose proof (fo_cont _ Hfs) as Hc. eexists _, _, _. split; [done|].
  destruct (decide (e = EOK)) as [->|He].
  - destruct (fsc_map_ok _ _ _ _ _ Hc Em) as (Hc' & Hd & Ho & Hr & _).
    constructor; cbn; try done; [apply fs_ok_container; [done|done|by apply Ho]|naive_solver|naive_solver| |].
    + intros _ _. split; [done|]. left. split; [lia|done].
    + intros _ Hm. destruct (Hr Hm) as [-> Hk]. destruct (Z.eqb_spec lba 0); [lia|]. split; [done|by intros _].
  - destruct (fsc_map_err _ _ _ _ _ _ Hc Em He) as [Hc' Hd].
    constructor; cbn; try done; [apply fs_ok_container; [done|done|by apply Hd]|naive_solver|intros l _; apply Hd].
Qed.

Lemma mdb_hole_read fs :
  fs_ok fs ->
  exists blk, map_disk_block fs 0 kMapBlock_ReadOnly = Some (EOK, blk, None, fs) /\
    mdb_post fs 0 kMapBlock_ReadOnly EOK blk None fs.
Proof.
  intros Hfs. eexists. split; [reflexivity|].
  assert (Hz : emptyReadOnlyBlock fs = zero_block) by (unfold emptyReadOnlyBlock, zero_block; rewrite (fo_bs _ Hfs); f_equal; lia).
  constructor; cbn; try done; [naive_solver|intros _ _; split; [done|by right]|intros _; rewrite Hz; apply block_zeros].
Qed.

Lemma alloc_used fs a l :
  (forall j, 0 <= j -> in_use (bitmap a) j = if decide (j = l) then true else in_use (bitmap (blockAllocator fs)) j) ->
  same_layout (blockAllocator fs) a -> 0 < l < volumeBlockCount (blockAllocator fs) ->
  forall x, used (with_allocator fs a) x <-> used fs x \/ Some l = Some x.
Proof.
  intros Hin (_ & _ & _ & _ & Hv) Hl x. unfold used. cbn. rewrite Hv. split.
  - intros [Hx Hu]. rewrite Hin in Hu by lia. case_decide; [right; congruence|left; done].
  - intros [[Hx Hu]|[= <-]]; (split; [done|]); rewrite Hin by lia; case_decide; done.
Qed.

Lemma realloc_used fs a a' l x :
  (forall j, 0 <= j -> in_use (bitmap a) j = if decide (j = l) then true else in_use (bitmap (blockAllocator fs)) j) ->
  (forall j, 0 <= j -> in_use (bitmap a') j = if decide (j = l) then false else in_use (bitmap a) j) ->
  same_layout (blockAllocator fs) a' -> in_use (bitmap (blockAllocator fs)) l = false ->
  used (with_allocator fs a') x <-> used fs x.
Proof.
  intros H1 H2 (_ & _ & _ & _ & Hv) Hl. unfold used. cbn. rewrite Hv.
  split; intros [Hx Hu]; (split; [done|]).
  - rewrite H2 in Hu by lia. case_decide; [done|]. rewrite H1 in Hu by lia. by case_decide.
  - rewrite H2, H1 by lia. repeat case_decide; congruence.
Qed.

Lemma same_params_alloc fs a : same_layout (blockAllocator fs) a -> same_params fs (with_allocator fs a).
Proof. intros Hl. do 4 (split; [done|]). exact Hl. Qed.

Lemma mdb_hole_write fs mode :
  fs_ok fs -> used fs (piece_lba (blockAllocator fs) 0) -> mode <> kMapBlock_ReadOnly ->
  exists e blk new fs', map_disk_block fs 0 mode = Some (e, blk, new, fs') /\ mdb_post fs 0 mode e blk new fs'.
Proof.
  intros Hfs Hbm Hm. unfold map_disk_block, fs_map. change (0 <? 0) with false. cbv iota. case_decide; [done|].
  destruct (allocate_spec (C := C) (blockAllocator fs) (fo_alloc _ Hfs)) as (e & l & a & Ha & Hok & Hlay & Hsync & Hcase).
  rewrite (bind_some Ha). pose proof (fs_ok_allocator fs a Hfs Hok Hlay Hsync) as Hfs1.
  destruct Hcase as [(-> & Hl & Hfree & Hin)|[-> ->]]; cycle 1.
  { eexists _, _, _, _. split; [done|]. constructor; cbn; try done; naive_solver. }
  cbn [is_ok]. pose proof (alloc_used fs a l Hin Hlay Hl) as Hused.
  assert (Hnu : ~ used fs l) by (intros [_ ?]; congruence).
  assert (Hlbm : l <> piece_lba (blockAllocator fs) 0) by (intros ->; done).
  destruct (FSContainer_MapBlock l kMapBlock_Cleared (fs_container (with_allocator fs a))) as [[e d] c'] eqn:Em.
  pose proof (fo_cont _ Hfs) as Hc. destruct (decide (e = EOK)) as [->|He].
  - destruct (fsc_map_ok _ _ _ _ _ Hc Em) as (Hc' & Hd & Ho & _ & Hz). cbn [is_ok].
    eexists _, _, _, _. split; [done|].
    constructor; cbn; try done.
    + apply (fs_ok_container (with_allocator fs a)); [done|done|]. cbn. rewrite (piece_lba_layout _ _ _ Hlay). by apply Ho.
    + intros x [Hx|]; [|done]. unfold fdata. cbn. by apply Ho.
    + intros x [= <-]. split_and!; try done; [lia|]. by apply Hz.
    + intros _ Hmode. split; [by apply Hz|done].
  - destruct (fsc_map_err _ _ _ _ _ _ Hc Em He) as [Hc' Hd]. apply is_ok_false in He as He'. rewrite He'.
    destruct (deallocate_spec (C := C) a l Hok) as (a' & Ha' & Hok' & Hlay' & Hsync' & Hin'); [destruct Hlay as (_ & _ & _ & _ & ->); lia|].
    cbn [blockAllocator with_container with_allocator]. rewrite (bind_some Ha').
    assert (Hlay2 : same_layout (blockAllocator fs) a') by (by eapply same_layout_trans).
    eexists _, _, _, _. split; [done|].
    constructor; cbn; try done.
    + apply (fs_ok_container (with_allocator fs a')); [|done|cbn; by apply Hd].
      apply fs_ok_allocator; [done|done|done|]. intros c Hcs. by apply Hsync', Hsync.
    + intros x. pose proof (realloc_used fs a a' l x Hin Hin' Hlay2 Hfree) as E.
      change (used (with_allocator (with_container (with_allocator fs a) c') a') x) with (used (with_allocator fs a') x).
      rewrite E. naive_solver.
    + intros x _. unfold fdata. cbn. apply Hd.
Qed.

Lemma mdb_spec fs lba mode :
  fs_ok fs -> used fs (piece_lba (blockAllocator fs) 0) -> 0 <= lba -> lba <> piece_lba (blockAllocator fs) 0 ->
  exists e blk new fs', map_disk_block fs lba mode = Some (e, blk, new, fs') /\ mdb_post fs lba mode e blk new fs'.
Proof.
  intros Hfs Hbm Hl Hne. destruct (decide (lba = 0)) as [->|].
  - destruct (decide (mode = kMapBlock_ReadOnly)) as [->|]; [|by apply mdb_hole_write].
    destruct (mdb_hole_read fs Hfs) as (blk & H1 & H2). by eexists _, _, _, _.
  - destruct (mdb_old fs lba mode) as (e & blk & fs' & H1 & H2); [done|lia|done|]. by eexists _, _, _, _.
Qed.

(** States that a file cannot tell apart. *)
Definition same_data fs fs' : Prop :=
  fs_ok fs' /\ same_params fs fs' /\ (forall l, fdata fs' l = fdata fs l) /\ (forall x, used fs' x <-> used fs x).

Lemma mdb_compose fs fs1 fs2 fs3 lba mode e blk new :
  same_data fs fs1 -> mdb_post fs1 lba mode e blk new fs2 -> same_data fs2 fs3 ->
  mdb_post fs lba mode e blk new fs3.
Proof.
  intros (_ & Hp1 & Hd1 & Hu1) [] (Hok3 & Hp3 & Hd3 & Hu3). constructor; try done.
  - eapply same_params_trans; [done|]. by eapply same_params_trans.
  - intros l. by rewrite Hu3, mp_used0, Hu1.
  - intros l Hl. by rewrite Hd3, mp_data0, Hd1.
  - intros l Hl. rewrite <- Hu1. by apply mp_new0.
  - intros He Hm. destruct (mp_read0 He Hm) as [H1 H2]. rewrite Hd3, <- !Hd1. done.
Qed.

Record mb_post fs bm R (fba : Z) (mode : MapBlock) (e : errno) (blk : SfsFileBlock) fs' bm' : Prop := {
  mb_ok : fs_ok fs';
  mb_par : same_params fs fs';
  mb_mono : forall x, used fs x -> used fs' x;
  mb_file : file_ok fs' bm' R;
  mb_ptr : forall b, valid_fba fs b -> b <> fba \/ e <> EOK -> ptr fs' bm' b = ptr fs bm b;
  mb_blocks : forall b, valid_fba fs b -> b <> fba \/ e <> EOK -> file_block fs' bm' b = file_block fs bm b;
  mb_frame : forall l, used fs l -> (forall b, valid_fba fs b -> ptr fs bm b <> l) -> l <> indirect bm ->
    fdata fs' l = fdata fs l;
  mb_lba : e = EOK -> fb_lba blk = ptr fs' bm' fba;
  mb_which : e = EOK -> ptr fs' bm' fba = ptr fs bm fba \/ ~ used fs (ptr fs' bm' fba);
  mb_zero : e = EOK -> isZeroFill blk = false /\ fb_lba blk <> 0 \/
    isZeroFill blk = true /\ fb_lba blk = 0 /\ mode = kMapBlock_ReadOnly;
  mb_blk : e = EOK -> is_block (fb_data blk);
  mb_read : e = EOK -> mode = kMapBlock_ReadOnly \/ mode = kMapBlock_Update -> fb_data blk = file_block fs bm fba;
  mb_ro : mode = kMapBlock_ReadOnly -> bm' = bm /\ same_data fs fs';
  mb_ind : indirect bm <> 0 -> indirect bm' = indirect bm;
  mb_keep : mode = kMapBlock_Update -> ptr fs bm fba <> 0 -> file_block fs' bm' fba = file_block fs bm fba;
}.

Lemma ptr_ne_bitmap fs bm R b : file_ok fs bm R -> valid_fba fs b -> ptr fs bm b <> piece_lba (blockAllocator fs) 0.
Proof.
  intros Hf Hb E. destruct (fi_bitmap _ _ _ Hf) as [HR Hu]. destruct (fi_ptr _ _ _ Hf b Hb) as [E0|(_ & Hn & _)].
  - rewrite <- E, E0 in Hu. destruct Hu. lia.
  - rewrite E in Hn. done.
Qed.

(** The block that is mapped has a pointer already, or is a hole to be read, or
    the mapping failed. *)
Lemma mb_none fs bm R fba mode e blk fs' :
  file_ok fs bm R -> valid_fba fs fba -> mdb_post fs (ptr fs bm fba) mode e blk None fs' ->
  mb_post fs bm R fba mode e blk fs' bm.
Proof.
  intros Hf Hv []. assert (Hold : e = EOK -> fb_lba blk = ptr fs bm fba) by (intros He; by apply mp_old0).
  assert (Hdata : forall l, l <> ptr fs bm fba \/ e <> EOK -> fdata fs' l = fdata fs l).
  { intros l Hl. apply mp_data0. destruct (decide (e = EOK)) as [He|]; [|by right]. rewrite (Hold He). done. }
  assert (Hptr : forall b, ptr fs' bm b = ptr fs bm b).
  { intros b. apply ptr_data. destruct (decide (indirect bm = 0)); [by left|right]. apply Hdata.
    destruct (fi_ptr _ _ _ Hf fba Hv) as [->|(_ & _ & Hne)]; left; congruence. }
  assert (Hmono : forall x, used fs x -> used fs' x) by (intros x; rewrite mp_used0; auto).
  constructor; try done.
  - eapply file_ok_keep; [done|done|by intros b _|done].
  - intros b Hb Hne. unfold file_block. rewrite Hptr. destruct (Z.eqb_spec (ptr fs bm b) 0); [done|]. apply Hdata.
    destruct Hne as [Hne|]; [|by right]. left. intros E. by apply Hne, (fi_inj _ _ _ Hf).
  - intros l _ Hl _. apply Hdata. left. intros E. by apply (Hl fba).
  - intros He. rewrite Hptr. auto.
  - intros _. left. apply Hptr.
  - intros He. destruct (mp_old0 eq_refl He) as [Hl [[? ?]|(? & ? & ?)]]; [left|right]; rewrite Hl; done.
  - intros He Hm. destruct (mp_read0 He Hm) as [-> _]. done.
  - intros Hm. split; [done|]. split_and!; [done|done| |by intros x; rewrite mp_used0; naive_solver].
    intros l. destruct (decide (l = ptr fs bm fba)) as [->|]; [|apply Hdata; auto].
    destruct (decide (e = EOK)) as [He|]; [|apply Hdata; auto]. by apply mp_read0; [|left|].
  - intros Hm Hn. unfold file_block. rewrite Hptr. destruct (Z.eqb_spec (ptr fs bm fba) 0); [done|].
    destruct (decide (e = EOK)) as [He|]; [|apply Hdata; auto]. by apply mp_read0; [|right|].
Qed.

(** A hole gets the new block [l]; the indirect block may be new as well. *)
Lemma mb_some fs bm R fba mode blk fs' bm' l :
  file_ok fs bm R -> valid_fba fs fba -> mode <> kMapBlock_ReadOnly -> ptr fs bm fba = 0 ->
  fs_ok fs' -> same_params fs fs' -> length (direct bm') = 110%nat ->
  (forall b, valid_fba fs b -> ptr fs' bm' b = if decide (b = fba) then l else ptr fs bm b) ->
  (forall x, used fs x -> used fs' x) -> ~ used fs l -> used fs' l -> l <> indirect bm' ->
  (indirect bm' = indirect bm \/ (indirect bm = 0 /\ ~ used fs (indirect bm') /\ used fs' (indirect bm'))) ->
  (forall x, x <> l -> x <> indirect bm' -> fdata fs' x = fdata fs x) ->
  fb_lba blk = l -> fb_data blk = zero_block -> isZeroFill blk = false ->
  mb_post fs bm R fba mode EOK blk fs' bm'.
Proof.
  intros Hf Hv Hm H0 Hok Hp Hlen Hptr Hmono Hnl Hl Hne Hind Hdata Hlba Hz Hnz. assert (0 < l) by apply Hl.
  constructor; try done.
  - eapply file_ok_set; eauto. destruct Hind as [|(_ & ? & ?)]; auto.
  - intros b Hb [Hb'|]; [|done]. rewrite Hptr by done. by case_decide.
  - intros b Hb [Hb'|]; [|done]. unfold file_block. rewrite Hptr by done. case_decide; [done|].
    destruct (fi_ptr _ _ _ Hf b Hb) as [->|(Hu & _ & Hi)]; [done|]. destruct (Z.eqb_spec (ptr fs bm b) 0); [done|].
    apply Hdata; [by intros E; rewrite E in Hu|]. destruct Hind as [->|(_ & Hn & _)]; [done|]. intros E. by rewrite E in Hu.
  - intros x Hx _ Hxi. apply Hdata; [by intros ->|]. destruct Hind as [->|(_ & Hn & _)]; [done|]. by intros ->.
  - intros _. rewrite Hptr by done. by case_decide.
  - intros _. right. rewrite Hptr by done. by case_decide.
  - intros _. left. split; [done|lia].
  - intros _. rewrite Hz. apply block_zeros.
  - intros _ _. unfold file_block. by rewrite H0, Hz.
  - destruct Hind as [->|(-> & _)]; done.
Qed.

Lemma fs_unmap_none fs lba e fs' :
  fs_ok fs -> fs_unmap fs lba (fdata fs lba) kWriteBlock_None = (e, fs') -> same_data fs fs'.
Proof.
  intros Hfs. unfold fs_unmap. destruct (FSContainer_UnmapBlock _ _ _ _) as [e' c'] eqn:E. intros [= <- <-].
  pose proof (fo_cont _ Hfs) as Hc. destruct (fsc_unmap _ _ _ _ _ _ Hc (fsc_data_block _ lba Hc) E) as (Hc' & Ho & _ & _ & Hn).
  assert (Hd : forall l, fsc_data c' l = fdata fs l).
  { intros l. destruct (decide (l = lba)) as [->|]; [by apply Hn|by apply Ho]. }
  split_and!; [by apply fs_ok_container|done|done|done].
Qed.

Lemma fs_unmap_write fs lba d e fs' :
  fs_ok fs -> is_block d -> lba <> piece_lba (blockAllocator fs) 0 ->
  fs_unmap fs lba d kWriteBlock_Deferred = (e, fs') ->
  e = EOK /\ fs_ok fs' /\ same_params fs fs' /\ fdata fs' lba = d /\
  (forall l, l <> lba -> fdata fs' l = fdata fs l) /\ (forall x, used fs' x <-> used fs x).
Proof.
  intros Hfs Hd Hne. unfold fs_unmap. destruct (FSContainer_UnmapBlock _ _ _ _) as [e' c'] eqn:E. intros [= <- <-].
  pose proof (fo_cont _ Hfs) as Hc. destruct (fsc_unmap _ _ _ _ _ _ Hc Hd E) as (Hc' & Ho & Hw & He & _).
  split_and!; [by apply He|apply fs_ok_container; [done|done|by apply Ho]|done|by apply Hw|done|done].
Qed.

Lemma valid_fba_direct fs fba : 0 <= fba < 110 -> fs_ok fs -> valid_fba fs fba.
Proof.
  intros Hb []. unfold valid_fba, max_fba, kSFSDirectBlockPointersCount. pose proof (Z.div_pos (Z.of_nat fsc_blockSize) 4). lia.
Qed.

Lemma mapblock_direct fs bm R fba mode :
  fs_ok fs -> file_ok fs bm R -> 0 <= fba < 110 ->
  exists e blk fs' bm', SfsFile_MapBlock fs bm fba mode = Some (e, blk, fs', bm') /\
    mb_post fs bm R fba mode e blk fs' bm'.
Proof.
  intros Hfs Hf Hb. pose proof (valid_fba_direct fs fba Hb Hfs) as Hv. pose proof (fi_len _ _ _ Hf) as Hlen.
  assert (Hp : ptr fs bm fba = arr_get 0 (direct bm) fba).
  { unfold ptr, kSFSDirectBlockPointersCount. destruct (Z.ltb_spec fba 110); [done|lia]. }
  unfold SfsFile_MapBlock, kSFSDirectBlockPointersCount. destruct (Z.ltb_spec fba 110); [|lia].
  rewrite (bind_some (arr_get_Some 0 (direct bm) fba ltac:(lia))), <- Hp.
  destruct (mdb_spec fs (ptr fs bm fba) mode) as (e & blk & new & fs' & Hm & Hpost);
    [done|apply Hf|by eapply ptr_range|by eapply ptr_ne_bitmap|].
  rewrite (bind_some Hm). exists e, blk, fs'. eexists. split; [done|].
  destruct new as [l|]; [|by apply mb_none].
  destruct Hpost as [? ? Hus Hd Hal Hnew _ _ _].
  destruct (Hnew l eq_refl) as (-> & H0 & Hlba & Hl & Hnu & Hz & Hzf & Hro).
  assert (Hbnz : l <> indirect bm) by (intros ->; destruct (fi_ind _ _ _ Hf) as [|[]]; [lia|done]).
  apply (mb_some _ _ _ _ _ _ _ _ l); try done; cbn [direct indirect].
  - by rewrite length_insert.
  - intros b Hbv. unfold ptr, kSFSDirectBlockPointersCount. cbn [direct indirect]. case_decide as Eb.
    + subst b. destruct (Z.ltb_spec fba 110); [|lia]. by apply arr_get_set_eq; lia.
    + destruct (Z.ltb_spec b 110); [apply arr_get_set_ne; destruct Hbv; lia|].
      destruct (indirect bm =? 0); [done|]. by rewrite Hd by (left; congruence).
  - intros x Hx. apply Hus. by left.
  - apply Hus. by right.
  - by left.
  - intros x Hx _. apply Hd. left. congruence.
Qed.

(** The pointers of a new indirect block content. *)
Lemma ptr_indirect fs bm D b :
  fdata fs (indirect bm) = D -> indirect bm <> 0 -> 110 <= b -> ptr fs bm b = load32 (Z.to_nat (4 * (b - 110))) D.
Proof.
  intros <- Hi Hb. unfold ptr, kSFSDirectBlockPointersCount. destruct (Z.ltb_spec b 110); [lia|].
  destruct (Z.eqb_spec (indirect bm) 0); [done|done].
Qed.

Lemma i0_offset fs b : fs_ok fs -> valid_fba fs b -> 110 <= b -> (Z.to_nat (4 * (b - 110)) + 4 <= fsc_blockSize)%nat.
Proof.
  intros Hfs [_ Hb] Hge. unfold max_fba, kSFSDirectBlockPointersCount in Hb. rewrite (fo_ient _ Hfs) in Hb.
  pose proof (Z.mul_div_le (Z.of_nat fsc_blockSize) 4). lia.
Qed.

Lemma i0_store_ptr fs bm fs' L D l fba :
  fs_ok fs -> is_block D -> L <> 0 -> 0 <= l < 2 ^ 32 -> valid_fba fs fba -> 110 <= fba ->
  (forall b, valid_fba fs b -> 110 <= b -> load32 (Z.to_nat (4 * (b - 110))) D = ptr fs bm b) ->
  fdata fs' L = store32 (Z.to_nat (4 * (fba - 110))) l D ->
  forall b, valid_fba fs b -> ptr fs' (Bmap L (direct bm)) b = if decide (b = fba) then l else ptr fs bm b.
Proof.
  intros Hfs [HD _] HL Hl Hv Hge HDp Hst b Hb. destruct (decide (b < 110)) as [Hlt|Hge'].
  { case_decide; [lia|]. unfold ptr, kSFSDirectBlockPointersCount. destruct (Z.ltb_spec b 110); [done|lia]. }
  rewrite (ptr_indirect fs' (Bmap L (direct bm)) (store32 (Z.to_nat (4 * (fba - 110))) l D)) by (done || lia).
  pose proof (i0_offset fs fba Hfs Hv Hge). pose proof (i0_offset fs b Hfs Hb ltac:(lia)). case_decide as E.
  - subst b. apply load_store_same; lia.
  - rewrite load_store_other by lia. apply HDp; [done|lia].
Qed.

Lemma mdb_fail fs lba mode e fs' :
  same_data fs fs' -> e <> EOK -> mdb_post fs lba mode e (FB [] 0 false false) None fs'.
Proof. intros (Hok & Hp & Hd & Hu) He. constructor; try done. intros l. rewrite Hu. naive_solver. Qed.

Lemma mdb_read_same fs lba e blk fs' :
  lba <> 0 -> mdb_post fs lba kMapBlock_Update e blk None fs' -> same_data fs fs'.
Proof.
  intros Hl []. split_and!; [done|done| |by intros x; rewrite mp_used0; naive_solver].
  intros l. destruct (decide (e = EOK)) as [->|]; [|by apply mp_data0; right].
  destruct (mp_old0 eq_refl eq_refl) as [E _]. destruct (decide (l = lba)) as [->|]; [|by apply mp_data0; left; rewrite E].
  by apply mp_read0; [|right|].
Qed.

Lemma same_data_ptr fs fs' bm b : same_data fs fs' -> ptr fs' bm b = ptr fs bm b.
Proof. intros (_ & _ & Hd & _). apply ptr_data. right. apply Hd. Qed.

Lemma same_data_params fs fs' : same_data fs fs' -> same_params fs fs'.
Proof. by intros (_ & ? & _). Qed.

Lemma used_params fs fs' l :
  same_params fs fs' -> piece_lba (blockAllocator fs') l = piece_lba (blockAllocator fs) l.
Proof. intros (_ & _ & _ & _ & Hl). by apply piece_lba_layout. Qed.

(** The last step of mapping a hole behind an indirect block [L] with the
    content [D]: the new pointer is stored and the block is written back. *)
Lemma i0_finish fs bm R fba mode fs2 L D l blk e3 fs3 :
  fs_ok fs -> file_ok fs bm R -> valid_fba fs fba -> 110 <= fba -> mode <> kMapBlock_ReadOnly -> ptr fs bm fba = 0 ->
  fs_ok fs2 -> same_params fs fs2 -> is_block D -> L <> 0 -> L <> piece_lba (blockAllocator fs) 0 ->
  (forall b, valid_fba fs b -> 110 <= b -> load32 (Z.to_nat (4 * (b - 110))) D = ptr fs bm b) ->
  (forall x, used fs2 x <-> used fs x \/ x = l \/ x = L) -> ~ used fs l -> l <> L ->
  (L = indirect bm \/ (indirect bm = 0 /\ ~ used fs L)) ->
  (forall x, x <> l -> x <> L -> fdata fs2 x = fdata fs x) ->
  fb_lba blk = l -> fb_data blk = zero_block -> isZeroFill blk = false ->
  fs_unmap fs2 L (store32 (Z.to_nat (4 * (fba - 110))) l D) kWriteBlock_Deferred = (e3, fs3) ->
  mb_post fs bm R fba mode EOK blk fs3 (Bmap L (direct bm)).
Proof.
  intros Hfs Hf Hv Hge Hro Hp0 Hfs2 Hpar2 HD HL HLb HDp Hu Hnu HlL Hind Hd Hlba Hz Hzf Eu.
  pose proof (i0_offset fs fba Hfs Hv Hge) as Hoff. pose proof HD as [Hbl Hbb].
  assert (Hnb : is_block (store32 (Z.to_nat (4 * (fba - 110))) l D)).
  { split; [|by apply Forall_store]. rewrite length_store; [done|lia]. }
  destruct (fs_unmap_write _ _ _ _ _ Hfs2 Hnb ltac:(by rewrite (used_params fs fs2) by done) Eu)
    as (_ & Hfs3 & Hpar3 & Hst & Ho3 & Hu3).
  assert (Hul : used fs3 l) by (apply Hu3, Hu; auto). pose proof (fo_vbc _ Hfs3).
  apply (mb_some _ _ _ _ _ _ _ _ l); try done; cbn [indirect direct].
  - by eapply same_params_trans.
  - apply Hf.
  - apply (i0_store_ptr fs bm fs3 L D l fba); try done. destruct Hul. lia.
  - intros x Hx. apply Hu3, Hu. by left.
  - destruct Hind as [->|[? ?]]; [by left|right]. split_and!; [done|done|]. apply Hu3, Hu; auto.
  - intros x Hx1 Hx2. rewrite Ho3 by done. by apply Hd.
Qed.

Lemma mapblock_ind_old fs bm R fba mode :
  fs_ok fs -> file_ok fs bm R -> valid_fba fs fba -> 110 <= fba -> indirect bm <> 0 ->
  exists e blk fs' bm', SfsFile_MapBlock fs bm fba mode = Some (e, blk, fs', bm') /\
    mb_post fs bm R fba mode e blk fs' bm'.
Proof.
  intros Hfs Hf Hv Hge Hi. pose proof Hv as [_ Hlt]. unfold max_fba, kSFSDirectBlockPointersCount in Hlt.
  unfold SfsFile_MapBlock, kSFSDirectBlockPointersCount.
  destruct (Z.ltb_spec fba 110); [lia|]. destruct (Z.ltb_spec (fba - 110) (indirectBlockEntryCount fs)); [|lia].
  destruct (fi_ind _ _ _ Hf) as [|[Hiu HiR]]; [done|]. destruct (fi_bitmap _ _ _ Hf) as [HbR Hbu].
  assert (Hine : indirect bm <> piece_lba (blockAllocator fs) 0) by (intros E; by rewrite E in HiR).
  destruct (mdb_spec fs (indirect bm) kMapBlock_Update) as (e1 & i0 & new1 & fs1 & Hm1 & Hp1); [done|done|destruct Hiu; lia|done|].
  assert (new1 = None) as -> by (destruct new1 as [x|]; [destruct (mp_new _ _ _ _ _ _ _ Hp1 x eq_refl) as (_ & ? & _); done|done]).
  rewrite (bind_some Hm1). pose proof (mdb_read_same _ _ _ _ _ Hi Hp1) as Hsd1.
  destruct (is_ok e1) eqn:Ee1; cbn [negb]; cycle 1.
  { apply is_ok_false in Ee1. eexists _, _, _, _. split; [done|]. apply mb_none; [done|done|by apply mdb_fail]. }
  apply is_ok_true in Ee1 as ->. destruct (mp_old _ _ _ _ _ _ _ Hp1 eq_refl eq_refl) as [Hi0 _].
  destruct (mp_read _ _ _ _ _ _ _ Hp1 eq_refl ltac:(by right)) as [Hdat _].
  destruct (Z.eqb_spec (indirect bm) 0); [done|]. pose proof (mp_ok _ _ _ _ _ _ _ Hp1) as Hfs1.
  set (off := Z.to_nat (4 * (fba - 110))). assert (Hpeq : load32 off (fb_data i0) = ptr fs bm fba).
  { rewrite Hdat. symmetry. by apply ptr_indirect. }
  rewrite Hpeq, Hdat, Hi0. pose proof (same_data_params _ _ Hsd1) as Hpar1.
  destruct (mdb_spec fs1 (ptr fs bm fba) mode) as (e & blk & new & fs2 & Hm2 & Hp2);
    [done|rewrite (used_params fs fs1) by done; by apply Hsd1|by eapply ptr_range|rewrite (used_params fs fs1) by done; by eapply ptr_ne_bitmap|].
  rewrite (bind_some Hm2), (mp_alloced _ _ _ _ _ _ _ Hp2).
  assert (Hind2 : fdata fs2 (indirect bm) = fdata fs (indirect bm)).
  { destruct Hsd1 as (_ & _ & Hd1 & Hu1). rewrite <- Hd1. apply (mp_data _ _ _ _ _ _ _ Hp2).
    destruct (decide (e = EOK)) as [->|]; [left|by right]. destruct new as [l|].
    - destruct (mp_new _ _ _ _ _ _ _ Hp2 l eq_refl) as (_ & _ & -> & _ & Hnu & _). rewrite Hu1 in Hnu. by intros <-.
    - destruct (mp_old _ _ _ _ _ _ _ Hp2 eq_refl eq_refl) as [-> _].
      destruct (fi_ptr _ _ _ Hf fba Hv) as [->|(_ & _ & ?)]; congruence. }
  pose proof (mp_ok _ _ _ _ _ _ _ Hp2) as Hfs2.
  destruct new as [l|]; cycle 1.
  { rewrite bool_decide_eq_false_2 by (by intros []). rewrite <- Hind2.
    destruct (fs_unmap fs2 _ _ _) as [e3 fs3] eqn:Eu. eexists _, _, _, _. split; [done|].
    apply mb_none; [done|done|]. eapply mdb_compose; [done|done|by eapply fs_unmap_none]. }
  rewrite bool_decide_eq_true_2 by done.
  destruct (mp_new _ _ _ _ _ _ _ Hp2 l eq_refl) as (-> & Hp0 & Hlba & Hl & Hnu & Hz & Hzf & Hro).
  destruct (fs_unmap fs2 _ _ _) as [e3 fs3] eqn:Eu. eexists _, _, _, _. split; [done|].
  destruct Hsd1 as (_ & _ & Hd1 & Hu1). rewrite Hu1 in Hnu. replace bm with (Bmap (indirect bm) (direct bm)) at 2 by (by destruct bm).
  eapply (i0_finish fs bm R fba mode fs2 (indirect bm) (fdata fs (indirect bm)) l); try done.
  - eapply same_params_trans; [done|apply Hp2].
  - apply fsc_data_block, Hfs.
  - intros b _ Hb. symmetry. by apply ptr_indirect.
  - intros x. rewrite (mp_used _ _ _ _ _ _ _ Hp2), Hu1. naive_solver.
  - by intros ->.
  - by left.
  - intros x Hx1 Hx2. rewrite (mp_data _ _ _ _ _ _ _ Hp2) by (left; congruence). apply Hd1.
Qed.

Lemma either_new (P : Prop) (x l L : Z) : (P \/ Some L = Some x) \/ Some l = Some x <-> P \/ x = l \/ x = L.
Proof. naive_solver. Qed.

Lemma load32_zero_block off : (off + 4 <= fsc_blockSize)%nat -> load32 off zero_block = 0.
Proof. intros. unfold load, zero_block. rewrite slice_replicate by lia. apply be_val_zeros. Qed.

(** What holds after every mapping, also one that damaged the file. *)
Definition still_mounted fs bm fs' bm' : Prop :=
  fs_ok fs' /\ same_params fs fs' /\ (forall x, used fs x -> used fs' x) /\ direct bm' = direct bm.

Lemma fs_unmap_any fs lba d w e fs' :
  fs_ok fs -> is_block d -> lba <> piece_lba (blockAllocator fs) 0 -> fs_unmap fs lba d w = (e, fs') ->
  fs_ok fs' /\ same_params fs fs' /\ (forall x, used fs' x <-> used fs x).
Proof.
  intros Hfs Hd Hne. unfold fs_unmap. destruct (FSContainer_UnmapBlock _ _ _ _) as [e' c'] eqn:E. intros [= <- <-].
  pose proof (fo_cont _ Hfs) as Hc. destruct (fsc_unmap _ _ _ _ _ _ Hc Hd E) as (Hc' & Ho & _).
  split_and!; [apply fs_ok_container; [done|done|by apply Ho]|done|done].
Qed.

(** A write behind an indirect block that does not exist yet; if one of the two
    allocations fails then nothing is known about the content of the file. *)
Lemma mapblock_ind_new fs bm R fba mode :
  fs_ok fs -> file_ok fs bm R -> valid_fba fs fba -> 110 <= fba -> indirect bm = 0 -> mode <> kMapBlock_ReadOnly ->
  exists e blk fs' bm', SfsFile_MapBlock fs bm fba mode = Some (e, blk, fs', bm') /\
    (e = EOK -> mb_post fs bm R fba mode e blk fs' bm') /\ (e <> EOK -> still_mounted fs bm fs' bm').
Proof.
  intros Hfs Hf Hv Hge Hi Hro. pose proof Hv as [_ Hlt]. unfold max_fba, kSFSDirectBlockPointersCount in Hlt.
  unfold SfsFile_MapBlock, kSFSDirectBlockPointersCount.
  destruct (Z.ltb_spec fba 110); [lia|]. destruct (Z.ltb_spec (fba - 110) (indirectBlockEntryCount fs)); [|lia].
  destruct (fi_bitmap _ _ _ Hf) as [HbR Hbu]. rewrite Hi.
  destruct (mdb_hole_write fs kMapBlock_Update) as (e1 & i0 & new1 & fs1 & Hm1 & Hp1); [done|done|done|].
  rewrite (bind_some Hm1). destruct (is_ok e1) eqn:Ee1; cbn [negb]; cycle 1.
  { apply is_ok_false in Ee1. eexists _, _, _, _. split; [done|]. split; [done|]. intros _.
    split; [apply Hp1|]. split; [apply Hp1|]. split; [|by destruct new1].
    intros x Hx. apply (mp_used _ _ _ _ _ _ _ Hp1). by left. }
  apply is_ok_true in Ee1 as ->. destruct new1 as [L|]; cycle 1.
  { destruct (mp_old _ _ _ _ _ _ _ Hp1 eq_refl eq_refl) as (_ & [[? _]|(_ & _ & ?)]); done. }
  destruct (mp_new _ _ _ _ _ _ _ Hp1 L eq_refl) as (_ & _ & HiL & HL & HLn & Hiz & _ & _).
  pose proof (mp_used _ _ _ _ _ _ _ Hp1) as Hu1. pose proof (mp_par _ _ _ _ _ _ _ Hp1) as Hpar1.
  rewrite Hiz, HiL, (load32_zero_block _ (i0_offset fs fba Hfs Hv Hge)).
  destruct (mdb_hole_write fs1 mode) as (e & blk & new & fs2 & Hm2 & Hp2);
    [apply Hp1|rewrite (used_params fs fs1) by done; apply Hu1; by left|done|].
  rewrite (bind_some Hm2), (mp_alloced _ _ _ _ _ _ _ Hp2).
  assert (HLb : L <> piece_lba (blockAllocator fs) 0) by (intros E; by rewrite <- E in Hbu).
  assert (Hpar2 : same_params fs fs2) by (eapply same_params_trans; [exact Hpar1|apply Hp2]).
  destruct (fs_unmap fs2 L _ _) as [e3 fs3] eqn:Eu. eexists _, _, _, _. split; [done|]. split; cycle 1.
  { intros He. assert (new = None) as -> by (destruct new as [l|]; [by destruct (mp_new _ _ _ _ _ _ _ Hp2 l eq_refl)|done]).
    destruct (fs_unmap_any _ _ _ _ _ _ (mp_ok _ _ _ _ _ _ _ Hp2) block_zeros ltac:(by rewrite (used_params fs fs2)) Eu) as (H3 & H4 & H5).
    split; [exact H3|]. split; [by eapply same_params_trans|]. split; [|done].
    intros x Hx. apply H5, (mp_used _ _ _ _ _ _ _ Hp2). left. apply Hu1. by left. }
  intros ->.
  destruct new as [l|]; cycle 1.
  { destruct (mp_old _ _ _ _ _ _ _ Hp2 eq_refl eq_refl) as (_ & [[? _]|(_ & _ & ?)]); done. }
  destruct (mp_new _ _ _ _ _ _ _ Hp2 l eq_refl) as (_ & _ & Hlba & Hl & Hnu & Hz & Hzf & _).
  rewrite Hu1 in Hnu. rewrite bool_decide_eq_true_2 in Eu by done.
  assert (Hp0 : forall b, 110 <= b -> ptr fs bm b = 0).
  { intros b Hb. unfold ptr, kSFSDirectBlockPointersCount. destruct (Z.ltb_spec b 110); [lia|]. by rewrite Hi. }
  apply (i0_finish fs bm R fba mode fs2 L zero_block l blk e3 fs3);
    [exact Hfs|exact Hf|exact Hv|exact Hge|exact Hro|by apply Hp0|apply Hp2| |apply block_zeros|lia| | | |intros Hc; apply Hnu; by left| | | |exact Hlba|exact Hz|exact Hzf|exact Eu].
  - exact Hpar2.
  - exact HLb.
  - intros b Hb Hb'. rewrite Hp0 by lia. apply load32_zero_block. by apply (i0_offset fs).
  - intros x. rewrite (mp_used _ _ _ _ _ _ _ Hp2), Hu1. apply either_new.
  - intros ->. apply Hnu. by right.
  - right. by split.
  - intros x Hx1 Hx2. rewrite (mp_data _ _ _ _ _ _ _ Hp2), (mp_data _ _ _ _ _ _ _ Hp1) by (left; congruence). reflexivity.
Qed.

(** Block [fba] can be mapped without a new indirect block. *)
Definition ready bm (fba : Z) : Prop := fba < 110 \/ indirect bm <> 0.

Lemma mapblock_spec fs bm R fba mode :
  fs_ok fs -> file_ok fs bm R -> valid_fba fs fba -> ready bm fba ->
  exists e blk fs' bm', SfsFile_MapBlock fs bm fba mode = Some (e, blk, fs', bm') /\
    mb_post fs bm R fba mode e blk fs' bm'.
Proof.
  intros Hfs Hf Hv Hr. destruct (decide (fba < 110)); [apply mapblock_direct; [done|done|destruct Hv; lia]|].
  apply mapblock_ind_old; [done|done|done|lia|]. destruct Hr; [lia|done].
Qed.

Lemma mapblock_write fs bm R fba mode :
  fs_ok fs -> file_ok fs bm R -> valid_fba fs fba -> mode <> kMapBlock_ReadOnly ->
  exists e blk fs' bm', SfsFile_MapBlock fs bm fba mode = Some (e, blk, fs', bm') /\
    (ready bm fba \/ e = EOK -> mb_post fs bm R fba mode e blk fs' bm') /\
    (~ ready bm fba -> e <> EOK -> still_mounted fs bm fs' bm').
Proof.
  intros Hfs Hf Hv Hm. destruct (decide (fba < 110 \/ indirect bm <> 0)) as [Hr|Hr].
  - destruct (mapblock_spec fs bm R fba mode Hfs Hf Hv Hr) as (e & blk & fs' & bm' & H1 & H2). by eexists _, _, _, _.
  - destruct (mapblock_ind_new fs bm R fba mode) as (e & blk & fs' & bm' & H1 & H2 & H3); [done|done|done|lia|lia|done|].
    exists e, blk, fs', bm'. split; [done|]. split; [intros [|]; [done|auto]|auto].
Qed.

Lemma mapblock_too_big fs bm fba mode :
  max_fba fs <= fba -> 0 <= indirectBlockEntryCount fs ->
  SfsFile_MapBlock fs bm fba mode = Some (EFBIG, FB [] 0 false false, fs, bm).
Proof.
  unfold max_fba, SfsFile_MapBlock, kSFSDirectBlockPointersCount. intros Hb Hn.
  destruct (Z.ltb_spec fba 110); [lia|]. by destruct (Z.ltb_spec (fba - 110) (indirectBlockEntryCount fs)); [lia|].
Qed.

(** Writing back a mapped block. *)
Lemma unmap_write fs bm R fba mode blk fs1 bm' d :
  mb_post fs bm R fba mode EOK blk fs1 bm' -> valid_fba fs fba -> mode <> kMapBlock_ReadOnly -> is_block d ->
  exists fs', SfsFile_UnmapBlock fs1 blk d kWriteBlock_Deferred = Some (EOK, fs') /\
    fs_ok fs' /\ same_params fs fs' /\ file_ok fs' bm' R /\ (forall x, used fs x -> used fs' x) /\
    (forall b, valid_fba fs b -> file_block fs' bm' b = if decide (b = fba) then d else file_block fs bm b) /\
    (forall l, used fs l -> (forall b, valid_fba fs b -> ptr fs bm b <> l) -> l <> indirect bm -> fdata fs' l = fdata fs l).
Proof.
  intros [Hok Hpar Hmono Hf Hptr Hblk Hframe Hlba Hwhich Hzero _ _ _ _ _] Hv Hm Hd.
  specialize (Hlba eq_refl). destruct (Hzero eq_refl) as [[Hz Hnz]|(_ & _ & ?)]; [|done].
  assert (Hv1 : valid_fba fs1 fba) by (by apply (valid_fba_params fs)).
  unfold SfsFile_UnmapBlock. rewrite Hz. destruct (fs_unmap fs1 _ d _) as [e fs'] eqn:Eu.
  destruct (fs_unmap_write fs1 (fb_lba blk) d e fs' Hok Hd ltac:(rewrite Hlba; by eapply ptr_ne_bitmap) Eu) as (-> & Hok' & Hpar' & Hw & Ho & Hu).
  exists fs'. rewrite Hlba in Hw, Ho, Hnz. destruct (fi_ptr _ _ _ Hf fba Hv1) as [|(Hpu & HpR & Hpi)]; [done|].
  assert (Hptr' : forall b, ptr fs' bm' b = ptr fs1 bm' b) by (intros b; apply ptr_data; right; by apply Ho).
  split; [done|]. split_and!; [done|by eapply same_params_trans| |intros x Hx; by apply Hu, Hmono| |].
  - eapply file_ok_keep; [done|done|by intros b _|by intros x; rewrite Hu].
  - intros b Hb. unfold file_block at 1. rewrite Hptr'. case_decide as E.
    + subst b. destruct (Z.eqb_spec (ptr fs1 bm' fba) 0); done.
    + rewrite <- Hblk by auto. unfold file_block. destruct (Z.eqb_spec (ptr fs1 bm' b) 0); [done|]. apply Ho.
      intros Heq. apply E. apply (fi_inj _ _ _ Hf); [by apply (valid_fba_params fs)|done|done|done].
  - intros l Hl Hnp Hni. rewrite <- (Hframe l Hl Hnp Hni). apply Ho. intros ->.
    destruct (Hwhich eq_refl) as [E|]; [by apply (Hnp fba)|done].
Qed.

Lemma unmap_read fs bm R fba blk fs1 bm' :
  mb_post fs bm R fba kMapBlock_ReadOnly EOK blk fs1 bm' -> file_ok fs bm R ->
  exists e fs', SfsFile_UnmapBlock fs1 blk (fb_data blk) kWriteBlock_None = Some (e, fs') /\ same_data fs fs'.
Proof.
  intros [Hok _ _ _ _ _ _ Hlba _ Hzero _ Hread Hro _ _] Hf. unfold SfsFile_UnmapBlock.
  destruct (Hro eq_refl) as [-> Hsd]. specialize (Hlba eq_refl). rewrite (same_data_ptr fs fs1) in Hlba by done.
  destruct (Hzero eq_refl) as [[-> Hnz]|(-> & _ & _)]; [|by eexists _, _].
  rewrite (Hread eq_refl ltac:(by left)). unfold file_block. rewrite <- Hlba. destruct (Z.eqb_spec (fb_lba blk) 0); [done|].
  pose proof Hsd as (_ & Hp & Hd & Hu). rewrite <- Hd. destruct (fs_unmap fs1 _ _ _) as [e fs'] eqn:Eu.
  exists e, fs'. split; [done|]. destruct (fs_unmap_none _ _ _ _ Hok Eu) as (? & Hp' & Hd' & Hu').
  split_and!; [done|by eapply same_params_trans|intros l; by rewrite Hd', Hd|intros x; by rewrite Hu', Hu].
Qed.

(** ** Trimming *)

(** [fs'] is [fs] with the blocks in [F] freed. *)
Record freed fs (F : Z -> Prop) fs' : Prop := {
  fr_ok : fs_ok fs';
  fr_par : same_params fs fs';
  fr_cont : fs_container fs' = fs_container fs;
  fr_used : forall x, used fs' x <-> used fs x /\ ~ F x;
}.

Lemma freed_none fs F : fs_ok fs -> (forall x, ~ F x) -> freed fs F fs.
Proof. intros Hok Hn. constructor; [done|apply same_params_refl|done|naive_solver]. Qed.

Lemma freed_one fs p :
  fs_ok fs -> 0 < p < volumeBlockCount (blockAllocator fs) ->
  exists a, SfsAllocator_Deallocate (blockAllocator fs) p = Some a /\ freed fs (eq p) (with_allocator fs a).
Proof.
  intros Hok Hp. destruct (deallocate_spec (C := C) (blockAllocator fs) p (fo_alloc _ Hok) Hp) as (a & Ha & Hoka & Hlay & Hsync & Hin).
  exists a. split; [done|]. constructor; [by apply fs_ok_allocator|by apply same_params_alloc|done|].
  intros x. unfold used. cbn. destruct Hlay as (_ & _ & _ & _ & ->). split.
  - intros [Hx Hu]. rewrite Hin in Hu by lia. case_decide; [done|]. split; [done|congruence].
  - intros [[Hx Hu] Hne]. split; [done|]. rewrite Hin by lia. case_decide; [congruence|done].
Qed.

Lemma freed_trans fs F fs1 G fs2 :
  freed fs F fs1 -> freed fs1 G fs2 -> freed fs (fun x => F x \/ G x) fs2.
Proof.
  intros [_ Hp1 Hd1 Hu1] [Hok Hp2 Hd2 Hu2]. constructor; [done|by eapply same_params_trans|congruence|].
  intros x. rewrite Hu2, Hu1. naive_solver.
Qed.

Lemma freed_ext fs F G fs' : freed fs F fs' -> (forall x, 0 < x -> F x <-> G x) -> freed fs G fs'.
Proof.
  intros [Hok Hp Hd Hu] HFG. constructor; try done. intros x. rewrite Hu.
  split; intros [Hx Hn]; (split; [done|]); intros Hf; apply Hn, HFG; try done; apply Hx.
Qed.

Lemma freed_vbc fs F fs' : freed fs F fs' -> volumeBlockCount (blockAllocator fs') = volumeBlockCount (blockAllocator fs).
Proof. intros [_ (_ & _ & _ & _ & (_ & _ & _ & _ & ?)) _ _]. done. Qed.

(** The blocks of the direct pointers from [bn] on. *)
Definition direct_from (dir : list Z) (bn x : Z) : Prop := exists k, bn <= k < 110 /\ arr_get 0 dir k = x.

Lemma trim_direct_spec n bn fs dir did :
  fs_ok fs -> 0 <= bn -> bn + Z.of_nat n = 110 -> length dir = 110%nat ->
  (forall k, 0 <= k < 110 -> 0 <= arr_get 0 dir k < volumeBlockCount (blockAllocator fs)) ->
  exists fs' dir' did', trim_direct n bn fs dir did = Some (fs', dir', did') /\
    freed fs (direct_from dir bn) fs' /\ length dir' = 110%nat /\
    (forall k, 0 <= k < 110 -> arr_get 0 dir' k = if decide (k < bn) then arr_get 0 dir k else 0).
Proof.
  revert bn fs dir did. induction n as [|n IH]; intros bn fs dir did Hok Hb Hn Hlen Hp; cbn [trim_direct].
  { eexists _, _, _. split; [done|]. split_and!; [apply freed_none; [done|intros x (k & ? & _); lia]|done|].
    intros k Hk. case_decide; [done|lia]. }
  rewrite (bind_some (arr_get_Some 0 dir bn ltac:(lia))).
  pose proof (Hp bn ltac:(lia)) as Hpb. destruct (Z.ltb_spec 0 (arr_get 0 dir bn)) as [Hpos|Hz].
  - destruct (freed_one fs (arr_get 0 dir bn) Hok ltac:(lia)) as (a & Ha & Hfr). rewrite (bind_some Ha).
    assert (Hset : forall k, 0 <= k < 110 -> arr_get 0 (<[Z.to_nat bn := 0]> dir) k = if decide (k = bn) then 0 else arr_get 0 dir k).
    { intros k Hk. change (<[Z.to_nat bn := 0]> dir) with (arr_set dir bn 0). case_decide as E;
        [subst; apply arr_get_set_eq; lia|apply arr_get_set_ne; lia]. }
    destruct (IH (bn + 1) (with_allocator fs a) (<[Z.to_nat bn := 0]> dir) true) as (fs' & dir' & did' & -> & Hfr' & Hlen' & Hd');
      [apply Hfr|lia|lia|by rewrite length_insert|rewrite (freed_vbc _ _ _ Hfr); intros k Hk; rewrite Hset by done; case_decide; [destruct Hok as [[]]; lia|auto]|].
    eexists _, _, _. split; [done|]. split_and!; [|done|].
    + eapply freed_ext; [by eapply freed_trans|]. intros x Hx. split.
      * intros [<-|(k & Hk & <-)]; [exists bn; split; [lia|done]|exists k]. split; [lia|]. rewrite Hset by lia. case_decide; [lia|done].
      * intros (k & Hk & <-). destruct (decide (k = bn)) as [->|]; [by left|right]. exists k. split; [lia|].
        rewrite Hset by lia. by case_decide.
    + intros k Hk. rewrite Hd', Hset by lia. repeat case_decide; try lia; done.
  - destruct (IH (bn + 1) fs dir did) as (fs' & dir' & did' & -> & Hfr' & Hlen' & Hd'); [done|lia|lia|done|done|].
    eexists _, _, _. split; [done|]. split_and!; [|done|].
    + eapply freed_ext; [done|]. intros x Hx. split.
      * intros (k & Hk & <-). exists k. split; [lia|done].
      * intros (k & Hk & <-). exists k. split; [|done]. destruct (decide (k = bn)) as [->|]; lia.
    + intros k Hk. rewrite Hd' by lia. repeat case_decide; try lia; try done. assert (k = bn) as -> by lia. lia.
Qed.

(** The blocks of the pointers from [bn] on of an indirect block. *)
Definition indirect_from (n : Z) (i0 : list Z) (bn x : Z) : Prop :=
  exists k, bn <= k < n /\ load32 (Z.to_nat (4 * k)) i0 = x.

Lemma trim_indirect_spec n bn update fs i0 did :
  let N := Z.of_nat fsc_blockSize / 4 in
  fs_ok fs -> 0 <= bn -> bn + Z.of_nat n = N -> is_block i0 ->
  (forall k, 0 <= k < N -> 0 <= load32 (Z.to_nat (4 * k)) i0 < volumeBlockCount (blockAllocator fs)) ->
  exists fs' i0' did', trim_indirect n bn update fs i0 did = Some (fs', i0', did') /\
    freed fs (indirect_from N i0 bn) fs' /\ is_block i0' /\ (update = false -> i0' = i0) /\
    (forall k, 0 <= k < N -> load32 (Z.to_nat (4 * k)) i0' =
       if decide (update = true /\ bn <= k) then 0 else load32 (Z.to_nat (4 * k)) i0).
Proof.
  intros N. assert (HN : 4 * N <= Z.of_nat fsc_blockSize) by apply (Z.mul_div_le (Z.of_nat fsc_blockSize) 4 ltac:(lia)).
  clearbody N. revert bn fs i0 did. induction n as [|n IH]; intros bn fs i0 did Hok Hb Hn Hblk Hp; cbn [trim_indirect].
  { eexists _, _, _. split; [done|]. split_and!; [apply freed_none; [done|intros x (k & ? & _); lia]|done|done|].
    intros k Hk. case_decide; [lia|done]. }
  pose proof (Hp bn ltac:(lia)) as Hpb. destruct (Z.ltb_spec 0 (load32 (Z.to_nat (4 * bn)) i0)) as [Hpos|Hz].
  - destruct (freed_one fs _ Hok ltac:(split; [exact Hpos|lia])) as (a & Ha & Hfr). rewrite (bind_some Ha).
    set (i1 := if update then store32 (Z.to_nat (4 * bn)) 0 i0 else i0). destruct Hblk as [Hl Hbytes].
    assert (Hblk1 : is_block i1).
    { unfold i1. destruct update; [|done]. split; [rewrite length_store; lia|by apply Forall_store]. }
    assert (Hset : forall k, 0 <= k < N -> load32 (Z.to_nat (4 * k)) i1 =
      if decide (update = true /\ k = bn) then 0 else load32 (Z.to_nat (4 * k)) i0).
    { intros k Hk. unfold i1. destruct update; [|by case_decide].
      destruct (decide (k = bn)) as [->|E].
      - rewrite decide_True by done. apply load_store_same; lia.
      - rewrite decide_False by naive_solver. apply load_store_other; lia. }
    assert (Hi1 : update = false -> i1 = i0) by (unfold i1; by intros ->). clearbody i1.
    destruct (IH (bn + 1) (with_allocator fs a) i1 true) as (fs' & i0' & did' & -> & Hfr' & Hblk' & Hupd & Hd');
      [apply Hfr|lia|lia|done|rewrite (freed_vbc _ _ _ Hfr); intros k Hk; rewrite Hset by done; destruct (decide _); [destruct (fo_alloc _ Hok); lia|auto]|].
    eexists _, _, _. split; [done|]. split_and!; [|done| |].
    + eapply freed_ext; [by eapply freed_trans|]. intros x Hx. split.
      * intros [<-|(k & Hk & <-)]; [exists bn; split; [lia|done]|exists k]. split; [lia|]. rewrite Hset by lia. rewrite decide_False by lia. done.
      * intros (k & Hk & <-). destruct (decide (k = bn)) as [->|]; [by left|right]. exists k. split; [lia|].
        rewrite Hset by lia. by rewrite decide_False by lia.
    + intros Hu. rewrite Hupd by done. auto.
    + intros k Hk. rewrite Hd', Hset by lia. destruct update; cycle 1.
      { by rewrite !decide_False by (by intros [? _]). }
      destruct (decide (true = true /\ bn + 1 <= k)), (decide (true = true /\ k = bn)), (decide (true = true /\ bn <= k)); lia.
  - destruct (IH (bn + 1) fs i0 did) as (fs' & i0' & did' & -> & Hfr' & Hblk' & Hupd & Hd'); [done|lia|lia|done|done|].
    eexists _, _, _. split; [done|]. split_and!; [|done|done|].
    + eapply freed_ext; [done|]. intros x Hx. split.
      * intros (k & Hk & <-). exists k. split; [lia|done].
      * intros (k & Hk & <-). exists k. split; [|done]. destruct (decide (k = bn)) as [->|]; lia.
    + intros k Hk. rewrite Hd' by lia. destruct update; cycle 1.
      { by rewrite !decide_False by (by intros [? _]). }
      destruct (decide (k = bn)) as [->|]; [destruct (decide _), (decide _); lia|].
      destruct (decide (true = true /\ bn + 1 <= k)), (decide (true = true /\ bn <= k)); lia.
Qed.

Notation bs := (Z.of_nat fsc_blockSize).

Lemma bs_range fs : fs_ok fs -> 4 <= bs <= 65536 /\ 1 <= indirectBlockEntryCount fs <= 16384.
Proof.
  intros Hok. destruct (fo_shift _ Hok) as [Hs Hbs]. rewrite (fo_ient _ Hok).
  pose proof (Z.pow_le_mono_r 2 2 (blockShift fs)). pose proof (Z.pow_le_mono_r 2 (blockShift fs) 16).
  assert (4 <= bs <= 65536) by lia. split; [done|]. split; [apply Z.div_le_lower_bound; lia|apply Z.div_le_upper_bound; lia].
Qed.

Lemma convert_offset fs off :
  fs_ok fs -> 0 <= off < 2 ^ 32 * bs -> SfsFile_ConvertOffset fs off = (off / bs, off mod bs).
Proof.
  intros Hok Hoff. destruct (bs_range fs Hok) as [Hbs _]. destruct (fo_shift _ Hok) as [Hs Hpow]. unfold SfsFile_ConvertOffset.
  rewrite Z.shiftr_div_pow2, <- Hpow by lia. rewrite u32_small by (split; [apply Z.div_pos; lia|apply Z.div_lt_upper_bound; lia]).
  rewrite (fo_mask _ Hok), Hpow. replace (2 ^ blockShift fs - 1) with (Z.ones (blockShift fs)) by (rewrite Z.ones_equiv; lia).
  rewrite Z.land_ones, <- Hpow by lia. f_equal. apply s32_small. pose proof (Z.mod_pos_bound off bs). lia.
Qed.

(** The first block that a file of [len] bytes does not need. *)
Definition first_unneeded (len : Z) : Z := if 0 <? len mod bs then len / bs + 1 else len / bs.

Lemma first_unneeded_range fs len :
  fs_ok fs -> 0 <= len <= max_fba fs * bs -> 0 <= first_unneeded len <= max_fba fs.
Proof.
  intros Hok Hl. destruct (bs_range fs Hok) as [Hbs _]. unfold first_unneeded. pose proof (Z.div_pos len bs).
  pose proof (Z.div_mod len bs). pose proof (Z.mod_pos_bound len bs). destruct (Z.ltb_spec 0 (len mod bs)); nia.
Qed.

(** [b] is a block behind the new end, with the disk block [x]. *)
Definition cut fs bm (first x : Z) : Prop := exists b, valid_fba fs b /\ first <= b /\ ptr fs bm b = x.

Record trim_post fs bm R (first : Z) fs' bm' : Prop := {
  tp_ok : fs_ok fs';
  tp_par : same_params fs fs';
  tp_file : file_ok fs' bm' R;
  tp_ptr : forall b, valid_fba fs b -> ptr fs' bm' b = if decide (b < first) then ptr fs bm b else 0;
  tp_used : forall x, used fs' x <-> used fs x /\ ~ cut fs bm first x;
  tp_data : forall l, l <> indirect bm -> fdata fs' l = fdata fs l;
  tp_ind : indirect bm' = if decide (first <= 110) then 0 else indirect bm;
}.

(** A file with fewer blocks is well formed again. *)
Lemma trim_file_ok fs bm R first fs' bm' :
  file_ok fs bm R -> same_params fs fs' -> length (direct bm') = 110%nat ->
  (forall b, valid_fba fs b -> ptr fs' bm' b = if decide (b < first) then ptr fs bm b else 0) ->
  (forall x, used fs' x <-> used fs x /\ ~ cut fs bm first x) ->
  indirect bm' = 0 \/ indirect bm' = indirect bm -> file_ok fs' bm' R.
Proof.
  intros Hf Hp Hlen Hptr Hu Hind. pose proof Hf as [_ Fptr Find Finj Fres Fbm].
  assert (Hkeep : forall x, used fs x -> R x \/ x = indirect bm -> used fs' x).
  { intros x Hx Hcase. apply Hu. split; [done|]. intros (b & Hb & _ & Eb).
    destruct (Fptr b Hb) as [E0|(_ & HnR & Hni)]; [destruct Hx; lia|]. rewrite Eb in HnR, Hni. tauto. }
  constructor; [done| | | | |].
  - intros b Hb. rewrite (valid_fba_params fs fs') in Hb by done. rewrite Hptr by done. case_decide as Hlt; [|by left].
    destruct (Fptr b Hb) as [|(Hub & HnR & Hni)]; [by left|]. destruct (decide (ptr fs bm b = 0)); [by left|]. right. split_and!; [|done|].
    + apply Hu. split; [done|]. intros (b' & Hb' & Hge & E). symmetry in E. apply Finj in E; [lia|done|done|done].
    + destruct Hind as [->| ->]; [destruct Hub; lia|done].
  - destruct Hind as [->| ->]; [by left|]. destruct Find as [|[Hiu HiR]]; [by left|right]. split; [apply Hkeep; auto|done].
  - intros a b Ha Hb. rewrite (valid_fba_params fs fs') in Ha, Hb by done. rewrite !Hptr by done.
    repeat case_decide; try done; by apply Finj.
  - intros x Hx. destruct (Fres x Hx); [by left|right]. apply Hkeep; auto.
  - rewrite (used_params fs fs') by done. destruct Fbm. split; [done|]. apply Hkeep; auto.
Qed.

Lemma ptr_direct fs bm b : b < 110 -> ptr fs bm b = arr_get 0 (direct bm) b.
Proof. intros Hb. unfold ptr, kSFSDirectBlockPointersCount. destruct (Z.ltb_spec b 110); [done|lia]. Qed.

Lemma ptr_no_indirect fs bm b : 110 <= b -> indirect bm = 0 -> ptr fs bm b = 0.
Proof. intros Hb Hi. unfold ptr, kSFSDirectBlockPointersCount. destruct (Z.ltb_spec b 110); [lia|by rewrite Hi]. Qed.

Lemma max_fba_eq fs : fs_ok fs -> max_fba fs = 110 + bs / 4.
Proof. intros Hok. unfold max_fba, kSFSDirectBlockPointersCount. by rewrite (fo_ient _ Hok). Qed.

Lemma trim_direct_total first fs bm R :
  fs_ok fs -> file_ok fs bm R -> 0 <= first ->
  exists fs' dir' did', trim_direct (Z.to_nat (110 - first)) first fs (direct bm) false = Some (fs', dir', did') /\
    freed fs (direct_from (direct bm) first) fs' /\ length dir' = 110%nat /\
    (forall k, 0 <= k < 110 -> arr_get 0 dir' k = if decide (k < first) then arr_get 0 (direct bm) k else 0).
Proof.
  intros Hok Hf H0. destruct (decide (first <= 110)).
  - apply trim_direct_spec; [done|done|lia|apply Hf|]. intros k Hk. rewrite <- (ptr_direct fs) by lia.
    destruct (fi_ptr _ _ _ Hf k (valid_fba_direct fs k Hk Hok)) as [->|[[? _] _]]; [destruct (fo_alloc _ Hok)|]; lia.
  - replace (Z.to_nat (110 - first)) with O by lia. eexists _, _, _. split; [done|].
    split_and!; [apply freed_none; [done|intros x (k & ? & _); lia]|apply Hf|]. intros k Hk. case_decide; [done|lia].
Qed.

Lemma cut_split fs bm first x :
  fs_ok fs -> 0 < x -> 0 <= first ->
  cut fs bm first x <-> direct_from (direct bm) first x \/
    (indirect bm <> 0 /\ indirect_from (bs / 4) (fdata fs (indirect bm)) (Z.max 0 (first - 110)) x).
Proof.
  intros Hok Hx Hf. pose proof (max_fba_eq fs Hok) as Hm. split.
  - intros (b & [Hb1 Hb2] & Hge & E). destruct (decide (b < 110)).
    + left. exists b. split; [lia|]. by rewrite <- (ptr_direct fs) by lia.
    + right. destruct (decide (indirect bm = 0)) as [Hi|Hi]; [rewrite (ptr_no_indirect fs bm b) in E by (done || lia); lia|].
      split; [done|]. exists (b - 110). split; [lia|]. rewrite <- E. symmetry. apply ptr_indirect; [done|done|lia].
  - intros [(k & Hk & E)|(Hi & k & Hk & E)].
    + exists k. split; [apply valid_fba_direct; [lia|done]|]. split; [lia|]. by rewrite ptr_direct by lia.
    + exists (k + 110). split; [unfold valid_fba; lia|]. split; [lia|].
      rewrite (ptr_indirect fs bm (fdata fs (indirect bm))) by (done || lia). by replace (k + 110 - 110) with k by lia.
Qed.

(** The indirect block, if there is one, can be mapped. *)
Definition readable fs (l : Z) : Prop :=
  l <> 0 -> forall m, exists d c', FSContainer_MapBlock l m (fs_container fs) = (EOK, d, c').

Lemma map_indirect fs1 l m :
  fs_ok fs1 -> l <> piece_lba (blockAllocator fs1) 0 -> m = kMapBlock_ReadOnly \/ m = kMapBlock_Update ->
  (exists d c', FSContainer_MapBlock l m (fs_container fs1) = (EOK, d, c')) ->
  exists fs2, fs_map fs1 l m = (EOK, fdata fs1 l, fs2) /\ same_data fs1 fs2.
Proof.
  intros Hok Hne Hm (d & c' & E). unfold fs_map. rewrite E.
  destruct (fsc_map_ok _ _ _ _ _ (fo_cont _ Hok) E) as (Hc' & _ & Ho & Hr & _). destruct (Hr Hm) as [-> Hk].
  eexists. split; [done|]. split_and!; [apply fs_ok_container; [done|done|by apply Ho]|done| |done].
  intros x. unfold fdata. cbn. destruct (decide (x = l)) as [->|]; [done|by apply Ho].
Qed.

(** The pointers of a trimmed file whose direct pointers are [dir'] and whose
    indirect block, if it still has one, is [i0']. *)
Lemma trimmed_ptr fs bm fs' dir' L first :
  fs_ok fs -> (forall k, 0 <= k < 110 -> arr_get 0 dir' k = if decide (k < first) then arr_get 0 (direct bm) k else 0) ->
  (first <= 110 /\ L = 0 \/ L = indirect bm /\ (L = 0 \/ forall k, 0 <= k < bs / 4 ->
     load32 (Z.to_nat (4 * k)) (fdata fs' L) =
       if decide (Z.max 0 (first - 110) <= k) then 0 else load32 (Z.to_nat (4 * k)) (fdata fs (indirect bm)))) ->
  forall b, valid_fba fs b -> ptr fs' (Bmap L dir') b = if decide (b < first) then ptr fs bm b else 0.
Proof.
  intros Hok Hdir HL b [Hb1 Hb2]. rewrite (max_fba_eq fs Hok) in Hb2. destruct (decide (b < 110)).
  { rewrite !ptr_direct by lia. apply Hdir. lia. }
  destruct HL as [[Hfirst ->]|[-> HL]]; [rewrite ptr_no_indirect by (done || lia); rewrite decide_False by lia; done|].
  destruct (decide (indirect bm = 0)) as [Hi|Hi].
  { rewrite !ptr_no_indirect by (done || lia). by case_decide. }
  destruct HL as [|HL]; [done|]. rewrite (ptr_indirect _ _ (fdata fs' (indirect bm))) by (done || lia).
  rewrite HL, (ptr_indirect fs bm (fdata fs (indirect bm))) by (done || lia). repeat case_decide; try lia; done.
Qed.

Lemma trim_i0_spec fs bm R fs1 dir' first did :
  fs_ok fs -> file_ok fs bm R -> 0 <= first <= max_fba fs -> readable fs (indirect bm) -> indirect bm <> 0 ->
  freed fs (direct_from (direct bm) first) fs1 -> length dir' = 110%nat ->
  (forall k, 0 <= k < 110 -> arr_get 0 dir' k = if decide (k < first) then arr_get 0 (direct bm) k else 0) ->
  exists did' fs' bm', trim_i0 fs1 (Bmap (indirect bm) dir') first did = Some (did', fs', bm') /\ trim_post fs bm R first fs' bm'.
Proof.
  intros Hok Hf Hfirst Hread Hi [Hok1 Hp1 Hc1 Hu1] Hlen' Hdir. pose proof (max_fba_eq fs Hok) as Hmax. pose proof (Z.div_pos bs 4).
  assert (Hd1 : forall l, fdata fs1 l = fdata fs l) by (intros l; unfold fdata; by rewrite Hc1).
  destruct (fi_ind _ _ _ Hf) as [|[Hiu HiR]]; [lia|].
  assert (Hine : indirect bm <> piece_lba (blockAllocator fs) 0) by (intros E; rewrite E in HiR; by destruct (fi_bitmap _ _ _ Hf)).
  unfold trim_i0, kSFSDirectBlockPointersCount. cbn [indirect direct].
  destruct (Z.ltb_spec 0 (indirect bm)) as [_|]; [|destruct Hiu; lia].
  assert ((if first <? 110 then 0 else first - 110) = Z.max 0 (first - 110)) as -> by (destruct (Z.ltb_spec first 110); lia).
  remember (Z.max 0 (first - 110)) as first_i0 eqn:Hf0.
  destruct (map_indirect fs1 (indirect bm) (if 0 <? first_i0 then kMapBlock_Update else kMapBlock_ReadOnly)) as (fs2 & Hm & Hsd);
    [done|by rewrite (used_params fs fs1)|destruct (0 <? first_i0); auto|rewrite Hc1; apply Hread; lia|].
  rewrite Hm, Hd1. cbn [is_ok]. pose proof Hsd as (Hok2 & Hp2 & Hd2 & Hu2).
  assert (Hp02 : same_params fs fs2) by (by eapply same_params_trans).
  destruct (trim_indirect_spec (Z.to_nat (bs / 4 - first_i0)) first_i0 (0 <? first_i0) fs2 (fdata fs (indirect bm)) did)
    as (fs3 & i0' & did' & Ht & [Hok3 Hp3 Hc3 Hu3] & Hblk' & Hsame & Hload); [done|lia|lia|apply fsc_data_block, Hok| |].
  { intros k Hk. assert (volumeBlockCount (blockAllocator fs2) = volumeBlockCount (blockAllocator fs)) as -> by apply Hp02.
    pose proof (fi_ptr _ _ _ Hf (k + 110) ltac:(unfold valid_fba; lia)) as Hk'.
    rewrite (ptr_indirect fs bm (fdata fs (indirect bm))) in Hk' by (done || lia).
    replace (k + 110 - 110) with k in Hk' by lia. destruct Hk' as [->|[[? _] _]]; [destruct (fo_alloc _ Hok); lia|lia]. }
  rewrite (fo_ient _ Hok2), (bind_some Ht). assert (Hp03 : same_params fs fs3) by (by eapply same_params_trans).
  assert (Hd3 : forall l, fdata fs3 l = fdata fs l) by (intros l; unfold fdata at 1; rewrite Hc3; fold (fdata fs2 l); by rewrite Hd2).
  assert (Hu : forall x, used fs3 x <-> used fs x /\ ~ cut fs bm first x).
  { intros x. rewrite Hu3, Hu2, Hu1. split.
    - intros [[Hx H1] H2]. split; [done|]. rewrite cut_split by (done || lia || apply Hx). rewrite <- Hf0. tauto.
    - intros [Hx Hn]. rewrite cut_split in Hn by (done || lia || apply Hx). rewrite <- Hf0 in Hn. tauto. }
  destruct (Z.ltb_spec 0 first_i0) as [Hupd|Hupd].
  - destruct (fs_unmap fs3 _ i0' _) as [e4 fs4] eqn:Eu. eexists _, _, _. split; [done|].
    destruct (fs_unmap_write _ _ _ _ _ Hok3 Hblk' ltac:(by rewrite (used_params fs fs3)) Eu) as (_ & Hok4 & Hp4 & Hw & Ho & Hu4).
    assert (Hptr : forall b, valid_fba fs b -> ptr fs4 (Bmap (indirect bm) dir') b = if decide (b < first) then ptr fs bm b else 0).
    { apply trimmed_ptr; [done|done|]. right. split; [done|right]. intros k Hk. rewrite Hw, Hload, <- Hf0 by done.
      destruct (decide (first_i0 <= k)); [rewrite decide_True by auto|rewrite decide_False by (by intros [])]; done. }
    assert (Hu' : forall x, used fs4 x <-> used fs x /\ ~ cut fs bm first x) by (intros x; by rewrite Hu4).
    assert (Hp04 : same_params fs fs4) by (by eapply same_params_trans).
    constructor; try done; [by eapply trim_file_ok; eauto|intros l Hl; by rewrite Ho|]. cbn. rewrite decide_False by lia. done.
  - rewrite (Hsame eq_refl), <- (Hd3 (indirect bm)). destruct (fs_unmap fs3 _ _ _) as [e4 fs4] eqn:Eu. eexists _, _, _. split; [done|].
    destruct (fs_unmap_none _ _ _ _ Hok3 Eu) as (Hok4 & Hp4 & Hd4 & Hu4).
    assert (Hptr : forall b, valid_fba fs b -> ptr fs4 (Bmap 0 dir') b = if decide (b < first) then ptr fs bm b else 0).
    { apply trimmed_ptr; [done|done|]. left. split; [lia|done]. }
    assert (Hu' : forall x, used fs4 x <-> used fs x /\ ~ cut fs bm first x) by (intros x; by rewrite Hu4).
    assert (Hp04 : same_params fs fs4) by (by eapply same_params_trans).
    constructor; try done; [by eapply trim_file_ok; eauto|intros l Hl; by rewrite Hd4|]. cbn. rewrite decide_True by lia. done.
Qed.

Lemma trim_spec fs bm R len :
  fs_ok fs -> file_ok fs bm R -> 0 <= len <= max_fba fs * bs -> readable fs (indirect bm) ->
  exists did fs' bm', SfsFile_Trim fs bm len = Some (did, fs', bm') /\ trim_post fs bm R (first_unneeded len) fs' bm'.
Proof.
  intros Hok Hf Hlen Hread. pose proof (first_unneeded_range fs len Hok Hlen) as Hfirst.
  destruct (bs_range fs Hok) as [Hbs HN]. pose proof (max_fba_eq fs Hok) as Hmax. rewrite (fo_ient _ Hok) in HN.
  unfold SfsFile_Trim. rewrite convert_offset by (done || nia).
  assert ((if 0 <? len mod bs then u32 (len / bs + 1) else len / bs) = first_unneeded len) as ->.
  { unfold first_unneeded in *. destruct (0 <? len mod bs); [apply u32_small; lia|done]. }
  remember (first_unneeded len) as first eqn:Efirst. unfold kSFSDirectBlockPointersCount.
  destruct (trim_direct_total first fs bm R Hok Hf ltac:(lia)) as (fs1 & dir' & did & Hd & Hfr & Hlen' & Hdir).
  rewrite (bind_some Hd). destruct (decide (indirect bm = 0)) as [Hi0|Hi0]; [|by eapply trim_i0_spec; eauto].
  pose proof Hfr as [Hok1 Hp1 Hc1 Hu1].
  assert (Hd1 : forall l, fdata fs1 l = fdata fs l) by (intros l; unfold fdata; by rewrite Hc1).
  assert (Hptr : forall b, valid_fba fs b -> ptr fs1 (Bmap (indirect bm) dir') b = if decide (b < first) then ptr fs bm b else 0).
  { apply trimmed_ptr; [done|done|]. right. split; [done|by left]. }
  assert (Hu : forall x, used fs1 x <-> used fs x /\ ~ cut fs bm first x).
  { apply (freed_ext _ _ _ _ Hfr). intros x Hx. rewrite cut_split by (done || lia). split; [auto|intros [|[]]; done]. }
  exists did, fs1, (Bmap (indirect bm) dir'). split.
  - unfold trim_i0. cbn [indirect]. destruct (Z.ltb_spec 0 (indirect bm)); [lia|done].
  - constructor; try done; [by eapply trim_file_ok; eauto|]. cbn. by case_decide.
Qed.
End FileSpecs.

(** ** A small volume

    Blocks of 4 bytes; block 1 is the bitmap, block 2 an inode, blocks 3 to 5
    belong to a file with one direct block and one block behind the indirect
    block. *)

#[local] Instance demo_container : FSContainer memdisk := mem_container 4.
#[local] Instance demo_container_spec : FSContainerSpec memdisk := mem_container_spec 4.

Definition demo_volume (extra : gmap Z (list Z)) (bits : list Z) : SerenaFS memdisk :=
  SFS (MD (extra ∪ list_to_map [(1, bits); (3, [7; 7; 7; 7]); (4, [0; 0; 0; 5]); (5, [9; 8; 7; 6])]) ∅)
    (SA bits 4 1 1 [0] 4 32) 4 2 3 1.
Definition demo_bmap : sfs_bmap := Bmap 4 (3 :: replicate 109 0).
Definition demo_reserved (l : Z) : Prop := l = 0 \/ l = 1 \/ l = 2.

Lemma demo_direct i b :
  0 <= b < 110 -> arr_get 0 (i :: replicate 109 0) b = if decide (b = 0) then i else 0.
Proof.
  intros Hb. unfold arr_get. destruct (decide (b = 0)) as [->|]; [done|].
  destruct (Z.to_nat b) as [|m] eqn:E; [lia|]. change ((i :: replicate 109 0) !! S m) with (replicate 109 0 !! m). by rewrite lookup_replicate_2 by lia.
Qed.

Lemma bytes_ok l : forallb (fun b => (0 <=? b) && (b <? 256)) l = true -> Forall is_byte l.
Proof.
  induction l as [|b l IH]; [constructor|]. cbn. intros [Hb Hl]%andb_prop. constructor; [unfold is_byte; lia|auto].
Qed.

Lemma demo_volume_ok extra bits :
  md_ok 4 (MD extra ∅) -> length bits = 4%nat -> Forall is_byte bits -> extra !! 1 = None ->
  fs_ok (demo_volume extra bits).
Proof.
  intros He Hl Hb H1. constructor; cbn; try done.
  - constructor; cbn; try done; try lia. by apply bytes_ok.
  - apply map_Forall_union_2; [done|]. repeat (apply map_Forall_insert_2; [split; [done|]; try done; by apply bytes_ok|]). apply map_Forall_empty.
  - intros i Hi. cbn in Hi. right. assert (i = 0) as -> by lia. unfold on_disk, piece, piece_lba, slice. cbn [bitmap sa_blockSize bitmapLba].
    change (fsc_data _ _) with (default (replicate 4 0) ((extra ∪ list_to_map [(1, bits); (3, [7; 7; 7; 7]); (4, [0; 0; 0; 5]); (5, [9; 8; 7; 6])]) !! 1)).
    rewrite lookup_union_r by done. cbn [list_to_map foldr]. change (u32 (1 + 0)) with 1. cbn. rewrite lookup_insert_eq. cbn.
    destruct bits as [|? [|? [|? [|? [|]]]]]; done.
Qed.

Lemma demo_ptr (fs : SerenaFS memdisk) bm i b :
  direct bm = i :: replicate 109 0 -> indirectBlockEntryCount fs = 1 ->
  valid_fba fs b ->
  ptr fs bm b =
    if decide (b = 0) then i else if decide (b = 110) then ptr fs bm 110 else 0.
Proof.
  intros Hd HN [Hb1 Hb2]. unfold max_fba, kSFSDirectBlockPointersCount in Hb2. rewrite HN in Hb2.
  destruct (decide (b < 110)); [|assert (b = 110) as -> by lia; done].
  rewrite ptr_direct, Hd, demo_direct by lia. repeat case_decide; lia || done.
Qed.

Lemma demo_file_ok extra i l0 p :
  let fs := demo_volume extra [0xfc; 0; 0; 0] in
  ptr fs (Bmap l0 (i :: replicate 109 0)) 110 = p ->
  (i = 3 /\ (l0 = 4 /\ p = 5 \/ l0 = 0 /\ p = 0)) ->
  file_ok fs (Bmap l0 (i :: replicate 109 0)) demo_reserved.
Proof.
  intros fs Hp (-> & Hl).
  assert (Hu : forall x, 1 <= x <= 5 -> used fs x).
  { intros x Hx. split; [cbn; lia|]. assert (x = 1 \/ x = 2 \/ x = 3 \/ x = 4 \/ x = 5) as [-> | [-> | [-> | [-> | ->]]]] by lia; done. }
  assert (Hptr : forall b, valid_fba fs b -> ptr fs (Bmap l0 (3 :: replicate 109 0)) b = if decide (b = 0) then 3 else if decide (b = 110) then p else 0).
  { intros b Hb. rewrite (demo_ptr fs (Bmap l0 (3 :: replicate 109 0)) 3 b) by done. by rewrite Hp. }
  constructor; cbn [indirect direct].
  - cbn [length]. by rewrite length_replicate.
  - intros b Hb. rewrite Hptr by done. unfold demo_reserved. repeat case_decide; [right|destruct Hl as [[-> ->]|[-> ->]]; [right|left]|left]; try done.
    + split_and!; [apply Hu; lia|lia|lia].
    + split_and!; [apply Hu; lia|lia|lia].
  - unfold demo_reserved. destruct Hl as [[-> _]|[-> _]]; [right; split; [apply Hu|]; lia|by left].
  - intros a b Ha Hb. rewrite !Hptr by done. repeat case_decide; intros; subst; try lia; done.
  - intros x [-> | [-> | ->]]; [by left|right; apply Hu; lia|right; apply Hu; lia].
  - split; [right; left; reflexivity|apply Hu; vm_compute; split; congruence].
Qed.

(** ** Properties *)

(** C36. Trimming a file to a new length frees exactly the data blocks behind
    the new end and nothing else, keeps the content of the blocks before it, lets
    all blocks behind it read as holes, and leaves a well-formed file.  When all
    blocks behind the indirect block are cut the file forgets the indirect
    block, which stays allocated: it is lost. *)
Theorem trim_frees_exactly {C} {FC : FSContainer C} {FCS : FSContainerSpec C} (fs : SerenaFS C) (bm : sfs_bmap)
  (R : Z -> Prop) (len : Z) (Hok : fs_ok fs) (Hf : file_ok fs bm R)
  (Hlen : 0 <= len <= max_fba fs * Z.of_nat fsc_blockSize) (Hread : readable fs (indirect bm)) :
  let first := first_unneeded len in
  exists did fs' bm', SfsFile_Trim fs bm len = Some (did, fs', bm') /\ fs_ok fs' /\ file_ok fs' bm' R /\
    (forall b, valid_fba fs b -> file_block fs' bm' b = if decide (b < first) then file_block fs bm b else zero_block) /\
    (forall x, used fs' x <-> used fs x /\ ~ exists b, valid_fba fs b /\ first <= b /\ ptr fs bm b = x) /\
    (first <= 110 -> indirect bm' = 0 /\ (indirect bm <> 0 -> used fs' (indirect bm))).
Proof.
  intros first. destruct (trim_spec fs bm R len Hok Hf Hlen Hread) as (did & fs' & bm' & Ht & [Hok' Hp Hf' Hptr Hu Hd Hi]).
  fold first in Hptr, Hu, Hi. exists did, fs', bm'. split_and!; [done|done|done| |exact Hu|].
  - intros b Hb. unfold file_block. rewrite Hptr by done. destruct (decide (b < first)); [|done].
    destruct (fi_ptr _ _ _ Hf b Hb) as [->|(_ & _ & Hni)]; [done|]. by rewrite Hd.
  - intros Hfirst. rewrite Hi, decide_True by done. split; [done|]. intros Hnz. apply Hu.
    destruct (fi_ind _ _ _ Hf) as [|[Hiu _]]; [done|]. split; [done|]. intros (b & Hb & _ & E).
    destruct (fi_ptr _ _ _ Hf b Hb) as [E0|(_ & _ & Hni)]; congruence.
Qed.

Lemma trim_frees_exactly_witness :
  exists did fs' bm', SfsFile_Trim (demo_volume ∅ [0xfc; 0; 0; 0]) demo_bmap 3 = Some (did, fs', bm') /\
    bitmap (blockAllocator fs') = [0xf8; 0; 0; 0] /\ indirect bm' = 0 /\ used fs' 4.
Proof.
  destruct (trim_frees_exactly (demo_volume ∅ [0xfc; 0; 0; 0]) demo_bmap demo_reserved 3) as (did & fs' & bm' & H1 & _ & _ & _ & _ & H6).
  - apply demo_volume_ok; [apply map_Forall_empty|reflexivity|by apply bytes_ok|reflexivity].
  - apply (demo_file_ok ∅ 3 4 5); [reflexivity|]. split; [reflexivity|left; split; reflexivity].
  - vm_compute. split; congruence.
  - intros _ m. destruct m; eexists _, _; reflexivity.
  - exists did, fs', bm'. split; [exact H1|].
    assert (Hb : bitmap (blockAllocator fs') = [0xf8; 0; 0; 0]) by (vm_compute in H1; injection H1 as _ <- _; reflexivity).
    split; [exact Hb|]. destruct H6 as [H6 H7]; [vm_compute; congruence|]. split; [exact H6|]. apply H7. discriminate.
Defined.

(** Reading a hole behind the direct blocks of a file without an indirect
    block allocates the indirect block, but does not write its cleared content
    back.  On a container that keeps only what was written, the next read takes
    a stale word of the new block for a block pointer and returns the content of
    another block. *)
Theorem hole_read_exposes_stale :
  exists fs bm R, fs_ok fs /\ file_ok fs bm R /\ valid_fba fs 110 /\ file_block fs bm 110 = zero_block /\
  exists blk1 blk2 fs1 bm1 fs2 bm2 e fs1',
    SfsFile_MapBlock fs bm 110 kMapBlock_ReadOnly = Some (EOK, blk1, fs1, bm1) /\ fb_data blk1 = zero_block /\
    indirect bm1 <> indirect bm /\ SfsFile_UnmapBlock fs1 blk1 (fb_data blk1) kWriteBlock_None = Some (e, fs1') /\
    SfsFile_MapBlock fs1' bm1 110 kMapBlock_ReadOnly = Some (EOK, blk2, fs2, bm2) /\ fb_data blk2 = fdata fs 5 /\
    fdata fs 5 <> zero_block.
Proof.
  exists (demo_volume {[6 := [0; 0; 0; 5]]} [0xfc; 0; 0; 0]), (Bmap 0 (3 :: replicate 109 0)), demo_reserved.
  split; [apply demo_volume_ok; [by apply map_Forall_singleton; split; [done|by apply bytes_ok]|done|by apply bytes_ok|done]|].
  split; [apply (demo_file_ok {[6 := [0; 0; 0; 5]]} 3 0 0); [done|]; split; [done|right; done]|].
  split; [by vm_compute|]. split; [done|].
  eexists _, _, _, _, _, _, _, _. split; [vm_compute; reflexivity|]. split; [done|]. split; [done|].
  split; [vm_compute; reflexivity|]. split; [vm_compute; reflexivity|]. split; [vm_compute; reflexivity|]. by vm_compute.
Qed.
