(* ===== verification/SfsInode.v ===== *)
(** * Inodes of the Serena filesystem (SfsFile.c, SerenaFS_Inode.c, Inode.c)

    The in-memory inode, its on-disk form sfs_inode_t in the block with the
    number of the inode, reading it from disk and writing it back. *)

From S2P Require Import Prelude Bytes FSContainer SfsAllocator SfsFile.

Definition FS_FTYPE_REG : Z := 0.
Definition FS_FTYPE_DIR : Z := 1.
Definition kSFSInode_RegularFile : Z := 82.
Definition kSFSInode_Directory : Z := 68.
Definition kSFSSignature_Inode : Z := 0x6e6f6465.

Definition kInodeFlag_Updated : Z := 0x02.
Definition kInodeFlag_Accessed : Z := 0x04.
Definition kInodeFlag_StatusChanged : Z := 0x08.

(** The fields of the class Inode that a filesystem works with, and the block
    map that SfsFile adds; a time is its seconds and nanoseconds. *)
Record Inode := INode {
  inid : Z;
  pnid : Z;
  linkCount : Z;
  fileType : Z;
  permissions : Z;
  uid : Z;
  gid : Z;
  fsize : Z;
  accessTime : Z * Z;
  modificationTime : Z * Z;
  statusChangeTime : Z * Z;
  iflags : Z;
  bmap : sfs_bmap;
}.

Definition Inode_IsDirectory (self : Inode) : bool := fileType self =? FS_FTYPE_DIR.

Definition set_size (n : Z) (i : Inode) : Inode :=
  INode (inid i) (pnid i) (linkCount i) (fileType i) (permissions i) (uid i) (gid i) n
    (accessTime i) (modificationTime i) (statusChangeTime i) (iflags i) (bmap i).
Definition set_bmap (m : sfs_bmap) (i : Inode) : Inode :=
  INode (inid i) (pnid i) (linkCount i) (fileType i) (permissions i) (uid i) (gid i) (fsize i)
    (accessTime i) (modificationTime i) (statusChangeTime i) (iflags i) m.
Definition set_flags (f : Z) (i : Inode) : Inode :=
  INode (inid i) (pnid i) (linkCount i) (fileType i) (permissions i) (uid i) (gid i) (fsize i)
    (accessTime i) (modificationTime i) (statusChangeTime i) f (bmap i).
Definition set_links (n : Z) (i : Inode) : Inode :=
  INode (inid i) (pnid i) n (fileType i) (permissions i) (uid i) (gid i) (fsize i)
    (accessTime i) (modificationTime i) (statusChangeTime i) (iflags i) (bmap i).

Definition Inode_SetModified (f : Z) (i : Inode) : Inode := set_flags (Z.lor (iflags i) (Z.land f 0xe)) i.
Definition Inode_SetFileSize (n : Z) (i : Inode) : Inode := set_size n i.
Definition Inode_Link (i : Inode) : Inode := set_links (s32 (linkCount i + 1)) i.
Definition Inode_Unlink (i : Inode) : Inode := if 0 <? linkCount i then set_links (linkCount i - 1) i else i.

Definition SfsITypeFromFileType (ftype : Z) : Z :=
  if ftype =? FS_FTYPE_DIR then kSFSInode_Directory
  else if ftype =? FS_FTYPE_REG then kSFSInode_RegularFile else 0.
Definition SfsFileTypeFromIType (itype : Z) : option Z :=
  if itype =? kSFSInode_Directory then Some FS_FTYPE_DIR
  else if itype =? kSFSInode_RegularFile then Some FS_FTYPE_REG else None.

(** Offsets of the fields of sfs_inode_t. *)
Definition off_direct : nat := 64.

Definition store_time (off : nat) (t : Z * Z) (d : list Z) : list Z := store32 (off + 4) (snd t) (store32 off (fst t) d).
Definition load_time (off : nat) (d : list Z) : Z * Z := (s32 (load32 off d), s32 (load32 (off + 4) d)).

Definition flag_set (i : Inode) (f : Z) : bool := negb (Z.land (iflags i) f =? 0).

(** [now] is the current time. *)
Definition SfsFile_Serialize (now : Z * Z) (self : Inode) (d : list Z) : list Z :=
  let atp := if flag_set self kInodeFlag_Accessed then now else accessTime self in
  let mtp := if flag_set self kInodeFlag_Updated then now else modificationTime self in
  let ctp := if flag_set self kInodeFlag_StatusChanged then now else statusChangeTime self in
  let d := store 8 0 (fsize self) d in
  let d := store_time 8 atp d in
  let d := store_time 16 mtp d in
  let d := store_time 24 ctp d in
  let d := store32 40 kSFSSignature_Inode d in
  let d := store32 32 (inid self) d in
  let d := store32 36 (pnid self) d in
  let d := store32 44 (linkCount self) d in
  let d := store32 52 (uid self) d in
  let d := store32 56 (gid self) d in
  let d := store 2 48 (SfsITypeFromFileType (fileType self)) d in
  let d := store 2 50 (Z.land (permissions self) 0x1ff) d in
  let d := store32 60 (indirect (bmap self)) d in
  patch off_direct (be_array 4 (direct (bmap self))) d.

(** The inode [inid] from its on-disk form; [None] is the abort for an unknown
    type. *)
Definition SfsFile_Create (inid : Z) (d : list Z) : option Inode :=
  ft ← SfsFileTypeFromIType (load 2 48 d);
  Some (INode inid (load32 36 d) (s32 (load32 44 d)) ft (load 2 50 d) (load32 52 d) (load32 56 d)
    ((load 8 0 d + 2 ^ 63) mod 2 ^ 64 - 2 ^ 63)
    (load_time 8 d) (load_time 16 d) (load_time 24 d) 0
    (Bmap (load32 60 d) ((fun i => load32 (off_direct + 4 * i) d) <$> seq 0 110))).

Section Nodes.
Context {C} {FC : FSContainer C}.
(** Whether the allocation of an inode succeeds. *)
Variable inode_alloc_ok : bool.
Variable now : Z * Z.

Definition SerenaFS_onAcquireNode (fs : SerenaFS C) (id : Z) : option (errno * option Inode * SerenaFS C) :=
  let '(e, d, fs) := fs_map fs id kMapBlock_ReadOnly in
  if negb (is_ok e) then Some (e, None, fs)
  else
    '(e, node) ←
      (if negb (load32 40 d =? kSFSSignature_Inode) || negb (load32 32 d =? id) then Some (EIO, None)
       else if negb ((load 2 48 d =? kSFSInode_Directory) || (load 2 48 d =? kSFSInode_RegularFile)) then Some (EIO, None)
       else if inode_alloc_ok then node ← SfsFile_Create id d; Some (EOK, Some node)
       else Some (ENOMEM, None));
    let '(_, fs) := fs_unmap fs id d kWriteBlock_None in
    Some (e, node, fs).

Definition SerenaFS_onWritebackNode (fs : SerenaFS C) (node : Inode) : option (errno * SerenaFS C * Inode) :=
  let lba := inid node in
  let doDelete := linkCount node =? 0 in
  '(fs, node) ←
    (if doDelete then
       '(_, fs, bm) ← SfsFile_Trim fs (bmap node) 0;
       Some (fs, Inode_SetModified (Z.lor kInodeFlag_Updated kInodeFlag_StatusChanged) (Inode_SetFileSize 0 (set_bmap bm node)))
     else Some (fs, node));
  let '(e, d, fs) := fs_map fs lba kMapBlock_Replace in
  let fs := if is_ok e then snd (fs_unmap fs lba (SfsFile_Serialize now node d) kWriteBlock_Deferred) else fs in
  if doDelete then
    a ← SfsAllocator_Deallocate (blockAllocator fs) lba;
    '(_, a, c) ← SfsAllocator_CommitToDisk a (fs_container fs);
    Some (e, with_container (with_allocator fs a) c, node)
  else Some (e, fs, node).

Definition Inode_Writeback (fs : SerenaFS C) (node : Inode) : option (errno * SerenaFS C * Inode) :=
  '(e, fs, node) ← SerenaFS_onWritebackNode fs node;
  Some (e, fs, set_flags (Z.land (iflags node) (Z.lnot 0xe)) node).
End Nodes.

(** ** The on-disk form *)

(** The ranges of the C types of the fields. *)
Record inode_ok (i : Inode) : Prop := {
  io_inid : 0 <= inid i < 2 ^ 32;
  io_pnid : 0 <= pnid i < 2 ^ 32;
  io_links : - 2 ^ 31 <= linkCount i < 2 ^ 31;
  io_type : fileType i = FS_FTYPE_REG \/ fileType i = FS_FTYPE_DIR;
  io_perms : 0 <= permissions i;
  io_uid : 0 <= uid i < 2 ^ 32;
  io_gid : 0 <= gid i < 2 ^ 32;
  io_size : - 2 ^ 63 <= fsize i < 2 ^ 63;
  io_indirect : 0 <= indirect (bmap i) < 2 ^ 32;
  io_direct : length (direct (bmap i)) = 110%nat;
  io_ptrs : Forall (fun p => 0 <= p < 2 ^ 32) (direct (bmap i));
}.

Definition time_ok (t : Z * Z) : Prop := - 2 ^ 31 <= fst t < 2 ^ 31 /\ - 2 ^ 31 <= snd t < 2 ^ 31.

(** The inode as it comes back from the disk after a write at time [now]. *)
Definition stamped (now : Z * Z) (i : Inode) : Inode :=
  INode (inid i) (pnid i) (linkCount i) (fileType i) (Z.land (permissions i) 0x1ff) (uid i) (gid i) (fsize i)
    (if flag_set i kInodeFlag_Accessed then now else accessTime i)
    (if flag_set i kInodeFlag_Updated then now else modificationTime i)
    (if flag_set i kInodeFlag_StatusChanged then now else statusChangeTime i) 0 (bmap i).

(** Names the result of the innermost store and records its length. *)
Ltac name_store :=
  match goal with
  | |- context [store ?n ?o ?v ?d] =>
      is_var d; let d' := fresh "d" in let E := fresh "E" in let L := fresh "L" in
      remember (store n o v d) as d' eqn:E;
      assert (L : length d' = length d) by (rewrite E; apply length_store; lia)
  end.

(** Evaluates a load from a named buffer. *)
Ltac eval_load :=
  repeat match goal with
  | E : ?d = store _ _ _ _ |- context [load _ _ ?d] =>
      rewrite E; first [rewrite load_store_other by lia | rewrite load_store_mod by lia]
  end.

Lemma s32_mod z : - 2 ^ 31 <= z < 2 ^ 31 -> s32 (z mod 2 ^ 32) = z.
Proof.
  intros Hz. unfold s32. rewrite Zplus_mod_idemp_l, Z.mod_small by lia. lia.
Qed.

Lemma s64_mod z : - 2 ^ 63 <= z < 2 ^ 63 -> (z mod 2 ^ 64 + 2 ^ 63) mod 2 ^ 64 - 2 ^ 63 = z.
Proof. intros Hz. rewrite Zplus_mod_idemp_l, Z.mod_small by lia. lia. Qed.

Lemma load_stored_time t : time_ok t -> (s32 (fst t mod 2 ^ 32), s32 (snd t mod 2 ^ 32)) = t.
Proof. intros [H1 H2]. rewrite !s32_mod by done. by destruct t. Qed.

Lemma load_direct vs d :
  length vs = 110%nat -> Forall (fun p => 0 <= p < 2 ^ 32) vs -> (504 <= length d)%nat ->
  (fun i => load32 (off_direct + 4 * i) (patch off_direct (be_array 4 vs) d)) <$> seq 0 110 = vs.
Proof.
  intros Hl Hv Hd. apply list_eq. intros i. rewrite list_lookup_fmap.
  destruct (decide (i < 110)%nat) as [Hi|Hi].
  - rewrite lookup_seq_lt by done. cbn [fmap option_fmap option_map].
    destruct (lookup_lt_is_Some_2 vs i) as [v Hvi]; [lia|]. rewrite Hvi. f_equal.
    unfold off_direct. rewrite load_patch_in by (rewrite length_be_array; lia).
    apply load_be_array; [done|]. by apply (Forall_lookup_1 _ _ _ _ Hv Hvi).
  - rewrite lookup_seq_ge by lia. symmetry. apply lookup_ge_None_2. lia.
Qed.

Lemma land_perms p : 0 <= p -> 0 <= Z.land p 0x1ff < 2 ^ 16.
Proof. intros Hp. change 0x1ff with (Z.ones 9). rewrite Z.land_ones by lia. pose proof (Z.mod_pos_bound p (2 ^ 9)). lia. Qed.

Lemma serialize_create now i d :
  inode_ok i -> time_ok now -> time_ok (accessTime i) -> time_ok (modificationTime i) -> time_ok (statusChangeTime i) ->
  (504 <= length d)%nat ->
  SfsFile_Create (inid i) (SfsFile_Serialize now i d) = Some (stamped now i) /\
  load32 40 (SfsFile_Serialize now i d) = kSFSSignature_Inode /\ load32 32 (SfsFile_Serialize now i d) = inid i /\
  load 2 48 (SfsFile_Serialize now i d) = SfsITypeFromFileType (fileType i).
Proof.
  intros [] Hnow Ha Hm Hc Hd. unfold SfsFile_Serialize, store_time, SfsFile_Create, load_time, stamped.
  remember (if flag_set i kInodeFlag_Accessed then now else accessTime i) as atp.
  remember (if flag_set i kInodeFlag_Updated then now else modificationTime i) as mtp.
  remember (if flag_set i kInodeFlag_StatusChanged then now else statusChangeTime i) as ctp.
  assert (time_ok atp /\ time_ok mtp /\ time_ok ctp) as (? & ? & ?).
  { subst. repeat destruct (flag_set _ _); done. }
  pose proof (land_perms _ io_perms0). cbv zeta. do 16 name_store.
  assert (length (be_array 4 (direct (bmap i))) = 440%nat) by (rewrite length_be_array; lia).
  rewrite load_direct by (done || lia).
  rewrite !load_patch_other by (unfold off_direct; lia).
  assert (F1 : load 2 48 d15 = SfsITypeFromFileType (fileType i) mod 2 ^ 16) by (by eval_load).
  assert (F2 : load32 36 d15 = pnid i mod 2 ^ 32) by (by eval_load).
  assert (F3 : load32 44 d15 = linkCount i mod 2 ^ 32) by (by eval_load).
  assert (F4 : load 2 50 d15 = Z.land (permissions i) 0x1ff mod 2 ^ 16) by (by eval_load).
  assert (F5 : load32 52 d15 = uid i mod 2 ^ 32) by (by eval_load).
  assert (F6 : load32 56 d15 = gid i mod 2 ^ 32) by (by eval_load).
  assert (F7 : load 8 0 d15 = fsize i mod 2 ^ 64) by (by eval_load).
  assert (F8 : load32 8 d15 = fst atp mod 2 ^ 32 /\ load32 (8 + 4) d15 = snd atp mod 2 ^ 32) by (by split; eval_load).
  assert (F9 : load32 16 d15 = fst mtp mod 2 ^ 32 /\ load32 (16 + 4) d15 = snd mtp mod 2 ^ 32) by (by split; eval_load).
  assert (F10 : load32 24 d15 = fst ctp mod 2 ^ 32 /\ load32 (24 + 4) d15 = snd ctp mod 2 ^ 32) by (by split; eval_load).
  assert (F11 : load32 60 d15 = indirect (bmap i) mod 2 ^ 32) by (by eval_load).
  assert (F12 : load32 40 d15 = kSFSSignature_Inode mod 2 ^ 32) by (by eval_load).
  assert (F13 : load32 32 d15 = inid i mod 2 ^ 32) by (by eval_load).
  destruct F8 as [-> ->], F9 as [-> ->], F10 as [-> ->].
  rewrite F1, F2, F3, F4, F5, F6, F7, F11, F12, F13, !load_stored_time, s32_mod, s64_mod by done.
  rewrite (Z.mod_small (pnid i)), (Z.mod_small (uid i)), (Z.mod_small (gid i)), (Z.mod_small (indirect _)),
    (Z.mod_small (inid i)), (Z.mod_small (Z.land _ _)) by done.
  assert (SfsITypeFromFileType (fileType i) mod 2 ^ 16 = SfsITypeFromFileType (fileType i) /\
    SfsFileTypeFromIType (SfsITypeFromFileType (fileType i)) = Some (fileType i)) as [-> ->].
  { by destruct io_type0 as [-> | ->]. }
  by destruct (bmap i).
Qed.

Lemma length_serialize now i d :
  length (direct (bmap i)) = 110%nat -> (504 <= length d)%nat -> length (SfsFile_Serialize now i d) = length d.
Proof.
  intros Hl Hd. unfold SfsFile_Serialize, store_time. cbv zeta. do 16 name_store.
  rewrite length_patch; [lia|]. rewrite length_be_array. unfold off_direct. lia.
Qed.

Lemma Forall_serialize now i d : Forall is_byte d -> Forall is_byte (SfsFile_Serialize now i d).
Proof.
  intros Hd. unfold SfsFile_Serialize, store_time. apply Forall_patch; [|apply Forall_be_array].
  repeat apply Forall_store. done.
Qed.

(** ** Writing back and acquiring *)

Section NodeSpecs.
Context {C} {FC : FSContainer C} {FCS : FSContainerSpec C}.
Implicit Types (fs : SerenaFS C) (node : Inode).

Lemma serialize_block now i d :
  is_block d -> length (direct (bmap i)) = 110%nat -> (504 <= fsc_blockSize)%nat -> is_block (SfsFile_Serialize now i d).
Proof. intros [Hl Hb] Hd Hs. split; [rewrite length_serialize; lia|by apply Forall_serialize]. Qed.

(** A write-back of an inode that has links changes only the block of the inode. *)
Lemma writeback_spec now fs node :
  fs_ok fs -> linkCount node <> 0 -> length (direct (bmap node)) = 110%nat -> (504 <= fsc_blockSize)%nat ->
  inid node <> piece_lba (blockAllocator fs) 0 ->
  exists e fs', SerenaFS_onWritebackNode now fs node = Some (e, fs', node) /\ fs_ok fs' /\ same_params fs fs' /\
    (forall x, used fs' x <-> used fs x) /\ (forall l, l <> inid node -> fdata fs' l = fdata fs l) /\
    (e = EOK -> exists d, is_block d /\ fdata fs' (inid node) = SfsFile_Serialize now node d) /\
    (e <> EOK -> fdata fs' (inid node) = fdata fs (inid node)).
Proof.
  intros Hok Hl Hd Hs Hne. unfold SerenaFS_onWritebackNode. destruct (Z.eqb_spec (linkCount node) 0) as [|_]; [done|].
  cbn [mbind option_bind]. unfold fs_map.
  destruct (FSContainer_MapBlock (inid node) kMapBlock_Replace (fs_container fs)) as [[e d] c'] eqn:Em.
  pose proof (fo_cont _ Hok) as Hc. exists e. destruct (decide (e = EOK)) as [->|He].
  - destruct (fsc_map_ok _ _ _ _ _ Hc Em) as (Hc' & Hdb & Ho & _). cbn [is_ok].
    assert (Hok1 : fs_ok (with_container fs c')) by (apply fs_ok_container; [done|done|by apply Ho]).
    destruct (fs_unmap (with_container fs c') (inid node) _ _) as [e2 fs2] eqn:Eu.
    destruct (fs_unmap_write _ _ _ _ _ Hok1 (serialize_block now node d Hdb Hd Hs) ltac:(done) Eu) as (_ & Hok2 & Hp2 & Hw & Ho2 & Hu2).
    exists fs2. split; [done|]. split_and!; try done.
    + intros l Hln. rewrite Ho2 by done. by apply Ho.
    + intros _. by exists d.
  - destruct (fsc_map_err _ _ _ _ _ _ Hc Em He) as [Hc' Hsame]. apply is_ok_false in He as He'. rewrite He'.
    eexists. split; [done|]. split_and!; try done; [apply fs_ok_container; [done|done|by apply Hsame]|intros l _; apply Hsame|].
    intros _. apply Hsame.
Qed.

Lemma same_data_container fs c' :
  fs_ok fs -> fsc_ok c' -> (forall l, fsc_data c' l = fdata fs l) -> same_data fs (with_container fs c').
Proof. intros Hok Hc Hd. split; [by apply fs_ok_container|]. by split_and!. Qed.

Lemma same_data_trans fs1 fs2 fs3 : same_data fs1 fs2 -> same_data fs2 fs3 -> same_data fs1 fs3.
Proof.
  intros (_ & Hp & Hd & Hu) (Hok & Hp' & Hd' & Hu'). split; [done|]. split; [by eapply same_params_trans|].
  split; [intros l; by rewrite Hd', Hd|intros x; by rewrite Hu', Hu].
Qed.

(** Acquiring an inode changes nothing; it fails or gives the inode that the
    block holds. *)
Lemma acquire_node_spec alloc_ok fs id :
  fs_ok fs -> id <> piece_lba (blockAllocator fs) 0 ->
  exists e r fs', SerenaFS_onAcquireNode alloc_ok fs id = Some (e, r, fs') /\ same_data fs fs' /\
    (e <> EOK -> r = None) /\
    (e = EOK -> load32 40 (fdata fs id) = kSFSSignature_Inode /\ load32 32 (fdata fs id) = id /\
       is_Some r /\ r = SfsFile_Create id (fdata fs id)).
Proof.
  intros Hok Hne. unfold SerenaFS_onAcquireNode.
  destruct (fs_map fs id kMapBlock_ReadOnly) as [[e d] fs1] eqn:Em. pose proof Em as Em'. unfold fs_map in Em'.
  destruct (FSContainer_MapBlock id _ _) as [[e' d'] c'] eqn:Ec. injection Em' as -> -> <-.
  destruct (decide (e = EOK)) as [->|He]; cycle 1.
  { destruct (fsc_map_err _ _ _ _ _ _ (fo_cont _ Hok) Ec He) as [Hc' Hd]. apply is_ok_false in He as He'. rewrite He'.
    eexists _, _, _. split; [done|]. split; [by apply same_data_container|done]. }
  cbn [is_ok negb]. destruct (fsc_map_ok _ _ _ _ _ (fo_cont _ Hok) Ec) as (Hc' & _ & Ho & Hr & _).
  destruct (Hr ltac:(by left)) as [-> Hk].
  assert (Hsd : same_data fs (with_container fs c')).
  { apply same_data_container; [done|done|]. intros l. destruct (decide (l = id)) as [->|]; [done|by apply Ho]. }
  assert (Hun : forall e2 fs2, fs_unmap (with_container fs c') id (fsc_data (fs_container fs) id) kWriteBlock_None = (e2, fs2) ->
    same_data fs fs2).
  { intros e2 fs2 E. rewrite <- Hk in E. eapply same_data_trans; [done|]. by eapply fs_unmap_none; [apply Hsd|]. }
  destruct (fs_unmap _ _ _ _) as [e2 fs2] eqn:Eu. specialize (Hun _ _ eq_refl). fold (fdata fs id).
  destruct (load32 40 (fdata fs id) =? kSFSSignature_Inode) eqn:E1; cbn [negb orb]; [|by eexists _, _, _; split_and!].
  destruct (load32 32 (fdata fs id) =? id) eqn:E2; cbn [negb]; [|by eexists _, _, _; split_and!].
  destruct ((load 2 48 (fdata fs id) =? kSFSInode_Directory) || (load 2 48 (fdata fs id) =? kSFSInode_RegularFile)) eqn:E3;
    cbn [negb]; [|by eexists _, _, _; split_and!].
  destruct alloc_ok; [|by eexists _, _, _; split_and!].
  assert (is_Some (SfsFile_Create id (fdata fs id))) as [n Hn].
  { unfold SfsFile_Create, SfsFileTypeFromIType. destruct (_ =? kSFSInode_Directory); [by eexists|].
    destruct (_ =? kSFSInode_RegularFile); [by eexists|done]. }
  rewrite (bind_some Hn). cbn [mbind option_bind]. eexists _, _, _. split; [done|]. split_and!; try done.
  intros _. split_and!; [lia|lia|done|done].
Qed.
End NodeSpecs.

(** ** Properties *)

(** An inode that has links survives a write-back and a later acquisition:
    after a successful write-back, acquiring the inode fails because its block
    cannot be mapped or there is no memory, or gives the same inode with its
    modified times set to the time of the write and its permissions cut to nine
    bits.  Only the block of the inode is written. *)
Theorem inode_round_trip {C} {FC : FSContainer C} {FCS : FSContainerSpec C} (fs fs' : SerenaFS C) (node node' : Inode)
  (now : Z * Z) (alloc_ok : bool)
  (Hok : fs_ok fs) (Hnode : inode_ok node) (Hl : linkCount node <> 0) (Hs : (504 <= fsc_blockSize)%nat)
  (Hne : inid node <> piece_lba (blockAllocator fs) 0)
  (Ht : time_ok now /\ time_ok (accessTime node) /\ time_ok (modificationTime node) /\ time_ok (statusChangeTime node))
  (Hw : Inode_Writeback now fs node = Some (EOK, fs', node')) :
  iflags node' = Z.land (iflags node) (Z.lnot 0xe) /\ (forall l, l <> inid node -> fdata fs' l = fdata fs l) /\
  exists e r fs'', SerenaFS_onAcquireNode alloc_ok fs' (inid node) = Some (e, r, fs'') /\
    (forall l, fdata fs'' l = fdata fs' l) /\
    (e = EOK /\ r = Some (stamped now node) \/ e <> EOK /\ r = None).
Proof.
  destruct Ht as (Ht1 & Ht2 & Ht3 & Ht4).
  destruct (writeback_spec now fs node Hok Hl (io_direct _ Hnode) Hs Hne) as (e & fs1 & H1 & Hok1 & Hp1 & _ & Ho & Hd & _).
  unfold Inode_Writeback in Hw. rewrite (bind_some H1) in Hw. injection Hw as -> <- <-.
  split; [done|]. split; [done|]. destruct (Hd eq_refl) as (d & [Hdl _] & Hser).
  destruct (acquire_node_spec alloc_ok fs1 (inid node) Hok1) as (e & r & fs2 & H2 & (_ & _ & Hsame & _) & Herr & Hok2); [by rewrite (used_params fs fs1)|].
  exists e, r, fs2. split; [done|]. split; [done|].
  destruct (decide (e = EOK)) as [->|He]; [left|right; auto]. split; [done|]. destruct (Hok2 eq_refl) as (_ & _ & _ & ->).
  rewrite Hser. apply serialize_create; try done. lia.
Qed.

(** A volume of 32 blocks of 512 bytes; block 1 is the bitmap. *)
#[local] Instance big_container : FSContainer memdisk := mem_container 512.
#[local] Instance big_container_spec : FSContainerSpec memdisk := mem_container_spec 512.

Definition big_volume : SerenaFS memdisk :=
  SFS (MD (<[1 := [0xfc; 0; 0; 0] ++ replicate 508 0]> ∅) ∅) (SA [0xfc; 0; 0; 0] 4 1 1 [0] 512 32) 512 9 511 128.

Lemma big_volume_ok : fs_ok big_volume.
Proof.
  constructor; cbn -[Z.to_nat replicate]; try done; try lia.
  - constructor; cbn; try done; try lia; by apply bytes_ok.
  - apply map_Forall_insert_2; [split; [reflexivity|by apply bytes_ok]|]. apply map_Forall_empty.
  - intros i Hi. cbn in Hi. right. assert (i = 0) as -> by lia. vm_compute. reflexivity.
Qed.

Definition demo_inode : Inode :=
  INode 2 7 1 FS_FTYPE_REG 0x1a4 10 11 1234 (1, 2) (3, 4) (5, 6) (Z.lor kInodeFlag_Updated 1) (Bmap 9 (3 :: replicate 109 0)).

Lemma inode_round_trip_witness :
  exists fs' node' e r fs'', Inode_Writeback (100, 200) big_volume demo_inode = Some (EOK, fs', node') /\
    SerenaFS_onAcquireNode true fs' 2 = Some (e, r, fs'') /\ e = EOK /\ r = Some (stamped (100, 200) demo_inode) /\
    modificationTime (stamped (100, 200) demo_inode) = (100, 200).
Proof.
  destruct (Inode_Writeback (100, 200) big_volume demo_inode) as [[[e fs'] node']|] eqn:E; [|vm_compute in E; discriminate].
  assert (e = EOK) as -> by (vm_compute in E; injection E as <- _ _; reflexivity).
  destruct (inode_round_trip big_volume fs' demo_inode node' (100, 200) true) as (_ & _ & e & r & fs'' & H1 & _ & H2).
  - exact big_volume_ok.
  - assert (Hp : Forall (fun p => 0 <= p < 2 ^ 32) (3 :: replicate 109 0)) by (constructor; [lia|]; apply Forall_replicate; lia).
    constructor; first [exact Hp | reflexivity | by left | cbn; lia].
  - cbn. lia.
  - cbn. lia.
  - cbn. discriminate.
  - repeat split; cbn; lia.
  - exact E.
  - exists fs', node', e, r, fs''. split; [reflexivity|]. split; [exact H1|].
    assert (e = EOK) as ->. { vm_compute in E. injection E as <- _. vm_compute in H1. injection H1 as <- _ _. reflexivity. }
    destruct H2 as [[_ H2]|[H2 _]]; [|congruence]. split; [reflexivity|]. split; [exact H2|reflexivity].
Defined.
