(* ===== verification/SfsRegularFile.v ===== *)
(** * Regular files of the Serena filesystem (kern/src/filesystem/serenafs/SfsRegularFile.c)

    Reading, writing and truncating a file block by block.  The loops transfer
    at least one byte per round, so the number of bytes bounds their rounds. *)

From S2P Require Import Prelude Bytes FSContainer SfsAllocator SfsFile SfsInode.

Definition SSIZE_MAX : Z := 2 ^ 31 - 1.
Definition MAX_FILE_SIZE : Z := 2 ^ 63 - 1.

Section Regular.
Context {C} {FC : FSContainer C}.
(** Whether reads update the access time, and the current time. *)
Variable isAccessUpdateOnReadEnabled : bool.
Variable now : Z * Z.

(** The loop of SfsRegularFile_read; [got] is what was read so far. *)
Fixpoint read_blocks (fuel : nat) (fs : SerenaFS C) (bm : sfs_bmap) (n blockIdx blockOffset : Z) (got : list Z)
  : option (errno * list Z * SerenaFS C * sfs_bmap) :=
  match fuel with
  | O => Some (EOK, got, fs, bm)
  | S fuel =>
      if 0 <? n then
        let nRemainderBlockSize := sa_blockSize (blockAllocator fs) - blockOffset in
        let k := if nRemainderBlockSize <? n then nRemainderBlockSize else n in
        '(e1, blk, fs, bm) ← SfsFile_MapBlock fs bm blockIdx kMapBlock_ReadOnly;
        if negb (is_ok e1) then Some (match got with [] => e1 | _ => EOK end, got, fs, bm)
        else
          let chunk := slice (Z.to_nat blockOffset) (Z.to_nat k) (fb_data blk) in
          '(_, fs) ← SfsFile_UnmapBlock fs blk (fb_data blk) kWriteBlock_None;
          read_blocks fuel fs bm (n - k) (u32 (blockIdx + 1)) 0 (got ++ chunk)
      else Some (EOK, got, fs, bm)
  end.

(** Returns the error, the bytes, the new offset and the new state. *)
Definition SfsRegularFile_read (fs : SerenaFS C) (self : Inode) (offset nBytesToRead : Z)
  : option (errno * list Z * Z * SerenaFS C * Inode) :=
  if nBytesToRead <? 0 then Some (EINVAL, [], offset, fs, self)
  else if (0 <? nBytesToRead) && (offset <? 0) then Some (EOVERFLOW, [], offset, fs, self)
  else
    let nAvailBytes := fsize self - offset in
    let n := if 0 <? nAvailBytes
             then if (nAvailBytes <=? SSIZE_MAX) && (nAvailBytes <? nBytesToRead) then nAvailBytes else nBytesToRead
             else 0 in
    let '(blockIdx, blockOffset) := SfsFile_ConvertOffset fs offset in
    '(e, got, fs, bm) ← read_blocks (Z.to_nat n) fs (bmap self) n blockIdx blockOffset [];
    let self := set_bmap bm self in
    let self := match got with
                | [] => self
                | _ => if isAccessUpdateOnReadEnabled then Inode_SetModified kInodeFlag_Accessed self else self
                end in
    Some (e, got, offset + Z.of_nat (length got), fs, self).

(** The loop of SfsRegularFile_write; [done] bytes of the caller are written
    and [src] is left. *)
Fixpoint write_blocks (fuel : nat) (fs : SerenaFS C) (bm : sfs_bmap) (src : list Z) (blockIdx blockOffset done : Z)
  : option (errno * Z * SerenaFS C * sfs_bmap) :=
  match fuel with
  | O => Some (EOK, done, fs, bm)
  | S fuel =>
      let n := Z.of_nat (length src) in
      if 0 <? n then
        let blockSize := sa_blockSize (blockAllocator fs) in
        let nRemainderBlockSize := blockSize - blockOffset in
        let k := if nRemainderBlockSize <? n then nRemainderBlockSize else n in
        let mmode := if k =? blockSize then kMapBlock_Replace else kMapBlock_Update in
        '(e1, blk, fs, bm) ← SfsFile_MapBlock fs bm blockIdx mmode;
        '(e1, fs) ←
          (if is_ok e1 then
             SfsFile_UnmapBlock fs blk (patch (Z.to_nat blockOffset) (take (Z.to_nat k) src) (fb_data blk)) kWriteBlock_Deferred
           else Some (e1, fs));
        if negb (is_ok e1) then Some (if done =? 0 then e1 else EOK, done, fs, bm)
        else write_blocks fuel fs bm (drop (Z.to_nat k) src) (u32 (blockIdx + 1)) 0 (done + k)
      else Some (EOK, done, fs, bm)
  end.

(** Returns the error, the number of bytes, the new offset and the new state. *)
Definition SfsRegularFile_write (fs : SerenaFS C) (self : Inode) (offset : Z) (src : list Z)
  : option (errno * Z * Z * SerenaFS C * Inode) :=
  let nBytesToWrite := Z.of_nat (length src) in
  if (0 <? nBytesToWrite) && (offset <? 0) then Some (EOVERFLOW, 0, offset, fs, self)
  else if (0 <? nBytesToWrite) && (MAX_FILE_SIZE <=? offset) then Some (EFBIG, 0, offset, fs, self)
  else
    let nAvailBytes := MAX_FILE_SIZE - offset in
    let n := if (0 <? nBytesToWrite) && (nAvailBytes <=? SSIZE_MAX) && (nAvailBytes <? nBytesToWrite)
             then nAvailBytes else nBytesToWrite in
    let '(blockIdx, blockOffset) := SfsFile_ConvertOffset fs offset in
    '(err, nBytesWritten, fs, bm) ← write_blocks (Z.to_nat n) fs (bmap self) (take (Z.to_nat n) src) blockIdx blockOffset 0;
    let self := set_bmap bm self in
    '(e2, a, c) ← SfsAllocator_CommitToDisk (blockAllocator fs) (fs_container fs);
    let fs := with_container (with_allocator fs a) c in
    let err := if is_ok err then e2 else err in
    if 0 <? nBytesWritten then
      let endOffset := offset + nBytesWritten in
      let self := if fsize self <? endOffset then Inode_SetFileSize endOffset self else self in
      let self := Inode_SetModified (Z.lor kInodeFlag_Updated kInodeFlag_StatusChanged) self in
      '(_, fs, self) ← Inode_Writeback now fs self;
      Some (err, nBytesWritten, offset + nBytesWritten, fs, self)
    else Some (err, nBytesWritten, offset, fs, self).

Definition SfsRegularFile_truncate (fs : SerenaFS C) (self : Inode) (length : Z) : option (errno * SerenaFS C * Inode) :=
  let oldLength := fsize self in
  '(fs, self) ←
    (if oldLength <? length then
       Some (fs, Inode_SetModified (Z.lor kInodeFlag_Updated kInodeFlag_StatusChanged) (Inode_SetFileSize length self))
     else if length <? oldLength then
       '(_, fs, bm) ← SfsFile_Trim fs (bmap self) length;
       let self := Inode_SetFileSize length (set_bmap bm self) in
       '(_, a, c) ← SfsAllocator_CommitToDisk (blockAllocator fs) (fs_container fs);
       Some (with_container (with_allocator fs a) c,
             Inode_SetModified (Z.lor kInodeFlag_Updated kInodeFlag_StatusChanged) self)
     else Some (fs, self));
  '(_, fs, self) ← Inode_Writeback now fs self;
  Some (EOK, fs, self).
End Regular.

(** ** Files as byte arrays *)

Section RegularSpecs.
Context {C} {FC : FSContainer C} {FCS : FSContainerSpec C}.
Implicit Types (fs : SerenaFS C) (bm : sfs_bmap) (R : Z -> Prop).
Notation bs := (Z.of_nat fsc_blockSize).

(** The byte of a file at offset [o]. *)
Definition fbyte fs bm (o : Z) : Z := arr_get 0 (file_block fs bm (o / bs)) (o mod bs).

(** All blocks that hold bytes below [hi] can be mapped without a new indirect
    block. *)
Definition reach bm (hi : Z) : Prop := indirect bm <> 0 \/ hi <= 110 * bs.

Lemma reach_ready bm hi b : reach bm hi -> 0 < bs -> b * bs < hi -> ready bm b.
Proof. intros [Hi|Hle] Hbs Hb; [by right|left; nia]. Qed.

Lemma file_block_length fs bm b : fs_ok fs -> is_block (file_block fs bm b).
Proof. intros Hok. unfold file_block. destruct (ptr fs bm b =? 0); [apply block_zeros|apply fsc_data_block, Hok]. Qed.

Lemma same_data_refl fs : fs_ok fs -> same_data fs fs.
Proof. intros Hok. split; [done|]. split; [apply same_params_refl|done]. Qed.

Lemma same_data_block fs fs' bm b : same_data fs fs' -> file_block fs' bm b = file_block fs bm b.
Proof.
  intros Hsd. unfold file_block. rewrite (same_data_ptr fs fs') by done. destruct Hsd as (_ & _ & Hd & _). by rewrite Hd.
Qed.

Lemma same_data_byte fs fs' bm o : same_data fs fs' -> fbyte fs' bm o = fbyte fs bm o.
Proof. intros Hsd. unfold fbyte. by rewrite (same_data_block fs fs'). Qed.

Lemma same_data_file fs fs' bm R : file_ok fs bm R -> same_data fs fs' -> file_ok fs' bm R.
Proof.
  intros Hf Hsd. eapply file_ok_keep; [done|apply Hsd| |].
  - intros b _. by apply same_data_ptr.
  - intros x Hx. destruct Hsd as (_ & _ & _ & Hu). by apply Hu.
Qed.

(** An offset inside of block [idx]. *)
Lemma byte_pos idx r : 0 <= r < bs -> (idx * bs + r) / bs = idx /\ (idx * bs + r) mod bs = r.
Proof.
  intros Hr. split.
  - rewrite Z.div_add_l by lia. rewrite Z.div_small by lia. lia.
  - rewrite Z.add_comm, Z.mod_add by lia. apply Z.mod_small. lia.
Qed.

Lemma slice_bytes fs bm idx boff k i :
  fs_ok fs -> 0 <= boff -> 0 <= k -> boff + k <= bs -> (i < Z.to_nat k)%nat ->
  slice (Z.to_nat boff) (Z.to_nat k) (file_block fs bm idx) !! i = Some (fbyte fs bm (idx * bs + boff + Z.of_nat i)).
Proof.
  intros Hok Hb Hk Hbk Hi. destruct (file_block_length fs bm idx Hok) as [Hlen _]. rewrite lookup_slice by done.
  unfold fbyte. rewrite <- Z.add_assoc. destruct (byte_pos idx (boff + Z.of_nat i)) as [-> ->]; [lia|].
  rewrite <- (arr_get_Some 0) by lia. f_equal. lia.
Qed.

(** The result of a read of [n] bytes at [o]: the bytes of the file, all of them
    or those before the first block that could not be mapped. *)
Definition bytes_read fs bm (o n : Z) (first : bool) (e : errno) (got : list Z) : Prop :=
  Z.of_nat (length got) <= n /\
  (forall i, (i < length got)%nat -> got !! i = Some (fbyte fs bm (o + Z.of_nat i))) /\
  (Z.of_nat (length got) < n -> (e = EOK <-> ~ (first = true /\ got = []))) /\
  (Z.of_nat (length got) = n -> e = EOK).

Lemma read_blocks_spec fuel fs bm R n idx boff got :
  fs_ok fs -> file_ok fs bm R -> 0 <= n <= Z.of_nat fuel -> 0 <= boff < bs -> 0 <= idx ->
  idx * bs + boff + n <= (2 ^ 32 - 1) * bs -> reach bm (idx * bs + boff + n) \/ n = 0 ->
  exists e new fs', read_blocks fuel fs bm n idx boff got = Some (e, got ++ new, fs', bm) /\ same_data fs fs' /\
    bytes_read fs bm (idx * bs + boff) n (match got with [] => true | _ => false end) e new.
Proof.
  revert fs n idx boff got. induction fuel as [|fuel IH]; intros fs n idx boff got Hok Hf Hn Hb Hi Hbig Hreach; cbn [read_blocks].
  { exists EOK, [], fs. rewrite app_nil_r. split; [done|]. split; [by apply same_data_refl|]. split_and!; simpl; lia || done. }
  destruct (Z.ltb_spec 0 n) as [Hpos|Hz]; cycle 1.
  { exists EOK, [], fs. rewrite app_nil_r. split; [done|]. split; [by apply same_data_refl|]. split_and!; simpl; lia || done. }
  destruct (bs_range fs Hok) as [Hbs HN]. rewrite (fo_sabs _ Hok). destruct Hreach as [Hreach|]; [|lia].
  remember (if bs - boff <? n then bs - boff else n) as k eqn:Ek.
  assert (Hk : 0 < k <= n /\ boff + k <= bs /\ (k = n \/ boff + k = bs)) by (destruct (Z.ltb_spec (bs - boff) n); lia).
  destruct (decide (idx < max_fba fs)) as [Hlt|Hge]; cycle 1.
  { rewrite mapblock_too_big by lia. cbn [mbind option_bind is_ok negb].
    eexists _, [], fs. rewrite app_nil_r. split; [done|]. split; [by apply same_data_refl|].
    split_and!; simpl; try lia; try done. intros _. destruct got; naive_solver. }
  destruct (mapblock_spec fs bm R idx kMapBlock_ReadOnly Hok Hf) as (e & blk & fs1 & bm1 & Hm & Hp);
    [unfold valid_fba; lia|apply (reach_ready bm (idx * bs + boff + n)); [done|lia|lia]|].
  rewrite (bind_some Hm). destruct (mb_ro _ _ _ _ _ _ _ _ _ Hp eq_refl) as [-> Hsd1].
  destruct (is_ok e) eqn:Ee; cbn [negb]; cycle 1.
  { apply is_ok_false in Ee. eexists _, [], fs1. rewrite app_nil_r. split; [done|]. split; [done|].
    split_and!; simpl; try lia; try done. intros _. destruct got; naive_solver. }
  apply is_ok_true in Ee as ->. pose proof (mb_read _ _ _ _ _ _ _ _ _ Hp eq_refl ltac:(by left)) as Hd.
  destruct (unmap_read fs bm R idx blk fs1 bm Hp Hf) as (e2 & fs2 & Hu & Hsd2). rewrite (bind_some Hu), u32_small by nia.
  assert (Hok2 : fs_ok fs2) by apply Hsd2.
  set (chunk := slice (Z.to_nat boff) (Z.to_nat k) (fb_data blk)).
  assert (Hcl : length chunk = Z.to_nat k).
  { unfold chunk. rewrite Hd. destruct (file_block_length fs bm idx Hok) as [Hl _]. apply length_slice. lia. }
  assert (Hnext : idx + 1 <= 2 ^ 32 - 1) by nia.
  assert (Hbig' : (idx + 1) * bs + 0 + (n - k) <= (2 ^ 32 - 1) * bs) by (destruct Hk as (_ & _ & [->|]); nia).
  destruct (IH fs2 (n - k) (idx + 1) 0 (got ++ chunk)) as (e3 & new & fs3 & Hr & Hsd3 & (H1 & H2 & H3 & H4));
    [done|by eapply same_data_file|lia|lia|lia|done|destruct (decide (n - k = 0)); [by right|left]|].
  { replace ((idx + 1) * bs + 0 + (n - k)) with (idx * bs + boff + n) by lia. done. }
  exists e3, (chunk ++ new), fs3. split; [by rewrite Hr, app_assoc|]. split; [by eapply same_data_trans|].
  split_and!.
  - rewrite length_app. lia.
  - intros i Hi'. rewrite length_app in Hi'. destruct (decide (i < Z.to_nat k)%nat) as [Hik|Hik].
    + rewrite lookup_app_l by lia. unfold chunk. rewrite Hd. apply slice_bytes; [done|lia..].
    + rewrite lookup_app_r by lia. rewrite H2 by lia. rewrite (same_data_byte fs fs2) by done. do 2 f_equal. lia.
  - rewrite length_app. intros Hl. rewrite H3 by lia. destruct got, chunk; simpl in *; naive_solver lia.
  - rewrite length_app. intros Hl. apply H4. lia.
Qed.

(** A block of the file is patched with [ch]. *)
Lemma fbyte_patch fs bm fs' bm' idx boff ch D :
  fs_ok fs -> 0 <= boff -> boff + Z.of_nat (length ch) <= bs -> length D = fsc_blockSize ->
  D = file_block fs bm idx \/ (boff = 0 /\ Z.of_nat (length ch) = bs) ->
  (forall b, valid_fba fs b -> file_block fs' bm' b =
     if decide (b = idx) then patch (Z.to_nat boff) ch D else file_block fs bm b) ->
  forall o, 0 <= o < max_fba fs * bs -> fbyte fs' bm' o =
    if decide (idx * bs + boff <= o < idx * bs + boff + Z.of_nat (length ch)) then arr_get 0 ch (o - (idx * bs + boff))
    else fbyte fs bm o.
Proof.
  intros Hok Hb Hl HD HDe Hblk o Ho. destruct (bs_range fs Hok) as [Hbs _].
  assert (Hbs0 : bs <> 0 /\ 0 < bs) by lia.
  pose proof (Z.div_mod o bs (proj1 Hbs0)) as Hdm. pose proof (Z.mod_pos_bound o bs (proj2 Hbs0)) as Hm.
  assert (Hv : valid_fba fs (o / bs)) by (split; [apply Z.div_pos; lia|apply Z.div_lt_upper_bound; lia]).
  unfold fbyte at 1. rewrite Hblk by done. destruct (decide (o / bs = idx)) as [E|E].
  - destruct (decide (idx * bs + boff <= o < idx * bs + boff + Z.of_nat (length ch))) as [Hin|Hout].
    + unfold arr_get. rewrite lookup_patch_in by lia. do 2 f_equal. nia.
    + destruct HDe as [->|[-> Hfull]]; [|nia]. unfold arr_get at 1. rewrite lookup_patch_out; [unfold fbyte, arr_get; by rewrite E|lia|].
      assert (Hr : o mod bs < boff \/ boff + Z.of_nat (length ch) <= o mod bs) by nia. lia.
  - rewrite decide_False; [done|]. nia.
Qed.

Record bytes_written fs bm R (o : Z) (src : list Z) (n : Z) fs' bm' : Prop := {
  bw_ok : fs_ok fs';
  bw_par : same_params fs fs';
  bw_file : file_ok fs' bm' R;
  bw_mono : forall x, used fs x -> used fs' x;
  bw_byte : forall o', 0 <= o' < max_fba fs * bs ->
    fbyte fs' bm' o' = if decide (o <= o' < o + n) then arr_get 0 src (o' - o) else fbyte fs bm o';
  bw_ind : indirect bm <> 0 -> indirect bm' = indirect bm;
  bw_frame : forall l, R l -> used fs l -> fdata fs' l = fdata fs l;
}.

Lemma written_none fs bm R o src : fs_ok fs -> file_ok fs bm R -> bytes_written fs bm R o src 0 fs bm.
Proof. intros Hok Hf. constructor; try done. intros o' _. rewrite decide_False by lia. done. Qed.

(** What holds even if a failed allocation damaged the file. *)
Definition alive fs fs' bm' : Prop :=
  fs_ok fs' /\ same_params fs fs' /\ (forall x, used fs x -> used fs' x) /\ length (direct bm') = 110%nat.

Lemma alive_written fs bm R o src n fs' bm' : bytes_written fs bm R o src n fs' bm' -> alive fs fs' bm'.
Proof. intros []. split_and!; try done. apply bw_file0. Qed.

Lemma alive_trans fs fs1 bm1 fs2 bm2 : alive fs fs1 bm1 -> alive fs1 fs2 bm2 -> alive fs fs2 bm2.
Proof. intros (_ & H1 & H2 & _) (? & ? & ? & ?). split_and!; [done|by eapply same_params_trans|auto|done]. Qed.

(** A failed mapping writes nothing. *)
Lemma written_failed fs bm R fba mode e blk fs' bm' o src :
  mb_post fs bm R fba mode e blk fs' bm' -> e <> EOK -> file_ok fs bm R -> fs_ok fs ->
  bytes_written fs bm R o src 0 fs' bm'.
Proof.
  intros [Hok' Hp Hm Hf' Hptr Hblk Hfr _ _ _ _ _ _ Hind _] He Hf Hok. destruct (bs_range fs Hok) as [Hbs _]. constructor; try done.
  - intros o' Ho. rewrite decide_False by lia. unfold fbyte. f_equal. apply Hblk; [|by right].
    split; [apply Z.div_pos; lia|apply Z.div_lt_upper_bound; lia].
  - intros l HR Hu. apply Hfr; [done| |].
    + intros b Hb E. destruct (fi_ptr _ _ _ Hf b Hb) as [E0|(_ & HnR & _)]; [destruct Hu; lia|by rewrite E in HnR].
    + intros ->. destruct (fi_ind _ _ _ Hf) as [E0|[_ HnR]]; [destruct Hu; lia|done].
Qed.

(** One round of the loop. *)
Lemma write_round fs bm R idx boff ch mode :
  fs_ok fs -> file_ok fs bm R -> valid_fba fs idx -> 0 <= boff -> boff + Z.of_nat (length ch) <= bs -> Forall is_byte ch ->
  mode = kMapBlock_Update \/ (mode = kMapBlock_Replace /\ boff = 0 /\ Z.of_nat (length ch) = bs) ->
  exists e blk fs1 bm1, SfsFile_MapBlock fs bm idx mode = Some (e, blk, fs1, bm1) /\
    (e <> EOK -> ready bm idx -> forall o src, bytes_written fs bm R o src 0 fs1 bm1) /\
    (e <> EOK -> alive fs fs1 bm1) /\
    (e = EOK -> exists fs2,
       SfsFile_UnmapBlock fs1 blk (patch (Z.to_nat boff) ch (fb_data blk)) kWriteBlock_Deferred = Some (EOK, fs2) /\
       bytes_written fs bm R (idx * bs + boff) ch (Z.of_nat (length ch)) fs2 bm1).
Proof.
  intros Hok Hf Hv Hb Hl Hbytes Hmode.
  destruct (mapblock_write fs bm R idx mode Hok Hf Hv) as (e & blk & fs1 & bm1 & Hm & Hp & Hst); [naive_solver|].
  exists e, blk, fs1, bm1. split; [done|]. split_and!.
  - intros He Hr o src. eapply written_failed; [by apply Hp; left|done|done|done].
  - intros He. destruct (decide (idx < 110 \/ indirect bm <> 0)) as [Hr|Hr].
    + eapply alive_written, (written_failed fs bm R idx mode e blk fs1 bm1 0 []); [by apply Hp; left|done|done|done].
    + destruct (Hst Hr He) as (? & ? & ? & Hdir). split_and!; [done|done|done|]. rewrite Hdir. apply Hf.
  - intros ->. specialize (Hp (or_intror eq_refl)). pose proof (mb_blk _ _ _ _ _ _ _ _ _ Hp eq_refl) as HD.
    destruct (unmap_write fs bm R idx mode blk fs1 bm1 (patch (Z.to_nat boff) ch (fb_data blk)) Hp Hv) as (fs2 & Hu & H1 & H2 & H3 & H4 & H5 & H6);
      [naive_solver|apply block_patch; [done|done|lia]|].
    exists fs2. split; [done|]. constructor; try done.
    + apply fbyte_patch with (D := fb_data blk); [done|done|done|apply HD| |done].
      destruct Hmode as [->|(-> & ? & ?)]; [left|by right]. apply (mb_read _ _ _ _ _ _ _ _ _ Hp eq_refl). by right.
    + apply Hp.
    + intros l HR Hu'. apply H6; [done| |].
      * intros b Hbv E. destruct (fi_ptr _ _ _ Hf b Hbv) as [E0|(_ & HnR & _)]; [destruct Hu'; lia|by rewrite E in HnR].
      * intros ->. destruct (fi_ind _ _ _ Hf) as [E0|[_ HnR]]; [destruct Hu'; lia|done].
Qed.

Lemma written_app fs bm R o src1 n1 fs1 bm1 src2 n2 fs2 bm2 :
  bytes_written fs bm R o src1 n1 fs1 bm1 -> bytes_written fs1 bm1 R (o + n1) src2 n2 fs2 bm2 ->
  Z.of_nat (length src1) = n1 -> 0 <= n2 ->
  bytes_written fs bm R o (src1 ++ src2) (n1 + n2) fs2 bm2.
Proof.
  intros [H1 H2 H3 H4 H5 H6 H7] [G1 G2 G3 G4 G5 G6 G7] Hn1 Hn2. constructor; try done.
  - by eapply same_params_trans.
  - auto.
  - intros o' Ho. rewrite G5 by (unfold max_fba in *; destruct H2 as (_ & _ & _ & -> & _); done).
    destruct (decide (o + n1 <= o' < o + n1 + n2)).
    + rewrite decide_True by lia. unfold arr_get. rewrite lookup_app_r by lia. do 2 f_equal. lia.
    + rewrite H5 by done. destruct (decide (o <= o' < o + n1)).
      * rewrite decide_True by lia. unfold arr_get. by rewrite lookup_app_l by lia.
      * by rewrite decide_False by lia.
  - intros Hi. rewrite G6; [auto|]. by rewrite H6.
  - intros l HR Hu. rewrite G7 by auto. auto.
Qed.

Lemma written_shift fs bm R o o' src src' fs' bm' :
  bytes_written fs bm R o src 0 fs' bm' -> bytes_written fs bm R o' src' 0 fs' bm'.
Proof.
  intros [H1 H2 H3 H4 H5 H6 H7]. constructor; try done. intros x Hx. rewrite H5 by done. by rewrite !decide_False by lia.
Qed.

Lemma write_blocks_spec fuel fs bm R src idx boff don :
  fs_ok fs -> file_ok fs bm R -> Forall is_byte src -> (length src <= fuel)%nat -> 0 <= boff < bs -> 0 <= idx -> 0 <= don ->
  idx * bs + boff + Z.of_nat (length src) <= (2 ^ 32 - 1) * bs ->
  exists e n fs' bm', write_blocks fuel fs bm src idx boff don = Some (e, don + n, fs', bm') /\
    0 <= n <= Z.of_nat (length src) /\ (e <> EOK -> don + n = 0) /\ alive fs fs' bm' /\
    (reach bm (idx * bs + boff + Z.of_nat (length src)) \/ n = Z.of_nat (length src) ->
     bytes_written fs bm R (idx * bs + boff) (take (Z.to_nat n) src) n fs' bm').
Proof.
  revert fs bm src idx boff don.
  induction fuel as [|fuel IH]; intros fs bm src idx boff don Hok Hf Hsrc Hfuel Hb Hi Hdon Hbig; cbn [write_blocks].
  { exists EOK, 0, fs, bm. rewrite Z.add_0_r. pose proof (written_none fs bm R (idx * bs + boff) (take (Z.to_nat 0) src) Hok Hf) as Hw.
    split_and!; [done|lia|lia|done| |done]. by eapply alive_written. }
  destruct (Z.ltb_spec 0 (Z.of_nat (length src))) as [Hpos|Hz]; cycle 1.
  { exists EOK, 0, fs, bm. rewrite Z.add_0_r. pose proof (written_none fs bm R (idx * bs + boff) (take (Z.to_nat 0) src) Hok Hf) as Hw.
    split_and!; [done|lia|lia|done| |done]. by eapply alive_written. }
  destruct (bs_range fs Hok) as [Hbs HN]. rewrite (fo_sabs _ Hok).
  remember (if bs - boff <? Z.of_nat (length src) then bs - boff else Z.of_nat (length src)) as k eqn:Ek.
  assert (Hk : 0 < k <= Z.of_nat (length src) /\ boff + k <= bs /\ (k = Z.of_nat (length src) \/ boff + k = bs))
    by (destruct (Z.ltb_spec (bs - boff) (Z.of_nat (length src))); lia).
  destruct (decide (idx < max_fba fs)) as [Hlt|Hge]; cycle 1.
  { rewrite mapblock_too_big by lia. cbn [mbind option_bind is_ok negb].
    eexists _, 0, fs, bm. rewrite Z.add_0_r. split; [done|]. split; [lia|]. split; [destruct (Z.eqb_spec don 0); lia || done|].
    pose proof (written_none fs bm R (idx * bs + boff) (take (Z.to_nat 0) src) Hok Hf) as Hw. split; [by eapply alive_written|done]. }
  assert (Hlen : length (take (Z.to_nat k) src) = Z.to_nat k) by (rewrite length_take; lia).
  destruct (write_round fs bm R idx boff (take (Z.to_nat k) src) (if k =? bs then kMapBlock_Replace else kMapBlock_Update))
    as (e & blk & fs1 & bm1 & Hm & Herr & Hal & Hdone); [done|done|unfold valid_fba; lia|lia|lia|by apply Forall_take| |].
  { destruct (Z.eqb_spec k bs); [right|by left]. split_and!; [done|lia|lia]. }
  rewrite (bind_some Hm). destruct (is_ok e) eqn:Ee; cycle 1.
  { apply is_ok_false in Ee as He. cbn [mbind option_bind]. rewrite Ee. cbn [negb].
    eexists _, 0, fs1, bm1. rewrite Z.add_0_r. split; [done|]. split; [lia|]. split; [destruct (Z.eqb_spec don 0); lia || done|].
    split; [by apply Hal|]. intros [Hr|]; [|lia]. apply Herr; [done|]. apply (reach_ready bm _ _ Hr); lia. }
  apply is_ok_true in Ee as ->. destruct (Hdone eq_refl) as (fs2 & Hu & Hw). rewrite (bind_some Hu). cbn [is_ok negb].
  rewrite u32_small by nia. assert (Hnext : idx + 1 <= 2 ^ 32 - 1) by nia. rewrite Hlen, Z2Nat.id in Hw by lia.
  assert (Hdl : Z.of_nat (length (drop (Z.to_nat k) src)) = Z.of_nat (length src) - k) by (rewrite length_drop; lia).
  destruct (IH fs2 bm1 (drop (Z.to_nat k) src) (idx + 1) 0 (don + k)) as (e3 & n & fs3 & bm3 & Hr & Hn & He3 & Hal3 & Hpost);
    [apply Hw|apply Hw|by apply Forall_drop|lia|lia|lia|lia|rewrite Hdl; destruct Hk as (_ & _ & [->|]); nia|].
  exists e3, (k + n), fs3, bm3. split; [by rewrite Hr, Z.add_assoc|]. split; [lia|]. split; [intros; specialize (He3 ltac:(done)); lia|].
  split; [eapply alive_trans; [by eapply alive_written|done]|].
  intros Hcond. replace (take (Z.to_nat (k + n)) src) with (take (Z.to_nat k) src ++ take (Z.to_nat n) (drop (Z.to_nat k) src)).
  2:{ rewrite Z2Nat.inj_add, <- take_take_drop by lia. done. }
  eapply written_app; [done| |lia|lia]. destruct (decide (k = Z.of_nat (length src))) as [Hall|Hmore].
  - assert (n = 0) as -> by lia. eapply written_shift, Hpost. right. lia.
  - replace (idx * bs + boff + k) with ((idx + 1) * bs + 0) by lia. apply Hpost.
    destruct Hcond as [[Hri|Hri]|]; [left; left; by rewrite (bw_ind _ _ _ _ _ _ _ _ Hw)|left; right; lia|right; lia].
Qed.

(** Only reserved blocks were written. *)
Definition reserved_change R fs fs' : Prop :=
  fs_ok fs' /\ same_params fs fs' /\ (forall x, used fs' x <-> used fs x) /\
  (forall l, ~ R l -> fdata fs' l = fdata fs l).

Lemma reserved_trans R fs1 fs2 fs3 : reserved_change R fs1 fs2 -> reserved_change R fs2 fs3 -> reserved_change R fs1 fs3.
Proof.
  intros (_ & Hp & Hu & Hd) (Hok & Hp' & Hu' & Hd'). split; [done|]. split; [by eapply same_params_trans|].
  split; [intros x; by rewrite Hu', Hu|intros l Hl; by rewrite Hd', Hd].
Qed.

Lemma reserved_file R fs fs' bm :
  file_ok fs bm R -> reserved_change R fs fs' ->
  file_ok fs' bm R /\ (forall b, valid_fba fs b -> file_block fs' bm b = file_block fs bm b).
Proof.
  intros Hf (Hok & Hp & Hu & Hd).
  assert (Hptr : forall b, ptr fs' bm b = ptr fs bm b).
  { intros b. apply ptr_data. destruct (fi_ind _ _ _ Hf) as [|[_ HnR]]; [by left|right; auto]. }
  split; [eapply file_ok_keep; [done|done|by intros b _|intros x; by rewrite Hu]|].
  intros b Hb. unfold file_block. rewrite Hptr. destruct (Z.eqb_spec (ptr fs bm b) 0); [done|].
  apply Hd. by destruct (fi_ptr _ _ _ Hf b Hb) as [|(_ & ? & _)].
Qed.

Lemma byte_valid fs o : fs_ok fs -> 0 <= o < max_fba fs * bs -> valid_fba fs (o / bs).
Proof.
  intros Hok Ho. destruct (bs_range fs Hok) as [Hbs _]. split; [apply Z.div_pos; lia|apply Z.div_lt_upper_bound; lia].
Qed.

Lemma reserved_byte R fs fs' bm o :
  fs_ok fs -> file_ok fs bm R -> reserved_change R fs fs' -> 0 <= o < max_fba fs * bs -> fbyte fs' bm o = fbyte fs bm o.
Proof.
  intros Hok Hf Hr Ho. destruct (reserved_file R fs fs' bm Hf Hr) as [_ Hb]. unfold fbyte. f_equal. by apply Hb, byte_valid.
Qed.

Lemma commit_fs fs R :
  fs_ok fs -> R (piece_lba (blockAllocator fs) 0) ->
  exists e a c, SfsAllocator_CommitToDisk (blockAllocator fs) (fs_container fs) = Some (e, a, c) /\
    reserved_change R fs (with_container (with_allocator fs a) c).
Proof.
  intros Hok HR. pose proof Hok as [].
  destruct (commit_single (blockAllocator fs) (fs_container fs)) as (e & a & c & Hc & Ha & Hc' & Hlay & Hbm & Hsy & _ & Ho & _);
    [done|done|done|lia|done|].
  exists e, a, c. split; [done|]. pose proof Hlay as (Hz & Hl & Hn & Hb & Hv). split; [|split; [|split]].
  - constructor; cbn; try done; lia || congruence.
  - do 4 (split; [done|]). exact Hlay.
  - intros x. unfold used. cbn. by rewrite Hbm, Hv.
  - intros l Hl'. apply Ho. by intros ->.
Qed.

Lemma writeback_fs now fs node R :
  fs_ok fs -> linkCount node <> 0 -> length (direct (bmap node)) = 110%nat -> (504 <= fsc_blockSize)%nat ->
  R (inid node) -> inid node <> piece_lba (blockAllocator fs) 0 ->
  exists e fs', Inode_Writeback now fs node = Some (e, fs', set_flags (Z.land (iflags node) (Z.lnot 0xe)) node) /\
    reserved_change R fs fs'.
Proof.
  intros Hok Hl Hd Hs HR Hne.
  destruct (writeback_spec now fs node Hok Hl Hd Hs Hne) as (e & fs' & Hw & Hok' & Hp & Hu & Ho & _).
  exists e, fs'. unfold Inode_Writeback. rewrite (bind_some Hw). split; [done|]. split; [done|]. split; [done|]. split; [done|].
  intros l Hl'. apply Ho. by intros ->.
Qed.

(** The bytes of a write survive the updates of the file's bookkeeping. *)
Lemma written_reserved fs bm R o src n fs1 bm1 fs2 o' :
  bytes_written fs bm R o src n fs1 bm1 -> reserved_change R fs1 fs2 -> 0 <= o' < max_fba fs * bs ->
  fbyte fs2 bm1 o' = if decide (o <= o' < o + n) then arr_get 0 src (o' - o) else fbyte fs bm o'.
Proof.
  intros [Hok Hp Hf _ Hb _ _] Hr Ho. rewrite (reserved_byte R fs1 fs2); [by apply Hb|done|done|done|].
  unfold max_fba in *. destruct Hp as (_ & _ & _ & -> & _). done.
Qed.

(** An open file: its blocks, and its inode in a reserved block of its own. *)
Record open_ok fs (node : Inode) R : Prop := {
  op_file : file_ok fs (bmap node) R;
  op_inode : R (inid node) /\ inid node <> piece_lba (blockAllocator fs) 0;
  op_links : linkCount node <> 0;
  op_size : 0 <= fsize node;
}.

Lemma small_offset fs o : fs_ok fs -> o <= (2 ^ 32 - 1) * bs -> o < 2 ^ 32 * bs /\ o < 2 ^ 50.
Proof. intros Hok Ho. destruct (bs_range fs Hok) as [Hbs _]. nia. Qed.

Lemma offset_parts fs o : fs_ok fs -> o / bs * bs + o mod bs = o /\ 0 <= o mod bs < bs.
Proof.
  intros Hok. destruct (bs_range fs Hok) as [Hbs _]. pose proof (Z.div_mod o bs). pose proof (Z.mod_pos_bound o bs). lia.
Qed.

(** What a write of [n] bytes of [src] at [offset] has done to a file. *)
Record file_written fs node R (offset : Z) (src : list Z) (n : Z) fs' node' : Prop := {
  fw_ok : fs_ok fs';
  fw_par : same_params fs fs';
  fw_open : open_ok fs' node' R;
  fw_size : fsize node' = if 0 <? n then Z.max (fsize node) (offset + n) else fsize node;
  fw_byte : forall o, 0 <= o < max_fba fs * bs -> fbyte fs' (bmap node') o =
    if decide (offset <= o < offset + n) then arr_get 0 src (o - offset) else fbyte fs (bmap node) o;
  fw_mono : forall x, used fs x -> used fs' x;
  fw_ind : indirect (bmap node) <> 0 -> indirect (bmap node') = indirect (bmap node);
}.

Lemma write_spec now fs node R offset src :
  fs_ok fs -> open_ok fs node R -> (504 <= fsc_blockSize)%nat -> Forall is_byte src -> 0 <= offset ->
  offset + Z.of_nat (length src) <= (2 ^ 32 - 1) * bs ->
  exists e n fs' node', SfsRegularFile_write now fs node offset src = Some (e, n, offset + n, fs', node') /\
    0 <= n <= Z.of_nat (length src) /\ inid node' = inid node /\
    (reach (bmap node) (offset + Z.of_nat (length src)) \/ n = Z.of_nat (length src) ->
     file_written fs node R offset (take (Z.to_nat n) src) n fs' node').
Proof.
  intros Hok [Hf [HRi Hni] Hl Hsz] Hbig Hsrc Hoff Hend. destruct (small_offset fs _ Hok Hend) as [Hs1 Hs2].
  destruct (bs_range fs Hok) as [Hbs _]. destruct (fi_bitmap _ _ _ Hf) as [HRb _].
  unfold SfsRegularFile_write, MAX_FILE_SIZE, SSIZE_MAX.
  destruct ((0 <? Z.of_nat (length src)) && (offset <? 0)) eqn:E1; [lia|].
  destruct ((0 <? Z.of_nat (length src)) && (2 ^ 63 - 1 <=? offset)) eqn:E2; [lia|].
  destruct ((0 <? Z.of_nat (length src)) && (2 ^ 63 - 1 - offset <=? 2 ^ 31 - 1) && (2 ^ 63 - 1 - offset <? Z.of_nat (length src))) eqn:E3; [lia|].
  rewrite convert_offset by (done || lia). rewrite Nat2Z.id, firstn_all.
  destruct (offset_parts fs offset Hok) as [Hpos Hm].
  destruct (write_blocks_spec (length src) fs (bmap node) R src (offset / bs) (offset mod bs) 0)
    as (e & n & fs1 & bm1 & Hw & Hn & _ & (Hok1 & Hp1 & Hm1 & Hd1) & Hpost);
    [done|done|done|lia|lia|apply Z.div_pos; lia|lia|lia|].
  rewrite Hpos in Hpost. rewrite (bind_some Hw), Z.add_0_l. cbn [bmap set_bmap fsize].
  assert (Hpl1 : piece_lba (blockAllocator fs1) 0 = piece_lba (blockAllocator fs) 0) by (by apply used_params).
  destruct (commit_fs fs1 R Hok1) as (e2 & a & c & Hc & Hr2); [by rewrite Hpl1|]. rewrite (bind_some Hc).
  remember (with_container (with_allocator fs1 a) c) as fs2 eqn:Efs2. pose proof Hr2 as (Hok2 & Hp2 & Hu2 & _).
  assert (Hpl2 : piece_lba (blockAllocator fs2) 0 = piece_lba (blockAllocator fs) 0) by (rewrite <- Hpl1; by apply used_params).
  destruct (Z.ltb_spec 0 n) as [Hn0|Hn0]; cycle 1.
  { eexists _, _, _, _. replace (offset + n) with offset by lia. split; [done|]. split; [done|]. split; [done|].
    intros Hcond. specialize (Hpost Hcond). assert (n = 0) as -> by lia. destruct (reserved_file R fs1 fs2 bm1 (bw_file _ _ _ _ _ _ _ _ Hpost) Hr2) as [Hf2 _].
    constructor; [done|by eapply same_params_trans|constructor; [done|cbn; by rewrite Hpl2|done|done]|done| |intros x Hx; apply Hu2; auto|apply Hpost].
    intros o Ho. cbn [bmap set_bmap]. by eapply written_reserved. }
  set (node1 := Inode_SetModified _ _).
  assert (Hnode1 : inid node1 = inid node /\ linkCount node1 = linkCount node /\ bmap node1 = bm1 /\
    fsize node1 = Z.max (fsize node) (offset + n)).
  { unfold node1. destruct (Z.ltb_spec (fsize node) (offset + n)); cbn; split_and!; lia || done. }
  destruct Hnode1 as (Hid & Hlk & Hbm & Hfs). clearbody node1.
  destruct (writeback_fs now fs2 node1 R) as (e3 & fs3 & Hwb & Hr3); [done|congruence|by rewrite Hbm|done|by rewrite Hid|by rewrite Hid, Hpl2|].
  rewrite (bind_some Hwb). pose proof (reserved_trans _ _ _ _ Hr2 Hr3) as Hr. pose proof Hr3 as (Hok3 & Hp3 & Hu3 & _).
  eexists _, _, _, _. split; [done|]. split; [done|]. split; [done|]. intros Hcond. specialize (Hpost Hcond).
  destruct (reserved_file R fs1 fs3 bm1 (bw_file _ _ _ _ _ _ _ _ Hpost) Hr) as [Hf3 _].
  assert (Hpl3 : piece_lba (blockAllocator fs3) 0 = piece_lba (blockAllocator fs) 0) by (rewrite <- Hpl2; by apply used_params).
  constructor.
  - done.
  - eapply same_params_trans; [done|]. by eapply same_params_trans.
  - constructor; cbn; [by rewrite Hbm|by rewrite Hid, Hpl3|congruence|rewrite Hfs; lia].
  - cbn. rewrite Hfs. destruct (Z.ltb_spec 0 n); [done|lia].
  - intros o Ho. cbn [bmap set_flags]. rewrite Hbm. by eapply written_reserved.
  - intros x Hx. apply Hu3, Hu2. auto.
  - cbn. rewrite Hbm. apply Hpost.
Qed.

Lemma read_spec acc fs node R offset n :
  fs_ok fs -> file_ok fs (bmap node) R -> 0 <= offset -> 0 <= n <= SSIZE_MAX -> 0 <= fsize node <= (2 ^ 32 - 1) * bs ->
  offset < 2 ^ 32 * bs -> reach (bmap node) (Z.min (offset + n) (fsize node)) ->
  exists e got fs' node', SfsRegularFile_read acc fs node offset n = Some (e, got, offset + Z.of_nat (length got), fs', node') /\
    same_data fs fs' /\ bmap node' = bmap node /\ fsize node' = fsize node /\
    bytes_read fs (bmap node) offset (Z.max 0 (Z.min n (fsize node - offset))) true e got.
Proof.
  intros Hok Hf Hoff Hn Hsz Hob Hreach. destruct (bs_range fs Hok) as [Hbs _]. unfold SfsRegularFile_read, SSIZE_MAX in *.
  destruct (Z.ltb_spec n 0); [lia|]. destruct ((0 <? n) && (offset <? 0)) eqn:E1; [lia|].
  assert ((if 0 <? fsize node - offset
     then if (fsize node - offset <=? 2 ^ 31 - 1) && (fsize node - offset <? n) then fsize node - offset else n
     else 0) = Z.max 0 (Z.min n (fsize node - offset))) as ->.
  { destruct (Z.ltb_spec 0 (fsize node - offset)); [|lia].
    destruct ((fsize node - offset <=? 2 ^ 31 - 1) && (fsize node - offset <? n)) eqn:E2; lia. }
  remember (Z.max 0 (Z.min n (fsize node - offset))) as m eqn:Em. rewrite convert_offset by (done || lia).
  destruct (offset_parts fs offset Hok) as [Hpos Hm].
  assert (Hres : exists e got fs', read_blocks (Z.to_nat m) fs (bmap node) m (offset / bs) (offset mod bs) [] = Some (e, got, fs', bmap node) /\
    same_data fs fs' /\ bytes_read fs (bmap node) offset m true e got).
  { destruct (decide (m = 0)) as [->|Hm0].
    - exists EOK, [], fs. split; [done|]. split; [by apply same_data_refl|]. split_and!; simpl; lia || done.
    - destruct (read_blocks_spec (Z.to_nat m) fs (bmap node) R m (offset / bs) (offset mod bs) []) as (e & got & fs' & H1 & H2 & H3);
        [done|done|lia|lia|apply Z.div_pos; lia|lia| |].
      + left. rewrite Hpos. replace (offset + m) with (Z.min (offset + n) (fsize node)) by lia. done.
      + exists e, got, fs'. rewrite Hpos in H3. done. }
  destruct Hres as (e & got & fs' & Hr & Hsd & Hb). rewrite (bind_some Hr). eexists _, _, _, _. split; [done|].
  split; [done|]. split; [|split; [|done]]; destruct got, acc; done.
Qed.
End RegularSpecs.

(** ** Reading back what was written *)

Section RegularThm.
Context {C} {FC : FSContainer C} {FCS : FSContainerSpec C}.
Implicit Types (fs : SerenaFS C) (node : Inode) (R : Z -> Prop).
Notation bs := (Z.of_nat fsc_blockSize).

(** What a read of [m] bytes at [o] of the file [node] returns when its bytes
    are given by [content]. *)
Definition reads_as acc fs node (content : Z -> Z) (o m : Z) : Prop :=
  exists e got fs' node', SfsRegularFile_read acc fs node o m = Some (e, got, o + Z.of_nat (length got), fs', node') /\
    same_data fs fs' /\ bmap node' = bmap node /\ fsize node' = fsize node /\
    got = map (fun i => content (o + Z.of_nat i)) (seq 0 (length got)) /\
    let avail := Z.max 0 (Z.min m (fsize node - o)) in
    Z.of_nat (length got) <= avail /\ (Z.of_nat (length got) = avail -> e = EOK) /\ (got = [] -> 0 < avail -> e <> EOK).

Lemma got_content (got : list Z) (f : Z -> Z) (o : Z) :
  (forall i, (i < length got)%nat -> got !! i = Some (f (o + Z.of_nat i))) ->
  got = map (fun i => f (o + Z.of_nat i)) (seq 0 (length got)).
Proof.
  intros H. apply list_eq. intros i. rewrite list_lookup_fmap. destruct (decide (i < length got)%nat) as [Hi|Hi].
  - rewrite lookup_seq_lt by done. by apply H.
  - rewrite !lookup_ge_None_2 by (rewrite ?length_seq; lia). done.
Qed.

Lemma read_reads_as acc fs node R content o m :
  fs_ok fs -> file_ok fs (bmap node) R -> 0 <= o -> 0 <= m <= SSIZE_MAX -> 0 <= fsize node <= (2 ^ 32 - 1) * bs ->
  o + m <= max_fba fs * bs -> reach (bmap node) (Z.min (o + m) (fsize node)) ->
  (forall o', 0 <= o' < max_fba fs * bs -> fbyte fs (bmap node) o' = content o') -> reads_as acc fs node content o m.
Proof.
  intros Hok Hf Ho Hm Hsz Hmax Hr Hc. destruct (bs_range fs Hok) as [Hbs HN].
  assert (Ho' : o < 2 ^ 32 * bs) by (unfold max_fba, kSFSDirectBlockPointersCount in *; nia).
  destruct (read_spec acc fs node R o m Hok Hf Ho Hm Hsz Ho' Hr) as (e & got & fs' & node' & H1 & H2 & H3 & H4 & H5 & H6 & H7 & H8).
  exists e, got, fs', node'. cbv zeta. split_and!; [done|done|done|done| |done|done|].
  - apply got_content. intros i Hi. rewrite (H6 i Hi). f_equal. apply Hc. lia.
  - intros -> Ha He. cbn [length] in *. destruct (proj1 (H7 Ha) He). done.
Qed.

End RegularThm.

(** ** A file of a small volume *)

#[local] Existing Instance big_container.
#[local] Existing Instance big_container_spec.

Definition demo_reserved_blocks (l : Z) : Prop := l = 1 \/ l = 2.

Definition new_inode (links : Z) : Inode :=
  INode 2 7 links FS_FTYPE_REG 0x1a4 10 11 0 (1, 2) (3, 4) (5, 6) 0 (Bmap 0 (replicate 110 0)).

Lemma new_inode_open : open_ok big_volume (new_inode 1) demo_reserved_blocks.
Proof.
  assert (Hp : forall b, ptr big_volume (bmap (new_inode 1)) b = 0).
  { intros b. unfold ptr. destruct (b <? kSFSDirectBlockPointersCount); [|done]. unfold arr_get. cbn [bmap new_inode direct].
    destruct (replicate 110 0 !! Z.to_nat b) as [x|] eqn:E; [|done]. by apply lookup_replicate in E as [-> _]. }
  constructor; [constructor|split; [by right|by vm_compute]|done|done].
  - done.
  - left. apply Hp.
  - by left.
  - intros a b _ _ Ha. by rewrite Hp in Ha.
  - intros l [-> | ->]; right; split; by vm_compute.
  - split; [by left|split; by vm_compute].
Qed.


(** Truncating a file and growing it again exposes the bytes that were cut
    off: the tail of the last block is not cleared, and what reads as zero after
    growing a file elsewhere reads as old content here. *)
Theorem regrown_file_shows_old_bytes :
  exists fs node e n o fs1 node1 fs2 node2 fs3 node3 e4 o4 fs4 node4,
    fs_ok fs /\ open_ok fs node demo_reserved_blocks /\
    SfsRegularFile_write (100, 200) fs node 0 [7; 8; 9] = Some (e, n, o, fs1, node1) /\
    SfsRegularFile_truncate (100, 200) fs1 node1 1 = Some (EOK, fs2, node2) /\ fsize node2 = 1 /\
    SfsRegularFile_truncate (100, 200) fs2 node2 3 = Some (EOK, fs3, node3) /\
    SfsRegularFile_read true fs3 node3 0 3 = Some (e4, [7; 8; 9], o4, fs4, node4).
Proof.
  exists big_volume, (new_inode 1). eexists _, _, _, _, _, _, _, _, _, _, _, _, _.
  split; [exact big_volume_ok|]. split; [exact new_inode_open|].
  split; [vm_compute; reflexivity|]. split; [vm_compute; reflexivity|]. split; [reflexivity|].
  split; [vm_compute; reflexivity|].
  vm_compute. reflexivity.
Qed.

(** A write to an open file whose last link is gone reports success, but
    writing the inode back deletes the file while it is open: its content and
    its size are gone and its inode block is free for the next file. *)
Theorem write_to_unlinked_file_deletes_it :
  exists fs' node', fs_ok big_volume /\ used big_volume (inid (new_inode 0)) /\
    SfsRegularFile_write (100, 200) big_volume (new_inode 0) 0 [7; 8; 9] = Some (EOK, 3, 3, fs', node') /\
    fsize node' = 0 /\ bmap node' = bmap (new_inode 0) /\ ~ used fs' (inid node') /\
    AllocationBitmap_IsBlockInUse (bitmap (blockAllocator fs')) (inid node') = Some false.
Proof.
  eexists _, _. split; [exact big_volume_ok|]. split; [split; by vm_compute|]. split; [vm_compute; reflexivity|].
  split; [reflexivity|]. split; [reflexivity|]. split; [intros [_ H]; by vm_compute in H|reflexivity].
Qed.
