(* ===== verification/SfsDirectory.v ===== *)
(** * Directories of the Serena filesystem (kern/src/filesystem/serenafs/SfsDirectory.c)

    A directory is a file of 32-byte entries.  The code searches it block by
    block, reuses free entries for new names and clears the entries of removed
    names.  The theorems show that it is a finite map from names to inodes. *)

From S2P Require Import Prelude Bytes FSContainer SfsAllocator SfsFile SfsInode SfsRegularFile.

Definition kSFSMaxFilenameLength : Z := 27.
Definition kSFSLimit_LinkMax : Z := 0x7fffffff.

(** The layout of sfs_dirent: the inode id, the length of the name, the name. *)
Definition dirent_size : nat := 32.
Definition de_id (d : list Z) (o : nat) : Z := load32 o d.
Definition de_len (d : list Z) (o : nat) : Z := arr_get 0 d (Z.of_nat (o + 4)).

(** A path component is its characters; its count is their number.  [rhs] is the
    memory that the other string starts at. *)
Fixpoint equal_chars (lhs rhs : list Z) : bool :=
  match lhs, rhs with
  | [], _ => true
  | a :: lhs, b :: rhs => (a =? b) && equal_chars lhs rhs
  | _, [] => false
  end.

Definition PathComponent_EqualsString (pc rhs : list Z) (rhsLength : Z) : bool :=
  if Z.of_nat (length pc) =? rhsLength then equal_chars pc rhs else false.

(** [cap] is the capacity; [None] stands for an error, after which the count is
    zero. *)
Definition MutablePathComponent_SetString (cap : Z) (str : list Z) (len : Z) : errno * list Z :=
  if cap <? len then (ERANGE, []) else (EOK, take (Z.to_nat len) str).

Definition kPathComponent_Parent : list Z := [46; 46].

Inductive sfs_query_kind := kSFSQuery_PathComponent (pc : list Z) | kSFSQuery_InodeId (id : Z).

(** [q_mpc] is the capacity of the caller's name buffer, [q_ih] says whether the
    caller wants an insertion hint. *)
Record sfs_query := Query { q_kind : sfs_query_kind; q_mpc : option Z; q_ih : bool }.

Record sfs_query_result := QueryResult {
  qr_mpc : option (list Z);
  qr_id : Z;
  qr_lba : Z;
  qr_blockOffset : Z;
  qr_fileOffset : Z;
  qr_ih : option (Z * Z);
}.

(** Whether the entry at [o] answers the query. *)
Definition entry_done (k : sfs_query_kind) (d : list Z) (o : nat) : bool :=
  match k with
  | kSFSQuery_PathComponent pc => PathComponent_EqualsString pc (drop (o + 5) d) (de_len d o)
  | kSFSQuery_InodeId id => u32 id =? de_id d o
  end.

Definition found_at (q : sfs_query) (d : list Z) (o : nat) (lba offset : Z) (ih : option (Z * Z)) : sfs_query_result :=
  QueryResult
    (match q_kind q, q_mpc q with
     | kSFSQuery_InodeId _, Some cap => Some (snd (MutablePathComponent_SetString cap (drop (o + 5) d) (de_len d o)))
     | _, _ => None
     end)
    (de_id d o) lba (Z.of_nat o) offset ih.

Definition no_result (q : sfs_query) (ih : option (Z * Z)) : sfs_query_result :=
  QueryResult (match q_kind q, q_mpc q with kSFSQuery_InodeId _, Some _ => Some [] | _, _ => None end) 0 0 0 0 ih.

(** The entries of one block from [o] on; [ih] is the hint so far and [has]
    whether there is one.  An entry outside of the block gives [None]. *)
Fixpoint query_block (n : nat) (q : sfs_query) (fileSize lba : Z) (d : list Z) (o : nat) (offset : Z)
    (ih : option (Z * Z)) (has : bool) : option (option sfs_query_result * Z * option (Z * Z) * bool) :=
  match n with
  | O => Some (None, offset, ih, has)
  | S n =>
      if (o <? length d)%nat && (offset <? fileSize) then
        if (length d <? o + dirent_size)%nat then None
        else if 0 <? de_id d o then
          if entry_done (q_kind q) d o then Some (Some (found_at q d o lba offset ih), offset, ih, has)
          else query_block n q fileSize lba d (o + dirent_size) (offset + Z.of_nat dirent_size) ih has
        else
          let '(ih, has) := match ih, has with
                            | Some _, false => (Some (lba, Z.of_nat o), true)
                            | _, _ => (ih, has)
                            end in
          query_block n q fileSize lba d (o + dirent_size) (offset + Z.of_nat dirent_size) ih has
      else Some (None, offset, ih, has)
  end.

(** The size of dir_entry_t of the kernel interface: an inode id, 255 characters
    and one byte of padding, which takes the terminator of a longest name. *)
Definition dir_entry_size : Z := 260.

(** Copies the entries of one block from [o] on to the caller; [n] is
    nBytesToReadInBlock, [dst] nDstBytesToRead.  A name that is not inside of
    the block gives [None]. *)
Fixpoint read_entries (fuel : nat) (d : list Z) (o : nat) (n dst src : Z) (got : list (Z * list Z))
  : option (Z * Z * list (Z * list Z)) :=
  match fuel with
  | O => Some (dst, src, got)
  | S fuel =>
      if (0 <? n) && (dir_entry_size <=? dst) then
        if (length d <? o + 5)%nat then None
        else if 0 <? de_id d o then
          if (length d <? o + 5 + Z.to_nat (de_len d o))%nat then None
          else read_entries fuel d (o + dirent_size) (n - Z.of_nat dirent_size) (dst - dir_entry_size) (src + Z.of_nat dirent_size)
                 (got ++ [(de_id d o, slice (o + 5) (Z.to_nat (de_len d o)) d)])
        else read_entries fuel d (o + dirent_size) (n - Z.of_nat dirent_size) dst (src + Z.of_nat dirent_size) got
      else Some (dst, src, got)
  end.

Section Directory.
Context {C} {FC : FSContainer C}.

(** The loop of SfsDirectory_read; [src] bytes of the directory are read and
    [n] are left. *)
Fixpoint read_dir_blocks (fuel : nat) (fs : SerenaFS C) (bm : sfs_bmap) (n dst blockIdx blockOffset src : Z)
    (got : list (Z * list Z)) : option (errno * Z * list (Z * list Z) * SerenaFS C * sfs_bmap) :=
  match fuel with
  | O => Some (EOK, src, got, fs, bm)
  | S fuel =>
      if (0 <? n) && (dir_entry_size <=? dst) then
        let nRemainderBlockSize := sa_blockSize (blockAllocator fs) - blockOffset in
        let k := if nRemainderBlockSize <? n then nRemainderBlockSize else n in
        '(e1, blk, fs, bm) ← SfsFile_MapBlock fs bm blockIdx kMapBlock_ReadOnly;
        if negb (is_ok e1) then Some (if src =? 0 then e1 else EOK, src, got, fs, bm)
        else
          '(dst, src', got) ← read_entries (Z.to_nat k) (fb_data blk) (Z.to_nat blockOffset) k dst 0 got;
          '(_, fs) ← SfsFile_UnmapBlock fs blk (fb_data blk) kWriteBlock_None;
          read_dir_blocks fuel fs bm (n - src') dst (u32 (blockIdx + 1)) 0 (src + src') got
      else Some (EOK, src, got, fs, bm)
  end.

(** Returns the error, the entries, the new offset and the new state.  The
    number of bytes returned is the number of entries times their size. *)
Definition SfsDirectory_read (isAccessUpdateOnReadEnabled : bool) (fs : SerenaFS C) (self : Inode) (offset nDstBytesToRead : Z)
  : option (errno * list (Z * list Z) * Z * SerenaFS C * Inode) :=
  if nDstBytesToRead <? 0 then Some (EINVAL, [], offset, fs, self)
  else if (0 <? nDstBytesToRead) && (offset <? 0) then Some (EOVERFLOW, [], offset, fs, self)
  else
    let nAvailBytes := fsize self - offset in
    let n := if nAvailBytes <=? SSIZE_MAX then s32 nAvailBytes else SSIZE_MAX in
    let '(blockIdx, blockOffset) := SfsFile_ConvertOffset fs offset in
    '(e, src, got, fs, bm) ← read_dir_blocks (Z.to_nat n) fs (bmap self) n nDstBytesToRead blockIdx blockOffset 0 [];
    let self := set_bmap bm self in
    let self := if (0 <? src) && isAccessUpdateOnReadEnabled then Inode_SetModified kInodeFlag_Accessed self else self in
    Some (e, got, offset + src, fs, self).

(** The loop over the blocks. *)
Fixpoint query_blocks (fuel : nat) (fs : SerenaFS C) (bm : sfs_bmap) (q : sfs_query) (fileSize blockIdx offset : Z)
    (ih : option (Z * Z)) (has : bool) : option (option sfs_query_result * option (Z * Z) * SerenaFS C * sfs_bmap) :=
  match fuel with
  | O => Some (None, ih, fs, bm)
  | S fuel =>
      if offset <? fileSize then
        '(e, blk, fs, bm) ← SfsFile_MapBlock fs bm blockIdx kMapBlock_ReadOnly;
        if negb (is_ok e) then Some (None, ih, fs, bm)
        else
          '(r, offset, ih, has) ← query_block (Z.to_nat (fs_blockSize fs)) q fileSize (fb_lba blk) (fb_data blk) 0 offset ih has;
          '(_, fs) ← SfsFile_UnmapBlock fs blk (fb_data blk) kWriteBlock_None;
          match r with
          | Some r => Some (Some r, ih, fs, bm)
          | None => query_blocks fuel fs bm q fileSize (u32 (blockIdx + 1)) offset ih has
          end
      else Some (None, ih, fs, bm)
  end.

Definition SfsDirectory_Query (fs : SerenaFS C) (self : Inode) (q : sfs_query)
  : option (errno * sfs_query_result * SerenaFS C * Inode) :=
  let ih := if q_ih q then Some (0, 0) else None in
  match q_kind q with
  | kSFSQuery_PathComponent [] => Some (ENOENT, no_result q ih, fs, self)
  | _ =>
    if match q_kind q with kSFSQuery_PathComponent pc => kSFSMaxFilenameLength <? Z.of_nat (length pc) | _ => false end
    then Some (ENAMETOOLONG, no_result q ih, fs, self)
    else
      '(r, ih, fs, bm) ← query_blocks (Z.to_nat (fsize self / Z.of_nat dirent_size + 1)) fs (bmap self) q (fsize self) 0 0 ih false;
      match r with
      | Some r => Some (EOK, r, fs, set_bmap bm self)
      | None => Some (ENOENT, no_result q ih, fs, set_bmap bm self)
      end
  end.

Definition SfsDirectory_IsNotEmpty (self : Inode) : bool :=
  (1 <? linkCount self) || (2 * Z.of_nat dirent_size <? fsize self).

Definition SfsDirectory_CanAcceptEntry (self : Inode) (name : list Z) (itype : Z) : errno :=
  if kSFSMaxFilenameLength <? Z.of_nat (length name) then ENAMETOOLONG
  else if (itype =? kSFSInode_Directory) && (kSFSLimit_LinkMax <=? linkCount self) then EMLINK
  else EOK.

(** The stores to an entry: memset and memcpy of the name, its length. *)
Definition set_name (name d : list Z) (o : nat) : list Z :=
  patch (o + 4) [u8 (Z.of_nat (length name))] (patch (o + 5) name (patch (o + 5) (replicate 27 0) d)).

(** [stale] is the content of [blk.isZeroFill], which the code leaves
    uninitialised when it follows the hint. *)
Definition SfsDirectory_InsertEntry (stale : bool) (fs : SerenaFS C) (self : Inode) (name : list Z) (child : Inode)
    (ih : option (Z * Z)) : option (errno * SerenaFS C * Inode) :=
  let hint := match ih with Some (lba, o) => if 0 <? lba then Some (lba, o) else None | None => None end in
  '(e, blk, blockOffset, fs, self) ←
    match hint with
    | Some (lba, o) =>
        let '(e, d, fs) := fs_map fs lba kMapBlock_Update in
        Some (e, FB d lba false stale, o, fs, self)
    | None =>
        let '(fba, o) := SfsFile_ConvertOffset fs (fsize self) in
        '(e, blk, fs, bm) ← SfsFile_MapBlock fs (bmap self) fba kMapBlock_Update;
        let self := set_bmap bm self in
        if negb (is_ok e) then Some (e, blk, o, fs, self)
        else
          '(e, a, c) ← SfsAllocator_CommitToDisk (blockAllocator fs) (fs_container fs);
          let fs := with_container (with_allocator fs a) c in
          if negb (is_ok e) then Some (e, blk, o, fs, self)
          else Some (EOK, blk, o, fs, Inode_SetFileSize (fsize self + Z.of_nat dirent_size) self)
    end;
  if negb (is_ok e) then Some (e, fs, self)
  else
    let o := Z.to_nat blockOffset in
    let d := store32 o (inid child) (set_name name (fb_data blk) o) in
    '(_, fs) ← SfsFile_UnmapBlock fs blk d kWriteBlock_Deferred;
    let self := if Inode_IsDirectory child then Inode_Link self else self in
    Some (EOK, fs, Inode_SetModified (Z.lor kInodeFlag_Updated kInodeFlag_StatusChanged) self).

Definition SfsDirectory_RemoveEntry (fs : SerenaFS C) (self child : Inode) : option (errno * SerenaFS C * Inode) :=
  '(e, qr, fs, self) ← SfsDirectory_Query fs self (Query (kSFSQuery_InodeId (inid child)) None false);
  if negb (is_ok e) then Some (e, fs, self)
  else
    let '(e, d, fs) := fs_map fs (qr_lba qr) kMapBlock_Update in
    if negb (is_ok e) then Some (e, fs, self)
    else
      let d := patch (Z.to_nat (qr_blockOffset qr)) (replicate dirent_size 0) d in
      let '(_, fs) := fs_unmap fs (qr_lba qr) d kWriteBlock_Deferred in
      '(fs, self) ←
        (if fsize self - Z.of_nat dirent_size =? qr_fileOffset qr then
           '(_, fs, bm) ← SfsFile_Trim fs (bmap self) (qr_fileOffset qr);
           Some (fs, Inode_SetFileSize (qr_fileOffset qr) (set_bmap bm self))
         else Some (fs, self));
      let self := if Inode_IsDirectory child then Inode_Unlink self else self in
      Some (EOK, fs, Inode_SetModified (Z.lor kInodeFlag_Updated kInodeFlag_StatusChanged) self).

Definition SfsDirectory_UpdateParentEntry (fs : SerenaFS C) (self : Inode) (pnid : Z) : option (errno * SerenaFS C * Inode) :=
  '(e, qr, fs, self) ← SfsDirectory_Query fs self (Query (kSFSQuery_PathComponent kPathComponent_Parent) None false);
  if negb (is_ok e) then Some (e, fs, self)
  else
    let '(e, d, fs) := fs_map fs (qr_lba qr) kMapBlock_Update in
    if negb (is_ok e) then Some (e, fs, self)
    else
      let '(_, fs) := fs_unmap fs (qr_lba qr) (store32 (Z.to_nat (qr_blockOffset qr)) pnid d) kWriteBlock_Deferred in
      Some (EOK, fs, self).

(** Renaming an entry in place (SerenaFS_rename). *)
Definition SerenaFS_rename (fs : SerenaFS C) (node dir : Inode) (newName : list Z) : option (errno * SerenaFS C * Inode) :=
  if kSFSMaxFilenameLength <? Z.of_nat (length newName) then Some (ENAMETOOLONG, fs, dir)
  else
    '(e, qr, fs, dir) ← SfsDirectory_Query fs dir (Query (kSFSQuery_InodeId (inid node)) None false);
    if negb (is_ok e) then Some (e, fs, dir)
    else
      let '(e, d, fs) := fs_map fs (qr_lba qr) kMapBlock_Update in
      if negb (is_ok e) then Some (e, fs, dir)
      else
        let '(_, fs) := fs_unmap fs (qr_lba qr) (set_name newName d (Z.to_nat (qr_blockOffset qr))) kWriteBlock_Deferred in
        Some (EOK, fs, dir).
End Directory.

(** ** Entries *)

Lemma equal_chars_spec l r : equal_chars l r = bool_decide (take (length l) r = l).
Proof.
  revert r. induction l as [|a l IH]; intros [|b r]; cbn; [done|done|by rewrite bool_decide_eq_false_2|].
  rewrite IH. destruct (Z.eqb_spec a b) as [->|Hn]; cbn.
  - apply bool_decide_ext. split; congruence.
  - rewrite bool_decide_eq_false_2; [done|]. congruence.
Qed.

(** An entry, cut out of its block. *)
Definition entry_id (e : list Z) : Z := de_id e 0.
Definition entry_name (e : list Z) : list Z := slice 5 (Z.to_nat (de_len e 0)) e.
Definition live (e : list Z) : Prop := 0 < entry_id e.
Definition entry_ok (e : list Z) : Prop :=
  length e = dirent_size /\ Forall is_byte e /\ (live e -> 1 <= de_len e 0 <= 27).

Definition kind_ok (k : sfs_query_kind) : Prop :=
  match k with kSFSQuery_PathComponent pc => 1 <= Z.of_nat (length pc) <= 27 | kSFSQuery_InodeId id => 0 < id < 2 ^ 32 end.

Definition entry_matches (k : sfs_query_kind) (e : list Z) : bool := (0 <? entry_id e) && entry_done k e 0.

Lemma slice_slice o n a k (d : list Z) : (a + k <= n)%nat -> slice a k (slice o n d) = slice (o + a) k d.
Proof.
  intros H. apply list_eq. intros i. destruct (decide (i < k)%nat).
  - rewrite !lookup_slice by lia. f_equal. lia.
  - rewrite !lookup_ge_None_2; [done|unfold slice; rewrite length_take; lia|unfold slice; rewrite length_take; lia].
Qed.

Section EntryInBlock.
Context (d : list Z) (o : nat) (Ho : (o + dirent_size <= length d)%nat).

Lemma entry_id_block : de_id d o = entry_id (slice o dirent_size d).
Proof. unfold entry_id, de_id, load. rewrite slice_slice by (unfold dirent_size; lia). by rewrite Nat.add_0_r. Qed.

Lemma entry_len_block : de_len d o = de_len (slice o dirent_size d) 0.
Proof. unfold de_len, arr_get. rewrite lookup_slice by (unfold dirent_size; lia). do 2 f_equal. lia. Qed.

Lemma entry_done_block k : kind_ok k -> entry_done k d o = entry_done k (slice o dirent_size d) 0.
Proof.
  intros Hk. destruct k as [pc|id]; cbn [entry_done]; [|by rewrite entry_id_block].
  unfold PathComponent_EqualsString. rewrite entry_len_block. destruct (_ =? _); [|done].
  rewrite !equal_chars_spec. change (take ?n (drop ?a ?l)) with (slice a n l). cbn in Hk.
  rewrite slice_slice by (unfold dirent_size; lia). done.
Qed.
End EntryInBlock.

(** A name matches the entries with that name. *)
Lemma name_matches pc e :
  entry_ok e -> 1 <= Z.of_nat (length pc) <= 27 ->
  entry_matches (kSFSQuery_PathComponent pc) e = true <-> live e /\ entry_name e = pc.
Proof.
  intros (Hl & Hb & Hn) Hpc. unfold entry_matches, live. cbn [entry_done]. unfold PathComponent_EqualsString.
  rewrite andb_true_iff, Z.ltb_lt, equal_chars_spec. change (take ?n (drop ?a ?l)) with (slice a n l). unfold entry_name.
  split; intros [Hlive H]; (split; [done|]).
  - destruct (Z.eqb_spec (Z.of_nat (length pc)) (de_len e 0)) as [<-|]; [|done]. rewrite Nat2Z.id.
    by apply bool_decide_eq_true in H.
  - specialize (Hn Hlive). assert (Hlen : length pc = Z.to_nat (de_len e 0)).
    { rewrite <- H. apply length_slice. unfold dirent_size in Hl. lia. }
    rewrite Hlen, Z2Nat.id, Z.eqb_refl by lia. by apply bool_decide_eq_true.
Qed.

Lemma id_matches id e : 0 < id < 2 ^ 32 -> entry_matches (kSFSQuery_InodeId id) e = true <-> entry_id e = id.
Proof.
  intros Hid. unfold entry_matches. cbn [entry_done]. rewrite u32_small by lia. unfold entry_id. rewrite andb_true_iff, Z.ltb_lt, Z.eqb_eq.
  split; [intros [_ ?]; congruence|intros ->; lia].
Qed.

(** The first of [n] numbers from [k] on that satisfies [f]. *)
Fixpoint first_from (f : Z -> bool) (n : nat) (k : Z) : option Z :=
  match n with
  | O => None
  | S n => if f k then Some k else first_from f n (k + 1)
  end.

Lemma first_from_app f n m k :
  first_from f (n + m) k = match first_from f n k with Some j => Some j | None => first_from f m (k + Z.of_nat n) end.
Proof.
  revert k. induction n as [|n IH]; intros k; cbn [first_from Nat.add]; [f_equal; lia|].
  destruct (f k); [done|]. rewrite IH. destruct (first_from f n (k + 1)); [done|]. f_equal. lia.
Qed.

Lemma first_from_ext f g n k : (forall j, k <= j < k + Z.of_nat n -> f j = g j) -> first_from f n k = first_from g n k.
Proof.
  revert k. induction n as [|n IH]; intros k H; cbn [first_from]; [done|]. rewrite H by lia.
  destruct (g k); [done|]. apply IH. intros j Hj. apply H. lia.
Qed.

Lemma first_from_Some f n k j :
  first_from f n k = Some j -> k <= j < k + Z.of_nat n /\ f j = true /\ forall i, k <= i < j -> f i = false.
Proof.
  revert k. induction n as [|n IH]; intros k H; cbn [first_from] in H; [done|]. destruct (f k) eqn:E.
  - injection H as <-. split; [lia|]. split; [done|lia].
  - apply IH in H as (H1 & H2 & H3). split; [lia|]. split; [done|]. intros i Hi. destruct (decide (i = k)) as [->|]; [done|]. apply H3. lia.
Qed.

Lemma first_from_None f n k : first_from f n k = None -> forall i, k <= i < k + Z.of_nat n -> f i = false.
Proof.
  revert k. induction n as [|n IH]; intros k H i Hi; cbn [first_from] in H; [lia|]. destruct (f k) eqn:E; [done|].
  destruct (decide (i = k)) as [->|]; [done|]. apply (IH (k + 1)); [done|lia].
Qed.

(** ** Writing entries *)

Lemma patch_patch o a (x e d : list Z) :
  (a + length x <= length e)%nat -> (o + length e <= length d)%nat ->
  patch (o + a) x (patch o e d) = patch o (patch a x e) d.
Proof.
  intros Ha Ho. apply list_eq. intros i. assert (length (patch a x e) = length e) by (by apply length_patch).
  assert (length (patch o e d) = length d) by (by apply length_patch).
  destruct (decide (o + a <= i < o + a + length x)%nat).
  - rewrite lookup_patch_in, lookup_patch_in, lookup_patch_in by lia. f_equal. lia.
  - rewrite lookup_patch_out by lia. destruct (decide (o <= i < o + length e)%nat).
    + rewrite lookup_patch_in, lookup_patch_in, lookup_patch_out by lia. done.
    + rewrite !lookup_patch_out by lia. done.
Qed.

Lemma patch_slice o n (d : list Z) : (o + n <= length d)%nat -> patch o (slice o n d) d = d.
Proof.
  intros H. apply list_eq. intros i. pose proof (length_slice o n d H) as Hl. destruct (decide (o <= i < o + n)%nat).
  - rewrite lookup_patch_in, lookup_slice by lia. f_equal. lia.
  - rewrite lookup_patch_out by lia. done.
Qed.

(** The stores to an entry of a block are the stores to the entry. *)
Lemma set_name_block name d o :
  (o + dirent_size <= length d)%nat -> (length name <= 27)%nat ->
  set_name name d o = patch o (set_name name (slice o dirent_size d) 0) d.
Proof.
  intros Ho Hn. unfold set_name. pose proof (length_slice o dirent_size d Ho) as Hl. unfold dirent_size in *.
  rewrite <- (patch_slice o 32 d Ho) at 1. rewrite !Nat.add_0_l.
  rewrite patch_patch by buf_lia. rewrite patch_patch by buf_lia. by rewrite patch_patch by buf_lia.
Qed.

Definition new_entry (id : Z) (name e : list Z) : list Z := store32 0 id (set_name name e 0).

Lemma store_name_block id name d o :
  (o + dirent_size <= length d)%nat -> (length name <= 27)%nat ->
  store32 o id (set_name name d o) = patch o (new_entry id name (slice o dirent_size d)) d.
Proof.
  intros Ho Hn. rewrite set_name_block by done. unfold new_entry, store. pose proof (length_slice o dirent_size d Ho) as Hl.
  assert (length (set_name name (slice o dirent_size d) 0) = dirent_size) as Hs.
  { unfold set_name, dirent_size in *. buf_lia. }
  pose proof (patch_patch o 0 (be_bytes 4 id) (set_name name (slice o dirent_size d) 0) d) as H.
  rewrite Nat.add_0_r in H. apply H; rewrite ?length_be_bytes, ?Hs; unfold dirent_size in *; lia.
Qed.

Section NamedEntry.
Context (name e : list Z) (He : length e = dirent_size) (Hn : 1 <= Z.of_nat (length name) <= 27).

Lemma length_set_name : length (set_name name e 0) = dirent_size.
Proof. unfold set_name, dirent_size in *. buf_lia. Qed.

Lemma set_name_id : entry_id (set_name name e 0) = entry_id e.
Proof.
  unfold set_name, entry_id, de_id, dirent_size in *.
  by rewrite !load_patch_other by buf_lia.
Qed.

Lemma set_name_len : de_len (set_name name e 0) 0 = Z.of_nat (length name).
Proof.
  unfold set_name, de_len, arr_get, dirent_size in *. rewrite lookup_patch_in by buf_lia.
  unfold u8. cbn. rewrite Z.mod_small by lia. done.
Qed.

Lemma set_name_name : entry_name (set_name name e 0) = name.
Proof.
  unfold entry_name. rewrite set_name_len, Nat2Z.id. unfold set_name, dirent_size in *. rewrite !Nat.add_0_l.
  rewrite slice_patch_other by buf_lia. apply slice_patch_same. buf_lia.
Qed.

Context (id : Z) (Hid : 0 < id < 2 ^ 32).

Lemma new_entry_id : entry_id (new_entry id name e) = id.
Proof.
  unfold new_entry, entry_id, de_id. apply load_store_same; [rewrite length_set_name; unfold dirent_size; lia|]. cbn. lia.
Qed.

Lemma new_entry_len : de_len (new_entry id name e) 0 = Z.of_nat (length name).
Proof.
  rewrite <- set_name_len. unfold new_entry, store, de_len, arr_get. f_equal. apply lookup_patch_out; rewrite length_be_bytes; [|lia].
  rewrite length_set_name. unfold dirent_size. lia.
Qed.

Lemma new_entry_name : entry_name (new_entry id name e) = name.
Proof.
  etransitivity; [|exact set_name_name]. unfold entry_name. rewrite new_entry_len, set_name_len, Nat2Z.id.
  unfold new_entry, store. apply slice_patch_other; rewrite length_be_bytes, ?length_set_name; unfold dirent_size; lia.
Qed.

Lemma new_entry_ok : Forall is_byte e -> Forall is_byte name -> entry_ok (new_entry id name e).
Proof.
  intros Hb Hnb. split.
  - unfold new_entry, store. rewrite length_patch; rewrite ?length_be_bytes, length_set_name; unfold dirent_size; lia.
  - split; [|by rewrite new_entry_len]. unfold new_entry, store, set_name.
    repeat apply Forall_patch; [done|apply Forall_replicate; unfold is_byte; lia|done| |apply Forall_be_bytes].
    constructor; [|done]. unfold is_byte, u8. apply Z.mod_pos_bound. lia.
Qed.
End NamedEntry.

(** ** Tables of entries as finite maps *)

Definition tab_repr (f : Z -> list Z) (n : Z) (m : gmap (list Z) Z) : Prop :=
  (forall i j, 0 <= i < n -> 0 <= j < n -> live (f i) -> live (f j) -> entry_name (f i) = entry_name (f j) -> i = j) /\
  (forall nm id, m !! nm = Some id <-> exists k, 0 <= k < n /\ live (f k) /\ entry_name (f k) = nm /\ entry_id (f k) = id).

Lemma tab_same f g n m : tab_repr f n m -> (forall j, 0 <= j < n -> g j = f j) -> tab_repr g n m.
Proof.
  intros [Hu Hm] Hg. split.
  - intros i j Hi Hj. rewrite !Hg by done. by apply Hu.
  - intros nm id. rewrite Hm. split; intros (k & Hk & H); exists k; (split; [done|]); [by rewrite Hg|by rewrite <- Hg].
Qed.

Lemma tab_set f g n m k e nm :
  tab_repr f n m -> 0 <= k <= n -> (k < n -> ~ live (f k)) -> m !! nm = None -> live e -> entry_name e = nm ->
  (forall j, 0 <= j < Z.max n (k + 1) -> g j = if decide (j = k) then e else f j) ->
  tab_repr g (Z.max n (k + 1)) (<[nm := entry_id e]> m).
Proof.
  intros [Hu Hm] Hk Hfree Hnm Hlive Hname Hg.
  assert (Hne : forall i, 0 <= i < n -> i <> k -> live (f i) -> entry_name (f i) <> nm).
  { intros i Hi _ Hl E. assert (Hs : m !! nm = Some (entry_id (f i))) by (apply Hm; by exists i). congruence. }
  split.
  - intros i j Hi Hj. rewrite !Hg by done. destruct (decide (i = k)) as [->|Hik], (decide (j = k)) as [->|Hjk]; [done| | |].
    + intros _ Hl E. destruct (Hne j); [lia|done|done|congruence].
    + intros Hl _ E. destruct (Hne i); [lia|done|done|congruence].
    + apply Hu; lia.
  - intros n' id. destruct (decide (n' = nm)) as [->|Hn'].
    + rewrite lookup_insert_eq. split.
      * intros [= <-]. exists k. split; [lia|]. rewrite Hg, decide_True by lia. done.
      * intros (j & Hj & Hl & En & <-). rewrite (Hg j Hj) in Hl, En |- *. destruct (decide (j = k)) as [|Hjk]; [done|].
        destruct (Hne j); [lia|done|done|done].
    + rewrite lookup_insert_ne, Hm by done. split; intros (j & Hj & H); exists j.
      * split; [lia|]. rewrite Hg by lia. case_decide; [subst; destruct H as [Hl _]; by destruct (Hfree ltac:(lia))|done].
      * rewrite Hg in H by done. case_decide; [destruct H as (_ & ? & _); congruence|]. split; [lia|done].
Qed.

Lemma tab_clear f g n n' m k e :
  tab_repr f n m -> 0 <= k < n -> live (f k) -> ~ live e -> n' = n \/ (n' = k /\ k = n - 1) ->
  (forall j, 0 <= j < n' -> g j = if decide (j = k) then e else f j) ->
  tab_repr g n' (delete (entry_name (f k)) m).
Proof.
  intros [Hu Hm] Hk Hlive He Hn' Hg.
  assert (Hrng : forall j, 0 <= j < n' -> 0 <= j < n) by lia. split.
  - intros i j Hi Hj. rewrite !Hg by done. destruct (decide (i = k)), (decide (j = k)); try done. by apply Hu; apply Hrng.
  - intros nm id. destruct (decide (nm = entry_name (f k))) as [->|Hne].
    + rewrite lookup_delete_eq. split; [done|]. intros (j & Hj & H). rewrite Hg in H by done. case_decide as E; [by destruct H|].
      destruct H as (Hl & En & _). destruct E. apply Hu; auto.
    + rewrite lookup_delete_ne, Hm by done. split; intros (j & Hj & H); exists j.
      * assert (j <> k) by (intros ->; destruct H as (_ & En & _); congruence).
        split; [lia|]. rewrite Hg, decide_False by lia. done.
      * rewrite Hg in H by done. case_decide; [by destruct H|]. split; [auto|done].
Qed.

(** ** Searching *)

Section DirSpecs.
Context {C} {FC : FSContainer C} {FCS : FSContainerSpec C}.
Implicit Types (fs : SerenaFS C) (bm : sfs_bmap) (R : Z -> Prop) (self child : Inode).
Notation bs := (Z.of_nat fsc_blockSize).

(** The number of entries in a block, and entry [k] of a directory. *)
Notation epb := (bs / 32).
Definition dent fs bm (k : Z) : list Z := slice (Z.to_nat (32 * (k mod epb))) dirent_size (file_block fs bm (k / epb)).

Definition aligned : Prop := bs = 32 * epb /\ 0 < epb.

Lemma entry_pos k : aligned -> (32 * k) / bs = k / epb /\ (32 * k) mod bs = 32 * (k mod epb).
Proof.
  intros [Hbs Hpos]. remember epb as m eqn:Em. clear Em. rewrite Hbs. split.
  - by rewrite Z.div_mul_cancel_l by lia.
  - by rewrite Z.mul_mod_distr_l by lia.
Qed.

Lemma entry_split b i : 0 <= i < epb -> (b * epb + i) / epb = b /\ (b * epb + i) mod epb = i.
Proof.
  intros Hi. split.
  - rewrite Z.div_add_l by lia. rewrite Z.div_small by lia. lia.
  - rewrite Z.add_comm, Z.mod_add by lia. by apply Z.mod_small.
Qed.

Lemma dent_fits fs bm k : aligned -> fs_ok fs ->
  (Z.to_nat (32 * (k mod epb)) + dirent_size <= length (file_block fs bm (k / epb)))%nat.
Proof.
  intros [Hbs Hpos] Hok. destruct (file_block_length fs bm (k / epb) Hok) as [-> _].
  pose proof (Z.mod_pos_bound k epb Hpos). unfold dirent_size. lia.
Qed.

Lemma length_dent fs bm k : aligned -> fs_ok fs -> length (dent fs bm k) = dirent_size.
Proof. intros. apply length_slice. by apply dent_fits. Qed.

Lemma same_data_dent fs fs' bm k : same_data fs fs' -> dent fs' bm k = dent fs bm k.
Proof. intros H. unfold dent. by rewrite (same_data_block fs fs'). Qed.

(** What a search reports for entry [k]. *)
Definition found (q : sfs_query) fs bm (k : Z) (ih : option (Z * Z)) : sfs_query_result :=
  found_at q (file_block fs bm (k / epb)) (Z.to_nat (32 * (k mod epb))) (ptr fs bm (k / epb)) (32 * k) ih.

(** A hint names a free entry before [hi], or no entry. *)
Definition hint_fine fs bm (hi : Z) (ih : option (Z * Z)) : Prop :=
  match ih with
  | Some (lba, o) => lba = 0 \/ exists k, 0 <= k < hi /\ entry_id (dent fs bm k) <= 0 /\
                       lba = ptr fs bm (k / epb) /\ o = 32 * (k mod epb)
  | None => True
  end.

Lemma hint_more fs bm hi hi' ih : hint_fine fs bm hi ih -> hi <= hi' -> hint_fine fs bm hi' ih.
Proof.
  destruct ih as [[lba o]|]; [|done]. intros [?|(k & Hk & H)] Hhi; [by left|]. right. exists k. split; [lia|done].
Qed.

Lemma query_block_spec n q fs bm b i ih has cnt :
  fs_ok fs -> aligned -> kind_ok (q_kind q) -> 0 <= b -> 0 <= i <= epb -> epb - i <= Z.of_nat n ->
  hint_fine fs bm (b * epb + i) ih ->
  exists r off ih' has',
    query_block n q (32 * cnt) (ptr fs bm b) (file_block fs bm b) (Z.to_nat (32 * i)) (32 * (b * epb + i)) ih has = Some (r, off, ih', has') /\
    let k := b * epb + i in
    let steps := Z.to_nat (Z.min (epb - i) (cnt - k)) in
    match first_from (fun j => entry_matches (q_kind q) (dent fs bm j)) steps k with
    | Some j => r = Some (found q fs bm j ih') /\ hint_fine fs bm j ih'
    | None => r = None /\ off = 32 * (k + Z.of_nat steps) /\ hint_fine fs bm (k + Z.of_nat steps) ih'
    end.
Proof.
  intros Hok Hal Hk Hb. pose proof Hal as [Hbs Hm]. revert i ih has.
  induction n as [|n IH]; intros i ih has Hi Hn Hih; cbn [query_block]; cbv zeta.
  { replace (Z.to_nat _) with O by lia. eexists _, _, _, _. split; [done|]. cbn. rewrite Z.add_0_r. done. }
  destruct (file_block_length fs bm b Hok) as [Hlen _].
  destruct (_ && _) eqn:Ec; cycle 1.
  { replace (Z.to_nat (Z.min _ _)) with O by (rewrite Hlen in Ec; apply andb_false_iff in Ec as [E%Nat.ltb_ge|E%Z.ltb_ge]; lia).
    eexists _, _, _, _. split; [done|]. cbn. rewrite Z.add_0_r. done. }
  rewrite Hlen in Ec. apply andb_true_iff in Ec as [E1%Nat.ltb_lt E2%Z.ltb_lt].
  assert (Hi' : 0 <= i < epb /\ b * epb + i < cnt) by lia. clear E1 E2. destruct Hi' as [Hi' Hcnt].
  destruct (entry_split b i Hi') as [Hdiv Hmod].
  assert (Hfit : (Z.to_nat (32 * i) + dirent_size <= length (file_block fs bm b))%nat) by (rewrite Hlen; unfold dirent_size; lia).
  destruct (Nat.ltb_spec (length (file_block fs bm b)) (Z.to_nat (32 * i) + dirent_size)); [lia|].
  replace (Z.to_nat (Z.min (epb - i) (cnt - (b * epb + i)))) with (S (Z.to_nat (Z.min (epb - (i + 1)) (cnt - (b * epb + (i + 1)))))) by lia.
  cbn [first_from]. replace (b * epb + i + 1) with (b * epb + (i + 1)) by lia.
  assert (Hd : slice (Z.to_nat (32 * i)) dirent_size (file_block fs bm b) = dent fs bm (b * epb + i)) by (unfold dent; by rewrite Hdiv, Hmod).
  rewrite (entry_done_block _ _ Hfit _ Hk), (entry_id_block _ _ Hfit), Hd. unfold entry_matches at 1.
  assert (Hnext : forall ih has, hint_fine fs bm (b * epb + (i + 1)) ih ->
    exists r off ih' has', query_block n q (32 * cnt) (ptr fs bm b) (file_block fs bm b) (Z.to_nat (32 * i) + dirent_size)
      (32 * (b * epb + i) + Z.of_nat dirent_size) ih has = Some (r, off, ih', has') /\
    let steps := Z.to_nat (Z.min (epb - (i + 1)) (cnt - (b * epb + (i + 1)))) in
    match first_from (fun j => entry_matches (q_kind q) (dent fs bm j)) steps (b * epb + (i + 1)) with
    | Some j => r = Some (found q fs bm j ih') /\ hint_fine fs bm j ih'
    | None => r = None /\ off = 32 * (b * epb + i + Z.of_nat (S steps)) /\ hint_fine fs bm (b * epb + i + Z.of_nat (S steps)) ih'
    end).
  { intros ih1 has1 Hih1. destruct (IH (i + 1) ih1 has1 ltac:(lia) ltac:(lia) Hih1) as (r & off & ih' & has' & Hq & Hr).
    exists r, off, ih', has'. split; [rewrite <- Hq; f_equal; unfold dirent_size; lia|]. cbv zeta in *.
    destruct (first_from _ _ _); [done|]. destruct Hr as (-> & -> & Hh). split; [done|].
    split; [lia|]. eapply hint_more; [exact Hh|lia]. }
  destruct (Z.ltb_spec 0 (entry_id (dent fs bm (b * epb + i)))) as [Hlive|Hfree]; cbn [andb].
  - destruct (entry_done (q_kind q) (dent fs bm (b * epb + i)) 0) eqn:Ed.
    + eexists _, _, _, _. split; [done|]. split; [|done]. f_equal. unfold found. by rewrite Hdiv, Hmod.
    + apply Hnext. eapply hint_more; [exact Hih|lia].
  - assert (Hnew : hint_fine fs bm (b * epb + (i + 1)) (Some (ptr fs bm b, Z.of_nat (Z.to_nat (32 * i))))).
    { right. exists (b * epb + i). rewrite Hdiv, Hmod. split; [lia|]. split; [done|]. split; [done|lia]. }
    assert (Hold : hint_fine fs bm (b * epb + (i + 1)) ih) by (eapply hint_more; [exact Hih|lia]).
    destruct ih as [h|], has; by apply Hnext.
Qed.

(** A block of the file could not be mapped. *)
Definition io_failed fs bm : Prop :=
  exists fs1 b e blk fs2 bm2, same_data fs fs1 /\ SfsFile_MapBlock fs1 bm b kMapBlock_ReadOnly = Some (e, blk, fs2, bm2) /\ e <> EOK.

Lemma query_blocks_spec fuel q fs fs1 bm R b ih has cnt :
  fs_ok fs -> file_ok fs bm R -> same_data fs fs1 -> aligned -> kind_ok (q_kind q) -> 0 <= b -> 32 * cnt <= max_fba fs * bs ->
  reach bm (32 * cnt) -> cnt - b * epb <= Z.of_nat fuel -> hint_fine fs bm (b * epb) ih ->
  exists r ih' fs2, query_blocks fuel fs1 bm q (32 * cnt) b (32 * (b * epb)) ih has = Some (r, ih', fs2, bm) /\ same_data fs fs2 /\
    match r with
    | Some qr => exists j ih0, first_from (fun j => entry_matches (q_kind q) (dent fs bm j)) (Z.to_nat (cnt - b * epb)) (b * epb) = Some j /\
        qr = found q fs bm j ih0 /\ hint_fine fs bm j ih0
    | None => (first_from (fun j => entry_matches (q_kind q) (dent fs bm j)) (Z.to_nat (cnt - b * epb)) (b * epb) = None \/ io_failed fs bm) /\
        hint_fine fs bm (Z.max cnt (b * epb)) ih'
    end.
Proof.
  intros Hok Hf Hsd Hal Hk. pose proof Hal as [Hbs Hm]. revert fs1 Hsd b ih has.
  induction fuel as [|fuel IH]; intros fs1 Hsd b ih has Hb Hmax Hr Hfuel Hih; cbn [query_blocks].
  { exists None, ih, fs1. split; [done|]. split; [done|]. replace (Z.to_nat _) with O by lia. split; [by left|]. eapply hint_more; [done|lia]. }
  destruct (Z.ltb_spec (32 * (b * epb)) (32 * cnt)) as [Hlt|Hge]; cycle 1.
  { exists None, ih, fs1. split; [done|]. split; [done|]. replace (Z.to_nat _) with O by lia. split; [by left|]. eapply hint_more; [done|lia]. }
  pose proof Hsd as (Hok1 & Hp1 & _ & _). assert (Hf1 : file_ok fs1 bm R) by (by eapply same_data_file).
  assert (Hv : valid_fba fs1 b) by (apply (valid_fba_params fs); [done|]; split; nia).
  assert (Hbb : b * bs < 32 * cnt) by nia. destruct (bs_range fs Hok) as [Hbsr HN].
  assert (Hready : ready bm b) by (apply (reach_ready bm (32 * cnt)); [done|lia|done]).
  destruct (mapblock_spec fs1 bm R b kMapBlock_ReadOnly Hok1 Hf1 Hv Hready) as (e & blk & fs2 & bm2 & Hmap & Hp).
  rewrite (bind_some Hmap). destruct (mb_ro _ _ _ _ _ _ _ _ _ Hp eq_refl) as [-> Hsd2].
  assert (Hsd02 : same_data fs fs2) by (by eapply same_data_trans).
  destruct (is_ok e) eqn:Ee; cbn [negb]; cycle 1.
  { apply is_ok_false in Ee. exists None, ih, fs2. split; [done|]. split; [done|]. split; [|eapply hint_more; [done|lia]].
    right. by exists fs1, b, e, blk, fs2, bm. }
  apply is_ok_true in Ee as ->.
  destruct (unmap_read fs1 bm R b blk fs2 bm Hp Hf1) as (e2 & fs3 & Hu & Hsd3).
  rewrite (mb_read _ _ _ _ _ _ _ _ _ Hp eq_refl ltac:(by left)) in Hu |- *. rewrite (mb_lba _ _ _ _ _ _ _ _ _ Hp eq_refl).
  rewrite (same_data_block fs fs1) in Hu |- * by done. rewrite (same_data_ptr fs fs2) by done.
  destruct (query_block_spec (Z.to_nat (fs_blockSize fs2)) q fs bm b 0 ih has cnt) as (r & off & ih' & has' & Hq & Hres);
    [done|done|done|done|lia|rewrite (fo_bs _ (mb_ok _ _ _ _ _ _ _ _ _ Hp)); lia|by rewrite Z.add_0_r|].
  rewrite Z.mul_0_r, !Z.add_0_r, Z.sub_0_r in *. change (Z.to_nat 0) with O in Hq. rewrite (bind_some Hq). clear Hq.
  rewrite (bind_some Hu).
  pose proof (same_data_trans _ _ _ Hsd Hsd3) as Hsd03.
  cbv zeta in Hres. set (steps := Z.to_nat (Z.min epb (cnt - b * epb))) in *.
  assert (Hsplit : Z.to_nat (cnt - b * epb) = (steps + Z.to_nat (cnt - (b + 1) * epb))%nat) by (unfold steps; lia).
  rewrite Hsplit, first_from_app. destruct (first_from _ steps _) as [j|].
  - destruct Hres as [-> Hh]. eexists _, _, _. split; [done|]. split; [done|]. by exists j, ih'.
  - destruct Hres as (-> & -> & Hh). assert (Hnext : b + 1 < 2 ^ 32) by (destruct Hv; unfold max_fba, kSFSDirectBlockPointersCount in *; destruct (bs_range fs1 Hok1); lia).
    rewrite u32_small by lia. destruct (decide (epb <= cnt - b * epb)) as [Hfull|Hlast].
    + replace (b * epb + Z.of_nat steps) with ((b + 1) * epb) in * by (unfold steps; lia).
      destruct (IH fs3 Hsd03 (b + 1) ih' has') as (r & ih2 & fs4 & Hq & Hsd4 & Hr4); [lia|done|done|lia|done|].
      exists r, ih2, fs4. split; [done|]. split; [done|]. destruct r; [done|]. destruct Hr4 as [H1 H2]. split; [done|].
      eapply hint_more; [done|lia].
    + replace (Z.to_nat (cnt - (b + 1) * epb)) with O by lia. cbn [first_from]. destruct fuel as [|fuel]; cbn [query_blocks].
      * eexists None, _, _. split; [done|]. split; [done|]. split; [by left|]. eapply hint_more; [done|unfold steps; lia].
      * destruct (Z.ltb_spec (32 * (b * epb + Z.of_nat steps)) (32 * cnt)); [unfold steps in *; lia|].
        eexists None, _, _. split; [done|]. split; [done|]. split; [by left|]. eapply hint_more; [done|unfold steps; lia].
Qed.
(** ** Directories as tables of entries *)

Definition dcount self : Z := fsize self / 32.

Record dir_ok fs self R : Prop := {
  do_fs : fs_ok fs;
  do_file : file_ok fs (bmap self) R;
  do_al : aligned;
  do_size : 0 <= fsize self /\ fsize self = 32 * dcount self;
  do_max : fsize self <= max_fba fs * bs;
  do_reach : reach (bmap self) (fsize self);
  do_ent : forall k, 0 <= k < dcount self -> entry_ok (dent fs (bmap self) k);
  do_solid : forall k, 0 <= k < dcount self -> ptr fs (bmap self) (k / epb) <> 0;
}.

Definition search fs self (k : sfs_query_kind) : option Z :=
  first_from (fun j => entry_matches k (dent fs (bmap self) j)) (Z.to_nat (dcount self)) 0.

Lemma set_bmap_same self : set_bmap (bmap self) self = self.
Proof. by destruct self. Qed.

Lemma query_spec fs self R q :
  dir_ok fs self R -> kind_ok (q_kind q) ->
  exists e qr fs', SfsDirectory_Query fs self q = Some (e, qr, fs', self) /\ same_data fs fs' /\
    ((e = EOK /\ exists j ih, search fs self (q_kind q) = Some j /\ qr = found q fs (bmap self) j ih /\ hint_fine fs (bmap self) j ih) \/
     (e = ENOENT /\ (search fs self (q_kind q) = None \/ io_failed fs (bmap self)) /\ hint_fine fs (bmap self) (dcount self) (qr_ih qr))).
Proof.
  intros [Hok Hf Hal [Hs0 Hs] Hmax Hr _ _] Hk. pose proof Hal as [Hbs Hm]. unfold SfsDirectory_Query.
  set (ih0 := if q_ih q then Some (0, 0) else None).
  assert (Hih0 : hint_fine fs (bmap self) 0 ih0) by (unfold ih0; destruct (q_ih q); [by left|done]).
  assert (Hrest : exists e qr fs',
    ('(r, ih, fs, bm) ← query_blocks (Z.to_nat (fsize self / Z.of_nat dirent_size + 1)) fs (bmap self) q (fsize self) 0 0 ih0 false;
     match r with
     | Some r => Some (EOK, r, fs, set_bmap bm self)
     | None => Some (ENOENT, no_result q ih, fs, set_bmap bm self)
     end) = Some (e, qr, fs', self) /\ same_data fs fs' /\
    ((e = EOK /\ exists j ih, search fs self (q_kind q) = Some j /\ qr = found q fs (bmap self) j ih /\ hint_fine fs (bmap self) j ih) \/
     (e = ENOENT /\ (search fs self (q_kind q) = None \/ io_failed fs (bmap self)) /\ hint_fine fs (bmap self) (dcount self) (qr_ih qr)))).
  { assert (Hd0 : 0 <= dcount self) by (unfold dcount; apply Z.div_pos; lia).
    destruct (query_blocks_spec (Z.to_nat (fsize self / Z.of_nat dirent_size + 1)) q fs fs (bmap self) R 0 ih0 false (dcount self))
      as (r & ih' & fs2 & Hq & Hsd & Hr2); [done|done|by apply same_data_refl|done|done|lia|lia|by rewrite <- Hs| |done|].
    { unfold dcount in *. change (Z.of_nat dirent_size) with 32. lia. }
    rewrite <- Hs, Z.mul_0_l, Z.mul_0_r in Hq. rewrite (bind_some Hq). rewrite Z.mul_0_l, Z.sub_0_r in Hr2. destruct r as [qr|].
    - rewrite set_bmap_same. eexists _, _, _. split; [done|]. split; [done|]. left. split; [done|]. exact Hr2.
    - rewrite set_bmap_same. eexists _, _, _. split; [done|]. split; [done|]. right. split; [done|].
      rewrite Z.max_l in Hr2 by done. exact Hr2. }
  destruct (q_kind q) as [pc|id] eqn:Ek; [|exact Hrest]. cbn in Hk. destruct pc as [|c pc]; [cbn in Hk; lia|].
  destruct (Z.ltb_spec kSFSMaxFilenameLength (Z.of_nat (length (c :: pc)))); [unfold kSFSMaxFilenameLength in *; lia|exact Hrest].
Qed.

(** Writing back a block of a file that has been mapped. *)
Lemma write_mapped fs bm R b d :
  fs_ok fs -> file_ok fs bm R -> valid_fba fs b -> ptr fs bm b <> 0 -> is_block d ->
  exists fs', fs_unmap fs (ptr fs bm b) d kWriteBlock_Deferred = (EOK, fs') /\ fs_ok fs' /\ same_params fs fs' /\ file_ok fs' bm R /\
    (forall x, used fs' x <-> used fs x) /\
    (forall b', valid_fba fs b' -> file_block fs' bm b' = if decide (b' = b) then d else file_block fs bm b') /\
    (forall b', ptr fs' bm b' = ptr fs bm b').
Proof.
  intros Hok Hf Hv Hnz Hd. destruct (fs_unmap fs _ d _) as [e fs'] eqn:Eu.
  destruct (fs_unmap_write fs _ d e fs' Hok Hd (ptr_ne_bitmap _ _ _ _ Hf Hv) Eu) as (-> & Hok' & Hpar & Hw & Ho & Hu).
  destruct (fi_ptr _ _ _ Hf b Hv) as [|(Hpu & HpR & Hpi)]; [done|]. exists fs'.
  assert (Hptr : forall b', ptr fs' bm b' = ptr fs bm b') by (intros b'; apply ptr_data; right; by apply Ho).
  split; [done|]. split_and!; [done|done| |done| |done].
  - eapply file_ok_keep; [done|done|by intros b' _|by intros x; rewrite Hu].
  - intros b' Hb'. unfold file_block. rewrite Hptr. case_decide as E.
    + subst b'. destruct (Z.eqb_spec (ptr fs bm b) 0); done.
    + destruct (Z.eqb_spec (ptr fs bm b') 0); [done|]. apply Ho. intros Heq. apply E. by apply (fi_inj _ _ _ Hf).
Qed.

(** Entry [k] of the directory is set to [ent]. *)
Record entry_set fs bm R (k : Z) (ent : list Z) fs' bm' : Prop := {
  es_ok : fs_ok fs';
  es_par : same_params fs fs';
  es_file : file_ok fs' bm' R;
  es_mono : forall x, used fs x -> used fs' x;
  es_solid : forall j, 0 <= 32 * j < max_fba fs * bs -> ptr fs bm (j / epb) <> 0 \/ j = k -> ptr fs' bm' (j / epb) <> 0;
  es_dent : forall j, 0 <= 32 * j < max_fba fs * bs -> dent fs' bm' j = if decide (j = k) then ent else dent fs bm j;
}.

Lemma entry_valid fs k : aligned -> 0 <= 32 * k < max_fba fs * bs -> valid_fba fs (k / epb).
Proof.
  intros [Hbs Hm] Hk. split; [apply Z.div_pos; lia|]. apply Z.div_lt_upper_bound; [done|]. nia.
Qed.

Lemma dent_patch fs bm fs' bm' k ent :
  aligned -> fs_ok fs -> 0 <= k -> length ent = dirent_size ->
  (forall b, valid_fba fs b -> file_block fs' bm' b = if decide (b = k / epb)
     then patch (Z.to_nat (32 * (k mod epb))) ent (file_block fs bm b) else file_block fs bm b) ->
  forall j, 0 <= 32 * j < max_fba fs * bs -> dent fs' bm' j = if decide (j = k) then ent else dent fs bm j.
Proof.
  intros Hal Hok Hk0 Hl Hblk j Hj. pose proof Hal as [Hbs Hm]. unfold dent at 1. rewrite Hblk by (by apply entry_valid).
  assert (Hm0 : epb <> 0) by lia. pose proof (Z.div_mod j epb Hm0) as Hdj. pose proof (Z.div_mod k epb Hm0) as Hdk.
  pose proof (Z.mod_pos_bound j epb Hm). pose proof (Z.mod_pos_bound k epb Hm). pose proof (dent_fits fs bm k Hal Hok) as Hfit.
  destruct (decide (j / epb = k / epb)) as [E|E]; cycle 1.
  { rewrite decide_False by congruence. done. }
  destruct (decide (j = k)) as [->|Hne].
  - rewrite <- Hl. apply slice_patch_same. by rewrite Hl.
  - unfold dent. rewrite E. apply slice_patch_other; [by rewrite Hl|]. rewrite Hl. unfold dirent_size. rewrite <- E in Hdk. lia.
Qed.
(** Mapping the block of an entry and storing the changed entry. *)
Lemma rewrite_entry fs bm R k :
  aligned -> fs_ok fs -> file_ok fs bm R -> 0 <= 32 * k < max_fba fs * bs -> ptr fs bm (k / epb) <> 0 ->
  exists e d fs1, fs_map fs (ptr fs bm (k / epb)) kMapBlock_Update = (e, d, fs1) /\ same_data fs fs1 /\
    (e = EOK -> d = file_block fs bm (k / epb) /\
       forall ent, length ent = dirent_size -> Forall is_byte ent ->
       exists fs2, fs_unmap fs1 (ptr fs bm (k / epb)) (patch (Z.to_nat (32 * (k mod epb))) ent d) kWriteBlock_Deferred = (EOK, fs2) /\
         entry_set fs bm R k ent fs2 bm).
Proof.
  intros Hal Hok Hf Hk Hnz. pose proof (entry_valid fs k Hal Hk) as Hv.
  assert (Hpos : 0 < ptr fs bm (k / epb)) by (destruct (ptr_range fs bm R _ Hok Hf Hv); lia).
  destruct (mdb_old fs (ptr fs bm (k / epb)) kMapBlock_Update Hok Hpos (ptr_ne_bitmap _ _ _ _ Hf Hv)) as (e & blk & fs1 & Hm & Hp).
  pose proof (mdb_read_same _ _ _ _ _ Hnz Hp) as Hsd. unfold map_disk_block in Hm.
  destruct (Z.ltb_spec 0 (ptr fs bm (k / epb))); [|lia]. destruct (fs_map _ _ _) as [[e' d] fs1'] eqn:Em. injection Hm as -> <- ->.
  exists e, d, fs1. split; [done|]. split; [done|]. intros ->.
  destruct (mp_read _ _ _ _ _ _ _ Hp eq_refl ltac:(by right)) as [Hd _]. destruct (Z.eqb_spec (ptr fs bm (k / epb)) 0); [done|].
  assert (Hd' : d = file_block fs bm (k / epb)) by (unfold file_block; destruct (Z.eqb_spec (ptr fs bm (k / epb)) 0); done).
  split; [done|]. intros ent Hl Hb. pose proof Hsd as (Hok1 & Hp1 & _ & Hu1).
  assert (Hf1 : file_ok fs1 bm R) by (by eapply same_data_file).
  pose proof (same_data_ptr fs fs1 bm (k / epb) Hsd) as Hptr.
  destruct (write_mapped fs1 bm R (k / epb) (patch (Z.to_nat (32 * (k mod epb))) ent d)) as (fs2 & Hu & Hok2 & Hp2 & Hf2 & Hus & Hblk & Hpt2);
    [done|done|by apply (valid_fba_params fs)|by rewrite Hptr| |].
  { rewrite Hd'. apply block_patch; [by apply file_block_length|done|]. pose proof (dent_fits fs bm k Hal Hok) as Hfit.
    destruct (file_block_length fs bm (k / epb) Hok) as [Hlen _]. rewrite Hl. lia. }
  rewrite Hptr in Hu. exists fs2. split; [done|]. constructor; [done|by eapply same_params_trans|done|intros x Hx; by apply Hus, Hu1| |].
  { intros j _ Hj. rewrite Hpt2, (same_data_ptr fs fs1) by done. by destruct Hj as [| ->]. }
  apply dent_patch; [done|done|lia|done|]. intros b Hb'. rewrite Hblk by (by apply (valid_fba_params fs)).
  rewrite (same_data_block fs fs1) by done. case_decide as E; [|done]. by rewrite E, Hd'.
Qed.

(** A free or new entry behind the last block is the first one without a name. *)
Lemma append_entry fs bm R cnt :
  aligned -> fs_ok fs -> file_ok fs bm R -> 0 <= 32 * cnt < max_fba fs * bs ->
  (forall k, 0 <= k < cnt -> ptr fs bm (k / epb) <> 0) ->
  exists e blk fs1 bm1, SfsFile_MapBlock fs bm (cnt / epb) kMapBlock_Update = Some (e, blk, fs1, bm1) /\ fs_ok fs1 /\
    piece_lba (blockAllocator fs1) 0 = piece_lba (blockAllocator fs) 0 /\
    (reach bm (32 * cnt + 32) \/ e = EOK -> forall fs2, reserved_change R fs1 fs2 ->
       fs_ok fs2 /\ same_params fs fs2 /\ file_ok fs2 bm1 R /\ reach bm1 (if is_ok e then 32 * cnt + 32 else 0) /\
       (indirect bm <> 0 -> indirect bm1 <> 0) /\ (forall x, used fs x -> used fs2 x) /\
       (forall j, 0 <= j < cnt -> dent fs2 bm1 j = dent fs bm j /\ ptr fs2 bm1 (j / epb) <> 0) /\
       (e = EOK -> fb_data blk = file_block fs bm (cnt / epb) /\
        forall ent, length ent = dirent_size -> Forall is_byte ent ->
        exists fs3, SfsFile_UnmapBlock fs2 blk (patch (Z.to_nat (32 * (cnt mod epb))) ent (fb_data blk)) kWriteBlock_Deferred = Some (EOK, fs3) /\
          entry_set fs bm R cnt ent fs3 bm1)).
Proof.
  intros Hal Hok Hf Hc Hsolid. pose proof (entry_valid fs cnt Hal Hc) as Hv. pose proof Hal as [Hbs Hm].
  destruct (mapblock_write fs bm R (cnt / epb) kMapBlock_Update Hok Hf Hv) as (e & blk & fs1 & bm1 & Hmap & Hp & Hst); [done|].
  exists e, blk, fs1, bm1. split; [done|].
  assert (Hr : reach bm (32 * cnt + 32) -> ready bm (cnt / epb)).
  { intros Hr. assert (Hm0 : epb <> 0) by lia. pose proof (Z.div_mod cnt epb Hm0). pose proof (Z.mod_pos_bound cnt epb Hm).
    apply (reach_ready bm (32 * cnt + 32)); [done|lia|nia]. }
  assert (Hdec : ready bm (cnt / epb) \/ ~ ready bm (cnt / epb)) by (unfold ready; lia).
  assert (Hpar1 : fs_ok fs1 /\ same_params fs fs1).
  { destruct (decide (e = EOK)) as [He|He]; [by destruct (Hp (or_intror He))|].
    destruct Hdec as [Hd|Hd]; [by destruct (Hp (or_introl Hd))|by destruct (Hst Hd He) as (? & ? & _)]. }
  destruct Hpar1 as [Hok1 Hp1]. split; [done|]. split; [by apply used_params|]. intros Hcond fs2 Hres.
  assert (Hpost : mb_post fs bm R (cnt / epb) kMapBlock_Update e blk fs1 bm1) by (apply Hp; destruct Hcond; auto). clear Hp Hst.
  destruct (reserved_file R fs1 fs2 bm1 (mb_file _ _ _ _ _ _ _ _ _ Hpost) Hres) as [Hf2 Hblk2].
  pose proof Hres as (Hok2 & Hp2 & Hu2 & Hd2). pose proof (same_params_trans _ _ _ Hp1 Hp2) as Hp02.
  assert (Hblk : forall b, valid_fba fs b -> b <> cnt / epb \/ e <> EOK -> file_block fs2 bm1 b = file_block fs bm b).
  { intros b Hb Hne. rewrite Hblk2 by (by apply (valid_fba_params fs)). by apply (mb_blocks _ _ _ _ _ _ _ _ _ Hpost). }
  assert (Hptr2 : e = EOK -> ptr fs2 bm1 (cnt / epb) = fb_lba blk /\ fb_lba blk <> 0 /\ isZeroFill blk = false).
  { intros He. destruct (mb_zero _ _ _ _ _ _ _ _ _ Hpost He) as [[Hz Hl]|(_ & _ & ?)]; [|done]. split; [|done].
    rewrite (mb_lba _ _ _ _ _ _ _ _ _ Hpost He). apply ptr_data.
    destruct (fi_ind _ _ _ (mb_file _ _ _ _ _ _ _ _ _ Hpost)) as [|[_ HnR]]; [by left|right; auto]. }
  assert (Hind : indirect bm <> 0 -> indirect bm1 <> 0) by (intros Hi; by rewrite (mb_ind _ _ _ _ _ _ _ _ _ Hpost)).
  assert (Hpt12 : forall b, ptr fs2 bm1 b = ptr fs1 bm1 b).
  { intros b. apply ptr_data. destruct (fi_ind _ _ _ (mb_file _ _ _ _ _ _ _ _ _ Hpost)) as [|[_ HnR]]; [by left|right; auto]. }
  assert (Hsol : forall b, valid_fba fs b -> ptr fs bm b <> 0 \/ b = cnt / epb /\ e = EOK -> ptr fs2 bm1 b <> 0).
  { intros b Hb Hs. destruct (decide (b = cnt / epb /\ e = EOK)) as [[-> He]|Hne]; [by destruct (Hptr2 He) as (-> & ? & _)|].
    rewrite Hpt12, (mb_ptr _ _ _ _ _ _ _ _ _ Hpost); [tauto|done|]. destruct (decide (b = cnt / epb)), (decide (e = EOK)); tauto. }
  split_and!; [done|done|done| |done|intros x Hx; apply Hu2; by apply (mb_mono _ _ _ _ _ _ _ _ _ Hpost)| |].
  - destruct (is_ok e) eqn:Ee; [|right; nia]. apply is_ok_true in Ee. destruct (Hptr2 Ee) as (Hpt & Hnz & _).
    destruct (decide (cnt / epb < 110)) as [Hlt|Hge].
    + right. assert (Hm0 : epb <> 0) by lia. pose proof (Z.div_mod cnt epb Hm0). pose proof (Z.mod_pos_bound cnt epb Hm). nia.
    + left. intros Hi. apply Hnz. rewrite <- Hpt. apply ptr_no_indirect; [lia|done].
  - intros j Hj. specialize (Hsolid j Hj). assert (Hvj : valid_fba fs (j / epb)) by (apply entry_valid; [done|lia]).
    split; [|by apply Hsol; [|left]]. unfold dent. f_equal.
    destruct (decide (j / epb = cnt / epb)) as [E|]; [|by apply Hblk; [|left]]. rewrite E in *.
    rewrite Hblk2 by (by apply (valid_fba_params fs)). by rewrite (mb_keep _ _ _ _ _ _ _ _ _ Hpost).
  - intros He. destruct (Hptr2 He) as (Hpt & Hnz & Hz).
    assert (Hd : fb_data blk = file_block fs bm (cnt / epb)) by (apply (mb_read _ _ _ _ _ _ _ _ _ Hpost He); by right).
    split; [done|]. intros ent Hl Hb.
    destruct (write_mapped fs2 bm1 R (cnt / epb) (patch (Z.to_nat (32 * (cnt mod epb))) ent (fb_data blk)))
      as (fs3 & Hu & Hok3 & Hp3 & Hf3 & Hus & Hb3 & Hpt3); [done|done|by apply (valid_fba_params fs)|by rewrite Hpt| |].
    { rewrite Hd. apply block_patch; [by apply file_block_length|done|]. pose proof (dent_fits fs bm cnt Hal Hok) as Hfit.
      destruct (file_block_length fs bm (cnt / epb) Hok) as [Hlen _]. rewrite Hl. lia. }
    exists fs3. unfold SfsFile_UnmapBlock. rewrite Hz, <- Hpt, Hu. split; [done|].
    constructor; [done|by eapply same_params_trans|done|intros x Hx; by apply Hus, Hu2, (mb_mono _ _ _ _ _ _ _ _ _ Hpost)| |].
    { intros j Hj Hs. rewrite Hpt3. apply Hsol; [by apply entry_valid|]. destruct Hs as [| ->]; auto. }
    apply dent_patch; [done|done|lia|done|]. intros b Hb'. rewrite Hb3 by (by apply (valid_fba_params fs)).
    case_decide as E; [by rewrite E, Hd|]. apply Hblk; auto.
Qed.
Lemma dir_ok_set fs self R k ent fs' self' :
  dir_ok fs self R -> entry_set fs (bmap self) R k ent fs' (bmap self') -> 0 <= k <= dcount self -> entry_ok ent ->
  fsize self' = 32 * Z.max (dcount self) (k + 1) -> fsize self' <= max_fba fs * bs -> reach (bmap self') (fsize self') ->
  dir_ok fs' self' R /\ dcount self' = Z.max (dcount self) (k + 1).
Proof.
  intros [Hok Hf Hal Hsz Hmax Hr Hent Hsol] [Hok' Hp' Hf' Hu' Hsol' Hd'] Hk He Hs Hm Hr'. destruct (bs_range fs Hok) as [Hbs _].
  assert (Hc : dcount self' = Z.max (dcount self) (k + 1)) by (unfold dcount at 1; rewrite Hs, Z.mul_comm; by apply Z.div_mul).
  split; [|done]. constructor; [done|done|done|rewrite Hc; lia| |done| |].
  - unfold max_fba in *. destruct Hp' as (_ & _ & _ & -> & _). done.
  - rewrite Hc. intros j Hj. rewrite Hd' by lia. case_decide; [done|]. apply Hent. lia.
  - rewrite Hc. intros j Hj. apply Hsol'; [lia|]. destruct (decide (j = k)); [by right|left]. apply Hsol. lia.
Qed.

(** A directory whose entries are the same. *)
Lemma dir_ok_keep fs self R fs' self' :
  dir_ok fs self R -> fs_ok fs' -> same_params fs fs' -> file_ok fs' (bmap self') R -> fsize self' = fsize self ->
  reach (bmap self') (fsize self) ->
  (forall j, 0 <= j < dcount self -> dent fs' (bmap self') j = dent fs (bmap self) j /\ ptr fs' (bmap self') (j / epb) <> 0) ->
  dir_ok fs' self' R.
Proof.
  intros [Hok Hf Hal Hsz Hmax Hr Hent Hsol] Hok' Hp Hf' Hs Hr' Hd.
  assert (Hc : dcount self' = dcount self) by (unfold dcount; by rewrite Hs).
  constructor; [done|done|done|by rewrite Hc, Hs| |by rewrite Hs| |].
  - rewrite Hs. unfold max_fba in *. destruct Hp as (_ & _ & _ & -> & _). done.
  - rewrite Hc. intros j Hj. destruct (Hd j Hj) as [-> _]. by apply Hent.
  - rewrite Hc. intros j Hj. by destruct (Hd j Hj).
Qed.

Lemma dir_ok_same fs self R fs' : dir_ok fs self R -> same_data fs fs' -> dir_ok fs' self R.
Proof.
  intros Hd Hsd. pose proof Hsd as (Hok & Hp & _). eapply dir_ok_keep; [done|done|done| |done|apply Hd|].
  - eapply same_data_file; [apply Hd|done].
  - intros j Hj. rewrite (same_data_dent fs fs') by done. rewrite (same_data_ptr fs fs') by done. split; [done|]. by apply Hd.
Qed.

(** [ent] is the entry of a directory for [child] under [name]. *)
Definition entry_for (child : Inode) (name ent : list Z) : Prop :=
  entry_ok ent /\ entry_id ent = inid child /\ entry_name ent = name.

Record inserted fs self R child name (e : errno) fs' self' : Prop := {
  in_dir : dir_ok fs' self' R;
  in_mono : forall x, used fs x -> used fs' x;
  in_err : e <> EOK -> dcount self' = dcount self /\
    forall j, 0 <= j < dcount self -> dent fs' (bmap self') j = dent fs (bmap self) j;
  in_ok : e = EOK -> exists k ent, 0 <= k <= dcount self /\ (k < dcount self -> entry_id (dent fs (bmap self) k) <= 0) /\
    entry_for child name ent /\ dcount self' = Z.max (dcount self) (k + 1) /\
    forall j, 0 <= j < Z.max (dcount self) (k + 1) -> dent fs' (bmap self') j = if decide (j = k) then ent else dent fs (bmap self) j;
}.

Lemma inserted_entry fs self R child name k ent fs' self' :
  dir_ok fs self R -> entry_set fs (bmap self) R k ent fs' (bmap self') -> 0 <= k <= dcount self ->
  (k < dcount self -> entry_id (dent fs (bmap self) k) <= 0) -> entry_for child name ent ->
  fsize self' = 32 * Z.max (dcount self) (k + 1) -> fsize self' <= max_fba fs * bs -> reach (bmap self') (fsize self') ->
  inserted fs self R child name EOK fs' self'.
Proof.
  intros Hd Hset Hk Hfree Hent Hs Hmax Hr. destruct (dir_ok_set _ _ _ _ _ _ _ Hd Hset Hk (proj1 Hent) Hs Hmax Hr) as [Hd' Hc].
  constructor; [done|apply Hset|done|]. intros _. exists k, ent. split_and!; [lia|lia|done|done|done|].
  intros j Hj. apply (es_dent _ _ _ _ _ _ _ Hset). lia.
Qed.

Definition after_insert (child self : Inode) : Inode :=
  Inode_SetModified (Z.lor kInodeFlag_Updated kInodeFlag_StatusChanged) (if Inode_IsDirectory child then Inode_Link self else self).

Lemma after_insert_same child self :
  bmap (after_insert child self) = bmap self /\ fsize (after_insert child self) = fsize self /\ inid (after_insert child self) = inid self.
Proof. unfold after_insert. by destruct (Inode_IsDirectory child). Qed.

Section Insert.
Context fs self R name child (Hdir : dir_ok fs self R) (Hn : 1 <= Z.of_nat (length name) <= 27) (Hnb : Forall is_byte name)
  (Hid : 0 < inid child < 2 ^ 32).

Lemma entry_for_new e : length e = dirent_size -> Forall is_byte e -> entry_for child name (new_entry (inid child) name e).
Proof. intros Hl Hb. split; [by apply new_entry_ok|]. split; [by apply new_entry_id|by apply new_entry_name]. Qed.

Lemma dent_bytes k : Forall is_byte (dent fs (bmap self) k).
Proof. destruct Hdir. apply Forall_slice. by apply file_block_length. Qed.

(** What is stored in the block of entry [k]. *)
Lemma stored_entry k : 0 <= k ->
  store32 (Z.to_nat (32 * (k mod epb))) (inid child) (set_name name (file_block fs (bmap self) (k / epb)) (Z.to_nat (32 * (k mod epb)))) =
  patch (Z.to_nat (32 * (k mod epb))) (new_entry (inid child) name (dent fs (bmap self) k)) (file_block fs (bmap self) (k / epb)).
Proof. intros Hk. destruct Hdir. rewrite store_name_block; [done|by apply dent_fits|lia]. Qed.

Lemma insert_hint k :
  0 <= k < dcount self -> entry_id (dent fs (bmap self) k) <= 0 ->
  exists e fs' self',
    SfsDirectory_InsertEntry false fs self name child (Some (ptr fs (bmap self) (k / epb), 32 * (k mod epb))) = Some (e, fs', self') /\
    inid self' = inid self /\ inserted fs self R child name e fs' self'.
Proof.
  intros Hk Hfree. pose proof Hdir as [Hok Hf Hal [Hs0 Hs] Hmax Hr Hent Hsol]. pose proof (Hsol k Hk) as Hnz.
  assert (Hkr : 0 <= 32 * k < max_fba fs * bs) by lia.
  destruct (rewrite_entry fs (bmap self) R k Hal Hok Hf Hkr Hnz) as (e & d & fs1 & Hm & Hsd & Hw).
  unfold SfsDirectory_InsertEntry. assert (Hpos : 0 < ptr fs (bmap self) (k / epb)).
  { destruct (ptr_range fs (bmap self) R (k / epb) Hok Hf (entry_valid fs k Hal Hkr)). lia. }
  destruct (Z.ltb_spec 0 (ptr fs (bmap self) (k / epb))); [|lia]. rewrite Hm. cbn [mbind option_bind].
  destruct (is_ok e) eqn:Ee; cbn [negb]; cycle 1.
  { apply is_ok_false in Ee. exists e, fs1, self. split; [done|]. split; [done|]. constructor; [by eapply dir_ok_same| | |done].
    - destruct Hsd as (_ & _ & _ & Hu). intros x. apply Hu.
    - intros _. split; [done|]. intros j _. by apply same_data_dent. }
  apply is_ok_true in Ee as ->. destruct (Hw eq_refl) as [-> Hst].
  destruct (Hst (new_entry (inid child) name (dent fs (bmap self) k))) as (fs2 & Hun & Hset);
    [by apply entry_for_new; [by apply length_dent|apply dent_bytes]|by apply entry_for_new; [by apply length_dent|apply dent_bytes]|].
  cbn [SfsFile_UnmapBlock isZeroFill fb_lba fb_data]. rewrite stored_entry, Hun by lia. cbn [mbind option_bind].
  fold (after_insert child self). destruct (after_insert_same child self) as (Hb' & Hs' & Hi').
  eexists _, _, _. split; [done|]. split; [done|].
  apply (inserted_entry fs self R child name k (new_entry (inid child) name (dent fs (bmap self) k)));
    [done|by rewrite Hb'|lia|done|by apply entry_for_new; [by apply length_dent|apply dent_bytes]|rewrite Hs'; lia|by rewrite Hs'|by rewrite Hb', Hs'].
Qed.

Lemma insert_append ih :
  match ih with Some (lba, _) => lba = 0 | None => True end ->
  exists e fs' self', SfsDirectory_InsertEntry false fs self name child ih = Some (e, fs', self') /\ inid self' = inid self /\
    (reach (bmap self) (fsize self + 32) \/ e = EOK -> inserted fs self R child name e fs' self').
Proof.
  intros Hih. pose proof Hdir as [Hok Hf Hal [Hs0 Hs] Hmax Hr Hent Hsol]. destruct (bs_range fs Hok) as [Hbs HN].
  unfold SfsDirectory_InsertEntry.
  assert ((match ih with Some (lba, o) => if 0 <? lba then Some (lba, o) else None | None => None end) = None) as ->.
  { destruct ih as [[lba o]|]; [|done]. by rewrite Hih. }
  assert (Hbig : max_fba fs * bs < 2 ^ 32 * bs) by (unfold max_fba, kSFSDirectBlockPointersCount; nia).
  rewrite convert_offset by (done || lia). rewrite Hs. destruct (entry_pos (dcount self) Hal) as [-> ->].
  destruct (decide (fsize self = max_fba fs * bs)) as [Hfull|Hroom].
  { assert (Hge : max_fba fs <= dcount self / epb). { destruct Hal as [Hbs32 Hm]. apply Z.div_le_lower_bound; [done|nia]. }
    rewrite mapblock_too_big by (done || lia). cbn [mbind option_bind is_ok negb]. rewrite set_bmap_same.
    eexists _, _, _. split; [done|]. split; [done|]. intros _. constructor; [done|done|done|done]. }
  destruct (append_entry fs (bmap self) R (dcount self)) as (e & blk & fs1 & bm1 & Hmap & Hok1 & Hpl & Hpost); [done|done|done|lia|done|].
  rewrite (bind_some Hmap), <- Hs in *. destruct (fi_bitmap _ _ _ Hf) as [HRb _].
  assert (Hfail : forall fs2 e', e' <> EOK -> reserved_change R fs1 fs2 -> reach (bmap self) (fsize self + 32) \/ e = EOK ->
    (e = EOK \/ e' = e) -> inserted fs self R child name e' fs2 (set_bmap bm1 self)).
  { intros fs2 e' He' Hres Hc Hee. destruct (Hpost Hc fs2 Hres) as (Hok2 & Hp2 & Hf2 & Hr2 & Hi2 & Hu2 & Hd2 & _).
    constructor; [|done| |done].
    - eapply dir_ok_keep; [done|done|done|done|done| |by intros j Hj; apply Hd2].
      destruct Hr as [Hi|Hle]; [left; by apply Hi2|]. by right.
    - intros _. split; [done|]. intros j Hj. by apply Hd2. }
  destruct (is_ok e) eqn:Ee; cbn [negb]; cycle 1.
  { apply is_ok_false in Ee. cbn [mbind option_bind]. rewrite (proj2 (is_ok_false e)) by done. cbn [negb]. eexists _, _, _. split; [done|].
    split; [done|]. intros Hc. apply Hfail; [done| |by destruct Hc; auto|by right]. split; [done|]. split; [apply same_params_refl|done]. }
  apply is_ok_true in Ee as ->. destruct (commit_fs fs1 R Hok1) as (e2 & a & c & Hc & Hres); [by rewrite Hpl|]. rewrite (bind_some Hc).
  remember (with_container (with_allocator fs1 a) c) as fs2 eqn:Efs2. destruct (is_ok e2) eqn:Ee2; cbn [negb]; cycle 1.
  { apply is_ok_false in Ee2. cbn [mbind option_bind]. rewrite (proj2 (is_ok_false e2)) by done. cbn [negb]. eexists _, _, _. split; [done|].
    split; [done|]. intros _. apply Hfail; auto. }
  cbn [mbind option_bind is_ok negb].
  destruct (Hpost ltac:(by right) fs2 Hres) as (Hok2 & Hp2 & Hf2 & Hr2 & Hi2 & Hu2 & Hd2 & Hw). destruct (Hw eq_refl) as [Hd Hst].
  destruct (Hst (new_entry (inid child) name (dent fs (bmap self) (dcount self)))) as (fs3 & Hun & Hset);
    [by apply entry_for_new; [by apply length_dent|apply dent_bytes]|by apply entry_for_new; [by apply length_dent|apply dent_bytes]|].
  rewrite Hd in Hun |- *. assert (Hc0 : 0 <= dcount self) by lia. rewrite stored_entry, (bind_some Hun) by done.
  set (self1 := Inode_SetFileSize _ _). fold (after_insert child self1). destruct (after_insert_same child self1) as (Hb' & Hs' & Hi').
  eexists _, _, _. split; [done|]. split; [by rewrite Hi'|]. intros _.
  assert (Hsz1 : fsize self1 = 32 * dcount self + 32) by (unfold self1; cbn; unfold dirent_size; lia).
  apply (inserted_entry fs self R child name (dcount self) (new_entry (inid child) name (dent fs (bmap self) (dcount self))));
    [done|by rewrite Hb'|lia|lia|by apply entry_for_new; [by apply length_dent|apply dent_bytes]|rewrite Hs'; lia| |].
  - rewrite Hs', Hsz1. destruct Hal as [Hbs32 Hm]. assert (dcount self < max_fba fs * epb) by nia. nia.
  - rewrite Hb', Hs', Hsz1, <- Hs. exact Hr2.
Qed.

Lemma insert_spec ih :
  hint_fine fs (bmap self) (dcount self) ih ->
  exists e fs' self', SfsDirectory_InsertEntry false fs self name child ih = Some (e, fs', self') /\ inid self' = inid self /\
    (reach (bmap self) (fsize self + 32) \/ e = EOK -> inserted fs self R child name e fs' self').
Proof.
  intros Hih. destruct ih as [[lba o]|]; [|by apply insert_append]. destruct Hih as [->|(k & Hk & Hfree & -> & ->)]; [by apply insert_append|].
  destruct (insert_hint k Hk Hfree) as (e & fs' & self' & H1 & H2 & H3). by exists e, fs', self'.
Qed.
End Insert.

(** ** Removing *)

Lemma first_unneeded_entry j k : aligned -> 0 <= j < k -> j / epb < first_unneeded (32 * k).
Proof.
  intros Hal Hj. pose proof Hal as [Hbs Hm]. unfold first_unneeded. destruct (entry_pos k Hal) as [-> ->].
  assert (Hm0 : epb <> 0) by lia. pose proof (Z.div_mod k epb Hm0). pose proof (Z.mod_pos_bound k epb Hm).
  pose proof (Z.div_mod j epb Hm0). pose proof (Z.mod_pos_bound j epb Hm).
  destruct (Z.ltb_spec 0 (32 * (k mod epb))); nia.
Qed.

Lemma first_unneeded_covers k : aligned -> 0 <= k -> 32 * k <= first_unneeded (32 * k) * bs.
Proof.
  intros Hal Hk. pose proof Hal as [Hbs Hm]. unfold first_unneeded. destruct (entry_pos k Hal) as [-> ->].
  assert (Hm0 : epb <> 0) by lia. pose proof (Z.div_mod k epb Hm0). pose proof (Z.mod_pos_bound k epb Hm).
  destruct (Z.ltb_spec 0 (32 * (k mod epb))); nia.
Qed.

Lemma trim_entries fs self R k :
  dir_ok fs self R -> 0 <= k <= dcount self -> readable fs (indirect (bmap self)) ->
  exists did fs' bm', SfsFile_Trim fs (bmap self) (32 * k) = Some (did, fs', bm') /\
    forall self', bmap self' = bm' -> fsize self' = 32 * k -> dir_ok fs' self' R /\ dcount self' = k /\
      forall j, 0 <= j < k -> dent fs' bm' j = dent fs (bmap self) j.
Proof.
  intros [Hok Hf Hal [Hs0 Hs] Hmax Hr Hent Hsol] Hk Hread. destruct (bs_range fs Hok) as [Hbs HN].
  destruct (trim_spec fs (bmap self) R (32 * k)) as (did & fs' & bm' & Ht & Hp); [done|done|lia|done|].
  exists did, fs', bm'. split; [done|]. intros self' <- Hs'. destruct Hp as [Hok' Hp' Hf' Hptr _ Hdata Hind].
  assert (Hc : dcount self' = k) by (unfold dcount; rewrite Hs', Z.mul_comm; by apply Z.div_mul).
  assert (Hkeep : forall j, 0 <= j < k -> ptr fs' (bmap self') (j / epb) = ptr fs (bmap self) (j / epb)).
  { intros j Hj. rewrite Hptr by (apply entry_valid; [done|lia]). rewrite decide_True; [done|]. by apply first_unneeded_entry. }
  assert (Hd : forall j, 0 <= j < k -> dent fs' (bmap self') j = dent fs (bmap self) j).
  { intros j Hj. unfold dent, file_block. rewrite (Hkeep j Hj). destruct (Z.eqb_spec (ptr fs (bmap self) (j / epb)) 0); [done|].
    rewrite Hdata; [done|]. by destruct (fi_ptr _ _ _ Hf (j / epb) (entry_valid fs j Hal ltac:(lia))) as [|(_ & _ & ?)]. }
  split; [|done]. constructor; [done|done|done|rewrite Hc; lia| | | |].
  - unfold max_fba in *. destruct Hp' as (_ & _ & _ & -> & _). lia.
  - unfold reach. rewrite Hind, Hs'. pose proof (first_unneeded_covers k Hal ltac:(lia)) as Hcov. case_decide; [right; nia|].
    destruct Hr as [|Hle]; [by left|right]. lia.
  - rewrite Hc. intros j Hj. rewrite Hd by done. apply Hent. lia.
  - rewrite Hc. intros j Hj. rewrite Hkeep by done. apply Hsol. lia.
Qed.

Definition after_remove (child self : Inode) : Inode :=
  Inode_SetModified (Z.lor kInodeFlag_Updated kInodeFlag_StatusChanged) (if Inode_IsDirectory child then Inode_Unlink self else self).

Lemma after_remove_same child self :
  bmap (after_remove child self) = bmap self /\ fsize (after_remove child self) = fsize self /\ inid (after_remove child self) = inid self.
Proof. unfold after_remove. destruct (Inode_IsDirectory child); [|done]. unfold Inode_Unlink. by destruct (0 <? linkCount self). Qed.

Lemma dir_ok_fields fs self self' R : dir_ok fs self R -> bmap self' = bmap self -> fsize self' = fsize self -> dir_ok fs self' R.
Proof.
  intros [Hok Hf Hal Hsz Hmax Hr Hent Hsol] Hb Hs. unfold dcount in *. constructor; unfold dcount; rewrite ?Hb, ?Hs; done.
Qed.

Record removed fs self R child (e : errno) fs' self' : Prop := {
  rm_dir : dir_ok fs' self' R;
  rm_err : e <> EOK -> dcount self' = dcount self /\
    forall j, 0 <= j < dcount self -> dent fs' (bmap self') j = dent fs (bmap self) j;
  rm_ok : e = EOK -> exists k, search fs self (kSFSQuery_InodeId (inid child)) = Some k /\
    (dcount self' = dcount self \/ dcount self' = k /\ k = dcount self - 1) /\
    forall j, 0 <= j < dcount self' ->
      dent fs' (bmap self') j = if decide (j = k) then replicate dirent_size 0 else dent fs (bmap self) j;
}.

Lemma removed_error fs self R child e fs' :
  dir_ok fs self R -> e <> EOK -> same_data fs fs' -> removed fs self R child e fs' self.
Proof.
  intros Hd He Hsd. constructor; [by eapply dir_ok_same| |done]. intros _. split; [done|]. intros j _. by apply same_data_dent.
Qed.

Lemma zero_entry_ok : entry_ok (replicate dirent_size 0).
Proof.
  split; [apply length_replicate|]. split; [apply Forall_replicate; unfold is_byte; lia|]. intros H. by vm_compute in H.
Qed.

Lemma remove_spec fs self R child :
  dir_ok fs self R -> 0 < inid child < 2 ^ 32 ->
  (indirect (bmap self) <> 0 -> forall c m, exists d c', FSContainer_MapBlock (indirect (bmap self)) m c = (EOK, d, c')) ->
  exists e fs' self', SfsDirectory_RemoveEntry fs self child = Some (e, fs', self') /\ inid self' = inid self /\
    removed fs self R child e fs' self'.
Proof.
  intros Hdir Hid Hread. unfold SfsDirectory_RemoveEntry.
  destruct (query_spec fs self R (Query (kSFSQuery_InodeId (inid child)) None false) Hdir Hid) as (e & qr & fs1 & Hq & Hsd1 & Hres).
  rewrite (bind_some Hq). destruct Hres as [(-> & k & ih & Hse & -> & _)|(-> & _)]; cycle 1.
  { eexists _, _, _. split; [done|]. split; [done|]. by apply removed_error. }
  cbn [q_kind found found_at qr_lba qr_blockOffset qr_fileOffset is_ok negb] in *.
  pose proof (dir_ok_same _ _ _ _ Hdir Hsd1) as Hdir1. pose proof Hdir1 as [Hok1 Hf1 Hal [Hs0 Hs] Hmax1 _ _ Hsol1].
  apply first_from_Some in Hse as Hj. rewrite Z2Nat.id in Hj by lia. destruct Hj as (Hk & _ & _). rewrite Z.add_0_l in Hk.
  rewrite <- (same_data_ptr fs fs1 (bmap self)) by done.
  destruct (rewrite_entry fs1 (bmap self) R k Hal Hok1 Hf1 ltac:(lia) (Hsol1 k Hk)) as (e & d & fs2 & Hm & Hsd2 & Hw). rewrite Hm.
  destruct (is_ok e) eqn:Ee; cbn [negb]; cycle 1.
  { apply is_ok_false in Ee. eexists _, _, _. split; [done|]. split; [done|]. apply removed_error; [done|done|by eapply same_data_trans]. }
  apply is_ok_true in Ee as ->. destruct (Hw eq_refl) as [-> Hst]. destruct (Hst (replicate dirent_size 0)) as (fs3 & Hun & Hset);
    [apply length_replicate|apply Forall_replicate; unfold is_byte; lia|]. rewrite Nat2Z.id, Hun.
  destruct (dir_ok_set fs1 self R k (replicate dirent_size 0) fs3 self Hdir1 Hset) as [Hdir3 _];
    [lia|apply zero_entry_ok|lia|lia|apply Hdir1|].
  assert (Hd3 : forall j, 0 <= j < dcount self -> dent fs3 (bmap self) j = if decide (j = k) then replicate dirent_size 0 else dent fs (bmap self) j).
  { intros j Hj. rewrite (es_dent _ _ _ _ _ _ _ Hset) by lia. by rewrite (same_data_dent fs fs1). }
  change (Z.of_nat dirent_size) with 32. destruct (Z.eqb_spec (fsize self - 32) (32 * k)) as [Hlast|Hmid]; cycle 1.
  { cbn [mbind option_bind]. fold (after_remove child self). destruct (after_remove_same child self) as (Hb' & Hs' & Hi').
    eexists _, _, _. split; [done|]. split; [done|]. constructor; [by eapply dir_ok_fields|done|].
    intros _. exists k. split; [done|]. assert (Hc : dcount (after_remove child self) = dcount self) by (unfold dcount; by rewrite Hs').
    split; [by left|]. rewrite Hb', Hc. exact Hd3. }
  destruct (trim_entries fs3 self R k Hdir3 ltac:(lia)) as (did & fs4 & bm4 & Ht & Hpost).
  { intros Hi m. by apply Hread. }
  rewrite (bind_some Ht). cbn [mbind option_bind]. set (self1 := Inode_SetFileSize _ _).
  fold (after_remove child self1). destruct (after_remove_same child self1) as (Hb' & Hs' & Hi').
  eexists _, _, _. split; [done|]. split; [by rewrite Hi'|]. destruct (Hpost (after_remove child self1)) as (Hdir4 & Hc & Hd4); [done|done|].
  constructor; [done|done|]. intros _. exists k. split; [done|]. split; [right; lia|]. rewrite Hb', Hc. intros j Hj.
  change (bmap self1) with bm4. rewrite Hd4 by done. apply Hd3. lia.
Qed.
End DirSpecs.

(** ** Directories are finite maps *)

Section DirThm.
Context {C} {FC : FSContainer C} {FCS : FSContainerSpec C}.
Implicit Types (fs : SerenaFS C) (R : Z -> Prop) (self child : Inode) (m : gmap (list Z) Z).

(** The directory [self] holds the names of [m]. *)
Definition dir_repr fs self m : Prop := tab_repr (dent fs (bmap self)) (dcount self) m.

Lemma found_id q fs self R k ih :
  dir_ok fs self R -> qr_id (found q fs (bmap self) k ih) = entry_id (dent fs (bmap self) k) /\ qr_ih (found q fs (bmap self) k ih) = ih.
Proof. intros []. split; [|done]. cbn. rewrite entry_id_block by (by apply dent_fits). done. Qed.

Lemma search_name fs self R m name :
  dir_ok fs self R -> dir_repr fs self m -> 1 <= Z.of_nat (length name) <= 27 ->
  m !! name = (entry_id ∘ dent fs (bmap self)) <$> search fs self (kSFSQuery_PathComponent name).
Proof.
  intros Hd [Hu Hm] Hn. assert (Hc : 0 <= dcount self) by (destruct (do_size _ _ _ Hd); lia).
  destruct (search _ _ _) as [k|] eqn:E; cbn.
  - apply first_from_Some in E as (Hk & Hma & _). rewrite Z2Nat.id in Hk by done. rewrite Z.add_0_l in Hk.
    apply name_matches in Hma as [Hl En]; [|by apply Hd|done]. apply Hm. by exists k.
  - destruct (m !! name) as [id|] eqn:El; [|done]. apply Hm in El as (k & Hk & Hl & En & _).
    pose proof (first_from_None _ _ _ E k ltac:(lia)) as Hf. cbn beta in Hf.
    rewrite (proj2 (name_matches name _ (do_ent _ _ _ Hd k Hk) Hn)) in Hf; done.
Qed.

Lemma insert_repr fs self R m child name e fs' self' :
  dir_repr fs self m -> m !! name = None -> 0 < inid child -> inserted fs self R child name e fs' self' ->
  dir_repr fs' self' (if is_ok e then <[name := inid child]> m else m).
Proof.
  intros Hm Hn Hid [Hd _ Herr Hok]. unfold dir_repr. destruct (is_ok e) eqn:Ee.
  - apply is_ok_true in Ee. destruct (Hok Ee) as (k & ent & Hk & Hfree & (Hent & Hi & Hna) & -> & Hd'). rewrite <- Hi.
    eapply tab_set; [done|done| |done| |done|done]; unfold live; [intros Hlt; specialize (Hfree Hlt); lia|lia].
  - apply is_ok_false in Ee. destruct (Herr Ee) as [-> Hd']. by eapply tab_same.
Qed.

Lemma remove_repr fs self R m child e fs' self' :
  dir_ok fs self R -> dir_repr fs self m -> 0 < inid child < 2 ^ 32 -> removed fs self R child e fs' self' ->
  (e <> EOK -> dir_repr fs' self' m) /\
  (e = EOK -> exists nm, m !! nm = Some (inid child) /\ dir_repr fs' self' (delete nm m)).
Proof.
  intros Hdir Hm Hid [Hd Herr Hok]. unfold dir_repr. split.
  - intros He. destruct (Herr He) as [-> Hd']. by eapply tab_same.
  - intros He. destruct (Hok He) as (k & Hs & Hc & Hd').
    apply first_from_Some in Hs as (Hk & Hma & _). destruct (do_size _ _ _ Hdir) as [Hs0 Hs]. rewrite Z2Nat.id in Hk by lia.
    apply id_matches in Hma; [|done]. assert (Hl : live (dent fs (bmap self) k)) by (unfold live; lia).
    exists (entry_name (dent fs (bmap self) k)). split; [apply Hm; exists k; split; [lia|done]|].
    eapply tab_clear; [done|lia|done| |done|done]. intros H. by vm_compute in H.
Qed.

End DirThm.

(** ** A small directory *)

#[local] Existing Instance big_container.
#[local] Existing Instance big_container_spec.

(** Block 3 holds the entries "." and ".." of the root directory, whose inode is
    in block 2. *)
Definition root_block : list Z :=
  [0; 0; 0; 2; 1; 46] ++ replicate 26 0 ++ [0; 0; 0; 2; 2; 46; 46] ++ replicate 25 0 ++ replicate 448 0.

Definition dir_volume : SerenaFS memdisk :=
  SFS (MD (<[3 := root_block]> (<[1 := [0xfc; 0; 0; 0] ++ replicate 508 0]> ∅)) ∅) (SA [0xfc; 0; 0; 0] 4 1 1 [0] 512 32) 512 9 511 128.

Definition root_inode : Inode :=
  INode 2 2 1 FS_FTYPE_DIR 0x1ed 0 0 64 (1, 2) (3, 4) (5, 6) 0 (Bmap 0 (3 :: replicate 109 0)).

Definition root_names : gmap (list Z) Z := {[ [46] := 2; [46; 46] := 2 ]}.

Lemma dir_volume_ok : fs_ok dir_volume.
Proof.
  constructor; cbn -[Z.to_nat replicate]; try done; try lia.
  - constructor; cbn; try done; try lia; by apply bytes_ok.
  - apply map_Forall_insert_2; [split; [reflexivity|by apply bytes_ok]|].
    apply map_Forall_insert_2; [split; [reflexivity|by apply bytes_ok]|]. apply map_Forall_empty.
  - intros i Hi. cbn in Hi. right. assert (i = 0) as -> by lia. vm_compute. reflexivity.
Qed.

Lemma root_ptr b : ptr dir_volume (bmap root_inode) b = if decide (b <= 0) then 3 else 0.
Proof.
  unfold ptr, arr_get, kSFSDirectBlockPointersCount. cbn [bmap root_inode direct indirect]. case_decide.
  - destruct (Z.ltb_spec b 110); [|lia]. replace (Z.to_nat b) with O by lia. done.
  - destruct (Z.ltb_spec b 110); [|done]. replace (Z.to_nat b) with (S (Z.to_nat (b - 1))) by lia. cbn [lookup list_lookup].
    destruct (replicate 109 0 !! Z.to_nat (b - 1)) as [x|] eqn:E; [|done]. by apply lookup_replicate in E as [-> _].
Qed.

Lemma root_dir_ok : dir_ok dir_volume root_inode demo_reserved_blocks.
Proof.
  assert (Hrng : forall k, 0 <= k < dcount root_inode -> k = 0 \/ k = 1) by (intros k Hk; change (dcount root_inode) with 2 in Hk; lia).
  constructor; [exact dir_volume_ok| |split; by vm_compute|split; [done|by vm_compute]|by vm_compute|by right; vm_compute| |].
  - constructor; [done| |by left| | |split; [by left|split; by vm_compute]].
    + intros b [Hb _]. rewrite root_ptr. case_decide; [right|by left]. split; [split; by vm_compute|]. split; [intros [|]; lia|done].
    + intros a b [Ha _] [Hb _]. rewrite !root_ptr. repeat case_decide; lia.
    + intros l [-> | ->]; right; split; by vm_compute.
  - intros k Hk. destruct (Hrng k Hk) as [-> | ->]; (split; [by vm_compute|split; [by apply bytes_ok; vm_compute|by vm_compute]]).
  - intros k Hk. destruct (Hrng k Hk) as [-> | ->]; by vm_compute.
Qed.

Lemma root_repr : dir_repr dir_volume root_inode root_names.
Proof.
  assert (Hrng : forall k, 0 <= k < dcount root_inode -> k = 0 \/ k = 1) by (intros k Hk; change (dcount root_inode) with 2 in Hk; lia).
  split.
  - intros i j Hi Hj _ _. destruct (Hrng i Hi) as [-> | ->], (Hrng j Hj) as [-> | ->]; try done; by vm_compute.
  - intros nm id. unfold root_names. split.
    + intros [[<- <-]|[Hne [<- <-]%lookup_singleton_Some]]%lookup_insert_Some.
      * exists 0. split; [by vm_compute|]. split; [by vm_compute|]. split; by vm_compute.
      * exists 1. split; [by vm_compute|]. split; [by vm_compute|]. split; by vm_compute.
    + intros (k & Hk & _ & <- & <-). destruct (Hrng k Hk) as [-> | ->]; by vm_compute.
Qed.

Definition file_inode : Inode := INode 4 2 1 FS_FTYPE_REG 0x1a4 10 11 0 (1, 2) (3, 4) (5, 6) 0 (Bmap 0 (replicate 110 0)).


(** A directory that fills its block, with a long name in the last entry. *)
Definition full_block : list Z :=
  [0; 0; 0; 2; 1; 46] ++ replicate 26 0 ++ [0; 0; 0; 2; 2; 46; 46] ++ replicate 441 0 ++ [0; 0; 0; 4; 27] ++ replicate 27 122.

Definition full_volume : SerenaFS memdisk :=
  SFS (MD (<[3 := full_block]> (<[1 := [0xfc; 0; 0; 0] ++ replicate 508 0]> ∅)) ∅) (SA [0xfc; 0; 0; 0] 4 1 1 [0] 512 32) 512 9 511 128.

(** Reading a directory from an offset that is not a multiple of the entry
    size, which a process can choose with lseek, takes characters of names for
    the fields of an entry and copies a name from behind the end of the block. *)
Theorem misaligned_directory_read :
  length full_block = 512%nat /\
  (exists got o fs' self', SfsDirectory_read true full_volume (Inode_SetFileSize 512 root_inode) 0 1000 = Some (EOK, got, o, fs', self') /\
     got = [(2, [46]); (2, [46; 46]); (4, replicate 27 122)]) /\
  SfsDirectory_read true full_volume (Inode_SetFileSize 512 root_inode) 488 1000 = None.
Proof.
  split; [reflexivity|]. split; [|vm_compute; reflexivity]. eexists _, _, _, _. split; [vm_compute; reflexivity|reflexivity].
Qed.
