(* ===== verification/SerenaFSOps.v ===== *)
(** * The operations of the Serena filesystem on its directory tree

    Starting and stopping the filesystem, creating, linking, unlinking, moving
    and looking up nodes (SerenaFS.c, SerenaFS_Inode.c, SerenaFS_Directory.c and
    SfsDirectory_IsAncestorOf).  The nodes that the caller has locked are passed
    in and returned; the source and the destination directory of a move are
    different nodes, as FileManager_Rename makes sure. *)

From S2P Require Import Prelude ExtBit Bytes FSContainer SfsAllocator SfsFile SfsInode SfsRegularFile SfsDirectory.

Definition kSFSSignature_SerenaFS : Z := 0x53654653.
Definition kSFSVersion_v0_1 : Z := 0x100.
Definition kSFSVolAttrib_ReadOnly : Z := 1.

(** The properties that onStart reports: the root directory and whether the
    volume is read-only. *)
Record FSProperties := FSProps { rootDirectoryId : Z; isReadOnly : bool }.

Definition set_pnid (p : Z) (i : Inode) : Inode :=
  INode (inid i) p (linkCount i) (fileType i) (permissions i) (uid i) (gid i) (fsize i) (accessTime i) (modificationTime i)
    (statusChangeTime i) (iflags i) (bmap i).
Definition Inode_SetParentId (p : Z) (i : Inode) : Inode := set_pnid p i.
Definition Inode_IsModified (i : Inode) : bool := negb (Z.land (iflags i) 0xe =? 0).

(** Starting a filesystem.  [kalloc_ok] says which allocations of kernel memory
    succeed and [fresh] what new memory holds. *)
Section Start.
Context {C} {FC : FSContainer C}.
Variable kalloc_ok : Z -> bool.
Variable fresh : Z -> list Z.

(** [fscBlockCount] and [fscIsReadOnly] are the size and the write protection of
    the container.  The block that the unmap releases was only read. *)
Definition SerenaFS_onStart (fs : SerenaFS C) (fscBlockCount : Z) (fscIsReadOnly : bool)
  : option (errno * FSProperties * SerenaFS C) :=
  let fscBlockSize := Z.of_nat fsc_blockSize in
  if fscBlockCount <? kSFSVolume_MinBlockCount then Some (EIO, FSProps 0 true, fs)
  else if 0xffff <? fscBlockSize then Some (EIO, FSProps 0 true, fs)
  else
    let '(e, d, fs) := fs_map fs 0 kMapBlock_ReadOnly in
    if negb (is_ok e) then Some (e, FSProps 0 true, fs)
    else
      let done e p fs := let '(_, fs) := fs_unmap fs 0 d kWriteBlock_None in Some (e, p, fs) in
      if negb (vh_signature d =? kSFSSignature_SerenaFS) || negb (vh_version d =? kSFSVersion_v0_1) then done EIO (FSProps 0 true) fs
      else if negb (vh_volBlockSize d =? fscBlockSize) then done EIO (FSProps 0 true) fs
      else if negb (kalloc_ok fscBlockSize) then done ENOMEM (FSProps 0 true) fs
      else
        let blockSize := vh_volBlockSize d in
        let '(e, a, c) := SfsAllocator_Start kalloc_ok fresh (blockAllocator fs) d blockSize (fs_container fs) in
        let fs := with_container (with_allocator fs a) c in
        if negb (is_ok e) then done e (FSProps (vh_lbaRootDir d) false) fs
        else
          shift ← log2_ul blockSize;
          let fs := SFS (fs_container fs) (blockAllocator fs) blockSize shift (blockSize - 1) (blockSize / 4) in
          let ro := fscIsReadOnly || (Z.land (vh_attributes d) kSFSVolAttrib_ReadOnly =? kSFSVolAttrib_ReadOnly) in
          done EOK (FSProps (vh_lbaRootDir d) ro) fs.

Definition SerenaFS_onStop (fs : SerenaFS C) : option (SerenaFS C) :=
  '(_, a, c) ← SfsAllocator_CommitToDisk (blockAllocator fs) (fs_container fs);
  Some (with_container (with_allocator fs (SfsAllocator_Stop a)) c).
End Start.

Section Ops.
Context {C} {FC : FSContainer C}.
Variable now : Z * Z.

(** [acquire] is what acquiring a node by its id gives. *)
Definition Filesystem_acquireParentNode (acquire : Z -> option Inode) (node : Inode) : option Inode :=
  if negb (pnid node =? 0) then acquire (pnid node) else None.

(** The walk to the root; [None] if it takes more than [fuel] steps. *)
Fixpoint SfsDirectory_IsAncestorOf (fuel : nat) (acquire : Z -> option Inode) (ancestor cur : Inode) : option bool :=
  match fuel with
  | O => None
  | S fuel =>
      if inid cur =? inid ancestor then Some true
      else match Filesystem_acquireParentNode acquire cur with
           | Some parent => if inid cur =? inid parent then Some false
                            else SfsDirectory_IsAncestorOf fuel acquire ancestor parent
           | None => Some false
           end
  end.

Definition SerenaFS_unlinkCore (fs : SerenaFS C) (node dir : Inode) : option (errno * SerenaFS C * Inode * Inode) :=
  '(e, fs, dir) ← SfsDirectory_RemoveEntry fs dir node;
  if negb (is_ok e) then Some (e, fs, node, dir)
  else
    '(_, fs, dir) ← Inode_Writeback now fs dir;
    '(_, a, c) ← SfsAllocator_CommitToDisk (blockAllocator fs) (fs_container fs);
    let fs := with_container (with_allocator fs a) c in
    Some (EOK, fs, Inode_SetModified kInodeFlag_StatusChanged (Inode_Unlink node), dir).

Definition SerenaFS_unlink (fs : SerenaFS C) (target dir : Inode) : option (errno * SerenaFS C * Inode * Inode) :=
  if Inode_IsDirectory target && (1 <? linkCount target) && SfsDirectory_IsNotEmpty target then Some (EBUSY, fs, target, dir)
  else SerenaFS_unlinkCore fs target dir.

Definition SerenaFS_link (stale : bool) (fs : SerenaFS C) (node dstDir : Inode) (name : list Z) (ih : option (Z * Z))
  : option (errno * SerenaFS C * Inode * Inode) :=
  let e := SfsDirectory_CanAcceptEntry dstDir name (SfsITypeFromFileType (fileType node)) in
  if negb (is_ok e) then Some (e, fs, node, dstDir)
  else
    '(e, fs, dstDir) ← SfsDirectory_InsertEntry stale fs dstDir name node ih;
    if negb (is_ok e) then Some (e, fs, node, dstDir)
    else
      '(_, fs, dstDir) ← Inode_Writeback now fs dstDir;
      Some (EOK, fs, Inode_SetModified kInodeFlag_StatusChanged (Inode_Link node), dstDir).

(** Returns the error, the filesystem, the node and the two directories. *)
Definition SerenaFS_move (fuel : nat) (acquire : Z -> option Inode) (stale : bool) (fs : SerenaFS C)
    (node srcDir dstDir : Inode) (newName : list Z) (ih : option (Z * Z))
  : option (errno * SerenaFS C * Inode * Inode * Inode) :=
  let isMovingDir := Inode_IsDirectory node in
  inside ← (if isMovingDir then SfsDirectory_IsAncestorOf fuel acquire node dstDir else Some false);
  if (inside : bool) then Some (EINVAL, fs, node, srcDir, dstDir)
  else
    '(e, fs, node, dstDir) ← SerenaFS_link stale fs node dstDir newName ih;
    if negb (is_ok e) then Some (e, fs, node, srcDir, dstDir)
    else
      '(e, fs, node, srcDir) ← SerenaFS_unlinkCore fs node srcDir;
      if negb (is_ok e) then Some (e, fs, node, srcDir, dstDir)
      else
        let node := Inode_SetParentId (inid dstDir) node in
        if isMovingDir then
          '(e, fs, node) ← SfsDirectory_UpdateParentEntry fs node (inid dstDir);
          if negb (is_ok e) then Some (e, fs, node, srcDir, dstDir)
          else Some (EOK, fs, node, srcDir, Inode_Link dstDir)
        else Some (EOK, fs, node, srcDir, dstDir).

(** [acquired] is the acquisition of the node that the entry names. *)
Definition SerenaFS_acquireNodeForName (acquired : Z -> option (errno * option Inode * SerenaFS C)) (fs : SerenaFS C)
    (dir : Inode) (name : list Z) (wantHint : bool)
  : option (errno * option Inode * option (Z * Z) * SerenaFS C * Inode) :=
  '(e, qr, fs, dir) ← SfsDirectory_Query fs dir (Query (kSFSQuery_PathComponent name) None wantHint);
  if is_ok e then
    '(e, node, fs) ← acquired (qr_id qr);
    Some (e, if is_ok e then node else None, qr_ih qr, fs, dir)
  else Some (e, None, qr_ih qr, fs, dir).

Definition SerenaFS_getNameOfNode (fs : SerenaFS C) (dir : Inode) (id cap : Z)
  : option (errno * option (list Z) * SerenaFS C * Inode) :=
  '(e, qr, fs, dir) ← SfsDirectory_Query fs dir (Query (kSFSQuery_InodeId id) (Some cap) false);
  Some (e, qr_mpc qr, fs, dir).

(** The first entries of a new directory. *)
Definition dot_entries (id parent : Z) (d : list Z) : list Z :=
  patch (32 + 5) [46; 46] (patch (32 + 4) [2] (store32 32 parent (patch 5 [46] (patch 4 [1] (store32 0 id d))))).

(** A new inode in a cleared block. *)
Definition init_inode (id parent : Z) (ftype perms uid gid size contLba : Z) (d : list Z) : list Z :=
  let d := store 8 0 size d in
  let d := store_time 24 now (store_time 16 now (store_time 8 now d)) in
  let d := store32 40 kSFSSignature_Inode d in
  let d := store32 44 1 (store32 36 parent (store32 32 id d)) in
  let d := store32 56 gid (store32 52 uid d) in
  let d := store 2 50 (Z.land perms 0x1ff) (store 2 48 (SfsITypeFromFileType ftype) d) in
  store32 off_direct contLba d.

(** Gives up the last reference to a node: it is written back if it was changed
    or has no links any more. *)
Definition relinquish_last (fs : SerenaFS C) (node : Inode) : option (SerenaFS C) :=
  if (linkCount node =? 0) || Inode_IsModified node then
    '(_, fs, _) ← Inode_Writeback now fs node; Some fs
  else Some fs.

(** The error exit of SerenaFS_createNode. *)
Definition create_failed (e : errno) (fs : SerenaFS C) (node : option Inode) (dir : Inode) (contLba inodeLba : Z)
  : option (errno * option Inode * SerenaFS C * Inode) :=
  '(fs, dir) ←
    match node with
    | Some node =>
        '(_, fs, node, dir) ← SerenaFS_unlink fs node dir;
        fs ← relinquish_last fs node;
        Some (fs, dir)
    | None => Some (fs, dir)
    end;
  a ← (if negb (contLba =? 0) then SfsAllocator_Deallocate (blockAllocator fs) contLba else Some (blockAllocator fs));
  a ← (if negb (inodeLba =? 0) then SfsAllocator_Deallocate a inodeLba else Some a);
  '(_, a, c) ← SfsAllocator_CommitToDisk a (fs_container fs);
  Some (e, None, with_container (with_allocator fs a) c, dir).

(** Creates a node and enters it into [dir].  The first two results are the error
    and the new node, which the caller holds the only reference to. *)
Definition SerenaFS_createNode (kalloc stale : bool) (fs : SerenaFS C) (dir : Inode) (name : list Z) (ih : option (Z * Z))
    (uid gid ftype fsperms : Z) : option (errno * option Inode * SerenaFS C * Inode) :=
  let itype := SfsITypeFromFileType ftype in
  if itype =? 0 then Some (EINVAL, None, fs, dir)
  else
    let e := SfsDirectory_CanAcceptEntry dir name itype in
    if negb (is_ok e) then create_failed e fs None dir 0 0
    else
      '(e, inodeLba, a) ← SfsAllocator_Allocate (blockAllocator fs);
      let fs := with_allocator fs a in
      if negb (is_ok e) then create_failed e fs None dir 0 0
      else
        '(e, contLba, fs) ←
          (if itype =? kSFSInode_Directory then
             '(e, contLba, a) ← SfsAllocator_Allocate (blockAllocator fs);
             let fs := with_allocator fs a in
             if negb (is_ok e) then Some (e, 0, fs)
             else
               let '(e, d, fs) := fs_map fs contLba kMapBlock_Cleared in
               if negb (is_ok e) then Some (e, contLba, fs)
               else
                 let '(_, fs) := fs_unmap fs contLba (dot_entries inodeLba (inid dir) d) kWriteBlock_Deferred in
                 Some (EOK, contLba, fs)
           else Some (EOK, 0, fs));
        let fileSize := if itype =? kSFSInode_Directory then 64 else 0 in
        if negb (is_ok e) then create_failed e fs None dir contLba inodeLba
        else
          let '(e, d, fs) := fs_map fs inodeLba kMapBlock_Cleared in
          if negb (is_ok e) then create_failed e fs None dir contLba inodeLba
          else
            let d := init_inode inodeLba (inid dir) ftype fsperms uid gid fileSize contLba d in
            let '(_, fs) := fs_unmap fs inodeLba d kWriteBlock_Deferred in
            '(e, node, fs) ← SerenaFS_onAcquireNode kalloc fs inodeLba;
            match e, node with
            | EOK, Some node =>
                '(e, fs, dir) ← SfsDirectory_InsertEntry stale fs dir name node ih;
                if negb (is_ok e) then create_failed e fs (Some node) dir contLba inodeLba
                else
                  '(_, fs, dir) ← Inode_Writeback now fs dir;
                  '(e, a, c) ← SfsAllocator_CommitToDisk (blockAllocator fs) (fs_container fs);
                  let fs := with_container (with_allocator fs a) c in
                  if negb (is_ok e) then create_failed e fs (Some node) dir contLba inodeLba
                  else Some (EOK, Some node, fs, dir)
            | _, _ => create_failed e fs None dir contLba inodeLba
            end.
End Ops.

(** ** Mounting *)

Section StartThm.
Context {C} {FC : FSContainer C} {FCS : FSContainerSpec C}.

(** Reading a block and giving it back changes nothing. *)
Lemma read_header (fs : SerenaFS C) e d fs1 :
  fsc_ok (fs_container fs) -> fs_map fs 0 kMapBlock_ReadOnly = (e, d, fs1) ->
  fsc_ok (fs_container fs1) /\ (forall l, fdata fs1 l = fdata fs l) /\ (e = EOK -> d = fdata fs 0) /\ blockAllocator fs1 = blockAllocator fs.
Proof.
  intros Hc. unfold fs_map. destruct (FSContainer_MapBlock 0 _ _) as [[e' d'] c'] eqn:E. intros [= -> -> <-].
  destruct (decide (e = EOK)) as [->|He].
  - destruct (fsc_map_ok _ _ _ _ _ Hc E) as (Hc' & _ & Ho & Hr & _). destruct (Hr ltac:(by left)) as [-> H0].
    split; [done|]. split; [|done]. intros l. unfold fdata. cbn. destruct (decide (l = 0)) as [->|]; [done|by apply Ho].
  - destruct (fsc_map_err _ _ _ _ _ _ Hc E He) as [Hc' Hd]. done.
Qed.

Lemma unmap_header (fs : SerenaFS C) e fs1 :
  fsc_ok (fs_container fs) -> fs_unmap fs 0 (fdata fs 0) kWriteBlock_None = (e, fs1) ->
  fsc_ok (fs_container fs1) /\ (forall l, fdata fs1 l = fdata fs l) /\ exists c, fs1 = with_container fs c.
Proof.
  intros Hc. unfold fs_unmap. destruct (FSContainer_UnmapBlock _ _ _ _) as [e' c'] eqn:E. intros [= _ <-].
  destruct (fsc_unmap _ _ _ _ _ _ Hc (fsc_data_block _ 0 Hc) E) as (Hc' & Ho & _ & _ & Hn).
  split; [done|]. split; [|by eexists]. intros l. unfold fdata. cbn. destruct (decide (l = 0)) as [->|]; [by apply Hn|by apply Ho].
Qed.

(** What a successful start promises for a volume with the header [hd]. *)
Definition started (hd : list Z) (blocks : Z) (ro : bool) (p : FSProperties) (fs' : SerenaFS C) : Prop :=
  fs_ok fs' /\ vh_signature hd = kSFSSignature_SerenaFS /\ vh_version hd = kSFSVersion_v0_1 /\ 4 <= blocks /\
  rootDirectoryId p = vh_lbaRootDir hd /\ volumeBlockCount (blockAllocator fs') = vh_volBlockCount hd /\
  (ro = true -> isReadOnly p = true).

(** The common exit releases the header block. *)
Lemma start_exit (fs fs2 : SerenaFS C) (e : errno) (p : FSProperties) :
  fsc_ok (fs_container fs2) -> (forall l, fdata fs2 l = fdata fs l) ->
  exists fs', (let '(_, fs0) := fs_unmap fs2 0 (fdata fs 0) kWriteBlock_None in Some (e, p, fs0)) = Some (e, p, fs') /\
    fsc_ok (fs_container fs') /\ (forall l, fdata fs' l = fdata fs l) /\ exists c, fs' = with_container fs2 c.
Proof.
  intros Hc2 Hd2. rewrite <- (Hd2 0). destruct (fs_unmap fs2 0 _ _) as [e2 fs3] eqn:Eu.
  destruct (unmap_header _ _ _ Hc2 Eu) as (Hc3 & Hd3 & Hw). eexists. split; [done|]. split; [done|]. split; [|done].
  intros l. by rewrite Hd3, Hd2.
Qed.

Lemma start_exit_error (fs fs2 : SerenaFS C) (e : errno) (p : FSProperties) blocks ro :
  e <> EOK -> fsc_ok (fs_container fs2) -> (forall l, fdata fs2 l = fdata fs l) ->
  exists e' p' fs', (let '(_, fs0) := fs_unmap fs2 0 (fdata fs 0) kWriteBlock_None in Some (e, p, fs0)) = Some (e', p', fs') /\
    fsc_ok (fs_container fs') /\ (forall l, fdata fs' l = fdata fs l) /\ (e' = EOK -> started (fdata fs 0) blocks ro p' fs').
Proof. intros He Hc2 Hd2. destruct (start_exit fs fs2 e p Hc2 Hd2) as (fs' & H1 & H2 & H3 & _). by eexists _, _, _. Qed.

End StartThm.

(** ** What the operations keep of an inode *)

Section Ids.
Context {C} {FC : FSContainer C}.
Implicit Types (fs : SerenaFS C) (self node dir child : Inode).

(** The fields that only creating, linking and moving a node set. *)
Definition ids (i : Inode) : Z * Z * Z * Z := (inid i, pnid i, fileType i, linkCount i).

Lemma query_ids fs self q e qr fs' self' :
  SfsDirectory_Query fs self q = Some (e, qr, fs', self') -> ids self' = ids self.
Proof.
  unfold SfsDirectory_Query. intros H. repeat case_match; simplify_option_eq; repeat case_match; by simplify_eq.
Qed.

Lemma writeback_ids now fs self e fs' self' :
  Inode_Writeback now fs self = Some (e, fs', self') -> ids self' = ids self.
Proof.
  unfold Inode_Writeback, SerenaFS_onWritebackNode. intros H. apply bind_Some in H as ([[e1 fs1] self1] & H1 & H). injection H as <- <- <-.
  apply bind_Some in H1 as ([fs2 self2] & H2 & H1).
  assert (Hs : ids self2 = ids self).
  { destruct (linkCount self =? 0); [|by simplify_eq]. apply bind_Some in H2 as ([[b fs3] bm3] & _ & H2). by simplify_eq. }
  rewrite <- Hs. destruct (fs_map fs2 _ _) as [[e3 d] fs3]. destruct (linkCount self =? 0); [|by simplify_eq].
  apply bind_Some in H1 as (a & _ & H1). apply bind_Some in H1 as ([[e4 a4] c4] & _ & H1). by simplify_eq.
Qed.

Lemma insert_ids stale fs self name child ih e fs' self' :
  SfsDirectory_InsertEntry stale fs self name child ih = Some (e, fs', self') ->
  inid self' = inid self /\ pnid self' = pnid self /\ fileType self' = fileType self /\
  (e = EOK -> linkCount self' = if Inode_IsDirectory child then s32 (linkCount self + 1) else linkCount self).
Proof.
  unfold SfsDirectory_InsertEntry. intros H. apply bind_Some in H as ([[[[e1 blk] o] fs1] self1] & H1 & H).
  assert (Hs : ids self1 = ids self).
  { destruct (match ih with Some (lba, o) => if 0 <? lba then Some (lba, o) else None | None => None end) as [[lba o']|];
      [destruct (fs_map fs lba kMapBlock_Update) as [[? ?] ?]; by simplify_eq|].
    destruct (SfsFile_ConvertOffset fs (fsize self)). repeat (case_match || simplify_option_eq); done. }
  unfold ids in Hs. injection Hs as Hi Hp Hf Hl. destruct (is_ok e1) eqn:Ee; cbn [negb] in H; cycle 1.
  { apply is_ok_false in Ee. injection H as <- <- <-. by split_and!. }
  apply bind_Some in H as ([e2 fs2] & _ & H). injection H as <- <- <-. rewrite <- Hi, <- Hp, <- Hf, <- Hl.
  by destruct (Inode_IsDirectory child).
Qed.

Lemma remove_ids fs self child e fs' self' :
  SfsDirectory_RemoveEntry fs self child = Some (e, fs', self') ->
  inid self' = inid self /\ pnid self' = pnid self /\ fileType self' = fileType self.
Proof.
  unfold SfsDirectory_RemoveEntry. intros H. apply bind_Some in H as ([[[e1 qr] fs1] self1] & Hq & H).
  apply query_ids in Hq. unfold ids in Hq. injection Hq as Hi Hp Hf _. rewrite <- Hi, <- Hp, <- Hf.
  destruct (is_ok e1); cbn [negb] in H; [|by simplify_eq]. destruct (fs_map fs1 _ _) as [[e2 d] fs2].
  destruct (is_ok e2); cbn [negb] in H; [|by simplify_eq]. destruct (fs_unmap fs2 _ _ _) as [e3 fs3].
  apply bind_Some in H as ([fs4 self4] & H4 & H). assert (Hs : ids self4 = ids self1) by (repeat (case_match || simplify_option_eq); done).
  unfold ids in Hs. injection Hs as Hi4 Hp4 Hf4 _. injection H as <- <- <-. rewrite <- Hi4, <- Hp4, <- Hf4.
  destruct (Inode_IsDirectory child); [|done]. unfold Inode_Unlink. by destruct (0 <? linkCount self4).
Qed.

Lemma update_parent_ids fs self p e fs' self' :
  SfsDirectory_UpdateParentEntry fs self p = Some (e, fs', self') -> ids self' = ids self.
Proof.
  unfold SfsDirectory_UpdateParentEntry. intros H. apply bind_Some in H as ([[[e1 qr] fs1] self1] & Hq & H).
  apply query_ids in Hq. rewrite <- Hq. repeat (case_match || simplify_option_eq); done.
Qed.

Lemma link_ids now stale fs node dst name ih e fs' node' dst' :
  SerenaFS_link now stale fs node dst name ih = Some (e, fs', node', dst') ->
  inid node' = inid node /\ pnid node' = pnid node /\ fileType node' = fileType node /\
  inid dst' = inid dst /\ pnid dst' = pnid dst /\ fileType dst' = fileType dst /\
  (e = EOK -> linkCount dst' = if Inode_IsDirectory node then s32 (linkCount dst + 1) else linkCount dst).
Proof.
  unfold SerenaFS_link. intros H. destruct (is_ok (SfsDirectory_CanAcceptEntry _ _ _)) eqn:Ec; cbn [negb] in H; cycle 1.
  { apply is_ok_false in Ec. injection H as <- <- <- <-. by split_and!. }
  apply bind_Some in H as ([[e1 fs1] dst1] & Hi & H). apply insert_ids in Hi as (Hi1 & Hi2 & Hi3 & Hi4).
  destruct (is_ok e1) eqn:Ee; cbn [negb] in H; cycle 1.
  { apply is_ok_false in Ee. injection H as <- <- <- <-. by split_and!. }
  apply bind_Some in H as ([[e2 fs2] dst2] & Hw & H). apply writeback_ids in Hw. unfold ids in Hw. injection Hw as Hw1 Hw2 Hw3 Hw4.
  injection H as <- <- <- <-. split_and!; try done; [congruence..|]. intros _. rewrite Hw4. apply Hi4. by apply is_ok_true in Ee.
Qed.

Lemma unlink_core_ids now fs node dir e fs' node' dir' :
  SerenaFS_unlinkCore now fs node dir = Some (e, fs', node', dir') ->
  inid node' = inid node /\ pnid node' = pnid node /\ fileType node' = fileType node /\
  inid dir' = inid dir /\ pnid dir' = pnid dir.
Proof.
  unfold SerenaFS_unlinkCore. intros H. apply bind_Some in H as ([[e1 fs1] dir1] & Hr & H). apply remove_ids in Hr as (Hr1 & Hr2 & _).
  destruct (is_ok e1); cbn [negb] in H; [|injection H as <- <- <- <-; by split_and!].
  apply bind_Some in H as ([[e2 fs2] dir2] & Hw & H). apply writeback_ids in Hw. unfold ids in Hw. injection Hw as Hw1 Hw2 _ _.
  apply bind_Some in H as ([[e3 a] c] & _ & H). injection H as <- <- <- <-.
  assert (Hu : forall i, inid (Inode_Unlink i) = inid i /\ pnid (Inode_Unlink i) = pnid i /\ fileType (Inode_Unlink i) = fileType i).
  { intros i. unfold Inode_Unlink. by destruct (0 <? linkCount i). }
  destruct (Hu node) as (H1 & H2 & H3). split_and!; try done; congruence.
Qed.

(** A move that succeeds. *)
Lemma move_ids now fuel acquire stale fs node src dst name ih fs' node' src' dst' :
  SerenaFS_move now fuel acquire stale fs node src dst name ih = Some (EOK, fs', node', src', dst') ->
  inid node' = inid node /\ pnid node' = inid dst /\ inid src' = inid src /\ pnid src' = pnid src /\
  inid dst' = inid dst /\ pnid dst' = pnid dst /\
  (Inode_IsDirectory node = true -> SfsDirectory_IsAncestorOf fuel acquire node dst = Some false /\
     linkCount dst' = s32 (s32 (linkCount dst + 1) + 1)).
Proof.
  unfold SerenaFS_move. intros H. apply bind_Some in H as (inside & Hin & H). destruct inside; [done|].
  apply bind_Some in H as ([[[e1 fs1] node1] dst1] & Hl & H). apply link_ids in Hl as (L1 & L2 & L3 & L4 & L5 & L6 & L7).
  destruct (is_ok e1) eqn:Ee1; cbn [negb] in H; [|apply is_ok_false in Ee1; congruence]. apply is_ok_true in Ee1.
  apply bind_Some in H as ([[[e2 fs2] node2] src2] & Hu & H). apply unlink_core_ids in Hu as (U1 & U2 & U3 & U4 & U5).
  destruct (is_ok e2) eqn:Ee2; cbn [negb] in H; [|apply is_ok_false in Ee2; congruence].
  destruct (Inode_IsDirectory node) eqn:Ed; cycle 1.
  { injection H as <- <- <- <-. cbn. split_and!; try done; congruence. }
  apply bind_Some in H as ([[e3 fs3] node3] & Hp & H). apply update_parent_ids in Hp. unfold ids in Hp. injection Hp as P1 P2 _ _.
  destruct (is_ok e3) eqn:Ee3; cbn [negb] in H; [|apply is_ok_false in Ee3; congruence]. injection H as <- <- <- <-. cbn in P1, P2.
  split_and!; try done; try congruence. intros _. split; [done|]. cbn. by rewrite L7.
Qed.
End Ids.

(** ** The directory tree *)

Section Tree.
Implicit Types (T : gmap Z Inode) (x y r : Z).

(** [y] is the parent directory of [x]. *)
Definition parent T x y : Prop := exists n, T !! x = Some n /\ pnid n = y /\ y <> 0 /\ is_Some (T !! y).

(** Every directory of [T] is below the root [r]. *)
Record tree T r : Prop := {
  tr_ids : forall x n, T !! x = Some n -> inid n = x /\ x <> 0;
  tr_root : exists n, T !! r = Some n /\ pnid n = r /\ r <> 0;
  tr_reach : forall x, is_Some (T !! x) -> rtc (parent T) x r;
}.

Lemma parent_fun T x y z : parent T x y -> parent T x z -> y = z.
Proof. intros (n & Hn & <- & _) (n' & Hn' & <- & _). congruence. Qed.

Lemma self_parent T x y : parent T x x -> rtc (parent T) x y -> y = x.
Proof.
  intros Hx Hr. induction Hr as [|x y z Hxy _ IH]; [done|]. pose proof (parent_fun _ _ _ _ Hx Hxy) as <-. by apply IH.
Qed.

(** The walk of SfsDirectory_IsAncestorOf. *)
Lemma ancestor_false fuel T a cur :
  (forall x n, T !! x = Some n -> inid n = x /\ x <> 0) -> T !! inid cur = Some cur ->
  SfsDirectory_IsAncestorOf fuel (fun id => T !! id) a cur = Some false -> ~ rtc (parent T) (inid cur) (inid a).
Proof.
  intros Hid. revert cur. induction fuel as [|fuel IH]; intros cur Hcur; cbn [SfsDirectory_IsAncestorOf]; [done|].
  destruct (Z.eqb_spec (inid cur) (inid a)) as [|Hne]; [done|]. unfold Filesystem_acquireParentNode.
  assert (Hstep : forall y, parent T (inid cur) y -> pnid cur = y /\ y <> 0 /\ is_Some (T !! y)) by (intros y (n & Hn & H); congruence).
  intros Hres Hrtc. inversion Hrtc as [x E1 E2|x y z Hxy Hyz E1 E2]; [congruence|]. subst.
  destruct (Hstep y Hxy) as (Hp & Hnz & p & Hpy). rewrite Hp in Hres. destruct (Z.eqb_spec y 0); [done|]. cbn [negb] in Hres.
  rewrite Hpy in Hres. destruct (Hid y p Hpy) as [Hip _]. destruct (Z.eqb_spec (inid cur) (inid p)) as [Eq|Hn2].
  - apply Hne. symmetry. apply (self_parent T); [|done]. by rewrite Eq, Hip in Hxy |- *.
  - apply (IH p); [by rewrite Hip|done|by rewrite Hip].
Qed.

Lemma ancestor_total n T a cur r :
  tree T r -> T !! inid cur = Some cur -> nsteps (parent T) n (inid cur) r ->
  SfsDirectory_IsAncestorOf (S n) (fun id => T !! id) a cur <> None.
Proof.
  intros HT. revert cur. induction n as [|n IH]; intros cur Hcur Hn; cbn [SfsDirectory_IsAncestorOf].
  - inversion Hn; subst. destruct (_ =? _); [done|]. unfold Filesystem_acquireParentNode.
    destruct (tr_root _ _ HT) as (rn & Hr & Hp & Hnz). replace cur with rn in * by congruence. rewrite Hp.
    destruct (Z.eqb_spec (inid rn) 0); [done|]. cbn [negb]. rewrite Hcur. by rewrite Z.eqb_refl.
  - inversion Hn as [|n' x y z Hxy Hyz]; subst. destruct (_ =? _); [done|]. unfold Filesystem_acquireParentNode.
    destruct Hxy as (m & Hm & Hp & Hnz & p & Hpy). replace m with cur in * by congruence. rewrite Hp.
    destruct (Z.eqb_spec y 0); [done|]. cbn [negb]. rewrite Hpy. destruct (_ =? _); [done|].
    destruct (tr_ids _ _ HT y p Hpy) as [Hip _]. apply IH; by rewrite Hip.
Qed.

Lemma ancestor_more fuel fuel' acquire a cur b :
  SfsDirectory_IsAncestorOf fuel acquire a cur = Some b -> (fuel <= fuel')%nat -> SfsDirectory_IsAncestorOf fuel' acquire a cur = Some b.
Proof.
  revert fuel' cur. induction fuel as [|fuel IH]; intros [|fuel'] cur H Hle; [done|done|lia|]. cbn [SfsDirectory_IsAncestorOf] in *.
  destruct (_ =? _); [done|]. destruct (Filesystem_acquireParentNode acquire cur); [|done]. destruct (_ =? _); [done|]. apply IH; [done|lia].
Qed.

(** The tree only depends on the ids and the parents of its nodes. *)
Lemma tree_replace T r x n n' :
  tree T r -> T !! x = Some n -> inid n' = inid n -> pnid n' = pnid n -> tree (<[x := n']> T) r.
Proof.
  intros [Hid Hroot Hreach] Hx Hi Hp.
  assert (Hsome : forall y, is_Some (<[x := n']> T !! y) <-> is_Some (T !! y)).
  { intros y. destruct (decide (y = x)) as [->|]; [by rewrite lookup_insert_eq, Hx; split|by rewrite lookup_insert_ne]. }
  assert (Hpar : forall u v, parent T u v -> parent (<[x := n']> T) u v).
  { intros u v (m & Hm & Hpv & Hnz & Hv). destruct (decide (u = x)) as [->|Hu].
    - exists n'. rewrite lookup_insert_eq. replace m with n in * by congruence. split_and!; [done|congruence|done|by apply Hsome].
    - exists m. rewrite lookup_insert_ne by done. split_and!; [done|done|done|by apply Hsome]. }
  constructor.
  - intros y m. destruct (decide (y = x)) as [->|]; [rewrite lookup_insert_eq; intros [= <-]; rewrite Hi; by apply Hid|rewrite lookup_insert_ne by done; apply Hid].
  - destruct Hroot as (m & Hm & Hpm & Hnz). destruct (decide (r = x)) as [->|Hr].
    + exists n'. rewrite lookup_insert_eq. replace m with n in * by congruence. split_and!; [done|congruence|done].
    + exists m. by rewrite lookup_insert_ne.
  - intros y Hy. apply Hsome in Hy. generalize (Hreach y Hy). clear Hy. revert y. apply (rtc_ind_l (fun u => rtc _ u r)); [done|]. intros u v Huv _ IHr. eapply rtc_l; [by apply Hpar|done].
Qed.

(** Re-parenting a node that is not above its new parent. *)
Lemma tree_move T r x n n' y :
  tree T r -> T !! x = Some n -> x <> r -> is_Some (T !! y) -> ~ rtc (parent T) y x -> inid n' = x -> pnid n' = y -> tree (<[x := n']> T) r.
Proof.
  intros [Hid Hroot Hreach] Hx Hxr Hy Hno Hi Hp.
  assert (Hsome : forall z, is_Some (T !! z) -> is_Some (<[x := n']> T !! z)).
  { intros z Hz. destruct (decide (z = x)) as [->|]; [by rewrite lookup_insert_eq|by rewrite lookup_insert_ne]. }
  assert (Hpar : forall u v, u <> x -> parent T u v -> parent (<[x := n']> T) u v).
  { intros u v Hu (m & Hm & Hpv & Hnz & Hv). exists m. rewrite lookup_insert_ne by done. split_and!; [done|done|done|by apply Hsome]. }
  assert (Hfar : forall u, rtc (parent T) u r -> ~ rtc (parent T) u x -> rtc (parent (<[x := n']> T)) u r).
  { apply (rtc_ind_l (fun u => ~ rtc (parent T) u x -> _)); [done|]. intros u v Huv _ IHr Hux. eapply rtc_l.
    - apply Hpar; [|done]. intros ->. by apply Hux.
    - apply IHr. intros Hvx. apply Hux. by eapply rtc_l. }
  assert (Hall : forall u, rtc (parent T) u r -> rtc (parent (<[x := n']> T)) u r).
  { apply (rtc_ind_l (fun u => rtc _ u r)); [done|]. intros u v Huv _ IHr. destruct (decide (u = x)) as [->|Hu]; [|eapply rtc_l; [by apply Hpar|done]].
    eapply rtc_l; [|by apply (Hfar y); [apply Hreach|]]. destruct Hy as [m Hm].
    exists n'. rewrite lookup_insert_eq. split_and!; [done|done|by apply (Hid y m)|apply Hsome; by exists m]. }
  constructor.
  - intros z m. destruct (decide (z = x)) as [->|]; [|rewrite lookup_insert_ne by done; apply Hid].
    rewrite lookup_insert_eq. intros [= <-]. split; [done|]. by apply (Hid x n).
  - destruct Hroot as (m & Hm & Hpm & Hnz). exists m. by rewrite lookup_insert_ne.
  - intros z Hz. apply Hall, Hreach. destruct (decide (z = x)) as [->|]; [by exists n|by rewrite lookup_insert_ne in Hz].
Qed.
End Tree.

Section MoveThm.
Context {C} {FC : FSContainer C}.

(** C23. Moving a directory keeps the directory tree a tree: the check for moving
    a directory into itself ends, a move that succeeds does not move the root,
    and afterwards every directory is still below the root and the moved one
    below its new parent.  The link count of the destination, however, grows by
    two for the one new entry. *)
Theorem move_keeps_tree (now : Z * Z) (T : gmap Z Inode) (r : Z) (stale : bool) (fs : SerenaFS C) (node src dst : Inode)
    (name : list Z) (ih : option (Z * Z)) :
  tree T r -> T !! inid node = Some node -> T !! inid src = Some src -> T !! inid dst = Some dst ->
  inid node <> inid src -> inid src <> inid dst -> Inode_IsDirectory node = true ->
  (exists fuel0, forall fuel, (fuel0 <= fuel)%nat -> SfsDirectory_IsAncestorOf fuel (fun id => T !! id) node dst <> None) /\
  (forall fuel fs' node' src' dst',
     SerenaFS_move now fuel (fun id => T !! id) stale fs node src dst name ih = Some (EOK, fs', node', src', dst') ->
     inid node <> r /\ tree (<[inid dst := dst']> (<[inid src := src']> (<[inid node := node']> T))) r /\
     pnid node' = inid dst /\ linkCount dst' = s32 (s32 (linkCount dst + 1) + 1)).
Proof.
  intros HT Hn Hs Hd Hns Hsd Hdir. assert (Hreach : rtc (parent T) (inid dst) r) by (apply (tr_reach _ _ HT); by exists dst).
  apply rtc_nsteps in Hreach as Hst. destruct Hst as [k Hk]. split.
  - exists (S k). intros fuel Hfuel. destruct (SfsDirectory_IsAncestorOf (S k) (fun id => T !! id) node dst) as [b|] eqn:E; [|by destruct (ancestor_total k T node dst r HT Hd Hk)].
    by rewrite (ancestor_more (S k) fuel _ _ _ b).
  - intros fuel fs' node' src' dst' Hm. apply move_ids in Hm as (N1 & N2 & S1 & S2 & D1 & D2 & Hanc). destruct (Hanc Hdir) as [Ha Hl].
    apply ancestor_false in Ha; [|apply HT|done]. assert (Hnr : inid node <> r) by (intros E; by rewrite E in Ha).
    assert (Hnd : inid node <> inid dst) by (intros E; apply Ha; by rewrite E).
    split; [done|]. split; [|done]. assert (HT1 : tree (<[inid node := node']> T) r) by (apply (tree_move T r (inid node) node node' (inid dst)); [done|done|done|by exists dst|done|done|done]).
    apply (tree_replace _ r (inid dst) dst dst'); [|by rewrite !lookup_insert_ne|done|done].
    apply (tree_replace _ r (inid src) src src'); [done|by rewrite lookup_insert_ne|done|done].
Qed.
End MoveThm.

(** ** A formatted volume *)

#[local] Existing Instance big_container.
#[local] Existing Instance big_container_spec.

Definition zeros : list Z := replicate 512 0.

(** Block 0 is the header, block 1 the bitmap, block 2 the inode of the root
    directory and block 3 its entries. *)
Definition image_header : list Z :=
  store32 44 1 (store32 40 2 (store32 36 4 (store32 32 32 (store32 28 512 (store32 4 kSFSVersion_v0_1 (store32 0 kSFSSignature_SerenaFS zeros)))))).

Definition image : memdisk :=
  MD (<[0 := image_header]> (<[1 := [0xf0] ++ replicate 511 0]>
       (<[2 := init_inode (1, 2) 2 2 FS_FTYPE_DIR 0x1ed 0 0 64 3 zeros]> (<[3 := dot_entries 2 2 zeros]> ∅)))) ∅.

Definition unmounted : SerenaFS memdisk := SFS image SfsAllocator_Init 0 0 0 0.

Lemma image_ok : fsc_ok image.
Proof.
  repeat (apply map_Forall_insert_2; [split; [reflexivity|by apply bytes_ok; vm_compute]|]). apply map_Forall_empty.
Qed.


(** Mounts the image and looks up its root directory. *)
Definition mounted : option (SerenaFS memdisk * Inode) :=
  '(_, p, fs) ← SerenaFS_onStart (fun _ => true) (fun n => replicate (Z.to_nat n) 0) unmounted 32 false;
  '(_, root, fs) ← SerenaFS_onAcquireNode true fs (rootDirectoryId p);
  root ← root;
  Some (fs, root).

(** Creates a node under a name that does not exist. *)
Definition create (fs : SerenaFS memdisk) (dir : Inode) (name : list Z) (ftype : Z) : option (SerenaFS memdisk * Inode * Inode) :=
  '(e, _, ih, fs, dir) ← SerenaFS_acquireNodeForName (fun id => SerenaFS_onAcquireNode true fs id) fs dir name true;
  '(_, node, fs, dir) ← SerenaFS_createNode (3, 4) true false fs dir name ih 10 11 ftype 0x1ff;
  node ← node;
  Some (fs, dir, node).

(** A directory that holds only files has a link count of one, and unlinking
    it is not refused although it is not empty: its files become unreachable
    with all their blocks still allocated. *)
Theorem nonempty_directory_unlinked :
  exists fs root d f, (
    '(fs, root) ← mounted;
    '(fs, root, d) ← create fs root [100] FS_FTYPE_DIR;
    '(fs, d, f) ← create fs d [102] FS_FTYPE_REG;
    Some (fs, root, d, f)) = Some (fs, root, d, f) /\
  SfsDirectory_IsNotEmpty d = true /\
  exists fs' d' root', SerenaFS_unlink (5, 6) fs d root = Some (EOK, fs', d', root') /\ linkCount d' = 0 /\ used fs' (inid f).
Proof.
  eexists _, _, _, _. split; [vm_compute; reflexivity|]. split; [reflexivity|].
  eexists _, _, _. split; [vm_compute; reflexivity|]. split; [reflexivity|]. split; by vm_compute.
Qed.

(** The root directory of the image with the new directories "a" and "b". *)
Definition two_dirs : option (SerenaFS memdisk * Inode * Inode * Inode) :=
  '(fs, root) ← mounted;
  '(fs, root, a) ← create fs root [97] FS_FTYPE_DIR;
  '(fs, root, b) ← create fs root [98] FS_FTYPE_DIR;
  Some (fs, root, a, b).

Definition td_fs : SerenaFS memdisk := Eval vm_compute in match two_dirs with Some (fs, _, _, _) => fs | None => unmounted end.
Definition td_root : Inode := Eval vm_compute in match two_dirs with Some (_, i, _, _) => i | None => root_inode end.
Definition td_a : Inode := Eval vm_compute in match two_dirs with Some (_, _, i, _) => i | None => root_inode end.
Definition td_b : Inode := Eval vm_compute in match two_dirs with Some (_, _, _, i) => i | None => root_inode end.
Definition td_tree : gmap Z Inode := {[ 2 := td_root; 4 := td_a; 6 := td_b ]}.

Lemma td_tree_ok : tree td_tree 2.
Proof.
  assert (Hin : forall x n, td_tree !! x = Some n -> inid n = x /\ x <> 0 /\ pnid n = 2).
  { intros x n. unfold td_tree. intros [[<- <-]|[_ [[<- <-]|[_ [<- <-]%lookup_singleton_Some]]%lookup_insert_Some]]%lookup_insert_Some; by vm_compute. }
  constructor.
  - intros x n Hx. by destruct (Hin x n Hx) as (? & ? & _).
  - exists td_root. by vm_compute.
  - intros x [n Hx]. apply rtc_once. exists n. destruct (Hin x n Hx) as (_ & _ & Hp). split_and!; [done|done|done|by eexists].
Qed.

Lemma move_keeps_tree_witness :
  exists fs' a' root' b', two_dirs = Some (td_fs, td_root, td_a, td_b) /\
    SerenaFS_move (7, 8) 5 (fun id => td_tree !! id) false td_fs td_a td_root td_b [99] None = Some (EOK, fs', a', root', b') /\
    tree (<[inid td_b := b']> (<[inid td_root := root']> (<[inid td_a := a']> td_tree))) 2 /\ linkCount td_b = 1 /\ linkCount b' = 3.
Proof.
  destruct (SerenaFS_move (7, 8) 5 (fun id => td_tree !! id) false td_fs td_a td_root td_b [99] None)
    as [[[[[e fs'] a'] root'] b']|] eqn:E; [|by vm_compute in E].
  assert (e = EOK) as -> by (vm_compute in E; by injection E as <- _ _ _ _).
  destruct (move_keeps_tree (7, 8) td_tree 2 false td_fs td_a td_root td_b [99] None) as [_ H];
    [exact td_tree_ok|reflexivity|reflexivity|reflexivity|done|done|reflexivity|].
  destruct (H _ _ _ _ _ E) as (_ & H1 & _ & H2). exists fs', a', root', b'.
  split; [vm_compute; reflexivity|]. split; [reflexivity|]. split; [exact H1|]. split; [reflexivity|exact H2].
Defined.
