(* ===== verification/InodeCache.v ===== *)
(** * The inode cache (kern/src/filesystem/Filesystem.c, Inode.h)

    Every filesystem keeps the inodes that are in use in a hash table that is
    protected by one lock.  The lock is dropped while an inode is read from the
    volume and while it is written back, so that the acquisition and the
    relinquishing of an inode are sequences of critical sections.  Each critical
    section is a function on the state of the filesystem; a system is the
    filesystem, the calls that are between two critical sections, the references
    that the clients hold and the inodes on the volume.

    The cache is safe under every interleaving ([inode_cache_safe]), it is
    transparent: clients see the sequential history of their modifications
    ([inode_cache_refines_store]), and no call gets stuck
    ([pending_calls_complete]). *)

From S2P Require Import Prelude.

(** ** Data *)

Inductive istate := kInodeState_Reading | kInodeState_Cached | kInodeState_Writeback | kInodeState_Deleting.
Inductive fstate := kFilesystemState_Idle | kFilesystemState_Active | kFilesystemState_Stopped.

#[export] Instance istate_eq_dec : EqDecision istate.
Proof. solve_decision. Defined.
#[export] Instance fstate_eq_dec : EqDecision fstate.
Proof. solve_decision. Defined.

(** The parts of an inode that the cache uses; [attr] stands for the other
    metadata, [modified] for [Inode_IsModified]. *)
Record inode := Ino {
  inid : Z; useCount : Z; istat : istate; linkCount : Z; attr : Z; modified : bool }.

Definition set_useCount (u : Z) (nd : inode) : inode :=
  Ino (inid nd) u (istat nd) (linkCount nd) (attr nd) (modified nd).
Definition set_istat (st : istate) (nd : inode) : inode :=
  Ino (inid nd) (useCount nd) st (linkCount nd) (attr nd) (modified nd).
Definition set_content (lc at' : Z) (m : bool) (nd : inode) : inode :=
  Ino (inid nd) (useCount nd) (istat nd) lc at' m.

(** Inodes are on the heap, an [InodeRef] is the address of one.  The hash
    chains hold references; an [RDnode] is identified by the id that is read.
    The counters count objects in memory and stay far below the range of
    [size_t]. *)
Record filesystem := Fs {
  fsstate : fstate;
  inCached : list (list nat); inCachedCount : Z;
  inReading : list (list Z); inReadingCount : Z;
  inReadingWaiterCount : Z; inReadingCacheCount : Z;
  rootDirectoryId : Z; isReadOnly : bool;
  heap : gmap nat inode }.

Definition set_cached (c : list (list nat)) (k : Z) (h : gmap nat inode) (f : filesystem) : filesystem :=
  Fs (fsstate f) c k (inReading f) (inReadingCount f) (inReadingWaiterCount f) (inReadingCacheCount f)
    (rootDirectoryId f) (isReadOnly f) h.
Definition set_reading (r : list (list Z)) (k cc : Z) (f : filesystem) : filesystem :=
  Fs (fsstate f) (inCached f) (inCachedCount f) r k (inReadingWaiterCount f) cc
    (rootDirectoryId f) (isReadOnly f) (heap f).
Definition set_waiters (w : Z) (f : filesystem) : filesystem :=
  Fs (fsstate f) (inCached f) (inCachedCount f) (inReading f) (inReadingCount f) w (inReadingCacheCount f)
    (rootDirectoryId f) (isReadOnly f) (heap f).
Definition set_heap (h : gmap nat inode) (f : filesystem) : filesystem :=
  set_cached (inCached f) (inCachedCount f) h f.
Definition set_fsstate (st : fstate) (root : Z) (ro : bool) (f : filesystem) : filesystem :=
  Fs st (inCached f) (inCachedCount f) (inReading f) (inReadingCount f) (inReadingWaiterCount f)
    (inReadingCacheCount f) root ro (heap f).

Definition IN_CACHED_HASH_CHAINS_COUNT : nat := 16.
Definition IN_READING_HASH_CHAINS_COUNT : nat := 4.
Definition MAX_CACHED_RDNODES : Z := 4.

Definition hash_djb2_scalar (v : Z) : Z := u32 (4521 + u32 v).
Definition IN_CACHED_HASH_INDEX (id : Z) : nat := Z.to_nat (Z.land (hash_djb2_scalar id) 15).
Definition IN_READING_HASH_INDEX (id : Z) : nat := Z.to_nat (Z.land (hash_djb2_scalar id) 3).

Definition chain {A} (cs : list (list A)) (i : nat) : list A := default [] (cs !! i).

(** [deque_remove] for a member of the chain. *)
Fixpoint chain_remove {A} `{EqDecision A} (x : A) (l : list A) : list A :=
  match l with
  | [] => []
  | y :: l => if decide (y = x) then l else y :: chain_remove x l
  end.

Definition Filesystem_Create : filesystem :=
  Fs kFilesystemState_Idle (replicate IN_CACHED_HASH_CHAINS_COUNT []) 0
    (replicate IN_READING_HASH_CHAINS_COUNT []) 0 0 0 0 false ∅.

(** ** Reading nodes *)

(** [alloc] tells whether the allocation of an [RDnode] succeeds. *)
Definition PrepReadingNode (alloc : bool) (id : Z) (f : filesystem) : errno * filesystem :=
  let add cc := set_reading (alter (cons id) (IN_READING_HASH_INDEX id) (inReading f)) (inReadingCount f + 1) cc f in
  if 0 <? inReadingCacheCount f then (EOK, add (inReadingCacheCount f - 1))
  else if alloc then (EOK, add (inReadingCacheCount f))
  else (ENOMEM, f).

Definition FinReadingNode (id : Z) (f : filesystem) : filesystem :=
  let cc := if inReadingCacheCount f <? MAX_CACHED_RDNODES then inReadingCacheCount f + 1
            else inReadingCacheCount f in
  set_reading (alter (chain_remove id) (IN_READING_HASH_INDEX id) (inReading f)) (inReadingCount f - 1) cc f.

(** ** Acquiring a node *)

(** The result of a critical section: the call returns (and wakes the waiters
    when [broadcast] is set), waits on the condition variable, or drops the
    lock to read the inode from the volume. *)
Inductive acquire_outcome :=
| AcqDone (e : errno) (ip : option nat) (broadcast : bool)
| AcqWait
| AcqRead.

Fixpoint find_node (h : gmap nat inode) (id : Z) (l : list nat) : option nat :=
  match l with
  | [] => None
  | n :: l => if decide (inid <$> h !! n = Some id) then Some n else find_node h id l
  end.

Definition cached_node (f : filesystem) (id : Z) : option nat :=
  find_node (heap f) id (chain (inCached f) (IN_CACHED_HASH_INDEX id)).

Definition add_use (n : nat) (f : filesystem) : filesystem :=
  set_heap (alter (fun nd => set_useCount (useCount nd + 1) nd) n (heap f)) f.

(** From the label [retry] to the return, the wait or the read. *)
Definition acquire_retry (alloc : bool) (id : Z) (f : filesystem) : acquire_outcome * filesystem :=
  match cached_node f id with
  | Some n =>
      if decide (istat <$> heap f !! n = Some kInodeState_Deleting) then (AcqDone ENOENT None false, f)
      else (AcqDone EOK (Some n) false, add_use n f)
  | None =>
      if decide (id ∈ chain (inReading f) (IN_READING_HASH_INDEX id))
      then (AcqWait, set_waiters (inReadingWaiterCount f + 1) f)
      else let '(e, f') := PrepReadingNode alloc id f in
           if is_ok e then (AcqRead, f') else (AcqDone e None (0 <? inReadingWaiterCount f'), f')
  end.

Definition Filesystem_AcquireNodeWithId (alloc : bool) (id : Z) (f : filesystem) : acquire_outcome * filesystem :=
  if decide (fsstate f = kFilesystemState_Active) then acquire_retry alloc id f
  else (AcqDone ENXIO None false, f).

(** The return from [cnd_wait]. *)
Definition acquire_woken (alloc : bool) (id : Z) (f : filesystem) : acquire_outcome * filesystem :=
  acquire_retry alloc id (set_waiters (inReadingWaiterCount f - 1) f).

(** From the return of [Filesystem_OnAcquireNode], which gives an error or a
    new inode at address [n], to the end. *)
Definition acquire_finish (id : Z) (r : errno + nat * inode) (f : filesystem) : acquire_outcome * filesystem :=
  let f1 := FinReadingNode id f in
  match r with
  | inl e => (AcqDone e None (0 <? inReadingWaiterCount f1), f1)
  | inr (n, nd) =>
      let f2 := set_cached (alter (cons n) (IN_CACHED_HASH_INDEX id) (inCached f1)) (inCachedCount f1 + 1)
                  (<[n := set_istat kInodeState_Cached nd]> (heap f1)) f1 in
      (AcqDone EOK (Some n) (0 <? inReadingWaiterCount f2), add_use n f2)
  end.

Definition Filesystem_ReacquireNode (n : nat) (f : filesystem) : filesystem := add_use n f.

(** ** Relinquishing a node *)

(** The last critical section: [None] is the abort on a use count that is not
    positive or a reference to a node that does not exist any more.  The node
    whose count drops to zero leaves the cache and is destroyed. *)
Definition relinquish_drop (n : nat) (f : filesystem) : option filesystem :=
  nd ← heap f !! n;
  if useCount nd <=? 0 then None
  else if useCount nd - 1 =? 0
  then Some (set_cached (alter (chain_remove n) (IN_CACHED_HASH_INDEX (inid nd)) (inCached f))
               (inCachedCount f - 1) (delete n (heap f)) f)
  else Some (set_heap (<[n := set_useCount (useCount nd - 1) nd]> (heap f)) f).

(** The first critical section: [true] when the lock is dropped for the write
    back of the node, otherwise the reference is dropped at once. *)
Definition Filesystem_RelinquishNode (n : nat) (f : filesystem) : option (bool * filesystem) :=
  nd ← heap f !! n;
  let nd' := if linkCount nd =? 0 then set_istat kInodeState_Deleting nd
             else if modified nd then set_istat kInodeState_Writeback nd else nd in
  if (useCount nd =? 1) && bool_decide (istat nd' = kInodeState_Writeback \/ istat nd' = kInodeState_Deleting)
  then Some (true, set_heap (<[n := nd']> (heap f)) f)
  else f' ← relinquish_drop n f; Some (false, f').

(** [Inode_Writeback]: the flags are cleared whether the write succeeded or not.
    On a read-only filesystem nothing is written. *)
Definition relinquish_writeback (n : nat) (f : filesystem) : filesystem :=
  if isReadOnly f then f
  else set_heap (alter (fun nd => set_content (linkCount nd) (attr nd) false nd) n (heap f)) f.

(** ** The life of a filesystem *)

(** [r] is the outcome of [Filesystem_OnStart]: an error or the properties. *)
Definition Filesystem_Start (r : errno + Z * bool) (f : filesystem) : errno * filesystem :=
  match fsstate f with
  | kFilesystemState_Active => (EBUSY, f)
  | kFilesystemState_Stopped => (ENXIO, f)
  | kFilesystemState_Idle =>
      match r with
      | inl e => (e, f)
      | inr (root, ro) => (EOK, set_fsstate kFilesystemState_Active root ro f)
      end
  end.

(** [e] is the outcome of [Filesystem_OnStop]. *)
Definition Filesystem_Stop (forced : bool) (e : errno) (f : filesystem) : errno * filesystem :=
  if decide (fsstate f = kFilesystemState_Active) then
    if ((0 <? inCachedCount f) || (0 <? inReadingCount f)) && negb forced then (EBUSY, f)
    else (e, set_fsstate kFilesystemState_Stopped (rootDirectoryId f) (isReadOnly f) f)
  else (ENXIO, f).

(** [Some true]: [Filesystem_OnDisconnect] is called; [None]: abort. *)
Definition Filesystem_Disconnect (f : filesystem) : option bool :=
  match fsstate f with
  | kFilesystemState_Idle => Some false
  | kFilesystemState_Active => None
  | kFilesystemState_Stopped => Some true
  end.

Definition Filesystem_CanDestroy (f : filesystem) : bool :=
  if decide (fsstate f = kFilesystemState_Active) then false
  else negb ((0 <? inCachedCount f) || (0 <? inReadingCount f)).

(** ** The system *)

(** A call that is between two critical sections. *)
Inductive task :=
| TReading (id : Z)      (* an acquisition that reads the inode from the volume *)
| TWaiting (id : Z)      (* an acquisition in [cnd_wait] *)
| TWoken (id : Z)        (* an acquisition that was woken and wants the lock *)
| TWriteback (n : nat)   (* a relinquishing before the write back of the inode *)
| TExit (n : nat).       (* a relinquishing after the write back *)

#[export] Instance task_eq_dec : EqDecision task.
Proof. solve_decision. Defined.

(** [cnd_broadcast] *)
Definition wake (t : task) : task := match t with TWaiting id => TWoken id | _ => t end.

(** [held] has one entry per reference that a client owns; [volume] maps the id
    of an inode on the volume to its link count and attributes; [lost] is set
    once a write back failed. *)
Record sys := Sys {
  fs : filesystem; tasks : list task; held : list nat; volume : gmap Z (Z * Z); lost : bool }.

(** What a step does for the clients. *)
Inductive event :=
| Tau
| EvAcquire (id : Z) (n : nat)
| EvModify (id : Z) (c : Z * Z)
| EvCreate (id : Z) (c : Z * Z)
| EvDelete (id : Z).

Definition acquire_event (id : Z) (o : acquire_outcome) : event :=
  match o with AcqDone EOK (Some n) _ => EvAcquire id n | _ => Tau end.

(** The effect of a critical section of an acquisition by a call outside of [ts]. *)
Definition after_acquire (id : Z) (o : acquire_outcome * filesystem) (ts : list task) (s : sys) : sys :=
  match o.1 with
  | AcqWait => Sys o.2 (TWaiting id :: ts) (held s) (volume s) (lost s)
  | AcqRead => Sys o.2 (TReading id :: ts) (held s) (volume s) (lost s)
  | AcqDone _ ip b => Sys o.2 (if b then wake <$> ts else ts) (option_list ip ++ held s) (volume s) (lost s)
  end.

Definition with_fs (f : filesystem) (s : sys) : sys := Sys f (tasks s) (held s) (volume s) (lost s).

(** The content of the volume after a write back. *)
Definition write_volume (nd : inode) (v : gmap Z (Z * Z)) : gmap Z (Z * Z) :=
  if decide (istat nd = kInodeState_Deleting) then delete (inid nd) v
  else <[inid nd := (linkCount nd, attr nd)]> v.

Definition deletes (nd : inode) : event :=
  if decide (istat nd = kInodeState_Deleting) then EvDelete (inid nd) else Tau.

(** The requests of clients.  A client modifies an inode that it has a reference
    to, under the lock of the inode, which a relinquishing call holds from the
    write back to its exit, and marks it as modified.  A new inode is written
    to the volume under an id that the volume does not use. *)
Inductive client_step (s : sys) : event -> sys -> Prop :=
| cs_start r : client_step s Tau (with_fs (Filesystem_Start r (fs s)).2 s)
| cs_stop forced e : client_step s Tau (with_fs (Filesystem_Stop forced e (fs s)).2 s)
| cs_acquire alloc id o :
    Filesystem_AcquireNodeWithId alloc id (fs s) = o ->
    client_step s (acquire_event id o.1) (after_acquire id o (tasks s) s)
| cs_reacquire n : n ∈ held s ->
    client_step s Tau (Sys (Filesystem_ReacquireNode n (fs s)) (tasks s) (n :: held s) (volume s) (lost s))
| cs_modify n nd lc at' :
    n ∈ held s -> heap (fs s) !! n = Some nd -> TWriteback n ∉ tasks s -> TExit n ∉ tasks s ->
    client_step s (EvModify (inid nd) (lc, at'))
      (with_fs (set_heap (<[n := set_content lc at' true nd]> (heap (fs s))) (fs s)) s)
| cs_create id c : volume s !! id = None ->
    client_step s (EvCreate id c) (Sys (fs s) (tasks s) (held s) (<[id := c]> (volume s)) (lost s))
| cs_relinquish n hs wb f' :
    held s ≡ₚ n :: hs -> Filesystem_RelinquishNode n (fs s) = Some (wb, f') ->
    client_step s Tau
      (Sys f' (if wb : bool then TWriteback n :: tasks s else tasks s) hs (volume s) (lost s)).

(** The progress of the calls in flight.  [Filesystem_OnAcquireNode] fails or
    gives a new inode with the content on the volume; an id that is read is not
    cached, so that nobody writes it in the meantime. *)
Inductive kernel_step (s : sys) : event -> sys -> Prop :=
| ks_read_ok id ts lc at' n o :
    tasks s ≡ₚ TReading id :: ts -> volume s !! id = Some (lc, at') -> heap (fs s) !! n = None ->
    acquire_finish id (inr (n, Ino id 0 kInodeState_Reading lc at' false)) (fs s) = o ->
    kernel_step s (acquire_event id o.1) (after_acquire id o ts s)
| ks_read_err id ts e o :
    tasks s ≡ₚ TReading id :: ts -> e <> EOK -> acquire_finish id (inl e) (fs s) = o ->
    kernel_step s Tau (after_acquire id o ts s)
| ks_woken alloc id ts o :
    tasks s ≡ₚ TWoken id :: ts -> acquire_woken alloc id (fs s) = o ->
    kernel_step s (acquire_event id o.1) (after_acquire id o ts s)
| ks_writeback n ts nd :
    tasks s ≡ₚ TWriteback n :: ts -> heap (fs s) !! n = Some nd -> isReadOnly (fs s) = false ->
    kernel_step s (deletes nd)
      (Sys (relinquish_writeback n (fs s)) (TExit n :: ts) (held s) (write_volume nd (volume s)) (lost s))
| ks_writeback_fails n ts :
    tasks s ≡ₚ TWriteback n :: ts ->
    kernel_step s Tau (Sys (relinquish_writeback n (fs s)) (TExit n :: ts) (held s) (volume s) true)
| ks_exit n ts f' :
    tasks s ≡ₚ TExit n :: ts -> relinquish_drop n (fs s) = Some f' ->
    kernel_step s Tau (Sys f' ts (held s) (volume s) (lost s)).

Definition step (s : sys) (ev : event) (s' : sys) : Prop := client_step s ev s' \/ kernel_step s ev s'.

(** A new filesystem on a volume. *)
Definition boot (v : gmap Z (Z * Z)) : sys := Sys Filesystem_Create [] [] v false.

(** [run v evs s]: the events [evs], the last one first, lead to [s]. *)
Inductive run (v : gmap Z (Z * Z)) : list event -> sys -> Prop :=
| run_boot : run v [] (boot v)
| run_step evs s ev s' : run v evs s -> step s ev s' -> run v (ev :: evs) s'.

(** ** The invariant *)

(** The number of members with a property. *)
Definition count {A} (P : A -> bool) (l : list A) : Z := foldr (fun x k => (if P x then 1 else 0) + k) 0 l.

Definition is_reading (t : task) : bool := match t with TReading _ => true | _ => false end.
Definition in_wait (t : task) : bool := match t with TWaiting _ | TWoken _ => true | _ => false end.
Definition reads (id : Z) (t : task) : bool := bool_decide (t = TReading id).
Definition relinquishes (n : nat) (t : task) : bool :=
  match t with TWriteback m | TExit m => bool_decide (m = n) | _ => false end.

(** The references to a node: those of clients and those that calls give up. *)
Definition client_refs (n : nat) (hs : list nat) : Z := count (fun m => bool_decide (m = n)) hs.
Definition refs (n : nat) (ts : list task) (hs : list nat) : Z := client_refs n hs + count (relinquishes n) ts.

(** The hash table holds exactly the inodes in memory, one per id. *)
Record table_inv (cs : list (list nat)) (k : Z) (h : gmap nat inode) : Prop := {
  ti_len : length cs = IN_CACHED_HASH_CHAINS_COUNT;
  ti_chain : forall i n, n ∈ chain cs i <-> exists nd, h !! n = Some nd /\ IN_CACHED_HASH_INDEX (inid nd) = i;
  ti_nodup : forall i, NoDup (chain cs i);
  ti_unique : forall n m a b, h !! n = Some a -> h !! m = Some b -> inid a = inid b -> n = m;
  ti_count : k = Z.of_nat (size h) }.

(** An id is read at most once at a time, and whoever waits waits for a reader. *)
Record reading_inv (r : list (list Z)) (k w cc : Z) (ts : list task) : Prop := {
  ri_len : length r = IN_READING_HASH_CHAINS_COUNT;
  ri_chain : forall i id, id ∈ chain r i <-> TReading id ∈ ts /\ IN_READING_HASH_INDEX id = i;
  ri_nodup : forall i, NoDup (chain r i);
  ri_once : forall id, count (reads id) ts <= 1;
  ri_count : k = count is_reading ts;
  ri_waiters : w = count in_wait ts;
  ri_reader : forall id, TWaiting id ∈ ts -> TReading id ∈ ts;
  ri_cache : 0 <= cc <= MAX_CACHED_RDNODES }.

(** Use counts count references.  A node that is being deleted belongs to the
    call that relinquishes it. *)
Record refs_inv (h : gmap nat inode) (ts : list task) (hs : list nat) : Prop := {
  fi_use : forall n nd, h !! n = Some nd -> useCount nd = refs n ts hs /\ 0 < refs n ts hs;
  fi_none : forall n, h !! n = None -> refs n ts hs = 0;
  fi_single : forall n, count (relinquishes n) ts <= 1;
  fi_deleting : forall n nd, h !! n = Some nd -> istat nd = kInodeState_Deleting ->
    client_refs n hs = 0 /\ linkCount nd = 0;
  fi_writing : forall n nd, h !! n = Some nd -> 0 < count (relinquishes n) ts ->
    linkCount nd = 0 -> istat nd = kInodeState_Deleting }.

(** The inode is removed from the volume but still in the cache. *)
Definition gone (n : nat) (nd : inode) (ts : list task) : bool :=
  bool_decide (istat nd = kInodeState_Deleting) && bool_decide (TExit n ∈ ts).

(** Unmodified inodes agree with the volume. *)
Record volume_inv (h : gmap nat inode) (ts : list task) (v : gmap Z (Z * Z)) : Prop := {
  vi_same : forall n nd, h !! n = Some nd -> gone n nd ts = false ->
    exists c, v !! inid nd = Some c /\ (modified nd = false -> c = (linkCount nd, attr nd));
  vi_written : forall n nd, h !! n = Some nd -> TExit n ∈ ts -> modified nd = false }.

Definition not_cached (id : Z) (h : gmap nat inode) : Prop := forall n nd, h !! n = Some nd -> inid nd <> id.

Record cache_inv (s : sys) : Prop := {
  ci_table : table_inv (inCached (fs s)) (inCachedCount (fs s)) (heap (fs s));
  ci_reading : reading_inv (inReading (fs s)) (inReadingCount (fs s)) (inReadingWaiterCount (fs s))
    (inReadingCacheCount (fs s)) (tasks s);
  ci_refs : refs_inv (heap (fs s)) (tasks s) (held s);
  ci_excl : forall id, TReading id ∈ tasks s -> not_cached id (heap (fs s));
  ci_volume : lost s = false -> volume_inv (heap (fs s)) (tasks s) (volume s) }.

(** *** Counting *)

Section Count.
Context {A : Type}.
Implicit Types (P : A -> bool) (l : list A).

Lemma count_nonneg P l : 0 <= count P l.
Proof. induction l; simpl; [done|]. destruct (P a); lia. Qed.

Lemma count_pos P l : 0 < count P l <-> exists x, x ∈ l /\ P x = true.
Proof.
  induction l as [|y l IH]; simpl.
  - split; [lia|]. intros (x & Hx & _). by apply elem_of_nil in Hx.
  - pose proof (count_nonneg P l). setoid_rewrite elem_of_cons. destruct (P y) eqn:E.
    + split; [|lia]. eauto.
    + rewrite Z.add_0_l, IH. split; intros (x & Hx & HP); exists x; split; auto.
      destruct Hx; [congruence|done].
Qed.

Lemma count_perm P l l' : l ≡ₚ l' -> count P l = count P l'.
Proof. induction 1; simpl; lia. Qed.

Lemma count_fmap P (g : A -> A) l : (forall x, P (g x) = P x) -> count P (g <$> l) = count P l.
Proof. intros Hg. induction l as [|x l IH]; [done|]. rewrite fmap_cons. unfold count in *. cbn. by rewrite Hg, IH. Qed.
End Count.

Lemma count_reads id ts : 0 < count (reads id) ts <-> TReading id ∈ ts.
Proof.
  rewrite count_pos. unfold reads. setoid_rewrite bool_decide_eq_true.
  split; [by intros (x & ? & ->)|eauto].
Qed.

Lemma count_held n hs : 0 < client_refs n hs <-> n ∈ hs.
Proof.
  unfold client_refs. rewrite count_pos. setoid_rewrite bool_decide_eq_true.
  split; [by intros (x & ? & ->)|eauto].
Qed.

Lemma count_relinquishes n ts : 0 < count (relinquishes n) ts <-> TWriteback n ∈ ts \/ TExit n ∈ ts.
Proof.
  rewrite count_pos. split.
  - intros ([| | |m|m] & Hx & Hr); simpl in Hr; try done; apply bool_decide_eq_true in Hr; subst; auto.
  - intros [H|H]; [exists (TWriteback n)|exists (TExit n)]; (split; [done|]); by apply bool_decide_eq_true.
Qed.

Lemma elem_of_wake t (ts : list task) : t ∈ wake <$> ts <-> exists t', t' ∈ ts /\ t = wake t'.
Proof. rewrite list_elem_of_fmap. naive_solver. Qed.

Lemma reading_wake id (ts : list task) : TReading id ∈ wake <$> ts <-> TReading id ∈ ts.
Proof.
  rewrite elem_of_wake. split; [intros ([] & ? & [=]); by subst|]. intros H. by eexists.
Qed.
Lemma exit_wake n (ts : list task) : TExit n ∈ wake <$> ts <-> TExit n ∈ ts.
Proof.
  rewrite elem_of_wake. split; [intros ([] & ? & [=]); by subst|]. intros H. by eexists.
Qed.
Lemma waiting_wake id (ts : list task) : TWaiting id ∉ wake <$> ts.
Proof. rewrite elem_of_wake. by intros ([] & ? & ?). Qed.

(** *** Hash chains *)

Lemma chain_alter {A} (g : list A -> list A) i j (cs : list (list A)) :
  (i < length cs)%nat -> chain (alter g i cs) j = if decide (j = i) then g (chain cs i) else chain cs j.
Proof.
  intros Hi. unfold chain. case_decide as Hj; [subst|by rewrite list_lookup_alter_ne].
  rewrite list_lookup_alter_eq. by destruct (lookup_lt_is_Some_2 cs i Hi) as [l ->].
Qed.

Lemma cached_index id : (IN_CACHED_HASH_INDEX id < 16)%nat.
Proof.
  unfold IN_CACHED_HASH_INDEX. change 15 with (Z.ones 4). rewrite Z.land_ones by lia.
  pose proof (Z.mod_pos_bound (hash_djb2_scalar id) (2 ^ 4)). lia.
Qed.

Lemma reading_index id : (IN_READING_HASH_INDEX id < 4)%nat.
Proof.
  unfold IN_READING_HASH_INDEX. change 3 with (Z.ones 2). rewrite Z.land_ones by lia.
  pose proof (Z.mod_pos_bound (hash_djb2_scalar id) (2 ^ 2)). lia.
Qed.

Lemma chain_remove_spec {A} `{EqDecision A} (x : A) l :
  NoDup l -> NoDup (chain_remove x l) /\ forall y, y ∈ chain_remove x l <-> y ∈ l /\ y <> x.
Proof.
  induction 1 as [|z l Hz Hl [IH1 IH2]]; simpl.
  - split; [constructor|]. intros y. rewrite elem_of_nil. naive_solver.
  - case_decide as E; [subst|].
    + split; [done|]. intros y. rewrite elem_of_cons. split; [|naive_solver]. intros Hy. split; [auto|]. by intros ->.
    + split; [constructor; [rewrite IH2; naive_solver|done]|].
      intros y. rewrite !elem_of_cons, IH2. naive_solver.
Qed.

(** *** The table of inodes *)

Section Table.
Context (cs : list (list nat)) (k : Z) (h : gmap nat inode).
Hypothesis (Ht : table_inv cs k h).

Lemma find_node_spec id l :
  match find_node h id l with
  | Some n => n ∈ l /\ exists nd, h !! n = Some nd /\ inid nd = id
  | None => forall n nd, n ∈ l -> h !! n = Some nd -> inid nd <> id
  end.
Proof.
  induction l as [|m l IH]; simpl; [by intros ? ? ?%elem_of_nil|].
  case_decide as E.
  - apply fmap_Some in E as (nd & ? & ?). split; [left|]. eauto.
  - destruct (find_node h id l) as [n|]; [split; [right|]; apply IH|].
    intros n nd [->|Hn]%elem_of_cons Hnd; [|eauto]. intros <-. apply E. by rewrite Hnd.
Qed.

Lemma table_find id :
  match find_node h id (chain cs (IN_CACHED_HASH_INDEX id)) with
  | Some n => exists nd, h !! n = Some nd /\ inid nd = id
  | None => not_cached id h
  end.
Proof.
  pose proof (find_node_spec id (chain cs (IN_CACHED_HASH_INDEX id))) as Hf. destruct (find_node h id _); [apply Hf|].
  intros n nd Hn Hid. eapply Hf; [|done|done]. apply (ti_chain _ _ _ Ht). exists nd. by subst.
Qed.

Lemma table_same h' : (forall n, inid <$> h' !! n = inid <$> h !! n) -> table_inv cs k h'.
Proof.
  intros Hh. destruct Ht as [H1 H2 H3 H4 H5].
  assert (Hf : forall n nd, h' !! n = Some nd -> exists nd', h !! n = Some nd' /\ inid nd' = inid nd).
  { intros n nd Hn. specialize (Hh n). rewrite Hn in Hh. symmetry in Hh. apply fmap_Some in Hh as (x & ? & ?). eauto. }
  split; try done.
  - intros i n. rewrite H2. specialize (Hh n). destruct (h !! n) as [a|], (h' !! n) as [b|]; simplify_eq/=;
      split; intros (x & [= <-] & <-); eexists; split; eauto; congruence.
  - intros n m a b (a' & Ha & <-)%Hf (b' & Hb & <-)%Hf. by apply H4.
  - rewrite H5, <- !size_dom. do 2 f_equal. apply set_eq. intros n. rewrite !elem_of_dom.
    specialize (Hh n). destruct (h !! n), (h' !! n); simplify_eq/=; split; intros [? ?]; eauto; done.
Qed.

Lemma table_add n nd :
  h !! n = None -> not_cached (inid nd) h ->
  table_inv (alter (cons n) (IN_CACHED_HASH_INDEX (inid nd)) cs) (k + 1) (<[n := nd]> h).
Proof.
  intros Hn Hnew. destruct Ht as [H1 H2 H3 H4 H5].
  assert (Hi := cached_index (inid nd)).
  assert (Hfresh : forall i, n ∉ chain cs i) by (intros i (x & ? & _)%H2; congruence).
  split.
  - by rewrite length_alter.
  - intros i m. rewrite chain_alter by (rewrite H1; done).
    rewrite lookup_insert. case_decide as E; rewrite ?elem_of_cons, H2; case_decide as E'; subst.
    + split; [intros _; by exists nd|by left].
    + split; [intros [?|?]; [congruence|done]|by right].
    + rewrite Hn. split; [by intros (? & ? & _)|]. by intros (? & [= <-] & <-).
    + done.
  - intros i. rewrite chain_alter by (rewrite H1; done). case_decide; [constructor|]; done.
  - intros m p a b. rewrite !lookup_insert. repeat case_decide; intros Ha Hb Hab; simplify_eq; try done.
    + by destruct (Hnew p b).
    + by destruct (Hnew m a).
    + by apply (H4 m p a b).
  - rewrite map_size_insert_None by done. lia.
Qed.

Lemma table_remove n nd :
  h !! n = Some nd ->
  table_inv (alter (chain_remove n) (IN_CACHED_HASH_INDEX (inid nd)) cs) (k - 1) (delete n h).
Proof.
  intros Hn. destruct Ht as [H1 H2 H3 H4 H5].
  assert (Hi := cached_index (inid nd)).
  split.
  - by rewrite length_alter.
  - intros i m. rewrite chain_alter by (rewrite H1; done). rewrite lookup_delete.
    case_decide as E; [rewrite (proj2 (chain_remove_spec n _ (H3 _)))|]; rewrite H2; case_decide as E'; subst.
    + split; [by intros [_ ?]|by intros (? & ? & _)].
    + split; [by intros [? _]|by intros ?].
    + split; [|by intros (? & ? & _)]. intros (x & Hx & <-). congruence.
    + done.
  - intros i. rewrite chain_alter by (rewrite H1; done). case_decide; [by apply chain_remove_spec|done].
  - intros m p a b. rewrite !lookup_delete. repeat case_decide; try done. apply H4.
  - rewrite map_size_delete_Some by eauto. assert (0 < size h)%nat; [|lia].
    destruct (size h) eqn:E; [|lia]. apply map_size_empty_inv in E. subst. by rewrite lookup_empty in Hn.
Qed.
End Table.

(** *** Readers and waiters *)

Section Reading.
Context (r : list (list Z)) (k w cc : Z).

Lemma reading_ext ts ts' :
  (forall id, TReading id ∈ ts <-> TReading id ∈ ts') -> (forall id, TWaiting id ∈ ts' -> TWaiting id ∈ ts) ->
  (forall id, count (reads id) ts = count (reads id) ts') ->
  count is_reading ts = count is_reading ts' -> count in_wait ts = count in_wait ts' ->
  reading_inv r k w cc ts -> reading_inv r k w cc ts'.
Proof.
  intros Hr Hw Hc Hcr Hcw [H1 H2 H3 H4 H5 H6 H7 H8]. split; try done; try congruence.
  - intros i id. by rewrite H2, Hr.
  - intros id Hid. apply Hr. auto.
Qed.

Lemma reading_perm ts ts' : ts ≡ₚ ts' -> reading_inv r k w cc ts -> reading_inv r k w cc ts'.
Proof. intros Hp. apply reading_ext; intros; by rewrite ?Hp, ?(count_perm _ _ _ Hp). Qed.

(** Relinquishing calls do not matter. *)
Lemma reading_other t ts :
  is_reading t = false -> in_wait t = false -> reading_inv r k w cc (t :: ts) <-> reading_inv r k w cc ts.
Proof.
  intros Hr Hw. split; apply reading_ext; intros; rewrite ?elem_of_cons in *; simpl; rewrite ?Hr, ?Hw;
    try (unfold reads at 1); destruct t; try done; intuition (done || congruence).
Qed.

Lemma reading_woken ts : reading_inv r k w cc ts -> reading_inv r k w cc (wake <$> ts).
Proof.
  intros [H1 H2 H3 H4 H5 H6 H7 H8].
  assert (Hc : forall id, count (reads id) (wake <$> ts) = count (reads id) ts)
    by (intros; apply count_fmap; by intros []).
  split; try done.
  - intros i id. by rewrite H2, reading_wake.
  - intros id. by rewrite Hc.
  - rewrite H5. symmetry. apply count_fmap. by intros [].
  - rewrite H6. symmetry. apply count_fmap. by intros [].
  - intros id Hid. by destruct (waiting_wake id ts).
Qed.

(** A new reader. *)
Lemma reading_add id cc' ts :
  reading_inv r k w cc ts -> id ∉ chain r (IN_READING_HASH_INDEX id) -> 0 <= cc' <= MAX_CACHED_RDNODES ->
  reading_inv (alter (cons id) (IN_READING_HASH_INDEX id) r) (k + 1) w cc' (TReading id :: ts).
Proof.
  intros [H1 H2 H3 H4 H5 H6 H7 H8] Hid Hcc. assert (Hi := reading_index id).
  assert (Hno : TReading id ∉ ts) by (intros ?; apply Hid, H2; done).
  split; try done.
  - by rewrite length_alter.
  - intros i id'. rewrite chain_alter by (rewrite H1; done). rewrite elem_of_cons.
    case_decide as E; rewrite ?elem_of_cons, H2; [subst|]; naive_solver.
  - intros i. rewrite chain_alter by (rewrite H1; done). case_decide; [constructor|]; done.
  - intros id'. simpl. unfold reads at 1. case_bool_decide as E; [|apply H4]. injection E as ->.
    rewrite <- count_reads in Hno. lia.
  - simpl. lia.
  - intros id' [?|?]%elem_of_cons; [done|]. right. auto.
Qed.

(** The end of a read when nobody waits. *)
Lemma reading_done id cc' ts :
  reading_inv r k w cc (TReading id :: ts) -> 0 <= cc' <= MAX_CACHED_RDNODES ->
  (forall id', TWaiting id' ∉ ts) ->
  reading_inv (alter (chain_remove id) (IN_READING_HASH_INDEX id) r) (k - 1) w cc' ts /\ TReading id ∉ ts.
Proof.
  intros [H1 H2 H3 H4 H5 H6 H7 H8] Hcc Hw. assert (Hi := reading_index id).
  assert (Hno : TReading id ∉ ts).
  { specialize (H4 id). simpl in H4. unfold reads in H4 at 1. rewrite bool_decide_true in H4 by done.
    rewrite <- count_reads. lia. }
  split; [|done]. split; try done.
  - by rewrite length_alter.
  - intros i id'. rewrite chain_alter by (rewrite H1; done).
    case_decide as E; [rewrite (proj2 (chain_remove_spec id _ (H3 _)))|]; rewrite H2, elem_of_cons.
    + subst. split; [intros [[[?|?] ?] ?]; [congruence|done]|]. intros [Hin Hix].
      split; [auto|]. intros ->. done.
    + split; [intros [[[= ->]|?] ?]; [congruence|done]|]. intros []. auto.
  - intros i. rewrite chain_alter by (rewrite H1; done). case_decide; [by apply chain_remove_spec|done].
  - intros id'. specialize (H4 id'). simpl in H4. destruct (reads id' _); lia.
  - rewrite H5. simpl. lia.
  - intros id' Hid. by destruct (Hw id').
Qed.

(** A waiter or a woken call with its counter. *)
Lemma reading_wait id ts :
  reading_inv r k w cc ts -> id ∈ chain r (IN_READING_HASH_INDEX id) ->
  reading_inv r k (w + 1) cc (TWaiting id :: ts).
Proof.
  intros [H1 H2 H3 H4 H5 H6 H7 H8] Hid. split; try done.
  - intros i id'. rewrite H2, elem_of_cons. naive_solver.
  - simpl. lia.
  - intros id' [[= ->]|Hid']%elem_of_cons; right; [by apply H2 in Hid as [? _]|auto].
Qed.

Lemma reading_unwait id ts :
  reading_inv r k w cc (TWoken id :: ts) -> reading_inv r k (w - 1) cc ts.
Proof.
  intros [H1 H2 H3 H4 H5 H6 H7 H8]. split; try done.
  - intros i id'. rewrite H2, elem_of_cons. naive_solver.
  - rewrite H6. simpl. lia.
  - intros id' Hid'. specialize (H7 id'). rewrite !elem_of_cons in H7. naive_solver.
Qed.
End Reading.

(** The end of a read; the waiters are woken when there are any. *)
Lemma reading_finish r k w cc id cc' ts :
  reading_inv r k w cc (TReading id :: ts) -> 0 <= cc' <= MAX_CACHED_RDNODES ->
  reading_inv (alter (chain_remove id) (IN_READING_HASH_INDEX id) r) (k - 1) w cc'
    (if 0 <? w then wake <$> ts else ts) /\ TReading id ∉ ts.
Proof.
  intros Hr Hcc. destruct (Z.ltb_spec 0 w) as [Hw|Hw].
  - rewrite <- (reading_wake id ts). apply (reading_done r k w cc); [by apply reading_woken in Hr|done|].
    intros id'. apply waiting_wake.
  - apply (reading_done r k w cc); [done|done|]. intros id' Hid.
    pose proof (ri_waiters _ _ _ _ _ Hr) as Hcw. simpl in Hcw.
    assert (0 < count in_wait ts); [|lia]. apply count_pos. by exists (TWaiting id').
Qed.

(** *** References *)

Lemma relinquishes_wake n (ts : list task) : count (relinquishes n) (wake <$> ts) = count (relinquishes n) ts.
Proof. apply count_fmap. by intros []. Qed.

Lemma client_refs_cons n m hs :
  client_refs n (m :: hs) = (if decide (m = n) then 1 else 0) + client_refs n hs.
Proof. unfold client_refs. simpl. by rewrite decide_bool_decide. Qed.

Section Refs.
Context (h : gmap nat inode) (ts : list task) (hs : list nat).
Hypothesis (Hf : refs_inv h ts hs).

(** Only the counts matter. *)
Lemma refs_ext ts' hs' :
  (forall n, count (relinquishes n) ts' = count (relinquishes n) ts) ->
  (forall n, client_refs n hs' = client_refs n hs) -> refs_inv h ts' hs'.
Proof.
  intros Ht Hh. destruct Hf as [H1 H2 H3 H4 H5]. unfold refs in *.
  split; intros *; unfold refs; rewrite ?Ht, ?Hh; eauto.
Qed.

Lemma refs_perm ts' hs' : ts ≡ₚ ts' -> hs ≡ₚ hs' -> refs_inv h ts' hs'.
Proof. intros Ht Hh. apply refs_ext; intros n; symmetry; by apply count_perm. Qed.

(** A node that a client refers to is not being deleted. *)
Lemma held_alive n : n ∈ hs -> exists nd, h !! n = Some nd /\ istat nd <> kInodeState_Deleting.
Proof.
  intros Hn%count_held. pose proof (count_nonneg (relinquishes n) ts). destruct (h !! n) as [nd|] eqn:E.
  - exists nd. split; [done|]. intros Hd. apply (fi_deleting _ _ _ Hf n) in Hd; [lia|done].
  - apply (fi_none _ _ _ Hf) in E. unfold refs in E. lia.
Qed.

(** Calls give up references to existing nodes. *)
Lemma relinquished_alive n : 0 < count (relinquishes n) ts -> exists nd, h !! n = Some nd.
Proof.
  intros Hn. pose proof (count_nonneg (fun m => bool_decide (m = n)) hs). destruct (h !! n) as [nd|] eqn:E; [eauto|].
  apply (fi_none _ _ _ Hf) in E. unfold refs, client_refs in E. lia.
Qed.

(** An update of one node. *)
Lemma refs_update n nd nd' :
  h !! n = Some nd -> useCount nd' = useCount nd ->
  (istat nd' = kInodeState_Deleting -> client_refs n hs = 0 /\ linkCount nd' = 0) ->
  (0 < count (relinquishes n) ts -> linkCount nd' = 0 -> istat nd' = kInodeState_Deleting) ->
  refs_inv (<[n := nd']> h) ts hs.
Proof.
  intros Hn Hu Hd Hw. destruct Hf as [H1 H2 H3 H4 H5]. split; [| |done| |].
  - intros m x. rewrite lookup_insert. case_decide; [|auto]. intros [= <-]. subst. rewrite Hu. auto.
  - intros m. rewrite lookup_insert. case_decide; [done|auto].
  - intros m x. rewrite lookup_insert. case_decide; [intros [= <-]; by subst|eauto].
  - intros m x. rewrite lookup_insert. case_decide; [intros [= <-]; by subst|eauto].
Qed.

(** One more reference of a client. *)
Lemma refs_add n nd :
  h !! n = Some nd -> istat nd <> kInodeState_Deleting ->
  refs_inv (<[n := set_useCount (useCount nd + 1) nd]> h) ts (n :: hs).
Proof.
  intros Hn Hd. destruct Hf as [H1 H2 H3 H4 H5]. unfold refs in *. split; [| |done| |]; unfold refs.
  - intros m x. rewrite lookup_insert, client_refs_cons. case_decide; [|apply H1].
    intros [= <-]. subst. destruct (H1 m nd Hn). simpl. lia.
  - intros m. rewrite lookup_insert, client_refs_cons. case_decide; [done|apply H2].
  - intros m x. rewrite lookup_insert, client_refs_cons. case_decide; [by intros [= <-]|apply H4].
  - intros m x. rewrite lookup_insert. case_decide; [intros [= <-]; subst; apply (H5 m nd Hn)|apply H5].
Qed.

(** A new node with its first reference. *)
Lemma refs_new n nd :
  h !! n = None -> useCount nd = 1 -> istat nd <> kInodeState_Deleting -> refs_inv (<[n := nd]> h) ts (n :: hs).
Proof.
  intros Hn Hu Hd. destruct Hf as [H1 H2 H3 H4 H5]. unfold refs in *. split; [| |done| |]; unfold refs.
  - intros m x. rewrite lookup_insert, client_refs_cons. case_decide; [|apply H1].
    intros [= <-]. subst. specialize (H2 m Hn). lia.
  - intros m. rewrite lookup_insert, client_refs_cons. case_decide; [done|apply H2].
  - intros m x. rewrite lookup_insert, client_refs_cons. case_decide; [by intros [= <-]|apply H4].
  - intros m x. rewrite lookup_insert. case_decide; [|apply H5]. intros [= <-]. subst.
    specialize (H2 m Hn). pose proof (count_nonneg (fun k => bool_decide (k = m)) hs). unfold client_refs in H2. lia.
Qed.

(** One reference less: the node is destroyed with its last reference. *)
Lemma refs_drop n nd ts' hs' :
  h !! n = Some nd ->
  (forall m, refs m ts' hs' = refs m ts hs - if decide (m = n) then 1 else 0) ->
  (forall m, count (relinquishes m) ts' <= count (relinquishes m) ts) ->
  (forall m, client_refs m hs' <= client_refs m hs) ->
  refs_inv (if useCount nd - 1 =? 0 then delete n h else <[n := set_useCount (useCount nd - 1) nd]> h) ts' hs'.
Proof.
  intros Hn Hr Ht Hh. destruct Hf as [H1 H2 H3 H4 H5]. destruct (H1 n nd Hn) as [Hu Hp].
  assert (Hc : forall m, 0 <= client_refs m hs') by (intros; apply count_nonneg).
  assert (Hl : forall m x, (if useCount nd - 1 =? 0 then delete n h
    else <[n := set_useCount (useCount nd - 1) nd]> h) !! m = Some x ->
    if decide (m = n) then x = set_useCount (useCount nd - 1) nd /\ 0 < useCount nd - 1 else h !! m = Some x).
  { intros m x. destruct (Z.eqb_spec (useCount nd - 1) 0); rewrite ?lookup_delete, ?lookup_insert;
      repeat case_decide; subst; try done. intros [= <-]. split; [done|lia]. }
  split.
  - intros m x Hx%Hl. rewrite Hr. case_decide; [destruct Hx as [-> ?]; subst; simpl; lia|].
    rewrite Z.sub_0_r. auto.
  - intros m. rewrite Hr. destruct (Z.eqb_spec (useCount nd - 1) 0); rewrite ?lookup_delete, ?lookup_insert;
      repeat case_decide; subst; try done; try lia; intros Hm%H2; lia.
  - intros m. specialize (H3 m). specialize (Ht m). lia.
  - intros m x Hx%Hl Hd. specialize (Hc m). specialize (Hh m). case_decide; [destruct Hx as [-> _]; subst|];
      [destruct (H4 n nd)|destruct (H4 m x)]; try done; simpl in *; lia.
  - intros m x Hx%Hl Hd Hk. specialize (Ht m). case_decide; [destruct Hx as [-> _]; subst; simpl in *|];
      [apply (H5 n nd)|apply (H5 m x)]; try done; lia.
Qed.
End Refs.

(** *** The volume *)

Section Volume.
Context (h : gmap nat inode) (ts : list task) (v : gmap Z (Z * Z)).
Hypothesis (Hv : volume_inv h ts v).

Lemma volume_tasks ts' : (forall n, TExit n ∈ ts' <-> TExit n ∈ ts) -> volume_inv h ts' v.
Proof.
  intros Ht. destruct Hv as [H1 H2].
  assert (Hg : forall n nd, gone n nd ts' = gone n nd ts).
  { intros n nd. unfold gone. f_equal. apply bool_decide_ext, Ht. }
  split; [intros n nd; rewrite Hg; apply H1|]. intros n nd Hn. rewrite Ht. by apply H2.
Qed.

Lemma volume_update n nd nd' :
  h !! n = Some nd -> inid nd' = inid nd -> istat nd' = istat nd \/ TExit n ∉ ts ->
  (modified nd' = false -> modified nd = false /\ linkCount nd' = linkCount nd /\ attr nd' = attr nd) ->
  (TExit n ∈ ts -> modified nd' = false) -> volume_inv (<[n := nd']> h) ts v.
Proof.
  intros Hn Hid Hst Hm Hx. destruct Hv as [H1 H2]. split; intros m x; rewrite lookup_insert;
    (case_decide; [intros [= <-]; subst m|eauto]); [|done].
  intros Hg. destruct (H1 n nd Hn) as (c & Hc & Hcm).
  - unfold gone in *. apply andb_false_iff in Hg. apply andb_false_iff. destruct Hst as [<-|Hst]; [done|].
    right. by apply bool_decide_eq_false.
  - rewrite Hid. exists c. split; [done|]. intros Hf. destruct (Hm Hf) as (Hmn & -> & ->). auto.
Qed.

Lemma volume_add n nd :
  v !! inid nd = Some (linkCount nd, attr nd) -> modified nd = false -> volume_inv (<[n := nd]> h) ts v.
Proof.
  intros Hn Hm. destruct Hv as [H1 H2].
  split; intros m x; rewrite lookup_insert; (case_decide; [intros [= <-]|eauto]); [|done]. intros _. eauto.
Qed.

Lemma volume_delete n : volume_inv (delete n h) ts v.
Proof. destruct Hv as [H1 H2]. split; intros m x; rewrite lookup_delete; case_decide; eauto; done. Qed.
End Volume.

Lemma alter_as_insert (g : inode -> inode) n nd (h : gmap nat inode) :
  h !! n = Some nd -> alter g n h = <[n := g nd]> h.
Proof.
  intros Hn. apply map_eq. intros m. rewrite lookup_alter, lookup_insert. case_decide; [|done]. subst. by rewrite Hn.
Qed.

Lemma same_ids_insert (h : gmap nat inode) n nd nd' :
  h !! n = Some nd -> inid nd' = inid nd -> forall m, inid <$> <[n := nd']> h !! m = inid <$> h !! m.
Proof. intros Hn Hid m. rewrite lookup_insert. case_decide; [subst|done]. rewrite Hn. simpl. by rewrite Hid. Qed.

Lemma not_cached_same id (h h' : gmap nat inode) :
  (forall m, inid <$> h' !! m = inid <$> h !! m) -> not_cached id h -> not_cached id h'.
Proof.
  intros Hs Hn m x Hx Hid. specialize (Hs m). rewrite Hx in Hs. symmetry in Hs.
  apply fmap_Some in Hs as (y & Hy & Hyx). apply (Hn m y Hy). congruence.
Qed.

(** *** The steps *)

Lemma cache_inv_perm f ts ts' hs hs' v l :
  ts ≡ₚ ts' -> hs ≡ₚ hs' -> cache_inv (Sys f ts hs v l) -> cache_inv (Sys f ts' hs' v l).
Proof.
  intros Ht Hh [H1 H2 H3 H4 H5]. split; simpl in *.
  - done.
  - by apply (reading_perm _ _ _ _ ts).
  - by apply (refs_perm _ ts hs).
  - intros id. rewrite <- Ht. apply H4.
  - intros Hl. apply (volume_tasks _ ts); [auto|]. intros n. by rewrite Ht.
Qed.

(** A client gets one more reference to a cached node. *)
Lemma add_use_inv f ts hs v l n nd :
  cache_inv (Sys f ts hs v l) -> heap f !! n = Some nd -> istat nd <> kInodeState_Deleting ->
  cache_inv (Sys (add_use n f) ts (n :: hs) v l).
Proof.
  intros [H1 H2 H3 H4 H5] Hn Hd. simpl in *.
  set (nd' := set_useCount (useCount nd + 1) nd).
  assert (Hs := same_ids_insert _ n nd nd' Hn eq_refl).
  split; simpl; rewrite ?(alter_as_insert _ _ _ _ Hn); fold nd'.
  - by apply (table_same _ _ _ H1).
  - done.
  - by apply refs_add.
  - intros id Hid. apply (not_cached_same id _ _ Hs). auto.
  - intros Hl. apply (volume_update _ _ _ (H5 Hl) n nd); auto.
    apply (vi_written _ _ _ (H5 Hl) n nd Hn).
Qed.

(** All waiters are woken, or none. *)
Lemma wake_inv f ts hs v l (b : bool) :
  cache_inv (Sys f ts hs v l) -> cache_inv (Sys f (if b then wake <$> ts else ts) hs v l).
Proof.
  destruct b; [|done]. intros [H1 H2 H3 H4 H5]. split; simpl in *.
  - done.
  - by apply reading_woken.
  - apply (refs_ext _ ts hs); [done| |done]. intros n. apply relinquishes_wake.
  - intros id. rewrite reading_wake. apply H4.
  - intros Hl. apply (volume_tasks _ ts); [auto|]. intros n. apply exit_wake.
Qed.

Lemma retry_inv alloc id f ts s0 :
  cache_inv (Sys f ts (held s0) (volume s0) (lost s0)) ->
  cache_inv (after_acquire id (acquire_retry alloc id f) ts s0).
Proof.
  intros Hi. pose proof Hi as [H1 H2 H3 H4 H5]. simpl in *.
  unfold acquire_retry, cached_node. pose proof (table_find _ _ _ H1 id) as Hfind.
  destruct (find_node _ _ _) as [n|].
  - destruct Hfind as (nd & Hn & Hid). rewrite Hn. case_decide as Hd; [done|].
    apply (add_use_inv f ts _ _ _ n nd Hi Hn). intros Hnd. apply Hd. by rewrite <- Hnd.
  - case_decide as Hr.
    + split; simpl; try done; [by apply reading_wait| | |].
      * by apply (refs_ext _ ts (held s0)).
      * intros id' [?|?]%elem_of_cons; [done|auto].
      * intros Hl. apply (volume_tasks _ ts); [auto|]. intros n. rewrite elem_of_cons. split; [by intros [?|?]|auto].
    + assert (Hadd : forall cc, 0 <= cc <= MAX_CACHED_RDNODES ->
        cache_inv (Sys (set_reading (alter (cons id) (IN_READING_HASH_INDEX id) (inReading f))
          (inReadingCount f + 1) cc f) (TReading id :: ts) (held s0) (volume s0) (lost s0))).
      { intros cc Hcc. split; simpl; try done; [by apply (reading_add _ _ _ (inReadingCacheCount f))| | |].
        * by apply (refs_ext _ ts (held s0)).
        * intros id' [[= ->]|?]%elem_of_cons; [done|auto].
        * intros Hl. apply (volume_tasks _ ts); [auto|]. intros n. rewrite elem_of_cons. split; [by intros [?|?]|auto]. }
      pose proof (ri_cache _ _ _ _ _ H2) as Hcc. unfold MAX_CACHED_RDNODES in *.
      unfold PrepReadingNode. destruct (Z.ltb_spec 0 (inReadingCacheCount f)); [apply Hadd; lia|].
      destruct alloc; [apply Hadd; lia|]. by apply wake_inv.
Qed.

Lemma finish_inv id r f ts s0 :
  cache_inv (Sys f (TReading id :: ts) (held s0) (volume s0) (lost s0)) ->
  match r with
  | inl _ => True
  | inr (n, nd) => heap f !! n = None /\ inid nd = id /\ useCount nd = 0 /\ modified nd = false /\
      volume s0 !! id = Some (linkCount nd, attr nd)
  end ->
  cache_inv (after_acquire id (acquire_finish id r f) ts s0).
Proof.
  intros [H1 H2 H3 H4 H5] Hr. simpl in *.
  pose proof (ri_cache _ _ _ _ _ H2) as Hcc.
  set (cc := if inReadingCacheCount f <? MAX_CACHED_RDNODES then inReadingCacheCount f + 1 else inReadingCacheCount f).
  assert (Hcc' : 0 <= cc <= MAX_CACHED_RDNODES).
  { subst cc. destruct (Z.ltb_spec (inReadingCacheCount f) MAX_CACHED_RDNODES); lia. }
  destruct (reading_finish _ _ _ _ id cc ts H2 Hcc') as [H2' Hno]. set (ts' := if 0 <? _ then _ else _) in H2'.
  assert (Hin : forall x, TReading x ∈ ts' <-> TReading x ∈ ts)
    by (intros x; subst ts'; destruct (0 <? _); [apply reading_wake|done]).
  assert (Hex : forall n, TExit n ∈ ts' <-> TExit n ∈ TReading id :: ts).
  { intros n. rewrite elem_of_cons. subst ts'. destruct (0 <? _); rewrite ?exit_wake; (split; [auto|by intros [?|?]]). }
  assert (Hrel : forall n, count (relinquishes n) ts' = count (relinquishes n) (TReading id :: ts)).
  { intros n. subst ts'. destruct (0 <? _); simpl; by rewrite ?relinquishes_wake. }
  destruct r as [e|[n nd]].
  - split; simpl.
    + done.
    + done.
    + by apply (refs_ext _ _ _ H3).
    + intros x Hx%Hin. apply H4. by right.
    + intros Hl. by apply (volume_tasks _ _ _ (H5 Hl)).
  - destruct Hr as (Hn & Hid & Hu & Hm & Hvol). subst id.
    assert (Hnew : not_cached (inid nd) (heap f)) by (apply H4; left).
    set (nd' := set_useCount (useCount nd + 1) (set_istat kInodeState_Cached nd)).
    assert (Ha : alter (fun x => set_useCount (useCount x + 1) x) n
      (<[n := set_istat kInodeState_Cached nd]> (heap f)) = <[n := nd']> (heap f)).
    { rewrite (alter_as_insert _ n (set_istat kInodeState_Cached nd)) by (apply lookup_insert_eq).
      apply insert_insert_eq. }
    split; simpl; rewrite ?Ha.
    + apply (table_add _ _ _ H1 n nd' Hn Hnew).
    + done.
    + apply refs_new; [|done|simpl; lia|done]. by apply (refs_ext _ _ _ H3).
    + intros x Hx%Hin m y. rewrite lookup_insert. case_decide.
      * intros [= <-]. simpl. intros <-. done.
      * apply H4. by right.
    + intros Hl. apply volume_add; [by apply (volume_tasks _ _ _ (H5 Hl))|done|done].
Qed.

(** The last critical section of a relinquishing call, for an existing node. *)
Lemma drop_spec n nd f :
  heap f !! n = Some nd -> 0 < useCount nd ->
  exists f', relinquish_drop n f = Some f' /\
    heap f' = (if useCount nd - 1 =? 0 then delete n (heap f)
               else <[n := set_useCount (useCount nd - 1) nd]> (heap f)) /\
    (table_inv (inCached f) (inCachedCount f) (heap f) -> table_inv (inCached f') (inCachedCount f') (heap f')) /\
    inReading f' = inReading f /\ inReadingCount f' = inReadingCount f /\
    inReadingWaiterCount f' = inReadingWaiterCount f /\ inReadingCacheCount f' = inReadingCacheCount f.
Proof.
  intros Hn Hu. unfold relinquish_drop. rewrite Hn. simpl. rewrite (proj2 (Z.leb_gt _ _)) by lia.
  destruct (useCount nd - 1 =? 0); eexists; (split; [done|]); split_and!; try done; intros Ht.
  - by apply table_remove.
  - apply (table_same _ _ _ Ht). by apply (same_ids_insert _ n nd).
Qed.

Lemma drop_heap (h : gmap nat inode) n nd m x :
  h !! n = Some nd ->
  (if useCount nd - 1 =? 0 then delete n h else <[n := set_useCount (useCount nd - 1) nd]> h) !! m = Some x ->
  if decide (m = n) then x = set_useCount (useCount nd - 1) nd /\ useCount nd - 1 <> 0 else h !! m = Some x.
Proof.
  intros Hn. destruct (Z.eqb_spec (useCount nd - 1) 0); rewrite ?lookup_delete, ?lookup_insert;
    repeat case_decide; subst; try done. by intros [= <-].
Qed.

Lemma drop_inv f ts hs ts' hs' v l n nd f' :
  cache_inv (Sys f ts hs v l) -> heap f !! n = Some nd -> relinquish_drop n f = Some f' ->
  (ts' = ts /\ hs = n :: hs') \/ (ts = TExit n :: ts' /\ hs' = hs) ->
  cache_inv (Sys f' ts' hs' v l).
Proof.
  intros [H1 H2 H3 H4 H5] Hn Hdrop Hts. simpl in *. destruct (fi_use _ _ _ H3 n nd Hn) as [Hu Hpos].
  destruct (drop_spec n nd f Hn) as (f1 & Hf1 & Hh & Ht & R1 & R2 & R3 & R4); [lia|].
  rewrite Hdrop in Hf1. injection Hf1 as <-.
  split; simpl; rewrite ?R1, ?R2, ?R3, ?R4.
  - auto.
  - destruct Hts as [[-> _]|[-> _]]; [done|].
    apply (proj1 (reading_other _ _ _ _ (TExit n) ts' eq_refl eq_refl) H2).
  - rewrite Hh. apply (refs_drop _ _ _ H3); [done|..]; intros m;
      destruct Hts as [[-> ->]|[-> ->]]; unfold refs; rewrite ?client_refs_cons; simpl;
      rewrite ?(decide_bool_decide); repeat case_bool_decide; subst; try done; lia.
  - intros id Hid m x. rewrite Hh. intros Hx%drop_heap; [|done].
    assert (Hid' : TReading id ∈ ts) by (destruct Hts as [[-> _]|[-> _]]; [done|by right]).
    case_decide; [destruct Hx as [-> _]; apply (H4 id Hid' n nd Hn)|by apply (H4 id Hid' m)].
  - intros Hl. destruct (H5 Hl) as [V1 V2].
    assert (Hsub : forall m, TExit m ∈ ts' -> TExit m ∈ ts)
      by (intros m; destruct Hts as [[-> _]|[-> _]]; [done|by right]).
    split; intros m x; rewrite Hh; intros Hx%drop_heap; try done.
    + case_decide as Hm.
      * destruct Hx as [-> Hu1]. intros _. apply (V1 n nd Hn). apply andb_false_iff. left. apply bool_decide_eq_false.
        intros Hd. destruct (fi_deleting _ _ _ H3 n nd Hn Hd) as [Hc _]. pose proof (fi_single _ _ _ H3 n).
        unfold refs in *. lia.
      * intros Hg. apply (V1 m x Hx). rewrite <- Hg. unfold gone. f_equal. apply bool_decide_ext.
        destruct Hts as [[-> _]|[-> _]]; [done|]. rewrite elem_of_cons. split; [intros [?|?]; [congruence|done]|auto].
    + intros Hm%Hsub. case_decide; [destruct Hx as [-> _]; subst; by apply (V2 n nd)|by apply (V2 m)].
Qed.

(** The last reference of a client passes to the call that relinquishes it. *)
Lemma refs_relinquish h ts hs n nd nd' :
  refs_inv h ts (n :: hs) -> h !! n = Some nd -> useCount nd' = useCount nd ->
  client_refs n hs = 0 -> count (relinquishes n) ts = 0 ->
  (istat nd' = kInodeState_Deleting <-> linkCount nd' = 0) -> refs_inv (<[n := nd']> h) (TWriteback n :: ts) hs.
Proof.
  intros [H1 H2 H3 H4 H5] Hn Hu Hc Hr Hd.
  assert (Hrefs : forall m, refs m (TWriteback n :: ts) hs = refs m ts (n :: hs)).
  { intros m. unfold refs. rewrite client_refs_cons, decide_bool_decide. simpl. lia. }
  split.
  - intros m x. rewrite Hrefs, lookup_insert. case_decide; [|auto]. intros [= <-]. subst. rewrite Hu. auto.
  - intros m. rewrite Hrefs, lookup_insert. case_decide; [done|auto].
  - intros m. simpl. case_bool_decide as E; [subst; lia|]. apply H3.
  - intros m x. rewrite lookup_insert. case_decide; [intros [= <-] ?; subst; by split; [|apply Hd]|].
    intros Hx Hdx. destruct (H4 m x Hx Hdx) as [Hcx Hlx]. rewrite client_refs_cons, decide_False in Hcx by done. done.
  - intros m x. rewrite lookup_insert. case_decide; [intros [= <-] _; apply Hd|].
    simpl. rewrite bool_decide_false by done. apply H5.
Qed.

(** A client relinquishes its reference. *)
Lemma relinquish_inv f ts hs v l n wb f' :
  cache_inv (Sys f ts (n :: hs) v l) -> Filesystem_RelinquishNode n f = Some (wb, f') ->
  cache_inv (Sys f' (if wb : bool then TWriteback n :: ts else ts) hs v l).
Proof.
  intros Hi Hr. pose proof Hi as [H1 H2 H3 H4 H5]. simpl in *.
  destruct (held_alive _ _ _ H3 n) as (nd & Hn & Hnd); [left|].
  unfold Filesystem_RelinquishNode in Hr. rewrite Hn in Hr. cbn -[relinquish_drop] in Hr.
  set (nd' := if linkCount nd =? 0 then _ else _) in Hr.
  destruct ((useCount nd =? 1) && _) eqn:E.
  - injection Hr as <- <-. apply andb_true_iff in E as [Hu%Z.eqb_eq Hst%bool_decide_eq_true].
    destruct (fi_use _ _ _ H3 n nd Hn) as [Hu' _]. rewrite Hu in Hu'. unfold refs in Hu'.
    rewrite client_refs_cons, decide_True in Hu' by done.
    assert (Hc0 : client_refs n hs = 0 /\ count (relinquishes n) ts = 0).
    { pose proof (count_nonneg (relinquishes n) ts). pose proof (count_nonneg (fun m => bool_decide (m = n)) hs).
      unfold client_refs in *. lia. }
    assert (Hid : inid nd' = inid nd) by (subst nd'; destruct (linkCount nd =? 0), (modified nd); done).
    assert (Hs := same_ids_insert _ n nd nd' Hn Hid).
    split; simpl.
    + by apply (table_same _ _ _ H1).
    + by apply reading_other.
    + apply (refs_relinquish (heap f) ts hs n nd); try done; subst nd';
        destruct (Z.eqb_spec (linkCount nd) 0), (modified nd); try done; simpl; tauto.
    + intros id [?|Hid']%elem_of_cons; [done|]. apply (not_cached_same id _ _ Hs). auto.
    + intros Hl. assert (Hx : TExit n ∉ ts).
      { intros Hx. assert (0 < count (relinquishes n) ts) by (apply count_relinquishes; auto). lia. }
      apply (volume_tasks _ ts); [|by intros m; rewrite elem_of_cons; split; [intros [?|?]|auto]].
      apply (volume_update _ _ _ (H5 Hl) n nd); auto; [|done].
      subst nd'. destruct (linkCount nd =? 0), (modified nd) eqn:Em; simpl; rewrite ?Em; auto.
  - apply bind_Some in Hr as (f1 & Hd & [= <- <-]). eapply drop_inv; eauto.
Qed.

Lemma write_volume_other nd id v : id <> inid nd -> write_volume nd v !! id = v !! id.
Proof.
  intros Hid. unfold write_volume. case_decide; [by rewrite lookup_delete_ne|by rewrite lookup_insert_ne].
Qed.

Lemma volume_written h ts v n nd cs k :
  table_inv cs k h -> volume_inv h (TWriteback n :: ts) v -> h !! n = Some nd ->
  volume_inv (<[n := set_content (linkCount nd) (attr nd) false nd]> h) (TExit n :: ts) (write_volume nd v).
Proof.
  intros Ht [V1 V2] Hn.
  assert (Hx : forall m, m <> n -> TExit m ∈ TExit n :: ts <-> TExit m ∈ TWriteback n :: ts).
  { intros m Hm. rewrite !elem_of_cons. split; intros [?|?]; auto; congruence. }
  split; intros m x; rewrite lookup_insert; (case_decide as Hm; [intros [= <-]; subst m|]); [| |done|].
  - unfold gone, write_volume. simpl. intros [Hg%bool_decide_eq_false|Hg%bool_decide_eq_false]%andb_false_iff;
      [|by destruct Hg; left]. rewrite decide_False by done. rewrite lookup_insert_eq. eauto.
  - intros Hx' Hg. rewrite write_volume_other.
    + apply (V1 m x Hx'). rewrite <- Hg. unfold gone. f_equal. apply bool_decide_ext. symmetry. auto.
    + intros Hid. apply Hm. by apply (ti_unique _ _ _ Ht n m nd x).
  - intros Hx' Hin%Hx; [|done]. by apply (V2 m x).
Qed.

(** The write back of a node, which fails on a read-only filesystem. *)
Lemma writeback_inv f ts hs v l n nd :
  cache_inv (Sys f (TWriteback n :: ts) hs v l) -> heap f !! n = Some nd ->
  cache_inv (Sys (relinquish_writeback n f) (TExit n :: ts) hs v true) /\
  (isReadOnly f = false -> cache_inv (Sys (relinquish_writeback n f) (TExit n :: ts) hs (write_volume nd v) l)).
Proof.
  intros [H1 H2 H3 H4 H5] Hn. simpl in *.
  set (nd' := set_content (linkCount nd) (attr nd) false nd).
  assert (Hs := same_ids_insert _ n nd nd' Hn eq_refl).
  assert (Hrel : forall m, count (relinquishes m) (TExit n :: ts) = count (relinquishes m) (TWriteback n :: ts)) by done.
  assert (Hrd : forall id, TReading id ∈ TExit n :: ts <-> TReading id ∈ TWriteback n :: ts)
    by (intros id; rewrite !elem_of_cons; by split; (intros [?|?]; [|right])).
  assert (Hread : reading_inv (inReading f) (inReadingCount f) (inReadingWaiterCount f) (inReadingCacheCount f)
    (TExit n :: ts)).
  { apply reading_other; [done|done|]. apply (proj1 (reading_other _ _ _ _ (TWriteback n) ts eq_refl eq_refl) H2). }
  assert (Hrefs : refs_inv (heap f) (TExit n :: ts) hs) by by apply (refs_ext _ _ _ H3).
  assert (Hrefs' : refs_inv (<[n := nd']> (heap f)) (TExit n :: ts) hs).
  { apply (refs_update _ _ _ Hrefs n nd); [done|done|..]; [apply (fi_deleting _ _ _ H3 n nd Hn)|].
    intros Hr. apply (fi_writing _ _ _ H3 n nd Hn Hr). }
  assert (Hex : forall id, TReading id ∈ TExit n :: ts -> not_cached id (<[n := nd']> (heap f))).
  { intros id Hid%Hrd. apply (not_cached_same id _ _ Hs). auto. }
  unfold relinquish_writeback. split.
  - destruct (isReadOnly f); split; simpl; rewrite ?(alter_as_insert _ _ _ _ Hn); try done.
    + intros id Hid%Hrd. auto.
    + by apply (table_same _ _ _ H1).
  - intros ->. split; simpl; rewrite ?(alter_as_insert _ _ _ _ Hn); try done.
    + by apply (table_same _ _ _ H1).
    + intros Hl. by apply (volume_written _ _ _ _ _ _ _ H1 (H5 Hl)).
Qed.

Lemma modify_inv f ts hs v l n nd lc at' :
  cache_inv (Sys f ts hs v l) -> n ∈ hs -> heap f !! n = Some nd -> TWriteback n ∉ ts -> TExit n ∉ ts ->
  cache_inv (Sys (set_heap (<[n := set_content lc at' true nd]> (heap f)) f) ts hs v l).
Proof.
  intros [H1 H2 H3 H4 H5] Hh Hn Hw Hx. simpl in *.
  assert (Hs := same_ids_insert _ n nd (set_content lc at' true nd) Hn eq_refl).
  destruct (held_alive _ _ _ H3 n Hh) as (nd1 & Hn1 & Hnd). rewrite Hn in Hn1. injection Hn1 as <-.
  split; simpl.
  - by apply (table_same _ _ _ H1).
  - done.
  - apply (refs_update _ _ _ H3 n nd); [done|done|done|]. intros [?|?]%count_relinquishes; done.
  - intros id Hid. apply (not_cached_same id _ _ Hs). auto.
  - intros Hl. by apply (volume_update _ _ _ (H5 Hl) n nd); auto.
Qed.

Lemma volume_create_inv f ts hs v l id c :
  cache_inv (Sys f ts hs v l) -> v !! id = None -> cache_inv (Sys f ts hs (<[id := c]> v) l).
Proof.
  intros [H1 H2 H3 H4 H5] Hid. split; simpl in *; try done. intros Hl. destruct (H5 Hl) as [V1 V2].
  split; [|done]. intros n nd Hn Hg. destruct (V1 n nd Hn Hg) as (c' & Hc & Hm).
  exists c'. split; [|done]. rewrite lookup_insert_ne; [done|]. intros ->. congruence.
Qed.

Lemma chain_empty {A} k i : chain (replicate k ([] : list A)) i = [].
Proof.
  unfold chain. destruct (replicate k [] !! i) as [l|] eqn:E; [|done]. by apply lookup_replicate in E as [-> _].
Qed.

Lemma boot_inv v : cache_inv (boot v).
Proof.
  split; cbn -[replicate IN_CACHED_HASH_CHAINS_COUNT IN_READING_HASH_CHAINS_COUNT].
  - split; intros *; rewrite ?chain_empty, ?elem_of_nil; try done; [|constructor].
    split; [done|]. by intros (? & ? & _).
  - split; intros *; rewrite ?chain_empty, ?elem_of_nil; try done; [tauto|constructor].
  - split; done.
  - by intros ? ?%elem_of_nil.
  - intros _. by split.
Qed.

Lemma step_inv s ev s' : step s ev s' -> cache_inv s -> cache_inv s'.
Proof.
  destruct s as [f ts hs v l]. intros [Hs|Hs] Hi; destruct Hs; cbn [fs tasks held volume lost] in *.
  - unfold Filesystem_Start. destruct (fsstate f); [|by destruct f..]. destruct r as [|[]]; [by destruct f|].
    by destruct Hi; split.
  - unfold Filesystem_Stop. repeat case_decide; try (by destruct f). destruct (_ && _); [by destruct f|].
    by destruct Hi; split.
  - subst o. unfold Filesystem_AcquireNodeWithId. case_decide; [|by destruct f]. by apply retry_inv.
  - destruct (held_alive _ _ _ (ci_refs _ Hi) n) as (nd & ? & ?); [done|]. by eapply add_use_inv.
  - by apply modify_inv.
  - by apply volume_create_inv.
  - eapply relinquish_inv; [|done]. by eapply cache_inv_perm.
  - subst o. apply finish_inv; [by eapply cache_inv_perm|]. done.
  - subst o. apply finish_inv; [by eapply cache_inv_perm|]. done.
  - subst o. apply retry_inv. assert (Hi' : cache_inv (Sys f (TWoken id :: ts0) hs v l)) by by eapply cache_inv_perm.
    destruct Hi' as [H1 H2 H3 H4 H5]. split; simpl in *; try done; [by eapply reading_unwait| | |].
    + by apply (refs_ext _ _ _ H3).
    + intros id' ?. apply H4. by right.
    + intros Hl. apply (volume_tasks _ _ _ (H5 Hl)). intros n. rewrite elem_of_cons. split; [auto|by intros [?|?]].
  - eapply writeback_inv; [by eapply cache_inv_perm|done|done].
  - assert (Hi' := cache_inv_perm _ _ _ _ _ _ _ H (reflexivity hs) Hi).
    destruct (relinquished_alive _ _ _ (ci_refs _ Hi') n) as [nd Hn]; [apply count_relinquishes; left; left|].
    by eapply writeback_inv.
  - assert (Hi' := cache_inv_perm _ _ _ _ _ _ _ H (reflexivity hs) Hi).
    destruct (relinquished_alive _ _ _ (ci_refs _ Hi') n) as [nd Hn]; [apply count_relinquishes; right; left|].
    eapply drop_inv; eauto.
Qed.

Lemma run_inv v evs s : run v evs s -> cache_inv s.
Proof. induction 1 as [|evs s ev s' _ IH Hs]; [apply boot_inv|]. by apply (step_inv s ev). Qed.

(** ** What clients see *)

(** The content of inode [id]: that of the cached inode, unless it is already
    removed from the volume, and otherwise that on the volume. *)
Definition value (s : sys) (n : nat) (nd : inode) : option (Z * Z) :=
  if gone n nd (tasks s) then volume s !! inid nd else Some (linkCount nd, attr nd).

Definition view (s : sys) (id : Z) : option (Z * Z) :=
  match cached_node (fs s) id with
  | Some n => match heap (fs s) !! n with Some nd => value s n nd | None => volume s !! id end
  | None => volume s !! id
  end.

Lemma view_cached s n nd : cache_inv s -> heap (fs s) !! n = Some nd -> view s (inid nd) = value s n nd.
Proof.
  intros Hi Hn. unfold view, cached_node. pose proof (table_find _ _ _ (ci_table _ Hi) (inid nd)) as Hf.
  destruct (find_node _ _ _) as [m|].
  - destruct Hf as (x & Hx & Hid).
    assert (n = m) as -> by by apply (ti_unique _ _ _ (ci_table _ Hi) n m nd x). by rewrite Hn.
  - by destruct (Hf n nd).
Qed.

Lemma view_uncached s id : cache_inv s -> not_cached id (heap (fs s)) -> view s id = volume s !! id.
Proof.
  intros Hi Hn. unfold view, cached_node. pose proof (table_find _ _ _ (ci_table _ Hi) id) as Hf.
  destruct (find_node _ _ _) as [m|]; [|done]. destruct Hf as (x & Hx & Hid). by destruct (Hn m x).
Qed.

Lemma view_cases s id : cache_inv s ->
  (exists n nd, heap (fs s) !! n = Some nd /\ inid nd = id /\ view s id = value s n nd) \/
  (not_cached id (heap (fs s)) /\ view s id = volume s !! id).
Proof.
  intros Hi. pose proof (table_find _ _ _ (ci_table _ Hi) id) as Hf. destruct (find_node _ _ _) as [n|].
  - left. destruct Hf as (nd & Hn & <-). exists n, nd. split_and!; [done|done|]. by apply view_cached.
  - right. split; [done|]. by apply view_uncached.
Qed.

(** Nodes that keep their value, that leave the cache with the value on the
    volume and that enter the cache with it do not change what clients see. *)
Lemma view_same s s' id :
  cache_inv s -> cache_inv s' -> volume s' !! id = volume s !! id ->
  (forall n nd, heap (fs s) !! n = Some nd -> inid nd = id ->
    (heap (fs s') !! n = None /\ value s n nd = volume s !! id) \/
    exists nd', heap (fs s') !! n = Some nd' /\ inid nd' = id /\ value s' n nd' = value s n nd) ->
  (forall n nd', heap (fs s') !! n = Some nd' -> inid nd' = id ->
    (exists nd, heap (fs s) !! n = Some nd /\ inid nd = id) \/ value s' n nd' = volume s !! id) ->
  view s' id = view s id.
Proof.
  intros Hi Hi' Hv H1 H2.
  destruct (view_cases s id Hi) as [(n & nd & Hn & Hid & ->)|[Hno ->]];
    destruct (view_cases s' id Hi') as [(m & x & Hm & Hix & ->)|[Hno' ->]].
  - destruct (H1 n nd Hn Hid) as [[Hn' ->]|(nd' & Hn' & Hid' & <-)].
    + destruct (H2 m x Hm Hix) as [(y & Hy & Hiy)| ->]; [|done].
      rewrite (ti_unique _ _ _ (ci_table _ Hi) n m nd y) in Hn' by congruence. congruence.
    + assert (n = m) as -> by (apply (ti_unique _ _ _ (ci_table _ Hi') n m nd' x); congruence). congruence.
  - destruct (H1 n nd Hn Hid) as [[Hn' ->]|(nd' & Hn' & Hid' & <-)]; [done|]. by destruct (Hno' n nd').
  - destruct (H2 m x Hm Hix) as [(y & Hy & Hiy)| ->]; [|done]. by destruct (Hno m y).
  - done.
Qed.

(** The sequential store: a map from ids to contents. *)
Definition apply_event (ev : event) (m : gmap Z (Z * Z)) : gmap Z (Z * Z) :=
  match ev with
  | Tau | EvAcquire _ _ => m
  | EvModify id c | EvCreate id c => <[id := c]> m
  | EvDelete id => delete id m
  end.

Definition replay (v : gmap Z (Z * Z)) (evs : list event) : gmap Z (Z * Z) := foldr apply_event v evs.

(** An acquisition gives the current content, a modification is one of an
    existing inode, a new inode gets an unused id, and only inodes without links
    are deleted. *)
Definition event_legal (ev : event) (m : Z -> option (Z * Z)) (s' : sys) : Prop :=
  match ev with
  | Tau => True
  | EvAcquire id n => n ∈ held s' /\ exists nd, heap (fs s') !! n = Some nd /\ inid nd = id /\
      m id = Some (linkCount nd, attr nd)
  | EvModify id _ => is_Some (m id)
  | EvCreate id _ => m id = None
  | EvDelete id => exists a, m id = Some (0, a)
  end.

Definition content_of (nd : inode) : Z * istate * Z * Z := (inid nd, istat nd, linkCount nd, attr nd).

Lemma value_ext s s' n nd nd' :
  content_of nd' = content_of nd -> (TExit n ∈ tasks s' <-> TExit n ∈ tasks s) ->
  volume s' !! inid nd = volume s !! inid nd -> value s' n nd' = value s n nd.
Proof.
  intros [= Hid Hst Hlc Hat] Ht Hv. unfold value, gone. rewrite Hst, Hid, Hlc, Hat, Hv.
  by rewrite (bool_decide_ext _ _ Ht).
Qed.

(** Steps that change use counts only. *)
Lemma view_keep s s' :
  cache_inv s -> cache_inv s' -> volume s' = volume s ->
  (forall n, content_of <$> heap (fs s') !! n = content_of <$> heap (fs s) !! n) ->
  (forall n, TExit n ∈ tasks s' <-> TExit n ∈ tasks s) -> forall id, view s' id = view s id.
Proof.
  intros Hi Hi' Hv Hh Ht id. apply view_same; [done|done|by rewrite Hv|..]; intros n nd Hn Hid; specialize (Hh n);
    rewrite Hn in Hh; [|symmetry in Hh]; apply fmap_Some in Hh as (x & Hx & Hc).
  - right. exists x. split_and!; [done|injection Hc; congruence|]. apply value_ext; [done|done|by rewrite Hv].
  - left. exists x. split; [done|]. injection Hc. congruence.
Qed.

Lemma content_insert (h : gmap nat inode) n nd nd' m :
  h !! n = Some nd -> content_of nd' = content_of nd ->
  content_of <$> <[n := nd']> h !! m = content_of <$> h !! m.
Proof. intros Hn Hc. rewrite lookup_insert. case_decide; [subst; rewrite Hn; simpl; by rewrite Hc|done]. Qed.

Lemma content_add_use n f m : content_of <$> heap (add_use n f) !! m = content_of <$> heap f !! m.
Proof.
  simpl. rewrite lookup_alter. case_decide; [|done]. subst. by destruct (heap f !! m).
Qed.

Lemma content_retry alloc id f m :
  content_of <$> heap (acquire_retry alloc id f).2 !! m = content_of <$> heap f !! m.
Proof.
  unfold acquire_retry, PrepReadingNode. destruct (cached_node f id) as [n|].
  - case_decide; [done|]. apply content_add_use.
  - case_decide; [done|]. destruct (0 <? inReadingCacheCount f); [done|]. by destruct alloc.
Qed.

Lemma after_acquire_keeps id o ts s :
  fs (after_acquire id o ts s) = o.2 /\ volume (after_acquire id o ts s) = volume s /\
  lost (after_acquire id o ts s) = lost s /\ forall n, TExit n ∈ tasks (after_acquire id o ts s) <-> TExit n ∈ ts.
Proof.
  unfold after_acquire. destruct o as [[e ip [|]| |] f]; simpl; split_and!; try done; intros n;
    rewrite ?exit_wake, ?elem_of_cons; try done; (split; [by intros [?|?]|auto]).
Qed.

(** What clients see after an event. *)
Definition view_after (ev : event) (vw : Z -> option (Z * Z)) (x : Z) : option (Z * Z) :=
  match ev with
  | Tau | EvAcquire _ _ => vw x
  | EvModify id c | EvCreate id c => if decide (x = id) then Some c else vw x
  | EvDelete id => if decide (x = id) then None else vw x
  end.

Definition simulates (s : sys) (ev : event) (s' : sys) : Prop :=
  (forall x, view s' x = view_after ev (view s) x) /\ event_legal ev (view s) s'.

Lemma acquire_event_view id o vw x : view_after (acquire_event id o) vw x = vw x.
Proof. by destruct o as [[] []| |]. Qed.

(** A search of the cache for an acquisition. *)
Lemma retry_view alloc id f ts s :
  let s' := after_acquire id (acquire_retry alloc id f) ts s in
  let ev := acquire_event id (acquire_retry alloc id f).1 in
  cache_inv s -> cache_inv s' -> heap f = heap (fs s) ->
  inCached f = inCached (fs s) -> (forall n, TExit n ∈ tasks s <-> TExit n ∈ ts) ->
  simulates s ev s'.
Proof.
  intros s' ev Hi Hi' Hf Hc Ht.
  destruct (after_acquire_keeps id (acquire_retry alloc id f) ts s) as (K1 & K2 & K3 & K4).
  split.
  - intros x. unfold ev. rewrite acquire_event_view. revert x.
    apply view_keep; [done|done|done|..]; intros n; [|unfold s'; by rewrite K4, Ht].
    unfold s'. rewrite K1, content_retry. by rewrite Hf.
  - subst ev s'. unfold acquire_retry, cached_node. rewrite Hf, Hc.
    pose proof (table_find _ _ _ (ci_table _ Hi) id) as Hfind. destruct (find_node _ _ _) as [n|].
    + destruct Hfind as (nd & Hn & Hid). rewrite Hn. case_decide as Hd; [done|]. simpl in *.
      split; [left|]. exists (set_useCount (useCount nd + 1) nd). rewrite Hf, lookup_alter, decide_True, Hn by done.
      split_and!; [done|done|]. rewrite <- Hid, (view_cached s n nd) by done. simpl. unfold value, gone.
      rewrite bool_decide_false; [done|]. intros Hnd. apply Hd. by rewrite Hnd.
    + case_decide; [done|]. unfold PrepReadingNode. destruct (0 <? _); [done|]. by destruct alloc.
Qed.

Lemma finish_view id r f ts s :
  let s' := after_acquire id (acquire_finish id r f) ts s in
  cache_inv s -> cache_inv s' -> fs s = f -> tasks s ≡ₚ TReading id :: ts ->
  match r with
  | inl e => e <> EOK
  | inr (n, nd) => heap f !! n = None /\ inid nd = id /\ volume s !! id = Some (linkCount nd, attr nd)
  end ->
  simulates s (acquire_event id (acquire_finish id r f).1) s'.
Proof.
  intros s' Hi Hi' Hf Ht Hr. destruct (after_acquire_keeps id (acquire_finish id r f) ts s) as (K1 & K2 & K3 & K4).
  assert (Hx : forall n, TExit n ∈ tasks s' <-> TExit n ∈ tasks s).
  { intros n. unfold s'. rewrite K4, Ht, elem_of_cons. split; [auto|by intros [?|?]]. }
  assert (Hno : not_cached id (heap f)) by (subst f; apply (ci_excl _ Hi); rewrite Ht; left).
  destruct r as [e|[n nd]].
  - assert (Hev : acquire_event id (acquire_finish id (inl e) f).1 = Tau) by (simpl; by destruct e).
    rewrite Hev. split; [|done]. apply view_keep; try done. unfold s'. rewrite K1. by subst.
  - destruct Hr as (Hn & Hid & Hv).
    set (nd' := set_useCount (useCount nd + 1) (set_istat kInodeState_Cached nd)).
    assert (Hh : heap (fs s') = <[n := nd']> (heap f)).
    { unfold s'. rewrite K1. simpl. rewrite (alter_as_insert _ n (set_istat kInodeState_Cached nd))
        by (apply lookup_insert_eq). apply insert_insert_eq. }
    split.
    + intros x. apply view_same; [done|done|unfold s'; by rewrite K2|..]; intros m y; rewrite Hh, lookup_insert.
      * intros Hy Hix. right. subst f. rewrite Hy. case_decide; [congruence|]. exists y. split_and!; [done|done|].
        by apply value_ext.
      * case_decide; [|subst f; eauto]. intros [= <-] Hix. right. unfold value, gone. simpl in *.
        unfold s'. congruence.
    + split; [left|]. exists nd'. rewrite Hh, lookup_insert_eq. split_and!; [done|done|].
      rewrite view_uncached; [done|done|by subst f].
Qed.

(** A node loses a reference; if it was the last one, the volume has its content. *)
Lemma drop_view s s' n nd :
  cache_inv s -> cache_inv s' -> heap (fs s) !! n = Some nd -> 0 < useCount nd ->
  relinquish_drop n (fs s) = Some (fs s') -> volume s' = volume s ->
  (forall m, m <> n -> TExit m ∈ tasks s' <-> TExit m ∈ tasks s) ->
  (istat nd <> kInodeState_Deleting \/ useCount nd = 1) ->
  (useCount nd = 1 -> value s n nd = volume s !! inid nd) -> simulates s Tau s'.
Proof.
  intros Hi Hi' Hn Hu Hd Hv Ht Hdel Hlast. split; [|done]. intros x.
  destruct (drop_spec n nd (fs s) Hn Hu) as (f' & Hf' & Hh & _). rewrite Hd in Hf'. injection Hf' as <-.
  apply view_same; [done|done|by rewrite Hv|..]; intros m y.
  - intros Hy Hix. rewrite Hh. destruct (decide (m = n)) as [->|Hm].
    + rewrite Hn in Hy. injection Hy as <-. destruct (Z.eqb_spec (useCount nd - 1) 0) as [E|E].
      * left. rewrite lookup_delete_eq. split; [done|]. subst x. apply Hlast. lia.
      * right. rewrite lookup_insert_eq. eexists. split_and!; [done|done|]. unfold value, gone. simpl.
        rewrite bool_decide_false; [done|]. intros ?. destruct Hdel; [done|lia].
    + right. exists y. split_and!; [|done|apply value_ext; auto; by rewrite Hv].
      destruct (_ =? 0); [by rewrite lookup_delete_ne|by rewrite lookup_insert_ne].
  - rewrite Hh. intros Hy%drop_heap; [|done]. intros Hix. left. case_decide; [|eauto].
    destruct Hy as [-> _]. subst. eauto.
Qed.

(** An unmodified node has the content of the volume. *)
Lemma value_clean s n nd :
  cache_inv s -> lost s = false -> heap (fs s) !! n = Some nd -> modified nd = false ->
  value s n nd = volume s !! inid nd.
Proof.
  intros Hi Hl Hn Hm. unfold value. destruct (gone n nd (tasks s)) eqn:E; [done|].
  destruct (vi_same _ _ _ (ci_volume _ Hi Hl) n nd Hn E) as (c & -> & Hc). by rewrite Hc.
Qed.

Lemma relinquish_view s n hs wb f' :
  let s' := Sys f' (if wb : bool then TWriteback n :: tasks s else tasks s) hs (volume s) (lost s) in
  cache_inv s -> cache_inv s' -> lost s = false -> held s ≡ₚ n :: hs ->
  Filesystem_RelinquishNode n (fs s) = Some (wb, f') -> simulates s Tau s'.
Proof.
  intros s' Hi Hi' Hl Hh Hr. destruct (held_alive _ _ _ (ci_refs _ Hi) n) as (nd & Hn & Hd); [rewrite Hh; left|].
  destruct (fi_use _ _ _ (ci_refs _ Hi) n nd Hn) as [Hu Hpos].
  unfold Filesystem_RelinquishNode in Hr. rewrite Hn in Hr. cbn -[relinquish_drop] in Hr.
  set (nd' := if linkCount nd =? 0 then _ else _) in Hr. destruct ((useCount nd =? 1) && _) eqn:E.
  - injection Hr as <- <-. split; [|done]. intros x.
    assert (Hx : forall m, TExit m ∈ tasks s' <-> TExit m ∈ tasks s).
    { intros m. subst s'. simpl. rewrite elem_of_cons. split; [by intros [?|?]|auto]. }
    assert (Hid : inid nd' = inid nd /\ linkCount nd' = linkCount nd /\ attr nd' = attr nd)
      by (subst nd'; by destruct (linkCount nd =? 0), (modified nd)).
    assert (Hnx : TExit n ∉ tasks s).
    { intros Hnx. apply andb_true_iff in E as [E%Z.eqb_eq _].
      assert (0 < count (relinquishes n) (tasks s)) by (apply count_relinquishes; auto).
      assert (0 < client_refs n (held s)) by (apply count_held; rewrite Hh; left). unfold refs in *. lia. }
    apply view_same; [done|done|done|..]; intros m y; simpl; rewrite lookup_insert; destruct (decide (n = m)) as [Hm|Hm].
    + subst m. intros Hy Hix. right. exists nd'. destruct Hid as (Hid & Hlc & Hat). simplify_eq.
      split_and!; [done|congruence|]. unfold value, gone. rewrite !(bool_decide_false (TExit n ∈ _)) by (rewrite ?Hx; done).
      rewrite !andb_false_r. congruence.
    + intros Hy Hix. right. exists y. split_and!; [done|done|]. by apply value_ext.
    + intros [= <-] Hix. left. exists nd. subst. split; [done|]. destruct Hid. congruence.
    + eauto.
  - apply bind_Some in Hr as (f1 & Hdrop & [= <- <-]). apply (drop_view s s' n nd); try done; [lia|by left|].
    intros H1. apply value_clean; [done|done|done|]. subst nd'. rewrite H1 in E.
    destruct (linkCount nd =? 0), (modified nd); simpl in E; done.
Qed.

Lemma exit_view s n ts f' :
  let s' := Sys f' ts (held s) (volume s) (lost s) in
  cache_inv s -> cache_inv s' -> lost s = false -> tasks s ≡ₚ TExit n :: ts ->
  relinquish_drop n (fs s) = Some f' -> simulates s Tau s'.
Proof.
  intros s' Hi Hi' Hl Ht Hd. assert (Hin : TExit n ∈ tasks s) by (rewrite Ht; left).
  assert (Hc : 0 < count (relinquishes n) (tasks s)) by (apply count_relinquishes; auto).
  destruct (relinquished_alive _ _ _ (ci_refs _ Hi) n Hc) as [nd Hn].
  destruct (fi_use _ _ _ (ci_refs _ Hi) n nd Hn) as [Hu Hpos].
  apply (drop_view s s' n nd); try done; [lia| | |].
  - intros m Hm. rewrite Ht, elem_of_cons. split; [auto|]. intros [?|?]; [congruence|done].
  - destruct (decide (istat nd = kInodeState_Deleting)) as [Hdel|]; [right|by left].
    destruct (fi_deleting _ _ _ (ci_refs _ Hi) n nd Hn Hdel). pose proof (fi_single _ _ _ (ci_refs _ Hi) n).
    unfold refs in *. lia.
  - intros _. apply value_clean; [done|done|done|]. by apply (vi_written _ _ _ (ci_volume _ Hi Hl) n nd).
Qed.

Lemma writeback_view s n ts nd :
  let s' := Sys (relinquish_writeback n (fs s)) (TExit n :: ts) (held s) (write_volume nd (volume s)) (lost s) in
  cache_inv s -> cache_inv s' -> isReadOnly (fs s) = false -> tasks s ≡ₚ TWriteback n :: ts ->
  heap (fs s) !! n = Some nd -> simulates s (deletes nd) s'.
Proof.
  intros s' Hi Hi' Hro Ht Hn.
  assert (Hnx : TExit n ∉ tasks s).
  { intros Hx. pose proof (fi_single _ _ _ (ci_refs _ Hi) n) as Hs. rewrite (count_perm _ _ _ Ht) in Hs.
    rewrite Ht in Hx. apply elem_of_cons in Hx as [?|Hx]; [done|]. simpl in Hs. rewrite bool_decide_true in Hs by done.
    assert (0 < count (relinquishes n) ts) by (apply count_relinquishes; auto). lia. }
  set (nd' := set_content (linkCount nd) (attr nd) false nd).
  assert (Hh : heap (fs s') = <[n := nd']> (heap (fs s))).
  { simpl. unfold relinquish_writeback. rewrite Hro. simpl. by rewrite (alter_as_insert _ _ _ _ Hn). }
  assert (Hown : view s (inid nd) = Some (linkCount nd, attr nd)).
  { rewrite (view_cached s n nd) by done. unfold value, gone.
    by rewrite (bool_decide_false (TExit n ∈ _)), andb_false_r by done. }
  assert (Hown' : view s' (inid nd) = if decide (istat nd = kInodeState_Deleting) then None
    else Some (linkCount nd, attr nd)).
  { change (inid nd) with (inid nd'). rewrite (view_cached s' n nd') by (done || by rewrite Hh, lookup_insert_eq).
    unfold value, gone. simpl. rewrite (bool_decide_true (TExit n ∈ _)) by left. rewrite andb_true_r.
    unfold write_volume. case_decide; [rewrite bool_decide_true by done; apply lookup_delete_eq|].
    by rewrite bool_decide_false. }
  assert (Hother : forall x, x <> inid nd -> view s' x = view s x).
  { intros x Hx. apply view_same; [done|done|simpl; by apply write_volume_other|..]; intros m y; rewrite Hh, lookup_insert;
      destruct (decide (n = m)) as [Hm|Hm]; [subst m; intros; congruence| |intros [= <-]; simpl; congruence|eauto].
    intros Hy Hix. right. exists y. split_and!; [done|done|]. apply value_ext; [done| |].
    - simpl. rewrite Ht, !elem_of_cons. split; intros [?|?]; auto; congruence.
    - simpl. rewrite Hix. by apply write_volume_other. }
  unfold deletes. case_decide as Hd; (split; [intros x; simpl|]).
  - case_decide; [by subst|auto].
  - exists (attr nd). rewrite Hown. destruct (fi_deleting _ _ _ (ci_refs _ Hi) n nd Hn Hd) as [_ ->]. done.
  - destruct (decide (x = inid nd)) as [->|]; [congruence|auto].
  - done.
Qed.

Lemma modify_view s n nd lc at' :
  let s' := with_fs (set_heap (<[n := set_content lc at' true nd]> (heap (fs s))) (fs s)) s in
  cache_inv s -> cache_inv s' -> heap (fs s) !! n = Some nd -> TExit n ∉ tasks s ->
  simulates s (EvModify (inid nd) (lc, at')) s'.
Proof.
  intros s' Hi Hi' Hn Hx.
  assert (Hval : forall t y, tasks t = tasks s -> value t n y = Some (linkCount y, attr y)).
  { intros t y Ht. unfold value, gone. by rewrite Ht, (bool_decide_false (TExit n ∈ _)), andb_false_r. }
  split; simpl; [|rewrite (view_cached s n nd), Hval by done; eauto].
  intros x. case_decide as Hid.
  - subst x. change (inid nd) with (inid (set_content lc at' true nd)).
    rewrite (view_cached s' n (set_content lc at' true nd)); [by rewrite Hval|done|]. apply lookup_insert_eq.
  - apply view_same; [done|done|done|..]; intros m y; simpl; rewrite lookup_insert;
      destruct (decide (n = m)) as [Hm|Hm]; [subst; intros; congruence| |intros [= <-]; simpl; congruence|eauto].
    intros Hy Hix. right. exists y. split_and!; [done|done|]. by apply value_ext.
Qed.

Lemma create_view s id c :
  let s' := Sys (fs s) (tasks s) (held s) (<[id := c]> (volume s)) (lost s) in
  cache_inv s -> cache_inv s' -> lost s = false -> volume s !! id = None -> simulates s (EvCreate id c) s'.
Proof.
  intros s' Hi Hi' Hl Hid.
  assert (Hgone : forall n nd, heap (fs s) !! n = Some nd -> inid nd = id -> gone n nd (tasks s) = true).
  { intros n nd Hn Hnd. destruct (gone n nd (tasks s)) eqn:E; [done|].
    destruct (vi_same _ _ _ (ci_volume _ Hi Hl) n nd Hn E) as (c' & Hc & _). congruence. }
  split; simpl.
  - intros x. case_decide as Hx.
    + subst x. destruct (view_cases s' id Hi') as [(n & nd & Hn & Hnd & ->)|[_ ->]].
      * unfold value. simpl. rewrite (Hgone n nd Hn Hnd), Hnd. apply lookup_insert_eq.
      * apply lookup_insert_eq.
    + apply view_same; [done|done|by apply lookup_insert_ne|..]; intros n y Hy Hix; [|eauto].
      right. exists y. split_and!; [done|done|]. apply value_ext; [done|done|]. apply lookup_insert_ne. congruence.
  - destruct (view_cases s id Hi) as [(n & nd & Hn & Hnd & ->)|[_ ->]]; [|done].
    unfold value. by rewrite (Hgone n nd Hn Hnd), Hnd.
Qed.

Lemma view_with_fs s f :
  cache_inv s -> cache_inv (with_fs f s) -> heap f = heap (fs s) -> simulates s Tau (with_fs f s).
Proof. intros Hi Hi' Hh. split; [|done]. apply view_keep; try done. intros n. simpl. by rewrite Hh. Qed.

Lemma step_simulates s ev s' : step s ev s' -> cache_inv s -> lost s' = false -> lost s = false /\ simulates s ev s'.
Proof.
  intros Hs Hi Hl. assert (Hi' := step_inv _ _ _ Hs Hi). destruct Hs as [Hs|Hs]; destruct Hs; simpl in Hl.
  - split; [done|]. apply view_with_fs; [done|done|]. unfold Filesystem_Start.
    destruct (fsstate (fs s)), r as [|[]]; done.
  - split; [done|]. apply view_with_fs; [done|done|]. unfold Filesystem_Stop.
    case_decide; [|done]. by destruct (_ && _).
  - subst o. rewrite (proj1 (proj2 (proj2 (after_acquire_keeps _ _ _ _)))) in Hl. split; [done|].
    unfold Filesystem_AcquireNodeWithId in *. case_decide; [|by apply (view_with_fs s (fs s))].
    by apply retry_view.
  - split; [done|]. split; [|done]. apply view_keep; try done. intros m. apply content_add_use.
  - split; [done|]. by apply modify_view.
  - split; [done|]. by apply create_view.
  - split; [done|]. by apply (relinquish_view s n).
  - subst o. rewrite (proj1 (proj2 (proj2 (after_acquire_keeps _ _ _ _)))) in Hl. split; [done|].
    by apply finish_view.
  - subst o. rewrite (proj1 (proj2 (proj2 (after_acquire_keeps _ _ _ _)))) in Hl. split; [done|].
    replace Tau with (acquire_event id (acquire_finish id (inl e) (fs s)).1) by (simpl; by destruct e).
    by apply finish_view.
  - subst o. rewrite (proj1 (proj2 (proj2 (after_acquire_keeps _ _ _ _)))) in Hl. split; [done|].
    apply retry_view; try done. intros n. rewrite H, elem_of_cons. split; [by intros [?|?]|auto].
  - split; [done|]. by apply writeback_view.
  - done.
  - split; [done|]. by apply (exit_view s n).
Qed.

Lemma boot_view v id : view (boot v) id = v !! id.
Proof. rewrite view_uncached; [done|apply boot_inv|]. intros n nd. simpl. by rewrite lookup_empty. Qed.

Lemma view_after_apply ev m vw x :
  (forall y, vw y = m !! y) -> view_after ev vw x = apply_event ev m !! x.
Proof.
  intros Hm. destruct ev; simpl; rewrite ?lookup_insert, ?lookup_delete; auto; repeat case_decide; subst; congruence || done.
Qed.

Lemma run_view v evs s : run v evs s -> lost s = false -> forall id, view s id = replay v evs !! id.
Proof.
  induction 1 as [|evs s ev s' Hrun IH Hs]; intros Hl id; [apply boot_view|].
  destruct (step_simulates s ev s' Hs (run_inv _ _ _ Hrun) Hl) as [Hl' [Hsim _]].
  rewrite Hsim. by apply view_after_apply, IH.
Qed.

(** ** Completion of calls *)

(** The work that is left to a call; a waiter has to be woken first. *)
Definition work (t : task) : Z :=
  match t with TReading _ | TExit _ => 1 | TWoken _ | TWriteback _ => 2 | TWaiting _ => 3 end.
Definition total_work (ts : list task) : Z := foldr (fun t k => work t + k) 0 ts.

Lemma total_work_perm ts ts' : ts ≡ₚ ts' -> total_work ts = total_work ts'.
Proof. induction 1; simpl; lia. Qed.

Lemma total_work_wake ts (b : bool) : 0 <= total_work (if b then wake <$> ts else ts) <= total_work ts.
Proof.
  assert (H : 0 <= total_work ts) by (induction ts as [|[] ts IH]; simpl; lia).
  destruct b; [|lia]. clear H. unfold total_work. induction ts as [|[] ts IH]; cbn in *; lia.
Qed.

(** A step of a call that is in flight and that gets it closer to its end. *)
Definition advances (s s' : sys) : Prop :=
  (exists ev, kernel_step s ev s') /\ 0 <= total_work (tasks s') < total_work (tasks s) /\
  isReadOnly (fs s') = isReadOnly (fs s) /\ (isReadOnly (fs s) = false -> lost s' = lost s).

Lemma reader_advances s id : cache_inv s -> TReading id ∈ tasks s -> exists s', advances s s'.
Proof.
  intros Hi Hin. apply elem_of_Permutation in Hin as [ts Ht].
  assert (Hw : forall b : bool, 0 <= total_work (if b then wake <$> ts else ts) < total_work (tasks s)).
  { intros b. rewrite (total_work_perm _ _ Ht). simpl. pose proof (total_work_wake ts b). lia. }
  destruct (volume s !! id) as [[lc at']|] eqn:E.
  - set (n := fresh (dom (heap (fs s)))). assert (Hn : heap (fs s) !! n = None).
    { apply not_elem_of_dom. apply is_fresh. }
    eexists. split; [eexists; by eapply (ks_read_ok s id ts lc at' n)|]. split_and!; try done; apply Hw.
  - eexists. split; [eexists; by eapply (ks_read_err s id ts EIO)|]. split_and!; try done; apply Hw.
Qed.

Lemma woken_advances s id :
  cache_inv s -> (forall x, TReading x ∉ tasks s) -> TWoken id ∈ tasks s -> exists s', advances s s'.
Proof.
  intros Hi Hno Hin. apply elem_of_Permutation in Hin as [ts Ht].
  eexists. split; [eexists; by eapply (ks_woken s true id ts)|]. rewrite (total_work_perm _ _ Ht).
  unfold acquire_woken, acquire_retry, after_acquire. simpl.
  pose proof (total_work_wake ts true) as Hw. simpl in Hw.
  destruct (cached_node _ id) as [n|].
  - case_decide; simpl; split_and!; try done; lia.
  - rewrite decide_False; simpl.
    + unfold PrepReadingNode. destruct (0 <? _); simpl; split_and!; try done; lia.
    + intros Hid. apply (ri_chain _ _ _ _ _ (ci_reading _ Hi)) in Hid as [Hid _]. by apply (Hno id).
Qed.

Lemma relinquish_advances s n :
  cache_inv s -> TWriteback n ∈ tasks s \/ TExit n ∈ tasks s -> exists s', advances s s'.
Proof.
  intros Hi Hin. destruct (relinquished_alive _ _ _ (ci_refs _ Hi) n) as [nd Hn]; [by apply count_relinquishes|].
  destruct (fi_use _ _ _ (ci_refs _ Hi) n nd Hn) as [Hu Hpos].
  destruct Hin as [Hin|Hin]; apply elem_of_Permutation in Hin as [ts Ht];
    pose proof (total_work_wake ts false) as Hw; simpl in Hw; unfold advances; rewrite (total_work_perm _ _ Ht); simpl.
  - destruct (isReadOnly (fs s)) eqn:E.
    + eexists. split; [eexists; by eapply (ks_writeback_fails s n ts)|]. unfold relinquish_writeback. rewrite E. simpl.
      split_and!; [lia|lia|done|done].
    + eexists. split; [eexists; by eapply (ks_writeback s n ts nd)|]. unfold relinquish_writeback. rewrite E. simpl.
      split_and!; [lia|lia|done|done].
  - destruct (drop_spec n nd (fs s) Hn) as (f' & Hf' & _); [lia|].
    eexists. split; [eexists; by eapply (ks_exit s n ts f')|]. simpl. split_and!; [lia|lia| |done].
    unfold relinquish_drop in Hf'. rewrite Hn in Hf'. simpl in Hf'.
    destruct (_ <=? 0); [done|]. by destruct (_ =? 0); injection Hf' as <-.
Qed.

Lemma calls_advance s : cache_inv s -> tasks s <> [] -> exists s', advances s s'.
Proof.
  intros Hi Hne. destruct (decide (Exists (fun t => is_reading t = true) (tasks s))) as [Hr|Hr].
  - apply Exists_exists in Hr as ([id| | | |] & Hin & Hr); try done. by apply (reader_advances s id).
  - assert (Hno : forall x, TReading x ∉ tasks s).
    { intros x Hx. apply Hr, Exists_exists. by exists (TReading x). }
    destruct (tasks s) as [|t ts] eqn:E; [done|]. assert (Hin : t ∈ tasks s) by (rewrite E; left). rewrite <- E in Hno.
    destruct t as [id|id|id|n|n].
    + by destruct (Hno id).
    + destruct (Hno id). by apply (ri_reader _ _ _ _ _ (ci_reading _ Hi)).
    + by apply (woken_advances s id).
    + apply (relinquish_advances s n); auto.
    + apply (relinquish_advances s n); auto.
Qed.

Lemma calls_drain s : cache_inv s ->
  exists s', rtc (fun a b => exists ev, kernel_step a ev b) s s' /\ tasks s' = [] /\
    (isReadOnly (fs s) = false -> lost s' = lost s).
Proof.
  remember (Z.to_nat (total_work (tasks s))) as k eqn:Hk. revert s Hk.
  induction (lt_wf k) as [k _ IH]; intros s Hk Hi. destruct (decide (tasks s = [])) as [?|Hne].
  { exists s. by split. }
  destruct (calls_advance s Hi Hne) as (s1 & [ev Hs] & Hw & Hro & Hl).
  destruct (IH (Z.to_nat (total_work (tasks s1)))) with (s := s1) as (s2 & Hr & Ht & Hl2); [lia|done| |].
  { by apply (step_inv s ev); [right|]. }
  exists s2. split_and!; [eapply rtc_l; eauto|done|]. intros E. rewrite Hl2, Hl; congruence.
Qed.

(** ** Theorems *)

(** A volume with one inode; the filesystem is started and inode 7 is acquired. *)
Definition one_inode_volume : gmap Z (Z * Z) := {[7 := (1, 42)]}.
Definition demo_started : sys := with_fs (Filesystem_Start (inr (7, false)) Filesystem_Create).2 (boot one_inode_volume).
Definition demo_reading : sys :=
  after_acquire 7 (Filesystem_AcquireNodeWithId true 7 (fs demo_started)) [] demo_started.
Definition demo_acquired : sys :=
  after_acquire 7 (acquire_finish 7 (inr (0%nat, Ino 7 0 kInodeState_Reading 1 42 false)) (fs demo_reading)) [] demo_reading.

Lemma demo_reading_run : run one_inode_volume [Tau; Tau] demo_reading.
Proof.
  apply (run_step _ [Tau] demo_started); [apply (run_step _ [] (boot one_inode_volume)); [constructor|]|].
  - left. apply (cs_start (boot one_inode_volume) (inr (7, false))).
  - left. by apply (cs_acquire demo_started true 7 (Filesystem_AcquireNodeWithId true 7 (fs demo_started))).
Qed.

Lemma demo_acquired_run : run one_inode_volume [EvAcquire 7 0; Tau; Tau] demo_acquired.
Proof.
  apply (run_step _ _ demo_reading); [apply demo_reading_run|]. right.
  apply (ks_read_ok demo_reading 7 [] 1 42 0
    (acquire_finish 7 (inr (0%nat, Ino 7 0 kInodeState_Reading 1 42 false)) (fs demo_reading))); done.
Qed.

(** C22. Whatever the interleaving of calls, every inode in memory is referred to
    and its use count is the number of references, a reference never outlives
    its inode, the hash table finds exactly the inodes in memory and has one per
    id, relinquishing never hits the abort on the use count, taking the inode lock
    with the last reference never blocks, and a filesystem that can be destroyed
    has no inode in memory and no read in progress. *)
Theorem inode_cache_safe v evs s :
  run v evs s ->
  (forall n nd, heap (fs s) !! n = Some nd ->
    useCount nd = refs n (tasks s) (held s) /\ 0 < refs n (tasks s) (held s)) /\
  (forall n, n ∈ held s -> is_Some (heap (fs s) !! n) /\ is_Some (Filesystem_RelinquishNode n (fs s))) /\
  (forall n, TExit n ∈ tasks s -> is_Some (relinquish_drop n (fs s))) /\
  (forall id n, cached_node (fs s) id = Some n <-> exists nd, heap (fs s) !! n = Some nd /\ inid nd = id) /\
  (forall n nd, n ∈ held s -> heap (fs s) !! n = Some nd -> useCount nd = 1 ->
    TWriteback n ∉ tasks s /\ TExit n ∉ tasks s) /\
  (Filesystem_CanDestroy (fs s) = true -> heap (fs s) = ∅ /\ forall id, TReading id ∉ tasks s).
Proof.
  intros Hi%run_inv. pose proof (ci_refs _ Hi) as Hf.
  assert (Hdrop : forall n nd, heap (fs s) !! n = Some nd -> is_Some (relinquish_drop n (fs s))).
  { intros n nd Hn. destruct (fi_use _ _ _ Hf n nd Hn). destruct (drop_spec n nd (fs s) Hn) as (f' & -> & _); [lia|]. eauto. }
  split_and!.
  - apply (fi_use _ _ _ Hf).
  - intros n Hn. destruct (held_alive _ _ _ Hf n Hn) as (nd & Hnd & _). split; [eauto|].
    unfold Filesystem_RelinquishNode. rewrite Hnd. cbn -[relinquish_drop]. destruct (_ && _); [eauto|].
    destruct (Hdrop n nd Hnd) as [f' ->]. simpl. eauto.
  - intros n Hn. destruct (relinquished_alive _ _ _ Hf n) as [nd Hnd]; [apply count_relinquishes; auto|eauto].
  - intros id n. unfold cached_node. pose proof (table_find _ _ _ (ci_table _ Hi) id) as Hfind.
    destruct (find_node _ _ _) as [m|].
    + destruct Hfind as (x & Hx & Hid). split; [by intros [= <-]; eauto|]. intros (y & Hy & Hiy). f_equal.
      apply (ti_unique _ _ _ (ci_table _ Hi) m n x y); congruence.
    + split; [done|]. intros (y & Hy & Hiy). by destruct (Hfind n y).
  - intros n nd Hn Hnd Hu. destruct (fi_use _ _ _ Hf n nd Hnd) as [Hr _]. apply count_held in Hn. unfold refs in Hr.
    assert (~ 0 < count (relinquishes n) (tasks s)) as Hc by lia. rewrite count_relinquishes in Hc. tauto.
  - unfold Filesystem_CanDestroy. case_decide; [done|].
    intros [Hc%Z.ltb_ge Hr%Z.ltb_ge]%negb_true_iff%orb_false_iff.
    rewrite (ti_count _ _ _ (ci_table _ Hi)) in Hc. rewrite (ri_count _ _ _ _ _ (ci_reading _ Hi)) in Hr. split.
    + apply map_size_empty_inv. lia.
    + intros id Hid. assert (0 < count is_reading (tasks s)); [|lia]. apply count_pos. by exists (TReading id).
Qed.

Lemma inode_cache_safe_witness :
  run one_inode_volume [EvAcquire 7 0; Tau; Tau] demo_acquired /\ is_Some (heap (fs demo_acquired) !! 0%nat) /\
  is_Some (Filesystem_RelinquishNode 0 (fs demo_acquired)).
Proof.
  split; [apply demo_acquired_run|].
  destruct (inode_cache_safe one_inode_volume _ demo_acquired demo_acquired_run) as (_ & Hh & _). apply Hh. vm_compute. left.
Defined.

(** C3. The cache is transparent: as long as no write back failed, the inodes
    that clients see are those of a plain map to which their modifications,
    creations and deletions were applied one after the other, whatever the
    interleaving of reads, write backs and other calls; an acquired inode has
    the current content, an inode is only created under an unused id, and only
    inodes without links are deleted. *)
Theorem inode_cache_refines_store v evs s ev s' :
  run v evs s -> step s ev s' -> lost s' = false ->
  (forall id, view s' id = replay v (ev :: evs) !! id) /\ event_legal ev (fun id => replay v evs !! id) s'.
Proof.
  intros Hr Hs Hl. destruct (step_simulates s ev s' Hs (run_inv _ _ _ Hr) Hl) as [Hl' [_ Hlegal]]. split.
  - by apply run_view; [apply (run_step _ _ s)|].
  - pose proof (run_view _ _ _ Hr Hl') as Hv. destruct ev; simpl in *; rewrite <- ?Hv; auto.
Qed.

Lemma inode_cache_refines_store_witness :
  lost demo_acquired = false /\ view demo_acquired 7 = Some (1, 42).
Proof.
  split; [reflexivity|].
  destruct (inode_cache_refines_store one_inode_volume [Tau; Tau] demo_reading (EvAcquire 7 0) demo_acquired) as [Hv _].
  - apply demo_reading_run.
  - right. apply (ks_read_ok demo_reading 7 [] 1 42 0
      (acquire_finish 7 (inr (0%nat, Ino 7 0 kInodeState_Reading 1 42 false)) (fs demo_reading))); done.
  - reflexivity.
  - rewrite Hv. reflexivity.
Defined.

(** C30. No call gets stuck: a call that waits for an inode waits for a read that
    is in progress, and from every reachable state the calls in flight can run
    to completion without any further request, with all write backs done when
    the filesystem is writable. *)
Theorem pending_calls_complete v evs s :
  run v evs s ->
  (forall id, TWaiting id ∈ tasks s -> TReading id ∈ tasks s) /\
  exists s', rtc (fun a b => exists ev, kernel_step a ev b) s s' /\ tasks s' = [] /\
    (isReadOnly (fs s) = false -> lost s' = lost s).
Proof.
  intros Hi%run_inv. split; [apply (ri_reader _ _ _ _ _ (ci_reading _ Hi))|]. by apply calls_drain.
Qed.

Lemma pending_calls_complete_witness :
  tasks demo_reading = [TReading 7] /\
  exists s', rtc (fun a b => exists ev, kernel_step a ev b) demo_reading s' /\ tasks s' = [].
Proof.
  split; [reflexivity|].
  destruct (pending_calls_complete one_inode_volume [Tau; Tau] demo_reading demo_reading_run) as [_ (s' & Hr & Ht & _)].
  by exists s'.
Defined.

(** The last reference to an unlinked inode is given up, the inode is deleted
    from the volume, and its id is used for a new inode before the call that
    deleted it gets the lock of the cache back. *)
Definition demo_unlinked : filesystem :=
  set_heap (<[0%nat := set_content 0 42 true (Ino 7 1 kInodeState_Cached 1 42 false)]> (heap (fs demo_acquired)))
    (fs demo_acquired).
Definition demo_deleting : filesystem :=
  match Filesystem_RelinquishNode 0 demo_unlinked with Some (_, f) => f | None => demo_unlinked end.
Definition demo_reused : sys :=
  Sys (relinquish_writeback 0 demo_deleting) [TExit 0] [] (<[7 := (1, 43)]> (delete 7 one_inode_volume)) false.

Lemma demo_reused_run :
  run one_inode_volume [EvCreate 7 (1, 43); EvDelete 7; Tau; EvModify 7 (0, 42); EvAcquire 7 0; Tau; Tau] demo_reused.
Proof.
  set (s1 := with_fs demo_unlinked demo_acquired).
  set (s2 := Sys demo_deleting [TWriteback 0] [] one_inode_volume false).
  set (s3 := Sys (relinquish_writeback 0 demo_deleting) [TExit 0] [] (delete 7 one_inode_volume) false).
  apply (run_step _ _ s3); [apply (run_step _ _ s2); [apply (run_step _ _ s1); [apply (run_step _ _ demo_acquired)|]|]|].
  - apply demo_acquired_run.
  - left. apply (cs_modify demo_acquired 0 (Ino 7 1 kInodeState_Cached 1 42 false) 0 42);
      [vm_compute; left|reflexivity|apply not_elem_of_nil|apply not_elem_of_nil].
  - left. by apply (cs_relinquish s1 0 [] true demo_deleting).
  - right. by apply (ks_writeback s2 0 [] (Ino 7 1 kInodeState_Deleting 0 42 true)).
  - left. by apply (cs_create s3 7 (1, 43)).
Qed.

(** An inode id can be reused while the deleted inode is still in the cache:
    the volume has the new inode, but its acquisition, the next step of its
    creation, fails with ENOENT. *)
Theorem reused_id_not_found :
  exists s, run one_inode_volume
    [EvCreate 7 (1, 43); EvDelete 7; Tau; EvModify 7 (0, 42); EvAcquire 7 0; Tau; Tau] s /\
  view s 7 = Some (1, 43) /\ Filesystem_AcquireNodeWithId true 7 (fs s) = (AcqDone ENOENT None false, fs s).
Proof. exists demo_reused. split; [apply demo_reused_run|]. split; reflexivity. Qed.
