(* ===== verification/Lsta.v ===== *)
(** * The memory allocator of the kernel heap and of malloc (user/lib/libc/src/malloc/__lsta.c)

    A region of memory is covered by blocks that carry their size in a header
    and in a trailer; a negative size marks an allocated block.  Allocation
    takes the first free block that is big enough and splits it, deallocation
    merges a block with its free neighbours.

    Memory is a map from addresses to 32-bit words, and the structures of the
    allocator are read from and written to it at the offsets that they have on
    the machine.  The theorems relate the words in memory to a list of blocks:
    allocation is first fit on the list, deallocation merges, the contents of
    allocated blocks are never disturbed; and they show where the code falls
    short of this. *)

From S2P Require Import Prelude.

(** ** Memory *)

Notation mem := (gmap Z Z).

(** Addresses are 32 bits wide. *)
Definition rd (m : mem) (a : Z) : Z := default 0 (m !! u32 a).
Definition wr (m : mem) (a v : Z) : mem := <[u32 a := v]> m.

Definition WORD_SIZE : Z := 4.
Definition WORD_MAX : Z := 2 ^ 31 - 1.
Definition HEADER_PATTERN : Z := 0x62686472.
Definition TRAILER_PATTERN : Z := 0x6274726c.

(** sizeof(block_header_t), sizeof(block_trailer_t), sizeof(mem_region_t) and
    sizeof(struct lsta) *)
Definition sizeof_hdr : Z := 8.
Definition sizeof_trl : Z := 8.
Definition sizeof_mem_region : Z := 16.
Definition sizeof_lsta : Z := 16.

Definition MIN_GROSS_BLOCK_SIZE : Z := sizeof_hdr + WORD_SIZE + sizeof_trl.
Definition MAX_NET_BLOCK_SIZE : Z := WORD_MAX - sizeof_hdr - sizeof_trl.

(** __Ceil_PowerOf2 and __Floor_PowerOf2 on unsigned words, for words *)
Definition ceil_word (x : Z) : Z := Z.land (u32 (x + (WORD_SIZE - 1))) (2 ^ 32 - WORD_SIZE).
Definition floor_word (x : Z) : Z := Z.land (u32 x) (2 ^ 32 - WORD_SIZE).

(** The fields of a header at [p]. *)
Definition hdr_size (m : mem) (p : Z) : Z := rd m p.
Definition hdr_pat (m : mem) (p : Z) : Z := rd m (p + 4).
Definition set_hdr_size (m : mem) (p v : Z) : mem := wr m p v.
Definition set_hdr_pat (m : mem) (p v : Z) : mem := wr m (p + 4) v.

(** The fields of a trailer at [t]. *)
Definition trl_pat (m : mem) (t : Z) : Z := rd m t.
Definition trl_size (m : mem) (t : Z) : Z := rd m (t + 4).
Definition set_trl_pat (m : mem) (t v : Z) : mem := wr m t v.
Definition set_trl_size (m : mem) (t v : Z) : mem := wr m (t + 4) v.

(** The fields of a mem_region_t at [mr]. *)
Definition mr_next (m : mem) (mr : Z) : Z := rd m mr.
Definition mr_lower (m : mem) (mr : Z) : Z := rd m (mr + 4).
Definition mr_upper (m : mem) (mr : Z) : Z := rd m (mr + 8).

(** bhdr->size = size; bhdr->pat = HEADER_PATTERN; btrl->size = size;
    btrl->pat = TRAILER_PATTERN *)
Definition put_hdr (m : mem) (p size : Z) : mem := set_hdr_pat (set_hdr_size m p size) p HEADER_PATTERN.
Definition put_trl (m : mem) (t size : Z) : mem := set_trl_pat (set_trl_size m t size) t TRAILER_PATTERN.

Definition validate_block_header (m : mem) (p : Z) : bool := hdr_pat m p =? HEADER_PATTERN.
Definition validate_block_trailer (m : mem) (t : Z) : bool := trl_pat m t =? TRAILER_PATTERN.

(** [__abs] on a word. *)
Definition abs_word (x : Z) : Z := if x <? 0 then s32 (- x) else x.

(** ** Memory regions *)

(** Returns the address of the region, or 0. *)
Definition mem_region_create (m : mem) (lower upper err_func : Z) : Z * mem :=
  let bptr := ceil_word lower in
  let tptr := floor_word upper in
  if tptr <? bptr then (0, m)
  else if tptr - bptr <? sizeof_mem_region then (0, m)
  else
    let lo := ceil_word (bptr + sizeof_mem_region) in
    let m := wr (wr (wr (wr m bptr 0) (bptr + 4) lo) (bptr + 8) tptr) (bptr + 12) err_func in
    if u32 (tptr - lo) <? MIN_GROSS_BLOCK_SIZE then (0, m)
    else (bptr, put_trl (put_hdr m lo (tptr - lo)) (tptr - sizeof_trl) (tptr - lo)).

Definition mem_region_manages (m : mem) (mr addr : Z) : bool := (mr_lower m mr <=? addr) && (addr <? mr_upper m mr).

(** The codes that are passed to the error function. *)
Inductive merr := MERR_CORRUPTION | MERR_DOUBLE_FREE.

Definition mem_region_block_size (m : mem) (ptr : Z) : Z * option merr :=
  let bhdr := ptr - sizeof_hdr in
  if validate_block_header m bhdr then (u32 (abs_word (hdr_size m bhdr) - sizeof_hdr - sizeof_trl), None)
  else (0, Some MERR_CORRUPTION).

(** The loop that looks for a free block: [Some None] if there is none, [None]
    if it takes more than [fuel] rounds. *)
Fixpoint find_block (fuel : nat) (m : mem) (p upper gross_nbytes : Z) : option (option Z) :=
  match fuel with
  | O => None
  | S fuel =>
      if p <? upper then
        if gross_nbytes <=? hdr_size m p then Some (Some p)
        else find_block fuel m (p + abs_word (hdr_size m p)) upper gross_nbytes
      else Some None
  end.

Definition gross_size (nbytes : Z) : Z := s32 (sizeof_hdr + ceil_word nbytes + sizeof_trl).

(** Returns the address of the memory or 0. *)
Definition mem_region_alloc (m : mem) (mr nbytes : Z) : option (Z * mem) :=
  if MAX_NET_BLOCK_SIZE <? nbytes then Some (0, m)
  else
    let gross_nbytes := gross_size nbytes in
    let lower := mr_lower m mr in
    let upper := mr_upper m mr in
    r ← find_block (S (Z.to_nat (upper - lower))) m lower upper gross_nbytes;
    match r with
    | None => Some (0, m)
    | Some p =>
        let size := hdr_size m p in
        let gross_fsize := s32 (size - gross_nbytes) in
        if MIN_GROSS_BLOCK_SIZE <=? u32 gross_fsize then
          let m := put_trl (put_hdr m p (s32 (- gross_nbytes))) (p + gross_nbytes - sizeof_trl) (s32 (- gross_nbytes)) in
          let m := put_trl (put_hdr m (p + gross_nbytes) gross_fsize) (p + size - sizeof_trl) gross_fsize in
          Some (p + sizeof_hdr, m)
        else
          let btrl := p + size - sizeof_trl in
          let m := put_hdr m p (s32 (- size)) in
          Some (p + sizeof_hdr, put_trl m btrl (s32 (- trl_size m btrl)))
    end.

(** The outcome of the calls that validate headers and trailers. *)
Definition corrupt {A} (m : mem) (a : A) : A * option merr * mem := (a, Some MERR_CORRUPTION, m).

Definition mem_region_grow_block (m : mem) (ptr new_size : Z) : bool * option merr * mem :=
  if MAX_NET_BLOCK_SIZE <? new_size then (false, None, m)
  else
    let bhdr := ptr - sizeof_hdr in
    if negb (validate_block_header m bhdr) then corrupt m false
    else if 0 <=? hdr_size m bhdr then (false, None, m)
    else
      let gross_bsize := abs_word (hdr_size m bhdr) in
      let btrl := bhdr + gross_bsize - sizeof_trl in
      if negb (validate_block_trailer m btrl) then corrupt m false
      else
        let succ_hdr := btrl + sizeof_trl in
        if negb (validate_block_header m succ_hdr) then corrupt m false
        else if hdr_size m bhdr <? 0 then (false, None, m)
        else
          let gross_succ_size := abs_word (hdr_size m succ_hdr) in
          let succ_trl := succ_hdr + gross_succ_size - sizeof_trl in
          if negb (validate_block_trailer m succ_trl) then corrupt m false
          else
            let gross_new_size := gross_size new_size in
            let avail_gross_size := succ_trl + sizeof_trl - bhdr in
            let gross_fsize := s32 (avail_gross_size - gross_new_size) in
            if MIN_GROSS_BLOCK_SIZE <=? u32 gross_fsize then
              let new_btrl := bhdr + gross_new_size - sizeof_trl in
              let m := set_hdr_pat (set_trl_pat m btrl 0) succ_hdr 0 in
              let m := put_trl (put_hdr m bhdr (s32 (- gross_new_size))) new_btrl (s32 (- gross_new_size)) in
              (true, None, put_trl (put_hdr m (new_btrl + sizeof_trl) gross_fsize) succ_trl gross_fsize)
            else
              (true, None, put_trl (put_hdr m bhdr (s32 (- gross_new_size))) succ_trl (s32 (- gross_new_size))).

Definition mem_region_free (m : mem) (ptr : Z) : bool * option merr * mem :=
  let bhdr := ptr - sizeof_hdr in
  if negb (validate_block_header m bhdr) then corrupt m false
  else if 0 <=? hdr_size m bhdr then (false, Some MERR_DOUBLE_FREE, m)
  else
    let gross_bsize := abs_word (hdr_size m bhdr) in
    let btrl := bhdr + gross_bsize - sizeof_trl in
    if negb (validate_block_trailer m btrl) then corrupt m false
    else
      let pred_trl := bhdr - sizeof_trl in
      if negb (validate_block_trailer m pred_trl) then corrupt m false
      else
        let gross_pred_size := abs_word (trl_size m pred_trl) in
        let pred_hdr := pred_trl - gross_pred_size + sizeof_trl in
        if negb (validate_block_header m pred_hdr) then corrupt m false
        else
          let succ_hdr := btrl + sizeof_trl in
          if negb (validate_block_header m succ_hdr) then corrupt m false
          else
            let gross_succ_size := abs_word (hdr_size m succ_hdr) in
            let succ_trl := succ_hdr + gross_succ_size - sizeof_trl in
            if negb (validate_block_trailer m succ_trl) then corrupt m false
            else
              let m' :=
                match 0 <=? hdr_size m pred_hdr, 0 <=? hdr_size m succ_hdr with
                | false, false =>
                    set_trl_size (set_hdr_size m bhdr (s32 (- hdr_size m bhdr))) btrl (s32 (- trl_size m btrl))
                | false, true =>
                    let size := succ_trl - bhdr + sizeof_trl in
                    let m := set_hdr_pat (set_trl_pat (set_hdr_size m bhdr size) btrl 0) succ_hdr 0 in
                    set_trl_size m succ_trl (hdr_size m bhdr)
                | true, false =>
                    let size := btrl - pred_hdr + sizeof_trl in
                    let m := set_hdr_pat (set_trl_pat (set_hdr_size m pred_hdr size) pred_trl 0) bhdr 0 in
                    set_trl_size m btrl (hdr_size m pred_hdr)
                | true, true =>
                    let size := succ_trl - pred_hdr + sizeof_trl in
                    let m := set_hdr_pat (set_trl_pat (set_hdr_size m pred_hdr size) pred_trl 0) bhdr 0 in
                    let m := set_hdr_pat (set_trl_pat m btrl 0) succ_hdr 0 in
                    set_trl_size m succ_trl (hdr_size m pred_hdr)
                end in
              (true, None, m').

(** ** The allocator

    A [struct lsta] at address [self] has the fields first_region, last_region,
    grow_func and error_func.  The callback that provides more memory and
    memcpy are parameters. *)

Definition lsta_first_region (m : mem) (self : Z) : Z := rd m self.
Definition lsta_last_region (m : mem) (self : Z) : Z := rd m (self + 4).
Definition lsta_grow_func (m : mem) (self : Z) : Z := rd m (self + 8).
Definition lsta_error_func (m : mem) (self : Z) : Z := rd m (self + 12).

Definition UINTPTR_MAX : Z := 2 ^ 32 - 1.

Section Lsta.
Variable grow_func : mem -> Z -> Z -> bool * mem.
Variable memcpy : mem -> Z -> Z -> Z -> mem.

Definition lsta_create (m : mem) (lower upper growFunc errFunc : Z) : option (Z * mem) :=
  let '(mr, m) := mem_region_create m lower upper errFunc in
  if mr =? 0 then Some (0, m)
  else
    '(self, m) ← mem_region_alloc m mr sizeof_lsta;
    if self =? 0 then Some (0, m)
    else Some (self, wr (wr (wr (wr m self mr) (self + 4) mr) (self + 8) growFunc) (self + 12) errFunc).

(** The walk over the regions; [fuel] is their number. *)
Fixpoint find_region (fuel : nat) (m : mem) (mr addr : Z) : option Z :=
  if mr =? 0 then Some 0
  else match fuel with
       | O => None
       | S fuel => if mem_region_manages m mr addr then Some mr else find_region fuel m (mr_next m mr) addr
       end.

Definition lsta_getmemregion (fuel : nat) (m : mem) (self addr : Z) : option Z :=
  find_region fuel m (lsta_first_region m self) addr.

Definition lsta_isvalidptr (fuel : nat) (m : mem) (self ptr : Z) : option bool :=
  if (ptr =? 0) || (ptr =? UINTPTR_MAX) then Some true
  else mr ← lsta_getmemregion fuel m self ptr; Some (negb (mr =? 0)).

Definition lsta_add_memregion (m : mem) (self lower upper : Z) : errno * mem :=
  if (lower =? 0) || (upper =? lower) then (EINVAL, m)
  else
    let '(mr, m) := mem_region_create m lower upper (lsta_error_func m self) in
    if mr =? 0 then (ENOMEM, m)
    else (EOK, wr (wr m (lsta_last_region m self) mr) (self + 4) mr).

Definition lsta_trygrowstore (m : mem) (self minByteCount : Z) : errno * mem :=
  if lsta_grow_func m self =? 0 then (ENOMEM, m)
  else let '(ok, m) := grow_func m self minByteCount in (if ok then EOK else ENOMEM, m).

Fixpoint alloc_regions (fuel : nat) (m : mem) (mr nbytes : Z) : option (Z * mem) :=
  if mr =? 0 then Some (0, m)
  else match fuel with
       | O => None
       | S fuel =>
           '(ptr, m) ← mem_region_alloc m mr nbytes;
           if ptr =? 0 then alloc_regions fuel m (mr_next m mr) nbytes else Some (ptr, m)
       end.

Definition lsta_alloc (fuel : nat) (m : mem) (self nbytes : Z) : option (Z * mem) :=
  if nbytes =? 0 then Some (UINTPTR_MAX, m)
  else
    '(ptr, m) ← alloc_regions fuel m (lsta_first_region m self) nbytes;
    if ptr =? 0 then
      let '(e, m) := lsta_trygrowstore m self nbytes in
      if is_ok e then mem_region_alloc m (lsta_last_region m self) nbytes else Some (0, m)
    else Some (ptr, m).

(** Returns the error, the code passed to the error function and the memory. *)
Definition lsta_dealloc (fuel : nat) (m : mem) (self ptr : Z) : option (errno * option merr * mem) :=
  if (ptr =? 0) || (ptr =? UINTPTR_MAX) then Some (EOK, None, m)
  else
    mr ← lsta_getmemregion fuel m self ptr;
    if mr =? 0 then Some (ENOTBLK, None, m)
    else let '(_, e, m) := mem_region_free m ptr in Some (EOK, e, m).

(** [None] is also the copy to a NULL pointer. *)
Definition lsta_realloc (fuel : nat) (m : mem) (self ptr new_size : Z) : option (Z * mem) :=
  if (ptr =? 0) || (ptr =? UINTPTR_MAX) then lsta_alloc fuel m self new_size
  else if new_size =? 0 then Some (0, m)
  else
    mr ← lsta_getmemregion fuel m self ptr;
    if mr =? 0 then Some (0, m)
    else
      let '(ok, _, m) := mem_region_grow_block m ptr new_size in
      if ok : bool then Some (ptr, m)
      else
        let '(old_size, _) := mem_region_block_size m ptr in
        if old_size =? new_size then Some (ptr, m)
        else
          '(np, m) ← lsta_alloc fuel m self new_size;
          if np =? 0 then None
          else
            let m := memcpy m np ptr (if old_size <? new_size then old_size else new_size) in
            '(_, _, m) ← lsta_dealloc fuel m self ptr;
            Some (np, m).

Definition lsta_getblocksize (fuel : nat) (m : mem) (self ptr : Z) : option (errno * option Z) :=
  if (ptr =? 0) || (ptr =? UINTPTR_MAX) then Some (EOK, None)
  else
    mr ← lsta_getmemregion fuel m self ptr;
    if mr =? 0 then Some (ENOTBLK, None) else Some (EOK, Some (mem_region_block_size m ptr).1).
End Lsta.

(** ** Blocks *)

Record blk := Blk { bsz : Z; used : bool }.

(** The size as it is stored in the header and in the trailer. *)
Definition word_of (b : blk) : Z := if used b then - bsz b else bsz b.

Definition total (bs : list blk) : Z := foldr (fun b k => bsz b + k) 0 bs.

Definition blk_ok (b : blk) : Prop := MIN_GROSS_BLOCK_SIZE <= bsz b /\ bsz b mod WORD_SIZE = 0.

(** The block [b] is at address [p]. *)
Definition block_at (m : mem) (p : Z) (b : blk) : Prop :=
  rd m p = word_of b /\ rd m (p + 4) = HEADER_PATTERN /\
  rd m (p + bsz b - 8) = TRAILER_PATTERN /\ rd m (p + bsz b - 4) = word_of b.

(** The blocks [bs] follow each other from address [p]. *)
Fixpoint layout (m : mem) (p : Z) (bs : list blk) : Prop :=
  match bs with
  | [] => True
  | b :: bs => blk_ok b /\ block_at m p b /\ layout m (p + bsz b) bs
  end.

(** The region [mr] is covered by the blocks [bs]. *)
Record region (m : mem) (mr : Z) (bs : list blk) : Prop := {
  rg_pos : 0 < mr;
  rg_lower : mr_lower m mr = mr + sizeof_mem_region;
  rg_upper : mr_upper m mr = mr + sizeof_mem_region + total bs;
  rg_aligned : mr mod WORD_SIZE = 0;
  rg_range : total bs < 2 ^ 31 /\ mr + sizeof_mem_region + total bs <= 2 ^ 32 - WORD_SIZE;
  rg_layout : layout m (mr + sizeof_mem_region) bs }.

(** First fit: the blocks before, the block, the blocks after it. *)
Fixpoint first_fit (g : Z) (bs : list blk) : option (list blk * blk * list blk) :=
  match bs with
  | [] => None
  | b :: bs =>
      if negb (used b) && (g <=? bsz b) then Some ([], b, bs)
      else '(l, x, r) ← first_fit g bs; Some (b :: l, x, r)
  end.

(** A free block is split if the rest is big enough for a block. *)
Definition place (g : Z) (b : blk) : list blk :=
  if MIN_GROSS_BLOCK_SIZE <=? bsz b - g then [Blk g true; Blk (bsz b - g) false] else [Blk (bsz b) true].

(** *** Reading and writing words *)

Definition in_range (a : Z) : Prop := 0 <= a < 2 ^ 32.

Lemma rd_wr_eq m a v : rd (wr m a v) a = v.
Proof. unfold rd, wr. by rewrite lookup_insert_eq. Qed.

Lemma rd_wr_ne m a b v : in_range a -> in_range b -> a <> b -> rd (wr m a v) b = rd m b.
Proof. intros Ha Hb Hab. unfold rd, wr. rewrite !u32_small by done. by rewrite lookup_insert_ne. Qed.

Lemma rd_wr m a b v :
  in_range a -> in_range b -> rd (wr m a v) b = if decide (a = b) then v else rd m b.
Proof. intros Ha Hb. case_decide; [subst; apply rd_wr_eq|by apply rd_wr_ne]. Qed.

(** The words of [m'] and [m] are the same outside of [[p, q)]. *)
Definition frame (m m' : mem) (p q : Z) : Prop := forall a, in_range a -> a < p \/ q <= a -> rd m' a = rd m a.

Lemma frame_refl m p q : frame m m p q.
Proof. done. Qed.

Lemma frame_wr m m' p q a v : frame m m' p q -> in_range a -> p <= a < q -> frame m (wr m' a v) p q.
Proof. intros Hf Ha Hpq b Hb Hout. rewrite rd_wr_ne by (done || lia). auto. Qed.

(** Words that are written are read back. *)
Ltac word_simpl :=
  repeat first
    [ rewrite rd_wr_eq
    | rewrite rd_wr_ne by (unfold in_range, MIN_GROSS_BLOCK_SIZE, sizeof_hdr, sizeof_trl, WORD_SIZE in *; lia) ].

(** Solves a goal on a word after writes. *)
Ltac mem_solve :=
  repeat (rewrite rd_wr by (unfold in_range in *; lia)); unfold word_of in *; cbn [bsz used] in *;
  repeat case_decide; try lia; try done;
  match goal with H : rd ?m ?a = _ |- rd ?m ?b = _ => replace b with a by lia; rewrite H; done || congruence end.

Ltac consts := unfold in_range, blk_ok, MIN_GROSS_BLOCK_SIZE, sizeof_mem_region, sizeof_hdr, sizeof_trl, WORD_SIZE in *.

Lemma s32_opp z : - 2 ^ 31 < z < 2 ^ 31 -> s32 (- z) = - z.
Proof. intros Hz. apply s32_small. lia. Qed.

Lemma abs_word_of b : 0 < bsz b < 2 ^ 31 -> abs_word (word_of b) = bsz b.
Proof.
  intros Hb. unfold abs_word, word_of. destruct (used b).
  - rewrite (proj2 (Z.ltb_lt _ _)) by lia. rewrite Z.opp_involutive. apply s32_small. lia.
  - by rewrite (proj2 (Z.ltb_ge _ _)) by lia.
Qed.

Lemma word_of_free b : 0 < bsz b -> (0 <=? word_of b) = negb (used b).
Proof. intros Hb. unfold word_of. destruct (used b); simpl; [apply Z.leb_gt|apply Z.leb_le]; lia. Qed.

(** *** Layouts *)

Lemma total_app l r : total (l ++ r) = total l + total r.
Proof. induction l; simpl; lia. Qed.

Lemma layout_total m p bs : layout m p bs -> 0 <= total bs.
Proof.
  revert p. induction bs as [|b bs IH]; intros p; simpl; [lia|]. intros (Hb & _ & Hl). apply IH in Hl. consts. lia.
Qed.

Lemma layout_app m p l r : layout m p (l ++ r) <-> layout m p l /\ layout m (p + total l) r.
Proof.
  revert p. induction l as [|b l IH]; intros p; simpl; [rewrite Z.add_0_r; tauto|].
  rewrite IH, Z.add_assoc. tauto.
Qed.

Lemma layout_frame m m' p bs :
  layout m p bs -> 0 <= p -> p + total bs <= 2 ^ 32 ->
  (forall a, p <= a < p + total bs -> rd m' a = rd m a) -> layout m' p bs.
Proof.
  revert p. induction bs as [|b bs IH]; intros p; simpl; [done|].
  intros (Hb & (B1 & B2 & B3 & B4) & Hl) Hp Hr Hf. pose proof (layout_total _ _ _ Hl). consts.
  split; [done|]. split; [unfold block_at; rewrite !Hf by lia; done|].
  apply IH; [done|lia|lia|]. intros a Ha. apply Hf. lia.
Qed.

(** Replacing the blocks in the middle. *)
Lemma layout_middle m m' p l x y r :
  layout m p (l ++ x ++ r) -> 0 <= p -> p + total (l ++ x ++ r) <= 2 ^ 32 -> total x = total y ->
  frame m m' (p + total l) (p + total l + total x) ->
  layout m' (p + total l) y -> layout m' p (l ++ y ++ r).
Proof.
  rewrite !layout_app, !total_app. intros (Hl & Hx & Hr) Hp Hrange Hxy Hf Hy.
  pose proof (layout_total _ _ _ Hl). pose proof (layout_total _ _ _ Hr). pose proof (layout_total _ _ _ Hx).
  split_and!; [|done|].
  - apply (layout_frame m); [done|done|lia|]. intros a Ha. apply Hf; unfold in_range; lia.
  - rewrite <- Hxy. apply (layout_frame m); [done|lia|lia|]. intros a Ha. apply Hf; unfold in_range; lia.
Qed.

(** *** Finding a block *)

Lemma first_fit_spec g bs l b r :
  first_fit g bs = Some (l, b, r) -> bs = l ++ b :: r /\ used b = false /\ g <= bsz b.
Proof.
  revert l. induction bs as [|x bs IH]; intros l; simpl; [done|].
  destruct (negb (used x) && (g <=? bsz x)) eqn:E.
  - intros [= <- <- <-]. apply andb_true_iff in E as [E1%negb_true_iff E2%Z.leb_le]. done.
  - intros ([[l' x'] r'] & Hf & [= <- <- <-])%bind_Some. destruct (IH l' Hf) as (-> & Hu & Hg). done.
Qed.

Lemma find_block_spec fuel m p bs g :
  layout m p bs -> 0 < g -> total bs < 2 ^ 31 -> (length bs < fuel)%nat ->
  find_block fuel m p (p + total bs) g = Some ((fun x => p + total x.1.1) <$> first_fit g bs).
Proof.
  revert fuel p. induction bs as [|b bs IH]; intros [|fuel] p; simpl; try lia.
  - intros _ _ _ _. by rewrite (proj2 (Z.ltb_ge _ _)) by lia.
  - intros (Hb & (B1 & _) & Hl) Hg Ht Hf. pose proof (layout_total _ _ _ Hl). consts.
    rewrite (proj2 (Z.ltb_lt _ _)) by lia. unfold hdr_size. rewrite B1.
    assert (Hfit : (g <=? word_of b) = negb (used b) && (g <=? bsz b)).
    { unfold word_of. destruct (used b); [|done]. simpl. apply Z.leb_gt. lia. }
    rewrite Hfit. destruct (negb (used b) && (g <=? bsz b)); simpl; [by rewrite Z.add_0_r|].
    rewrite abs_word_of by lia. rewrite Z.add_assoc, (IH fuel (p + bsz b)) by (done || lia).
    destruct (first_fit g bs) as [[[l x] r]|]; simpl; [|done]. do 2 f_equal. lia.
Qed.

(** *** Sizes *)

Lemma floor_mask x : 0 <= x < 2 ^ 32 -> Z.land x (2 ^ 32 - WORD_SIZE) = x / 4 * 4.
Proof.
  intros Hx. change (2 ^ 32 - WORD_SIZE) with (Z.shiftl (Z.ones 30) 2).
  transitivity (Z.shiftl (Z.shiftr x 2) 2); [|rewrite Z.shiftl_mul_pow2, Z.shiftr_div_pow2 by lia; done].
  apply Z.bits_inj'. intros i Hi. rewrite Z.land_spec, !Z.shiftl_spec by lia.
  destruct (decide (i < 2)) as [Hi2|Hi2]; [rewrite !(Z.testbit_neg_r _ (i - 2)) by lia; apply andb_false_r|].
  rewrite Z.shiftr_spec, Z.testbit_ones_nonneg by lia. replace (i - 2 + 2) with i by lia.
  destruct (Z.ltb_spec (i - 2) 30); [apply andb_true_r|]. rewrite andb_false_r. symmetry.
  destruct (decide (x = 0)) as [->|]; [apply Z.testbit_0_l|]. apply Z.bits_above_log2; [lia|].
  assert (Z.log2 x < 32) by (apply Z.log2_lt_pow2; lia). lia.
Qed.

Lemma gross_size_spec n :
  1 <= n <= 2 ^ 31 - 20 ->
  gross_size n mod 4 = 0 /\ MIN_GROSS_BLOCK_SIZE <= gross_size n < 2 ^ 31 /\ n + 16 <= gross_size n <= n + 19.
Proof.
  intros Hn. unfold gross_size, ceil_word. rewrite (u32_small (n + _)) by (consts; lia).
  rewrite floor_mask by (consts; lia). consts. pose proof (Z.div_mod (n + 3) 4). pose proof (Z.mod_pos_bound (n + 3) 4).
  replace (4 - 1) with 3 by lia. rewrite s32_small by lia. split; [|lia].
  replace (8 + (n + 3) / 4 * 4 + 8) with (((n + 3) / 4 + 4) * 4) by lia. apply Z.mod_mul. lia.
Qed.

Lemma layout_length m p bs : layout m p bs -> Z.of_nat (length bs) <= total bs.
Proof.
  revert p. induction bs as [|b bs IH]; intros p; simpl; [lia|]. intros (Hb & _ & Hl). apply IH in Hl. consts. lia.
Qed.

(** *** Allocation *)

(** The writes of an allocation in the block [b] at [p]. *)
Definition placed (m : mem) (p g : Z) (b : blk) : mem :=
  if MIN_GROSS_BLOCK_SIZE <=? bsz b - g then
    put_trl (put_hdr (put_trl (put_hdr m p (- g)) (p + g - sizeof_trl) (- g)) (p + g) (bsz b - g))
      (p + bsz b - sizeof_trl) (bsz b - g)
  else put_trl (put_hdr m p (- bsz b)) (p + bsz b - sizeof_trl) (- bsz b).

Lemma place_total g b : total (place g b) = bsz b.
Proof. unfold place. destruct (_ <=? _); simpl; lia. Qed.

Lemma placed_layout m p g b :
  blk_ok b -> MIN_GROSS_BLOCK_SIZE <= g <= bsz b -> g mod 4 = 0 -> 0 <= p -> p + bsz b <= 2 ^ 32 ->
  layout (placed m p g b) p (place g b) /\ frame m (placed m p g b) p (p + bsz b).
Proof.
  intros [Hb1 Hb2] Hg Hg4 Hp Hr. unfold placed, place, put_trl, put_hdr, set_trl_pat, set_trl_size, set_hdr_pat, set_hdr_size.
  consts. destruct (Z.leb_spec (8 + 4 + 8) (bsz b - g)); split.
  - simpl. unfold block_at, word_of. simpl.
    replace (p + g + (bsz b - g) - 8) with (p + bsz b - 8) by lia.
    replace (p + g + (bsz b - g) - 4) with (p + bsz b - 8 + 4) by lia. replace (p + g - 4) with (p + g - 8 + 4) by lia.
    unfold blk_ok. simpl. consts. split_and!; try done; try lia; word_simpl; try done.
    rewrite Zminus_mod, Hb2, Hg4. done.
  - repeat apply frame_wr; try apply frame_refl; consts; lia.
  - simpl. unfold block_at, word_of. simpl. replace (p + bsz b - 4) with (p + bsz b - 8 + 4) by lia.
    split_and!; try done; word_simpl; done.
  - repeat apply frame_wr; try apply frame_refl; consts; lia.
Qed.

Lemma region_frame m m' mr bs bs' :
  region m mr bs -> layout m' (mr + sizeof_mem_region) bs' -> total bs' = total bs ->
  frame m m' (mr + sizeof_mem_region) (mr + sizeof_mem_region + total bs) -> region m' mr bs'.
Proof.
  intros [H1 H2 H3 H4 H5 H6] Hl Ht Hf. pose proof (layout_total _ _ _ Hl). consts.
  split; consts; rewrite ?Ht; try done.
  - unfold mr_lower in *. rewrite Hf; [done|consts; lia|lia].
  - unfold mr_upper in *. rewrite Hf; [done|consts; lia|lia].
Qed.

Lemma alloc_region m mr bs n :
  region m mr bs -> 1 <= n <= 2 ^ 31 - 20 ->
  mem_region_alloc m mr n =
  Some (match first_fit (gross_size n) bs with
        | None => (0, m)
        | Some (l, b, _) =>
            (mr + sizeof_mem_region + total l + sizeof_hdr,
             placed m (mr + sizeof_mem_region + total l) (gross_size n) b)
        end).
Proof.
  intros [H1 H2 H3 H4 H5 H6] Hn. destruct (gross_size_spec n Hn) as (Hg4 & Hg & _).
  unfold mem_region_alloc. unfold MAX_NET_BLOCK_SIZE, WORD_MAX. rewrite (proj2 (Z.ltb_ge _ _)) by (consts; lia).
  rewrite H2, H3. pose proof (layout_length _ _ _ H6). rewrite find_block_spec by (done || consts; lia).
  destruct (first_fit (gross_size n) bs) as [[[l b] r]|] eqn:E; [|done]. cbn [fmap option_fmap option_map mbind option_bind fst].
  apply first_fit_spec in E as (-> & Hu & Hgb). apply layout_app in H6 as [Hl [Hb [Hat Hr]]].
  rewrite total_app in *. simpl in *. pose proof (layout_total _ _ _ Hl). pose proof (layout_total _ _ _ Hr).
  set (p := mr + sizeof_mem_region + total l) in *. destruct Hat as (B1 & B2 & B3 & B4).
  unfold hdr_size. rewrite B1. unfold word_of. rewrite Hu. consts.
  rewrite (s32_small (bsz b - _)), (u32_small (bsz b - _)), !s32_opp by lia.
  unfold placed. consts. destruct (Z.leb_spec (8 + 4 + 8) (bsz b - gross_size n)); [done|].
  do 3 f_equal. unfold trl_size, put_hdr, set_hdr_pat, set_hdr_size.
  replace (p + bsz b - 8 + 4) with (p + bsz b - 4) by lia. subst p. word_simpl. rewrite B4. unfold word_of.
  rewrite Hu. apply s32_opp. lia.
Qed.

(** The region after an allocation. *)
Lemma placed_region m mr bs l b r n :
  region m mr bs -> first_fit (gross_size n) bs = Some (l, b, r) -> 1 <= n <= 2 ^ 31 - 20 ->
  let p := mr + sizeof_mem_region + total l in
  region (placed m p (gross_size n) b) mr (l ++ place (gross_size n) b ++ r) /\
  frame m (placed m p (gross_size n) b) p (p + bsz b).
Proof.
  intros Hreg E Hn p. destruct (gross_size_spec n Hn) as (Hg4 & Hg & Hgn).
  apply first_fit_spec in E as (-> & Hu & Hgb). pose proof Hreg as [R1 R2 R3 R4 R5 R6].
  change (b :: r) with ([b] ++ r) in *. pose proof R6 as Hlay. apply layout_app in R6 as [Hl [[Hb [_ _]] Hr]%layout_app].
  pose proof (layout_total _ _ _ Hl). pose proof (layout_total _ _ _ Hr). rewrite !total_app in *. cbn [total foldr] in *.
  fold (total l) in *. fold (total r) in *.
  destruct (placed_layout m p (gross_size n) b) as [Hpl Hfr]; [done|lia|done|unfold p; consts; lia|unfold p; consts; lia|].
  split; [|done]. apply (region_frame m _ _ (l ++ [b] ++ r)); [done| |rewrite !total_app, place_total; simpl; lia|].
  - apply (layout_middle m _ _ l [b]); [done|consts; lia|rewrite !total_app; simpl; consts; lia| | |done].
    + rewrite place_total. simpl. lia.
    + simpl. by rewrite Z.add_0_r.
  - intros a Hra Hout. apply Hfr; [done|]. rewrite !total_app in Hout. simpl in Hout. unfold p. consts. lia.
Qed.

(** *** Deallocation *)

(** What becomes of a block and its neighbours. *)
Definition merged (x b y : blk) : list blk :=
  match used x, used y with
  | true, true => [x; Blk (bsz b) false; y]
  | true, false => [x; Blk (bsz b + bsz y) false]
  | false, true => [Blk (bsz x + bsz b) false; y]
  | false, false => [Blk (bsz x + bsz b + bsz y) false]
  end.

Lemma merged_total x b y : total (merged x b y) = bsz x + bsz b + bsz y.
Proof. unfold merged. destruct (used x), (used y); simpl; lia. Qed.

Lemma add_mod_0 a b n : n <> 0 -> a mod n = 0 -> b mod n = 0 -> (a + b) mod n = 0.
Proof. intros Hn Ha Hb. by rewrite Zplus_mod, Ha, Hb, Zmod_0_l. Qed.

Lemma free_middle m p x b y :
  layout m p [x; b; y] -> used b = true -> 0 <= p -> bsz x + bsz b + bsz y < 2 ^ 31 ->
  p + bsz x + bsz b + bsz y <= 2 ^ 32 ->
  exists m', mem_region_free m (p + bsz x + sizeof_hdr) = (true, None, m') /\
    layout m' p (merged x b y) /\
    frame m m' (if used x then p + bsz x else p) (p + bsz x + bsz b + if used y then 0 else bsz y).
Proof.
  simpl. intros (Hx & (X1 & X2 & X3 & X4) & Hb & (B1 & B2 & B3 & B4) & Hy & (Y1 & Y2 & Y3 & Y4) & _) Hu Hp Hs Hr.
  set (q := p + bsz x) in *. set (t := q + bsz b) in *.
  unfold mem_region_free, validate_block_header, validate_block_trailer, hdr_pat, hdr_size, trl_pat, trl_size. consts.
  assert (Hwb : word_of b = - bsz b) by (unfold word_of; by rewrite Hu).
  replace (q + 8 - 8) with q by lia. rewrite B1, B2, Z.eqb_refl, abs_word_of by lia.
  rewrite (proj2 (Z.leb_gt 0 (word_of b))) by lia. cbn [negb]. fold t.
  rewrite B3, Z.eqb_refl. cbn [negb]. rewrite X3, Z.eqb_refl. cbn [negb].
  replace (q - 8 + 4) with (q - 4) by lia. rewrite X4, abs_word_of by lia.
  replace (q - 8 - bsz x + 8) with p by lia. rewrite X2, Z.eqb_refl. cbn [negb].
  replace (t - 8 + 8) with t by lia. rewrite Y2, Z.eqb_refl, Y1, abs_word_of by lia. cbn [negb].
  rewrite Y3, Z.eqb_refl, X1, !word_of_free by lia. cbn [negb].
  replace (t - 8 + 4) with (t - 4) by lia. rewrite B4.
  eexists. split; [reflexivity|].
  unfold set_trl_size, set_trl_pat, set_hdr_size, set_hdr_pat, merged. rewrite Hwb, Z.opp_involutive, s32_small by lia.
  subst t q. destruct (used x) eqn:Ux, (used y) eqn:Uy; cbn [negb]; (split; [|repeat apply frame_wr; try apply frame_refl; consts; lia]);
    cbn [layout]; unfold block_at; cbn [bsz used word_of]; (split_and!; try done); try mem_solve;
    unfold blk_ok; consts; cbn [bsz]; (split; [lia|]); repeat apply add_mod_0; tauto || lia.
Qed.

Lemma free_region m mr l x b y r :
  region m mr (l ++ x :: b :: y :: r) -> used b = true ->
  let q := mr + sizeof_mem_region + total l + bsz x in
  exists m', mem_region_free m (q + sizeof_hdr) = (true, None, m') /\ region m' mr (l ++ merged x b y ++ r) /\
    frame m m' (if used x then q else q - bsz x) (q + bsz b + if used y then 0 else bsz y).
Proof.
  intros Hreg Hu q. pose proof Hreg as [H1 H2 H3 H4 H5 H6].
  change (x :: b :: y :: r) with ([x; b; y] ++ r) in *. pose proof H6 as Hlay.
  rewrite layout_app, layout_app in H6. destruct H6 as (Hl & Hm & Hr). rewrite !total_app in *. cbn [total foldr] in *.
  pose proof (layout_total _ _ _ Hl). pose proof (layout_total _ _ _ Hr). pose proof Hm as (Hx & _ & Hb & _ & Hy & _).
  destruct (free_middle m (mr + sizeof_mem_region + total l) x b y) as (m' & Hf & Hl' & Hfr); try done; [consts; lia..|].
  exists m'. split; [exact Hf|]. fold q in Hfr.
  assert (Hfr' : frame m m' (if used x then q else q - bsz x) (q + bsz b + if used y then 0 else bsz y)).
  { intros a Ha Hout. apply Hfr; [done|]. unfold q in *. destruct (used x); lia. }
  split; [|done]. apply (region_frame m _ _ (l ++ [x; b; y] ++ r)); [done| |rewrite !total_app, merged_total; simpl; lia|].
  - apply (layout_middle m m' _ l [x; b; y]); [done|consts; lia|rewrite !total_app; simpl; consts; lia| | |done].
    + rewrite merged_total. simpl. lia.
    + intros a Ha Hout. apply Hfr'; [done|]. unfold q. simpl in Hout. consts. destruct (used x), (used y); lia.
  - intros a Ha Hout. apply Hfr'; [done|]. rewrite !total_app in Hout. simpl in Hout. unfold q. consts. destruct (used x), (used y); lia.
Qed.

(** The first and the last block of a region have no neighbour: what is there
    instead does not look like one. *)
Definition isolated (m : mem) (mr : Z) : Prop :=
  mr_upper m mr <> TRAILER_PATTERN /\ rd m (mr_upper m mr + 4) <> HEADER_PATTERN.

(** The first block is never freed. *)
Lemma free_first m mr b bs :
  region m mr (b :: bs) -> isolated m mr -> used b = true ->
  mem_region_free m (mr + sizeof_mem_region + sizeof_hdr) = (false, Some MERR_CORRUPTION, m).
Proof.
  intros [H1 H2 H3 H4 H5 (Hb & (B1 & B2 & B3 & B4) & Hl)] [Hi _] Hu.
  pose proof (layout_total _ _ _ Hl). cbn [total foldr] in *. fold (total bs) in *. set (p := mr + sizeof_mem_region) in *.
  unfold mem_region_free, validate_block_header, validate_block_trailer, hdr_pat, hdr_size, trl_pat, trl_size. consts.
  replace (p + 8 - 8) with p by lia. rewrite B1, B2, Z.eqb_refl, abs_word_of by lia. cbn [negb].
  rewrite word_of_free, Hu by lia. cbn [negb]. rewrite B3, Z.eqb_refl. cbn [negb].
  replace (p - 8) with (mr + 8) by lia. fold (mr_upper m mr). by rewrite (proj2 (Z.eqb_neq _ _)) by done.
Qed.

(** Neither is the last one. *)
Lemma free_last m mr l x b :
  region m mr (l ++ [x; b]) -> isolated m mr -> used b = true ->
  mem_region_free m (mr + sizeof_mem_region + total l + bsz x + sizeof_hdr) = (false, Some MERR_CORRUPTION, m).
Proof.
  intros [H1 H2 H3 H4 H5 H6] [_ Hi] Hu. apply layout_app in H6 as (Hl & Hx & (X1 & X2 & X3 & X4) & Hb & (B1 & B2 & B3 & B4) & _).
  pose proof (layout_total _ _ _ Hl). rewrite total_app in *. cbn [total foldr] in *. fold (total l) in *.
  rewrite H3 in Hi. set (p := mr + sizeof_mem_region + total l) in *. set (q := p + bsz x) in *.
  unfold mem_region_free, validate_block_header, validate_block_trailer, hdr_pat, hdr_size, trl_pat, trl_size. consts.
  replace (q + 8 - 8) with q by lia. rewrite B1, B2, Z.eqb_refl, abs_word_of by lia. cbn [negb].
  rewrite word_of_free, Hu by lia. cbn [negb]. rewrite B3, Z.eqb_refl. cbn [negb].
  rewrite X3, Z.eqb_refl. cbn [negb]. replace (q - 8 + 4) with (q - 4) by lia. rewrite X4, abs_word_of by lia.
  replace (q - 8 - bsz x + 8) with p by lia. rewrite X2, Z.eqb_refl. cbn [negb].
  replace (q + bsz b - 8 + 8 + 4) with (mr + 16 + (total l + (bsz x + (bsz b + 0))) + 4) by lia.
  by rewrite (proj2 (Z.eqb_neq _ _)) by done.
Qed.

(** *** Block positions *)

(** The block [b] is [off] bytes from the start of the region. *)
Fixpoint has_block (bs : list blk) (off : Z) (b : blk) : Prop :=
  match bs with
  | [] => False
  | x :: bs => (off = 0 /\ x = b) \/ has_block bs (off - bsz x) b
  end.

Lemma has_block_app l r off b : has_block (l ++ r) off b <-> has_block l off b \/ has_block r (off - total l) b.
Proof.
  revert off. induction l as [|x l IH]; intros off; simpl; [rewrite Z.sub_0_r; tauto|].
  rewrite IH. replace (off - bsz x - total l) with (off - (bsz x + total l)) by lia. tauto.
Qed.

Lemma has_block_split bs off b : has_block bs off b <-> exists l r, bs = l ++ b :: r /\ off = total l.
Proof.
  split.
  - revert off. induction bs as [|x bs IH]; intros off; simpl; [done|]. intros [[-> ->]|Hb]; [by exists [], bs|].
    destruct (IH _ Hb) as (l & r & -> & Ho). exists (x :: l), r. split; [done|]. simpl. lia.
  - intros (l & r & -> & ->). apply has_block_app. right. left. split; [lia|done].
Qed.

Lemma has_block_range m p bs off b :
  layout m p bs -> has_block bs off b -> 0 <= off /\ off + bsz b <= total bs /\ blk_ok b /\ off mod 4 = 0.
Proof.
  revert p off. induction bs as [|x bs IH]; intros p off; simpl; [done|].
  intros (Hx & _ & Hl). pose proof (layout_total _ _ _ Hl). intros [[-> <-]|Hb].
  - split_and!; [lia|lia|done|done].
  - destruct (IH _ _ Hl Hb) as (H1 & H2 & H3 & H4). consts. split_and!; try tauto; try lia.
    replace off with (bsz x + (off - bsz x)) by lia. apply add_mod_0; tauto || lia.
Qed.

Lemma has_block_disjoint m p bs off off' b b' :
  layout m p bs -> has_block bs off b -> has_block bs off' b' ->
  (off = off' /\ b = b') \/ off + bsz b <= off' \/ off' + bsz b' <= off.
Proof.
  revert p off off'. induction bs as [|x bs IH]; intros p off off'; simpl; [done|].
  intros (Hx & _ & Hl) [[-> <-]|Hb] [[-> <-]|Hb'].
  - by left.
  - destruct (has_block_range _ _ _ _ _ Hl Hb') as (? & _). lia.
  - destruct (has_block_range _ _ _ _ _ Hl Hb) as (? & _). lia.
  - destruct (IH _ _ _ Hl Hb Hb') as [[? ?]|?]; [left; split; [lia|done]|lia].
Qed.

(** Allocated blocks other than the ones that are replaced stay where they are. *)
Lemma has_block_replace l x y r off b :
  total x = total y -> has_block (l ++ x ++ r) off b -> (has_block x (off - total l) b -> has_block y (off - total l) b) ->
  has_block (l ++ y ++ r) off b.
Proof. rewrite !has_block_app. intros ->. tauto. Qed.

(** ** A heap and its clients *)

(** [live] maps the addresses that clients hold to the sizes that they asked
    for, [owned] the words that they have written to their values. *)
Record heap_sys := Heap { hmem : mem; live : gmap Z Z; owned : gmap Z Z }.

Inductive heap_step (mr : Z) (s : heap_sys) : heap_sys -> Prop :=
| hs_alloc n ptr m' :
    1 <= n <= 2 ^ 31 - 20 -> mem_region_alloc (hmem s) mr n = Some (ptr, m') ->
    heap_step mr s (Heap m' (if decide (ptr = 0) then live s else <[ptr := n]> (live s)) (owned s))
| hs_free ptr n ok e m' :
    live s !! ptr = Some n -> mem_region_free (hmem s) ptr = (ok, e, m') ->
    heap_step mr s (Heap m' (delete ptr (live s)) (filter (fun x => x.1 < ptr \/ ptr + n <= x.1) (owned s)))
| hs_write ptr n a v :
    live s !! ptr = Some n -> ptr <= a -> a + 4 <= ptr + n -> a mod 4 = 0 ->
    heap_step mr s (Heap (wr (hmem s) a v) (live s) (<[a := v]> (owned s))).

(** The block of an address that a client holds. *)
Definition holds (mr : Z) (bs : list blk) (ptr n : Z) : Prop :=
  exists off b, has_block bs off b /\ used b = true /\ ptr = mr + sizeof_mem_region + off + sizeof_hdr /\
    1 <= n <= bsz b - sizeof_hdr - sizeof_trl.

Record heap_inv (mr : Z) (s : heap_sys) (bs : list blk) : Prop := {
  hi_region : region (hmem s) mr bs;
  hi_isolated : isolated (hmem s) mr;
  hi_live : forall ptr n, live s !! ptr = Some n -> holds mr bs ptr n;
  hi_owned : forall a v, owned s !! a = Some v ->
    rd (hmem s) a = v /\ exists ptr n, live s !! ptr = Some n /\ ptr <= a /\ a + 4 <= ptr + n }.

Lemma isolated_frame m m' mr bs p q :
  region m mr bs -> isolated m mr -> frame m m' p q -> mr + sizeof_mem_region <= p ->
  q <= mr + sizeof_mem_region + total bs -> isolated m' mr.
Proof.
  intros [H1 H2 H3 H4 H5 H6] [Hi1 Hi2] Hf Hp Hq. pose proof (layout_total _ _ _ H6). consts.
  assert (Hu : mr_upper m' mr = mr_upper m mr) by (unfold mr_upper; apply Hf; consts; lia).
  unfold isolated. rewrite Hu. split; [done|]. rewrite H3 in *.
  destruct (decide (mr + 16 + total bs + 4 < 2 ^ 32)) as [Hlt|Hge]; [rewrite Hf; [done|consts; lia|lia]|].
  replace (mr + 16 + total bs + 4) with (2 ^ 32) in * by lia. change (rd m' (2 ^ 32)) with (rd m' 0).
  change (rd m (2 ^ 32)) with (rd m 0) in Hi2. rewrite Hf; [done|consts; lia|lia].
Qed.

(** A client's words are inside of its block. *)
Lemma owned_in_block mr s bs a v :
  heap_inv mr s bs -> owned s !! a = Some v ->
  exists ptr n off b, live s !! ptr = Some n /\ has_block bs off b /\ used b = true /\
    ptr = mr + sizeof_mem_region + off + sizeof_hdr /\ ptr <= a /\ a + 4 <= ptr + n /\
    mr + sizeof_mem_region + off + sizeof_hdr <= a /\ a + 4 <= mr + sizeof_mem_region + off + bsz b - sizeof_trl.
Proof.
  intros [H1 H2 H3 H4] Ha. destruct (H4 a v Ha) as (_ & ptr & n & Hp & Hpa & Han).
  destruct (H3 ptr n Hp) as (off & b & Hb & Hu & Hptr & Hn). exists ptr, n, off, b. split_and!; try done; lia.
Qed.

Lemma alloc_inv mr s bs n ptr m' :
  heap_inv mr s bs -> 1 <= n <= 2 ^ 31 - 20 -> mem_region_alloc (hmem s) mr n = Some (ptr, m') ->
  exists bs', heap_inv mr (Heap m' (if decide (ptr = 0) then live s else <[ptr := n]> (live s)) (owned s)) bs'.
Proof.
  intros Hinv Hn Ha. pose proof Hinv as [H1 H2 H3 H4]. rewrite (alloc_region _ _ bs n H1 Hn) in Ha.
  destruct (first_fit (gross_size n) bs) as [[[l b] r]|] eqn:E; injection Ha as <- <-.
  2: { exists bs. rewrite decide_True by done. done. }
  destruct (gross_size_spec n Hn) as (Hg4 & Hg & Hgn). destruct (placed_region _ _ _ _ _ _ _ H1 E Hn) as [Hreg Hfr].
  apply first_fit_spec in E as (-> & Hu & Hgb). pose proof H1 as [R1 R2 R3 R4 R5 Hlay].
  change (b :: r) with ([b] ++ r) in *. pose proof Hlay as [Hl [_ Hr]%layout_app]%layout_app.
  pose proof (layout_total _ _ _ Hl). pose proof (layout_total _ _ _ Hr). rewrite !total_app in *. cbn [total foldr] in *.
  fold (total l) in *. fold (total r) in *. set (p := mr + sizeof_mem_region + total l) in *.
  assert (Hkeep : forall off c, used c = true -> has_block (l ++ [b] ++ r) off c ->
    has_block (l ++ place (gross_size n) b ++ r) off c).
  { intros off c Hc Hin. apply (has_block_replace l [b]); [rewrite place_total; simpl; lia|done|].
    intros [[_ <-]|[]]. congruence. }
  exists (l ++ place (gross_size n) b ++ r). rewrite decide_False by (consts; lia). split; [done|..]; cbn [hmem live owned].
  - apply (isolated_frame (hmem s) _ _ (l ++ [b] ++ r) p (p + bsz b)); try done; [consts; lia|].
    rewrite !total_app. simpl. consts. lia.
  - intros ptr k. rewrite lookup_insert. case_decide as Hp; [subst ptr; intros [= <-]|].
    + exists (total l). unfold place. destruct (_ <=? _); eexists; (split; [apply has_block_app; right; left; split; [lia|reflexivity]|]);
        simpl; (split_and!; [done|done|consts; lia|consts; lia]).
    + intros Hk. destruct (H3 ptr k Hk) as (off & c & Hc & Hcu & Hptr & Hkn). exists off, c. auto.
  - intros a v Hav. destruct (owned_in_block _ _ _ _ _ Hinv Hav) as (ptr & k & off & c & Hp & Hc & Hcu & Hptr & Hpa & Hak & Hlo & Hhi).
    assert (Hb' : has_block (l ++ [b] ++ r) (total l) b) by (apply has_block_app; right; left; split; [lia|done]).
    destruct (has_block_range _ _ _ _ _ Hlay Hc) as (Ho1 & Ho2 & Ho3 & _). rewrite !total_app in Ho2. simpl in Ho2.
    split.
    + rewrite Hfr; [by apply H4|consts; lia|].
      destruct (has_block_disjoint _ _ _ _ _ _ _ Hlay Hc Hb') as [[_ ->]|Hd]; [congruence|]. consts. lia.
    + exists ptr, k. split; [|done]. rewrite lookup_insert_ne; [done|]. intros Heq.
      destruct (has_block_disjoint _ _ _ _ _ _ _ Hlay Hc Hb') as [[_ ->]|Hd]; [congruence|]. consts. lia.
Qed.

(** A block that a client gives back is the first one, the last one, or has two
    neighbours. *)
Lemma block_cases bs off b :
  has_block bs off b ->
  (exists r, bs = b :: r /\ off = 0) \/ (exists l x, bs = l ++ [x; b] /\ off = total l + bsz x) \/
  (exists l x y r, bs = l ++ x :: b :: y :: r /\ off = total l + bsz x).
Proof.
  intros (l & r & -> & ->)%has_block_split. destruct l as [|x l _] using rev_ind; [left; by exists r|].
  rewrite <- app_assoc, total_app. simpl. right. destruct r as [|y r]; [left; exists l, x|right; exists l, x, y, r];
    (split; [done|lia]).
Qed.

(** Giving up an address without any effect on the memory. *)
Lemma heap_forget_inv mr s bs ptr n :
  heap_inv mr s bs -> live s !! ptr = Some n ->
  heap_inv mr (Heap (hmem s) (delete ptr (live s)) (filter (fun x => x.1 < ptr \/ ptr + n <= x.1) (owned s))) bs.
Proof.
  intros [H1 H2 H3 H4] Hp. split; cbn [hmem live owned]; [done|done|..].
  - intros q k. rewrite lookup_delete. case_decide; [done|auto].
  - intros a v [Ha Hout]%map_lookup_filter_Some. simpl in Hout. destruct (H4 a v Ha) as (Hv & q & k & Hq & Hqa & Hak).
    split; [done|]. exists q, k. rewrite lookup_delete_ne; [done|]. intros <-. rewrite Hp in Hq. injection Hq as <-. lia.
Qed.

Lemma free_inner_inv mr s l x b y r n m' :
  heap_inv mr s (l ++ x :: b :: y :: r) -> used b = true ->
  let ptr := mr + sizeof_mem_region + total l + bsz x + sizeof_hdr in
  live s !! ptr = Some n -> mem_region_free (hmem s) ptr = (true, None, m') ->
  heap_inv mr (Heap m' (delete ptr (live s)) (filter (fun x => x.1 < ptr \/ ptr + n <= x.1) (owned s)))
    (l ++ merged x b y ++ r).
Proof.
  intros Hinv Hu ptr Hp Hfree. pose proof Hinv as [H1 H2 H3 H4].
  destruct (free_region _ _ _ _ _ _ _ H1 Hu) as (m1 & Hf1 & Hreg & Hfr). fold ptr in Hf1. rewrite Hfree in Hf1. injection Hf1 as <-.
  set (q := mr + sizeof_mem_region + total l + bsz x) in *.
  pose proof (rg_layout _ _ _ H1) as Hlay. pose proof Hlay as [Hl (Hx & _ & Hb & _ & Hy & _ & Hr)]%layout_app.
  pose proof (layout_total _ _ _ Hl). pose proof (layout_total _ _ _ Hr).
  pose proof (rg_range _ _ _ H1) as Hrange. rewrite total_app in Hrange. cbn [total foldr] in Hrange. fold (total r) in *.
  change (x :: b :: y :: r) with ([x; b; y] ++ r) in *.
  assert (Hbx : has_block (l ++ [x; b; y] ++ r) (total l) x) by (apply has_block_app; right; left; split; [lia|done]).
  assert (Hbb : has_block (l ++ [x; b; y] ++ r) (total l + bsz x) b)
    by (apply has_block_app; right; right; left; split; [lia|done]).
  assert (Hby : has_block (l ++ [x; b; y] ++ r) (total l + bsz x + bsz b) y)
    by (apply has_block_app; right; right; right; left; split; [lia|done]).
  assert (Hlive : forall p k, delete ptr (live s) !! p = Some k -> live s !! p = Some k /\
    exists off c, has_block (l ++ [x; b; y] ++ r) off c /\ used c = true /\ p = mr + sizeof_mem_region + off + sizeof_hdr /\
      1 <= k <= bsz c - sizeof_hdr - sizeof_trl /\ off <> total l + bsz x).
  { intros p k. rewrite lookup_delete. case_decide; [done|]. intros Hk. split; [done|].
    destruct (H3 p k Hk) as (off & c & Hc & Hcu & Hpp & Hkn). exists off, c. split_and!; try done; [lia|lia|].
    intros ->. unfold ptr, q in *. lia. }
  split; cbn [hmem live owned]; [done|..].
  - apply (isolated_frame _ _ _ _ _ _ H1 H2 Hfr); [unfold q; consts; destruct (used x); lia|].
    rewrite !total_app. simpl. unfold q. consts. destruct (used y); lia.
  - intros p k Hk. destruct (Hlive p k Hk) as (_ & off & c & Hc & Hcu & Hpp & Hkn & Hne). exists off, c. split_and!; try done; try lia.
    apply (has_block_replace l [x; b; y]); [rewrite merged_total; simpl; lia|done|].
    unfold merged. simpl. intros [[Ho ->]|[[Ho ->]|[[Ho ->]|[]]]]; rewrite ?Hcu in *; [destruct (used y); simpl; auto|lia|].
    destruct (used x); simpl; right; [right|]; left; split; lia || done.
  - intros a v [Ha Hout]%map_lookup_filter_Some. simpl in Hout. destruct (H4 a v Ha) as (Hv & p & k & Hk & Hpa & Hak).
    assert (Hk' : delete ptr (live s) !! p = Some k).
    { rewrite lookup_delete_ne; [done|]. intros <-. rewrite Hp in Hk. injection Hk as <-. lia. }
    split; [|by exists p, k]. destruct (Hlive p k Hk') as (_ & off & c & Hc & Hcu & Hpp & Hkn & Hne).
    destruct (has_block_range _ _ _ _ _ Hlay Hc) as (Ho1 & Ho2 & Ho3 & _). rewrite !total_app in Ho2. simpl in Ho2.
    pose proof (rg_pos _ _ _ H1). rewrite Hfr; [done|consts; lia|].
    destruct (has_block_disjoint _ _ _ _ _ _ _ Hlay Hc Hbb) as [[? _]|Hdb]; [done|].
    assert (Hxx : used x = true /\ off = total l \/ off + bsz c <= total l \/ total l + bsz x <= off)
      by (destruct (has_block_disjoint _ _ _ _ _ _ _ Hlay Hc Hbx) as [[? ->]|?]; auto).
    assert (Hyy : used y = true /\ off = total l + bsz x + bsz b \/ off + bsz c <= total l + bsz x + bsz b \/
      total l + bsz x + bsz b + bsz y <= off)
      by (destruct (has_block_disjoint _ _ _ _ _ _ _ Hlay Hc Hby) as [[? ->]|?]; auto).
    unfold q. consts. destruct Hxx as [[-> ?]|?], Hyy as [[-> ?]|?]; destruct (used x), (used y); lia.
Qed.

Lemma write_inv mr s bs ptr n a v :
  heap_inv mr s bs -> live s !! ptr = Some n -> ptr <= a -> a + 4 <= ptr + n ->
  heap_inv mr (Heap (wr (hmem s) a v) (live s) (<[a := v]> (owned s))) bs.
Proof.
  intros Hinv Hp Hpa Han. pose proof Hinv as [H1 H2 H3 H4]. destruct (H3 ptr n Hp) as (off & b & Hb & Hu & -> & Hn).
  destruct (has_block_range _ _ _ _ _ (rg_layout _ _ _ H1) Hb) as (Ho1 & Ho2 & Hok & _).
  pose proof (rg_pos _ _ _ H1). pose proof (rg_range _ _ _ H1). pose proof Hb as (l & r & -> & ->)%has_block_split.
  assert (Hra : in_range a) by (consts; lia). set (p := mr + sizeof_mem_region + total l) in *.
  assert (Hfr : frame (hmem s) (wr (hmem s) a v) p (p + bsz b)) by (apply frame_wr; [done|done|consts; lia]).
  change (b :: r) with ([b] ++ r) in *. rewrite !total_app in *. cbn [total foldr] in *.
  pose proof (rg_layout _ _ _ H1) as [Hl [(_ & Hat & _) Hr]%layout_app]%layout_app.
  pose proof (layout_total _ _ _ Hl). pose proof (layout_total _ _ _ Hr).
  split; cbn [hmem live owned].
  - apply (region_frame (hmem s) _ _ (l ++ [b] ++ r)); [done| |done|].
    + apply (layout_middle (hmem s) _ _ l [b]); [apply H1|consts; lia|rewrite !total_app; simpl; consts; lia|done| |].
      * simpl. by rewrite Z.add_0_r.
      * simpl. split_and!; [done|..|done]; try done. destruct Hat as (B1 & B2 & B3 & B4). fold p in B1, B2, B3, B4.
        fold p. unfold block_at. split_and!; (rewrite rd_wr_ne; [done|done|consts; lia|consts; lia]).
    + intros x Hx Hout. apply Hfr; [done|]. rewrite !total_app in Hout. simpl in Hout. consts. lia.
  - apply (isolated_frame _ _ _ _ _ _ H1 H2 Hfr); [consts; lia|]. rewrite !total_app. simpl. consts. lia.
  - done.
  - intros x w. rewrite lookup_insert. case_decide as Hx.
    + intros [= <-]. subst x. split; [apply rd_wr_eq|]. eauto.
    + intros Hw. destruct (owned_in_block _ _ _ _ _ Hinv Hw) as (q & k & off & c & _ & Hc & _ & _ & _ & _ & Hlo & Hhi).
      destruct (has_block_range _ _ _ _ _ (rg_layout _ _ _ H1) Hc) as (Ho1' & Ho2' & _). rewrite !total_app in Ho2'. simpl in Ho2'.
      rewrite rd_wr_ne; [by apply H4|done|consts; lia|done].
Qed.

Lemma heap_step_inv mr s s' bs : heap_step mr s s' -> heap_inv mr s bs -> exists bs', heap_inv mr s' bs'.
Proof.
  intros Hs Hinv. destruct Hs as [n ptr m' Hn Ha|ptr n ok e m' Hp Hf|ptr n a v Hp Hpa Han _].
  - by eapply alloc_inv.
  - pose proof Hinv as [H1 H2 H3 _]. destruct (H3 ptr n Hp) as (off & b & Hb & Hu & -> & _).
    destruct (block_cases _ _ _ Hb) as [(r & -> & ->)|[(l & x & -> & ->)|(l & x & y & r & -> & ->)]].
    + rewrite Z.add_0_r, (free_first _ _ _ _ H1 H2 Hu) in Hf. injection Hf as <- <- <-. eexists. by apply heap_forget_inv.
    + rewrite Z.add_assoc, (free_last _ _ _ _ _ H1 H2 Hu) in Hf. injection Hf as <- <- <-. eexists. by apply heap_forget_inv.
    + rewrite Z.add_assoc in *. destruct (free_region _ _ _ _ _ _ _ H1 Hu) as (m1 & Hf1 & _). rewrite Hf1 in Hf.
      injection Hf as <- <- <-. eexists. by apply free_inner_inv.
  - eexists. by eapply write_inv.
Qed.

Lemma ceil_word_spec x : 0 <= x < 2 ^ 32 - 3 -> x <= ceil_word x <= x + 3 /\ ceil_word x mod 4 = 0.
Proof.
  intros Hx. unfold ceil_word. rewrite u32_small, floor_mask by (consts; lia). consts.
  pose proof (Z.div_mod (x + (4 - 1)) 4). pose proof (Z.mod_pos_bound (x + (4 - 1)) 4).
  split; [lia|]. by apply Z.mod_mul.
Qed.

Lemma floor_word_spec x : 0 <= x < 2 ^ 32 -> x - 3 <= floor_word x <= x /\ floor_word x mod 4 = 0.
Proof.
  intros Hx. unfold floor_word. rewrite u32_small by lia. rewrite floor_mask by lia.
  pose proof (Z.div_mod x 4). pose proof (Z.mod_pos_bound x 4). split; [lia|]. by apply Z.mod_mul.
Qed.

Lemma create_region m lower upper e mr m' :
  0 < lower < 2 ^ 32 - 32 -> 0 <= upper < 2 ^ 32 -> upper - lower < 2 ^ 31 ->
  mem_region_create m lower upper e = (mr, m') -> mr <> 0 ->
  region m' mr [Blk (floor_word upper - mr - sizeof_mem_region) false].
Proof.
  intros Hlo Hup Hsz Hc Hmr. destruct (ceil_word_spec lower) as [Hb Hb4]; [lia|].
  destruct (floor_word_spec upper Hup) as [Ht Ht4]. unfold mem_region_create in Hc.
  set (b := ceil_word lower) in *. set (t := floor_word upper) in *. consts.
  assert (Ht' : t <= 2 ^ 32 - 4) by (pose proof (Z.div_mod t 4); lia).
  destruct (Z.ltb_spec t b) as [|Hbt]; [by injection Hc as <- _|].
  destruct (Z.ltb_spec (t - b) 16) as [|Hbt']; [by injection Hc as <- _|].
  assert (Hlow : ceil_word (b + 16) = b + 16).
  { unfold ceil_word. rewrite u32_small, floor_mask by (consts; lia). consts.
    pose proof (Z.div_mod b 4). replace (b + 16 + (4 - 1)) with (3 + (b / 4 + 4) * 4) by lia.
    rewrite Z.div_add by lia. change (3 / 4) with 0. lia. }
  rewrite Hlow in Hc. rewrite (u32_small (t - _)) in Hc by lia.
  destruct (Z.ltb_spec (t - (b + 16)) (8 + 4 + 8)) as [|Hmin]; [by injection Hc as <- _|].
  injection Hc as <- <-. unfold put_trl, put_hdr, set_trl_pat, set_trl_size, set_hdr_pat, set_hdr_size.
  split; unfold mr_lower, mr_upper; cbn [total foldr bsz]; consts; try done; try lia.
  - by word_simpl.
  - word_simpl. lia.
  - cbn [layout]. unfold block_at. cbn [bsz used word_of]. consts.
    split_and!; try done; try lia; try mem_solve.
    cbn [bsz]. replace (t - b - 16) with (t - b + (-4) * 4) by lia. rewrite Z.mod_add, Zminus_mod, Hb4, Ht4 by lia. done.
Qed.

(** ** Theorems *)

(** A region of 256 bytes, and the same with three blocks, the second and third
    of them allocated. *)
Definition demo_region : mem := (mem_region_create ∅ 4096 4352 99).2.
Definition demo_blocks : option mem :=
  '(_, m) ← mem_region_alloc demo_region 4096 16;
  '(_, m) ← mem_region_alloc m 4096 20;
  '(_, m) ← mem_region_alloc m 4096 24;
  '(_, m) ← mem_region_alloc m 4096 30;
  Some m.
Definition demo_heap : mem := default ∅ demo_blocks.

Lemma demo_region_ok : region demo_region 4096 [Blk 240 false].
Proof.
  apply (create_region ∅ 4096 4352 99 4096 demo_region); [lia|lia|lia| |done].
  vm_compute. reflexivity.
Qed.

Lemma demo_heap_ok : region demo_heap 4096 [Blk 32 true; Blk 36 true; Blk 40 true; Blk 48 true; Blk 84 false].
Proof. split; vm_compute; intuition congruence. Qed.

(** C33. Allocation and deallocation are what they should be on the list of blocks
    that covers a region: allocation takes the first free block that is big
    enough, splits it and returns its address, or returns NULL if there is none;
    deallocation of an inner block merges it with its free neighbours.  Both
    change memory only inside of the blocks concerned. *)
Theorem heap_refines_blocks m mr bs :
  region m mr bs ->
  (forall n, 1 <= n <= 2 ^ 31 - 20 ->
    match first_fit (gross_size n) bs with
    | None => mem_region_alloc m mr n = Some (0, m)
    | Some (l, b, r) =>
        let p := mr + sizeof_mem_region + total l in
        exists m', mem_region_alloc m mr n = Some (p + sizeof_hdr, m') /\
          region m' mr (l ++ place (gross_size n) b ++ r) /\ frame m m' p (p + bsz b)
    end) /\
  (forall l x b y r, bs = l ++ x :: b :: y :: r -> used b = true ->
    let q := mr + sizeof_mem_region + total l + bsz x in
    exists m', mem_region_free m (q + sizeof_hdr) = (true, None, m') /\ region m' mr (l ++ merged x b y ++ r) /\
      frame m m' (if used x then q else q - bsz x) (q + bsz b + if used y then 0 else bsz y)).
Proof.
  intros Hreg. split; [|intros l x b y r -> Hu; by apply free_region].
  intros n Hn. pose proof (alloc_region m mr bs n Hreg Hn) as Ha.
  destruct (first_fit (gross_size n) bs) as [[[l b] r]|] eqn:E; [|done]. cbn [fst snd] in Ha.
  eexists. split; [exact Ha|]. by apply (placed_region m mr bs).
Qed.

Lemma heap_refines_blocks_witness :
  mem_region_alloc demo_heap 4096 64 = Some (4276, placed demo_heap 4268 80 (Blk 84 false)) /\
  (exists m', mem_region_free demo_heap 4152 = (true, None, m') /\
    region m' 4096 [Blk 32 true; Blk 36 false; Blk 40 true; Blk 48 true; Blk 84 false]).
Proof.
  destruct (heap_refines_blocks demo_heap 4096 [Blk 32 true; Blk 36 true; Blk 40 true; Blk 48 true; Blk 84 false] demo_heap_ok)
    as [Ha Hf]. split.
  - destruct (Ha 64) as (m' & Hm & _); [lia|]. vm_compute. reflexivity.
  - destruct (Hf [] (Blk 32 true) (Blk 36 true) (Blk 40 true) [Blk 48 true; Blk 84 false]) as (m' & Hm & Hr & _);
      [reflexivity|reflexivity|]. exists m'. split; [exact Hm|exact Hr].
Defined.

(** C16. Clients of a region never disturb each other: in every state after its
    creation, whatever was allocated, freed and written, the blocks that clients
    hold are aligned, lie inside of the region and do not overlap, and every word
    that a client wrote to its block still has the value that it wrote. *)
Theorem heap_is_safe m lower upper e mr m0 s :
  0 < lower < 2 ^ 32 - 32 -> 0 <= upper < 2 ^ 32 -> upper - lower < 2 ^ 31 ->
  mem_region_create m lower upper e = (mr, m0) -> mr <> 0 -> isolated m0 mr ->
  rtc (heap_step mr) (Heap m0 ∅ ∅) s ->
  (forall ptr n, live s !! ptr = Some n ->
    mr_lower (hmem s) mr < ptr /\ ptr + n < mr_upper (hmem s) mr /\ ptr mod 4 = 0) /\
  (forall p n q k, live s !! p = Some n -> live s !! q = Some k -> p <> q -> p + n <= q \/ q + k <= p) /\
  (forall a v, owned s !! a = Some v -> rd (hmem s) a = v).
Proof.
  intros Hlo Hup Hsz Hc Hmr Hiso Hrun.
  assert (Hinv : exists bs, heap_inv mr s bs).
  { assert (H0 : exists bs, heap_inv mr (Heap m0 ∅ ∅) bs).
    { eexists. split; [by eapply create_region|done|intros *; simpl; by rewrite lookup_empty..]. }
    revert H0. induction Hrun as [|x y z Hxy _ IH]; [done|]. intros [bs Hx]. apply IH. by eapply heap_step_inv. }
  destruct Hinv as [bs Hinv]. pose proof Hinv as [[R1 R2 R3 R4 R5 R6] _ H3 H4]. split_and!.
  - intros ptr n Hp. destruct (H3 ptr n Hp) as (off & b & Hb & _ & -> & Hn).
    destruct (has_block_range _ _ _ _ _ R6 Hb) as (Ho1 & Ho2 & _ & Ho4). rewrite R2, R3. consts. split_and!; [lia|lia|].
    replace (mr + 16 + off + 8) with (mr + off + 6 * 4) by lia. rewrite Z.mod_add by lia. by apply add_mod_0.
  - intros p n q k Hp Hq Hne. destruct (H3 p n Hp) as (off & b & Hb & _ & -> & Hn).
    destruct (H3 q k Hq) as (off' & b' & Hb' & _ & -> & Hk).
    destruct (has_block_disjoint _ _ _ _ _ _ _ R6 Hb Hb') as [[-> _]|Hd]; [done|]. consts. lia.
  - intros a v Ha. by apply H4.
Qed.

Lemma heap_is_safe_witness :
  exists m1, mem_region_alloc demo_region 4096 16 = Some (4120, m1) /\ rd (wr m1 4124 77) 4124 = 77.
Proof.
  assert (Hp : fst <$> mem_region_alloc demo_region 4096 16 = Some 4120) by (vm_compute; reflexivity).
  apply fmap_Some in Hp as ([ptr m1] & E & Hp). simpl in Hp. subst ptr. exists m1. split; [exact E|].
  destruct (heap_is_safe ∅ 4096 4352 99 4096 demo_region 
    (Heap (wr m1 4124 77) (if decide (4120 = 0) then ∅ else <[4120 := 16]> ∅) (<[4124 := 77]> ∅)))
    as (_ & _ & Hv).
  - lia.
  - lia.
  - lia.
  - vm_compute. reflexivity.
  - lia.
  - split; vm_compute; discriminate.
  - eapply rtc_l; [apply (hs_alloc 4096 (Heap demo_region ∅ ∅) 16 4120 m1); [lia|exact E]|]. apply rtc_once.
    apply (hs_write 4096 (Heap m1 (if decide (4120 = 0) then ∅ else <[4120 := 16]> ∅) ∅) 4120 16 4124 77);
      [reflexivity|lia|lia|reflexivity].
  - apply Hv. reflexivity.
Defined.

(** The first and the last block of a region are never freed: what is next to
    them is not a block, so that the deallocation reports heap corruption, which
    is fatal in the kernel, and the memory stays allocated. *)
Theorem edge_blocks_never_freed m mr l x b r :
  isolated m mr -> used b = true ->
  (region m mr (b :: r) ->
    mem_region_free m (mr + sizeof_mem_region + sizeof_hdr) = (false, Some MERR_CORRUPTION, m)) /\
  (region m mr (l ++ [x; b]) ->
    mem_region_free m (mr + sizeof_mem_region + total l + bsz x + sizeof_hdr) = (false, Some MERR_CORRUPTION, m)).
Proof. intros Hi Hu. split; intros Hr; [by apply (free_first m mr b r)|by apply (free_last m mr l x b)]. Qed.

Lemma edge_blocks_never_freed_witness :
  mem_region_free demo_heap 4120 = (false, Some MERR_CORRUPTION, demo_heap).
Proof.
  apply (edge_blocks_never_freed demo_heap 4096 [] (Blk 32 true) (Blk 32 true)
    [Blk 36 true; Blk 40 true; Blk 48 true; Blk 84 false]);
    [split; vm_compute; discriminate|reflexivity|exact demo_heap_ok].
Defined.

(** Growing a block in place never succeeds: the test whether the following block
    is free looks at the block itself. *)
Lemma grow_never_succeeds m ptr n : exists e, mem_region_grow_block m ptr n = (false, e, m).
Proof.
  unfold mem_region_grow_block, corrupt. destruct (_ <? n); [eauto|]. destruct (negb _); [eauto|].
  destruct (Z.leb_spec 0 (hdr_size m (ptr - sizeof_hdr))); [eauto|]. destruct (negb _); [eauto|]. destruct (negb _); [eauto|].
  rewrite (proj2 (Z.ltb_lt _ _)) by done. eauto.
Qed.

Definition huge_request : option (Z * mem) := mem_region_alloc demo_region 4096 MAX_NET_BLOCK_SIZE.
Definition huge_heap : mem := default ∅ (snd <$> huge_request).

(** A request just below the limit MAX_NET_BLOCK_SIZE overflows the size of
    the block: a region of 256 bytes grants two gigabytes, and the header that is
    written leaves the region without a valid block. *)
Theorem huge_request_granted :
  mem_region_alloc demo_region 4096 MAX_NET_BLOCK_SIZE = Some (4120, huge_heap) /\
  gross_size MAX_NET_BLOCK_SIZE = - 2 ^ 31 /\ forall bs, ~ region huge_heap 4096 bs.
Proof.
  assert (Hp : fst <$> huge_request = Some 4120) by (vm_compute; reflexivity).
  assert (Hs : hdr_size huge_heap 4112 = - 2 ^ 31) by (vm_compute; reflexivity).
  assert (Hu : mr_upper huge_heap 4096 = 4352) by (vm_compute; reflexivity).
  split_and!; [|reflexivity|].
  - fold huge_request. unfold huge_heap. apply fmap_Some in Hp as ([ptr m'] & -> & ->). reflexivity.
  - generalize dependent huge_heap. intros m' Hs Hu bs [R1 R2 R3 R4 R5 R6]. destruct bs as [|b bs].
    + rewrite Hu in R3. vm_compute in R3. discriminate R3.
    + destruct R6 as (Hb & (B1 & _) & Hl). pose proof (layout_total _ _ _ Hl). cbn [total foldr] in R5.
      fold (total bs) in R5. unfold hdr_size in Hs. change (4096 + sizeof_mem_region) with 4112 in B1. rewrite Hs in B1.
      unfold word_of in B1. consts. destruct (used b); lia.
Qed.
