(* ===== verification/QSort.v ===== *)
(** * Sorting (user/lib/libc/src/stdlib/qsort.c)

    The quicksort of the C library.  An array of [count] elements is a list; an
    access outside of it is [None].  The theorem: the result is a sorted
    permutation, and every access is inside of the array. *)

From S2P Require Import Prelude.

Section QSort.
Context {A : Type} (comp : A -> A -> Z).

Definition get (a : list A) (i : Z) : option A := if i <? 0 then None else a !! Z.to_nat i.

(** The swap functions exchange the bytes of two elements. *)
Definition swap (a : list A) (i j : Z) : option (list A) :=
  x ← get a i; y ← get a j; Some (<[Z.to_nat i := y]> (<[Z.to_nat j := x]> a)).

(** [while (comp(values + (++i) * size, v) < 0) if (i == hi) break;] *)
Fixpoint scan_up (fuel : nat) (a : list A) (lo hi i : Z) : option Z :=
  match fuel with
  | O => None
  | S fuel =>
      let i := i + 1 in
      x ← get a i; v ← get a lo;
      if comp x v <? 0 then if i =? hi then Some i else scan_up fuel a lo hi i else Some i
  end.

(** [while (comp(v, values + (--j) * size) < 0) if (j == lo) break;] *)
Fixpoint scan_down (fuel : nat) (a : list A) (lo j : Z) : option Z :=
  match fuel with
  | O => None
  | S fuel =>
      let j := j - 1 in
      v ← get a lo; x ← get a j;
      if comp v x <? 0 then if j =? lo then Some j else scan_down fuel a lo j else Some j
  end.

Fixpoint partition_loop (fuel : nat) (a : list A) (lo hi i j : Z) : option (list A * Z) :=
  match fuel with
  | O => None
  | S fuel =>
      i ← scan_up (Z.to_nat (hi - i)) a lo hi i;
      j ← scan_down (Z.to_nat (j - lo)) a lo j;
      if j <=? i then Some (a, j)
      else a ← swap a i j; partition_loop fuel a lo hi i j
  end.

Definition partition (a : list A) (lo hi : Z) : option (list A * Z) :=
  '(a, j) ← partition_loop (Z.to_nat (hi - lo + 1)) a lo hi lo (hi + 1);
  a ← swap a lo j;
  Some (a, j).

Fixpoint qsort_range (fuel : nat) (a : list A) (lo hi : Z) : option (list A) :=
  if hi <=? lo then Some a
  else match fuel with
       | O => None
       | S fuel =>
           '(a, j) ← partition a lo hi;
           a ← qsort_range fuel a lo (j - 1);
           qsort_range fuel a (j + 1) hi
       end.

(** The recursion is at most [count] deep. *)
Definition qsort (a : list A) : option (list A) :=
  let count := Z.of_nat (length a) in
  if 1 <? count then qsort_range (length a) a 0 (count - 1) else Some a.

(** ** Rearrangements of a range *)

(** [b] is [a] with the elements from [lo] to [hi] rearranged. *)
Definition rearranged (lo hi : Z) (a b : list A) : Prop :=
  length b = length a /\
  exists f : Z -> Z, (forall i j, f i = f j -> i = j) /\ (forall k, k < lo \/ hi < k -> f k = k) /\
    (forall k, lo <= k <= hi -> lo <= f k <= hi) /\ forall k, get b k = get a (f k).

Lemma get_range a i x : get a i = Some x -> 0 <= i < Z.of_nat (length a).
Proof.
  unfold get. destruct (Z.ltb_spec i 0); [done|]. intros Hx%lookup_lt_Some. lia.
Qed.

Lemma get_some a i : 0 <= i < Z.of_nat (length a) -> exists x, get a i = Some x.
Proof.
  intros Hi. unfold get. rewrite (proj2 (Z.ltb_ge _ _)) by lia. apply lookup_lt_is_Some_2. lia.
Qed.

Lemma rearranged_refl lo hi a : rearranged lo hi a a.
Proof. split; [done|]. exists (fun k => k). auto. Qed.

Lemma rearranged_trans lo hi a b c : rearranged lo hi a b -> rearranged lo hi b c -> rearranged lo hi a c.
Proof.
  intros [Hl (f & F1 & F2 & F3 & F4)] [Hl' (g & G1 & G2 & G3 & G4)]. split; [congruence|].
  exists (fun k => f (g k)). split_and!.
  - intros i j Hij. by apply G1, F1.
  - intros k Hk. rewrite (G2 k), (F2 k); auto.
  - auto.
  - intros k. by rewrite G4, F4.
Qed.

Lemma rearranged_weaken lo hi lo' hi' a b :
  lo' <= lo -> hi <= hi' -> rearranged lo hi a b -> rearranged lo' hi' a b.
Proof.
  intros Hlo Hhi [Hl (f & F1 & F2 & F3 & F4)]. split; [done|]. exists f. split_and!; [done| |..|done].
  - intros k Hk. apply F2. lia.
  - intros k Hk. destruct (decide (lo <= k <= hi)) as [Hin|Hout]; [specialize (F3 k Hin); lia|]. rewrite F2; lia.
Qed.

Lemma swap_spec a i j :
  0 <= i < Z.of_nat (length a) -> 0 <= j < Z.of_nat (length a) ->
  exists b, swap a i j = Some b /\ length b = length a /\
    forall k, get b k = get a (if decide (k = i) then j else if decide (k = j) then i else k).
Proof.
  intros Hi Hj. destruct (get_some a i Hi) as [x Hx]. destruct (get_some a j Hj) as [y Hy].
  unfold swap. rewrite Hx, Hy. eexists. split; [reflexivity|]. split; [by rewrite !length_insert|].
  intros k. unfold get in *. rewrite (proj2 (Z.ltb_ge i 0)) in Hx by lia. rewrite (proj2 (Z.ltb_ge j 0)) in Hy by lia.
  repeat case_decide; subst.
  - rewrite !(proj2 (Z.ltb_ge _ _)) by lia. rewrite list_lookup_insert_eq by (rewrite length_insert; lia). done.
  - rewrite !(proj2 (Z.ltb_ge _ _)) by lia. rewrite list_lookup_insert_ne by lia. by rewrite list_lookup_insert_eq by lia.
  - destruct (Z.ltb_spec k 0); [done|]. by rewrite !list_lookup_insert_ne by lia.
Qed.

Lemma swap_rearranged lo hi a i j b :
  lo <= i <= hi -> lo <= j <= hi -> length b = length a ->
  (forall k, get b k = get a (if decide (k = i) then j else if decide (k = j) then i else k)) ->
  rearranged lo hi a b.
Proof.
  intros Hi Hj Hl Hg. split; [done|]. eexists. split_and!; [| | |exact Hg].
  - intros k k' Hk. simpl in Hk. repeat case_decide; subst; lia.
  - intros k Hk. simpl. repeat case_decide; lia.
  - intros k Hk. simpl. repeat case_decide; lia.
Qed.

(** A rearrangement of the whole array is a permutation. *)
Lemma rearranged_perm lo hi a b : rearranged lo hi a b -> 0 <= lo -> b ≡ₚ a.
Proof.
  intros [Hl (f & F1 & F2 & F3 & F4)] Hlo. apply Permutation_inj. split; [done|].
  assert (Hpos : forall k, 0 <= k -> 0 <= f k).
  { intros k Hk. destruct (decide (lo <= k <= hi)) as [Hin|]; [specialize (F3 k Hin); lia|]. rewrite F2; lia. }
  exists (fun k => Z.to_nat (f (Z.of_nat k))). split.
  - intros i j Hij. apply Nat2Z.inj, F1. apply Z2Nat.inj in Hij; [done|apply Hpos; lia..].
  - intros i. specialize (F4 (Z.of_nat i)). unfold get in F4. rewrite Nat2Z.id in F4.
    rewrite !(proj2 (Z.ltb_ge _ _)) in F4 by (try apply Hpos; lia). done.
Qed.

(** ** Partitioning *)

Context (comp_total : forall x y, 0 <= comp x y -> comp y x <= 0).
Context (comp_trans : forall x y z, comp x y <= 0 -> comp y z <= 0 -> comp x z <= 0).

(** All elements with an index that satisfies [P] are at most, or at least, [v]. *)
Definition below (a : list A) (v : A) (P : Z -> Prop) : Prop := forall k x, P k -> get a k = Some x -> comp x v <= 0.
Definition above (a : list A) (v : A) (P : Z -> Prop) : Prop := forall k x, P k -> get a k = Some x -> comp v x <= 0.

Lemma scan_up_spec fuel a lo hi i v :
  get a lo = Some v -> 0 <= lo <= i -> i < hi < Z.of_nat (length a) -> (Z.to_nat (hi - i) <= fuel)%nat ->
  exists i', scan_up fuel a lo hi i = Some i' /\ i < i' <= hi /\ below a v (fun k => i < k < i') /\
    (i' = hi \/ exists x, get a i' = Some x /\ 0 <= comp x v).
Proof.
  intros Hv. revert i. induction fuel as [|fuel IH]; intros i Hlo Hi Hf; [lia|]. simpl.
  destruct (get_some a (i + 1)) as [x Hx]; [lia|]. rewrite Hx, Hv. simpl.
  destruct (Z.ltb_spec (comp x v) 0) as [Hlt|Hge].
  - destruct (Z.eqb_spec (i + 1) hi) as [E|E].
    + exists (i + 1). split_and!; [done|lia|lia| |by left]. intros k y Hk. lia.
    + destruct (IH (i + 1)) as (i' & -> & Hi' & Hb & Hs); [lia|lia|lia|]. exists i'. split_and!; [done|lia|lia| |done].
      intros k y Hk Hy. destruct (decide (k = i + 1)) as [->|]; [|apply (Hb k); [lia|done]]. rewrite Hx in Hy. injection Hy as <-. lia.
  - exists (i + 1). split_and!; [done|lia|lia| |right; eauto]. intros k y Hk. lia.
Qed.

Lemma scan_down_spec fuel a lo j v :
  get a lo = Some v -> 0 <= lo < j -> j <= Z.of_nat (length a) -> (Z.to_nat (j - lo) <= fuel)%nat ->
  exists j', scan_down fuel a lo j = Some j' /\ lo <= j' < j /\ above a v (fun k => j' < k < j) /\
    (j' = lo \/ exists x, get a j' = Some x /\ 0 <= comp v x).
Proof.
  intros Hv. revert j. induction fuel as [|fuel IH]; intros j Hlo Hj Hf; [lia|]. simpl.
  destruct (get_some a (j - 1)) as [x Hx]; [lia|]. rewrite Hx, Hv. simpl.
  destruct (Z.ltb_spec (comp v x) 0) as [Hlt|Hge].
  - destruct (Z.eqb_spec (j - 1) lo) as [E|E].
    + exists (j - 1). split_and!; [done|lia|lia| |by left]. intros k y Hk. lia.
    + destruct (IH (j - 1)) as (j' & -> & Hj' & Hb & Hs); [lia|lia|lia|]. exists j'. split_and!; [done|lia|lia| |done].
      intros k y Hk Hy. destruct (decide (k = j - 1)) as [->|]; [|apply (Hb k); [lia|done]]. rewrite Hx in Hy. injection Hy as <-. lia.
  - exists (j - 1). split_and!; [done|lia|lia| |right; eauto]. intros k y Hk. lia.
Qed.

Lemma partition_loop_spec fuel a lo hi i j v :
  get a lo = Some v -> 0 <= lo <= i -> i < hi < Z.of_nat (length a) -> i < j <= hi + 1 ->
  below a v (fun k => lo < k <= i) -> above a v (fun k => j <= k <= hi) -> (Z.to_nat (j - i) <= fuel)%nat ->
  exists b m, partition_loop fuel a lo hi i j = Some (b, m) /\ rearranged lo hi a b /\ get b lo = Some v /\ lo <= m <= hi /\
    below b v (fun k => lo < k <= m) /\ above b v (fun k => m < k <= hi).
Proof.
  revert a i j. induction fuel as [|fuel IH]; intros a i j Hv Hlo Hi Hj Hbel Habv Hf; [lia|]. cbn [partition_loop].
  destruct (scan_up_spec (Z.to_nat (hi - i)) a lo hi i v) as (i' & -> & Hi' & Hb1 & Hs1); [done|lia|lia|lia|].
  cbn [mbind option_bind].
  destruct (scan_down_spec (Z.to_nat (j - lo)) a lo j v) as (j' & -> & Hj' & Hb2 & Hs2); [done|lia|lia|lia|].
  cbn [mbind option_bind]. destruct (Z.leb_spec j' i') as [Hij|Hij].
  - exists a, j'. split_and!; [done|apply rearranged_refl|done|lia|lia| |].
    + intros k x Hk Hx. destruct (decide (k <= i)) as [|Hki]; [apply (Hbel k); [lia|done]|].
      destruct (decide (k < i')) as [|Hki']; [apply (Hb1 k); [lia|done]|].
      assert (k = j') as -> by lia. destruct Hs2 as [->|(y & Hy & Hc)]; [lia|]. rewrite Hx in Hy. injection Hy as <-. auto.
    + intros k x Hk Hx. destruct (decide (j <= k)) as [|Hkj]; [apply (Habv k); [lia|done]|apply (Hb2 k); [lia|done]].
  - destruct (swap_spec a i' j') as (b & -> & Hl & Hg); [lia|lia|]. cbn [mbind option_bind].
    destruct Hs1 as [->|(x & Hx & Hcx)]; [lia|]. destruct Hs2 as [->|(y & Hy & Hcy)]; [lia|].
    assert (Hvb : get b lo = Some v) by (rewrite Hg, !decide_False by lia; done).
    destruct (IH b i' j') as (c & m & Hc & Hr & Hrest); [done|lia|rewrite Hl; lia|lia| | |lia|].
    + intros k z Hk Hz. rewrite Hg in Hz. repeat case_decide; subst; try lia.
      * rewrite Hy in Hz. injection Hz as <-. auto.
      * destruct (decide (k <= i)); [apply (Hbel k); [lia|done]|apply (Hb1 k); [lia|done]].
    + intros k z Hk Hz. rewrite Hg in Hz. repeat case_decide; subst; try lia.
      * rewrite Hx in Hz. injection Hz as <-. auto.
      * destruct (decide (j <= k)); [apply (Habv k); [lia|done]|apply (Hb2 k); [lia|done]].
    + exists c, m. split; [done|]. split; [|done]. apply (rearranged_trans _ _ _ b); [|done].
      apply (swap_rearranged _ _ _ i' j'); [lia|lia|done|done].
Qed.

Lemma partition_spec a lo hi :
  0 <= lo < hi -> hi < Z.of_nat (length a) ->
  exists b m v, partition a lo hi = Some (b, m) /\ rearranged lo hi a b /\ lo <= m <= hi /\ get b m = Some v /\
    below b v (fun k => lo <= k < m) /\ above b v (fun k => m < k <= hi).
Proof.
  intros Hlo Hhi. destruct (get_some a lo) as [v Hv]; [lia|]. unfold partition.
  destruct (partition_loop_spec (Z.to_nat (hi - lo + 1)) a lo hi lo (hi + 1) v) as (b & m & -> & Hr & Hvb & Hm & Hb & Ha);
    [done|lia|lia|lia|intros k x Hk; lia|intros k x Hk; lia|lia|]. cbn [mbind option_bind].
  assert (Hl : length b = length a) by apply Hr.
  destruct (swap_spec b lo m) as (c & -> & Hlc & Hg); [lia|lia|]. exists c, m, v. split; [done|]. split_and!; [|lia|lia| |..].
  - apply (rearranged_trans _ _ _ b); [done|]. apply (swap_rearranged _ _ _ lo m); [lia|lia|done|done].
  - rewrite Hg. case_decide; [subst; done|]. by rewrite decide_True.
  - intros k x Hk Hx. rewrite Hg in Hx. repeat case_decide; subst; try lia.
    + apply (Hb m); [lia|done].
    + apply (Hb k); [lia|done].
  - intros k x Hk Hx. rewrite Hg in Hx. repeat case_decide; subst; try lia. apply (Ha k); [lia|done].
Qed.

(** ** Sorting *)

Definition sorted_range (a : list A) (lo hi : Z) : Prop :=
  forall i j x y, lo <= i -> i < j -> j <= hi -> get a i = Some x -> get a j = Some y -> comp x y <= 0.

(** Bounds survive a rearrangement of the elements that they speak about. *)
Lemma rearranged_get lo hi a b k x :
  rearranged lo hi a b -> get b k = Some x -> exists k', get a k' = Some x /\ (k' = k \/ lo <= k' <= hi) /\
    (k < lo \/ hi < k -> k' = k) /\ (lo <= k <= hi -> lo <= k' <= hi).
Proof.
  intros [_ (f & F1 & F2 & F3 & F4)] Hx. rewrite F4 in Hx. exists (f k). split; [done|].
  destruct (decide (lo <= k <= hi)) as [Hin|Hout]; [specialize (F3 k Hin); lia|]. rewrite F2 by lia. lia.
Qed.

Lemma qsort_range_spec fuel a lo hi :
  0 <= lo -> hi < Z.of_nat (length a) -> (Z.to_nat (hi - lo + 1) <= fuel)%nat ->
  exists b, qsort_range fuel a lo hi = Some b /\ rearranged lo hi a b /\ sorted_range b lo hi.
Proof.
  revert a lo hi. induction fuel as [|fuel IH]; intros a lo hi Hlo Hhi Hf; cbn [qsort_range];
    (destruct (Z.leb_spec hi lo); [exists a; split_and!; [done|apply rearranged_refl|intros i j x y; lia]|]); [lia|].
  destruct (partition_spec a lo hi) as (b & m & v & -> & Hr & Hm & Hv & Hb & Ha); [lia|lia|]. cbn [mbind option_bind].
  assert (Hlb : length b = length a) by apply Hr.
  destruct (IH b lo (m - 1)) as (c & -> & Hrc & Hsc); [lia|lia|lia|]. cbn [mbind option_bind].
  assert (Hlc : length c = length b) by apply Hrc.
  destruct (IH c (m + 1) hi) as (d & -> & Hrd & Hsd); [lia|lia|lia|]. exists d. split; [done|]. split.
  - apply (rearranged_trans _ _ _ b); [done|]. apply (rearranged_trans _ _ _ c);
      [by apply (rearranged_weaken lo (m - 1)); [lia|lia|]|by apply (rearranged_weaken (m + 1) hi); [lia|lia|]].
  - assert (Hlow : forall k x, lo <= k < m -> get d k = Some x -> comp x v <= 0 /\ get c k = Some x).
    { intros k x Hk Hx. destruct (rearranged_get _ _ _ _ _ _ Hrd Hx) as (k1 & H1 & _ & E1 & _). rewrite E1 in H1 by lia.
      split; [|done]. destruct (rearranged_get _ _ _ _ _ _ Hrc H1) as (k2 & H2 & _ & _ & E2). apply (Hb k2); [lia|done]. }
    assert (Hhigh : forall k x, m < k <= hi -> get d k = Some x -> comp v x <= 0).
    { intros k x Hk Hx. destruct (rearranged_get _ _ _ _ _ _ Hrd Hx) as (k1 & H1 & _ & _ & E1).
      destruct (rearranged_get _ _ _ _ _ _ Hrc H1) as (k2 & H2 & _ & E2 & _). rewrite E2 in H2 by lia. apply (Ha k1); [lia|done]. }
    assert (Hmid : forall x, get d m = Some x -> x = v).
    { intros x Hx. destruct (rearranged_get _ _ _ _ _ _ Hrd Hx) as (k1 & H1 & _ & E1 & _). rewrite E1 in H1 by lia.
      destruct (rearranged_get _ _ _ _ _ _ Hrc H1) as (k2 & H2 & _ & E2 & _). rewrite E2 in H2 by lia. congruence. }
    assert (Hle : forall k x, lo <= k <= m -> get d k = Some x -> comp x v <= 0).
    { intros k x Hk Hx. destruct (decide (k = m)) as [->|]; [rewrite (Hmid x Hx)|by apply (Hlow k); [lia|]].
      destruct (decide (0 <= comp v v)); [by apply comp_total|lia]. }
    intros i j x y H1 H2 H3 Hx Hy. destruct (decide (j < m)) as [Hjm|Hjm].
    + apply (Hsc i j); [lia|lia|lia|apply (Hlow i); [lia|done]|apply (Hlow j); [lia|done]].
    + destruct (decide (i <= m)) as [Him|Him]; [|apply (Hsd i j); [lia|lia|lia|done|done]].
      destruct (decide (j = m)) as [->|]; [rewrite (Hmid y Hy); by apply (Hle i)|].
      apply (comp_trans _ v); [by apply (Hle i)|apply (Hhigh j); [lia|done]].
Qed.
End QSort.

(** ** Theorem *)

(** C35. For every comparison function that is a total preorder, qsort terminates
    without an access outside of the array, and the array holds the same
    elements in ascending order afterwards. *)
Theorem qsort_sorts {A} (comp : A -> A -> Z) (a : list A) :
  (forall x y, 0 <= comp x y -> comp y x <= 0) ->
  (forall x y z, comp x y <= 0 -> comp y z <= 0 -> comp x z <= 0) ->
  exists b, qsort comp a = Some b /\ b ≡ₚ a /\
    forall i j x y, (i < j)%nat -> b !! i = Some x -> b !! j = Some y -> comp x y <= 0.
Proof.
  intros Htotal Htrans. unfold qsort. destruct (Z.ltb_spec 1 (Z.of_nat (length a))).
  - destruct (qsort_range_spec comp Htotal Htrans (length a) a 0 (Z.of_nat (length a) - 1)) as (b & Hb & Hr & Hs);
      [lia|lia|lia|]. exists b. split; [done|]. split; [by apply (rearranged_perm _ _ _ _ Hr)|].
    assert (Hl : length b = length a) by apply Hr. intros i j x y Hij Hx Hy. pose proof (lookup_lt_Some _ _ _ Hy).
    apply (Hs (Z.of_nat i) (Z.of_nat j)); unfold get; rewrite ?(proj2 (Z.ltb_ge _ _)), ?Nat2Z.id by lia; done || lia.
  - exists a. split_and!; [done|done|]. intros i j x y Hij Hx Hy. pose proof (lookup_lt_Some _ _ _ Hy). lia.
Qed.

Lemma qsort_sorts_witness :
  exists b, qsort Z.sub [5; 3; 9; 1; 3; 7] = Some b /\ b = [1; 3; 3; 5; 7; 9] /\ b ≡ₚ [5; 3; 9; 1; 3; 7].
Proof.
  destruct (qsort_sorts Z.sub [5; 3; 9; 1; 3; 7]) as (b & Hb & Hp & _); [lia|lia|].
  exists b. split; [exact Hb|]. split; [vm_compute in Hb; by injection Hb as <-|exact Hp].
Defined.
