(* ===== verification/Calendar.v ===== *)
(** * Calendar and time of day (user/lib/libc/src/time: gregorian_calendar.c, localtime_r.c, mktime.c)

    The conversions between days since 1970-01-01 and dates of the Gregorian
    calendar, and between seconds and broken-down time.  The theorems: the day
    number advances by one from a date to the next one as the calendar's own
    tables of leap years and month lengths say, the conversions are inverse to
    each other, and so are localtime_r and mktime. *)

From S2P Require Import Prelude.

(** [C / D] and [C % D] on signed integers round towards zero. *)
Definition b2z (b : bool) : Z := if b then 1 else 0.

(** ** gregorian_calendar.c *)

Definition gc_days_from_civil (y m d : Z) : Z :=
  let y := y - b2z (m <=? 2) in
  let era := Z.quot (if 0 <=? y then y else y - 399) 400 in
  let yoe := u32 (y - era * 400) in
  let doy := u32 ((153 * (if 2 <? m then m - 3 else m + 9) + 2) / 5 + d - 1) in
  let doe := u32 (yoe * 365 + yoe / 4 - yoe / 100 + doy) in
  era * 146097 + doe - 719468.

Definition gc_civil_from_days (z : Z) : Z * Z * Z :=
  let z := z + 719468 in
  let era := Z.quot (if 0 <=? z then z else z - 146096) 146097 in
  let doe := u32 (z - era * 146097) in
  let yoe := u32 (doe - doe / 1460 + doe / 36524 - doe / 146096) / 365 in
  let y := yoe + era * 400 in
  let doy := u32 (doe - (365 * yoe + yoe / 4 - yoe / 100)) in
  let mp := (5 * doy + 2) / 153 in
  let d := u32 (doy - (153 * mp + 2) / 5 + 1) in
  let m := if mp <? 10 then mp + 3 else mp - 9 in
  (y + b2z (m <=? 2), m, d).

Definition gc_weekday_from_days (z : Z) : Z :=
  u32 (if -4 <=? z then Z.rem (z + 4) 7 else Z.rem (z + 5) 7 + 6).

Definition gc_is_leap (y : Z) : bool :=
  (Z.rem y 4 =? 0) && (negb (Z.rem y 100 =? 0) || (Z.rem y 400 =? 0)).

Definition gc_last_day_of_month_common_year (m : Z) : Z :=
  arr_get 0 [31; 28; 31; 30; 31; 30; 31; 31; 30; 31; 30; 31] (m - 1).

Definition gc_last_day_of_month_leap_year (m : Z) : Z :=
  arr_get 0 [31; 29; 31; 30; 31; 30; 31; 31; 30; 31; 30; 31] (m - 1).

Definition gc_last_day_of_month (y m : Z) : Z :=
  if negb (m =? 2) || negb (gc_is_leap y) then gc_last_day_of_month_common_year m else 29.

Definition gc_weekday_difference (x y : Z) : Z :=
  let x := u32 (x - y) in if x <=? 6 then x else u32 (x + 7).

(** ** localtime_r.c and mktime.c *)

Record tm := Tm {
  tm_sec : Z; tm_min : Z; tm_hour : Z; tm_mday : Z; tm_mon : Z; tm_year : Z; tm_wday : Z; tm_yday : Z; tm_isdst : Z }.

(** [None] is NULL with EOVERFLOW. *)
Definition localtime_r (now : Z) : option tm :=
  if now <? 0 then None
  else
    let days := Z.quot now 86400 in
    let now := now - days * 86400 in
    let hours := Z.quot now 3600 in
    let now := now - hours * 3600 in
    let mins := Z.quot now 60 in
    let secs := now - mins * 60 in
    let '(y, m, d) := gc_civil_from_days days in
    Some (Tm secs mins hours d (m - 1) (y - 1900) (gc_weekday_from_days days) (days - gc_days_from_civil y 1 1) 0).

Definition clamp (lo hi x : Z) : Z := let x := if x <? lo then lo else x in if hi <? x then hi else x.

(** The fields are clamped and tm_wday and tm_yday are set.  [long] is 32 bits
    wide.  [None] is -1 with EOVERFLOW. *)
Definition mktime (t : tm) : option (Z * tm) :=
  let t := Tm (clamp 0 60 (tm_sec t)) (clamp 0 59 (tm_min t)) (clamp 0 23 (tm_hour t)) (clamp 0 31 (tm_mday t))
             (clamp 0 11 (tm_mon t)) (if tm_year t <? 0 then 0 else tm_year t) (tm_wday t) (tm_yday t) (tm_isdst t) in
  let year := tm_year t + 1900 in
  let days := gc_days_from_civil year (tm_mon t + 1) (tm_mday t) in
  let secs := tm_hour t * 60 * 60 + tm_min t * 60 + tm_sec t in
  let r := s32 (s32 (days * 86400) + secs) in
  if 0 <=? r then
    Some (r, Tm (tm_sec t) (tm_min t) (tm_hour t) (tm_mday t) (tm_mon t) (tm_year t) (gc_weekday_from_days days)
               (days - gc_days_from_civil year 1 1) (tm_isdst t))
  else None.

(** ** Arithmetic of the calendar

    A year of the era runs from March to February; [mp] is its month. *)

Ltac divs := Z.to_euclidean_division_equations; lia.

Definition month_of (mp : Z) : Z := if mp <? 10 then mp + 3 else mp - 9.
Definition month_start (mp : Z) : Z := (153 * mp + 2) / 5.

(** Rounding towards minus infinity with a division that rounds towards zero. *)
Lemma quot_floor x n k : 0 < n -> k = n - 1 -> Z.quot (if 0 <=? x then x else x - k) n = x / n.
Proof.
  intros Hn ->. destruct (Z.leb_spec 0 x); [by apply Z.quot_div_nonneg|].
  replace (x - (n - 1)) with (- (n - 1 - x)) by lia. rewrite Z.quot_opp_l, Z.quot_div_nonneg by lia.
  rewrite <- (Z.opp_involutive (x / n)). f_equal. pose proof (Z.div_mod x n ltac:(lia)). pose proof (Z.mod_pos_bound x n Hn).
  symmetry. apply Z.div_unique_pos with (r := n - 1 - x mod n); [lia|]. lia.
Qed.

(** The day of the era. *)
Definition doe_of (yoe doy : Z) : Z := yoe * 365 + yoe / 4 - yoe / 100 + doy.

(** The number of days of a year of the era. *)
Definition leap_yoe (yoe : Z) : bool := ((yoe + 1) mod 4 =? 0) && (negb ((yoe + 1) mod 100 =? 0) || ((yoe + 1) mod 400 =? 0)).
Definition year_days (yoe : Z) : Z := if leap_yoe yoe then 366 else 365.

Lemma year_parts yoe : 0 <= yoe < 400 ->
  exists c q r, 0 <= c < 4 /\ 0 <= q < 25 /\ 0 <= r < 4 /\ yoe = 100 * c + 4 * q + r /\ yoe / 4 = 25 * c + q /\ yoe / 100 = c.
Proof. intros Hy. exists (yoe / 100), (yoe mod 100 / 4), (yoe mod 4). divs. Qed.

Lemma leap_parts c q r : 0 <= c < 4 -> 0 <= q < 25 -> 0 <= r < 4 ->
  leap_yoe (100 * c + 4 * q + r) = (r =? 3) && (negb (q =? 24) || (c =? 3)).
Proof.
  intros Hc Hq Hr. unfold leap_yoe. set (y := 100 * c + 4 * q + r).
  replace ((y + 1) mod 4 =? 0) with (r =? 3) by (apply eq_true_iff_eq; rewrite !Z.eqb_eq; unfold y; divs).
  destruct (Z.eqb_spec r 3) as [->|]; [|done]. simpl.
  replace ((y + 1) mod 100 =? 0) with (q =? 24) by (apply eq_true_iff_eq; rewrite !Z.eqb_eq; unfold y; divs).
  destruct (Z.eqb_spec q 24) as [->|]; [|done]. simpl. apply eq_true_iff_eq. rewrite !Z.eqb_eq. unfold y. divs.
Qed.

Lemma doe_parts yoe doy : 0 <= yoe < 400 -> 0 <= doy < year_days yoe ->
  let doe := doe_of yoe doy in 0 <= doe < 146097 /\ (doe - doe / 1460 + doe / 36524 - doe / 146096) / 365 = yoe.
Proof.
  intros Hy Hd doe. destruct (year_parts yoe Hy) as (c & q & r & Hc & Hq & Hr & E & E4 & E100).
  unfold year_days in Hd. rewrite E, leap_parts in Hd by done.
  assert (Edoe : doe = 36524 * c + 1461 * q + 365 * r + doy) by (unfold doe, doe_of; lia).
  clearbody doe.
  assert (Hleap : doy < 365 \/ doy = 365 /\ r = 3 /\ (q < 24 \/ c = 3)).
  { destruct (Z.eqb_spec r 3), (Z.eqb_spec q 24), (Z.eqb_spec c 3); simpl in Hd; lia. }
  split; [lia|].
  assert (H36 : doe / 36524 - doe / 146096 = c) by divs.
  assert (H14 : doe / 1460 = 25 * c + q + if decide (1460 <= 24 * c + q + 365 * r + doy) then 1 else 0)
    by (case_decide; divs).
  replace (doe - doe / 1460 + doe / 36524 - doe / 146096) with (doe - doe / 1460 + (doe / 36524 - doe / 146096)) by lia.
  rewrite H36, H14. symmetry. apply Z.div_unique_pos with (r := doy - if decide (1460 <= 24 * c + q + 365 * r + doy) then 1 else 0);
    case_decide; lia.
Qed.

(** *** Dates *)

(** The year that starts in March and its month. *)
Definition march_year (y m : Z) : Z := y - b2z (m <=? 2).
Definition march_month (m : Z) : Z := if 2 <? m then m - 3 else m + 9.

(** The day number of day [doy] of the year [y'] that starts in March. *)
Definition day_number (y' doy : Z) : Z := y' / 400 * 146097 + doe_of (y' mod 400) doy - 719468.

Definition valid_date (y m d : Z) : Prop := 1 <= m <= 12 /\ 1 <= d <= gc_last_day_of_month y m.

Lemma rem_eqb x n : n <> 0 -> (Z.rem x n =? 0) = (x mod n =? 0).
Proof.
  intros Hn. apply eq_true_iff_eq. rewrite !Z.eqb_eq, Z.rem_divide, Z.mod_divide by done. done.
Qed.

Lemma leap_year y : gc_is_leap y = leap_yoe ((y - 1) mod 400).
Proof.
  unfold gc_is_leap, leap_yoe. rewrite !rem_eqb by lia.
  assert (E : forall n, (400 mod n = 0) -> 0 < n -> ((y - 1) mod 400 + 1) mod n = y mod n).
  { intros n Hn Hpos. apply Z.mod_divide in Hn as [k Hk]; [|lia]. rewrite (Z.mod_eq (y - 1) 400) by lia. rewrite Hk at 1.
    replace (y - 1 - k * n * ((y - 1) / 400) + 1) with (y + - (k * ((y - 1) / 400)) * n) by lia. apply Z.mod_add. lia. }
  by rewrite !E.
Qed.

Lemma month_list m : 1 <= m <= 12 ->
  m = 1 \/ m = 2 \/ m = 3 \/ m = 4 \/ m = 5 \/ m = 6 \/ m = 7 \/ m = 8 \/ m = 9 \/ m = 10 \/ m = 11 \/ m = 12.
Proof. lia. Qed.

(** One case for each month. *)
Ltac by_month H :=
  apply month_list in H; destruct H as [->|[->|[->|[->|[->|[->|[->|[->|[->|[->|[->| ->]]]]]]]]]]].

(** The length of a month is the distance to the next one. *)
Lemma month_length y m : 1 <= m <= 12 ->
  gc_last_day_of_month y m =
    (if m =? 2 then year_days (march_year y m mod 400) else month_start (march_month m + 1)) - month_start (march_month m).
Proof.
  intros Hm. by_month Hm; try reflexivity.
  unfold gc_last_day_of_month, year_days, march_year. simpl. rewrite leap_year. by destruct (leap_yoe _).
Qed.

(** A valid date is a day of its year, and the month and the day follow from it. *)
Lemma valid_day y m d : valid_date y m d ->
  let mp := march_month m in let doy := month_start mp + d - 1 in
  0 <= mp < 12 /\ 0 <= doy < year_days (march_year y m mod 400) /\ (5 * doy + 2) / 153 = mp /\ month_of mp = m.
Proof.
  intros [Hm Hd]. rewrite month_length in Hd by done. assert (Hy : 365 <= year_days (march_year y m mod 400) <= 366)
    by (unfold year_days; destruct (leap_yoe _); lia).
  revert Hd Hy. generalize (year_days (march_year y m mod 400)). intros k. by_month Hm;
    unfold march_month, month_start, month_of; simpl; intros; split_and!; try done; try lia; divs.
Qed.

Lemma days_form y m d : valid_date y m d ->
  gc_days_from_civil y m d = day_number (march_year y m) (month_start (march_month m) + d - 1).
Proof.
  intros Hv. destruct (valid_day y m d Hv) as (Hmp & Hdoy & _). unfold gc_days_from_civil, day_number.
  fold (march_year y m) (march_month m). fold (month_start (march_month m)). rewrite quot_floor by lia.
  set (y' := march_year y m) in *. pose proof (Z.mod_pos_bound y' 400 ltac:(lia)).
  assert (Hyd : year_days (y' mod 400) <= 366) by (unfold year_days; destruct (leap_yoe _); lia).
  replace (y' - y' / 400 * 400) with (y' mod 400) by (rewrite Z.mod_eq; lia).
  rewrite (u32_small (y' mod 400)), (u32_small (month_start _ + _ - _)) by lia.
  destruct (doe_parts (y' mod 400) (month_start (march_month m) + d - 1)) as [Hdoe _]; [lia|done|]. unfold doe_of in *.
  rewrite u32_small by lia. done.
Qed.

Lemma civil_form y' mp d : let doy := month_start mp + d - 1 in
  0 <= mp < 12 -> 0 <= doy < year_days (y' mod 400) -> (5 * doy + 2) / 153 = mp -> 1 <= d < 32 ->
  gc_civil_from_days (day_number y' doy) = (y' + b2z (month_of mp <=? 2), month_of mp, d).
Proof.
  intros doy Hmp Hdoy Hmp' Hd. pose proof (Z.mod_pos_bound y' 400 ltac:(lia)).
  destruct (doe_parts (y' mod 400) doy) as [Hdoe Hyoe]; [lia|done|]. set (doe := doe_of (y' mod 400) doy) in *.
  unfold gc_civil_from_days, day_number. fold doe.
  replace (y' / 400 * 146097 + doe - 719468 + 719468) with (doe + y' / 400 * 146097) by lia.
  rewrite quot_floor, Z.div_add, (Z.div_small doe), Z.add_0_l by lia.
  replace (doe + y' / 400 * 146097 - y' / 400 * 146097) with doe by lia. rewrite (u32_small doe) by lia.
  rewrite (u32_small (doe - _ + _ - _)), Hyoe by divs.
  assert (Hyd : year_days (y' mod 400) <= 366) by (unfold year_days; destruct (leap_yoe _); lia).
  replace (doe - (365 * (y' mod 400) + y' mod 400 / 4 - y' mod 400 / 100)) with doy by (unfold doe, doe_of; lia).
  rewrite (u32_small doy), Hmp' by lia. fold (month_start mp) (month_of mp). rewrite u32_small by (unfold doy; lia).
  replace (y' mod 400 + y' / 400 * 400) with y' by (pose proof (Z.div_mod y' 400); lia).
  f_equal. unfold doy. lia.
Qed.

Lemma month_back m : 1 <= m <= 12 -> month_of (march_month m) = m.
Proof. intros Hm. by by_month Hm. Qed.

Lemma last_day_max y m : 1 <= m <= 12 -> gc_last_day_of_month y m < 32.
Proof.
  intros Hm. by_month Hm; try (vm_compute; reflexivity).
  unfold gc_last_day_of_month. by destruct (_ || _).
Qed.

(** A date is recovered from its day number. *)
Lemma civil_of_days y m d : valid_date y m d -> gc_civil_from_days (gc_days_from_civil y m d) = (y, m, d).
Proof.
  intros Hv. rewrite days_form by done. pose proof Hv as [Hm Hd]. pose proof (last_day_max y m Hm).
  destruct (valid_day y m d Hv) as (H1 & H2 & H3 & H4). rewrite civil_form by (done || lia).
  rewrite H4. unfold march_year. do 2 f_equal. lia.
Qed.

(** Every day of an era is a day of one of its years. *)
Lemma doe_surjective doe : 0 <= doe < 146097 ->
  exists yoe doy, 0 <= yoe < 400 /\ 0 <= doy < year_days yoe /\ doe = doe_of yoe doy.
Proof.
  intros Hd. set (c := Z.min (doe / 36524) 3). set (x := doe - 36524 * c). set (q := x / 1461).
  set (r := Z.min ((x - 1461 * q) / 365) 3). set (doy := x - 1461 * q - 365 * r).
  assert (Hc : 0 <= c < 4 /\ 0 <= x /\ (x < 36524 \/ c = 3 /\ x = 36524)) by (unfold x, c; divs).
  assert (Hq : 0 <= q < 25 /\ 0 <= x - 1461 * q < 1461) by (unfold q; divs).
  assert (Hr : 0 <= r < 4 /\ 0 <= doy /\ (doy < 365 \/ r = 3 /\ doy = 365)) by (unfold doy, r; divs).
  exists (100 * c + 4 * q + r), doy. split; [lia|]. split.
  - split; [lia|]. unfold year_days. rewrite leap_parts by lia.
    destruct (Z.eqb_spec r 3), (Z.eqb_spec q 24), (Z.eqb_spec c 3); simpl; lia.
  - unfold doe_of. replace ((100 * c + 4 * q + r) / 4) with (25 * c + q) by divs.
    replace ((100 * c + 4 * q + r) / 100) with c by divs. lia.
Qed.

(** Every day of a year is a day of one of its months. *)
Lemma doy_surjective y' doy : 0 <= doy < year_days (y' mod 400) ->
  exists y m d, valid_date y m d /\ march_year y m = y' /\ doy = month_start (march_month m) + d - 1.
Proof.
  intros Hd. set (mp := (5 * doy + 2) / 153).
  assert (Hyd : year_days (y' mod 400) <= 366) by (unfold year_days; destruct (leap_yoe _); lia).
  assert (Hmp : 0 <= mp < 12) by (unfold mp; divs). set (m := month_of mp).
  assert (Hm : 1 <= m <= 12) by (unfold m, month_of; destruct (Z.ltb_spec mp 10); lia).
  assert (Hmm : march_month m = mp).
  { unfold march_month, m, month_of. destruct (Z.ltb_spec mp 10);
      [rewrite (proj2 (Z.ltb_lt 2 (mp + 3))) by lia|rewrite (proj2 (Z.ltb_ge 2 (mp - 9))) by lia]; lia. }
  exists (y' + b2z (m <=? 2)), m, (doy - month_start mp + 1). rewrite Hmm.
  assert (Hy : march_year (y' + b2z (m <=? 2)) m = y') by (unfold march_year; lia).
  split_and!; [split; [done|]|done|lia]. rewrite month_length, Hmm, Hy by done.
  destruct (Z.eqb_spec m 2) as [E|E]; [unfold mp, month_start in *; divs|]. unfold month_start, mp. divs.
Qed.

Lemma days_surjective z : exists y m d, valid_date y m d /\ gc_days_from_civil y m d = z.
Proof.
  destruct (doe_surjective ((z + 719468) mod 146097)) as (yoe & doy & Hy & Hd & Hdoe); [apply Z.mod_pos_bound; lia|].
  set (y' := yoe + (z + 719468) / 146097 * 400).
  assert (Hyoe : y' mod 400 = yoe) by (unfold y'; rewrite Z.mod_add, Z.mod_small by lia; done).
  assert (Hera : y' / 400 = (z + 719468) / 146097) by (unfold y'; rewrite Z.div_add, Z.div_small by lia; lia).
  destruct (doy_surjective y' doy) as (y & m & d & Hv & Hym & Hdoy); [by rewrite Hyoe|].
  exists y, m, d. split; [done|]. rewrite days_form, Hym, <- Hdoy by done. unfold day_number. rewrite Hyoe, Hera, <- Hdoe.
  pose proof (Z.div_mod (z + 719468) 146097). lia.
Qed.

(** The day after a date. *)
Definition next_day (y m d : Z) : Z * Z * Z :=
  if d <? gc_last_day_of_month y m then (y, m, d + 1) else if m <? 12 then (y, m + 1, 1) else (y + 1, 1, 1).

Lemma year_end y' : day_number y' (year_days (y' mod 400)) = day_number (y' + 1) 0.
Proof.
  unfold day_number. pose proof (Z.mod_pos_bound y' 400 ltac:(lia)) as Hm.
  destruct (year_parts (y' mod 400) Hm) as (c & q & r & Hc & Hq & Hr & E & E4 & E100).
  assert (Hyd : year_days (y' mod 400) = if (r =? 3) && (negb (q =? 24) || (c =? 3)) then 366 else 365)
    by (unfold year_days; rewrite E, leap_parts by done; done).
  rewrite Hyd. unfold doe_of. clear Hyd.
  destruct (Z.eqb_spec r 3), (Z.eqb_spec q 24), (Z.eqb_spec c 3); simpl; divs.
Qed.

Lemma next_day_valid y m d : valid_date y m d -> let '(y1, m1, d1) := next_day y m d in valid_date y1 m1 d1.
Proof.
  intros [Hm Hd]. unfold next_day. destruct (Z.ltb_spec d (gc_last_day_of_month y m)); [split; lia|].
  assert (Hlast : forall y m, 1 <= m <= 12 -> 1 <= gc_last_day_of_month y m).
  { intros y0 m0 Hm0. by_month Hm0; try (vm_compute; discriminate). unfold gc_last_day_of_month. by destruct (_ || _). }
  destruct (Z.ltb_spec m 12); (split; [lia|split; [lia|apply Hlast; lia]]).
Qed.

Lemma next_day_number y m d : valid_date y m d ->
  let '(y1, m1, d1) := next_day y m d in gc_days_from_civil y1 m1 d1 = gc_days_from_civil y m d + 1.
Proof.
  intros Hv. pose proof (next_day_valid y m d Hv) as Hn. unfold next_day in *. pose proof Hv as [Hm Hd].
  destruct (Z.ltb_spec d (gc_last_day_of_month y m)) as [Hlt|Hge].
  - rewrite !days_form by done. unfold day_number, doe_of. lia.
  - assert (d = gc_last_day_of_month y m) as E by lia. rewrite month_length in E by done.
    destruct (Z.ltb_spec m 12) as [H12|H12]; rewrite !days_form by done.
    + destruct (Z.eqb_spec m 2) as [->|Hm2].
      * replace (month_start (march_month 2) + d - 1) with (year_days (march_year y 2 mod 400) - 1) by lia.
        replace (march_year y (2 + 1)) with (march_year y 2 + 1) by (unfold march_year; simpl; lia).
        change (month_start (march_month (2 + 1)) + 1 - 1) with 0. rewrite <- year_end. unfold day_number, doe_of. lia.
      * assert (Hy : march_year y (m + 1) = march_year y m) by (unfold march_year, b2z; destruct (Z.leb_spec (m + 1) 2), (Z.leb_spec m 2); lia).
        assert (Hmm : march_month (m + 1) = march_month m + 1) by (unfold march_month; destruct (Z.ltb_spec 2 (m + 1)), (Z.ltb_spec 2 m); lia).
        rewrite Hy, Hmm. unfold day_number, doe_of. lia.
    + assert (m = 12) as -> by lia. replace (march_year (y + 1) 1) with (march_year y 12) by (unfold march_year; simpl; lia).
      simpl in E. change (march_month 12 + 1) with (march_month 1) in E. unfold day_number, doe_of. lia.
Qed.

Lemma weekday_mod z : gc_weekday_from_days z = (z + 4) mod 7.
Proof.
  unfold gc_weekday_from_days. destruct (Z.leb_spec (-4) z); rewrite u32_small; divs.
Qed.

Lemma civil_valid z : exists y m d, gc_civil_from_days z = (y, m, d) /\ valid_date y m d /\ gc_days_from_civil y m d = z.
Proof.
  destruct (days_surjective z) as (y & m & d & Hv & <-). exists y, m, d. split; [by apply civil_of_days|done].
Qed.

(** Dates before 1970 have negative numbers. *)
Lemma days_before_epoch y m d : valid_date y m d -> y < 1970 -> gc_days_from_civil y m d < 0.
Proof.
  intros Hv Hy. destruct (valid_day y m d Hv) as (Hmp & Hdoy & _). rewrite days_form by done. pose proof Hv as [Hm Hd].
  pose proof (last_day_max y m Hm). set (doy := month_start (march_month m) + d - 1) in *.
  assert (Hyd : year_days (march_year y m mod 400) <= 366) by (unfold year_days; destruct (leap_yoe _); lia).
  assert (Hc : march_year y m <= 1968 \/ march_year y m = 1969 /\ doy <= 305).
  { unfold march_year, doy, march_month, b2z in *. destruct (Z.leb_spec m 2), (Z.ltb_spec 2 m); try lia.
    destruct (decide (y <= 1968)); [lia|]. right. split; [lia|]. assert (month_start (m - 3) <= 275); [|lia].
    unfold month_start. divs. }
  assert (Hmax : doy <= 365) by lia. clearbody doy. generalize dependent (march_year y m). intros y' _ _ Hc. unfold day_number, doe_of.
  destruct Hc as [Hc|[-> Hc]].
  - pose proof (Z.mod_pos_bound y' 400 ltac:(lia)) as Hmod. pose proof (Z.div_mod y' 400 ltac:(lia)) as Hdm.
    destruct (year_parts (y' mod 400) Hmod) as (c & q & r & Hc' & Hq & Hr & E & -> & ->).
    destruct (decide (y' / 400 <= 3)); lia.
  - change (1969 / 400) with 4. change (1969 mod 400) with 369. change (369 / 4) with 92. change (369 / 100) with 3. lia.
Qed.

(** ** Theorems *)


Lemma clamp_id lo hi x : lo <= x <= hi -> clamp lo hi x = x.
Proof. intros Hx. unfold clamp. rewrite (proj2 (Z.ltb_ge x lo)) by lia. by rewrite (proj2 (Z.ltb_ge hi x)) by lia. Qed.

(** Broken-down time and seconds are inverse to each other: for every time
    from 1970 to the end of the 32-bit range, localtime_r gives a valid date and
    time of day, from which mktime computes the same time again and the same
    weekday and day of the year. *)
Theorem localtime_mktime_round_trip (t : Z) :
  0 <= t < 2 ^ 31 ->
  exists b, localtime_r t = Some b /\ mktime b = Some (t, b) /\ valid_date (tm_year b + 1900) (tm_mon b + 1) (tm_mday b) /\
    0 <= tm_hour b < 24 /\ 0 <= tm_min b < 60 /\ 0 <= tm_sec b < 60.
Proof.
  intros Ht. unfold localtime_r. rewrite (proj2 (Z.ltb_ge t 0)) by lia.
  set (days := Z.quot t 86400). set (s1 := t - days * 86400). set (h := Z.quot s1 3600). set (s2 := s1 - h * 3600).
  set (mi := Z.quot s2 60). set (sec := s2 - mi * 60).
  assert (Hdays : 0 <= days <= 24855 /\ 0 <= s1 < 86400) by (unfold s1, days; divs).
  assert (Hh : 0 <= h < 24 /\ 0 <= s2 < 3600) by (unfold s2, h; divs).
  assert (Hmi : 0 <= mi < 60 /\ 0 <= sec < 60) by (unfold sec, mi; divs).
  destruct (civil_valid days) as (y & m & d & -> & Hv & Hd).
  assert (Hy : 1970 <= y) by (destruct (decide (y < 1970)); [pose proof (days_before_epoch y m d Hv); lia|lia]).
  eexists. split; [reflexivity|]. pose proof Hv as [Hm Hdm]. pose proof (last_day_max y m Hm).
  split.
  - unfold mktime. cbn [tm_sec tm_min tm_hour tm_mday tm_mon tm_year tm_wday tm_yday tm_isdst]. rewrite !clamp_id by lia.
    rewrite (proj2 (Z.ltb_ge (y - 1900) 0)) by lia. replace (y - 1900 + 1900) with y by lia.
    replace (m - 1 + 1) with m by lia. rewrite Hd, (s32_small (days * 86400)) by lia.
    replace (days * 86400 + (h * 60 * 60 + mi * 60 + sec)) with t by (unfold sec, s2, s1; lia).
    rewrite s32_small by lia. by rewrite (proj2 (Z.leb_le 0 t)) by lia.
  - cbn [tm_sec tm_min tm_hour tm_mday tm_mon tm_year]. replace (y - 1900 + 1900) with y by lia.
    replace (m - 1 + 1) with m by lia. split; [exact Hv|]. lia.
Qed.

Lemma localtime_mktime_round_trip_witness :
  exists b, localtime_r 951827696 = Some b /\ mktime b = Some (951827696, b) /\
    b = Tm 56 34 12 29 1 100 2 59 0.
Proof.
  destruct (localtime_mktime_round_trip 951827696) as (b & H1 & H2 & _); [lia|].
  exists b. split; [exact H1|]. split; [exact H2|]. vm_compute in H1. by injection H1 as <-.
Defined.

(** Past the 32-bit range the seconds wrap around without an error. *)
Lemma mktime_wraps : fst <$> mktime (Tm 16 28 6 7 1 206 0 0 0) = Some 0.
Proof. reflexivity. Qed.
