(* ===== verification/Numbers.v ===== *)
(** * Numbers and their text (user/lib/libc/src/stdlib, string/ctype.c)

    Conversion of 32-bit integers to text (__i32toa.c, __u32toa.c, itoa.c) and
    back (__strtoi32.c), with the character classes of ctype.h.  The kernel uses
    the same functions.  A string is the list of its characters without the
    terminating NUL; reading at its end gives 0. *)

From S2P Require Import Prelude.

(** ** Character classes *)

Notation IS_UPPER := 0x001%Z (only parsing).
Notation IS_LOWER := 0x002%Z (only parsing).
Notation IS_DIGIT := 0x004%Z (only parsing).
Notation IS_XDIGIT := 0x008%Z (only parsing).
Notation IS_CNTRL := 0x010%Z (only parsing).
Notation IS_SPACE := 0x020%Z (only parsing).
Notation IS_BLANK := 0x040%Z (only parsing).
Notation IS_PRINT := 0x080%Z (only parsing).
Notation IS_PUNCT := 0x100%Z (only parsing).
Notation IS_GRAPH := 0x200%Z (only parsing).

Definition C_LOCALE_CC : list Z :=
  replicate 9 (IS_CNTRL) ++
  replicate 1 (Z.lor (Z.lor IS_CNTRL IS_SPACE) IS_BLANK) ++
  replicate 4 (Z.lor IS_CNTRL IS_SPACE) ++
  replicate 18 (IS_CNTRL) ++
  replicate 1 (Z.lor (Z.lor IS_PRINT IS_SPACE) IS_BLANK) ++
  replicate 15 (Z.lor (Z.lor IS_PRINT IS_GRAPH) IS_PUNCT) ++
  replicate 10 (Z.lor (Z.lor (Z.lor IS_PRINT IS_GRAPH) IS_DIGIT) IS_XDIGIT) ++
  replicate 7 (Z.lor (Z.lor IS_PRINT IS_GRAPH) IS_PUNCT) ++
  replicate 6 (Z.lor (Z.lor (Z.lor IS_PRINT IS_GRAPH) IS_UPPER) IS_XDIGIT) ++
  replicate 20 (Z.lor (Z.lor IS_PRINT IS_GRAPH) IS_UPPER) ++
  replicate 6 (Z.lor (Z.lor IS_PRINT IS_GRAPH) IS_PUNCT) ++
  replicate 6 (Z.lor (Z.lor (Z.lor IS_PRINT IS_GRAPH) IS_LOWER) IS_XDIGIT) ++
  replicate 20 (Z.lor (Z.lor IS_PRINT IS_GRAPH) IS_LOWER) ++
  replicate 4 (Z.lor (Z.lor IS_PRINT IS_GRAPH) IS_PUNCT) ++
  replicate 1 (IS_CNTRL).

(** The macros _isdigit and so on, for a character of type char. *)
Definition is_class (c ch : Z) : bool :=
  (0 <=? ch) && (ch <? 128) && (Z.land (default 0 (C_LOCALE_CC !! Z.to_nat ch)) c =? c).

Definition isdigit : Z -> bool := is_class IS_DIGIT.
Definition isupper : Z -> bool := is_class IS_UPPER.
Definition islower : Z -> bool := is_class IS_LOWER.
Definition isspace : Z -> bool := is_class IS_SPACE.

(** ** Numbers to text *)

Definition g_digits_16_uc : list Z := [48; 49; 50; 51; 52; 53; 54; 55; 56; 57; 65; 66; 67; 68; 69; 70].
Definition g_digits_16_lc : list Z := [48; 49; 50; 51; 52; 53; 54; 55; 56; 57; 97; 98; 99; 100; 101; 102].
Definition I32A_BUFFER_SIZE : nat := 34.

Record i32a_t := I32a { i_length : Z; i_offset : Z; i_text : list Z }.
Inductive ia_sign_format_t := ia_sign_minus_only | ia_sign_plus_minus.

(** [do { *p-- = ...; } while (val)]: [room] is what is left in front of [p], [next] gives
    the last digit and the rest of the number, [ds] the character of a digit. *)
Fixpoint put_digits (room : nat) (ds : Z -> option Z) (next : Z -> Z * Z) (val : Z) (acc : list Z) : option (list Z) :=
  match room with
  | O => None
  | S room =>
      let '(rem, quot) := next val in
      ch ← ds rem;
      if quot =? 0 then Some (ch :: acc) else put_digits room ds next quot (ch :: acc)
  end.

Definition udiv (base val : Z) : Z * Z := (val mod base, val / base).

Definition i32a_of (text : list Z) : i32a_t :=
  I32a (Z.of_nat (length text)) (Z.of_nat I32A_BUFFER_SIZE - 1 - Z.of_nat (length text)) text.

Definition i32toa (val : Z) (sign_mode : ia_sign_format_t) : option i32a_t :=
  if val =? - 2 ^ 31 then Some (I32a 11 0 [45; 50; 49; 52; 55; 52; 56; 51; 54; 52; 56])
  else
    let sign := if val <? 0 then [45] else match sign_mode with ia_sign_plus_minus => [43] | ia_sign_minus_only => [] end in
    text ← put_digits (I32A_BUFFER_SIZE - 1) (fun rem => Some (48 + rem)) (udiv 10) (if val <? 0 then - val else val) [];
    if (length (sign ++ text) <=? I32A_BUFFER_SIZE - 1)%nat then Some (i32a_of (sign ++ text)) else None.

Definition u32toa (val base : Z) (isUppercase : bool) : option i32a_t :=
  let ds rem := (if isUppercase then g_digits_16_uc else g_digits_16_lc) !! Z.to_nat rem in
  let next v := if base =? 2 then (Z.land v 1, Z.shiftr v 1) else if base =? 16 then (Z.land v 15, Z.shiftr v 4) else udiv base v in
  text ← put_digits (I32A_BUFFER_SIZE - 1) ds next val [];
  Some (i32a_of text).

(** The text that is copied to the caller's buffer; [Some None] is NULL. *)
Definition itoa (val radix : Z) : option (option (list Z)) :=
  if radix =? 10 then a ← i32toa val ia_sign_minus_only; Some (Some (i_text a))
  else if (radix =? 2) || (radix =? 8) || (radix =? 16) then a ← u32toa (u32 val) radix false; Some (Some (i_text a))
  else Some None.

(** ** Text to numbers *)

Definition ch_at (str : list Z) (i : nat) : Z := default 0 (str !! i).

Fixpoint skip_space (str : list Z) : list Z :=
  match str with
  | ch :: str' => if isspace ch then skip_space str' else str
  | [] => []
  end.

(** The optional prefix: what is left of the string, and the base. *)
Definition skip_prefix (str : list Z) (base : Z) : list Z * Z :=
  if ((base =? 0) || (base =? 16)) && ((ch_at str 0 =? 48) && ((ch_at str 1 =? 120) || (ch_at str 1 =? 88))) then (drop 2 str, 16)
  else if ((base =? 0) || (base =? 2)) && ((ch_at str 0 =? 48) && ((ch_at str 1 =? 98) || (ch_at str 1 =? 66))) then (drop 2 str, 2)
  else if ((base =? 0) || (base =? 8)) && (ch_at str 0 =? 48) then (drop 1 str, 8)
  else (str, if base =? 0 then 10 else base).

Definition digit_of (ch : Z) : option Z :=
  if isdigit ch then Some (ch - 48) else if isupper ch then Some (ch - 65 + 10) else if islower ch then Some (ch - 97 + 10) else None.

Fixpoint conv_digits (b ovf_num ovf_d num : Z) (overflowed has_some_digits : bool) (str : list Z) : Z * bool * bool * list Z :=
  match str with
  | [] => (num, overflowed, has_some_digits, str)
  | ch :: str' =>
      match digit_of ch with
      | Some d =>
          if b <=? d then (num, overflowed, has_some_digits, str)
          else if (ovf_num <? num) || ((num =? ovf_num) && (ovf_d <? d)) then conv_digits b ovf_num ovf_d num true has_some_digits str'
          else if negb overflowed then conv_digits b ovf_num ovf_d (u32 (u32 (num * b) + d)) overflowed true str'
          else conv_digits b ovf_num ovf_d num overflowed has_some_digits str'
      | None => (num, overflowed, has_some_digits, str)
      end
  end.

(** The error, the result and where the number ends; [None] is a [str_end] that is
    not stored. *)
Definition strtoi32 (str : list Z) (base : Z) : errno * Z * option (list Z) :=
  if ((base <? 2) && negb (base =? 0)) || (36 <? base) then (EINVAL, 0, None)
  else
    let orig_str := str in
    let str := skip_space str in
    let sig_ch := ch_at str 0 in
    let str := if (sig_ch =? 45) || (sig_ch =? 43) then drop 1 str else str in
    let '(str, b) := skip_prefix str base in
    let up_bound := if sig_ch =? 45 then 2 ^ 31 else 2 ^ 31 - 1 in
    let '(num, overflowed, has_some_digits, str) := conv_digits b (up_bound / b) (up_bound mod b) 0 false false str in
    let str_end := if has_some_digits then str else orig_str in
    if overflowed then (ERANGE, if sig_ch =? 45 then - 2 ^ 31 else 2 ^ 31 - 1, Some str_end)
    else (EOK, s32 (if sig_ch =? 45 then - num else num), Some str_end).

(** ** What the conversions do *)

Lemma is_class_spec c lo hi :
  forallb (fun ch => Bool.eqb (Z.land (default 0 (C_LOCALE_CC !! Z.to_nat ch)) c =? c) ((lo <=? ch) && (ch <=? hi))) (bytes_upto 128) = true ->
  0 <= lo -> hi < 128 -> forall ch, is_class c ch = (lo <=? ch) && (ch <=? hi).
Proof.
  intros Hc Hlo Hhi ch. unfold is_class. destruct (decide (0 <= ch < 128)) as [Hr|Hr].
  - apply (bytes_upto_all 128 _ ch) in Hc; [|lia]. apply Bool.eqb_prop in Hc. rewrite Hc. replace (0 <=? ch) with true by lia.
    by replace (ch <? 128) with true by lia.
  - replace ((0 <=? ch) && (ch <? 128)) with false by lia. cbn [andb]. lia.
Qed.

Lemma isdigit_spec ch : isdigit ch = (48 <=? ch) && (ch <=? 57).
Proof. apply is_class_spec; [vm_compute; reflexivity|lia|lia]. Qed.
Lemma isupper_spec ch : isupper ch = (65 <=? ch) && (ch <=? 90).
Proof. apply is_class_spec; [vm_compute; reflexivity|lia|lia]. Qed.
Lemma islower_spec ch : islower ch = (97 <=? ch) && (ch <=? 122).
Proof. apply is_class_spec; [vm_compute; reflexivity|lia|lia]. Qed.

(** The number that a list of digits stands for, after a number [n]. *)
Definition number (b n : Z) (ds : list Z) : Z := fold_left (fun n d => n * b + d) ds n.

Lemma number_ge b n ds : 2 <= b -> 0 <= n -> Forall (fun d => 0 <= d < b) ds -> n <= number b n ds.
Proof.
  intros Hb. revert n. induction ds as [|d ds IH]; intros n Hn Hd; [done|]. apply Forall_cons in Hd as [Hd Hds].
  cbn [number fold_left]. specialize (IH (n * b + d) ltac:(nia) Hds). unfold number in IH. nia.
Qed.

(** The test for an overflow is exact. *)
Lemma overflow_test up b n d :
  2 <= b -> 0 <= d < b -> 0 <= n -> 0 <= up -> ((up / b <? n) || ((n =? up / b) && (up mod b <? d))) = (up <? n * b + d).
Proof.
  intros Hb Hd Hn Hu. pose proof (Z.div_mod up b ltac:(lia)) as E. pose proof (Z.mod_pos_bound up b ltac:(lia)).
  destruct (Z.ltb_spec (up / b) n), (Z.eqb_spec n (up / b)), (Z.ltb_spec (up mod b) d), (Z.ltb_spec up (n * b + d)); cbn; try done; nia.
Qed.

(** Characters and their digits, then something that is not a digit. *)
Definition digits_then (b : Z) (cs ds rest : list Z) : Prop :=
  Forall2 (fun ch d => digit_of ch = Some d /\ 0 <= d < b) cs ds /\
  match rest with [] => True | ch :: _ => match digit_of ch with Some d => b <= d | None => True end end.

Lemma conv_stop b on od n o h rest cs :
  digits_then b cs [] rest -> conv_digits b on od n o h rest = (n, o, h, rest).
Proof.
  intros [_ Hr]. destruct rest as [|ch rest]; [done|]. cbn [conv_digits]. destruct (digit_of ch) as [d|]; [|done].
  by replace (b <=? d) with true by lia.
Qed.

Lemma conv_over b up n h cs ds rest :
  digits_then b cs ds rest -> conv_digits b (up / b) (up mod b) n true h (cs ++ rest) = (n, true, h, rest).
Proof.
  intros [Hc Hr]. induction Hc as [|ch d cs ds [Hd Hb] Hc IH]; [by apply (conv_stop _ _ _ _ _ _ _ []); split|].
  cbn [conv_digits app]. rewrite Hd. replace (b <=? d) with false by lia. by destruct (_ || _).
Qed.

Lemma conv_spec b up n cs ds rest :
  2 <= b -> digits_then b cs ds rest -> 0 <= n <= up -> up < 2 ^ 32 - 1 ->
  exists n', conv_digits b (up / b) (up mod b) n false true (cs ++ rest) = (n', up <? number b n ds, true, rest) /\
    (number b n ds <= up -> n' = number b n ds).
Proof.
  intros Hb [Hc Hr] Hn Hu. revert n Hn. induction Hc as [|ch d cs ds [Hd Hdb] Hc IH]; intros n Hn.
  { exists n. split; [|done]. rewrite (conv_stop _ _ _ _ _ _ _ []) by done. cbn. by replace (up <? n) with false by lia. }
  assert (Hds : Forall (fun d => 0 <= d < b) ds) by (eapply Forall2_Forall_r; [exact Hc|]; apply Forall_true; by intros ? ? [? ?]).
  cbn [conv_digits app]. rewrite Hd. replace (b <=? d) with false by lia. rewrite overflow_test by lia.
  change (number b n (d :: ds)) with (number b (n * b + d) ds).
  pose proof (number_ge b (n * b + d) ds Hb ltac:(nia) Hds). destruct (Z.ltb_spec up (n * b + d)).
  - exists n. replace (up <? number b (n * b + d) ds) with true by lia. rewrite (conv_over b up n true cs ds rest) by done. split; [done|lia].
  - cbn [negb]. assert (0 <= n * b) by nia. rewrite (u32_small (n * b)), u32_small by lia. apply IH. lia.
Qed.

Lemma conv_first b up cs ds rest :
  2 <= b <= up -> digits_then b cs ds rest -> cs <> [] -> up < 2 ^ 32 - 1 ->
  exists n, conv_digits b (up / b) (up mod b) 0 false false (cs ++ rest) = (n, up <? number b 0 ds, true, rest) /\
    (number b 0 ds <= up -> n = number b 0 ds).
Proof.
  intros Hb [Hc Hr] Hne Hu. destruct Hc as [|ch d cs ds [Hd Hdb] Hc]; [done|]. cbn [conv_digits app]. rewrite Hd.
  replace (b <=? d) with false by lia. rewrite overflow_test by lia. replace (up <? 0 * b + d) with false by lia. cbn [negb].
  rewrite (u32_small (0 * b)), u32_small by lia. change (number b 0 (d :: ds)) with (number b (0 * b + d) ds). apply conv_spec; [lia|done|lia..].
Qed.

Lemma space_not_digit ch d : digit_of ch = Some d -> isspace ch = false.
Proof.
  intros Hd. destruct (decide (0 <= ch < 128)) as [Hr|Hr].
  - assert (Hc : forallb (fun ch => match digit_of ch with Some _ => negb (isspace ch) | None => true end) (bytes_upto 128) = true) by (vm_compute; reflexivity).
    apply (bytes_upto_all 128 _ ch) in Hc; [|lia]. cbv beta in Hc. rewrite Hd in Hc. by destruct (isspace ch).
  - unfold isspace, is_class. by replace ((0 <=? ch) && (ch <? 128)) with false by lia.
Qed.

Lemma skip_space_app ws str : Forall (fun ch => isspace ch = true) ws -> skip_space (ws ++ str) = skip_space str.
Proof. induction 1 as [|ch ws Hch _ IH]; [done|]. cbn. by rewrite Hch. Qed.

Lemma digit_not_sign ch d : digit_of ch = Some d -> (ch =? 45) = false /\ (ch =? 43) = false.
Proof. unfold digit_of. rewrite isdigit_spec, isupper_spec, islower_spec. repeat case_match; intros; simplify_eq; lia. Qed.

(** The number at the start of a text: white space, a sign, digits. *)
Definition sign_text (neg : option bool) : list Z := match neg with Some true => [45] | Some false => [43] | None => [] end.

Lemma strtoi32_reads base ws neg cs ds rest :
  2 <= base <= 36 -> Forall (fun ch => isspace ch = true) ws -> digits_then base cs ds rest -> cs <> [] ->
  skip_prefix (cs ++ rest) base = (cs ++ rest, base) ->
  let v := number base 0 ds in
  strtoi32 (ws ++ sign_text neg ++ cs ++ rest) base =
    match neg with
    | Some true => if 2 ^ 31 <? v then (ERANGE, - 2 ^ 31, Some rest) else (EOK, - v, Some rest)
    | _ => if 2 ^ 31 - 1 <? v then (ERANGE, 2 ^ 31 - 1, Some rest) else (EOK, v, Some rest)
    end.
Proof.
  intros Hb Hws Hd Hcs Hp v. unfold strtoi32. replace (((base <? 2) && negb (base =? 0)) || (36 <? base)) with false by lia.
  rewrite skip_space_app by done. destruct cs as [|ch cs]; [done|]. assert (Hch : exists d, digit_of ch = Some d).
  { destruct Hd as [Hd _]. inversion Hd as [|? d ? ? [? _]]. eauto. }
  destruct Hch as [d0 Hch]. apply space_not_digit in Hch as Hsp. apply digit_not_sign in Hch as [H45 H43].
  assert (Hv : 0 <= v) by (apply number_ge; [lia..|]; eapply Forall2_Forall_r; [apply Hd|]; apply Forall_true; by intros ? ? [? ?]).
  assert (Hup : forall up, up = 2 ^ 31 - 1 \/ up = 2 ^ 31 -> exists n, conv_digits base (up / base) (up mod base) 0 false false ((ch :: cs) ++ rest) = (n, up <? v, true, rest) /\ (v <= up -> n = v)).
  { intros up Hup. apply conv_first; [lia|done|done|lia]. }
  assert (Hs : forall l, skip_space (sign_text neg ++ (ch :: cs) ++ l) = sign_text neg ++ (ch :: cs) ++ l).
  { intros l. destruct neg as [[]|]; cbn; [done|done|by rewrite Hsp]. }
  rewrite Hs. destruct (Hup (2 ^ 31 - 1)) as (n1 & E1 & N1); [by left|]. destruct (Hup (2 ^ 31)) as (n2 & E2 & N2); [by right|].
  destruct neg as [[]|]; cbn [sign_text app ch_at lookup list_lookup default from_option id Z.eqb Pos.eqb orb drop]; cbn [app] in Hp, E1, E2.
  - rewrite Hp, E2. destruct (Z.ltb_spec (2 ^ 31) v); [done|]. by rewrite N2, s32_small by lia.
  - rewrite Hp, E1. destruct (Z.ltb_spec (2 ^ 31 - 1) v); [done|]. by rewrite N1, s32_small by lia.
  - rewrite H45, H43. cbn [orb]. rewrite Hp, E1. destruct (Z.ltb_spec (2 ^ 31 - 1) v); [done|]. by rewrite N1, s32_small by lia.
Qed.

(** strtol reads numbers as they are written, in every base: of white space, an
    optional sign and digits the result is the value of the digits with that sign,
    and the text ends at the first character that is no digit.  If the value does
    not fit, the result is the nearest 32-bit number and the error ERANGE.  The
    digits do not begin with what the function takes for a prefix. *)
Theorem strtoi32_reads_numbers base ws neg cs ds rest :
  2 <= base <= 36 -> Forall (fun ch => isspace ch = true) ws -> digits_then base cs ds rest -> cs <> [] ->
  skip_prefix (cs ++ rest) base = (cs ++ rest, base) ->
  let v := number base 0 ds in
  strtoi32 (ws ++ sign_text neg ++ cs ++ rest) base =
    match neg with
    | Some true => if 2 ^ 31 <? v then (ERANGE, - 2 ^ 31, Some rest) else (EOK, - v, Some rest)
    | _ => if 2 ^ 31 - 1 <? v then (ERANGE, 2 ^ 31 - 1, Some rest) else (EOK, v, Some rest)
    end.
Proof. apply strtoi32_reads. Qed.

Lemma strtoi32_reads_numbers_witness :
  strtoi32 [32; 45; 49; 50; 97; 120] 11 = (EOK, - (1 * 11 * 11 + 2 * 11 + 10), Some [120]).
Proof.
  refine (strtoi32_reads_numbers 11 [32] (Some true) [49; 50; 97] [1; 2; 10] [120] _ _ _ _ eq_refl); try done.
  - by repeat constructor.
  - split; [repeat constructor|]; vm_compute; done.
Defined.

(** ** There and back *)

Lemma number_app b n ds1 ds2 : number b n (ds1 ++ ds2) = number b (number b n ds1) ds2.
Proof. apply fold_left_app. Qed.

Definition no_leading_zero (ds : list Z) : Prop := match ds with d :: _ :: _ => d <> 0 | _ => True end.

Lemma put_digits_spec room b ds next val acc :
  2 <= b -> (forall v, 0 <= v -> next v = (v mod b, v / b)) -> (forall r, 0 <= r < b -> exists ch, ds r = Some ch /\ digit_of ch = Some r) ->
  0 <= val < b ^ Z.of_nat room -> (room <> 0)%nat ->
  exists cs dl, put_digits room ds next val acc = Some (cs ++ acc) /\ digits_then b cs dl [] /\ number b 0 dl = val /\ (0 < length cs)%nat /\
    (forall k, (k <> 0)%nat -> val < b ^ Z.of_nat k -> (length cs <= k)%nat) /\ no_leading_zero dl /\ (val <> 0 -> hd 0 dl <> 0).
Proof.
  intros Hb Hn Hd. revert val acc. induction room as [|room IH]; intros val acc Hv Hr; [done|]. cbn [put_digits]. rewrite Hn by lia.
  pose proof (Z.mod_pos_bound val b ltac:(lia)) as Hm. pose proof (Z.div_mod val b ltac:(lia)) as E. destruct (Hd (val mod b) Hm) as (ch & Ech & Edig).
  rewrite (bind_some Ech). destruct (Z.eqb_spec (val / b) 0) as [E0|E0].
  { exists [ch], [val mod b]. cbn. repeat split; auto; lia. }
  assert (0 <= val / b) by (apply Z.div_pos; lia).
  assert (Hlt : forall k, val < b ^ Z.of_nat (S k) -> val / b < b ^ Z.of_nat k).
  { intros k Hk. apply Z.div_lt_upper_bound; [lia|]. rewrite Nat2Z.inj_succ, Z.pow_succ_r in Hk by lia. lia. }
  pose proof (Hlt room ltac:(lia)) as Hq.
  destruct (IH (val / b) (ch :: acc)) as (cs & dl & Ep & [Hdl _] & Ev & Hl & Hk & _ & Hh); [lia|intros ->; cbn in *; lia|].
  exists (cs ++ [ch]), (dl ++ [val mod b]). rewrite Ep, <- (assoc_L (++)), number_app, Ev, length_app. cbn [length number fold_left].
  split_and!; [done| |lia|lia| | |].
  - split; [|done]. by apply Forall2_app; [|constructor].
  - intros [|[|k]] Hk0 Hvk; [done| |].
    + exfalso. apply E0. apply Z.div_small. rewrite Z.pow_1_r in Hvk. lia.
    + specialize (Hk (S k) ltac:(done) (Hlt (S k) Hvk)). lia.
  - specialize (Hh E0). by destruct dl as [|? []].
  - intros _. specialize (Hh E0). by destruct dl.
Qed.

Lemma no_prefix cs dl base :
  digits_then base cs dl [] -> no_leading_zero dl -> (base = 8 -> hd 0 dl <> 0) -> 2 <= base ->
  skip_prefix (cs ++ []) base = (cs ++ [], base).
Proof.
  intros [Hc _] Hz H8 Hb. unfold skip_prefix. replace (base =? 0) with false by lia. cbn [orb]. rewrite app_nil_r.
  assert (H0 : hd 0 dl <> 0 -> (ch_at cs 0 =? 48) = false).
  { destruct Hc as [|ch d cs dl [Hd _] Hc]; [done|]. cbn. intros Hd0. apply Z.eqb_neq. intros ->. apply Hd0.
    vm_compute in Hd. by simplify_eq. }
  assert (H1 : hd 0 dl = 0 -> ch_at cs 1 = 0).
  { intros E. destruct Hc as [|? d ? ? _ Hc]; [done|]. destruct Hc; [done|]. done. }
  destruct (decide (hd 0 dl = 0)) as [E|E].
  - rewrite (H1 E). cbn. rewrite !andb_false_r. destruct (Z.eqb_spec base 8) as [->|]; [by specialize (H8 eq_refl)|]. done.
  - rewrite (H0 E). cbn. by rewrite !andb_false_r.
Qed.

(** The text of a number, read again. *)
Lemma text_read base cs dl :
  2 <= base <= 36 -> digits_then base cs dl [] -> (0 < length cs)%nat -> no_leading_zero dl -> (base = 8 -> hd 0 dl <> 0) ->
  number base 0 dl < 2 ^ 31 ->
  strtoi32 cs base = (EOK, number base 0 dl, Some []) /\ strtoi32 (45 :: cs) base = (EOK, - number base 0 dl, Some []).
Proof.
  intros Hb Hd Hl Hz H8 Hv. assert (Hcs : cs <> []) by (by intros ->; cbn in Hl; lia).
  pose proof (no_prefix cs dl base Hd Hz H8 ltac:(lia)) as Hp.
  pose proof (strtoi32_reads base [] None cs dl [] Hb (Forall_nil_2 _) Hd Hcs Hp) as E1.
  pose proof (strtoi32_reads base [] (Some true) cs dl [] Hb (Forall_nil_2 _) Hd Hcs Hp) as E2.
  cbn [sign_text app] in E1, E2. rewrite app_nil_r in E1, E2.
  rewrite E1, E2. by replace (2 ^ 31 - 1 <? number base 0 dl) with false by lia; replace (2 ^ 31 <? number base 0 dl) with false by lia.
Qed.

Lemma i32toa_read n :
  - 2 ^ 31 < n < 2 ^ 31 ->
  exists a, i32toa n ia_sign_minus_only = Some a /\ (length (i_text a) < I32A_BUFFER_SIZE)%nat /\ strtoi32 (i_text a) 10 = (EOK, n, Some []).
Proof.
  intros Hn. unfold i32toa. replace (n =? - 2 ^ 31) with false by lia. change (I32A_BUFFER_SIZE - 1)%nat with 33%nat.
  destruct (put_digits_spec 33 10 (fun rem => Some (48 + rem)) (udiv 10) (if n <? 0 then - n else n) []) as (cs & dl & E & Hd & Ev & Hl & Hk & Hz & _).
  - lia.
  - done.
  - intros r Hr. exists (48 + r). split; [done|]. unfold digit_of. rewrite isdigit_spec.
    replace ((48 <=? 48 + r) && (48 + r <=? 57)) with true by lia. f_equal. lia.
  - destruct (n <? 0) eqn:?; lia.
  - done.
  - rewrite (bind_some E), app_nil_r. specialize (Hk 10%nat ltac:(done) ltac:(destruct (n <? 0) eqn:?; lia)).
    destruct (text_read 10 cs dl) as [R1 R2]; [lia|done..|destruct (n <? 0) eqn:?; lia|]. destruct (Z.ltb_spec n 0).
    + replace (length ([45%Z] ++ cs) <=? 33)%nat with true by (cbn; symmetry; apply Nat.leb_le; lia).
      eexists. split; [done|]. cbn [i_text i32a_of app length]. rewrite R2, Ev. split; [unfold I32A_BUFFER_SIZE; lia|]. do 2 f_equal. lia.
    + replace (length (([] : list Z) ++ cs) <=? 33)%nat with true by (cbn; symmetry; apply Nat.leb_le; lia).
      eexists. split; [done|]. cbn [i_text i32a_of app length]. rewrite R1, Ev. split; [unfold I32A_BUFFER_SIZE; lia|done].
Qed.

Lemma hex_digit r : 0 <= r < 16 -> exists ch, g_digits_16_lc !! Z.to_nat r = Some ch /\ digit_of ch = Some r.
Proof.
  intros Hr. assert (Hc : forallb (fun r => match g_digits_16_lc !! Z.to_nat r with Some ch => bool_decide (digit_of ch = Some r) | None => false end) (bytes_upto 16) = true)
    by (vm_compute; reflexivity).
  apply (bytes_upto_all 16 _ r) in Hc; [|lia]. cbv beta in Hc. destruct (g_digits_16_lc !! Z.to_nat r) as [ch|]; [|done].
  exists ch. split; [done|]. by apply bool_decide_eq_true in Hc.
Qed.

Lemma u32toa_read n radix :
  radix = 2 \/ radix = 8 \/ radix = 16 -> 0 < n < 2 ^ 31 ->
  exists a, u32toa n radix false = Some a /\ (length (i_text a) < I32A_BUFFER_SIZE)%nat /\ strtoi32 (i_text a) radix = (EOK, n, Some []).
Proof.
  intros Hr Hn. unfold u32toa. change (I32A_BUFFER_SIZE - 1)%nat with 33%nat.
  assert (Hp : n < radix ^ Z.of_nat 31) by (destruct Hr as [->|[->| ->]]; lia).
  match goal with |- context [put_digits 33 ?d ?f n []] => destruct (put_digits_spec 33 radix d f n []) as (cs & dl & E & Hd & Ev & Hl & Hk & Hz & Hh) end.
  - lia.
  - intros v Hv. destruct Hr as [->|[->| ->]]; cbn [Z.eqb Pos.eqb]; [|done|].
    + change 1 with (Z.ones 1) at 1. by rewrite Z.land_ones, Z.shiftr_div_pow2 by lia.
    + change 15 with (Z.ones 4). by rewrite Z.land_ones, Z.shiftr_div_pow2 by lia.
  - intros r Hr'. apply hex_digit. lia.
  - split; [lia|]. destruct Hr as [->|[->| ->]]; lia.
  - done.
  - rewrite (bind_some E), app_nil_r. specialize (Hk 31%nat ltac:(done) Hp). destruct (text_read radix cs dl) as [R1 _]; [lia|done..| |lia|].
    { intros _. apply Hh. lia. }
    eexists. split; [done|]. cbn [i_text i32a_of app length]. rewrite R1, Ev. split; [unfold I32A_BUFFER_SIZE; lia|done].
Qed.

(** Printing a number and reading it gives the number back: itoa fits its buffer
    for every 32-bit number and the radixes that it supports, and strtol of its text
    in the same radix returns the number and stops at the end of the text.  In
    other radixes than 10 this is about positive numbers, since itoa takes them as
    unsigned and strtol does not. *)
Theorem itoa_strtol_round_trip n radix :
  radix = 10 /\ - 2 ^ 31 <= n < 2 ^ 31 \/ (radix = 2 \/ radix = 8 \/ radix = 16) /\ 0 < n < 2 ^ 31 ->
  exists text, itoa n radix = Some (Some text) /\ (length text < I32A_BUFFER_SIZE)%nat /\ strtoi32 text radix = (EOK, n, Some []).
Proof.
  intros [[-> Hn]|[Hr Hn]]; unfold itoa.
  - destruct (decide (n = - 2 ^ 31)) as [->|].
    { exists [45; 50; 49; 52; 55; 52; 56; 51; 54; 52; 56]. split_and!; [done|unfold I32A_BUFFER_SIZE; cbn; lia|by vm_compute]. }
    destruct (i32toa_read n) as (a & E & Ha); [lia|]. cbn [Z.eqb Pos.eqb]. rewrite (bind_some E). by eauto.
  - rewrite u32_small by lia. replace (radix =? 10) with false by lia. replace ((radix =? 2) || (radix =? 8) || (radix =? 16)) with true by lia.
    destruct (u32toa_read n radix Hr Hn) as (a & E & Ha). rewrite (bind_some E). by eauto.
Qed.

Lemma itoa_strtol_round_trip_witness :
  exists text, itoa (-1979) 10 = Some (Some text) /\ (length text < I32A_BUFFER_SIZE)%nat /\ strtoi32 text 10 = (EOK, -1979, Some []).
Proof. apply (itoa_strtol_round_trip (-1979) 10). left. lia. Defined.

(** A zero is not seen as a number when the base is 8 or is to be found out: it is
    taken for the prefix of an octal number, and the end that is reported is the
    start of the text. *)
Lemma zero_is_not_a_number : strtoi32 [48] 0 = (EOK, 0, Some [48]) /\ strtoi32 [48; 32] 8 = (EOK, 0, Some [48; 32]).
Proof. by vm_compute. Qed.
