(* ===== verification/VtTables.v ===== *)
(** * Tables of the terminal parsers (kern/src/console)

    The state tables of the VT500 and VT52 parsers, row by row as in
    vt500parse_table.c and vt52parse.c.  An entry is an action in the low four
    bits and the next state above; runs of equal entries are written once with
    their length, and the entries that the initializers leave out are zero. *)

From S2P Require Import Prelude.

(** [n] entries [action | (state << 4)]. *)
Definition entries (n : nat) (action state : Z) : list Z := replicate n (Z.lor action (Z.shiftl state 4)).
Definition ACTION (change : Z) : Z := Z.land change 15.
Definition STATE (change : Z) : Z := Z.shiftr change 4.

(** ** VT500 *)

(** The constants of the enumerations [vt500parse_state_t] and [vt500parse_action_t]. *)
Notation VT500PARSE_STATE_CSI_ENTRY := 1%Z (only parsing).
Notation VT500PARSE_STATE_CSI_IGNORE := 2%Z (only parsing).
Notation VT500PARSE_STATE_CSI_INTERMEDIATE := 3%Z (only parsing).
Notation VT500PARSE_STATE_CSI_PARAM := 4%Z (only parsing).
Notation VT500PARSE_STATE_DCS_ENTRY := 5%Z (only parsing).
Notation VT500PARSE_STATE_DCS_IGNORE := 6%Z (only parsing).
Notation VT500PARSE_STATE_DCS_INTERMEDIATE := 7%Z (only parsing).
Notation VT500PARSE_STATE_DCS_PARAM := 8%Z (only parsing).
Notation VT500PARSE_STATE_DCS_PASSTHROUGH := 9%Z (only parsing).
Notation VT500PARSE_STATE_ESCAPE := 10%Z (only parsing).
Notation VT500PARSE_STATE_ESCAPE_INTERMEDIATE := 11%Z (only parsing).
Notation VT500PARSE_STATE_GROUND := 12%Z (only parsing).
Notation VT500PARSE_STATE_OSC_STRING := 13%Z (only parsing).
Notation VT500PARSE_STATE_SOS_PM_APC_STRING := 14%Z (only parsing).
Notation VT500PARSE_ACTION_CLEAR := 1%Z (only parsing).
Notation VT500PARSE_ACTION_COLLECT := 2%Z (only parsing).
Notation VT500PARSE_ACTION_CSI_DISPATCH := 3%Z (only parsing).
Notation VT500PARSE_ACTION_ESC_DISPATCH := 4%Z (only parsing).
Notation VT500PARSE_ACTION_EXECUTE := 5%Z (only parsing).
Notation VT500PARSE_ACTION_HOOK := 6%Z (only parsing).
Notation VT500PARSE_ACTION_IGNORE := 7%Z (only parsing).
Notation VT500PARSE_ACTION_OSC_END := 8%Z (only parsing).
Notation VT500PARSE_ACTION_OSC_PUT := 9%Z (only parsing).
Notation VT500PARSE_ACTION_OSC_START := 10%Z (only parsing).
Notation VT500PARSE_ACTION_PARAM := 11%Z (only parsing).
Notation VT500PARSE_ACTION_PRINT := 12%Z (only parsing).
Notation VT500PARSE_ACTION_PUT := 13%Z (only parsing).
Notation VT500PARSE_ACTION_UNHOOK := 14%Z (only parsing).
Notation VT500PARSE_ACTION_ERROR := 15%Z (only parsing).

Definition vt500_row_CSI_ENTRY : list Z :=
  entries 24 VT500PARSE_ACTION_EXECUTE 0 ++
  entries 1 VT500PARSE_ACTION_EXECUTE VT500PARSE_STATE_GROUND ++
  entries 1 VT500PARSE_ACTION_EXECUTE 0 ++
  entries 1 VT500PARSE_ACTION_EXECUTE VT500PARSE_STATE_GROUND ++
  entries 1 0 VT500PARSE_STATE_ESCAPE ++
  entries 4 VT500PARSE_ACTION_EXECUTE 0 ++
  entries 16 VT500PARSE_ACTION_COLLECT VT500PARSE_STATE_CSI_INTERMEDIATE ++
  entries 10 VT500PARSE_ACTION_PARAM VT500PARSE_STATE_CSI_PARAM ++
  entries 1 0 VT500PARSE_STATE_CSI_IGNORE ++
  entries 1 VT500PARSE_ACTION_PARAM VT500PARSE_STATE_CSI_PARAM ++
  entries 4 VT500PARSE_ACTION_COLLECT VT500PARSE_STATE_CSI_PARAM ++
  entries 63 VT500PARSE_ACTION_CSI_DISPATCH VT500PARSE_STATE_GROUND ++
  entries 1 VT500PARSE_ACTION_IGNORE 0 ++
  entries 16 VT500PARSE_ACTION_EXECUTE VT500PARSE_STATE_GROUND ++
  entries 1 0 VT500PARSE_STATE_DCS_ENTRY ++
  entries 7 VT500PARSE_ACTION_EXECUTE VT500PARSE_STATE_GROUND ++
  entries 1 0 VT500PARSE_STATE_SOS_PM_APC_STRING ++
  entries 2 VT500PARSE_ACTION_EXECUTE VT500PARSE_STATE_GROUND ++
  entries 1 0 VT500PARSE_STATE_CSI_ENTRY ++
  entries 1 0 VT500PARSE_STATE_GROUND ++
  entries 1 0 VT500PARSE_STATE_OSC_STRING ++
  entries 2 0 VT500PARSE_STATE_SOS_PM_APC_STRING ++
  replicate 96 0.

Definition vt500_row_CSI_IGNORE : list Z :=
  entries 24 VT500PARSE_ACTION_EXECUTE 0 ++
  entries 1 VT500PARSE_ACTION_EXECUTE VT500PARSE_STATE_GROUND ++
  entries 1 VT500PARSE_ACTION_EXECUTE 0 ++
  entries 1 VT500PARSE_ACTION_EXECUTE VT500PARSE_STATE_GROUND ++
  entries 1 0 VT500PARSE_STATE_ESCAPE ++
  entries 4 VT500PARSE_ACTION_EXECUTE 0 ++
  entries 32 VT500PARSE_ACTION_IGNORE 0 ++
  entries 63 0 VT500PARSE_STATE_GROUND ++
  entries 1 VT500PARSE_ACTION_IGNORE 0 ++
  entries 16 VT500PARSE_ACTION_EXECUTE VT500PARSE_STATE_GROUND ++
  entries 1 0 VT500PARSE_STATE_DCS_ENTRY ++
  entries 7 VT500PARSE_ACTION_EXECUTE VT500PARSE_STATE_GROUND ++
  entries 1 0 VT500PARSE_STATE_SOS_PM_APC_STRING ++
  entries 2 VT500PARSE_ACTION_EXECUTE VT500PARSE_STATE_GROUND ++
  entries 1 0 VT500PARSE_STATE_CSI_ENTRY ++
  entries 1 0 VT500PARSE_STATE_GROUND ++
  entries 1 0 VT500PARSE_STATE_OSC_STRING ++
  entries 2 0 VT500PARSE_STATE_SOS_PM_APC_STRING ++
  replicate 96 0.

Definition vt500_row_CSI_INTERMEDIATE : list Z :=
  entries 24 VT500PARSE_ACTION_EXECUTE 0 ++
  entries 1 VT500PARSE_ACTION_EXECUTE VT500PARSE_STATE_GROUND ++
  entries 1 VT500PARSE_ACTION_EXECUTE 0 ++
  entries 1 VT500PARSE_ACTION_EXECUTE VT500PARSE_STATE_GROUND ++
  entries 1 0 VT500PARSE_STATE_ESCAPE ++
  entries 4 VT500PARSE_ACTION_EXECUTE 0 ++
  entries 16 VT500PARSE_ACTION_COLLECT 0 ++
  entries 16 0 VT500PARSE_STATE_CSI_IGNORE ++
  entries 63 VT500PARSE_ACTION_CSI_DISPATCH VT500PARSE_STATE_GROUND ++
  entries 1 VT500PARSE_ACTION_IGNORE 0 ++
  entries 16 VT500PARSE_ACTION_EXECUTE VT500PARSE_STATE_GROUND ++
  entries 1 0 VT500PARSE_STATE_DCS_ENTRY ++
  entries 7 VT500PARSE_ACTION_EXECUTE VT500PARSE_STATE_GROUND ++
  entries 1 0 VT500PARSE_STATE_SOS_PM_APC_STRING ++
  entries 2 VT500PARSE_ACTION_EXECUTE VT500PARSE_STATE_GROUND ++
  entries 1 0 VT500PARSE_STATE_CSI_ENTRY ++
  entries 1 0 VT500PARSE_STATE_GROUND ++
  entries 1 0 VT500PARSE_STATE_OSC_STRING ++
  entries 2 0 VT500PARSE_STATE_SOS_PM_APC_STRING ++
  replicate 96 0.

Definition vt500_row_CSI_PARAM : list Z :=
  entries 24 VT500PARSE_ACTION_EXECUTE 0 ++
  entries 1 VT500PARSE_ACTION_EXECUTE VT500PARSE_STATE_GROUND ++
  entries 1 VT500PARSE_ACTION_EXECUTE 0 ++
  entries 1 VT500PARSE_ACTION_EXECUTE VT500PARSE_STATE_GROUND ++
  entries 1 0 VT500PARSE_STATE_ESCAPE ++
  entries 4 VT500PARSE_ACTION_EXECUTE 0 ++
  entries 16 VT500PARSE_ACTION_COLLECT VT500PARSE_STATE_CSI_INTERMEDIATE ++
  entries 10 VT500PARSE_ACTION_PARAM 0 ++
  entries 1 0 VT500PARSE_STATE_CSI_IGNORE ++
  entries 1 VT500PARSE_ACTION_PARAM 0 ++
  entries 4 0 VT500PARSE_STATE_CSI_IGNORE ++
  entries 63 VT500PARSE_ACTION_CSI_DISPATCH VT500PARSE_STATE_GROUND ++
  entries 1 VT500PARSE_ACTION_IGNORE 0 ++
  entries 16 VT500PARSE_ACTION_EXECUTE VT500PARSE_STATE_GROUND ++
  entries 1 0 VT500PARSE_STATE_DCS_ENTRY ++
  entries 7 VT500PARSE_ACTION_EXECUTE VT500PARSE_STATE_GROUND ++
  entries 1 0 VT500PARSE_STATE_SOS_PM_APC_STRING ++
  entries 2 VT500PARSE_ACTION_EXECUTE VT500PARSE_STATE_GROUND ++
  entries 1 0 VT500PARSE_STATE_CSI_ENTRY ++
  entries 1 0 VT500PARSE_STATE_GROUND ++
  entries 1 0 VT500PARSE_STATE_OSC_STRING ++
  entries 2 0 VT500PARSE_STATE_SOS_PM_APC_STRING ++
  replicate 96 0.

Definition vt500_row_DCS_ENTRY : list Z :=
  entries 24 VT500PARSE_ACTION_IGNORE 0 ++
  entries 1 VT500PARSE_ACTION_EXECUTE VT500PARSE_STATE_GROUND ++
  entries 1 VT500PARSE_ACTION_IGNORE 0 ++
  entries 1 VT500PARSE_ACTION_EXECUTE VT500PARSE_STATE_GROUND ++
  entries 1 0 VT500PARSE_STATE_ESCAPE ++
  entries 4 VT500PARSE_ACTION_IGNORE 0 ++
  entries 16 VT500PARSE_ACTION_COLLECT VT500PARSE_STATE_DCS_INTERMEDIATE ++
  entries 10 VT500PARSE_ACTION_PARAM VT500PARSE_STATE_DCS_PARAM ++
  entries 1 0 VT500PARSE_STATE_DCS_IGNORE ++
  entries 1 VT500PARSE_ACTION_PARAM VT500PARSE_STATE_DCS_PARAM ++
  entries 4 VT500PARSE_ACTION_COLLECT VT500PARSE_STATE_DCS_PARAM ++
  entries 63 0 VT500PARSE_STATE_DCS_PASSTHROUGH ++
  entries 1 VT500PARSE_ACTION_IGNORE 0 ++
  entries 16 VT500PARSE_ACTION_EXECUTE VT500PARSE_STATE_GROUND ++
  entries 1 0 VT500PARSE_STATE_DCS_ENTRY ++
  entries 7 VT500PARSE_ACTION_EXECUTE VT500PARSE_STATE_GROUND ++
  entries 1 0 VT500PARSE_STATE_SOS_PM_APC_STRING ++
  entries 2 VT500PARSE_ACTION_EXECUTE VT500PARSE_STATE_GROUND ++
  entries 1 0 VT500PARSE_STATE_CSI_ENTRY ++
  entries 1 0 VT500PARSE_STATE_GROUND ++
  entries 1 0 VT500PARSE_STATE_OSC_STRING ++
  entries 2 0 VT500PARSE_STATE_SOS_PM_APC_STRING ++
  replicate 96 0.

Definition vt500_row_DCS_IGNORE : list Z :=
  entries 24 VT500PARSE_ACTION_IGNORE 0 ++
  entries 1 VT500PARSE_ACTION_EXECUTE VT500PARSE_STATE_GROUND ++
  entries 1 VT500PARSE_ACTION_IGNORE 0 ++
  entries 1 VT500PARSE_ACTION_EXECUTE VT500PARSE_STATE_GROUND ++
  entries 1 0 VT500PARSE_STATE_ESCAPE ++
  entries 100 VT500PARSE_ACTION_IGNORE 0 ++
  entries 16 VT500PARSE_ACTION_EXECUTE VT500PARSE_STATE_GROUND ++
  entries 1 0 VT500PARSE_STATE_DCS_ENTRY ++
  entries 7 VT500PARSE_ACTION_EXECUTE VT500PARSE_STATE_GROUND ++
  entries 1 0 VT500PARSE_STATE_SOS_PM_APC_STRING ++
  entries 2 VT500PARSE_ACTION_EXECUTE VT500PARSE_STATE_GROUND ++
  entries 1 0 VT500PARSE_STATE_CSI_ENTRY ++
  entries 1 0 VT500PARSE_STATE_GROUND ++
  entries 1 0 VT500PARSE_STATE_OSC_STRING ++
  entries 2 0 VT500PARSE_STATE_SOS_PM_APC_STRING ++
  replicate 96 0.

Definition vt500_row_DCS_INTERMEDIATE : list Z :=
  entries 24 VT500PARSE_ACTION_IGNORE 0 ++
  entries 1 VT500PARSE_ACTION_EXECUTE VT500PARSE_STATE_GROUND ++
  entries 1 VT500PARSE_ACTION_IGNORE 0 ++
  entries 1 VT500PARSE_ACTION_EXECUTE VT500PARSE_STATE_GROUND ++
  entries 1 0 VT500PARSE_STATE_ESCAPE ++
  entries 4 VT500PARSE_ACTION_IGNORE 0 ++
  entries 16 VT500PARSE_ACTION_COLLECT 0 ++
  entries 16 0 VT500PARSE_STATE_DCS_IGNORE ++
  entries 63 0 VT500PARSE_STATE_DCS_PASSTHROUGH ++
  entries 1 VT500PARSE_ACTION_IGNORE 0 ++
  entries 16 VT500PARSE_ACTION_EXECUTE VT500PARSE_STATE_GROUND ++
  entries 1 0 VT500PARSE_STATE_DCS_ENTRY ++
  entries 7 VT500PARSE_ACTION_EXECUTE VT500PARSE_STATE_GROUND ++
  entries 1 0 VT500PARSE_STATE_SOS_PM_APC_STRING ++
  entries 2 VT500PARSE_ACTION_EXECUTE VT500PARSE_STATE_GROUND ++
  entries 1 0 VT500PARSE_STATE_CSI_ENTRY ++
  entries 1 0 VT500PARSE_STATE_GROUND ++
  entries 1 0 VT500PARSE_STATE_OSC_STRING ++
  entries 2 0 VT500PARSE_STATE_SOS_PM_APC_STRING ++
  replicate 96 0.

Definition vt500_row_DCS_PARAM : list Z :=
  entries 24 VT500PARSE_ACTION_IGNORE 0 ++
  entries 1 VT500PARSE_ACTION_EXECUTE VT500PARSE_STATE_GROUND ++
  entries 1 VT500PARSE_ACTION_IGNORE 0 ++
  entries 1 VT500PARSE_ACTION_EXECUTE VT500PARSE_STATE_GROUND ++
  entries 1 0 VT500PARSE_STATE_ESCAPE ++
  entries 4 VT500PARSE_ACTION_IGNORE 0 ++
  entries 16 VT500PARSE_ACTION_COLLECT VT500PARSE_STATE_DCS_INTERMEDIATE ++
  entries 10 VT500PARSE_ACTION_PARAM 0 ++
  entries 1 0 VT500PARSE_STATE_DCS_IGNORE ++
  entries 1 VT500PARSE_ACTION_PARAM 0 ++
  entries 4 0 VT500PARSE_STATE_DCS_IGNORE ++
  entries 63 0 VT500PARSE_STATE_DCS_PASSTHROUGH ++
  entries 1 VT500PARSE_ACTION_IGNORE 0 ++
  entries 16 VT500PARSE_ACTION_EXECUTE VT500PARSE_STATE_GROUND ++
  entries 1 0 VT500PARSE_STATE_DCS_ENTRY ++
  entries 7 VT500PARSE_ACTION_EXECUTE VT500PARSE_STATE_GROUND ++
  entries 1 0 VT500PARSE_STATE_SOS_PM_APC_STRING ++
  entries 2 VT500PARSE_ACTION_EXECUTE VT500PARSE_STATE_GROUND ++
  entries 1 0 VT500PARSE_STATE_CSI_ENTRY ++
  entries 1 0 VT500PARSE_STATE_GROUND ++
  entries 1 0 VT500PARSE_STATE_OSC_STRING ++
  entries 2 0 VT500PARSE_STATE_SOS_PM_APC_STRING ++
  replicate 96 0.

Definition vt500_row_DCS_PASSTHROUGH : list Z :=
  entries 24 VT500PARSE_ACTION_PUT 0 ++
  entries 1 VT500PARSE_ACTION_EXECUTE VT500PARSE_STATE_GROUND ++
  entries 1 VT500PARSE_ACTION_PUT 0 ++
  entries 1 VT500PARSE_ACTION_EXECUTE VT500PARSE_STATE_GROUND ++
  entries 1 0 VT500PARSE_STATE_ESCAPE ++
  entries 99 VT500PARSE_ACTION_PUT 0 ++
  entries 1 VT500PARSE_ACTION_IGNORE 0 ++
  entries 16 VT500PARSE_ACTION_EXECUTE VT500PARSE_STATE_GROUND ++
  entries 1 0 VT500PARSE_STATE_DCS_ENTRY ++
  entries 7 VT500PARSE_ACTION_EXECUTE VT500PARSE_STATE_GROUND ++
  entries 1 0 VT500PARSE_STATE_SOS_PM_APC_STRING ++
  entries 2 VT500PARSE_ACTION_EXECUTE VT500PARSE_STATE_GROUND ++
  entries 1 0 VT500PARSE_STATE_CSI_ENTRY ++
  entries 1 0 VT500PARSE_STATE_GROUND ++
  entries 1 0 VT500PARSE_STATE_OSC_STRING ++
  entries 2 0 VT500PARSE_STATE_SOS_PM_APC_STRING ++
  replicate 96 0.

Definition vt500_row_ESCAPE : list Z :=
  entries 24 VT500PARSE_ACTION_EXECUTE 0 ++
  entries 1 VT500PARSE_ACTION_EXECUTE VT500PARSE_STATE_GROUND ++
  entries 1 VT500PARSE_ACTION_EXECUTE 0 ++
  entries 1 VT500PARSE_ACTION_EXECUTE VT500PARSE_STATE_GROUND ++
  entries 1 0 VT500PARSE_STATE_ESCAPE ++
  entries 4 VT500PARSE_ACTION_EXECUTE 0 ++
  entries 16 VT500PARSE_ACTION_COLLECT VT500PARSE_STATE_ESCAPE_INTERMEDIATE ++
  entries 32 VT500PARSE_ACTION_ESC_DISPATCH VT500PARSE_STATE_GROUND ++
  entries 1 0 VT500PARSE_STATE_DCS_ENTRY ++
  entries 7 VT500PARSE_ACTION_ESC_DISPATCH VT500PARSE_STATE_GROUND ++
  entries 1 0 VT500PARSE_STATE_SOS_PM_APC_STRING ++
  entries 2 VT500PARSE_ACTION_ESC_DISPATCH VT500PARSE_STATE_GROUND ++
  entries 1 0 VT500PARSE_STATE_CSI_ENTRY ++
  entries 1 VT500PARSE_ACTION_ESC_DISPATCH VT500PARSE_STATE_GROUND ++
  entries 1 0 VT500PARSE_STATE_OSC_STRING ++
  entries 2 0 VT500PARSE_STATE_SOS_PM_APC_STRING ++
  entries 31 VT500PARSE_ACTION_ESC_DISPATCH VT500PARSE_STATE_GROUND ++
  entries 1 VT500PARSE_ACTION_IGNORE 0 ++
  entries 16 VT500PARSE_ACTION_EXECUTE VT500PARSE_STATE_GROUND ++
  entries 1 0 VT500PARSE_STATE_DCS_ENTRY ++
  entries 7 VT500PARSE_ACTION_EXECUTE VT500PARSE_STATE_GROUND ++
  entries 1 0 VT500PARSE_STATE_SOS_PM_APC_STRING ++
  entries 2 VT500PARSE_ACTION_EXECUTE VT500PARSE_STATE_GROUND ++
  entries 1 0 VT500PARSE_STATE_CSI_ENTRY ++
  entries 1 0 VT500PARSE_STATE_GROUND ++
  entries 1 0 VT500PARSE_STATE_OSC_STRING ++
  entries 2 0 VT500PARSE_STATE_SOS_PM_APC_STRING ++
  replicate 96 0.

Definition vt500_row_ESCAPE_INTERMEDIATE : list Z :=
  entries 24 VT500PARSE_ACTION_EXECUTE 0 ++
  entries 1 VT500PARSE_ACTION_EXECUTE VT500PARSE_STATE_GROUND ++
  entries 1 VT500PARSE_ACTION_EXECUTE 0 ++
  entries 1 VT500PARSE_ACTION_EXECUTE VT500PARSE_STATE_GROUND ++
  entries 1 0 VT500PARSE_STATE_ESCAPE ++
  entries 4 VT500PARSE_ACTION_EXECUTE 0 ++
  entries 16 VT500PARSE_ACTION_COLLECT 0 ++
  entries 79 VT500PARSE_ACTION_ESC_DISPATCH VT500PARSE_STATE_GROUND ++
  entries 1 VT500PARSE_ACTION_IGNORE 0 ++
  entries 16 VT500PARSE_ACTION_EXECUTE VT500PARSE_STATE_GROUND ++
  entries 1 0 VT500PARSE_STATE_DCS_ENTRY ++
  entries 7 VT500PARSE_ACTION_EXECUTE VT500PARSE_STATE_GROUND ++
  entries 1 0 VT500PARSE_STATE_SOS_PM_APC_STRING ++
  entries 2 VT500PARSE_ACTION_EXECUTE VT500PARSE_STATE_GROUND ++
  entries 1 0 VT500PARSE_STATE_CSI_ENTRY ++
  entries 1 0 VT500PARSE_STATE_GROUND ++
  entries 1 0 VT500PARSE_STATE_OSC_STRING ++
  entries 2 0 VT500PARSE_STATE_SOS_PM_APC_STRING ++
  replicate 96 0.

Definition vt500_row_GROUND : list Z :=
  entries 24 VT500PARSE_ACTION_EXECUTE 0 ++
  entries 1 VT500PARSE_ACTION_EXECUTE VT500PARSE_STATE_GROUND ++
  entries 1 VT500PARSE_ACTION_EXECUTE 0 ++
  entries 1 VT500PARSE_ACTION_EXECUTE VT500PARSE_STATE_GROUND ++
  entries 1 0 VT500PARSE_STATE_ESCAPE ++
  entries 4 VT500PARSE_ACTION_EXECUTE 0 ++
  entries 96 VT500PARSE_ACTION_PRINT 0 ++
  entries 16 VT500PARSE_ACTION_EXECUTE VT500PARSE_STATE_GROUND ++
  entries 1 0 VT500PARSE_STATE_DCS_ENTRY ++
  entries 7 VT500PARSE_ACTION_EXECUTE VT500PARSE_STATE_GROUND ++
  entries 1 0 VT500PARSE_STATE_SOS_PM_APC_STRING ++
  entries 2 VT500PARSE_ACTION_EXECUTE VT500PARSE_STATE_GROUND ++
  entries 1 0 VT500PARSE_STATE_CSI_ENTRY ++
  entries 1 0 VT500PARSE_STATE_GROUND ++
  entries 1 0 VT500PARSE_STATE_OSC_STRING ++
  entries 2 0 VT500PARSE_STATE_SOS_PM_APC_STRING ++
  replicate 96 0.

Definition vt500_row_OSC_STRING : list Z :=
  entries 24 VT500PARSE_ACTION_IGNORE 0 ++
  entries 1 VT500PARSE_ACTION_EXECUTE VT500PARSE_STATE_GROUND ++
  entries 1 VT500PARSE_ACTION_IGNORE 0 ++
  entries 1 VT500PARSE_ACTION_EXECUTE VT500PARSE_STATE_GROUND ++
  entries 1 0 VT500PARSE_STATE_ESCAPE ++
  entries 4 VT500PARSE_ACTION_IGNORE 0 ++
  entries 96 VT500PARSE_ACTION_OSC_PUT 0 ++
  entries 16 VT500PARSE_ACTION_EXECUTE VT500PARSE_STATE_GROUND ++
  entries 1 0 VT500PARSE_STATE_DCS_ENTRY ++
  entries 7 VT500PARSE_ACTION_EXECUTE VT500PARSE_STATE_GROUND ++
  entries 1 0 VT500PARSE_STATE_SOS_PM_APC_STRING ++
  entries 2 VT500PARSE_ACTION_EXECUTE VT500PARSE_STATE_GROUND ++
  entries 1 0 VT500PARSE_STATE_CSI_ENTRY ++
  entries 1 0 VT500PARSE_STATE_GROUND ++
  entries 1 0 VT500PARSE_STATE_OSC_STRING ++
  entries 2 0 VT500PARSE_STATE_SOS_PM_APC_STRING ++
  replicate 96 0.

Definition vt500_row_SOS_PM_APC_STRING : list Z :=
  entries 24 VT500PARSE_ACTION_IGNORE 0 ++
  entries 1 VT500PARSE_ACTION_EXECUTE VT500PARSE_STATE_GROUND ++
  entries 1 VT500PARSE_ACTION_IGNORE 0 ++
  entries 1 VT500PARSE_ACTION_EXECUTE VT500PARSE_STATE_GROUND ++
  entries 1 0 VT500PARSE_STATE_ESCAPE ++
  entries 100 VT500PARSE_ACTION_IGNORE 0 ++
  entries 16 VT500PARSE_ACTION_EXECUTE VT500PARSE_STATE_GROUND ++
  entries 1 0 VT500PARSE_STATE_DCS_ENTRY ++
  entries 7 VT500PARSE_ACTION_EXECUTE VT500PARSE_STATE_GROUND ++
  entries 1 0 VT500PARSE_STATE_SOS_PM_APC_STRING ++
  entries 2 VT500PARSE_ACTION_EXECUTE VT500PARSE_STATE_GROUND ++
  entries 1 0 VT500PARSE_STATE_CSI_ENTRY ++
  entries 1 0 VT500PARSE_STATE_GROUND ++
  entries 1 0 VT500PARSE_STATE_OSC_STRING ++
  entries 2 0 VT500PARSE_STATE_SOS_PM_APC_STRING ++
  replicate 96 0.

Definition VT500_STATE_TABLE : list (list Z) :=
  [vt500_row_CSI_ENTRY; vt500_row_CSI_IGNORE; vt500_row_CSI_INTERMEDIATE; vt500_row_CSI_PARAM; vt500_row_DCS_ENTRY; vt500_row_DCS_IGNORE; vt500_row_DCS_INTERMEDIATE; vt500_row_DCS_PARAM; vt500_row_DCS_PASSTHROUGH; vt500_row_ESCAPE; vt500_row_ESCAPE_INTERMEDIATE; vt500_row_GROUND; vt500_row_OSC_STRING; vt500_row_SOS_PM_APC_STRING].

Definition VT500_ENTRY_ACTIONS : list Z :=
  [VT500PARSE_ACTION_CLEAR; 0; 0; 0; VT500PARSE_ACTION_CLEAR; 0; 0; 0; VT500PARSE_ACTION_HOOK; VT500PARSE_ACTION_CLEAR; 0; 0;
   VT500PARSE_ACTION_OSC_START; 0].
Definition VT500_EXIT_ACTIONS : list Z :=
  [0; 0; 0; 0; 0; 0; 0; 0; VT500PARSE_ACTION_UNHOOK; 0; 0; 0; VT500PARSE_ACTION_OSC_END; 0].

(** ** VT52 *)

(** Those of [vt52parse_state_t] and [vt52parse_action_t]. *)
Notation VT52PARSE_STATE_GROUND := 1%Z (only parsing).
Notation VT52PARSE_STATE_ESCAPE := 2%Z (only parsing).
Notation VT52PARSE_STATE_COLLECT := 3%Z (only parsing).
Notation VT52PARSE_ACTION_ESC_START := 1%Z (only parsing).
Notation VT52PARSE_ACTION_ESC_DISPATCH := 2%Z (only parsing).
Notation VT52PARSE_ACTION_ESC_DELAY_DISPATCH := 3%Z (only parsing).
Notation VT52PARSE_ACTION_COLLECT_BYTE := 4%Z (only parsing).
Notation VT52PARSE_ACTION_EXECUTE := 5%Z (only parsing).
Notation VT52PARSE_ACTION_PRINT := 6%Z (only parsing).
Notation VT52PARSE_ACTION_IGNORE := 7%Z (only parsing).
Notation VT52PARSE_ACTION_ERROR := 8%Z (only parsing).

Definition vt52_row_GROUND : list Z :=
  entries 1 VT52PARSE_ACTION_IGNORE VT52PARSE_STATE_GROUND ++
  entries 26 VT52PARSE_ACTION_EXECUTE VT52PARSE_STATE_GROUND ++
  entries 1 VT52PARSE_ACTION_ESC_START VT52PARSE_STATE_ESCAPE ++
  entries 4 VT52PARSE_ACTION_EXECUTE VT52PARSE_STATE_GROUND ++
  entries 96 VT52PARSE_ACTION_PRINT VT52PARSE_STATE_GROUND ++
  entries 32 VT52PARSE_ACTION_EXECUTE VT52PARSE_STATE_GROUND ++
  replicate 96 0.

Definition vt52_row_ESCAPE : list Z :=
  entries 1 VT52PARSE_ACTION_IGNORE VT52PARSE_STATE_ESCAPE ++
  entries 26 VT52PARSE_ACTION_EXECUTE VT52PARSE_STATE_GROUND ++
  entries 1 VT52PARSE_ACTION_ESC_START VT52PARSE_STATE_ESCAPE ++
  entries 4 VT52PARSE_ACTION_EXECUTE VT52PARSE_STATE_GROUND ++
  entries 57 VT52PARSE_ACTION_ESC_DISPATCH VT52PARSE_STATE_GROUND ++
  entries 1 VT52PARSE_ACTION_ESC_DELAY_DISPATCH VT52PARSE_STATE_COLLECT ++
  entries 8 VT52PARSE_ACTION_ESC_DISPATCH VT52PARSE_STATE_GROUND ++
  entries 2 VT52PARSE_ACTION_ESC_DELAY_DISPATCH VT52PARSE_STATE_COLLECT ++
  entries 27 VT52PARSE_ACTION_ESC_DISPATCH VT52PARSE_STATE_GROUND ++
  entries 1 VT52PARSE_ACTION_IGNORE VT52PARSE_STATE_ESCAPE ++
  entries 32 VT52PARSE_ACTION_EXECUTE VT52PARSE_STATE_GROUND ++
  replicate 96 0.

Definition vt52_row_COLLECT : list Z :=
  entries 1 VT52PARSE_ACTION_IGNORE VT52PARSE_STATE_COLLECT ++
  entries 26 VT52PARSE_ACTION_EXECUTE VT52PARSE_STATE_GROUND ++
  entries 1 VT52PARSE_ACTION_ESC_START VT52PARSE_STATE_ESCAPE ++
  entries 4 VT52PARSE_ACTION_EXECUTE VT52PARSE_STATE_GROUND ++
  entries 95 VT52PARSE_ACTION_COLLECT_BYTE VT52PARSE_STATE_COLLECT ++
  entries 1 VT52PARSE_ACTION_IGNORE VT52PARSE_STATE_COLLECT ++
  entries 32 VT52PARSE_ACTION_EXECUTE VT52PARSE_STATE_GROUND ++
  replicate 96 0.

Definition VT52_STATE_TABLE : list (list Z) :=
  [vt52_row_GROUND; vt52_row_ESCAPE; vt52_row_COLLECT].
