(* ===== verification/VtParse.v ===== *)
(** * The terminal parsers (kern/src/console)

    vt500parse.c and vt52parse.c, which split the bytes written to a console into
    characters, control codes and control sequences, and vtparser.c, which
    switches between them.  The callback of a parser sees the parser: a call of
    it is recorded with what it can read there. *)

From S2P Require Import Prelude VtTables.

(** ** VT500 *)

Definition MAX_INTERMEDIATE_CHARS : Z := 2.
Definition MAX_PARAMS : nat := 16.

Record vt500parse_t := Vt500 {
  v_state : Z; intermediate_chars : list Z; num_intermediate_chars : Z;
  params : list Z; num_params : Z; ignore_flagged : bool }.

(** A call of the callback: the action, the character, and the intermediate
    characters and parameters at this time. *)
Record call := Call { c_action : Z; c_ch : Z; c_ints : list Z; c_params : list Z; c_ignore : bool }.

Definition s16 (z : Z) : Z := (z + 2 ^ 15) mod 2 ^ 16 - 2 ^ 15.

Definition vt500parse_reset (p : vt500parse_t) : vt500parse_t :=
  Vt500 VT500PARSE_STATE_GROUND (intermediate_chars p) 0 (params p) 0 false.

Definition vt500_cb (p : vt500parse_t) (action ch : Z) : call :=
  Call action ch (take (Z.to_nat (num_intermediate_chars p)) (intermediate_chars p))
    (take (Z.to_nat (num_params p)) (params p)) (ignore_flagged p).

(** The actions that are handed to the client. *)
Definition client_action (action : Z) : bool :=
  bool_decide (action ∈ [VT500PARSE_ACTION_PRINT; VT500PARSE_ACTION_EXECUTE; VT500PARSE_ACTION_HOOK; VT500PARSE_ACTION_PUT;
    VT500PARSE_ACTION_OSC_START; VT500PARSE_ACTION_OSC_PUT; VT500PARSE_ACTION_OSC_END; VT500PARSE_ACTION_UNHOOK;
    VT500PARSE_ACTION_CSI_DISPATCH; VT500PARSE_ACTION_ESC_DISPATCH]).

(** A store into [params]; [None] is outside of the array. *)
Definition set_param (i : Z) (v : Z) (p : vt500parse_t) : option vt500parse_t :=
  if (0 <=? i) && (i <? Z.of_nat (length (params p)))
  then Some (Vt500 (v_state p) (intermediate_chars p) (num_intermediate_chars p) (<[Z.to_nat i := v]> (params p)) (num_params p) (ignore_flagged p))
  else None.

Definition set_num_params (n : Z) (p : vt500parse_t) : vt500parse_t :=
  Vt500 (v_state p) (intermediate_chars p) (num_intermediate_chars p) (params p) n (ignore_flagged p).

Definition collect (ch : Z) (p : vt500parse_t) : option vt500parse_t :=
  if MAX_INTERMEDIATE_CHARS <? num_intermediate_chars p + 1
  then Some (Vt500 (v_state p) (intermediate_chars p) (num_intermediate_chars p) (params p) (num_params p) true)
  else if (0 <=? num_intermediate_chars p) && (num_intermediate_chars p <? Z.of_nat (length (intermediate_chars p)))
  then Some (Vt500 (v_state p) (<[Z.to_nat (num_intermediate_chars p) := ch]> (intermediate_chars p)) (num_intermediate_chars p + 1)
               (params p) (num_params p) (ignore_flagged p))
  else None.

(** The digit or the separator of a parameter. *)
Definition param (ch : Z) (p : vt500parse_t) : option vt500parse_t :=
  if ch =? 59 then
    let p := set_num_params (s16 (num_params p + 1)) p in
    set_param (num_params p - 1) 0 p
  else
    p ← (if num_params p =? 0 then set_param 0 0 (set_num_params 1 p) else Some p);
    let current_param := num_params p - 1 in
    v ← (if 0 <=? current_param then params p !! Z.to_nat current_param else None);
    if v <? 9999 then set_param current_param (s16 (s16 (v * 10) + (ch - 48))) p else Some p.

Definition do_action (p : vt500parse_t) (action ch : Z) : option (vt500parse_t * list call) :=
  if client_action action then Some (p, [vt500_cb p action ch])
  else if action =? VT500PARSE_ACTION_IGNORE then Some (p, [])
  else if action =? VT500PARSE_ACTION_COLLECT then p ← collect ch p; Some (p, [])
  else if action =? VT500PARSE_ACTION_PARAM then p ← param ch p; Some (p, [])
  else if action =? VT500PARSE_ACTION_CLEAR
  then Some (Vt500 (v_state p) (intermediate_chars p) 0 (params p) 0 false, [])
  else Some (p, [vt500_cb p VT500PARSE_ACTION_ERROR 0]).

(** [if (action) do_action(...)] *)
Definition do_optional (p : vt500parse_t) (action ch : Z) : option (vt500parse_t * list call) :=
  if action =? 0 then Some (p, []) else do_action p action ch.

(** An access of an array of the tables. *)
Definition table_at {A} (l : list A) (i : Z) : option A := if 0 <=? i then l !! Z.to_nat i else None.

Definition set_state (s : Z) (p : vt500parse_t) : vt500parse_t :=
  Vt500 s (intermediate_chars p) (num_intermediate_chars p) (params p) (num_params p) (ignore_flagged p).

Definition vt500parse_do_state_change (p : vt500parse_t) (ch : Z) : option (vt500parse_t * list call) :=
  row ← table_at VT500_STATE_TABLE (v_state p - 1);
  change ← table_at row ch;
  let new_state := STATE change in
  let action := ACTION change in
  if negb (new_state =? 0) then
    exit_action ← table_at VT500_EXIT_ACTIONS (v_state p - 1);
    entry_action ← table_at VT500_ENTRY_ACTIONS (new_state - 1);
    r1 ← do_optional p exit_action 0;
    r2 ← do_optional r1.1 action ch;
    r3 ← do_optional r2.1 entry_action 0;
    Some (set_state new_state r3.1, r1.2 ++ r2.2 ++ r3.2)
  else do_action p action ch.

(** All bytes of a text. *)
Fixpoint vt500_feed (p : vt500parse_t) (l : list Z) : option (vt500parse_t * list call) :=
  match l with
  | [] => Some (p, [])
  | ch :: l =>
      r ← vt500parse_do_state_change p ch;
      r' ← vt500_feed r.1 l;
      Some (r'.1, r.2 ++ r'.2)
  end.

(** ** VT52 *)

Definition VT52_MAX_PARAMS : nat := 2.

Record vt52parse_t := Vt52 {
  w_state : Z; w_params : list Z; w_num_params : Z; esc_code_seen : Z;
  num_params_to_collect : Z; is_atari_extensions_enabled : bool }.

Definition vt52parse_reset (p : vt52parse_t) : vt52parse_t :=
  Vt52 VT52PARSE_STATE_GROUND (w_params p) 0 0 0 false.

Definition vt52_cb (p : vt52parse_t) (action ch : Z) : call :=
  Call action ch [] (take (Z.to_nat (w_num_params p)) (w_params p)) false.

Definition w_set_state (s : Z) (p : vt52parse_t) : vt52parse_t :=
  Vt52 s (w_params p) (w_num_params p) (esc_code_seen p) (num_params_to_collect p) (is_atari_extensions_enabled p).

Definition esc_delay_dispatch (p : vt52parse_t) (ch new_state : Z) : vt52parse_t * list call :=
  let n := if ch =? 89 then 2
           else if (ch =? 98) || (ch =? 99) then (if is_atari_extensions_enabled p then 1 else 0)
           else 0 in
  let p := Vt52 (w_state p) (w_params p) (w_num_params p) (esc_code_seen p) n (is_atari_extensions_enabled p) in
  if 0 <? n
  then (Vt52 new_state (w_params p) (w_num_params p) ch n (is_atari_extensions_enabled p), [])
  else (w_set_state VT52PARSE_STATE_GROUND p, [vt52_cb p VT52PARSE_ACTION_ESC_DISPATCH ch]).

Definition collect_byte (p : vt52parse_t) (ch new_state : Z) : option (vt52parse_t * list call) :=
  if (0 <=? w_num_params p) && (w_num_params p <? Z.of_nat (length (w_params p))) then
    let p := Vt52 (w_state p) (<[Z.to_nat (w_num_params p) := ch]> (w_params p)) (s8 (w_num_params p + 1)) (esc_code_seen p)
               (num_params_to_collect p) (is_atari_extensions_enabled p) in
    if w_num_params p =? num_params_to_collect p
    then Some (w_set_state VT52PARSE_STATE_GROUND p, [vt52_cb p VT52PARSE_ACTION_ESC_DISPATCH (esc_code_seen p)])
    else Some (w_set_state new_state p, [])
  else None.

Definition vt52parse_do_state_change (p : vt52parse_t) (ch : Z) : option (vt52parse_t * list call) :=
  row ← table_at VT52_STATE_TABLE (w_state p - 1);
  change ← table_at row ch;
  let new_state := STATE change in
  let action := ACTION change in
  if (action =? VT52PARSE_ACTION_PRINT) || (action =? VT52PARSE_ACTION_EXECUTE) || (action =? VT52PARSE_ACTION_ESC_DISPATCH)
  then Some (w_set_state new_state p, [vt52_cb p action ch])
  else if action =? VT52PARSE_ACTION_ESC_START
  then Some (Vt52 new_state (w_params p) 0 (esc_code_seen p) (num_params_to_collect p) (is_atari_extensions_enabled p), [])
  else if action =? VT52PARSE_ACTION_ESC_DELAY_DISPATCH then Some (esc_delay_dispatch p ch new_state)
  else if action =? VT52PARSE_ACTION_COLLECT_BYTE then collect_byte p ch new_state
  else Some (w_set_state new_state p, [vt52_cb p VT52PARSE_ACTION_ERROR 0]).

Fixpoint vt52_feed (p : vt52parse_t) (l : list Z) : option (vt52parse_t * list call) :=
  match l with
  | [] => Some (p, [])
  | ch :: l =>
      r ← vt52parse_do_state_change p ch;
      r' ← vt52_feed r.1 l;
      Some (r'.1, r.2 ++ r'.2)
  end.

(** ** The parser of the console *)

Inductive vtparser_mode_t := VTPARSER_MODE_VT52 | VTPARSER_MODE_VT52_ATARI | VTPARSER_MODE_VT100.

(** [do_change_cb] is the function of one of the two parsers. *)
Record vtparser_t := VtParser { vt52 : vt52parse_t; vt500 : vt500parse_t; do_vt52 : bool }.

Definition vtparser_init (p : vtparser_t) : vtparser_t :=
  VtParser (vt52parse_reset (vt52 p)) (vt500parse_reset (vt500 p)) false.

Definition vtparser_set_mode (p : vtparser_t) (mode : vtparser_mode_t) : vtparser_t :=
  match mode with
  | VTPARSER_MODE_VT52 | VTPARSER_MODE_VT52_ATARI =>
      let q := vt52parse_reset (vt52 p) in
      VtParser (Vt52 (w_state q) (w_params q) (w_num_params q) (esc_code_seen q) (num_params_to_collect q)
                  (match mode with VTPARSER_MODE_VT52_ATARI => true | _ => false end)) (vt500 p) true
  | VTPARSER_MODE_VT100 => VtParser (vt52 p) (vt500parse_reset (vt500 p)) false
  end.

Definition vtparser_byte (p : vtparser_t) (ch : Z) : option (vtparser_t * list call) :=
  if do_vt52 p
  then r ← vt52parse_do_state_change (vt52 p) ch; Some (VtParser r.1 (vt500 p) true, r.2)
  else r ← vt500parse_do_state_change (vt500 p) ch; Some (VtParser (vt52 p) r.1 false, r.2).

(** ** The parser of the DEC terminals *)

(** The state diagram of the DEC ANSI parser, which vt500parse.h refers to: for a
    state and a character the action, or 0, and the new state, or 0 if it stays.
    First the transitions from anywhere, then those of each state. *)
Section Diagram.
Variable ch : Z.
Notation "'in' a 'to' b" := ((a <=? ch) && (ch <=? b)) (at level 0, a at level 0, b at level 0).

Definition dec_anywhere : option (Z * Z) :=
  if (ch =? 0x18) || (ch =? 0x1a) || in 0x80 to 0x8f || in 0x91 to 0x97 || (ch =? 0x99) || (ch =? 0x9a)
  then Some (VT500PARSE_ACTION_EXECUTE, VT500PARSE_STATE_GROUND)
  else if ch =? 0x1b then Some (0, VT500PARSE_STATE_ESCAPE)
  else if ch =? 0x90 then Some (0, VT500PARSE_STATE_DCS_ENTRY)
  else if ch =? 0x9b then Some (0, VT500PARSE_STATE_CSI_ENTRY)
  else if ch =? 0x9c then Some (0, VT500PARSE_STATE_GROUND)
  else if ch =? 0x9d then Some (0, VT500PARSE_STATE_OSC_STRING)
  else if (ch =? 0x98) || (ch =? 0x9e) || (ch =? 0x9f) then Some (0, VT500PARSE_STATE_SOS_PM_APC_STRING)
  else None.

(** A control or device control sequence: the states of the two kinds differ in
    what they do with control codes and at the end. *)
Definition dec_sequence (c0 : Z) (ignore param_ inter : Z) (final : Z * Z) (entry : bool) : Z * Z :=
  if ch <? 0x20 then (c0, 0)
  else if in 0x20 to 0x2f then (VT500PARSE_ACTION_COLLECT, inter)
  else if in 0x30 to 0x39 || (ch =? 0x3b) then (VT500PARSE_ACTION_PARAM, if entry then param_ else 0)
  else if ch =? 0x3a then (0, ignore)
  else if in 0x3c to 0x3f then (if entry then (VT500PARSE_ACTION_COLLECT, param_) else (0, ignore))
  else if in 0x40 to 0x7e then final
  else (VT500PARSE_ACTION_IGNORE, 0).

Definition dec_intermediate (c0 ignore : Z) (final : Z * Z) : Z * Z :=
  if ch <? 0x20 then (c0, 0)
  else if in 0x20 to 0x2f then (VT500PARSE_ACTION_COLLECT, 0)
  else if in 0x30 to 0x3f then (0, ignore)
  else if in 0x40 to 0x7e then final
  else (VT500PARSE_ACTION_IGNORE, 0).

Definition dec_escape : Z * Z :=
  if ch <? 0x20 then (VT500PARSE_ACTION_EXECUTE, 0)
  else if in 0x20 to 0x2f then (VT500PARSE_ACTION_COLLECT, VT500PARSE_STATE_ESCAPE_INTERMEDIATE)
  else if ch =? 0x5b then (0, VT500PARSE_STATE_CSI_ENTRY)
  else if ch =? 0x5d then (0, VT500PARSE_STATE_OSC_STRING)
  else if ch =? 0x50 then (0, VT500PARSE_STATE_DCS_ENTRY)
  else if (ch =? 0x58) || (ch =? 0x5e) || (ch =? 0x5f) then (0, VT500PARSE_STATE_SOS_PM_APC_STRING)
  else if in 0x30 to 0x7e then (VT500PARSE_ACTION_ESC_DISPATCH, VT500PARSE_STATE_GROUND)
  else (VT500PARSE_ACTION_IGNORE, 0).

Definition csi_final := (VT500PARSE_ACTION_CSI_DISPATCH, VT500PARSE_STATE_GROUND).
Definition dcs_final := (0, VT500PARSE_STATE_DCS_PASSTHROUGH).

Definition dec_state (s : Z) : Z * Z :=
  if s =? VT500PARSE_STATE_GROUND then ((if ch <? 0x20 then VT500PARSE_ACTION_EXECUTE else VT500PARSE_ACTION_PRINT), 0)
  else if s =? VT500PARSE_STATE_ESCAPE then dec_escape
  else if s =? VT500PARSE_STATE_ESCAPE_INTERMEDIATE then
    (if ch <? 0x20 then (VT500PARSE_ACTION_EXECUTE, 0) else if ch <=? 0x2f then (VT500PARSE_ACTION_COLLECT, 0)
     else if ch <=? 0x7e then (VT500PARSE_ACTION_ESC_DISPATCH, VT500PARSE_STATE_GROUND) else (VT500PARSE_ACTION_IGNORE, 0))
  else if s =? VT500PARSE_STATE_CSI_ENTRY then
    dec_sequence VT500PARSE_ACTION_EXECUTE VT500PARSE_STATE_CSI_IGNORE VT500PARSE_STATE_CSI_PARAM VT500PARSE_STATE_CSI_INTERMEDIATE csi_final true
  else if s =? VT500PARSE_STATE_CSI_PARAM then
    dec_sequence VT500PARSE_ACTION_EXECUTE VT500PARSE_STATE_CSI_IGNORE VT500PARSE_STATE_CSI_PARAM VT500PARSE_STATE_CSI_INTERMEDIATE csi_final false
  else if s =? VT500PARSE_STATE_CSI_INTERMEDIATE then dec_intermediate VT500PARSE_ACTION_EXECUTE VT500PARSE_STATE_CSI_IGNORE csi_final
  else if s =? VT500PARSE_STATE_CSI_IGNORE then
    (if ch <? 0x20 then (VT500PARSE_ACTION_EXECUTE, 0) else if in 0x40 to 0x7e then (0, VT500PARSE_STATE_GROUND) else (VT500PARSE_ACTION_IGNORE, 0))
  else if s =? VT500PARSE_STATE_DCS_ENTRY then
    dec_sequence VT500PARSE_ACTION_IGNORE VT500PARSE_STATE_DCS_IGNORE VT500PARSE_STATE_DCS_PARAM VT500PARSE_STATE_DCS_INTERMEDIATE dcs_final true
  else if s =? VT500PARSE_STATE_DCS_PARAM then
    dec_sequence VT500PARSE_ACTION_IGNORE VT500PARSE_STATE_DCS_IGNORE VT500PARSE_STATE_DCS_PARAM VT500PARSE_STATE_DCS_INTERMEDIATE dcs_final false
  else if s =? VT500PARSE_STATE_DCS_INTERMEDIATE then dec_intermediate VT500PARSE_ACTION_IGNORE VT500PARSE_STATE_DCS_IGNORE dcs_final
  else if s =? VT500PARSE_STATE_DCS_PASSTHROUGH then ((if ch =? 0x7f then VT500PARSE_ACTION_IGNORE else VT500PARSE_ACTION_PUT), 0)
  else if s =? VT500PARSE_STATE_OSC_STRING then ((if ch <? 0x20 then VT500PARSE_ACTION_IGNORE else VT500PARSE_ACTION_OSC_PUT), 0)
  else (VT500PARSE_ACTION_IGNORE, 0).

(** The characters 0xa0 to 0xff are not in the diagram. *)
Definition dec_change (s : Z) : Z * Z :=
  if 0xa0 <=? ch then (0, 0) else default (dec_state s) dec_anywhere.
End Diagram.

(** What holds for all states and bytes can be checked by evaluation. *)
Definition every (f : Z -> Z -> bool) : bool :=
  forallb (fun s => forallb (f s) (bytes_upto 256)) (Z.succ <$> bytes_upto 14).

Lemma every_spec f s ch : every f = true -> 1 <= s <= 14 -> 0 <= ch < 256 -> f s ch = true.
Proof.
  unfold every. intros Hc Hs Hch. rewrite forallb_forall in Hc. specialize (Hc s). rewrite <- list_elem_of_In, list_elem_of_fmap in Hc.
  assert (He : exists y, s = Z.succ y /\ y ∈ bytes_upto 14) by (exists (s - 1); rewrite bytes_upto_elem; lia).
  specialize (Hc He). rewrite forallb_forall in Hc. apply Hc. by rewrite <- list_elem_of_In, bytes_upto_elem.
Qed.

(** The table against the diagram. *)
Lemma table_entry s ch :
  1 <= s <= 14 -> 0 <= ch < 256 ->
  exists row change, table_at VT500_STATE_TABLE (s - 1) = Some row /\ table_at row ch = Some change /\
    ACTION change = (dec_change ch s).1 /\ STATE change = (dec_change ch s).2.
Proof.
  intros Hs Hch.
  assert (Hc : every (fun s ch => match table_at VT500_STATE_TABLE (s - 1) ≫= fun row => table_at row ch with
    | Some x => bool_decide ((ACTION x, STATE x) = dec_change ch s) | None => false end) = true) by (vm_compute; reflexivity).
  apply (every_spec _ s ch) in Hc; [|done|done]. cbv beta in Hc. destruct (table_at VT500_STATE_TABLE (s - 1)) as [row|]; cbn in Hc; [|discriminate].
  destruct (table_at row ch) as [x|] eqn:Ex; [|discriminate]. apply bool_decide_eq_true in Hc. exists row, x. by rewrite <- Hc.
Qed.

(** C27. The state table of the VT500 parser is the state diagram of the DEC ANSI
    parser: for every state and every byte the entry is the action and the new
    state of the diagram.  Bytes from 0xa0 on, which the diagram does not have,
    have an entry without an action and without a state. *)
Theorem vt500_table_is_dec_parser s ch :
  1 <= s <= 14 -> 0 <= ch < 256 ->
  exists row change, table_at VT500_STATE_TABLE (s - 1) = Some row /\ table_at row ch = Some change /\
    (ACTION change, STATE change) = dec_change ch s.
Proof.
  intros Hs Hch. destruct (table_entry s ch Hs Hch) as (row & x & Hr & Hx & Ea & Es). exists row, x.
  by rewrite Ea, Es, <- surjective_pairing.
Qed.

Lemma vt500_table_is_dec_parser_witness :
  exists row change, table_at VT500_STATE_TABLE (VT500PARSE_STATE_CSI_PARAM - 1) = Some row /\ table_at row 0x6d = Some change /\
    (ACTION change, STATE change) = (VT500PARSE_ACTION_CSI_DISPATCH, VT500PARSE_STATE_GROUND).
Proof. apply (vt500_table_is_dec_parser VT500PARSE_STATE_CSI_PARAM 0x6d); lia. Defined.

(** ** One byte *)

Definition exit_action (s : Z) : Z :=
  if s =? VT500PARSE_STATE_DCS_PASSTHROUGH then VT500PARSE_ACTION_UNHOOK
  else if s =? VT500PARSE_STATE_OSC_STRING then VT500PARSE_ACTION_OSC_END else 0.
Definition entry_action (s : Z) : Z :=
  if (s =? VT500PARSE_STATE_CSI_ENTRY) || (s =? VT500PARSE_STATE_DCS_ENTRY) || (s =? VT500PARSE_STATE_ESCAPE) then VT500PARSE_ACTION_CLEAR
  else if s =? VT500PARSE_STATE_DCS_PASSTHROUGH then VT500PARSE_ACTION_HOOK
  else if s =? VT500PARSE_STATE_OSC_STRING then VT500PARSE_ACTION_OSC_START else 0.

Lemma exit_entry s :
  1 <= s <= 14 ->
  table_at VT500_EXIT_ACTIONS (s - 1) = Some (exit_action s) /\ table_at VT500_ENTRY_ACTIONS (s - 1) = Some (entry_action s).
Proof.
  intros Hs. assert (Hc : every (fun s _ => bool_decide (table_at VT500_EXIT_ACTIONS (s - 1) = Some (exit_action s)) &&
    bool_decide (table_at VT500_ENTRY_ACTIONS (s - 1) = Some (entry_action s))) = true) by (vm_compute; reflexivity).
  apply (every_spec _ s 0) in Hc; [|done|lia]. apply andb_true_iff in Hc as [H1 H2]. by apply bool_decide_eq_true in H1, H2.
Qed.

Lemma dec_state_range s ch : 1 <= s <= 14 -> 0 <= ch < 256 -> 0 <= (dec_change ch s).2 <= 14 /\ 0 <= (dec_change ch s).1 <= 15.
Proof.
  intros Hs Hch. assert (Hc : every (fun s ch => (0 <=? (dec_change ch s).2) && ((dec_change ch s).2 <=? 14) &&
    (0 <=? (dec_change ch s).1) && ((dec_change ch s).1 <=? 15)) = true) by (vm_compute; reflexivity).
  apply (every_spec _ s ch) in Hc; [|done|done]. rewrite !andb_true_iff, !Z.leb_le in Hc. lia.
Qed.

(** The step of the parser in terms of the diagram. *)
Lemma step_eq p ch :
  1 <= v_state p <= 14 -> 0 <= ch < 256 ->
  vt500parse_do_state_change p ch =
    let c := dec_change ch (v_state p) in
    if c.2 =? 0 then do_action p c.1 ch
    else r1 ← do_optional p (exit_action (v_state p)) 0; r2 ← do_optional r1.1 c.1 ch; r3 ← do_optional r2.1 (entry_action c.2) 0;
         Some (set_state c.2 r3.1, r1.2 ++ r2.2 ++ r3.2).
Proof.
  intros Hs Hch. destruct (table_entry (v_state p) ch Hs Hch) as (row & x & Hr & Hx & Ea & Es).
  unfold vt500parse_do_state_change. rewrite (bind_some Hr), (bind_some Hx), Ea, Es. cbn zeta.
  destruct (dec_state_range (v_state p) ch Hs Hch) as [Hn _]. destruct ((dec_change ch (v_state p)).2 =? 0) eqn:E; [done|].
  apply Z.eqb_neq in E. destruct (exit_entry (v_state p) Hs) as [E1 _]. destruct (exit_entry (dec_change ch (v_state p)).2) as [_ E2]; [lia|].
  cbn [negb]. by rewrite (bind_some E1), (bind_some E2).
Qed.

(** ** The parser stays in its arrays *)

Record wf (p : vt500parse_t) : Prop := {
  wf_state : 1 <= v_state p <= 14;
  wf_ints : length (intermediate_chars p) = 3%nat;
  wf_num_ints : 0 <= num_intermediate_chars p <= MAX_INTERMEDIATE_CHARS;
  wf_params : length (params p) = MAX_PARAMS;
  wf_num_params : 0 <= num_params p <= Z.of_nat MAX_PARAMS;
  wf_short : Forall (fun v => - 2 ^ 15 <= v < 2 ^ 15) (params p) }.

Lemma s16_range z : - 2 ^ 15 <= s16 z < 2 ^ 15.
Proof. unfold s16. pose proof (Z.mod_pos_bound (z + 2 ^ 15) (2 ^ 16) eq_refl). lia. Qed.

Lemma s16_id z : - 2 ^ 15 <= z < 2 ^ 15 -> s16 z = z.
Proof. intros H. unfold s16. rewrite Z.mod_small by lia. lia. Qed.

Lemma set_param_some i v p :
  length (params p) = MAX_PARAMS -> 0 <= i < Z.of_nat MAX_PARAMS ->
  set_param i v p = Some (Vt500 (v_state p) (intermediate_chars p) (num_intermediate_chars p) (<[Z.to_nat i := v]> (params p)) (num_params p) (ignore_flagged p)).
Proof. intros Hl Hi. unfold set_param. rewrite Hl. by replace _ with true by lia. Qed.

Lemma wf_set_param i v p n :
  wf p -> 0 <= n <= Z.of_nat MAX_PARAMS -> 0 <= i < Z.of_nat MAX_PARAMS -> - 2 ^ 15 <= v < 2 ^ 15 ->
  exists p', set_param i v (set_num_params n p) = Some p' /\ wf p' /\ v_state p' = v_state p /\ num_params p' = n.
Proof.
  intros [] Hn Hi Hv. rewrite set_param_some by done. eexists. split; [done|]. split; [|done]. split; cbn; try done.
  - by rewrite length_insert.
  - by apply Forall_insert.
Qed.

Lemma param_wf ch p :
  wf p -> (ch = 59 -> num_params p < Z.of_nat MAX_PARAMS) ->
  exists p', param ch p = Some p' /\ wf p' /\ v_state p' = v_state p.
Proof.
  intros Hw Hc. unfold param. destruct (Z.eqb_spec ch 59) as [->|_].
  - specialize (Hc eq_refl). pose proof (wf_num_params _ Hw). cbn [num_params set_num_params].
    rewrite s16_id by (unfold MAX_PARAMS in *; lia).
    destruct (wf_set_param (num_params p + 1 - 1) 0 p (num_params p + 1)) as (p' & E & ? & ? & _); [done|lia..|eauto].
  - assert (Hp : exists q, (if num_params p =? 0 then set_param 0 0 (set_num_params 1 p) else Some p) = Some q /\ wf q /\
      v_state q = v_state p /\ 1 <= num_params q <= Z.of_nat MAX_PARAMS).
    { pose proof (wf_num_params _ Hw). destruct (Z.eqb_spec (num_params p) 0); [|exists p; split_and!; [done..|lia|lia]].
      destruct (wf_set_param 0 0 p 1) as (q & E & ? & ? & ?); [done|unfold MAX_PARAMS; lia..|].
      exists q. split_and!; [done..| |]; unfold MAX_PARAMS; lia. }
    destruct Hp as (q & E & Hq & Es & Hn). rewrite (bind_some E). cbn zeta. replace (0 <=? num_params q - 1) with true by lia.
    destruct (lookup_lt_is_Some_2 (params q) (Z.to_nat (num_params q - 1))) as [v Ev]; [rewrite (wf_params _ Hq); lia|].
    rewrite (bind_some Ev). destruct (v <? 9999); [|by eauto].
    destruct (wf_set_param (num_params q - 1) (s16 (s16 (v * 10) + (ch - 48))) q (num_params q)) as (p' & E' & ? & ? & _);
      [done|lia|lia|apply s16_range|]. replace (set_num_params (num_params q) q) with q in E' by (by destruct q).
    exists p'. split_and!; [done..|congruence].
Qed.

Lemma collect_wf ch p : wf p -> exists p', collect ch p = Some p' /\ wf p' /\ v_state p' = v_state p.
Proof.
  intros []. unfold collect. destruct (Z.ltb_spec MAX_INTERMEDIATE_CHARS (num_intermediate_chars p + 1)).
  - eexists. split; [done|]. by split.
  - rewrite wf_ints0. change (Z.of_nat 3) with 3. replace ((_ <=? _) && (_ <? _)) with true by (unfold MAX_INTERMEDIATE_CHARS in *; lia). eexists. split; [done|]. split; [|done].
    split; cbn; try done; [by rewrite length_insert|lia].
Qed.

Lemma do_action_wf p a ch :
  wf p -> (a = VT500PARSE_ACTION_PARAM -> ch = 59 -> num_params p < Z.of_nat MAX_PARAMS) ->
  exists r, do_action p a ch = Some r /\ wf r.1 /\ v_state r.1 = v_state p.
Proof.
  intros Hw Hc. unfold do_action. destruct (client_action a); [by eauto|]. destruct (a =? VT500PARSE_ACTION_IGNORE); [by eauto|].
  destruct (a =? VT500PARSE_ACTION_COLLECT).
  { destruct (collect_wf ch p Hw) as (p' & E & ?). rewrite (bind_some E). by eauto. }
  destruct (Z.eqb_spec a VT500PARSE_ACTION_PARAM) as [->|_].
  { destruct (param_wf ch p Hw) as (p' & E & ?); [by apply Hc|]. rewrite (bind_some E). by eauto. }
  destruct (a =? VT500PARSE_ACTION_CLEAR); [|by eauto]. eexists. split; [done|]. destruct Hw. split; [|done]. split; cbn; try done; unfold MAX_PARAMS, MAX_INTERMEDIATE_CHARS; lia.
Qed.

Lemma do_optional_wf p a ch :
  wf p -> (a = VT500PARSE_ACTION_PARAM -> ch = 59 -> num_params p < Z.of_nat MAX_PARAMS) ->
  exists r, do_optional p a ch = Some r /\ wf r.1 /\ v_state r.1 = v_state p.
Proof. intros Hw Hc. unfold do_optional. destruct (a =? 0); [by eauto|]. by apply do_action_wf. Qed.

(** What is reported when a state is left. *)
Definition exit_calls (p : vt500parse_t) : list call :=
  if exit_action (v_state p) =? 0 then [] else [vt500_cb p (exit_action (v_state p)) 0].

Lemma do_exit p : do_optional p (exit_action (v_state p)) 0 = Some (p, exit_calls p).
Proof.
  unfold do_optional, exit_calls, exit_action. destruct (v_state p =? VT500PARSE_STATE_DCS_PASSTHROUGH); [done|].
  by destruct (v_state p =? VT500PARSE_STATE_OSC_STRING).
Qed.

Lemma entry_not_param s : entry_action s <> VT500PARSE_ACTION_PARAM.
Proof. unfold entry_action. repeat case_match; done. Qed.

Lemma set_state_wf s p : wf p -> 1 <= s <= 14 -> wf (set_state s p).
Proof. intros [] Hs. by split. Qed.

Lemma do_action_param p ch : do_action p VT500PARSE_ACTION_PARAM ch = p ← param ch p; Some (p, []).
Proof. reflexivity. Qed.

Lemma do_action_clear p ch :
  do_action p VT500PARSE_ACTION_CLEAR ch = Some (Vt500 (v_state p) (intermediate_chars p) 0 (params p) 0 false, []).
Proof. reflexivity. Qed.
Lemma do_action_collect p ch : do_action p VT500PARSE_ACTION_COLLECT ch = p ← collect ch p; Some (p, []).
Proof. reflexivity. Qed.
Lemma do_action_dispatch p ch : do_action p VT500PARSE_ACTION_CSI_DISPATCH ch = Some (p, [vt500_cb p VT500PARSE_ACTION_CSI_DISPATCH ch]).
Proof. reflexivity. Qed.

Lemma param_17th p : length (params p) = MAX_PARAMS -> num_params p = Z.of_nat MAX_PARAMS -> param 59 p = None.
Proof.
  intros Hl Hn. unfold param, set_param. cbn [num_params params set_num_params Z.eqb Pos.eqb]. rewrite Hn, Hl.
  by vm_compute.
Qed.

(** The VT500 parser never leaves its arrays, whatever bytes it is fed, with one
    exception: from a well-formed parser a byte leads to a well-formed parser again,
    unless it is the ';' that starts a 17th parameter, where the access is outside
    of the array of parameters. *)
Theorem vt500_stays_in_bounds p ch :
  wf p -> 0 <= ch < 256 ->
  if decide (ch = 59 /\ num_params p = Z.of_nat MAX_PARAMS /\ (dec_change ch (v_state p)).1 = VT500PARSE_ACTION_PARAM)
  then vt500parse_do_state_change p ch = None
  else exists p' calls, vt500parse_do_state_change p ch = Some (p', calls) /\ wf p'.
Proof.
  intros Hw Hch. rewrite step_eq by (done || apply Hw). cbn zeta.
  destruct (dec_state_range (v_state p) ch (wf_state _ Hw) Hch) as [Hn _]. rewrite do_exit, (bind_some eq_refl). cbn [fst snd].
  destruct (decide _) as [(-> & E & Ea)|Hok].
  - rewrite Ea. assert (Hp : param 59 p = None) by (apply param_17th; [apply Hw|done]).
    assert (Hd : do_action p VT500PARSE_ACTION_PARAM 59 = None) by (by rewrite do_action_param, Hp).
    destruct (_ =? 0); [done|]. change (do_optional p VT500PARSE_ACTION_PARAM 59) with (do_action p VT500PARSE_ACTION_PARAM 59). by rewrite Hd.
  - assert (Hb : (dec_change ch (v_state p)).1 = VT500PARSE_ACTION_PARAM -> ch = 59 -> num_params p < Z.of_nat MAX_PARAMS).
    { intros ? ?. destruct (decide (num_params p = Z.of_nat MAX_PARAMS)); [tauto|]. pose proof (wf_num_params _ Hw). lia. }
    destruct (Z.eqb_spec (dec_change ch (v_state p)).2 0) as [E0|E0].
    { destruct (do_action_wf p _ ch Hw Hb) as ([p' l] & E & ? & _). rewrite E. by eauto. }
    destruct (do_optional_wf p _ ch Hw Hb) as (r & E & Hr & _). rewrite (bind_some E).
    destruct (do_optional_wf r.1 (entry_action (dec_change ch (v_state p)).2) 0 Hr) as (r' & E' & Hr' & _); [by intros ?%entry_not_param|].
    rewrite (bind_some E'). eexists _, _. split; [done|]. apply set_state_wf; [done|lia].
Qed.

Definition sample_vt500 : vt500parse_t := Vt500 VT500PARSE_STATE_GROUND (replicate 3 0) 0 (replicate MAX_PARAMS 0) 0 false.

Lemma sample_wf : wf sample_vt500.
Proof. split; cbn; unfold MAX_INTERMEDIATE_CHARS, MAX_PARAMS; try done. by repeat constructor. Qed.

Lemma vt500_stays_in_bounds_witness :
  exists p' calls, vt500parse_do_state_change sample_vt500 0x1b = Some (p', calls) /\ wf p'.
Proof. apply (vt500_stays_in_bounds sample_vt500 0x1b sample_wf). lia. Defined.

(** The control sequence with 17 parameters, and a parameter whose value does not
    fit: each digit is added if the value before is less than 9999. *)
Lemma too_many_params : vt500_feed sample_vt500 ([0x1b; 0x5b] ++ replicate 17 59) = None.
Proof. by vm_compute. Qed.

Lemma param_overflows :
  (c_params <$> snd (default (sample_vt500, []) (vt500_feed sample_vt500 [0x1b; 0x5b; 57; 57; 57; 56; 48; 0x6d]))) = [[-31092]].
Proof. vm_compute. reflexivity. Qed.

(** The first parameter is lost if it is empty: the ';' after it starts the first
    parameter, not the second one. *)
Lemma empty_first_param :
  (c_params <$> snd (default (sample_vt500, []) (vt500_feed sample_vt500 [0x1b; 0x5b; 59; 55; 0x48]))) = [[7]].
Proof. vm_compute. reflexivity. Qed.

(** ** Control sequences *)

(** The text of a control sequence: a private marker, parameters in decimal with ';'
    between them, intermediate characters and the final character. *)
Fixpoint dec_digits (fuel : nat) (n : Z) : list Z :=
  match fuel with
  | O => []
  | S fuel => (if n <? 10 then [] else dec_digits fuel (n / 10)) ++ [48 + n mod 10]
  end.

Fixpoint params_text (ns : list Z) : list Z :=
  match ns with
  | [] => []
  | n :: ns => dec_digits 5 n ++ concat ((fun m => 59 :: dec_digits 5 m) <$> ns)
  end.

Definition csi (marker ns ints : list Z) (final : Z) : list Z :=
  [0x1b; 0x5b] ++ marker ++ params_text ns ++ ints ++ [final].

(** What the client sees of a parser. *)
Definition looks (p : vt500parse_t) (s : Z) (ints ns : list Z) : Prop :=
  wf p /\ v_state p = s /\ take (Z.to_nat (num_intermediate_chars p)) (intermediate_chars p) = ints /\
  take (Z.to_nat (num_params p)) (params p) = ns /\ ignore_flagged p = false.

Lemma vt500_feed_app p l1 l2 :
  vt500_feed p (l1 ++ l2) = r ← vt500_feed p l1; r' ← vt500_feed r.1 l2; Some (r'.1, r.2 ++ r'.2).
Proof.
  revert p. induction l1 as [|ch l1 IH]; intros p; cbn.
  - destruct (vt500_feed p l2) as [[] |]; done.
  - destruct (vt500parse_do_state_change p ch) as [r|]; [|done]. cbn. rewrite IH. destruct (vt500_feed r.1 l1) as [r1|]; [|done]. cbn.
    destruct (vt500_feed r1.1 l2) as [r2|]; [|done]. cbn. by rewrite (assoc_L (++)).
Qed.

(** A text that reports nothing, and then another one. *)
Lemma feed_then p l1 p' c1 l2 : vt500_feed p l1 = Some (p', c1) -> vt500_feed p (l1 ++ l2) = r ← vt500_feed p' l2; Some (r.1, c1 ++ r.2).
Proof. intros E. by rewrite vt500_feed_app, (bind_some E). Qed.

(** A step without an exit or entry action. *)
Lemma plain_step p ch a n r :
  wf p -> 0 <= ch < 256 -> dec_change ch (v_state p) = (a, n) -> a <> 0 -> exit_action (v_state p) = 0 -> entry_action n = 0 ->
  do_action p a ch = Some r -> vt500parse_do_state_change p ch = Some (if n =? 0 then r else (set_state n r.1, r.2)).
Proof.
  intros Hw Hch Ed Ha Hx He E. rewrite step_eq by (done || apply Hw). cbn zeta. rewrite Ed. cbn [fst snd]. destruct (n =? 0); [done|].
  rewrite Hx, He. unfold do_optional. cbn [Z.eqb]. replace (a =? 0) with false by lia. cbn. rewrite (bind_some E). cbn. by rewrite app_nil_r.
Qed.

(** Entering a new state which clears the parser. *)
Lemma clear_step p ch n :
  wf p -> 0 <= ch < 256 -> dec_change ch (v_state p) = (0, n) -> 1 <= n <= 14 -> entry_action n = VT500PARSE_ACTION_CLEAR ->
  exists p', vt500parse_do_state_change p ch = Some (p', exit_calls p) /\ looks p' n [] [].
Proof.
  intros Hw Hch Ed Hn He. rewrite step_eq by (done || apply Hw). cbn zeta. rewrite Ed. cbn [fst snd]. rewrite He.
  replace (n =? 0) with false by lia. rewrite do_exit, (bind_some eq_refl). cbn. rewrite do_action_clear. cbn. rewrite app_nil_r. eexists. split; [done|].
  destruct Hw. repeat split; cbn; try done; unfold MAX_INTERMEDIATE_CHARS, MAX_PARAMS; lia.
Qed.

(** The changes of the states of a control sequence. *)
Definition csi_change (s ch : Z) : Z * Z :=
  if ch <=? 0x2f then (VT500PARSE_ACTION_COLLECT, if s =? VT500PARSE_STATE_CSI_INTERMEDIATE then 0 else VT500PARSE_STATE_CSI_INTERMEDIATE)
  else if ch <=? 0x3f then (if ch <=? 0x3b then VT500PARSE_ACTION_PARAM else VT500PARSE_ACTION_COLLECT,
                            if s =? VT500PARSE_STATE_CSI_ENTRY then VT500PARSE_STATE_CSI_PARAM else 0)
  else (VT500PARSE_ACTION_CSI_DISPATCH, VT500PARSE_STATE_GROUND).

Definition csi_byte (s ch : Z) : bool :=
  ((s =? VT500PARSE_STATE_CSI_ENTRY) || (s =? VT500PARSE_STATE_CSI_PARAM) || (s =? VT500PARSE_STATE_CSI_INTERMEDIATE)) &&
  (0x20 <=? ch) && (ch <=? 0x7e) &&
  negb ((s =? VT500PARSE_STATE_CSI_INTERMEDIATE) && (0x30 <=? ch) && (ch <=? 0x3f)) &&
  negb ((s =? VT500PARSE_STATE_CSI_PARAM) && (0x3c <=? ch) && (ch <=? 0x3f)) && negb (ch =? 0x3a).

Lemma csi_byte_range s ch : csi_byte s ch = true -> (s = 1 \/ s = 3 \/ s = 4) /\ 0x20 <= ch <= 0x7e.
Proof.
  unfold csi_byte. lia.
Qed.

Lemma csi_change_eq s ch : csi_byte s ch = true -> dec_change ch s = csi_change s ch.
Proof.
  intros Hb. assert (Hc : every (fun s ch => implb (csi_byte s ch) (bool_decide (dec_change ch s = csi_change s ch))) = true) by (vm_compute; reflexivity).
  destruct (csi_byte_range s ch Hb) as [Hs Hch].
  apply (every_spec _ s ch) in Hc; [|lia|lia]. cbv beta in Hc. rewrite Hb in Hc. by apply bool_decide_eq_true in Hc.
Qed.

(** The step of a byte of a control sequence. *)
Lemma csi_step p s ints ns ch r :
  looks p s ints ns -> csi_byte s ch = true -> do_action p (csi_change s ch).1 ch = Some r ->
  vt500parse_do_state_change p ch = Some (if (csi_change s ch).2 =? 0 then r else (set_state (csi_change s ch).2 r.1, r.2)).
Proof.
  intros (Hw & <- & _) Hb Ea. apply csi_change_eq in Hb as Ed.
  apply csi_byte_range in Hb as [Hs Hch].
  apply (plain_step p ch (csi_change (v_state p) ch).1); [done|lia|by rewrite Ed, <- surjective_pairing| | | |done].
  - unfold csi_change. by repeat case_match.
  - by destruct Hs as [->|[->| ->]].
  - unfold csi_change. repeat case_match; done.
Qed.

Lemma looks_set_state p s n ints ns : looks p s ints ns -> 1 <= n <= 14 -> looks (set_state n p) n ints ns.
Proof. intros (Hw & ? & ? & ? & ?) Hn. split; [by apply set_state_wf|done]. Qed.

(** The parameters: the first digit, a further digit and the separator. *)
Lemma take_insert_last {A} (l : list A) n x y :
  l !! n = Some y -> take (S n) (<[n := x]> l) = take n l ++ [x].
Proof.
  intros Hy. apply lookup_lt_Some in Hy as Hl. rewrite (take_S_r _ n x) by (by apply list_lookup_insert_eq).
  by rewrite take_insert_ge by lia.
Qed.

Lemma looks_set_param p s ints n i v ns :
  looks p s ints ns -> i = n - 1 -> 1 <= n <= Z.of_nat MAX_PARAMS -> - 2 ^ 15 <= v < 2 ^ 15 ->
  exists p', set_param i v (set_num_params n p) = Some p' /\ looks p' s ints (take (Z.to_nat i) (params p) ++ [v]).
Proof.
  intros (Hw & Hs & Hi & Hp & Hf) -> Hn Hv. destruct (wf_set_param (n - 1) v p n Hw) as (p' & E & Hw' & Hs' & En); [lia..|].
  exists p'. split; [done|]. split; [done|]. rewrite set_param_some in E by (lia || apply Hw). injection E as <-. cbn.
  split_and!; [done..| |done]. destruct (lookup_lt_is_Some_2 (params p) (Z.to_nat (n - 1))) as [y Hy]; [rewrite (wf_params _ Hw); lia|].
  replace (Z.to_nat n) with (S (Z.to_nat (n - 1))) by lia. by apply (take_insert_last _ _ _ y).
Qed.

Lemma looks_num_params p s ints ns : looks p s ints ns -> num_params p = Z.of_nat (length ns).
Proof.
  intros (Hw & _ & _ & <- & _). rewrite length_take, (wf_params _ Hw). pose proof (wf_num_params _ Hw). lia.
Qed.

Lemma param_semi p s ints ns :
  looks p s ints ns -> (length ns < MAX_PARAMS)%nat -> exists p', param 59 p = Some p' /\ looks p' s ints (ns ++ [0]).
Proof.
  intros Hl Hn. pose proof (looks_num_params _ _ _ _ Hl) as En. unfold param. cbn [Z.eqb Pos.eqb num_params set_num_params].
  rewrite s16_id by (unfold MAX_PARAMS in *; lia).
  destruct (looks_set_param p s ints (num_params p + 1) (num_params p + 1 - 1) 0 ns Hl) as (p' & E & Hp'); [done|unfold MAX_PARAMS in *; lia..|].
  exists p'. split; [done|]. replace (num_params p + 1 - 1) with (num_params p) in Hp' by lia. by destruct Hl as (_ & _ & _ & <- & _).
Qed.

Lemma param_digit p s ints ns v ch :
  looks p s ints (ns ++ [v]) -> 48 <= ch <= 57 -> 0 <= v * 10 + (ch - 48) < 2 ^ 15 -> 0 <= v ->
  exists p', param ch p = Some p' /\ looks p' s ints (ns ++ [v * 10 + (ch - 48)]).
Proof.
  intros Hl Hch Hv Hv0. pose proof (looks_num_params _ _ _ _ Hl) as En. rewrite length_app in En. cbn in En.
  assert (Hm : num_params p <= Z.of_nat MAX_PARAMS) by apply Hl. unfold param. replace (ch =? 59) with false by lia.
  replace (num_params p =? 0) with false by lia. cbn [mbind option_bind]. replace (0 <=? num_params p - 1) with true by lia.
  assert (Et : take (Z.to_nat (num_params p)) (params p) = ns ++ [v]) by apply Hl. replace (Z.to_nat (num_params p)) with (S (length ns)) in Et by lia.
  replace (Z.to_nat (num_params p - 1)) with (length ns) by lia.
  assert (Ev : params p !! length ns = Some v) by (rewrite <- (lookup_take_lt _ (S (length ns))), Et by lia; by apply list_lookup_middle).
  rewrite (bind_some Ev). replace (v <? 9999) with true by lia. rewrite (s16_id (v * 10)), s16_id by lia.
  destruct (looks_set_param p s ints (num_params p) (num_params p - 1) (v * 10 + (ch - 48)) _ Hl) as (p' & E & Hp'); [lia..|].
  replace (set_num_params (num_params p) p) with p in E by (by destruct p). exists p'. split; [done|].
  replace (Z.to_nat (num_params p - 1)) with (length ns) in Hp' by lia.
  by rewrite (take_S_r _ _ _ Ev), app_inj_tail_iff in Et; destruct Et as [<- _].
Qed.

(** The first digit of the first parameter. *)
Lemma param_first p s ints ch :
  looks p s ints [] -> 48 <= ch <= 57 -> exists p', param ch p = Some p' /\ looks p' s ints [ch - 48].
Proof.
  intros Hl Hch. pose proof (looks_num_params _ _ _ _ Hl) as En. cbn in En.
  destruct (looks_set_param p s ints 1 0 0 [] Hl) as (q & E & Hq); [done|unfold MAX_PARAMS; lia..|].
  destruct (param_digit q s ints [] 0 ch Hq Hch) as (p' & Ep & Hp'); [lia..|]. exists p'. split; [|done].
  pose proof (looks_num_params _ _ _ _ Hq) as En'. cbn in En'. rewrite <- Ep. unfold param. replace (ch =? 59) with false by lia.
  rewrite En, En'. cbn [Z.eqb]. by rewrite E.
Qed.

(** A byte of the parameters. *)
Lemma param_step p s ints ns ns' ch :
  looks p s ints ns -> s = VT500PARSE_STATE_CSI_ENTRY \/ s = VT500PARSE_STATE_CSI_PARAM -> 48 <= ch <= 59 -> ch <> 58 ->
  (exists p', param ch p = Some p' /\ looks p' s ints ns') ->
  exists p', vt500parse_do_state_change p ch = Some (p', []) /\ looks p' VT500PARSE_STATE_CSI_PARAM ints ns'.
Proof.
  intros Hl Hs Hch Hn (p' & Ep & Hp'). assert (Hb : csi_byte s ch = true) by (destruct Hs as [->| ->]; unfold csi_byte; cbn; lia).
  assert (Ea : (csi_change s ch).1 = VT500PARSE_ACTION_PARAM).
  { unfold csi_change. by replace (ch <=? 0x2f) with false by lia; replace (ch <=? 0x3f) with true by lia; replace (ch <=? 0x3b) with true by lia. }
  assert (Es : (csi_change s ch).2 = if s =? VT500PARSE_STATE_CSI_ENTRY then VT500PARSE_STATE_CSI_PARAM else 0).
  { unfold csi_change. by replace (ch <=? 0x2f) with false by lia; replace (ch <=? 0x3f) with true by lia. }
  rewrite (csi_step _ _ _ _ _ (p', []) Hl Hb) by (by rewrite Ea, do_action_param, Ep). rewrite Es.
  destruct Hs as [->| ->]; cbn; eexists; split; [done| |done|done]. by eapply looks_set_state.
Qed.

(** A parser that is about to read a parameter after the parameters [qs]. *)
Definition ready (p : vt500parse_t) (ints qs : list Z) : Prop :=
  (qs = [] /\ (looks p VT500PARSE_STATE_CSI_ENTRY ints [] \/ looks p VT500PARSE_STATE_CSI_PARAM ints [])) \/
  looks p VT500PARSE_STATE_CSI_PARAM ints (qs ++ [0]).

Lemma first_digit p ints qs ch :
  ready p ints qs -> 48 <= ch <= 57 ->
  exists p', vt500parse_do_state_change p ch = Some (p', []) /\ looks p' VT500PARSE_STATE_CSI_PARAM ints (qs ++ [ch - 48]).
Proof.
  intros [[-> [Hl|Hl]]|Hl] Hch.
  - apply (param_step _ _ _ _ _ _ Hl); [by left|lia..|]. by apply (param_first _ _ _ _ Hl).
  - apply (param_step _ _ _ _ _ _ Hl); [by right|lia..|]. by apply (param_first _ _ _ _ Hl).
  - apply (param_step _ _ _ _ _ _ Hl); [by right|lia..|]. by apply (param_digit _ _ _ _ 0 ch Hl); lia.
Qed.

Lemma feed_one p ch : vt500_feed p [ch] = vt500parse_do_state_change p ch.
Proof. cbn. destruct (vt500parse_do_state_change p ch) as [[p' l]|]; [|done]. cbn. by rewrite app_nil_r. Qed.

Lemma digits_fed fuel p ints qs n :
  ready p ints qs -> 0 <= n < 10 ^ Z.of_nat fuel -> n < 2 ^ 15 -> (fuel <> 0)%nat ->
  exists p', vt500_feed p (dec_digits fuel n) = Some (p', []) /\ looks p' VT500PARSE_STATE_CSI_PARAM ints (qs ++ [n]).
Proof.
  intros Hr. revert n. induction fuel as [|fuel IH]; intros n Hn Hm Hf; [done|]. cbn [dec_digits].
  pose proof (Z.mod_pos_bound n 10 eq_refl) as Hd. pose proof (Z.div_mod n 10 ltac:(done)) as Ed. destruct (Z.ltb_spec n 10).
  - rewrite Z.mod_small by lia. destruct (first_digit p ints qs (48 + n) Hr) as (p' & E & Hl); [lia|].
    exists p'. rewrite app_nil_l, feed_one. split; [done|]. by replace (48 + n - 48) with n in Hl by lia.
  - assert (Hq : n / 10 < 10 ^ Z.of_nat fuel) by (apply Z.div_lt_upper_bound; [lia|]; rewrite Nat2Z.inj_succ, Z.pow_succ_r in Hn; lia).
    destruct (IH (n / 10)) as (p1 & E1 & H1); [lia|lia| |].
    { intros ->. cbn in Hq. lia. }
    destruct (param_step p1 _ ints _ (qs ++ [n]) (48 + n mod 10) H1) as (p' & E & Hl); [by right|lia..| |].
    { pose proof (param_digit _ _ _ _ _ (48 + n mod 10) H1) as Hp. replace (n / 10 * 10 + _) with n in Hp by lia. apply Hp; lia. }
    exists p'. split; [|done]. by rewrite (feed_then _ _ _ _ _ E1), feed_one, E.
Qed.

Lemma more_params_fed p ints qs ns :
  looks p VT500PARSE_STATE_CSI_PARAM ints qs -> Forall (fun n => 0 <= n < 2 ^ 15) ns -> (length qs + length ns <= MAX_PARAMS)%nat ->
  exists p', vt500_feed p (concat ((fun m => 59 :: dec_digits 5 m) <$> ns)) = Some (p', []) /\ looks p' VT500PARSE_STATE_CSI_PARAM ints (qs ++ ns).
Proof.
  revert p qs. induction ns as [|n ns IH]; intros p qs Hl Hns Hn; cbn in Hn.
  { exists p. by rewrite app_nil_r. }
  apply Forall_cons in Hns as [Hn0 Hns]. destruct (param_step p _ ints qs (qs ++ [0]) 59 Hl) as (p1 & E1 & H1); [by right|lia..| |].
  { apply param_semi; [done|lia]. }
  destruct (digits_fed 5 p1 ints qs n) as (p2 & E2 & H2); [by right|lia|lia|done|].
  destruct (IH p2 (qs ++ [n]) H2 Hns) as (p' & E & Hp'); [rewrite length_app; cbn; lia|]. exists p'. rewrite <- (assoc_L (++)) in Hp'. split; [|done].
  cbn [fmap list_fmap concat]. change ((59 :: dec_digits 5 n) ++ ?l) with ([59] ++ (dec_digits 5 n ++ l)).
  rewrite (feed_then _ _ _ _ _ ltac:(rewrite feed_one; exact E1)), (feed_then _ _ _ _ _ E2). by rewrite E.
Qed.

Lemma params_fed p s ints ns :
  looks p s ints [] -> s = VT500PARSE_STATE_CSI_ENTRY \/ s = VT500PARSE_STATE_CSI_PARAM -> Forall (fun n => 0 <= n < 2 ^ 15) ns -> (length ns <= MAX_PARAMS)%nat ->
  exists p' s', vt500_feed p (params_text ns) = Some (p', []) /\ looks p' s' ints ns /\
    (s' = VT500PARSE_STATE_CSI_ENTRY \/ s' = VT500PARSE_STATE_CSI_PARAM).
Proof.
  intros Hl Hs Hns Hn. destruct ns as [|n ns]; [by eauto|]. assert (Hr : ready p ints []) by (destruct Hs as [->| ->]; left; tauto).
  apply Forall_cons in Hns as [Hn0 Hns]. destruct (digits_fed 5 p ints [] n Hr) as (p1 & E1 & H1); [lia|lia|done|].
  destruct (more_params_fed p1 ints [n] ns H1 Hns) as (p' & E & Hp'); [cbn in *; lia|]. exists p', VT500PARSE_STATE_CSI_PARAM.
  split_and!; [|done|by right]. cbn [params_text]. by rewrite (feed_then _ _ _ _ _ E1), E.
Qed.

(** Private markers and intermediate characters. *)
Lemma collect_adds p s ints ns ch :
  looks p s ints ns -> (length ints < 2)%nat -> exists p', collect ch p = Some p' /\ looks p' s (ints ++ [ch]) ns.
Proof.
  intros (Hw & Hs & Hi & Hp & Hf) Hn. destruct (collect_wf ch p Hw) as (p' & E & Hw' & Hs'). exists p'. split; [done|]. split; [done|].
  pose proof (wf_num_ints _ Hw). assert (Hk : num_intermediate_chars p < 2).
  { rewrite <- Hi, length_take, (wf_ints _ Hw) in Hn. unfold MAX_INTERMEDIATE_CHARS in *. lia. }
  unfold collect in E. rewrite (wf_ints _ Hw) in E. change (Z.of_nat 3) with 3 in E. unfold MAX_INTERMEDIATE_CHARS in E.
  replace (2 <? _) with false in E by lia. replace ((_ <=? _) && (_ <? _)) with true in E by lia. injection E as <-. cbn in *.
  split_and!; [done| |done..]. destruct (lookup_lt_is_Some_2 (intermediate_chars p) (Z.to_nat (num_intermediate_chars p))) as [y Hy].
  { rewrite (wf_ints _ Hw). lia. }
  replace (Z.to_nat (num_intermediate_chars p + 1)) with (S (Z.to_nat (num_intermediate_chars p))) by lia. rewrite (take_insert_last _ _ _ y Hy).
  by rewrite Hi.
Qed.

Lemma collect_step p s ints ns ch :
  looks p s ints ns -> csi_byte s ch = true -> (csi_change s ch).1 = VT500PARSE_ACTION_COLLECT -> (length ints < 2)%nat ->
  exists p', vt500parse_do_state_change p ch = Some (p', []) /\
    looks p' (if (csi_change s ch).2 =? 0 then s else (csi_change s ch).2) (ints ++ [ch]) ns.
Proof.
  intros Hl Hb Ea Hn. destruct (collect_adds p s ints ns ch Hl Hn) as (p' & E & Hp').
  rewrite (csi_step _ _ _ _ _ (p', []) Hl Hb) by (by rewrite Ea, do_action_collect, E).
  destruct ((csi_change s ch).2 =? 0) eqn:E0; [by eauto|]. eexists. split; [done|]. eapply looks_set_state; [done|].
  unfold csi_change. unfold csi_change in E0. repeat case_match; cbn in *; try done; lia.
Qed.

Lemma ints_fed p s ints ns l :
  looks p s ints ns -> s = 1 \/ s = 3 \/ s = 4 -> Forall (fun ch => 0x20 <= ch <= 0x2f) l -> (length ints + length l <= 2)%nat ->
  exists p' s', vt500_feed p l = Some (p', []) /\ looks p' s' (ints ++ l) ns /\ (s' = 1 \/ s' = 3 \/ s' = 4).
Proof.
  revert p s ints. induction l as [|ch l IH]; intros p s ints Hl Hs Hch Hn; cbn in Hn.
  { exists p, s. by rewrite app_nil_r. }
  apply Forall_cons in Hch as [Hc Hch].
  destruct (collect_step p s ints ns ch Hl) as (p1 & E1 & H1).
  - destruct Hs as [->|[->| ->]]; unfold csi_byte; cbn; lia.
  - unfold csi_change. by replace (ch <=? 0x2f) with true by lia.
  - lia.
  - destruct (IH p1 _ (ints ++ [ch]) H1) as (p' & s' & E & Hp' & Hs'); [|done|rewrite length_app; cbn; lia|].
    { unfold csi_change. replace (ch <=? 0x2f) with true by lia. destruct Hs as [->|[->| ->]]; cbn; tauto. }
    rewrite <- (assoc_L (++)) in Hp'. exists p', s'. split_and!; [|done..]. cbn [vt500_feed]. by rewrite E1; cbn; rewrite E.
Qed.

Lemma final_step p s ints ns ch :
  looks p s ints ns -> s = 1 \/ s = 3 \/ s = 4 -> 0x40 <= ch <= 0x7e ->
  exists p', vt500parse_do_state_change p ch = Some (p', [Call VT500PARSE_ACTION_CSI_DISPATCH ch ints ns false]) /\
    looks p' VT500PARSE_STATE_GROUND ints ns.
Proof.
  intros Hl Hs Hch. assert (Hb : csi_byte s ch = true) by (destruct Hs as [->|[->| ->]]; unfold csi_byte; cbn; lia).
  assert (Ec : csi_change s ch = (VT500PARSE_ACTION_CSI_DISPATCH, VT500PARSE_STATE_GROUND)).
  { unfold csi_change. by replace (ch <=? 0x2f) with false by lia; replace (ch <=? 0x3f) with false by lia. }
  rewrite (csi_step _ _ _ _ _ _ Hl Hb ltac:(rewrite Ec; apply do_action_dispatch)), Ec. cbn. eexists. split; [|by eapply looks_set_state].
  destruct Hl as (_ & _ & <- & <- & <-). done.
Qed.

Lemma csi_start p :
  wf p -> exists p', vt500_feed p [0x1b; 0x5b] = Some (p', exit_calls p) /\ looks p' VT500PARSE_STATE_CSI_ENTRY [] [].
Proof.
  intros Hw. destruct (clear_step p 0x1b VT500PARSE_STATE_ESCAPE Hw) as (p1 & E1 & H1); [lia|done|done|done|].
  destruct H1 as (Hw1 & Hs1 & _). assert (Hx : exit_calls p1 = []) by (unfold exit_calls; by rewrite Hs1).
  destruct (clear_step p1 0x5b VT500PARSE_STATE_CSI_ENTRY Hw1) as (p2 & E2 & H2); [lia|by rewrite Hs1|done|done|].
  exists p2. split; [|done]. cbn [vt500_feed]. rewrite (bind_some E1). cbn [fst snd]. rewrite (bind_some E2), Hx. cbn. by rewrite app_nil_r.
Qed.

Lemma marker_fed p marker :
  looks p VT500PARSE_STATE_CSI_ENTRY [] [] -> Forall (fun ch => 0x3c <= ch <= 0x3f) marker -> (length marker <= 1)%nat ->
  exists p' s, vt500_feed p marker = Some (p', []) /\ looks p' s marker [] /\ (s = VT500PARSE_STATE_CSI_ENTRY \/ s = VT500PARSE_STATE_CSI_PARAM).
Proof.
  intros Hl Hm Hn. destruct marker as [|ch [|]]; [by exists p, VT500PARSE_STATE_CSI_ENTRY; auto| |cbn in Hn; lia].
  apply Forall_cons in Hm as [Hc _].
  assert (Ec : csi_change VT500PARSE_STATE_CSI_ENTRY ch = (VT500PARSE_ACTION_COLLECT, VT500PARSE_STATE_CSI_PARAM)).
  { unfold csi_change. by replace (ch <=? 0x2f) with false by lia; replace (ch <=? 0x3f) with true by lia; replace (ch <=? 0x3b) with false by lia. }
  destruct (collect_step p _ [] [] ch Hl) as (p' & E & Hp'); [unfold csi_byte; cbn; lia|by rewrite Ec|cbn; lia|].
  rewrite Ec in Hp'. exists p', VT500PARSE_STATE_CSI_PARAM. rewrite feed_one. auto.
Qed.



(** ** VT52 *)

(** The tables of the VT52: the action and the next state. *)
Definition vt52_change (s ch : Z) : Z * Z :=
  if 160 <=? ch then (0, 0)
  else if ch =? 0 then (VT52PARSE_ACTION_IGNORE, s)
  else if ch =? 0x1b then (VT52PARSE_ACTION_ESC_START, VT52PARSE_STATE_ESCAPE)
  else if (ch <? 32) || (128 <=? ch) then (VT52PARSE_ACTION_EXECUTE, VT52PARSE_STATE_GROUND)
  else if s =? VT52PARSE_STATE_GROUND then (VT52PARSE_ACTION_PRINT, VT52PARSE_STATE_GROUND)
  else if ch =? 127 then (VT52PARSE_ACTION_IGNORE, s)
  else if s =? VT52PARSE_STATE_COLLECT then (VT52PARSE_ACTION_COLLECT_BYTE, VT52PARSE_STATE_COLLECT)
  else if (ch =? 89) || (ch =? 98) || (ch =? 99) then (VT52PARSE_ACTION_ESC_DELAY_DISPATCH, VT52PARSE_STATE_COLLECT)
  else (VT52PARSE_ACTION_ESC_DISPATCH, VT52PARSE_STATE_GROUND).

Lemma vt52_table s ch :
  s = 1 \/ s = 2 \/ s = 3 -> 0 <= ch < 256 ->
  exists row change, table_at VT52_STATE_TABLE (s - 1) = Some row /\ table_at row ch = Some change /\
    ACTION change = (vt52_change s ch).1 /\ STATE change = (vt52_change s ch).2.
Proof.
  intros Hs Hch.
  assert (Hc : every (fun s ch => (3 <? s) || match table_at VT52_STATE_TABLE (s - 1) ≫= fun row => table_at row ch with
    | Some x => bool_decide ((ACTION x, STATE x) = vt52_change s ch) | None => false end) = true) by (vm_compute; reflexivity).
  apply (every_spec _ s ch) in Hc; [|lia|lia]. cbv beta in Hc. replace (3 <? s) with false in Hc by lia.
  destruct (table_at VT52_STATE_TABLE (s - 1)) as [row|]; cbn in Hc; [|discriminate].
  destruct (table_at row ch) as [x|] eqn:Ex; [|discriminate]. apply bool_decide_eq_true in Hc. exists row, x. by rewrite <- Hc.
Qed.

(** The parameters that are still to be collected fit into the array. *)
Definition vt52_wf (p : vt52parse_t) : Prop :=
  (w_state p = 1 \/ w_state p = 2 \/ w_state p = 3) /\ length (w_params p) = VT52_MAX_PARAMS /\ 0 <= w_num_params p <= 2 /\
  (w_state p = VT52PARSE_STATE_ESCAPE -> w_num_params p = 0) /\
  (w_state p = VT52PARSE_STATE_COLLECT -> w_num_params p < num_params_to_collect p <= 2).

(** The step by the action of the table. *)
Definition vt52_action (p : vt52parse_t) (action new_state ch : Z) : option (vt52parse_t * list call) :=
  if (action =? VT52PARSE_ACTION_PRINT) || (action =? VT52PARSE_ACTION_EXECUTE) || (action =? VT52PARSE_ACTION_ESC_DISPATCH)
  then Some (w_set_state new_state p, [vt52_cb p action ch])
  else if action =? VT52PARSE_ACTION_ESC_START
  then Some (Vt52 new_state (w_params p) 0 (esc_code_seen p) (num_params_to_collect p) (is_atari_extensions_enabled p), [])
  else if action =? VT52PARSE_ACTION_ESC_DELAY_DISPATCH then Some (esc_delay_dispatch p ch new_state)
  else if action =? VT52PARSE_ACTION_COLLECT_BYTE then collect_byte p ch new_state
  else Some (w_set_state new_state p, [vt52_cb p VT52PARSE_ACTION_ERROR 0]).

Lemma vt52_step_eq p ch :
  vt52_wf p -> 0 <= ch < 256 ->
  vt52parse_do_state_change p ch = vt52_action p (vt52_change (w_state p) ch).1 (vt52_change (w_state p) ch).2 ch.
Proof.
  intros (Hs & _) Hch. destruct (vt52_table (w_state p) ch Hs Hch) as (row & x & E1 & E2 & <- & <-).
  unfold vt52parse_do_state_change. by rewrite (bind_some E1), (bind_some E2).
Qed.

Ltac vt52_solve :=
  cbn; split_and!; auto; (intros; lia).

Lemma vt52_delay p ch :
  vt52_wf p -> w_state p = VT52PARSE_STATE_ESCAPE -> vt52_wf (esc_delay_dispatch p ch VT52PARSE_STATE_COLLECT).1.
Proof.
  intros (Hs & Hl & Hn & He & _) E. specialize (He E). unfold esc_delay_dispatch, vt52_wf. rewrite He.
  destruct (ch =? 89); [vt52_solve|]. by destruct ((ch =? 98) || (ch =? 99)), (is_atari_extensions_enabled p); vt52_solve.
Qed.

Lemma vt52_collect p ch :
  vt52_wf p -> w_state p = VT52PARSE_STATE_COLLECT ->
  exists p' calls, collect_byte p ch VT52PARSE_STATE_COLLECT = Some (p', calls) /\ vt52_wf p'.
Proof.
  intros (Hs & Hl & Hn & _ & Hc) E. specialize (Hc E). unfold collect_byte. rewrite Hl. change (Z.of_nat VT52_MAX_PARAMS) with 2.
  replace ((_ <=? _) && (_ <? _)) with true by lia. cbn. rewrite s8_small by lia.
  destruct (Z.eqb_spec (w_num_params p + 1) (num_params_to_collect p)); eexists _, _; (split; [done|]); unfold vt52_wf; cbn; rewrite length_insert; vt52_solve.
Qed.

(** The VT52 parser handles the bytes up to 159 within its tables and its array of
    parameters: from a well-formed parser each of them leads to a well-formed
    parser.  A byte from 160 on is reported as an error and leaves the parser
    without a state, so that the next byte, whatever it is, is looked up outside
    of the table. *)
Theorem vt52_stays_in_bounds p ch :
  vt52_wf p -> 0 <= ch < 256 ->
  exists p' calls, vt52parse_do_state_change p ch = Some (p', calls) /\
    if ch <? 160 then vt52_wf p' else calls = [vt52_cb p VT52PARSE_ACTION_ERROR 0] /\ forall ch', vt52parse_do_state_change p' ch' = None.
Proof.
  intros Hw Hch. rewrite vt52_step_eq by done. pose proof Hw as (Hs & Hl & Hn & He & Hc). destruct (Z.ltb_spec ch 160).
  2:{ unfold vt52_change. replace (160 <=? ch) with true by lia. by eexists _, _. }
  unfold vt52_change. replace (160 <=? ch) with false by lia.
  destruct (ch =? 0); [by eexists _, _|]. destruct (ch =? 27); [eexists _, _; split; [reflexivity|]; unfold vt52_wf; vt52_solve|].
  destruct ((ch <? 32) || (128 <=? ch)); [eexists _, _; split; [reflexivity|]; unfold vt52_wf; vt52_solve|].
  destruct (w_state p =? VT52PARSE_STATE_GROUND) eqn:E1; [eexists _, _; split; [reflexivity|]; unfold vt52_wf; vt52_solve|].
  destruct (ch =? 127); [by eexists _, _|].
  destruct (Z.eqb_spec (w_state p) VT52PARSE_STATE_COLLECT) as [E3|E3]; [by apply vt52_collect|].
  assert (E2 : w_state p = VT52PARSE_STATE_ESCAPE).
  { lia. }
  destruct ((ch =? 89) || (ch =? 98) || (ch =? 99)); [|eexists _, _; split; [reflexivity|]; unfold vt52_wf; vt52_solve].
  eexists _, _. split; [cbn; f_equal; apply surjective_pairing|]. by apply vt52_delay.
Qed.

Definition sample_vt52 : vt52parse_t := Vt52 VT52PARSE_STATE_GROUND (replicate VT52_MAX_PARAMS 0) 0 0 0 false.

Lemma sample_vt52_wf : vt52_wf sample_vt52.
Proof. unfold vt52_wf. vt52_solve. Qed.

Lemma vt52_stays_in_bounds_witness :
  exists p' calls, vt52parse_do_state_change sample_vt52 0xe9 = Some (p', calls) /\
    calls = [vt52_cb sample_vt52 VT52PARSE_ACTION_ERROR 0] /\ forall ch', vt52parse_do_state_change p' ch' = None.
Proof. apply (vt52_stays_in_bounds sample_vt52 0xe9 sample_vt52_wf). lia. Defined.

Lemma vt52_change_collect ch : 32 <= ch <= 126 -> vt52_change 3 ch = (VT52PARSE_ACTION_COLLECT_BYTE, VT52PARSE_STATE_COLLECT).
Proof. intros H. unfold vt52_change. repeat (case_match; try lia); done. Qed.

Lemma vt52_first x y e a ch :
  32 <= ch <= 126 -> vt52parse_do_state_change (Vt52 3 [x; y] 0 e 2 a) ch = Some (Vt52 3 [ch; y] 1 e 2 a, []).
Proof. intros H. rewrite vt52_step_eq by (lia || (unfold vt52_wf; vt52_solve)). cbn [w_state]. by rewrite vt52_change_collect. Qed.
Lemma vt52_second x y e a ch :
  32 <= ch <= 126 ->
  vt52parse_do_state_change (Vt52 3 [x; y] 1 e 2 a) ch = Some (Vt52 1 [x; ch] 2 e 2 a, [Call VT52PARSE_ACTION_ESC_DISPATCH e [] [x; ch] false]).
Proof. intros H. rewrite vt52_step_eq by (lia || (unfold vt52_wf; vt52_solve)). cbn [w_state]. by rewrite vt52_change_collect. Qed.

(** Direct cursor addressing, ESC Y and two bytes, is reported once with both bytes. *)
Lemma vt52_direct_address p row col :
  vt52_wf p -> 32 <= row <= 126 -> 32 <= col <= 126 ->
  exists p', vt52_feed p [0x1b; 89; row; col] = Some (p', [Call VT52PARSE_ACTION_ESC_DISPATCH 89 [] [row; col] false]) /\
    vt52_wf p' /\ w_state p' = VT52PARSE_STATE_GROUND.
Proof.
  intros Hw Hr Hc. destruct p as [s ps n e t a]. pose proof Hw as (Hs & Hl & _). cbn in Hl.
  destruct ps as [|x [|y [|]]]; try done. clear Hl. exists (Vt52 1 [row; col] 2 89 2 a).
  split; [|split; [unfold vt52_wf; vt52_solve|done]]. cbn [vt52_feed].
  rewrite (vt52_step_eq _ 0x1b Hw) by lia. cbn - [vt52parse_do_state_change].
  rewrite vt52_step_eq by (lia || (unfold vt52_wf; vt52_solve)). cbn - [vt52parse_do_state_change].
  rewrite vt52_first by done. cbn - [vt52parse_do_state_change]. by rewrite vt52_second.
Qed.
