(* ===== verification/ConsoleFonts.v ===== *)
(** * Fonts of the console (kern/src/console/Font.c, glyphs_8x8_latin_boxes.c)

    The glyphs, eight bytes each from top to bottom, and the three fonts, which
    map a character to the offset of its glyph. *)

From S2P Require Import Prelude.

(** The array has room for 384 glyphs; those behind the initializer are zero. *)
Definition glyphs_8x8_latin_boxes : list Z :=
  concat [
   [0x00; 0x00; 0x00; 0x00; 0x00; 0x00; 0x00; 0x00];
   [0x18; 0x3c; 0x3c; 0x18; 0x18; 0x00; 0x18; 0x00];
   [0x6c; 0x6c; 0x00; 0x00; 0x00; 0x00; 0x00; 0x00];
   [0x6c; 0x6c; 0xfe; 0x6c; 0xfe; 0x6c; 0x6c; 0x00];
   [0x30; 0x7c; 0xc0; 0x78; 0x0c; 0xf8; 0x30; 0x00];
   [0x00; 0xc6; 0xcc; 0x18; 0x30; 0x66; 0xc6; 0x00];
   [0x38; 0x6c; 0x38; 0x76; 0xdc; 0xcc; 0x76; 0x00];
   [0x60; 0x60; 0xc0; 0x00; 0x00; 0x00; 0x00; 0x00];
   [0x18; 0x30; 0x60; 0x60; 0x60; 0x30; 0x18; 0x00];
   [0x60; 0x30; 0x18; 0x18; 0x18; 0x30; 0x60; 0x00];
   [0x00; 0x66; 0x3c; 0xff; 0x3c; 0x66; 0x00; 0x00];
   [0x00; 0x30; 0x30; 0xfc; 0x30; 0x30; 0x00; 0x00];
   [0x00; 0x00; 0x00; 0x00; 0x00; 0x30; 0x30; 0x60];
   [0x00; 0x00; 0x00; 0xfc; 0x00; 0x00; 0x00; 0x00];
   [0x00; 0x00; 0x00; 0x00; 0x00; 0x30; 0x30; 0x00];
   [0x06; 0x0c; 0x18; 0x30; 0x60; 0xc0; 0x80; 0x00];
   [0x7c; 0xc6; 0xce; 0xde; 0xf6; 0xe6; 0x7c; 0x00];
   [0x30; 0x70; 0x30; 0x30; 0x30; 0x30; 0xfc; 0x00];
   [0x78; 0xcc; 0x0c; 0x38; 0x60; 0xcc; 0xfc; 0x00];
   [0x78; 0xcc; 0x0c; 0x38; 0x0c; 0xcc; 0x78; 0x00];
   [0x1c; 0x3c; 0x6c; 0xcc; 0xfe; 0x0c; 0x1e; 0x00];
   [0xfc; 0xc0; 0xf8; 0x0c; 0x0c; 0xcc; 0x78; 0x00];
   [0x38; 0x60; 0xc0; 0xf8; 0xcc; 0xcc; 0x78; 0x00];
   [0xfc; 0xcc; 0x0c; 0x18; 0x30; 0x30; 0x30; 0x00];
   [0x78; 0xcc; 0xcc; 0x78; 0xcc; 0xcc; 0x78; 0x00];
   [0x78; 0xcc; 0xcc; 0x7c; 0x0c; 0x18; 0x70; 0x00];
   [0x00; 0x30; 0x30; 0x00; 0x00; 0x30; 0x30; 0x00];
   [0x00; 0x30; 0x30; 0x00; 0x00; 0x30; 0x30; 0x60];
   [0x18; 0x30; 0x60; 0xc0; 0x60; 0x30; 0x18; 0x00];
   [0x00; 0x00; 0xfc; 0x00; 0x00; 0xfc; 0x00; 0x00];
   [0x60; 0x30; 0x18; 0x0c; 0x18; 0x30; 0x60; 0x00];
   [0x78; 0xcc; 0x0c; 0x18; 0x30; 0x00; 0x30; 0x00];
   [0x7c; 0xc6; 0xde; 0xde; 0xde; 0xc0; 0x78; 0x00];
   [0x30; 0x78; 0xcc; 0xcc; 0xfc; 0xcc; 0xcc; 0x00];
   [0xfc; 0x66; 0x66; 0x7c; 0x66; 0x66; 0xfc; 0x00];
   [0x3c; 0x66; 0xc0; 0xc0; 0xc0; 0x66; 0x3c; 0x00];
   [0xf8; 0x6c; 0x66; 0x66; 0x66; 0x6c; 0xf8; 0x00];
   [0xfe; 0x62; 0x68; 0x78; 0x68; 0x62; 0xfe; 0x00];
   [0xfe; 0x62; 0x68; 0x78; 0x68; 0x60; 0xf0; 0x00];
   [0x3c; 0x66; 0xc0; 0xc0; 0xce; 0x66; 0x3e; 0x00];
   [0xcc; 0xcc; 0xcc; 0xfc; 0xcc; 0xcc; 0xcc; 0x00];
   [0x78; 0x30; 0x30; 0x30; 0x30; 0x30; 0x78; 0x00];
   [0x1e; 0x0c; 0x0c; 0x0c; 0xcc; 0xcc; 0x78; 0x00];
   [0xe6; 0x66; 0x6c; 0x78; 0x6c; 0x66; 0xe6; 0x00];
   [0xf0; 0x60; 0x60; 0x60; 0x62; 0x66; 0xfe; 0x00];
   [0xc6; 0xee; 0xfe; 0xfe; 0xd6; 0xc6; 0xc6; 0x00];
   [0xc6; 0xe6; 0xf6; 0xde; 0xce; 0xc6; 0xc6; 0x00];
   [0x38; 0x6c; 0xc6; 0xc6; 0xc6; 0x6c; 0x38; 0x00];
   [0xfc; 0x66; 0x66; 0x7c; 0x60; 0x60; 0xf0; 0x00];
   [0x78; 0xcc; 0xcc; 0xcc; 0xdc; 0x78; 0x1c; 0x00];
   [0xfc; 0x66; 0x66; 0x7c; 0x6c; 0x66; 0xe6; 0x00];
   [0x78; 0xcc; 0xe0; 0x70; 0x1c; 0xcc; 0x78; 0x00];
   [0xfc; 0xb4; 0x30; 0x30; 0x30; 0x30; 0x78; 0x00];
   [0xcc; 0xcc; 0xcc; 0xcc; 0xcc; 0xcc; 0xfc; 0x00];
   [0xcc; 0xcc; 0xcc; 0xcc; 0xcc; 0x78; 0x30; 0x00];
   [0xc6; 0xc6; 0xc6; 0xd6; 0xfe; 0xee; 0xc6; 0x00];
   [0xc6; 0xc6; 0x6c; 0x38; 0x38; 0x6c; 0xc6; 0x00];
   [0xcc; 0xcc; 0xcc; 0x78; 0x30; 0x30; 0x78; 0x00];
   [0xfe; 0xc6; 0x8c; 0x18; 0x32; 0x66; 0xfe; 0x00];
   [0x78; 0x60; 0x60; 0x60; 0x60; 0x60; 0x78; 0x00];
   [0xc0; 0x60; 0x30; 0x18; 0x0c; 0x06; 0x02; 0x00];
   [0x78; 0x18; 0x18; 0x18; 0x18; 0x18; 0x78; 0x00];
   [0x10; 0x38; 0x6c; 0xc6; 0x00; 0x00; 0x00; 0x00];
   [0x00; 0x00; 0x00; 0x00; 0x00; 0x00; 0x00; 0xff];
   [0x30; 0x30; 0x18; 0x00; 0x00; 0x00; 0x00; 0x00];
   [0x00; 0x00; 0x78; 0x0c; 0x7c; 0xcc; 0x76; 0x00];
   [0xe0; 0x60; 0x60; 0x7c; 0x66; 0x66; 0xdc; 0x00];
   [0x00; 0x00; 0x78; 0xcc; 0xc0; 0xcc; 0x78; 0x00];
   [0x1c; 0x0c; 0x0c; 0x7c; 0xcc; 0xcc; 0x76; 0x00];
   [0x00; 0x00; 0x78; 0xcc; 0xfc; 0xc0; 0x78; 0x00];
   [0x38; 0x6c; 0x60; 0xf0; 0x60; 0x60; 0xf0; 0x00];
   [0x00; 0x00; 0x76; 0xcc; 0xcc; 0x7c; 0x0c; 0xf8];
   [0xe0; 0x60; 0x6c; 0x76; 0x66; 0x66; 0xe6; 0x00];
   [0x30; 0x00; 0x70; 0x30; 0x30; 0x30; 0x78; 0x00];
   [0x0c; 0x00; 0x0c; 0x0c; 0x0c; 0xcc; 0xcc; 0x78];
   [0xe0; 0x60; 0x66; 0x6c; 0x78; 0x6c; 0xe6; 0x00];
   [0x70; 0x30; 0x30; 0x30; 0x30; 0x30; 0x78; 0x00];
   [0x00; 0x00; 0xcc; 0xfe; 0xfe; 0xd6; 0xc6; 0x00];
   [0x00; 0x00; 0xf8; 0xcc; 0xcc; 0xcc; 0xcc; 0x00];
   [0x00; 0x00; 0x78; 0xcc; 0xcc; 0xcc; 0x78; 0x00];
   [0x00; 0x00; 0xdc; 0x66; 0x66; 0x7c; 0x60; 0xf0];
   [0x00; 0x00; 0x76; 0xcc; 0xcc; 0x7c; 0x0c; 0x1e];
   [0x00; 0x00; 0xdc; 0x76; 0x66; 0x60; 0xf0; 0x00];
   [0x00; 0x00; 0x7c; 0xc0; 0x78; 0x0c; 0xf8; 0x00];
   [0x10; 0x30; 0x7c; 0x30; 0x30; 0x34; 0x18; 0x00];
   [0x00; 0x00; 0xcc; 0xcc; 0xcc; 0xcc; 0x76; 0x00];
   [0x00; 0x00; 0xcc; 0xcc; 0xcc; 0x78; 0x30; 0x00];
   [0x00; 0x00; 0xc6; 0xd6; 0xfe; 0xfe; 0x6c; 0x00];
   [0x00; 0x00; 0xc6; 0x6c; 0x38; 0x6c; 0xc6; 0x00];
   [0x00; 0x00; 0xcc; 0xcc; 0xcc; 0x7c; 0x0c; 0xf8];
   [0x00; 0x00; 0xfc; 0x98; 0x30; 0x64; 0xfc; 0x00];
   [0x1c; 0x30; 0x30; 0xe0; 0x30; 0x30; 0x1c; 0x00];
   [0x18; 0x18; 0x18; 0x00; 0x18; 0x18; 0x18; 0x00];
   [0xe0; 0x30; 0x30; 0x1c; 0x30; 0x30; 0xe0; 0x00];
   [0x76; 0xdc; 0x00; 0x00; 0x00; 0x00; 0x00; 0x00];
   [0x00; 0x00; 0x00; 0x00; 0x00; 0x00; 0x00; 0x00];
   [0x00; 0x00; 0x00; 0x00; 0x00; 0x00; 0x00; 0x00];
   [0x18; 0x18; 0x00; 0x18; 0x18; 0x18; 0x18; 0x00];
   [0x18; 0x18; 0x7e; 0xc0; 0xc0; 0x7e; 0x18; 0x18];
   [0x38; 0x6c; 0x64; 0xf0; 0x60; 0xe6; 0xfc; 0x00];
   [0x00; 0x00; 0xc6; 0x7c; 0x6c; 0x7c; 0xc6; 0x00];
   [0xcc; 0xcc; 0x78; 0xfc; 0x30; 0xfc; 0x30; 0x30];
   [0x18; 0x18; 0x18; 0x00; 0x18; 0x18; 0x18; 0x00];
   [0x3e; 0x63; 0x38; 0x6c; 0x6c; 0x38; 0xcc; 0x78];
   [0xcc; 0x00; 0x00; 0x00; 0x00; 0x00; 0x00; 0x00];
   [0x3c; 0x42; 0x99; 0xa1; 0xa1; 0x99; 0x42; 0x3c];
   [0x3c; 0x6c; 0x6c; 0x3e; 0x00; 0x00; 0x00; 0x00];
   [0x00; 0x33; 0x66; 0xcc; 0x66; 0x33; 0x00; 0x00];
   [0x00; 0x00; 0x00; 0xfc; 0x0c; 0x0c; 0x00; 0x00];
   [0x00; 0x00; 0x00; 0x00; 0x00; 0x00; 0x00; 0x00];
   [0x3c; 0x42; 0xb9; 0xa5; 0xb9; 0xa5; 0x42; 0x3c];
   [0x7e; 0x00; 0x00; 0x00; 0x00; 0x00; 0x00; 0x00];
   [0x38; 0x6c; 0x6c; 0x38; 0x00; 0x00; 0x00; 0x00];
   [0x18; 0x18; 0x7e; 0x18; 0x18; 0x00; 0x7e; 0x00];
   [0x38; 0x0c; 0x18; 0x30; 0x3c; 0x00; 0x00; 0x00];
   [0x38; 0x0c; 0x18; 0x0c; 0x38; 0x00; 0x00; 0x00];
   [0x18; 0x30; 0x00; 0x00; 0x00; 0x00; 0x00; 0x00];
   [0x00; 0x00; 0x66; 0x66; 0x66; 0x7c; 0x60; 0xc0];
   [0x7f; 0xdb; 0xdb; 0x7b; 0x1b; 0x1b; 0x1b; 0x00];
   [0x00; 0x00; 0x00; 0x18; 0x18; 0x00; 0x00; 0x00];
   [0x00; 0x00; 0x00; 0x00; 0x00; 0x18; 0x0c; 0x78];
   [0x10; 0x30; 0x10; 0x38; 0x00; 0x00; 0x00; 0x00];
   [0x38; 0x6c; 0x6c; 0x38; 0x00; 0x00; 0x00; 0x00];
   [0x00; 0xcc; 0x66; 0x33; 0x66; 0xcc; 0x00; 0x00];
   [0xc3; 0xc6; 0xcc; 0xbd; 0x37; 0x6f; 0xcf; 0xc0];
   [0xc3; 0xc6; 0xcc; 0xde; 0x33; 0x66; 0xcc; 0x0f];
   [0xc0; 0x23; 0xc6; 0x2d; 0xdb; 0x35; 0x67; 0x01];
   [0x30; 0x00; 0x30; 0x60; 0xc0; 0xcc; 0x78; 0x00];
   [0xe0; 0x00; 0x38; 0x6c; 0xc6; 0xfe; 0xc6; 0x00];
   [0x0e; 0x00; 0x38; 0x6c; 0xc6; 0xfe; 0xc6; 0x00];
   [0x38; 0x6c; 0x00; 0x7c; 0xc6; 0xfe; 0xc6; 0x00];
   [0x76; 0xdc; 0x00; 0x7c; 0xc6; 0xfe; 0xc6; 0x00];
   [0xc6; 0x38; 0x6c; 0xc6; 0xfe; 0xc6; 0xc6; 0x00];
   [0x30; 0x30; 0x00; 0x78; 0xcc; 0xfc; 0xcc; 0x00];
   [0x3e; 0x6c; 0xcc; 0xfe; 0xcc; 0xcc; 0xce; 0x00];
   [0x78; 0xcc; 0xc0; 0xcc; 0x78; 0x18; 0x0c; 0x78];
   [0xe0; 0x00; 0xfc; 0x60; 0x78; 0x60; 0xfc; 0x00];
   [0x1c; 0x00; 0xfc; 0x60; 0x78; 0x60; 0xfc; 0x00];
   [0x30; 0x48; 0xfc; 0x60; 0x78; 0x60; 0xfc; 0x00];
   [0x6c; 0x00; 0xfc; 0x60; 0x78; 0x60; 0xfc; 0x00];
   [0xe0; 0x00; 0x78; 0x30; 0x30; 0x30; 0x78; 0x00];
   [0x1c; 0x00; 0x78; 0x30; 0x30; 0x30; 0x78; 0x00];
   [0x30; 0x48; 0x00; 0x78; 0x30; 0x30; 0x78; 0x00];
   [0xcc; 0x00; 0x78; 0x30; 0x30; 0x30; 0x78; 0x00];
   [0xfc; 0x66; 0xf6; 0xf6; 0x66; 0x66; 0xfc; 0x00];
   [0xfc; 0x00; 0xcc; 0xec; 0xfc; 0xdc; 0xcc; 0x00];
   [0x70; 0x00; 0x18; 0x3c; 0x66; 0x3c; 0x18; 0x00];
   [0x0e; 0x00; 0x18; 0x3c; 0x66; 0x3c; 0x18; 0x00];
   [0x3c; 0x66; 0x18; 0x3c; 0x66; 0x3c; 0x18; 0x00];
   [0x76; 0xdc; 0x00; 0x7c; 0xc6; 0xc6; 0x7c; 0x00];
   [0xc3; 0x18; 0x3c; 0x66; 0x66; 0x3c; 0x18; 0x00];
   [0x00; 0x6c; 0x38; 0x10; 0x38; 0x6c; 0x00; 0x00];
   [0x3a; 0x6c; 0xce; 0xde; 0xf6; 0x6c; 0xb8; 0x00];
   [0x70; 0x00; 0x66; 0x66; 0x66; 0x66; 0x3c; 0x00];
   [0x0e; 0x00; 0x66; 0x66; 0x66; 0x66; 0x3c; 0x00];
   [0x3c; 0x66; 0x00; 0x66; 0x66; 0x66; 0x3c; 0x00];
   [0xcc; 0x00; 0xcc; 0xcc; 0xcc; 0xcc; 0x78; 0x00];
   [0x0e; 0x00; 0x66; 0x66; 0x3c; 0x18; 0x18; 0x00];
   [0xf0; 0x60; 0x7c; 0x66; 0x66; 0x7c; 0x60; 0xf0];
   [0x00; 0x78; 0xcc; 0xf8; 0xcc; 0xf8; 0xc0; 0xc0];
   [0xe0; 0x00; 0x78; 0x0c; 0x7c; 0xcc; 0x7e; 0x00];
   [0x1c; 0x00; 0x78; 0x0c; 0x7c; 0xcc; 0x7e; 0x00];
   [0x7e; 0xc3; 0x3c; 0x06; 0x3e; 0x66; 0x3f; 0x00];
   [0x76; 0xdc; 0x78; 0x0c; 0x7c; 0xcc; 0x7e; 0x00];
   [0xcc; 0x00; 0x78; 0x0c; 0x7c; 0xcc; 0x7e; 0x00];
   [0x30; 0x30; 0x78; 0x0c; 0x7c; 0xcc; 0x7e; 0x00];
   [0x00; 0x00; 0x7f; 0x0c; 0x7f; 0xcc; 0x7f; 0x00];
   [0x00; 0x00; 0x78; 0xc0; 0xc0; 0x78; 0x0c; 0x38];
   [0xe0; 0x00; 0x78; 0xcc; 0xfc; 0xc0; 0x78; 0x00];
   [0x1c; 0x00; 0x78; 0xcc; 0xfc; 0xc0; 0x78; 0x00];
   [0x7e; 0xc3; 0x3c; 0x66; 0x7e; 0x60; 0x3c; 0x00];
   [0xcc; 0x00; 0x78; 0xcc; 0xfc; 0xc0; 0x78; 0x00];
   [0xe0; 0x00; 0x70; 0x30; 0x30; 0x30; 0x78; 0x00];
   [0x38; 0x00; 0x70; 0x30; 0x30; 0x30; 0x78; 0x00];
   [0x7c; 0xc6; 0x38; 0x18; 0x18; 0x18; 0x3c; 0x00];
   [0xcc; 0x00; 0x70; 0x30; 0x30; 0x30; 0x78; 0x00];
   [0xd8; 0x70; 0xd8; 0x0c; 0x7c; 0xcc; 0x78; 0x00];
   [0x00; 0xf8; 0x00; 0xf8; 0xcc; 0xcc; 0xcc; 0x00];
   [0x00; 0xe0; 0x00; 0x78; 0xcc; 0xcc; 0x78; 0x00];
   [0x00; 0x1c; 0x00; 0x78; 0xcc; 0xcc; 0x78; 0x00];
   [0x78; 0xcc; 0x00; 0x78; 0xcc; 0xcc; 0x78; 0x00];
   [0x76; 0xdc; 0x00; 0x78; 0xcc; 0xcc; 0x78; 0x00];
   [0x00; 0xcc; 0x00; 0x78; 0xcc; 0xcc; 0x78; 0x00];
   [0x18; 0x18; 0x00; 0x7e; 0x00; 0x18; 0x18; 0x00];
   [0x00; 0x06; 0x3c; 0x6e; 0x7e; 0x76; 0x3c; 0x60];
   [0x00; 0xe0; 0x00; 0xcc; 0xcc; 0xcc; 0x7e; 0x00];
   [0x00; 0x1c; 0x00; 0xcc; 0xcc; 0xcc; 0x7e; 0x00];
   [0x78; 0xcc; 0x00; 0xcc; 0xcc; 0xcc; 0x7e; 0x00];
   [0x00; 0xcc; 0x00; 0xcc; 0xcc; 0xcc; 0x7e; 0x00];
   [0x00; 0x1c; 0x00; 0xcc; 0xcc; 0x7c; 0x0c; 0xf8];
   [0x00; 0x00; 0x60; 0x7c; 0x66; 0x7c; 0x60; 0x00];
   [0x00; 0xcc; 0x00; 0xcc; 0xcc; 0x7c; 0x0c; 0xf8];
   [0x00; 0x00; 0x00; 0x00; 0xff; 0x00; 0x00; 0x00];
   [0x00; 0x00; 0x00; 0xff; 0xff; 0x00; 0x00; 0x00];
   [0x10; 0x10; 0x10; 0x10; 0x10; 0x10; 0x10; 0x10];
   [0x18; 0x18; 0x18; 0x18; 0x18; 0x18; 0x18; 0x18];
   [0x00; 0x00; 0x00; 0x00; 0xdd; 0x00; 0x00; 0x00];
   [0x00; 0x00; 0x00; 0xdd; 0xdd; 0x00; 0x00; 0x00];
   [0x10; 0x00; 0x10; 0x10; 0x10; 0x00; 0x10; 0x10];
   [0x18; 0x00; 0x18; 0x18; 0x18; 0x00; 0x18; 0x18];
   [0x00; 0x00; 0x00; 0x00; 0xaa; 0x00; 0x00; 0x00];
   [0x00; 0x00; 0x00; 0xaa; 0xaa; 0x00; 0x00; 0x00];
   [0x00; 0x10; 0x00; 0x10; 0x00; 0x10; 0x00; 0x10];
   [0x00; 0x18; 0x00; 0x18; 0x00; 0x18; 0x00; 0x18];
   [0x00; 0x00; 0x00; 0x00; 0x1f; 0x10; 0x10; 0x10];
   [0x00; 0x00; 0x00; 0x1f; 0x1f; 0x10; 0x10; 0x10];
   [0x00; 0x00; 0x00; 0x00; 0x1f; 0x18; 0x18; 0x18];
   [0x00; 0x00; 0x00; 0x1f; 0x1f; 0x18; 0x18; 0x18];
   [0x00; 0x00; 0x00; 0x00; 0xf0; 0x10; 0x10; 0x10];
   [0x00; 0x00; 0x00; 0xf0; 0xf0; 0x10; 0x10; 0x10];
   [0x00; 0x00; 0x00; 0x00; 0xf8; 0x18; 0x18; 0x18];
   [0x00; 0x00; 0x00; 0xf8; 0xf8; 0x18; 0x18; 0x18];
   [0x10; 0x10; 0x10; 0x10; 0x1f; 0x00; 0x00; 0x00];
   [0x10; 0x10; 0x10; 0x1f; 0x1f; 0x00; 0x00; 0x00];
   [0x18; 0x18; 0x18; 0x18; 0x1f; 0x00; 0x00; 0x00];
   [0x18; 0x18; 0x18; 0x1f; 0x1f; 0x00; 0x00; 0x00];
   [0x10; 0x10; 0x10; 0x10; 0xf0; 0x00; 0x00; 0x00];
   [0x10; 0x10; 0x10; 0xf0; 0xf0; 0x00; 0x00; 0x00];
   [0x18; 0x18; 0x18; 0x18; 0xf8; 0x00; 0x00; 0x00];
   [0x18; 0x18; 0x18; 0xf8; 0xf8; 0x00; 0x00; 0x00];
   [0x10; 0x10; 0x10; 0x10; 0x1f; 0x10; 0x10; 0x10];
   [0x10; 0x10; 0x10; 0x1f; 0x1f; 0x10; 0x10; 0x10];
   [0x18; 0x18; 0x18; 0x18; 0x1f; 0x10; 0x10; 0x10];
   [0x10; 0x10; 0x10; 0x10; 0x1f; 0x18; 0x18; 0x18];
   [0x18; 0x18; 0x18; 0x18; 0x1f; 0x18; 0x18; 0x18];
   [0x18; 0x18; 0x18; 0x1f; 0x1f; 0x10; 0x10; 0x10];
   [0x10; 0x10; 0x10; 0x1f; 0x1f; 0x18; 0x18; 0x18];
   [0x18; 0x18; 0x18; 0x1f; 0x1f; 0x18; 0x18; 0x18];
   [0x10; 0x10; 0x10; 0x10; 0xf0; 0x10; 0x10; 0x10];
   [0x10; 0x10; 0x10; 0xf0; 0xf0; 0x10; 0x10; 0x10];
   [0x18; 0x18; 0x18; 0x18; 0xf8; 0x10; 0x10; 0x10];
   [0x10; 0x10; 0x10; 0x10; 0xf8; 0x18; 0x18; 0x18];
   [0x18; 0x18; 0x18; 0x18; 0xf8; 0x18; 0x18; 0x18];
   [0x18; 0x18; 0x18; 0xf8; 0xf8; 0x10; 0x10; 0x10];
   [0x10; 0x10; 0x10; 0xf8; 0xf8; 0x18; 0x18; 0x18];
   [0x18; 0x18; 0x18; 0xf8; 0xf8; 0x18; 0x18; 0x18];
   [0x00; 0x00; 0x00; 0x00; 0xff; 0x10; 0x10; 0x10];
   [0x00; 0x00; 0x00; 0xf0; 0xff; 0x10; 0x10; 0x10];
   [0x00; 0x00; 0x00; 0x1f; 0xff; 0x10; 0x10; 0x10];
   [0x00; 0x00; 0x00; 0xff; 0xff; 0x10; 0x10; 0x10];
   [0x00; 0x00; 0x00; 0x00; 0xff; 0x18; 0x18; 0x18];
   [0x00; 0x00; 0x00; 0xf8; 0xff; 0x18; 0x18; 0x18];
   [0x00; 0x00; 0x00; 0x1f; 0xff; 0x18; 0x18; 0x18];
   [0x00; 0x00; 0x00; 0xff; 0xff; 0x18; 0x18; 0x18];
   [0x10; 0x10; 0x10; 0x10; 0xff; 0x00; 0x00; 0x00];
   [0x10; 0x10; 0x10; 0xf0; 0xff; 0x00; 0x00; 0x00];
   [0x10; 0x10; 0x10; 0x1f; 0xff; 0x00; 0x00; 0x00];
   [0x10; 0x10; 0x10; 0xff; 0xff; 0x00; 0x00; 0x00];
   [0x18; 0x18; 0x18; 0x18; 0xff; 0x00; 0x00; 0x00];
   [0x18; 0x18; 0x18; 0xf8; 0xff; 0x00; 0x00; 0x00];
   [0x18; 0x18; 0x18; 0x1f; 0xff; 0x00; 0x00; 0x00];
   [0x18; 0x18; 0x18; 0xff; 0xff; 0x00; 0x00; 0x00];
   [0x10; 0x10; 0x10; 0x10; 0xff; 0x10; 0x10; 0x10];
   [0x10; 0x10; 0x10; 0xf0; 0xff; 0x10; 0x10; 0x10];
   [0x10; 0x10; 0x10; 0x1f; 0xff; 0x10; 0x10; 0x10];
   [0x10; 0x10; 0x10; 0xff; 0xff; 0x10; 0x10; 0x10];
   [0x18; 0x18; 0x18; 0x18; 0xff; 0x10; 0x10; 0x10];
   [0x10; 0x10; 0x10; 0x10; 0xff; 0x18; 0x18; 0x18];
   [0x18; 0x18; 0x18; 0x18; 0xff; 0x18; 0x18; 0x18];
   [0x18; 0x18; 0x18; 0xf8; 0xff; 0x10; 0x10; 0x10];
   [0x18; 0x18; 0x18; 0x1f; 0xff; 0x10; 0x10; 0x10];
   [0x10; 0x10; 0x10; 0xf8; 0xff; 0x18; 0x18; 0x18];
   [0x10; 0x10; 0x10; 0x1f; 0xff; 0x18; 0x18; 0x18];
   [0x10; 0x10; 0x10; 0xff; 0xff; 0x18; 0x18; 0x18];
   [0x18; 0x18; 0x18; 0xff; 0xff; 0x10; 0x10; 0x10];
   [0x18; 0x18; 0x18; 0x1f; 0xff; 0x18; 0x18; 0x18];
   [0x18; 0x18; 0x18; 0xf8; 0xff; 0x18; 0x18; 0x18];
   [0x18; 0x18; 0x18; 0xff; 0xff; 0x18; 0x18; 0x18];
   [0x00; 0x00; 0x00; 0x00; 0xe7; 0x00; 0x00; 0x00];
   [0x00; 0x00; 0x00; 0xe7; 0xe7; 0x00; 0x00; 0x00];
   [0x10; 0x10; 0x10; 0x00; 0x00; 0x10; 0x10; 0x10];
   [0x18; 0x18; 0x18; 0x00; 0x00; 0x18; 0x18; 0x18];
   [0x00; 0x00; 0x00; 0xff; 0x00; 0xff; 0x00; 0x00];
   [0x28; 0x28; 0x28; 0x28; 0x28; 0x28; 0x28; 0x28];
   [0x00; 0x00; 0x00; 0x1f; 0x10; 0x1f; 0x10; 0x10];
   [0x00; 0x00; 0x00; 0x00; 0x3f; 0x28; 0x28; 0x28];
   [0x00; 0x00; 0x00; 0x3f; 0x20; 0x2f; 0x28; 0x28];
   [0x00; 0x00; 0x00; 0xf0; 0x10; 0xf0; 0x10; 0x10];
   [0x00; 0x00; 0x00; 0x00; 0xf8; 0x28; 0x28; 0x28];
   [0x00; 0x00; 0x00; 0xf8; 0x08; 0xe8; 0x28; 0x28];
   [0x10; 0x10; 0x10; 0x1f; 0x10; 0x1f; 0x00; 0x00];
   [0x28; 0x28; 0x28; 0x28; 0x3f; 0x00; 0x00; 0x00];
   [0x28; 0x28; 0x28; 0x2f; 0x20; 0x3f; 0x00; 0x00];
   [0x10; 0x10; 0x10; 0xf0; 0x10; 0xf0; 0x00; 0x00];
   [0x28; 0x28; 0x28; 0x28; 0xf8; 0x00; 0x00; 0x00];
   [0x28; 0x28; 0x28; 0xe8; 0x08; 0xf8; 0x00; 0x00];
   [0x10; 0x10; 0x10; 0x1f; 0x10; 0x1f; 0x10; 0x10];
   [0x28; 0x28; 0x28; 0x28; 0x2f; 0x28; 0x28; 0x28];
   [0x28; 0x28; 0x28; 0x2f; 0x20; 0x2f; 0x28; 0x28];
   [0x10; 0x10; 0x10; 0xf0; 0x10; 0xf0; 0x10; 0x10];
   [0x28; 0x28; 0x28; 0x28; 0xe8; 0x28; 0x28; 0x28];
   [0x28; 0x28; 0x28; 0xe8; 0x08; 0xe8; 0x28; 0x28];
   [0x00; 0x00; 0x00; 0xff; 0x00; 0xff; 0x10; 0x10];
   [0x00; 0x00; 0x00; 0x00; 0xff; 0x28; 0x28; 0x28];
   [0x00; 0x00; 0x00; 0xff; 0x00; 0xef; 0x28; 0x28];
   [0x10; 0x10; 0x10; 0xff; 0x00; 0xff; 0x00; 0x00];
   [0x28; 0x28; 0x28; 0x28; 0xff; 0x00; 0x00; 0x00];
   [0x28; 0x28; 0x28; 0xef; 0x00; 0xff; 0x00; 0x00];
   [0x10; 0x10; 0x10; 0xff; 0x10; 0xff; 0x10; 0x10];
   [0x28; 0x28; 0x28; 0x28; 0xff; 0x28; 0x28; 0x28];
   [0x28; 0x28; 0x28; 0xef; 0x00; 0xef; 0x28; 0x28];
   [0x00; 0x00; 0x00; 0x00; 0x07; 0x08; 0x10; 0x10];
   [0x00; 0x00; 0x00; 0x00; 0xc0; 0x20; 0x10; 0x10];
   [0x10; 0x10; 0x10; 0x20; 0xc0; 0x00; 0x00; 0x00];
   [0x10; 0x10; 0x10; 0x08; 0x07; 0x00; 0x00; 0x00];
   [0x01; 0x02; 0x04; 0x08; 0x10; 0x20; 0x40; 0x80];
   [0x80; 0x40; 0x20; 0x10; 0x08; 0x04; 0x02; 0x01];
   [0x81; 0x42; 0x24; 0x18; 0x18; 0x24; 0x42; 0x81];
   [0x00; 0x00; 0x00; 0x00; 0xf0; 0x00; 0x00; 0x00];
   [0x10; 0x10; 0x10; 0x10; 0x00; 0x00; 0x00; 0x00];
   [0x00; 0x00; 0x00; 0x00; 0x1f; 0x00; 0x00; 0x00];
   [0x00; 0x00; 0x00; 0x00; 0x10; 0x10; 0x10; 0x10];
   [0x00; 0x00; 0x00; 0xf0; 0xf0; 0x00; 0x00; 0x00];
   [0x18; 0x18; 0x18; 0x18; 0x00; 0x00; 0x00; 0x00];
   [0x00; 0x00; 0x00; 0x1f; 0x1f; 0x00; 0x00; 0x00];
   [0x00; 0x00; 0x00; 0x00; 0x18; 0x18; 0x18; 0x18];
   [0x00; 0x00; 0x00; 0x1f; 0xff; 0x00; 0x00; 0x00];
   [0x10; 0x10; 0x10; 0x10; 0x18; 0x18; 0x18; 0x18];
   [0x00; 0x00; 0x00; 0xf0; 0xff; 0x00; 0x00; 0x00];
   [0x18; 0x18; 0x18; 0x18; 0x10; 0x10; 0x10; 0x10];
   [0xff; 0xff; 0xff; 0xff; 0x00; 0x00; 0x00; 0x00];
   [0x00; 0x00; 0x00; 0x00; 0x00; 0x00; 0x00; 0xff];
   [0x00; 0x00; 0x00; 0x00; 0x00; 0x00; 0xff; 0xff];
   [0x00; 0x00; 0x00; 0x00; 0x00; 0xff; 0xff; 0xff];
   [0x00; 0x00; 0x00; 0x00; 0xff; 0xff; 0xff; 0xff];
   [0x00; 0x00; 0x00; 0xff; 0xff; 0xff; 0xff; 0xff];
   [0x00; 0x00; 0xff; 0xff; 0xff; 0xff; 0xff; 0xff];
   [0x00; 0xff; 0xff; 0xff; 0xff; 0xff; 0xff; 0xff];
   [0xff; 0xff; 0xff; 0xff; 0xff; 0xff; 0xff; 0xff];
   [0xfe; 0xfe; 0xfe; 0xfe; 0xfe; 0xfe; 0xfe; 0xfe];
   [0xfc; 0xfc; 0xfc; 0xfc; 0xfc; 0xfc; 0xfc; 0xfc];
   [0xf8; 0xf8; 0xf8; 0xf8; 0xf8; 0xf8; 0xf8; 0xf8];
   [0xf0; 0xf0; 0xf0; 0xf0; 0xf0; 0xf0; 0xf0; 0xf0];
   [0xe0; 0xe0; 0xe0; 0xe0; 0xe0; 0xe0; 0xe0; 0xe0];
   [0xc0; 0xc0; 0xc0; 0xc0; 0xc0; 0xc0; 0xc0; 0xc0];
   [0x80; 0x80; 0x80; 0x80; 0x80; 0x80; 0x80; 0x80];
   [0x0f; 0x0f; 0x0f; 0x0f; 0x0f; 0x0f; 0x0f; 0x0f];
   [0xaa; 0x00; 0x55; 0x00; 0xaa; 0x00; 0x55; 0x00];
   [0xaa; 0x55; 0xaa; 0x55; 0xaa; 0x55; 0xaa; 0x55];
   [0xff; 0x55; 0xff; 0xaa; 0xff; 0x55; 0xff; 0xaa];
   [0xff; 0x00; 0x00; 0x00; 0x00; 0x00; 0x00; 0x00];
   [0x01; 0x01; 0x01; 0x01; 0x01; 0x01; 0x01; 0x01];
   [0x00; 0x00; 0x00; 0x00; 0xf0; 0xf0; 0xf0; 0xf0];
   [0x00; 0x00; 0x00; 0x00; 0x0f; 0x0f; 0x0f; 0x0f];
   [0xf0; 0xf0; 0xf0; 0xf0; 0x00; 0x00; 0x00; 0x00];
   [0xf0; 0xf0; 0xf0; 0xf0; 0xff; 0xff; 0xff; 0xff];
   [0xf0; 0xf0; 0xf0; 0xf0; 0x0f; 0x0f; 0x0f; 0x0f];
   [0xff; 0xff; 0xff; 0xff; 0xf0; 0xf0; 0xf0; 0xf0];
   [0xff; 0xff; 0xff; 0xff; 0x0f; 0x0f; 0x0f; 0x0f];
   [0x0f; 0x0f; 0x0f; 0x0f; 0x00; 0x00; 0x00; 0x00];
   [0x0f; 0x0f; 0x0f; 0x0f; 0xf0; 0xf0; 0xf0; 0xf0];
   [0x0f; 0x0f; 0x0f; 0x0f; 0xff; 0xff; 0xff; 0xff]
  ] ++ replicate 256 0.

Record Font := MkFont { glyphs : list Z; bbox_width : Z; bbox_height : Z; encoding : list Z }.

(** [_O(x)] *)
Definition glyph_offset (x : Z) : Z := Z.shiftl x 3.

Definition kFont_VT100_US : Font := MkFont glyphs_8x8_latin_boxes 8 8 (glyph_offset <$>
  [0; 0; 0; 0; 0; 0; 0; 0; 0; 0; 0; 0; 0; 0; 0; 0;
   0; 0; 0; 0; 0; 0; 0; 0; 0; 0; 0; 0; 0; 0; 0; 0;
   0; 1; 2; 3; 4; 5; 6; 7; 8; 9; 10; 11; 12; 13; 14; 15;
   16; 17; 18; 19; 20; 21; 22; 23; 24; 25; 26; 27; 28; 29; 30; 31;
   32; 33; 34; 35; 36; 37; 38; 39; 40; 41; 42; 43; 44; 45; 46; 47;
   48; 49; 50; 51; 52; 53; 54; 55; 56; 57; 58; 59; 60; 61; 62; 63;
   64; 65; 66; 67; 68; 69; 70; 71; 72; 73; 74; 75; 76; 77; 78; 79;
   80; 81; 82; 83; 84; 85; 86; 87; 88; 89; 90; 91; 92; 93; 94; 95]).

Definition kFont_VT100_UK : Font := MkFont glyphs_8x8_latin_boxes 8 8 (glyph_offset <$>
  [0; 0; 0; 0; 0; 0; 0; 0; 0; 0; 0; 0; 0; 0; 0; 0;
   0; 0; 0; 0; 0; 0; 0; 0; 0; 0; 0; 0; 0; 0; 0; 0;
   0; 1; 2; 99; 4; 5; 6; 7; 8; 9; 10; 11; 12; 13; 14; 15;
   16; 17; 18; 19; 20; 21; 22; 23; 24; 25; 26; 27; 28; 29; 30; 31;
   32; 33; 34; 35; 36; 37; 38; 39; 40; 41; 42; 43; 44; 45; 46; 47;
   48; 49; 50; 51; 52; 53; 54; 55; 56; 57; 58; 59; 60; 61; 62; 63;
   64; 65; 66; 67; 68; 69; 70; 71; 72; 73; 74; 75; 76; 77; 78; 79;
   80; 81; 82; 83; 84; 85; 86; 87; 88; 89; 90; 91; 92; 93; 94; 95]).

Definition kFont_VT100_LDCS : Font := MkFont glyphs_8x8_latin_boxes 8 8 (glyph_offset <$>
  [0; 0; 0; 0; 0; 0; 0; 0; 0; 0; 0; 0; 0; 0; 0; 0;
   0; 0; 0; 0; 0; 0; 0; 0; 0; 0; 0; 0; 0; 0; 0; 0;
   0; 1; 2; 3; 4; 5; 6; 7; 8; 9; 10; 11; 12; 13; 14; 15;
   16; 17; 18; 19; 20; 21; 22; 23; 24; 25; 26; 27; 28; 29; 30; 31;
   32; 33; 34; 35; 36; 37; 38; 39; 40; 41; 42; 43; 44; 45; 46; 47;
   48; 49; 50; 51; 52; 53; 54; 55; 56; 57; 58; 59; 60; 61; 62; 96;
   100; 338; 100; 100; 100; 100; 112; 113; 100; 100; 216; 208; 204; 212; 252; 100;
   100; 192; 100; 100; 220; 228; 244; 236; 194; 100; 100; 100; 100; 99; 119; 0]).
