(* ===== verification/TabStops.v ===== *)
(** * Tab stops of the console (kern/src/console/TabStops.c)

    The array of stops with its count and capacity.  A NULL pointer is an empty
    array, and [mem] says whether an allocation succeeds; the bytes of a new
    array are 0 until they are written. *)

From Stdlib Require Import ZifyBool Sorted.
From S2P Require Import Prelude.

Record TabStops := Tabs { stops : list Z; t_count : Z; t_capacity : Z }.

(** The stops that are set; [None] if the count goes beyond the array. *)
Definition active (self : TabStops) : option (list Z) :=
  if (0 <=? t_count self) && (t_count self <=? Z.of_nat (length (stops self))) then Some (take (Z.to_nat (t_count self)) (stops self)) else None.

Definition TabStops_Init (mem : bool) (self : TabStops) (nStops tabWidth : Z) : option (errno * TabStops) :=
  if (0 <=? tabWidth) && (tabWidth <=? 127) then
    Some (if mem then (EOK, Tabs ((fun i => s8 (Z.of_nat i * tabWidth)) <$> seq 0 (Z.to_nat nStops)) nStops nStops) else (ENOMEM, self))
  else None.

Definition TabStops_Deinit (self : TabStops) : TabStops := Tabs [] (t_count self) (t_capacity self).

(** The index of the first stop with the property. *)
Fixpoint first_stop (f : Z -> bool) (l : list Z) : option nat :=
  match l with
  | [] => None
  | s :: l => if f s then Some O else S <$> first_stop f l
  end.

Definition TabStops_InsertStop (mem : bool) (self : TabStops) (xLoc : Z) : option (errno * TabStops) :=
  if (0 <=? xLoc) && (xLoc <=? 127) then
    vs ← active self;
    let idx := default O (first_stop (fun s => xLoc <=? s) vs) in
    if bool_decide (vs !! idx = Some xLoc) then Some (EOK, self)
    else
      let full := t_count self =? t_capacity self in
      if full && negb mem then Some (ENOMEM, self)
      else
        let cap := if full then (if 0 <? t_capacity self then t_capacity self * 2 else 8) else t_capacity self in
        let array := if full then vs ++ replicate (Z.to_nat cap - length vs) 0 else stops self in
        if (length vs <? length array)%nat
        then Some (EOK, Tabs (take idx vs ++ xLoc :: drop idx vs ++ drop (S (length vs)) array) (t_count self + 1) cap)
        else None
  else None.

Definition TabStops_RemoveStop (self : TabStops) (xLoc : Z) : option TabStops :=
  vs ← active self;
  match first_stop (Z.eqb xLoc) vs with
  | Some idx => Some (Tabs (take idx vs ++ drop (S idx) vs ++ drop (length vs - 1) (stops self)) (t_count self - 1) (t_capacity self))
  | None => Some self
  end.

Definition TabStops_RemoveAllStops (self : TabStops) : TabStops := Tabs (stops self) 0 (t_capacity self).

Definition TabStops_GetNextStop (self : TabStops) (xLoc xWidth : Z) : option Z :=
  vs ← active self;
  match first_stop (Z.ltb xLoc) vs with
  | Some i => vs !! i
  | None => Some (Z.max (xWidth - 1) 0)
  end.

Definition TabStops_GetNextNthStop (self : TabStops) (xLoc nth xWidth : Z) : option Z :=
  vs ← active self;
  match first_stop (Z.ltb xLoc) vs with
  | Some i =>
      let idx := Z.of_nat i + (nth - 1) in
      if idx <? t_count self then (if 0 <=? idx then vs !! Z.to_nat idx else None) else Some (Z.max (xWidth - 1) 0)
  | None => Some (Z.max (xWidth - 1) 0)
  end.

Definition TabStops_GetPreviousNthStop (self : TabStops) (xLoc nth : Z) : option Z :=
  vs ← active self;
  match first_stop (fun s => s <? xLoc) (reverse vs) with
  | Some k =>
      let i := t_count self - 1 - Z.of_nat k in
      let idx := i - (Z.max nth 1 - 1) in
      if 0 <=? idx then vs !! Z.to_nat idx else Some 0
  | None => Some 0
  end.

(** ** What they do *)

(** A table with the stops [vs]. *)
Record tabs_ok (self : TabStops) (vs : list Z) : Prop := {
  tabs_active : active self = Some vs;
  tabs_size : Z.of_nat (length (stops self)) = t_capacity self;
  tabs_range : Forall (fun s => -128 <= s <= 127) vs }.

Lemma tabs_count self vs : tabs_ok self vs -> t_count self = Z.of_nat (length vs) /\ (length vs <= length (stops self))%nat.
Proof.
  intros [Ha _ _]. unfold active in Ha. destruct ((0 <=? t_count self) && _) eqn:E; [|done]. simplify_eq.
  rewrite length_take. lia.
Qed.

Lemma first_stop_spec f l :
  match first_stop f l with
  | Some i => exists s, l !! i = Some s /\ f s = true /\ Forall (fun s => f s = false) (take i l)
  | None => Forall (fun s => f s = false) l
  end.
Proof.
  induction l as [|s l IH]; cbn; [constructor|]. destruct (f s) eqn:E; [by exists s|].
  destruct (first_stop f l) as [i|]; cbn; [|by constructor]. destruct IH as (t & ? & ? & ?). exists t. split_and!; [done..|by constructor].
Qed.

Lemma active_tabs vs rest c cap : c = Z.of_nat (length vs) -> active (Tabs (vs ++ rest) c cap) = Some vs.
Proof.
  intros ->. unfold active. cbn. rewrite length_app. destruct ((0 <=? _) && _) eqn:E; [|lia]. by rewrite Nat2Z.id, take_app_length.
Qed.

Lemma insert_some mem self vs x :
  tabs_ok self vs -> 0 <= x <= 127 ->
  exists e self' vs', TabStops_InsertStop mem self x = Some (e, self') /\ tabs_ok self' vs' /\ (e = EOK \/ mem = false /\ self' = self) /\
    (e = EOK -> forall s, s ∈ vs' <-> s = x \/ s ∈ vs).
Proof.
  intros Hok Hx. pose proof (tabs_count _ _ Hok) as [Hc Hl]. destruct Hok as [Ha Hs Hr]. unfold TabStops_InsertStop.
  replace ((0 <=? x) && (x <=? 127)) with true by lia. rewrite (bind_some Ha). set (idx := default O _). case_bool_decide as Hi.
  { exists EOK, self, vs. split_and!; [done|by split|by left|]. intros _ s. apply list_elem_of_lookup_2 in Hi. split; [auto|]. by intros [->|]. }
  assert (Hadd : forall s, s ∈ take idx vs ++ x :: drop idx vs <-> s = x \/ s ∈ vs).
  { intros s. rewrite <- (take_drop idx vs) at 3. rewrite !elem_of_app, elem_of_cons. tauto. }
  assert (Hlen : length (take idx vs ++ x :: drop idx vs) = S (length vs)) by (rewrite length_app; cbn; rewrite length_take, length_drop; lia).
  assert (Hrng : Forall (fun s => -128 <= s <= 127) (take idx vs ++ x :: drop idx vs)).
  { apply Forall_app. split; [by apply Forall_take|]. constructor; [lia|by apply Forall_drop]. }
  assert (Hnew : forall array cap, Z.of_nat (length array) = cap -> (length vs < length array)%nat ->
    tabs_ok (Tabs (take idx vs ++ x :: drop idx vs ++ drop (S (length vs)) array) (t_count self + 1) cap) (take idx vs ++ x :: drop idx vs)).
  { intros array cap Hcap Hlt. change (x :: drop idx vs ++ drop (S (length vs)) array) with ((x :: drop idx vs) ++ drop (S (length vs)) array).
    rewrite (assoc_L (++)). split; [apply active_tabs; lia| |done]. cbn [stops]. rewrite length_app, Hlen, length_drop. cbn. lia. }
  destruct (t_count self =? t_capacity self) eqn:Ef; [destruct mem; cbn [negb andb]|cbn [andb]].
  - rewrite length_app, length_replicate. set (cap := if 0 <? t_capacity self then _ else _).
    replace (length vs <? length vs + (Z.to_nat cap - length vs))%nat with true by (subst cap; destruct (0 <? t_capacity self) eqn:?; lia).
    eexists _, _, _. split; [done|]. split; [apply Hnew|by auto].
    + rewrite length_app, length_replicate. subst cap; destruct (0 <? t_capacity self) eqn:?; lia.
    + rewrite length_app, length_replicate. subst cap; destruct (0 <? t_capacity self) eqn:?; lia.
  - exists ENOMEM, self, vs. split_and!; [done|by split|by right|done].
  - replace (length vs <? length (stops self))%nat with true by lia. eexists _, _, _. split; [done|]. split; [by apply Hnew; lia|by auto].
Qed.

Lemma remove_some self vs x : tabs_ok self vs -> exists self' vs', TabStops_RemoveStop self x = Some self' /\ tabs_ok self' vs'.
Proof.
  intros Hok. pose proof (tabs_count _ _ Hok) as [Hc Hl]. pose proof Hok as [Ha Hs Hr]. unfold TabStops_RemoveStop. rewrite (bind_some Ha).
  pose proof (first_stop_spec (Z.eqb x) vs) as Hf. destruct (first_stop (Z.eqb x) vs) as [i|]; [|by eauto].
  destruct Hf as (s & Hi & _). apply lookup_lt_Some in Hi. eexists _, (take i vs ++ drop (S i) vs). split; [done|].
  assert (Hlen : length (take i vs ++ drop (S i) vs) = (length vs - 1)%nat) by (rewrite length_app, length_take, length_drop; lia).
  rewrite (assoc_L (++)). split; [apply active_tabs; lia| |].
  - cbn [stops]. rewrite length_app, Hlen, length_drop. cbn. lia.
  - apply Forall_app. split; [by apply Forall_take|by apply Forall_drop].
Qed.

Lemma remove_all_ok self vs : tabs_ok self vs -> tabs_ok (TabStops_RemoveAllStops self) [].
Proof. intros [_ Hs _]. split; [|done|constructor]. unfold active. cbn. by replace (0 <=? Z.of_nat (length (stops self))) with true by lia. Qed.

Lemma tabs_init_ok self n w : 0 <= n -> 0 <= w <= 127 -> exists self' vs, TabStops_Init true self n w = Some (EOK, self') /\ tabs_ok self' vs.
Proof.
  intros Hn Hw. unfold TabStops_Init. replace ((0 <=? w) && (w <=? 127)) with true by lia. eexists _, _. split; [done|]. split.
  - rewrite <- (app_nil_r (_ <$> _)) at 1. apply active_tabs. rewrite length_fmap, length_seq. lia.
  - cbn. rewrite length_fmap, length_seq. lia.
  - apply Forall_fmap, Forall_true. intros i. cbn. pose proof (s8_range (Z.of_nat i * w)). lia.
Qed.

Lemma stops_in_order l i j s t : StronglySorted Z.lt l -> l !! i = Some s -> l !! j = Some t -> (i < j)%nat -> s < t.
Proof.
  intros Hl. revert i j. induction Hl as [|a l _ IH Ha]; intros i j Hi Hj Hij; [done|]. destruct j as [|j]; [lia|]. cbn in Hj.
  destruct i as [|i]; cbn in Hi; [|by apply (IH i j Hi Hj); lia]. simplify_eq. by eapply Forall_lookup_1 in Ha.
Qed.

(** The next stop is one of the stops, or the last column; it is the nearest one if the
    stops are in order. *)
Lemma next_stop_spec self vs x w :
  tabs_ok self vs -> exists s, TabStops_GetNextStop self x w = Some s /\
    (x < s /\ s ∈ vs /\ (StronglySorted Z.lt vs -> forall t, t ∈ vs -> x < t -> s <= t) \/
     s = Z.max (w - 1) 0 /\ forall t, t ∈ vs -> t <= x).
Proof.
  intros [Ha _ _]. unfold TabStops_GetNextStop. rewrite (bind_some Ha). pose proof (first_stop_spec (Z.ltb x) vs) as Hf.
  destruct (first_stop (Z.ltb x) vs) as [i|].
  - destruct Hf as (s & Hi & Hs & Hlt). exists s. split; [done|]. left. split_and!; [lia|by eapply list_elem_of_lookup_2|].
    intros Hsort t [j Hj]%list_elem_of_lookup Hxt. destruct (decide (j < i)%nat) as [Hji|Hji].
    + rewrite Forall_lookup in Hlt. specialize (Hlt j t ltac:(by rewrite lookup_take_lt)). cbn in Hlt. lia.
    + destruct (decide (j = i)) as [->|]; [simplify_eq; lia|]. pose proof (stops_in_order vs i j s t Hsort Hi Hj ltac:(lia)). lia.
  - exists (Z.max (w - 1) 0). split; [done|]. right. split; [done|]. intros t Ht. rewrite Forall_forall in Hf. specialize (Hf t Ht). cbn in Hf. lia.
Qed.

(** A stop beyond the last one is put in front of all others, so that the tab from
    column 20 skips the stop at column 24. *)
Lemma insert_behind_the_last :
  exists self, TabStops_InsertStop true (Tabs [0; 8; 16; 24] 4 4) 40 = Some (EOK, self) /\ TabStops_GetNextStop self 20 80 = Some 40.
Proof. eexists. split; vm_compute; reflexivity. Qed.
