(* ===== verification/Console.v ===== *)
(** * The console (kern/src/console)

    Geometry.c, Console_Video.c and Console.c: rectangles of character cells, the
    bit planes of the frame buffer, the cursor, scrolling and the editing functions.
    A bit plane is the list of its bytes, one byte being eight pixels of a row, and
    an access outside of a plane is [None].  The sprite of the text cursor and its
    blinking are left out. *)

From Stdlib Require Import ZifyBool.
From S2P Require Import Prelude CBuf VtParse ConsoleFonts TabStops.

(** ** Geometry *)

Record Rect := Rect_Make { r_left : Z; r_top : Z; r_right : Z; r_bottom : Z }.

Definition Rect_GetWidth (r : Rect) : Z := r_right r - r_left r.
Definition Rect_GetHeight (r : Rect) : Z := r_bottom r - r_top r.
Definition Rect_Contains (r : Rect) (x y : Z) : bool := (r_left r <=? x) && (x <? r_right r) && (r_top r <=? y) && (y <? r_bottom r).
Definition Rect_Intersection (a b : Rect) : Rect :=
  Rect_Make (Z.max (r_left a) (r_left b)) (Z.max (r_top a) (r_top b)) (Z.min (r_right a) (r_right b)) (Z.min (r_bottom a) (r_bottom b)).

(** ** State *)

Inductive Color := Color_MakeRGB32 (rgb : Z) | Color_MakeIndex (index : Z).

Record CharacterRendition := Rendition {
  isBold : bool; isDimmed : bool; isItalic : bool; isUnderlined : bool;
  isBlink : bool; isReverse : bool; isHidden : bool; isStrikethrough : bool }.

(** What characters are drawn with. *)
Record Attributes := Attr {
  backgroundColor : Color; foregroundColor : Color; characterRendition : CharacterRendition;
  gl : Z; gl_ss23 : Z; g : list Font }.

Record SavedState := Saved {
  s_x : Z; s_y : Z; s_backgroundColor : Color; s_foregroundColor : Color; s_characterRendition : CharacterRendition }.

(** The planes of the frame buffer and its size in pixels. *)
Record Video := MkVideo { plane : list (list Z); bytesPerRow : Z; pixelsWidth : Z; pixelsHeight : Z }.

Record ConsoleFlags := Flags { isAutoWrapEnabled : bool; isInsertionMode : bool; isTextCursorBlinkerEnabled : bool; isTextCursorVisible : bool }.

Inductive CompatibilityMode := kCompatibilityMode_VT52 | kCompatibilityMode_VT52_AtariExtensions | kCompatibilityMode_VT100.

Record Console := Con {
  video : Video; attr : Attributes; bounds : Rect; c_x : Z; c_y : Z; hTabStops : TabStops; savedCursorState : SavedState;
  compatibilityMode : CompatibilityMode; flags : ConsoleFlags; reportsQueue : cbuf; vtparser : vtparser_t }.

Definition set_video (v : Video) (self : Console) : Console :=
  Con v (attr self) (bounds self) (c_x self) (c_y self) (hTabStops self) (savedCursorState self) (compatibilityMode self) (flags self) (reportsQueue self) (vtparser self).
Definition set_attr (a : Attributes) (self : Console) : Console :=
  Con (video self) a (bounds self) (c_x self) (c_y self) (hTabStops self) (savedCursorState self) (compatibilityMode self) (flags self) (reportsQueue self) (vtparser self).
Definition set_cursor (x y : Z) (self : Console) : Console :=
  Con (video self) (attr self) (bounds self) x y (hTabStops self) (savedCursorState self) (compatibilityMode self) (flags self) (reportsQueue self) (vtparser self).
Definition set_tabs (t : TabStops) (self : Console) : Console :=
  Con (video self) (attr self) (bounds self) (c_x self) (c_y self) t (savedCursorState self) (compatibilityMode self) (flags self) (reportsQueue self) (vtparser self).
Definition set_saved (s : SavedState) (self : Console) : Console :=
  Con (video self) (attr self) (bounds self) (c_x self) (c_y self) (hTabStops self) s (compatibilityMode self) (flags self) (reportsQueue self) (vtparser self).
Definition set_flags (f : ConsoleFlags) (self : Console) : Console :=
  Con (video self) (attr self) (bounds self) (c_x self) (c_y self) (hTabStops self) (savedCursorState self) (compatibilityMode self) f (reportsQueue self) (vtparser self).
Definition set_reports (q : cbuf) (self : Console) : Console :=
  Con (video self) (attr self) (bounds self) (c_x self) (c_y self) (hTabStops self) (savedCursorState self) (compatibilityMode self) (flags self) q (vtparser self).
Definition set_parser (m : CompatibilityMode) (p : vtparser_t) (self : Console) : Console :=
  Con (video self) (attr self) (bounds self) (c_x self) (c_y self) (hTabStops self) (savedCursorState self) m (flags self) (reportsQueue self) p.

Definition set_colors (bg fg : Color) (a : Attributes) : Attributes := Attr bg fg (characterRendition a) (gl a) (gl_ss23 a) (g a).
Definition set_rendition (r : CharacterRendition) (a : Attributes) : Attributes := Attr (backgroundColor a) (foregroundColor a) r (gl a) (gl_ss23 a) (g a).
Definition set_gl (x ss : Z) (a : Attributes) : Attributes := Attr (backgroundColor a) (foregroundColor a) (characterRendition a) x ss (g a).
Definition set_g (l : list Font) (a : Attributes) : Attributes := Attr (backgroundColor a) (foregroundColor a) (characterRendition a) (gl a) (gl_ss23 a) l.

(** ** Drawing *)

(** The same operation on every plane. *)
Fixpoint each_plane (f : nat -> list Z -> option (list Z)) (p : nat) (l : list (list Z)) : option (list (list Z)) :=
  match l with
  | [] => Some []
  | pl :: l => pl ← f p pl; l ← each_plane f (S p) l; Some (pl :: l)
  end.

Definition map_planes (f : nat -> list Z -> option (list Z)) (v : Video) : option Video :=
  l ← each_plane f 0 (plane v); Some (MkVideo l (bytesPerRow v) (pixelsWidth v) (pixelsHeight v)).

(** The index of a colour; the tag is asserted when the colour is set. *)
Definition color_index (c : Color) : option Z := match c with Color_MakeIndex i => Some i | Color_MakeRGB32 _ => None end.

Definition Font_GetGlyph (font : Font) (ch : Z) : option (list Z) :=
  off ← (if 0 <=? ch then encoding font !! Z.to_nat ch else None);
  let gp := take 8 (drop (Z.to_nat off) (glyphs font)) in
  if (length gp =? 8)%nat then Some gp else None.

(** Bytes below each other. *)
Fixpoint put_column (pl : list Z) (i step : Z) (bs : list Z) : option (list Z) :=
  match bs with
  | [] => Some pl
  | b :: bs => if (0 <=? i) && (i <? Z.of_nat (length pl)) then put_column (<[Z.to_nat i := b]> pl) (i + step) step bs else None
  end.

(** The byte of a plane for a byte of the glyph and the colours. *)
Definition glyph_byte (fgOne bgOne : bool) (s : Z) : Z :=
  if fgOne && negb bgOne then s else if negb fgOne && bgOne then u8 (Z.lnot s) else if fgOne && bgOne then 255 else 0.

Definition Console_DrawGlyph_Locked (v : Video) (font : Font) (ch xc yc fg bg : Z) : option Video :=
  gp ← Font_GetGlyph font ch;
  map_planes (fun p pl => put_column pl (yc * 8 * bytesPerRow v + xc) (bytesPerRow v)
    (glyph_byte (Z.testbit fg (Z.of_nat p)) (Z.testbit bg (Z.of_nat p)) <$> gp)) v.

(** The colours with the reverse attribute applied: foreground, background. *)
Definition draw_colors (a : Attributes) : option (Z * Z) :=
  f ← color_index (foregroundColor a); b ← color_index (backgroundColor a);
  Some (if isReverse (characterRendition a) then (b, f) else (f, b)).

Definition current_font (a : Attributes) : option Font := if 0 <=? gl a then g a !! Z.to_nat (gl a) else None.

Definition Console_DrawChar_Locked (self : Console) (ch xc yc : Z) : option Console :=
  let maxX := Z.shiftr (pixelsWidth (video self)) 3 in
  let maxY := Z.shiftr (pixelsHeight (video self)) 3 in
  if (0 <=? xc) && (0 <=? yc) && (xc <? maxX) && (yc <? maxY) then
    let ch := if isHidden (characterRendition (attr self)) then 32 else ch in
    cs ← draw_colors (attr self);
    font ← current_font (attr self);
    v ← Console_DrawGlyph_Locked (video self) font ch xc yc cs.1 cs.2;
    Some (set_video v self)
  else Some self.

(** memmove and memset on a plane; [w] is of type size_t. *)
Definition mem_move (pl : list Z) (d s w : Z) : option (list Z) :=
  if w =? 0 then Some pl
  else if (0 <=? d) && (d + w <=? Z.of_nat (length pl)) && (0 <=? s) && (s + w <=? Z.of_nat (length pl))
  then Some (take (Z.to_nat d) pl ++ take (Z.to_nat w) (drop (Z.to_nat s) pl) ++ drop (Z.to_nat (d + w)) pl)
  else None.

Definition mem_set (pl : list Z) (d b w : Z) : option (list Z) :=
  if w =? 0 then Some pl
  else if (0 <=? d) && (d + w <=? Z.of_nat (length pl))
  then Some (take (Z.to_nat d) pl ++ replicate (Z.to_nat w) b ++ drop (Z.to_nat (d + w)) pl)
  else None.

(** The rows of a plane from [dst_y] on; the rectangles are in pixels. *)
Fixpoint copy_rows (n : nat) (rowbytes xOffset yOffset : Z) (src_r dst_r : Rect) (dst_y : Z) (pl : list Z) : option (list Z) :=
  match n with
  | O => Some pl
  | S n =>
      let src_y := dst_y - yOffset in
      pl ← (if (src_y <? r_top src_r) || (r_bottom src_r <=? src_y) then Some pl
            else
              let src_lx := Z.max (r_left dst_r - xOffset) (r_left src_r) in
              let src_rx := Z.min (r_right dst_r - xOffset) (r_right src_r) in
              let src_w := Z.shiftr (src_rx - src_lx) 3 in
              let dst_w := Z.shiftr (r_right dst_r - r_left dst_r) 3 in
              mem_move pl (dst_y * rowbytes + Z.shiftr (r_left dst_r) 3) (src_y * rowbytes + Z.shiftr src_lx 3) (u32 (Z.min src_w dst_w)));
      copy_rows n rowbytes xOffset yOffset src_r dst_r (dst_y + 1) pl
  end.

Definition rect_pixels (r : Rect) : Rect := Rect_Make (r_left r * 8) (r_top r * 8) (r_right r * 8) (r_bottom r * 8).

Definition Console_CopyRect_Locked (self : Console) (srcRect : Rect) (dx dy : Z) : option Console :=
  let src_r := Rect_Intersection srcRect (bounds self) in
  let dst_r := Rect_Intersection (Rect_Make dx dy (dx + Rect_GetWidth srcRect) (dy + Rect_GetHeight srcRect)) (bounds self) in
  let xOffset := r_left dst_r - r_left src_r in
  let yOffset := r_top dst_r - r_top src_r in
  if (Rect_GetWidth src_r =? 0) || (Rect_GetHeight src_r =? 0) || (Rect_GetWidth dst_r =? 0) || ((xOffset =? 0) && (yOffset =? 0)) then Some self
  else
    let src_r := rect_pixels src_r in
    let dst_r := rect_pixels dst_r in
    v ← map_planes (fun _ => copy_rows (Z.to_nat (r_bottom dst_r - r_top dst_r)) (bytesPerRow (video self)) (xOffset * 8) (yOffset * 8) src_r dst_r (r_top dst_r)) (video self);
    Some (set_video v self).

Fixpoint fill_rows (n : nat) (rowbytes lp b w : Z) (pl : list Z) : option (list Z) :=
  match n with
  | O => Some pl
  | S n => pl ← mem_set pl lp b w; fill_rows n rowbytes (lp + rowbytes) b w pl
  end.

(** Glyphs for the cells [from], [from + 1] and so on, in rows of [w] cells. *)
Fixpoint draw_cells (n : nat) (v : Video) (font : Font) (ch left_ top w fg bg from : Z) : option Video :=
  match n with
  | O => Some v
  | S n => v ← Console_DrawGlyph_Locked v font ch (left_ + from mod w) (top + from / w) fg bg; draw_cells n v font ch left_ top w fg bg (from + 1)
  end.

Definition Console_FillRect_Locked (self : Console) (rect : Rect) (ch : Z) : option Console :=
  if (ch <? 32) || (ch =? 127) then Some self
  else
    cs ← draw_colors (attr self);
    let r := Rect_Intersection rect (bounds self) in
    if ch =? 32 then
      let p := rect_pixels r in
      v ← map_planes (fun i => fill_rows (Z.to_nat (r_bottom p - r_top p)) (bytesPerRow (video self))
             (r_top p * bytesPerRow (video self) + Z.shiftr (r_left p) 3) (if Z.testbit cs.2 (Z.of_nat i) then 255 else 0)
             (u32 (Z.shiftr (r_right p - r_left p) 3))) (video self);
      Some (set_video v self)
    else
      font ← current_font (attr self);
      v ← draw_cells (Z.to_nat (Rect_GetWidth r) * Z.to_nat (Rect_GetHeight r)) (video self) font ch (r_left r) (r_top r) (Rect_GetWidth r) cs.1 cs.2 0;
      Some (set_video v self).

(** [gANSIColors] has eight entries. *)
Definition Console_SetForegroundColor_Locked (self : Console) (color : Color) : option Console :=
  i ← color_index color;
  if (0 <=? i) && (i <? 8) then Some (set_attr (set_colors (backgroundColor (attr self)) color (attr self)) self) else None.

Definition Console_SetBackgroundColor_Locked (self : Console) (color : Color) : option Console :=
  i ← color_index color;
  Some (set_attr (set_colors color (foregroundColor (attr self)) (attr self)) self).

(** ** Scrolling and clearing *)

Inductive ClearScreenMode := kClearScreenMode_ToEnd | kClearScreenMode_ToBeginning | kClearScreenMode_Whole | kClearScreenMode_WholeAndScrollback.
Inductive ClearLineMode := kClearLineMode_ToEnd | kClearLineMode_ToBeginning | kClearLineMode_Whole.

Definition Console_ClearScreen_Locked (self : Console) (mode : option ClearScreenMode) : option Console :=
  let b := bounds self in
  match mode with
  | Some kClearScreenMode_ToEnd =>
      self ← Console_FillRect_Locked self (Rect_Make (c_x self) (c_y self) (r_right b) (c_y self + 1)) 32;
      Console_FillRect_Locked self (Rect_Make 0 (c_y self + 1) (r_right b) (r_bottom b)) 32
  | Some kClearScreenMode_ToBeginning =>
      self ← Console_FillRect_Locked self (Rect_Make 0 (c_y self) (c_x self) (c_y self + 1)) 32;
      Console_FillRect_Locked self (Rect_Make 0 0 (r_right b) (c_y self - 1)) 32
  | Some kClearScreenMode_Whole | Some kClearScreenMode_WholeAndScrollback => Console_FillRect_Locked self b 32
  | None => Some self
  end.

Definition Console_ClearLine_Locked (self : Console) (y : Z) (mode : option ClearLineMode) : option Console :=
  if Rect_Contains (bounds self) 0 y then
    match mode with
    | Some kClearLineMode_ToEnd => Console_FillRect_Locked self (Rect_Make (c_x self) y (r_right (bounds self)) (y + 1)) 32
    | Some kClearLineMode_ToBeginning => Console_FillRect_Locked self (Rect_Make 0 y (c_x self) (y + 1)) 32
    | Some kClearLineMode_Whole => Console_FillRect_Locked self (Rect_Make 0 y (r_right (bounds self)) (y + 1)) 32
    | None => Some self
    end
  else Some self.

Definition Console_ScrollBy_Locked (self : Console) (dX dY : Z) : option Console :=
  let c := bounds self in
  let ax := Z.abs dX in
  let ay := Z.abs dY in
  if (ax <? Rect_GetWidth c) && (ay <? Rect_GetHeight c) then
    self ← (if (0 <? ax) || (0 <? ay) then
              Console_CopyRect_Locked self
                (Rect_Make (if dX <? 0 then r_left c else r_left c + ax) (if dY <? 0 then r_top c else r_top c + ay)
                           (if dX <? 0 then r_right c - ax else r_right c) (if dY <? 0 then r_bottom c - ay else r_bottom c))
                (if dX <? 0 then r_left c + ax else r_left c) (if dY <? 0 then r_top c + ay else r_top c)
            else Some self);
    self ← (if 0 <? ay then
              Console_FillRect_Locked self
                (Rect_Make (r_left c) (if dY <? 0 then r_top c else r_bottom c - ay) (r_right c) (if dY <? 0 then r_top c + ay else r_bottom c)) 32
            else Some self);
    if 0 <? ax then
      Console_FillRect_Locked self
        (Rect_Make (if dX <? 0 then r_left c else r_right c - ax) (if dY <? 0 then r_top c + ay else r_top c)
                   (if dX <? 0 then r_left c + ax else r_right c) (if dY <? 0 then r_bottom c else r_bottom c - ay)) 32
    else Some self
  else Console_ClearScreen_Locked self (Some kClearScreenMode_Whole).

(** ** The cursor *)

Inductive CursorMovement := kCursorMovement_Clamp | kCursorMovement_AutoWrap | kCursorMovement_AutoScroll.

(** Scrolls if the line [y] is outside of the screen, and gives the line of the cursor. *)
Definition scroll_to (self : Console) (y : Z) : option (Console * Z) :=
  let eY := r_bottom (bounds self) - 1 in
  if y <? 0 then self ← Console_ScrollBy_Locked self 0 y; Some (self, 0)
  else if eY <? y then self ← Console_ScrollBy_Locked self 0 (y - eY); Some (self, eY)
  else Some (self, y).

Definition Console_MoveCursor_Locked (self : Console) (mode : CursorMovement) (dx dy : Z) : option Console :=
  if (dx =? 0) && (dy =? 0) then Some self
  else
    let eX := r_right (bounds self) - 1 in
    let eY := r_bottom (bounds self) - 1 in
    let x := c_x self + dx in
    let y := c_y self + dy in
    match mode with
    | kCursorMovement_Clamp => Some (set_cursor (Z.max (Z.min x eX) 0) (Z.max (Z.min y eY) 0) self)
    | kCursorMovement_AutoWrap =>
        let '(x, y) := if x <? 0 then (0, y) else if eX <? x then (0, y + 1) else (x, y) in
        r ← scroll_to self y; Some (set_cursor x r.2 r.1)
    | kCursorMovement_AutoScroll => r ← scroll_to self y; Some (set_cursor (Z.max (Z.min x eX) 0) r.2 r.1)
    end.

Definition Console_MoveCursorTo_Locked (self : Console) (x y : Z) : option Console :=
  Console_MoveCursor_Locked self kCursorMovement_Clamp (x - c_x self) (y - c_y self).

Definition Console_SaveCursorState_Locked (self : Console) : Console :=
  set_saved (Saved (c_x self) (c_y self) (backgroundColor (attr self)) (foregroundColor (attr self)) (characterRendition (attr self))) self.

Definition Console_RestoreCursorState_Locked (self : Console) : option Console :=
  let s := savedCursorState self in
  let self := set_attr (set_rendition (s_characterRendition s) (attr self)) self in
  self ← Console_SetForegroundColor_Locked self (s_foregroundColor s);
  self ← Console_SetBackgroundColor_Locked self (s_backgroundColor s);
  Console_MoveCursorTo_Locked self (s_x s) (s_y s).

(** ** Modes *)

Definition plain_rendition : CharacterRendition := Rendition false false false false false false false false.

Definition Console_ResetCharacterAttributes_Locked (self : Console) : option Console :=
  self ← Console_SetForegroundColor_Locked self (Color_MakeIndex 2);
  self ← Console_SetBackgroundColor_Locked self (Color_MakeIndex 0);
  Some (set_attr (set_rendition plain_rendition (attr self)) self).

(** [characterWidth] and [lineHeight] are only used here and for the sprite. *)
Definition Console_ResetState_Locked (mem : bool) (self : Console) : option (errno * Console) :=
  let self := set_attr (set_gl 0 (-1) (set_g [kFont_VT100_US; kFont_VT100_UK; kFont_VT100_UK; kFont_VT100_LDCS] (attr self))) self in
  let s := savedCursorState self in
  let self := Con (video self) (attr self)
    (Rect_Make 0 0 (pixelsWidth (video self) / bbox_width kFont_VT100_US) (pixelsHeight (video self) / bbox_height kFont_VT100_US))
    (c_x self) (c_y self) (TabStops_Deinit (hTabStops self)) (Saved 0 0 (s_backgroundColor s) (s_foregroundColor s) (s_characterRendition s))
    (compatibilityMode self) (flags self) (reportsQueue self) (vtparser self) in
  self ← Console_ResetCharacterAttributes_Locked self;
  t ← TabStops_Init mem (hTabStops self) (Z.max (Rect_GetWidth (bounds self) / 8) 0) 8;
  let self := set_tabs t.2 self in
  if is_ok t.1 then
    self ← Console_MoveCursorTo_Locked self 0 0;
    Some (EOK, set_flags (Flags true false true true) self)
  else Some (t.1, self).

Definition Console_SetCompatibilityMode_Locked (self : Console) (mode : CompatibilityMode) : Console :=
  let f := flags self in
  let self := match mode with
    | kCompatibilityMode_VT100 => self
    | _ => set_flags (Flags false false (isTextCursorBlinkerEnabled f) (isTextCursorVisible f)) self
    end in
  let vtmode := match mode with
    | kCompatibilityMode_VT52 => VTPARSER_MODE_VT52
    | kCompatibilityMode_VT52_AtariExtensions => VTPARSER_MODE_VT52_ATARI
    | kCompatibilityMode_VT100 => VTPARSER_MODE_VT100
    end in
  let self := set_parser mode (vtparser_set_mode (vtparser self) vtmode) self in
  set_attr (set_gl 0 (gl_ss23 (attr self)) (attr self)) self.

(** ** Reports *)

Definition MAX_MESSAGE_LENGTH : Z := 16.

(** Removes bytes up to the end of the oldest message.  If there is none, the loop of
    the source does not end. *)
Fixpoint drop_report (fuel : nat) (q : cbuf) : option cbuf :=
  match fuel with
  | O => None
  | S fuel => let '(n, b, q') := cbuf_get q in if n =? 0 then None else if b =? 0 then Some q' else drop_report fuel q'
  end.

Fixpoint make_room (fuel : nat) (n : Z) (q : cbuf) : option cbuf :=
  if cbuf_writable q <? n then
    match fuel with
    | O => None
    | S fuel => q ← drop_report (Z.to_nat (capacity q)) q; make_room fuel n q
    end
  else Some q.

(** [msg] is the text of the report without the NUL. *)
Definition Console_PostReport_Locked (self : Console) (msg : list Z) : option Console :=
  let n := Z.of_nat (length msg) + 1 in
  if n <? MAX_MESSAGE_LENGTH + 1 then
    q ← make_room (Z.to_nat (capacity (reportsQueue self))) n (reportsQueue self);
    Some (set_reports (cbuf_puts q (msg ++ [0])).2 self)
  else None.

(** ** Characters and editing *)

Definition Console_PrintByte_Locked (self : Console) (ch : Z) : option Console :=
  self ← (if isInsertionMode (flags self)
          then Console_CopyRect_Locked self (Rect_Make (c_x self) (c_y self) (r_right (bounds self) - 1) (c_y self + 1)) (c_x self + 1) (c_y self)
          else Some self);
  self ← Console_DrawChar_Locked self ch (c_x self) (c_y self);
  Console_MoveCursor_Locked self (if isAutoWrapEnabled (flags self) then kCursorMovement_AutoWrap else kCursorMovement_Clamp) 1 0.

Definition Console_Execute_HT_Locked (self : Console) : option Console :=
  x ← TabStops_GetNextStop (hTabStops self) (c_x self) (Rect_GetWidth (bounds self));
  Console_MoveCursorTo_Locked self x (c_y self).

Definition Console_Execute_LF_Locked (self : Console) : option Console :=
  Console_MoveCursor_Locked self kCursorMovement_AutoScroll (- c_x self) 1.

(** The last cell of the line of the cursor. *)
Definition clear_last (self : Console) (n : Z) : option Console :=
  Console_FillRect_Locked self (Rect_Make (r_right (bounds self) - n) (c_y self) (r_right (bounds self)) (c_y self + 1)) 32.

Definition Console_Execute_BS_Locked (self : Console) : option Console :=
  if 0 <? c_x self then
    self ← (if isInsertionMode (flags self) then
              self ← Console_CopyRect_Locked self (Rect_Make (c_x self) (c_y self) (r_right (bounds self)) (c_y self + 1)) (c_x self - 1) (c_y self);
              clear_last self 1
            else Some self);
    Console_MoveCursor_Locked self kCursorMovement_Clamp (-1) 0
  else Some self.

Definition Console_Execute_DEL_Locked (self : Console) : option Console :=
  if c_x self <? r_right (bounds self) - 1 then
    self ← Console_CopyRect_Locked self (Rect_Make (c_x self + 1) (c_y self) (r_right (bounds self)) (c_y self + 1)) (c_x self) (c_y self);
    clear_last self 1
  else Some self.

Definition Console_Execute_DCH_Locked (self : Console) (nChars : Z) : option Console :=
  self ← Console_CopyRect_Locked self (Rect_Make (c_x self + nChars) (c_y self) (r_right (bounds self) - nChars) (c_y self + 1)) (c_x self) (c_y self);
  clear_last self nChars.

Definition Console_Execute_IL_Locked (self : Console) (nLines : Z) : option Console :=
  let b := bounds self in
  if c_y self <? r_bottom b then
    self ← Console_CopyRect_Locked self (Rect_Make 0 (c_y self + 1) (r_right b) (r_bottom b - nLines)) (c_x self) (c_y self + 2);
    Console_FillRect_Locked self (Rect_Make 0 (c_y self + 1) (r_right b) (c_y self + 1 + nLines)) 32
  else Some self.

Definition Console_Execute_DL_Locked (self : Console) (nLines : Z) : option Console :=
  let b := bounds self in
  self ← Console_CopyRect_Locked self (Rect_Make 0 (c_y self + 1) (r_right b) (r_bottom b - nLines)) (c_x self) (c_y self);
  Console_FillRect_Locked self (Rect_Make 0 (r_bottom b - nLines) (r_right b) (r_bottom b)) 32.
