(* ===== verification/ConsoleVideo.v ===== *)
(** * Drawing on the frame buffer

    What the drawing functions of Console.v do to the bytes of the planes, by
    character column and pixel row. *)

From Stdlib Require Import ZifyBool.
From S2P Require Import Prelude VtParse ConsoleFonts TabStops Console.

(** ** Bytes of a plane *)

Notation "pl @ i" := (pl !! Z.to_nat i) (at level 20, only parsing).

Lemma mem_move_some pl d s w :
  0 <= w -> (w <> 0 -> 0 <= d /\ d + w <= Z.of_nat (length pl) /\ 0 <= s /\ s + w <= Z.of_nat (length pl)) ->
  exists pl', mem_move pl d s w = Some pl' /\ length pl' = length pl /\
    forall i, 0 <= i -> pl' @ i = if (d <=? i) && (i <? d + w) then pl @ (s + (i - d)) else pl @ i.
Proof.
  intros Hw Hb. unfold mem_move. destruct (Z.eqb_spec w 0) as [->|Hw0].
  { exists pl. split_and!; [done..|]. intros i Hi. by replace ((d <=? i) && (i <? d + 0)) with false by lia. }
  specialize (Hb Hw0). destruct Hb as (Hd & Hdw & Hs & Hsw).
  replace ((0 <=? d) && (d + w <=? Z.of_nat (length pl)) && (0 <=? s) && (s + w <=? Z.of_nat (length pl))) with true by lia.
  eexists. split; [done|]. split.
  { rewrite !length_app, !length_take, !length_drop. lia. }
  intros i Hi. destruct (decide (i < d)).
  { rewrite lookup_app_l by (rewrite length_take; lia). rewrite lookup_take_lt by lia. by replace ((d <=? i) && (i <? d + w)) with false by lia. }
  rewrite lookup_app_r by (rewrite length_take; lia). rewrite length_take. destruct (decide (i < d + w)).
  - rewrite lookup_app_l by (rewrite length_take, length_drop; lia). rewrite lookup_take_lt, lookup_drop by lia.
    replace ((d <=? i) && (i <? d + w)) with true by lia. f_equal. lia.
  - rewrite lookup_app_r by (rewrite length_take, length_drop; lia). rewrite length_take, length_drop, lookup_drop.
    replace ((d <=? i) && (i <? d + w)) with false by lia. f_equal. lia.
Qed.

Lemma mem_set_some pl d b w :
  0 <= w -> (w <> 0 -> 0 <= d /\ d + w <= Z.of_nat (length pl)) ->
  exists pl', mem_set pl d b w = Some pl' /\ length pl' = length pl /\
    forall i, 0 <= i -> pl' @ i = if (d <=? i) && (i <? d + w) then Some b else pl @ i.
Proof.
  intros Hw Hb. unfold mem_set. destruct (Z.eqb_spec w 0) as [->|Hw0].
  { exists pl. split_and!; [done..|]. intros i Hi. by replace ((d <=? i) && (i <? d + 0)) with false by lia. }
  specialize (Hb Hw0). destruct Hb as (Hd & Hdw). replace ((0 <=? d) && (d + w <=? Z.of_nat (length pl))) with true by lia.
  eexists. split; [done|]. split.
  { rewrite !length_app, !length_take, length_replicate, !length_drop. lia. }
  intros i Hi. destruct (decide (i < d)).
  { rewrite lookup_app_l by (rewrite length_take; lia). rewrite lookup_take_lt by lia. by replace ((d <=? i) && (i <? d + w)) with false by lia. }
  rewrite lookup_app_r by (rewrite length_take; lia). rewrite length_take. destruct (decide (i < d + w)).
  - rewrite lookup_app_l by (rewrite length_replicate; lia). rewrite lookup_replicate_2 by lia.
    by replace ((d <=? i) && (i <? d + w)) with true by lia.
  - rewrite lookup_app_r by (rewrite length_replicate; lia). rewrite length_replicate, lookup_drop.
    replace ((d <=? i) && (i <? d + w)) with false by lia. f_equal. lia.
Qed.

(** ** Rows and columns *)

(** The byte of a plane in pixel row [yy] and character column [cx]. *)
Definition px (n : Z) (pl : list Z) (cx yy : Z) : option Z := pl @ (yy * n + cx).

Lemma in_row n yy cx dy dl w :
  0 <= cx < n -> 0 <= dl -> dl + w <= n -> ((dy * n + dl <=? yy * n + cx) && (yy * n + cx <? dy * n + dl + w)) = ((yy =? dy) && (dl <=? cx) && (cx <? dl + w)).
Proof.
  intros Hc Hl Hw. destruct (Z.eqb_spec yy dy) as [->|Hy]; [cbn [andb]; lia|]. cbn [andb].
  destruct (decide (yy < dy)); [assert (yy * n + n <= dy * n) by nia; lia|assert (dy * n + n <= yy * n) by nia; lia].
Qed.

Lemma row_fits n h yy cl w : 0 <= yy < h -> 0 <= cl -> 0 <= w -> cl + w <= n -> 0 <= yy * n + cl /\ yy * n + cl + w <= n * h.
Proof. intros. nia. Qed.

Lemma fill_rows_spec m n h l w b top pl :
  0 <= l -> 0 <= w -> l + w <= n -> 0 <= top -> top + Z.of_nat m <= h -> Z.of_nat (length pl) = n * h ->
  exists pl', fill_rows m n (top * n + l) b w pl = Some pl' /\ length pl' = length pl /\
    forall cx yy, 0 <= cx < n -> 0 <= yy ->
      px n pl' cx yy = if (top <=? yy) && (yy <? top + Z.of_nat m) && (l <=? cx) && (cx <? l + w) then Some b else px n pl cx yy.
Proof.
  intros Hl Hw Hlw Ht Hm Hlen. revert top pl Ht Hm Hlen. induction m as [|m IH]; intros top pl Ht Hm Hlen; cbn [fill_rows].
  { exists pl. split_and!; [done..|]. intros cx yy Hc Hy. by replace ((top <=? yy) && (yy <? top + Z.of_nat 0) && (l <=? cx) && (cx <? l + w)) with false by lia. }
  destruct (mem_set_some pl (top * n + l) b w Hw) as (p1 & E1 & L1 & G1).
  { intros _. pose proof (row_fits n h top l w ltac:(lia) Hl Hw Hlw). lia. }
  rewrite (bind_some E1). replace (top * n + l + n) with ((top + 1) * n + l) by lia.
  destruct (IH (top + 1) p1) as (p2 & E2 & L2 & G2); [lia..|]. exists p2. split_and!; [done|congruence|].
  intros cx yy Hc Hy. rewrite G2 by done. unfold px at 1. rewrite G1 by nia. rewrite in_row by done.
  destruct (Z.eqb_spec yy top) as [->|]; cbn [andb].
  - replace ((top + 1 <=? top) && (top <? top + 1 + Z.of_nat m)) with false by lia. replace ((top <=? top) && (top <? top + Z.of_nat (S m))) with true by lia.
    cbn [andb]. done.
  - replace ((top <=? yy) && (yy <? top + Z.of_nat (S m))) with ((top + 1 <=? yy) && (yy <? top + 1 + Z.of_nat m)) by lia.
    done.
Qed.

(** The columns that a row of [copy_rows] moves. *)
Definition copy_from (xo : Z) (src dst : Rect) : Z := Z.shiftr (Z.max (r_left dst - xo) (r_left src)) 3.
Definition copy_width (xo : Z) (src dst : Rect) : Z :=
  Z.min (Z.shiftr (Z.min (r_right dst - xo) (r_right src) - Z.max (r_left dst - xo) (r_left src)) 3) (Z.shiftr (r_right dst - r_left dst) 3).

Lemma copy_rows_spec m n h xo yo src dst y0 pl :
  let sl := copy_from xo src dst in let w := copy_width xo src dst in let dl := Z.shiftr (r_left dst) 3 in
  0 <= w < 2 ^ 32 -> 0 <= dl -> dl + w <= n -> 0 <= sl -> sl + w <= n -> 0 <= y0 -> y0 + Z.of_nat m <= h ->
  0 <= r_top src -> r_bottom src <= h -> Z.of_nat (length pl) = n * h ->
  exists pl', copy_rows m n xo yo src dst y0 pl = Some pl' /\ length pl' = length pl /\
    (yo <= 0 -> forall cx yy, 0 <= cx < n -> 0 <= yy ->
      px n pl' cx yy = if (y0 <=? yy) && (yy <? y0 + Z.of_nat m) && (r_top src <=? yy - yo) && (yy - yo <? r_bottom src) && (dl <=? cx) && (cx <? dl + w)
                       then px n pl (sl + (cx - dl)) (yy - yo) else px n pl cx yy).
Proof.
  intros sl w dl Hw Hdl Hdw Hsl Hsw Hy0 Hm Ht Hb Hlen. revert y0 pl Hy0 Hm Hlen. induction m as [|m IH]; intros y0 pl Hy0 Hm Hlen; cbn [copy_rows].
  { exists pl. split_and!; [done..|]. intros _ cx yy Hc Hy.
    by replace ((y0 <=? yy) && (yy <? y0 + Z.of_nat 0) && (r_top src <=? yy - yo) && (yy - yo <? r_bottom src) && (dl <=? cx) && (cx <? dl + w)) with false by lia. }
  assert (Hrow : exists p1, (if (y0 - yo <? r_top src) || (r_bottom src <=? y0 - yo) then Some pl
      else mem_move pl (y0 * n + dl) ((y0 - yo) * n + sl) (u32 w)) = Some p1 /\ length p1 = length pl /\
      forall cx yy, 0 <= cx < n -> 0 <= yy -> px n p1 cx yy =
        if (yy =? y0) && (r_top src <=? y0 - yo) && (y0 - yo <? r_bottom src) && (dl <=? cx) && (cx <? dl + w) then px n pl (sl + (cx - dl)) (y0 - yo) else px n pl cx yy).
  { destruct ((y0 - yo <? r_top src) || (r_bottom src <=? y0 - yo)) eqn:Er.
    { exists pl. split_and!; [done..|]. intros cx yy _ _. by replace ((yy =? y0) && (r_top src <=? y0 - yo) && (y0 - yo <? r_bottom src) && (dl <=? cx) && (cx <? dl + w)) with false by lia. }
    rewrite u32_small by lia. destruct (mem_move_some pl (y0 * n + dl) ((y0 - yo) * n + sl) w) as (p1 & E1 & L1 & G1); [lia| |].
    { intros _. pose proof (row_fits n h y0 dl w ltac:(lia) Hdl ltac:(lia) Hdw). pose proof (row_fits n h (y0 - yo) sl w ltac:(lia) Hsl ltac:(lia) Hsw). lia. }
    exists p1. split_and!; [done..|]. intros cx yy Hc Hy. unfold px at 1. rewrite G1 by nia. rewrite in_row by done.
    destruct (Z.eqb_spec yy y0) as [->|]; cbn [andb]; [|done].
    replace ((r_top src <=? y0 - yo) && (y0 - yo <? r_bottom src)) with true by lia. cbn [andb]. destruct ((dl <=? cx) && (cx <? dl + w)); [|done]. unfold px. f_equal. f_equal. lia. }
  destruct Hrow as (p1 & E1 & L1 & G1). rewrite (bind_some E1). destruct (IH (y0 + 1) p1) as (p2 & E2 & L2 & G2); [lia..|].
  exists p2. split_and!; [done|congruence|]. intros Hyo cx yy Hc Hy. rewrite G2 by done.
  destruct ((y0 + 1 <=? yy) && (yy <? y0 + 1 + Z.of_nat m) && (r_top src <=? yy - yo) && (yy - yo <? r_bottom src) && (dl <=? cx) && (cx <? dl + w)) eqn:Ein.
  - rewrite G1 by lia. replace (yy - yo =? y0) with false by lia. cbn [andb].
    by replace ((y0 <=? yy) && (yy <? y0 + Z.of_nat (S m)) && (r_top src <=? yy - yo) && (yy - yo <? r_bottom src) && (dl <=? cx) && (cx <? dl + w)) with true by lia.
  - rewrite G1 by done. destruct (Z.eqb_spec yy y0) as [->|]; cbn [andb].
    + by replace ((y0 <=? y0) && (y0 <? y0 + Z.of_nat (S m))) with true by lia.
    + by replace ((y0 <=? yy) && (yy <? y0 + Z.of_nat (S m)) && (r_top src <=? yy - yo) && (yy - yo <? r_bottom src) && (dl <=? cx) && (cx <? dl + w)) with false by lia.
Qed.

(** ** The planes *)

Record video_ok (v : Video) : Prop := {
  vo_width : 0 <= pixelsWidth v;
  vo_height : 0 <= pixelsHeight v;
  vo_row : pixelsWidth v / 8 <= bytesPerRow v < 2 ^ 32;
  vo_planes : Forall (fun pl => Z.of_nat (length pl) = bytesPerRow v * pixelsHeight v) (plane v) }.

(** The byte of plane [p] in pixel row [yy] and character column [cx]. *)
Definition byte_at (v : Video) (p : nat) (cx yy : Z) : option Z := pl ← plane v !! p; px (bytesPerRow v) pl cx yy.

(** The same frame buffer with other bytes. *)
Definition same_shape (v v' : Video) : Prop :=
  bytesPerRow v' = bytesPerRow v /\ pixelsWidth v' = pixelsWidth v /\ pixelsHeight v' = pixelsHeight v /\ length (plane v') = length (plane v).

Lemma same_shape_refl v : same_shape v v.
Proof. done. Qed.
Lemma same_shape_trans v1 v2 v3 : same_shape v1 v2 -> same_shape v2 v3 -> same_shape v1 v3.
Proof. intros (? & ? & ? & ?) (? & ? & ? & ?). repeat split; congruence. Qed.

Lemma each_plane_spec f (Q : nat -> list Z -> list Z -> Prop) l p0 :
  (forall p pl, l !! p = Some pl -> exists pl', f (p0 + p)%nat pl = Some pl' /\ Q (p0 + p)%nat pl pl') ->
  exists l', each_plane f p0 l = Some l' /\ length l' = length l /\
    forall p pl, l !! p = Some pl -> exists pl', l' !! p = Some pl' /\ Q (p0 + p)%nat pl pl'.
Proof.
  revert p0. induction l as [|pl l IH]; intros p0 Hf; cbn [each_plane]; [by exists []|].
  destruct (Hf O pl eq_refl) as (pl' & E & HQ). rewrite Nat.add_0_r in E, HQ. rewrite (bind_some E).
  destruct (IH (S p0)) as (l' & E' & Hl & HQ').
  { intros p q Hq. destruct (Hf (S p) q Hq) as (q' & ? & ?). exists q'. by replace (S p0 + p)%nat with (p0 + S p)%nat by lia. }
  rewrite (bind_some E'). exists (pl' :: l'). split_and!; [done|by cbn; rewrite Hl|]. intros [|p] q Hq; cbn in *.
  - simplify_eq. exists pl'. by rewrite Nat.add_0_r.
  - destruct (HQ' p q Hq) as (q' & ? & ?). exists q'. by replace (p0 + S p)%nat with (S p0 + p)%nat by lia.
Qed.

Lemma map_planes_spec v f (Q : nat -> list Z -> list Z -> Prop) :
  video_ok v -> (forall p pl, plane v !! p = Some pl -> exists pl', f p pl = Some pl' /\ length pl' = length pl /\ Q p pl pl') ->
  exists v', map_planes f v = Some v' /\ video_ok v' /\ same_shape v v' /\
    forall p pl, plane v !! p = Some pl -> exists pl', plane v' !! p = Some pl' /\ Q p pl pl'.
Proof.
  intros Hv Hf. destruct (each_plane_spec f (fun p pl pl' => length pl' = length pl /\ Q p pl pl') (plane v) 0 Hf) as (l & E & Hl & HQ).
  unfold map_planes. rewrite (bind_some E). eexists. split; [done|]. destruct Hv as [H1 H2 H3 H4]. split_and!.
  - split; [done..|]. cbn. apply Forall_lookup_2. intros p pl' Hp. apply lookup_lt_Some in Hp as Hlt. rewrite Hl in Hlt.
    destruct (lookup_lt_is_Some_2 _ _ Hlt) as [pl Hpl]. destruct (HQ p pl Hpl) as (q & Hq & Hlen & _). cbn in Hq. simplify_eq.
    rewrite Hlen. by apply (Forall_lookup_1 _ _ _ _ H4 Hpl).
  - repeat split; done.
  - intros p pl Hp. destruct (HQ p pl Hp) as (q & ? & _ & ?). by exists q.
Qed.

(** ** The screen of a console *)

(** The bounds are the character cells that fit. *)
Record screen_ok (self : Console) : Prop := {
  so_video : video_ok (video self);
  so_bounds : bounds self = Rect_Make 0 0 (pixelsWidth (video self) / 8) (pixelsHeight (video self) / 8);
  so_size : 0 < pixelsWidth (video self) / 8 /\ 0 < pixelsHeight (video self) / 8 }.

Lemma set_video_id self : set_video (video self) self = self.
Proof. by destruct self. Qed.

Lemma screen_ok_video self v : screen_ok self -> video_ok v -> same_shape (video self) v -> screen_ok (set_video v self).
Proof. intros [H1 H2 H3] Hv (Hb & Hw & Hh & _). split; [done|cbn; by rewrite Hw, Hh|cbn; by rewrite Hw, Hh]. Qed.

Lemma shiftr_8 a : Z.shiftr (a * 8) 3 = a.
Proof. rewrite Z.shiftr_div_pow2 by lia. change (2 ^ 3) with 8. by rewrite Z.div_mul. Qed.

Lemma height_fits self b : screen_ok self -> b <= pixelsHeight (video self) / 8 -> b * 8 <= pixelsHeight (video self).
Proof. intros [Hv _ _] Hb. destruct Hv. pose proof (Z.div_mod (pixelsHeight (video self)) 8 ltac:(lia)). pose proof (Z.mod_pos_bound (pixelsHeight (video self)) 8 ltac:(lia)). lia. Qed.

(** [v'] is a correct frame buffer of the shape of [v] with the bytes [F]. *)
Definition paints (v v' : Video) (F : nat -> Z -> Z -> option Z) : Prop :=
  video_ok v' /\ same_shape v v' /\
  forall p cx yy, (p < length (plane v))%nat -> 0 <= cx < bytesPerRow v -> 0 <= yy -> byte_at v' p cx yy = F p cx yy.

Lemma paints_refl v : video_ok v -> paints v v (byte_at v).
Proof. intros Hv. by split_and!. Qed.

Lemma map_planes_paints v f F :
  video_ok v ->
  (forall p pl, plane v !! p = Some pl -> exists pl', f p pl = Some pl' /\ length pl' = length pl /\
     forall cx yy, 0 <= cx < bytesPerRow v -> 0 <= yy -> px (bytesPerRow v) pl' cx yy = F p cx yy) ->
  exists v', map_planes f v = Some v' /\ paints v v' F.
Proof.
  intros Hv Hf. destruct (map_planes_spec v f _ Hv Hf) as (v' & E & Hv' & Hsh & HQ). exists v'. split; [done|]. split_and!; [done..|].
  intros p cx yy Hp Hcx Hyy. destruct (lookup_lt_is_Some_2 _ _ Hp) as [pl Hpl]. destruct (HQ p pl Hpl) as (pl' & Hpl' & G).
  unfold byte_at. rewrite Hpl'. cbn. destruct Hsh as (-> & _). by apply G.
Qed.

Lemma byte_at_plane v p pl cx yy : plane v !! p = Some pl -> byte_at v p cx yy = px (bytesPerRow v) pl cx yy.
Proof. intros H. unfold byte_at. by rewrite H. Qed.

Definition in_cells (r : Rect) (cx yy : Z) : bool := (r_left r <=? cx) && (cx <? r_right r) && (r_top r * 8 <=? yy) && (yy <? r_bottom r * 8).

(** The byte of an empty cell. *)
Definition blank (bg : Z) (p : nat) : Z := if Z.testbit bg (Z.of_nat p) then 255 else 0.

Lemma fill_rect_spec self rect fg bg :
  screen_ok self -> draw_colors (attr self) = Some (fg, bg) ->
  let r := Rect_Intersection rect (bounds self) in r_left r <= r_right r ->
  exists v', Console_FillRect_Locked self rect 32 = Some (set_video v' self) /\
    paints (video self) v' (fun p cx yy => if in_cells r cx yy then Some (blank bg p) else byte_at (video self) p cx yy).
Proof.
  intros Hok Hc r Hr. pose proof Hok as [Hv Hb Hs]. unfold Console_FillRect_Locked. cbn [Z.ltb Z.eqb Pos.eqb orb Z.compare Pos.compare Pos.compare_cont].
  rewrite (bind_some Hc). fold r. cbn [fst snd]. assert (Hin : 0 <= r_left r /\ r_right r <= pixelsWidth (video self) / 8 /\ 0 <= r_top r /\ r_bottom r <= pixelsHeight (video self) / 8).
  { subst r. unfold Rect_Intersection. rewrite Hb. cbn. lia. }
  destruct Hin as (H1 & H2 & H3 & H4). pose proof (height_fits self _ Hok H4) as H5. pose proof (vo_row _ Hv) as H6.
  set (n := Z.to_nat (r_bottom (rect_pixels r) - r_top (rect_pixels r))).
  match goal with |- context [map_planes ?f _] =>
    destruct (map_planes_paints (video self) f (fun p cx yy => if in_cells r cx yy then Some (blank bg p) else byte_at (video self) p cx yy) Hv) as (v' & E & HF) end.
  { intros p pl Hpl. pose proof (Forall_lookup_1 _ _ _ _ (vo_planes _ Hv) Hpl) as Hlen. cbn in Hlen. cbn [rect_pixels r_left r_top r_right r_bottom].
    rewrite shiftr_8. replace (r_right r * 8 - r_left r * 8) with ((r_right r - r_left r) * 8) by lia. rewrite shiftr_8, u32_small by lia.
    destruct (decide (r_bottom r <= r_top r)) as [Hno|Hrows].
    { exists pl. subst n. cbn [rect_pixels r_bottom r_top]. replace (Z.to_nat (r_bottom r * 8 - r_top r * 8)) with O by lia. split_and!; [done..|].
      intros cx yy _ _. rewrite (byte_at_plane _ _ pl) by done. by replace (in_cells r cx yy) with false by (unfold in_cells; lia). }
    destruct (fill_rows_spec n (bytesPerRow (video self)) (pixelsHeight (video self)) (r_left r) (r_right r - r_left r) (blank bg p) (r_top r * 8) pl) as (pl' & E & Hl & G);
      [lia|lia|lia|lia|subst n; cbn [rect_pixels r_bottom r_top]; lia|done|].
    exists pl'. split_and!; [done..|]. intros cx yy Hcx Hyy. rewrite G, (byte_at_plane _ _ pl) by done. subst n. cbn [rect_pixels r_bottom r_top].
    match goal with |- (if ?a then _ else _) = _ => replace a with (in_cells r cx yy) by (unfold in_cells; lia) end. done. }
  rewrite (bind_some E). by exists v'.
Qed.

(** The region that a copy writes: cells from column [dx] on in [w] columns, in rows
    whose source is inside of the source rectangle. *)
Lemma copy_rect_spec self l t r b dx dy :
  screen_ok self -> let R := pixelsWidth (video self) / 8 in let B := pixelsHeight (video self) / 8 in
  0 <= l <= r -> r <= R -> 0 <= t -> 0 <= dx <= R -> 0 <= dy ->
  let w := Z.min (r - l) (R - dx) in
  exists v', Console_CopyRect_Locked self (Rect_Make l t r b) dx dy = Some (set_video v' self) /\ video_ok v' /\ same_shape (video self) v' /\
    (dy <= t -> paints (video self) v' (fun p cx yy =>
       if in_cells (Rect_Make dx dy (dx + w) (Z.min (Z.min b B + dy - t) B)) cx yy then byte_at (video self) p (l + (cx - dx)) (yy + (t - dy) * 8)
       else byte_at (video self) p cx yy)).
Proof.
  intros Hok R B Hlr HrR Ht Hdx Hdy w. pose proof Hok as [Hv Hb Hs]. fold R B in Hb, Hs. unfold Console_CopyRect_Locked. rewrite Hb.
  unfold Rect_Intersection, Rect_GetWidth, Rect_GetHeight. cbn [r_left r_top r_right r_bottom]. rewrite !Z.max_l by lia.
  rewrite (Z.min_l r R) by lia. set (dr := Z.min (dx + (r - l)) R). set (db := Z.min (dy + (b - t)) B).
  destruct ((r - l =? 0) || (Z.min b B - t =? 0) || (dr - dx =? 0) || ((dx - l =? 0) && (dy - t =? 0))) eqn:Eret.
  { exists (video self). rewrite set_video_id. split_and!; [done..|]. intros Hdt. split_and!; [done..|]. intros p cx yy Hp Hcx Hyy.
    destruct (in_cells _ cx yy) eqn:Ein; [|done]. unfold in_cells in Ein. cbn [r_left r_top r_right r_bottom] in Ein.
    assert (dx = l /\ dy = t) as [-> ->] by lia. f_equal; lia. }
  set (src := rect_pixels (Rect_Make l t r (Z.min b B))). set (dst := rect_pixels (Rect_Make dx dy dr db)).
  assert (Ef : copy_from ((dx - l) * 8) src dst = l).
  { unfold copy_from. unfold src, dst, rect_pixels; cbn [r_left]. rewrite Z.max_r by lia. apply shiftr_8. }
  assert (Ew : copy_width ((dx - l) * 8) src dst = w).
  { unfold copy_width. unfold src, dst, rect_pixels; cbn [r_left r_right]. rewrite (Z.max_r (dx * 8 - (dx - l) * 8)) by lia.
    replace (Z.min (dr * 8 - (dx - l) * 8) (r * 8) - l * 8) with ((Z.min (dr - dx + l) r - l) * 8) by lia.
    replace (dr * 8 - dx * 8) with ((dr - dx) * 8) by lia. rewrite !shiftr_8. lia. }
  assert (Hrows : forall p pl, plane (video self) !! p = Some pl -> exists pl',
    copy_rows (Z.to_nat (db * 8 - dy * 8)) (bytesPerRow (video self)) ((dx - l) * 8) ((dy - t) * 8) src dst (dy * 8) pl = Some pl' /\ length pl' = length pl /\
    (dy <= t -> forall cx yy, 0 <= cx < bytesPerRow (video self) -> 0 <= yy -> px (bytesPerRow (video self)) pl' cx yy =
       if in_cells (Rect_Make dx dy (dx + w) (Z.min (Z.min b B + dy - t) B)) cx yy then byte_at (video self) p (l + (cx - dx)) (yy + (t - dy) * 8)
       else byte_at (video self) p cx yy)).
  { intros p pl Hpl. pose proof (Forall_lookup_1 _ _ _ _ (vo_planes _ Hv) Hpl) as Hlen. cbn in Hlen. pose proof (vo_row _ Hv) as Hrow.
    destruct (decide (db <= dy)) as [Hno|Hyes].
    { exists pl. replace (Z.to_nat (db * 8 - dy * 8)) with O by lia. split_and!; [done..|]. intros Hdt cx yy _ _.
      rewrite !(byte_at_plane _ _ pl) by done. by replace (in_cells _ cx yy) with false by (unfold in_cells; cbn; lia). }
    pose proof (height_fits self db Hok ltac:(lia)). pose proof (height_fits self (Z.min b B) Hok ltac:(lia)).
    destruct (copy_rows_spec (Z.to_nat (db * 8 - dy * 8)) (bytesPerRow (video self)) (pixelsHeight (video self)) ((dx - l) * 8) ((dy - t) * 8) src dst (dy * 8) pl) as (pl' & E & Hl & G);
      rewrite ?Ef, ?Ew; unfold src, dst, rect_pixels; cbn [r_left r_top r_right r_bottom]; rewrite ?shiftr_8; try lia.
    exists pl'. split_and!; [done..|]. intros Hdt cx yy Hcx Hyy. rewrite G by lia. rewrite Ef, Ew, !(byte_at_plane _ _ pl) by done.
    unfold src, dst, rect_pixels; cbn [r_left r_top r_right r_bottom]. rewrite ?shiftr_8. replace (yy - (dy - t) * 8) with (yy + (t - dy) * 8) by lia.
    match goal with |- (if ?a then _ else _) = (if ?c then _ else _) => replace a with c by (unfold in_cells; cbn; lia) end. done. }
  change (r_bottom dst - r_top dst) with (db * 8 - dy * 8). change (r_top dst) with (dy * 8).
  destruct (map_planes_spec (video self) (fun _ => copy_rows (Z.to_nat (db * 8 - dy * 8)) (bytesPerRow (video self)) ((dx - l) * 8) ((dy - t) * 8) src dst (dy * 8))
    _ Hv Hrows) as (v' & E & Hv' & Hsh & HQ).
  rewrite (bind_some E). exists v'. split_and!; [done..|]. intros Hdt. split_and!; [done..|]. intros p cx yy Hp Hcx Hyy.
  destruct (lookup_lt_is_Some_2 _ _ Hp) as [pl Hpl]. destruct (HQ p pl Hpl) as (pl' & Hpl' & G).
  rewrite (byte_at_plane _ _ _ _ _ Hpl'). destruct Hsh as (-> & _). by apply G.
Qed.

Lemma put_column_spec n h bs xc y0 pl :
  0 <= xc < n -> 0 <= y0 -> y0 + Z.of_nat (length bs) <= h -> Z.of_nat (length pl) = n * h ->
  exists pl', put_column pl (y0 * n + xc) n bs = Some pl' /\ length pl' = length pl /\
    forall cx yy, 0 <= cx < n -> 0 <= yy ->
      px n pl' cx yy = if (cx =? xc) && (y0 <=? yy) && (yy <? y0 + Z.of_nat (length bs)) then bs @ (yy - y0) else px n pl cx yy.
Proof.
  intros Hx. revert y0 pl. induction bs as [|b bs IH]; intros y0 pl Hy Hh Hlen; cbn [put_column length] in *.
  { exists pl. split_and!; [done..|]. intros cx yy _ _. by replace ((cx =? xc) && (y0 <=? yy) && (yy <? y0 + Z.of_nat 0)) with false by lia. }
  pose proof (row_fits n h y0 xc 1 ltac:(lia) ltac:(lia) ltac:(lia) ltac:(lia)) as Hf.
  replace ((0 <=? y0 * n + xc) && (y0 * n + xc <? Z.of_nat (length pl))) with true by lia. replace (y0 * n + xc + n) with ((y0 + 1) * n + xc) by lia.
  destruct (IH (y0 + 1) (<[Z.to_nat (y0 * n + xc) := b]> pl)) as (pl' & E & Hl & G); [lia|lia|by rewrite length_insert|].
  exists pl'. split_and!; [done|by rewrite Hl, length_insert|]. intros cx yy Hcx Hyy. rewrite G by done. unfold px at 1.
  pose proof (in_row n yy cx y0 xc 1 Hcx ltac:(lia) ltac:(lia)) as Hin. destruct (decide (yy = y0 /\ cx = xc)) as [[-> ->]|Hne].
  - replace ((xc =? xc) && (y0 + 1 <=? y0) && (y0 <? y0 + 1 + Z.of_nat (length bs))) with false by lia.
    replace ((xc =? xc) && (y0 <=? y0) && (y0 <? y0 + Z.of_nat (S (length bs)))) with true by lia. rewrite list_lookup_insert_eq by lia.
    by rewrite Z.sub_diag.
  - rewrite list_lookup_insert_ne by nia. fold (px n pl cx yy).
    destruct ((cx =? xc) && (y0 + 1 <=? yy) && (yy <? y0 + 1 + Z.of_nat (length bs))) eqn:Ein.
    + replace ((cx =? xc) && (y0 <=? yy) && (yy <? y0 + Z.of_nat (S (length bs)))) with true by lia.
      by replace (Z.to_nat (yy - y0)) with (S (Z.to_nat (yy - (y0 + 1)))) by lia.
    + by replace ((cx =? xc) && (y0 <=? yy) && (yy <? y0 + Z.of_nat (S (length bs)))) with false by lia.
Qed.

(** The bytes of a glyph in the colours of the text, row by row. *)
Definition glyph_cell (fg bg : Z) (gp : list Z) (p : nat) : list Z :=
  glyph_byte (Z.testbit fg (Z.of_nat p)) (Z.testbit bg (Z.of_nat p)) <$> gp.

Lemma glyph_length font ch gp : Font_GetGlyph font ch = Some gp -> length gp = 8%nat.
Proof.
  unfold Font_GetGlyph. intros H. destruct (if 0 <=? ch then _ else _) as [off|]; [|done]. cbn in H. destruct (_ =? 8)%nat eqn:E; [|done].
  simplify_eq. by apply Nat.eqb_eq.
Qed.

Lemma draw_char_spec self ch xc yc fg bg font gp :
  screen_ok self -> 0 <= xc < pixelsWidth (video self) / 8 -> 0 <= yc < pixelsHeight (video self) / 8 ->
  draw_colors (attr self) = Some (fg, bg) -> current_font (attr self) = Some font ->
  Font_GetGlyph font (if isHidden (characterRendition (attr self)) then 32 else ch) = Some gp ->
  exists v', Console_DrawChar_Locked self ch xc yc = Some (set_video v' self) /\
    paints (video self) v' (fun p cx yy => if in_cells (Rect_Make xc yc (xc + 1) (yc + 1)) cx yy then glyph_cell fg bg gp p @ (yy - yc * 8) else byte_at (video self) p cx yy).
Proof.
  intros Hok Hx Hy Hc Hf Hg. pose proof Hok as [Hv _ _]. unfold Console_DrawChar_Locked. rewrite !Z.shiftr_div_pow2 by lia. change (2 ^ 3) with 8.
  replace ((0 <=? xc) && (0 <=? yc) && (xc <? _) && (yc <? _)) with true by lia. rewrite (bind_some Hc), (bind_some Hf). cbn [fst snd].
  unfold Console_DrawGlyph_Locked. rewrite (bind_some Hg). apply glyph_length in Hg as Hl8. pose proof (height_fits self (yc + 1) Hok ltac:(lia)).
  destruct (map_planes_paints (video self) (fun p pl => put_column pl (yc * 8 * bytesPerRow (video self) + xc) (bytesPerRow (video self))
    (glyph_byte (Z.testbit fg (Z.of_nat p)) (Z.testbit bg (Z.of_nat p)) <$> gp))
    (fun p cx yy => if in_cells (Rect_Make xc yc (xc + 1) (yc + 1)) cx yy then glyph_cell fg bg gp p @ (yy - yc * 8) else byte_at (video self) p cx yy) Hv) as (v' & E & HF).
  { intros p pl Hpl. pose proof (Forall_lookup_1 _ _ _ _ (vo_planes _ Hv) Hpl) as Hlen. cbn in Hlen. pose proof (vo_row _ Hv) as Hrow.
    destruct (put_column_spec (bytesPerRow (video self)) (pixelsHeight (video self)) (glyph_cell fg bg gp p) xc (yc * 8) pl) as (pl' & E & Hl & G);
      [lia|lia|unfold glyph_cell; rewrite length_fmap; lia|done|].
    exists pl'. split_and!; [done..|]. intros cx yy Hcx Hyy. rewrite G, (byte_at_plane _ _ pl) by done.
    unfold glyph_cell at 1. rewrite length_fmap, Hl8.
    match goal with |- (if ?a then _ else _) = (if ?c then _ else _) => replace a with c by (unfold in_cells; cbn; lia) end. done. }
  rewrite (bind_some E). by exists v'.
Qed.
