(* ===== verification/ConsoleVt.v ===== *)
(** * Escape sequences of the console (kern/src/console)

    Console_VT100.c and Console_VT52.c, the clients of the two parsers, and the
    write function of Console.c.  A handler runs with the call that the parser
    makes: the action, the character and the parameters at that time.  A parser
    calls back before it stores its new state; the handlers change only the other
    parser, so that running them after the step of the parser is the same.
    [mem] says whether allocations succeed. *)

From Stdlib Require Import ZifyBool.
From S2P Require Import Prelude CBuf VtTables VtParse Numbers ConsoleFonts TabStops Console.

(** ** VT100 *)

Definition has_private_use_char (c : call) (ch : Z) : bool := bool_decide (c_ints c !! 0%nat = Some ch).
Definition get_nth_csi_parameter (c : call) (idx : nat) (defValue : Z) : Z :=
  let val := default 0 (c_params c !! idx) in if 0 <? val then val else defValue.
Definition get_csi_parameter (c : call) (defValue : Z) : Z := get_nth_csi_parameter c 0 defValue.

Definition Console_VT100_Execute_C0_Locked (self : Console) (ch : Z) : option Console :=
  if ch =? 0x05 then Console_PostReport_Locked self []
  else if ch =? 0x08 then Console_Execute_BS_Locked self
  else if ch =? 0x09 then Console_Execute_HT_Locked self
  else if (ch =? 0x0a) || (ch =? 0x0b) || (ch =? 0x0c) then Console_Execute_LF_Locked self
  else if ch =? 0x0d then Console_MoveCursorTo_Locked self 0 (c_y self)
  else if ch =? 0x0e then Some (set_attr (set_gl 1 (gl_ss23 (attr self)) (attr self)) self)
  else if ch =? 0x0f then Some (set_attr (set_gl 0 (gl_ss23 (attr self)) (attr self)) self)
  else Some self.

Definition Console_VT100_CSI_TBC_Locked (self : Console) (op : Z) : option Console :=
  if op =? 0 then t ← TabStops_RemoveStop (hTabStops self) (c_x self); Some (set_tabs t self)
  else if op =? 3 then Some (set_tabs (TabStops_RemoveAllStops (hTabStops self)) self)
  else Some self.

(** The reports: device attributes, status, no printer. *)
Definition report_da : list Z := [27; 91; 63; 54; 99].
Definition report_ok : list Z := [27; 91; 48; 110].
Definition report_no_printer : list Z := [27; 91; 63; 49; 51; 110].

Definition Console_VT100_CSI_c_Locked (self : Console) (c : call) : option Console :=
  if get_nth_csi_parameter c 0 0 =? 0 then Console_PostReport_Locked self report_da else Some self.

(** The loops over the parameters: [f] is one round. *)
Fixpoint each_param (f : Console -> Z -> option Console) (self : Console) (ps : list Z) : option Console :=
  match ps with
  | [] => Some self
  | val :: ps => self ← f self (if 0 <? val then val else 0); each_param f self ps
  end.

Definition set_auto_wrap (b : bool) (self : Console) : Console :=
  let f := flags self in set_flags (Flags b (isInsertionMode f) (isTextCursorBlinkerEnabled f) (isTextCursorVisible f)) self.
Definition set_insertion (b : bool) (self : Console) : Console :=
  let f := flags self in set_flags (Flags (isAutoWrapEnabled f) b (isTextCursorBlinkerEnabled f) (isTextCursorVisible f)) self.
Definition set_visible (b : bool) (self : Console) : Console :=
  let f := flags self in set_flags (Flags (isAutoWrapEnabled f) (isInsertionMode f) (isTextCursorBlinkerEnabled f) b) self.

Definition Console_VT100_CSI_h_Locked (self : Console) (c : call) : option Console :=
  each_param (fun self p =>
    Some (if negb (has_private_use_char c 63) then (if p =? 4 then set_insertion true self else self)
          else if p =? 7 then set_auto_wrap true self
          else if p =? 25 then set_visible true self else self)) self (c_params c).

Definition Console_VT100_CSI_l_Locked (self : Console) (c : call) : option Console :=
  each_param (fun self p =>
    Some (if negb (has_private_use_char c 63) then (if p =? 4 then set_insertion false self else self)
          else if p =? 2 then Console_SetCompatibilityMode_Locked self kCompatibilityMode_VT52
          else if p =? 7 then set_auto_wrap false self
          else if p =? 25 then set_visible false self else self)) self (c_params c).

Definition update_rendition (f : CharacterRendition -> CharacterRendition) (self : Console) : Console :=
  set_attr (set_rendition (f (characterRendition (attr self))) (attr self)) self.

Definition sgr_rendition (p : Z) (r : CharacterRendition) : CharacterRendition :=
  let '(Rendition bo di it un bl re hi st) := r in
  if p =? 1 then Rendition true di it un bl re hi st
  else if p =? 2 then Rendition bo true it un bl re hi st
  else if p =? 3 then Rendition bo di true un bl re hi st
  else if p =? 4 then Rendition bo di it true bl re hi st
  else if p =? 5 then Rendition bo di it un true re hi st
  else if p =? 7 then Rendition bo di it un bl true hi st
  else if p =? 8 then Rendition bo di it un bl re true st
  else if p =? 9 then Rendition bo di it un bl re hi true
  else if p =? 22 then Rendition false di it un bl re hi st
  else if p =? 23 then Rendition bo di false un bl re hi st
  else if p =? 24 then Rendition bo di it false bl re hi st
  else if p =? 25 then Rendition bo di it un false re hi st
  else if p =? 27 then Rendition bo di it un bl false hi st
  else if p =? 28 then Rendition bo di it un bl re false st
  else if p =? 29 then Rendition bo di it un bl re hi false
  else r.

Definition Console_VT100_CSI_m_Locked (self : Console) (c : call) : option Console :=
  each_param (fun self p =>
    if p =? 0 then Console_ResetCharacterAttributes_Locked self
    else if (30 <=? p) && (p <=? 37) then Console_SetForegroundColor_Locked self (Color_MakeIndex (p - 30))
    else if p =? 39 then Console_SetForegroundColor_Locked self (Color_MakeIndex 2)
    else if (40 <=? p) && (p <=? 47) then Console_SetBackgroundColor_Locked self (Color_MakeIndex (p - 40))
    else if p =? 49 then Console_SetBackgroundColor_Locked self (Color_MakeIndex 0)
    else Some (update_rendition (sgr_rendition p) self)) self (c_params c).

(** The report of the cursor position; in the upper left corner it has no numbers. *)
Definition report_position (x y : Z) : option (list Z) :=
  if (0 <? x) || (0 <? y) then
    l ← itoa (y + 1) 10; l ← l; k ← itoa (x + 1) 10; k ← k;
    Some ([27; 91] ++ l ++ [59] ++ k ++ [82])
  else Some [27; 91; 82].

Definition Console_VT100_CSI_n_Locked (self : Console) (c : call) : option Console :=
  each_param (fun self p =>
    if negb (has_private_use_char c 63) then
      if p =? 5 then Console_PostReport_Locked self report_ok
      else if p =? 6 then buf ← report_position (c_x self) (c_y self); Console_PostReport_Locked self buf
      else Some self
    else if p =? 15 then Console_PostReport_Locked self report_no_printer
    else Some self) self (c_params c).

Definition Console_VT100_CSI_y_Locked (self : Console) (c : call) : option Console :=
  if negb (get_nth_csi_parameter c 0 0 =? 2) then Some self
  else if bool_decide (get_nth_csi_parameter c 1 0 ∈ [1; 2; 4; 9; 10; 12; 16; 24]) then Console_PostReport_Locked self report_ok
  else Some self.

Definition to_ClearLineMode (p : Z) : option ClearLineMode :=
  if p =? 0 then Some kClearLineMode_ToEnd else if p =? 1 then Some kClearLineMode_ToBeginning
  else if p =? 2 then Some kClearLineMode_Whole else None.
Definition to_ClearScreenMode (p : Z) : option ClearScreenMode :=
  if p =? 0 then Some kClearScreenMode_ToEnd else if p =? 1 then Some kClearScreenMode_ToBeginning
  else if p =? 2 then Some kClearScreenMode_Whole else if p =? 3 then Some kClearScreenMode_WholeAndScrollback else None.

Definition Console_VT100_CSI_Locked (self : Console) (c : call) : option Console :=
  let ch := c_ch c in
  let n := get_csi_parameter c 1 in
  if ch =? 99 then Console_VT100_CSI_c_Locked self c
  else if ch =? 102 then Console_MoveCursorTo_Locked self (get_nth_csi_parameter c 1 1 - 1) (get_nth_csi_parameter c 0 1 - 1)
  else if ch =? 103 then Console_VT100_CSI_TBC_Locked self (get_csi_parameter c 0)
  else if ch =? 104 then Console_VT100_CSI_h_Locked self c
  else if ch =? 108 then Console_VT100_CSI_l_Locked self c
  else if ch =? 109 then Console_VT100_CSI_m_Locked self c
  else if ch =? 110 then Console_VT100_CSI_n_Locked self c
  else if ch =? 121 then Console_VT100_CSI_y_Locked self c
  else if ch =? 65 then Console_MoveCursor_Locked self kCursorMovement_Clamp 0 (- n)
  else if ch =? 66 then Console_MoveCursor_Locked self kCursorMovement_Clamp 0 n
  else if ch =? 67 then Console_MoveCursor_Locked self kCursorMovement_Clamp n 0
  else if ch =? 68 then Console_MoveCursor_Locked self kCursorMovement_Clamp (- n) 0
  else if ch =? 72 then Console_MoveCursorTo_Locked self 0 0
  else if ch =? 75 then Console_ClearLine_Locked self (c_y self) (to_ClearLineMode (get_csi_parameter c 0))
  else if ch =? 74 then Console_ClearScreen_Locked self (to_ClearScreenMode (get_csi_parameter c 0))
  else if ch =? 80 then Console_Execute_DCH_Locked self n
  else if ch =? 76 then Console_Execute_IL_Locked self n
  else if ch =? 77 then Console_Execute_DL_Locked self n
  else Some self.

Definition Console_VT100_DECSCS_Locked (self : Console) (c : call) (ch : Z) : Console :=
  match c_ints c with
  | [] => self
  | i :: _ =>
      let cset := if i =? 40 then O else 1%nat in
      let set f := set_attr (set_g (<[cset := f]> (g (attr self))) (attr self)) self in
      if (ch =? 65) || (ch =? 49) then set kFont_VT100_UK
      else if (ch =? 66) || (ch =? 50) then set kFont_VT100_US
      else if ch =? 48 then set kFont_VT100_LDCS
      else self
  end.

Definition Console_VT100_ESC_Locked (mem : bool) (self : Console) (c : call) : option Console :=
  let ch := c_ch c in
  if (ch =? 48) || (ch =? 49) || (ch =? 50) then Some (Console_VT100_DECSCS_Locked self c ch)
  else if ch =? 55 then Some (Console_SaveCursorState_Locked self)
  else if ch =? 56 then Console_RestoreCursorState_Locked self
  else if (ch =? 65) || (ch =? 66) then Some (Console_VT100_DECSCS_Locked self c ch)
  else if ch =? 68 then Console_MoveCursor_Locked self kCursorMovement_AutoScroll 0 1
  else if ch =? 77 then Console_MoveCursor_Locked self kCursorMovement_AutoScroll 0 (-1)
  else if ch =? 69 then Console_MoveCursor_Locked self kCursorMovement_AutoScroll (- c_x self) 1
  else if ch =? 72 then t ← TabStops_InsertStop mem (hTabStops self) (c_x self); Some (set_tabs t.2 self)
  else if (ch =? 78) || (ch =? 79) then
    let a := attr self in
    Some (if gl_ss23 a <? 0 then set_attr (set_gl (if ch =? 78 then 2 else 3) (gl a) a) self else self)
  else if ch =? 90 then Console_PostReport_Locked self report_da
  else if ch =? 99 then r ← Console_ResetState_Locked mem self; Some r.2
  else if ch =? 40 then Some (Console_VT100_DECSCS_Locked self c 0)
  else if ch =? 41 then Some (Console_VT100_DECSCS_Locked self c 1)
  else Some self.

Definition Console_VT100_ParseByte_Locked (mem : bool) (self : Console) (c : call) : option Console :=
  if c_action c =? VT500PARSE_ACTION_CSI_DISPATCH then Console_VT100_CSI_Locked self c
  else if c_action c =? VT500PARSE_ACTION_ESC_DISPATCH then Console_VT100_ESC_Locked mem self c
  else if c_action c =? VT500PARSE_ACTION_EXECUTE then Console_VT100_Execute_C0_Locked self (c_ch c)
  else if c_action c =? VT500PARSE_ACTION_PRINT then
    self ← Console_PrintByte_Locked self (c_ch c);
    let a := attr self in
    Some (if 0 <=? gl_ss23 a then set_attr (set_gl (gl_ss23 a) (-1) a) self else self)
  else Some self.

(** ** VT52 *)

Definition Console_VT52_Execute_C0_Locked (self : Console) (ch : Z) : option Console :=
  if ch =? 0x08 then Console_Execute_BS_Locked self
  else if ch =? 0x09 then Console_Execute_HT_Locked self
  else if ch =? 0x0a then Console_Execute_LF_Locked self
  else if ch =? 0x0d then Console_MoveCursorTo_Locked self 0 (c_y self)
  else Some self.

Definition set_reverse (b : bool) (r : CharacterRendition) : CharacterRendition :=
  Rendition (isBold r) (isDimmed r) (isItalic r) (isUnderlined r) (isBlink r) b (isHidden r) (isStrikethrough r).

Definition Console_VT52_ESC_Atari_Locked (self : Console) (c : call) : option Console :=
  let ch := c_ch c in
  let color := Color_MakeIndex (Z.land (default 0 (c_params c !! 0%nat)) 7) in
  if ch =? 69 then self ← Console_MoveCursorTo_Locked self 0 0; Console_ClearScreen_Locked self (Some kClearScreenMode_Whole)
  else if ch =? 98 then Console_SetForegroundColor_Locked self color
  else if ch =? 99 then Console_SetBackgroundColor_Locked self color
  else if ch =? 100 then Console_ClearScreen_Locked self (Some kClearScreenMode_ToBeginning)
  else if ch =? 101 then Some (set_visible true self)
  else if ch =? 102 then Some (set_visible false self)
  else if ch =? 106 then Some (Console_SaveCursorState_Locked self)
  else if ch =? 107 then Console_RestoreCursorState_Locked self
  else if ch =? 108 then
    self ← Console_ClearLine_Locked self (c_y self) (Some kClearLineMode_Whole); Console_MoveCursorTo_Locked self 0 (c_y self)
  else if ch =? 111 then Console_ClearLine_Locked self (c_y self) (Some kClearLineMode_ToBeginning)
  else if ch =? 112 then Some (update_rendition (set_reverse true) self)
  else if ch =? 113 then Some (update_rendition (set_reverse false) self)
  else if ch =? 118 then Some (set_auto_wrap true self)
  else if ch =? 119 then Some (set_auto_wrap false self)
  else Some self.

Definition report_vt52 : list Z := [27; 47; 75].

Definition Console_VT52_ESC_Locked (self : Console) (c : call) : option Console :=
  let ch := c_ch c in
  if ch =? 65 then Console_MoveCursor_Locked self kCursorMovement_Clamp 0 (-1)
  else if ch =? 66 then Console_MoveCursor_Locked self kCursorMovement_Clamp 0 1
  else if ch =? 67 then Console_MoveCursor_Locked self kCursorMovement_Clamp 1 0
  else if ch =? 68 then Console_MoveCursor_Locked self kCursorMovement_Clamp (-1) 0
  else if ch =? 72 then Console_MoveCursorTo_Locked self 0 0
  else if ch =? 89 then
    let y := default 0 (c_params c !! 0%nat) - 32 in
    let x := default 0 (c_params c !! 1%nat) - 32 in
    if (r_top (bounds self) <=? y) && (y <=? r_bottom (bounds self)) then Console_MoveCursorTo_Locked self x y else Some self
  else if ch =? 73 then Console_MoveCursor_Locked self kCursorMovement_AutoScroll 0 (-1)
  else if ch =? 75 then Console_ClearLine_Locked self (c_y self) (Some kClearLineMode_ToEnd)
  else if ch =? 74 then Console_ClearScreen_Locked self (Some kClearScreenMode_ToEnd)
  else if ch =? 90 then Console_PostReport_Locked self report_vt52
  else if ch =? 60 then Some (Console_SetCompatibilityMode_Locked self kCompatibilityMode_VT100)
  else if ch =? 63 then Some self
  else match compatibilityMode self with
       | kCompatibilityMode_VT52_AtariExtensions => Console_VT52_ESC_Atari_Locked self c
       | _ => Some self
       end.

Definition Console_VT52_ParseByte_Locked (self : Console) (c : call) : option Console :=
  if c_action c =? VT52PARSE_ACTION_ESC_DISPATCH then Console_VT52_ESC_Locked self c
  else if c_action c =? VT52PARSE_ACTION_EXECUTE then Console_VT52_Execute_C0_Locked self (c_ch c)
  else if c_action c =? VT52PARSE_ACTION_PRINT then Console_PrintByte_Locked self (c_ch c)
  else Some self.

(** ** Writing *)

Fixpoint run_calls (f : Console -> call -> option Console) (self : Console) (cs : list call) : option Console :=
  match cs with
  | [] => Some self
  | c :: cs => self ← f self c; run_calls f self cs
  end.

Definition console_byte (mem : bool) (self : Console) (by_ : Z) : option Console :=
  let vt52 := do_vt52 (vtparser self) in
  r ← vtparser_byte (vtparser self) by_;
  run_calls (if vt52 then Console_VT52_ParseByte_Locked else Console_VT100_ParseByte_Locked mem) (set_parser (compatibilityMode self) r.1 self) r.2.

Fixpoint Console_Write (mem : bool) (self : Console) (pChars : list Z) : option Console :=
  match pChars with
  | [] => Some self
  | by_ :: pChars => self ← console_byte mem self by_; Console_Write mem self pChars
  end.

(** ** A new console *)

(** The object is zeroed; [v] is the frame buffer that Console_InitVideo maps, and
    [store] the fresh memory of the queue of reports. *)
Definition zeroed_console (v : Video) (q : cbuf) : Console :=
  Con v (Attr (Color_MakeRGB32 0) (Color_MakeRGB32 0) plain_rendition 0 0 []) (Rect_Make 0 0 0 0) 0 0 (Tabs [] 0 0)
    (Saved 0 0 (Color_MakeRGB32 0) (Color_MakeRGB32 0) plain_rendition) kCompatibilityMode_VT100 (Flags false false false false) q
    (vtparser_init (VtParser (Vt52 0 (replicate VT52_MAX_PARAMS 0) 0 0 0 false) (Vt500 0 (replicate 3 0) 0 (replicate MAX_PARAMS 0) 0 false) false)).

Definition Console_Create (mem : bool) (store : Z -> list byte) (v : Video) : option (errno * option Console) :=
  if mem then
    q ← cbuf_init store (4 * (MAX_MESSAGE_LENGTH + 1));
    r ← Console_ResetState_Locked mem (zeroed_console v q);
    Some (if is_ok r.1 then (EOK, Some r.2) else (r.1, None))
  else Some (ENOMEM, None).

Definition Console_Start (self : Console) : option Console := Console_ClearScreen_Locked self (Some kClearScreenMode_WholeAndScrollback).
