(* ===== verification/ConsoleThm.v ===== *)
(** * The console: cursor and memory safety

    The invariant of a console and that every function keeps it: the cursor stays on
    the screen and no access leaves the planes, the fonts or the tables, with the
    exceptions that [faulty] names. *)

From Stdlib Require Import ZifyBool.
From S2P Require Import Prelude CBuf VtTables VtParse Numbers ConsoleFonts TabStops Console ConsoleVideo ConsoleVt.

(** ** The invariant *)

Definition font_ok (f : Font) : Prop := forall ch, 0 <= ch < 128 -> exists gp, Font_GetGlyph f ch = Some gp.

Definition color_ok (c : Color) : Prop := exists i, c = Color_MakeIndex i /\ 0 <= i < 8.

Record attr_ok (a : Attributes) : Prop := {
  ao_fg : color_ok (foregroundColor a);
  ao_bg : color_ok (backgroundColor a);
  ao_gl : 0 <= gl a < 4;
  ao_ss : -1 <= gl_ss23 a < 4;
  ao_g : length (g a) = 4%nat;
  ao_fonts : Forall font_ok (g a) }.

Lemma font_ok_check f :
  forallb (fun ch => match Font_GetGlyph f ch with Some _ => true | None => false end) (bytes_upto 128) = true -> font_ok f.
Proof. intros Hc ch Hch. apply (bytes_upto_all 128 _ ch) in Hc; [|lia]. cbv beta in Hc. destruct (Font_GetGlyph f ch); [by eauto|done]. Qed.

(** Every character of the three fonts has a glyph inside of the table. *)
Lemma fonts_ok : font_ok kFont_VT100_US /\ font_ok kFont_VT100_UK /\ font_ok kFont_VT100_LDCS.
Proof. split_and!; apply font_ok_check; vm_compute; reflexivity. Qed.

Lemma attr_draw a : attr_ok a -> exists fg bg font, draw_colors a = Some (fg, bg) /\ current_font a = Some font /\ font_ok font.
Proof.
  intros [(f & Ef & _) (b & Eb & _) Hgl _ Hg Hf]. unfold draw_colors, current_font. rewrite Ef, Eb. cbn.
  destruct (lookup_lt_is_Some_2 (g a) (Z.to_nat (gl a))) as [font Hfont]; [lia|]. replace (0 <=? gl a) with true by lia.
  rewrite Hfont. destruct (isReverse (characterRendition a)); eexists _, _, font; (split_and!; [done..|]); by apply (Forall_lookup_1 _ _ _ _ Hf Hfont).
Qed.

(** The reports in the queue, each with its NUL; the capacity is that of Console_Create. *)
Definition reports (q : cbuf) (msgs : list (list Z)) : Prop :=
  cb_ok q /\ capacity q = 128 /\ contents q = concat ((fun m => m ++ [0]) <$> msgs) /\ Forall (fun m => 0 ∉ m) msgs.

Record con_ok (self : Console) : Prop := {
  co_screen : screen_ok self;
  co_width : pixelsWidth (video self) / 8 <= 128;
  co_height : pixelsHeight (video self) / 8 < 10 ^ 7;
  co_attr : attr_ok (attr self);
  co_x : 0 <= c_x self < pixelsWidth (video self) / 8;
  co_y : 0 <= c_y self < pixelsHeight (video self) / 8;
  co_tabs : exists vs, tabs_ok (hTabStops self) vs;
  co_saved : forall c, c = s_foregroundColor (savedCursorState self) \/ c = s_backgroundColor (savedCursorState self) ->
    color_ok c \/ exists v, c = Color_MakeRGB32 v;
  co_reports : exists msgs, reports (reportsQueue self) msgs;
  co_vt500 : wf (vt500 (vtparser self));
  co_vt52 : vt52_wf (vt52 (vtparser self)) }.

(** ** Reports *)

Lemma get_first q b l :
  cb_ok q -> contents q = b :: l -> exists q', cbuf_get q = (1, b, q') /\ cb_ok q' /\ capacity q' = capacity q /\ contents q' = l.
Proof.
  intros Hok Hc. pose proof (gets_spec q 1 Hok ltac:(lia)) as Hs. pose proof (get_is_gets q Hok) as Hg. rewrite Hc in Hs.
  destruct (cbuf_get q) as [[n b'] q1] eqn:E. destruct (cbuf_gets q 1) as [r q2]. destruct Hg as [-> Hr]. destruct Hs as (Er & H1 & H2 & H3).
  rewrite Hr in Er. destruct (Z.eqb_spec n 1) as [->|]; [|done]. exists q2. cbn in Er. injection Er as ->. by split_and!.
Qed.

Lemma drop_report_spec fuel q m ms :
  reports q (m :: ms) -> (length m < fuel)%nat -> exists q', drop_report fuel q = Some q' /\ reports q' ms.
Proof.
  revert q m. induction fuel as [|fuel IH]; intros q m (Hok & Hcap & Hc & Hz) Hf; [lia|]. cbn [drop_report].
  apply Forall_cons in Hz as [Hm Hms]. cbn in Hc. destruct m as [|b m]; cbn in Hc; destruct (get_first q _ _ Hok Hc) as (q' & Eg & H1 & H2 & H3); rewrite Eg; cbn.
  - exists q'. split; [done|]. split_and!; [done|congruence|done..].
  - assert (b <> 0) by (intros ->; apply Hm; left). replace (b =? 0) with false by lia. apply (IH q' m); [|cbn in Hf; lia].
    split_and!; [done|congruence|done|]. constructor; [|done]. intros Hin. apply Hm. by right.
Qed.

Lemma reports_length q msgs : reports q msgs -> (length msgs <= length (contents q))%nat /\ (forall m, m ∈ msgs -> length m < length (contents q))%nat.
Proof.
  intros (_ & _ & -> & _). induction msgs as [|m ms [IH1 IH2]]; cbn; [split; [lia|by intros ? ?%elem_of_nil]|]. rewrite !length_app. cbn. split; [lia|].
  intros m' [->|Hm']%elem_of_cons; [lia|]. specialize (IH2 m' Hm'). lia.
Qed.

(** Room is made by dropping the oldest reports, as few as possible. *)
Lemma make_room_spec fuel q msgs n :
  reports q msgs -> 0 <= n <= 128 -> (length msgs <= fuel)%nat ->
  exists k q', make_room fuel n q = Some q' /\ reports q' (drop k msgs) /\ n <= cbuf_writable q' /\ (n <= cbuf_writable q -> k = O).
Proof.
  revert q msgs. induction fuel as [|fuel IH]; intros q msgs Hr Hn Hf; pose proof Hr as (Hok & Hcap & Hc & Hz);
    pose proof (writable_eq q Hok) as Hw; pose proof (readable_contents q Hok) as Hrd; cbn [make_room].
  - destruct msgs; [|cbn in Hf; lia]. cbn in Hc. rewrite Hc in Hrd. cbn in Hrd. replace (cbuf_writable q <? n) with false by lia. exists O, q. split_and!; [done..|lia|done].
  - destruct (Z.ltb_spec (cbuf_writable q) n); [|exists O, q; by rewrite drop_0].
    destruct msgs as [|m ms]; [cbn in Hc; rewrite Hc in Hrd; cbn in Hrd; lia|].
    destruct (reports_length q _ Hr) as [_ Hm]. specialize (Hm m ltac:(left)). pose proof (readable_range q Hok).
    destruct (drop_report_spec (Z.to_nat (capacity q)) q m ms Hr) as (q1 & E1 & H1); [lia|]. rewrite (bind_some E1).
    destruct (IH q1 ms H1 Hn) as (k & q' & E & H2 & H3 & _); [cbn in Hf; lia|]. exists (S k), q'. split_and!; [done..|lia].
Qed.

(** Posting a report keeps the newest reports that fit, and the new one. *)
Lemma post_report_spec self msgs msg :
  reports (reportsQueue self) msgs -> 0 ∉ msg -> Z.of_nat (length msg) < MAX_MESSAGE_LENGTH ->
  exists k q', Console_PostReport_Locked self msg = Some (set_reports q' self) /\ reports q' (drop k msgs ++ [msg]).
Proof.
  intros Hr Hz Hl. pose proof Hr as (Hok & Hcap & Hc & _). unfold Console_PostReport_Locked. unfold MAX_MESSAGE_LENGTH in *.
  replace (_ <? 16 + 1) with true by lia. destruct (reports_length _ _ Hr) as [Hm _]. pose proof (readable_contents _ Hok). pose proof (readable_range _ Hok).
  destruct (make_room_spec (Z.to_nat (capacity (reportsQueue self))) _ msgs (Z.of_nat (length msg) + 1) Hr) as (k & q & E & (Hq & Hqc & Hqm & Hqz) & Hw & _); [lia|lia|].
  rewrite (bind_some E). pose proof (puts_spec q (msg ++ [0]) Hq) as Hp. rewrite length_app in Hp. cbn [length] in Hp. specialize (Hp ltac:(lia)).
  destruct (cbuf_puts q (msg ++ [0])) as [r q']. destruct Hp as (_ & Hq' & Hqc' & Hcon). rewrite writable_eq in Hw by done.
  exists k, q'. split; [done|]. split_and!; [done|congruence| |by apply Forall_app; split; [|constructor]].
  rewrite Hcon, Hqm, take_ge by (rewrite length_app; cbn; lia). rewrite fmap_app, concat_app. cbn. by rewrite app_nil_r.
Qed.

(** ** Functions that keep the invariant *)

(** The function returns and leaves a console that is correct, with the same bounds. *)
Definition safe (self : Console) (m : option Console) : Prop :=
  exists self', m = Some self' /\ con_ok self' /\ bounds self' = bounds self.

Lemma safe_some self self' : con_ok self' -> bounds self' = bounds self -> safe self (Some self').
Proof. by exists self'. Qed.

Lemma safe_id self : con_ok self -> safe self (Some self).
Proof. by exists self. Qed.

Lemma safe_bind self m k :
  safe self m -> (forall s, con_ok s -> bounds s = bounds self -> safe s (k s)) -> safe self (m ≫= k).
Proof. intros (s & -> & Hs & Hb) Hk. destruct (Hk s Hs Hb) as (s' & E & ? & ?). exists s'. split_and!; [done..|congruence]. Qed.

Lemma safe_after self s m : safe self (Some s) -> (con_ok s -> safe s m) -> safe self m.
Proof. intros (? & [= <-] & Hs & Hb) Hm. destruct (Hm Hs) as (s' & ? & ? & ?). exists s'. split_and!; [done..|congruence]. Qed.

Lemma con_ok_video self v : con_ok self -> video_ok v -> same_shape (video self) v -> con_ok (set_video v self).
Proof.
  intros [] Hv Hsh. pose proof Hsh as (_ & Hw & Hh & _).
  split; cbn [video attr c_x c_y hTabStops savedCursorState reportsQueue vtparser set_video]; rewrite ?Hw, ?Hh; try done. by apply screen_ok_video.
Qed.

Lemma con_ok_attr self a : con_ok self -> attr_ok a -> con_ok (set_attr a self).
Proof. intros [[]] Ha. by split. Qed.
Lemma con_ok_cursor self x y :
  con_ok self -> 0 <= x < pixelsWidth (video self) / 8 -> 0 <= y < pixelsHeight (video self) / 8 -> con_ok (set_cursor x y self).
Proof. intros [[]] Hx Hy. by split. Qed.
Lemma con_ok_tabs self t vs : con_ok self -> tabs_ok t vs -> con_ok (set_tabs t self).
Proof. intros [[]] Ht. split; try done. by exists vs. Qed.
Lemma con_ok_flags self f : con_ok self -> con_ok (set_flags f self).
Proof. intros [[]]. by split. Qed.
Lemma con_ok_reports self q msgs : con_ok self -> reports q msgs -> con_ok (set_reports q self).
Proof. intros [[]] Hq. split; try done. by exists msgs. Qed.
Lemma con_ok_parser self m p : con_ok self -> wf (vt500 p) -> vt52_wf (vt52 p) -> con_ok (set_parser m p self).
Proof. intros [[]] H1 H2. by split. Qed.

(** Both sides of the screen in characters. *)
Lemma bounds_eq self : con_ok self -> bounds self = Rect_Make 0 0 (pixelsWidth (video self) / 8) (pixelsHeight (video self) / 8).
Proof. intros H. apply H. Qed.

Lemma safe_fill self l t r b :
  con_ok self -> l <= r -> l <= pixelsWidth (video self) / 8 -> 0 <= r -> safe self (Console_FillRect_Locked self (Rect_Make l t r b) 32).
Proof.
  intros Hok Hlr Hl Hr. pose proof (co_screen _ Hok) as Hs. pose proof (so_size _ Hs).
  destruct (attr_draw _ (co_attr _ Hok)) as (fg & bg & font & Hc & _).
  destruct (fill_rect_spec self (Rect_Make l t r b) fg bg Hs Hc) as (v & E & Hv & Hsh & _); [rewrite (so_bounds _ Hs); cbn; lia|].
  rewrite E. apply safe_some; [by apply con_ok_video|done].
Qed.

Lemma safe_copy self l t r b dx dy :
  con_ok self -> 0 <= l <= r -> r <= pixelsWidth (video self) / 8 -> 0 <= t -> 0 <= dx <= pixelsWidth (video self) / 8 -> 0 <= dy ->
  safe self (Console_CopyRect_Locked self (Rect_Make l t r b) dx dy).
Proof.
  intros Hok Hl Hr Ht Hdx Hdy. pose proof (co_screen _ Hok) as Hs.
  destruct (copy_rect_spec self l t r b dx dy Hs) as (v & E & Hv & Hsh & _); [done..|]. rewrite E. apply safe_some; [by apply con_ok_video|done].
Qed.

Lemma safe_draw self ch : con_ok self -> 0 <= ch < 128 -> safe self (Console_DrawChar_Locked self ch (c_x self) (c_y self)).
Proof.
  intros Hok Hch. destruct (attr_draw _ (co_attr _ Hok)) as (fg & bg & font & Hc & Hf & Hfont).
  destruct (Hfont (if isHidden (characterRendition (attr self)) then 32 else ch)) as [gp Hgp]; [case_match; lia|].
  destruct (draw_char_spec self ch (c_x self) (c_y self) fg bg font gp) as (v & E & Hv & Hsh & _); [apply Hok..|done|done|done|].
  rewrite E. apply safe_some; [by apply con_ok_video|done].
Qed.

Lemma safe_cursor self x y :
  con_ok self -> 0 <= x < pixelsWidth (video self) / 8 -> 0 <= y < pixelsHeight (video self) / 8 -> safe self (Some (set_cursor x y self)).
Proof. intros Hok Hx Hy. apply safe_some; [by apply con_ok_cursor|done]. Qed.

(** The sizes as facts about the bounds, for arithmetic. *)
Ltac sizes H :=
  pose proof (co_x _ H); pose proof (co_y _ H); pose proof (so_size _ (co_screen _ H)); try rewrite !(bounds_eq _ H) in *;
  cbn [r_left r_top r_right r_bottom Rect_GetWidth Rect_GetHeight] in *.

(** A sequence of functions; the bounds of the next state are those of the first one. *)
Ltac safe_step :=
  match goal with
  | H : con_ok ?s |- safe ?s (Some ?s) => exact (safe_id s H)
  | H : con_ok ?s |- safe ?s (Some (set_cursor _ _ ?s)) => sizes H; apply safe_cursor; [exact H|lia..]
  | H : con_ok ?s |- safe ?s (Console_FillRect_Locked ?s _ 32) => sizes H; apply safe_fill; [exact H|lia..]
  | H : con_ok ?s |- safe ?s (Console_CopyRect_Locked ?s _ _ _) => sizes H; apply safe_copy; [exact H|lia..]
  | |- safe _ (_ ≫= _) => apply safe_bind; [|let s := fresh "s" in let Hs := fresh "Hs" in let Hb := fresh "Hb" in
      intros s Hs Hb; try rewrite <- !Hb; clear Hb]
  | |- safe _ (if ?c then _ else _) => destruct c eqn:?
  | |- safe _ (match ?c with _ => _ end) => destruct c eqn:?
  end.
Ltac safe_steps := repeat safe_step; eauto with console.

Create HintDb console.
#[export] Hint Resolve safe_id : console.

Lemma safe_clear_screen self mode : con_ok self -> safe self (Console_ClearScreen_Locked self mode).
Proof. intros Hok. unfold Console_ClearScreen_Locked. safe_steps. Qed.
Lemma safe_clear_line self y mode : con_ok self -> safe self (Console_ClearLine_Locked self y mode).
Proof. intros Hok. unfold Console_ClearLine_Locked. safe_steps. Qed.
#[export] Hint Resolve safe_clear_screen safe_clear_line : console.

Lemma safe_scroll self dY : con_ok self -> safe self (Console_ScrollBy_Locked self 0 dY).
Proof. intros Hok. unfold Console_ScrollBy_Locked. change (Z.abs 0) with 0. change (0 <? 0) with false. destruct (dY <? 0) eqn:?; safe_steps. Qed.
#[export] Hint Resolve safe_scroll : console.

Lemma safe_scroll_to self y :
  con_ok self -> exists s z, scroll_to self y = Some (s, z) /\ con_ok s /\ bounds s = bounds self /\ 0 <= z < pixelsHeight (video s) / 8.
Proof.
  intros Hok. unfold scroll_to.
  assert (Hscroll : forall d, exists s, Console_ScrollBy_Locked self 0 d = Some s /\ con_ok s /\ bounds s = bounds self) by (intros d; by apply safe_scroll).
  destruct (Z.ltb_spec y 0); [|destruct (Z.ltb_spec (r_bottom (bounds self) - 1) y)].
  - destruct (Hscroll y) as (s & -> & Hs & Hb). eexists s, _. do 3 (split; [done|]). sizes Hs. lia.
  - destruct (Hscroll (y - (r_bottom (bounds self) - 1))) as (s & -> & Hs & Hb). eexists s, _. do 3 (split; [done|]). rewrite <- Hb. sizes Hs. lia.
  - eexists self, _. do 3 (split; [done|]). sizes Hok. lia.
Qed.

(** The cursor stays on the screen in each mode. *)
Lemma safe_move self mode dx dy : con_ok self -> safe self (Console_MoveCursor_Locked self mode dx dy).
Proof.
  intros Hok. unfold Console_MoveCursor_Locked. destruct (_ && _); [by apply safe_id|]. destruct mode.
  - safe_steps.
  - remember (r_right (bounds self) - 1) as eX. destruct (if c_x self + dx <? 0 then _ else _) as [x y] eqn:E.
    destruct (safe_scroll_to self y Hok) as (s & z & -> & Hs & Hb & Hz). cbn. apply safe_some; [|done]. apply con_ok_cursor; [done| |done].
    assert (r_right (bounds s) = eX + 1) by (rewrite Hb; lia). sizes Hok. sizes Hs. repeat case_match; simplify_eq; lia.
  - destruct (safe_scroll_to self (c_y self + dy) Hok) as (s & z & -> & Hs & Hb & Hz). cbn. apply safe_some; [|done].
    rewrite <- Hb. sizes Hs. apply con_ok_cursor; [done|lia|done].
Qed.
#[export] Hint Resolve safe_move : console.

Lemma safe_move_to self x y : con_ok self -> safe self (Console_MoveCursorTo_Locked self x y).
Proof. intros Hok. by apply safe_move. Qed.
#[export] Hint Resolve safe_move_to : console.

(** ** Attributes *)

Lemma safe_attr self a : con_ok self -> attr_ok a -> safe self (Some (set_attr a self)).
Proof. intros Hok Ha. apply safe_some; [by apply con_ok_attr|done]. Qed.

Lemma safe_foreground self c : con_ok self -> color_ok c -> safe self (Console_SetForegroundColor_Locked self c).
Proof.
  intros Hok (i & -> & Hi). unfold Console_SetForegroundColor_Locked. cbn. replace ((0 <=? i) && (i <? 8)) with true by lia.
  apply safe_attr; [done|]. destruct (co_attr _ Hok). split; try done. by exists i.
Qed.
Lemma safe_background self c : con_ok self -> color_ok c -> safe self (Console_SetBackgroundColor_Locked self c).
Proof.
  intros Hok (i & -> & Hi). unfold Console_SetBackgroundColor_Locked. cbn.
  apply safe_attr; [done|]. destruct (co_attr _ Hok). split; try done. by exists i.
Qed.
Lemma safe_rendition self r : con_ok self -> safe self (Some (set_attr (set_rendition r (attr self)) self)).
Proof. intros Hok. apply safe_attr; [done|]. destruct (co_attr _ Hok). by split. Qed.
Lemma safe_gl self x ss : con_ok self -> 0 <= x < 4 -> -1 <= ss < 4 -> safe self (Some (set_attr (set_gl x ss (attr self)) self)).
Proof. intros Hok Hx Hss. apply safe_attr; [done|]. destruct (co_attr _ Hok). by split. Qed.
Lemma safe_flags self f : con_ok self -> safe self (Some (set_flags f self)).
Proof. intros Hok. apply safe_some; [by apply con_ok_flags|done]. Qed.
Lemma index_ok i : 0 <= i < 8 -> color_ok (Color_MakeIndex i).
Proof. by exists i. Qed.
#[export] Hint Resolve safe_foreground safe_background safe_rendition safe_gl safe_flags index_ok : console.
#[export] Hint Extern 4 (_ <= _ < _) => lia : console.

Lemma safe_reset_attributes self : con_ok self -> safe self (Console_ResetCharacterAttributes_Locked self).
Proof. intros Hok. unfold Console_ResetCharacterAttributes_Locked. safe_steps. Qed.
#[export] Hint Resolve safe_reset_attributes : console.

(** Restoring works if the colours were saved before. *)
Definition is_index (c : Color) : bool := match c with Color_MakeIndex _ => true | Color_MakeRGB32 _ => false end.
Definition was_saved (self : Console) : bool :=
  is_index (s_foregroundColor (savedCursorState self)) && is_index (s_backgroundColor (savedCursorState self)).

Lemma safe_save self : con_ok self -> safe self (Some (Console_SaveCursorState_Locked self)).
Proof.
  intros Hok. apply safe_some; [|done]. destruct (co_attr _ Hok) as [Hf Hb]. destruct Hok as [[]]. split; try done.
  cbn. intros c [->| ->]; by left.
Qed.

Lemma safe_restore self : con_ok self -> was_saved self = true -> safe self (Console_RestoreCursorState_Locked self).
Proof.
  intros Hok Hw. apply andb_true_iff in Hw as [Hf Hb]. unfold Console_RestoreCursorState_Locked. cbv zeta.
  assert (Hc : forall c, c = s_foregroundColor (savedCursorState self) \/ c = s_backgroundColor (savedCursorState self) -> is_index c = true -> color_ok c).
  { intros c Hc Hi. destruct (co_saved _ Hok c Hc) as [|[v ->]]; [done|done]. }
  pose proof (Hc _ (or_introl eq_refl) Hf). pose proof (Hc _ (or_intror eq_refl) Hb).
  apply (safe_after self (set_attr (set_rendition (s_characterRendition (savedCursorState self)) (attr self)) self)); [by apply safe_rendition|].
  intros Hok'. safe_steps.
Qed.
#[export] Hint Resolve safe_save safe_restore : console.

(** ** Reports, tab stops and modes *)

Lemma safe_report self msg :
  con_ok self -> 0 ∉ msg -> Z.of_nat (length msg) < MAX_MESSAGE_LENGTH -> safe self (Console_PostReport_Locked self msg).
Proof.
  intros Hok Hz Hl. destruct (co_reports _ Hok) as [msgs Hr]. destruct (post_report_spec self msgs msg Hr Hz Hl) as (k & q & -> & Hq).
  apply safe_some; [by eapply con_ok_reports|done].
Qed.

Lemma safe_report_text self msg :
  con_ok self -> bool_decide (0 ∉ msg) && (Z.of_nat (length msg) <? MAX_MESSAGE_LENGTH) = true -> safe self (Console_PostReport_Locked self msg).
Proof. intros Hok [Hz%bool_decide_eq_true Hl]%andb_true_iff. apply safe_report; [done..|lia]. Qed.
#[export] Hint Extern 2 (safe _ (Console_PostReport_Locked _ _)) => apply safe_report_text; [eassumption|vm_compute; reflexivity] : console.

Lemma itoa_text n k :
  0 <= n < 10 ^ Z.of_nat k -> (k <> 0)%nat -> (k <= 10)%nat -> n < 2 ^ 31 -> exists l, itoa n 10 = Some (Some l) /\ 0 ∉ l /\ (length l <= k)%nat.
Proof.
  intros Hn Hk Hk10 Hn31. unfold itoa, i32toa. cbn [Z.eqb Pos.eqb]. replace (n =? - 2 ^ 31) with false by lia. replace (n <? 0) with false by lia. change (I32A_BUFFER_SIZE - 1)%nat with 33%nat.
  destruct (put_digits_spec 33 10 (fun rem => Some (48 + rem)) (udiv 10) n []) as (cs & dl & E & [Hd _] & _ & _ & Hl & _); [lia|done| |lia|done|].
  - intros r Hr. exists (48 + r). split; [done|]. unfold digit_of. rewrite isdigit_spec. replace ((48 <=? 48 + r) && (48 + r <=? 57)) with true by lia. f_equal. lia.
  - specialize (Hl k Hk ltac:(lia)). rewrite (bind_some E), app_nil_r. cbn [app]. replace (length cs <=? 33)%nat with true by (symmetry; apply Nat.leb_le; lia).
    eexists. split; [done|]. split; [|done]. cbn. intros H0. apply list_elem_of_lookup in H0 as [i Hi].
    destruct (Forall2_lookup_l _ _ _ _ _ Hd Hi) as (d & _ & Hd0 & _). by vm_compute in Hd0.
Qed.

Lemma report_position_ok x y :
  0 <= x < 128 -> 0 <= y < 10 ^ 7 - 1 -> exists l, report_position x y = Some l /\ 0 ∉ l /\ Z.of_nat (length l) < MAX_MESSAGE_LENGTH.
Proof.
  intros Hx Hy. unfold report_position. destruct (_ || _); [|eexists; split; [done|]; split; [rewrite !elem_of_cons, elem_of_nil; naive_solver lia|done]].
  destruct (itoa_text (y + 1) 7) as (l & -> & Hl & Hl7); [lia..|]. destruct (itoa_text (x + 1) 3) as (k & -> & Hk & Hk3); [lia..|]. cbn.
  eexists. split; [done|]. split; [|unfold MAX_MESSAGE_LENGTH; cbn; rewrite !length_app; cbn; rewrite length_app; cbn; lia].
  rewrite !elem_of_cons, !elem_of_app, elem_of_cons, elem_of_app, elem_of_cons, elem_of_nil. naive_solver lia.
Qed.

Lemma safe_set_mode self mode : con_ok self -> safe self (Some (Console_SetCompatibilityMode_Locked self mode)).
Proof.
  intros Hok. destruct (co_attr _ Hok), (co_vt500 _ Hok), (co_vt52 _ Hok) as (? & ? & ?). unfold Console_SetCompatibilityMode_Locked. cbv zeta.
  apply safe_some; [|by destruct mode]. apply con_ok_attr; [|by destruct mode; split].
  apply con_ok_parser.
  - destruct mode; [by apply con_ok_flags..|done].
  - destruct mode; [done..|]. split; cbn; try done; unfold MAX_PARAMS, MAX_INTERMEDIATE_CHARS; lia.
  - destruct mode; [..|apply Hok]; unfold vt52_wf; cbn; split_and!; (done || lia).
Qed.
#[export] Hint Resolve safe_set_mode : console.

Lemma reset_attributes_eq self :
  Console_ResetCharacterAttributes_Locked self =
    Some (set_attr (Attr (Color_MakeIndex 0) (Color_MakeIndex 2) plain_rendition (gl (attr self)) (gl_ss23 (attr self)) (g (attr self))) self).
Proof. reflexivity. Qed.

Lemma safe_reset self : con_ok self -> safe self (r ← Console_ResetState_Locked true self; Some r.2).
Proof.
  intros Hok. unfold Console_ResetState_Locked. rewrite reset_attributes_eq. cbn [mbind option_bind bounds set_attr hTabStops].
  destruct (tabs_init_ok (TabStops_Deinit (hTabStops self)) (Z.max (Rect_GetWidth (Rect_Make 0 0 (pixelsWidth (video self) / bbox_width kFont_VT100_US)
    (pixelsHeight (video self) / bbox_height kFont_VT100_US)) / 8) 0) 8) as (t & vs & E & Ht); [lia..|].
  rewrite (bind_some E). cbn [snd fst]. change (is_ok EOK) with true. cbv iota.
  match goal with |- context [Console_MoveCursorTo_Locked ?s 0 0] => assert (Hs : con_ok s) end.
  { change (bbox_width kFont_VT100_US) with 8. change (bbox_height kFont_VT100_US) with 8. destruct fonts_ok as (H1 & H2 & H3).
    destruct Hok as [[]]. split; cbn; try done; [|by exists vs]. split; cbn; [by apply index_ok..|lia|lia|done|by repeat constructor]. }
  destruct (safe_move_to _ 0 0 Hs) as (s' & E' & Hs' & Hb'). rewrite (bind_some E'). cbn. apply safe_some; [by apply con_ok_flags|].
  cbn [bounds set_flags]. rewrite Hb'. cbn. by rewrite bounds_eq.
Qed.

Lemma safe_tab self : con_ok self -> safe self (Console_Execute_HT_Locked self).
Proof.
  intros Hok. destruct (co_tabs _ Hok) as [vs Ht]. destruct (next_stop_spec _ vs (c_x self) (Rect_GetWidth (bounds self)) Ht) as (s & E & _).
  unfold Console_Execute_HT_Locked. rewrite (bind_some E). by apply safe_move_to.
Qed.

Lemma safe_set_stop mem self : con_ok self -> safe self (t ← TabStops_InsertStop mem (hTabStops self) (c_x self); Some (set_tabs t.2 self)).
Proof.
  intros Hok. destruct (co_tabs _ Hok) as [vs Ht]. pose proof (co_x _ Hok). pose proof (co_width _ Hok).
  destruct (insert_some mem _ vs (c_x self) Ht) as (e & t & vs' & -> & Ht' & _); [lia|]. apply safe_some; [by eapply con_ok_tabs|done].
Qed.

Lemma safe_clear_stops self op : con_ok self -> safe self (Console_VT100_CSI_TBC_Locked self op).
Proof.
  intros Hok. destruct (co_tabs _ Hok) as [vs Ht]. unfold Console_VT100_CSI_TBC_Locked.
  destruct (op =? 0); [|destruct (op =? 3); [|by apply safe_id]].
  - destruct (remove_some _ vs (c_x self) Ht) as (t & vs' & -> & Ht'). apply safe_some; [by eapply con_ok_tabs|done].
  - apply safe_some; [by eapply con_ok_tabs, remove_all_ok|done].
Qed.
#[export] Hint Resolve safe_reset safe_tab safe_set_stop safe_clear_stops safe_draw : console.

(** ** Characters and editing *)

Lemma safe_print self ch : con_ok self -> 0 <= ch < 128 -> safe self (Console_PrintByte_Locked self ch).
Proof. intros Hok Hch. unfold Console_PrintByte_Locked. safe_steps. Qed.
Lemma safe_line_feed self : con_ok self -> safe self (Console_Execute_LF_Locked self).
Proof. intros Hok. by apply safe_move. Qed.
Lemma safe_clear_last self n : con_ok self -> 0 <= n -> safe self (clear_last self n).
Proof. intros Hok Hn. unfold clear_last. safe_steps. Qed.
#[export] Hint Resolve safe_print safe_line_feed safe_clear_last : console.
#[export] Hint Extern 4 (_ <= _) => lia : console.

Lemma safe_backspace self : con_ok self -> safe self (Console_Execute_BS_Locked self).
Proof. intros Hok. unfold Console_Execute_BS_Locked. safe_steps. Qed.
Lemma safe_delete self : con_ok self -> safe self (Console_Execute_DEL_Locked self).
Proof. intros Hok. unfold Console_Execute_DEL_Locked. safe_steps. Qed.
Lemma safe_delete_chars self n : con_ok self -> 1 <= n -> c_x self + 2 * n <= r_right (bounds self) -> safe self (Console_Execute_DCH_Locked self n).
Proof. intros Hok Hn Hx. unfold Console_Execute_DCH_Locked. safe_steps. Qed.
Lemma safe_insert_lines self n : con_ok self -> 1 <= n -> safe self (Console_Execute_IL_Locked self n).
Proof. intros Hok Hn. unfold Console_Execute_IL_Locked. safe_steps. Qed.
Lemma safe_delete_lines self n : con_ok self -> 1 <= n -> safe self (Console_Execute_DL_Locked self n).
Proof. intros Hok Hn. unfold Console_Execute_DL_Locked. safe_steps. Qed.
#[export] Hint Resolve safe_backspace safe_delete safe_insert_lines safe_delete_lines : console.

(** ** Escape sequences *)

Lemma safe_each_param f self ps :
  con_ok self -> (forall s p, con_ok s -> 0 <= p -> safe s (f s p)) -> safe self (each_param f self ps).
Proof.
  intros Hok Hf. revert self Hok. induction ps as [|p ps IH]; intros self Hok; cbn [each_param]; [by apply safe_id|].
  apply safe_bind; [apply Hf; [done|case_match; lia]|]. intros s Hs _. by apply IH.
Qed.

Lemma param_pos c i d : 0 < d -> 0 < get_nth_csi_parameter c i d.
Proof. intros Hd. unfold get_nth_csi_parameter. case_match; lia. Qed.

Lemma safe_sgr self c : con_ok self -> safe self (Console_VT100_CSI_m_Locked self c).
Proof. intros Hok. apply safe_each_param; [done|]. intros s p Hs Hp. safe_steps. Qed.
Lemma safe_set_modes self c : con_ok self -> safe self (Console_VT100_CSI_h_Locked self c).
Proof. intros Hok. apply safe_each_param; [done|]. intros s p Hs Hp. repeat case_match; unfold set_insertion, set_auto_wrap, set_visible; safe_steps. Qed.
Lemma safe_reset_modes self c : con_ok self -> safe self (Console_VT100_CSI_l_Locked self c).
Proof. intros Hok. apply safe_each_param; [done|]. intros s p Hs Hp. repeat case_match; unfold set_insertion, set_auto_wrap, set_visible; safe_steps. Qed.
Lemma safe_status self c : con_ok self -> safe self (Console_VT100_CSI_n_Locked self c).
Proof.
  intros Hok. apply safe_each_param; [done|]. intros s p Hs Hp. safe_steps.
  pose proof (co_x _ Hs). pose proof (co_y _ Hs). pose proof (co_width _ Hs). pose proof (co_height _ Hs).
  destruct (report_position_ok (c_x s) (c_y s)) as (l & -> & Hz & Hl); [lia..|]. by apply safe_report.
Qed.
#[export] Hint Resolve safe_sgr safe_set_modes safe_reset_modes safe_status : console.

(** DCH moves the rest of the line, without as many cells at the end as it removes. *)
Definition bad_dch (self : Console) (c : call) : bool := (c_ch c =? 80) && (r_right (bounds self) <? c_x self + 2 * get_csi_parameter c 1).

Lemma safe_csi self c : con_ok self -> bad_dch self c = false -> safe self (Console_VT100_CSI_Locked self c).
Proof.
  intros Hok Hbad. unfold Console_VT100_CSI_Locked, Console_VT100_CSI_c_Locked, Console_VT100_CSI_y_Locked. cbv zeta.
  pose proof (param_pos c 0 1 eq_refl) as Hn. fold (get_csi_parameter c 1) in Hn. unfold bad_dch in Hbad. safe_steps.
  all: apply safe_delete_chars; [done|lia..].
Qed.

Lemma safe_scs self c ch : con_ok self -> safe self (Some (Console_VT100_DECSCS_Locked self c ch)).
Proof.
  intros Hok. unfold Console_VT100_DECSCS_Locked. destruct (c_ints c) as [|i ?]; [by apply safe_id|].
  assert (Hset : forall k f, font_ok f -> safe self (Some (set_attr (set_g (<[k := f]> (g (attr self))) (attr self)) self))).
  { intros k f Hf. apply safe_attr; [done|]. destruct (co_attr _ Hok). split; try done; cbn; [by rewrite length_insert|by apply Forall_insert]. }
  destruct fonts_ok as (H1 & H2 & H3). repeat case_match; auto using safe_id.
Qed.
#[export] Hint Resolve safe_scs : console.

Lemma safe_esc self c : con_ok self -> (c_ch c = 56 -> was_saved self = true) -> safe self (Console_VT100_ESC_Locked true self c).
Proof.
  intros Hok Hbad. unfold Console_VT100_ESC_Locked. cbv zeta. pose proof (ao_gl _ (co_attr _ Hok)). safe_steps.
  all: try (apply safe_restore; [done|apply Hbad; lia]). all: repeat case_match; safe_steps.
Qed.

Lemma safe_c0 self ch : con_ok self -> safe self (Console_VT100_Execute_C0_Locked self ch).
Proof. intros Hok. unfold Console_VT100_Execute_C0_Locked. pose proof (ao_ss _ (co_attr _ Hok)). safe_steps. Qed.

Lemma safe_vt52_c0 self ch : con_ok self -> safe self (Console_VT52_Execute_C0_Locked self ch).
Proof. intros Hok. unfold Console_VT52_Execute_C0_Locked. safe_steps. Qed.
#[export] Hint Resolve safe_csi safe_esc safe_c0 safe_vt52_c0 : console.

Lemma safe_atari self c : con_ok self -> (c_ch c = 107 -> was_saved self = true) -> safe self (Console_VT52_ESC_Atari_Locked self c).
Proof.
  intros Hok Hbad. unfold Console_VT52_ESC_Atari_Locked, set_auto_wrap, set_visible, update_rendition. cbv zeta.
  assert (Hc : color_ok (Color_MakeIndex (Z.land (default 0 (c_params c !! 0%nat)) 7))).
  { apply index_ok. change 7 with (Z.ones 3). rewrite Z.land_ones by lia. apply Z.mod_pos_bound. lia. }
  safe_steps. apply safe_restore; [done|apply Hbad; lia].
Qed.

(** The sequences that a console does not survive: DCH too close to the end of the
    line, and a cursor that is restored before it was saved. *)
Definition bad_vt100 (self : Console) (c : call) : bool :=
  (c_action c =? VT500PARSE_ACTION_CSI_DISPATCH) && bad_dch self c ||
  (c_action c =? VT500PARSE_ACTION_ESC_DISPATCH) && (c_ch c =? 56) && negb (was_saved self).

Definition bad_vt52 (self : Console) (c : call) : bool :=
  (c_action c =? VT52PARSE_ACTION_ESC_DISPATCH) && (c_ch c =? 107) && negb (was_saved self) &&
  match compatibilityMode self with kCompatibilityMode_VT52_AtariExtensions => true | _ => false end.

Lemma safe_vt100_call self c :
  con_ok self -> bad_vt100 self c = false -> (c_action c = VT500PARSE_ACTION_PRINT -> 0 <= c_ch c < 128) ->
  safe self (Console_VT100_ParseByte_Locked true self c).
Proof.
  intros Hok Hbad Hp. unfold Console_VT100_ParseByte_Locked. unfold bad_vt100 in Hbad. apply orb_false_iff in Hbad as [Hb1 Hb2].
  destruct (c_action c =? VT500PARSE_ACTION_CSI_DISPATCH); [by apply safe_csi|].
  destruct (c_action c =? VT500PARSE_ACTION_ESC_DISPATCH); [apply safe_esc; [done|lia]|]. destruct (c_action c =? VT500PARSE_ACTION_EXECUTE); [by apply safe_c0|].
  destruct (Z.eqb_spec (c_action c) VT500PARSE_ACTION_PRINT) as [Ep|]; [|by apply safe_id].
  apply safe_bind; [by apply safe_print, Hp|]. intros s Hs _. pose proof (ao_ss _ (co_attr _ Hs)). cbv zeta. case_match; safe_steps.
Qed.

Lemma safe_vt52_call self c :
  con_ok self -> bad_vt52 self c = false -> (c_action c = VT52PARSE_ACTION_PRINT -> 0 <= c_ch c < 128) ->
  safe self (Console_VT52_ParseByte_Locked self c).
Proof.
  intros Hok Hbad Hp. unfold Console_VT52_ParseByte_Locked. unfold bad_vt52 in Hbad.
  destruct (c_action c =? VT52PARSE_ACTION_ESC_DISPATCH).
  - unfold Console_VT52_ESC_Locked. cbv zeta. safe_steps. apply safe_atari; [done|]. intros Hch. rewrite Hch in Hbad. cbn in Hbad. by destruct (was_saved self).
  - destruct (c_action c =? VT52PARSE_ACTION_EXECUTE); [by apply safe_vt52_c0|]. destruct (Z.eqb_spec (c_action c) VT52PARSE_ACTION_PRINT) as [Ep|]; [|by apply safe_id]. by apply safe_print, Hp.
Qed.

(** ** Bytes *)

(** The calls of a parser for a byte: only one of them is of interest here, and it
    is about a character of the font if it is to be printed. *)
Definition quiet (c : call) : bool :=
  negb (bool_decide (c_action c ∈ [VT500PARSE_ACTION_CSI_DISPATCH; VT500PARSE_ACTION_ESC_DISPATCH; VT500PARSE_ACTION_EXECUTE; VT500PARSE_ACTION_PRINT])).

Lemma quiet_call self c : quiet c = true -> Console_VT100_ParseByte_Locked true self c = Some self.
Proof.
  unfold quiet. intros Hq%negb_true_iff%bool_decide_eq_false. rewrite !elem_of_cons, elem_of_nil in Hq. unfold Console_VT100_ParseByte_Locked.
  by do 4 (case_match; [lia|]).
Qed.

Lemma run_quiet self l : forallb quiet l = true -> run_calls (Console_VT100_ParseByte_Locked true) self l = Some self.
Proof. induction l as [|c l IH]; cbn [forallb run_calls]; [done|]. intros [Hc Hl]%andb_true_iff. rewrite quiet_call by done. by apply IH. Qed.

Lemma run_calls_app f self l1 l2 : run_calls f self (l1 ++ l2) = s ← run_calls f self l1; run_calls f s l2.
Proof. revert self. induction l1 as [|c l1 IH]; intros self; [done|]. cbn. destruct (f self c); [|done]. apply IH. Qed.

Lemma do_action_calls p a ch q cs :
  do_action p a ch = Some (q, cs) ->
  cs = [] \/ exists c, cs = [c] /\ (c_action c = a /\ c_ch c = ch \/ c_action c = VT500PARSE_ACTION_ERROR).
Proof.
  unfold do_action. intros E. destruct (client_action a); [simplify_eq; eauto 10|]. destruct (a =? VT500PARSE_ACTION_IGNORE); [simplify_eq; eauto|].
  destruct (a =? VT500PARSE_ACTION_COLLECT); [destruct (collect ch p); cbn in E; simplify_eq; eauto|].
  destruct (a =? VT500PARSE_ACTION_PARAM); [destruct (param ch p); cbn in E; simplify_eq; eauto|].
  destruct (a =? VT500PARSE_ACTION_CLEAR); simplify_eq; eauto 10.
Qed.

Lemma do_optional_calls p a ch q cs :
  do_optional p a ch = Some (q, cs) ->
  cs = [] \/ exists c, cs = [c] /\ (c_action c = a /\ c_ch c = ch \/ c_action c = VT500PARSE_ACTION_ERROR).
Proof. unfold do_optional. destruct (a =? 0); [intros [= <- <-]; by left|]. apply do_action_calls. Qed.

Lemma printed_range s ch : 1 <= s <= 14 -> 0 <= ch < 256 -> (dec_change ch s).1 = VT500PARSE_ACTION_PRINT -> 32 <= ch < 128.
Proof.
  intros Hs Hch. assert (Hc : every (fun s ch => implb ((dec_change ch s).1 =? VT500PARSE_ACTION_PRINT) ((32 <=? ch) && (ch <? 128))) = true) by (vm_compute; reflexivity).
  apply (every_spec _ s ch) in Hc; [|done|done]. cbv beta in Hc. intros E. rewrite E in Hc. change (VT500PARSE_ACTION_PRINT =? VT500PARSE_ACTION_PRINT) with true in Hc. cbn [implb] in Hc. lia.
Qed.

Lemma quiet_entry s p ch q cs : do_optional p (entry_action s) ch = Some (q, cs) -> forallb quiet cs = true.
Proof.
  intros [->|(c & -> & Hc)]%do_optional_calls; [done|]. cbn. rewrite andb_true_r. unfold quiet. destruct Hc as [[-> _]| ->]; [|done].
  unfold entry_action. by repeat case_match.
Qed.

Lemma vt500_calls p ch p' calls :
  wf p -> 0 <= ch < 256 -> vt500parse_do_state_change p ch = Some (p', calls) ->
  exists l1 l2 l3, calls = l1 ++ l2 ++ l3 /\ forallb quiet l1 = true /\ forallb quiet l3 = true /\
    (l2 = [] \/ exists c, l2 = [c] /\ (c_action c = VT500PARSE_ACTION_PRINT -> 0 <= c_ch c < 128)).
Proof.
  intros Hw Hch. rewrite step_eq by (done || apply Hw). cbn zeta. intros E.
  assert (Hone : forall cs, cs = [] \/ (exists c, cs = [c] /\ (c_action c = (dec_change ch (v_state p)).1 /\ c_ch c = ch \/ c_action c = VT500PARSE_ACTION_ERROR)) ->
    cs = [] \/ exists c, cs = [c] /\ (c_action c = VT500PARSE_ACTION_PRINT -> 0 <= c_ch c < 128)).
  { intros cs [->|(c & -> & Hc)]; [by left|]. right. exists c. split; [done|]. intros Hp. destruct Hc as [[Ea ->]|Ea]; [|by rewrite Ea in Hp].
    pose proof (printed_range (v_state p) ch (wf_state _ Hw) Hch). rewrite <- Ea in *. naive_solver lia. }
  destruct (_ =? 0).
  - exists [], calls, []. rewrite app_nil_r. split_and!; [done..|]. by eapply Hone, do_action_calls.
  - rewrite do_exit, (bind_some eq_refl) in E. cbn [fst snd] in E. destruct (do_optional p _ ch) as [[q cs]|] eqn:E2; [|done]. cbn in E.
    destruct (do_optional q _ 0) as [[q3 cs3]|] eqn:E3; [|done]. cbn in E. simplify_eq. eexists _, cs, cs3. split; [done|]. split_and!.
    + unfold exit_calls, exit_action. by repeat case_match.
    + by eapply quiet_entry.
    + by eapply Hone, do_optional_calls.
Qed.

Lemma vt52_calls p ch p' calls :
  vt52_wf p -> 0 <= ch < 160 -> vt52parse_do_state_change p ch = Some (p', calls) ->
  calls = [] \/ exists c, calls = [c] /\ (c_action c = VT52PARSE_ACTION_PRINT -> 0 <= c_ch c < 128).
Proof.
  intros Hw Hch. rewrite vt52_step_eq by (done || lia). unfold vt52_change. replace (160 <=? ch) with false by lia.
  unfold vt52_action, esc_delay_dispatch, collect_byte. intros E. repeat case_match; simplify_eq; cbn in *; simplify_eq; try done; try (by left); right; eexists; split; try done; cbn; intros; try done; lia.
Qed.

(** A byte that the console does not survive.  A VT52 parser gets lost by bytes from
    160 on, and a VT500 parser by a 17th parameter. *)
Definition faulty (self : Console) (by_ : Z) : bool :=
  let p := vtparser self in
  if do_vt52 p then
    (160 <=? by_) || existsb (bad_vt52 self) (snd (default (p, []) (vtparser_byte p by_)))
  else
    bool_decide (by_ = 59 /\ num_params (vt500 p) = Z.of_nat MAX_PARAMS /\ (dec_change by_ (v_state (vt500 p))).1 = VT500PARSE_ACTION_PARAM) ||
    existsb (bad_vt100 self) (snd (default (p, []) (vtparser_byte p by_))).

Lemma console_byte_safe self by_ :
  con_ok self -> 0 <= by_ < 256 -> faulty self by_ = false -> safe self (console_byte true self by_).
Proof.
  intros Hok Hby Hf. unfold console_byte, faulty in *. cbv zeta in Hf. unfold vtparser_byte in *. pose proof (co_vt500 _ Hok) as Hw. pose proof (co_vt52 _ Hok) as Hw'.
  destruct (do_vt52 (vtparser self)); apply orb_false_iff in Hf as [Hf1 Hf2].
  - destruct (vt52_stays_in_bounds (vt52 (vtparser self)) by_ Hw' Hby) as (p' & calls & E & Hwf). rewrite E in *. cbn in Hf2 |- *.
    replace (by_ <? 160) with true in Hwf by lia. destruct (vt52_calls _ by_ _ _ Hw' ltac:(lia) E) as [->|(c & -> & Hp)].
    + apply safe_some; [by apply con_ok_parser|done].
    + cbn in Hf2 |- *. rewrite orb_false_r in Hf2. eapply safe_after; [apply safe_some; [by apply (con_ok_parser self (compatibilityMode self) (VtParser p' (vt500 (vtparser self)) true))|done]|].
      intros Hs. apply safe_bind; [by apply safe_vt52_call|]. intros s' Hs' _. by apply safe_id.
  - pose proof (vt500_stays_in_bounds (vt500 (vtparser self)) by_ Hw Hby) as Hb. apply bool_decide_eq_false in Hf1.
    destruct (decide _) as [|_] in Hb; [done|]. destruct Hb as (p' & calls & E & Hwf). rewrite E in *. cbn in Hf2 |- *.
    destruct (vt500_calls _ by_ _ _ Hw Hby E) as (l1 & l2 & l3 & -> & H1 & H3 & H2). rewrite !existsb_app in Hf2.
    rewrite run_calls_app, run_quiet by done. cbn. rewrite run_calls_app.
    eapply safe_after; [apply safe_some; [by apply (con_ok_parser self (compatibilityMode self) (VtParser (vt52 (vtparser self)) p' false))|done]|].
    intros Hs. apply safe_bind; [|intros s' Hs' _; rewrite run_quiet by done; by apply safe_id].
    destruct H2 as [->|(c & -> & Hp)]; [by apply safe_id|]. cbn in Hf2 |- *. apply safe_bind; [|intros s' Hs' _; by apply safe_id].
    apply safe_vt100_call; [done| |done]. change (bad_vt100 self c = false). lia.
Qed.

(** C25. A console stays correct whatever is written to it, up to the first byte that is
    faulty in the state at that time: the cursor is on the screen, no access leaves
    the bit planes, the fonts, the tab stops, the report queue or the arrays and
    tables of the parsers, and no assertion fails. *)
Theorem console_write_safe self l :
  con_ok self -> Forall (fun b => 0 <= b < 256) l ->
  (exists self', Console_Write true self l = Some self' /\ con_ok self') \/
  exists l1 b l2 s, l = l1 ++ b :: l2 /\ Console_Write true self l1 = Some s /\ con_ok s /\ faulty s b = true.
Proof.
  intros Hok Hl. revert self Hok. induction Hl as [|b l Hb Hl IH]; intros self Hok; [left; by exists self|].
  destruct (faulty self b) eqn:Ef; [right; by exists [], b, l, self|].
  destruct (console_byte_safe self b Hok Hb Ef) as (s & E & Hs & _). cbn [Console_Write]. rewrite (bind_some E).
  destruct (IH s Hs) as [?|(l1 & b' & l2 & s' & -> & E' & Hs' & Ef')]; [by left|]. right. exists (b :: l1), b', l2, s'.
  split; [done|]. cbn [Console_Write]. by rewrite (bind_some E).
Qed.

(** ** A new console *)

(** A frame buffer that a console can use. *)
Record frame_buffer (v : Video) : Prop := {
  fb_ok : video_ok v;
  fb_width : 0 < pixelsWidth v / 8 <= 128;
  fb_height : 0 < pixelsHeight v / 8 < 10 ^ 7 }.

(** Resetting gives a correct console, also if the one before was not. *)
Lemma console_create_ok store v :
  (forall n, Z.of_nat (length (store n)) = Z.max n 0) -> frame_buffer v ->
  exists self, Console_Create true store v = Some (EOK, Some self) /\ con_ok self /\ video self = v /\
    attr self = Attr (Color_MakeIndex 0) (Color_MakeIndex 2) plain_rendition 0 (-1) [kFont_VT100_US; kFont_VT100_UK; kFont_VT100_UK; kFont_VT100_LDCS] /\
    flags self = Flags true false true true /\ do_vt52 (vtparser self) = false /\ v_state (vt500 (vtparser self)) = VT500PARSE_STATE_GROUND /\
    c_x self = 0 /\ c_y self = 0.
Proof.
  intros Hst [Hv Hw Hh].
  assert (Eq : cbuf_init store (4 * (MAX_MESSAGE_LENGTH + 1)) = Some (CB (store 128) 128 0 0)) by reflexivity.
  assert (Hq : reports (CB (store 128) 128 0 0) []).
  { split_and!; [|done|done|done]. split; cbn; [exists 7; split; [lia|done]|by rewrite Hst|lia|lia|done]. }
  unfold Console_Create, Console_ResetState_Locked. rewrite (bind_some Eq), reset_attributes_eq. cbn [mbind option_bind bounds set_attr hTabStops].
  destruct (tabs_init_ok (TabStops_Deinit (hTabStops (zeroed_console v (CB (store 128) 128 0 0)))) (Z.max (Rect_GetWidth (Rect_Make 0 0 (pixelsWidth v / bbox_width kFont_VT100_US)
    (pixelsHeight v / bbox_height kFont_VT100_US)) / 8) 0) 8) as (t & vs & E & Ht); [lia..|].
  cbn [video zeroed_console]. cbn [hTabStops zeroed_console] in E. rewrite (bind_some E). cbn [snd fst]. change (is_ok EOK) with true. cbv iota.
  match goal with |- context [Console_MoveCursorTo_Locked ?s 0 0] => change (Console_MoveCursorTo_Locked s 0 0) with (Some s) end.
  cbn [mbind option_bind snd fst]. change (is_ok EOK) with true. eexists. split; [done|]. split; [|done].
  apply con_ok_flags. change (bbox_width kFont_VT100_US) with 8. change (bbox_height kFont_VT100_US) with 8. destruct fonts_ok as (H1 & H2 & H3).
  split; cbn; try done; try lia.
  - split; cbn; [done|done|lia].
  - split; cbn; [by apply index_ok..|lia|lia|done|by repeat constructor].
  - by exists vs.
  - intros c [->| ->]; right; by eexists.
  - by exists [].
  - split; cbn; unfold MAX_INTERMEDIATE_CHARS, MAX_PARAMS; (done || lia || by repeat constructor).
  - unfold vt52_wf. cbn. split_and!; (done || lia || auto).
Qed.

(** A screen of three columns and two rows, in two planes. *)
Definition sample_fb : Video := MkVideo (replicate 2 (replicate 64 255)) 4 24 16.

Lemma sample_fb_ok : frame_buffer sample_fb.
Proof. split; [split; [by vm_compute..|by repeat constructor]|by vm_compute|by vm_compute]. Qed.

Definition zeros (n : Z) : list Z := replicate (Z.to_nat n) 0.

Lemma zeros_length n : Z.of_nat (length (zeros n)) = Z.max n 0.
Proof. unfold zeros. rewrite length_replicate. lia. Qed.

Lemma console_write_safe_witness :
  exists c, Console_Create true zeros sample_fb = Some (EOK, Some c) /\
    ((exists self', Console_Write true c [27; 91; 50; 74; 65] = Some self' /\ con_ok self') \/
     exists l1 b l2 s, [27; 91; 50; 74; 65] = l1 ++ b :: l2 /\ Console_Write true c l1 = Some s /\ con_ok s /\ faulty s b = true).
Proof.
  destruct (console_create_ok zeros sample_fb zeros_length sample_fb_ok) as (c & E & Hok & _). exists c. split; [exact E|].
  apply (console_write_safe c [27; 91; 50; 74; 65] Hok). by repeat constructor.
Defined.
