(* ===== verification/ConsoleText.v ===== *)
(** * The console: what is on the screen

    The text that a console shows, against a terminal that keeps the characters of
    its cells and a cursor: printing, carriage return and line feed, with wrapping
    at the end of a line and scrolling at the end of the screen. *)

From Stdlib Require Import ZifyBool.
From S2P Require Import Prelude CBuf VtTables VtParse ConsoleFonts TabStops Console ConsoleVideo ConsoleVt ConsoleThm.

(** ** A terminal *)

Record Terminal := Term { cell : Z -> Z -> Z; cur_x : Z; cur_y : Z }.

Section Term.
Variables R B : Z.

Definition scrolled (f : Z -> Z -> Z) (c r : Z) : Z := if r =? B - 1 then 32 else f c (r + 1).

Definition new_line (x : Z) (t : Terminal) : Terminal :=
  if cur_y t + 1 <? B then Term (cell t) x (cur_y t + 1) else Term (scrolled (cell t)) x (B - 1).

Definition put_char (ch : Z) (t : Terminal) : Terminal :=
  let t' := Term (fun c r => if (c =? cur_x t) && (r =? cur_y t) then ch else cell t c r) (cur_x t + 1) (cur_y t) in
  if cur_x t + 1 <? R then t' else new_line 0 t'.

Definition term_byte (t : Terminal) (b : Z) : Terminal :=
  if b =? 10 then new_line 0 t else if b =? 13 then Term (cell t) 0 (cur_y t) else put_char b t.

Definition term_write (t : Terminal) (l : list Z) : Terminal := fold_left term_byte l t.
End Term.

(** ** Cells on the screen *)

Section Shows.
Variables (fg bg : Z) (font : Font).

(** The bytes of every cell are those of the glyph of its character. *)
Definition shows_cells (v : Video) (f : Z -> Z -> Z) : Prop :=
  forall p c r k, (p < length (plane v))%nat -> 0 <= c < pixelsWidth v / 8 -> 0 <= r < pixelsHeight v / 8 -> 0 <= k < 8 ->
    exists gp, Font_GetGlyph font (f c r) = Some gp /\ byte_at v p c (r * 8 + k) = glyph_cell fg bg gp p @ k.

(** A character set in which the space is empty. *)
Definition space_ok : Prop := Font_GetGlyph font 32 = Some (replicate 8 0).

Lemma blank_glyph p k : 0 <= k < 8 -> glyph_cell fg bg (replicate 8 0) p @ k = Some (blank bg p).
Proof.
  intros Hk. unfold glyph_cell, blank. rewrite fmap_replicate, lookup_replicate_2 by lia. unfold glyph_byte.
  by destruct (Z.testbit fg (Z.of_nat p)), (Z.testbit bg (Z.of_nat p)).
Qed.

Lemma shows_ext v f f' : (forall c r, 0 <= c < pixelsWidth v / 8 -> 0 <= r < pixelsHeight v / 8 -> f c r = f' c r) -> shows_cells v f -> shows_cells v f'.
Proof. intros He Hs p c r k Hp Hc Hr Hk. destruct (Hs p c r k Hp Hc Hr Hk) as (gp & Hg & E). exists gp. by rewrite <- He. Qed.

(** A cell of the screen is a row of cells away from the others. *)
Lemma in_cells_cell l t r b c y k : 0 <= k < 8 -> in_cells (Rect_Make l t r b) c (y * 8 + k) = (l <=? c) && (c <? r) && (t <=? y) && (y <? b).
Proof. intros Hk. unfold in_cells. cbn. lia. Qed.

Lemma shows_drawn v v' f ch gp x y :
  shows_cells v f -> video_ok v -> Font_GetGlyph font ch = Some gp ->
  paints v v' (fun p cx yy => if in_cells (Rect_Make x y (x + 1) (y + 1)) cx yy then glyph_cell fg bg gp p @ (yy - y * 8) else byte_at v p cx yy) ->
  shows_cells v' (fun c r => if (c =? x) && (r =? y) then ch else f c r).
Proof.
  intros Hs Hv Hg (_ & (Eb & Ew & Eh & El) & HF) p c r k Hp Hc Hr Hk. rewrite El in Hp. rewrite Ew in Hc. rewrite Eh in Hr. pose proof (vo_row _ Hv).
  rewrite HF by lia. rewrite in_cells_cell by done. destruct (Z.eqb_spec c x) as [->|], (Z.eqb_spec r y) as [->|]; cbn [andb].
  - exists gp. split; [done|]. replace (_ && _) with true by lia. f_equal. f_equal. lia.
  - replace (_ && _) with false by lia. by apply Hs.
  - replace (_ && _) with false by lia. by apply Hs.
  - replace (_ && _) with false by lia. by apply Hs.
Qed.

Lemma shows_filled v v' f l t r b :
  shows_cells v f -> video_ok v -> space_ok ->
  paints v v' (fun p cx yy => if in_cells (Rect_Make l t r b) cx yy then Some (blank bg p) else byte_at v p cx yy) ->
  shows_cells v' (fun c y => if (l <=? c) && (c <? r) && (t <=? y) && (y <? b) then 32 else f c y).
Proof.
  intros Hs Hv Hsp (_ & (Eb & Ew & Eh & El) & HF) p c y k Hp Hc Hy Hk. rewrite El in Hp. rewrite Ew in Hc. rewrite Eh in Hy. pose proof (vo_row _ Hv).
  rewrite HF by lia. rewrite in_cells_cell by done. destruct ((l <=? c) && _ && _ && _); [|by apply Hs].
  exists (replicate 8 0). split; [done|]. by rewrite blank_glyph.
Qed.

Lemma shows_copied v v' f l t r b dl dt :
  shows_cells v f -> video_ok v -> 0 <= dl -> 0 <= l + (dl - dl) -> 0 <= t -> dt <= t -> l + (r - dl) <= pixelsWidth v / 8 -> b + (t - dt) <= pixelsHeight v / 8 ->
  paints v v' (fun p cx yy => if in_cells (Rect_Make dl dt r b) cx yy then byte_at v p (l + (cx - dl)) (yy + (t - dt) * 8) else byte_at v p cx yy) ->
  shows_cells v' (fun c y => if (dl <=? c) && (c <? r) && (dt <=? y) && (y <? b) then f (l + (c - dl)) (y + (t - dt)) else f c y).
Proof.
  intros Hs Hv Hdl Hl Ht Hdt Hw Hh (_ & (Eb & Ew & Eh & El) & HF) p c y k Hp Hc Hy Hk. rewrite El in Hp. rewrite Ew in Hc. rewrite Eh in Hy. pose proof (vo_row _ Hv).
  rewrite HF by lia. rewrite in_cells_cell by done. destruct ((dl <=? c) && _ && _ && _) eqn:E; [|by apply Hs].
  destruct (Hs p (l + (c - dl)) (y + (t - dt)) k) as (gp & Hg & Eg); [done|lia..|]. exists gp. split; [done|].
  rewrite <- Eg. f_equal. lia.
Qed.
End Shows.

(** ** The console as a terminal *)

Definition columns (self : Console) : Z := pixelsWidth (video self) / 8.
Definition rows (self : Console) : Z := pixelsHeight (video self) / 8.

(** A console that takes text: nothing is hidden, lines wrap, characters overwrite,
    and no sequence is pending.  [t] is what it shows, on [R] columns and [B] rows. *)
Record text_console (fg bg : Z) (font : Font) (R B : Z) (self : Console) (t : Terminal) : Prop := {
  tc_ok : con_ok self;
  tc_columns : columns self = R;
  tc_rows : rows self = B;
  tc_colors : draw_colors (attr self) = Some (fg, bg);
  tc_font : current_font (attr self) = Some font;
  tc_space : space_ok font;
  tc_hidden : isHidden (characterRendition (attr self)) = false;
  tc_single : gl_ss23 (attr self) = -1;
  tc_wrap : isAutoWrapEnabled (flags self) = true;
  tc_insert : isInsertionMode (flags self) = false;
  tc_ansi : do_vt52 (vtparser self) = false;
  tc_ground : v_state (vt500 (vtparser self)) = VT500PARSE_STATE_GROUND;
  tc_cells : shows_cells fg bg font (video self) (cell t);
  tc_x : c_x self = cur_x t;
  tc_y : c_y self = cur_y t }.

Section Text.
Variables (fg bg : Z) (font : Font) (R B : Z).
Notation text := (text_console fg bg font R B).
Notation shows := (shows_cells fg bg font).

(** Only the frame buffer and the cursor change. *)
Lemma text_update self t v x y f :
  text self t -> video_ok v -> same_shape (video self) v -> shows v f -> 0 <= x < columns self -> 0 <= y < rows self ->
  text (set_cursor x y (set_video v self)) (Term f x y).
Proof.
  intros [] Hv Hsh Hf Hx Hy. pose proof Hsh as (_ & Ew & Eh & _). split; try done; [|by unfold columns; cbn; rewrite Ew|by unfold rows; cbn; rewrite Eh].
  apply con_ok_cursor; [by apply con_ok_video|by cbn; rewrite Ew|by cbn; rewrite Eh].
Qed.

(** A drawing function that leaves the cells [f]. *)
Definition draws (self : Console) (m : option Console) (f : Z -> Z -> Z) : Prop :=
  exists v, m = Some (set_video v self) /\ video_ok v /\ same_shape (video self) v /\ shows v f.

Lemma draws_intro self m v f : m = Some (set_video v self) -> video_ok v -> same_shape (video self) v -> shows v f -> draws self m f.
Proof. intros. by exists v. Qed.

Lemma draws_ext self m f f' : (forall c r, 0 <= c < columns self -> 0 <= r < rows self -> f c r = f' c r) -> draws self m f -> draws self m f'.
Proof.
  intros He (v & E & Hv & Hsh & Hf). exists v. split_and!; [done..|]. pose proof Hsh as (_ & Ew & Eh & _).
  eapply shows_ext; [|done]. rewrite Ew, Eh. done.
Qed.

Lemma draws_bind self m k f f' :
  con_ok self -> draw_colors (attr self) = Some (fg, bg) -> draws self m f ->
  (forall s, con_ok s -> draw_colors (attr s) = Some (fg, bg) -> bounds s = bounds self -> columns s = columns self -> rows s = rows self -> shows (video s) f -> draws s (k s) f') ->
  draws self (m ≫= k) f'.
Proof.
  intros Hok Hc (v & -> & Hv & Hsh & Hf) Hk. pose proof Hsh as (_ & Ew & Eh & _).
  destruct (Hk (set_video v self)) as (v' & E & Hv' & Hsh' & Hf'); [by apply con_ok_video|done|done|by unfold columns; cbn; rewrite Ew|by unfold rows; cbn; rewrite Eh|done|].
  exists v'. split_and!; [done..|by eapply same_shape_trans|done].
Qed.

Lemma draws_fill self f l t r b :
  con_ok self -> draw_colors (attr self) = Some (fg, bg) -> space_ok font -> shows (video self) f -> l <= r -> l <= columns self -> 0 <= r ->
  draws self (Console_FillRect_Locked self (Rect_Make l t r b) 32) (fun c y => if (l <=? c) && (c <? r) && (t <=? y) && (y <? b) then 32 else f c y).
Proof.
  intros Hok Hc Hsp Hf Hlr Hl Hr. pose proof (co_screen _ Hok) as Hs. pose proof (so_size _ Hs) as Hz. fold (columns self) (rows self) in Hz.
  destruct (fill_rect_spec self (Rect_Make l t r b) fg bg Hs Hc) as (v & E & Hp); [rewrite (so_bounds _ Hs); cbn; fold (columns self); lia|].
  rewrite (so_bounds _ Hs) in Hp. fold (columns self) (rows self) in Hp. unfold Rect_Intersection in Hp. cbn [r_left r_top r_right r_bottom] in Hp.
  pose proof Hp as (Hv & Hsh & _). eapply draws_ext; [|apply (draws_intro _ _ _ _ E Hv Hsh); exact (shows_filled fg bg font (video self) v f _ _ _ _ Hf (so_video _ Hs) Hsp Hp)].
  intros c y Hcc Hcy. cbn beta. match goal with |- (if ?x then _ else _) = (if ?z then _ else _) => replace x with z by lia end. done.
Qed.

Lemma draws_copy self f l t r b dx dy :
  con_ok self -> shows (video self) f -> 0 <= l <= r -> r <= columns self -> 0 <= t -> 0 <= dx -> dx + (r - l) <= columns self -> 0 <= dy <= t -> b <= rows self ->
  draws self (Console_CopyRect_Locked self (Rect_Make l t r b) dx dy)
    (fun c y => if (dx <=? c) && (c <? dx + (r - l)) && (dy <=? y) && (y <? b - t + dy) then f (l + (c - dx)) (y + (t - dy)) else f c y).
Proof.
  intros Hok Hf Hl Hr Ht Hdx Hw Hdy Hb. pose proof (co_screen _ Hok) as Hs. pose proof (so_video _ Hs) as Hv.
  destruct (copy_rect_spec self l t r b dx dy Hs) as (v & E & Hv' & Hsh & Hp); [lia|done|lia|fold (columns self); lia|lia|].
  specialize (Hp ltac:(lia)). fold (columns self) (rows self) in Hp. rewrite (Z.min_l (r - l)) in Hp by lia.
  apply (shows_copied fg bg font (video self) v f) in Hp; [|done|done|lia|lia|lia|lia|fold (columns self); lia|fold (rows self); lia].
  eapply draws_ext; [|by apply (draws_intro _ _ _ _ E Hv' Hsh)].
  intros c y Hc Hy. cbn beta. match goal with |- (if ?x then _ else _) = (if ?z then _ else _) => replace x with z by lia end. done.
Qed.

Lemma draws_scroll_up self f :
  con_ok self -> draw_colors (attr self) = Some (fg, bg) -> space_ok font -> shows (video self) f ->
  draws self (Console_ScrollBy_Locked self 0 1) (scrolled (rows self) f).
Proof.
  intros Hok Hc Hsp Hf. pose proof (so_size _ (co_screen _ Hok)) as Hz. fold (columns self) (rows self) in Hz.
  unfold Console_ScrollBy_Locked, Console_ClearScreen_Locked. rewrite !(bounds_eq _ Hok). fold (columns self) (rows self).
  change (Z.abs 0) with 0. change (Z.abs 1) with 1. change (0 <? 0) with false. change (1 <? 0) with false. change (0 <? 1) with true.
  unfold Rect_GetWidth, Rect_GetHeight. cbn [r_left r_top r_right r_bottom orb]. replace (0 <? columns self - 0) with true by lia. cbn [andb].
  destruct (Z.ltb_spec 1 (rows self - 0)).
  - eapply draws_bind; [done|done|by apply draws_copy; try done; lia|]. intros s Hs Hcs _ Ec Er Hfs.
    eapply draws_bind; [done|done|by apply draws_fill; try done; lia|]. intros s' Hs' Hcs' _ Ec' Er' Hfs'.
    apply (draws_intro _ _ (video s')); [by rewrite set_video_id|apply Hs'|done|]. eapply shows_ext; [|exact Hfs'].
    intros c r. fold (columns s') (rows s'). rewrite Ec', Ec, Er', Er. intros Hcc Hcr. unfold scrolled. repeat case_match; try lia; f_equal; lia.
  - eapply draws_ext; [|by apply draws_fill; try done; lia]. intros c r Hcc Hcr. cbn beta. unfold scrolled. repeat case_match; try lia.
Qed.

(** ** Bytes *)

Lemma new_line_text self t x :
  text self t -> 0 <= x < columns self ->
  exists s y, scroll_to self (c_y self + 1) = Some (s, y) /\ text (set_cursor x y s) (new_line (rows self) x t).
Proof.
  intros Ht Hx. pose proof Ht as []. pose proof (co_y _ tc_ok0) as Hy. fold (rows self) in Hy. unfold scroll_to, new_line. rewrite (bounds_eq _ tc_ok0).
  cbn [r_bottom]. fold (rows self). rewrite <- tc_y0. replace (c_y self + 1 <? 0) with false by lia.
  destruct (Z.ltb_spec (rows self - 1) (c_y self + 1)).
  - replace (c_y self + 1 - (rows self - 1)) with 1 by lia. replace (c_y self + 1 <? rows self) with false by lia.
    destruct (draws_scroll_up self (cell t)) as (v & -> & Hv & Hsh & Hf); [done..|]. eexists _, _. split; [done|]. by apply (text_update self t); try lia.
  - replace (c_y self + 1 <? rows self) with true by lia. eexists _, _. split; [done|].
    rewrite <- (set_video_id self) at 1. apply (text_update self t); try done; try lia. apply tc_ok0.
Qed.

Lemma text_dims self t s t' : text self t -> text s t' -> columns s = columns self /\ rows s = rows self.
Proof. intros [] []. split; congruence. Qed.

Lemma print_text self t ch :
  text self t -> 0 <= ch < 128 -> exists s, Console_PrintByte_Locked self ch = Some s /\ text s (put_char (columns self) (rows self) ch t).
Proof.
  intros Ht Hch. pose proof Ht as []. unfold Console_PrintByte_Locked. rewrite tc_insert0. cbn [mbind option_bind].
  destruct (attr_draw _ (co_attr _ tc_ok0)) as (fg' & bg' & font' & Hc & Hf & Hfont). rewrite tc_colors0 in Hc. rewrite tc_font0 in Hf.
  injection Hc as <- <-. injection Hf as <-.
  destruct (Hfont ch Hch) as [gp Hgp]. pose proof (co_screen _ tc_ok0) as Hs. pose proof (co_x _ tc_ok0) as Hx. pose proof (co_y _ tc_ok0) as Hy. fold (columns self) in Hx. fold (rows self) in Hy.
  destruct (draw_char_spec self ch (c_x self) (c_y self) fg bg font gp) as (v & E & Hp); [done..|by rewrite tc_hidden0|]. rewrite (bind_some E). pose proof Hp as (Hv & Hsh & _).
  apply (shows_drawn fg bg font _ _ (cell t) ch) in Hp; [|done|apply Hs|done].
  pose proof (text_update self t v (c_x self) (c_y self) _ Ht Hv Hsh Hp Hx Hy) as Ht'.
  change (set_cursor (c_x self) (c_y self) (set_video v self)) with (set_video v self) in Ht'. destruct (text_dims self t _ _ Ht Ht') as [Ec Er].
  set (s := set_video v self) in *. rewrite (tc_wrap _ _ _ _ _ _ _ Ht'). unfold Console_MoveCursor_Locked. change ((1 =? 0) && (0 =? 0)) with false. cbv iota.
  replace (c_x s + 1 <? 0) with false by (cbn; lia). rewrite (bounds_eq _ (tc_ok _ _ _ _ _ _ _ Ht')). cbn [r_right]. fold (columns s). rewrite Ec.
  unfold put_char. rewrite <- tc_x0, <- tc_y0. replace (c_y s + 0) with (c_y s) by lia. change (c_x s) with (c_x self). change (c_y s) with (c_y self).
  destruct (Z.ltb_spec (columns self - 1) (c_x self + 1)).
  - replace (c_x self + 1 <? columns self) with false by lia. cbv beta iota. destruct (new_line_text s _ 0 Ht') as (s' & y & E' & Ht2); [lia|].
    change (c_y s) with (c_y self) in E'. rewrite (bind_some E'). eexists. split; [done|]. cbn. rewrite Er in Ht2. exact Ht2.
  - replace (c_x self + 1 <? columns self) with true by lia. cbv beta iota. unfold scroll_to. replace (c_y self <? 0) with false by lia.
    rewrite (bounds_eq _ (tc_ok _ _ _ _ _ _ _ Ht')). cbn [r_bottom]. fold (rows s). rewrite Er. replace (rows self - 1 <? c_y self) with false by lia. cbn.
    eexists. split; [done|]. by apply (text_update self t); try lia.
Qed.

Lemma line_feed_text self t : text self t -> exists s, Console_Execute_LF_Locked self = Some s /\ text s (new_line (rows self) 0 t).
Proof.
  intros Ht. pose proof (tc_ok _ _ _ _ _ _ _ Ht) as Hok. pose proof (so_size _ (co_screen _ Hok)) as Hz. fold (columns self) in Hz.
  unfold Console_Execute_LF_Locked, Console_MoveCursor_Locked. change (1 =? 0) with false. rewrite andb_false_r.
  destruct (new_line_text self t 0 Ht) as (s & y & E & Ht'); [lia|]. rewrite (bind_some E). eexists. split; [done|]. cbn [fst snd].
  rewrite (bounds_eq _ Hok). cbn [r_right]. fold (columns self). by replace (Z.max (Z.min (c_x self + - c_x self) (columns self - 1)) 0) with 0 by lia.
Qed.

Lemma carriage_return_text self t :
  text self t -> exists s, Console_MoveCursorTo_Locked self 0 (c_y self) = Some s /\ text s (Term (cell t) 0 (cur_y t)).
Proof.
  intros Ht. pose proof (tc_ok _ _ _ _ _ _ _ Ht) as Hok. pose proof (co_y _ Hok) as Hy. pose proof (so_size _ (co_screen _ Hok)) as Hz. fold (columns self) in Hz. fold (rows self) in Hy.
  assert (Ht' : text (set_cursor 0 (c_y self) self) (Term (cell t) 0 (cur_y t))).
  { rewrite <- (tc_y _ _ _ _ _ _ _ Ht). rewrite <- (set_video_id self) at 2. apply (text_update self t); [done|apply Hok|done|apply Ht|lia|done]. }
  unfold Console_MoveCursorTo_Locked, Console_MoveCursor_Locked. destruct (_ && _) eqn:E.
  - exists self. split; [done|]. replace (set_cursor 0 (c_y self) self) with self in Ht'; [done|]. destruct self. cbn in *. unfold set_cursor. cbn. f_equal. lia.
  - eexists. split; [done|]. rewrite (bounds_eq _ Hok). cbn [r_right r_bottom]. fold (columns self) (rows self).
    replace (Z.max (Z.min (c_x self + (0 - c_x self)) (columns self - 1)) 0) with 0 by lia.
    by replace (Z.max (Z.min (c_y self + (c_y self - c_y self)) (rows self - 1)) 0) with (c_y self) by lia.
Qed.

(** Characters of a text: the printable ones, line feed and carriage return. *)
Definition text_byte (b : Z) : bool := (32 <=? b) && (b <? 128) || (b =? 10) || (b =? 13).

Lemma text_step self t b :
  text self t -> text_byte b = true ->
  console_byte true self b = Console_VT100_ParseByte_Locked true self (vt500_cb (vt500 (vtparser self)) (if b <? 32 then VT500PARSE_ACTION_EXECUTE else VT500PARSE_ACTION_PRINT) b).
Proof.
  intros [] Hb. unfold text_byte in Hb. unfold console_byte, vtparser_byte. rewrite tc_ansi0. cbv zeta.
  assert (Ed : dec_change b VT500PARSE_STATE_GROUND = (if b <? 32 then VT500PARSE_ACTION_EXECUTE else VT500PARSE_ACTION_PRINT, 0)).
  { unfold dec_change, dec_state, dec_anywhere. destruct (b <? 32) eqn:?; repeat (case_match; try lia); try done. }
  rewrite step_eq by (rewrite ?tc_ground0; lia). rewrite tc_ground0, Ed. cbn [fst snd Z.eqb]. unfold do_action.
  assert (Ec : client_action (if b <? 32 then VT500PARSE_ACTION_EXECUTE else VT500PARSE_ACTION_PRINT) = true) by (by destruct (b <? 32)). rewrite Ec. cbn.
  replace (set_parser _ _ self) with self; [by destruct (Console_VT100_ParseByte_Locked _ _ _)|].
  destruct self as [? ? ? ? ? ? ? ? ? ? [? ? ?]]. cbn in *. by subst.
Qed.

Lemma text_byte_shown self t b :
  text self t -> text_byte b = true -> exists s, console_byte true self b = Some s /\ text s (term_byte (columns self) (rows self) t b).
Proof.
  intros Ht Hb. rewrite (text_step self t) by done. unfold text_byte in Hb. unfold term_byte, Console_VT100_ParseByte_Locked. cbn [c_action c_ch vt500_cb].
  destruct (Z.ltb_spec b 32); cbn [Z.eqb Pos.eqb].
  - unfold Console_VT100_Execute_C0_Locked. assert (b = 10 \/ b = 13) as [->| ->] by lia; cbn [Z.eqb Pos.eqb orb]; [by apply line_feed_text|by apply carriage_return_text].
  - replace (b =? 10) with false by lia. replace (b =? 13) with false by lia.
    destruct (print_text self t b Ht) as (s & E & Ht'); [lia|]. rewrite (bind_some E). exists s. split; [|done]. cbv zeta.
    by rewrite (tc_single _ _ _ _ _ _ _ Ht').
Qed.

Lemma text_shown self t l :
  text self t -> forallb text_byte l = true -> exists s, Console_Write true self l = Some s /\ text s (term_write R B t l).
Proof.
  revert self t. induction l as [|b l IH]; intros self t Ht Hl; [by exists self|]. apply andb_true_iff in Hl as [Hb Hl].
  destruct (text_byte_shown self t b Ht Hb) as (s & E & Hs). cbn [Console_Write]. rewrite (bind_some E).
  rewrite (tc_columns _ _ _ _ _ _ _ Ht), (tc_rows _ _ _ _ _ _ _ Ht) in Hs. by apply IH.
Qed.
End Text.

(** ** A new console *)

Lemma new_console_blank store v :
  (forall n, Z.of_nat (length (store n)) = Z.max n 0) -> frame_buffer v ->
  exists c s0, Console_Create true store v = Some (EOK, Some c) /\ Console_Start c = Some s0 /\
    text_console 2 0 kFont_VT100_US (pixelsWidth v / 8) (pixelsHeight v / 8) s0 (Term (fun _ _ => 32) 0 0).
Proof.
  intros Hst Hfb. destruct (console_create_ok store v Hst Hfb) as (c & Ec & Hok & Ev & Ea & Ef & Ep & Eg & Ex & Ey). exists c.
  pose proof (co_screen _ Hok) as Hs.
  destruct (fill_rect_spec c (bounds c) 2 0 Hs) as (v1 & E1 & Hp); [by rewrite Ea|rewrite (so_bounds _ Hs); pose proof (so_size _ Hs); cbn; lia|].
  exists (set_video v1 c). split_and!; [done|done|].
  pose proof Hp as (Hv1 & Hsh & HF). pose proof Hsh as (Eb & Ew & Eh & El).
  split; cbn [set_video attr flags vtparser video cell cur_x cur_y c_x c_y columns rows]; rewrite ?Ea, ?Ef; try done.
  - by apply con_ok_video.
  - unfold columns. cbn. by rewrite Ew, Ev.
  - unfold rows. cbn. by rewrite Eh, Ev.
  - intros p cc r k Hpl Hcc Hr Hk. exists (replicate 8 0). split; [by vm_compute|]. rewrite blank_glyph by done. rewrite Ew in Hcc. rewrite Eh in Hr.
    pose proof (vo_row _ (so_video _ Hs)). rewrite HF by lia. rewrite (so_bounds _ Hs). unfold Rect_Intersection. cbn [r_left r_top r_right r_bottom].
    rewrite in_cells_cell by done. by replace (_ && _) with true by lia.
Qed.

(** C7. A new console shows the text that is written to it: after creating and starting
    it, writing printable characters, line feeds and carriage returns succeeds, and
    the bytes of every cell of the frame buffer are the glyph of the character that
    a terminal with the same number of columns and rows has there, in green on
    black.  The cursor is where that terminal has it.  Lines wrap at the right
    margin, and the screen scrolls up at the bottom. *)
Theorem console_shows_text store v l :
  (forall n, Z.of_nat (length (store n)) = Z.max n 0) -> frame_buffer v -> forallb text_byte l = true ->
  exists c s0 s, Console_Create true store v = Some (EOK, Some c) /\ Console_Start c = Some s0 /\ Console_Write true s0 l = Some s /\
    text_console 2 0 kFont_VT100_US (pixelsWidth v / 8) (pixelsHeight v / 8) s
      (term_write (pixelsWidth v / 8) (pixelsHeight v / 8) (Term (fun _ _ => 32) 0 0) l).
Proof.
  intros Hst Hfb Hl. destruct (new_console_blank store v Hst Hfb) as (c & s0 & Ec & Es & Ht).
  destruct (text_shown _ _ _ _ _ _ _ l Ht Hl) as (s & E & Hts). by exists c, s0, s.
Qed.

Lemma console_shows_text_witness :
  exists c s0 s, Console_Create true zeros sample_fb = Some (EOK, Some c) /\ Console_Start c = Some s0 /\
    Console_Write true s0 [65; 66; 67; 68; 10; 69] = Some s /\
    text_console 2 0 kFont_VT100_US 3 2 s (term_write 3 2 (Term (fun _ _ => 32) 0 0) [65; 66; 67; 68; 10; 69]).
Proof.
  apply (console_shows_text zeros sample_fb [65; 66; 67; 68; 10; 69]); [exact zeros_length|exact sample_fb_ok|reflexivity].
Defined.

(** ** Sequences that do not do what they are for *)

(** The console after a text, on a screen with two planes. *)
Definition run_text (columns rows : Z) (l : list Z) : option Console :=
  r ← Console_Create true zeros (MkVideo (replicate 2 (replicate (Z.to_nat (columns * rows * 8)) 0)) columns (columns * 8) (rows * 8));
  c ← r.2; c ← Console_Start c; Console_Write true c l.

(** The cells of the first column in the second plane, where green text is. *)
Definition column_cells (n : nat) (self : Console) : list (list Z) :=
  (fun r => omap (fun k => byte_at (video self) 1 0 (Z.of_nat (r * 8 + k))) (seq 0 8)) <$> seq 0 n.

(** Deleting a character next to the end of a line, restoring a cursor that was not
    saved, and a byte with the high bit set in VT52 mode. *)
Lemma dch_at_the_end : run_text 3 2 [27; 91; 50; 67; 27; 91; 80] = None.
Proof. by vm_compute. Qed.
Lemma restore_without_save : run_text 3 2 [27; 56] = None.
Proof. by vm_compute. Qed.
Lemma vt52_high_byte : run_text 3 2 [27; 91; 63; 50; 108; 0xe9; 65] = None.
Proof. by vm_compute. Qed.

(** Scrolling down, by a reverse line feed in the first line, repeats the first line
    instead of moving the lines: the rows of pixels are copied from the top. *)
Lemma scroll_down_smears :
  column_cells 3 <$> run_text 2 3 [65; 10; 66; 27; 77; 27; 77] =
    a ← Font_GetGlyph kFont_VT100_US 65; Some [replicate 8 0; a; a].
Proof. vm_compute. reflexivity. Qed.

(** Clearing from the start of the screen to the cursor leaves the line above the
    cursor. *)
Lemma clear_to_beginning_leaves_a_line :
  column_cells 3 <$> run_text 2 3 [65; 10; 66; 10; 67; 27; 91; 49; 74] =
    b ← Font_GetGlyph kFont_VT100_US 66; Some [replicate 8 0; b; replicate 8 0].
Proof. vm_compute. reflexivity. Qed.

(** Setting the cursor position ignores the position, and resetting the attributes
    without a parameter does nothing. *)
Lemma cursor_position_ignored : (fun s => (c_x s, c_y s)) <$> run_text 3 2 [65; 27; 91; 50; 59; 50; 72] = Some (0, 0).
Proof. vm_compute. reflexivity. Qed.
Lemma plain_reset_ignored : (fun s => isReverse (characterRendition (attr s))) <$> run_text 3 2 [27; 91; 55; 109; 27; 91; 109] = Some true.
Proof. vm_compute. reflexivity. Qed.
