(* ===== verification/FileHierarchy.v ===== *)
(** * The file hierarchy (kern/src/filemanager, kern/src/security)

    FileHierarchy.c joins filesystems into one name space: a filesystem is attached
    at a directory of another one, paths are resolved across these attachments and a
    path is produced for a directory.  perm_check.c has the permission checks and
    FileManager_Directory.c the root and the working directory of a process.

    An inode is named by the id of its filesystem and its own id, which is what
    [Inode_Equals] compares.  What the filesystems store is a type class: during a
    call of the functions here the directories do not change.  The references and
    inode locks that the calling thread holds are an explicit state, so that giving
    up a reference that is not held and taking a lock twice are failures ([None]),
    as is the use of a NULL pointer or of an attachment that was freed. *)

From S2P Require Import Prelude Bytes InodeCache.

(** ** Inodes and filesystems *)

Record node := Node { n_fs : Z; n_id : Z }.

#[export] Instance node_eq_dec : EqDecision node.
Proof. solve_decision. Defined.

Record NodeInfo := Info { i_isdir : bool; i_uid : Z; i_gid : Z; i_permissions : Z }.

(** The filesystems: what an inode is, and the outcome of the methods of the class
    Filesystem that look up inodes. *)
Class Filesystems := {
  inode_info : node -> NodeInfo;
  fs_is_readonly : Z -> bool;
  parent_node : node -> errno + node;
  node_for_name : node -> list Z -> errno + node;
  name_of_node : node -> Z -> errno + list Z;
  root_directory : Z -> errno + node }.

Section Defs.
Context {FSS : Filesystems}.

Definition Inode_IsDirectory (n : node) : bool := i_isdir (inode_info n).
Definition Inode_Equals (a b : node) : bool := (n_id a =? n_id b) && (n_fs a =? n_fs b).

(** ** Permissions *)

Definition UID_ROOT : Z := 0.
Definition R_OK : Z := 1.
Definition W_OK : Z := 2.
Definition X_OK : Z := 4.

Definition fs_perms_get (perms cls : Z) : Z := Z.land (Z.shiftr perms cls) 7.

Definition has_mode (mode m : Z) : bool := Z.land mode m =? m.

Definition perm_check_node_access (n : node) (uid gid mode : Z) : errno :=
  let i := inode_info n in
  if uid =? UID_ROOT then EOK
  else if has_mode mode W_OK && fs_is_readonly (n_fs n) then EROFS
  else
    let reqPerms := Z.lor (Z.lor (if has_mode mode R_OK then 4 else 0) (if has_mode mode W_OK then 2 else 0)) (if has_mode mode X_OK then 1 else 0) in
    let finalPerms :=
      if i_uid i =? uid then fs_perms_get (i_permissions i) 6
      else if i_gid i =? gid then fs_perms_get (i_permissions i) 3
      else fs_perms_get (i_permissions i) 0 in
    if Z.land finalPerms reqPerms =? reqPerms then EOK else EACCESS.

Definition perm_check_node_attr_update (n : node) (uid : Z) : errno :=
  if uid =? UID_ROOT then EOK
  else if fs_is_readonly (n_fs n) then EROFS
  else if i_uid (inode_info n) =? uid then EOK else EPERM.

(** Signals: [sndr_pid] and [sndr_uid] are those of the sender. *)
Definition PID_KERNELD : Z := 1.
Definition SIG_TARGET_PROC : Z := 3.

Definition perm_check_send_signal (sndr_pid sndr_uid rcv_scope rcv_pid rcv_uid : Z) : errno :=
  if rcv_pid =? PID_KERNELD then EPERM
  else if (rcv_scope <? SIG_TARGET_PROC) && (negb (sndr_pid =? PID_KERNELD) && negb (sndr_pid =? rcv_pid)) then EPERM
  else if sndr_uid =? UID_ROOT then EOK
  else if sndr_uid =? rcv_uid then EOK
  else EPERM.

(** ** References and locks of the thread *)

Record thread := Th { held : list node; locked : list node }.

Fixpoint remove_one (n : node) (l : list node) : option (list node) :=
  match l with
  | [] => None
  | m :: l => if bool_decide (m = n) then Some l else cons m <$> remove_one n l
  end.

Definition hold (n : node) (t : thread) : thread := Th (n :: held t) (locked t).
Definition Inode_Reacquire := hold.
Definition Inode_Relinquish (n : node) (t : thread) : option thread := l ← remove_one n (held t); Some (Th l (locked t)).
Definition Inode_Lock (n : node) (t : thread) : option thread :=
  if bool_decide (n ∈ locked t) then None else Some (Th (held t) (n :: locked t)).
Definition Inode_Unlock (n : node) (t : thread) : option thread := l ← remove_one n (locked t); Some (Th (held t) l).
Definition Inode_UnlockRelinquish (n : node) (t : thread) : option thread := t ← Inode_Unlock n t; Inode_Relinquish n t.

(** A lookup that returns a reference. *)
Definition acquired (r : errno + node) (t : thread) : (errno + node) * thread :=
  match r with inl e => (inl e, t) | inr n => (inr n, hold n t) end.

(** ** Attachments *)

(** Pointers to [FsNode]s and [AtNode]s are addresses. *)
Record FsNode := MkFsNode { fsn_filesystem : Z; attachmentPoints : list Z }.

Record AtNode := MkAtNode { attachingDirectory : node; attachingFsNode : Z; attachedDirectoryId : Z; attachedFsNode : Z }.

Inductive FHKeyType := kKeyType_Uplink | kKeyType_Downlink.

#[export] Instance FHKeyType_eq_dec : EqDecision FHKeyType.
Proof. solve_decision. Defined.

Record FHKey := MkFHKey { k_at : Z; k_node : node; k_type : FHKeyType }.

#[export] Instance FHKey_eq_dec : EqDecision FHKey.
Proof. solve_decision. Defined.

Record FileHierarchy := MkFH {
  fsnodes : gmap Z FsNode; atnodes : gmap Z AtNode; fh_root : Z; rootDirectory : node; hashChain : list (list FHKey) }.

Definition HASH_INDEX (type : FHKeyType) (n : node) : nat :=
  Z.to_nat (Z.land (hash_djb2_scalar (u32 (match type with kKeyType_Uplink => 0 | kKeyType_Downlink => 1 end + u32 (n_fs n)) + u32 (n_id n))) 7).

Definition FileHierarchy_InsertKey (key : FHKey) (self : FileHierarchy) : FileHierarchy :=
  let i := HASH_INDEX (k_type key) (k_node key) in
  MkFH (fsnodes self) (atnodes self) (fh_root self) (rootDirectory self) (<[i := key :: chain (hashChain self) i]> (hashChain self)).

Fixpoint find_key (l : list FHKey) (n : node) (type : FHKeyType) : option FHKey :=
  match l with
  | [] => None
  | k :: l => if bool_decide (k_type k = type /\ k_node k = n) then Some k else find_key l n type
  end.

Definition FileHierarchy_GetKey (self : FileHierarchy) (n : node) (type : FHKeyType) : option FHKey :=
  find_key (chain (hashChain self) (HASH_INDEX type n)) n type.

(** [Some None] is NULL; a key of a freed attachment is a failure. *)
Definition FileHierarchy_GetAtNode (self : FileHierarchy) (n : node) (type : FHKeyType) : option (option (Z * AtNode)) :=
  match FileHierarchy_GetKey self n type with
  | None => Some None
  | Some k => at_ ← atnodes self !! k_at k; Some (Some (k_at k, at_))
  end.

(** The depth of the tree of filesystems is the fuel. *)
Fixpoint find_fsnode_rec (fuel : nat) (self : FileHierarchy) (a fsid : Z) : option (option Z) :=
  match fuel with
  | O => None
  | S fuel =>
      nd ← fsnodes self !! a;
      if fsn_filesystem nd =? fsid then Some (Some a)
      else
        (fix each (l : list Z) : option (option Z) :=
           match l with
           | [] => Some None
           | it :: l =>
               at_ ← atnodes self !! it;
               r ← find_fsnode_rec fuel self (attachedFsNode at_) fsid;
               match r with Some _ => Some r | None => each l end
           end) (attachmentPoints nd)
  end.

Definition FileHierarchy_GetFsNode (self : FileHierarchy) (fsid : Z) : option (option Z) :=
  find_fsnode_rec (S (size (fsnodes self))) self (fh_root self) fsid.

(** [alloc] says whether the object and the node of the root filesystem can be
    allocated; [a] is the address of the latter. *)
Definition FileHierarchy_Create (alloc : bool * bool) (a fs : Z) (t : thread) : option (errno * option FileHierarchy * thread) :=
  if alloc.1 then
    match acquired (root_directory fs) t with
    | (inl e, t) => Some (e, None, t)
    | (inr rootDir, t) =>
        if alloc.2 then Some (EOK, Some (MkFH {[ a := MkFsNode fs [] ]} ∅ a rootDir (replicate 8 [])), t)
        else t ← Inode_Relinquish rootDir t; Some (ENOMEM, None, t)
    end
  else Some (ENOMEM, None, t).

(** [create_atnode]: [ok] are the allocations of the two nodes.  The reference to the
    attaching directory stays with the node. *)
Definition create_atnode (ok : bool * bool) (atFsNode : Z) (atDir : node) (fs aFs : Z) (t : thread) : option ((errno + AtNode) * thread) :=
  if ok.1 then
    match acquired (root_directory fs) t with
    | (inl e, t) => Some (inl e, t)
    | (inr rootDir, t) =>
        if ok.2 then
          let t := Inode_Reacquire atDir t in
          t ← Inode_Relinquish rootDir t;
          Some (inr (MkAtNode atDir atFsNode (n_id rootDir) aFs), t)
        else t ← Inode_Relinquish rootDir t; Some (inl ENOMEM, t)
    end
  else Some (inl ENOMEM, t).

Definition add_attachment (a : Z) (nd : FsNode) : FsNode := MkFsNode (fsn_filesystem nd) (attachmentPoints nd ++ [a]).
Definition remove_attachment (a : Z) (nd : FsNode) : FsNode :=
  MkFsNode (fsn_filesystem nd) (filter (fun b => b <> a) (attachmentPoints nd)).

(** [ok] are the allocations of the nodes, [kok] those of the keys; [aFs] and [aAt]
    are the addresses of the nodes. *)
Definition FileHierarchy_AttachFilesystem (ok kok : bool * bool) (aFs aAt : Z) (self : FileHierarchy) (fs : Z) (atDir : node) (t : thread)
    : option (errno * FileHierarchy * thread) :=
  if negb (Inode_IsDirectory atDir) then Some (ENOTDIR, self, t)
  else
    atFsNode ← FileHierarchy_GetFsNode self (n_fs atDir);
    match atFsNode with
    | None => Some (EINVAL, self, t)
    | Some atFsNode =>
        at_ ← FileHierarchy_GetAtNode self atDir kKeyType_Downlink;
        match at_ with
        | Some _ => Some (EBUSY, self, t)
        | None =>
            '(r, t) ← create_atnode ok atFsNode atDir fs aFs t;
            match r with
            | inl e => Some (e, self, t)
            | inr atNode =>
                if kok.1 && kok.2 then
                  let self := MkFH (alter (add_attachment aAt) atFsNode (<[aFs := MkFsNode fs []]> (fsnodes self))) (<[aAt := atNode]> (atnodes self))
                    (fh_root self) (rootDirectory self) (hashChain self) in
                  let self := FileHierarchy_InsertKey (MkFHKey aAt (Node fs (attachedDirectoryId atNode)) kKeyType_Uplink) self in
                  Some (EOK, FileHierarchy_InsertKey (MkFHKey aAt atDir kKeyType_Downlink) self, t)
                else t ← Inode_Relinquish atDir t; Some (ENOMEM, self, t)
            end
        end
    end.

(** [destroy_atnode] with the filesystem below it: the nodes that are freed, and the
    references that are given up. *)
Fixpoint destroy_atnode (fuel : nat) (a : Z) (self : FileHierarchy) (t : thread) : option (FileHierarchy * thread) :=
  match fuel with
  | O => None
  | S fuel =>
      at_ ← atnodes self !! a;
      t ← Inode_Relinquish (attachingDirectory at_) t;
      nd ← fsnodes self !! attachedFsNode at_;
      '(self, t) ← (fix each (l : list Z) (self : FileHierarchy) (t : thread) : option (FileHierarchy * thread) :=
         match l with
         | [] => Some (self, t)
         | it :: l => '(self, t) ← destroy_atnode fuel it self t; each l self t
         end) (attachmentPoints nd) self t;
      Some (MkFH (delete (attachedFsNode at_) (fsnodes self)) (delete a (atnodes self)) (fh_root self) (rootDirectory self) (hashChain self), t)
  end.

Definition drop_keys (a : Z) (cs : list (list FHKey)) : list (list FHKey) := filter (fun k => k_at k <> a) <$> cs.

(** [stop] is the outcome of stopping the filesystem; it is EOK for a catalog, which
    is not stopped. *)
Definition FileHierarchy_DetachFilesystemAt (stop : errno) (self : FileHierarchy) (dir : node) (forced : bool) (t : thread)
    : option (errno * FileHierarchy * thread) :=
  if Inode_Equals (rootDirectory self) dir then Some (EBUSY, self, t)
  else
    match FileHierarchy_GetKey self dir kKeyType_Uplink with
    | None => Some (EINVAL, self, t)
    | Some upKey =>
        let a := k_at upKey in
        atNode ← atnodes self !! a;
        nd ← fsnodes self !! attachedFsNode atNode;
        if negb forced && negb (bool_decide (attachmentPoints nd = [])) then Some (EBUSY, self, t)
        else
          t ← Inode_Relinquish dir t;
          if bool_decide (stop = EBUSY) then Some (EOK, self, t)
          else
            let self := MkFH (alter (remove_attachment a) (attachingFsNode atNode) (fsnodes self)) (atnodes self) (fh_root self) (rootDirectory self)
              (drop_keys a (hashChain self)) in
            '(self, t) ← destroy_atnode (S (size (atnodes self))) a self t;
            Some (EOK, self, t)
    end.

Definition FileHierarchy_IsAttachmentPoint (self : FileHierarchy) (n : node) : option bool :=
  r ← FileHierarchy_GetAtNode self n kKeyType_Downlink; Some (bool_decide (is_Some r)).

(** The directory at which [dir] is attached; NULL for the root of the hierarchy. *)
Definition AcquireDirectoryMountingDirectory (self : FileHierarchy) (dir : node) (t : thread) : option ((errno + option node) * thread) :=
  at_ ← FileHierarchy_GetAtNode self dir kKeyType_Uplink;
  match at_ with
  | Some (_, at_) => Some (inr (Some (attachingDirectory at_)), Inode_Reacquire (attachingDirectory at_) t)
  | None =>
      rt ← fsnodes self !! fh_root self;
      Some (if (fsn_filesystem rt =? n_fs dir) && (n_id (rootDirectory self) =? n_id dir) then inr None else inl ENOENT, t)
  end.

(** The root of the filesystem that is attached at [dir], or NULL, also if that root
    can not be acquired. *)
Definition AcquireDirectoryMountedAtDirectory (self : FileHierarchy) (dir : node) (t : thread) : option (option node * thread) :=
  at_ ← FileHierarchy_GetAtNode self dir kKeyType_Downlink;
  match at_ with
  | None => Some (None, t)
  | Some (_, at_) =>
      nd ← fsnodes self !! attachedFsNode at_;
      let '(r, t) := acquired (root_directory (fsn_filesystem nd)) t in
      Some (match r with inr ip => Some ip | inl _ => None end, t)
  end.

(** ** Walking *)

(** [io] is the optional parameter that is replaced by the id of the directory at
    which [pDir] is attached. *)
Definition FileHierarchy_AcquireParentDirectory (self : FileHierarchy) (pDir rootDir : node) (uid gid : Z) (io : option Z) (t : thread)
    : option ((errno + node) * option Z * thread) :=
  if Inode_Equals pDir rootDir then Some (inr pDir, io, Inode_Reacquire pDir t)
  else
    let e := perm_check_node_access pDir uid gid X_OK in
    if negb (is_ok e) then Some (inl e, io, t)
    else
      match acquired (parent_node pDir) t with
      | (inl e, t) => Some (inl e, io, t)
      | (inr pParentDir, t) =>
          if negb (Inode_Equals pDir pParentDir) then Some (inr pParentDir, io, t)
          else
            t ← Inode_Relinquish pParentDir t;
            '(r, t) ← AcquireDirectoryMountingDirectory self pDir t;
            match r with
            | inl e => Some (inl e, io, t)
            | inr None => None
            | inr (Some pMountingDir) =>
                t ← Inode_Lock pMountingDir t;
                let e := perm_check_node_access pMountingDir uid gid X_OK in
                let '(r, t) := if is_ok e then acquired (parent_node pMountingDir) t else (inl e, t) in
                t ← Inode_UnlockRelinquish pMountingDir t;
                Some (r, (fun _ => n_id pMountingDir) <$> io, t)
            end
      end.

Definition FileHierarchy_AcquireChildNode (self : FileHierarchy) (pDir : node) (pName : list Z) (uid gid : Z) (t : thread)
    : option ((errno + node) * thread) :=
  let e := perm_check_node_access pDir uid gid X_OK in
  if negb (is_ok e) then Some (inl e, t)
  else
    match acquired (node_for_name pDir pName) t with
    | (inl e, t) => Some (inl e, t)
    | (inr pChildNode, t) =>
        if Inode_Equals pDir pChildNode then t ← Inode_Relinquish pChildNode t; Some (inl EIO, t)
        else
          '(m, t) ← AcquireDirectoryMountedAtDirectory self pChildNode t;
          match m with
          | None => Some (inr pChildNode, t)
          | Some ip => t ← Inode_Relinquish pChildNode t; Some (inr ip, t)
          end
    end.

(** ** Paths *)

Definition kMaxPathLength : nat := Z.to_nat 1023.
Definition kMaxPathComponentLength : nat := Z.to_nat 255.

(** A path is the text without its NUL. *)
Definition path_at (path : list Z) (i : nat) : Z := default 0 (path !! i).

(** The loops over the characters of a path: up to the first one for which [f] does
    not hold, or the maximum length. *)
Fixpoint skip_while (fuel : nat) (f : Z -> bool) (path : list Z) (i : nat) : nat :=
  match fuel with
  | O => i
  | S fuel => if (i <? kMaxPathLength)%nat && f (path_at path i) then skip_while fuel f path (S i) else i
  end.

Definition is_slash (ch : Z) : bool := ch =? 47.
Definition is_name (ch : Z) : bool := negb (ch =? 0) && negb (ch =? 47).

(** The error, the position behind the component, its text, and whether it is the
    last one. *)
Definition get_next_path_component (path : list Z) (pi : nat) : errno * nat * list Z * bool :=
  let i := skip_while kMaxPathLength is_slash path pi in
  if (kMaxPathLength <=? i)%nat then (ENAMETOOLONG, i, [], false)
  else if (pi <? i)%nat && (path_at path i =? 0) then (EOK, i, [46], true)
  else
    let is_ := i in
    let i := skip_while kMaxPathLength is_name path i in
    let nc := (i - is_)%nat in
    if (kMaxPathLength <=? i)%nat || (kMaxPathComponentLength <=? nc)%nat then (ENAMETOOLONG, i, [], false)
    else (EOK, i, take nc (drop is_ path), path_at path i =? 0).

Inductive PathResolution := kPathResolution_Target | kPathResolution_PredecessorOfTarget.

#[export] Instance PathResolution_eq_dec : EqDecision PathResolution.
Proof. solve_decision. Defined.

(** The loop with the current inode locked: the inode, the last component and the
    error if the loop is left by one. *)
Fixpoint resolve_loop (fuel : nat) (self : FileHierarchy) (mode : PathResolution) (path : list Z) (rootDir : node) (uid gid : Z)
    (pCurNode : node) (pi : nat) (t : thread) : option (errno * node * list Z * thread) :=
  match fuel with
  | O => None
  | S fuel =>
      let '(e, pi, pc, isLast) := get_next_path_component path pi in
      if negb (is_ok e) then Some (e, pCurNode, pc, t)
      else if (length pc =? 0)%nat then Some (EOK, pCurNode, pc, t)
      else if negb (Inode_IsDirectory pCurNode) then Some (ENOTDIR, pCurNode, pc, t)
      else if bool_decide (mode = kPathResolution_PredecessorOfTarget) && isLast then Some (EOK, pCurNode, pc, t)
      else if bool_decide (pc = [46]) then resolve_loop fuel self mode path rootDir uid gid pCurNode pi t
      else
        '(r, t) ← (if bool_decide (pc = [46; 46])
                   then '(r, _, t) ← FileHierarchy_AcquireParentDirectory self pCurNode rootDir uid gid None t; Some (r, t)
                   else FileHierarchy_AcquireChildNode self pCurNode pc uid gid t);
        match r with
        | inl e => Some (e, pCurNode, pc, t)
        | inr pNextNode =>
            t ← Inode_UnlockRelinquish pCurNode t;
            t ← Inode_Lock pNextNode t;
            resolve_loop fuel self mode path rootDir uid gid pNextNode pi t
        end
  end.

(** The resolved inode and the last path component. *)
Definition FileHierarchy_AcquireNodeForPath (self : FileHierarchy) (mode : PathResolution) (path : list Z) (rootDir cwDir : node) (uid gid : Z)
    (t : thread) : option ((errno + node * list Z) * thread) :=
  match path with
  | [] => Some (inl ENOENT, t)
  | ch :: _ =>
      let pStartNode := if ch =? 47 then rootDir else cwDir in
      t ← Inode_Lock pStartNode (Inode_Reacquire pStartNode t);
      '(e, pCurNode, pc, t) ← resolve_loop (S (length path)) self mode path rootDir uid gid pStartNode 0 t;
      if is_ok e then t ← Inode_Unlock pCurNode t; Some (inr (pCurNode, pc), t)
      else t ← Inode_UnlockRelinquish pCurNode t; Some (inl e, t)
  end.

(** memcpy inside of a buffer, byte by byte and upwards; [None] is outside of the
    buffer.  The variant that copies words is used if the distance is a multiple of
    the word size, and gives the same bytes. *)
Fixpoint memcpy (n : nat) (dst src : nat) (buf : list Z) : option (list Z) :=
  match n with
  | O => Some buf
  | S n => b ← buf !! src; if (dst <? length buf)%nat then memcpy n (S dst) (S src) (<[dst := b]> buf) else None
  end.

(** The name is copied to the start of the buffer, which has room for [capacity]
    characters. *)
Definition MutablePathComponent_SetString (capacity : nat) (str : list Z) (buf : list Z) : errno * nat * list Z :=
  if (capacity <? length str)%nat then (ERANGE, O, buf) else (EOK, length str, patch 0 str buf).

Definition get_name_of_node (id : Z) (pDir : node) (uid gid : Z) (capacity : nat) (buf : list Z) (t : thread)
    : option (errno * nat * list Z * thread) :=
  t ← Inode_Lock pDir t;
  let e := perm_check_node_access pDir uid gid (Z.lor R_OK X_OK) in
  let '(e, n, buf) :=
    if is_ok e then match name_of_node pDir id with inl e => (e, O, buf) | inr nm => MutablePathComponent_SetString capacity nm buf end
    else (e, O, buf) in
  t ← Inode_Unlock pDir t;
  Some (e, n, buf, t).

(** The loop of GetPath: [p] is the start of the path so far.  [None] is also the
    loop that never meets the root directory. *)
Fixpoint path_loop (fuel : nat) (self : FileHierarchy) (rootDir : node) (uid gid : Z) (pCurDir : node) (p : nat) (buf : list Z) (t : thread)
    : option (errno * node * nat * list Z * thread) :=
  match fuel with
  | O => None
  | S fuel =>
      if Inode_Equals pCurDir rootDir then Some (EOK, pCurDir, p, buf, t)
      else
        '(r, io, t) ← FileHierarchy_AcquireParentDirectory self pCurDir rootDir uid gid (Some (n_id pCurDir)) t;
        match r with
        | inl e => Some (e, pCurDir, p, buf, t)
        | inr pParentDir =>
            t ← Inode_Relinquish pCurDir t;
            '(e, n, buf, t) ← get_name_of_node (default 0 io) pParentDir uid gid p buf t;
            if negb (is_ok e) then Some (e, pParentDir, p, buf, t)
            else
              let p := (p - n)%nat in
              buf ← memcpy n p 0 buf;
              if (p =? 0)%nat then Some (ERANGE, pParentDir, p, buf, t)
              else path_loop fuel self rootDir uid gid pParentDir (p - 1) (<[(p - 1)%nat := 47]> buf) t
        end
  end.

(** [buf] has [bufferSize] bytes. *)
Definition FileHierarchy_GetPath (fuel : nat) (self : FileHierarchy) (nd rootDir : node) (uid gid : Z) (buf : list Z) (t : thread)
    : option (errno * list Z * thread) :=
  let t := Inode_Reacquire nd t in
  match length buf with
  | O => None
  | S last =>
      '(e, pCurDir, p, buf, t) ← path_loop fuel self rootDir uid gid nd last (<[last := 0]> buf) t;
      let '(e, p, buf) :=
        if is_ok e && (path_at buf p =? 0) then (if (p =? 0)%nat then (ERANGE, p, buf) else (EOK, (p - 1)%nat, <[(p - 1)%nat := 47]> buf))
        else (e, p, buf) in
      if is_ok e then buf ← memcpy (length buf - p) 0 p buf; t ← Inode_Relinquish pCurDir t; Some (EOK, buf, t)
      else t ← Inode_Relinquish pCurDir t; Some (e, <[O := 0]> buf, t)
  end.

(** ** The directories of a process *)

Record FileManager := MkFM { fm_rootDirectory : node; workingDirectory : node; ruid : Z; rgid : Z }.

(** [old] is the directory that is replaced, and the result the new one. *)
Definition FileManager_SetDirectoryPath (fm : FileManager) (self : FileHierarchy) (path : list Z) (old : node) (t : thread)
    : option (errno * node * thread) :=
  '(r, t) ← FileHierarchy_AcquireNodeForPath self kPathResolution_Target path (fm_rootDirectory fm) (workingDirectory fm) (ruid fm) (rgid fm) t;
  match r with
  | inl e => Some (e, old, t)
  | inr (n, _) =>
      t ← Inode_Lock n t;
      let e := if Inode_IsDirectory n then perm_check_node_access n (ruid fm) (rgid fm) X_OK else ENOTDIR in
      t ← Inode_Unlock n t;
      if is_ok e then t ← Inode_Relinquish old t; Some (EOK, n, t)
      else t ← Inode_Relinquish n t; Some (e, old, t)
  end.

Definition FileManager_SetRootDirectoryPath (fm : FileManager) (self : FileHierarchy) (path : list Z) (t : thread)
    : option (errno * FileManager * thread) :=
  '(e, d, t) ← FileManager_SetDirectoryPath fm self path (fm_rootDirectory fm) t;
  Some (e, MkFM d (workingDirectory fm) (ruid fm) (rgid fm), t).

Definition FileManager_SetWorkingDirectoryPath (fm : FileManager) (self : FileHierarchy) (path : list Z) (t : thread)
    : option (errno * FileManager * thread) :=
  '(e, d, t) ← FileManager_SetDirectoryPath fm self path (workingDirectory fm) t;
  Some (e, MkFM (fm_rootDirectory fm) d (ruid fm) (rgid fm), t).

Definition FileManager_GetWorkingDirectoryPath (fuel : nat) (fm : FileManager) (self : FileHierarchy) (buf : list Z) (t : thread)
    : option (errno * list Z * thread) :=
  FileHierarchy_GetPath fuel self (workingDirectory fm) (fm_rootDirectory fm) (ruid fm) (rgid fm) buf t.
End Defs.
