(* ===== verification/FileHierInv.v ===== *)
(** * The file hierarchy: attachments

    The invariant of the tree of filesystems and of the hash table of its keys, that
    attaching and detaching keep it, and what the lookups find: a table of mounts. *)

From S2P Require Import Prelude Bytes InodeCache FileHierarchy.

(** What the functions rely on in the filesystems: a directory knows the directory
    that it is in, the root of a filesystem is its own parent, and the name by which
    a directory is listed leads to it. *)
Definition good_name (nm : list Z) : Prop :=
  nm <> [] /\ nm <> [46] /\ nm <> [46; 46] /\ Forall (fun ch => ch <> 0 /\ ch <> 47) nm.

Class FilesystemsSpec {FSS : Filesystems} : Prop := {
  fs_parent_error : forall n, parent_node n <> inl EOK;
  fs_child_error : forall d nm, node_for_name d nm <> inl EOK;
  fs_name_error : forall d id, name_of_node d id <> inl EOK;
  fs_root_error : forall f, root_directory f <> inl EOK;
  fs_child_fs : forall d nm c, node_for_name d nm = inr c -> n_fs c = n_fs d;
  fs_child_parent : forall d nm c, node_for_name d nm = inr c -> c <> d -> Inode_IsDirectory c = true -> parent_node c = inr d;
  fs_root_dir : forall f r, root_directory f = inr r -> n_fs r = f /\ Inode_IsDirectory r = true /\ parent_node r = inr r;
  fs_listed : forall d id nm, parent_node (Node (n_fs d) id) = inr d -> id <> n_id d -> name_of_node d id = inr nm ->
    node_for_name d nm = inr (Node (n_fs d) id) /\ good_name nm /\ Inode_IsDirectory d = true }.

Section Inv.
Context {FSS : Filesystems} {FSP : FilesystemsSpec}.

Lemma Inode_Equals_spec a b : reflect (a = b) (Inode_Equals a b).
Proof.
  destruct a as [f i], b as [g j]. unfold Inode_Equals. cbn. destruct (Z.eqb_spec i j), (Z.eqb_spec f g); cbn; constructor; congruence.
Qed.

(** The node that a key of an attachment is for. *)
Definition key_node (self : FileHierarchy) (a : Z) (type : FHKeyType) : option node :=
  at_ ← atnodes self !! a;
  match type with
  | kKeyType_Downlink => Some (attachingDirectory at_)
  | kKeyType_Uplink => nd ← fsnodes self !! attachedFsNode at_; Some (Node (fsn_filesystem nd) (attachedDirectoryId at_))
  end.

Record fh_ok (self : FileHierarchy) : Prop := {
  fo_chains : length (hashChain self) = 8%nat;
  fo_keys : forall i a n ty, MkFHKey a n ty ∈ chain (hashChain self) i <-> key_node self a ty = Some n /\ i = HASH_INDEX ty n;
  fo_down_inj : forall a b x y, atnodes self !! a = Some x -> atnodes self !! b = Some y -> attachingDirectory x = attachingDirectory y -> a = b;
  fo_fs_inj : forall p q x y, fsnodes self !! p = Some x -> fsnodes self !! q = Some y -> fsn_filesystem x = fsn_filesystem y -> p = q;
  fo_up_inj : forall a b x y, atnodes self !! a = Some x -> atnodes self !! b = Some y -> attachedFsNode x = attachedFsNode y -> a = b;
  fo_root : exists nd, fsnodes self !! fh_root self = Some nd /\ root_directory (fsn_filesystem nd) = inr (rootDirectory self);
  fo_attaching : forall a x, atnodes self !! a = Some x -> Inode_IsDirectory (attachingDirectory x) = true /\
    exists nd, fsnodes self !! attachingFsNode x = Some nd /\ a ∈ attachmentPoints nd /\ fsn_filesystem nd = n_fs (attachingDirectory x);
  fo_attached : forall a x, atnodes self !! a = Some x -> attachedFsNode x <> fh_root self /\
    exists nd, fsnodes self !! attachedFsNode x = Some nd /\ root_directory (fsn_filesystem nd) = inr (Node (fsn_filesystem nd) (attachedDirectoryId x));
  fo_points : forall p nd, fsnodes self !! p = Some nd -> NoDup (attachmentPoints nd) /\
    forall a, a ∈ attachmentPoints nd -> exists x, atnodes self !! a = Some x /\ attachingFsNode x = p;
  fo_parents : forall p nd, fsnodes self !! p = Some nd -> p = fh_root self \/ exists a x, atnodes self !! a = Some x /\ attachedFsNode x = p;
  fo_rank : exists rank : Z -> nat, rank (fh_root self) = 0%nat /\
    forall a x, atnodes self !! a = Some x -> rank (attachedFsNode x) = S (rank (attachingFsNode x)) }.

(** The root [r] of a filesystem is attached at the directory [d]. *)
Definition attached (self : FileHierarchy) (d r : node) : Prop :=
  exists a, key_node self a kKeyType_Downlink = Some d /\ key_node self a kKeyType_Uplink = Some r.

(** ** Lookups *)

Lemma find_key_spec l n ty :
  match find_key l n ty with
  | Some k => k ∈ l /\ k_type k = ty /\ k_node k = n
  | None => forall a, MkFHKey a n ty ∉ l
  end.
Proof.
  induction l as [|k l IH]; cbn; [by intros a ?%elem_of_nil|]. case_bool_decide as Hk; [split; [left|done]|].
  destruct (find_key l n ty) as [k'|].
  - destruct IH as (? & ? & ?). by split; [right|].
  - intros a [<-|Ha]%elem_of_cons; [by apply Hk|by apply (IH a)].
Qed.

Lemma get_key_spec self n ty :
  fh_ok self ->
  match FileHierarchy_GetKey self n ty with
  | Some k => k_node k = n /\ k_type k = ty /\ key_node self (k_at k) ty = Some n
  | None => forall a, key_node self a ty <> Some n
  end.
Proof.
  intros Hok. unfold FileHierarchy_GetKey. pose proof (find_key_spec (chain (hashChain self) (HASH_INDEX ty n)) n ty) as Hf.
  destruct (find_key _ n ty) as [[a m ty']|].
  - destruct Hf as (Hin & Ht & Hn). cbn in *. subst. apply (fo_keys _ Hok) in Hin as [? _]. done.
  - intros a Ha. apply (Hf a), (fo_keys _ Hok). done.
Qed.

Lemma key_node_at self a ty n : key_node self a ty = Some n -> exists x, atnodes self !! a = Some x.
Proof. unfold key_node. destruct (atnodes self !! a) as [x|]; [by eauto|done]. Qed.

Lemma get_atnode_spec self n ty :
  fh_ok self ->
  exists r, FileHierarchy_GetAtNode self n ty = Some r /\
    match r with
    | Some (a, x) => atnodes self !! a = Some x /\ key_node self a ty = Some n
    | None => forall a, key_node self a ty <> Some n
    end.
Proof.
  intros Hok. pose proof (get_key_spec self n ty Hok) as Hk. unfold FileHierarchy_GetAtNode.
  destruct (FileHierarchy_GetKey self n ty) as [k|]; [|by exists None].
  destruct Hk as (_ & _ & Hk). destruct (key_node_at _ _ _ _ Hk) as [x Hx]. rewrite (bind_some Hx). by exists (Some (k_at k, x)).
Qed.

(** An attachment has both keys. *)
Lemma attachment_keys self a x :
  fh_ok self -> atnodes self !! a = Some x ->
  exists nd, fsnodes self !! attachedFsNode x = Some nd /\ root_directory (fsn_filesystem nd) = inr (Node (fsn_filesystem nd) (attachedDirectoryId x)) /\
    attached self (attachingDirectory x) (Node (fsn_filesystem nd) (attachedDirectoryId x)).
Proof.
  intros Hok Hx. destruct (fo_attached _ Hok a x Hx) as (_ & nd & Hnd & Hr). exists nd. split_and!; [done..|]. exists a.
  unfold key_node. rewrite (bind_some Hx), (bind_some Hx), (bind_some Hnd). done.
Qed.

Lemma attached_inv self d r :
  fh_ok self -> attached self d r ->
  exists a x nd, atnodes self !! a = Some x /\ fsnodes self !! attachedFsNode x = Some nd /\ attachingDirectory x = d /\
    r = Node (fsn_filesystem nd) (attachedDirectoryId x) /\ root_directory (n_fs r) = inr r /\ Inode_IsDirectory d = true.
Proof.
  intros Hok (a & Hd & Hr). destruct (key_node_at _ _ _ _ Hd) as [x Hx]. destruct (fo_attached _ Hok a x Hx) as (_ & nd & Hnd & Hroot).
  unfold key_node in Hd, Hr. rewrite (bind_some Hx) in Hd. rewrite (bind_some Hx), (bind_some Hnd) in Hr. simplify_eq.
  exists a, x, nd. split_and!; [done..|]. by apply (fo_attaching _ Hok a x).
Qed.

Lemma attached_down_inj self d r r' : fh_ok self -> attached self d r -> attached self d r' -> r = r'.
Proof.
  intros Hok H1 H2. destruct (attached_inv _ _ _ Hok H1) as (a & x & nd & Hx & Hnd & Hd & -> & _).
  destruct (attached_inv _ _ _ Hok H2) as (b & y & nd' & Hy & Hnd' & Hd' & -> & _).
  assert (a = b) as <- by (eapply (fo_down_inj _ Hok); [done..|congruence]). simplify_eq. done.
Qed.

Lemma attached_up_inj self d d' r : fh_ok self -> attached self d r -> attached self d' r -> d = d'.
Proof.
  intros Hok H1 H2. destruct (attached_inv _ _ _ Hok H1) as (a & x & nd & Hx & Hnd & <- & Hr & _).
  destruct (attached_inv _ _ _ Hok H2) as (b & y & nd' & Hy & Hnd' & <- & Hr' & _).
  assert (attachedFsNode x = attachedFsNode y) as E by (eapply (fo_fs_inj _ Hok); [done..|congruence]).
  assert (a = b) as <- by (by eapply (fo_up_inj _ Hok)). simplify_eq. done.
Qed.

(** The filesystem of an attached root is another one than that of the directory it
    is attached at. *)
Lemma attached_fs self d r : fh_ok self -> attached self d r -> n_fs d <> n_fs r.
Proof.
  intros Hok H1 E. destruct (attached_inv _ _ _ Hok H1) as (a & x & nd & Hx & Hnd & <- & -> & _). cbn in E.
  destruct (fo_attaching _ Hok a x Hx) as (_ & nd' & Hnd' & _ & Ef). destruct (fo_rank _ Hok) as (rank & _ & Hrank). specialize (Hrank a x Hx).
  assert (attachingFsNode x = attachedFsNode x) as E' by (eapply (fo_fs_inj _ Hok); [done..|congruence]). rewrite E' in Hrank. lia.
Qed.
End Inv.
