(* ===== verification/FilePath.v ===== *)
(** * The file hierarchy: paths

    Resolving a path is a walk over its components, which neither leaves the root
    directory of the process nor loses references, and the path of a directory leads
    back to it. *)

From S2P Require Import Prelude Bytes InodeCache FileHierarchy FileHierInv.

(** ** Components of a path *)

(** The pieces between the slashes. *)
Fixpoint split_slash (s : list Z) : list (list Z) :=
  match s with
  | [] => [[]]
  | ch :: s =>
      if ch =? 47 then [] :: split_slash s
      else match split_slash s with p :: ps => (ch :: p) :: ps | [] => [[ch]] end
  end.

(** The names in a path; a slash at the end stands for "." behind it. *)
Definition components (s : list Z) : list (list Z) :=
  filter (fun p => p <> []) (split_slash s) ++ (if bool_decide (last s = Some 47) then [[46]] else []).

(** The longest prefix with the property. *)
Fixpoint take_while (f : Z -> bool) (s : list Z) : list Z :=
  match s with
  | ch :: s => if f ch then ch :: take_while f s else []
  | [] => []
  end.

Lemma take_while_app f s : exists r, s = take_while f s ++ r /\ Forall (fun ch => f ch = true) (take_while f s) /\
  match r with ch :: _ => f ch = false | [] => True end.
Proof.
  induction s as [|ch s (r & E & Hf & Hr)]; cbn; [by exists []|]. destruct (f ch) eqn:Ef; [|by exists (ch :: s)].
  exists r. split; [cbn; congruence|]. split; [by constructor|done].
Qed.

Lemma skip_while_spec fuel f path i :
  f 0 = false -> (length path < kMaxPathLength)%nat -> (i <= length path)%nat -> (length path - i <= fuel)%nat ->
  skip_while fuel f path i = (i + length (take_while f (drop i path)))%nat.
Proof.
  intros H0 Hl. revert i. induction fuel as [|fuel IH]; intros i Hi Hf; cbn [skip_while].
  { rewrite drop_ge by lia. cbn. lia. }
  destruct (Nat.ltb_spec i kMaxPathLength); [|lia]. cbn [andb]. unfold path_at.
  destruct (path !! i) as [ch|] eqn:Ech; cbn [default from_option id].
  - rewrite (drop_S _ _ _ Ech). cbn [take_while]. destruct (f ch); [|cbn; lia]. apply lookup_lt_Some in Ech. rewrite IH by lia. cbn. lia.
  - apply lookup_ge_None in Ech. rewrite drop_ge by lia. cbn. rewrite H0. lia.
Qed.

(** The next component of the rest of a path. *)
Inductive next_component (s : list Z) : list Z -> list Z -> Prop :=
| next_none : s = [] -> next_component s [] []
| next_dot n : s = replicate (S n) 47 -> next_component s [46] []
| next_name n nm rest : s = replicate n 47 ++ nm ++ rest -> nm <> [] -> Forall (fun ch => is_name ch = true) nm ->
    (rest = [] \/ exists r, rest = 47 :: r) -> next_component s nm rest.

Lemma components_slash s : components (47 :: s) = if bool_decide (s = []) then [[46]] else components s.
Proof.
  unfold components. cbn [split_slash Z.eqb Pos.eqb]. rewrite filter_cons_False by (by intros []). destruct s as [|ch s]; [done|].
  rewrite (bool_decide_false (_ = [])) by done. done.
Qed.

Lemma components_slashes n s : s <> [] -> components (replicate n 47 ++ s) = components s.
Proof.
  intros Hs. induction n as [|n IH]; [done|]. cbn [replicate app]. rewrite components_slash, bool_decide_false; [done|].
  intros [_ ?]%app_eq_nil. done.
Qed.

Lemma split_slash_name nm s :
  Forall (fun ch => is_name ch = true) nm -> split_slash (nm ++ s) = match split_slash s with p :: ps => (nm ++ p) :: ps | [] => [nm] end.
Proof.
  induction 1 as [|ch nm Hch _ IH]; cbn [app split_slash].
  - destruct s as [|c s]; [done|]. cbn. destruct (c =? 47); [done|]. by destruct (split_slash s).
  - unfold is_name in Hch. destruct (Z.eqb_spec ch 47); [by subst|]. rewrite IH. by destruct (split_slash s).
Qed.

Lemma components_name nm s :
  nm <> [] -> Forall (fun ch => is_name ch = true) nm -> (s = [] \/ exists r, s = 47 :: r) -> components (nm ++ s) = nm :: components s.
Proof.
  intros Hne Hnm Hs. unfold components. rewrite split_slash_name by done. destruct Hs as [->|[r ->]].
  - cbn [split_slash]. rewrite !app_nil_r, filter_cons_True by done. change (filter _ [[]]) with (@nil (list Z)). change (filter _ []) with (@nil (list Z)). destruct (bool_decide _) eqn:Eb; [|done]. apply bool_decide_eq_true, last_Some in Eb as [l ->].
    apply Forall_app in Hnm as [_ Hnm]. apply Forall_cons in Hnm as [Hnm _]. by vm_compute in Hnm.
  - cbn [split_slash Z.eqb Pos.eqb]. rewrite app_nil_r, filter_cons_True by done. rewrite filter_cons_False by (by intros []). by rewrite last_app_cons.
Qed.

Lemma components_nil s : components s = [] -> s = [].
Proof.
  induction s as [|ch s IH]; [done|]. destruct (decide (ch = 47)) as [->|Hch].
  - rewrite components_slash. case_bool_decide; [done|]. intros ->%IH. done.
  - unfold components. cbn [split_slash]. destruct (Z.eqb_spec ch 47); [done|]. destruct (split_slash s); by rewrite filter_cons_True.
Qed.

Lemma next_components s nm rest : next_component s nm rest -> components s = if bool_decide (nm = []) then [] else nm :: components rest.
Proof.
  intros [->|n ->|n nm' rest' -> Hne Hnm Hr].
  - done.
  - rewrite bool_decide_false by done. induction n as [|n IH]; [done|]. change (replicate (S (S n)) 47) with (47 :: replicate (S n) 47).
    by rewrite components_slash, bool_decide_false.
  - rewrite bool_decide_false by done. rewrite components_slashes by (by intros [? _]%app_eq_nil). by apply components_name.
Qed.

Lemma slashes s : Forall (fun ch => is_slash ch = true) s -> s = replicate (length s) 47.
Proof. induction 1 as [|ch s Hch _ IH]; [done|]. cbn. unfold is_slash in Hch. apply Z.eqb_eq in Hch as ->. by rewrite <- IH. Qed.

Lemma get_next_spec path pi :
  (length path < kMaxPathLength)%nat -> (pi <= length path)%nat -> Forall (fun ch => ch <> 0) path ->
  exists nm rest, next_component (drop pi path) nm rest /\
    if (kMaxPathComponentLength <=? length nm)%nat then exists i, get_next_path_component path pi = (ENAMETOOLONG, i, [], false)
    else exists i, get_next_path_component path pi = (EOK, i, nm, bool_decide (rest = [])) /\ drop i path = rest /\ (pi <= i <= length path)%nat /\
      (nm <> [] -> (pi < i)%nat).
Proof.
  intros Hl Hpi Hz. unfold get_next_path_component. rewrite skip_while_spec by (done || lia).
  destruct (take_while_app is_slash (drop pi path)) as (s1 & E1 & Hs & Hs1). apply slashes in Hs.
  remember (take_while is_slash (drop pi path)) as sl eqn:Esl. clear Esl. set (k := length sl) in *.
  assert (Hlen : (pi + k + length s1 = length path)%nat).
  { apply (f_equal length) in E1. rewrite length_drop, length_app in E1. fold k in E1. lia. }
  assert (Ed : drop (pi + k) path = s1). { rewrite <- drop_drop, E1. unfold k. by rewrite drop_app_length. }
  destruct (Nat.leb_spec kMaxPathLength (pi + k)) as [|_]; [lia|].
  assert (Hend : forall i r, drop i path = r -> (path_at path i =? 0) = bool_decide (r = [])).
  { intros i r Hr. unfold path_at. rewrite <- (Nat.add_0_r i), <- lookup_drop, Hr. destruct r as [|ch r']; [done|]. cbn.
    assert (Hin : ch ∈ path) by (rewrite <- (take_drop i path), Hr; apply elem_of_app; right; left).
    rewrite Forall_forall in Hz. specialize (Hz ch Hin). by apply Z.eqb_neq. }
  rewrite (Hend _ _ Ed). destruct (decide (s1 = [] /\ k <> O)) as [[-> Hk]|Hnot].
  { exists [46], []. rewrite app_nil_r in E1. split.
    - apply (next_dot _ (pred k)). replace (S (pred k)) with k by lia. congruence.
    - change (kMaxPathComponentLength <=? length [46%Z])%nat with false. exists (pi + k)%nat. destruct (Nat.ltb_spec pi (pi + k)) as [_|]; [|lia].
      rewrite !bool_decide_true by done. cbn [length] in Hlen. split_and!; [done|done|lia|lia|intros _; lia]. }
  replace ((pi <? pi + k)%nat && bool_decide (s1 = [])) with false by (destruct (Nat.ltb_spec pi (pi + k)); [|done]; rewrite bool_decide_false; [done|naive_solver lia]).
  rewrite skip_while_spec by (done || lia). rewrite Ed. destruct (take_while_app is_name s1) as (rest & E2 & Hn & Hrest). remember (take_while is_name s1) as nm eqn:Enm0. clear Enm0.
  assert (Hlen2 : (length nm + length rest = length s1)%nat) by (by rewrite E2, length_app).
  exists nm, rest. replace (pi + k + length nm - (pi + k))%nat with (length nm) by lia.
  destruct (Nat.leb_spec kMaxPathLength (pi + k + length nm)) as [|_]; [lia|]. cbn [orb]. split.
  - destruct (decide (nm = [])) as [Enm|Enm].
    + assert (Es1 : s1 = []).
      { rewrite Enm in E2. cbn in E2. rewrite <- E2 in Hrest. destruct s1 as [|ch s1']; [done|]. exfalso. cbn in Hs1, Hrest.
        unfold is_name, is_slash in *. rewrite Hs1 in Hrest. cbn in Hrest. rewrite andb_true_r in Hrest. apply negb_false_iff, Z.eqb_eq in Hrest. subst ch.
        rewrite Forall_forall in Hz. apply (Hz 0); [|done]. rewrite <- (take_drop (pi + k) path), Ed. apply elem_of_app. right. left. }
      assert (k = O) as Hk by (destruct (decide (k = O)); [done|]; exfalso; by apply Hnot). rewrite Enm.
      assert (rest = []) as -> by (rewrite Es1 in Hlen2; cbn in Hlen2; destruct rest; [done|cbn in Hlen2; lia]). apply next_none. rewrite E1, Hs, Hk, Es1. done.
    + apply (next_name _ k); [by rewrite E1, Hs, E2|done|done|]. destruct rest as [|ch r]; [by left|]. right.
      assert (Hch : ch <> 0). { rewrite Forall_forall in Hz. apply Hz. rewrite <- (take_drop (pi + k) path), Ed, E2. rewrite !elem_of_app. do 2 right. left. }
      unfold is_name in Hrest. destruct (Z.eqb_spec ch 0); [done|]. cbn in Hrest. destruct (Z.eqb_spec ch 47) as [->|]; [by eexists|done].
  - destruct (kMaxPathComponentLength <=? length nm)%nat; [by eexists|].
    assert (Edr : drop (pi + k + length nm) path = rest) by (rewrite <- drop_drop, Ed, E2; by rewrite drop_app_length).
    eexists. split; [|split_and!; [exact Edr|lia|lia|]].
    + rewrite (Hend _ _ Edr), E2. by rewrite take_app_length.
    + intros Hne. destruct nm; [done|]. cbn. lia.
Qed.

Section Walk.
Context {FSS : Filesystems}.

(** ** The walk *)

(** The table of mounts: directories and the roots that are attached there. *)
Definition mounts (self : FileHierarchy) : list (node * node) :=
  omap (fun x => d ← key_node self x.1 kKeyType_Downlink; r ← key_node self x.1 kKeyType_Uplink; Some (d, r)) (map_to_list (atnodes self)).

Definition mount_at (self : FileHierarchy) (d : node) : option node :=
  head (omap (fun m => if bool_decide (m.1 = d) then Some m.2 else None) (mounts self)).
Definition mount_of (self : FileHierarchy) (r : node) : option node :=
  head (omap (fun m => if bool_decide (m.2 = r) then Some m.1 else None) (mounts self)).

(** Lookups need the permission to search the directory. *)
Definition searched {A} (n : node) (uid gid : Z) (r : errno + A) : errno + A :=
  let e := perm_check_node_access n uid gid X_OK in if is_ok e then r else inl e.

Definition walk_up (self : FileHierarchy) (rootDir : node) (uid gid : Z) (n : node) : errno + node :=
  if bool_decide (n = rootDir) then inr n
  else searched n uid gid
    match parent_node n with
    | inl e => inl e
    | inr p =>
        if bool_decide (p <> n) then inr p
        else match mount_of self n with Some d => searched d uid gid (parent_node d) | None => inl ENOENT end
    end.

Definition walk_down (self : FileHierarchy) (uid gid : Z) (d : node) (nm : list Z) : errno + node :=
  searched d uid gid
    match node_for_name d nm with
    | inl e => inl e
    | inr c => if bool_decide (c = d) then inl EIO else inr (default c (mount_at self c))
    end.

Definition walk_step (self : FileHierarchy) (rootDir : node) (uid gid : Z) (n : node) (nm : list Z) : errno + node :=
  if bool_decide (nm = [46]) then inr n
  else if bool_decide (nm = [46; 46]) then walk_up self rootDir uid gid n
  else walk_down self uid gid n nm.

Fixpoint walk (self : FileHierarchy) (mode : PathResolution) (rootDir : node) (uid gid : Z) (n : node) (cs : list (list Z)) : errno + node * list Z :=
  match cs with
  | [] => inr (n, [])
  | nm :: cs =>
      if (255 <=? Z.of_nat (length nm)) then inl ENAMETOOLONG
      else if negb (Inode_IsDirectory n) then inl ENOTDIR
      else if bool_decide (mode = kPathResolution_PredecessorOfTarget /\ cs = []) then inr (n, nm)
      else match walk_step self rootDir uid gid n nm with inl e => inl e | inr n => walk self mode rootDir uid gid n cs end
  end.

(** The inodes in the tree below [root], across attachments. *)
Inductive reach (self : FileHierarchy) (root : node) : node -> Prop :=
| reach_root : reach self root root
| reach_down d nm c : reach self root d -> node_for_name d nm = inr c -> c <> d -> reach self root (default c (mount_at self c)).

Context {FSP : FilesystemsSpec}.

Lemma mounts_spec self d r : (d, r) ∈ mounts self <-> attached self d r.
Proof.
  unfold mounts, attached. rewrite list_elem_of_omap. split.
  - intros ([a x] & _ & E). exists a. cbn in E. destruct (key_node self a kKeyType_Downlink); [|done]. cbn in E.
    destruct (key_node self a kKeyType_Uplink); [|done]. cbn in E. by simplify_eq.
  - intros (a & Hd & Hr). destruct (key_node_at _ _ _ _ Hd) as [x Hx]. exists (a, x). split; [by apply elem_of_map_to_list|]. cbn.
    by rewrite (bind_some Hd), (bind_some Hr).
Qed.

Lemma head_omap {A B} (f : A -> option B) l (Q : B -> Prop) :
  (forall y, Q y <-> exists x, x ∈ l /\ f x = Some y) -> (forall y z, Q y -> Q z -> y = z) -> forall y, head (omap f l) = Some y <-> Q y.
Proof.
  intros HQ Hu. assert (Hin : forall y, y ∈ omap f l <-> Q y) by (intros y; rewrite list_elem_of_omap, HQ; done).
  intros y. destruct (omap f l) as [|z l']; cbn.
  - split; [done|]. intros Hy%Hin. by apply elem_of_nil in Hy.
  - split; [intros [= ->]; apply Hin; left|]. intros Hy. f_equal. apply Hu; [apply Hin; left|done].
Qed.

Lemma mount_at_spec self d r : fh_ok self -> mount_at self d = Some r <-> attached self d r.
Proof.
  intros Hok. revert r. apply head_omap; [|intros; by eapply attached_down_inj].
  intros r. rewrite <- mounts_spec. split; [intros H; exists (d, r); split; [done|]; by rewrite bool_decide_true|].
  intros ([d' r'] & H & E). cbn in E. case_bool_decide; by simplify_eq.
Qed.

Lemma mount_of_spec self d r : fh_ok self -> mount_of self r = Some d <-> attached self d r.
Proof.
  intros Hok. revert d. apply head_omap; [|intros; by eapply attached_up_inj].
  intros d. rewrite <- mounts_spec. split; [intros H; exists (d, r); split; [done|]; by rewrite bool_decide_true|].
  intros ([d' r'] & H & E). cbn in E. case_bool_decide; by simplify_eq.
Qed.

(** A directory in the tree that is not its root has a parent in the tree, and the
    way down from there leads to it. *)
Lemma reach_parent self root n :
  fh_ok self -> reach self root n -> n <> root -> Inode_IsDirectory n = true ->
  exists d nm c, reach self root d /\ node_for_name d nm = inr c /\ c <> d /\ n = default c (mount_at self c) /\
    ((n = c /\ parent_node n = inr d) \/ (parent_node n = inr n /\ attached self c n /\ parent_node c = inr d)).
Proof.
  intros Hok [|d nm c Hd Hc Hne] Hn Hdir; [done|]. exists d, nm, c. split_and!; [done..|].
  destruct (mount_at self c) as [r|] eqn:Em; cbn in *.
  - right. apply mount_at_spec in Em; [|done]. split_and!; [|done|].
    + destruct (attached_inv _ _ _ Hok Em) as (_ & _ & _ & _ & _ & _ & _ & Hr & _). by apply fs_root_dir in Hr as (_ & _ & ?).
    + destruct (attached_inv _ _ _ Hok Em) as (_ & _ & _ & _ & _ & _ & _ & _ & Hcd). by eapply fs_child_parent.
  - left. split; [done|]. by eapply fs_child_parent.
Qed.

(** Going up stays in the tree. *)
Lemma walk_up_reach self root uid gid n n' :
  fh_ok self -> reach self root n -> Inode_IsDirectory n = true -> walk_up self root uid gid n = inr n' -> reach self root n'.
Proof.
  intros Hok Hr Hdir. unfold walk_up, searched. case_bool_decide as Hn; [by intros [= <-]|].
  destruct (reach_parent _ _ _ Hok Hr Hn Hdir) as (d & nm & c & Hd & Hc & Hcd & En & [[-> Hp]|(Hp & Ha & Hpc)]).
  - destruct (is_ok _); [|done]. rewrite Hp. case_bool_decide as Hpn; [by intros [= <-]|]. by subst.
  - destruct (is_ok _); [|done]. rewrite Hp, bool_decide_false by (by intros []).
    apply mount_of_spec in Ha; [|done]. rewrite Ha, Hpc. destruct (is_ok _); [|done]. by intros [= <-].
Qed.

Lemma walk_step_reach self root uid gid n nm n' :
  fh_ok self -> reach self root n -> Inode_IsDirectory n = true -> walk_step self root uid gid n nm = inr n' -> reach self root n'.
Proof.
  intros Hok Hr Hdir. unfold walk_step. case_bool_decide; [by intros [= <-]|]. case_bool_decide; [by eapply walk_up_reach|].
  unfold walk_down, searched. destruct (is_ok _); [|done]. destruct (node_for_name n nm) as [e|c] eqn:Ec; [done|].
  case_bool_decide; [done|]. intros [= <-]. by eapply reach_down.
Qed.

Lemma walk_reach self mode root uid gid n cs n' pc :
  fh_ok self -> reach self root n -> walk self mode root uid gid n cs = inr (n', pc) -> reach self root n'.
Proof.
  intros Hok. revert n. induction cs as [|nm cs IH]; intros n Hr; cbn; [by intros [= <- _]|]. destruct (255 <=? _); [done|].
  destruct (Inode_IsDirectory n) eqn:Hdir; cbn; [|done]. case_bool_decide; [by intros [= <- _]|].
  destruct (walk_step self root uid gid n nm) as [e|m] eqn:Es; [done|]. apply IH. by eapply walk_step_reach.
Qed.

(** ** References *)

Lemma relinquish_held n t : Inode_Relinquish n (hold n t) = Some t.
Proof. unfold Inode_Relinquish, hold. cbn. rewrite bool_decide_true by done. cbn. by destruct t. Qed.

Lemma relinquish_below n m t : Inode_Relinquish n (hold m (hold n t)) = Some (hold m t).
Proof.
  unfold Inode_Relinquish, hold. cbn. case_bool_decide as E; [by subst|]. by rewrite bool_decide_true.
Qed.

Definition lock (n : node) (t : thread) : thread := Th (held t) (n :: locked t).

Lemma lock_free n t : n ∉ locked t -> Inode_Lock n t = Some (lock n t).
Proof. intros H. unfold Inode_Lock. by rewrite bool_decide_false. Qed.
Lemma unlock_locked n t : Inode_Unlock n (lock n t) = Some t.
Proof. unfold Inode_Unlock, lock. cbn. rewrite bool_decide_true by done. cbn. by destruct t. Qed.
Lemma unlock_relinquish n t : Inode_UnlockRelinquish n (lock n (hold n t)) = Some t.
Proof. unfold Inode_UnlockRelinquish. by rewrite (bind_some (unlock_locked _ _)), relinquish_held. Qed.
Lemma hold_lock n m t : hold n (lock m t) = lock m (hold n t).
Proof. done. Qed.

(** The result of a lookup, with its reference. *)
Definition found (r : errno + node) (t : thread) : (errno + node) * thread :=
  match r with inl e => (inl e, t) | inr n => (inr n, hold n t) end.

Lemma is_ok_cases e : is_ok e = true /\ e = EOK \/ is_ok e = false.
Proof. destruct e; auto. Qed.

Lemma mounted_at_spec self d t :
  fh_ok self -> AcquireDirectoryMountedAtDirectory self d t =
    Some (mount_at self d, match mount_at self d with Some r => hold r t | None => t end).
Proof.
  intros Hok. unfold AcquireDirectoryMountedAtDirectory. destruct (get_atnode_spec self d kKeyType_Downlink Hok) as (r & E & Hr). rewrite (bind_some E).
  destruct r as [[a x]|].
  - destruct Hr as [Hx Hk]. destruct (attachment_keys _ _ _ Hok Hx) as (nd & Hnd & Hroot & Ha).
    unfold key_node in Hk. rewrite (bind_some Hx) in Hk. injection Hk as <-. apply mount_at_spec in Ha; [|done].
    rewrite (bind_some Hnd), Ha. unfold acquired. by rewrite Hroot.
  - destruct (mount_at self d) as [r|] eqn:Em; [|done]. apply mount_at_spec in Em as (a & Ha & _); [|done]. by apply Hr in Ha.
Qed.

Lemma child_spec self d nm uid gid t :
  fh_ok self -> FileHierarchy_AcquireChildNode self d nm uid gid t = Some (found (walk_down self uid gid d nm) t).
Proof.
  intros Hok. unfold FileHierarchy_AcquireChildNode, walk_down, searched.
  destruct (is_ok (perm_check_node_access d uid gid X_OK)); cbn [negb]; [|done]. unfold acquired. destruct (node_for_name d nm) as [e|c]; [done|].
  destruct (Inode_Equals_spec d c) as [->|Hne].
  - rewrite (bind_some (relinquish_held _ _)). by rewrite bool_decide_true.
  - rewrite bool_decide_false by done. rewrite (bind_some (mounted_at_spec _ _ _ Hok)). destruct (mount_at self c) as [r|]; cbn [default found]; [|done].
    by rewrite (bind_some (relinquish_below _ _ _)).
Qed.

Lemma parent_spec self root n uid gid io t :
  fh_ok self -> reach self root n -> Inode_IsDirectory n = true -> (forall m, m ∈ locked t -> m = n) ->
  exists io', FileHierarchy_AcquireParentDirectory self n root uid gid io t =
    Some ((found (walk_up self root uid gid n) t).1, io', (found (walk_up self root uid gid n) t).2) /\
    (forall d, walk_up self root uid gid n = inr d -> n <> root -> io' = if bool_decide (parent_node n = inr n) then n_id <$> (io ≫= fun _ => mount_of self n) else io).
Proof.
  intros Hok Hr Hdir Hl. unfold FileHierarchy_AcquireParentDirectory, walk_up, searched.
  destruct (Inode_Equals_spec n root) as [->|Hn]; [rewrite bool_decide_true by done; by eexists|]. rewrite (bool_decide_false (n = root)) by done.
  destruct (is_ok (perm_check_node_access n uid gid X_OK)) eqn:Eok; cbn [negb]; [|by eexists]. unfold acquired.
  destruct (reach_parent _ _ _ Hok Hr Hn Hdir) as (d & nm & c & Hd & Hc & Hcd & En & [[Ec Hp]|(Hp & Ha & Hpc)]).
  - rewrite Hp. assert (d <> n) by (by rewrite Ec). destruct (Inode_Equals_spec n d) as [|_]; [by subst|]. cbn [negb].
    rewrite !bool_decide_true by done. eexists. split; [done|]. intros d' [= ->] _. rewrite bool_decide_false; [done|]. intros [= E]. by subst.
  - rewrite Hp. destruct (Inode_Equals_spec n n) as [_|]; [|done]. cbn [negb]. rewrite (bool_decide_false (n <> n)) by (by intros []).
    rewrite (bind_some (relinquish_held _ _)).
    assert (Em : mount_of self n = Some c) by (by apply mount_of_spec). rewrite Em.
    unfold AcquireDirectoryMountingDirectory. destruct (get_atnode_spec self n kKeyType_Uplink Hok) as (r & E & Hk). rewrite (bind_some E).
    destruct r as [[a x]|]; [|by destruct Ha as (a & _ & Hu); apply Hk in Hu].
    destruct Hk as [Hx Hk]. destruct (attachment_keys _ _ _ Hok Hx) as (nd & Hnd & _ & Ha'). unfold key_node in Hk. rewrite (bind_some Hx), (bind_some Hnd) in Hk.
    injection Hk as Hk. rewrite Hk in Ha'. rewrite (attached_up_inj _ _ _ _ Hok Ha' Ha). cbn [mbind option_bind].
    assert (Hcn : c ∉ locked (hold c t)) by (cbn; intros Hin%Hl; apply (attached_fs _ _ _ Hok Ha); by rewrite Hin).
    rewrite (bind_some (lock_free _ _ Hcn)). rewrite Hpc.
    destruct (is_ok (perm_check_node_access c uid gid X_OK)).
    + rewrite hold_lock. unfold Inode_UnlockRelinquish. rewrite (bind_some (unlock_locked _ _)), (bind_some (relinquish_below _ _ _)).
      eexists. split; [done|]. intros _ _ _. rewrite bool_decide_true by done. by destruct io.
    + rewrite (bind_some (unlock_relinquish _ _)). by eexists.
Qed.

(** ** Resolving *)

Lemma searched_error {A} n uid gid (r : errno + A) : r <> inl EOK -> searched n uid gid r <> inl EOK.
Proof. intros Hr. unfold searched. destruct (is_ok _) eqn:E; [done|]. intros [= E']. by rewrite E' in E. Qed.

Lemma walk_step_error self root uid gid n nm : walk_step self root uid gid n nm <> inl EOK.
Proof.
  unfold walk_step. case_bool_decide; [done|]. case_bool_decide.
  - unfold walk_up. case_bool_decide; [done|]. apply searched_error. destruct (parent_node n) as [e|p] eqn:Ep.
    + rewrite <- Ep. apply fs_parent_error.
    + case_bool_decide; [done|]. destruct (mount_of self n) as [d|]; [|done]. apply searched_error, fs_parent_error.
  - apply searched_error. destruct (node_for_name n nm) as [e|c] eqn:Ec; [rewrite <- Ec; apply fs_child_error|]. by case_bool_decide.
Qed.

Lemma resolve_loop_spec fuel self mode path root uid gid n pi t :
  fh_ok self -> (length path < kMaxPathLength)%nat -> Forall (fun ch => ch <> 0) path -> locked t = [] ->
  reach self root n -> (pi <= length path)%nat -> (length path - pi < fuel)%nat ->
  match walk self mode root uid gid n (components (drop pi path)) with
  | inr (n', pc) => resolve_loop fuel self mode path root uid gid n pi (lock n (hold n t)) = Some (EOK, n', pc, lock n' (hold n' t))
  | inl e => e <> EOK /\ exists n' pc, resolve_loop fuel self mode path root uid gid n pi (lock n (hold n t)) = Some (e, n', pc, lock n' (hold n' t))
  end.
Proof.
  intros Hok Hl Hz Ht. revert n pi. induction fuel as [|fuel IH]; intros n pi Hr Hpi Hf; [lia|]. cbn [resolve_loop].
  destruct (get_next_spec path pi Hl Hpi Hz) as (nm & rest & Hnext & Hget). rewrite (next_components _ _ _ Hnext).
  change kMaxPathComponentLength with (Z.to_nat 255) in Hget.
  destruct (Nat.leb_spec (Z.to_nat 255) (length nm)) as [Hlong|Hshort].
  { destruct Hget as (i & ->). cbn [is_ok negb]. rewrite bool_decide_false by (intros ->; cbn in Hlong; lia). cbn [walk].
    destruct (Z.leb_spec 255 (Z.of_nat (length nm))); [|lia]. split; [done|]. by eexists _, _. }
  destruct Hget as (i & -> & Hrest & Hi & Hadv). cbn [is_ok negb].
  destruct (decide (nm = [])) as [->|Hne]; [done|]. rewrite bool_decide_false by done. destruct (Nat.eqb_spec (length nm) 0) as [?%nil_length_inv|_]; [done|].
  cbn [walk]. destruct (Z.leb_spec 255 (Z.of_nat (length nm))); [lia|]. specialize (Hadv Hne).
  destruct (Inode_IsDirectory n) eqn:Hdir; cbn [negb]; [|split; [done|by eexists _, _]].
  assert (Elast : bool_decide (mode = kPathResolution_PredecessorOfTarget) && bool_decide (rest = []) = bool_decide (mode = kPathResolution_PredecessorOfTarget /\ components rest = [])).
  { rewrite <- bool_decide_and. apply bool_decide_ext. split; intros [-> Hrs]; (split; [done|]); [by rewrite Hrs|by apply components_nil]. }
  rewrite Elast. destruct (bool_decide (mode = kPathResolution_PredecessorOfTarget /\ components rest = [])); [done|]. assert (Hloop : forall m, reach self root m -> match walk self mode root uid gid m (components rest) with
    | inr (n', pc) => resolve_loop fuel self mode path root uid gid m i (lock m (hold m t)) = Some (EOK, n', pc, lock n' (hold n' t))
    | inl e => e <> EOK /\ exists n' pc, resolve_loop fuel self mode path root uid gid m i (lock m (hold m t)) = Some (e, n', pc, lock n' (hold n' t))
    end) by (intros m Hm; rewrite <- Hrest; apply IH; [done|lia|lia]).
  pose proof (walk_step_error self root uid gid n nm) as Herr. pose proof (walk_step_reach self root uid gid n nm) as Hreach.
  unfold walk_step in *. case_bool_decide as Hdot; [by apply Hloop|].
  assert (Himpl : (if bool_decide (nm = [46; 46])
      then '(r, _, t) ← FileHierarchy_AcquireParentDirectory self n root uid gid None (lock n (hold n t)); Some (r, t)
      else FileHierarchy_AcquireChildNode self n nm uid gid (lock n (hold n t))) =
    Some (found (if bool_decide (nm = [46; 46]) then walk_up self root uid gid n else walk_down self uid gid n nm) (lock n (hold n t)))).
  { case_bool_decide; [|by apply child_spec]. destruct (parent_spec self root n uid gid None (lock n (hold n t)) Hok Hr Hdir) as (io & -> & _).
    { cbn. rewrite Ht. by intros m ->%list_elem_of_singleton. }
    cbn. by rewrite <- surjective_pairing. }
  rewrite (bind_some Himpl). destruct (if bool_decide (nm = [46; 46]) then _ else _) as [e|m] eqn:Es; cbn [found].
  { split; [by intros ->|]. by eexists _, _. }
  rewrite hold_lock. unfold Inode_UnlockRelinquish. rewrite (bind_some (unlock_locked _ _)), (bind_some (relinquish_below _ _ _)).
  rewrite (bind_some (lock_free m (hold m t) ltac:(cbn; rewrite Ht; apply not_elem_of_nil))). apply Hloop. by apply Hreach.
Qed.

Lemma resolve_spec self mode path root cwd uid gid t :
  fh_ok self -> (length path < kMaxPathLength)%nat -> Forall (fun ch => ch <> 0) path -> path <> [] -> locked t = [] -> reach self root cwd ->
  FileHierarchy_AcquireNodeForPath self mode path root cwd uid gid t =
    Some match walk self mode root uid gid (if bool_decide (head path = Some 47) then root else cwd) (components path) with
         | inl e => (inl e, t)
         | inr (n, pc) => (inr (n, pc), hold n t)
         end.
Proof.
  intros Hok Hl Hz Hne Ht Hr. destruct path as [|ch path]; [done|]. unfold FileHierarchy_AcquireNodeForPath.
  assert (Estart : (if ch =? 47 then root else cwd) = if bool_decide (head (ch :: path) = Some 47) then root else cwd).
  { destruct (Z.eqb_spec ch 47) as [->|Hc]; [by rewrite bool_decide_true|]. rewrite bool_decide_false; [done|]. by intros [= ->]. }
  rewrite Estart. set (st := if bool_decide _ then root else cwd).
  assert (Hst : reach self root st) by (unfold st; case_bool_decide; [apply reach_root|done]).
  rewrite (bind_some (lock_free st (hold st t) ltac:(cbn; rewrite Ht; apply not_elem_of_nil))).
  pose proof (resolve_loop_spec (S (length (ch :: path))) self mode (ch :: path) root uid gid st 0 t Hok Hl Hz Ht Hst ltac:(lia) ltac:(lia)) as Hloop.
  rewrite drop_0 in Hloop. destruct (walk self mode root uid gid st (components (ch :: path))) as [e|[n pc]].
  - destruct Hloop as (He & n' & pc & E). rewrite (bind_some E). destruct (is_ok e) eqn:Eo; [by apply is_ok_true in Eo|].
    by rewrite (bind_some (unlock_relinquish _ _)).
  - rewrite (bind_some Hloop). cbn [is_ok]. by rewrite (bind_some (unlock_locked _ _)).
Qed.
End Walk.
