(* ===== verification/FileAttach.v ===== *)
(** * The file hierarchy: attaching and detaching filesystems

    Attaching a filesystem adds one entry to the table of mounts and detaching takes
    it away again; both keep the invariant of the hierarchy. *)

From S2P Require Import Prelude Bytes InodeCache FileHierarchy FileHierInv FilePath.

Section Attach.
Context {FSS : Filesystems} {FSP : FilesystemsSpec}.

(** ** Finding the node of a filesystem *)

(** The filesystem node [b] is in the subtree of [a]. *)
Inductive below (self : FileHierarchy) (a : Z) : Z -> Prop :=
| below_here : below self a a
| below_down i x : below self a (attachingFsNode x) -> atnodes self !! i = Some x -> below self a (attachedFsNode x).

Lemma below_first self a b : below self a b -> a = b \/ exists i x, atnodes self !! i = Some x /\ attachingFsNode x = a /\ below self (attachedFsNode x) b.
Proof.
  induction 1 as [|i x H IH Hx]; [by left|]. right. destruct IH as [->|(j & y & Hy & Ha & Hb)].
  - exists i, x. split_and!; [done|done|constructor].
  - exists j, y. split_and!; [done|done|]. by eapply below_down.
Qed.

Lemma below_root self p nd : fh_ok self -> fsnodes self !! p = Some nd -> below self (fh_root self) p.
Proof.
  intros Hok. destruct (fo_rank _ Hok) as (rank & _ & Hrank). remember (rank p) as k eqn:Ek. revert p nd Ek.
  induction (lt_wf k) as [k _ IH]. intros p nd -> Hp. destruct (fo_parents _ Hok p nd Hp) as [->|(i & x & Hx & <-)]; [constructor|].
  destruct (fo_attaching _ Hok i x Hx) as (_ & nd' & Hnd' & _). eapply below_down; [|done]. eapply IH; [|done..]. rewrite (Hrank i x Hx). lia.
Qed.

(** What [find_fsnode_rec] returns for the subtree of [a]. *)
Definition finds (self : FileHierarchy) (a fsid : Z) (r : option (option Z)) : Prop :=
  match r with
  | None => False
  | Some (Some p) => exists nd, fsnodes self !! p = Some nd /\ fsn_filesystem nd = fsid
  | Some None => forall p nd, below self a p -> fsnodes self !! p = Some nd -> fsn_filesystem nd <> fsid
  end.

(** The nodes above [a] are those in [X], and so the fuel lasts. *)
Lemma find_fsnode_ok self rank fsid :
  fh_ok self -> (forall a x, atnodes self !! a = Some x -> rank (attachedFsNode x) = S (rank (attachingFsNode x))) ->
  forall fuel a (X : gset Z), a ∈ dom (fsnodes self) -> X ⊆ dom (fsnodes self) -> (forall x, x ∈ X -> rank x < rank a)%nat ->
    (size (dom (fsnodes self)) < fuel + size X)%nat -> finds self a fsid (find_fsnode_rec fuel self a fsid).
Proof.
  intros Hok Hrank. induction fuel as [|fuel IH]; intros a X Ha HX Hlt Hf.
  { apply subseteq_size in HX. lia. }
  apply elem_of_dom in Ha as [nd Hnd]. cbn [find_fsnode_rec]. rewrite (bind_some Hnd). destruct (Z.eqb_spec (fsn_filesystem nd) fsid) as [E|E]; [by exists nd|].
  assert (Hdown : forall i x, atnodes self !! i = Some x -> attachingFsNode x = a -> finds self (attachedFsNode x) fsid (find_fsnode_rec fuel self (attachedFsNode x) fsid)).
  { intros i x Hx Hax. destruct (fo_attached _ Hok i x Hx) as (_ & nd1 & Hnd1 & _). apply (IH _ ({[a]} ∪ X)); [by apply elem_of_dom_2 in Hnd1| | |].
    - apply union_subseteq; split; [|done]. apply singleton_subseteq_l. by apply elem_of_dom_2 in Hnd.
    - intros y [->%elem_of_singleton|Hy]%elem_of_union; rewrite (Hrank i x Hx), Hax; [lia|]. specialize (Hlt y Hy). lia.
    - rewrite size_union, size_singleton; [lia|]. intros y Hy1%elem_of_singleton Hy2. subst y. specialize (Hlt a Hy2). lia. }
  assert (Hrest : forall l, (forall i, i ∈ l -> i ∈ attachmentPoints nd) ->
    (forall i x p nd', atnodes self !! i = Some x -> attachingFsNode x = a -> i ∉ l -> below self (attachedFsNode x) p -> fsnodes self !! p = Some nd' -> fsn_filesystem nd' <> fsid) ->
    finds self a fsid ((fix each (l : list Z) : option (option Z) :=
           match l with
           | [] => Some None
           | it :: l => at_ ← atnodes self !! it; r ← find_fsnode_rec fuel self (attachedFsNode at_) fsid; match r with Some _ => Some r | None => each l end
           end) l)).
  { induction l as [|it l IHl]; intros Hin Hdone.
    - intros p nd' [<-|(i & x & Hx & Hax & Hb)]%below_first Hp; [by simplify_eq|]. eapply Hdone; [done|done|apply not_elem_of_nil|done|done].
    - destruct (fo_points _ Hok a nd Hnd) as [_ Hpts]. destruct (Hpts it) as (x & Hx & Hax); [apply Hin; left|]. rewrite (bind_some Hx).
      assert (Hrec : finds self (attachedFsNode x) fsid (find_fsnode_rec fuel self (attachedFsNode x) fsid)) by (eapply Hdown; done).
      destruct (find_fsnode_rec fuel self (attachedFsNode x) fsid) as [[p|]|]; [done| |done]. cbn [mbind option_bind]. apply IHl; [intros i Hi; apply Hin; by right|].
      intros i y p nd' Hy Hay Hi Hb Hp. destruct (decide (i = it)) as [->|Hne]; [simplify_eq; by eapply Hrec|]. eapply Hdone; [done|done| |done|done].
      by intros [?|?]%elem_of_cons. }
  apply Hrest; [done|]. intros i x p nd' Hx Hax Hnin. destruct (fo_attaching _ Hok i x Hx) as (_ & nd1 & Hnd1 & Hin & _). rewrite Hax in Hnd1. by simplify_eq.
Qed.

Lemma get_fsnode_spec self fsid :
  fh_ok self ->
  exists r, FileHierarchy_GetFsNode self fsid = Some r /\
    match r with
    | Some p => exists nd, fsnodes self !! p = Some nd /\ fsn_filesystem nd = fsid
    | None => forall p nd, fsnodes self !! p = Some nd -> fsn_filesystem nd <> fsid
    end.
Proof.
  intros Hok. unfold FileHierarchy_GetFsNode. destruct (fo_rank _ Hok) as (rank & _ & Hrank). destruct (fo_root _ Hok) as (rt & Hrt & _).
  assert (Hf : finds self (fh_root self) fsid (find_fsnode_rec (S (size (fsnodes self))) self (fh_root self) fsid)).
  { apply (find_fsnode_ok self rank fsid Hok Hrank _ _ ∅); [by apply elem_of_dom_2 in Hrt|set_solver|set_solver|]. rewrite size_dom, size_empty. lia. }
  destruct (find_fsnode_rec _ _ _ _) as [r|]; [|done]. exists r. split; [done|]. destruct r as [p|]; [done|].
  intros p nd Hp. eapply Hf; [|done]. by eapply below_root.
Qed.
(** ** Keys *)

Lemma hash_index_bound ty n : (HASH_INDEX ty n < 8)%nat.
Proof.
  unfold HASH_INDEX. change 7 with (Z.ones 3). rewrite Z.land_ones by lia.
  match goal with |- context [?x mod _] => pose proof (Z.mod_pos_bound x (2 ^ 3)) end. lia.
Qed.

Lemma insert_key_chains key self k i :
  length (hashChain self) = 8%nat ->
  k ∈ chain (hashChain (FileHierarchy_InsertKey key self)) i <-> (k = key /\ i = HASH_INDEX (k_type key) (k_node key)) \/ k ∈ chain (hashChain self) i.
Proof.
  intros Hl. unfold FileHierarchy_InsertKey. cbn [hashChain]. unfold chain at 1. pose proof (hash_index_bound (k_type key) (k_node key)).
  destruct (decide (i = HASH_INDEX (k_type key) (k_node key))) as [->|Hne].
  - rewrite list_lookup_insert_eq by lia. cbn [default from_option id]. rewrite elem_of_cons. naive_solver.
  - rewrite list_lookup_insert_ne by done. unfold chain. naive_solver.
Qed.

Lemma insert_key_length key self : length (hashChain (FileHierarchy_InsertKey key self)) = length (hashChain self).
Proof. apply length_insert. Qed.

(** ** Attaching *)

Section AttachStep.
Context (self : FileHierarchy) (pAt aFs aAt fs id : Z) (atDir : node).

Definition attach_nodes : FileHierarchy :=
  MkFH (alter (add_attachment aAt) pAt (<[aFs := MkFsNode fs []]> (fsnodes self))) (<[aAt := MkAtNode atDir pAt id aFs]> (atnodes self))
    (fh_root self) (rootDirectory self) (hashChain self).

Definition attach_result : FileHierarchy :=
  FileHierarchy_InsertKey (MkFHKey aAt atDir kKeyType_Downlink) (FileHierarchy_InsertKey (MkFHKey aAt (Node fs id) kKeyType_Uplink) attach_nodes).

Context (Hok : fh_ok self) (Hfs : fsnodes self !! aFs = None) (Hat : atnodes self !! aAt = None).
Context (ndAt : FsNode) (HpAt : fsnodes self !! pAt = Some ndAt) (HatFs : fsn_filesystem ndAt = n_fs atDir).

Lemma attach_fsnodes p nd :
  fsnodes attach_result !! p = Some nd <->
  (p = aFs /\ nd = MkFsNode fs []) \/ exists nd0, fsnodes self !! p = Some nd0 /\ nd = if bool_decide (p = pAt) then add_attachment aAt nd0 else nd0.
Proof.
  cbn [attach_result FileHierarchy_InsertKey fsnodes attach_nodes]. assert (pAt <> aFs) by congruence.
  destruct (decide (p = pAt)) as [->|Hp].
  - rewrite lookup_alter_eq, lookup_insert_ne by done. rewrite HpAt, bool_decide_true by done. cbn. naive_solver.
  - rewrite lookup_alter_ne by done. rewrite bool_decide_false by done. destruct (decide (p = aFs)) as [->|Hp'].
    + rewrite lookup_insert_eq, Hfs. naive_solver.
    + rewrite lookup_insert_ne by done. naive_solver.
Qed.

Lemma attach_fsnode_old p nd : fsnodes self !! p = Some nd -> exists nd', fsnodes attach_result !! p = Some nd' /\ fsn_filesystem nd' = fsn_filesystem nd.
Proof. intros Hp. eexists. split; [apply attach_fsnodes; right; by exists nd|]. by case_bool_decide. Qed.

Lemma attach_atnodes i x :
  atnodes attach_result !! i = Some x <-> (i = aAt /\ x = MkAtNode atDir pAt id aFs) \/ atnodes self !! i = Some x.
Proof.
  cbn [attach_result FileHierarchy_InsertKey atnodes attach_nodes]. destruct (decide (i = aAt)) as [->|Hi].
  - rewrite lookup_insert_eq, Hat. naive_solver.
  - rewrite lookup_insert_ne by done. naive_solver.
Qed.

Lemma attach_keys a ty n :
  key_node attach_result a ty = Some n <-> (a = aAt /\ n = match ty with kKeyType_Downlink => atDir | kKeyType_Uplink => Node fs id end) \/ key_node self a ty = Some n.
Proof.
  assert (Hnew : fsnodes attach_result !! aFs = Some (MkFsNode fs [])) by (apply attach_fsnodes; by left).
  destruct (decide (a = aAt)) as [->|Ha].
  - assert (Hx : atnodes attach_result !! aAt = Some (MkAtNode atDir pAt id aFs)) by (apply attach_atnodes; by left).
    unfold key_node. rewrite (bind_some Hx), Hat. cbn [mbind option_bind attachingDirectory attachedFsNode attachedDirectoryId]. rewrite (bind_some Hnew). destruct ty; cbn; naive_solver.
  - assert (key_node attach_result a ty = key_node self a ty) as ->; [|naive_solver]. unfold key_node.
    replace (atnodes attach_result !! a) with (atnodes self !! a) by (cbn; by rewrite lookup_insert_ne).
    destruct (atnodes self !! a) as [x|] eqn:Hx; [|done]. cbn [mbind option_bind]. destruct ty; [|done].
    destruct (fo_attached _ Hok a x Hx) as (_ & nd & Hnd & _). destruct (attach_fsnode_old _ _ Hnd) as (nd' & Hnd' & E). by rewrite (bind_some Hnd), (bind_some Hnd'), E.
Qed.

Context (Hnew : forall p nd, fsnodes self !! p = Some nd -> fsn_filesystem nd <> fs).
Context (Hdir : Inode_IsDirectory atDir = true) (Hfree : forall a, key_node self a kKeyType_Downlink <> Some atDir).
Context (Hroot : root_directory fs = inr (Node fs id)).

Lemma attach_points p nd : fsnodes attach_result !! p = Some nd -> NoDup (attachmentPoints nd) /\
  forall a, a ∈ attachmentPoints nd -> exists x, atnodes attach_result !! a = Some x /\ attachingFsNode x = p.
Proof.
  intros [[-> ->]|(nd0 & Hnd0 & ->)]%attach_fsnodes; [split; [constructor|by intros a ?%elem_of_nil]|].
  destruct (fo_points _ Hok p nd0 Hnd0) as [Hdup Hpts]. assert (Hold : forall a, a ∈ attachmentPoints nd0 -> exists x, atnodes attach_result !! a = Some x /\ attachingFsNode x = p).
  { intros a Ha. destruct (Hpts a Ha) as (x & Hx & <-). exists x. split; [|done]. apply attach_atnodes. by right. }
  case_bool_decide as Hp; [|done]. cbn [attachmentPoints add_attachment]. split.
  - apply NoDup_app. split_and!; [done| |apply NoDup_singleton]. intros a Ha ->%list_elem_of_singleton. destruct (Hpts aAt Ha) as (x & Hx & _). congruence.
  - intros a [Ha| ->%list_elem_of_singleton]%elem_of_app; [by apply Hold|]. eexists. split; [apply attach_atnodes; by left|done].
Qed.

Lemma attach_rank : exists rank : Z -> nat, rank (fh_root attach_result) = 0%nat /\
  forall a x, atnodes attach_result !! a = Some x -> rank (attachedFsNode x) = S (rank (attachingFsNode x)).
Proof.
  destruct (fo_rank _ Hok) as (rank & H0 & Hrank). destruct (fo_root _ Hok) as (rt & Hrt & _). exists (fun p => if bool_decide (p = aFs) then S (rank pAt) else rank p).
  split; [cbn; rewrite bool_decide_false; [done|congruence]|]. intros a x [[-> ->]|Hx]%attach_atnodes; cbn.
  - rewrite bool_decide_true by done. rewrite bool_decide_false; [done|congruence].
  - destruct (fo_attaching _ Hok a x Hx) as (_ & n1 & H1 & _). destruct (fo_attached _ Hok a x Hx) as (_ & n2 & H2 & _).
    rewrite !bool_decide_false by congruence. by eapply Hrank.
Qed.

Lemma attach_ok : fh_ok attach_result.
Proof.
  destruct (fo_root _ Hok) as (rt & Hrt & Hrtd). split.
  - unfold attach_result. rewrite !insert_key_length. apply (fo_chains _ Hok).
  - intros i a n ty. unfold attach_result. rewrite !insert_key_chains by (rewrite ?insert_key_length; apply (fo_chains _ Hok)).
    fold attach_result. rewrite attach_keys. cbn [k_type k_node hashChain attach_nodes]. rewrite (fo_keys _ Hok). destruct ty; naive_solver.
  - intros a b x y [[-> ->]|Hx]%attach_atnodes [[-> ->]|Hy]%attach_atnodes; cbn; [done| | |by apply (fo_down_inj _ Hok)]; intros E; exfalso.
    + apply (Hfree b). unfold key_node. rewrite (bind_some Hy). by rewrite E.
    + apply (Hfree a). unfold key_node. rewrite (bind_some Hx). by rewrite E.
  - intros p q x y [[-> ->]|(x0 & Hx & ->)]%attach_fsnodes [[-> ->]|(y0 & Hy & ->)]%attach_fsnodes E; [done|exfalso..|].
    + apply (Hnew _ _ Hy). by destruct (bool_decide _).
    + apply (Hnew _ _ Hx). by destruct (bool_decide _).
    + eapply (fo_fs_inj _ Hok); [done..|]. by destruct (bool_decide (p = pAt)), (bool_decide (q = pAt)).
  - intros a b x y [[-> ->]|Hx]%attach_atnodes [[-> ->]|Hy]%attach_atnodes; cbn; [done| | |by apply (fo_up_inj _ Hok)]; intros E; exfalso.
    + destruct (fo_attached _ Hok b y Hy) as (_ & nd & Hnd & _). congruence.
    + destruct (fo_attached _ Hok a x Hx) as (_ & nd & Hnd & _). congruence.
  - destruct (attach_fsnode_old _ _ Hrt) as (rt' & Hrt' & E). exists rt'. by rewrite E.
  - intros a x [[-> ->]|Hx]%attach_atnodes; cbn [attachingDirectory attachingFsNode].
    + split; [done|]. exists (add_attachment aAt ndAt). split_and!; [apply attach_fsnodes; right; exists ndAt; by rewrite bool_decide_true| |done].
      apply elem_of_app. right. by apply list_elem_of_singleton.
    + destruct (fo_attaching _ Hok a x Hx) as (Hd & nd & Hnd & Ha & E). split; [done|]. eexists. split; [apply attach_fsnodes; right; by exists nd|].
      case_bool_decide; [|done]. split; [|done]. apply elem_of_app. by left.
  - intros a x [[-> ->]|Hx]%attach_atnodes; cbn [attachedFsNode attachedDirectoryId].
    + split; [cbn; congruence|]. eexists. split; [apply attach_fsnodes; by left|done].
    + destruct (fo_attached _ Hok a x Hx) as (Hne & nd & Hnd & E). split; [done|]. destruct (attach_fsnode_old _ _ Hnd) as (nd' & Hnd' & E'). exists nd'. by rewrite E'.
  - exact attach_points.
  - intros p nd [[-> ->]|(nd0 & Hnd0 & _)]%attach_fsnodes; [right; eexists _, _; split; [apply attach_atnodes; by left|done]|].
    destruct (fo_parents _ Hok p nd0 Hnd0) as [->|(a & x & Hx & E)]; [by left|right]. exists a, x. split; [|done]. apply attach_atnodes. by right.
  - exact attach_rank.
Qed.

Lemma attach_attached d r : attached attach_result d r <-> attached self d r \/ (d = atDir /\ r = Node fs id).
Proof.
  unfold attached. setoid_rewrite attach_keys. split.
  - intros (a & [[-> ->]|Hd] & [[Ea ->]|Hr]); [by right| | |left; by exists a]; exfalso.
    + destruct (key_node_at _ _ _ _ Hr). congruence.
    + destruct (key_node_at _ _ _ _ Hd). congruence.
  - intros [(a & Hd & Hr)|[-> ->]]; [exists a; auto|exists aAt; auto].
Qed.
End AttachStep.
(** The outcome of attaching a filesystem. *)
Definition attach_error (ok kok : bool * bool) (self : FileHierarchy) (fs : Z) (atDir : node) : errno :=
  if negb (Inode_IsDirectory atDir) then ENOTDIR
  else if negb (existsb (fun x => fsn_filesystem x.2 =? n_fs atDir) (map_to_list (fsnodes self))) then EINVAL
  else if bool_decide (is_Some (mount_at self atDir)) then EBUSY
  else if negb ok.1 then ENOMEM
  else match root_directory fs with inl e => e | inr _ => if ok.2 && (kok.1 && kok.2) then EOK else ENOMEM end.

Lemma known_spec self f : existsb (fun x => fsn_filesystem x.2 =? f) (map_to_list (fsnodes self)) = true <-> exists p nd, fsnodes self !! p = Some nd /\ fsn_filesystem nd = f.
Proof.
  rewrite existsb_exists. split.
  - intros ([p nd] & Hin%list_elem_of_In & E). apply elem_of_map_to_list in Hin. exists p, nd. split; [done|]. by apply Z.eqb_eq in E.
  - intros (p & nd & Hp & E). exists (p, nd). split; [by apply list_elem_of_In, elem_of_map_to_list|]. by apply Z.eqb_eq.
Qed.

Lemma attach_spec ok kok aFs aAt self fs atDir t :
  fh_ok self -> fsnodes self !! aFs = None -> atnodes self !! aAt = None -> (forall p nd, fsnodes self !! p = Some nd -> fsn_filesystem nd <> fs) ->
  exists self' t', FileHierarchy_AttachFilesystem ok kok aFs aAt self fs atDir t = Some (attach_error ok kok self fs atDir, self', t') /\ fh_ok self' /\
    if is_ok (attach_error ok kok self fs atDir)
    then t' = hold atDir t /\ forall d r, attached self' d r <-> attached self d r \/ (d = atDir /\ root_directory fs = inr r)
    else self' = self /\ t' = t.
Proof.
  intros Hok Hfs Hat Hnew. unfold FileHierarchy_AttachFilesystem, attach_error. destruct (Inode_IsDirectory atDir) eqn:Hdir; cbn [negb]; [|by exists self, t].
  destruct (get_fsnode_spec self (n_fs atDir) Hok) as (r & E & Hr). rewrite (bind_some E). destruct r as [pAt|].
  2: { destruct (existsb _ _) eqn:Ex; [|by exists self, t]. apply known_spec in Ex as (p & nd & Hp & Ef). by apply Hr in Hp. }
  destruct Hr as (ndAt & HpAt & HatFs). destruct (existsb _ _) eqn:Ex; cbn [negb].
  2: { apply not_true_iff_false in Ex. exfalso. apply Ex, known_spec. by exists pAt, ndAt. }
  destruct (get_atnode_spec self atDir kKeyType_Downlink Hok) as (r & Er & Hk). rewrite (bind_some Er). destruct r as [[a x]|].
  { rewrite bool_decide_true; [by exists self, t|]. destruct Hk as [Hx Hk]. destruct (attachment_keys _ _ _ Hok Hx) as (nd & _ & _ & Ha).
    unfold key_node in Hk. rewrite (bind_some Hx) in Hk. injection Hk as Hk. rewrite Hk in Ha. apply mount_at_spec in Ha; [by eexists|done]. }
  rewrite bool_decide_false by (intros [m Hm]; apply mount_at_spec in Hm as (a & Ha & _); [|done]; by apply Hk in Ha).
  unfold create_atnode, acquired. destruct ok as [[] ok2]; cbn [fst snd negb]; [|by exists self, t].
  destruct (root_directory fs) as [e|rd] eqn:Erd.
  { exists self, t. cbn. split_and!; [done..|]. destruct (is_ok e) eqn:Eo; [|done]. apply is_ok_true in Eo as ->. by apply fs_root_error in Erd. }
  pose proof (fs_root_dir _ _ Erd) as (Efs & _). destruct ok2; cbn [andb].
  2: { rewrite (bind_some (relinquish_held _ _)). cbn. by exists self, t. }
  unfold Inode_Reacquire. rewrite (bind_some (relinquish_below _ _ _)). cbn [mbind option_bind]. destruct kok as [[] []]; cbn [andb fst snd];
    [|rewrite (bind_some (relinquish_held _ _)); by exists self, t..].
  assert (Erd' : root_directory fs = inr (Node fs (n_id rd))) by (rewrite Erd; f_equal; destruct rd; cbn in *; by subst).
  exists (attach_result self pAt aFs aAt fs (n_id rd) atDir), (hold atDir t). split_and!; [done|by eapply attach_ok|]. cbn [is_ok]. split; [done|].
  intros d r. erewrite attach_attached by done. rewrite <- Erd, Erd'. naive_solver.
Qed.
(** ** Detaching *)

Lemma drop_keys_chains a cs k i : k ∈ chain (drop_keys a cs) i <-> k ∈ chain cs i /\ k_at k <> a.
Proof.
  unfold chain, drop_keys. rewrite list_lookup_fmap. destruct (cs !! i) as [l|]; cbn; [rewrite list_elem_of_filter; tauto|].
  split; [by intros ?%elem_of_nil|by intros [?%elem_of_nil _]].
Qed.

Section DetachStep.
Context (self : FileHierarchy) (a : Z) (x : AtNode).

Definition detach_result : FileHierarchy :=
  MkFH (delete (attachedFsNode x) (alter (remove_attachment a) (attachingFsNode x) (fsnodes self))) (delete a (atnodes self))
    (fh_root self) (rootDirectory self) (drop_keys a (hashChain self)).

Context (Hok : fh_ok self) (Hx : atnodes self !! a = Some x).
Context (nd : FsNode) (Hnd : fsnodes self !! attachedFsNode x = Some nd) (Hleaf : attachmentPoints nd = []).

Lemma detach_fsnodes p m :
  fsnodes detach_result !! p = Some m <-> p <> attachedFsNode x /\
    exists m0, fsnodes self !! p = Some m0 /\ m = if bool_decide (p = attachingFsNode x) then remove_attachment a m0 else m0.
Proof.
  cbn [detach_result fsnodes]. rewrite lookup_delete_Some. destruct (decide (p = attachingFsNode x)) as [->|Hp].
  - rewrite lookup_alter_eq, bool_decide_true, fmap_Some by done. naive_solver.
  - rewrite lookup_alter_ne, bool_decide_false by done. naive_solver.
Qed.

Lemma detach_fsnode_old p m :
  fsnodes self !! p = Some m -> p <> attachedFsNode x -> exists m', fsnodes detach_result !! p = Some m' /\ fsn_filesystem m' = fsn_filesystem m.
Proof. intros Hp Hne. eexists. split; [apply detach_fsnodes; split; [done|by exists m]|]. by case_bool_decide. Qed.

Lemma detach_atnodes i y : atnodes detach_result !! i = Some y <-> i <> a /\ atnodes self !! i = Some y.
Proof. cbn [detach_result atnodes]. rewrite lookup_delete_Some. naive_solver. Qed.

(** The other filesystems keep their nodes. *)
Lemma detach_attached_fs i y : atnodes self !! i = Some y -> i <> a -> attachedFsNode y <> attachedFsNode x.
Proof. intros Hy Hi E. apply Hi. by eapply (fo_up_inj _ Hok). Qed.

Lemma detach_attaching_fs i y : atnodes self !! i = Some y -> attachingFsNode y <> attachedFsNode x.
Proof.
  intros Hy E. destruct (fo_attaching _ Hok i y Hy) as (_ & m & Hm & Hin & _). rewrite E in Hm. simplify_eq. rewrite Hleaf in Hin. by apply elem_of_nil in Hin.
Qed.

Lemma detach_keys b ty n : key_node detach_result b ty = Some n <-> b <> a /\ key_node self b ty = Some n.
Proof.
  unfold key_node. destruct (decide (b = a)) as [->|Hb].
  { assert (atnodes detach_result !! a = None) as -> by (apply lookup_delete_eq). naive_solver. }
  replace (atnodes detach_result !! b) with (atnodes self !! b) by (cbn; by rewrite lookup_delete_ne).
  destruct (atnodes self !! b) as [y|] eqn:Hy; [|naive_solver]. cbn [mbind option_bind]. destruct ty; [|naive_solver].
  destruct (fo_attached _ Hok b y Hy) as (_ & m & Hm & _). destruct (detach_fsnode_old _ _ Hm) as (m' & Hm' & E); [by eapply detach_attached_fs|].
  rewrite (bind_some Hm), (bind_some Hm'), E. naive_solver.
Qed.

Lemma detach_ok : fh_ok detach_result.
Proof.
  destruct (fo_root _ Hok) as (rt & Hrt & Hrtd). destruct (fo_attached _ Hok a x Hx) as (Hnr & _). split.
  - cbn. unfold drop_keys. rewrite length_fmap. apply (fo_chains _ Hok).
  - intros i b n ty. cbn [detach_result hashChain]. rewrite drop_keys_chains, (fo_keys _ Hok). fold detach_result. rewrite detach_keys. cbn. tauto.
  - intros i j y z [_ Hy]%detach_atnodes [_ Hz]%detach_atnodes. by eapply (fo_down_inj _ Hok).
  - intros p q y z (_ & y0 & Hy & ->)%detach_fsnodes (_ & z0 & Hz & ->)%detach_fsnodes E. eapply (fo_fs_inj _ Hok); [done..|].
    by destruct (bool_decide (p = _)), (bool_decide (q = _)).
  - intros i j y z [_ Hy]%detach_atnodes [_ Hz]%detach_atnodes. by eapply (fo_up_inj _ Hok).
  - destruct (detach_fsnode_old _ _ Hrt) as (rt' & Hrt' & E); [done|]. exists rt'. by rewrite E.
  - intros i y [Hi Hy]%detach_atnodes. destruct (fo_attaching _ Hok i y Hy) as (Hd & m & Hm & Hin & E). split; [done|]. eexists.
    split; [apply detach_fsnodes; split; [by eapply detach_attaching_fs|by exists m]|]. case_bool_decide; [|done]. split; [|done]. by apply list_elem_of_filter.
  - intros i y [Hi Hy]%detach_atnodes. destruct (fo_attached _ Hok i y Hy) as (Hr & m & Hm & E). split; [done|].
    destruct (detach_fsnode_old _ _ Hm) as (m' & Hm' & E'); [by eapply detach_attached_fs|]. exists m'. by rewrite E'.
  - intros p m (Hp & m0 & Hm0 & ->)%detach_fsnodes. destruct (fo_points _ Hok p m0 Hm0) as [Hdup Hpts].
    assert (Hold : forall b, b ∈ attachmentPoints m0 -> b <> a -> exists y, atnodes detach_result !! b = Some y /\ attachingFsNode y = p).
    { intros b Hb Hba. destruct (Hpts b Hb) as (y & Hy & E). exists y. split; [by apply detach_atnodes|done]. }
    case_bool_decide as Ep; cbn.
    + split; [by apply NoDup_filter|]. intros b [Hba Hb]%list_elem_of_filter. by apply Hold.
    + split; [done|]. intros b Hb. apply Hold; [done|]. intros ->. destruct (Hpts a Hb) as (y & Hy & E). apply Ep. congruence.
  - intros p m (Hp & m0 & Hm0 & _)%detach_fsnodes. destruct (fo_parents _ Hok p m0 Hm0) as [->|(i & y & Hy & E)]; [by left|right]. exists i, y.
    split; [|done]. apply detach_atnodes. split; [|done]. intros ->. congruence.
  - destruct (fo_rank _ Hok) as (rank & H0 & Hrank). exists rank. split; [done|]. intros i y [_ Hy]%detach_atnodes. by eapply Hrank.
Qed.
Lemma detach_attached d r r0 :
  key_node self a kKeyType_Uplink = Some r0 -> attached detach_result d r <-> attached self d r /\ r <> r0.
Proof.
  intros H0. unfold attached. setoid_rewrite detach_keys. split.
  - intros (b & [Hb Hd] & [_ Hr]). split; [by exists b|]. intros ->. apply Hb. destruct (key_node_at _ _ _ _ Hr) as [y Hy].
    destruct (fo_attached _ Hok b y Hy) as (_ & m & Hm & _). unfold key_node in H0, Hr. rewrite (bind_some Hx), (bind_some Hnd) in H0. rewrite (bind_some Hy), (bind_some Hm) in Hr.
    eapply (fo_up_inj _ Hok); [done..|]. eapply (fo_fs_inj _ Hok); [done..|]. congruence.
  - intros [(b & Hd & Hr) Hne]. exists b. assert (b <> a) by (intros ->; congruence). done.
Qed.
End DetachStep.

Lemma remove_one_perm n l : n ∈ l -> exists l', remove_one n l = Some l' /\ l ≡ₚ n :: l'.
Proof.
  induction l as [|m l IH]; [by intros ?%elem_of_nil|]. cbn. case_bool_decide as E; [subst; by eexists|].
  intros [->|Hin]%elem_of_cons; [done|]. destruct (IH Hin) as (l' & -> & Hp). exists (m :: l'). split; [done|]. rewrite Hp. by constructor.
Qed.

Lemma relinquish_perm n t l : held t ≡ₚ n :: l -> exists t', Inode_Relinquish n t = Some t' /\ held t' ≡ₚ l /\ locked t' = locked t.
Proof.
  intros Hp. destruct (remove_one_perm n (held t)) as (l' & E & Hl); [rewrite Hp; left|]. unfold Inode_Relinquish. rewrite (bind_some E).
  eexists. split_and!; [done| |done]. cbn. rewrite Hp in Hl. by apply Permutation_cons_inv in Hl.
Qed.

(** The outcome of detaching a filesystem by the name of its root, without force. *)
Definition detach_error (self : FileHierarchy) (dir : node) : errno :=
  if bool_decide (dir = rootDirectory self) then EBUSY
  else if bool_decide (mount_of self dir = None) then EINVAL
  else if existsb (fun m => n_fs m.1 =? n_fs dir) (mounts self) then EBUSY else EOK.

Lemma nested_spec self a x nd r :
  fh_ok self -> atnodes self !! a = Some x -> fsnodes self !! attachedFsNode x = Some nd -> n_fs r = fsn_filesystem nd ->
  existsb (fun m => n_fs m.1 =? n_fs r) (mounts self) = negb (bool_decide (attachmentPoints nd = [])).
Proof.
  intros Hok Hx Hnd Hr. apply eq_true_iff_eq. rewrite existsb_exists, negb_true_iff, bool_decide_eq_false. split.
  - intros ([d r'] & Hin%list_elem_of_In & E). apply mounts_spec in Hin as (b & Hd & _). cbn in E. apply Z.eqb_eq in E.
    destruct (key_node_at _ _ _ _ Hd) as [y Hy]. unfold key_node in Hd. rewrite (bind_some Hy) in Hd. injection Hd as Hd.
    destruct (fo_attaching _ Hok b y Hy) as (_ & m & Hm & Hin & Ef). assert (attachingFsNode y = attachedFsNode x) as Eq by (eapply (fo_fs_inj _ Hok); [done..|congruence]).
    rewrite Eq in Hm. simplify_eq. by intros E0; rewrite E0 in Hin; apply elem_of_nil in Hin.
  - destruct (attachmentPoints nd) as [|b l] eqn:El; [done|]. intros _. destruct (fo_points _ Hok _ _ Hnd) as [_ Hpts]. destruct (Hpts b) as (y & Hy & E); [rewrite El; left|].
    destruct (attachment_keys _ _ _ Hok Hy) as (m & _ & _ & Ha). destruct (fo_attaching _ Hok b y Hy) as (_ & m' & Hm' & _ & Ef).
    eexists (_, _). split; [by apply list_elem_of_In, mounts_spec|]. cbn. apply Z.eqb_eq. rewrite E in Hm'. congruence.
Qed.

Lemma detach_spec stop self dir t l :
  fh_ok self -> held t ≡ₚ dir :: option_list (mount_of self dir) ++ l ->
  exists self' t', FileHierarchy_DetachFilesystemAt stop self dir false t = Some (detach_error self dir, self', t') /\ fh_ok self' /\ locked t' = locked t /\
    if is_ok (detach_error self dir) then
      if bool_decide (stop = EBUSY) then self' = self /\ held t' ≡ₚ option_list (mount_of self dir) ++ l
      else held t' ≡ₚ l /\ forall d r, attached self' d r <-> attached self d r /\ r <> dir
    else self' = self /\ t' = t.
Proof.
  intros Hok Ht. unfold FileHierarchy_DetachFilesystemAt, detach_error.
  destruct (Inode_Equals_spec (rootDirectory self) dir) as [<-|Hroot]; [rewrite bool_decide_true by done; by exists self, t|].
  rewrite (bool_decide_false (dir = _)) by done. pose proof (get_key_spec self dir kKeyType_Uplink Hok) as Hk.
  destruct (FileHierarchy_GetKey self dir kKeyType_Uplink) as [k|].
  2: { rewrite bool_decide_true; [by exists self, t|]. destruct (mount_of self dir) as [d|] eqn:Em; [|done]. apply mount_of_spec in Em as (a & _ & Ha); [|done]. by apply Hk in Ha. }
  destruct Hk as (_ & _ & Hk). destruct (key_node_at _ _ _ _ Hk) as [x Hx]. destruct (attachment_keys _ _ _ Hok Hx) as (nd & Hnd & _ & Ha).
  pose proof Hk as Hk'. unfold key_node in Hk'. rewrite (bind_some Hx), (bind_some Hnd) in Hk'. injection Hk' as Ed. rewrite Ed in Ha. apply mount_of_spec in Ha; [|done].
  rewrite Ha in Ht |- *. rewrite (bool_decide_false (Some _ = None)) by done. rewrite (bind_some Hx), (bind_some Hnd).
  rewrite (nested_spec self (k_at k) x nd dir) by (done || by rewrite <- Ed). cbn [negb andb]. destruct (bool_decide (attachmentPoints nd = [])) eqn:El; cbn [negb]; [|by exists self, t].
  apply bool_decide_eq_true in El. destruct (relinquish_perm _ _ _ Ht) as (t1 & E1 & Ht1 & Hl1). rewrite (bind_some E1).
  case_bool_decide as Hstop; [by exists self, t1|]. cbn [is_ok]. cbn [destroy_atnode atnodes]. rewrite (bind_some Hx).
  cbn in Ht1. destruct (relinquish_perm _ _ _ Ht1) as (t2 & E2 & Ht2 & Hl2). rewrite (bind_some E2). cbn [fsnodes].
  assert (Hne : attachingFsNode x <> attachedFsNode x) by (by eapply detach_attaching_fs).
  assert (Hnd2 : alter (remove_attachment (k_at k)) (attachingFsNode x) (fsnodes self) !! attachedFsNode x = Some nd) by (by rewrite lookup_alter_ne).
  rewrite (bind_some Hnd2), El. cbn. eexists (detach_result self (k_at k) x), t2. split_and!; [done|by eapply detach_ok|congruence|done|].
  intros d r. by eapply detach_attached.
Qed.
(** ** Reachable hierarchies *)

Lemma fh_create_ok alloc a fs t self t' : FileHierarchy_Create alloc a fs t = Some (EOK, Some self, t') -> fh_ok self.
Proof.
  unfold FileHierarchy_Create. destruct alloc as [[] ok2]; [|done]. cbn [fst snd]. unfold acquired. destruct (root_directory fs) as [e|rd] eqn:Erd; [done|].
  destruct ok2; [|by rewrite (bind_some (relinquish_held _ _))]. intros [= <- <-].
  assert (Hfs : forall p nd, ({[ a := MkFsNode fs [] ]} : gmap Z FsNode) !! p = Some nd -> p = a /\ nd = MkFsNode fs []) by (by intros p nd [<- <-]%lookup_singleton_Some).
  assert (Hch : forall i (k : FHKey), k ∉ chain (replicate 8 []) i).
  { intros i k. unfold chain. destruct (replicate 8 [] !! i) as [l|] eqn:El; cbn; [|apply not_elem_of_nil]. apply lookup_replicate in El as [-> _]. apply not_elem_of_nil. }
  split; cbn [fsnodes atnodes fh_root rootDirectory hashChain].
  - done.
  - intros i b n ty. split; [by intros ?%Hch|]. unfold key_node. cbn. rewrite lookup_empty. by intros [? _].
  - intros b c x y Hx. by rewrite lookup_empty in Hx.
  - intros p q x y [-> _]%Hfs [-> _]%Hfs. done.
  - intros b c x y Hx. by rewrite lookup_empty in Hx.
  - eexists. by rewrite lookup_singleton_eq.
  - intros b x Hx. by rewrite lookup_empty in Hx.
  - intros b x Hx. by rewrite lookup_empty in Hx.
  - intros p nd [_ ->]%Hfs. split; [constructor|by intros b ?%elem_of_nil].
  - intros p nd [-> _]%Hfs. by left.
  - exists (fun _ => O). split; [done|]. intros b x Hx. by rewrite lookup_empty in Hx.
Qed.

(** The hierarchies that arise from one filesystem by attaching further ones and by
    detaching them without force.  The addresses of new nodes are free, and detaching
    finds the references of the caller and of the attachment. *)
Inductive hierarchy : FileHierarchy -> Prop :=
| hierarchy_create alloc a fs t self t' : FileHierarchy_Create alloc a fs t = Some (EOK, Some self, t') -> hierarchy self
| hierarchy_attach self ok kok aFs aAt fs atDir t e self' t' :
    hierarchy self -> fsnodes self !! aFs = None -> atnodes self !! aAt = None -> (forall p nd, fsnodes self !! p = Some nd -> fsn_filesystem nd <> fs) ->
    FileHierarchy_AttachFilesystem ok kok aFs aAt self fs atDir t = Some (e, self', t') -> hierarchy self'
| hierarchy_detach self stop dir t l e self' t' :
    hierarchy self -> held t ≡ₚ dir :: option_list (mount_of self dir) ++ l ->
    FileHierarchy_DetachFilesystemAt stop self dir false t = Some (e, self', t') -> hierarchy self'.

Lemma hierarchy_ok self : hierarchy self -> fh_ok self.
Proof.
  induction 1 as [alloc a fs t self t' E|self ok kok aFs aAt fs atDir t e self' t' _ IH H1 H2 H3 E|self stop dir t l e self' t' _ IH H1 E].
  - by eapply fh_create_ok.
  - destruct (attach_spec ok kok aFs aAt self fs atDir t IH H1 H2 H3) as (s' & t1 & E' & Hok & _). by simplify_eq.
  - destruct (detach_spec stop self dir t l IH H1) as (s' & t1 & E' & Hok & _). by simplify_eq.
Qed.


(** Detaching a filesystem without force.  The function returns the error that
    the table of mounts gives; an error leaves everything as it was, and otherwise
    the one attachment of the filesystem is gone, all others stay, the references of
    the caller and of the attachment are given up, and the tree and the hash table
    are consistent.  A filesystem that can not be stopped stays attached, which the
    caller is not told. *)
Theorem detach_removes_mount stop self dir t l :
  hierarchy self -> held t ≡ₚ dir :: option_list (mount_of self dir) ++ l ->
  exists self' t', FileHierarchy_DetachFilesystemAt stop self dir false t = Some (detach_error self dir, self', t') /\ fh_ok self' /\ locked t' = locked t /\
    if is_ok (detach_error self dir) then
      if bool_decide (stop = EBUSY) then self' = self /\ held t' ≡ₚ option_list (mount_of self dir) ++ l
      else held t' ≡ₚ l /\ forall d r, attached self' d r <-> attached self d r /\ r <> dir
    else self' = self /\ t' = t.
Proof. intros Hh. by apply detach_spec, hierarchy_ok. Qed.
End Attach.

(** ** A sample hierarchy

    The filesystem 1 has the directories mnt and home, and 2 the directory bin. *)

Definition sample_entries : list (node * list Z * node) :=
  [(Node 1 2, [109; 110; 116], Node 1 5); (Node 1 2, [104; 111; 109; 101], Node 1 6); (Node 2 2, [98; 105; 110], Node 2 7)].

#[export] Instance sample_fs : Filesystems := {|
  inode_info := fun n => Info true 0 0 493;
  fs_is_readonly := fun _ => false;
  parent_node := fun n =>
    if bool_decide (n_id n = 2) then inr n
    else match find (fun e => bool_decide (e.2 = n)) sample_entries with Some e => inr e.1.1 | None => inl ENOENT end;
  node_for_name := fun d nm => match find (fun e => bool_decide (e.1 = (d, nm))) sample_entries with Some e => inr e.2 | None => inl ENOENT end;
  name_of_node := fun d id => match find (fun e => bool_decide (e.1.1 = d /\ e.2 = Node (n_fs d) id)) sample_entries with Some e => inr e.1.2 | None => inl ENOENT end;
  root_directory := fun f => inr (Node f 2) |}.

Lemma sample_found f e : find f sample_entries = Some e -> f e = true /\ e ∈ sample_entries.
Proof. intros H. apply find_some in H as [H1 H2]. split; [done|]. by apply list_elem_of_In. Qed.

#[export] Instance sample_spec : FilesystemsSpec.
Proof.
  split.
  - intros n. cbn -[sample_entries]. case_bool_decide; [done|]. by destruct (find _ _).
  - intros d nm. cbn -[sample_entries]. by destruct (find _ _).
  - intros d id. cbn -[sample_entries]. by destruct (find _ _).
  - done.
  - intros d nm c. cbn -[sample_entries]. destruct (find _ _) as [e|] eqn:E; [|done]. apply sample_found in E as [Hb Hin]. intros [= <-].
    apply bool_decide_eq_true in Hb. set_unfold in Hin. naive_solver.
  - intros d nm c. cbn -[sample_entries]. destruct (find _ _) as [e|] eqn:E; [|done]. apply sample_found in E as [Hb Hin]. intros [= <-] _ _.
    apply bool_decide_eq_true in Hb. unfold sample_entries in Hin. rewrite !elem_of_cons, elem_of_nil in Hin. destruct Hin as [->|[->|[->|[]]]]; cbn in Hb; by simplify_eq.
  - intros f r [= <-]. done.
  - intros d id nm _ _. cbn -[sample_entries]. destruct (find _ _) as [e|] eqn:E; [|done]. apply sample_found in E as [Hb Hin]. intros [= <-].
    apply bool_decide_eq_true in Hb as [Hd He]. unfold sample_entries in Hin. rewrite !elem_of_cons, elem_of_nil in Hin.
    destruct Hin as [->|[->|[->|[]]]]; cbn in Hd, He |- *; subst d; simplify_eq; (split; [done|split; [|done]]); by repeat constructor.
Qed.

Definition sample_fh0 : FileHierarchy := MkFH {[ 100 := MkFsNode 1 [] ]} ∅ 100 (Node 1 2) (replicate 8 []).
Definition sample_fh : FileHierarchy := attach_result sample_fh0 100 101 201 2 2 (Node 1 5).

Lemma sample_hierarchy0 : hierarchy sample_fh0.
Proof. by apply (hierarchy_create (true, true) 100 1 (Th [] []) _ (Th [Node 1 2] [])). Qed.

Lemma sample_new p nd : fsnodes sample_fh0 !! p = Some nd -> fsn_filesystem nd <> 2.
Proof. cbn [fsnodes sample_fh0]. by intros [<- <-]%lookup_singleton_Some. Qed.

Lemma sample_hierarchy : hierarchy sample_fh.
Proof.
  apply (hierarchy_attach sample_fh0 (true, true) (true, true) 101 201 2 (Node 1 5) (Th [] []) EOK _ (Th [Node 1 5] [])); [apply sample_hierarchy0|done|done|apply sample_new|].
  vm_compute. reflexivity.
Qed.


Lemma detach_removes_mount_witness :
  mount_of sample_fh (Node 2 2) = Some (Node 1 5) /\ detach_error sample_fh (Node 2 2) = EOK /\
  exists self' t', FileHierarchy_DetachFilesystemAt EOK sample_fh (Node 2 2) false (Th [Node 1 5; Node 2 2] []) = Some (EOK, self', t') /\ fh_ok self' /\
    forall d r, attached self' d r <-> attached sample_fh d r /\ r <> Node 2 2.
Proof.
  split; [by vm_compute|]. split; [by vm_compute|].
  destruct (detach_removes_mount EOK sample_fh (Node 2 2) (Th [Node 1 5; Node 2 2] []) [] sample_hierarchy) as (self' & t' & E & Hok & _ & _ & Hm).
  { replace (mount_of sample_fh (Node 2 2)) with (Some (Node 1 5)) by (by vm_compute). apply Permutation_swap. }
  exists self', t'. split; [exact E|]. split; [exact Hok|exact Hm].
Defined.
