(* ===== verification/FileCwd.v ===== *)
(** * The file hierarchy: the path of a directory

    GetPath walks up from a directory to the root directory of the process and puts
    the path together at the end of the buffer of the caller.  It ends, stays inside
    of the buffer and gives back what it acquired; the path leads back to the
    directory if the buffer has room for one more name. *)

From S2P Require Import Prelude Bytes InodeCache FileHierarchy FileHierInv FilePath FileAttach.

(** ** Copying inside of a buffer *)

Lemma memcpy_ok n dst src buf :
  (dst + n <= length buf)%nat -> (src + n <= length buf)%nat ->
  exists buf', memcpy n dst src buf = Some buf' /\ length buf' = length buf /\
    (forall j, (j < dst \/ dst + n <= j)%nat -> buf' !! j = buf !! j) /\
    ((dst <= src \/ src + n <= dst)%nat -> forall i, (i < n)%nat -> buf' !! (dst + i)%nat = buf !! (src + i)%nat).
Proof.
  revert dst src buf. induction n as [|n IH]; intros dst src buf Hd Hs; cbn [memcpy]; [exists buf; split_and!; [done..|lia]|].
  destruct (lookup_lt_is_Some_2 buf src) as [b Hb]; [lia|]. rewrite (bind_some Hb). destruct (Nat.ltb_spec dst (length buf)); [|lia].
  destruct (IH (S dst) (S src) (<[dst:=b]> buf)) as (buf' & E & Hl & Hout & Hin); [rewrite length_insert; lia..|]. rewrite length_insert in Hl.
  exists buf'. split_and!; [done|done| |].
  - intros j Hj. rewrite Hout by lia. apply list_lookup_insert_ne. lia.
  - intros Hov [|i] Hi.
    + rewrite Hout by lia. rewrite Nat.add_0_r, list_lookup_insert_eq by lia. by rewrite Nat.add_0_r.
    + replace (dst + S i)%nat with (S dst + i)%nat by lia. rewrite Hin by lia. rewrite list_lookup_insert_ne by lia. f_equal. lia.
Qed.

Lemma move_down p buf :
  (p <= length buf)%nat -> exists buf', memcpy (length buf - p) 0 p buf = Some buf' /\ length buf' = length buf /\ take (length buf - p) buf' = drop p buf.
Proof.
  intros Hp. destruct (memcpy_ok (length buf - p) 0 p buf) as (buf' & E & Hl & _ & Hin); [lia..|]. exists buf'. split_and!; [done..|].
  apply list_eq. intros i. rewrite lookup_drop. destruct (Nat.ltb_spec i (length buf - p)) as [Hi|Hi].
  - rewrite lookup_take_lt by lia. rewrite <- Hin by lia. done.
  - rewrite !lookup_ge_None_2; [done|lia|]. rewrite length_take. lia.
Qed.

(** The text of a path. *)
Definition path_text (names : list (list Z)) : list Z := concat ((fun nm => 47 :: nm) <$> names).

Lemma path_text_app a b : path_text (a ++ b) = path_text a ++ path_text b.
Proof. unfold path_text. by rewrite fmap_app, concat_app. Qed.
Lemma path_text_one nm : path_text [nm] = 47 :: nm.
Proof. unfold path_text. cbn. by rewrite app_nil_r. Qed.

Lemma components_text names :
  Forall good_name names -> components (path_text names) = names.
Proof.
  induction 1 as [|nm names (Hne & _ & _ & Hnm) Hns IH]; [done|]. change (path_text (nm :: names)) with (47 :: (nm ++ path_text names)).
  rewrite components_slash, bool_decide_false by (by intros [? _]%app_eq_nil). rewrite components_name; [by rewrite IH|done| |].
  - eapply Forall_impl; [exact Hnm|]. intros ch [H0 H47]. unfold is_name. destruct (Z.eqb_spec ch 0), (Z.eqb_spec ch 47); done.
  - destruct names as [|nm' names]; [by left|right]. by eexists.
Qed.

(** Putting a name in front of the path in the buffer: what the loop does in one
    round, if the buffer has room for it. *)
Lemma prepend_name nm p buf :
  (length nm <= p)%nat -> (p < length buf)%nat ->
  exists buf', memcpy (length nm) (p - length nm) 0 (patch 0 nm buf) = Some buf' /\ length buf' = length buf /\
    drop p buf' = drop p buf /\ ((2 * length nm <= p)%nat -> drop (p - length nm) buf' = nm ++ drop p buf).
Proof.
  intros Hn Hp. assert (Hl : length (patch 0 nm buf) = length buf) by (apply length_patch; lia).
  destruct (memcpy_ok (length nm) (p - length nm) 0 (patch 0 nm buf)) as (buf' & E & Hl' & Hout & Hin); [lia..|].
  assert (Hdrop : drop p buf' = drop p buf).
  { apply list_eq. intros i. rewrite !lookup_drop, Hout by lia. apply lookup_patch_out; lia. }
  exists buf'. split_and!; [done|congruence|done|]. intros Hroom.
  rewrite <- (take_drop (length nm) (drop (p - length nm) buf')), drop_drop. replace (p - length nm + length nm)%nat with p by lia. rewrite Hdrop. f_equal.
  apply list_eq. intros i. destruct (Nat.ltb_spec i (length nm)) as [Hi|Hi].
  - rewrite lookup_take_lt, lookup_drop by lia. rewrite Hin by lia. rewrite lookup_patch_in by lia. f_equal. lia.
  - rewrite !lookup_ge_None_2; [done|lia|]. rewrite length_take. lia.
Qed.

Lemma node_eq (a b : node) : n_fs a = n_fs b -> n_id a = n_id b -> a = b.
Proof. destruct a, b. cbn. congruence. Qed.

Section Cwd.
Context {FSS : Filesystems}.

(** The directory entry for a directory in its parent is that of the directory at
    which it is attached, if it is the root of a filesystem. *)
Definition entry_of (self : FileHierarchy) (n : node) : node :=
  if bool_decide (parent_node n = inr n) then default n (mount_of self n) else n.

(** The names on the way from the root directory to [n], for a user that may read and
    search these directories. *)
Fixpoint names_up (fuel : nat) (self : FileHierarchy) (root : node) (uid gid : Z) (n : node) : option (errno + list (list Z)) :=
  match fuel with
  | O => None
  | S fuel =>
      if bool_decide (n = root) then Some (inr [])
      else
        match walk_up self root uid gid n with
        | inl e => Some (inl e)
        | inr d =>
            let e := perm_check_node_access d uid gid (Z.lor R_OK X_OK) in
            if is_ok e then
              match name_of_node d (n_id (entry_of self n)) with
              | inl e => Some (inl e)
              | inr nm => r ← names_up fuel self root uid gid d; Some match r with inl e => inl e | inr names => inr (names ++ [nm]) end
              end
            else Some (inl e)
        end
  end.

Context {FSP : FilesystemsSpec}.

(** Going up from a directory in the tree leads to the directory that lists it. *)
Lemma walk_up_entry self root uid gid n d :
  fh_ok self -> reach self root n -> n <> root -> Inode_IsDirectory n = true -> walk_up self root uid gid n = inr d ->
  n_fs (entry_of self n) = n_fs d /\ parent_node (entry_of self n) = inr d /\ entry_of self n <> d /\ default (entry_of self n) (mount_at self (entry_of self n)) = n.
Proof.
  intros Hok Hr Hn Hdir Hup. unfold walk_up, searched in Hup. rewrite bool_decide_false in Hup by done.
  destruct (is_ok (perm_check_node_access n uid gid X_OK)); [|done]. unfold entry_of.
  destruct (reach_parent _ _ _ Hok Hr Hn Hdir) as (d' & nm & c & Hd & Hc & Hcd & En & [[Ec Hp]|(Hp & Ha & Hpc)]).
  - rewrite Hp in Hup. assert (d' <> n) by congruence. rewrite bool_decide_true in Hup by done. injection Hup as ->.
    rewrite bool_decide_false by congruence. split_and!; [rewrite Ec; by eapply fs_child_fs|done|congruence|]. rewrite Ec at 1 2. by rewrite <- En.
  - rewrite Hp in Hup. rewrite bool_decide_false in Hup by (by intros []). rewrite bool_decide_true by done. pose proof Ha as Hm. apply mount_of_spec in Hm; [|done].
    rewrite Hm in Hup |- *. destruct (is_ok _); [|done]. rewrite Hpc in Hup. injection Hup as ->. cbn [default from_option id].
    split_and!; [by eapply fs_child_fs|done|done|by rewrite <- En].
Qed.

Lemma access_implies n uid gid : perm_check_node_access n uid gid (Z.lor R_OK X_OK) = EOK -> perm_check_node_access n uid gid X_OK = EOK.
Proof.
  unfold perm_check_node_access. destruct (uid =? UID_ROOT); [done|].
  change (has_mode (Z.lor R_OK X_OK) W_OK) with false. change (has_mode X_OK W_OK) with false. cbn [andb].
  set (fp := if i_uid _ =? uid then _ else _). change (Z.lor (Z.lor _ _) _) with 5 at 1 2.
  destruct (Z.eqb_spec (Z.land fp 5) 5) as [E|]; [|done]. intros _. change (Z.lor (Z.lor _ _) _) with 1.
  assert (Z.land fp 1 = 1) as ->; [|done]. change 1 with (Z.land 5 1) at 1. by rewrite Z.land_assoc, E.
Qed.

Lemma get_name_spec id d uid gid p buf t :
  locked t = [] -> (p < length buf)%nat ->
  get_name_of_node id d uid gid p buf t =
    Some (let e := perm_check_node_access d uid gid (Z.lor R_OK X_OK) in
          if is_ok e then
            match name_of_node d id with
            | inl e => (e, O, buf, t)
            | inr nm => if (p <? length nm)%nat then (ERANGE, O, buf, t) else (EOK, length nm, patch 0 nm buf, t)
            end
          else (e, O, buf, t)).
Proof.
  intros Ht Hp. unfold get_name_of_node. rewrite (bind_some (lock_free d t ltac:(rewrite Ht; apply not_elem_of_nil))). cbn zeta.
  destruct (is_ok _); [|by rewrite (bind_some (unlock_locked _ _))].
  destruct (name_of_node d id) as [e|nm]; [by rewrite (bind_some (unlock_locked _ _))|]. unfold MutablePathComponent_SetString.
  destruct (p <? length nm)%nat; by rewrite (bind_some (unlock_locked _ _)).
Qed.

(** What is known of the state of the loop after it started at [p]. *)
Definition path_post (n0 : option (errno + list (list Z))) (p : nat) (buf : list Z) (t : thread)
    (r : option (errno * node * nat * list Z * thread)) : Prop :=
  exists e n' p' buf', r = Some (e, n', p', buf', hold n' t) /\ length buf' = length buf /\ (p' <= p)%nat /\ drop p buf' = drop p buf /\
    forall names, n0 = Some (inr names) -> (length (path_text names) + 255 <= p)%nat -> Forall (fun nm => length nm <= 255)%nat names ->
      e = EOK /\ (p' + length (path_text names) = p)%nat /\ drop p' buf' = path_text names ++ drop p buf.

(** The id that AcquireParentDirectory reports is that of the entry. *)
Lemma parent_entry self root uid gid n d io :
  fh_ok self -> reach self root n -> n <> root -> Inode_IsDirectory n = true -> walk_up self root uid gid n = inr d ->
  io = (if bool_decide (parent_node n = inr n) then n_id <$> (Some (n_id n) ≫= fun _ => mount_of self n) else Some (n_id n)) ->
  default 0 io = n_id (entry_of self n).
Proof.
  intros Hok Hr Hn Hdir Hup ->. unfold entry_of. case_bool_decide as Hp; [|done].
  destruct (mount_of self n) as [m|] eqn:Em; [done|]. unfold walk_up, searched in Hup. rewrite bool_decide_false in Hup by done. destruct (is_ok _); [|done].
  rewrite Hp, bool_decide_false, Em in Hup by (by intros []). done.
Qed.

(** The directory entry behind an inode that a lookup returned. *)
Lemma covered_dir self c : fh_ok self -> Inode_IsDirectory (default c (mount_at self c)) = true -> Inode_IsDirectory c = true.
Proof.
  intros Hok. destruct (mount_at self c) as [r|] eqn:Em; [|done]. intros _. apply mount_at_spec in Em; [|done].
  by destruct (attached_inv _ _ _ Hok Em) as (_ & _ & _ & _ & _ & _ & _ & _ & ?).
Qed.

Lemma entry_child self d nm c :
  fh_ok self -> node_for_name d nm = inr c -> c <> d -> Inode_IsDirectory (default c (mount_at self c)) = true ->
  entry_of self (default c (mount_at self c)) = c.
Proof.
  intros Hok Hc Hcd Hdir. pose proof (covered_dir _ _ Hok Hdir) as Hcdir. unfold entry_of. destruct (mount_at self c) as [r|] eqn:Em; cbn [default from_option id].
  - apply mount_at_spec in Em; [|done]. destruct (attached_inv _ _ _ Hok Em) as (_ & _ & _ & _ & _ & _ & _ & Hroot & _).
    apply fs_root_dir in Hroot as (_ & _ & Hp). rewrite bool_decide_true by done. apply mount_of_spec in Em; [|done]. by rewrite Em.
  - rewrite bool_decide_false; [done|]. rewrite (fs_child_parent _ _ _ Hc Hcd Hcdir). congruence.
Qed.

(** One round of the loop, if the loop is right for the parent directory. *)
Lemma path_loop_round self root uid gid n t K :
  fh_ok self -> locked t = [] -> reach self root n -> Inode_IsDirectory n = true ->
  (forall d nm, n <> root -> walk_up self root uid gid n = inr d -> name_of_node d (n_id (entry_of self n)) = inr nm ->
    forall fuel p buf, (K <= fuel)%nat -> (p < length buf)%nat ->
    path_post (names_up fuel self root uid gid d) p buf t (path_loop fuel self root uid gid d p buf (hold d t))) ->
  forall fuel p buf, (S K <= fuel)%nat -> (p < length buf)%nat ->
    path_post (names_up fuel self root uid gid n) p buf t (path_loop fuel self root uid gid n p buf (hold n t)).
Proof.
  intros Hok Ht Hr Hdir Hloop [|fuel] p buf Hf Hp; [lia|]. cbn [path_loop names_up]. destruct (Inode_Equals_spec n root) as [->|Hn].
  { exists EOK, root, p, buf. split_and!; [done..|]. intros names. rewrite bool_decide_true by done. intros [= <-] _ _. split_and!; [done|cbn; lia|done]. }
  rewrite bool_decide_false by done.
  destruct (parent_spec self root n uid gid (Some (n_id n)) (hold n t) Hok Hr Hdir) as (io & E & Hio); [cbn; rewrite Ht; by intros m ?%elem_of_nil|].
  rewrite (bind_some E). destruct (walk_up self root uid gid n) as [e|d] eqn:Eup; cbn [found fst snd].
  { exists e, n, p, buf. by split_and!. }
  rewrite (bind_some (relinquish_below _ _ _)), (bind_some (get_name_spec _ d uid gid p buf (hold d t) Ht Hp)).
  rewrite (parent_entry _ _ _ _ _ _ _ Hok Hr Hn Hdir Eup (Hio d eq_refl Hn)).
  cbn zeta. destruct (is_ok (perm_check_node_access _ _ _ _)) eqn:Eok; [|eexists _, d, p, buf; split_and!; [by rewrite Eok|done..]].
  destruct (name_of_node d (n_id (entry_of self n))) as [e|nm] eqn:Enm.
  { destruct (is_ok e) eqn:Eo; [by apply is_ok_true in Eo as ->; apply fs_name_error in Enm|]. cbn [negb]. exists e, d, p, buf. by split_and!. }
  destruct (Nat.ltb_spec p (length nm)) as [Hlong|Hshort]; cbn [is_ok negb].
  { exists ERANGE, d, p, buf. split_and!; [done..|]. intros names. destruct (names_up fuel self root uid gid d) as [[e|names']|]; [done| |done]. cbn.
    intros [= <-] Hl. rewrite path_text_app, path_text_one, length_app in Hl. cbn in Hl. lia. }
  destruct (prepend_name nm p buf Hshort Hp) as (buf1 & Em & Hl1 & Hd1 & Htext). rewrite (bind_some Em).
  destruct (Nat.eqb_spec (p - length nm) 0) as [Hz|Hz].
  { exists ERANGE, d, (p - length nm)%nat, buf1. split_and!; [done|done|lia|done|]. intros names. destruct (names_up fuel self root uid gid d) as [[e|names']|]; [done| |done]. cbn.
    intros [= <-] Hl. rewrite path_text_app, path_text_one, length_app in Hl. cbn in Hl. lia. }
  set (q := (p - length nm - 1)%nat). specialize (Hloop d nm Hn eq_refl Enm fuel q (<[q:=47]> buf1) ltac:(lia)). rewrite length_insert in Hloop.
  destruct Hloop as (e & n' & p' & buf' & -> & Hl' & Hp' & Hd' & Hnames); [lia|]. rewrite length_insert in Hl'.
  exists e, n', p', buf'. split_and!; [done|congruence|lia| |].
  { replace p with (q + S (length nm))%nat by lia. rewrite <- drop_drop, Hd', drop_drop. rewrite drop_insert_lt by lia. by replace (q + S (length nm))%nat with p by lia. }
  intros names. destruct (names_up fuel self root uid gid d) as [[?|names']|]; [done| |done]. cbn. intros [= <-] Hl Hns.
  rewrite path_text_app, path_text_one in Hl |- *. rewrite length_app in Hl |- *. cbn in Hl |- *. apply Forall_app in Hns as [Hns Hnm]. apply Forall_cons in Hnm as [Hnm _].
  destruct (Hnames names' eq_refl ltac:(lia) Hns) as (-> & Hsum & ->). split_and!; [done|lia|].
  rewrite <- app_assoc. f_equal. cbn. rewrite (drop_S _ 47) by (apply list_lookup_insert_eq; lia). f_equal. rewrite drop_insert_lt by lia. replace (S q) with (p - length nm)%nat by lia. apply Htext. lia.
Qed.

Lemma path_loop_spec self root uid gid n t :
  fh_ok self -> locked t = [] -> reach self root n -> Inode_IsDirectory n = true ->
  exists K, forall fuel p buf, (K <= fuel)%nat -> (p < length buf)%nat ->
    path_post (names_up fuel self root uid gid n) p buf t (path_loop fuel self root uid gid n p buf (hold n t)).
Proof.
  intros Hok Ht. induction 1 as [|d nm c Hr IH Hc Hcd]; intros Hdir.
  { exists 1%nat. apply path_loop_round; [done|done|constructor|done|by intros ? ? []]. }
  assert (Hr' : reach self root (default c (mount_at self c))) by (by eapply reach_down).
  assert (exists K, Inode_IsDirectory d = true -> forall fuel p buf, (K <= fuel)%nat -> (p < length buf)%nat ->
    path_post (names_up fuel self root uid gid d) p buf t (path_loop fuel self root uid gid d p buf (hold d t))) as [K HK].
  { destruct (Inode_IsDirectory d); [|by exists O]. destruct (IH eq_refl) as [K HK]. by exists K. }
  exists (S K). apply path_loop_round; [done..|]. intros d' nm' Hn Hup Hnm.
  assert (entry_of self (default c (mount_at self c)) = c) as Ee by (by eapply entry_child).
  destruct (walk_up_entry _ _ _ _ _ _ Hok Hr' Hn Hdir Hup) as (Hfs & Hp & Hne & _). rewrite Ee in *.
  assert (d' = d) as -> by (enough (parent_node c = inr d) by congruence; eapply fs_child_parent; [done..|]; by eapply covered_dir).
  apply HK. destruct (fs_listed d (n_id c) nm') as (_ & _ & ?); [|by intros E; apply Hne, node_eq|done..]. rewrite <- Hfs. by destruct c.
Qed.
(** ** The way back *)

Lemma walk_app self root uid gid n a b m pc :
  walk self kPathResolution_Target root uid gid n a = inr (m, pc) ->
  walk self kPathResolution_Target root uid gid n (a ++ b) = walk self kPathResolution_Target root uid gid m b.
Proof.
  revert n. induction a as [|nm a IH]; intros n; cbn [walk app]; [by intros [= -> _]|]. destruct (255 <=? _); [done|]. destruct (negb _); [done|].
  rewrite !bool_decide_false by (by intros []). destruct (walk_step self root uid gid n nm); [done|]. apply IH.
Qed.

Lemma listed_step self root uid gid n d nm :
  fh_ok self -> reach self root n -> n <> root -> Inode_IsDirectory n = true -> walk_up self root uid gid n = inr d ->
  perm_check_node_access d uid gid (Z.lor R_OK X_OK) = EOK -> name_of_node d (n_id (entry_of self n)) = inr nm ->
  good_name nm /\ Inode_IsDirectory d = true /\ walk_step self root uid gid d nm = inr n.
Proof.
  intros Hok Hr Hn Hdir Hup Hacc Hnm. destruct (walk_up_entry _ _ _ _ _ _ Hok Hr Hn Hdir Hup) as (Hfs & Hp & Hne & Em).
  assert (En : Node (n_fs d) (n_id (entry_of self n)) = entry_of self n) by (by apply node_eq).
  destruct (fs_listed d (n_id (entry_of self n)) nm) as (Hc & Hg & Hd); [by rewrite En|by intros ?; apply Hne, node_eq|done|]. split_and!; [done..|].
  unfold walk_step. destruct Hg as (_ & H1 & H2 & _). rewrite !bool_decide_false by done. unfold walk_down, searched. rewrite access_implies by done. cbn [is_ok].
  by rewrite Hc, En, bool_decide_false, Em.
Qed.

Lemma names_up_walk fuel self root uid gid n names :
  fh_ok self -> reach self root n -> Inode_IsDirectory n = true -> names_up fuel self root uid gid n = Some (inr names) ->
  Forall good_name names /\ Inode_IsDirectory root = true /\
  (Forall (fun nm => length nm < 255)%nat names -> walk self kPathResolution_Target root uid gid root names = inr (n, [])).
Proof.
  intros Hok. revert n names. induction fuel as [|fuel IH]; intros n names Hr Hdir; [done|]. cbn [names_up]. case_bool_decide as Hn; [intros [= <-]; by subst|].
  destruct (walk_up self root uid gid n) as [e|d] eqn:Eup; [done|]. cbn zeta. destruct (is_ok _) eqn:Eo; [|done]. apply is_ok_true in Eo.
  destruct (name_of_node d _) as [e|nm] eqn:Enm; [done|]. destruct (names_up fuel self root uid gid d) as [[e|names']|] eqn:Ed; [done| |done]. cbn. intros [= <-].
  destruct (listed_step _ _ _ _ _ _ _ Hok Hr Hn Hdir Eup Eo Enm) as (Hg & Hd & Hstep).
  destruct (IH d names') as (Hgs & Hrd & Hw); [by eapply walk_up_reach|done|done|]. split_and!; [by apply Forall_app; split; [|constructor]|done|].
  intros [Hl [Hl1 _]%Forall_cons]%Forall_app. rewrite (walk_app _ _ _ _ _ _ _ _ _ (Hw Hl)). cbn [walk]. destruct (Z.leb_spec 255 (Z.of_nat (length nm))); [lia|].
  rewrite Hd. cbn [negb]. rewrite bool_decide_false by (by intros []). by rewrite Hstep.
Qed.

(** The text that is returned: the root directory is "/". *)
Definition path_string (names : list (list Z)) : list Z := if bool_decide (names = []) then [47] else path_text names.

Lemma path_string_spec names :
  Forall good_name names -> components (path_string names) = (if bool_decide (names = []) then [[46]] else names) /\
    head (path_string names) = Some 47 /\ Forall (fun ch => ch <> 0) (path_string names).
Proof.
  intros Hg. unfold path_string. case_bool_decide as Hn; [split_and!; [done..|by repeat constructor]|].
  rewrite components_text by done. split_and!; [done|by destruct names|]. apply Forall_concat, Forall_fmap. eapply Forall_impl; [exact Hg|]. intros nm (_ & _ & _ & H). cbn.
  constructor; [done|]. eapply Forall_impl; [exact H|]. by intros ? [].
Qed.

Lemma string_leads_back fuel self root cwd uid gid n names t :
  fh_ok self -> locked t = [] -> reach self root n -> Inode_IsDirectory n = true -> reach self root cwd -> names_up fuel self root uid gid n = Some (inr names) ->
  Forall (fun nm => length nm < 255)%nat names -> (length (path_string names) < kMaxPathLength)%nat ->
  FileHierarchy_AcquireNodeForPath self kPathResolution_Target (path_string names) root cwd uid gid t = Some (inr (n, []), hold n t).
Proof.
  intros Hok Ht Hr Hdir Hcwd Hup Hl Hlen. destruct (names_up_walk _ _ _ _ _ _ _ Hok Hr Hdir Hup) as (Hg & Hrd & Hw).
  destruct (path_string_spec names Hg) as (Hc & Hh & Hz). rewrite resolve_spec; [|done..| |done|done]; [|by intros E; rewrite E in Hh].
  rewrite bool_decide_true by done. rewrite Hc. specialize (Hw Hl). case_bool_decide as Hn; [|by rewrite Hw]. subst. cbn in Hw. injection Hw as ->.
  cbn [walk length]. rewrite Hrd. cbn [negb]. destruct (Z.leb_spec 255 (Z.of_nat 1)); [lia|]. rewrite bool_decide_false by (by intros []). done.
Qed.
(** ** GetPath *)

(** The end of GetPath: the path starts at [p] and ends with the buffer. *)
Lemma get_path_end e p buf n t last :
  length buf = S last -> (p <= last)%nat -> drop last buf = [0] ->
  exists e' buf', (let '(e, p, buf) :=
      if is_ok e && (path_at buf p =? 0) then (if (p =? 0)%nat then (ERANGE, p, buf) else (EOK, (p - 1)%nat, <[(p - 1)%nat := 47]> buf))
      else (e, p, buf) in
      if is_ok e then buf ← memcpy (length buf - p) 0 p buf; t ← Inode_Relinquish n (hold n t); Some (EOK, buf, t)
      else t ← Inode_Relinquish n (hold n t); Some (e, <[O := 0]> buf, t)) = Some (e', buf', t) /\ length buf' = length buf /\ 0 ∈ buf' /\
    (e' <> EOK -> head buf' = Some 0) /\
    (e = EOK -> forall text, (0 < p)%nat -> drop p buf = text ++ [0] -> head text <> Some 0 ->
      e' = EOK /\ let text := if bool_decide (text = []) then [47] else text in take (S (length text)) buf' = text ++ [0]).
Proof.
  intros Hl Hp Hend. assert (Hmove : forall q b, length b = S last -> (q <= last)%nat -> drop last b = [0] ->
    exists b', memcpy (length b - q) 0 q b = Some b' /\ length b' = S last /\ 0 ∈ b' /\ take (length b - q) b' = drop q b).
  { intros q b Hb Hq Hlast. destruct (move_down q b) as (b' & E & Hb' & Ht); [lia|]. exists b'. split_and!; [done|congruence| |done].
    rewrite <- (take_drop (length b - q) b'), Ht, elem_of_app. left. replace last with (q + (last - q))%nat in Hlast by lia. rewrite <- drop_drop in Hlast.
    rewrite <- (take_drop (last - q) (drop q b)), Hlast, elem_of_app. right. left. }
  assert (Hfail : forall e0 b, length b = S last -> e0 <> EOK -> exists e' buf', (t ← Inode_Relinquish n (hold n t); Some (e0, <[O := 0]> b, t)) = Some (e', buf', t) /\
    length buf' = length b /\ 0 ∈ buf' /\ (e' <> EOK -> head buf' = Some 0) /\ e' <> EOK).
  { intros e0 b Hb He0. exists e0, (<[O := 0]> b). rewrite (bind_some (relinquish_held _ _)). destruct b; [done|]. cbn. split_and!; [done..|left|done|done]. }
  destruct (is_ok e) eqn:Eo; cbn [andb].
  2: { rewrite Eo. destruct (Hfail e buf Hl) as (e' & buf' & -> & ? & ? & ? & ?); [by intros ->|]. exists e', buf'. split_and!; [done..|]. by intros ->. }
  apply is_ok_true in Eo as ->. destruct (Z.eqb_spec (path_at buf p) 0) as [E0|E0].
  - assert (Htext : forall text, drop p buf = text ++ [0] -> head text <> Some 0 -> text = []).
    { intros [|ch text] Ht Hh; [done|]. exfalso. apply Hh. unfold path_at in E0. rewrite <- (Nat.add_0_r p), <- lookup_drop, Ht in E0. cbn in E0. by subst. }
    destruct (Nat.eqb_spec p 0) as [->|Hp0].
    { destruct (Hfail ERANGE buf Hl) as (e' & buf' & E & ? & ? & ? & ?); [done|]. exists e', buf'. cbn [is_ok]. split_and!; [done..|]. lia. }
    cbn [is_ok]. destruct (Hmove (p - 1)%nat (<[(p - 1)%nat := 47]> buf)) as (b' & E & Hb' & H0 & Ht); [by rewrite length_insert|lia|by rewrite drop_insert_lt by lia|].
    rewrite (bind_some E), (bind_some (relinquish_held _ _)). exists EOK, b'. split_and!; [done|congruence|done|done|]. intros _ text _ Hd Hh.
    split; [done|]. pose proof (Htext text Hd Hh) as ->. cbn zeta. rewrite bool_decide_true by done. rewrite length_insert, Hl in Ht.
    assert (drop (p - 1) (<[(p - 1)%nat:=47]> buf) = [47; 0]) as Ed.
    { rewrite (drop_S _ 47) by (apply list_lookup_insert_eq; lia). rewrite drop_insert_lt by lia. replace (S (p - 1)) with p by lia. by rewrite Hd. }
    rewrite Ed in Ht. cbn [length app]. rewrite <- Ht. assert (length (drop p buf) = 1%nat) as Hlen by (by rewrite Hd). rewrite length_drop in Hlen. f_equal. lia.
  - cbn [is_ok]. destruct (Hmove p buf) as (b' & E & Hb' & H0 & Ht); [done..|]. rewrite (bind_some E), (bind_some (relinquish_held _ _)).
    exists EOK, b'. split_and!; [done|congruence|done|done|]. intros _ text _ Hd Hh. split; [done|]. cbn zeta. rewrite bool_decide_false.
    + rewrite Hd in Ht. rewrite <- Ht. f_equal. apply (f_equal length) in Hd. rewrite length_drop, length_app in Hd. cbn in Hd. lia.
    + intros ->. apply E0. unfold path_at. rewrite <- (Nat.add_0_r p), <- lookup_drop, Hd. done.
Qed.
Lemma get_path_spec self root uid gid n t :
  fh_ok self -> locked t = [] -> reach self root n -> Inode_IsDirectory n = true ->
  exists K, forall fuel buf, (K <= fuel)%nat -> buf <> [] ->
    exists e buf', FileHierarchy_GetPath fuel self n root uid gid buf t = Some (e, buf', t) /\ length buf' = length buf /\ 0 ∈ buf' /\
      (e <> EOK -> head buf' = Some 0) /\
      forall names, names_up fuel self root uid gid n = Some (inr names) -> Forall (fun nm => length nm <= 255)%nat names ->
        (length (path_string names) + 256 <= length buf)%nat -> e = EOK /\ take (S (length (path_string names))) buf' = path_string names ++ [0].
Proof.
  intros Hok Ht Hr Hdir. destruct (path_loop_spec self root uid gid n t Hok Ht Hr Hdir) as [K HK]. exists K. intros fuel buf Hf Hne.
  unfold FileHierarchy_GetPath. destruct (length buf) as [|last] eqn:El; [by apply nil_length_inv in El|]. unfold Inode_Reacquire.
  destruct (HK fuel last (<[last:=0]> buf) Hf ltac:(rewrite length_insert; lia)) as (e & n' & p & buf1 & E & Hl & Hp & Hd & Hnames). rewrite length_insert in Hl.
  assert (Hend : drop last (<[last:=0]> buf) = [0]).
  { rewrite (drop_S _ 0) by (apply list_lookup_insert_eq; lia). by rewrite drop_ge by (rewrite length_insert; lia). }
  rewrite Hend in Hd, Hnames. rewrite (bind_some E).
  destruct (get_path_end e p buf1 n' t last) as (e' & buf' & -> & Hl' & H0 & Hfail & Hok'); [lia|lia|done|]. exists e', buf'. split_and!; [done|lia|done|done|].
  intros names Hup Hlen Hroom. assert (Htl : (length (path_text names) <= length (path_string names))%nat) by (unfold path_string; case_bool_decide; [by subst; cbn; lia|done]).
  destruct (Hnames names Hup ltac:(lia) Hlen) as (-> & Hsum & Htext).
  destruct (Hok' eq_refl (path_text names) ltac:(lia) Htext) as [-> Htake]; [by destruct names|]. split; [done|].
  unfold path_string. cbn zeta in Htake. destruct (decide (names = [])) as [->|Hn]; [done|]. rewrite bool_decide_false in Htake by (by destruct names). by rewrite bool_decide_false.
Qed.



End Cwd.

(** ** Witnesses *)

Lemma sample_reach : reach sample_fh (Node 1 2) (Node 2 7).
Proof.
  apply (reach_down sample_fh (Node 1 2) (Node 2 2) [98; 105; 110] (Node 2 7)); [|done..].
  apply (reach_down sample_fh (Node 1 2) (Node 1 2) [109; 110; 116] (Node 1 5)); [constructor|done..].
Qed.




(** ** Limits of the code *)

(** A buffer that is just large enough: the name is copied onto itself, and /home
    becomes /hhhh. *)
Example get_path_overlap :
  FileHierarchy_GetPath 5 sample_fh (Node 1 6) (Node 1 2) 0 0 (replicate 6 0) (Th [] []) = Some (EOK, [47; 104; 104; 104; 104; 0], Th [] []).
Proof. by vm_compute. Qed.

(** The root of the hierarchy has no directory that it is attached at, so that the
    parent of a directory outside of the root directory of the process may be looked
    up with a NULL pointer: here for a process with the root directory /home. *)
Example parent_outside_root : FileHierarchy_AcquireParentDirectory sample_fh (Node 1 2) (Node 1 6) 0 0 None (Th [] []) = None.
Proof. by vm_compute. Qed.

(** The working directory stays outside when the root directory of a process is
    changed. *)
Example working_directory_outside :
  FileManager_SetRootDirectoryPath (MkFM (Node 1 2) (Node 1 2) 0 0) sample_fh [104; 111; 109; 101] (Th [Node 1 2; Node 1 2] []) =
    Some (EOK, MkFM (Node 1 6) (Node 1 2) 0 0, Th [Node 1 6; Node 1 2] []).
Proof. by vm_compute. Qed.
