(* ===== verification/DivMod64.v ===== *)
(** * 64-bit division (user/lib/libc/src/ext/_divmod64.c, bit_us.c)

    The division that kernel and C library use for 64-bit numbers: Knuth's
    algorithm D on digits of 16 bits.  [unsigned int] and [int] have 32 bits,
    [unsigned short] has 16; a number is a list of digits, the least significant one
    first.  [None] is an access outside of an array, or fuel that ran out.

    The result is the quotient and the remainder, if the dividend has at least as
    many digits as the divisor; otherwise the remainder is lost. *)

From Stdlib Require Import ZifyBool.
From S2P Require Import Prelude.

Definition u16 (z : Z) : Z := z mod 2 ^ 16.
Definition s64 (z : Z) : Z := (z + 2 ^ 63) mod 2 ^ 64 - 2 ^ 63.

(** ** The code *)

Definition leading_zeros_us (val : Z) : Z :=
  if val =? 0 then 16
  else
    let '(n, val) := if val <=? 0x00FF then (8, u16 (Z.shiftl val 8)) else (0, val) in
    let '(n, val) := if val <=? 0x0FFF then (n + 4, u16 (Z.shiftl val 4)) else (n, val) in
    let '(n, val) := if val <=? 0x3FFF then (n + 2, u16 (Z.shiftl val 2)) else (n, val) in
    if val <=? 0x7FFF then n + 1 else n.

Definition b16 : Z := 65536.

(** Storing to an array. *)
Definition put (a : list Z) (i : nat) (x : Z) : option (list Z) := if (i <? length a)%nat then Some (<[i := x]> a) else None.

(** A divisor of one digit: [j] digits of [u] are left and [k] is the remainder so
    far. *)
Fixpoint short_div (j : nat) (u : list Z) (v0 k : Z) (q : list Z) : option (Z * list Z) :=
  match j with
  | O => Some (k, q)
  | S j =>
      uj ← u !! j;
      let num := u32 (u32 (k * b16) + uj) in
      let qj := u16 (num / v0) in
      q ← put q j qj;
      short_div j u v0 (s32 (u32 (num - u32 (s32 (qj * v0))))) q
  end.

(** The digits [i], ..., 1 of a number that is shifted to the left by [s] bits. *)
Fixpoint shift_loop (i : nat) (s : Z) (a out : list Z) : option (list Z) :=
  match i with
  | O => Some out
  | S i' =>
      ai ← a !! i; aj ← a !! i';
      out ← put out i (u16 (Z.lor (Z.shiftl ai s) (Z.shiftr aj (16 - s))));
      shift_loop i' s a out
  end.

(** The correction of the estimate [qhat] by a look at the second digit of the
    divisor: [v1] and [v2] are the upper digits of the divisor and [u2] is the third
    one of the dividend. *)
Fixpoint adjust (fuel : nat) (qhat rhat v1 v2 u2 : Z) : option Z :=
  match fuel with
  | O => None
  | S fuel =>
      if (b16 <=? qhat) || (u32 (u32 (b16 * rhat) + u2) <? u32 (qhat * v2)) then
        let qhat := u32 (qhat - 1) in
        let rhat := u32 (rhat + v1) in
        if rhat <? b16 then adjust fuel qhat rhat v1 v2 u2 else Some qhat
      else Some qhat
  end.

(** Multiply and subtract: the digits [i], ... of [vn], [cnt] of them. *)
Fixpoint mul_sub (cnt i j : nat) (qhat : Z) (vn un : list Z) (k : Z) : option (list Z * Z) :=
  match cnt with
  | O => Some (un, k)
  | S cnt =>
      vi ← vn !! i; x ← un !! (i + j)%nat;
      let p := u32 (qhat * vi) in
      let t := s32 (u32 (u32 (x - k) - Z.land p 0xFFFF)) in
      un ← put un (i + j) (u16 t);
      mul_sub cnt (S i) j qhat vn un (s32 (u32 (Z.shiftr p 16 - Z.shiftr t 16)))
  end.

Fixpoint add_back (cnt i j : nat) (vn un : list Z) (k : Z) : option (list Z * Z) :=
  match cnt with
  | O => Some (un, k)
  | S cnt =>
      vi ← vn !! i; x ← un !! (i + j)%nat;
      let t := s32 (x + vi + k) in
      un ← put un (i + j) (u16 t);
      add_back cnt (S i) j vn un (Z.shiftr t 16)
  end.

(** The multiple of the divisor is taken off the dividend, and added again if it was
    too much. *)
Definition sub_digit (n j : nat) (qhat : Z) (vn un q : list Z) : option (list Z * list Z) :=
  '(un, k) ← mul_sub n 0 j qhat vn un 0;
  x ← un !! (j + n)%nat;
  let t := s32 (x - k) in
  un ← put un (j + n) (u16 t);
  q ← put q j (u16 qhat);
  if t <? 0 then
    qj ← q !! j;
    q ← put q j (u16 (qj - 1));
    '(un, k) ← add_back n 0 j vn un 0;
    x ← un !! (j + n)%nat;
    un ← put un (j + n) (u16 (x + k));
    Some (un, q)
  else Some (un, q).

(** The digit [j] of the quotient. *)
Definition quot_digit (n j : nat) (vn un q : list Z) : option (list Z * list Z) :=
  u1 ← un !! (j + n)%nat; u0 ← un !! (j + n - 1)%nat; u2 ← un !! (j + n - 2)%nat;
  v1 ← vn !! (n - 1)%nat; v2 ← vn !! (n - 2)%nat;
  let num := u32 (u32 (u1 * b16) + u0) in
  let qhat := num / v1 in
  let rhat := u32 (num - u32 (qhat * v1)) in
  qhat ← adjust 3 qhat rhat v1 v2 u2;
  sub_digit n j qhat vn un q.

(** The digits [j - 1], ..., 0. *)
Fixpoint main_loop (j n : nat) (vn un q : list Z) : option (list Z * list Z) :=
  match j with
  | O => Some (un, q)
  | S j => '(un, q) ← quot_digit n j vn un q; main_loop j n vn un q
  end.

(** The remainder, shifted back. *)
Fixpoint unshift_loop (cnt i : nat) (s : Z) (un r : list Z) : option (list Z) :=
  match cnt with
  | O => Some r
  | S cnt =>
      x ← un !! i; y ← un !! S i;
      r ← put r i (u16 (Z.lor (Z.shiftr x s) (Z.shiftl y (16 - s))));
      unshift_loop cnt (S i) s un r
  end.

(** The returned code, the quotient and the remainder.  The arrays of the caller and
    the local ones have arbitrary content: [vn] and [un] are the local ones. *)
Definition divmnu (vn un q r u v : list Z) (m n : nat) : option (Z * list Z * list Z) :=
  if (m <? n)%nat || (n =? 0)%nat then Some (1, q, r)
  else
    top ← v !! (n - 1)%nat;
    if top =? 0 then Some (1, q, r)
    else if (n =? 1)%nat then
      v0 ← v !! 0%nat;
      '(k, q) ← short_div m u v0 0 q;
      r ← put r 0 (u16 k);
      Some (0, q, r)
    else
      let s := leading_zeros_us top in
      vn ← shift_loop (n - 1) s v vn;
      v0 ← v !! 0%nat;
      vn ← put vn 0 (u16 (Z.shiftl v0 s));
      ul ← u !! (m - 1)%nat;
      un ← put un m (u16 (Z.shiftr ul (16 - s)));
      un ← shift_loop (m - 1) s u un;
      u0 ← u !! 0%nat;
      un ← put un 0 (u16 (Z.shiftl u0 s));
      '(un, q) ← main_loop (m - n + 1) n vn un q;
      r ← unshift_loop n 0 s un r;
      Some (0, q, r).

(** The halfwords of a 64-bit number, and their number without leading zeros. *)
Definition halfword (x : Z) (i : nat) : Z := u16 (Z.shiftr x (16 * Z.of_nat i)).

Fixpoint halfwords (i : nat) (x : Z) : nat :=
  match i with
  | O => O
  | S i' => if halfword x i' =? 0 then halfwords i' x else i
  end.

(** The number with these halfwords. *)
Fixpoint from_halfwords (q : list Z) : Z :=
  match q with [] => 0 | d :: q => d + b16 * from_halfwords q end.

(** What is in the arrays of a function at its start. *)
Record garbage := MkGarbage { g_q : list Z; g_r : list Z; g_un : list Z; g_vn : list Z }.

Definition divmodu64 (g : garbage) (dividend divisor : Z) : option (Z * Z) :=
  if dividend =? 0 then Some (0, 0)
  else
    let m := halfwords 4 dividend in
    let n := halfwords 4 divisor in
    let u := halfword dividend <$> seq 0 m in
    let v := halfword divisor <$> seq 0 n in
    '(e, q, r) ← divmnu (g_vn g) (g_un g) (g_q g) (g_r g) u v m n;
    if negb (e =? 0) then Some (0, 0)
    else Some (from_halfwords (take (m - n + 1) q), from_halfwords (take n r)).

Definition abs64 (x : Z) : Z := s64 (if x <? 0 then - x else x).

Definition divmods64 (g : garbage) (dividend divisor : Z) : option (Z * Z) :=
  let q_neg := xorb (dividend <? 0) (divisor <? 0) in
  let r_neg := dividend <? 0 in
  '(quotient, remainder) ← divmodu64 g (u64 (abs64 dividend)) (u64 (abs64 divisor));
  Some (s64 (if q_neg then u64 (- quotient) else quotient), s64 (if r_neg then u64 (- remainder) else remainder)).

Definition lldiv (g : garbage) (x y : Z) : option (Z * Z) := divmods64 g x y.

(** ** The functions that the compiler calls (arch/m68k-vbcc)

    Numbers whose upper words are zero are divided by the instructions divul and
    divsl, which trap for a divisor of 0.  If the quotient does not fit, the registers
    stay as they are. *)

Definition hi32 (x : Z) : Z := u32 (Z.shiftr x 32).
Definition lo32 (x : Z) : Z := u32 x.

(** The quotient and the remainder of divsl. *)
Definition divsl (x y : Z) : option (Z * Z) :=
  if y =? 0 then None
  else if 2 ^ 31 <=? Z.quot x y then Some (u32 x, u32 y)
  else Some (u32 (Z.quot x y), u32 (Z.rem x y)).

Definition divuint64_020 (g : garbage) (dividend divisor : Z) : option Z :=
  if (hi32 divisor =? 0) && (hi32 dividend =? 0) then (if lo32 divisor =? 0 then None else Some (lo32 dividend / lo32 divisor))
  else '(q, _) ← divmodu64 g dividend divisor; Some q.

Definition moduint64_020 (g : garbage) (dividend divisor : Z) : option Z :=
  if (hi32 divisor =? 0) && (hi32 dividend =? 0) then (if lo32 divisor =? 0 then None else Some (lo32 dividend mod lo32 divisor))
  else '(_, r) ← divmodu64 g dividend divisor; Some r.

Definition divsint64_020 (g : garbage) (dividend divisor : Z) : option Z :=
  if (hi32 divisor =? 0) && (hi32 dividend =? 0) then '(q, _) ← divsl (s32 (lo32 dividend)) (s32 (lo32 divisor)); Some q
  else '(q, _) ← divmods64 g dividend divisor; Some q.

Definition modsint64_020 (g : garbage) (dividend divisor : Z) : option Z :=
  if (hi32 divisor =? 0) && (hi32 dividend =? 0) then '(_, r) ← divsl (s32 (lo32 dividend)) (s32 (lo32 divisor)); Some r
  else '(_, r) ← divmods64 g dividend divisor; Some r.

(** ** Digits *)

Ltac zlia := unfold b16 in *; lia.
Ltac znia := unfold b16 in *; nia.

Definition digits (l : list Z) : Prop := Forall (fun d => 0 <= d < b16) l.

Lemma val_app a c : from_halfwords (a ++ c) = from_halfwords a + b16 ^ Z.of_nat (length a) * from_halfwords c.
Proof.
  induction a as [|x a IH]; cbn [app from_halfwords length]; [cbn; lia|]. rewrite IH, Nat2Z.inj_succ, Z.pow_succ_r by lia. ring.
Qed.

Lemma val_bound l : digits l -> 0 <= from_halfwords l < b16 ^ Z.of_nat (length l).
Proof.
  induction 1 as [|x l Hx Hl IH]; cbn [from_halfwords length]; [cbn; lia|]. rewrite Nat2Z.inj_succ, Z.pow_succ_r by lia. znia.
Qed.

Lemma u16_range x : 0 <= u16 x < b16.
Proof. unfold u16, b16. pose proof (Z.mod_pos_bound x (2 ^ 16)). lia. Qed.

Lemma put_app pre x post i y : i = length pre -> put (pre ++ x :: post) i y = Some (pre ++ y :: post).
Proof.
  intros ->. unfold put. rewrite length_app. cbn [length]. destruct (Nat.ltb_spec (length pre) (length pre + S (length post))); [|lia].
  by rewrite insert_app_r_alt, Nat.sub_diag by lia.
Qed.

Lemma lookup_mid {A} (pre : list A) x post i : i = length pre -> (pre ++ x :: post) !! i = Some x.
Proof. intros ->. by apply list_lookup_middle. Qed.

(** ** Shifts of whole numbers *)

Definition shl_digit (s x p : Z) : Z := u16 (Z.lor (Z.shiftl x s) (Z.shiftr p (16 - s))).

Fixpoint shl_digits (s p : Z) (l : list Z) : list Z :=
  match l with [] => [] | x :: l => shl_digit s x p :: shl_digits s x l end.

Lemma lor_add x y s : 0 <= s -> 0 <= y < 2 ^ s -> Z.lor (Z.shiftl x s) y = x * 2 ^ s + y.
Proof.
  intros Hs Hy. rewrite <- Z.shiftl_mul_pow2 by lia. symmetry. apply Z.add_nocarry_lor. apply Z.bits_inj'. intros i Hi.
  rewrite Z.land_spec, Z.bits_0, Z.shiftl_spec by lia. destruct (Z.ltb_spec i s); [by rewrite Z.testbit_neg_r by lia|].
  rewrite <- (Z.mod_small y (2 ^ s)) by lia. rewrite Z.mod_pow2_bits_high by lia. apply andb_false_r.
Qed.

Lemma pow16 s : 0 <= s <= 16 -> b16 = 2 ^ s * 2 ^ (16 - s) /\ 0 < 2 ^ s /\ 0 < 2 ^ (16 - s).
Proof. intros Hs. rewrite <- Z.pow_add_r by lia. replace (s + (16 - s)) with 16 by lia. split; [done|]. lia. Qed.

(** A digit of the shifted number, and what is carried to the next one. *)
Lemma shl_digit_spec s x p :
  0 <= s <= 16 -> 0 <= x < b16 -> 0 <= p < b16 ->
  shl_digit s x p + b16 * (x / 2 ^ (16 - s)) = x * 2 ^ s + p / 2 ^ (16 - s) /\ 0 <= shl_digit s x p < b16.
Proof.
  intros Hs Hx Hp. destruct (pow16 s) as (Eb & H1 & H2); [lia|]. split; [|apply u16_range]. unfold shl_digit, u16.
  rewrite Z.shiftr_div_pow2 by lia. assert (0 <= p / 2 ^ (16 - s) < 2 ^ s) by (split; [apply Z.div_pos; lia|apply Z.div_lt_upper_bound; lia]).
  rewrite lor_add by lia. change (2 ^ 16) with b16. set (c := p / 2 ^ (16 - s)) in *.
  assert (Ex : x * 2 ^ s = b16 * (x / 2 ^ (16 - s)) + 2 ^ s * (x mod 2 ^ (16 - s))).
  { rewrite Eb. rewrite (Z.div_mod x (2 ^ (16 - s))) at 1 by lia. ring. }
  rewrite Ex. pose proof (Z.mod_pos_bound x (2 ^ (16 - s)) H2).
  replace (b16 * (x / 2 ^ (16 - s)) + 2 ^ s * (x mod 2 ^ (16 - s)) + c) with (2 ^ s * (x mod 2 ^ (16 - s)) + c + x / 2 ^ (16 - s) * b16) by ring.
  rewrite Z.mod_add by zlia. rewrite Z.mod_small; [ring|]. split; [nia|]. rewrite Eb. nia.
Qed.

Lemma shl_digits_spec s l : forall p,
  0 <= s <= 15 -> digits l -> 0 <= p < b16 ->
  from_halfwords (shl_digits s p l) + b16 ^ Z.of_nat (length l) * (default p (last l) / 2 ^ (16 - s)) = from_halfwords l * 2 ^ s + p / 2 ^ (16 - s) /\
  digits (shl_digits s p l) /\ length (shl_digits s p l) = length l.
Proof.
  induction l as [|x l IH]; intros p Hs Hl Hp; [cbn; split_and!; [lia|constructor|done]|]. apply Forall_cons in Hl as [Hx Hl].
  destruct (IH x Hs Hl Hx) as (E & Hd & Hlen). destruct (shl_digit_spec s x p ltac:(lia) Hx Hp) as [Ed Hr]. cbn [shl_digits from_halfwords length].
  split_and!; [|by constructor|by f_equal]. rewrite Nat2Z.inj_succ, Z.pow_succ_r by lia.
  replace (default p (last (x :: l))) with (default x (last l)) by (rewrite last_cons; by destruct (last l)). nia.
Qed.

Lemma shl_digits_app s p l x : shl_digits s p (l ++ [x]) = shl_digits s p l ++ [shl_digit s x (default p (last l))].
Proof.
  revert p. induction l as [|y l IH]; intros p; [done|]. cbn [shl_digits app]. rewrite IH. rewrite last_cons. by destruct (last l).
Qed.

(** The loop fills in the digits from the top. *)
Lemma shift_loop_spec s x0 l tl o0 os rest :
  length os = length l -> shift_loop (length l) s (x0 :: l ++ tl) (o0 :: os ++ rest) = Some (o0 :: shl_digits s x0 l ++ rest).
Proof.
  revert tl os rest. induction l as [|x l IH] using rev_ind; intros tl os rest Hlen; [by destruct os|].
  rewrite length_app in Hlen |- *. cbn [length] in Hlen |- *. destruct (exists_last (l := os)) as (os' & o & ->); [by intros ->; cbn in Hlen; lia|].
  rewrite length_app in Hlen. cbn [length] in Hlen. rewrite Nat.add_1_r. cbn [shift_loop].
  assert (E1 : (x0 :: (l ++ [x]) ++ tl) !! S (length l) = Some x) by (cbn; rewrite <- app_assoc; by apply lookup_mid).
  assert (E2 : (x0 :: (l ++ [x]) ++ tl) !! length l = Some (default x0 (last l))).
  { destruct (decide (l = [])) as [->|Hne]; [done|]. destruct (exists_last Hne) as (l' & y & ->). rewrite last_snoc, length_app, Nat.add_1_r. cbn.
    rewrite <- !app_assoc. by apply lookup_mid. }
  assert (E3 : put (o0 :: (os' ++ [o]) ++ rest) (S (length l)) (shl_digit s x (default x0 (last l))) = Some (o0 :: os' ++ shl_digit s x (default x0 (last l)) :: rest)).
  { rewrite <- app_assoc. apply (put_app (o0 :: os') o rest). cbn. lia. }
  rewrite (bind_some E1), (bind_some E2). fold (shl_digit s x (default x0 (last l))). rewrite (bind_some E3), <- app_assoc.
  rewrite IH by lia. rewrite shl_digits_app, <- app_assoc. done.
Qed.

Lemma lz_step_us v n w k :
  0 <= n -> w = v * 2 ^ n -> k = 8 \/ k = 4 \/ k = 2 -> 2 ^ (16 - 2 * k) <= w < b16 ->
  exists n' w', (if w <=? 2 ^ (16 - k) - 1 then (n + k, u16 (Z.shiftl w k)) else (n, w)) = (n', w') /\
    n <= n' <= n + k /\ w' = v * 2 ^ n' /\ 2 ^ (16 - k) <= w' < b16.
Proof.
  intros Hn Ew Hk Hw. rewrite Z.shiftl_mul_pow2 by lia. destruct (Z.leb_spec w (2 ^ (16 - k) - 1)).
  - exists (n + k), (w * 2 ^ k). assert (0 <= w * 2 ^ k < b16) by (destruct Hk as [->|[->| ->]]; zlia).
    unfold u16. rewrite Z.mod_small by (change (2 ^ 16) with b16; lia). split_and!; [done|lia|lia| |destruct Hk as [->|[->| ->]]; lia|lia].
    rewrite Ew, Z.pow_add_r by lia. ring.
  - exists n, w. split_and!; [done|lia|lia|done|lia|lia].
Qed.

Lemma leading_zeros_us_spec v : 0 < v < b16 -> 0 <= leading_zeros_us v <= 15 /\ 2 ^ 15 <= v * 2 ^ leading_zeros_us v < b16.
Proof.
  intros Hv. unfold leading_zeros_us. rewrite (proj2 (Z.eqb_neq v 0)) by lia.
  destruct (lz_step_us v 0 v 8) as (n1 & w1 & E1 & H1 & W1 & B1); [lia|cbn; lia|by left|cbn; lia|]. change (2 ^ (16 - 8) - 1) with 0x00FF in E1. change (0 + 8) with 8 in E1. rewrite E1.
  destruct (lz_step_us v n1 w1 4) as (n2 & w2 & E2 & H2 & W2 & B2); [lia|done|auto|cbn in *; lia|]. change (2 ^ (16 - 4) - 1) with 0x0FFF in E2. rewrite E2.
  destruct (lz_step_us v n2 w2 2) as (n3 & w3 & E3 & H3 & W3 & B3); [lia|done|auto|cbn in *; lia|]. change (2 ^ (16 - 2) - 1) with 0x3FFF in E3. rewrite E3.
  destruct (Z.leb_spec w3 0x7FFF).
  - rewrite Z.pow_add_r by lia. cbn in B3. zlia.
  - rewrite <- W3. zlia.
Qed.

(** ** One digit of the quotient *)

Lemma mul_sub_digit qhat v x k :
  0 <= qhat < b16 -> 0 <= v < b16 -> 0 <= x < b16 -> 0 <= k < b16 ->
  let p := u32 (qhat * v) in
  let t := s32 (u32 (u32 (x - k) - Z.land p 0xFFFF)) in
  let k' := s32 (u32 (Z.shiftr p 16 - Z.shiftr t 16)) in
  u16 t - k' * b16 = x - k - qhat * v /\ 0 <= k' < b16.
Proof.
  intros Hq Hv Hx Hk. cbn zeta. assert (Hp : 0 <= qhat * v <= (b16 - 1) * (b16 - 1)) by znia.
  rewrite (u32_small (qhat * v)) by zlia. set (p := qhat * v) in *. change 0xFFFF with (Z.ones 16). rewrite Z.land_ones by lia. change (2 ^ 16) with b16.
  pose proof (Z.mod_pos_bound p b16 ltac:(zlia)) as Hm. pose proof (Z.div_mod p b16 ltac:(zlia)) as Ep.
  assert (Et : s32 (u32 (u32 (x - k) - p mod b16)) = x - k - p mod b16).
  { unfold u32 at 1 2. rewrite Zminus_mod_idemp_l. unfold s32. rewrite Zplus_mod_idemp_l. rewrite Z.mod_small by zlia. lia. }
  rewrite Et. set (t := x - k - p mod b16). rewrite !Z.shiftr_div_pow2 by lia. change (2 ^ 16) with b16.
  pose proof (Z.mod_pos_bound t b16 ltac:(zlia)) as Hmt. pose proof (Z.div_mod t b16 ltac:(zlia)) as Ett.
  assert (Hk' : 0 <= p / b16 - t / b16 < b16).
  { assert (b16 * (p / b16 - t / b16) = p - (x - k) + t mod b16) by (unfold t in *; lia). split; [|]; znia. }
  rewrite u32_small, s32_small by zlia. split; [|done]. unfold u16. change (2 ^ 16) with b16. unfold t in *. lia.
Qed.

Lemma mul_sub_spec qhat j vs : forall vpre junk pre ws post k,
  0 <= qhat < b16 -> digits vs -> digits ws -> length ws = length vs -> length pre = (length vpre + j)%nat -> 0 <= k < b16 ->
  exists ws' k', mul_sub (length vs) (length vpre) j qhat (vpre ++ vs ++ junk) (pre ++ ws ++ post) k = Some (pre ++ ws' ++ post, k') /\
    digits ws' /\ length ws' = length ws /\ 0 <= k' < b16 /\
    from_halfwords ws' - k' * b16 ^ Z.of_nat (length vs) = from_halfwords ws - qhat * from_halfwords vs - k.
Proof.
  induction vs as [|v vs IH]; intros vpre junk pre ws post k Hq Hvs Hws Hl Hpre Hk.
  { exists ws, k. cbn. destruct ws; [|done]. cbn. split_and!; [done..|constructor|done|lia|lia|lia]. }
  destruct ws as [|x ws]; [done|]. apply Forall_cons in Hvs as [Hv Hvs]. apply Forall_cons in Hws as [Hx Hws]. cbn [length mul_sub].
  rewrite (bind_some (lookup_mid vpre v (vs ++ junk) _ eq_refl)). cbn [app].
  rewrite (bind_some (lookup_mid pre x (ws ++ post) (length vpre + j) ltac:(lia))). cbn zeta.
  destruct (mul_sub_digit qhat v x k Hq Hv Hx Hk) as [Ed Hk']. cbn zeta in Ed, Hk'.
  set (t := s32 (u32 (u32 (x - k) - Z.land (u32 (qhat * v)) 0xFFFF))) in *. set (k1 := s32 (u32 (Z.shiftr (u32 (qhat * v)) 16 - Z.shiftr t 16))) in *.
  rewrite (bind_some (put_app pre x (ws ++ post) (length vpre + j) (u16 t) ltac:(lia))).
  destruct (IH (vpre ++ [v]) junk (pre ++ [u16 t]) ws post k1) as (ws' & k' & E & Hd & Hl' & Hk'' & Ev); [done..|by injection Hl|rewrite !length_app; cbn; lia|done|].
  rewrite <- !app_assoc in E. cbn [app] in E. rewrite length_app in E. cbn [length] in E. rewrite Nat.add_1_r in E. rewrite E.
  exists (u16 t :: ws'), k'. split_and!; [done|constructor; [apply u16_range|done]|cbn; lia|lia|lia|].
  cbn [from_halfwords length]. rewrite Nat2Z.inj_succ, Z.pow_succ_r by lia. nia.
Qed.

Lemma add_back_spec j vs : forall vpre junk pre ws post k,
  digits vs -> digits ws -> length ws = length vs -> length pre = (length vpre + j)%nat -> 0 <= k <= 1 ->
  exists ws' k', add_back (length vs) (length vpre) j (vpre ++ vs ++ junk) (pre ++ ws ++ post) k = Some (pre ++ ws' ++ post, k') /\
    digits ws' /\ length ws' = length ws /\ 0 <= k' <= 1 /\
    from_halfwords ws' + k' * b16 ^ Z.of_nat (length vs) = from_halfwords ws + from_halfwords vs + k.
Proof.
  induction vs as [|v vs IH]; intros vpre junk pre ws post k Hvs Hws Hl Hpre Hk.
  { exists ws, k. cbn. destruct ws; [|done]. cbn. split_and!; [done..|constructor|done|lia|lia|lia]. }
  destruct ws as [|x ws]; [done|]. apply Forall_cons in Hvs as [Hv Hvs]. apply Forall_cons in Hws as [Hx Hws]. cbn [length add_back].
  rewrite (bind_some (lookup_mid vpre v (vs ++ junk) _ eq_refl)). cbn [app].
  rewrite (bind_some (lookup_mid pre x (ws ++ post) (length vpre + j) ltac:(lia))). cbn zeta. rewrite s32_small by zlia. set (t := x + v + k).
  rewrite (bind_some (put_app pre x (ws ++ post) (length vpre + j) (u16 t) ltac:(lia))).
  assert (Et : t = b16 * (t / b16) + t mod b16) by (apply Z.div_mod; zlia). assert (Ht : 0 <= t / b16 <= 1) by (pose proof (Z.mod_pos_bound t b16 ltac:(zlia)); unfold t in *; zlia).
  rewrite Z.shiftr_div_pow2 by lia. change (2 ^ 16) with b16.
  destruct (IH (vpre ++ [v]) junk (pre ++ [u16 t]) ws post (t / b16)) as (ws' & k' & E & Hd & Hl' & Hk'' & Ev); [done..|by injection Hl|rewrite !length_app; cbn; lia|done|].
  rewrite <- !app_assoc in E. cbn [app] in E. rewrite length_app in E. cbn [length] in E. rewrite Nat.add_1_r in E. rewrite E.
  exists (u16 t :: ws'), k'. split_and!; [done|constructor; [apply u16_range|done]|cbn; lia|lia|lia|].
  cbn [from_halfwords length]. rewrite Nat2Z.inj_succ, Z.pow_succ_r by lia. unfold u16 at 1. change (2 ^ 16) with b16. nia.
Qed.

(** The estimate of a digit, with the digits below the upper ones in [L] and [M]. *)
Section Estimate.
Context (v1 v2 u2 N B L M : Z).
Context (Hv1 : 2 ^ 15 <= v1 < b16) (Hv2 : 0 <= v2 < b16) (Hu2 : 0 <= u2 < b16) (HN : 0 <= N).
Context (HB : 0 < B) (HL : 0 <= L < B) (HM : 0 <= M < B).
Let V := v1 * (b16 * B) + v2 * B + M.
Let W := N * (b16 * B) + u2 * B + L.
Context (HW : W < b16 * V).

Lemma estimate_V : b16 * B <= V.
Proof. unfold V. assert (b16 * B <= v1 * (b16 * B)) by znia. znia. Qed.

Lemma estimate_N : N <= v1 * b16 + (b16 - 1).
Proof.
  assert (V < (v1 + 1) * (b16 * B)) by (unfold V; znia). assert (N * (b16 * B) < b16 * ((v1 + 1) * (b16 * B))) by (unfold W in HW; znia).
  assert (N * (b16 * B) < (v1 * b16 + b16) * (b16 * B)) by lia. assert (0 < b16 * B) by znia. nia.
Qed.

Lemma estimate_first : W / V <= N / v1.
Proof.
  pose proof estimate_V. assert (0 < b16 * B) by znia. apply Z.div_le_lower_bound; [lia|].
  assert (V * (W / V) <= W) by (apply Z.mul_div_le; lia). assert (W < (N + 1) * (b16 * B)) by (unfold W; znia).
  assert (0 <= W) by (unfold W; znia). assert (0 <= W / V) by (apply Z.div_pos; lia).
  assert (v1 * (b16 * B) <= V) by (unfold V; znia). assert (v1 * (W / V) * (b16 * B) < (N + 1) * (b16 * B)) by nia. nia.
Qed.

Lemma estimate_large qhat rhat : qhat * v1 + rhat = N -> b16 <= qhat \/ b16 * rhat + u2 < qhat * v2 -> W / V < qhat.
Proof.
  intros E [Hq|Hq]; pose proof estimate_V; assert (0 < b16 * B) by znia.
  - enough (W / V < b16) by lia. apply Z.div_lt_upper_bound; lia.
  - apply Z.div_lt_upper_bound; [lia|]. assert (N * b16 + u2 + 1 <= qhat * (v1 * b16 + v2)) by nia. assert ((N * b16 + u2 + 1) * B <= qhat * (v1 * b16 + v2) * B) by nia.
    assert (W < (N * b16 + u2 + 1) * B) by (unfold W; nia). assert (0 <= qhat) by nia. unfold V. nia.
Qed.

Lemma estimate_close qhat : 0 <= qhat < b16 -> qhat * v2 <= b16 * (N - qhat * v1) + u2 -> qhat - 1 <= W / V.
Proof.
  intros Hq Ht. pose proof estimate_V as HV. assert (0 < b16 * B) by znia. apply Z.div_le_lower_bound; [lia|].
  assert (qhat * (v1 * b16 + v2) * B <= (N * b16 + u2) * B) by nia. assert (qhat * M <= b16 * B) by nia.
  assert (qhat * V <= W + qhat * M) by (unfold V, W; nia). lia.
Qed.

Lemma adjust_spec fuel qhat rhat :
  qhat * v1 + rhat = N -> 0 <= rhat < b16 -> 0 <= qhat <= 2 * b16 -> W / V <= qhat -> b16 - rhat <= Z.of_nat fuel * 2 ^ 15 ->
  exists q, adjust fuel qhat rhat v1 v2 u2 = Some q /\ W / V <= q <= W / V + 1 /\ 0 <= q < b16.
Proof.
  assert (H0 : 0 <= W / V) by (pose proof estimate_V; apply Z.div_pos; [unfold W; znia|znia]).
  revert qhat rhat. induction fuel as [|fuel IH]; intros qhat rhat E Hr Hq Hle Hf; [lia|]. cbn [adjust].
  rewrite (u32_small (b16 * rhat)), (u32_small (b16 * rhat + u2)) by zlia.
  assert (Hdec : W / V < qhat -> exists q, (if u32 (rhat + v1) <? b16 then adjust fuel (u32 (qhat - 1)) (u32 (rhat + v1)) v1 v2 u2 else Some (u32 (qhat - 1))) = Some q /\
    W / V <= q <= W / V + 1 /\ 0 <= q < b16).
  { intros Hlt. rewrite !u32_small by zlia. destruct (Z.ltb_spec (rhat + v1) b16) as [Hr'|Hr'].
    - apply IH; [lia|lia|lia|lia|zlia].
    - pose proof estimate_N. assert (Hb : qhat - 1 < b16) by nia. assert ((qhat - 1) * v2 <= b16 * b16) by znia.
      pose proof (estimate_close (qhat - 1) ltac:(lia) ltac:(nia)). exists (qhat - 1). split_and!; [done|lia..]. }
  destruct (Z.leb_spec b16 qhat) as [Hb|Hb]; cbn [orb]; [apply Hdec, (estimate_large qhat rhat E); by left|].
  rewrite (u32_small (qhat * v2)) by znia. destruct (Z.ltb_spec (b16 * rhat + u2) (qhat * v2)) as [Ht|Ht]; [apply Hdec, (estimate_large qhat rhat E); by right|].
  exists qhat. split_and!; [done|lia| |lia|lia]. pose proof (estimate_close qhat ltac:(lia) ltac:(nia)). lia.
Qed.
End Estimate.

Lemma put_eq (q : list Z) j x : (j < length q)%nat -> put q j x = Some (<[j := x]> q).
Proof. intros H. unfold put. by destruct (Nat.ltb_spec j (length q)); [|lia]. Qed.

(** Subtracting the right multiple of the divisor, or one more. *)
Lemma sub_digit_spec vs junk lo wl u1 zs q qhat :
  digits vs -> digits (wl ++ [u1]) -> length wl = length vs -> 0 < from_halfwords vs -> (length lo < length q)%nat ->
  let V := from_halfwords vs in
  let W := from_halfwords (wl ++ [u1]) in
  W / V <= qhat <= W / V + 1 -> 0 <= qhat < b16 ->
  exists ws, sub_digit (length vs) (length lo) qhat (vs ++ junk) (lo ++ (wl ++ [u1]) ++ zs) q =
      Some (lo ++ (ws ++ [0]) ++ zs, <[length lo := W / V]> q) /\ digits ws /\ length ws = length vs /\ from_halfwords ws = W mod V.
Proof.
  intros Hvs Hw Hlen HV Hq V W Hle Hqh. assert (H0 : 0 <= W / V) by (apply Z.div_pos; [apply (val_bound _ Hw)|done]). apply Forall_app in Hw as [Hwl Hu1]. apply Forall_cons in Hu1 as [Hu1 _]. unfold sub_digit.
  destruct (mul_sub_spec qhat (length lo) vs [] junk lo wl (u1 :: zs) 0) as (w1 & k1 & E1 & Hd1 & Hl1 & Hk1 & Ev1); [done..|zlia|]. cbn [length app] in E1.
  replace (lo ++ (wl ++ [u1]) ++ zs) with (lo ++ wl ++ u1 :: zs) by (by rewrite <- app_assoc). rewrite (bind_some E1).
  assert (Elen : (length lo + length vs)%nat = length (lo ++ w1)) by (rewrite length_app; lia). rewrite Elen.
  rewrite (app_assoc lo w1), (bind_some (lookup_mid _ _ _ _ eq_refl)). set (t := u1 - k1).
  rewrite s32_small by zlia. fold t. rewrite (bind_some (put_app _ _ _ _ _ eq_refl)), (bind_some (put_eq _ _ _ Hq)).
  set (P := b16 ^ Z.of_nat (length vs)) in *. assert (EW : W = from_halfwords wl + P * u1) by (unfold W; rewrite val_app, Hlen; cbn [from_halfwords]; unfold P; ring).
  pose proof (val_bound _ Hd1) as B1. pose proof (val_bound _ Hvs) as BV. rewrite Hl1, Hlen in B1. fold P in B1, BV. fold V in BV, Ev1, HV.
  assert (Et : W - qhat * V = from_halfwords w1 + t * P) by (unfold t; lia).
  pose proof (Z.div_mod W V ltac:(lia)) as Edm. pose proof (Z.mod_pos_bound W V HV) as Bm. destruct (Z.ltb_spec t 0) as [Ht|Ht].
  - assert (qhat = W / V + 1) as Eq by nia. assert (t = -1) as -> by nia.
    rewrite list_lookup_insert_eq by done. cbn [mbind option_bind]. rewrite (bind_some (put_eq _ _ _ ltac:(by rewrite length_insert))).
    destruct (add_back_spec (length lo) vs [] junk lo w1 (u16 (-1) :: zs) 0) as (w2 & k2 & E2 & Hd2 & Hl2 & Hk2 & Ev2); [done|done|congruence|done|lia|]. cbn [length app] in E2.
    rewrite <- (app_assoc lo w1), (bind_some E2). assert (Elen2 : length (lo ++ w1) = length (lo ++ w2)) by (rewrite !length_app; lia). rewrite Elen2.
    rewrite (app_assoc lo w2), (bind_some (lookup_mid _ _ _ _ eq_refl)), (bind_some (put_app _ _ _ _ _ eq_refl)).
    pose proof (val_bound _ Hd2) as B2. rewrite Hl2, Hl1, Hlen in B2. fold P in B2, Ev2. fold V in Ev2. assert (k2 = 1) as -> by nia.
    exists w2. split_and!; [|done|congruence|nia]. change (u16 (u16 (-1) + 1)) with 0. rewrite <- !app_assoc. cbn [app]. rewrite list_insert_insert_eq. do 2 f_equal.
    unfold u16. rewrite (Z.mod_small qhat) by (change (2 ^ 16) with b16; lia). rewrite Z.mod_small by (change (2 ^ 16) with b16; lia). f_equal. lia.
  - assert (W / V = qhat) as <- by nia. assert (t = 0) as -> by nia. exists w1. split_and!; [|done|congruence|nia].
    change (u16 0) with 0. rewrite <- !app_assoc. cbn [app]. unfold u16. rewrite Z.mod_small by (change (2 ^ 16) with b16; lia). done.
Qed.

(** The digits of a window of the dividend are replaced by those of the remainder. *)
Lemma quot_digit_spec m0 v2 v1 junk lo l0 u2 u0 u1 zs q :
  digits (m0 ++ [v2; v1]) -> digits (l0 ++ [u2; u0; u1]) -> length m0 = length l0 -> 2 ^ 15 <= v1 -> (length lo < length q)%nat ->
  let V := from_halfwords (m0 ++ [v2; v1]) in
  let W := from_halfwords (l0 ++ [u2; u0; u1]) in
  W < b16 * V ->
  exists ws, quot_digit (S (S (length m0))) (length lo) ((m0 ++ [v2; v1]) ++ junk) (lo ++ (l0 ++ [u2; u0; u1]) ++ zs) q =
      Some (lo ++ (ws ++ [0]) ++ zs, <[length lo := W / V]> q) /\ digits ws /\ length ws = S (S (length m0)) /\ from_halfwords ws = W mod V.
Proof.
  intros Hm Hl Hlen Hv1 Hq V W HW. set (k := length m0). unfold quot_digit.
  assert (Eu1 : (lo ++ (l0 ++ [u2; u0; u1]) ++ zs) !! (length lo + S (S k))%nat = Some u1).
  { rewrite <- app_assoc. replace (lo ++ l0 ++ [u2; u0; u1] ++ zs) with ((lo ++ l0 ++ [u2; u0]) ++ u1 :: zs) by (by rewrite <- !app_assoc). apply lookup_mid. rewrite !length_app. cbn. lia. }
  assert (Eu0 : (lo ++ (l0 ++ [u2; u0; u1]) ++ zs) !! (length lo + S (S k) - 1)%nat = Some u0).
  { rewrite <- app_assoc. replace (lo ++ l0 ++ [u2; u0; u1] ++ zs) with ((lo ++ l0 ++ [u2]) ++ u0 :: u1 :: zs) by (by rewrite <- !app_assoc). apply lookup_mid. rewrite !length_app. cbn. lia. }
  assert (Eu2 : (lo ++ (l0 ++ [u2; u0; u1]) ++ zs) !! (length lo + S (S k) - 2)%nat = Some u2).
  { rewrite <- app_assoc. replace (lo ++ l0 ++ [u2; u0; u1] ++ zs) with ((lo ++ l0) ++ u2 :: u0 :: u1 :: zs) by (by rewrite <- !app_assoc). apply lookup_mid. rewrite !length_app. cbn. lia. }
  assert (Ev1 : ((m0 ++ [v2; v1]) ++ junk) !! (S (S k) - 1)%nat = Some v1).
  { rewrite <- app_assoc. replace (m0 ++ [v2; v1] ++ junk) with ((m0 ++ [v2]) ++ v1 :: junk) by (by rewrite <- !app_assoc). apply lookup_mid. rewrite !length_app. cbn. lia. }
  assert (Ev2 : ((m0 ++ [v2; v1]) ++ junk) !! (S (S k) - 2)%nat = Some v2) by (rewrite <- app_assoc; apply lookup_mid; cbn; lia).
  rewrite (bind_some Eu1), (bind_some Eu0), (bind_some Eu2), (bind_some Ev1), (bind_some Ev2).
  pose proof Hm as Hm'. pose proof Hl as Hl'. apply Forall_app in Hm' as [Hm0 Hm']. apply Forall_app in Hl' as [Hl0 Hl'].
  rewrite !Forall_cons in Hm'. rewrite !Forall_cons in Hl'. destruct Hm' as (Hv2 & Hv1' & _). destruct Hl' as (Hu2 & Hu0 & Hu1 & _).
  rewrite (u32_small (u1 * b16)), (u32_small (u1 * b16 + u0)) by zlia. set (N := u1 * b16 + u0). set (B := b16 ^ Z.of_nat k).
  assert (HB : 0 < B) by (apply Z.pow_pos_nonneg; zlia). pose proof (val_bound _ Hm0) as BM. pose proof (val_bound _ Hl0) as BL. rewrite <- Hlen in BL. fold k B in BM, BL.
  assert (EV : V = v1 * (b16 * B) + v2 * B + from_halfwords m0) by (unfold V; rewrite val_app; fold k B; cbn [from_halfwords]; ring).
  assert (EW : W = N * (b16 * B) + u2 * B + from_halfwords l0) by (unfold W, N; rewrite val_app, <- Hlen; fold k B; cbn [from_halfwords]; ring).
  pose proof (Z.div_mod N v1 ltac:(lia)) as EN. pose proof (Z.mod_pos_bound N v1 ltac:(lia)) as BN.
  assert (HN : 0 <= N / v1 <= 2 * b16) by (split; [apply Z.div_pos; zlia|]; enough (N / v1 < 2 * b16 + 1) by lia; apply Z.div_lt_upper_bound; zlia).
  rewrite (u32_small (N / v1 * v1)) by (unfold N in *; znia). rewrite u32_small by (unfold N in *; znia).
  destruct (adjust_spec v1 v2 u2 N B (from_halfwords l0) (from_halfwords m0) ltac:(lia) Hv2 Hu2 ltac:(zlia) HB BL BM ltac:(rewrite <- EV, <- EW; exact HW) 3 (N / v1) (N - N / v1 * v1))
    as (qh & Eq & Hle & Hqh); [lia|lia|lia| |zlia|].
  { apply estimate_first; lia || done. }
  rewrite <- EV, <- EW in Hle. rewrite (bind_some Eq).
  destruct (sub_digit_spec (m0 ++ [v2; v1]) junk lo (l0 ++ [u2; u0]) u1 zs q qh Hm) as (ws & Es & Hd & Hws & Ev).
  - by rewrite <- app_assoc.
  - rewrite !length_app. cbn. lia.
  - fold V. rewrite EV. znia.
  - done.
  - fold V. rewrite <- app_assoc. cbn [app]. fold W. lia.
  - lia.
  - rewrite <- !app_assoc in Es. rewrite <- app_assoc in Ev. cbn [app] in Es, Ev. fold V W in Es, Ev. rewrite length_app in Es, Hws. cbn [length] in Es, Hws. fold k in Es, Hws.
    rewrite Nat.add_comm in Es, Hws. exists ws. rewrite <- !app_assoc. cbn [app]. by split_and!.
Qed.

Lemma snoc3 (w : list Z) k : length w = S (S (S k)) -> exists l0 x y z, w = l0 ++ [x; y; z] /\ length l0 = k.
Proof.
  intros Hl. exists (take k w). destruct (drop k w) as [|x [|y [|z r]]] eqn:E; pose proof (f_equal length E) as El; rewrite length_drop in El; cbn in El; try lia.
  exists x, y, z. destruct r; [|cbn in El; lia]. rewrite <- E, take_drop, length_take. split; [done|lia].
Qed.

Lemma quot_digit_window m0 v2 v1 junk lo w zs q :
  digits (m0 ++ [v2; v1]) -> digits w -> length w = S (S (S (length m0))) -> 2 ^ 15 <= v1 -> (length lo < length q)%nat ->
  let V := from_halfwords (m0 ++ [v2; v1]) in
  from_halfwords w < b16 * V ->
  exists ws, quot_digit (S (S (length m0))) (length lo) ((m0 ++ [v2; v1]) ++ junk) (lo ++ w ++ zs) q =
      Some (lo ++ (ws ++ [0]) ++ zs, <[length lo := from_halfwords w / V]> q) /\ digits ws /\ length ws = S (S (length m0)) /\
    from_halfwords w = V * (from_halfwords w / V) + from_halfwords ws /\ from_halfwords ws < V /\ 0 <= from_halfwords w / V < b16.
Proof.
  intros Hm Hw Hl Hv1 Hq V HW. destruct (snoc3 w _ Hl) as (l0 & u2 & u0 & u1 & -> & Hl0).
  assert (HV : 0 < V). { unfold V. apply Forall_app in Hm as [Hm Hv]. rewrite !Forall_cons in Hv. destruct Hv as (Hv2 & _ & _). rewrite val_app. cbn [from_halfwords].
    pose proof (val_bound _ Hm). assert (0 < b16 ^ Z.of_nat (length m0)) by (apply Z.pow_pos_nonneg; zlia). znia. }
  destruct (quot_digit_spec m0 v2 v1 junk lo l0 u2 u0 u1 zs q) as (ws & E & Hd & Hlw & Ev); [done..|]. fold V in E, Ev.
  exists ws. split_and!; [done..|rewrite Ev; apply Z.div_mod; lia|rewrite Ev; by apply Z.mod_pos_bound|apply Z.div_pos; [apply (val_bound _ Hw)|done]|].
  apply Z.div_lt_upper_bound; [done|]. lia.
Qed.

(** All digits: [lo] are the digits of the dividend that are not yet in the window. *)
Lemma main_loop_spec m0 v2 v1 junk lo : forall w zs q,
  digits (m0 ++ [v2; v1]) -> 2 ^ 15 <= v1 -> digits lo -> digits w -> length w = S (S (S (length m0))) -> (length lo < length q)%nat ->
  let V := from_halfwords (m0 ++ [v2; v1]) in
  from_halfwords w < b16 * V ->
  exists ws qs zs', main_loop (S (length lo)) (S (S (length m0))) ((m0 ++ [v2; v1]) ++ junk) (lo ++ w ++ zs) q =
      Some (ws ++ 0 :: zs', qs ++ drop (S (length lo)) q) /\
    digits ws /\ length ws = S (S (length m0)) /\ length qs = S (length lo) /\
    from_halfwords (lo ++ w) = V * from_halfwords qs + from_halfwords ws /\ from_halfwords ws < V.
Proof.
  induction lo as [|x lo IH] using rev_ind; intros w zs q Hm Hv1 Hlo Hw Hlen Hq V HW.
  - destruct (quot_digit_window m0 v2 v1 junk [] w zs q) as (ws & E & Hd & Hl & Ev & Hlt & _); [done..|]. fold V in E, Ev, Hlt. cbn [length app] in E |- *.
    cbn [main_loop]. rewrite (bind_some E). exists ws, [from_halfwords w / V], zs. destruct q as [|q0 q]; [cbn in Hq; lia|].
    split_and!; [by rewrite <- app_assoc|done|done|done|cbn [from_halfwords]; lia|done].
  - destruct (quot_digit_window m0 v2 v1 junk (lo ++ [x]) w zs q) as (ws & E & Hd & Hl & Ev & Hlt & Hdq); [done..|]. fold V in E, Ev, Hlt, Hdq.
    cbn [main_loop]. rewrite (bind_some E). apply Forall_app in Hlo as [Hlo Hx]. apply Forall_cons in Hx as [Hx _].
    rewrite length_app in Hq, E |- *. cbn [length] in Hq, E |- *. rewrite Nat.add_1_r in Hq, E |- *. set (d := from_halfwords w / V) in *.
    destruct (IH (x :: ws) (0 :: zs) (<[S (length lo) := d]> q)) as (ws' & qs & zs' & E' & Hd' & Hl' & Hlq & Ev' & Hlt');
      [done|done|done|by constructor|cbn; lia|rewrite length_insert; lia|fold V; cbn [from_halfwords]; znia|]. fold V in Ev', Hlt'.
    replace ((lo ++ [x]) ++ (ws ++ [0]) ++ zs) with (lo ++ (x :: ws) ++ 0 :: zs) by (by rewrite <- !app_assoc). rewrite E'.
    exists ws', (qs ++ [d]), zs'. split_and!; [|done|done|rewrite length_app; cbn; lia| |done].
    + rewrite (drop_S (<[S (length lo):=d]> q) d) by (apply list_lookup_insert_eq; lia). rewrite drop_insert_lt by lia. by rewrite <- app_assoc.
    + rewrite <- app_assoc. cbn [app]. rewrite val_app in Ev' |- *. rewrite val_app, Hlq. cbn [from_halfwords]. cbn [from_halfwords] in Ev'.
      rewrite Ev. rewrite Nat2Z.inj_succ, Z.pow_succ_r by lia. nia.
Qed.

(** ** The whole division *)

Lemma unshift_digit s x y :
  0 <= s <= 15 -> 0 <= x < b16 -> 0 <= y < b16 ->
  2 ^ s * u16 (Z.lor (Z.shiftr x s) (Z.shiftl y (16 - s))) + x mod 2 ^ s = x + b16 * (y mod 2 ^ s).
Proof.
  intros Hs Hx Hy. destruct (shl_digit_spec (16 - s) y x) as [E _]; [lia..|]. unfold shl_digit in E. replace (16 - (16 - s)) with s in E by lia.
  rewrite Z.lor_comm. set (r := u16 _) in *. destruct (pow16 s) as (Eb & H1 & H2); [lia|].
  pose proof (Z.div_mod x (2 ^ s) ltac:(lia)) as Ex. pose proof (Z.div_mod y (2 ^ s) ltac:(lia)) as Ey. nia.
Qed.

Lemma unshift_spec s xs : forall upre z tl rpre rs rest,
  0 <= s <= 15 -> digits xs -> 0 <= z < b16 -> length rs = length xs -> length upre = length rpre ->
  exists rs', unshift_loop (length xs) (length rpre) s (upre ++ xs ++ z :: tl) (rpre ++ rs ++ rest) = Some (rpre ++ rs' ++ rest) /\ length rs' = length xs /\
    2 ^ s * from_halfwords rs' + (hd z xs) mod 2 ^ s = from_halfwords xs + b16 ^ Z.of_nat (length xs) * (z mod 2 ^ s).
Proof.
  induction xs as [|x xs IH]; intros upre z tl rpre rs rest Hs Hxs Hz Hl Hp.
  { exists []. destruct rs; [|done]. cbn. split_and!; [done|done|]. lia. }
  destruct rs as [|r rs]; [done|]. apply Forall_cons in Hxs as [Hx Hxs]. cbn [length unshift_loop]. rewrite <- Hp.
  rewrite (bind_some (lookup_mid upre x (xs ++ z :: tl) _ eq_refl)).
  assert (Ey : (upre ++ (x :: xs) ++ z :: tl) !! S (length upre) = Some (hd z xs)).
  { cbn [app]. replace (upre ++ x :: xs ++ z :: tl) with ((upre ++ [x]) ++ xs ++ z :: tl) by (by rewrite <- app_assoc). destruct xs; cbn [hd app]; apply lookup_mid; rewrite length_app; cbn; lia. }
  rewrite (bind_some Ey). set (d := u16 _). cbn [app]. rewrite (bind_some (put_app rpre r (rs ++ rest) (length upre) d Hp)).
  assert (Hy : 0 <= hd z xs < b16) by (destruct xs; [done|]; by apply Forall_cons in Hxs as [? _]).
  destruct (IH (upre ++ [x]) z tl (rpre ++ [d]) rs rest) as (rs' & E & Hl' & Ev); [done..|by injection Hl|rewrite !length_app; cbn; lia|].
  rewrite <- !app_assoc in E. cbn [app] in E. rewrite length_app in E. cbn [length] in E. rewrite Nat.add_1_r, <- Hp in E. rewrite E.
  exists (d :: rs'). split_and!; [done|cbn; lia|]. cbn [from_halfwords hd length]. rewrite Nat2Z.inj_succ, Z.pow_succ_r by lia.
  pose proof (unshift_digit s x (hd z xs) Hs Hx Hy) as Ed. fold d in Ed. nia.
Qed.

Lemma short_div_spec v0 us : forall tl k q,
  0 < v0 < b16 -> digits us -> 0 <= k < v0 -> (length us <= length q)%nat ->
  exists k' qs, short_div (length us) (us ++ tl) v0 k q = Some (k', qs ++ drop (length us) q) /\ length qs = length us /\
    from_halfwords us + b16 ^ Z.of_nat (length us) * k = v0 * from_halfwords qs + k' /\ 0 <= k' < v0.
Proof.
  induction us as [|x us IH] using rev_ind; intros tl k q Hv Hus Hk Hq.
  { exists k, []. cbn. split_and!; [done|done|lia|lia|lia]. }
  apply Forall_app in Hus as [Hus Hx]. apply Forall_cons in Hx as [Hx _]. rewrite length_app in Hq |- *. cbn [length] in Hq |- *. rewrite Nat.add_1_r in Hq |- *.
  cbn [short_div]. assert (Ex : ((us ++ [x]) ++ tl) !! length us = Some x) by (rewrite <- app_assoc; by apply lookup_mid). rewrite (bind_some Ex).
  assert (Hkb : 0 <= k * b16 < 2 ^ 32) by znia. rewrite (u32_small (k * b16)) by done.
  assert (Hnum : 0 <= k * b16 + x < v0 * b16) by znia. rewrite (u32_small (k * b16 + x)) by znia. set (num := k * b16 + x) in *.
  pose proof (Z.div_mod num v0 ltac:(lia)) as En. pose proof (Z.mod_pos_bound num v0 ltac:(lia)) as Bn.
  assert (Hd : 0 <= num / v0 < b16) by (split; [apply Z.div_pos; lia|apply Z.div_lt_upper_bound; lia]).
  assert (Eu : u16 (num / v0) = num / v0) by (unfold u16; apply Z.mod_small; zlia). rewrite Eu. set (d := num / v0) in *.
  assert (Ek : s32 (u32 (num - u32 (s32 (d * v0)))) = num mod v0).
  { assert (0 <= d * v0 < 2 ^ 32) by znia. assert (u32 (s32 (d * v0)) = d * v0) as ->.
    { unfold u32, s32. rewrite Zminus_mod_idemp_l. replace (d * v0 + 2 ^ 31 - 2 ^ 31) with (d * v0) by lia. by apply Z.mod_small. }
    replace (num - d * v0) with (num mod v0) by lia. by rewrite u32_small, s32_small by zlia. }
  rewrite (bind_some (put_eq q (length us) d ltac:(lia))), Ek.
  destruct (IH ([x] ++ tl) (num mod v0) (<[length us := d]> q)) as (k' & qs & E & Hl & Ev & Hk'); [done|done|lia|rewrite length_insert; lia|].
  rewrite app_assoc in E. rewrite E. exists k', (qs ++ [d]). split_and!; [|rewrite length_app; cbn; lia| |lia|lia].
  - rewrite (drop_S (<[length us:=d]> q) d) by (apply list_lookup_insert_eq; lia). rewrite drop_insert_lt by lia. by rewrite <- app_assoc.
  - rewrite !val_app, Hl. cbn [from_halfwords]. rewrite Nat2Z.inj_succ, Z.pow_succ_r by lia. unfold num in *. nia.
Qed.

(** Filling an array with the shifted digits. *)
Lemma fill_shifted s x l o os rest :
  length os = length l ->
  exists out, shift_loop (length l) s (x :: l) (o :: os ++ rest) = Some out /\ put out 0 (u16 (Z.shiftl x s)) = Some (shl_digits s 0 (x :: l) ++ rest).
Proof.
  intros Hl. pose proof (shift_loop_spec s x l [] o os rest Hl) as E. rewrite app_nil_r in E. eexists. split; [exact E|].
  cbn [shl_digits app]. unfold shl_digit. by rewrite Z.shiftr_0_l, Z.lor_0_r.
Qed.

Lemma split_array (a : list Z) k : (k < length a)%nat -> exists o os rest, a = o :: os ++ rest /\ length os = k.
Proof. destruct a as [|o a]; cbn; [lia|]. intros H. exists o, (take k a), (drop k a). by rewrite take_drop, length_take_le by lia. Qed.

(** The divisor after normalization. *)
Lemma normalized vs x :
  let s := leading_zeros_us x in
  digits (vs ++ [x]) -> 0 < x -> 
  from_halfwords (shl_digits s 0 (vs ++ [x])) = from_halfwords (vs ++ [x]) * 2 ^ s /\ digits (shl_digits s 0 (vs ++ [x])) /\
  exists nvs v1, shl_digits s 0 (vs ++ [x]) = nvs ++ [v1] /\ 2 ^ 15 <= v1 /\ length nvs = length vs.
Proof.
  intros s Hd Hx. pose proof Hd as Hd'. apply Forall_app in Hd' as [Hvs Hx']. apply Forall_cons in Hx' as [Hx' _].
  destruct (leading_zeros_us_spec x ltac:(lia)) as [Hs Hn]. fold s in Hs, Hn. destruct (pow16 s) as (Eb & H1 & H2); [lia|].
  destruct (shl_digits_spec s (vs ++ [x]) 0 Hs Hd ltac:(zlia)) as (Ev & Hd' & Hl). rewrite last_snoc in Ev. cbn [default from_option id] in Ev.
  assert (x / 2 ^ (16 - s) = 0) as E0 by (apply Z.div_small; nia). rewrite E0, Z.div_0_l in Ev by lia. split_and!; [lia|done|].
  rewrite shl_digits_app. eexists _, _. split_and!; [done| |].
  - set (p := default 0 (last vs)). assert (Hp : 0 <= p < b16).
    { unfold p. destruct (last vs) as [y|] eqn:El; cbn; [|zlia]. apply last_Some in El as [l' ->]. apply Forall_app in Hvs as [_ Hy]. by apply Forall_cons in Hy as [? _]. }
    destruct (shl_digit_spec s x p ltac:(lia) Hx' Hp) as [E _]. rewrite E0 in E. assert (0 <= p / 2 ^ (16 - s)) by (apply Z.div_pos; lia). lia.
  - apply (shl_digits_spec s vs 0 Hs Hvs). zlia.
Qed.

Lemma normalized_dividend s u0 ul :
  let t := u16 (Z.shiftr (default u0 (last ul)) (16 - s)) in
  0 <= s <= 15 -> digits (u0 :: ul) ->
  from_halfwords (shl_digits s 0 (u0 :: ul) ++ [t]) = from_halfwords (u0 :: ul) * 2 ^ s /\ digits (shl_digits s 0 (u0 :: ul) ++ [t]) /\
  length (shl_digits s 0 (u0 :: ul)) = S (length ul) /\ t < 2 ^ 15.
Proof.
  intros t Hs Hd. destruct (shl_digits_spec s (u0 :: ul) 0 Hs Hd ltac:(zlia)) as (Ev & Hd' & Hl).
  replace (default 0 (last (u0 :: ul))) with (default u0 (last ul)) in Ev by (rewrite last_cons; by destruct (last ul)). set (y := default u0 (last ul)) in *.
  assert (Hy : 0 <= y < b16).
  { unfold y. destruct (last ul) as [z|] eqn:El; cbn; [|by apply Forall_cons in Hd as [? _]]. apply last_Some in El as [l' ->].
    apply Forall_cons in Hd as [_ Hd]. apply Forall_app in Hd as [_ Hy]. by apply Forall_cons in Hy as [? _]. }
  destruct (pow16 s) as (Eb & H1 & H2); [lia|]. assert (Ht : 0 <= y / 2 ^ (16 - s) < 2 ^ s) by (split; [apply Z.div_pos; lia|apply Z.div_lt_upper_bound; lia]).
  assert (H15 : 2 ^ s <= 2 ^ 15) by (apply Z.pow_le_mono_r; lia).
  assert (Et : t = y / 2 ^ (16 - s)) by (unfold t, u16; rewrite Z.shiftr_div_pow2 by lia; apply Z.mod_small; lia).
  rewrite Z.div_0_l in Ev by lia. split_and!; [|apply Forall_app; split; [done|constructor; [zlia|constructor]]|done|lia].
  rewrite val_app, Hl, Et. cbn [from_halfwords] in Ev |- *. lia.
Qed.

Lemma long_division m0 v2 v1 junk nu rest q r s U Vv :
  let V := from_halfwords (m0 ++ [v2; v1]) in
  let n := S (S (length m0)) in
  digits (m0 ++ [v2; v1]) -> 2 ^ 15 <= v1 -> digits nu -> (n < length nu)%nat -> (length nu - n <= length q)%nat -> (n <= length r)%nat ->
  0 <= s <= 15 -> default 0 (last nu) < 2 ^ 15 -> from_halfwords nu = U * 2 ^ s -> V = Vv * 2 ^ s -> 0 < Vv ->
  exists q' r', ('(un, q) ← main_loop (length nu - n) n ((m0 ++ [v2; v1]) ++ junk) (nu ++ rest) q; r ← unshift_loop n 0 s un r; Some (0, q, r)) = Some (0, q', r') /\
    from_halfwords (take (length nu - n) q') = U / Vv /\ from_halfwords (take n r') = U mod Vv.
Proof.
  intros V n Hm Hv1 Hnu Hn Hq Hr Hs Htop EU EV HV. set (j := (length nu - n - 1)%nat).
  assert (Hlo : length (take j nu) = j) by (rewrite length_take; lia). assert (Hw : length (drop j nu) = S n) by (rewrite length_drop; lia).
  assert (HW : from_halfwords (drop j nu) < b16 * V).
  { destruct (exists_last (l := drop j nu)) as (wl & t & Ew); [by intros E; rewrite E in Hw|]. assert (Hlast : last nu = Some t) by (rewrite <- (take_drop j nu), Ew, app_assoc; apply last_snoc).
    rewrite Hlast in Htop. cbn in Htop. pose proof (Forall_drop _ j _ Hnu) as Hd. rewrite Ew in Hd, Hw |- *. rewrite length_app in Hw. cbn in Hw.
    apply Forall_app in Hd as [Hwl _]. pose proof (val_bound _ Hwl) as Bw. rewrite val_app. cbn [from_halfwords].
    apply Forall_app in Hm as [Hm Hv]. rewrite !Forall_cons in Hv. destruct Hv as (Hv2 & _ & _). pose proof (val_bound _ Hm) as Bm. unfold V. rewrite val_app. cbn [from_halfwords].
    replace (length wl) with (S (S (length m0))) in * by lia. rewrite !Nat2Z.inj_succ, !Z.pow_succ_r in * by lia. set (B := b16 ^ Z.of_nat (length m0)) in *. znia. }
  destruct (main_loop_spec m0 v2 v1 junk (take j nu) (drop j nu) rest q) as (ws & qs & zs' & E & Hd & Hl & Hlq & Ev & Hlt);
    [done|done|by apply Forall_take|by apply Forall_drop|done|lia|done|]. fold V in Ev, Hlt. rewrite take_drop in Ev.
  rewrite Hlo in E, Hlq. replace (S j) with (length nu - n)%nat in E, Hlq by lia. rewrite app_assoc, take_drop in E. fold n in E. rewrite (bind_some E).
  destruct (unshift_spec s ws [] 0 zs' [] (take n r) (drop n r)) as (rs & Er & Hlr & Evr); [done|done|zlia|rewrite length_take; lia|done|].
  cbn [app length] in Er. rewrite take_drop, Hl in Er. fold n in Er, Hl. rewrite (bind_some Er). rewrite Z.mod_0_l, Z.mul_0_r, Z.add_0_r in Evr by lia.
  exists (qs ++ drop (length nu - n) q), (rs ++ drop n r). split; [done|].
  replace (take (length nu - n) (qs ++ _)) with qs by (rewrite <- Hlq; by rewrite take_app_length).
  replace (take n (rs ++ _)) with rs by (rewrite <- Hl, <- Hlr; by rewrite take_app_length).
  pose proof (Z.mod_pos_bound (hd 0 ws) (2 ^ s) ltac:(lia)) as Bh. assert (Hpow : 0 < 2 ^ s) by lia. pose proof (val_bound _ Hd) as Bws.
  assert (ER : U = Vv * from_halfwords qs + from_halfwords rs) by nia. assert (0 <= from_halfwords rs < Vv) by nia.
  split; [apply (Z.div_unique U Vv _ (from_halfwords rs)); [by left|done]|apply (Z.mod_unique U Vv (from_halfwords qs)); [by left|done]].
Qed.

Lemma divmnu_spec vn un q r us vs x :
  digits us -> digits (vs ++ [x]) -> 0 < x -> (length vs < length us)%nat ->
  (length vs < length vn)%nat -> (length us < length un)%nat -> (length us <= length q)%nat -> (length vs < length r)%nat ->
  exists q' r', divmnu vn un q r us (vs ++ [x]) (length us) (length (vs ++ [x])) = Some (0, q', r') /\
    from_halfwords (take (length us - length (vs ++ [x]) + 1) q') = from_halfwords us / from_halfwords (vs ++ [x]) /\
    from_halfwords (take (length (vs ++ [x])) r') = from_halfwords us mod from_halfwords (vs ++ [x]).
Proof.
  intros Hus Hd Hx Hlen Hvn Hun Hq Hr. unfold divmnu. rewrite length_app. cbn [length]. rewrite Nat.add_1_r.
  destruct (Nat.ltb_spec (length us) (S (length vs))); [lia|]. cbn [Nat.eqb orb]. replace (S (length vs) - 1)%nat with (length vs) by lia.
  rewrite (bind_some (lookup_mid vs x [] _ eq_refl)). rewrite (proj2 (Z.eqb_neq x 0)) by lia.
  assert (Hxb : 0 < x < b16) by (apply Forall_app in Hd as [_ Hxb]; apply Forall_cons in Hxb as [? _]; lia).
  assert (HV : 0 < from_halfwords (vs ++ [x])).
  { apply Forall_app in Hd as [Hvs _]. pose proof (val_bound _ Hvs). rewrite val_app. cbn [from_halfwords]. assert (0 < b16 ^ Z.of_nat (length vs)) by (apply Z.pow_pos_nonneg; zlia). znia. }
  destruct vs as [|v0 vs].
  { cbn [length app Nat.eqb]. change (([x] : list Z) !! 0%nat) with (Some x). cbn [mbind option_bind].
    destruct (short_div_spec x us [] 0 q) as (k & qs & E & Hl & Ev & Hk); [lia|done|lia|done|].
    rewrite app_nil_r in E. rewrite (bind_some E). destruct r as [|r0 r]; [cbn in Hr; lia|]. cbn [put length Nat.ltb Nat.leb mbind option_bind]. unfold put. cbn [length Nat.ltb Nat.leb].
    cbn [mbind option_bind]. eexists _, _. split; [done|]. replace (length us - 1 + 1)%nat with (length us) by (cbn in Hlen; lia). rewrite <- Hl, take_app_length.
    cbn [take insert list_insert from_halfwords]. unfold u16. rewrite Z.mod_small by zlia. rewrite Z.mul_0_r in Ev. rewrite !Z.mul_0_r, !Z.add_0_r in *.
    split; [apply (Z.div_unique _ _ _ k); [by left|done]|apply (Z.mod_unique _ _ (from_halfwords qs)); [by left|done]]. }
  set (s := leading_zeros_us x). destruct us as [|u0 ul]; [cbn in Hlen; lia|]. cbn [length app] in *. cbn [Nat.eqb].
  destruct (normalized (v0 :: vs) x) as (EV & HdV & nvs & v1 & Env & Hv1 & Hlnv); [done|done|]. fold s in EV, HdV, Env.
  destruct (leading_zeros_us_spec x Hxb) as [Hs _]. fold s in Hs.
  destruct (split_array vn (S (length vs)) Hvn) as (o & os & restv & -> & Hos).
  destruct (fill_shifted s v0 (vs ++ [x]) o os restv) as (out & E1 & E2); [rewrite length_app; cbn; lia|]. rewrite length_app, Nat.add_1_r in E1. cbn [length] in E1.
  rewrite (bind_some E1). cbn [lookup list_lookup mbind option_bind]. rewrite (bind_some E2).
  destruct (split_array un (S (length ul)) Hun) as (p & ps' & restu & -> & Hps). destruct (exists_last (l := ps')) as (ps & p1 & ->); [by intros ->|].
  rewrite length_app in Hps. cbn [length] in Hps. set (t := u16 (Z.shiftr (default u0 (last ul)) (16 - s))).
  assert (El : (u0 :: ul) !! (S (length ul) - 1)%nat = Some (default u0 (last ul))).
  { replace (S (length ul) - 1)%nat with (pred (length (u0 :: ul))) by (cbn; lia). rewrite <- last_lookup, last_cons. by destruct (last ul). }
  rewrite (bind_some El). fold t.
  assert (Ep : put (p :: (ps ++ [p1]) ++ restu) (S (length ul)) t = Some (p :: ps ++ t :: restu)).
  { rewrite <- app_assoc. apply (put_app (p :: ps) p1 restu). cbn. lia. }
  rewrite (bind_some Ep). destruct (fill_shifted s u0 ul p ps (t :: restu)) as (out2 & E3 & E4); [lia|]. replace (S (length ul) - 1)%nat with (length ul) by lia.
  rewrite (bind_some E3). cbn [lookup list_lookup mbind option_bind]. rewrite (bind_some E4).
  destruct (normalized_dividend s u0 ul Hs Hus) as (EU & HdU & HlU & Ht). fold t in EU, HdU, Ht.
  assert (Enu : shl_digits s 0 (u0 :: ul) ++ t :: restu = (shl_digits s 0 (u0 :: ul) ++ [t]) ++ restu) by (by rewrite <- app_assoc). rewrite Enu.
  cbn [app] in Env, EV, HdV. rewrite Env in EV, HdV |- *. destruct (exists_last (l := nvs)) as (m0 & v2 & ->); [by intros ->|]. rewrite <- app_assoc in EV, HdV |- *. cbn [app] in EV, HdV |- *.
  rewrite length_app in Hlnv. cbn [length] in Hlnv. assert (Hm0 : length m0 = length vs) by lia.
  destruct (long_division m0 v2 v1 restv (shl_digits s 0 (u0 :: ul) ++ [t]) restu q r s (from_halfwords (u0 :: ul)) (from_halfwords (v0 :: vs ++ [x])))
    as (q' & r' & E & Eq & Er); [done|done|done| | | |done| |done|done|done|].
  - rewrite length_app, HlU. cbn. lia.
  - rewrite length_app, HlU. cbn. lia.
  - lia.
  - rewrite last_snoc. done.
  - rewrite length_app, HlU, Hm0 in E, Eq. rewrite Hm0 in Er. cbn [length] in E, Eq.
    replace (S (length ul) + 1 - S (S (length vs)))%nat with (S (length ul) - S (S (length vs)) + 1)%nat in E, Eq by lia. exists q', r'. rewrite <- ?app_assoc in E |- *. by split_and!.
Qed.

(** ** Numbers of 64 bits *)

Lemma halfword_range x i : 0 <= halfword x i < b16.
Proof. apply u16_range. Qed.

Lemma halfword_succ x i : halfword x (S i) = halfword (x / b16) i.
Proof.
  unfold halfword. rewrite Nat2Z.inj_succ. replace (16 * Z.succ (Z.of_nat i)) with (16 + 16 * Z.of_nat i) by lia.
  rewrite <- Z.shiftr_shiftr by lia. by rewrite (Z.shiftr_div_pow2 x 16) by lia.
Qed.

Lemma halfwords_value k x : 0 <= x -> from_halfwords (halfword x <$> seq 0 k) = x mod b16 ^ Z.of_nat k.
Proof.
  revert x. induction k as [|k IH]; intros x Hx; [cbn; by rewrite Z.mod_1_r|]. cbn [seq]. rewrite fmap_cons. cbn [from_halfwords].
  rewrite <- fmap_S_seq, <- list_fmap_compose. rewrite (list_fmap_ext (halfword x ∘ S) (halfword (x / b16)) (seq 0 k)) by (intros ? i _; apply (halfword_succ x i)).
  assert (0 < b16) by zlia. rewrite IH by (apply Z.div_pos; lia). rewrite Nat2Z.inj_succ, Z.pow_succ_r by lia.
  assert (0 < b16 ^ Z.of_nat k) by (apply Z.pow_pos_nonneg; lia). by rewrite Z.rem_mul_r by lia.
Qed.

(** The halfwords above the number that is found are zero. *)
Lemma halfwords_spec k x :
  from_halfwords (halfword x <$> seq 0 (halfwords k x)) = from_halfwords (halfword x <$> seq 0 k) /\ (halfwords k x <= k)%nat /\
  forall i, halfwords k x = S i -> 0 < halfword x i.
Proof.
  induction k as [|k (IH & Hle & Htop)]; [by split_and!|]. cbn [halfwords]. pose proof (halfword_range x k) as Hr. destruct (Z.eqb_spec (halfword x k) 0) as [E|E].
  - split_and!; [|lia|done]. rewrite IH. rewrite (seq_S k), fmap_app, val_app. cbn [fmap list_fmap from_halfwords Nat.add]. rewrite E. lia.
  - split_and!; [done|lia|]. intros i [= <-]. lia.
Qed.

Lemma halfwords_digits x n : digits (halfword x <$> seq 0 n) /\ length (halfword x <$> seq 0 n) = n.
Proof. split; [apply Forall_fmap, Forall_true; intros; apply halfword_range|by rewrite length_fmap, length_seq]. Qed.

Lemma halfwords_lt k x y : 0 <= x < b16 ^ Z.of_nat k -> 0 <= y < b16 ^ Z.of_nat k -> (halfwords k x < halfwords k y)%nat -> x < y.
Proof.
  intros Hx Hy Hlt. destruct (halfwords_spec k x) as (Ex & _ & _). destruct (halfwords_spec k y) as (Ey & _ & Hty).
  rewrite (halfwords_value k), Z.mod_small in Ex by lia. rewrite (halfwords_value k), Z.mod_small in Ey by lia.
  destruct (halfwords_digits x (halfwords k x)) as [Hdx Hlx]. pose proof (val_bound _ Hdx) as Bx. rewrite Ex, Hlx in Bx.
  destruct (halfwords k y) as [|n] eqn:En; [lia|]. specialize (Hty n eq_refl). rewrite seq_S, fmap_app, val_app in Ey. cbn [fmap list_fmap from_halfwords Nat.add] in Ey.
  destruct (halfwords_digits y n) as [Hdy Hly]. pose proof (val_bound _ Hdy) as By. rewrite Hly in Ey.
  assert (b16 ^ Z.of_nat (halfwords k x) <= b16 ^ Z.of_nat n) by (apply Z.pow_le_mono_r; zlia). assert (0 < b16 ^ Z.of_nat n) by (apply Z.pow_pos_nonneg; zlia). znia.
Qed.

(** The arrays have the sizes that the functions declare. *)
Definition arrays_ok (g : garbage) : Prop := length (g_q g) = 4%nat /\ length (g_r g) = 4%nat /\ length (g_un g) = 10%nat /\ length (g_vn g) = 8%nat.

Lemma divmodu64_spec g x y :
  arrays_ok g -> 0 <= x < 2 ^ 64 -> 0 < y < 2 ^ 64 ->
  divmodu64 g x y = Some (x / y, if (halfwords 4 x <? halfwords 4 y)%nat then 0 else x mod y).
Proof.
  intros (Hq & Hr & Hun & Hvn) Hx Hy. unfold divmodu64. destruct (Z.eqb_spec x 0) as [->|Hx0].
  { rewrite Z.div_0_l, Z.mod_0_l by lia. by destruct (_ <? _)%nat. }
  change (2 ^ 64) with (b16 ^ Z.of_nat 4) in *. destruct (halfwords_spec 4 x) as (Ex & Hlex & _). destruct (halfwords_spec 4 y) as (Ey & Hley & Hty).
  rewrite (halfwords_value 4), Z.mod_small in Ex by lia. rewrite (halfwords_value 4), Z.mod_small in Ey by lia.
  destruct (halfwords_digits x (halfwords 4 x)) as [Hdx Hlx]. destruct (halfwords_digits y (halfwords 4 y)) as [Hdy Hly].
  destruct (halfwords 4 y) as [|n] eqn:En; [cbn in Ey; lia|]. specialize (Hty n eq_refl).
  destruct (Nat.ltb_spec (halfwords 4 x) (S n)) as [Hlt|Hge].
  { unfold divmnu. destruct (Nat.ltb_spec (halfwords 4 x) (S n)); [|lia]. cbn. rewrite Z.div_small; [done|]. split; [lia|]. apply (halfwords_lt 4); [lia|lia|]. by rewrite En. }
  set (us := halfword x <$> seq 0 (halfwords 4 x)) in *. rewrite seq_S, fmap_app in Ey, Hdy, Hly |- *. set (vs := halfword y <$> seq 0 n) in *.
  change (halfword y <$> [(0 + n)%nat]) with [halfword y n] in *. assert (Hlv : length vs = n) by (unfold vs; by rewrite length_fmap, length_seq).
  destruct (divmnu_spec (g_vn g) (g_un g) (g_q g) (g_r g) us vs (halfword y n)) as (q' & r' & E & Eq & Er); [done|done|done|lia..|].
  rewrite Hlx, Hly in E. rewrite (bind_some E). cbn [Z.eqb negb]. rewrite Hlx, Hly in Eq. rewrite Hly in Er. by rewrite Eq, Er, Ex, Ey.
Qed.

(** ** Signed numbers *)

Lemma u64_s64 z : u64 (s64 z) = u64 z.
Proof. unfold u64, s64. rewrite Zminus_mod_idemp_l. f_equal. lia. Qed.
Lemma s64_u64 z : s64 (u64 z) = s64 z.
Proof. unfold u64, s64. by rewrite Zplus_mod_idemp_l. Qed.
Lemma s64_small z : - 2 ^ 63 <= z < 2 ^ 63 -> s64 z = z.
Proof. intros. unfold s64. rewrite Z.mod_small; lia. Qed.

Lemma abs64_spec x : - 2 ^ 63 <= x < 2 ^ 63 -> u64 (abs64 x) = Z.abs x.
Proof. intros Hx. unfold abs64. rewrite u64_s64. destruct (Z.ltb_spec x 0); rewrite u64_small by lia; lia. Qed.

Lemma divmods64_spec g x y :
  arrays_ok g -> - 2 ^ 63 <= x < 2 ^ 63 -> - 2 ^ 63 <= y < 2 ^ 63 -> y <> 0 ->
  divmods64 g x y = Some (s64 (Z.quot x y), if (halfwords 4 (Z.abs x) <? halfwords 4 (Z.abs y))%nat then 0 else Z.rem x y).
Proof.
  intros Hg Hx Hy Hy0. unfold divmods64. rewrite !abs64_spec by lia. rewrite (bind_some (divmodu64_spec g (Z.abs x) (Z.abs y) Hg ltac:(lia) ltac:(lia))).
  rewrite Z.quot_div, Z.rem_mod by done. pose proof (Z.mod_pos_bound (Z.abs x) (Z.abs y) ltac:(lia)) as Hm. f_equal. f_equal.
  - set (Q := Z.abs x / Z.abs y). assert (HQ : x = 0 -> Q = 0) by (intros ->; by apply Z.div_0_l; lia).
    destruct (Z.sgn_spec x) as [[? ->]|[[? ->]|[? ->]]], (Z.sgn_spec y) as [[? ->]|[[? ->]|[? ->]]], (Z.ltb_spec x 0), (Z.ltb_spec y 0); cbn [xorb];
      rewrite ?s64_u64; f_equal; lia.
  - set (R := Z.abs x mod Z.abs y) in *. assert (HR : x = 0 -> R = 0) by (intros ->; by apply Z.mod_0_l; lia).
    destruct (_ <? _)%nat; [by destruct (x <? 0)|].
    destruct (Z.sgn_spec x) as [[? ->]|[[? ->]|[? ->]]], (Z.ltb_spec x 0); rewrite ?s64_u64, s64_small; lia.
Qed.

Lemma hi32_zero x : 0 <= x < 2 ^ 64 -> hi32 x = 0 <-> x < 2 ^ 32.
Proof.
  intros Hx. unfold hi32. rewrite Z.shiftr_div_pow2 by lia. assert (0 <= x / 2 ^ 32 < 2 ^ 32) by (split; [apply Z.div_pos; lia|apply Z.div_lt_upper_bound; lia]).
  rewrite u32_small by lia. rewrite Z.div_small_iff by lia. lia.
Qed.

(** Unsigned numbers are divided as they should, with the same exception. *)
Lemma divuint64_spec g x y : arrays_ok g -> 0 <= x < 2 ^ 64 -> 0 < y < 2 ^ 64 -> divuint64_020 g x y = Some (x / y).
Proof.
  intros Hg Hx Hy. unfold divuint64_020, lo32. rewrite (bind_some (divmodu64_spec g x y Hg Hx Hy)). destruct (Z.eqb_spec (hi32 y) 0) as [Ey|]; [|done].
  destruct (Z.eqb_spec (hi32 x) 0) as [Ex|]; [|done]. apply hi32_zero in Ex, Ey; [|lia..]. cbn [andb]. rewrite !u32_small by lia. by rewrite (proj2 (Z.eqb_neq y 0)) by lia.
Qed.

(** C11. The 64-bit division is right: whatever the arrays of the functions hold at the
    start, no access is outside of them, Knuth's algorithm ends, and the quotient is
    that of the two numbers.  The remainder is theirs as well, unless the dividend has
    fewer halfwords than the divisor, when it is 0. *)
Theorem divmodu64_divides g x y :
  arrays_ok g -> 0 <= x < 2 ^ 64 -> 0 < y < 2 ^ 64 ->
  divmodu64 g x y = Some (x / y, if (halfwords 4 x <? halfwords 4 y)%nat then 0 else x mod y).
Proof. apply divmodu64_spec. Qed.

(** The signed division, and lldiv with it, rounds towards zero and gives the
    remainder the sign of the dividend, with the same exception; the one quotient
    that does not fit, that of the smallest number and -1, wraps around. *)
Theorem lldiv_divides g x y :
  arrays_ok g -> - 2 ^ 63 <= x < 2 ^ 63 -> - 2 ^ 63 <= y < 2 ^ 63 -> y <> 0 ->
  lldiv g x y = Some (s64 (Z.quot x y), if (halfwords 4 (Z.abs x) <? halfwords 4 (Z.abs y))%nat then 0 else Z.rem x y).
Proof. apply divmods64_spec. Qed.

Definition sample_arrays : garbage := MkGarbage [9; 8; 7; 6] [5; 4; 3; 2] (replicate 10 7) (replicate 8 1).

Lemma divmodu64_divides_witness : divmodu64 sample_arrays (2 ^ 64 - 1) (2 ^ 63 - 25) = Some (2, 49).
Proof. rewrite (divmodu64_divides sample_arrays (2 ^ 64 - 1) (2 ^ 63 - 25)); [by vm_compute|done|lia|lia]. Defined.

Lemma lldiv_divides_witness : lldiv sample_arrays (- 2 ^ 63) (2 ^ 40 + 3) = Some (-8388607, -1099486461955) /\ (halfwords 4 (2 ^ 63) >= halfwords 4 (2 ^ 40 + 3))%nat.
Proof. split; [rewrite (lldiv_divides sample_arrays (- 2 ^ 63) (2 ^ 40 + 3)); [by vm_compute|done|lia|lia|lia]|]. vm_compute. lia. Defined.

(** The remainder that is lost: 5 divided by 100000. *)
Example lldiv_loses_remainder : lldiv sample_arrays 5 100000 = Some (0, 0).
Proof. by vm_compute. Qed.

(** The signed division takes numbers of 32 bits for signed ones of that width:
    3000000000 / 7 is not 428571428, and 3000000000 mod 9 is not 3. *)
Example divsint64_sign : divsint64_020 sample_arrays 3000000000 7 = Some 4109971968 /\ modsint64_020 sample_arrays 3000000000 9 = Some (2 ^ 32 - 1).
Proof. split; by vm_compute. Qed.
