(* ===== verification/Fmt.v ===== *)
(** * Formatted output (user/lib/libc/src/ext/__fmt.c, __i64toa.c, __u64toa.c)

    The formatter behind printf of the kernel and of the C library: conversion
    specifications, integers, characters, strings and pointers.  [int] and [long]
    have 32 bits, [long long] has 64.  The stream is a type class with the two
    functions that the formatter calls; the arguments are a list of values with the
    types of va_arg, and taking a value of another type is a failure ([None]), as is a
    loop that does not end and reading behind the end of the format. *)

From S2P Require Import Prelude Numbers DivMod64.

(** ** Numbers of 64 bits to text *)

Definition I64A_BUFFER_SIZE : nat := 66.

Fixpoint put_digits64 (room : nat) (ds : Z -> option Z) (next : Z -> option (Z * Z)) (val : Z) (acc : list Z) : option (list Z) :=
  match room with
  | O => None
  | S room =>
      '(rem, quot) ← next val;
      ch ← ds rem;
      if quot =? 0 then Some (ch :: acc) else put_digits64 room ds next quot (ch :: acc)
  end.

Definition i64toa (g : garbage) (val : Z) (sign_mode : ia_sign_format_t) : option (list Z) :=
  if val =? - 2 ^ 63 then Some [45; 57; 50; 50; 51; 51; 55; 50; 48; 51; 54; 56; 53; 52; 55; 55; 53; 56; 48; 56]
  else
    let sign := if val <? 0 then [45] else match sign_mode with ia_sign_plus_minus => [43] | ia_sign_minus_only => [] end in
    text ← put_digits64 (I64A_BUFFER_SIZE - 1) (fun rem => Some (48 + rem)) (fun v => '(q, r) ← divmods64 g v 10; Some (r, q)) (if val <? 0 then - val else val) [];
    if (length (sign ++ text) <=? I64A_BUFFER_SIZE - 1)%nat then Some (sign ++ text) else None.

Definition u64toa (g : garbage) (val base : Z) (isUppercase : bool) : option (list Z) :=
  let ds rem := (if isUppercase then g_digits_16_uc else g_digits_16_lc) !! Z.to_nat rem in
  let next v :=
    if base =? 2 then Some (Z.land (u8 v) 1, Z.shiftr v 1)
    else if base =? 16 then Some (Z.land (u8 v) 15, Z.shiftr v 4)
    else '(q, r) ← divmodu64 g v base; Some (r, q) in
  put_digits64 (I64A_BUFFER_SIZE - 1) ds next val [].

(** ** The formatter *)

Inductive length_mod := FMT_LM_hh | FMT_LM_h | FMT_LM_none | FMT_LM_l | FMT_LM_ll | FMT_LM_L.

Definition FMT_LEFTJUST : Z := 1.
Definition FMT_FORCESIGN : Z := 2.
Definition FMT_SPACEIFPOS : Z := 4.
Definition FMT_ALTFORM : Z := 8.
Definition FMT_PADZEROS : Z := 16.
Definition FMT_HASPREC : Z := 32.
Definition FMT_HASERR : Z := 1.
Definition FMT_CONTCNTONERR : Z := 2.

Definition has (flags f : Z) : bool := Z.land flags f =? f.

Record fmt_cspec := MkSpec { min_field_width : Z; prec : Z; f_lm : length_mod; cs_flags : Z }.

(** The values of va_arg. *)
Inductive va_value := VInt (v : Z) | VLong (v : Z) | VLongLong (v : Z) | VString (s : list Z) | VPointer (p : Z).

Definition s16 (z : Z) : Z := (z + 2 ^ 15) mod 2 ^ 16 - 2 ^ 15.

Definition arg_int (ap : list va_value) : option (Z * list va_value) := match ap with VInt v :: ap => Some (v, ap) | _ => None end.
Definition arg_long (ap : list va_value) : option (Z * list va_value) := match ap with VLong v :: ap => Some (v, ap) | _ => None end.
Definition arg_longlong (ap : list va_value) : option (Z * list va_value) := match ap with VLongLong v :: ap => Some (v, ap) | _ => None end.
Definition arg_string (ap : list va_value) : option (list Z * list va_value) := match ap with VString s :: ap => Some (s, ap) | _ => None end.
Definition arg_pointer (ap : list va_value) : option (Z * list va_value) := match ap with VPointer p :: ap => Some (p, ap) | _ => None end.

Class Stream (S : Type) := {
  putc_cb : Z -> S -> Z * S;
  write_cb : S -> list Z -> Z * S }.

Section Fmt.
Context {S : Type} {St : Stream S}.

(** [fm_stores] are the values that the conversion n stored. *)
Record fmt := MkFmt { stream : S; chars_written : Z; fm_spec : fmt_cspec; fm_flags : Z; fm_stores : list (Z * length_mod * Z) }.

Definition set_stream (s : S) (f : fmt) : fmt := MkFmt s (chars_written f) (fm_spec f) (fm_flags f) (fm_stores f).
Definition count_chars (n : Z) (f : fmt) : fmt := MkFmt (stream f) (u32 (chars_written f + n)) (fm_spec f) (fm_flags f) (fm_stores f).
Definition set_spec (sp : fmt_cspec) (f : fmt) : fmt := MkFmt (stream f) (chars_written f) sp (fm_flags f) (fm_stores f).
Definition set_error (f : fmt) : fmt := MkFmt (stream f) (chars_written f) (fm_spec f) (Z.lor (fm_flags f) FMT_HASERR) (fm_stores f).

Definition fmt_init_i (s : S) (doContCountingOnError : bool) : fmt :=
  MkFmt s 0 (MkSpec 0 0 FMT_LM_none 0) (if doContCountingOnError then FMT_CONTCNTONERR else 0) [].

(** Whether output counts: it was written, or an error is ignored. *)
Definition try_char (ch : Z) (f : fmt) : bool * fmt :=
  if negb (has (fm_flags f) FMT_HASERR) then let '(r, s) := putc_cb ch (stream f) in (r =? 1, set_stream s f)
  else (has (fm_flags f) FMT_CONTCNTONERR, f).

Definition fmt_write_char (ch : Z) (f : fmt) : fmt :=
  let '(ok, f) := try_char ch f in if ok then count_chars 1 f else set_error f.

Definition fmt_write_string (str : list Z) (f : fmt) : fmt :=
  let len := Z.of_nat (length str) in
  let '(ok, f) :=
    if negb (has (fm_flags f) FMT_HASERR) then let '(r, s) := write_cb (stream f) str in (r =? len, set_stream s f)
    else (has (fm_flags f) FMT_CONTCNTONERR, f) in
  if ok then count_chars len f else set_error f.

(** [while (i < count)]: with an error that is not ignored the loop does not end.
    One round more than [count] is the one in which an error is found. *)
Fixpoint rep_loop (fuel : nat) (ch i count : Z) (f : fmt) : option (Z * fmt) :=
  match fuel with
  | O => None
  | Datatypes.S fuel =>
      if i <? count then
        let '(ok, f) := try_char ch f in
        if ok then rep_loop fuel ch (i + 1) count f else rep_loop fuel ch i count (set_error f)
      else Some (i, f)
  end.

Definition fmt_write_char_rep (ch count : Z) (f : fmt) : option fmt :=
  '(i, f) ← rep_loop (Z.to_nat count + 2) ch 0 count f;
  Some (count_chars i f).

(** ** Conversion specifications *)

(** The length modifiers of libc: intmax_t has 64 bits, ssize_t and ptrdiff_t 32. *)
Definition parse_length_mod (format : list Z) : length_mod * list Z :=
  match format with
  | 108 :: 108 :: format => (FMT_LM_ll, format)
  | 108 :: format => (FMT_LM_l, format)
  | 104 :: 104 :: format => (FMT_LM_hh, format)
  | 104 :: format => (FMT_LM_h, format)
  | 106 :: format => (FMT_LM_ll, format)
  | 122 :: format => (FMT_LM_none, format)
  | 116 :: format => (FMT_LM_none, format)
  | 76 :: format => (FMT_LM_L, format)
  | _ => (FMT_LM_none, format)
  end.

Definition fmt_atoi (str : list Z) : Z * list Z :=
  let '(e, r, str_end) := strtoi32 str 10 in (if is_ok e then r else 0, default str str_end).

(** The flags and the rest of the format; the last result says whether the format
    ends there. *)
Fixpoint parse_flags (format : list Z) (flags : Z) : Z * list Z * bool :=
  match format with
  | [] => (flags, [], true)
  | ch :: format' =>
      if ch =? 45 then parse_flags format' (Z.lor flags FMT_LEFTJUST)
      else if ch =? 43 then parse_flags format' (Z.lor flags FMT_FORCESIGN)
      else if ch =? 32 then parse_flags format' (Z.lor flags FMT_SPACEIFPOS)
      else if ch =? 35 then parse_flags format' (Z.lor flags FMT_ALTFORM)
      else if ch =? 48 then parse_flags format' (Z.lor flags FMT_PADZEROS)
      else (flags, format, false)
  end.

Definition parse_conv_spec (format : list Z) (ap : list va_value) : option (fmt_cspec * list Z * list va_value) :=
  let '(flags, format, ended) := parse_flags format 0 in
  if ended then Some (MkSpec 0 0 FMT_LM_none flags, format, ap)
  else
    let ch := ch_at format 0 in
    '(width, format, ap) ←
      (if ch =? 42 then '(v, ap) ← arg_int ap; Some (s32 v, drop 1 format, ap)
       else if (49 <=? ch) && (ch <=? 57) then let '(v, format) := fmt_atoi format in Some (v, format, ap)
       else Some (0, format, ap));
    '(p, flags, format, ap) ←
      (if ch_at format 0 =? 46 then
         let format := drop 1 format in
         let ch := ch_at format 0 in
         '(p, format, ap) ←
           (if ch =? 42 then '(v, ap) ← arg_int ap; Some (s32 v, drop 1 format, ap)
            else if (48 <=? ch) && (ch <=? 57) then let '(v, format) := fmt_atoi format in Some (v, format, ap)
            else Some (0, format, ap));
         Some (p, Z.lor flags FMT_HASPREC, format, ap)
       else Some (0, flags, format, ap));
    let '(lm, format) := parse_length_mod format in
    Some (MkSpec width p lm flags, format, ap).

(** ** Fields *)

Definition spaces (count : Z) (cond : bool) (f : fmt) : option fmt :=
  if (0 <? count) && cond then fmt_write_char_rep 32 count f else Some f.

(** [buf] is a sign and the digits. *)
Definition format_int_field (buf : list Z) (f : fmt) : option fmt :=
  let spec := fm_spec f in
  let fl := cs_flags spec in
  let digits := drop 1 buf in
  let nDigits := Z.of_nat (length buf) - 1 in
  let nLeadingZeros := if has fl FMT_HASPREC then Z.max (prec spec - nDigits) 0 else 0 in
  let isEmpty := has fl FMT_HASPREC && (prec spec =? 0) && (ch_at digits 0 =? 48) && (nDigits =? 1) in
  let '(sign, nSign) :=
    if negb (has fl FMT_FORCESIGN) && (ch_at buf 0 =? 43) then (if has fl FMT_SPACEIFPOS then (32, 1) else (0, 0)) else (ch_at buf 0, 1) in
  let slen := nSign + nLeadingZeros + nDigits in
  let nspaces := if slen <? min_field_width spec then min_field_width spec - slen else 0 in
  let '(nLeadingZeros, nspaces) :=
    if has fl FMT_PADZEROS && negb (has fl FMT_HASPREC) && negb (has fl FMT_LEFTJUST) then (nspaces, 0) else (nLeadingZeros, nspaces) in
  f ← spaces nspaces (negb (has fl FMT_LEFTJUST)) f;
  let f := if 0 <? nSign then fmt_write_char sign f else f in
  f ← (if isEmpty then Some f
       else
         f ← (if 0 <? nLeadingZeros then fmt_write_char_rep 48 nLeadingZeros f else Some f);
         Some (fmt_write_string digits f));
  spaces nspaces (has fl FMT_LEFTJUST) f.

(** The case of base 2 falls through to that of base 8. *)
Definition radix_chars (base : Z) (isUppercase : bool) : list Z :=
  if (base =? 2) || (base =? 8) then [48] else if base =? 16 then [48; if isUppercase then 88 else 120] else [].

Definition format_uint_field (base : Z) (isUppercase : bool) (buf : list Z) (f : fmt) : option fmt :=
  let spec := fm_spec f in
  let fl := cs_flags spec in
  let len := Z.of_nat (length buf) in
  let nLeadingZeros := if has fl FMT_HASPREC then s32 (if 0 <? u32 (prec spec - len) then u32 (prec spec - len) else 0) else 0 in
  let radixChars := if has fl FMT_ALTFORM then radix_chars base isUppercase else [] in
  let isEmpty := has fl FMT_HASPREC && (prec spec =? 0) && (ch_at buf 0 =? 48) && (len =? 1) in
  let slen := s32 (u32 (Z.of_nat (length radixChars) + nLeadingZeros + len)) in
  let nspaces := if slen <? min_field_width spec then min_field_width spec - slen else 0 in
  let '(nLeadingZeros, nspaces) :=
    if has fl FMT_PADZEROS && negb (has fl FMT_HASPREC) && negb (has fl FMT_LEFTJUST) then (nspaces, 0) else (nLeadingZeros, nspaces) in
  f ← spaces nspaces (negb (has fl FMT_LEFTJUST)) f;
  f ← (if negb isEmpty then
         let f := fold_left (fun f ch => fmt_write_char ch f) radixChars f in
         f ← (if 0 <? nLeadingZeros then fmt_write_char_rep 48 nLeadingZeros f else Some f);
         Some (fmt_write_string buf f)
       else Some (if base =? 8 then fmt_write_char 48 f else f));
  spaces nspaces (has fl FMT_LEFTJUST) f.

Definition format_char (f : fmt) (ap : list va_value) : option (fmt * list va_value) :=
  let spec := fm_spec f in
  '(v, ap) ← arg_int ap;
  let nspaces := if 1 <? min_field_width spec then min_field_width spec - 1 else 0 in
  f ← spaces nspaces (has (cs_flags spec) FMT_LEFTJUST) f;
  f ← spaces nspaces (negb (has (cs_flags spec) FMT_LEFTJUST)) (fmt_write_char (u8 v) f);
  Some (f, ap).

Definition format_string (f : fmt) (ap : list va_value) : option (fmt * list va_value) :=
  let spec := fm_spec f in
  let hasprec := has (cs_flags spec) FMT_HASPREC in
  '(str, ap) ← arg_string ap;
  let slen := Z.of_nat (length str) in
  let flen := if hasprec || (0 <? min_field_width spec) then slen else 0 in
  let adj_flen := if hasprec then Z.min flen (u32 (prec spec)) else flen in
  let nspaces := if adj_flen <? u32 (min_field_width spec) then u32 (min_field_width spec - adj_flen) else 0 in
  f ← (if (0 <? nspaces) && has (cs_flags spec) FMT_LEFTJUST then fmt_write_char_rep 32 (s32 nspaces) f else Some f);
  let f := fmt_write_string (take (Z.to_nat (if hasprec then Z.min slen adj_flen else slen)) str) f in
  f ← (if (0 <? nspaces) && negb (has (cs_flags spec) FMT_LEFTJUST) then fmt_write_char_rep 32 (s32 nspaces) f else Some f);
  Some (f, ap).

(** [g] is what the local arrays of the 64-bit division hold. *)
Definition format_int (g : garbage) (f : fmt) (ap : list va_value) : option (fmt * list va_value) :=
  '(text, ap) ←
    match f_lm (fm_spec f) with
    | FMT_LM_hh => '(v, ap) ← arg_int ap; a ← i32toa (s8 v) ia_sign_plus_minus; Some (i_text a, ap)
    | FMT_LM_h => '(v, ap) ← arg_int ap; a ← i32toa (s16 v) ia_sign_plus_minus; Some (i_text a, ap)
    | FMT_LM_none => '(v, ap) ← arg_int ap; a ← i32toa (s32 v) ia_sign_plus_minus; Some (i_text a, ap)
    | FMT_LM_l => '(v, ap) ← arg_long ap; a ← i32toa (s32 v) ia_sign_plus_minus; Some (i_text a, ap)
    | FMT_LM_ll => '(v, ap) ← arg_longlong ap; t ← i64toa g (s64 v) ia_sign_plus_minus; Some (t, ap)
    | FMT_LM_L => a ← i32toa 0 ia_sign_plus_minus; Some (i_text a, ap)
    end;
  f ← format_int_field text f;
  Some (f, ap).

Definition format_uint (g : garbage) (base : Z) (isUppercase : bool) (f : fmt) (ap : list va_value) : option (fmt * list va_value) :=
  '(text, ap) ←
    match f_lm (fm_spec f) with
    | FMT_LM_hh => '(v, ap) ← arg_int ap; a ← u32toa (u8 v) base isUppercase; Some (i_text a, ap)
    | FMT_LM_h => '(v, ap) ← arg_int ap; a ← u32toa (u16 v) base isUppercase; Some (i_text a, ap)
    | FMT_LM_none => '(v, ap) ← arg_int ap; a ← u32toa (u32 v) base isUppercase; Some (i_text a, ap)
    | FMT_LM_l => '(v, ap) ← arg_long ap; a ← u32toa (u32 v) base isUppercase; Some (i_text a, ap)
    | FMT_LM_ll => '(v, ap) ← arg_longlong ap; t ← u64toa g (u64 v) base isUppercase; Some (t, ap)
    | FMT_LM_L => a ← u32toa 0 base isUppercase; Some (i_text a, ap)
    end;
  f ← format_uint_field base isUppercase text f;
  Some (f, ap).

Definition format_ptr (f : fmt) (ap : list va_value) : option (fmt * list va_value) :=
  let spec := fm_spec f in
  let flags := Z.lor (cs_flags spec) (Z.lor (Z.lor FMT_ALTFORM FMT_PADZEROS) FMT_HASPREC) in
  '(v, ap) ← arg_pointer ap;
  a ← u32toa (u32 v) 16 false;
  f ← format_uint_field 16 false (i_text a) (set_spec (MkSpec (min_field_width spec) 8 (f_lm spec) flags) f);
  Some (f, ap).

Definition format_out_nchars (f : fmt) (ap : list va_value) : option (fmt * list va_value) :=
  '(p, ap) ← arg_pointer ap;
  let n := chars_written f in
  let store v := MkFmt (stream f) (chars_written f) (fm_spec f) (fm_flags f) (fm_stores f ++ [(p, f_lm (fm_spec f), v)]) in
  Some (match f_lm (fm_spec f) with
        | FMT_LM_hh => store (Z.min n (2 ^ 7 - 1))
        | FMT_LM_h => store (Z.min n (2 ^ 15 - 1))
        | FMT_LM_none => store (Z.min n (2 ^ 31 - 1))
        | FMT_LM_l => store (Z.min n (2 ^ 31 - 1))
        | FMT_LM_ll => store (Z.min n (2 ^ 63 - 1))
        | FMT_LM_L => f
        end, ap).

(** A formatter without the callback for further conversions.  The rest of the format
    is [None] if it is left behind its end. *)
Definition format_arg (g : garbage) (f : fmt) (format : list Z) (ap : list va_value) : option (fmt * option (list Z) * list va_value) :=
  match format with
  | [] => Some (f, None, ap)
  | ch :: format =>
      '(f, ap) ←
        (if ch =? 37 then Some (fmt_write_char 37 f, ap)
         else if ch =? 99 then format_char f ap
         else if ch =? 115 then format_string f ap
         else if (ch =? 100) || (ch =? 105) then format_int g f ap
         else if ch =? 111 then format_uint g 8 false f ap
         else if ch =? 98 then format_uint g 2 false f ap
         else if ch =? 66 then format_uint g 2 true f ap
         else if ch =? 120 then format_uint g 16 false f ap
         else if ch =? 88 then format_uint g 16 true f ap
         else if ch =? 117 then format_uint g 10 false f ap
         else if ch =? 110 then format_out_nchars f ap
         else if ch =? 112 then format_ptr f ap
         else Some (f, ap));
      Some (f, Some format, ap)
  end.

(** The loop of print: [pformat] is where the text that is not yet written starts and
    [n] its length. *)
Fixpoint print_loop (fuel : nat) (g : garbage) (pformat : list Z) (n : nat) (f : fmt) (ap : list va_value) : option (Z * fmt) :=
  match fuel with
  | O => None
  | Datatypes.S fuel =>
      if has (fm_flags f) FMT_HASERR then Some (if 0 <? chars_written f then Z.min (chars_written f) (2 ^ 31 - 1) else -1, f)
      else
        match drop n pformat with
        | [] =>
            let f := if (n =? 0)%nat then f else fmt_write_string (take n pformat) f in
            Some (Z.min (chars_written f) (2 ^ 31 - 1), f)
        | ch :: format =>
            if ch =? 37 then
              let f := if (n =? 0)%nat then f else fmt_write_string (take n pformat) f in
              '(spec, format, ap) ← parse_conv_spec format ap;
              '(f, format, ap) ← format_arg g (set_spec spec f) format ap;
              match format with
              | Some format => print_loop fuel g format 0 f ap
              | None => if has (fm_flags f) FMT_HASERR then print_loop fuel g [] 0 f ap else None
              end
            else print_loop fuel g pformat (n + 1) f ap
        end
  end.

Definition fmt_print (g : garbage) (format : list Z) (ap : list va_value) (f : fmt) : option (Z * fmt) :=
  print_loop (Datatypes.S (length format)) g format 0
    (MkFmt (stream f) 0 (fm_spec f) (Z.land (fm_flags f) (u8 (Z.lnot FMT_HASERR))) (fm_stores f)) ap.
End Fmt.
