(* ===== verification/FmtThm.v ===== *)
(** * Formatted output: what printf writes

    The formatter writes the text that the C standard gives for a format, as far as
    it follows the standard: the cases in which it does not are excluded one by one
    in [conv_ok]. *)

From Stdlib Require Import ZifyBool.
From S2P Require Import Prelude Numbers DivMod64 Fmt.

(** ** Numerals *)

Definition digit_char (up : bool) (r : Z) : option Z := (if up then g_digits_16_uc else g_digits_16_lc) !! Z.to_nat r.

(** The digits of a number in base [b]. *)
Definition numeral (b : Z) (up : bool) (n : Z) : list Z := default [] (put_digits 65 (digit_char up) (udiv b) n []).

Lemma put_digits_ext b room ds ds' next next' val acc :
  2 <= b -> (forall r, 0 <= r < b -> ds r = ds' r) -> (forall v, 0 <= v -> next v = udiv b v) -> (forall v, 0 <= v -> next' v = udiv b v) -> 0 <= val ->
  put_digits room ds next val acc = put_digits room ds' next' val acc.
Proof.
  intros Hb Hds Hn Hn'. revert val acc. induction room as [|room IH]; intros val acc Hv; [done|]. cbn [put_digits]. rewrite Hn, Hn' by done. unfold udiv.
  rewrite Hds by (apply Z.mod_pos_bound; lia). destruct (ds' (val mod b)) as [ch|]; [|done]. cbn. destruct (_ =? 0); [done|]. apply IH, Z.div_pos; lia.
Qed.

Lemma put_digits_more room room' ds next val acc t : put_digits room ds next val acc = Some t -> (room <= room')%nat -> put_digits room' ds next val acc = Some t.
Proof.
  revert room' val acc. induction room as [|room IH]; intros room' val acc H Hle; [done|]. destruct room' as [|room']; [lia|]. cbn [put_digits] in *.
  destruct (next val) as [r q]. destruct (ds r); [|done]. cbn in *. destruct (q =? 0); [done|]. apply IH; [done|lia].
Qed.

Lemma digit_char_of up r : 0 <= r < 16 -> exists ch, digit_char up r = Some ch /\ digit_of ch = Some r.
Proof.
  intros Hr. assert (Hc : forallb (fun r => match digit_char up r with Some ch => bool_decide (digit_of ch = Some r) | None => false end) (bytes_upto 16) = true)
    by (destruct up; vm_compute; reflexivity).
  apply (bytes_upto_all 16 _ r) in Hc; [|lia]. cbv beta in Hc. destruct (digit_char up r) as [ch|]; [|done]. exists ch. split; [done|]. by apply bool_decide_eq_true in Hc.
Qed.

(** The numeral has the value of the number, and no zero in front. *)
Lemma numeral_spec b up n :
  2 <= b <= 16 -> 0 <= n < 2 ^ 64 ->
  put_digits 65 (digit_char up) (udiv b) n [] = Some (numeral b up n) /\
  exists dl, digits_then b (numeral b up n) dl [] /\ number b 0 dl = n /\ (0 < length (numeral b up n))%nat /\ no_leading_zero dl /\
    (forall k, (k <> 0)%nat -> n < b ^ Z.of_nat k -> (length (numeral b up n) <= k)%nat).
Proof.
  intros Hb Hn. destruct (put_digits_spec 65 b (digit_char up) (udiv b) n []) as (cs & dl & E & Hd & Ev & Hl & Hk & Hz & _).
  - lia.
  - done.
  - intros r Hr. apply digit_char_of. lia.
  - split; [lia|]. eapply Z.lt_le_trans; [|apply (Z.pow_le_mono_l 2 b); lia]. cbn. lia.
  - done.
  - rewrite app_nil_r in E. unfold numeral. rewrite E. cbn [default from_option id]. split; [done|]. exists dl. by split_and!.
Qed.

Lemma numeral_put b up n room ds next :
  2 <= b <= 16 -> 0 <= n < 2 ^ 64 -> (room <> 0)%nat -> n < b ^ Z.of_nat room ->
  (forall r, 0 <= r < b -> ds r = digit_char up r) -> (forall v, 0 <= v -> next v = udiv b v) -> (room <= 65)%nat ->
  put_digits room ds next n [] = Some (numeral b up n).
Proof.
  intros Hb Hn Hr Hlt Hds Hnext H65. rewrite (put_digits_ext b room ds (digit_char up) next (udiv b)) by (done || lia).
  destruct (put_digits_spec room b (digit_char up) (udiv b) n []) as (cs & dl & E & _); [lia|done|intros r Hr'; apply digit_char_of; lia|lia|done|].
  rewrite app_nil_r in E. rewrite E. f_equal. apply (put_digits_more _ 65) in E; [|done]. destruct (numeral_spec b up n Hb Hn) as [E' _]. congruence.
Qed.

Definition radix_ok (b : Z) : Prop := b = 2 \/ b = 8 \/ b = 10 \/ b = 16.

Lemma dec_digit r : 0 <= r < 10 -> Some (48 + r) = digit_char false r.
Proof.
  intros Hr. assert (Hc : forallb (fun r => bool_decide (Some (48 + r) = digit_char false r)) (bytes_upto 10) = true) by (vm_compute; reflexivity).
  apply (bytes_upto_all 10 _ r) in Hc; [|lia]. by apply bool_decide_eq_true in Hc.
Qed.

Lemma i32toa_text v :
  - 2 ^ 31 <= v < 2 ^ 31 -> exists a, i32toa v ia_sign_plus_minus = Some a /\ i_text a = (if v <? 0 then 45 else 43) :: numeral 10 false (Z.abs v).
Proof.
  intros Hv. unfold i32toa. destruct (Z.eqb_spec v (- 2 ^ 31)) as [->|Hne]; [eexists; split; [done|by vm_compute]|].
  set (n := if v <? 0 then - v else v). assert (Hn : n = Z.abs v) by (unfold n; destruct (Z.ltb_spec v 0); lia). rewrite Hn.
  assert (E : put_digits (I32A_BUFFER_SIZE - 1) (fun rem => Some (48 + rem)) (udiv 10) (Z.abs v) [] = Some (numeral 10 false (Z.abs v))).
  { apply numeral_put; [lia|lia|done|change (Z.of_nat (I32A_BUFFER_SIZE - 1)) with 33; lia|apply dec_digit|done|unfold I32A_BUFFER_SIZE; lia]. }
  rewrite (bind_some E). destruct (numeral_spec 10 false (Z.abs v)) as (_ & dl & _ & _ & _ & _ & Hlen); [lia|lia|]. specialize (Hlen 10%nat ltac:(done) ltac:(lia)).
  destruct (v <? 0); cbn [app length]; (destruct (Nat.leb_spec (S (length (numeral 10 false (Z.abs v)))) (I32A_BUFFER_SIZE - 1)); [by eexists|unfold I32A_BUFFER_SIZE in *; lia]).
Qed.

Lemma udiv_bits b k v : b = 2 ^ k -> 0 <= k -> 0 <= v -> (Z.land v (Z.ones k), Z.shiftr v k) = udiv b v.
Proof. intros -> Hk Hv. unfold udiv. by rewrite Z.land_ones, Z.shiftr_div_pow2 by lia. Qed.

Lemma pow_room b room n : radix_ok b -> n < 2 ^ Z.of_nat room -> n < b ^ Z.of_nat room.
Proof. intros Hb Hn. eapply Z.lt_le_trans; [exact Hn|]. apply Z.pow_le_mono_l. unfold radix_ok in Hb. lia. Qed.

Lemma u32toa_text v b up : radix_ok b -> 0 <= v < 2 ^ 32 -> exists a, u32toa v b up = Some a /\ i_text a = numeral b up v.
Proof.
  intros Hb Hv. unfold u32toa. match goal with |- context [put_digits _ ?d ?f v []] => assert (E : put_digits (I32A_BUFFER_SIZE - 1) d f v [] = Some (numeral b up v)) end.
  { apply numeral_put; [unfold radix_ok in Hb; lia|lia|done|apply pow_room; [done|change (Z.of_nat (I32A_BUFFER_SIZE - 1)) with 33; lia]|by intros r _; destruct up| |unfold I32A_BUFFER_SIZE; lia].
    intros w Hw. destruct Hb as [->|[->|[->| ->]]]; cbn [Z.eqb Pos.eqb]; [by apply (udiv_bits 2 1)|done|done|by apply (udiv_bits 16 4)]. }
  rewrite (bind_some E). by eexists.
Qed.

Lemma put_digits64_eq B b room ds next val acc :
  2 <= b -> (forall v, 0 <= v < B -> next v = Some (udiv b v)) -> 0 <= val < B -> put_digits64 room ds next val acc = put_digits room ds (udiv b) val acc.
Proof.
  intros Hb Hn. revert val acc. induction room as [|room IH]; intros val acc Hv; [done|]. cbn [put_digits64 put_digits]. rewrite Hn by done. unfold udiv. cbn [mbind option_bind].
  destruct (ds (val mod b)); [|done]. cbn. destruct (_ =? 0); [done|]. apply IH. split; [apply Z.div_pos; lia|]. apply Z.div_lt_upper_bound; nia.
Qed.

Lemma halfwords_pos v : 0 < v < 2 ^ 64 -> (0 < halfwords 4 v)%nat.
Proof.
  intros Hv. destruct (halfwords_spec 4 v) as (E & _ & _). rewrite (halfwords_value 4), Z.mod_small in E by (change (b16 ^ Z.of_nat 4) with (2 ^ 64); lia).
  destruct (halfwords 4 v); [|lia]. cbn in E. lia.
Qed.

(** Division by the radix loses no remainder. *)
Lemma small_divisor v b : radix_ok b -> 0 <= v < 2 ^ 64 -> (if (halfwords 4 v <? halfwords 4 b)%nat then 0 else v mod b) = v mod b.
Proof.
  intros Hb Hv. assert (halfwords 4 b = 1%nat) as -> by (destruct Hb as [->|[->|[->| ->]]]; by vm_compute). destruct (Nat.ltb_spec (halfwords 4 v) 1); [|done].
  destruct (decide (v = 0)) as [->|]; [by rewrite Z.mod_0_l by (unfold radix_ok in Hb; lia)|]. pose proof (halfwords_pos v). lia.
Qed.

Lemma i64toa_text g v : arrays_ok g -> - 2 ^ 63 <= v < 2 ^ 63 -> i64toa g v ia_sign_plus_minus = Some ((if v <? 0 then 45 else 43) :: numeral 10 false (Z.abs v)).
Proof.
  intros Hg Hv. unfold i64toa. destruct (Z.eqb_spec v (- 2 ^ 63)) as [->|Hne]; [by vm_compute|].
  set (n := if v <? 0 then - v else v). assert (Hn : n = Z.abs v) by (unfold n; destruct (Z.ltb_spec v 0); lia). rewrite Hn.
  assert (E : put_digits64 (I64A_BUFFER_SIZE - 1) (fun rem => Some (48 + rem)) (fun w => '(q, r) ← divmods64 g w 10; Some (r, q)) (Z.abs v) [] = Some (numeral 10 false (Z.abs v))).
  { rewrite (put_digits64_eq (2 ^ 63) 10); [|lia| |lia].
    - apply numeral_put; [lia|lia|done|change (Z.of_nat (I64A_BUFFER_SIZE - 1)) with 65; lia|apply dec_digit|done|unfold I64A_BUFFER_SIZE; lia].
    - intros w Hw. rewrite (bind_some (divmods64_spec g w 10 Hg ltac:(lia) ltac:(lia) ltac:(lia))). rewrite Z.quot_div_nonneg, Z.rem_mod_nonneg by lia.
      rewrite !Z.abs_eq by lia. rewrite small_divisor by (unfold radix_ok; lia). unfold udiv. rewrite s64_small; [done|]. split; [|apply Z.div_lt_upper_bound; lia].
      pose proof (Z.div_pos w 10). lia. }
  rewrite (bind_some E). destruct (numeral_spec 10 false (Z.abs v)) as (_ & dl & _ & _ & _ & _ & Hlen); [lia|lia|]. specialize (Hlen 20%nat ltac:(done) ltac:(lia)).
  destruct (v <? 0); cbn [app length]; (destruct (Nat.leb_spec (S (length (numeral 10 false (Z.abs v)))) (I64A_BUFFER_SIZE - 1)); [done|unfold I64A_BUFFER_SIZE in *; lia]).
Qed.

Lemma u64toa_text g v b up : arrays_ok g -> radix_ok b -> 0 <= v < 2 ^ 64 -> u64toa g v b up = Some (numeral b up v).
Proof.
  intros Hg Hb Hv. unfold u64toa. rewrite (put_digits64_eq (2 ^ 64) b); [|unfold radix_ok in Hb; lia| |lia].
  - apply numeral_put; [unfold radix_ok in Hb; lia|lia|done|apply pow_room; [done|change (Z.of_nat (I64A_BUFFER_SIZE - 1)) with 65; lia]|by intros r _; destruct up|done|unfold I64A_BUFFER_SIZE; lia].
  - intros w Hw. assert (Hland : forall k, 0 <= k <= 8 -> Z.land (u8 w) (Z.ones k) = Z.land w (Z.ones k)).
    { intros k Hk. unfold u8. rewrite <- Z.land_ones, <- Z.land_assoc by lia. f_equal. rewrite Z.land_comm, Z.land_ones by lia. apply Z.mod_small. rewrite Z.ones_equiv.
      pose proof (Z.pow_le_mono_r 2 k 8). lia. }
    destruct Hb as [->|[->|[->| ->]]]; cbn [Z.eqb Pos.eqb].
    + f_equal. change 1 with (Z.ones 1) at 1. rewrite Hland by lia. apply (udiv_bits 2 1); lia.
    + rewrite (bind_some (divmodu64_spec g w 8 Hg Hw ltac:(lia))), small_divisor by (unfold radix_ok; lia). done.
    + rewrite (bind_some (divmodu64_spec g w 10 Hg Hw ltac:(lia))), small_divisor by (unfold radix_ok; lia). done.
    + f_equal. change 15 with (Z.ones 4). rewrite Hland by lia. apply (udiv_bits 16 4); lia.
Qed.

(** ** Formats *)

(** A width is a number or an argument; a precision may also be an empty number. *)
Inductive width := WNone | WNum (cs : list Z) | WArg (n : Z).
Inductive precision := PNone | PNum (cs : list Z) | PArg (n : Z).

(** The conversion, with its letter, length modifier and argument. *)
Inductive kind :=
| KPercent
| KChar (v : Z)
| KString (s : list Z)
| KInt (ch : Z) (lm : length_mod) (v : Z)
| KUint (ch : Z) (lm : length_mod) (v : Z)
| KPointer (p : Z).

Record conv := Conv { c_flags : list Z; c_width : width; c_prec : precision; c_kind : kind }.

Definition cs_value (cs : list Z) : Z := number 10 0 ((fun ch => ch - 48) <$> cs).

Definition width_text (w : width) : list Z := match w with WNone => [] | WNum cs => cs | WArg _ => [42] end.
Definition prec_text (p : precision) : list Z := match p with PNone => [] | PNum cs => 46 :: cs | PArg _ => [46; 42] end.
Definition lm_text (lm : length_mod) : list Z :=
  match lm with FMT_LM_hh => [104; 104] | FMT_LM_h => [104] | FMT_LM_none => [] | FMT_LM_l => [108] | FMT_LM_ll => [108; 108] | FMT_LM_L => [76] end.
Definition kind_lm (k : kind) : length_mod := match k with KInt _ lm _ | KUint _ lm _ => lm | _ => FMT_LM_none end.
Definition kind_char (k : kind) : Z := match k with KPercent => 37 | KChar _ => 99 | KString _ => 115 | KInt ch _ _ | KUint ch _ _ => ch | KPointer _ => 112 end.

Definition conv_text (c : conv) : list Z :=
  c_flags c ++ width_text (c_width c) ++ prec_text (c_prec c) ++ lm_text (kind_lm (c_kind c)) ++ [kind_char (c_kind c)].

Definition width_args (w : width) : list va_value := match w with WArg n => [VInt n] | _ => [] end.
Definition prec_args (p : precision) : list va_value := match p with PArg n => [VInt n] | _ => [] end.
Definition int_arg (lm : length_mod) (v : Z) : va_value := match lm with FMT_LM_l => VLong v | FMT_LM_ll => VLongLong v | _ => VInt v end.
Definition kind_args (k : kind) : list va_value :=
  match k with KPercent => [] | KChar v => [VInt v] | KString s => [VString s] | KInt _ lm v | KUint _ lm v => [int_arg lm v] | KPointer p => [VPointer p] end.
Definition conv_args (c : conv) : list va_value := width_args (c_width c) ++ prec_args (c_prec c) ++ kind_args (c_kind c).

Definition flag_bit (ch : Z) : Z :=
  if ch =? 45 then FMT_LEFTJUST else if ch =? 43 then FMT_FORCESIGN else if ch =? 32 then FMT_SPACEIFPOS else if ch =? 35 then FMT_ALTFORM else FMT_PADZEROS.

Definition width_value (w : width) : Z := match w with WNone => 0 | WNum cs => cs_value cs | WArg n => n end.
Definition prec_value (p : precision) : Z := match p with PNone => 0 | PNum cs => cs_value cs | PArg n => n end.

Definition conv_flags (c : conv) : Z :=
  let fl := fold_left (fun a ch => Z.lor a (flag_bit ch)) (c_flags c) 0 in match c_prec c with PNone => fl | _ => Z.lor fl FMT_HASPREC end.
Definition conv_spec (c : conv) : fmt_cspec := MkSpec (width_value (c_width c)) (prec_value (c_prec c)) (kind_lm (c_kind c)) (conv_flags c).

Definition is_flag (ch : Z) : Prop := ch = 45 \/ ch = 43 \/ ch = 32 \/ ch = 35 \/ ch = 48.
Definition dec_char (ch : Z) : Prop := 48 <= ch <= 57.

Definition width_wf (w : width) : Prop :=
  match w with
  | WNone => True
  | WNum cs => Forall dec_char cs /\ 49 <= ch_at cs 0 /\ cs_value cs < 2 ^ 31
  | WArg n => 0 <= n < 2 ^ 31
  end.
Definition prec_wf (p : precision) : Prop :=
  match p with PNone => True | PNum cs => Forall dec_char cs /\ cs_value cs < 2 ^ 31 | PArg n => 0 <= n < 2 ^ 31 end.
Definition kind_wf (k : kind) : Prop :=
  match k with
  | KInt ch lm _ => ch ∈ [100; 105] /\ lm <> FMT_LM_L
  | KUint ch lm _ => ch ∈ [111; 98; 66; 120; 88; 117] /\ lm <> FMT_LM_L
  | _ => True
  end.
Definition conv_wf (c : conv) : Prop := Forall is_flag (c_flags c) /\ width_wf (c_width c) /\ prec_wf (c_prec c) /\ kind_wf (c_kind c).

(** ** Parsing a conversion specification *)

Lemma parse_flags_spec fs ch rest a :
  Forall is_flag fs -> ~ is_flag ch -> parse_flags (fs ++ ch :: rest) a = (fold_left (fun a ch => Z.lor a (flag_bit ch)) fs a, ch :: rest, false).
Proof.
  intros Hfs Hch. revert a. induction Hfs as [|f fs Hf Hfs IH]; intros a; cbn [app parse_flags fold_left].
  - unfold is_flag in Hch. destruct (Z.eqb_spec ch 45), (Z.eqb_spec ch 43), (Z.eqb_spec ch 32), (Z.eqb_spec ch 35), (Z.eqb_spec ch 48); (done || lia).
  - destruct Hf as [->|[->|[->|[->| ->]]]]; apply IH.
Qed.

Lemma digit_of_dec ch : dec_char ch -> digit_of ch = Some (ch - 48).
Proof. intros H. unfold digit_of. rewrite isdigit_spec. unfold dec_char in H. by replace ((48 <=? ch) && (ch <=? 57)) with true by lia. Qed.

(** What may follow a number. *)
Definition no_digit (ch : Z) : Prop := match digit_of ch with Some d => 10 <= d | None => True end.

Lemma atoi_spec cs ch rest :
  Forall dec_char cs -> cs <> [] -> no_digit ch -> cs_value cs < 2 ^ 31 -> fmt_atoi (cs ++ ch :: rest) = (cs_value cs, ch :: rest).
Proof.
  intros Hcs Hne Hch Hv. unfold fmt_atoi.
  assert (Hd : digits_then 10 cs ((fun ch => ch - 48) <$> cs) (ch :: rest)).
  { split; [|exact Hch]. clear -Hcs. induction Hcs as [|c cs Hc _ IH]; cbn; constructor; [|done]. rewrite digit_of_dec by done. unfold dec_char in Hc. split; [done|lia]. }
  pose proof (strtoi32_reads 10 [] None cs _ (ch :: rest) ltac:(lia) (Forall_nil_2 _) Hd Hne) as E. cbn [sign_text app] in E. rewrite E.
  - fold (cs_value cs). by replace (2 ^ 31 - 1 <? cs_value cs) with false by lia.
  - unfold skip_prefix. cbn [Z.eqb orb andb]. done.
Qed.

Lemma cs_value_pos cs : Forall dec_char cs -> 0 <= cs_value cs.
Proof. intros Hcs. apply number_ge; [lia..|]. apply Forall_fmap. eapply Forall_impl; [exact Hcs|]. unfold dec_char. cbn. lia. Qed.

(** A character after the flags, the width and the precision. *)
Definition stop_char (ch : Z) : Prop := ~ is_flag ch /\ no_digit ch /\ ~ dec_char ch /\ ch <> 42 /\ ch <> 46.

Lemma tail_starts k rest : kind_wf k -> exists ch t, lm_text (kind_lm k) ++ [kind_char k] ++ rest = ch :: t /\ stop_char ch.
Proof.
  assert (Hs : Forall stop_char [37; 99; 115; 100; 105; 111; 98; 66; 120; 88; 117; 112; 104; 108; 76]).
  { repeat constructor; unfold is_flag, dec_char; (done || lia || (vm_compute; done)). }
  rewrite Forall_forall in Hs. intros Hk. destruct k as [| | |ch lm v|ch lm v|]; cbn; try (do 2 eexists; split; [done|apply Hs; set_solver]).
  all: destruct Hk as [Hch _]; destruct lm; do 2 eexists; (split; [done|]); apply Hs; set_solver.
Qed.

Lemma parse_lm k rest : kind_wf k -> parse_length_mod (lm_text (kind_lm k) ++ [kind_char k] ++ rest) = (kind_lm k, kind_char k :: rest).
Proof.
  intros Hk. destruct k as [| | |ch lm v|ch lm v|]; cbn [kind_lm kind_char lm_text app]; try done.
  all: destruct Hk as [Hch _]; rewrite !elem_of_cons, elem_of_nil in Hch; destruct lm; repeat (destruct Hch as [-> | Hch]; [reflexivity|]); done.
Qed.

(** The character where the width is expected, and where the precision is. *)
Lemma prec_starts p rest ch t : rest = ch :: t -> stop_char ch -> exists ch' t', prec_text p ++ rest = ch' :: t' /\ ~ is_flag ch' /\ no_digit ch' /\ ~ dec_char ch' /\ ch' <> 42.
Proof.
  intros -> (? & ? & ? & ? & ?). destruct p as [|cs|n]; cbn; do 2 eexists; (split; [done|]); unfold is_flag, dec_char; by split_and!; try lia.
Qed.

Lemma number_stage cs rest ch t (ap : list va_value) :
  Forall dec_char cs -> cs_value cs < 2 ^ 31 -> rest = ch :: t -> no_digit ch -> ~ dec_char ch -> ch <> 42 ->
  let c0 := ch_at (cs ++ rest) 0 in
  c0 <> 42 /\ ((48 <=? c0) && (c0 <=? 57) = bool_decide (cs <> [])) /\ (cs <> [] -> fmt_atoi (cs ++ rest) = (cs_value cs, rest)).
Proof.
  intros Hcs Hv -> Hnd Hdc H42. destruct cs as [|d cs]; cbn [app ch_at].
  - unfold dec_char in Hdc. change (ch_at (ch :: t) 0) with ch. split_and!; [done| |done]. rewrite bool_decide_eq_false_2 by naive_solver. lia.
  - change (ch_at (d :: cs ++ ch :: t) 0) with d. inversion Hcs as [|? ? Hd]; subst. unfold dec_char in Hd. rewrite bool_decide_eq_true_2 by done. split_and!; [lia|lia|].
    intros _. by apply (atoi_spec (d :: cs)).
Qed.

Lemma width_stage w rest ch t ap :
  width_wf w -> rest = ch :: t -> no_digit ch -> ~ dec_char ch -> ch <> 42 ->
  (if ch_at (width_text w ++ rest) 0 =? 42 then '(v, ap) ← arg_int (width_args w ++ ap); Some (s32 v, drop 1 (width_text w ++ rest), ap)
   else if (49 <=? ch_at (width_text w ++ rest) 0) && (ch_at (width_text w ++ rest) 0 <=? 57)
     then let '(v, format) := fmt_atoi (width_text w ++ rest) in Some (v, format, width_args w ++ ap)
     else Some (0, width_text w ++ rest, width_args w ++ ap)) = Some (width_value w, rest, ap).
Proof.
  intros Hw Hr Hnd Hdc H42. destruct w as [|cs|n]; cbn [width_text width_args width_value app].
  - subst rest. change (ch_at (ch :: t) 0) with ch. rewrite (proj2 (Z.eqb_neq ch 42) H42). unfold dec_char in Hdc. by replace ((49 <=? ch) && (ch <=? 57)) with false by lia.
  - destruct Hw as (Hcs & H49 & Hv). destruct (number_stage cs rest ch t ap Hcs Hv Hr Hnd Hdc H42) as (N42 & Nd & Na). rewrite (proj2 (Z.eqb_neq _ 42) N42).
    destruct cs as [|d cs]; [cbn in H49; lia|]. rewrite bool_decide_eq_true_2 in Nd by done. change (ch_at (d :: cs) 0) with d in H49. change (ch_at ((d :: cs) ++ rest) 0) with d in Nd |- *.
    replace ((49 <=? d) && (d <=? 57)) with true by lia. by rewrite Na.
  - change (ch_at (42 :: rest) 0) with 42. cbn. by rewrite s32_small by (cbn in Hw; lia).
Qed.

Lemma prec_stage p flags rest ch t ap :
  prec_wf p -> rest = ch :: t -> stop_char ch ->
  (if ch_at (prec_text p ++ rest) 0 =? 46 then
     let format := drop 1 (prec_text p ++ rest) in
     let ch := ch_at format 0 in
     '(p, format, ap) ←
       (if ch =? 42 then '(v, ap) ← arg_int (prec_args p ++ ap); Some (s32 v, drop 1 format, ap)
        else if (48 <=? ch) && (ch <=? 57) then let '(v, format) := fmt_atoi format in Some (v, format, prec_args p ++ ap)
        else Some (0, format, prec_args p ++ ap));
     Some (p, Z.lor flags FMT_HASPREC, format, ap)
   else Some (0, flags, prec_text p ++ rest, prec_args p ++ ap)) =
  Some (prec_value p, match p with PNone => flags | _ => Z.lor flags FMT_HASPREC end, rest, ap).
Proof.
  intros Hp Hr (Hf & Hnd & Hdc & H42 & H46). destruct p as [|cs|n]; cbn [prec_text prec_args prec_value app].
  - subst rest. change (ch_at (ch :: t) 0) with ch. by rewrite (proj2 (Z.eqb_neq ch 46) H46).
  - destruct Hp as (Hcs & Hv). destruct (number_stage cs rest ch t ap Hcs Hv Hr Hnd Hdc H42) as (N42 & Nd & Na). change (ch_at (46 :: cs ++ rest) 0) with 46. change (drop 1 (46 :: cs ++ rest)) with (cs ++ rest).
    cbn zeta. change (46 =? 46) with true. cbn match. rewrite (proj2 (Z.eqb_neq _ 42) N42), Nd. destruct cs as [|d cs]; [done|]. rewrite bool_decide_eq_true_2 by done. by rewrite Na.
  - change (ch_at (46 :: 42 :: rest) 0) with 46. cbn. by rewrite s32_small by (cbn in Hp; lia).
Qed.

Lemma parse_spec c rest ap : conv_wf c -> parse_conv_spec (conv_text c ++ rest) (conv_args c ++ ap) = Some (conv_spec c, kind_char (c_kind c) :: rest, kind_args (c_kind c) ++ ap).
Proof.
  intros (Hfs & Hw & Hp & Hk). unfold conv_text, conv_args. rewrite <- !app_assoc. set (tail := lm_text _ ++ _).
  destruct (tail_starts (c_kind c) rest Hk) as (ch & t & Et & Hch). fold tail in Et.
  destruct (prec_starts (c_prec c) tail ch t Et Hch) as (ch1 & t1 & Ep & Hf1 & Hd1 & Hdc1 & Hs1). set (ptail := prec_text _ ++ _) in *.
  unfold parse_conv_spec.
  assert (Ew : exists ch2 t2, width_text (c_width c) ++ ptail = ch2 :: t2 /\ ~ is_flag ch2).
  { rewrite Ep. destruct (c_width c) as [|[|d cs]|n]; cbn in Hw |- *; do 2 eexists; (split; [done|]); try done; unfold is_flag; lia. }
  destruct Ew as (ch2 & t2 & Ew & Hf2). rewrite Ew, parse_flags_spec, <- Ew by done. cbn match. cbn zeta.
  rewrite (bind_some (width_stage (c_width c) ptail ch1 t1 _ Hw Ep Hd1 Hdc1 Hs1)). cbn match. unfold ptail.
  rewrite (bind_some (prec_stage (c_prec c) _ tail ch t _ Hp Et Hch)). cbn match. unfold tail. rewrite parse_lm by done.
  unfold conv_spec, conv_flags. by destruct (c_prec c).
Qed.

(** ** What the standard says is printed *)

(** The argument after its conversion to the type of the length modifier. *)
Definition int_value (lm : length_mod) (v : Z) : Z := match lm with FMT_LM_hh => s8 v | FMT_LM_h => s16 v | FMT_LM_ll => s64 v | _ => s32 v end.
Definition uint_value (lm : length_mod) (v : Z) : Z := match lm with FMT_LM_hh => u8 v | FMT_LM_h => u16 v | FMT_LM_ll => u64 v | _ => u32 v end.

Definition radix_of (ch : Z) : Z := if ch =? 111 then 8 else if (ch =? 98) || (ch =? 66) then 2 else if (ch =? 120) || (ch =? 88) then 16 else 10.
Definition upper (ch : Z) : bool := (ch =? 66) || (ch =? 88).

(** A field of the width [w] in the words of the standard: the flag 0 fills up with
    zeros between the sign or prefix and the digits, but not together with the flag -
    or with a precision. *)
Definition c_field (fl w : Z) (prefix body : list Z) : list Z :=
  let n := Z.to_nat (w - Z.of_nat (length (prefix ++ body))) in
  if has fl FMT_LEFTJUST then prefix ++ body ++ replicate n 32
  else if has fl FMT_PADZEROS && negb (has fl FMT_HASPREC) then prefix ++ replicate n 48 ++ body
  else replicate n 32 ++ prefix ++ body.

(** The precision is the least number of digits. *)
Definition c_digits (fl p : Z) (digits : list Z) : list Z :=
  if has fl FMT_HASPREC then replicate (Z.to_nat (p - Z.of_nat (length digits))) 48 ++ digits else digits.

Definition c_sign (fl sign : Z) : list Z :=
  if sign =? 45 then [45] else if has fl FMT_FORCESIGN then [43] else if has fl FMT_SPACEIFPOS then [32] else [].

(** The precision of a string is the greatest number of characters. *)
Definition c_string (fl p : Z) (s : list Z) : list Z := if has fl FMT_HASPREC then take (Z.to_nat p) s else s.

(** The alternative form of a number that is not zero. *)
Definition c_prefix (fl base : Z) (up : bool) : list Z :=
  if has fl FMT_ALTFORM then (if base =? 16 then [48; if up then 88 else 120] else if base =? 8 then [48] else []) else [].

Definition render (c : conv) : list Z :=
  let fl := conv_flags c in
  let w := width_value (c_width c) in
  let p := prec_value (c_prec c) in
  match c_kind c with
  | KPercent => [37]
  | KChar v => c_field (Z.land fl FMT_LEFTJUST) w [] [u8 v]
  | KString s => c_field (Z.land fl FMT_LEFTJUST) w [] (c_string fl p s)
  | KInt _ lm v => let n := int_value lm v in c_field fl w (c_sign fl (if n <? 0 then 45 else 43)) (c_digits fl p (numeral 10 false (Z.abs n)))
  | KUint ch lm v => c_field fl w (c_prefix fl (radix_of ch) (upper ch)) (c_digits fl p (numeral (radix_of ch) (upper ch) (uint_value lm v)))
  | KPointer q => c_field (Z.lor fl FMT_HASPREC) w [48; 120] (c_digits FMT_HASPREC 8 (numeral 16 false (u32 q)))
  end.

(** Where the formatter prints what the standard says: characters and strings that
    fill their field, a signed zero without the precision 0, unsigned numbers with at
    most as many digits as the precision, and the alternative form of numbers that are
    not zero in the bases 16 and 8. *)
Definition conv_ok (c : conv) : Prop :=
  let fl := conv_flags c in
  let w := width_value (c_width c) in
  let p := prec_value (c_prec c) in
  match c_kind c with
  | KPercent => True
  | KChar v => w <= 1
  | KString s => w <= Z.of_nat (length (c_string fl p s))
  | KInt _ lm v => ~ (has fl FMT_HASPREC = true /\ p = 0 /\ int_value lm v = 0)
  | KUint ch lm v =>
      (has fl FMT_HASPREC = true -> Z.of_nat (length (numeral (radix_of ch) (upper ch) (uint_value lm v))) <= p < 2 ^ 30) /\
      (has fl FMT_ALTFORM = true -> radix_of ch <> 2 /\ uint_value lm v <> 0 /\ (radix_of ch = 8 -> has fl FMT_HASPREC = false))
  | KPointer _ => True
  end.

(** A format is text and conversions. *)
Inductive piece := PText (t : list Z) | PConv (c : conv).

Definition piece_text (x : piece) : list Z := match x with PText t => t | PConv c => 37 :: conv_text c end.
Definition piece_args (x : piece) : list va_value := match x with PText _ => [] | PConv c => conv_args c end.
Definition piece_render (x : piece) : list Z := match x with PText t => t | PConv c => render c end.
Definition piece_ok (x : piece) : Prop := match x with PText t => Forall (fun ch => ch <> 37) t | PConv c => conv_wf c /\ conv_ok c end.

(** *** The flags of a conversion *)

Lemma has_bit x k : 0 <= k -> has x (2 ^ k) = Z.testbit x k.
Proof.
  intros Hk. unfold has. assert (E : Z.land x (2 ^ k) = if Z.testbit x k then 2 ^ k else 0).
  { apply Z.bits_inj'. intros i Hi. rewrite Z.land_spec, Z.pow2_bits_eqb by done. destruct (Z.eqb_spec k i) as [->|Hne].
    - rewrite andb_true_r. destruct (Z.testbit x i); [by rewrite Z.pow2_bits_true|by rewrite Z.bits_0].
    - rewrite andb_false_r. destruct (Z.testbit x k); [rewrite Z.pow2_bits_false by lia; done|by rewrite Z.bits_0]. }
  rewrite E. pose proof (Z.pow_pos_nonneg 2 k). destruct (Z.testbit x k); lia.
Qed.

Lemma flags_testbit fs a k : Z.testbit (fold_left (fun a ch => Z.lor a (flag_bit ch)) fs a) k = Z.testbit a k || existsb (fun ch => Z.testbit (flag_bit ch) k) fs.
Proof.
  revert a. induction fs as [|ch fs IH]; intros a; cbn [fold_left existsb]; [by rewrite orb_false_r|]. rewrite IH, Z.lor_spec. by rewrite orb_assoc.
Qed.

(** A bit is set if its flag is in the text, that of the precision if there is one. *)
Lemma conv_flags_has c ch :
  Forall is_flag (c_flags c) -> is_flag ch ->
  has (conv_flags c) (flag_bit ch) = bool_decide (ch ∈ c_flags c) /\ has (conv_flags c) FMT_HASPREC = match c_prec c with PNone => false | _ => true end.
Proof.
  intros Hfs Hch. assert (Hk : exists k, flag_bit ch = 2 ^ k /\ 0 <= k < 5 /\ forall ch', is_flag ch' -> Z.testbit (flag_bit ch') k = (ch' =? ch) /\ Z.testbit (flag_bit ch') 5 = false).
  { destruct Hch as [->|[->|[->|[->| ->]]]]; [exists 0|exists 1|exists 2|exists 3|exists 4]; (split; [done|]); (split; [lia|]); intros ch' [->|[->|[->|[->| ->]]]]; done. }
  destruct Hk as (k & Ek & Hk & Hb). rewrite Ek, has_bit by lia. change FMT_HASPREC with (2 ^ 5). rewrite has_bit by lia. unfold conv_flags.
  assert (H5 : existsb (fun ch => Z.testbit (flag_bit ch) 5) (c_flags c) = false).
  { apply not_true_is_false. intros (x & Hx & Ht)%existsb_exists. rewrite Forall_forall in Hfs. destruct (Hb x) as [_ E]; [|congruence]. apply Hfs. by apply list_elem_of_In. }
  assert (Hx : existsb (fun ch => Z.testbit (flag_bit ch) k) (c_flags c) = bool_decide (ch ∈ c_flags c)).
  { clear H5. induction Hfs as [|x fs Hx Hfs IH]; [done|]. cbn [existsb]. rewrite IH, (proj1 (Hb x Hx)). apply eq_true_iff_eq. rewrite orb_true_iff, !bool_decide_eq_true, elem_of_cons, Z.eqb_eq. naive_solver. }
  assert (Hlor : Z.testbit FMT_HASPREC k = false) by (change FMT_HASPREC with (2 ^ 5); apply Z.pow2_bits_false; lia).
  destruct (c_prec c); rewrite ?Z.lor_spec, ?Hlor, !flags_testbit, !Z.bits_0, ?H5, Hx, ?orb_false_r; by cbn.
Qed.

Lemma c_field_full fl w prefix body : w <= Z.of_nat (length (prefix ++ body)) -> c_field fl w prefix body = prefix ++ body.
Proof. intros Hw. unfold c_field. replace (Z.to_nat _) with 0%nat by lia. cbn [replicate app]. rewrite !app_nil_r. by destruct (has fl FMT_LEFTJUST), (has fl FMT_PADZEROS && negb (has fl FMT_HASPREC)). Qed.

Lemma c_field_flags fl fl' w prefix body :
  has fl FMT_LEFTJUST = has fl' FMT_LEFTJUST -> has fl FMT_PADZEROS && negb (has fl FMT_HASPREC) = has fl' FMT_PADZEROS && negb (has fl' FMT_HASPREC) ->
  c_field fl w prefix body = c_field fl' w prefix body.
Proof. intros H1 H2. unfold c_field. by rewrite H1, H2. Qed.

Lemma int_value_range lm v : match lm with FMT_LM_ll => - 2 ^ 63 <= int_value lm v < 2 ^ 63 | _ => - 2 ^ 31 <= int_value lm v < 2 ^ 31 end.
Proof.
  destruct lm; cbn [int_value]; unfold s8, s16, s32, s64.
  - pose proof (Z.mod_pos_bound (v + 2 ^ 7) (2 ^ 8)). lia.
  - pose proof (Z.mod_pos_bound (v + 2 ^ 15) (2 ^ 16)). lia.
  - pose proof (Z.mod_pos_bound (v + 2 ^ 31) (2 ^ 32)). lia.
  - pose proof (Z.mod_pos_bound (v + 2 ^ 31) (2 ^ 32)). lia.
  - pose proof (Z.mod_pos_bound (v + 2 ^ 63) (2 ^ 64)). lia.
  - pose proof (Z.mod_pos_bound (v + 2 ^ 31) (2 ^ 32)). lia.
Qed.

Lemma uint_value_range lm v : match lm with FMT_LM_ll => 0 <= uint_value lm v < 2 ^ 64 | _ => 0 <= uint_value lm v < 2 ^ 32 end.
Proof.
  destruct lm; cbn [uint_value]; unfold u8, u16, u32, u64.
  - pose proof (Z.mod_pos_bound v (2 ^ 8)). lia.
  - pose proof (Z.mod_pos_bound v (2 ^ 16)). lia.
  - pose proof (Z.mod_pos_bound v (2 ^ 32)). lia.
  - pose proof (Z.mod_pos_bound v (2 ^ 32)). lia.
  - pose proof (Z.mod_pos_bound v (2 ^ 64)). lia.
  - pose proof (Z.mod_pos_bound v (2 ^ 32)). lia.
Qed.

Lemma numeral_len b up n k : radix_ok b -> 0 <= n < 2 ^ 64 -> (k <> 0)%nat -> n < b ^ Z.of_nat k -> numeral b up n <> [] /\ (length (numeral b up n) <= k)%nat.
Proof.
  intros Hb Hn Hk Hlt. destruct (numeral_spec b up n) as (_ & dl & _ & _ & Hpos & _ & Hlen); [unfold radix_ok in Hb; lia|done|]. split; [|auto]. intros E. rewrite E in Hpos. cbn in Hpos. lia.
Qed.

Lemma numeral_zero b up n : radix_ok b -> 0 <= n < 2 ^ 64 -> numeral b up n = [48] -> n = 0.
Proof.
  intros Hb Hn E. destruct (numeral_spec b up n) as (_ & dl & [Hd _] & Ev & _); [unfold radix_ok in Hb; lia|done|]. rewrite E in Hd.
  inversion Hd as [|? d ? ? [Hdg _] Hnil]; subst. inversion Hnil; subst. change (digit_of 48) with (Some 0) in Hdg. simplify_eq. cbn. lia.
Qed.

(** ** Output *)

(** A stream that takes what [fits]: [holds s l] says that [s] got the text [l] so far. *)
Class AcceptingStream (S : Type) {St : Stream S} := {
  holds : S -> list Z -> Prop;
  fits : list Z -> Prop;
  fits_prefix : forall a b, fits (a ++ b) -> fits a;
  accept_putc : forall ch s l, holds s l -> fits (l ++ [ch]) -> exists s', putc_cb ch s = (1, s') /\ holds s' (l ++ [ch]);
  accept_write : forall s str l, holds s l -> fits (l ++ str) -> exists s', write_cb s str = (Z.of_nat (length str), s') /\ holds s' (l ++ str) }.

Section Print.
Context {S : Type} {St : Stream S} {As : AcceptingStream S}.
Implicit Types f : fmt (S := S).

(** A formatter without an error whose stream got [l]. *)
Definition ready (l : list Z) (f : fmt (S := S)) : Prop :=
  holds (stream f) l /\ has (fm_flags f) FMT_HASERR = false /\ 0 <= chars_written f < 2 ^ 32.

(** [f'] is the formatter [f], whose stream got [l], after it wrote [text]. *)
Definition emit (text l : list Z) (f f' : fmt (S := S)) : Prop :=
  ready (l ++ text) f' /\ chars_written f' = u32 (chars_written f + Z.of_nat (length text)) /\
  fm_spec f' = fm_spec f /\ fm_flags f' = fm_flags f /\ fm_stores f' = fm_stores f.

Lemma fits_part l a b : fits (l ++ a ++ b) -> fits (l ++ a) /\ fits ((l ++ a) ++ b).
Proof. intros H. rewrite app_assoc in H. split; [by eapply fits_prefix|done]. Qed.

Lemma emit_nil l f : ready l f -> emit [] l f f.
Proof. intros Hr. unfold emit. rewrite app_nil_r, Z.add_0_r, u32_small by apply Hr. done. Qed.

Lemma emit_app a b l f g h : emit a l f g -> emit b (l ++ a) g h -> emit (a ++ b) l f h.
Proof.
  intros (R1 & C1 & S1 & F1 & N1) (R2 & C2 & S2 & F2 & N2). unfold emit. rewrite app_assoc, C2, C1, S2, S1, F2, F1, N2, N1. split_and!; [done| |done..].
  unfold u32. rewrite Zplus_mod_idemp_l, length_app. f_equal. lia.
Qed.

Lemma emit_intro text l f s' :
  ready l f -> holds s' (l ++ text) -> emit text l f (count_chars (Z.of_nat (length text)) (set_stream s' f)).
Proof. intros (_ & Hf & _) Hw. repeat split; [exact Hw|exact Hf|apply u32_range..]. Qed.

Lemma try_char_emit ch l f : ready l f -> fits (l ++ [ch]) -> exists s', try_char ch f = (true, set_stream s' f) /\ holds s' (l ++ [ch]).
Proof. intros (Hh & Hf & Hc) Hfit. unfold try_char. rewrite Hf. cbn [negb]. destruct (accept_putc ch (stream f) l Hh Hfit) as (s' & -> & Hw). by exists s'. Qed.

Lemma write_char_emit ch l f : ready l f -> fits (l ++ [ch]) -> emit [ch] l f (fmt_write_char ch f).
Proof.
  intros Hr Hfit. unfold fmt_write_char. destruct (try_char_emit ch l f Hr Hfit) as (s' & -> & Hw). by apply (emit_intro [ch]).
Qed.

Lemma write_string_emit str l f : ready l f -> fits (l ++ str) -> emit str l f (fmt_write_string str f).
Proof.
  intros Hr Hfit. unfold fmt_write_string. rewrite (proj1 (proj2 Hr)). cbn [negb]. destruct (accept_write (stream f) str l (proj1 Hr) Hfit) as (s' & -> & Hw). rewrite Z.eqb_refl. by apply emit_intro.
Qed.

Lemma rep_loop_emit n : forall fuel ch i l f,
  ready l f -> fits (l ++ replicate n ch) -> (n < fuel)%nat ->
  exists s', rep_loop fuel ch i (i + Z.of_nat n) f = Some (i + Z.of_nat n, set_stream s' f) /\ holds s' (l ++ replicate n ch).
Proof.
  induction n as [|n IH]; intros [|fuel] ch i l f Hr Hfit Hfuel; [lia| |lia|]; cbn [rep_loop].
  - destruct (Z.ltb_spec i (i + Z.of_nat 0)); [lia|]. exists (stream f). rewrite app_nil_r. split; [destruct f; do 2 f_equal; lia|apply Hr].
  - destruct (Z.ltb_spec i (i + Z.of_nat (Datatypes.S n))); [|lia]. change (replicate (Datatypes.S n) ch) with ([ch] ++ replicate n ch) in *. destruct (fits_part _ _ _ Hfit) as [Hf1 Hf2].
    destruct (try_char_emit ch l f Hr Hf1) as (s1 & -> & W1).
    destruct (IH fuel ch (i + 1) (l ++ [ch]) (set_stream s1 f)) as (s' & E & W); [by destruct Hr as (_ & ? & ?)|done|lia|].
    replace (i + 1 + Z.of_nat n) with (i + Z.of_nat (Datatypes.S n)) in E by lia. exists s'. by rewrite E, (app_assoc l).
Qed.

Lemma char_rep_emit ch n l f :
  ready l f -> fits (l ++ replicate n ch) -> exists f', fmt_write_char_rep ch (Z.of_nat n) f = Some f' /\ emit (replicate n ch) l f f'.
Proof.
  intros Hr Hfit. unfold fmt_write_char_rep. destruct (rep_loop_emit n (Z.to_nat (Z.of_nat n) + 2) ch 0 l f Hr Hfit ltac:(lia)) as (s' & E & W).
  rewrite Z.add_0_l in E. rewrite (bind_some E). eexists. split; [done|]. pose proof (emit_intro (replicate n ch) l f s' Hr W) as He. by rewrite length_replicate in He.
Qed.

Lemma spaces_emit n cond l f : let text := if cond : bool then replicate n 32 else [] in
  ready l f -> fits (l ++ text) -> exists f', spaces (Z.of_nat n) cond f = Some f' /\ emit text l f f'.
Proof.
  intros text Hr Hfit. unfold spaces. destruct n as [|n].
  - exists f. split; [done|]. unfold text. destruct cond; by apply emit_nil.
  - replace (0 <? Z.of_nat (Datatypes.S n)) with true by lia. destruct cond; cbn [andb]; [by apply char_rep_emit|]. exists f. split; [done|]. by apply emit_nil.
Qed.

Lemma zeros_emit n l f : ready l f -> fits (l ++ replicate n 48) ->
  exists f', (if 0 <? Z.of_nat n then fmt_write_char_rep 48 (Z.of_nat n) f else Some f) = Some f' /\ emit (replicate n 48) l f f'.
Proof.
  intros Hr Hfit. destruct n as [|n]; [exists f; split; [done|by apply emit_nil]|]. replace (0 <? Z.of_nat (Datatypes.S n)) with true by lia. by apply char_rep_emit.
Qed.

(** ** Fields *)

(** Spaces, the sign or prefix, zeros, the digits, spaces: with the counts that the
    functions compute this is the field of the standard. *)
Lemma field_parts fl w prefix digits nz nsp nz' nsp' :
  nz = (if has fl FMT_HASPREC then nz else 0%nat) ->
  nsp = Z.to_nat (w - Z.of_nat (length prefix + nz + length digits)) ->
  (nz', nsp') = (if has fl FMT_PADZEROS && negb (has fl FMT_HASPREC) && negb (has fl FMT_LEFTJUST) then (nsp, 0%nat) else (nz, nsp)) ->
  (if negb (has fl FMT_LEFTJUST) then replicate nsp' 32 else []) ++ prefix ++ (replicate nz' 48 ++ digits) ++ (if has fl FMT_LEFTJUST then replicate nsp' 32 else []) =
  c_field fl w prefix (replicate nz 48 ++ digits).
Proof.
  intros Hz Hs Hp. unfold c_field. rewrite !length_app, length_replicate. replace (length prefix + (nz + length digits))%nat with (length prefix + nz + length digits)%nat by lia. rewrite <- Hs.
  destruct (has fl FMT_LEFTJUST); cbn [negb andb] in *.
  - rewrite andb_false_r in Hp. injection Hp as -> ->. by rewrite <- app_assoc.
  - rewrite andb_true_r in Hp. destruct (has fl FMT_PADZEROS && negb (has fl FMT_HASPREC)) eqn:Ep; injection Hp as -> ->; [|by rewrite app_nil_r].
    apply andb_true_iff in Ep as [_ Ep]. destruct (has fl FMT_HASPREC); [done|]. rewrite Hz. cbn. by rewrite app_nil_r.
Qed.

Lemma emit_parts lf nsp nz pre digits (wr : fmt (S := S) -> fmt (S := S)) l f :
  let text := (if negb lf then replicate nsp 32 else []) ++ pre ++ (replicate nz 48 ++ digits) ++ (if lf then replicate nsp 32 else []) in
  ready l f -> fits (l ++ text) -> (forall l h, ready l h -> fits (l ++ pre) -> emit pre l h (wr h)) ->
  exists f', (f ← spaces (Z.of_nat nsp) (negb lf) f;
      let f := wr f in
      f ← (f ← (if 0 <? Z.of_nat nz then fmt_write_char_rep 48 (Z.of_nat nz) f else Some f); Some (fmt_write_string digits f));
      spaces (Z.of_nat nsp) lf f) = Some f' /\
    emit text l f f'.
Proof.
  intros text Hr Hfit Hwr. destruct (fits_part _ _ _ Hfit) as [F1 Fa]. destruct (fits_part _ _ _ Fa) as [F2 Fb]. destruct (fits_part _ _ _ Fb) as [Fc F5]. destruct (fits_part _ _ _ Fc) as [F3 F4].
  destruct (spaces_emit nsp (negb lf) l f Hr F1) as (f1 & E1 & He1). rewrite (bind_some E1).
  pose proof (Hwr _ f1 (proj1 He1) F2) as He2. set (f2 := wr f1) in *. destruct (zeros_emit nz _ f2 (proj1 He2) F3) as (f3 & E3 & He3). cbn zeta. rewrite (bind_some E3). cbn [mbind option_bind].
  pose proof (write_string_emit digits _ f3 (proj1 He3) F4) as He4. set (f4 := fmt_write_string digits f3) in *. pose proof (emit_app _ _ _ _ _ _ He3 He4) as He34.
  destruct (spaces_emit nsp lf _ f4 (proj1 He34) F5) as (f5 & E5 & He5). exists f5. split; [exact E5|]. eapply emit_app; [exact He1|]. eapply emit_app; [exact He2|]. by eapply emit_app.
Qed.

Lemma int_field_emit sign digits l f :
  let spec := fm_spec f in let fl := cs_flags spec in let text := c_field fl (min_field_width spec) (c_sign fl sign) (c_digits fl (prec spec) digits) in
  ready l f -> fits (l ++ text) -> sign = 45 \/ sign = 43 -> digits <> [] -> ~ (has fl FMT_HASPREC = true /\ prec spec = 0 /\ digits = [48]) ->
  exists f', format_int_field (sign :: digits) f = Some f' /\ emit text l f f'.
Proof.
  intros spec fl text Hr Hfit Hsign Hne Hnz. unfold format_int_field. fold spec fl. change (drop 1 (sign :: digits)) with digits. change (ch_at (sign :: digits) 0) with sign. cbn [length].
  set (nd := Z.of_nat (Datatypes.S (length digits)) - 1). assert (Hnd : nd = Z.of_nat (length digits)) by lia.
  assert (Hempty : has fl FMT_HASPREC && (prec spec =? 0) && (ch_at digits 0 =? 48) && (nd =? 1) = false).
  { apply not_true_is_false. intros H. apply Hnz. destruct digits as [|d [|? ?]]; [done| |cbn in Hnd; lia]. cbn in H. split_and!; [by destruct (has fl FMT_HASPREC)|lia|f_equal; lia]. }
  rewrite Hempty.
  set (nz := Z.to_nat (if has fl FMT_HASPREC then Z.max (prec spec - nd) 0 else 0)).
  assert (Ez : (if has fl FMT_HASPREC then Z.max (prec spec - nd) 0 else 0) = Z.of_nat nz) by (unfold nz; destruct (has fl FMT_HASPREC); lia). rewrite Ez.
  destruct (if negb (has fl FMT_FORCESIGN) && (sign =? 43) then _ else _) as [sc ns] eqn:Es.
  assert (Hs : ns = Z.of_nat (length (c_sign fl sign)) /\ (if 0 <? ns then [sc] else []) = c_sign fl sign).
  { unfold c_sign. destruct Hsign as [-> | ->]; cbn in Es |- *; destruct (has fl FMT_FORCESIGN), (has fl FMT_SPACEIFPOS); cbn in Es |- *; by simplify_eq. }
  destruct Hs as [-> Hs]. set (w := min_field_width spec). set (nsp := Z.to_nat (w - Z.of_nat (length (c_sign fl sign) + nz + length digits))).
  assert (En : (if Z.of_nat (length (c_sign fl sign)) + Z.of_nat nz + nd <? w then w - (Z.of_nat (length (c_sign fl sign)) + Z.of_nat nz + nd) else 0) = Z.of_nat nsp) by (unfold nsp; match goal with |- context [?a <? w] => destruct (Z.ltb_spec a w) end; lia).
  rewrite En. destruct (if has fl FMT_PADZEROS && negb (has fl FMT_HASPREC) && negb (has fl FMT_LEFTJUST) then (nsp, 0%nat) else (nz, nsp)) as [nz' nsp'] eqn:Ep.
  assert (Ep' : (if has fl FMT_PADZEROS && negb (has fl FMT_HASPREC) && negb (has fl FMT_LEFTJUST) then (Z.of_nat nsp, 0) else (Z.of_nat nz, Z.of_nat nsp)) = (Z.of_nat nz', Z.of_nat nsp'))
    by (revert Ep; clear; destruct (has fl FMT_PADZEROS && negb (has fl FMT_HASPREC) && negb (has fl FMT_LEFTJUST)); intros [=]; by subst).
  assert (Et : text = c_field fl w (c_sign fl sign) (replicate nz 48 ++ digits)).
  { unfold text, c_digits, nz. fold w. destruct (has fl FMT_HASPREC); [|done]. do 3 f_equal. lia. }
  rewrite <- (field_parts fl w (c_sign fl sign) digits nz nsp nz' nsp') in Et; [|unfold nz; by destruct (has fl FMT_HASPREC)|done|by symmetry]. rewrite Et in Hfit |- *.
  rewrite Ep'. cbn match. apply (emit_parts (has fl FMT_LEFTJUST) nsp' nz' (c_sign fl sign) digits (fun f => if 0 <? Z.of_nat (length (c_sign fl sign)) then fmt_write_char sc f else f) l f Hr Hfit).
  intros l' h Hh Hfh. destruct (0 <? _); rewrite <- Hs in Hfh |- *; [by apply write_char_emit|by apply emit_nil].
Qed.
Lemma write_chars_emit t l f : ready l f -> fits (l ++ t) -> emit t l f (fold_left (fun f ch => fmt_write_char ch f) t f).
Proof.
  revert l f. induction t as [|ch t IH]; intros l f Hr Hfit; cbn [fold_left]; [by apply emit_nil|]. change (ch :: t) with ([ch] ++ t) in *. destruct (fits_part _ _ _ Hfit) as [F1 F2].
  pose proof (write_char_emit ch l f Hr F1) as He. eapply emit_app; [exact He|]. apply IH; [apply He|done].
Qed.

Lemma uint_field_emit base up digits l f :
  let spec := fm_spec f in let fl := cs_flags spec in
  let text := c_field fl (min_field_width spec) (if has fl FMT_ALTFORM then radix_chars base up else []) (c_digits fl (prec spec) digits) in
  ready l f -> fits (l ++ text) -> digits <> [] -> (length digits <= 64)%nat -> (has fl FMT_HASPREC = true -> Z.of_nat (length digits) <= prec spec < 2 ^ 30) ->
  exists f', format_uint_field base up digits f = Some f' /\ emit text l f f'.
Proof.
  intros spec fl text Hr Hfit Hne Hlen Hprec. unfold format_uint_field. fold spec fl. assert (Hl0 : (0 < length digits)%nat) by (destruct digits; [done|cbn; lia]).
  assert (Hempty : has fl FMT_HASPREC && (prec spec =? 0) && (ch_at digits 0 =? 48) && (Z.of_nat (length digits) =? 1) = false).
  { apply not_true_is_false. intros H. destruct (has fl FMT_HASPREC); [|done]. specialize (Hprec eq_refl). lia. }
  rewrite Hempty. set (pre := if has fl FMT_ALTFORM then radix_chars base up else []).
  assert (Hpre : (length pre <= 2)%nat) by (unfold pre, radix_chars; repeat case_match; cbn; lia).
  set (nz := Z.to_nat (if has fl FMT_HASPREC then prec spec - Z.of_nat (length digits) else 0)).
  assert (Ez : (if has fl FMT_HASPREC then s32 (if 0 <? u32 (prec spec - Z.of_nat (length digits)) then u32 (prec spec - Z.of_nat (length digits)) else 0) else 0) = Z.of_nat nz).
  { unfold nz. destruct (has fl FMT_HASPREC); [|done]. specialize (Hprec eq_refl). rewrite u32_small by lia. destruct (Z.ltb_spec 0 (prec spec - Z.of_nat (length digits))); rewrite s32_small; lia. }
  assert (Hnz : Z.of_nat nz < 2 ^ 30) by (unfold nz; destruct (has fl FMT_HASPREC); [specialize (Hprec eq_refl)|]; lia).
  rewrite Ez. rewrite u32_small, s32_small by lia. set (w := min_field_width spec). set (nsp := Z.to_nat (w - Z.of_nat (length pre + nz + length digits))).
  assert (En : (if Z.of_nat (length pre) + Z.of_nat nz + Z.of_nat (length digits) <? w then w - (Z.of_nat (length pre) + Z.of_nat nz + Z.of_nat (length digits)) else 0) = Z.of_nat nsp)
    by (unfold nsp; match goal with |- context [?a <? w] => destruct (Z.ltb_spec a w) end; lia).
  rewrite En. destruct (if has fl FMT_PADZEROS && negb (has fl FMT_HASPREC) && negb (has fl FMT_LEFTJUST) then (nsp, 0%nat) else (nz, nsp)) as [nz' nsp'] eqn:Ep.
  assert (Ep' : (if has fl FMT_PADZEROS && negb (has fl FMT_HASPREC) && negb (has fl FMT_LEFTJUST) then (Z.of_nat nsp, 0) else (Z.of_nat nz, Z.of_nat nsp)) = (Z.of_nat nz', Z.of_nat nsp'))
    by (revert Ep; clear; destruct (has fl FMT_PADZEROS && negb (has fl FMT_HASPREC) && negb (has fl FMT_LEFTJUST)); intros [=]; by subst).
  assert (Et : text = c_field fl w pre (replicate nz 48 ++ digits)) by (unfold text, c_digits, nz; by destruct (has fl FMT_HASPREC)).
  rewrite <- (field_parts fl w pre digits nz nsp nz' nsp') in Et; [|unfold nz; by destruct (has fl FMT_HASPREC)|done|by symmetry]. rewrite Et in Hfit |- *.
  rewrite Ep'. cbn match. apply (emit_parts (has fl FMT_LEFTJUST) nsp' nz' pre digits (fun f => fold_left (fun f ch => fmt_write_char ch f) pre f) l f Hr Hfit).
  intros. by apply write_chars_emit.
Qed.
(** ** Conversions *)

Lemma format_int_emit g lm v l f ap :
  let spec := fm_spec f in let fl := cs_flags spec in let n := int_value lm v in
  let text := c_field fl (min_field_width spec) (c_sign fl (if n <? 0 then 45 else 43)) (c_digits fl (prec spec) (numeral 10 false (Z.abs n))) in
  arrays_ok g -> ready l f -> fits (l ++ text) -> f_lm spec = lm -> lm <> FMT_LM_L -> ~ (has fl FMT_HASPREC = true /\ prec spec = 0 /\ n = 0) ->
  exists f', format_int g f (int_arg lm v :: ap) = Some (f', ap) /\ emit text l f f'.
Proof.
  intros spec fl n text Hg Hrd Hfit Hlm HL Hnz. pose proof (int_value_range lm v) as Hr. fold n in Hr. assert (Hn : 0 <= Z.abs n <= 2 ^ 63) by (destruct lm; lia).
  assert (Hrad : radix_ok 10) by (unfold radix_ok; lia). destruct (numeral_len 10 false (Z.abs n) 20) as [Hne _]; [done|lia|done|lia|].
  destruct (int_field_emit (if n <? 0 then 45 else 43) (numeral 10 false (Z.abs n)) l f Hrd Hfit) as (f' & E & He); [destruct (n <? 0); auto|done| |].
  { fold spec fl. intros (H1 & H2 & H3). apply Hnz. split_and!; [done|done|]. apply numeral_zero in H3; [lia|done|lia]. }
  exists f'. split; [|exact He]. unfold format_int. fold spec. rewrite Hlm.
  destruct lm; try done; cbn [int_arg arg_int arg_long arg_longlong mbind option_bind]; cbn [int_value] in n; fold n.
  5: by rewrite (bind_some (i64toa_text g n Hg Hr)); cbn [mbind option_bind]; rewrite (bind_some E).
  all: destruct (i32toa_text n Hr) as (a & Ea & Et); rewrite (bind_some Ea); cbn [mbind option_bind]; rewrite Et; by rewrite (bind_some E).
Qed.

Lemma format_uint_emit g base up lm v l f ap :
  let spec := fm_spec f in let fl := cs_flags spec in let digits := numeral base up (uint_value lm v) in
  let text := c_field fl (min_field_width spec) (if has fl FMT_ALTFORM then radix_chars base up else []) (c_digits fl (prec spec) digits) in
  arrays_ok g -> radix_ok base -> ready l f -> fits (l ++ text) -> f_lm spec = lm -> lm <> FMT_LM_L ->
  (has fl FMT_HASPREC = true -> Z.of_nat (length digits) <= prec spec < 2 ^ 30) ->
  exists f', format_uint g base up f (int_arg lm v :: ap) = Some (f', ap) /\ emit text l f f'.
Proof.
  intros spec fl digits text Hg Hb Hrd Hfit Hlm HL Hp. pose proof (uint_value_range lm v) as Hr. assert (Hn : 0 <= uint_value lm v < 2 ^ 64) by (destruct lm; lia).
  destruct (numeral_len base up (uint_value lm v) 64) as [Hne Hlen]; [done|done|done|apply pow_room; [done|change (Z.of_nat 64) with 64; lia]|].
  destruct (uint_field_emit base up digits l f Hrd Hfit Hne Hlen Hp) as (f' & E & He). exists f'. split; [|exact He]. unfold format_uint. fold spec. rewrite Hlm.
  destruct lm; try done; cbn [int_arg arg_int arg_long arg_longlong mbind option_bind]; cbn [uint_value] in *.
  5: rewrite (bind_some (u64toa_text g _ base up Hg Hb Hr)); cbn [mbind option_bind]; unfold digits in E; by rewrite (bind_some E).
  all: match type of Hr with 0 <= ?n < _ => destruct (u32toa_text n base up Hb Hr) as (a & Ea & Et) end; rewrite (bind_some Ea); cbn [mbind option_bind]; rewrite Et; unfold digits in E; by rewrite (bind_some E).
Qed.

Lemma format_char_emit v l f ap :
  ready l f -> fits (l ++ [u8 v]) -> min_field_width (fm_spec f) <= 1 -> exists f', format_char f (VInt v :: ap) = Some (f', ap) /\ emit [u8 v] l f f'.
Proof.
  intros Hr Hfit Hw. unfold format_char. cbn [arg_int mbind option_bind]. replace (1 <? min_field_width (fm_spec f)) with false by lia.
  eexists. split; [done|]. by apply write_char_emit.
Qed.

Lemma format_string_emit str l f ap :
  let spec := fm_spec f in let text := c_string (cs_flags spec) (prec spec) str in
  ready l f -> fits (l ++ text) -> 0 <= min_field_width spec < 2 ^ 31 -> 0 <= prec spec < 2 ^ 31 -> min_field_width spec <= Z.of_nat (length text) ->
  exists f', format_string f (VString str :: ap) = Some (f', ap) /\ emit text l f f'.
Proof.
  intros spec text Hr Hfit Hw Hp Hlen. unfold format_string. fold spec. cbn [arg_string mbind option_bind]. rewrite !(u32_small (prec spec)), !(u32_small (min_field_width spec)) by lia.
  set (hp := has (cs_flags spec) FMT_HASPREC). set (slen := Z.of_nat (length str)). set (w := min_field_width spec) in *.
  assert (Et : text = if hp then take (Z.to_nat (prec spec)) str else str) by done.
  set (flen := if hp || (0 <? w) then slen else 0). set (adj := if hp then Z.min flen (prec spec) else flen).
  assert (Ha : adj <? w = false).
  { unfold adj, flen. rewrite Et in Hlen. destruct hp; cbn [orb]; [rewrite length_take in Hlen; lia|]. destruct (Z.ltb_spec 0 w); lia. }
  rewrite Ha. cbn [Z.ltb Z.compare andb]. replace (take _ str) with text; [eexists; split; [done|by apply write_string_emit]|].
  rewrite Et. unfold adj, flen. destruct hp; cbn [orb]; [|by rewrite firstn_all2 by lia].
  destruct (Z.le_ge_cases (prec spec) slen); [f_equal; lia|]. rewrite !firstn_all2 by lia. done.
Qed.

Lemma format_ptr_emit v l f ap :
  let spec := fm_spec f in
  let text := c_field (Z.lor (cs_flags spec) FMT_HASPREC) (min_field_width spec) [48; 120] (c_digits FMT_HASPREC 8 (numeral 16 false (u32 v))) in
  ready l f -> fits (l ++ text) ->
  exists f', format_ptr f (VPointer v :: ap) = Some (f', ap) /\
    emit text l (set_spec (MkSpec (min_field_width spec) 8 (f_lm spec) (Z.lor (cs_flags spec) (Z.lor (Z.lor FMT_ALTFORM FMT_PADZEROS) FMT_HASPREC))) f) f'.
Proof.
  intros spec text Hr Hfit. unfold format_ptr. fold spec. cbn [arg_pointer mbind option_bind]. pose proof (u32_range v) as Hv. assert (Hb : radix_ok 16) by (unfold radix_ok; lia).
  destruct (u32toa_text (u32 v) 16 false Hb Hv) as (a & Ea & Et). rewrite (bind_some Ea), Et. set (fl := Z.lor (cs_flags spec) _). set (f0 := set_spec _ f).
  destruct (numeral_len 16 false (u32 v) 8) as [Hne Hlen]; [done|lia|done|cbn; lia|].
  assert (Hbit : forall k, 0 <= k -> has fl (2 ^ k) = Z.testbit (cs_flags spec) k || Z.testbit 56 k) by (intros k Hk; rewrite has_bit by done; apply Z.lor_spec).
  assert (Hfl : has fl FMT_HASPREC = true /\ has fl FMT_ALTFORM = true /\ has fl FMT_LEFTJUST = has (Z.lor (cs_flags spec) FMT_HASPREC) FMT_LEFTJUST).
  { split_and!; [etransitivity; [apply (Hbit 5); lia|apply orb_true_r]|etransitivity; [apply (Hbit 3); lia|apply orb_true_r]|].
    etransitivity; [apply (Hbit 0); lia|]. change FMT_LEFTJUST with (2 ^ 0). rewrite has_bit, Z.lor_spec by lia. done. }
  destruct Hfl as (Hp & Halt & Hlj).
  assert (Etx : text = c_field fl (min_field_width spec) (if has fl FMT_ALTFORM then radix_chars 16 false else []) (c_digits fl 8 (numeral 16 false (u32 v)))).
  { unfold text, c_digits. rewrite Hp, Halt. apply c_field_flags; [by rewrite Hlj|]. rewrite Hp, andb_false_r. change FMT_HASPREC with (2 ^ 5).
    rewrite has_bit, Z.lor_spec by lia. by rewrite orb_true_r, andb_false_r. }
  rewrite Etx in Hfit |- *. destruct (uint_field_emit 16 false (numeral 16 false (u32 v)) l f0 Hr Hfit Hne ltac:(lia)) as (f' & E & He); [intros _; cbn [f0 fm_spec set_spec prec]; lia|].
  rewrite (bind_some E). by exists f'.
Qed.

(** [f'] is the formatter after it wrote [text]; the specification does not matter. *)
Definition wrote (text l : list Z) (f f' : fmt (S := S)) : Prop :=
  ready (l ++ text) f' /\ chars_written f' = u32 (chars_written f + Z.of_nat (length text)) /\ fm_flags f' = fm_flags f /\ fm_stores f' = fm_stores f.

Lemma emit_wrote text l f f' : emit text l f f' -> wrote text l f f'.
Proof. by intros (W & C & _ & F & N). Qed.

Lemma wrote_app a b l f g h : wrote a l f g -> wrote b (l ++ a) g h -> wrote (a ++ b) l f h.
Proof.
  intros (W1 & C1 & F1 & N1) (W2 & C2 & F2 & N2). unfold wrote. rewrite app_assoc, C2, C1, F2, F1, N2, N1. split_and!; [done| |done..].
  unfold u32. rewrite Zplus_mod_idemp_l, length_app. f_equal. lia.
Qed.

Lemma width_range w : width_wf w -> 0 <= width_value w < 2 ^ 31.
Proof. destruct w as [|cs|n]; cbn; [lia| |lia]. intros (Hcs & _ & Hv). split; [|done]. apply cs_value_pos, Hcs. Qed.

Lemma prec_range p : prec_wf p -> 0 <= prec_value p < 2 ^ 31.
Proof. destruct p as [|cs|n]; cbn; [lia| |lia]. intros (Hcs & Hv). split; [|done]. apply cs_value_pos, Hcs. Qed.

Lemma prefix_radix fl base up : radix_ok base -> (has fl FMT_ALTFORM = true -> base <> 2) -> (if has fl FMT_ALTFORM then radix_chars base up else []) = c_prefix fl base up.
Proof.
  intros Hb H2. unfold c_prefix, radix_chars. destruct (has fl FMT_ALTFORM); [|done]. specialize (H2 eq_refl). by destruct Hb as [->|[->|[->| ->]]].
Qed.

Lemma format_uint_arg g ch f rest ap :
  ch ∈ [111; 98; 66; 120; 88; 117] ->
  radix_ok (radix_of ch) /\ format_arg g f (ch :: rest) ap = ('(f, ap) ← format_uint g (radix_of ch) (upper ch) f ap; Some (f, Some rest, ap)).
Proof. rewrite !elem_of_cons, elem_of_nil. intros H. repeat (destruct H as [-> | H]; [split; [vm_compute; tauto|reflexivity]|]). done. Qed.

Lemma format_arg_wrote g c rest ap l f :
  arrays_ok g -> conv_wf c -> conv_ok c -> ready l f -> fits (l ++ render c) ->
  exists f', format_arg g (set_spec (conv_spec c) f) (kind_char (c_kind c) :: rest) (kind_args (c_kind c) ++ ap) = Some (f', Some rest, ap) /\ wrote (render c) l f f'.
Proof.
  intros Hg (_ & Hw & Hp & Hk) Hok Hr. apply width_range in Hw. apply prec_range in Hp. unfold conv_ok in Hok. unfold render. set (f0 := set_spec (conv_spec c) f).
  set (w := width_value (c_width c)) in *. set (p := prec_value (c_prec c)) in *. assert (Hr0 : ready l f0) by done.
  assert (Hlm : f_lm (fm_spec f0) = kind_lm (c_kind c)) by done.
  destruct (c_kind c) as [|v|str|ch lm v|ch lm v|q]; cbn [kind_char kind_args app]; intros Hfit.
  - eexists. split; [reflexivity|]. apply (emit_wrote _ _ f0). by apply write_char_emit.
  - rewrite c_field_full in Hfit |- * by (cbn; lia). destruct (format_char_emit v l f0 ap Hr0 Hfit Hok) as (f' & E & He). exists f'. split; [|by apply emit_wrote in He].
    unfold format_arg. cbn [Z.eqb Pos.eqb]. by rewrite (bind_some E).
  - rewrite c_field_full in Hfit |- * by done. destruct (format_string_emit str l f0 ap Hr0 Hfit Hw Hp Hok) as (f' & E & He). exists f'. split; [|by apply emit_wrote in He].
    unfold format_arg. cbn [Z.eqb Pos.eqb]. by rewrite (bind_some E).
  - destruct Hk as [Hch HL]. destruct (format_int_emit g lm v l f0 ap Hg Hr0 Hfit Hlm HL Hok) as (f' & E & He). exists f'. split; [|by apply emit_wrote in He].
    rewrite !elem_of_cons, elem_of_nil in Hch. destruct Hch as [-> |[-> |[]]]; unfold format_arg; cbn [Z.eqb Pos.eqb orb]; by rewrite (bind_some E).
  - destruct Hk as [Hch HL], Hok as [Hprec Halt]. destruct (format_uint_arg g ch f0 rest (int_arg lm v :: ap) Hch) as [Hrad ->]. rewrite <- prefix_radix in Hfit |- * by naive_solver.
    destruct (format_uint_emit g (radix_of ch) (upper ch) lm v l f0 ap Hg Hrad Hr0 Hfit Hlm HL Hprec) as (f' & E & He). exists f'. split; [by rewrite (bind_some E)|]. by apply emit_wrote in He.
  - destruct (format_ptr_emit q l f0 ap Hr0 Hfit) as (f' & E & He). exists f'. split; [|by apply emit_wrote in He]. unfold format_arg. cbn [Z.eqb Pos.eqb orb]. by rewrite (bind_some E).
Qed.

(** ** Printing *)

Lemma text_loop g t : forall fuel lit rest l f ap,
  ready l f -> Forall (fun ch => ch <> 37) t ->
  print_loop (length t + fuel) g (lit ++ t ++ rest) (length lit) f ap = print_loop fuel g ((lit ++ t) ++ rest) (length (lit ++ t)) f ap.
Proof.
  induction t as [|ch t IH]; intros fuel lit rest l f ap Hr Ht; [by rewrite !app_nil_r|]. inversion Ht as [|? ? Hch Ht']; subst. cbn [length Nat.add print_loop].
  rewrite (proj1 (proj2 Hr)), drop_app_length. cbn [app]. rewrite (proj2 (Z.eqb_neq ch 37) Hch).
  replace (lit ++ ch :: t ++ rest) with ((lit ++ [ch]) ++ t ++ rest) by (by rewrite <- app_assoc). replace (length lit + 1)%nat with (length (lit ++ [ch])) by (rewrite length_app; done).
  rewrite (IH _ _ _ l) by done. by rewrite <- (app_assoc lit [ch] t).
Qed.

(** The text before a conversion or the end of the format. *)
Lemma flush_wrote lit rest l f :
  ready l f -> fits (l ++ lit) -> wrote lit l f (if (length lit =? 0)%nat then f else fmt_write_string (take (length lit) (lit ++ rest)) f).
Proof.
  intros Hr Hfit. destruct lit as [|ch lit]; [by apply emit_wrote, emit_nil|]. cbn [length Nat.eqb]. rewrite take_app_length' by done. by apply emit_wrote, write_string_emit.
Qed.

Lemma print_pieces g ps : forall fuel lit l f ap,
  arrays_ok g -> Forall piece_ok ps -> ready l f -> fits (l ++ lit ++ (ps ≫= piece_render)) -> (length (ps ≫= piece_text) < fuel)%nat ->
  exists f', print_loop fuel g (lit ++ (ps ≫= piece_text)) (length lit) f ((ps ≫= piece_args) ++ ap) = Some (Z.min (chars_written f') (2 ^ 31 - 1), f') /\
    wrote (lit ++ (ps ≫= piece_render)) l f f'.
Proof.
  induction ps as [|x ps IH]; intros fuel lit l f ap Hg Hps Hr Hfit Hfuel.
  - destruct fuel as [|fuel]; [cbn in Hfuel; lia|]. cbn [mbind list_bind app print_loop] in *. rewrite (proj1 (proj2 Hr)), drop_app_length. eexists. split; [done|]. rewrite app_nil_r in Hfit.
    pose proof (flush_wrote lit [] l f Hr Hfit) as Hl. by rewrite app_nil_r in Hl |- *.
  - inversion Hps as [|? ? Hx Hps']; subst. cbn [mbind list_bind] in Hfuel, Hfit |- *. rewrite length_app in Hfuel. destruct x as [t|c]; cbn [piece_text piece_args piece_render piece_ok app] in *.
    + replace fuel with (length t + (fuel - length t))%nat by lia. rewrite (text_loop _ _ _ _ _ l) by done. rewrite (app_assoc lit t) in Hfit |- *. apply IH; [done..|]. cbn in Hfuel |- *. lia.
    + destruct Hx as [Hwf Hok]. destruct fuel as [|fuel]; [lia|]. cbn [print_loop]. rewrite (proj1 (proj2 Hr)), drop_app_length. change (37 =? 37) with true. cbn match.
      destruct (fits_part _ _ _ Hfit) as [F1 Fa]. destruct (fits_part _ _ _ Fa) as [F2 F3].
      pose proof (flush_wrote lit (37 :: conv_text c ++ (ps ≫= piece_text)) l f Hr F1) as Hl. set (f1 := if (length lit =? 0)%nat then f else _) in *.
      rewrite <- app_assoc, (bind_some (parse_spec c _ _ Hwf)). cbn match.
      destruct (format_arg_wrote g c (ps ≫= piece_text) ((ps ≫= piece_args) ++ ap) _ f1 Hg Hwf Hok (proj1 Hl) F2) as (f2 & E2 & H2). rewrite (bind_some E2). cbn match.
      destruct (IH fuel [] _ f2 ap Hg Hps' (proj1 H2) F3) as (f' & E & Hw); [cbn in Hfuel |- *; lia|]. exists f'. split; [exact E|]. eapply wrote_app; [exact Hl|]. by eapply wrote_app.
Qed.

(** [__fmt_print] restarts the count and forgets an error of the call before. *)
Lemma fmt_print_ready g ps ap l f :
  arrays_ok g -> Forall piece_ok ps -> holds (stream f) l -> let text := ps ≫= piece_render in fits (l ++ text) ->
  exists f', fmt_print g (ps ≫= piece_text) ((ps ≫= piece_args) ++ ap) f = Some (Z.min (u32 (Z.of_nat (length text))) (2 ^ 31 - 1), f') /\ ready (l ++ text) f'.
Proof.
  intros Hg Hps Hh text Hfit. unfold fmt_print. set (f0 := MkFmt _ _ _ _ _).
  assert (Hr0 : ready l f0).
  { split_and!; [done| |cbn; lia..]. cbn. change FMT_HASERR with (2 ^ 0) at 2. rewrite has_bit, Z.land_spec by lia. apply andb_false_r. }
  destruct (print_pieces g ps (Datatypes.S (length (ps ≫= piece_text))) [] l f0 ap Hg Hps Hr0 Hfit) as (f' & E & Hw & C & _); [lia|]. cbn [app length] in E. rewrite E, C. by exists f'.
Qed.

End Print.

(** ** What the formatter prints *)

(** C10. The formatter prints what the C standard says: for a format of text and
    conversions - flags, a width and a precision, each a number or an argument, a
    length modifier, and c, s, d, i, u, o, x, X, b, B, p or a percent sign - and their
    arguments, parsing and printing end, the stream gets the concatenated texts, and
    the result is their length.  A number is rendered in its base after conversion to
    the type of the length modifier, with sign or prefix, zeros up to the precision,
    and zeros or blanks on the right side up to the width.  [conv_ok] leaves out the
    conversions in which the code differs from the standard. *)
Theorem print_renders {S} {St : Stream S} {As : AcceptingStream S} g ps ap l s cont :
  arrays_ok g -> Forall piece_ok ps -> holds s l -> let text := ps ≫= piece_render in fits (l ++ text) ->
  exists f', fmt_print g (ps ≫= piece_text) ((ps ≫= piece_args) ++ ap) (fmt_init_i s cont) = Some (Z.min (u32 (Z.of_nat (length text))) (2 ^ 31 - 1), f') /\
    holds (stream f') (l ++ text) /\ has (fm_flags f') FMT_HASERR = false.
Proof.
  intros Hg Hps Hh text Hfit. destruct (fmt_print_ready g ps ap l (fmt_init_i s cont) Hg Hps Hh Hfit) as (f' & E & Hw & Hf & _). by exists f'.
Qed.

(** A stream in memory. *)
#[export] Instance sink_stream : Stream (list Z) := { putc_cb ch s := (1, s ++ [ch]); write_cb s str := (Z.of_nat (length str), s ++ str) }.
#[export] Instance sink_accepts : AcceptingStream (list Z).
Proof. refine {| holds s l := s = l; fits _ := True |}; try done; intros; subst; by eexists. Defined.

Definition print (format : list Z) (ap : list va_value) : option (Z * list Z) :=
  '(r, f) ← fmt_print sample_arrays format ap (fmt_init_i [] false); Some (r, stream f).

(** x=%012lld %#-*x *)
Definition sample_pieces : list piece :=
  [PText [120; 61]; PConv (Conv [48] (WNum [49; 50]) PNone (KInt 100 FMT_LM_ll (- 5000000000)));
   PText [32]; PConv (Conv [35; 45] (WArg 8) PNone (KUint 120 FMT_LM_none 255)); PConv (Conv [] WNone (PNum [51]) (KString [97; 98; 99; 100]))].

Lemma sample_pieces_ok : Forall piece_ok sample_pieces.
Proof.
  unfold sample_pieces. rewrite !Forall_cons, Forall_nil. cbn [piece_ok]. unfold conv_wf. cbn [c_flags c_width c_prec c_kind width_wf prec_wf kind_wf]. rewrite !Forall_cons, !Forall_nil.
  unfold is_flag, dec_char. split_and!; try lia; try set_solver; vm_compute; (done || intuition congruence).
Qed.

Lemma print_renders_witness :
  exists f', fmt_print sample_arrays (sample_pieces ≫= piece_text) (sample_pieces ≫= piece_args) (fmt_init_i [] false) = Some (26, f') /\
    stream f' = [120; 61; 45; 48; 53; 48; 48; 48; 48; 48; 48; 48; 48; 48; 32; 48; 120; 102; 102; 32; 32; 32; 32; 97; 98; 99].
Proof.
  destruct (print_renders (S := list Z) sample_arrays sample_pieces [] [] [] false) as (f' & E & Hw & _); [done|exact sample_pieces_ok|done|done|].
  rewrite app_nil_r in E. exists f'. split; [rewrite E; by vm_compute|]. cbn in Hw. rewrite Hw. by vm_compute.
Defined.

(** ** Where the formatter differs from the standard *)

(** %5c and %-5c are padded on the wrong side. *)
Lemma char_padding :
  print [37; 53; 99] [VInt 97] = Some (5, [97; 32; 32; 32; 32]) /\ print [37; 45; 53; 99] [VInt 97] = Some (5, [32; 32; 32; 32; 97]).
Proof. by vm_compute. Qed.

(** %3s is padded behind the string. *)
Lemma string_padding : print [37; 51; 115] [VString [97]] = Some (3, [97; 32; 32]).
Proof. by vm_compute. Qed.

(** %#b of 5 has the prefix of an octal number, and %#x of 0 has one. *)
Lemma alternative_form : print [37; 35; 98] [VInt 5] = Some (4, [48; 49; 48; 49]) /\ print [37; 35; 120] [VInt 0] = Some (3, [48; 120; 48]).
Proof. by vm_compute. Qed.

(** %5.1u of 123 is seven characters wide, and %5.0d of 0 is four. *)
Lemma field_widths :
  print [37; 53; 46; 49; 117] [VInt 123] = Some (7, [32; 32; 32; 32; 49; 50; 51]) /\ print [37; 53; 46; 48; 100] [VInt 0] = Some (4, [32; 32; 32; 32]).
Proof. by vm_compute. Qed.

(** %*d with the width -5 does not justify to the left. *)
Lemma negative_width : print [37; 42; 100] [VInt (-5); VInt 7] = Some (1, [55]).
Proof. by vm_compute. Qed.

(** A format that ends in a percent sign is read beyond its end. *)
Lemma lone_percent : print [97; 37] [] = None.
Proof. by vm_compute. Qed.

(** After an error that is not ignored, writing a character repeatedly never ends. *)
Lemma rep_loop_stuck {S} {St : Stream S} fuel ch i count (f : fmt (S := S)) :
  has (fm_flags f) FMT_HASERR = true -> has (fm_flags f) FMT_CONTCNTONERR = false -> i < count -> rep_loop fuel ch i count f = None.
Proof.
  revert f. induction fuel as [|fuel IH]; intros f He Hc Hi; [done|]. cbn [rep_loop]. replace (i <? count) with true by lia. unfold try_char. rewrite He, Hc. cbn [negb].
  apply IH; [| |done]; cbn [set_error fm_flags].
  - change FMT_HASERR with (2 ^ 0) at 2. rewrite has_bit, Z.lor_spec by lia. apply orb_true_r.
  - revert Hc. change FMT_CONTCNTONERR with (2 ^ 1). rewrite !has_bit, Z.lor_spec by lia. intros ->. done.
Qed.
