(* ===== verification/Log.v ===== *)
(** * The kernel log (kern/src/kernlib/log.c)

    The kernel's printf writes to a ring buffer until the console is there, and to the
    console from then on.  The formatter's stream is the state of the log; it is [None]
    after the console accessed memory that it must not access.  Every function holds
    the lock of the log from its beginning to its end.  [mem] says whether the console's
    allocations succeed. *)

From S2P Require Import Prelude CBuf VtTables VtParse ConsoleFonts TabStops Console ConsoleVideo ConsoleVt ConsoleThm ConsoleText DivMod64 Fmt FmtThm.

Inductive sink := kSink_RingBuffer | kSink_Console.

Definition LOG_BUFFER_SIZE : Z := 256.

Record log := MkLog { gCurrentSink : sink; gRingBuffer : cbuf; gConsole : option Console }.

Section Log.
Variable mem : bool.

Definition lwrite (s : option log) (buffer : list Z) : Z * option log :=
  match s with
  | None => (0, None)
  | Some s =>
      match gCurrentSink s with
      | kSink_Console =>
          match (c ← gConsole s; Console_Write mem c buffer) with
          | Some c => (Z.of_nat (length buffer), Some (MkLog kSink_Console (gRingBuffer s) (Some c)))
          | None => (0, None)
          end
      | kSink_RingBuffer => let '(n, rb) := cbuf_puts (gRingBuffer s) buffer in (n, Some (MkLog kSink_RingBuffer rb (gConsole s)))
      end
  end.

Definition lputc (ch : Z) (s : option log) : Z * option log := lwrite s [ch].

#[export] Instance log_stream : Stream (option log) := { putc_cb := lputc; write_cb := lwrite }.

(** The state of the log is in the stream of gFormatter. *)
Definition log_init (gLogBuffer : list Z) (console : option Console) : fmt (S := option log) :=
  fmt_init_i (Some (MkLog kSink_RingBuffer (cbuf_init_extbuf gLogBuffer LOG_BUFFER_SIZE) console)) false.

Definition log_open_console (s : log) : errno := match gConsole s with Some _ => EOK | None => ENODEV end.

Definition log_switch_to_console (f : fmt (S := option log)) : option (bool * fmt (S := option log)) :=
  s ← stream f;
  match gCurrentSink s with
  | kSink_RingBuffer =>
      if is_ok (log_open_console s) then Some (true, set_stream (Some (MkLog kSink_Console (gRingBuffer s) (gConsole s))) f) else Some (false, f)
  | kSink_Console => Some (true, f)
  end.

Definition log_write (buf : list Z) (f : fmt (S := option log)) : fmt (S := option log) := set_stream (lwrite (stream f) buf).2 f.

Definition log_read (nBytesToRead : Z) (f : fmt (S := option log)) : option (list Z * fmt (S := option log)) :=
  s ← stream f;
  match gCurrentSink s with
  | kSink_RingBuffer => let '(r, rb) := cbuf_gets (gRingBuffer s) nBytesToRead in Some (r, set_stream (Some (MkLog kSink_RingBuffer rb (gConsole s))) f)
  | kSink_Console => Some ([], f)
  end.

Definition vprintf (g : garbage) (format : list Z) (ap : list va_value) (f : fmt (S := option log)) : option (fmt (S := option log)) :=
  '(_, f) ← fmt_print g format ap f;
  Some f.
End Log.

(** ** The ring buffer *)

(** The log writes to a ring buffer of [cap] bytes that holds [q]. *)
Definition ring_holds (cap : Z) (s : option log) (q : list Z) : Prop :=
  exists lg, s = Some lg /\ gCurrentSink lg = kSink_RingBuffer /\ cb_ok (gRingBuffer lg) /\ capacity (gRingBuffer lg) = cap /\ contents (gRingBuffer lg) = q.

Lemma lwrite_ring mem cap s q str :
  ring_holds cap s q -> Z.of_nat (length str) < 2 ^ 31 ->
  let n := Z.min (cap - Z.of_nat (length q)) (Z.of_nat (length str)) in
  exists s', lwrite mem s str = (n, s') /\ ring_holds cap s' (q ++ take (Z.to_nat n) str).
Proof.
  intros (lg & -> & Hsink & Hok & Hcap & Hq) Hlen n. unfold lwrite. rewrite Hsink. pose proof (puts_spec (gRingBuffer lg) str Hok Hlen) as H.
  rewrite (readable_contents _ Hok), Hcap, Hq in H. fold n in H. destruct (cbuf_puts (gRingBuffer lg) str) as [r rb]. destruct H as (-> & Hrb & Hc & Hcs).
  eexists. split; [done|]. eexists. split_and!; [done|done|done|cbn; congruence|exact Hcs].
Qed.

Lemma ring_room cap s q : ring_holds cap s q -> Z.of_nat (length q) <= cap /\ 0 < cap <= 2 ^ 30.
Proof.
  intros (lg & _ & _ & Hok & <- & <-). pose proof (cb_fill _ Hok) as Hf. rewrite (readable_contents _ Hok) in Hf. destruct (cap_facts _ Hok) as [Hc _]. lia.
Qed.

Lemma lwrite_ring_fits mem cap s q str :
  ring_holds cap s q -> Z.of_nat (length (q ++ str)) <= cap -> exists s', lwrite mem s str = (Z.of_nat (length str), s') /\ ring_holds cap s' (q ++ str).
Proof.
  intros Hs Hlen. destruct (ring_room _ _ _ Hs) as [Hq Hcap]. rewrite length_app in Hlen. destruct (lwrite_ring mem cap s q str Hs) as (s' & E & Hs'); [lia|].
  rewrite Z.min_r in E, Hs' by lia. rewrite Nat2Z.id, firstn_all in Hs'. by exists s'.
Qed.

Lemma ring_accepts (mem : bool) (cap : Z) : AcceptingStream (St := log_stream mem) (option log).
Proof.
  refine {| holds := ring_holds cap; fits l := Z.of_nat (length l) <= cap |}.
  - intros a b. rewrite length_app. lia.
  - intros ch s l Hs Hf. by apply (lwrite_ring_fits mem cap s l [ch]).
  - intros s str l Hs Hf. by apply (lwrite_ring_fits mem cap s l str).
Defined.

(** ** The console *)

(** The log writes to a console on which a terminal with [R] columns and [B] rows that
    was in the state [t] shows the text [l]. *)
Definition console_holds (fg bg : Z) (font : Font) (R B : Z) (t : Terminal) (s : option log) (l : list Z) : Prop :=
  exists lg c, s = Some lg /\ gCurrentSink lg = kSink_Console /\ gConsole lg = Some c /\ text_console fg bg font R B c (term_write R B t l).

Lemma lwrite_console fg bg font R B t s l str :
  console_holds fg bg font R B t s l -> forallb text_byte (l ++ str) = true ->
  exists s', lwrite true s str = (Z.of_nat (length str), s') /\ console_holds fg bg font R B t s' (l ++ str).
Proof.
  intros (lg & c & -> & Hsink & Hc & Ht) Hstr. rewrite forallb_app in Hstr. apply andb_true_iff in Hstr as [_ Hstr].
  destruct (text_shown _ _ _ _ _ c _ str Ht Hstr) as (c' & E & Ht'). unfold lwrite. rewrite Hsink, Hc. cbn [mbind option_bind]. rewrite E. eexists. split; [done|].
  eexists _, _. split_and!; [done|done|done|]. unfold term_write in *. by rewrite fold_left_app.
Qed.

Lemma console_accepts (fg bg : Z) (font : Font) (R B : Z) (t : Terminal) : AcceptingStream (St := log_stream true) (option log).
Proof.
  refine {| holds := console_holds fg bg font R B t; fits l := forallb text_byte l = true |}.
  - intros a b. rewrite forallb_app. by intros [? _]%andb_true_iff.
  - intros ch s l Hs Hf. by apply (lwrite_console fg bg font R B t s l [ch]).
  - intros s str l Hs Hf. by apply lwrite_console.
Defined.

(** ** What printf of the kernel does *)

(** What the kernel prints before there is a console is kept: if the rendered text
    fits into the ring buffer, printf returns, and the log holds what it held, followed
    by the text; reading the log gives it back in that order. *)
Theorem printf_logged mem g ps ap cap f q n :
  arrays_ok g -> Forall piece_ok ps -> ring_holds cap (stream f) q -> 0 <= n < 2 ^ 31 ->
  let text := q ++ (ps ≫= piece_render) in
  Z.of_nat (length text) <= cap ->
  exists f' f'', vprintf mem g (ps ≫= piece_text) ((ps ≫= piece_args) ++ ap) f = Some f' /\ ring_holds cap (stream f') text /\
    log_read n f' = Some (take (Z.to_nat n) text, f'') /\ ring_holds cap (stream f'') (drop (Z.to_nat n) text).
Proof.
  intros Hg Hps Hs Hn text Hfit. destruct (fmt_print_ready (As := ring_accepts mem cap) g ps ap q f Hg Hps Hs Hfit) as (f' & E & Hs' & _).
  change (ring_holds cap (stream f') text) in Hs'. pose proof Hs' as (lg & Elg & Hsink & Hok & Hcap & Hq).
  exists f'. unfold vprintf. rewrite (bind_some E). unfold log_read. rewrite Elg. cbn [mbind option_bind]. rewrite Hsink. pose proof (gets_spec (gRingBuffer lg) n Hok Hn) as H.
  rewrite Hq in H. destruct (cbuf_gets (gRingBuffer lg) n) as [r rb]. destruct H as (-> & Hrb & Hc & Hcs).
  eexists. split_and!; [done|by eexists|done|].
  exists (MkLog kSink_RingBuffer rb (gConsole lg)). split_and!; [done|done|done| |done]. by rewrite <- Hcap.
Qed.

(** C9. What the kernel prints appears on the screen: when a new console was started, the
    log switches to it, and printf then writes its rendered text, of printable
    characters and line ends, to the frame buffer, where it is the text that a
    terminal with the same columns and rows shows.  This is the formatter, the parser
    of escape sequences and the drawing of the console together. *)
Theorem printf_on_screen g ps ap store v cap f q lg :
  arrays_ok g -> Forall piece_ok ps -> (forall n, Z.of_nat (length (store n)) = Z.max n 0) -> frame_buffer v ->
  let text := ps ≫= piece_render in forallb text_byte text = true -> ring_holds cap (stream f) q -> stream f = Some lg ->
  exists c s0 f1 f2, Console_Create true store v = Some (EOK, Some c) /\ Console_Start c = Some s0 /\
    log_switch_to_console (set_stream (Some (MkLog (gCurrentSink lg) (gRingBuffer lg) (Some s0))) f) = Some (true, f1) /\
    vprintf true g (ps ≫= piece_text) ((ps ≫= piece_args) ++ ap) f1 = Some f2 /\
    console_holds 2 0 kFont_VT100_US (pixelsWidth v / 8) (pixelsHeight v / 8) (Term (fun _ _ => 32) 0 0) (stream f2) text.
Proof.
  intros Hg Hps Hst Hfb text Htext (lg' & Elg' & Hsink & _) Elg. rewrite Elg in Elg'. injection Elg' as <-.
  destruct (new_console_blank store v Hst Hfb) as (c & s0 & Ec & Es & Ht). exists c, s0. unfold log_switch_to_console. cbn [stream set_stream mbind option_bind gCurrentSink]. rewrite Hsink.
  cbn [log_open_console gConsole is_ok gRingBuffer]. eexists. set (f1 := set_stream _ (set_stream _ f)).
  assert (Hs : console_holds 2 0 kFont_VT100_US (pixelsWidth v / 8) (pixelsHeight v / 8) (Term (fun _ _ => 32) 0 0) (stream f1) []) by (by eexists _, _).
  destruct (fmt_print_ready (As := console_accepts _ _ _ _ _ _) g ps ap [] f1 Hg Hps Hs Htext) as (f2 & E & Hs' & _). exists f2. unfold vprintf. by rewrite (bind_some E).
Qed.

(** With less room in the ring buffer than the padding of a field needs, printf does not
    come back, and it keeps the lock of the log. *)
Lemma printf_hangs mem fuel ch i count cap f q :
  ring_holds cap (stream f) q -> has (fm_flags f) FMT_CONTCNTONERR = false -> cap - Z.of_nat (length q) < count - i ->
  rep_loop (St := log_stream mem) fuel ch i count f = None.
Proof.
  revert i f q. induction fuel as [|fuel IH]; intros i f q Hs Hf Hroom; [done|]. destruct (ring_room _ _ _ Hs) as [Hq Hcap].
  destruct (has (fm_flags f) FMT_HASERR) eqn:He; [apply rep_loop_stuck; (done || lia)|]. cbn [rep_loop]. replace (i <? count) with true by lia.
  unfold try_char. rewrite He. cbn [negb putc_cb log_stream]. unfold lputc. destruct (lwrite_ring mem cap (stream f) q [ch] Hs) as (s' & E & Hs'); [cbn; lia|]. rewrite E. cbn [length] in Hs' |- *.
  destruct (Z.eqb_spec (Z.min (cap - Z.of_nat (length q)) (Z.of_nat 1)) 1) as [E1|E1].
  - eapply IH; [exact Hs'|done|]. rewrite length_app, length_take. cbn [length]. lia.
  - apply rep_loop_stuck; [| |lia]; cbn [set_error set_stream fm_flags].
    + change FMT_HASERR with (2 ^ 0) at 2. rewrite has_bit, Z.lor_spec by lia. apply orb_true_r.
    + revert Hf. change FMT_CONTCNTONERR with (2 ^ 1). rewrite !has_bit, Z.lor_spec by lia. by intros ->.
Qed.

(** ** Examples *)

Definition sample_log : fmt (S := option log) := log_init (replicate 256 0) None.

Lemma sample_log_ok : ring_holds 256 (stream sample_log) [].
Proof.
  eexists. split_and!; [done|done| |done|done]. split; [exists 8; by vm_compute|..]; by vm_compute.
Qed.

Lemma printf_logged_witness :
  exists f' f'', vprintf true sample_arrays (sample_pieces ≫= piece_text) (sample_pieces ≫= piece_args) sample_log = Some f' /\
    log_read 4 f' = Some ([120; 61; 45; 48], f'').
Proof.
  destruct (printf_logged true sample_arrays sample_pieces [] 256 sample_log [] 4) as (f' & f'' & E & _ & Er & _); [done|exact sample_pieces_ok|exact sample_log_ok|lia|vm_compute; congruence|].
  rewrite app_nil_r in E. exists f', f''. split; [exact E|]. rewrite Er. by vm_compute.
Defined.

Lemma printf_on_screen_witness :
  exists c s0 f1 f2, Console_Create true zeros sample_fb = Some (EOK, Some c) /\ Console_Start c = Some s0 /\
    log_switch_to_console (set_stream (Some (MkLog kSink_RingBuffer (cbuf_init_extbuf (replicate 256 0) 256) (Some s0))) sample_log) = Some (true, f1) /\
    vprintf true sample_arrays (sample_pieces ≫= piece_text) (sample_pieces ≫= piece_args) f1 = Some f2 /\
    console_holds 2 0 kFont_VT100_US 3 2 (Term (fun _ _ => 32) 0 0) (stream f2) (sample_pieces ≫= piece_render).
Proof.
  destruct (printf_on_screen sample_arrays sample_pieces [] zeros sample_fb 256 sample_log [] (MkLog kSink_RingBuffer (cbuf_init_extbuf (replicate 256 0) 256) None)) as (c & s0 & f1 & f2 & H);
    [done|exact sample_pieces_ok|exact zeros_length|exact sample_fb_ok|by vm_compute|exact sample_log_ok|done|].
  rewrite app_nil_r in H. by exists c, s0, f1, f2.
Defined.
