(* ===== verification/Stdio.v ===== *)
(** * Streams of the C library (user/lib/libc/src/stdio)

    A FILE with its buffer over the four callbacks of the stream: flushing, writing
    and reading through the buffer, positions, and the two kinds of streams that need
    no file descriptor, memory files and the null stream.  The result [None] is an
    access outside of an array or a failed assertion.  ssize_t and size_t have 32 bits,
    off_t has 64.  The locks of streams are not modelled. *)

From S2P Require Import Prelude DivMod64 Fmt.

Definition EOF : Z := -1.

Inductive buffer_mode := IONBF | IOLBF | IOFBF.
Inductive direction := kStreamDirection_Unknown | kStreamDirection_In | kStreamDirection_Out.
Inductive orientation := kStreamOrientation_Unknown | kStreamOrientation_Byte | kStreamOrientation_Wide.
Inductive whence_t := SEEK_SET | SEEK_CUR | SEEK_END.

#[export] Instance buffer_mode_eq_dec : EqDecision buffer_mode.
Proof. solve_decision. Defined.
#[export] Instance direction_eq_dec : EqDecision direction.
Proof. solve_decision. Defined.
#[export] Instance orientation_eq_dec : EqDecision orientation.
Proof. solve_decision. Defined.

Definition kStreamMode_Read : Z := 1.
Definition kStreamMode_Write : Z := 2.
Definition kStreamMode_Append : Z := 4.
Definition kStreamMode_Truncate : Z := 16.

(** The callbacks work on the context of the stream; reading also gives the bytes that
    it stored.  [cb_seek] is [None] for a NULL pointer. *)
Class FILE_Callbacks (C : Type) := {
  cb_read : C -> Z -> option (Z * list Z * C);
  cb_write : C -> list Z -> option (Z * C);
  cb_seek : option (C -> Z -> whence_t -> option (Z * C));
  cb_close : option (C -> Z * C) }.

Record FILE {C : Type} := MkFILE {
  f_context : C; f_buffer : list Z; f_bufferCapacity : Z; f_bufferCount : Z; f_bufferIndex : Z; f_ugb : Z; f_ugbCount : Z;
  f_mode : Z; f_direction : direction; f_orientation : orientation; f_bufferMode : buffer_mode; f_hasError : bool; f_hasEof : bool }.
#[global] Arguments FILE : clear implicits.

Section Stdio.
Context {C : Type} {Cb : FILE_Callbacks C}.
Implicit Types s : FILE C.

Definition set_context (c : C) s : FILE C :=
  MkFILE C c (f_buffer s) (f_bufferCapacity s) (f_bufferCount s) (f_bufferIndex s) (f_ugb s) (f_ugbCount s) (f_mode s) (f_direction s) (f_orientation s) (f_bufferMode s) (f_hasError s) (f_hasEof s).
Definition set_buffer (b : list Z) (count index : Z) s : FILE C :=
  MkFILE C (f_context s) b (f_bufferCapacity s) count index (f_ugb s) (f_ugbCount s) (f_mode s) (f_direction s) (f_orientation s) (f_bufferMode s) (f_hasError s) (f_hasEof s).
Definition set_ugb (ch n : Z) s : FILE C :=
  MkFILE C (f_context s) (f_buffer s) (f_bufferCapacity s) (f_bufferCount s) (f_bufferIndex s) ch n (f_mode s) (f_direction s) (f_orientation s) (f_bufferMode s) (f_hasError s) (f_hasEof s).
Definition set_direction (d : direction) s : FILE C :=
  MkFILE C (f_context s) (f_buffer s) (f_bufferCapacity s) (f_bufferCount s) (f_bufferIndex s) (f_ugb s) (f_ugbCount s) (f_mode s) d (f_orientation s) (f_bufferMode s) (f_hasError s) (f_hasEof s).
Definition set_orientation (o : orientation) s : FILE C :=
  MkFILE C (f_context s) (f_buffer s) (f_bufferCapacity s) (f_bufferCount s) (f_bufferIndex s) (f_ugb s) (f_ugbCount s) (f_mode s) (f_direction s) o (f_bufferMode s) (f_hasError s) (f_hasEof s).
Definition set_flags (err eof : bool) s : FILE C :=
  MkFILE C (f_context s) (f_buffer s) (f_bufferCapacity s) (f_bufferCount s) (f_bufferIndex s) (f_ugb s) (f_ugbCount s) (f_mode s) (f_direction s) (f_orientation s) (f_bufferMode s) err eof.
Definition set_hasError s : FILE C := set_flags true (f_hasEof s) s.
Definition set_hasEof s : FILE C := set_flags (f_hasError s) true s.

(** ** Arrays *)

(** memcpy of [bs] to the index [i] of an array, and from there. *)
Definition copy_to (i : Z) (bs a : list Z) : option (list Z) :=
  if (0 <=? i) && (i + Z.of_nat (length bs) <=? Z.of_nat (length a)) then Some (take (Z.to_nat i) a ++ bs ++ drop (Z.to_nat i + length bs) a) else None.
Definition copy_from (i n : Z) (a : list Z) : option (list Z) :=
  if (0 <=? i) && (i + n <=? Z.of_nat (length a)) then Some (take (Z.to_nat n) (drop (Z.to_nat i) a)) else None.

(** The first [n] bytes; [n] may be huge. *)
Definition at_most (n : Z) (l : list Z) : list Z := if Z.of_nat (length l) <=? n then l else take (Z.to_nat n) l.

(** ** Opening *)

(** __fopen_init without the flag to reinitialise; the callbacks are not NULL. *)
Definition fopen_init (context : C) (sm : Z) : FILE C :=
  MkFILE C context [] 0 0 0 0 0 (sm mod 8) kStreamDirection_Unknown kStreamOrientation_Unknown IONBF false false.

(** [buffer] is the memory that the caller gives or malloc returns. *)
Definition setvbuf (buffer : option (list Z)) (mode : buffer_mode) (size : Z) s : Z * FILE C :=
  if (2 ^ 31 - 1 <? size) || (bool_decide (mode <> IONBF) && (size <? 1)) then (EOF, s)
  else
    let s := MkFILE C (f_context s) [] 0 0 (-1) (f_ugb s) (f_ugbCount s) (f_mode s) (f_direction s) (f_orientation s) IONBF (f_hasError s) (f_hasEof s) in
    if bool_decide (mode = IONBF) then (0, s)
    else
      match buffer with
      | None => (EOF, s)
      | Some b => (0, MkFILE C (f_context s) b size (f_bufferCount s) (f_bufferIndex s) (f_ugb s) (f_ugbCount s) (f_mode s) (f_direction s) (f_orientation s) mode (f_hasError s) (f_hasEof s))
      end.

(** ** Buffers *)

Definition fflush s : option (Z * FILE C) :=
  if bool_decide (f_direction s <> kStreamDirection_Out) || (f_bufferCount s =? 0) then Some (0, s)
  else
    bs ← copy_from 0 (f_bufferCount s) (f_buffer s);
    '(r, c) ← cb_write (f_context s) bs;
    let s := set_context c s in
    if r <? 0 then Some (EOF, s)
    else
      let count := f_bufferCount s - r in
      if 0 <? count then
        bs ← copy_from r count (f_buffer s);
        b ← copy_to 0 bs (f_buffer s);
        Some (0, set_buffer b count (f_bufferIndex s) s)
      else Some (0, set_buffer (f_buffer s) count (f_bufferIndex s) s).

Definition fdiscard s : FILE C := set_buffer (f_buffer s) 0 0 s.

Definition fsetdir (dir : direction) s : option (Z * FILE C) :=
  '(r, s) ← match f_direction s with
            | kStreamDirection_Unknown => Some (0, s)
            | kStreamDirection_In => Some (0, fdiscard s)
            | kStreamDirection_Out => fflush s
            end;
  Some (r, set_direction dir s).

Definition ffill s : option (Z * FILE C) :=
  if negb (f_bufferIndex s =? f_bufferCount s) then None
  else
    '(r, bs, c) ← cb_read (f_context s) (f_bufferCapacity s);
    b ← copy_to 0 bs (f_buffer s);
    Some (r, set_buffer b (Z.max r 0) 0 (set_context c s)).

(** ** Writing *)

(** s->buffer[s->bufferCount++] = ch *)
Definition buffer_char (ch : Z) s : option (FILE C) :=
  b ← copy_to (f_bufferCount s) [ch] (f_buffer s);
  Some (set_buffer b (f_bufferCount s + 1) (f_bufferIndex s) s).

Definition fputc_ (ch : Z) s : option (Z * FILE C) :=
  if bool_decide (f_bufferMode s = IONBF) then '(r, c) ← cb_write (f_context s) [ch]; Some (r, set_context c s)
  else if (ch =? 10) && bool_decide (f_bufferMode s = IOLBF) then
    let doOpt := f_bufferCount s <? f_bufferCapacity s in
    s ← (if doOpt then buffer_char 10 s else Some s);
    '(r, s) ← fflush s;
    if r =? EOF then Some (-1, s)
    else
      s ← (if negb doOpt then buffer_char 10 s else Some s);
      Some (1, s)
  else
    '(r, s) ← (if f_bufferCount s =? f_bufferCapacity s then fflush s else Some (0, s));
    if r =? EOF then Some (-1, s)
    else
      s ← buffer_char ch s;
      Some (1, s).

Definition fwrite_bf (bytes : list Z) s : option (Z * FILE C) :=
  '(nwritten, src, s) ←
    (if f_bufferCount s <? f_bufferCapacity s then
       let nprefix := Z.min (f_bufferCapacity s - f_bufferCount s) (Z.of_nat (length bytes)) in
       b ← copy_to (f_bufferCount s) (take (Z.to_nat nprefix) bytes) (f_buffer s);
       Some (nprefix, drop (Z.to_nat nprefix) bytes, set_buffer b (f_bufferCount s + nprefix) (f_bufferIndex s) s)
     else Some (0, bytes, s));
  '(r, s) ← (if f_bufferCount s =? f_bufferCapacity s then fflush s else Some (0, s));
  if r =? EOF then Some (if 0 <? nwritten then nwritten else -1, s)
  else if (length src =? 0)%nat then Some (nwritten, s)
  else if f_bufferCapacity s <? Z.of_nat (length src) then
    '(r, c) ← cb_write (f_context s) src;
    Some (if 0 <=? r then nwritten + r else if 0 <? nwritten then nwritten else -1, set_context c s)
  else
    b ← copy_to 0 src (f_buffer s);
    let s := set_buffer b (f_bufferCount s + Z.of_nat (length src)) (f_bufferIndex s) s in
    s ← (if f_bufferCount s =? f_bufferCapacity s then '(_, s) ← fflush s; Some s else Some s);
    Some (nwritten + Z.of_nat (length src), s).

(** The loop of __fwrite_lbf: [line] is the text from psrc to src. *)
Fixpoint lbf_loop (bytes line : list Z) (nwritten : Z) s : option (Z * FILE C) :=
  match bytes with
  | [] =>
      if (length line =? 0)%nat then Some (nwritten, s)
      else
        '(r, s) ← fwrite_bf line s;
        Some (if r <? 0 then (if 0 <? nwritten then nwritten else -1) else nwritten + r, s)
  | ch :: bytes =>
      let line := line ++ [ch] in
      if ch =? 10 then
        '(r, s) ← fwrite_bf line s;
        if r <? 0 then Some (if 0 <? nwritten then nwritten else -1, s)
        else
          let nwritten := nwritten + r in
          '(r, s) ← fflush s;
          if r =? EOF then Some (if 0 <? nwritten then nwritten else -1, s)
          else lbf_loop bytes [] nwritten s
      else lbf_loop bytes line nwritten s
  end.

Definition fwrite_lbf (bytes : list Z) s : option (Z * FILE C) := lbf_loop bytes [] 0 s.

Definition fwrite_ (bytes : list Z) s : option (Z * FILE C) :=
  if (length bytes =? 0)%nat then Some (0, s)
  else
    match f_bufferMode s with
    | IONBF => '(r, c) ← cb_write (f_context s) bytes; Some (r, set_context c s)
    | IOLBF => fwrite_lbf bytes s
    | IOFBF => fwrite_bf bytes s
    end.

(** The checks at the beginning of a function; [false] is the jump to catch. *)
Definition ensure_byte_oriented s : bool * FILE C :=
  if bool_decide (f_orientation s = kStreamOrientation_Wide) then (false, set_hasError s) else (true, set_orientation kStreamOrientation_Byte s).
Definition ensure_direction (dir : direction) s : option (bool * FILE C) :=
  if bool_decide (f_direction s = dir) then Some (true, s) else '(r, s) ← fsetdir dir s; Some (negb (r =? EOF), s).
Definition begin_io (bit : Z) (dir : direction) s : option (bool * FILE C) :=
  if Z.land (f_mode s) bit =? 0 then Some (false, set_hasError s)
  else
    let '(ok, s) := ensure_byte_oriented s in
    if ok then ensure_direction dir s else Some (false, s).
Definition begin_write s : option (bool * FILE C) := if f_hasError s then Some (false, s) else begin_io kStreamMode_Write kStreamDirection_Out s.
Definition begin_read s : option (bool * FILE C) :=
  if f_hasEof s || f_hasError s then Some (false, s) else begin_io kStreamMode_Read kStreamDirection_In s.

(** char is signed; here it is a byte until it becomes an int. *)
Definition fputc (ch : Z) s : option (Z * FILE C) :=
  '(ok, s) ← begin_write s;
  if negb ok then Some (EOF, s)
  else
    '(n, s) ← fputc_ (u8 ch) s;
    Some (if n =? 1 then (s8 ch, s) else (EOF, set_hasError s)).

(** The loop of fwrite over what __fwrite did not take. *)
Fixpoint fwrite_loop (fuel : nat) (bytes : list Z) (nBytesWritten : Z) s : option (Z * FILE C) :=
  match fuel with
  | O => None
  | Datatypes.S fuel =>
      if (length bytes =? 0)%nat then Some (nBytesWritten, s)
      else
        '(res, s) ← fwrite_ (at_most (2 ^ 31 - 1) bytes) s;
        if res <=? 0 then Some (nBytesWritten, s) else fwrite_loop fuel (drop (Z.to_nat res) bytes) (nBytesWritten + res) s
  end.

(** [bytes] are the [size * count] bytes at the buffer. *)
Definition fwrite (bytes : list Z) (size count : Z) s : option (Z * FILE C) :=
  '(ok, s) ← begin_write s;
  if negb ok then Some (0, s)
  else if (size =? 0) || (count =? 0) then Some (0, s)
  else
    '(n, s) ← fwrite_loop (Datatypes.S (length bytes)) bytes 0 s;
    Some (n / size, s).

Definition fputs (str : list Z) s : option (Z * FILE C) :=
  '(ok, s) ← begin_write s;
  if negb ok then Some (EOF, s)
  else
    '(n, s) ← fwrite_ (at_most (2 ^ 31 - 1) str) s;
    Some (if 0 <=? n then (n, s) else (EOF, set_hasError s)).

Definition puts (str : list Z) s : option (Z * FILE C) :=
  '(ok, s) ← begin_write s;
  if negb ok then Some (EOF, s)
  else
    '(n, s) ← fwrite_ (at_most (2 ^ 31 - 2) str) s;
    if 0 <=? n then
      '(r, s) ← fputc_ 10 s;
      Some (if r =? 1 then (n + 1, s) else (EOF, set_hasError s))
    else Some (EOF, set_hasError s).

(** ** Reading *)

Definition fget_ugb s : option (Z * Z * FILE C) :=
  seek ← cb_seek;
  '(r, c) ← seek (f_context s) 1 SEEK_CUR;
  let s := set_context c s in
  Some (if r <? 0 then (EOF, 0, s) else (1, f_ugb s, set_ugb (f_ugb s) 0 s)).

(** The result and the character that was read. *)
Definition fgetc_ s : option (Z * Z * FILE C) :=
  if bool_decide (f_bufferMode s = IONBF) then
    if f_ugbCount s =? 0 then '(r, bs, c) ← cb_read (f_context s) 1; Some (r, default 0 (head bs), set_context c s) else fget_ugb s
  else
    '(r, s) ← (if f_bufferIndex s =? f_bufferCount s then ffill s else Some (1, s));
    if r <=? 0 then Some (r, 0, s)
    else
      bs ← copy_from (f_bufferIndex s) 1 (f_buffer s);
      Some (1, default 0 (head bs), set_buffer (f_buffer s) (f_bufferCount s) (f_bufferIndex s + 1) s).

Definition end_read (res : Z) s : FILE C := if res =? 0 then set_hasEof s else set_hasError s.

Definition fgetc s : option (Z * FILE C) :=
  '(ok, s) ← begin_read s;
  if negb ok then Some (EOF, s)
  else
    '(n, ch, s) ← fgetc_ s;
    Some (if n =? 1 then (s8 ch, s) else (EOF, end_read n s)).

(** The result and the bytes that are stored in the buffer of the caller. *)
Definition fread_ (nbytes : Z) s : option (Z * list Z * FILE C) :=
  if nbytes =? 0 then Some (0, [], s)
  else if bool_decide (f_bufferMode s = IONBF) then
    if 0 <? f_ugbCount s then
      '(r, ch, s) ← fget_ugb s;
      if r =? EOF then Some (EOF, [], s)
      else if nbytes - 1 =? 0 then Some (1, [ch], s)
      else '(r, bs, c) ← cb_read (f_context s) (nbytes - 1); Some (r, ch :: bs, set_context c s)
    else '(r, bs, c) ← cb_read (f_context s) nbytes; Some (r, bs, set_context c s)
  else
    '(nread, pre, s) ←
      (if f_bufferIndex s <? f_bufferCount s then
         let nprefix := Z.min (f_bufferCount s - f_bufferIndex s) nbytes in
         bs ← copy_from (f_bufferIndex s) nprefix (f_buffer s);
         Some (nprefix, bs, set_buffer (f_buffer s) (f_bufferCount s) (f_bufferIndex s + nprefix) s)
       else Some (0, [], s));
    let nbytes := nbytes - nread in
    if nbytes =? 0 then Some (nread, pre, s)
    else if f_bufferCapacity s <=? nbytes then
      '(r, bs, c) ← cb_read (f_context s) nbytes;
      Some (if r <=? 0 then (if 0 <? nread then nread else r) else nread + r, pre ++ bs, set_context c s)
    else
      '(r, s) ← ffill s;
      if r <=? 0 then Some (if 0 <? nread then nread else r, pre, s)
      else
        let n := Z.min nbytes r in
        bs ← copy_from 0 n (f_buffer s);
        Some (nread + n, pre ++ bs, set_buffer (f_buffer s) (f_bufferCount s) (f_bufferIndex s + n) s).

Fixpoint fread_loop (fuel : nat) (nBytesToRead : Z) (got : list Z) s : option (Z * list Z * FILE C) :=
  match fuel with
  | O => None
  | Datatypes.S fuel =>
      '(res, bs, s) ← fread_ (Z.min nBytesToRead (2 ^ 31 - 1)) s;
      if res <=? 0 then Some (res, got, s)
      else
        let got := got ++ take (Z.to_nat res) bs in
        if nBytesToRead - res =? 0 then Some (res, got, s) else fread_loop fuel (nBytesToRead - res) got s
  end.

Definition fread (size count : Z) s : option (Z * list Z * FILE C) :=
  '(ok, s) ← begin_read s;
  if negb ok then Some (0, [], s)
  else if (size =? 0) || (count =? 0) then Some (0, [], s)
  else
    '(res, got, s) ← fread_loop (Z.to_nat (size * count)) (size * count) [] s;
    Some (if (0 <? length got)%nat then (Z.of_nat (length got) / size, got, s) else (0, got, end_read res s)).

Definition ungetc (ch : Z) s : option (Z * FILE C) :=
  '(ok, s) ← begin_read s;
  if negb ok || (ch =? EOF) then Some (EOF, s)
  else if bool_decide (f_bufferMode s = IONBF) then
    if 0 <? f_ugbCount s then Some (EOF, s)
    else
      seek ← cb_seek;
      '(r, c) ← seek (f_context s) (-1) SEEK_CUR;
      let s := set_context c s in
      Some (if r <? 0 then (EOF, s) else (u8 ch, set_flags (f_hasError s) false (set_ugb (u8 ch) 1 s)))
  else if f_bufferIndex s =? 0 then Some (EOF, s)
  else
    b ← copy_to (f_bufferIndex s - 1) [u8 ch] (f_buffer s);
    Some (u8 ch, set_flags (f_hasError s) false (set_buffer b (f_bufferCount s) (f_bufferIndex s - 1) s)).

(** The loop of fgets; the result is that of the last read and the bytes. *)
Fixpoint fgets_loop (nBytesToRead : nat) (res : Z) (got : list Z) s : option (Z * list Z * FILE C) :=
  match nBytesToRead with
  | O => Some (res, got, s)
  | Datatypes.S n =>
      '(res, ch, s) ← fgetc_ s;
      if res <=? 0 then Some (res, got, s)
      else if ch =? 10 then Some (res, got ++ [ch], s)
      else fgets_loop n res (got ++ [ch]) s
  end.

(** The text that is stored with its terminator, if any, and whether the result is not NULL. *)
Definition fgets (count : Z) s : option (bool * list Z * FILE C) :=
  '(ok, s) ← begin_read s;
  if negb ok || (count <? 1) then Some (false, [], s)
  else if 0 <? count - 1 then
    '(res, got, s) ← fgets_loop (Z.to_nat (count - 1)) 0 [] s;
    Some (if (0 <? length got)%nat then (true, got ++ [0], s) else (false, [], end_read res s))
  else Some (true, [0], s).

(** ** Positions *)

Definition fgetlogicalpos s : option (Z * FILE C) :=
  seek ← cb_seek;
  '(pos, c) ← seek (f_context s) 0 SEEK_CUR;
  let s := set_context c s in
  Some (if pos <? 0 then EOF
        else if bool_decide (f_bufferMode s = IONBF) then pos - f_ugbCount s
        else match f_direction s with
             | kStreamDirection_Out => pos + f_bufferCount s
             | kStreamDirection_In => pos - (f_bufferCount s - f_bufferIndex s)
             | kStreamDirection_Unknown => pos
             end, s).

Definition ftello s : option (Z * FILE C) :=
  match cb_seek with
  | None => Some (EOF, s)
  | Some _ => '(lp, s) ← fgetlogicalpos s; Some (if 0 <=? lp then (lp, s) else (EOF, set_hasError s))
  end.

Definition fseeko (offset : Z) (whence : whence_t) s : option (Z * FILE C) :=
  match cb_seek with
  | None => Some (EOF, s)
  | Some seek =>
      '(ok, s) ← ensure_direction kStreamDirection_Unknown s;
      if negb ok then Some (EOF, s)
      else
        '(res, c) ← seek (f_context s) offset whence;
        let s := set_context c s in
        Some (if 0 <=? res then (0, set_flags (f_hasError s) false (set_ugb (f_ugb s) 0 s)) else (EOF, set_hasError s))
  end.

Definition rewind s : option (FILE C) := '(_, s) ← fseeko 0 SEEK_SET s; Some (set_flags false (f_hasEof s) s).

(** The last two steps, which put the stream on the null callbacks, are left out. *)
Definition fclose_ s : option (Z * FILE C) :=
  let s := set_ugb (f_ugb s) 0 s in
  '(r1, s) ← fflush s;
  let '(r2, c) := match cb_close with Some close => close (f_context s) | None => (0, f_context s) end in
  Some (if (r1 =? 0) && (r2 =? 0) then 0 else EOF, set_context c s).
End Stdio.
