(* ===== verification/MemFile.v ===== *)
(** * Memory files and formatted output to streams (user/lib/libc/src/stdio)

    The callbacks of memory files and of the null stream, and printf to a stream and to
    a buffer, which is a memory file.  The floating point conversions of the
    formatter are not modelled: the formats do not have them. *)

From S2P Require Import Prelude DivMod64 Fmt Stdio.

(** ** Memory files *)

Record Memory_FILE_Vars := MkMem { store : list Z; currentCapacity : Z; maximumCapacity : Z; eofPosition : Z; currentPosition : Z }.

(** What realloc returns: the block of the new size, or NULL. *)
Class Realloc := realloc : list Z -> Z -> option (list Z).

Definition at_position (pos : Z) (mp : Memory_FILE_Vars) : Memory_FILE_Vars := MkMem (store mp) (currentCapacity mp) (maximumCapacity mp) (eofPosition mp) pos.

(** The zeros of the gap at the end go to the store instead of the caller's buffer. *)
Definition mem_read (mp : Memory_FILE_Vars) (nBytesToRead : Z) : option (Z * list Z * Memory_FILE_Vars) :=
  if nBytesToRead =? 1 then
    if currentPosition mp <? currentCapacity mp then
      bs ← copy_from (currentPosition mp) 1 (store mp);
      Some (1, bs, at_position (currentPosition mp + 1) mp)
    else if currentPosition mp <? eofPosition mp then Some (1, [0], at_position (currentPosition mp + 1) mp)
    else Some (0, [], mp)
  else
    let nBytesRead := s32 (Z.min (u32 nBytesToRead) (u32 (eofPosition mp - currentPosition mp))) in
    let nBytesToCopy := s32 (Z.min (u32 nBytesRead) (u32 (currentCapacity mp - currentPosition mp))) in
    let nBytesToZero := nBytesRead - nBytesToCopy in
    '(bs, mp) ← (if 0 <? nBytesToCopy then bs ← copy_from (currentPosition mp) nBytesToCopy (store mp); Some (bs, at_position (currentPosition mp + nBytesToCopy) mp)
                 else Some ([], mp));
    mp ← (if 0 <? nBytesToZero then
            st ← copy_to (currentPosition mp) (replicate (Z.to_nat nBytesToZero) 0) (store mp);
            Some (at_position (currentPosition mp + nBytesToZero) (MkMem st (currentCapacity mp) (maximumCapacity mp) (eofPosition mp) (currentPosition mp)))
          else Some mp);
    Some (nBytesRead, bs, mp).

Definition mem_grow `{Realloc} (mp : Memory_FILE_Vars) (newCurrentPosition : Z) : option Memory_FILE_Vars :=
  if (currentCapacity mp <? newCurrentPosition) && (currentCapacity mp <? maximumCapacity mp) then
    let autoGrowCapacity := if 0 <? currentCapacity mp then u32 (currentCapacity mp * 2) else 512 in
    let newCapacity := Z.min (Z.max autoGrowCapacity newCurrentPosition) (maximumCapacity mp) in
    match realloc (store mp) newCapacity with
    | None => Some mp
    | Some st =>
        let nBytesToClear := if currentCapacity mp <? eofPosition mp then u32 (newCapacity - currentCapacity mp) else 0 in
        st ← (if nBytesToClear =? 0 then Some st else copy_to (currentCapacity mp) (replicate (Z.to_nat nBytesToClear) 0) st);
        Some (MkMem st newCapacity (maximumCapacity mp) (eofPosition mp) (currentPosition mp))
    end
  else Some mp.

Definition mem_write `{Realloc} (mp : Memory_FILE_Vars) (pBytes : list Z) : option (Z * Memory_FILE_Vars) :=
  mp ← mem_grow mp (u32 (currentPosition mp + Z.of_nat (length pBytes)));
  let nBytesWritten := s32 (Z.min (Z.of_nat (length pBytes)) (u32 (currentCapacity mp - currentPosition mp))) in
  if nBytesWritten =? 0 then Some (-1, mp)
  else
    st ← copy_to (currentPosition mp) (take (Z.to_nat nBytesWritten) pBytes) (store mp);
    let pos := u32 (currentPosition mp + nBytesWritten) in
    Some (nBytesWritten, MkMem st (currentCapacity mp) (maximumCapacity mp) (if eofPosition mp <? pos then pos else eofPosition mp) pos).

Definition mem_seek (mp : Memory_FILE_Vars) (offset : Z) (whence : whence_t) : option (Z * Memory_FILE_Vars) :=
  let newOffset := match whence with SEEK_CUR => s64 (currentPosition mp + offset) | SEEK_END => s64 (eofPosition mp + offset) | SEEK_SET => offset end in
  if (newOffset <? 0) || (2 ^ 32 - 1 <? newOffset) then Some (EOF, mp)
  else Some (newOffset, MkMem (store mp) (currentCapacity mp) (maximumCapacity mp) (if eofPosition mp <? newOffset then newOffset else eofPosition mp) newOffset).

(** Freeing the store is left out; [store] is NULL afterwards. *)
Definition mem_close (mp : Memory_FILE_Vars) : Z * Memory_FILE_Vars := (0, MkMem [] (currentCapacity mp) (maximumCapacity mp) (eofPosition mp) (currentPosition mp)).

#[export] Instance FILE_mem_callbacks `{Realloc} : FILE_Callbacks Memory_FILE_Vars :=
  { cb_read := mem_read; cb_write := mem_write; cb_seek := Some mem_seek; cb_close := Some mem_close }.

Record FILE_Memory := MkFILE_Memory { base : list Z; initialEof : Z; initialCapacity : Z; fm_maximumCapacity : Z }.

Definition fopen_memory_init (mem : FILE_Memory) (sm : Z) : FILE Memory_FILE_Vars :=
  let mp := if Z.land sm kStreamMode_Append =? kStreamMode_Append then MkMem (base mem) (initialCapacity mem) (fm_maximumCapacity mem) (initialEof mem) (initialEof mem)
            else if Z.land sm kStreamMode_Truncate =? kStreamMode_Truncate then MkMem (base mem) (initialCapacity mem) (fm_maximumCapacity mem) 0 0
            else MkMem (base mem) (initialCapacity mem) (fm_maximumCapacity mem) (initialEof mem) 0 in
  fopen_init mp sm.

(** ** The null stream *)

#[export] Instance FILE_null_callbacks : FILE_Callbacks unit :=
  { cb_read c _ := Some (0, [], c); cb_write c bs := Some (Z.of_nat (length bs), c); cb_seek := None; cb_close := None }.

Definition fopen_null_init (sm : Z) : FILE unit := fopen_init tt sm.

(** ** Formatted output *)

(** The formatter writes with __fputc and __fwrite; after an access outside of an array
    the stream is [None]. *)
#[export] Instance FILE_stream {C} `{FILE_Callbacks C} : Stream (option (FILE C)) := {
  putc_cb ch s := match (s ← s; fputc_ ch s) with Some (r, s) => (r, Some s) | None => (-1, None) end;
  write_cb s bs := match (s ← s; fwrite_ bs s) with Some (r, s) => (r, Some s) | None => (-1, None) end }.

Definition vfprintf {C} `{FILE_Callbacks C} (g : garbage) (format : list Z) (ap : list va_value) (s : FILE C) : option (Z * FILE C) :=
  '(ok, s) ← begin_write s;
  if negb ok then Some (EOF, s)
  else
    '(res, f) ← fmt_print g format ap (fmt_init_i (Some s) false);
    s ← stream f;
    Some (if 0 <=? res then (res, s) else (EOF, set_hasError s)).

Definition snprintf_mode : Z := Z.lor (Z.lor (Z.lor kStreamMode_Write kStreamMode_Truncate) 32) 0x4000.

(** The buffer of the caller and the result; [bufsiz] is the length of the buffer. *)
Definition vsnprintf `{Realloc} (g : garbage) (buffer : option (list Z)) (format : list Z) (ap : list va_value) : option (Z * option (list Z)) :=
  match buffer with
  | Some ((_ :: _) as buffer) =>
      b ← copy_to 0 [0] buffer;
      let cap := Z.of_nat (length b) - 1 in
      '(r, f) ← fmt_print g format ap (fmt_init_i (Some (fopen_memory_init (MkFILE_Memory b 0 cap cap) snprintf_mode)) true);
      s ← stream f;
      '(_, _) ← fclose_ s;
      let b := store (f_context s) in
      if 0 <=? r then b ← copy_to r [0] b; Some (r, Some b) else Some (EOF, Some b)
  | _ =>
      '(r, f) ← fmt_print g format ap (fmt_init_i (Some (fopen_null_init snprintf_mode)) true);
      s ← stream f;
      Some (if 0 <=? r then r else EOF, buffer)
  end.
