(* ===== verification/StdioThm.v ===== *)
(** * Output through streams

    Writing to a stream, whatever its buffer and its mode, against the text that the
    device behind it has got and the text that waits in the buffer; printf to streams and
    to buffers. *)

From Stdlib Require Import ZifyBool.
From S2P Require Import Prelude DivMod64 Fmt FmtThm Stdio MemFile.

(** ** Arrays *)

Lemma copy_to_spec i bs a :
  0 <= i -> i + Z.of_nat (length bs) <= Z.of_nat (length a) ->
  exists a', copy_to i bs a = Some a' /\ length a' = length a /\ take (Z.to_nat i + length bs) a' = take (Z.to_nat i) a ++ bs /\ drop (Z.to_nat i + length bs) a' = drop (Z.to_nat i + length bs) a.
Proof.
  intros Hi Hl. unfold copy_to. replace (_ && _) with true by lia. assert (Hti : length (take (Z.to_nat i) a) = Z.to_nat i) by (rewrite length_take; lia).
  eexists. split; [done|]. rewrite !length_app, length_drop, Hti. split; [lia|]. rewrite app_assoc.
  assert (Hlen : (Z.to_nat i + length bs)%nat = length (take (Z.to_nat i) a ++ bs)) by (by rewrite length_app, Hti). rewrite Hlen at 1 3. by rewrite take_app_length, drop_app_length.
Qed.

Lemma copy_from_spec i n a : 0 <= i -> i + n <= Z.of_nat (length a) -> copy_from i n a = Some (take (Z.to_nat n) (drop (Z.to_nat i) a)).
Proof. intros Hi Hl. unfold copy_from. by replace (_ && _) with true by lia. Qed.

(** ** Devices *)

(** A device that takes what [dev_fits] at once. *)
Class OutputDevice (C : Type) {Cb : FILE_Callbacks C} := {
  dev_holds : C -> list Z -> Prop;
  dev_fits : list Z -> Prop;
  dev_prefix : forall a b, dev_fits (a ++ b) -> dev_fits a;
  dev_write : forall c l bs, dev_holds c l -> bs <> [] -> dev_fits (l ++ bs) ->
    exists c', cb_write c bs = Some (Z.of_nat (length bs), c') /\ dev_holds c' (l ++ bs) }.

Section Output.
Context {C : Type} {Cb : FILE_Callbacks C} {Dev : OutputDevice C}.
Implicit Types s : FILE C.

(** The text that waits in the buffer. *)
Definition waiting (s : FILE C) : list Z := take (Z.to_nat (f_bufferCount s)) (f_buffer s).

Record buffered (s : FILE C) : Prop := {
  bo_dir : f_direction s = kStreamDirection_Out;
  bo_len : Z.of_nat (length (f_buffer s)) = f_bufferCapacity s;
  bo_cap : 0 < f_bufferCapacity s;
  bo_count : 0 <= f_bufferCount s <= f_bufferCapacity s }.

(** [l] was written to the stream: the device has got it up to what waits. *)
Definition stream_holds (s : FILE C) (l : list Z) : Prop :=
  if bool_decide (f_bufferMode s = IONBF) then f_bufferCount s = 0 /\ dev_holds (f_context s) l
  else buffered s /\ exists d, dev_holds (f_context s) d /\ l = d ++ waiting s.

(** Writing changes only the context and the buffer. *)
Definition same_stream (s s' : FILE C) : Prop :=
  exists c b n, s' = set_buffer b n (f_bufferIndex s) (set_context c s).

Lemma same_refl s : same_stream s s.
Proof. exists (f_context s), (f_buffer s), (f_bufferCount s). by destruct s. Qed.

Lemma same_trans s1 s2 s3 : same_stream s1 s2 -> same_stream s2 s3 -> same_stream s1 s3.
Proof. intros (c & b & n & ->) (c' & b' & n' & ->). by exists c', b', n'. Qed.

Lemma waiting_len s : buffered s -> Z.of_nat (length (waiting s)) = f_bufferCount s.
Proof. intros []. unfold waiting. rewrite length_take. lia. Qed.

(** A buffered stream after bytes were appended to the buffer. *)
Lemma append_waiting bs s :
  buffered s -> f_bufferCount s + Z.of_nat (length bs) <= f_bufferCapacity s ->
  exists b, copy_to (f_bufferCount s) bs (f_buffer s) = Some b /\
    let s' := set_buffer b (f_bufferCount s + Z.of_nat (length bs)) (f_bufferIndex s) s in buffered s' /\ waiting s' = waiting s ++ bs.
Proof.
  intros [H1 H2 H3 H4] Hfit. destruct (copy_to_spec (f_bufferCount s) bs (f_buffer s)) as (b & E & Hlen & Ht & _); [lia|lia|]. exists b. split; [done|].
  split; [split; cbn; (done || lia)|]. unfold waiting. cbn. rewrite <- Ht. f_equal. lia.
Qed.

Lemma flush_out s l :
  f_bufferMode s <> IONBF -> stream_holds s l -> dev_fits l ->
  exists s', fflush s = Some (0, s') /\ same_stream s s' /\ buffered s' /\ f_bufferCount s' = 0 /\ dev_holds (f_context s') l.
Proof.
  intros Hm Hs Hfit. unfold stream_holds in Hs. rewrite bool_decide_false in Hs by done. destruct Hs as (Hb & d & Hd & ->). pose proof (waiting_len s Hb) as Hw. pose proof Hb as [H1 H2 H3 H4].
  unfold fflush. rewrite bool_decide_false by (rewrite H1; by intros []). cbn [orb]. destruct (Z.eqb_spec (f_bufferCount s) 0) as [E0|Hn0].
  - exists s. split_and!; [done|apply same_refl|done|done|]. unfold waiting. rewrite E0. cbn. by rewrite app_nil_r.
  - rewrite copy_from_spec by lia. change (drop (Z.to_nat 0) (f_buffer s)) with (f_buffer s). fold (waiting s). cbn [mbind option_bind].
    destruct (dev_write (f_context s) d (waiting s) Hd) as (c & E & Hc); [intros E; rewrite E in Hw; cbn in Hw; lia|done|].
    rewrite (bind_some E). rewrite Hw. replace (f_bufferCount s <? 0) with false by lia. cbn [set_context f_bufferCount]. rewrite Z.sub_diag. cbn match.
    eexists. split; [done|]. split_and!; [by eexists _, _, _|split; cbn; (done || lia)|done|done].
Qed.
Lemma same_mode s s' : same_stream s s' -> f_bufferMode s' = f_bufferMode s /\ f_bufferCapacity s' = f_bufferCapacity s /\ f_direction s' = f_direction s /\ f_hasError s' = f_hasError s.
Proof. by intros (c & b & n & ->). Qed.

Lemma holds_intro s l d : f_bufferMode s <> IONBF -> buffered s -> dev_holds (f_context s) d -> l = d ++ waiting s -> stream_holds s l.
Proof. intros Hm Hb Hd ->. unfold stream_holds. rewrite bool_decide_false by done. split; [done|]. by exists d. Qed.

Lemma holds_empty s l : f_bufferMode s <> IONBF -> buffered s -> f_bufferCount s = 0 -> dev_holds (f_context s) l -> stream_holds s l.
Proof. intros Hm Hb Hc Hd. apply (holds_intro s l l); [done|done|done|]. unfold waiting. rewrite Hc. cbn. by rewrite app_nil_r. Qed.

(** Appending to the buffer. *)
Lemma append_out bs s l :
  f_bufferMode s <> IONBF -> stream_holds s l -> f_bufferCount s + Z.of_nat (length bs) <= f_bufferCapacity s ->
  exists b, copy_to (f_bufferCount s) bs (f_buffer s) = Some b /\
    let s' := set_buffer b (f_bufferCount s + Z.of_nat (length bs)) (f_bufferIndex s) s in stream_holds s' (l ++ bs) /\ same_stream s s'.
Proof.
  intros Hm Hs Hfit. unfold stream_holds in Hs. rewrite bool_decide_false in Hs by done. destruct Hs as (Hb & d & Hd & ->). destruct (append_waiting bs s Hb Hfit) as (b & E & Hb' & Hw).
  exists b. split; [done|]. split; [|exists (f_context s), b, (f_bufferCount s + Z.of_nat (length bs)); by destruct s]. apply (holds_intro _ _ d); [done|done|done|]. by rewrite Hw, app_assoc.
Qed.

Lemma buffer_char_out ch s l :
  f_bufferMode s <> IONBF -> stream_holds s l -> f_bufferCount s < f_bufferCapacity s -> exists s', buffer_char ch s = Some s' /\ stream_holds s' (l ++ [ch]) /\ same_stream s s'.
Proof. intros Hm Hs Hc. unfold buffer_char. destruct (append_out [ch] s l Hm Hs) as (b & E & Hs' & Hsame); [cbn; lia|]. rewrite (bind_some E). by eexists. Qed.

Lemma holds_buffered s l : f_bufferMode s <> IONBF -> stream_holds s l -> buffered s.
Proof. intros Hm Hs. unfold stream_holds in Hs. rewrite bool_decide_false in Hs by done. apply Hs. Qed.

(** A full buffer is flushed before a character is put into it. *)
Lemma make_room s l :
  f_bufferMode s <> IONBF -> stream_holds s l -> dev_fits l ->
  exists s', (if f_bufferCount s =? f_bufferCapacity s then fflush s else Some (0, s)) = Some (0, s') /\ stream_holds s' l /\ same_stream s s' /\ f_bufferCount s' < f_bufferCapacity s' /\
    (f_bufferCount s = f_bufferCapacity s -> f_bufferCount s' = 0 /\ dev_holds (f_context s') l).
Proof.
  intros Hm Hs Hfit. pose proof (holds_buffered s l Hm Hs) as [H1 H2 H3 H4]. destruct (Z.eqb_spec (f_bufferCount s) (f_bufferCapacity s)) as [E|E].
  - destruct (flush_out s l Hm Hs Hfit) as (s' & Ef & Hsame & Hb & Hc & Hd). pose proof (same_mode _ _ Hsame) as (Em & Ec & _). exists s'. split_and!; [done| |done|rewrite Hc, Ec; lia|done].
    apply holds_empty; [by rewrite Em|done..].
  - exists s. split_and!; [done|done|apply same_refl|lia|lia].
Qed.

Lemma fputc_out ch s l :
  stream_holds s l -> dev_fits (l ++ [ch]) -> exists s', fputc_ ch s = Some (1, s') /\ stream_holds s' (l ++ [ch]) /\ same_stream s s'.
Proof.
  intros Hs Hfit. unfold fputc_. destruct (decide (f_bufferMode s = IONBF)) as [Hm|Hm].
  - rewrite bool_decide_true by done. unfold stream_holds in Hs. rewrite bool_decide_true in Hs by done. destruct Hs as [Hc Hd].
    destruct (dev_write (f_context s) l [ch] Hd ltac:(done) Hfit) as (c & E & Hd'). rewrite (bind_some E). eexists. split; [done|]. split.
    + unfold stream_holds. by rewrite bool_decide_true by done.
    + exists c, (f_buffer s), (f_bufferCount s). by destruct s.
  - rewrite bool_decide_false by done. pose proof (dev_prefix _ _ Hfit) as Hfl. destruct ((ch =? 10) && bool_decide (f_bufferMode s = IOLBF)) eqn:Eline.
    + assert (ch = 10) as -> by lia. destruct (Z.ltb_spec (f_bufferCount s) (f_bufferCapacity s)); cbn [negb].
      * destruct (buffer_char_out 10 s l Hm Hs ltac:(done)) as (s1 & E1 & Hs1 & Hsame1). rewrite (bind_some E1). pose proof (same_mode _ _ Hsame1) as (Em & _). rewrite <- Em in Hm.
        destruct (flush_out s1 _ Hm Hs1 Hfit) as (s2 & E2 & Hsame2 & Hb2 & Hc2 & Hd2). rewrite (bind_some E2). cbn. exists s2. split; [done|]. split; [|by eapply same_trans].
        apply holds_empty; [by rewrite (proj1 (same_mode _ _ Hsame2))|done..].
      * cbn [mbind option_bind]. destruct (flush_out s l Hm Hs Hfl) as (s1 & E1 & Hsame1 & Hb1 & Hc1 & Hd1). rewrite (bind_some E1). cbn match. change (0 =? EOF) with false. cbn match.
        pose proof (same_mode _ _ Hsame1) as (Em & _). rewrite <- Em in Hm. destruct (buffer_char_out 10 s1 l Hm) as (s2 & E2 & Hs2 & Hsame2); [by apply holds_empty|destruct Hb1; lia|].
        rewrite (bind_some E2). exists s2. split_and!; [done|done|by eapply same_trans].
    + destruct (make_room s l Hm Hs Hfl) as (s1 & E1 & Hs1 & Hsame1 & Hroom & _). rewrite (bind_some E1). change (0 =? EOF) with false. cbn match.
      pose proof (same_mode _ _ Hsame1) as (Em & _). rewrite <- Em in Hm. destruct (buffer_char_out ch s1 l Hm Hs1 Hroom) as (s2 & E2 & Hs2 & Hsame2).
      rewrite (bind_some E2). exists s2. split_and!; [done|done|by eapply same_trans].
Qed.

(** The first part of a block goes to the buffer. *)
Lemma fill_out bytes s l :
  f_bufferMode s <> IONBF -> stream_holds s l ->
  exists k s', (k <= length bytes)%nat /\ (Z.of_nat k = Z.min (f_bufferCapacity s - f_bufferCount s) (Z.of_nat (length bytes))) /\
    (if f_bufferCount s <? f_bufferCapacity s then
       let nprefix := Z.min (f_bufferCapacity s - f_bufferCount s) (Z.of_nat (length bytes)) in
       b ← copy_to (f_bufferCount s) (take (Z.to_nat nprefix) bytes) (f_buffer s);
       Some (nprefix, drop (Z.to_nat nprefix) bytes, set_buffer b (f_bufferCount s + nprefix) (f_bufferIndex s) s)
     else Some (0, bytes, s)) = Some (Z.of_nat k, drop k bytes, s') /\
    stream_holds s' (l ++ take k bytes) /\ same_stream s s' /\ f_bufferCount s' = f_bufferCount s + Z.of_nat k.
Proof.
  intros Hm Hs. pose proof (holds_buffered s l Hm Hs) as [H1 H2 H3 H4]. set (n := Z.min _ _). exists (Z.to_nat n). destruct (Z.ltb_spec (f_bufferCount s) (f_bufferCapacity s)).
  - cbn zeta. destruct (append_out (take (Z.to_nat n) bytes) s l Hm Hs) as (b & E & Hs' & Hsame); [rewrite length_take; lia|]. rewrite (bind_some E).
    assert (En : Z.of_nat (length (take (Z.to_nat n) bytes)) = n) by (rewrite length_take; lia). rewrite En in Hs', Hsame. eexists. split_and!; [lia|lia| |exact Hs'|exact Hsame|cbn; lia].
    do 2 f_equal. f_equal. lia.
  - replace n with 0 by lia. exists s. split_and!; [lia|done|done| |apply same_refl|lia]. cbn. by rewrite app_nil_r.
Qed.

Lemma fwrite_bf_out bytes s l :
  f_bufferMode s <> IONBF -> stream_holds s l -> dev_fits (l ++ bytes) ->
  exists s', fwrite_bf bytes s = Some (Z.of_nat (length bytes), s') /\ stream_holds s' (l ++ bytes) /\ same_stream s s'.
Proof.
  intros Hm Hs Hfit. unfold fwrite_bf. destruct (fill_out bytes s l Hm Hs) as (k & s1 & Hk & Hkz & E1 & Hs1 & Hsame1 & Hc1). rewrite (bind_some E1). cbn match.
  assert (Hsplit : l ++ bytes = (l ++ take k bytes) ++ drop k bytes) by (by rewrite <- app_assoc, take_drop). pose proof (same_mode _ _ Hsame1) as (Em1 & Ec1 & _). assert (Hm1 : f_bufferMode s1 <> IONBF) by congruence.
  pose proof Hfit as Hfk. rewrite Hsplit in Hfk. destruct (make_room s1 _ Hm1 Hs1 (dev_prefix _ _ Hfk)) as (s2 & E2 & Hs2 & Hsame2 & Hroom & Hfull). rewrite (bind_some E2). change (0 =? EOF) with false. cbn match.
  pose proof (same_mode _ _ Hsame2) as (Em2 & Ec2 & _). pose proof (same_trans _ _ _ Hsame1 Hsame2) as Hsame12. rewrite length_drop.
  destruct (Nat.eqb_spec (length bytes - k) 0) as [E0|En0].
  - exists s2. split_and!; [do 2 f_equal; lia| |done]. rewrite firstn_all2 in Hs2 by lia. done.
  - assert (Hful : f_bufferCount s1 = f_bufferCapacity s1) by (rewrite Ec1, Hc1; lia). destruct (Hfull Hful) as [Hc2 Hd2]. destruct (Z.ltb_spec (f_bufferCapacity s2) (Z.of_nat (length bytes - k))).
    + destruct (dev_write (f_context s2) _ (drop k bytes) Hd2) as (c & Ew & Hd3); [intros E; apply (f_equal length) in E; rewrite length_drop in E; cbn in E; lia|done|].
      rewrite (bind_some Ew), length_drop. replace (0 <=? Z.of_nat (length bytes - k)) with true by lia. eexists. split; [do 2 f_equal; lia|]. split.
      * apply holds_empty; [cbn; congruence| |done|by rewrite Hsplit]. pose proof (holds_buffered s2 _ ltac:(congruence) Hs2) as []. by split.
      * eapply same_trans; [exact Hsame12|]. exists c, (f_buffer s2), (f_bufferCount s2). by destruct s2.
    + destruct (append_out (drop k bytes) s2 (l ++ take k bytes)) as (b & E3 & Hs3 & Hsame3); [congruence|done|rewrite length_drop; lia|]. rewrite Hc2 in E3. rewrite (bind_some E3).
      rewrite length_drop in Hs3, Hsame3. rewrite <- Hsplit in Hs3. set (s3 := set_buffer b _ _ s2) in *. pose proof (same_mode _ _ Hsame3) as (Em3 & _).
      destruct (make_room s3 _ ltac:(congruence) Hs3 Hfit) as (s4 & E4 & Hs4 & Hsame4 & _). exists s4. split_and!; [|done|exact (same_trans _ _ _ Hsame12 (same_trans _ _ _ Hsame3 Hsame4))].
      destruct (f_bufferCount s3 =? f_bufferCapacity s3); [rewrite (bind_some E4)|injection E4 as <-]; cbn; do 2 f_equal; lia.
Qed.

Lemma lbf_loop_out bytes : forall line n s l,
  f_bufferMode s <> IONBF -> stream_holds s l -> dev_fits (l ++ line ++ bytes) -> 0 <= n ->
  exists s', lbf_loop bytes line n s = Some (n + Z.of_nat (length (line ++ bytes)), s') /\ stream_holds s' (l ++ line ++ bytes) /\ same_stream s s'.
Proof.
  induction bytes as [|ch bytes IH]; intros line n s l Hm Hs Hfit Hn; cbn [lbf_loop].
  - rewrite app_nil_r in *. destruct (Nat.eqb_spec (length line) 0) as [E0|E0].
    + apply nil_length_inv in E0 as ->. exists s. split_and!; [do 2 f_equal; cbn; lia|by rewrite app_nil_r|apply same_refl].
    + destruct (fwrite_bf_out line s l Hm Hs Hfit) as (s' & E & Hs' & Hsame). rewrite (bind_some E). exists s'. split_and!; [|done|done]. by replace (_ <? 0) with false by lia.
  - replace (line ++ ch :: bytes) with ((line ++ [ch]) ++ bytes) in Hfit |- * by (by rewrite <- app_assoc). destruct (Z.eqb_spec ch 10) as [->|Hch]; [|by apply IH].
    pose proof Hfit as Hf2. rewrite app_assoc in Hf2. destruct (fwrite_bf_out (line ++ [10]) s l Hm Hs (dev_prefix _ _ Hf2)) as (s1 & E1 & Hs1 & Hsame1). rewrite (bind_some E1).
    replace (_ <? 0) with false by lia. pose proof (same_mode _ _ Hsame1) as (Em1 & _). destruct (flush_out s1 _ ltac:(congruence) Hs1 (dev_prefix _ _ Hf2)) as (s2 & E2 & Hsame2 & Hb2 & Hc2 & Hd2).
    rewrite (bind_some E2). change (0 =? EOF) with false. cbn match. pose proof (same_mode _ _ Hsame2) as (Em2 & _).
    destruct (IH [] (n + Z.of_nat (length (line ++ [10]))) s2 (l ++ line ++ [10])) as (s3 & E3 & Hs3 & Hsame3); [congruence|apply holds_empty; (done || congruence)|by cbn|lia|].
    exists s3. rewrite E3. cbn [app] in *. split_and!; [do 2 f_equal; rewrite !length_app; lia|by rewrite app_assoc|]. eapply same_trans; [exact Hsame1|]. by eapply same_trans.
Qed.

Lemma fwrite_out bytes s l :
  stream_holds s l -> dev_fits (l ++ bytes) -> exists s', fwrite_ bytes s = Some (Z.of_nat (length bytes), s') /\ stream_holds s' (l ++ bytes) /\ same_stream s s'.
Proof.
  intros Hs Hfit. unfold fwrite_. destruct (Nat.eqb_spec (length bytes) 0) as [E0|E0].
  - apply nil_length_inv in E0 as ->. exists s. rewrite app_nil_r. split_and!; [done|done|apply same_refl].
  - destruct (f_bufferMode s) eqn:Em.
    + unfold stream_holds in Hs. rewrite Em, bool_decide_true in Hs by done. destruct Hs as [Hc Hd]. destruct (dev_write (f_context s) l bytes Hd ltac:(by intros ->) Hfit) as (c & E & Hd').
      rewrite (bind_some E). eexists. split_and!; [done| |exists c, (f_buffer s), (f_bufferCount s); by destruct s]. unfold stream_holds. cbn. by rewrite Em, bool_decide_true.
    + destruct (lbf_loop_out bytes [] 0 s l) as (s' & E & H); [congruence|done|done|lia|]. exists s'. unfold fwrite_lbf. by rewrite E.
    + apply fwrite_bf_out; [congruence|done|done].
Qed.

(** A stream is a stream of the formatter. *)
Lemma file_accepts (s0 : FILE C) : AcceptingStream (St := FILE_stream) (option (FILE C)).
Proof.
  refine {| holds o l := exists s, o = Some s /\ stream_holds s l /\ same_stream s0 s; fits := dev_fits |}.
  - apply dev_prefix.
  - intros ch o l (s & -> & Hs & Hsame) Hfit. destruct (fputc_out ch s l Hs Hfit) as (s' & E & Hs' & Hsame'). cbn. rewrite E. eexists. split; [done|]. exists s'.
    split_and!; [done|done|exact (same_trans _ _ _ Hsame Hsame')].
  - intros o str l (s & -> & Hs & Hsame) Hfit. destruct (fwrite_out str s l Hs Hfit) as (s' & E & Hs' & Hsame'). cbn. rewrite E. eexists. split; [done|]. exists s'.
    split_and!; [done|done|exact (same_trans _ _ _ Hsame Hsame')].
Defined.

(** ** The functions of programs *)

(** A stream that is open for writing, with nothing read from it. *)
Record out_stream (s : FILE C) (l : list Z) : Prop := {
  os_error : f_hasError s = false;
  os_mode : Z.land (f_mode s) kStreamMode_Write <> 0;
  os_bytes : f_orientation s <> kStreamOrientation_Wide;
  os_dir : f_direction s = kStreamDirection_Out \/ f_direction s = kStreamDirection_Unknown /\ f_bufferCount s = 0;
  os_holds : stream_holds (set_direction kStreamDirection_Out s) l }.

Lemma holds_orientation o s l : stream_holds s l -> stream_holds (set_orientation o s) l.
Proof. unfold stream_holds. cbn. destruct (bool_decide _); [done|]. intros [[] ?]. split; [by split|done]. Qed.

Lemma begin_write_out s l :
  out_stream s l -> exists s', begin_write s = Some (true, s') /\ out_stream s' l /\ f_direction s' = kStreamDirection_Out /\ stream_holds s' l.
Proof.
  intros [H1 H2 H3 H4 H5]. unfold begin_write, begin_io, ensure_byte_oriented, ensure_direction. rewrite H1, (proj2 (Z.eqb_neq _ 0) H2), (bool_decide_false _ H3). cbn [f_direction set_orientation].
  exists (set_direction kStreamDirection_Out (set_orientation kStreamOrientation_Byte s)). split; [|apply (holds_orientation kStreamOrientation_Byte) in H5; split_and!; [|done|exact H5]; split; try done; by left].
  destruct H4 as [Hd|[Hd Hc]]; rewrite Hd; cbn.
  - rewrite bool_decide_true by done. do 3 f_equal. destruct s; cbn in *; by subst.
  - rewrite bool_decide_false by done. unfold fsetdir. cbn. by rewrite Hd.
Qed.

Lemma out_same s s' l l' : out_stream s l -> f_direction s = kStreamDirection_Out -> same_stream s s' -> stream_holds s' l' -> out_stream s' l'.
Proof.
  intros [H1 H2 H3 H4 H5] Hd (c & b & n & ->) Hs. split; try done; [by left|]. replace (set_direction kStreamDirection_Out _) with (set_buffer b n (f_bufferIndex s) (set_context c s)); [done|].
  destruct s; cbn in *; by subst.
Qed.

Inductive out_op := OPutc (ch : Z) | OPuts (str : list Z) | OWrite (bytes : list Z) | OPrintf (ps : list piece) | OFlush.

Definition out_exec (g : garbage) (o : out_op) (s : FILE C) : option (Z * FILE C) :=
  match o with
  | OPutc ch => fputc ch s
  | OPuts str => fputs str s
  | OWrite bytes => fwrite bytes 1 (Z.of_nat (length bytes)) s
  | OPrintf ps => vfprintf g (ps ≫= piece_text) (ps ≫= piece_args) s
  | OFlush => fflush s
  end.

(** What the operation adds to the stream, and what it returns. *)
Definition out_text (o : out_op) : list Z := match o with OPutc ch => [u8 ch] | OPuts l | OWrite l => l | OPrintf ps => ps ≫= piece_render | OFlush => [] end.
Definition out_result (o : out_op) : Z :=
  match o with
  | OPutc ch => s8 ch
  | OPuts l | OWrite l => Z.of_nat (length l)
  | OPrintf ps => Z.min (u32 (Z.of_nat (length (ps ≫= piece_render)))) (2 ^ 31 - 1)
  | OFlush => 0
  end.
Definition out_op_ok (o : out_op) : Prop := match o with OPuts l | OWrite l => Z.of_nat (length l) < 2 ^ 31 | OPrintf ps => Forall piece_ok ps | _ => True end.

Lemma at_most_all n l : Z.of_nat (length l) <= n -> at_most n l = l.
Proof. intros H. unfold at_most. by replace (_ <=? n) with true by lia. Qed.

Lemma fwrite_loop_out fuel bytes s l :
  (length bytes < fuel)%nat -> Z.of_nat (length bytes) < 2 ^ 31 -> stream_holds s l -> dev_fits (l ++ bytes) ->
  exists s', fwrite_loop fuel bytes 0 s = Some (Z.of_nat (length bytes), s') /\ stream_holds s' (l ++ bytes) /\ same_stream s s'.
Proof.
  intros Hf Hlen Hs Hfit. destruct fuel as [|fuel]; [lia|]. cbn [fwrite_loop]. destruct (Nat.eqb_spec (length bytes) 0) as [E0|E0].
  - apply nil_length_inv in E0 as ->. exists s. rewrite app_nil_r. split_and!; [done|done|apply same_refl].
  - rewrite at_most_all by lia. destruct (fwrite_out bytes s l Hs Hfit) as (s' & E & H). rewrite (bind_some E). replace (_ <=? 0) with false by lia. rewrite Nat2Z.id, drop_all. exists s'.
    destruct fuel as [|fuel]; [lia|]. by cbn.
Qed.

Lemma flush_device s l : out_stream s l -> dev_fits l -> exists s', fflush s = Some (0, s') /\ out_stream s' l /\ dev_holds (f_context s') l.
Proof.
  intros Ho Hfit. pose proof Ho as [H1 H2 H3 H4 H5]. destruct (decide (f_bufferCount s = 0)) as [E0|E0].
  - exists s. unfold fflush. rewrite E0, orb_true_r. split_and!; [done|done|]. unfold stream_holds in H5. cbn in H5. destruct (bool_decide _); [apply H5|]. destruct H5 as (_ & d & Hd & ->).
    unfold waiting. cbn. rewrite E0. cbn. by rewrite app_nil_r.
  - destruct H4 as [Hd|[_ Hc]]; [|done]. assert (Hs : stream_holds s l) by (replace s with (set_direction kStreamDirection_Out s); [done|destruct s; cbn in *; by subst]).
    assert (Hm : f_bufferMode s <> IONBF) by (intros Em; unfold stream_holds in Hs; rewrite Em, bool_decide_true in Hs by done; by destruct Hs).
    destruct (flush_out s l Hm Hs Hfit) as (s' & E & Hsame & Hb & Hc & Hdv). exists s'. split_and!; [done| |done]. eapply out_same; [done|done|done|]. apply holds_empty; [by rewrite (proj1 (same_mode _ _ Hsame))|done..].
Qed.

Lemma out_exec_spec g o s l :
  arrays_ok g -> out_op_ok o -> out_stream s l -> dev_fits (l ++ out_text o) -> exists s', out_exec g o s = Some (out_result o, s') /\ out_stream s' (l ++ out_text o).
Proof.
  intros Hg Hop Ho Hfit. destruct (begin_write_out s l Ho) as (s1 & E1 & Ho1 & Hd1 & Hs1). destruct o as [ch|str|bytes|ps|]; cbn [out_exec out_text out_result out_op_ok] in *.
  - unfold fputc. rewrite (bind_some E1). cbn [negb]. destruct (fputc_out (u8 ch) s1 l Hs1 Hfit) as (s2 & E2 & Hs2 & Hsame). rewrite (bind_some E2). eexists. split; [done|]. by eapply out_same.
  - unfold fputs. rewrite (bind_some E1). cbn [negb]. rewrite at_most_all by lia. destruct (fwrite_out str s1 l Hs1 Hfit) as (s2 & E2 & Hs2 & Hsame). rewrite (bind_some E2).
    replace (0 <=? _) with true by lia. eexists. split; [done|]. by eapply out_same.
  - unfold fwrite. rewrite (bind_some E1). cbn [negb]. change (1 =? 0) with false. cbn [orb]. destruct (Z.eqb_spec (Z.of_nat (length bytes)) 0) as [E0|E0].
    + apply (nil_length_inv bytes) in E0 as -> || (destruct bytes; [|cbn in E0; lia]). exists s1. rewrite app_nil_r. done.
    + destruct (fwrite_loop_out (Datatypes.S (length bytes)) bytes s1 l ltac:(lia) Hop Hs1 Hfit) as (s2 & E2 & Hs2 & Hsame). rewrite (bind_some E2), Z.div_1_r. eexists. split; [done|]. by eapply out_same.
  - unfold vfprintf. rewrite (bind_some E1). cbn [negb]. destruct (fmt_print_ready (As := file_accepts s1) g ps [] l (fmt_init_i (Some s1) false) Hg Hop) as (f' & E2 & (s2 & Es2 & Hs2 & Hsame) & _).
    + exists s1. split_and!; [done|done|apply same_refl].
    + exact Hfit.
    + rewrite app_nil_r in E2. rewrite (bind_some E2), Es2. cbn [mbind option_bind]. pose proof (u32_range (Z.of_nat (length (ps ≫= piece_render)))). replace (0 <=? _) with true by lia.
      eexists. split; [done|]. by eapply out_same.
  - rewrite app_nil_r in *. destruct (flush_device s l Ho Hfit) as (s' & E & Ho' & _). by exists s'.
Qed.

End Output.

Fixpoint out_execs {C} `{FILE_Callbacks C} (g : garbage) (os : list out_op) (s : FILE C) : option (list Z * FILE C) :=
  match os with
  | [] => Some ([], s)
  | o :: os =>
      '(r, s) ← out_exec g o s;
      '(rs, s) ← out_execs g os s;
      Some (r :: rs, s)
  end.


(** ** Memory files *)

Definition no_realloc : Realloc := fun _ _ => None.

(** A memory file on the memory [b0] of a caller, up to its last byte. *)
Definition mem_holds (b0 : list Z) (mp : Memory_FILE_Vars) (l : list Z) : Prop :=
  mp = MkMem (l ++ drop (length l) b0) (Z.of_nat (length b0) - 1) (Z.of_nat (length b0) - 1) (Z.of_nat (length l)) (Z.of_nat (length l)).

Lemma mem_write_spec `{Realloc} b0 mp l bs :
  Z.of_nat (length b0) < 2 ^ 31 -> mem_holds b0 mp l -> bs <> [] -> Z.of_nat (length (l ++ bs)) < Z.of_nat (length b0) ->
  exists mp', mem_write mp bs = Some (Z.of_nat (length bs), mp') /\ mem_holds b0 mp' (l ++ bs).
Proof.
  intros H31 -> Hne Hfit. rewrite length_app in Hfit. assert (Hpos : (0 < length bs)%nat) by (destruct bs; [done|cbn; lia]). unfold mem_write, mem_grow. cbn [currentPosition currentCapacity maximumCapacity store eofPosition].
  rewrite Z.ltb_irrefl, andb_false_r. cbn [mbind option_bind currentPosition currentCapacity store eofPosition maximumCapacity]. rewrite (u32_small (Z.of_nat (length b0) - 1 - _)), Z.min_l, s32_small by lia.
  destruct (Z.eqb_spec (Z.of_nat (length bs)) 0); [lia|]. rewrite Nat2Z.id, firstn_all. unfold copy_to. rewrite length_app, length_drop. replace (_ && _) with true by lia. cbn [mbind option_bind].
  eexists. split; [done|]. unfold mem_holds. rewrite u32_small by lia. rewrite Nat2Z.id, take_app_length, !length_app. replace (Z.of_nat (length l) <? Z.of_nat (length l) + Z.of_nat (length bs)) with true by lia.
  f_equal; [|lia..]. rewrite <- app_assoc. do 2 f_equal. rewrite drop_app_ge, drop_drop by lia. f_equal. lia.
Qed.

Definition mem_device `{Realloc} (b0 : list Z) (H31 : Z.of_nat (length b0) < 2 ^ 31) : OutputDevice Memory_FILE_Vars.
Proof.
  refine {| dev_holds := mem_holds b0; dev_fits l := Z.of_nat (length l) < Z.of_nat (length b0) |}.
  - intros a b. rewrite length_app. lia.
  - intros c l bs Hc Hne Hfit. by apply mem_write_spec.
Defined.

#[export] Instance null_device : OutputDevice unit.
Proof. refine {| dev_holds _ _ := True; dev_fits _ := True |}; [done|]. intros [] l bs _ _ _. by eexists. Defined.

(** C20. Formatting into a buffer: if the rendered text and a terminator fit, snprintf
    returns the length of the text, and the buffer has the text, the terminator and its
    old bytes after that; without a buffer the result is the length of the text. *)
Theorem snprintf_renders `{Realloc} g ps ap b :
  arrays_ok g -> Forall piece_ok ps -> Z.of_nat (length b) < 2 ^ 31 -> let text := ps ≫= piece_render in (length text < length b)%nat ->
  vsnprintf g (Some b) (ps ≫= piece_text) ((ps ≫= piece_args) ++ ap) = Some (Z.of_nat (length text), Some (text ++ 0 :: drop (S (length text)) b)) /\
  vsnprintf g None (ps ≫= piece_text) ((ps ≫= piece_args) ++ ap) = Some (Z.of_nat (length text), None).
Proof.
  intros Hg Hps H31 text Hlen. destruct b as [|b1 b]; [cbn in Hlen; lia|]. assert (Hres : Z.min (u32 (Z.of_nat (length text))) (2 ^ 31 - 1) = Z.of_nat (length text)) by (rewrite u32_small by lia; lia).
  split.
  - unfold vsnprintf. assert (E0 : copy_to 0 [0] (b1 :: b) = Some (0 :: b)) by (unfold copy_to; cbn [length]; by replace (_ && _) with true by lia). rewrite (bind_some E0). set (b' := 0 :: b). cbn [length] in H31, Hlen.
    assert (Hb' : Z.of_nat (length b') < 2 ^ 31) by done. set (s0 := fopen_memory_init _ _).
    assert (Hs0 : stream_holds (Dev := mem_device b' Hb') s0 []) by (unfold stream_holds, s0; by rewrite bool_decide_true).
    destruct (fmt_print_ready (As := file_accepts (Dev := mem_device b' Hb') s0) g ps ap [] (fmt_init_i (Some s0) true) Hg Hps) as (f' & E & (s & Es & Hs & Hsame) & _).
    { exists s0. split_and!; [done|done|apply same_refl]. }
    { change (Z.of_nat (length text) < Z.of_nat (length b')). cbn [b' length]. lia. }
    fold text in E. rewrite Hres in E. rewrite (bind_some E), Es. cbn [mbind option_bind]. pose proof (same_mode _ _ Hsame) as (Em & _). change (f_bufferMode s0) with IONBF in Em.
    unfold stream_holds in Hs. rewrite Em, bool_decide_true in Hs by done. destruct Hs as [Hc Hm]. change (mem_holds b' (f_context s) text) in Hm.
    unfold fclose_, fflush. cbn [f_direction f_bufferCount set_ugb]. rewrite Hc, orb_true_r. cbn [mbind option_bind cb_close FILE_mem_callbacks mem_close]. rewrite Hm. cbn [store].
    replace (0 <=? Z.of_nat (length text)) with true by lia. unfold copy_to. cbn [length]. rewrite length_app, length_drop. cbn [b' length].
    replace ((0 <=? Z.of_nat (length text)) && _) with true by lia. cbn [mbind option_bind]. rewrite Nat2Z.id, take_app_length. do 4 f_equal. rewrite drop_app_ge, drop_drop by lia.
    replace (length text + (length text + 1 - length text))%nat with (S (length text)) by lia. done.
  - unfold vsnprintf. set (s0 := fopen_null_init _). destruct (fmt_print_ready (As := file_accepts s0) g ps ap [] (fmt_init_i (Some s0) true) Hg Hps) as (f' & E & (s & Es & _) & _).
    { exists s0. split_and!; [done| |apply same_refl]. unfold stream_holds. by rewrite bool_decide_true. }
    { done. }
    fold text in E. rewrite Hres in E. rewrite (bind_some E), Es. cbn [mbind option_bind]. by replace (0 <=? Z.of_nat (length text)) with true by lia.
Qed.

(** ** Examples *)

Definition sample_memory : list Z := replicate 64 0.
Lemma sample_memory_len : Z.of_nat (length sample_memory) < 2 ^ 31.
Proof. by vm_compute. Qed.

(** A line buffered stream on a memory file. *)
Definition sample_stream : FILE Memory_FILE_Vars :=
  (setvbuf (Some [7; 7; 7; 7]) IOLBF 4 (fopen_memory_init (MkFILE_Memory sample_memory 0 63 63) snprintf_mode)).2.

Definition sample_ops : list out_op := [OPuts [104; 105]; OPutc 10; OWrite [1; 2; 10; 3; 4; 5]; OPrintf sample_pieces; OFlush].


Lemma snprintf_renders_witness :
  vsnprintf (H := no_realloc) sample_arrays (Some (replicate 28 1)) (sample_pieces ≫= piece_text) (sample_pieces ≫= piece_args) =
    Some (26, Some ((sample_pieces ≫= piece_render) ++ [0; 1])).
Proof.
  destruct (snprintf_renders (H := no_realloc) sample_arrays sample_pieces [] (replicate 28 1)) as [E _]; [done|exact sample_pieces_ok|by vm_compute|vm_compute; lia|].
  rewrite app_nil_r in E. rewrite E. by vm_compute.
Defined.

(** The terminator is written behind a buffer that is too small: %20d into 4 bytes. *)
Lemma snprintf_overflow : vsnprintf (H := no_realloc) sample_arrays (Some [1; 2; 3; 4]) [37; 50; 48; 100] [VInt 5] = None.
Proof. by vm_compute. Qed.

(** setvbuf leaves the index of the next character at -1: the first character that is
    read from a stream with a buffer is the byte in front of the buffer. *)
Lemma first_read_out_of_bounds :
  fgetc (Cb := FILE_mem_callbacks (H := no_realloc))
    (setvbuf (Some [0; 0; 0; 0]) IOFBF 4 (fopen_memory_init (MkFILE_Memory [65; 66; 67] 3 3 3) kStreamMode_Read)).2 = None.
Proof. by vm_compute. Qed.

(** A device that takes at most two bytes at once. *)
#[local] Instance slow_callbacks : FILE_Callbacks (list Z) :=
  { cb_read c _ := Some (0, [], c); cb_write c bs := Some (Z.of_nat (length (take 2 bs)), c ++ take 2 bs); cb_seek := None; cb_close := None }.

(** After a flush that wrote a part of the buffer, a block overwrites the rest, and the
    count of the buffer exceeds its capacity. *)
Lemma partial_flush_loses_data :
  (fun r => (r.1, f_context r.2, f_bufferCount r.2, f_buffer r.2)) <$>
    fwrite_bf [5; 6; 7] (MkFILE _ [] [1; 2; 3; 4] 4 4 0 0 0 kStreamMode_Write kStreamDirection_Out kStreamOrientation_Byte IOFBF false false) = Some (3, [1; 2], 5, [5; 6; 7; 4]).
Proof. by vm_compute. Qed.

(** A byte from 128 on is reported as a negative number, and 255 as an error. *)
Lemma fputc_255 : fst <$> fputc 255 (fopen_init [] kStreamMode_Write) = Some EOF.
Proof. by vm_compute. Qed.

(** A seek relative to the position of the program starts at that of the buffer's end. *)
Lemma seek_ignores_buffer :
  (fun r => currentPosition (f_context r.2)) <$>
    fseeko (Cb := FILE_mem_callbacks (H := no_realloc)) 0 SEEK_CUR
      (MkFILE _ (MkMem [1; 2; 3; 4; 5; 6] 6 6 6 4) [1; 2; 3; 4] 4 4 1 0 0 kStreamMode_Read kStreamDirection_In kStreamOrientation_Byte IOFBF false false) = Some 4.
Proof. by vm_compute. Qed.

(** Single bytes are read behind the end of a memory file; the zeros of a gap go to its
    store, behind the end of the block. *)
Lemma mem_read_end : mem_read (MkMem [65; 66; 9; 9] 4 4 2 2) 1 = Some (1, [9], MkMem [65; 66; 9; 9] 4 4 2 3) /\ mem_read (MkMem [65] 1 1 4 1) 3 = None.
Proof. by vm_compute. Qed.
