(* ===== verification/ShellLexer.v ===== *)
(** * The lexer of the shell (user/cmd/shell/Lexer.c)

    Characters are bytes.  A lexer has the rest of its source and the index of that rest;
    the character behind the end is the terminating 0, which a source does not contain.
    Reading behind the terminator is the failure [None].  The text buffer is the text of
    the current token, since nobody keeps a pointer to it; its memory is assumed to be
    there.  The columns and lines, which are never read, are left out. *)

From S2P Require Import Prelude Numbers.

(** ** Tokens *)

Definition kToken_Eof : Z := -1.
Definition kToken_Ampersand : Z := 38.
Definition kToken_Assignment : Z := 61.
Definition kToken_Asterisk : Z := 42.
Definition kToken_Percent : Z := 37.
Definition kToken_Bang : Z := 33.
Definition kToken_Bar : Z := 124.
Definition kToken_ClosingBrace : Z := 125.
Definition kToken_ClosingParenthesis : Z := 41.
Definition kToken_Conjunction : Z := 256.
Definition kToken_Disjunction : Z := 257.
Definition kToken_DoubleBacktick : Z := 258.
Definition kToken_DoubleQuote : Z := 34.
Definition kToken_EqualEqual : Z := 259.
Definition kToken_Greater : Z := 62.
Definition kToken_GreaterEqual : Z := 260.
Definition kToken_Less : Z := 60.
Definition kToken_LessEqual : Z := 261.
Definition kToken_Minus : Z := 45.
Definition kToken_Newline : Z := 10.
Definition kToken_NotEqual : Z := 262.
Definition kToken_OpeningBrace : Z := 123.
Definition kToken_OpeningParenthesis : Z := 40.
Definition kToken_Plus : Z := 43.
Definition kToken_Semicolon : Z := 59.
Definition kToken_Slash : Z := 47.
Definition kToken_Integer : Z := 263.
Definition kToken_BacktickString : Z := 264.
Definition kToken_Identifier : Z := 265.
Definition kToken_SingleQuoteString : Z := 266.
Definition kToken_VariableName : Z := 267.
Definition kToken_Else : Z := 268.
Definition kToken_If : Z := 269.
Definition kToken_Internal : Z := 270.
Definition kToken_Let : Z := 271.
Definition kToken_Public : Z := 272.
Definition kToken_Var : Z := 273.
Definition kToken_While : Z := 274.
Definition kToken_False : Z := 275.
Definition kToken_True : Z := 276.
Definition kToken_Break : Z := 277.
Definition kToken_Continue : Z := 278.
Definition kToken_EscapeSequence : Z := 512.
Definition kToken_EscapedExpression : Z := 513.
Definition kToken_StringSegment : Z := 514.

Inductive LexerMode := kLexerMode_Default | kLexerMode_DoubleQuote | kLexerMode_DoubleBacktick.
#[export] Instance LexerMode_eq_dec : EqDecision LexerMode.
Proof. solve_decision. Defined.

Record Token := MkToken { t_id : Z; t_string : list Z; t_i32 : Z; hasLeadingWhitespace : bool; isIncomplete : bool }.

Record Lexer := MkLexer { source : list Z; sourceIndex : Z; t : Token; mode : LexerMode }.

Definition Lexer_Init : Lexer := MkLexer [] 0 (MkToken kToken_Eof [] 0 false false) kLexerMode_Default.

Definition Lexer_SetMode (m : LexerMode) (self : Lexer) : Lexer := MkLexer (source self) (sourceIndex self) (t self) m.

(** The lexer with the rest [rest] of its source and the token. *)
Definition token_at (self : Lexer) (rest : list Z) (tk : Token) : Lexer :=
  MkLexer rest (sourceIndex self + (Z.of_nat (length (source self)) - Z.of_nat (length rest))) tk (mode self).

(** ** Characters *)

Definition isalpha (ch : Z) : bool := isupper ch || islower ch.
Definition isalnum (ch : Z) : bool := isalpha ch || isdigit ch.
Definition isxdigit (ch : Z) : bool := isdigit ch || ((65 <=? ch) && (ch <=? 70)) || ((97 <=? ch) && (ch <=? 102)).

Definition gKeywords : list (list Z * Z) := [
  ([98; 114; 101; 97; 107], kToken_Break);
  ([99; 111; 110; 116; 105; 110; 117; 101], kToken_Continue);
  ([101; 108; 115; 101], kToken_Else);
  ([102; 97; 108; 115; 101], kToken_False);
  ([105; 102], kToken_If);
  ([105; 110; 116; 101; 114; 110; 97; 108], kToken_Internal);
  ([108; 101; 116], kToken_Let);
  ([112; 117; 98; 108; 105; 99], kToken_Public);
  ([116; 114; 117; 101], kToken_True);
  ([118; 97; 114], kToken_Var);
  ([119; 104; 105; 108; 101], kToken_While)].

(** ** Scanning *)

Fixpoint scan_while (p : Z -> bool) (src : list Z) : list Z * list Z :=
  match src with
  | [] => ([], [])
  | ch :: src' => if p ch then let '(text, rest) := scan_while p src' in (ch :: text, rest) else ([], src)
  end.

Definition name_char (ch : Z) : bool := isalnum ch || (ch =? 95).
Definition Lexer_ScanVariableName : list Z -> list Z * list Z := scan_while name_char.

(** The text, the rest, and whether the closing mark is missing. *)
Fixpoint Lexer_ScanString (closingMark : Z) (src : list Z) : list Z * list Z * bool :=
  match src with
  | [] => ([], [], true)
  | ch :: src => if ch =? closingMark then ([], src, false) else let '(text, rest, inc) := Lexer_ScanString closingMark src in (ch :: text, rest, inc)
  end.

Fixpoint scan_octal (n : nat) (val : Z) (src : list Z) : Z * list Z :=
  match n, src with
  | S n, ch :: src' => if (ch <? 48) || (55 <? ch) then (val, src) else scan_octal n (Z.shiftl val 3 + (ch - 48)) src'
  | _, _ => (val, src)
  end.
Definition Lexer_ScanOctalEscapeSequence (src : list Z) : list Z * list Z := let '(val, rest) := scan_octal 3 0 src in ([Z.land val 255], rest).

Fixpoint scan_hex (n : nat) (val : Z) (src : list Z) : Z * list Z :=
  match n, src with
  | S n, ch :: src' =>
      if negb (isxdigit ch) then (val, src)
      else scan_hex n (Z.shiftl val 4 + (if 97 <=? ch then ch - 97 else if 65 <=? ch then ch - 65 else ch - 48)) src'
  | _, _ => (val, src)
  end.
Definition Lexer_ScanHexByteEscapeSequence (src : list Z) : list Z * list Z := let '(val, rest) := scan_hex 2 0 src in ([Z.land val 255], rest).

(** Behind a backslash in a string: the character, the rest, and whether it is missing. *)
Definition Lexer_ScanStringEscapeSequence (src : list Z) : list Z * list Z * bool :=
  match src with
  | [] => ([], [], true)
  | ch :: rest =>
      if ch =? 97 then ([7], rest, false)
      else if ch =? 98 then ([8], rest, false)
      else if ch =? 101 then ([27], rest, false)
      else if ch =? 102 then ([12], rest, false)
      else if ch =? 114 then ([13], rest, false)
      else if ch =? 110 then ([10], rest, false)
      else if ch =? 118 then ([11], rest, false)
      else if (ch =? 36) || (ch =? 34) || (ch =? 39) || (ch =? 92) then ([ch], rest, false)
      else if (48 <=? ch) && (ch <=? 55) then (Lexer_ScanOctalEscapeSequence src, false)
      else if (ch =? 120) || (ch =? 88) then (Lexer_ScanHexByteEscapeSequence rest, false)
      else if ch =? 13 then (if ch_at rest 0 =? 10 then ([10], drop 1 rest, false) else ([13], rest, false))
      else if ch =? 10 then ([10], rest, false)
      else ([], rest, false)
  end.

Fixpoint Lexer_ScanStringSegment (m : LexerMode) (src : list Z) : list Z * list Z :=
  match src with
  | [] => ([], [])
  | ch :: src' =>
      if (ch =? 36) || (ch =? 92) then ([], src)
      else if (ch =? 34) && bool_decide (m = kLexerMode_DoubleQuote) then ([], src)
      else if (ch =? 96) && (ch_at src' 0 =? 96) && bool_decide (m = kLexerMode_DoubleBacktick) then ([], src)
      else let '(text, rest) := Lexer_ScanStringSegment m src' in (ch :: text, rest)
  end.

(** At a dollar sign: the name with its scope and the rest. *)
Definition Lexer_TryScanVariableName (src : list Z) : option (list Z * list Z) :=
  let '(name, rest) := Lexer_ScanVariableName (drop 1 src) in
  if ch_at rest 0 =? 58 then
    let '(name2, rest) := Lexer_ScanVariableName (drop 1 rest) in
    if (0 <? length name2)%nat then Some (name ++ 58 :: name2, rest) else None
  else if (0 <? length name)%nat then Some (name, rest) else None.

(** Behind a backslash in an identifier. *)
Definition Lexer_ScanEscapedCharacter (src : list Z) : list Z * list Z * bool :=
  match src with
  | [] => ([], [], true)
  | ch :: rest =>
      if (ch =? 13) && (ch_at rest 0 =? 10) then ([], drop 1 rest, false)
      else if ch =? 10 then ([], rest, false)
      else ([ch], rest, false)
  end.

Definition isIdentifierTerminator (ch : Z) : bool :=
  bool_decide (ch ∈ [0; 124; 38; 43; 45; 42; 47; 37; 59; 36; 34; 96; 39; 40; 41; 123; 125; 60; 62; 61; 33]) || isspace ch.

(** The loop of Lexer_ScanIdentifier; every round takes a character. *)
Fixpoint ident_loop (fuel : nat) (src : list Z) : option (list Z * list Z * bool) :=
  match fuel with
  | O => None
  | S fuel =>
      match src with
      | [] => Some ([], [], false)
      | ch :: src' =>
          if isIdentifierTerminator ch then Some ([], src, false)
          else if ch =? 92 then
            let '(c, rest, inc) := Lexer_ScanEscapedCharacter src' in
            if inc then Some (c, rest, true) else '(text, rest, inc) ← ident_loop fuel rest; Some (c ++ text, rest, inc)
          else '(text, rest, inc) ← ident_loop fuel src'; Some (ch :: text, rest, inc)
      end
  end.

Definition Lexer_ScanIdentifier (src : list Z) : option (list Z * list Z * bool) :=
  match src with
  | [] => Some ([], [], false)
  | ch :: src' =>
      if ch =? 92 then ident_loop (S (length src)) src
      else '(text, rest, inc) ← ident_loop (S (length src')) src'; Some (ch :: text, rest, inc)
  end.

(** strcmp on texts without 0. *)
Fixpoint strcmp (a b : list Z) : comparison :=
  match a, b with
  | [], [] => Eq
  | [], _ => Lt
  | _, [] => Gt
  | x :: a, y :: b => match x ?= y with Eq => strcmp a b | c => c end
  end.

(** bsearch in the table of keywords. *)
Fixpoint bsearch_kw (fuel : nat) (key : list Z) (l r : nat) : option Z :=
  match fuel with
  | O => None
  | S fuel =>
      if (l <? r)%nat then
        let m := ((l + r) / 2)%nat in
        '(kw, id) ← gKeywords !! m;
        match strcmp key kw with
        | Lt => bsearch_kw fuel key l m
        | Gt => bsearch_kw fuel key (m + 1) r
        | Eq => Some id
        end
      else None
  end.

(** The text buffer has one character more, the terminator. *)
Definition Lexer_GetIdentifierTokenId (text : list Z) : Z :=
  if (2 <? length text + 1)%nat && isalpha (ch_at text 0) then default kToken_Identifier (bsearch_kw 12 text 0 (length gKeywords)) else kToken_Identifier.

(** The digits of __strtou64 in base 10, from a text that starts with a digit. *)
Fixpoint conv_decimal (num : Z) (overflowed : bool) (str : list Z) : Z * bool * list Z :=
  match str with
  | [] => (num, overflowed, [])
  | ch :: str' =>
      if negb (isdigit ch) then (num, overflowed, str)
      else if ((2 ^ 64 - 1) / 10 <? num) || ((num =? (2 ^ 64 - 1) / 10) && ((2 ^ 64 - 1) mod 10 <? ch - 48)) then conv_decimal num true str'
      else if negb overflowed then conv_decimal (u64 (num * 10 + (ch - 48))) overflowed str'
      else conv_decimal num overflowed str'
  end.

(** strtoull takes all digits, so that the loop behind it has nothing to skip. *)
Definition Lexer_ScanInteger (src : list Z) : Z * list Z :=
  let '(num, overflowed, rest) := conv_decimal 0 false src in
  let val := if overflowed : bool then 2 ^ 64 - 1 else num in
  (if 2 ^ 31 - 1 <? val then 2 ^ 31 - 1 else val, (scan_while isdigit rest).2).

Definition Lexer_SkipWhitespace (src : list Z) : list Z := (scan_while isspace src).2.

Fixpoint Lexer_SkipLineComment (src : list Z) : list Z :=
  match src with
  | [] => []
  | ch :: src' => if (ch =? 10) || ((ch =? 13) && (ch_at src' 0 =? 10)) then src else Lexer_SkipLineComment src'
  end.

(** ** Tokens of a script *)

(** The tokens of one character that needs no look at the next one, and of two. *)
Definition single_char (ch : Z) : bool := bool_decide (ch ∈ [40; 41; 123; 125; 43; 45; 42; 47; 37; 34; 59]).
Definition double_char (ch : Z) : option (Z * Z) :=
  if ch =? 38 then Some (38, kToken_Conjunction)
  else if ch =? 124 then Some (124, kToken_Disjunction)
  else if ch =? 60 then Some (61, kToken_LessEqual)
  else if ch =? 62 then Some (61, kToken_GreaterEqual)
  else if ch =? 33 then Some (61, kToken_NotEqual)
  else if ch =? 61 then Some (61, kToken_EqualEqual)
  else None.

(** The loop of Lexer_ConsumeToken_DefaultMode; [ws] is whether the token has white space
    in front of it. *)
Fixpoint default_loop (fuel : nat) (ws : bool) (self : Lexer) (src : list Z) : option Lexer :=
  match fuel with
  | O => None
  | S fuel =>
      match src with
      | [] => Some (token_at self [] (MkToken kToken_Eof [] 0 ws false))
      | ch :: rest =>
          if (ch =? 32) || (ch =? 9) || (ch =? 11) || (ch =? 12) then default_loop fuel ws self (Lexer_SkipWhitespace src)
          else if ch =? 35 then default_loop fuel ws self (Lexer_SkipLineComment src)
          else if ch =? 13 then
            match rest with
            | [] => None
            | _ :: rest' =>
                if ch_at rest' 0 =? 10 then Some (token_at self rest' (MkToken kToken_Newline [] 0 ws false))
                else default_loop fuel ws self rest
            end
          else if ch =? 10 then Some (token_at self rest (MkToken kToken_Newline [] 0 ws false))
          else if single_char ch then Some (token_at self rest (MkToken ch [] 0 ws false))
          else if ch =? 96 then
            if ch_at rest 0 =? 96 then Some (token_at self (drop 1 rest) (MkToken kToken_DoubleBacktick [] 0 ws false))
            else
              let '(text, rest, inc) := Lexer_ScanString 96 rest in
              Some (token_at self rest (MkToken kToken_BacktickString text 0 ws inc))
          else if ch =? 39 then
            let '(text, rest, inc) := Lexer_ScanString 39 rest in
            Some (token_at self rest (MkToken kToken_SingleQuoteString text 0 ws inc))
          else if (48 <=? ch) && (ch <=? 57) then
            let '(val, rest) := Lexer_ScanInteger src in
            Some (token_at self rest (MkToken kToken_Integer [] val ws false))
          else
            match double_char ch with
            | Some (second, id) =>
                if ch_at rest 0 =? second then Some (token_at self (drop 1 rest) (MkToken id [] 0 ws false))
                else Some (token_at self rest (MkToken ch [] 0 ws false))
            | None =>
                match (if ch =? 36 then Lexer_TryScanVariableName src else None) with
                | Some (text, rest) => Some (token_at self rest (MkToken kToken_VariableName text 0 ws false))
                | None =>
                    '(text, rest, inc) ← Lexer_ScanIdentifier src;
                    Some (token_at self rest (MkToken (Lexer_GetIdentifierTokenId text) text 0 ws inc))
                end
            end
      end
  end.

Definition Lexer_ConsumeToken_DefaultMode (self : Lexer) : option Lexer :=
  let c := ch_at (source self) 0 in
  default_loop (S (length (source self))) ((c =? 35) || isspace c || (sourceIndex self =? 0)) self (source self).

Definition Lexer_ConsumeToken_StringMode (self : Lexer) : Lexer :=
  let src := source self in
  let ch := ch_at src 0 in
  let segment :=
    let '(text, rest) := Lexer_ScanStringSegment (mode self) src in
    token_at self rest (MkToken kToken_StringSegment text 0 false false) in
  if (ch =? 34) && bool_decide (mode self = kLexerMode_DoubleQuote) then token_at self (drop 1 src) (MkToken kToken_DoubleQuote [] 0 false false)
  else if (ch =? 96) && (ch_at src 1 =? 96) && bool_decide (mode self = kLexerMode_DoubleBacktick) then
    token_at self (drop 2 src) (MkToken kToken_DoubleBacktick [] 0 false false)
  else
    match src with
    | [] => token_at self [] (MkToken kToken_Eof [] 0 false false)
    | ch :: rest =>
        if ch =? 92 then
          if ch_at rest 0 =? 40 then token_at self (drop 1 rest) (MkToken kToken_EscapedExpression [] 0 false false)
          else
            let '(text, rest, inc) := Lexer_ScanStringEscapeSequence rest in
            token_at self rest (MkToken kToken_EscapeSequence text 0 false inc)
        else if ch =? 36 then
          match Lexer_TryScanVariableName src with
          | Some (text, rest) => token_at self rest (MkToken kToken_VariableName text 0 false false)
          | None => segment
          end
        else segment
    end.

Definition Lexer_ConsumeToken (self : Lexer) : option Lexer :=
  match mode self with
  | kLexerMode_Default => Lexer_ConsumeToken_DefaultMode self
  | kLexerMode_DoubleBacktick | kLexerMode_DoubleQuote => Some (Lexer_ConsumeToken_StringMode self)
  end.

Definition Lexer_SetInput (src : list Z) (self : Lexer) : option Lexer :=
  Lexer_ConsumeToken (MkLexer src 0 (t self) (mode self)).
