(* ===== verification/ShellParser.v ===== *)
(** * The parser of the shell (user/cmd/shell/Parser.c, Script.c)

    The syntax tree of a script, as Script.h declares it, and the parser that builds it.
    The lists of segments, atoms and expressions, which the code links by hand, are lists.
    A string of the constants pool is its text.  Memory is assumed to be there.

    A step of the parser takes the lexer and returns an error or a value, and the lexer.
    The parser is recursive through [arith], the parser of an arithmetic expression;
    [fuel] bounds the loops and the depth of the recursion, and a parser that does not
    come back in time is the failure [None]. *)

From S2P Require Import Prelude Numbers ShellLexer.

(** ** Syntax trees *)

Definition ESYNTAX : Z := -1.

Inductive Value := kValue_Never | kValue_Void | kValue_Bool (b : bool) | kValue_Integer (i32 : Z) | kValue_String (str : list Z).

Record VarRef := MkVarRef { vr_scope : list Z; vr_name : list Z }.

Inductive SegmentType := kSegment_String | kSegment_EscapeSequence.
Inductive AtomStringType := kAtom_BacktickString | kAtom_SingleQuoteString | kAtom_Identifier.
Inductive AtomCompoundType := kAtom_DoubleBacktickString | kAtom_DoubleQuoteString.
Inductive BinaryType :=
  | kArithmetic_Pipeline | kArithmetic_Disjunction | kArithmetic_Conjunction
  | kArithmetic_Equals | kArithmetic_NotEquals | kArithmetic_LessEquals | kArithmetic_GreaterEquals | kArithmetic_Less | kArithmetic_Greater
  | kArithmetic_Addition | kArithmetic_Subtraction | kArithmetic_Multiplication | kArithmetic_Division | kArithmetic_Modulo.
Inductive UnaryType := kArithmetic_Parenthesized | kArithmetic_Positive | kArithmetic_Negative | kArithmetic_Not.

(** The flags are hasLeadingWhitespace and, in an expression, isAsync. *)
Inductive Segment :=
  | LiteralSegment (type : SegmentType) (value : Value)
  | ArithmeticSegment (expr : Arithmetic)
  | VarRefSegment (vref : VarRef)
with Atom :=
  | StringAtom (type : AtomStringType) (str : list Z) (ws : bool)
  | IntegerAtom (i32 : Z) (ws : bool)
  | CompoundAtom (type : AtomCompoundType) (qstring : list Segment) (ws : bool)
  | VarRefAtom (vref : VarRef) (ws : bool)
  | ArithmeticAtom (expr : Arithmetic) (ws : bool)
with Arithmetic :=
  | LiteralArithmetic (ws : bool) (value : Value)
  | CompoundStringArithmetic (ws : bool) (str : list Segment)
  | BinaryArithmetic (ws : bool) (type : BinaryType) (lhs rhs : Arithmetic)
  | UnaryArithmetic (ws : bool) (type : UnaryType) (expr : Arithmetic)
  | VarRefArithmetic (ws : bool) (vref : VarRef)
  | CommandArithmetic (atoms : list Atom)
  | IfArithmetic (ws : bool) (cond : Arithmetic) (thenBlock : list Expression) (elseBlock : option (list Expression))
  | WhileArithmetic (ws : bool) (cond : Arithmetic) (body : list Expression)
with Expression :=
  | NullExpression (isAsync : bool)
  | ArithmeticExpression (isAsync : bool) (expr : Arithmetic)
  | AssignmentExpression (isAsync : bool) (lvalue rvalue : Arithmetic)
  | VarDeclExpression (isAsync : bool) (modifiers : Z) (vref : VarRef) (expr : Arithmetic)
  | BreakExpression (isAsync : bool) (expr : option Arithmetic)
  | ContinueExpression (isAsync : bool).

Definition kVarModifier_Mutable : Z := 1.
Definition kVarModifier_Public : Z := 2.

(** strrchr: what is in front of the last [ch] and what is behind it. *)
Fixpoint split_last (ch : Z) (str : list Z) : option (list Z * list Z) :=
  match str with
  | [] => None
  | c :: str' =>
      match split_last ch str' with
      | Some (a, b) => Some (c :: a, b)
      | None => if c =? ch then Some ([], str') else None
      end
  end.
Definition VarRef_Create (str : list Z) : VarRef :=
  match split_last 58 str with Some (scope, name) => MkVarRef scope name | None => MkVarRef [] str end.

(** ** Steps of the parser *)

Definition P (A : Type) : Type := Lexer -> option ((Z + A) * Lexer).
Definition ret {A} (x : A) : P A := fun self => Some (inr x, self).
Definition throw {A} (err : Z) : P A := fun self => Some (inl err, self).
Definition pbind {A B} (m : P A) (k : A -> P B) : P B := fun self =>
  '(r, self) ← m self;
  match r with inl err => Some (inl err, self) | inr x => k x self end.
Definition pmap {A B} (g : A -> B) (m : P A) : P B := pbind m (fun x => ret (g x)).

Declare Scope shell_scope.
Delimit Scope shell_scope with shell.
Notation "x <- m ;; k" := (pbind m (fun x => k)) (at level 100, m at next level, right associativity) : shell_scope.
Notation "m ;;; k" := (pbind m (fun _ => k)) (at level 100, right associativity) : shell_scope.
Open Scope shell_scope.

(** What the label catch does with the lexer. *)
Definition on_error {A} (h : Lexer -> Lexer) (m : P A) : P A := fun self =>
  '(r, self) ← m self;
  match r with inl err => Some (inl err, h self) | inr x => Some (inr x, self) end.

(** The step that depends on the current token, or on the lexer. *)
Definition with_token {A} (k : Token -> P A) : P A := fun self => k (t self) self.
Definition with_mode {A} (k : LexerMode -> P A) : P A := fun self => k (mode self) self.

Definition consume : P unit := fun self => self ← Lexer_ConsumeToken self; Some (inr tt, self).
Definition set_mode (m : LexerMode) : P unit := fun self => Some (inr tt, Lexer_SetMode m self).
Definition peek (id : Z) (self : Lexer) : bool := t_id (t self) =? id.

Definition Parser_Match (id : Z) : P unit := with_token (fun tk => if t_id tk =? id then consume else throw ESYNTAX).
Definition Parser_MatchAndSwitchMode (id : Z) (m : LexerMode) : P unit :=
  with_token (fun tk => if negb (t_id tk =? id) then throw ESYNTAX else set_mode m ;;; consume).
Definition failOnIncomplete (tk : Token) : P unit := if isIncomplete tk then throw ESYNTAX else ret tt.

(** [match(id) == EOK] as a condition. *)
Definition matches (id : Z) : P bool := with_token (fun tk => if t_id tk =? id then consume ;;; ret true else ret false).

(** The step for the token, a switch on its id. *)
Definition is_one_of (id : Z) (ids : list Z) : bool := bool_decide (id ∈ ids).

(** ** Operators *)

Definition op_multiplication (id : Z) : option BinaryType :=
  if id =? kToken_Asterisk then Some kArithmetic_Multiplication
  else if id =? kToken_Slash then Some kArithmetic_Division
  else if id =? kToken_Percent then Some kArithmetic_Modulo
  else None.
Definition op_addition (id : Z) : option BinaryType :=
  if id =? kToken_Plus then Some kArithmetic_Addition
  else if id =? kToken_Minus then Some kArithmetic_Subtraction
  else None.
Definition op_comparison (id : Z) : option BinaryType :=
  if id =? kToken_EqualEqual then Some kArithmetic_Equals
  else if id =? kToken_NotEqual then Some kArithmetic_NotEquals
  else if id =? kToken_LessEqual then Some kArithmetic_LessEquals
  else if id =? kToken_GreaterEqual then Some kArithmetic_GreaterEquals
  else if id =? kToken_Less then Some kArithmetic_Less
  else if id =? kToken_Greater then Some kArithmetic_Greater
  else None.
Definition op_conjunction (id : Z) : option BinaryType := if id =? kToken_Conjunction then Some kArithmetic_Conjunction else None.
Definition op_disjunction (id : Z) : option BinaryType := if id =? kToken_Disjunction then Some kArithmetic_Disjunction else None.
Definition op_pipeline (id : Z) : option BinaryType := if id =? kToken_Bar then Some kArithmetic_Pipeline else None.
Definition op_prefix (id : Z) : option UnaryType :=
  if id =? kToken_Plus then Some kArithmetic_Positive
  else if id =? kToken_Minus then Some kArithmetic_Negative
  else if id =? kToken_Bang then Some kArithmetic_Not
  else None.

(** The abort of the default case is never reached. *)
Definition get_op2_token_string (id : Z) : list Z :=
  if id =? kToken_Conjunction then [38; 38]
  else if id =? kToken_Disjunction then [124; 124]
  else if id =? kToken_EqualEqual then [61; 61]
  else if id =? kToken_GreaterEqual then [62; 61]
  else if id =? kToken_LessEqual then [60; 61]
  else if id =? kToken_NotEqual then [33; 61]
  else [].

(** The loop over the operators of one precedence, which is the same text in
    Parser_Multiplication, Parser_Addition and so on. *)
Fixpoint binary_loop (fuel : nat) (ops : Z -> option BinaryType) (operand : P Arithmetic) (lhs : Arithmetic) : P Arithmetic :=
  match fuel with
  | O => fun _ => None
  | S fuel =>
      with_token (fun tk =>
        match ops (t_id tk) with
        | None => ret lhs
        | Some type =>
            consume ;;;
            rhs <- operand ;;
            binary_loop fuel ops operand (BinaryArithmetic (hasLeadingWhitespace tk) type lhs rhs)
        end)
  end.

(** ** The rules of the grammar *)

Section rules.
  Variable fuel : nat.
  Variable arith : P Arithmetic.

Definition Parser_VarReference : P VarRef :=
  with_token (fun tk =>
    if negb (t_id tk =? kToken_VariableName) then throw ESYNTAX
    else consume ;;; ret (VarRef_Create (t_string tk))).

Definition Parser_EscapedArithmeticExpression : P Arithmetic :=
  with_mode (fun savedMode =>
    on_error (Lexer_SetMode savedMode) (
      Parser_MatchAndSwitchMode kToken_EscapedExpression kLexerMode_Default ;;;
      expr <- arith ;;
      Parser_MatchAndSwitchMode kToken_ClosingParenthesis savedMode ;;;
      ret expr)).

Definition Parser_ParenthesizedArithmeticExpression : P Arithmetic :=
  Parser_Match kToken_OpeningParenthesis ;;;
  expr <- arith ;;
  Parser_Match kToken_ClosingParenthesis ;;;
  ret expr.

Fixpoint compound_loop (fuel : nat) (quoteToken : Z) (str : list Segment) : P (list Segment) :=
  match fuel with
  | O => fun _ => None
  | S fuel =>
      with_token (fun tk =>
        let v := kValue_String (t_string tk) in
        if t_id tk =? kToken_StringSegment then
          consume ;;;
          compound_loop fuel quoteToken (str ++ [LiteralSegment kSegment_String v])
        else if t_id tk =? kToken_EscapeSequence then
          failOnIncomplete tk ;;;
          consume ;;;
          compound_loop fuel quoteToken (str ++ [LiteralSegment kSegment_EscapeSequence v])
        else if t_id tk =? kToken_EscapedExpression then
          expr <- Parser_EscapedArithmeticExpression ;;
          compound_loop fuel quoteToken (str ++ [ArithmeticSegment expr])
        else if t_id tk =? kToken_VariableName then
          vref <- Parser_VarReference ;;
          compound_loop fuel quoteToken (str ++ [VarRefSegment vref])
        else if t_id tk =? quoteToken then ret str
        else throw ESYNTAX)
  end.

Definition Parser_CompoundString (isBacktick : bool) : P (list Segment) :=
  let quoteToken := if isBacktick then kToken_DoubleBacktick else kToken_DoubleQuote in
  let lexerMode := if isBacktick then kLexerMode_DoubleBacktick else kLexerMode_DoubleQuote in
  str <- on_error (Lexer_SetMode kLexerMode_Default) (
    Parser_MatchAndSwitchMode quoteToken lexerMode ;;;
    compound_loop fuel quoteToken []) ;;
  set_mode kLexerMode_Default ;;;
  consume ;;;
  ret str.

(** The atom is [None] when the token starts none. *)
Definition Parser_CommandPrimaryFragment : P (option Atom) :=
  with_token (fun tk =>
    let ws := hasLeadingWhitespace tk in
    if t_id tk =? kToken_BacktickString then
      failOnIncomplete tk ;;; consume ;;; ret (Some (StringAtom kAtom_BacktickString (t_string tk) ws))
    else if t_id tk =? kToken_DoubleBacktick then
      str <- Parser_CompoundString true ;; ret (Some (CompoundAtom kAtom_DoubleBacktickString str ws))
    else if t_id tk =? kToken_Slash then
      consume ;;; ret (Some (StringAtom kAtom_Identifier [t_id tk] ws))
    else if t_id tk =? kToken_Identifier then
      failOnIncomplete tk ;;; consume ;;; ret (Some (StringAtom kAtom_Identifier (t_string tk) ws))
    else ret None).

Definition Parser_CommandSecondaryFragment : P (option Atom) :=
  with_token (fun tk =>
    let id := t_id tk in
    let ws := hasLeadingWhitespace tk in
    if is_one_of id [kToken_Assignment; kToken_Asterisk; kToken_Bang; kToken_Greater; kToken_Less; kToken_Minus;
                     kToken_Percent; kToken_Plus; kToken_Slash] then
      consume ;;; ret (Some (StringAtom kAtom_Identifier [id] ws))
    else if is_one_of id [kToken_Conjunction; kToken_Disjunction; kToken_EqualEqual; kToken_GreaterEqual;
                          kToken_LessEqual; kToken_NotEqual] then
      consume ;;; ret (Some (StringAtom kAtom_Identifier (get_op2_token_string id) ws))
    else if id =? kToken_BacktickString then
      failOnIncomplete tk ;;; consume ;;; ret (Some (StringAtom kAtom_BacktickString (t_string tk) ws))
    else if id =? kToken_DoubleBacktick then
      str <- Parser_CompoundString true ;; ret (Some (CompoundAtom kAtom_DoubleBacktickString str ws))
    else if id =? kToken_SingleQuoteString then
      failOnIncomplete tk ;;; consume ;;; ret (Some (StringAtom kAtom_SingleQuoteString (t_string tk) ws))
    else if id =? kToken_DoubleQuote then
      str <- Parser_CompoundString (id =? kToken_DoubleBacktick) ;; ret (Some (CompoundAtom kAtom_DoubleQuoteString str ws))
    else if id =? kToken_Integer then
      consume ;;; ret (Some (IntegerAtom (t_i32 tk) ws))
    else if is_one_of id [kToken_Identifier; kToken_Else; kToken_False; kToken_If; kToken_Internal; kToken_Let;
                          kToken_Public; kToken_True; kToken_Var; kToken_While] then
      failOnIncomplete tk ;;; consume ;;; ret (Some (StringAtom kAtom_Identifier (t_string tk) ws))
    else if id =? kToken_OpeningParenthesis then
      expr <- Parser_ParenthesizedArithmeticExpression ;; ret (Some (ArithmeticAtom expr ws))
    else if id =? kToken_VariableName then
      vref <- Parser_VarReference ;; ret (Some (VarRefAtom vref ws))
    else ret None).

Fixpoint secondary_loop (fuel : nat) (atoms : list Atom) : P (list Atom) :=
  match fuel with
  | O => fun _ => None
  | S fuel =>
      atom <- Parser_CommandSecondaryFragment ;;
      match atom with None => ret atoms | Some a => secondary_loop fuel (atoms ++ [a]) end
  end.

Definition Parser_Command : P Arithmetic :=
  atom <- Parser_CommandPrimaryFragment ;;
  match atom with
  | None => throw ESYNTAX
  | Some a => atoms <- secondary_loop fuel [a] ;; ret (CommandArithmetic atoms)
  end.

Definition Parser_Literal : P Arithmetic :=
  with_token (fun tk =>
    let ws := hasLeadingWhitespace tk in
    if t_id tk =? kToken_False then consume ;;; ret (LiteralArithmetic ws (kValue_Bool false))
    else if t_id tk =? kToken_True then consume ;;; ret (LiteralArithmetic ws (kValue_Bool true))
    else if t_id tk =? kToken_Integer then consume ;;; ret (LiteralArithmetic ws (kValue_Integer (t_i32 tk)))
    else if t_id tk =? kToken_SingleQuoteString then consume ;;; ret (LiteralArithmetic ws (kValue_String (t_string tk)))
    else if t_id tk =? kToken_DoubleQuote then str <- Parser_CompoundString false ;; ret (CompoundStringArithmetic ws str)
    else throw ESYNTAX).

(** Whether the expression is asynchronous. *)
Fixpoint skip_newlines (fuel : nat) : P unit :=
  match fuel with
  | O => fun _ => None
  | S fuel => with_token (fun tk => if t_id tk =? kToken_Newline then consume ;;; skip_newlines fuel else ret tt)
  end.
Definition Parser_Terminator (isNested : bool) : P bool :=
  with_token (fun tk =>
    if is_one_of (t_id tk) [kToken_Newline; kToken_Semicolon; kToken_Ampersand] then
      consume ;;; skip_newlines fuel ;;; ret (t_id tk =? kToken_Ampersand)
    else if t_id tk =? kToken_ClosingBrace then (if isNested then ret false else throw ESYNTAX)
    else if negb isNested && (t_id tk =? kToken_Eof) then ret false
    else throw ESYNTAX).

(** The declaration without its flag isAsync; likewise below. *)
Definition Parser_VarDeclExpression : P (bool -> Expression) :=
  public <- matches kToken_Public ;;
  (if public : bool then ret tt else matches kToken_Internal ;;; ret tt) ;;;
  let modifiers := if public then kVarModifier_Public else 0 in
  is_let <- matches kToken_Let ;;
  modifiers <- (if is_let : bool then ret modifiers
                else is_var <- matches kToken_Var ;;
                     if is_var : bool then ret (Z.lor modifiers kVarModifier_Mutable) else throw ESYNTAX) ;;
  vref <- with_token (fun tk =>
    if negb (t_id tk =? kToken_VariableName) then throw ESYNTAX else consume ;;; ret (VarRef_Create (t_string tk))) ;;
  Parser_Match kToken_Assignment ;;;
  expr <- arith ;;
  ret (fun isAsync => VarDeclExpression isAsync modifiers vref expr).

Definition Parser_BreakExpression : P (bool -> Expression) :=
  Parser_Match kToken_Break ;;;
  arithExpr <- with_token (fun tk =>
    if is_one_of (t_id tk) [kToken_Newline; kToken_Semicolon; kToken_Ampersand; kToken_ClosingBrace; kToken_Eof] then ret None
    else pmap Some arith) ;;
  ret (fun isAsync => BreakExpression isAsync arithExpr).

(** The part of Parser_Expression in front of the terminator. *)
Definition expression_body : P (bool -> Expression) :=
  with_token (fun tk =>
    let id := t_id tk in
    if is_one_of id [kToken_Newline; kToken_Semicolon; kToken_Ampersand; kToken_Eof] then ret NullExpression
    else if is_one_of id [kToken_Public; kToken_Internal; kToken_Let; kToken_Var] then Parser_VarDeclExpression
    else if id =? kToken_Break then Parser_BreakExpression
    else if id =? kToken_Continue then consume ;;; ret ContinueExpression
    else
      arithExpr <- arith ;;
      with_token (fun tk =>
        if t_id tk =? kToken_Assignment then
          consume ;;;
          rvalue <- arith ;;
          ret (fun isAsync => AssignmentExpression isAsync arithExpr rvalue)
        else ret (fun isAsync => ArithmeticExpression isAsync arithExpr))).

Definition Parser_Expression (isNested : bool) : P Expression :=
  expr <- expression_body ;;
  isAsync <- Parser_Terminator isNested ;;
  ret (expr isAsync).

(** The error (0 for none), the list, which has the expressions in front of the error,
    and the lexer. *)
Fixpoint Parser_ExpressionList (fuel : nat) (exprList : list Expression) (endToken : Z) (isNested : bool) (self : Lexer)
    : option (Z * list Expression * Lexer) :=
  match fuel with
  | O => None
  | S fuel =>
      if peek endToken self then Some (0, exprList, self)
      else
        '(r, self) ← Parser_Expression isNested self;
        match r with
        | inl err => Some (err, exprList, self)
        | inr expr => Parser_ExpressionList fuel (exprList ++ [expr]) endToken isNested self
        end
  end.

(** A list whose expressions are dropped when there is an error. *)
Definition expression_list (endToken : Z) (isNested : bool) : P (list Expression) := fun self =>
  '(err, exprs, self) ← Parser_ExpressionList fuel [] endToken isNested self;
  Some (if err =? 0 then inr exprs else inl err, self).

Definition Parser_Block : P (list Expression) :=
  Parser_Match kToken_OpeningBrace ;;;
  exprs <- expression_list kToken_ClosingBrace true ;;
  Parser_Match kToken_ClosingBrace ;;;
  ret exprs.

Definition Parser_IfExpression : P Arithmetic :=
  Parser_Match kToken_If ;;;
  ws <- with_token (fun tk => ret (hasLeadingWhitespace tk)) ;;
  condExpr <- arith ;;
  thenBlock <- Parser_Block ;;
  elseBlock <- with_token (fun tk => if t_id tk =? kToken_Else then consume ;;; pmap Some Parser_Block else ret None) ;;
  ret (IfArithmetic ws condExpr thenBlock elseBlock).

Definition Parser_WhileExpression : P Arithmetic :=
  Parser_Match kToken_While ;;;
  ws <- with_token (fun tk => ret (hasLeadingWhitespace tk)) ;;
  condExpr <- arith ;;
  bodyBlock <- Parser_Block ;;
  ret (WhileArithmetic ws condExpr bodyBlock).

Definition Parser_PrimaryExpression : P Arithmetic :=
  with_token (fun tk =>
    let ws := hasLeadingWhitespace tk in
    if t_id tk =? kToken_VariableName then vref <- Parser_VarReference ;; ret (VarRefArithmetic ws vref)
    else if t_id tk =? kToken_OpeningParenthesis then
      expr <- Parser_ParenthesizedArithmeticExpression ;; ret (UnaryArithmetic ws kArithmetic_Parenthesized expr)
    else if t_id tk =? kToken_If then Parser_IfExpression
    else if t_id tk =? kToken_While then Parser_WhileExpression
    else Parser_Literal).

(** The operators in front of the value; the code hangs each one below the one before. *)
Fixpoint prefix_loop (fuel : nat) : P Arithmetic :=
  match fuel with
  | O => fun _ => None
  | S fuel =>
      with_token (fun tk =>
        match op_prefix (t_id tk) with
        | None => Parser_PrimaryExpression
        | Some type => consume ;;; expr <- prefix_loop fuel ;; ret (UnaryArithmetic (hasLeadingWhitespace tk) type expr)
        end)
  end.
Definition Parser_PrefixUnaryExpression : P Arithmetic := prefix_loop fuel.

Definition Parser_Multiplication : P Arithmetic :=
  lhs <- Parser_PrefixUnaryExpression ;; binary_loop fuel op_multiplication Parser_PrefixUnaryExpression lhs.
Definition Parser_Addition : P Arithmetic := lhs <- Parser_Multiplication ;; binary_loop fuel op_addition Parser_Multiplication lhs.
Definition Parser_Comparison : P Arithmetic := lhs <- Parser_Addition ;; binary_loop fuel op_comparison Parser_Addition lhs.
Definition Parser_Conjunction : P Arithmetic := lhs <- Parser_Comparison ;; binary_loop fuel op_conjunction Parser_Comparison lhs.
Definition Parser_Disjunction : P Arithmetic := lhs <- Parser_Conjunction ;; binary_loop fuel op_disjunction Parser_Conjunction lhs.

Definition arithmetic_body : P Arithmetic :=
  lhs <- with_token (fun tk =>
    if is_one_of (t_id tk) [kToken_BacktickString; kToken_DoubleBacktick; kToken_Slash; kToken_Identifier] then Parser_Command
    else Parser_Disjunction) ;;
  binary_loop fuel op_pipeline Parser_Command lhs.

End rules.

Fixpoint Parser_ArithmeticExpression (fuel : nat) : P Arithmetic :=
  match fuel with
  | O => fun _ => None
  | S fuel => arithmetic_body fuel (Parser_ArithmeticExpression fuel)
  end.

(** The error, the list of expressions of the script, and the lexer. *)
Definition Parser_Script (fuel : nat) (exprs : list Expression) (self : Lexer) : option (Z * list Expression * Lexer) :=
  '(err, exprs, self) ← Parser_ExpressionList fuel (Parser_ArithmeticExpression fuel) fuel exprs kToken_Eof false self;
  if err =? 0 then
    '(r, self) ← Parser_Match kToken_Eof self;
    Some (match r with inl err => err | inr _ => 0 end, exprs, self)
  else Some (err, exprs, self).

Definition Parser_Parse (fuel : nat) (self : Lexer) (text : list Z) (exprs : list Expression) : option (Z * list Expression * Lexer) :=
  self ← Lexer_SetInput text self;
  '(err, exprs, self) ← Parser_Script fuel exprs self;
  self ← Lexer_SetInput [] self;
  Some (err, exprs, self).
