(* ===== verification/ShellTokens.v ===== *)
(** * The tokens of the shell language (user/cmd/shell/docs/Tokens.md)

    What a text of the shell consists of, without the lexer: [tok tk inp rest] says that
    the text [inp] starts with the token [tk], behind which comes [rest].  The lexer of
    Lexer.c reads exactly this token ([consume_tok]). *)

From S2P Require Import Prelude Numbers ShellLexer.
From Stdlib Require Import ZifyBool.

(** ** Tokens *)

Definition blank (ch : Z) : bool := bool_decide (ch ∈ [32; 9; 11; 12]).

(** The text does not go on with a character of the class. *)
Definition not_next (p : Z -> bool) (rest : list Z) : Prop := match rest with [] => True | ch :: _ => p ch = false end.

(** The tokens of two characters; the first one alone is a token, too. *)
Definition pairs : list (Z * Z * Z) :=
  [(38, 38, kToken_Conjunction); (124, 124, kToken_Disjunction); (60, 61, kToken_LessEqual);
   (62, 61, kToken_GreaterEqual); (33, 61, kToken_NotEqual); (61, 61, kToken_EqualEqual)].

(** A name of a variable with the dollar sign. *)
Inductive variable : list Z -> list Z -> list Z -> Prop :=
  | var_plain name rest :
      name <> [] -> Forall name_char name -> not_next (fun ch => name_char ch || (ch =? 58)) rest ->
      variable name (36 :: name ++ rest) rest
  | var_scoped scope name rest :
      Forall name_char scope -> name <> [] -> Forall name_char name -> not_next name_char rest ->
      variable (scope ++ 58 :: name) (36 :: scope ++ 58 :: name ++ rest) rest.

(** The rest of a word; a backslash takes the special meaning from a character and joins
    lines. *)
Inductive spelling : list Z -> list Z -> list Z -> Prop :=
  | spell_end rest : (rest <> [] -> isIdentifierTerminator (ch_at rest 0) = true) -> spelling [] rest rest
  | spell_plain ch text inp rest :
      isIdentifierTerminator ch = false -> ch <> 92 -> spelling text inp rest -> spelling (ch :: text) (ch :: inp) rest
  | spell_escaped ch text inp rest :
      ch <> 10 -> ch <> 13 -> spelling text inp rest -> spelling (ch :: text) (92 :: ch :: inp) rest
  | spell_newline text inp rest : spelling text inp rest -> spelling text (92 :: 10 :: inp) rest
  | spell_crlf text inp rest : spelling text inp rest -> spelling text (92 :: 13 :: 10 :: inp) rest.

(** What a word is: a keyword of the table or an identifier. *)
Definition word_id (text : list Z) (id : Z) : Prop :=
  (text, id) ∈ gKeywords \/ (id = kToken_Identifier /\ text ∉ gKeywords.*1).

(** The id, the text and the number of a token that starts with the first character. *)
Inductive lexeme : Z -> list Z -> Z -> list Z -> list Z -> Prop :=
  | lex_single ch rest : ch ∈ [40; 41; 123; 125; 43; 45; 42; 47; 37; 34; 59] -> lexeme ch [] 0 (ch :: rest) rest
  | lex_pair ch ch2 id rest : (ch, ch2, id) ∈ pairs -> lexeme id [] 0 (ch :: ch2 :: rest) rest
  | lex_half ch ch2 id rest : (ch, ch2, id) ∈ pairs -> ch_at rest 0 <> ch2 -> lexeme ch [] 0 (ch :: rest) rest
  | lex_double_backtick rest : lexeme kToken_DoubleBacktick [] 0 (96 :: 96 :: rest) rest
  | lex_backtick text rest : text <> [] -> 96 ∉ text -> lexeme kToken_BacktickString text 0 (96 :: text ++ 96 :: rest) rest
  | lex_quote text rest : 39 ∉ text -> lexeme kToken_SingleQuoteString text 0 (39 :: text ++ 39 :: rest) rest
  | lex_integer ds rest :
      ds <> [] -> Forall isdigit ds -> not_next isdigit rest ->
      lexeme kToken_Integer [] (Z.min (number 10 0 ((fun ch => ch - 48) <$> ds)) (2 ^ 31 - 1)) (ds ++ rest) rest
  | lex_variable text inp rest : variable text inp rest -> lexeme kToken_VariableName text 0 inp rest
  | lex_word id text ch inp rest :
      spelling text (ch :: inp) rest -> isIdentifierTerminator ch = false -> isdigit ch = false -> ch <> 35 -> word_id text id ->
      lexeme id text 0 (ch :: inp) rest.

(** A line ends with a newline right behind its last token, or with a comment; blanks in
    front of a newline are out of the question (see [newline_swallowed]). *)
Inductive tok : Token -> list Z -> list Z -> Prop :=
  | tok_lexeme id text n sp inp rest :
      Forall blank sp -> lexeme id text n inp rest -> tok (MkToken id text n (0 <? length sp)%nat false) (sp ++ inp) rest
  | tok_newline rest : tok (MkToken kToken_Newline [] 0 true false) (10 :: rest) rest
  | tok_crlf rest : tok (MkToken kToken_Newline [] 0 true false) (13 :: 10 :: rest) rest
  | tok_comment sp text rest :
      Forall blank sp -> Forall (fun ch => ch <> 10 /\ ch <> 13) text ->
      tok (MkToken kToken_Newline [] 0 true false) (sp ++ 35 :: text ++ 10 :: rest) rest
  | tok_eof sp : Forall blank sp -> tok (MkToken kToken_Eof [] 0 (0 <? length sp)%nat false) sp [].

(** ** The loops of the lexer *)

Lemma scan_while_all (p : Z -> bool) text rest : Forall p text -> not_next p rest -> scan_while p (text ++ rest) = (text, rest).
Proof.
  intros Ht Hr. induction Ht as [|ch text Hch Ht IH]; cbn.
  - destruct rest as [|ch rest]; cbn in *; [done | by rewrite Hr].
  - by rewrite (Is_true_true_1 _ Hch), IH.
Qed.

Lemma scan_string_all mark text rest : mark ∉ text -> Lexer_ScanString mark (text ++ mark :: rest) = (text, rest, false).
Proof.
  induction text as [|ch text IH]; intros H; cbn; [by rewrite Z.eqb_refl|].
  apply not_elem_of_cons in H as [H1 H2]. by rewrite (proj2 (Z.eqb_neq ch mark)), IH by done.
Qed.

Lemma ident_loop_spelling text inp rest :
  spelling text inp rest -> forall fuel, (length inp < fuel)%nat -> ident_loop fuel inp = Some (text, rest, false).
Proof.
  induction 1 as [rest Hend|ch text inp rest Hch H92 _ IH|ch text inp rest Hn Hr _ IH|text inp rest _ IH|text inp rest _ IH];
    intros [|fuel] Hf; [lia| |lia| |lia| |lia| |lia|]; cbn [ident_loop]; cbn [length] in Hf.
  - destruct rest as [|ch rest]; [done|]. change (ch_at (ch :: rest) 0) with ch in Hend. by rewrite Hend.
  - rewrite Hch, (proj2 (Z.eqb_neq ch 92)), IH by (done || lia). done.
  - change (isIdentifierTerminator 92) with false. cbn [Z.eqb Pos.eqb]. unfold Lexer_ScanEscapedCharacter.
    rewrite (proj2 (Z.eqb_neq ch 13)), (proj2 (Z.eqb_neq ch 10)) by done. cbn [andb]. rewrite IH by lia. done.
  - cbn. rewrite IH by lia. done.
  - cbn. rewrite IH by lia. done.
Qed.

Lemma not_next_orb p q rest : not_next (fun ch => p ch || q ch) rest -> not_next p rest /\ not_next q rest.
Proof. by destruct rest as [|ch rest]; [|intros [H1 H2]%orb_false_iff]. Qed.

Lemma not_next_eqb c rest : c <> 0 -> not_next (fun ch => ch =? c) rest -> ch_at rest 0 =? c = false.
Proof. destruct rest as [|ch rest]; intros Hc H; [by apply Z.eqb_neq, not_eq_sym | done]. Qed.

Lemma try_scan_variable text inp rest : variable text inp rest -> Lexer_TryScanVariableName inp = Some (text, rest).
Proof.
  intros [name rest' Hne Hn Hr|scope name rest' Hs Hne Hn Hr]; unfold Lexer_TryScanVariableName, Lexer_ScanVariableName; cbn [drop]; rewrite drop_0.
  - apply not_next_orb in Hr as [Hr1 Hr2]. rewrite scan_while_all, not_next_eqb by done. by destruct name.
  - rewrite scan_while_all by done. change (ch_at (58 :: name ++ rest') 0 =? 58) with true. cbn [drop]. rewrite drop_0, scan_while_all by done. by destruct name.
Qed.

(** The search in the table of keywords. *)
Lemma strcmp_eq a b : strcmp a b = Eq <-> a = b.
Proof.
  revert b. induction a as [|x a IH]; intros [|y b]; cbn; [done..|].
  destruct (Z.compare_spec x y) as [-> | H | H].
  - rewrite IH. split; congruence.
  - split; [done | intros [= -> _]; lia].
  - split; [done | intros [= -> _]; lia].
Qed.

Lemma bsearch_kw_sound fuel key l r id : bsearch_kw fuel key l r = Some id -> (key, id) ∈ gKeywords.
Proof.
  revert l r. induction fuel as [|fuel IH]; intros l r; cbn [bsearch_kw]; [done|].
  destruct (l <? r)%nat; [|done]. destruct (gKeywords !! _) as [[kw kid]|] eqn:E; [|done]. cbn [mbind option_bind].
  destruct (strcmp key kw) eqn:C; [|by apply IH..].
  intros [= <-]. apply strcmp_eq in C as ->. by eapply list_elem_of_lookup_2.
Qed.

Lemma word_id_found text id : word_id text id -> Lexer_GetIdentifierTokenId text = id.
Proof.
  unfold Lexer_GetIdentifierTokenId. intros [H|[-> H]].
  - repeat (apply elem_of_cons in H as [[= -> ->]|H]; [reflexivity|]). by apply elem_of_nil in H.
  - destruct (_ && _); [|done]. destruct (bsearch_kw _ _ _ _) as [id|] eqn:E; [|done].
    apply bsearch_kw_sound in E. destruct H. change text with (fst (text, id)). by apply list_elem_of_fmap_2.
Qed.

(** ** Numbers *)

Lemma conv_decimal_overflowed ds rest : Forall isdigit ds -> not_next isdigit rest -> forall num, exists num', conv_decimal num true (ds ++ rest) = (num', true, rest).
Proof.
  intros Hd Hr. induction Hd as [|ch ds Hch _ IH]; intros num; cbn [app conv_decimal].
  - destruct rest as [|ch rest]; cbn [conv_decimal]; [by eexists|]. cbn in Hr. rewrite Hr. by eexists.
  - rewrite (Is_true_true_1 _ Hch). cbn [negb]. destruct (_ || _); apply IH.
Qed.

Lemma conv_decimal_number ds rest :
  Forall isdigit ds -> not_next isdigit rest -> forall num, 0 <= num < 2 ^ 64 ->
  exists num' ov, conv_decimal num false (ds ++ rest) = (num', ov, rest) /\
    let n := number 10 num ((fun ch => ch - 48) <$> ds) in
    if ov : bool then 2 ^ 64 <= n else num' = n.
Proof.
  intros Hd Hr. induction Hd as [|ch ds Hch Hds IH]; intros num Hn; cbn [app conv_decimal].
  - exists num, false. split; [|done]. destruct rest as [|ch rest]; cbn [conv_decimal]; [done|]. cbn in Hr. by rewrite Hr.
  - apply Is_true_true_1 in Hch. rewrite Hch. cbn [negb]. rewrite isdigit_spec in Hch.
    destruct (_ || _) eqn:E.
    + destruct (conv_decimal_overflowed ds rest Hds Hr num) as [num' ->]. exists num', true. split; [done|].
      cbn [fmap list_fmap number fold_left]. etrans; [|apply number_ge; [lia..|]].
      * change ((2 ^ 64 - 1) / 10) with 1844674407370955161 in E. change ((2 ^ 64 - 1) mod 10) with 5 in E. lia.
      * apply Forall_fmap. eapply Forall_impl; [exact Hds|]. intros c Hc%Is_true_true_1. rewrite isdigit_spec in Hc. cbn. lia.
    + change ((2 ^ 64 - 1) / 10) with 1844674407370955161 in E. change ((2 ^ 64 - 1) mod 10) with 5 in E.
      rewrite u64_small by lia. apply IH. lia.
Qed.

Lemma scan_integer_all ds rest :
  Forall isdigit ds -> not_next isdigit rest ->
  Lexer_ScanInteger (ds ++ rest) = (Z.min (number 10 0 ((fun ch => ch - 48) <$> ds)) (2 ^ 31 - 1), rest).
Proof.
  intros Hd Hr. destruct (conv_decimal_number ds rest Hd Hr 0 ltac:(lia)) as (num' & ov & E & Hn).
  unfold Lexer_ScanInteger. rewrite E. f_equal.
  - destruct ov; cbn in Hn; [|subst num']; destruct (_ <? _) eqn:E2; lia.
  - pose proof (scan_while_all isdigit [] rest (Forall_nil_2 _) Hr) as E2. cbn [app] in E2. by rewrite E2.
Qed.

(** ** The lexer reads the token *)

(** An identifier goes on with a character that is none of the others. *)
Lemma not_terminator ch : isIdentifierTerminator ch = false ->
  isspace ch = false /\ ch ∉ [0; 124; 38; 43; 45; 42; 47; 37; 59; 36; 34; 96; 39; 40; 41; 123; 125; 60; 62; 61; 33].
Proof. unfold isIdentifierTerminator. intros [H1%bool_decide_eq_false_1 H2]%orb_false_iff. done. Qed.

Lemma isspace_blank ch : isspace ch = false -> ch ∉ [32; 9; 11; 12; 10; 13].
Proof. intros H Hin. repeat (apply elem_of_cons in Hin as [-> | Hin]; [done|]). by apply elem_of_nil in Hin. Qed.

(** Behind the tests of the lexer for the other tokens. *)
Lemma default_loop_word ch rest fuel ws self :
  isIdentifierTerminator ch = false -> isdigit ch = false -> ch <> 35 ->
  default_loop (S fuel) ws self (ch :: rest) =
    ('(text, rest, inc) ← Lexer_ScanIdentifier (ch :: rest); Some (token_at self rest (MkToken (Lexer_GetIdentifierTokenId text) text 0 ws inc))).
Proof.
  intros [Hs%isspace_blank Ht]%not_terminator Hd H35. rewrite isdigit_spec in Hd.
  assert (forall k, bool_decide (k ∈ [32; 9; 11; 12; 10; 13] ++ [0; 124; 38; 43; 45; 42; 47; 37; 59; 36; 34; 96; 39; 40; 41; 123; 125; 60; 62; 61; 33]) = true -> ch =? k = false) as Hk.
  { intros k Hk%bool_decide_eq_true_1. apply Z.eqb_neq. intros ->. by apply elem_of_app in Hk as []. }
  apply Z.eqb_neq in H35. cbn [default_loop]. unfold double_char.
  assert (single_char ch = false) as ->.
  { apply bool_decide_eq_false_2. intros Hin. apply Ht. revert Hin. clear. set_solver. }
  rewrite H35, Hd, !Hk by reflexivity. done.
Qed.

Lemma spelling_length text inp rest : spelling text inp rest -> (length rest <= length inp)%nat.
Proof. induction 1; cbn; lia. Qed.

(** A word that starts with a character that does not end one is not empty. *)
Lemma spelling_starts text ch inp rest :
  spelling text (ch :: inp) rest -> isIdentifierTerminator ch = false ->
  (length rest <= length inp)%nat /\ (ch <> 92 -> exists text', text = ch :: text' /\ spelling text' inp rest).
Proof.
  intros Hsp Hch. remember (ch :: inp) as src eqn:E.
  destruct Hsp as [rest' Hend|c text inp' rest' _ _ H|c text inp' rest' _ _ H|text inp' rest' H|text inp' rest' H]; simplify_eq;
    [|apply spelling_length in H as Hl; cbn; split; [lia|intros ?; by eauto]..].
  specialize (Hend ltac:(done)). change (ch_at (ch :: inp) 0) with ch in Hend. congruence.
Qed.

Lemma lexeme_length id text n inp rest : lexeme id text n inp rest -> (length rest < length inp)%nat.
Proof.
  intros [| | | | | |[|c ds] rest' Hne| text' inp' rest' []|id' text' ch inp' rest' Hsp Hch];
    rewrite ?length_app; cbn; rewrite ?length_app; cbn; rewrite ?length_app; try done; try lia.
  apply spelling_starts in Hsp as [Hl _]; [lia|done].
Qed.

Lemma lexeme_head id text n inp rest :
  lexeme id text n inp rest -> exists ch inp', inp = ch :: inp' /\ isspace ch = false /\ ch <> 35.
Proof.
  intros [ch rest' Hin|ch ch2 id' rest' Hin|ch ch2 id' rest' Hin Hne|rest'|text' rest' Hne Hin|text' rest' Hin
         |[|c ds] rest' Hne Hd Hr|text' inp' rest' []|id' text' ch inp' rest' Hsp Hch Hd H35 Hid]; try done; (eexists _, _; split; [done|]); try done.
  - repeat (apply elem_of_cons in Hin as [-> | Hin]; [done|]). by apply elem_of_nil in Hin.
  - repeat (apply elem_of_cons in Hin as [[= -> -> ->] | Hin]; [done|]). by apply elem_of_nil in Hin.
  - repeat (apply elem_of_cons in Hin as [[= -> -> ->] | Hin]; [done|]). by apply elem_of_nil in Hin.
  - apply Forall_cons in Hd as [Hc%Is_true_true_1 _].
    split; [apply (space_not_digit c (c - 48)); unfold digit_of; by rewrite Hc|]. by intros ->.
  - split; [by apply not_terminator|done].
Qed.

Lemma default_loop_lexeme id text n inp rest fuel ws self :
  lexeme id text n inp rest -> default_loop (S fuel) ws self inp = Some (token_at self rest (MkToken id text n ws false)).
Proof.
  intros [ch rest' Hin|ch ch2 id' rest' Hin|ch ch2 id' rest' Hin Hne|rest'|text' rest' Hne Hin|text' rest' Hin
         |ds rest' Hne Hd Hr|text' inp' rest' Hv|id' text' ch inp' rest' Hsp Hch Hd H35 Hid].
  - repeat (apply elem_of_cons in Hin as [-> | Hin]; [reflexivity|]). by apply elem_of_nil in Hin.
  - repeat (apply elem_of_cons in Hin as [[= -> -> ->] | Hin]; [cbn; by rewrite ?drop_0|]). by apply elem_of_nil in Hin.
  - apply Z.eqb_neq in Hne.
    repeat (apply elem_of_cons in Hin as [[= -> -> ->] | Hin]; [cbn; by rewrite Hne|]). by apply elem_of_nil in Hin.
  - cbn. by rewrite drop_0.
  - destruct text' as [|c text']; [done|]. assert (96 ∉ c :: text') as Hin2 by done.
    apply not_elem_of_cons in Hin as [H1%not_eq_sym _]. apply Z.eqb_neq in H1.
    cbn [default_loop]. cbn -[Lexer_ScanString ch_at]. change (ch_at (c :: text' ++ 96 :: rest') 0) with c.
    rewrite H1, (scan_string_all 96 (c :: text') rest' Hin2 : Lexer_ScanString 96 (c :: text' ++ 96 :: rest') = _). done.
  - cbn -[Lexer_ScanString]. by rewrite scan_string_all.
  - destruct ds as [|c ds]; [done|]. pose proof (scan_integer_all (c :: ds) rest' Hd Hr) as E.
    apply Forall_cons in Hd as [Hc%Is_true_true_1 _]. rewrite isdigit_spec in Hc.
    assert (c ∈ seqZ 48 10) as Hc2 by (apply elem_of_seqZ; lia). clear Hc.
    repeat (apply elem_of_cons in Hc2 as [-> | Hc2]; [cbn -[Lexer_ScanInteger]; cbn [app] in E; by rewrite E|]). by apply elem_of_nil in Hc2.
  - pose proof (try_scan_variable _ _ _ Hv) as E. destruct Hv; cbn -[Lexer_TryScanVariableName]; by rewrite E.
  - rewrite default_loop_word by done. unfold Lexer_ScanIdentifier.
    destruct (Z.eqb_spec ch 92) as [->|H92].
    + rewrite (ident_loop_spelling _ _ _ Hsp) by (cbn; lia). cbn. by rewrite (word_id_found _ _ Hid).
    + destruct (proj2 (spelling_starts _ _ _ _ Hsp Hch) H92) as (text'' & -> & Hsp').
      rewrite (ident_loop_spelling _ _ _ Hsp') by lia. cbn. by rewrite (word_id_found _ _ Hid).
Qed.

(** Blanks and comments in front of a token. *)
Lemma blank_isspace sp : Forall blank sp -> Forall isspace sp.
Proof.
  intros H. eapply Forall_impl; [exact H|]. intros ch Hch%bool_decide_unpack.
  repeat (apply elem_of_cons in Hch as [-> | Hch]; [exact I|]). by apply elem_of_nil in Hch.
Qed.


Lemma not_next_space ch inp : isspace ch = false -> not_next isspace (ch :: inp).
Proof. done. Qed.

Lemma default_loop_blank ch sp inp fuel ws self :
  Forall blank (ch :: sp) -> not_next isspace inp -> default_loop (S fuel) ws self ((ch :: sp) ++ inp) = default_loop fuel ws self inp.
Proof.
  intros Hb Hn. pose proof (blank_isspace _ Hb) as Hs. apply Forall_cons in Hb as [Hch%bool_decide_unpack _].
  assert (Lexer_SkipWhitespace ((ch :: sp) ++ inp) = inp) as E by (unfold Lexer_SkipWhitespace; by rewrite scan_while_all).
  repeat (apply elem_of_cons in Hch as [-> | Hch]; [cbn -[Lexer_SkipWhitespace]; cbn [app] in E; by rewrite E|]). by apply elem_of_nil in Hch.
Qed.

Lemma skip_comment text rest :
  Forall (fun ch => ch <> 10 /\ ch <> 13) text -> Lexer_SkipLineComment (text ++ 10 :: rest) = 10 :: rest.
Proof.
  induction 1 as [|ch text [H1 H2] _ IH]; cbn [app Lexer_SkipLineComment]; [done|].
  apply Z.eqb_neq in H1, H2. by rewrite H1, H2.
Qed.

(** The text that the lexer has in front of it when it is at [inp]: the first token of a
    script counts as one behind a blank. *)
Definition reads_from (src : list Z) (i : Z) (inp : list Z) : Prop := (0 < i /\ src = inp) \/ (i = 0 /\ inp = 32 :: src).

Definition leading_ws (src : list Z) (i : Z) : bool := (ch_at src 0 =? 35) || isspace (ch_at src 0) || (i =? 0).

Lemma reads_from_spaced src i sp inp :
  reads_from src i (sp ++ inp) -> Forall blank sp -> not_next isspace inp ->
  (exists sp', src = sp' ++ inp /\ Forall blank sp') /\ ((0 < length sp)%nat -> leading_ws src i = true).
Proof.
  intros [[Hi ->]|[-> E]] Hb Hn.
  - split; [by exists sp|]. destruct sp as [|ch sp]; [cbn; lia|]. intros _.
    apply blank_isspace in Hb. apply Forall_cons in Hb as [Hch%Is_true_true_1 _].
    unfold leading_ws. change (ch_at ((ch :: sp) ++ inp) 0) with ch. by rewrite Hch, orb_true_r.
  - destruct sp as [|ch sp]; cbn in E; [by subst|]. injection E as -> <-. apply Forall_cons in Hb as [_ Hb].
    split; [by exists sp|]. intros _. unfold leading_ws. by rewrite orb_true_r.
Qed.

Lemma leading_ws_none ch src i inp : reads_from src i (ch :: inp) -> isspace ch = false -> ch <> 35 -> leading_ws src i = false.
Proof.
  intros [[Hi ->]|[-> E]] Hs H35; [|by injection E as ->].
  unfold leading_ws. change (ch_at (ch :: inp) 0) with ch. rewrite Hs. lia.
Qed.

Lemma default_loop_spaced sp inp k ws self R :
  Forall blank sp -> not_next isspace inp -> (forall fuel, (k <= fuel)%nat -> default_loop fuel ws self inp = R) ->
  forall fuel, (length sp + k <= fuel)%nat -> default_loop fuel ws self (sp ++ inp) = R.
Proof.
  intros Hb Hn H [|fuel] Hf; destruct sp as [|ch sp]; cbn in Hf; [by apply H; lia|lia|by apply H; lia|].
  rewrite default_loop_blank by done. apply H. lia.
Qed.

Lemma consume_default src i tk0 tk rest :
  default_loop (S (length src)) (leading_ws src i) (MkLexer src i tk0 kLexerMode_Default) src =
    Some (token_at (MkLexer src i tk0 kLexerMode_Default) rest tk) ->
  (length rest <= length src)%nat -> 0 <= i -> (0 < i \/ (length rest < length src)%nat \/ t_id tk = kToken_Eof) ->
  exists i', Lexer_ConsumeToken (MkLexer src i tk0 kLexerMode_Default) = Some (MkLexer rest i' tk kLexerMode_Default) /\
    (t_id tk <> kToken_Eof -> 0 < i').
Proof.
  intros H Hl Hi Hp. eexists. split; [exact H|]. cbn. intros He. destruct Hp as [?|[?|?]]; [lia..|done].
Qed.

Lemma reads_from_index src i inp : reads_from src i inp -> 0 <= i.
Proof. intros [[? _]|[-> _]]; lia. Qed.

(** The lexer reads the token of the text. *)
Lemma consume_tok tk inp rest src i tk0 :
  tok tk inp rest -> reads_from src i inp ->
  exists i', Lexer_ConsumeToken (MkLexer src i tk0 kLexerMode_Default) = Some (MkLexer rest i' tk kLexerMode_Default) /\
    (t_id tk <> kToken_Eof -> 0 < i').
Proof.
  intros Ht Hr. pose proof (reads_from_index _ _ _ Hr) as Hi.
  destruct Ht as [id text n sp inp rest Hb Hlex|rest|rest|sp text rest Hb Htext|sp Hb].
  - destruct (lexeme_head _ _ _ _ _ Hlex) as (ch & inp' & E & Hs & H35). pose proof (lexeme_length _ _ _ _ _ Hlex) as Hlen.
    assert (not_next isspace inp) as Hn by by rewrite E.
    destruct (reads_from_spaced _ _ _ _ Hr Hb Hn) as [(sp' & -> & Hb') Hws].
    assert (leading_ws (sp' ++ inp) i = (0 <? length sp)%nat) as Ews.
    { destruct sp as [|c sp]; [|by apply Hws; cbn; lia]. cbn in Hr. rewrite E in Hr. rewrite E. by eapply leading_ws_none. }
    apply consume_default; rewrite ?length_app; [|lia..]. rewrite <- Ews.
    eapply (default_loop_spaced sp' inp 1); [done..| |lia].
    intros [|fuel] Hf; [lia|]. by apply default_loop_lexeme.
  - destruct Hr as [[Hi' ->]|[_ [=]]]. by apply consume_default; cbn; [|lia..].
  - destruct Hr as [[Hi' ->]|[_ [=]]]. apply consume_default; cbn -[ch_at]; [|lia..].
    destruct (ch_at rest 0 =? 10); reflexivity.
  - assert (not_next isspace (35 :: text ++ 10 :: rest)) as Hn by done.
    destruct (reads_from_spaced _ _ _ _ Hr Hb Hn) as [(sp' & -> & Hb') Hws].
    assert (leading_ws (sp' ++ 35 :: text ++ 10 :: rest) i = true) as Ews.
    { destruct sp as [|c sp]; [|by apply Hws; cbn; lia]. destruct Hr as [[_ E]|[_ [=]]]. by rewrite E. }
    apply consume_default; rewrite ?length_app; cbn [length]; rewrite ?length_app; cbn [length]; [|lia..]. rewrite <- Ews.
    eapply (default_loop_spaced sp' (35 :: text ++ 10 :: rest) 2); [done..| |lia].
    intros [|[|fuel]] Hf; [lia..|]. cbn -[Lexer_SkipLineComment].
    change (35 :: text ++ 10 :: rest) with ((35 :: text) ++ 10 :: rest). by rewrite skip_comment by by constructor.
  - rewrite <- (app_nil_r sp) in Hr. destruct (reads_from_spaced _ _ _ _ Hr Hb I) as [(sp' & -> & Hb') Hws].
    assert (leading_ws (sp' ++ []) i = (0 <? length sp)%nat) as Ews.
    { destruct sp as [|c sp]; [|by apply Hws; cbn; lia]. destruct Hr as [[Hi' E]|[_ [=]]]. rewrite E. change (leading_ws ([] ++ []) i) with (i =? 0). apply Z.eqb_neq. lia. }
    apply consume_default; [|cbn; lia..|by right; right]. rewrite <- Ews.
    eapply (default_loop_spaced sp' [] 1); [done..| |rewrite length_app; cbn; lia].
    by intros [|fuel] Hf; [lia|].
Qed.

(** ** Tokens in a string *)

(** The characters behind a backslash.  Of the hexadecimal codes only those without
    letters are spelled here (see [hex_escape_letters]). *)
Definition escape_letters : list (Z * Z) :=
  [(97, 7); (98, 8); (101, 27); (102, 12); (114, 13); (110, 10); (118, 11); (36, 36); (34, 34); (39, 39); (92, 92)].
Definition octal (ch : Z) : bool := (48 <=? ch) && (ch <=? 55).

Inductive escape : Z -> list Z -> list Z -> Prop :=
  | esc_letter ch code rest : (ch, code) ∈ escape_letters -> escape code (ch :: rest) rest
  | esc_octal ds rest :
      (0 < length ds <= 3)%nat -> Forall octal ds -> (length ds = 3%nat \/ not_next octal rest) ->
      escape (number 8 0 ((fun ch => ch - 48) <$> ds) mod 256) (ds ++ rest) rest
  | esc_hex x d1 d2 rest :
      x ∈ [120; 88] -> isdigit d1 -> isdigit d2 -> escape ((d1 - 48) * 16 + (d2 - 48)) (x :: d1 :: d2 :: rest) rest
  | esc_newline rest : escape 10 (10 :: rest) rest
  | esc_crlf rest : escape 10 (13 :: 10 :: rest) rest.

Definition string_mode (isBacktick : bool) : LexerMode := if isBacktick then kLexerMode_DoubleBacktick else kLexerMode_DoubleQuote.
Definition quote_token (isBacktick : bool) : Z := if isBacktick then kToken_DoubleBacktick else kToken_DoubleQuote.
Definition quotes (isBacktick : bool) : list Z := if isBacktick then [96; 96] else [34].

(** The characters that stand for themselves, and what ends a run of them. *)
Definition plain_char (isBacktick : bool) (ch : Z) : bool := negb (bool_decide (ch ∈ [36; 92; if isBacktick then 96 else 34])).
Definition segment_end (isBacktick : bool) (rest : list Z) : Prop :=
  ch_at rest 0 = 36 \/ ch_at rest 0 = 92 \/ exists rest', rest = quotes isBacktick ++ rest'.

Inductive stok (isBacktick : bool) : Token -> list Z -> list Z -> Prop :=
  | stok_segment text rest :
      text <> [] -> Forall (plain_char isBacktick) text -> segment_end isBacktick rest ->
      stok isBacktick (MkToken kToken_StringSegment text 0 false false) (text ++ rest) rest
  | stok_escape code inp rest : escape code inp rest -> stok isBacktick (MkToken kToken_EscapeSequence [code] 0 false false) (92 :: inp) rest
  | stok_expression rest : stok isBacktick (MkToken kToken_EscapedExpression [] 0 false false) (92 :: 40 :: rest) rest
  | stok_variable text inp rest : variable text inp rest -> stok isBacktick (MkToken kToken_VariableName text 0 false false) inp rest
  | stok_quote rest : stok isBacktick (MkToken (quote_token isBacktick) [] 0 false false) (quotes isBacktick ++ rest) rest.

Lemma scan_octal_all ds rest : Forall octal ds -> forall n val,
  (length ds <= n)%nat -> (length ds = n \/ not_next octal rest) ->
  scan_octal n val (ds ++ rest) = (number 8 val ((fun ch => ch - 48) <$> ds), rest).
Proof.
  induction 1 as [|ch ds Hch _ IH]; intros n val Hl He; cbn [app].
  - destruct n as [|n]; [done|]. destruct rest as [|ch rest]; [done|]. destruct He as [[=]|He]. cbn in He.
    cbn [scan_octal]. unfold octal in He. destruct (_ || _) eqn:E; [done|lia].
  - destruct n as [|n]; [cbn in Hl; lia|]. cbn [scan_octal]. unfold octal in Hch.
    destruct (_ || _) eqn:E; [apply Is_true_true_1 in Hch; lia|].
    cbn in Hl. assert (length ds = n \/ not_next octal rest) as He' by (destruct He as [[= He]|He]; [by left|by right]).
    rewrite IH by (done || lia). by rewrite Z.shiftl_mul_pow2 by lia.
Qed.

Lemma scan_escape code inp rest : escape code inp rest -> Lexer_ScanStringEscapeSequence inp = ([code], rest, false) /\ ch_at inp 0 =? 40 = false.
Proof.
  intros [ch code' rest' Hin|ds rest' Hl Hd He|x d1 d2 rest' Hx H1 H2|rest'|rest'].
  - repeat (apply elem_of_cons in Hin as [[= -> ->] | Hin]; [by split|]). by apply elem_of_nil in Hin.
  - destruct ds as [|ch ds]; [cbn in Hl; lia|].
    assert (Lexer_ScanOctalEscapeSequence ((ch :: ds) ++ rest') = ([number 8 0 ((fun ch => ch - 48) <$> ch :: ds) mod 256], rest')) as E.
    { unfold Lexer_ScanOctalEscapeSequence. rewrite scan_octal_all by (done || lia). f_equal. f_equal. apply (Z.land_ones _ 8). lia. }
    apply Forall_cons in Hd as [Hch%Is_true_true_1 _]. unfold octal in Hch.
    assert (ch ∈ seqZ 48 8) as Hin by (apply elem_of_seqZ; lia). clear Hch.
    repeat (apply elem_of_cons in Hin as [-> | Hin]; [split; [cbn -[Lexer_ScanOctalEscapeSequence]; cbn [app] in E; by rewrite E|done]|]). by apply elem_of_nil in Hin.
  - apply Is_true_true_1 in H1, H2. rewrite isdigit_spec in H1, H2.
    assert (Lexer_ScanHexByteEscapeSequence (d1 :: d2 :: rest') = ([(d1 - 48) * 16 + (d2 - 48)], rest')) as E.
    { unfold Lexer_ScanHexByteEscapeSequence. cbn [scan_hex]. unfold isxdigit. rewrite !isdigit_spec, H1, H2. cbn [orb negb].
      rewrite (proj2 (Z.leb_gt 97 d1)), (proj2 (Z.leb_gt 65 d1)), (proj2 (Z.leb_gt 97 d2)), (proj2 (Z.leb_gt 65 d2)) by lia.
      f_equal. f_equal. rewrite (Z.land_ones _ 8), !Z.shiftl_mul_pow2 by lia. rewrite Z.mod_small; lia. }
    repeat (apply elem_of_cons in Hx as [-> | Hx]; [split; [cbn -[Lexer_ScanHexByteEscapeSequence]; by rewrite E|done]|]). by apply elem_of_nil in Hx.
  - done.
  - split; [cbn; by rewrite drop_0|done].
Qed.

Lemma scan_segment_end b rest : segment_end b rest -> Lexer_ScanStringSegment (string_mode b) rest = ([], rest).
Proof.
  destruct rest as [|ch rest]; [done|]. intros [E|[E|[rest' E]]]; [cbn in E; by subst..|]. by destruct b; injection E as -> ->.
Qed.

Lemma plain_char_spec b ch : plain_char b ch -> ch =? 36 = false /\ ch =? 92 = false /\ ch =? (if b then 96 else 34) = false.
Proof.
  unfold plain_char. intros H%Is_true_true_1%negb_true_iff%bool_decide_eq_false_1.
  apply not_elem_of_cons in H as [H1 H]. apply not_elem_of_cons in H as [H2 H]. apply not_elem_of_cons in H as [H3 _].
  apply Z.eqb_neq in H1, H2, H3. done.
Qed.

(** A plain character is no closing mark. *)
Lemma plain_not_quote b ch x :
  plain_char b ch ->
  (ch =? 34) && bool_decide (string_mode b = kLexerMode_DoubleQuote) = false /\
  (ch =? 96) && x && bool_decide (string_mode b = kLexerMode_DoubleBacktick) = false.
Proof. intros (_ & _ & H)%plain_char_spec. by destruct b; rewrite H; cbn; rewrite ?andb_false_r. Qed.

Lemma scan_segment_all b text rest :
  Forall (plain_char b) text -> segment_end b rest -> Lexer_ScanStringSegment (string_mode b) (text ++ rest) = (text, rest).
Proof.
  intros Ht Hr. induction Ht as [|ch text Hch _ IH]; cbn [app]; [by apply scan_segment_end|]. cbn [Lexer_ScanStringSegment].
  destruct (plain_not_quote b ch (ch_at (text ++ rest) 0 =? 96) Hch) as [-> ->].
  destruct (plain_char_spec b ch Hch) as (-> & -> & _). cbn [orb]. by rewrite IH.
Qed.

Lemma escape_length code inp rest : escape code inp rest -> (length rest <= length inp)%nat.
Proof. intros []; rewrite ?length_app; cbn; lia. Qed.

Lemma stok_length b tk inp rest : stok b tk inp rest -> (length rest <= length inp)%nat.
Proof.
  intros [text rest' Hne|code inp' rest' H%escape_length|rest'|text inp' rest' []|rest'];
    rewrite ?length_app; cbn; rewrite ?length_app; cbn; rewrite ?length_app; lia.
Qed.

(** The lexer reads the token of the string. *)
Lemma consume_stok b tk inp rest i tk0 :
  stok b tk inp rest -> 0 < i ->
  exists i', Lexer_ConsumeToken (MkLexer inp i tk0 (string_mode b)) = Some (MkLexer rest i' tk (string_mode b)) /\ 0 < i'.
Proof.
  intros H Hi. exists (i + (Z.of_nat (length inp) - Z.of_nat (length rest))).
  pose proof (stok_length _ _ _ _ H). split; [|lia].
  transitivity (Some (Lexer_ConsumeToken_StringMode (MkLexer inp i tk0 (string_mode b)))); [by destruct b|]. f_equal.
  transitivity (token_at (MkLexer inp i tk0 (string_mode b)) rest tk); [|done].
  destruct H as [text rest' Hne Ht Hr|code inp' rest' [E1 E2]%scan_escape|rest'|text inp' rest' Hv|rest'].
  - destruct text as [|ch text]; [done|]. pose proof (scan_segment_all b _ _ Ht Hr) as E. apply Forall_cons in Ht as [Hch _].
    unfold Lexer_ConsumeToken_StringMode. cbn [source mode app]. change (ch_at (ch :: text ++ rest') 0) with ch.
    destruct (plain_not_quote b ch (ch_at (ch :: text ++ rest') 1 =? 96) Hch) as [-> ->].
    destruct (plain_char_spec b ch Hch) as (-> & -> & _). cbn [app] in E. by rewrite E.
  - unfold Lexer_ConsumeToken_StringMode. cbn -[Lexer_ScanStringEscapeSequence ch_at]. change (ch_at (92 :: inp') 0) with 92.
    cbn -[Lexer_ScanStringEscapeSequence ch_at]. by rewrite E2, E1.
  - cbn. by rewrite drop_0.
  - pose proof (try_scan_variable _ _ _ Hv) as E. unfold Lexer_ConsumeToken_StringMode. cbn [source mode].
    destruct Hv; cbn -[Lexer_TryScanVariableName]; by rewrite E.
  - destruct b; reflexivity.
Qed.
