(* ===== verification/ShellGrammar.v ===== *)
(** * The grammar of the shell language (user/cmd/shell/docs/Grammar.md)

    The rules of the grammar for the characters of a script: a judgement [J x inp rest]
    says that the text [inp] starts with a phrase for the syntax tree [x], behind which
    comes [rest].  The judgements do not mention the lexer or the parser.  The precedences
    are levels, from 0 (disjunction) to 4 (multiplication); level 5 has the prefix
    operators and the operands. *)

From S2P Require Import Prelude ShellLexer ShellParser ShellTokens.

Notation ws := hasLeadingWhitespace.

(** The text starts with a token with the id, or of the class. *)
Definition token (id : Z) (tk : Token) (inp rest : list Z) : Prop := tok tk inp rest /\ t_id tk = id.
Definition starts (Q : Z -> Prop) (inp : list Z) : Prop := exists tk rest, tok tk inp rest /\ Q (t_id tk).

(** ** Operators *)

Definition operators : list (nat * Z * BinaryType) :=
  [(0%nat, kToken_Disjunction, kArithmetic_Disjunction); (1%nat, kToken_Conjunction, kArithmetic_Conjunction);
   (2%nat, kToken_EqualEqual, kArithmetic_Equals); (2%nat, kToken_NotEqual, kArithmetic_NotEquals);
   (2%nat, kToken_LessEqual, kArithmetic_LessEquals); (2%nat, kToken_GreaterEqual, kArithmetic_GreaterEquals);
   (2%nat, kToken_Less, kArithmetic_Less); (2%nat, kToken_Greater, kArithmetic_Greater);
   (3%nat, kToken_Plus, kArithmetic_Addition); (3%nat, kToken_Minus, kArithmetic_Subtraction);
   (4%nat, kToken_Asterisk, kArithmetic_Multiplication); (4%nat, kToken_Slash, kArithmetic_Division);
   (4%nat, kToken_Percent, kArithmetic_Modulo)].

Definition prefix_operators : list (Z * UnaryType) :=
  [(kToken_Plus, kArithmetic_Positive); (kToken_Minus, kArithmetic_Negative); (kToken_Bang, kArithmetic_Not)].

(** Tokens that are words of a command when they stand behind its first word. *)
Definition command_symbols : list (Z * list Z) :=
  [(kToken_Assignment, [61]); (kToken_Asterisk, [42]); (kToken_Bang, [33]); (kToken_Greater, [62]); (kToken_Less, [60]);
   (kToken_Minus, [45]); (kToken_Percent, [37]); (kToken_Plus, [43]); (kToken_Slash, [47]);
   (kToken_Conjunction, [38; 38]); (kToken_Disjunction, [124; 124]); (kToken_EqualEqual, [61; 61]);
   (kToken_GreaterEqual, [62; 61]); (kToken_LessEqual, [60; 61]); (kToken_NotEqual, [33; 61])].
Definition command_words : list Z :=
  [kToken_Identifier; kToken_Else; kToken_False; kToken_If; kToken_Internal; kToken_Let; kToken_Public; kToken_True;
   kToken_Var; kToken_While].

(** A variable, with its scope or without. *)
Definition var_ref (text : list Z) (v : VarRef) : Prop :=
  58 ∉ vr_name v /\ ((text = vr_name v /\ vr_scope v = []) \/ text = vr_scope v ++ 58 :: vr_name v).

(** ** Terminators *)

Inductive newlines : list Z -> list Z -> Prop :=
  | newlines_none rest : starts (fun id => id <> kToken_Newline) rest -> newlines rest rest
  | newlines_more tk inp r1 rest : token kToken_Newline tk inp r1 -> newlines r1 rest -> newlines inp rest.

(** A brace, or the end of the script, is not part of the phrase that it ends. *)
Inductive terminator (isNested : bool) : bool -> list Z -> list Z -> Prop :=
  | term_token id tk inp r1 rest :
      id ∈ [kToken_Newline; kToken_Semicolon; kToken_Ampersand] -> token id tk inp r1 -> newlines r1 rest ->
      terminator isNested (id =? kToken_Ampersand) inp rest
  | term_brace inp : isNested = true -> starts (eq kToken_ClosingBrace) inp -> terminator isNested false inp inp
  | term_eof inp : isNested = false -> starts (eq kToken_Eof) inp -> terminator isNested false inp inp.

(** ** Declarations *)

Inductive visibility : Z -> list Z -> list Z -> Prop :=
  | vis_none inp : visibility 0 inp inp
  | vis_internal tk inp rest : token kToken_Internal tk inp rest -> visibility 0 inp rest
  | vis_public tk inp rest : token kToken_Public tk inp rest -> visibility kVarModifier_Public inp rest.

Inductive mutability : Z -> list Z -> list Z -> Prop :=
  | mut_let tk inp rest : token kToken_Let tk inp rest -> mutability 0 inp rest
  | mut_var tk inp rest : token kToken_Var tk inp rest -> mutability kVarModifier_Mutable inp rest.

(** ** Phrases *)

Inductive arith : Arithmetic -> list Z -> list Z -> Prop :=
  | arith_expr e inp rest : expr 0 e inp rest -> arith e inp rest
  | arith_command e inp rest : command e inp rest -> arith e inp rest
  | arith_pipeline tk l r inp r1 r2 rest :
      arith l inp r1 -> token kToken_Bar tk r1 r2 -> command r r2 rest ->
      arith (BinaryArithmetic (ws tk) kArithmetic_Pipeline l r) inp rest
with command : Arithmetic -> list Z -> list Z -> Prop :=
  | command_atoms a l inp r1 rest : first_atom a inp r1 -> atoms l r1 rest -> command (CommandArithmetic (a :: l)) inp rest
with first_atom : Atom -> list Z -> list Z -> Prop :=
  | first_word id type tk inp rest :
      (id, type) ∈ [(kToken_BacktickString, kAtom_BacktickString); (kToken_Identifier, kAtom_Identifier)] ->
      token id tk inp rest -> first_atom (StringAtom type (t_string tk) (ws tk)) inp rest
  | first_slash tk inp rest : token kToken_Slash tk inp rest -> first_atom (StringAtom kAtom_Identifier [47] (ws tk)) inp rest
  | first_compound w str inp rest : compound true w str inp rest -> first_atom (CompoundAtom kAtom_DoubleBacktickString str w) inp rest
with atoms : list Atom -> list Z -> list Z -> Prop :=
  | atoms_nil inp : atoms [] inp inp
  | atoms_cons a l inp r1 rest : atom a inp r1 -> atoms l r1 rest -> atoms (a :: l) inp rest
with atom : Atom -> list Z -> list Z -> Prop :=
  | atom_symbol id text tk inp rest :
      (id, text) ∈ command_symbols -> token id tk inp rest -> atom (StringAtom kAtom_Identifier text (ws tk)) inp rest
  | atom_word id tk inp rest :
      id ∈ command_words -> token id tk inp rest -> atom (StringAtom kAtom_Identifier (t_string tk) (ws tk)) inp rest
  | atom_string id type tk inp rest :
      (id, type) ∈ [(kToken_BacktickString, kAtom_BacktickString); (kToken_SingleQuoteString, kAtom_SingleQuoteString)] ->
      token id tk inp rest -> atom (StringAtom type (t_string tk) (ws tk)) inp rest
  | atom_integer tk inp rest : token kToken_Integer tk inp rest -> atom (IntegerAtom (t_i32 tk) (ws tk)) inp rest
  | atom_compound (b : bool) w str inp rest :
      compound b w str inp rest -> atom (CompoundAtom (if b then kAtom_DoubleBacktickString else kAtom_DoubleQuoteString) str w) inp rest
  | atom_variable tk v inp rest : token kToken_VariableName tk inp rest -> var_ref (t_string tk) v -> atom (VarRefAtom v (ws tk)) inp rest
  | atom_arith tk e inp rest : parenthesized tk e inp rest -> atom (ArithmeticAtom e (ws tk)) inp rest
with parenthesized : Token -> Arithmetic -> list Z -> list Z -> Prop :=
  | paren tk tk2 e inp r1 r2 rest :
      token kToken_OpeningParenthesis tk inp r1 -> arith e r1 r2 -> token kToken_ClosingParenthesis tk2 r2 rest ->
      parenthesized tk e inp rest
with compound : bool -> bool -> list Segment -> list Z -> list Z -> Prop :=
  | compound_string b tk str inp r1 rest :
      token (quote_token b) tk inp r1 -> segments b str r1 rest -> compound b (ws tk) str inp rest
with segments : bool -> list Segment -> list Z -> list Z -> Prop :=
  | segments_end b rest : segments b [] (quotes b ++ rest) rest
  | segments_string b tk str inp r1 rest :
      stok b tk inp r1 -> t_id tk = kToken_StringSegment -> segments b str r1 rest ->
      segments b (LiteralSegment kSegment_String (kValue_String (t_string tk)) :: str) inp rest
  | segments_escape b tk str inp r1 rest :
      stok b tk inp r1 -> t_id tk = kToken_EscapeSequence -> segments b str r1 rest ->
      segments b (LiteralSegment kSegment_EscapeSequence (kValue_String (t_string tk)) :: str) inp rest
  | segments_variable b tk v str inp r1 rest :
      stok b tk inp r1 -> t_id tk = kToken_VariableName -> var_ref (t_string tk) v -> segments b str r1 rest ->
      segments b (VarRefSegment v :: str) inp rest
  | segments_arith b tk tk2 e str inp r1 r2 r3 rest :
      stok b tk inp r1 -> t_id tk = kToken_EscapedExpression -> arith e r1 r2 -> token kToken_ClosingParenthesis tk2 r2 r3 ->
      segments b str r3 rest -> segments b (ArithmeticSegment e :: str) inp rest
with expr : nat -> Arithmetic -> list Z -> list Z -> Prop :=
  | expr_up k e inp rest : (k < 5)%nat -> expr (S k) e inp rest -> expr k e inp rest
  | expr_binary k id type tk l r inp r1 r2 rest :
      (k, id, type) ∈ operators -> expr k l inp r1 -> token id tk r1 r2 -> expr (S k) r r2 rest ->
      expr k (BinaryArithmetic (ws tk) type l r) inp rest
  | expr_prefix id type tk e inp r1 rest :
      (id, type) ∈ prefix_operators -> token id tk inp r1 -> expr 5 e r1 rest -> expr 5 (UnaryArithmetic (ws tk) type e) inp rest
  | expr_literal id v tk inp rest :
      (id, v) ∈ [(kToken_False, kValue_Bool false); (kToken_True, kValue_Bool true)] ->
      token id tk inp rest -> expr 5 (LiteralArithmetic (ws tk) v) inp rest
  | expr_integer tk inp rest : token kToken_Integer tk inp rest -> expr 5 (LiteralArithmetic (ws tk) (kValue_Integer (t_i32 tk))) inp rest
  | expr_string tk inp rest : token kToken_SingleQuoteString tk inp rest -> expr 5 (LiteralArithmetic (ws tk) (kValue_String (t_string tk))) inp rest
  | expr_compound w str inp rest : compound false w str inp rest -> expr 5 (CompoundStringArithmetic w str) inp rest
  | expr_variable tk v inp rest :
      token kToken_VariableName tk inp rest -> var_ref (t_string tk) v -> expr 5 (VarRefArithmetic (ws tk) v) inp rest
  | expr_paren tk e inp rest : parenthesized tk e inp rest -> expr 5 (UnaryArithmetic (ws tk) kArithmetic_Parenthesized e) inp rest
  | expr_if tk tk1 c b1 inp r1 r1' r2 rest :
      token kToken_If tk inp r1 -> tok tk1 r1 r1' -> arith c r1 r2 -> block b1 r2 rest ->
      expr 5 (IfArithmetic (ws tk1) c b1 None) inp rest
  | expr_if_else tk tk1 tk2 c b1 b2 inp r1 r1' r2 r3 r4 rest :
      token kToken_If tk inp r1 -> tok tk1 r1 r1' -> arith c r1 r2 -> block b1 r2 r3 ->
      token kToken_Else tk2 r3 r4 -> block b2 r4 rest -> expr 5 (IfArithmetic (ws tk1) c b1 (Some b2)) inp rest
  | expr_while tk tk1 c b inp r1 r1' r2 rest :
      token kToken_While tk inp r1 -> tok tk1 r1 r1' -> arith c r1 r2 -> block b r2 rest ->
      expr 5 (WhileArithmetic (ws tk1) c b) inp rest
with block : list Expression -> list Z -> list Z -> Prop :=
  | block_braces tk tk2 es inp r1 r2 rest :
      token kToken_OpeningBrace tk inp r1 -> expressions true es r1 r2 -> token kToken_ClosingBrace tk2 r2 rest -> block es inp rest
with expressions : bool -> list Expression -> list Z -> list Z -> Prop :=
  | expressions_nil isNested inp : expressions isNested [] inp inp
  | expressions_cons isNested f isAsync es inp r1 r2 rest :
      expression f inp r1 -> terminator isNested isAsync r1 r2 -> expressions isNested es r2 rest ->
      expressions isNested (f isAsync :: es) inp rest
with expression : (bool -> Expression) -> list Z -> list Z -> Prop :=
  | exp_null inp : starts (fun id => id ∈ [kToken_Newline; kToken_Semicolon; kToken_Ampersand]) inp -> expression NullExpression inp inp
  | exp_arith e inp rest : arith e inp rest -> expression (fun isAsync => ArithmeticExpression isAsync e) inp rest
  | exp_assignment tk tk2 v e inp r1 r2 rest :
      token kToken_VariableName tk inp r1 -> var_ref (t_string tk) v -> token kToken_Assignment tk2 r1 r2 -> arith e r2 rest ->
      expression (fun isAsync => AssignmentExpression isAsync (VarRefArithmetic (ws tk) v) e) inp rest
  | exp_declaration public mutable tk tk2 v e inp r1 r2 r3 r4 rest :
      visibility public inp r1 -> mutability mutable r1 r2 -> token kToken_VariableName tk r2 r3 -> var_ref (t_string tk) v ->
      token kToken_Assignment tk2 r3 r4 -> arith e r4 rest ->
      expression (fun isAsync => VarDeclExpression isAsync (public + mutable) v e) inp rest
  | exp_break tk inp rest : token kToken_Break tk inp rest -> expression (fun isAsync => BreakExpression isAsync None) inp rest
  | exp_break_value tk e inp r1 rest :
      token kToken_Break tk inp r1 -> arith e r1 rest -> expression (fun isAsync => BreakExpression isAsync (Some e)) inp rest
  | exp_continue tk inp rest : token kToken_Continue tk inp rest -> expression ContinueExpression inp rest.

(** A script is the expressions of the text up to its end; the first token counts as one
    behind a blank. *)
Definition script (es : list Expression) (text : list Z) : Prop :=
  exists rest, expressions false es (32 :: text) rest /\ starts (eq kToken_Eof) rest.
