(* ===== verification/ShellThm.v ===== *)
(** * The parser of the shell reads the language

    [script_parsed]: the parser of Parser.c returns the syntax tree that the grammar gives
    to a text.  The proof follows the derivation; [reads] is the invariant between the
    steps of the parser: the lexer is at a place of the text, and has its first token. *)

From S2P Require Import Prelude Numbers ShellLexer ShellParser ShellTokens ShellGrammar.

(** ** Places *)

(** A text with the mode that it is read in. *)
Notation place := (LexerMode * list Z)%type.
Notation script_at inp := (kLexerMode_Default, inp).

Definition has_token (p : place) (tk : Token) (rest : list Z) : Prop :=
  match p.1 with
  | kLexerMode_Default => tok tk p.2 rest
  | kLexerMode_DoubleQuote => stok false tk p.2 rest
  | kLexerMode_DoubleBacktick => stok true tk p.2 rest
  end.

(** The lexer has read the first token of the place. *)
Definition at_place (p : place) (self : Lexer) : Prop :=
  exists src i tk0, (match p.1 with kLexerMode_Default => reads_from src i p.2 | _ => 0 < i /\ src = p.2 end) /\
    Lexer_ConsumeToken (MkLexer src i tk0 p.1) = Some self.

(** The lexer is behind the token, in a text with the token [tk]. *)
Lemma at_place_token p self tk rest :
  at_place p self -> has_token p tk rest ->
  t self = tk /\ mode self = p.1 /\ source self = rest /\ (t_id tk <> kToken_Eof -> 0 < sourceIndex self).
Proof.
  destruct p as [[] inp]; intros (src & i & tk0 & Hr & Hc) Ht; cbn [fst snd has_token] in *.
  - destruct (consume_tok _ _ _ _ _ tk0 Ht Hr) as (i' & E & Hi). rewrite E in Hc. by injection Hc as <-.
  - destruct Hr as [Hi ->]. destruct (consume_stok false _ _ _ i tk0 Ht Hi) as (i' & E & Hi'). cbn [string_mode] in E. rewrite E in Hc. by injection Hc as <-.
  - destruct Hr as [Hi ->]. destruct (consume_stok true _ _ _ i tk0 Ht Hi) as (i' & E & Hi'). cbn [string_mode] in E. rewrite E in Hc. by injection Hc as <-.
Qed.

(** A place that the lexer can go to: in a script there must be a token. *)
Definition lexable (p : place) : Prop := p.1 = kLexerMode_Default -> starts (fun _ => True) p.2.

Lemma consume_at_place self m rest :
  mode self = m -> source self = rest -> 0 < sourceIndex self -> lexable (m, rest) ->
  exists self', Lexer_ConsumeToken self = Some self' /\ at_place (m, rest) self'.
Proof.
  destruct self as [src i tk0 m']. cbn. intros -> -> Hi Hl. destruct m.
  - destruct (Hl eq_refl) as (tk & rest' & Ht & _). assert (reads_from rest i rest) as Hr by by left.
    destruct (consume_tok _ _ _ _ _ tk0 Ht Hr) as (i' & E & _). eexists. split; [exact E|]. exists rest, i, tk0. done.
  - eexists. split; [done|]. exists rest, i, tk0. done.
  - eexists. split; [done|]. exists rest, i, tk0. done.
Qed.

(** ** Runs of the parser *)

(** From the place [p] the step returns [x] and is at [q], with enough fuel for its loop
    and for the rest. *)
Definition reads {A} (F : nat -> nat -> P A) (p : place) (x : A) (q : place) : Prop :=
  forall self, at_place p self ->
  exists self' N, (forall n fuel, (N <= n)%nat -> (N <= fuel)%nat -> F n fuel self = Some (inr x, self')) /\ at_place q self'.

Section runs.
  Context {A B : Type}.

Lemma reads_ret (x : A) p : reads (fun _ _ => ret x) p x p.
Proof. intros self H. by exists self, 0%nat. Qed.

Lemma reads_bind (F : nat -> nat -> P A) (G : A -> nat -> nat -> P B) p x q y r :
  reads F p x q -> reads (G x) q y r -> reads (fun n fuel => pbind (F n fuel) (fun x => G x n fuel)) p y r.
Proof.
  intros HF HG self Hp. destruct (HF self Hp) as (s1 & N1 & H1 & Hq). destruct (HG s1 Hq) as (s2 & N2 & H2 & Hr).
  exists s2, (Nat.max N1 N2). split; [|done]. intros n fuel Hn Hf. unfold pbind. rewrite H1 by lia. cbn. apply H2; lia.
Qed.

Lemma reads_token (k : Token -> nat -> nat -> P A) p tk rest x q :
  has_token p tk rest -> reads (k tk) p x q -> reads (fun n fuel => with_token (fun tk => k tk n fuel)) p x q.
Proof.
  intros Ht Hk self Hp. destruct (at_place_token p self tk rest Hp Ht) as [E _].
  destruct (Hk self Hp) as (s1 & N & H1 & Hq). exists s1, N. split; [|done]. intros n fuel Hn Hf. unfold with_token. rewrite E. by apply H1.
Qed.

Lemma reads_on_error (F : nat -> nat -> P A) h p x q : reads F p x q -> reads (fun n fuel => on_error h (F n fuel)) p x q.
Proof.
  intros HF self Hp. destruct (HF self Hp) as (s1 & N & H1 & Hq). exists s1, N. split; [|done].
  intros n fuel Hn Hf. unfold on_error. by rewrite H1.
Qed.

(** The loop has the same fuel as the rest, and one round less. *)
Lemma reads_diag (F : nat -> nat -> P A) p x q : reads F p x q -> reads (fun _ fuel => F fuel fuel) p x q.
Proof. intros HF self Hp. destruct (HF self Hp) as (s1 & N & H1 & Hq). exists s1, N. split; [|done]. intros n fuel _ Hf. by apply H1. Qed.

Lemma reads_round (F : nat -> nat -> P A) p x q : reads (fun n fuel => F (S n) fuel) p x q -> reads F p x q.
Proof.
  intros HF self Hp. destruct (HF self Hp) as (s1 & N & H1 & Hq). exists s1, (S N). split; [|done].
  intros [|n] fuel Hn Hf; [lia|]. apply H1; lia.
Qed.

Lemma reads_fuel (F : nat -> nat -> P A) p x q : reads (fun n fuel => F n (S fuel)) p x q -> reads F p x q.
Proof.
  intros HF self Hp. destruct (HF self Hp) as (s1 & N & H1 & Hq). exists s1, (S N). split; [|done].
  intros n [|fuel] Hn Hf; [lia|]. apply H1; lia.
Qed.

End runs.

Lemma reads_consume p tk rest : has_token p tk rest -> t_id tk <> kToken_Eof -> lexable (p.1, rest) -> reads (fun _ _ => consume) p tt (p.1, rest).
Proof.
  intros Ht He Hl self Hp. destruct (at_place_token p self tk rest Hp Ht) as (_ & Hm & Hs & Hi).
  destruct (consume_at_place self p.1 rest Hm Hs (Hi He) Hl) as (s1 & E & Hq). exists s1, 0%nat. split; [|done].
  intros n fuel _ _. unfold consume. by rewrite E.
Qed.

Lemma reads_switch p tk rest m : has_token p tk rest -> t_id tk <> kToken_Eof -> lexable (m, rest) ->
  reads (fun _ _ => Parser_MatchAndSwitchMode (t_id tk) m) p tt (m, rest).
Proof.
  intros Ht He Hl self Hp. destruct (at_place_token p self tk rest Hp Ht) as (Ht1 & Hm & Hs & Hi).
  destruct (consume_at_place (Lexer_SetMode m self) m rest eq_refl Hs (Hi He) Hl) as (s1 & E & Hq). exists s1, 0%nat. split; [|done].
  intros n fuel _ _. unfold Parser_MatchAndSwitchMode, with_token. rewrite Ht1, Z.eqb_refl. cbn. unfold consume. by rewrite E.
Qed.

Lemma tok_complete tk inp rest : tok tk inp rest -> isIncomplete tk = false.
Proof. by intros []. Qed.

Lemma stok_complete b tk inp rest : stok b tk inp rest -> isIncomplete tk = false.
Proof. by intros []. Qed.

Lemma reads_complete tk p : isIncomplete tk = false -> reads (fun _ _ => failOnIncomplete tk) p tt p.
Proof. unfold failOnIncomplete. intros ->. apply reads_ret. Qed.

Lemma starts_weaken (Q1 Q2 : Z -> Prop) inp : (forall id, Q1 id -> Q2 id) -> starts Q1 inp -> starts Q2 inp.
Proof. intros H (tk & rest & Ht & HQ). exists tk, rest. eauto. Qed.

Lemma starts_lexable Q inp : starts Q inp -> lexable (script_at inp).
Proof. intros H _. by eapply starts_weaken; [|exact H]. Qed.

Lemma string_lexable b inp : lexable (string_mode b, inp).
Proof. by destruct b. Qed.

Lemma token_starts id tk inp rest : token id tk inp rest -> starts (eq id) inp.
Proof. intros [Ht Hid]. by exists tk, rest. Qed.

(** In a script, the step that takes the token. *)
Lemma reads_take id tk inp rest :
  token id tk inp rest -> id <> kToken_Eof -> lexable (script_at rest) -> reads (fun _ _ => consume) (script_at inp) tt (script_at rest).
Proof. intros [Ht <-] He Hl. by apply (reads_consume (script_at inp) tk rest). Qed.

Lemma reads_match id tk inp rest :
  token id tk inp rest -> id <> kToken_Eof -> lexable (script_at rest) ->
  reads (fun _ _ => Parser_Match id) (script_at inp) tt (script_at rest).
Proof.
  intros Ht He Hl. eapply reads_token; [exact (proj1 Ht)|]. rewrite (proj2 Ht), Z.eqb_refl. by eapply reads_take.
Qed.

Lemma reads_matches_yes id tk inp rest :
  token id tk inp rest -> id <> kToken_Eof -> lexable (script_at rest) ->
  reads (fun _ _ => matches id) (script_at inp) true (script_at rest).
Proof.
  intros Ht He Hl. eapply reads_token; [exact (proj1 Ht)|]. rewrite (proj2 Ht), Z.eqb_refl.
  eapply reads_bind; [by eapply reads_take|apply reads_ret].
Qed.

Lemma reads_matches_no id inp : starts (fun id' => id' <> id) inp -> reads (fun _ _ => matches id) (script_at inp) false (script_at inp).
Proof.
  intros (tk & rest & Ht & Hid). eapply reads_token; [exact Ht|]. apply Z.eqb_neq in Hid. rewrite Hid. apply reads_ret.
Qed.

(** A step with a last [ret] is the step. *)
Lemma reads_then_ret {A} (F : nat -> nat -> P A) p x q y r : reads F p x q -> reads (fun _ _ => ret x) q y r -> reads F p y r.
Proof.
  intros HF HG self Hp. destruct (HF self Hp) as (s1 & N1 & H1 & Hq). destruct (HG s1 Hq) as (s2 & N2 & H2 & Hr).
  specialize (H2 N2 N2 ltac:(lia) ltac:(lia)). injection H2 as <- <-. by exists s1, N1.
Qed.

Lemma reads_map {A B} (g : A -> B) (F : nat -> nat -> P A) p x q : reads F p x q -> reads (fun n fuel => pmap g (F n fuel)) p (g x) q.
Proof. intros HF. eapply reads_bind; [exact HF|apply reads_ret]. Qed.

(** ** Variables *)

Lemma split_last_none str : 58 ∉ str -> split_last 58 str = None.
Proof.
  induction str as [|ch str IH]; [done|]. intros [H1 H2]%not_elem_of_cons. cbn [split_last]. rewrite IH by done.
  by rewrite (proj2 (Z.eqb_neq ch 58)).
Qed.

Lemma split_last_some scope name : 58 ∉ name -> split_last 58 (scope ++ 58 :: name) = Some (scope, name).
Proof.
  intros H. induction scope as [|ch scope IH]; cbn [app split_last]; [by rewrite split_last_none|by rewrite IH].
Qed.

Lemma var_ref_created text v : var_ref text v -> VarRef_Create text = v.
Proof.
  destruct v as [scope name]. intros [Hn [[-> E]| ->]]; cbn in *; unfold VarRef_Create.
  - rewrite split_last_none by done. by subst.
  - by rewrite split_last_some.
Qed.

Lemma reads_var_reference p tk v rest :
  has_token p tk rest -> t_id tk = kToken_VariableName -> var_ref (t_string tk) v -> lexable (p.1, rest) ->
  reads (fun _ _ => Parser_VarReference) p v (p.1, rest).
Proof.
  intros Ht Hid Hv Hl. eapply reads_token; [exact Ht|]. rewrite Hid. cbn [negb Z.eqb kToken_VariableName Pos.eqb].
  eapply reads_bind; [by eapply reads_consume; [exact Ht|rewrite Hid|]|]. rewrite (var_ref_created _ _ Hv). apply reads_ret.
Qed.

(** ** What comes first in a phrase and what follows it *)

Definition starts_in (ids : list Z) : list Z -> Prop := starts (fun id => id ∈ ids).

Definition closers : list Z :=
  [kToken_ClosingParenthesis; kToken_OpeningBrace; kToken_ClosingBrace; kToken_Semicolon; kToken_Ampersand; kToken_Newline; kToken_Eof].
Definition terminators : list Z := [kToken_ClosingBrace; kToken_Semicolon; kToken_Ampersand; kToken_Newline; kToken_Eof].
Definition after_command : list Z := kToken_Bar :: closers.
Definition after_expr (k : nat) : list Z :=
  kToken_Assignment :: after_command ++ ((fun op : nat * Z * BinaryType => op.1.2) <$> filter (fun op : nat * Z * BinaryType => (op.1.1 <= k)%nat) operators).
Definition first_command : list Z := [kToken_BacktickString; kToken_DoubleBacktick; kToken_Slash; kToken_Identifier].
Definition first_expr : list Z :=
  [kToken_VariableName; kToken_OpeningParenthesis; kToken_If; kToken_While; kToken_False; kToken_True; kToken_Integer;
   kToken_SingleQuoteString; kToken_DoubleQuote; kToken_Plus; kToken_Minus; kToken_Bang].
Definition first_expression : list Z :=
  first_command ++ first_expr ++
  [kToken_Newline; kToken_Semicolon; kToken_Ampersand; kToken_Public; kToken_Internal; kToken_Let; kToken_Var; kToken_Break; kToken_Continue].

Definition all_in (l1 l2 : list Z) : bool := forallb (fun id => bool_decide (id ∈ l2)) l1.

Lemma starts_in_weaken l1 l2 inp : all_in l1 l2 = true -> starts_in l1 inp -> starts_in l2 inp.
Proof.
  intros H. apply starts_weaken. intros id Hid. unfold all_in in H. rewrite forallb_forall in H.
  apply list_elem_of_In in Hid. by apply H, bool_decide_eq_true_1 in Hid.
Qed.

Lemma token_in id tk inp rest l : token id tk inp rest -> id ∈ l -> starts_in l inp.
Proof. intros [Ht <-] Hl. by exists tk, rest. Qed.

(** Evaluation of the tests of ids, and the cases of a list. *)
Ltac decide_ids :=
  repeat match goal with
  | |- context [is_one_of ?a ?l] =>
      let v := eval vm_compute in (is_one_of a l) in lazymatch v with true => idtac | false => idtac end; change (is_one_of a l) with v
  | |- context [?a =? ?b] =>
      let v := eval vm_compute in (a =? b) in lazymatch v with true => idtac | false => idtac end; change (a =? b) with v
  end; cbn [negb andb].
Ltac elem_cases H := repeat (apply elem_of_cons in H as [H|H]; [simplify_eq|]); [..|by apply elem_of_nil in H].

Ltac in_list := refine (bool_decide_unpack _ _); vm_compute; exact I.

(** The step for the token [tk] of the hypothesis [H : token id tk inp rest]. *)
Ltac at_token H := eapply reads_token; [exact (proj1 H)|]; rewrite ?(proj2 H); decide_ids.

(** ** Levels of precedence *)

Notation A fuel := (Parser_ArithmeticExpression fuel).

Definition level_ops (k : nat) : Z -> option BinaryType :=
  match k with
  | 0 => op_disjunction | 1 => op_conjunction | 2 => op_comparison | 3 => op_addition | 4 => op_multiplication
  | _ => fun _ => None
  end%nat.
Definition level_parser (k fuel : nat) : P Arithmetic :=
  match k with
  | 0 => Parser_Disjunction fuel (A fuel) | 1 => Parser_Conjunction fuel (A fuel) | 2 => Parser_Comparison fuel (A fuel)
  | 3 => Parser_Addition fuel (A fuel) | 4 => Parser_Multiplication fuel (A fuel)
  | _ => Parser_PrefixUnaryExpression fuel (A fuel)
  end%nat.

Lemma level_parser_step k fuel : (k < 5)%nat ->
  level_parser k fuel = pbind (level_parser (S k) fuel) (binary_loop fuel (level_ops k) (level_parser (S k) fuel)).
Proof. intros H. do 5 (destruct k as [|k]; [done|]). lia. Qed.

Lemma reads_loop_end ops (operand : nat -> P Arithmetic) e rest l :
  starts_in l rest -> forallb (fun id => match ops id with None => true | _ => false end) l = true ->
  reads (fun n fuel => binary_loop n ops (operand fuel) e) (script_at rest) e (script_at rest).
Proof.
  intros (tk & r & Ht & Hid) Hl. apply reads_round. cbn [binary_loop]. eapply reads_token; [exact Ht|].
  rewrite forallb_forall in Hl. apply list_elem_of_In in Hid. apply Hl in Hid. destruct (ops (t_id tk)); [done|]. apply reads_ret.
Qed.

Lemma reads_loop_round ops (operand : nat -> P Arithmetic) id type tk e rhs r1 r2 r3 v q :
  token id tk r1 r2 -> id <> kToken_Eof -> ops id = Some type -> lexable (script_at r2) ->
  reads (fun _ fuel => operand fuel) (script_at r2) rhs (script_at r3) ->
  reads (fun n fuel => binary_loop n ops (operand fuel) (BinaryArithmetic (ws tk) type e rhs)) (script_at r3) v q ->
  reads (fun n fuel => binary_loop n ops (operand fuel) e) (script_at r1) v q.
Proof.
  intros Ht He Hop Hl Hrhs Hloop. apply reads_round. cbn [binary_loop]. eapply reads_token; [exact (proj1 Ht)|].
  rewrite (proj2 Ht), Hop. eapply reads_bind; [by eapply reads_take|].
  eapply (reads_bind (fun _ fuel => operand fuel)); [exact Hrhs|exact Hloop].
Qed.

(** ** What is shown for each phrase *)

(** The loops go on behind a phrase that may be the left operand of another one. *)
Definition arith_ok (e : Arithmetic) (inp rest : list Z) : Prop :=
  starts_in (first_command ++ first_expr) inp /\
  (starts_in after_command rest -> forall v q,
    reads (fun n fuel => binary_loop n op_pipeline (Parser_Command fuel (A fuel)) e) (script_at rest) v q ->
    reads (fun _ fuel => A fuel) (script_at inp) v q).
Definition command_ok (e : Arithmetic) (inp rest : list Z) : Prop :=
  starts_in first_command inp /\
  (starts_in after_command rest -> reads (fun _ fuel => Parser_Command fuel (A fuel)) (script_at inp) e (script_at rest)).
Definition first_atom_ok (a : Atom) (inp rest : list Z) : Prop :=
  starts_in first_command inp /\
  (lexable (script_at rest) -> reads (fun _ fuel => Parser_CommandPrimaryFragment fuel (A fuel)) (script_at inp) (Some a) (script_at rest)).
Definition atoms_ok (l : list Atom) (inp rest : list Z) : Prop :=
  (lexable (script_at rest) -> lexable (script_at inp)) /\
  (starts_in after_command rest -> forall acc,
    reads (fun n fuel => secondary_loop fuel (A fuel) n acc) (script_at inp) (acc ++ l) (script_at rest)).
Definition atom_ok (a : Atom) (inp rest : list Z) : Prop :=
  lexable (script_at inp) /\
  (lexable (script_at rest) -> reads (fun _ fuel => Parser_CommandSecondaryFragment fuel (A fuel)) (script_at inp) (Some a) (script_at rest)).
Definition paren_ok (tk : Token) (e : Arithmetic) (inp rest : list Z) : Prop :=
  (exists r, token kToken_OpeningParenthesis tk inp r) /\
  (lexable (script_at rest) -> reads (fun _ fuel => Parser_ParenthesizedArithmeticExpression (A fuel)) (script_at inp) e (script_at rest)).
Definition compound_ok (b w : bool) (str : list Segment) (inp rest : list Z) : Prop :=
  (exists tk r, token (quote_token b) tk inp r /\ ws tk = w) /\
  (lexable (script_at rest) -> reads (fun _ fuel => Parser_CompoundString fuel (A fuel) b) (script_at inp) str (script_at rest)).
Definition segments_ok (b : bool) (str : list Segment) (inp rest : list Z) : Prop :=
  forall acc, reads (fun n fuel => compound_loop (A fuel) n (quote_token b) acc) (string_mode b, inp) (acc ++ str) (string_mode b, quotes b ++ rest).
Definition expr_ok (k : nat) (e : Arithmetic) (inp rest : list Z) : Prop :=
  starts_in first_expr inp /\
  (starts_in (after_expr k) rest ->
    if (k <? 5)%nat then
      forall v q, reads (fun n fuel => binary_loop n (level_ops k) (level_parser (S k) fuel) e) (script_at rest) v q ->
        reads (fun _ fuel => level_parser k fuel) (script_at inp) v q
    else reads (fun n fuel => prefix_loop fuel (A fuel) n) (script_at inp) e (script_at rest)).
Definition block_ok (es : list Expression) (inp rest : list Z) : Prop :=
  starts_in [kToken_OpeningBrace] inp /\
  (lexable (script_at rest) -> reads (fun _ fuel => Parser_Block fuel (A fuel)) (script_at inp) es (script_at rest)).

(** Parser_ExpressionList, when it has no error. *)
Definition expr_list (isNested : bool) (n fuel : nat) (acc : list Expression) : P (list Expression) := fun self =>
  '(err, exprs, self) ← Parser_ExpressionList fuel (A fuel) n acc (if isNested then kToken_ClosingBrace else kToken_Eof) isNested self;
  Some (if err =? 0 then inr exprs else inl err, self).
Definition expressions_ok (isNested : bool) (es : list Expression) (inp rest : list Z) : Prop :=
  (lexable (script_at rest) -> lexable (script_at inp)) /\
  (starts (eq (if isNested then kToken_ClosingBrace else kToken_Eof)) rest -> forall acc,
    reads (fun n fuel => expr_list isNested n fuel acc) (script_at inp) (acc ++ es) (script_at rest)).
Definition expression_ok (f : bool -> Expression) (inp rest : list Z) : Prop :=
  starts_in first_expression inp /\
  (starts_in terminators rest -> reads (fun _ fuel => expression_body (A fuel)) (script_at inp) f (script_at rest)).

(** ** Commands *)

Lemma first_word_ok id type tk inp rest :
  (id, type) ∈ [(kToken_BacktickString, kAtom_BacktickString); (kToken_Identifier, kAtom_Identifier)] ->
  token id tk inp rest -> first_atom_ok (StringAtom type (t_string tk) (ws tk)) inp rest.
Proof.
  intros Hin Ht. elem_cases Hin; (split; [eapply token_in; [exact Ht|by repeat constructor]|]); intros Hl; at_token Ht;
    (eapply reads_bind; [apply reads_complete; by eapply tok_complete, Ht|]);
    (eapply reads_bind; [by eapply reads_take|]); apply reads_ret.
Qed.

Lemma first_slash_ok tk inp rest : token kToken_Slash tk inp rest -> first_atom_ok (StringAtom kAtom_Identifier [47] (ws tk)) inp rest.
Proof.
  intros Ht. split; [eapply token_in; [exact Ht|by repeat constructor]|]. intros Hl. at_token Ht.
  eapply reads_bind; [by eapply reads_take|]. apply reads_ret.
Qed.

Lemma first_compound_ok w str inp rest : compound_ok true w str inp rest -> first_atom_ok (CompoundAtom kAtom_DoubleBacktickString str w) inp rest.
Proof.
  intros [(tk & r & Ht & <-) H]. split; [eapply token_in; [exact Ht|by repeat constructor]|]. intros Hl. at_token Ht.
  eapply reads_bind; [by apply H|]. apply reads_ret.
Qed.

Lemma token_lexable id tk inp rest : token id tk inp rest -> lexable (script_at inp).
Proof. intros Ht. by eapply starts_lexable, token_starts. Qed.

Lemma atom_symbol_ok id text tk inp rest :
  (id, text) ∈ command_symbols -> token id tk inp rest -> atom_ok (StringAtom kAtom_Identifier text (ws tk)) inp rest.
Proof.
  intros Hin Ht. split; [by eapply token_lexable|]. intros Hl.
  elem_cases Hin; at_token Ht; (eapply reads_bind; [by eapply reads_take|]); apply reads_ret.
Qed.

Lemma atom_word_ok id tk inp rest :
  id ∈ command_words -> token id tk inp rest -> atom_ok (StringAtom kAtom_Identifier (t_string tk) (ws tk)) inp rest.
Proof.
  intros Hin Ht. split; [by eapply token_lexable|]. intros Hl.
  elem_cases Hin; at_token Ht; (eapply reads_bind; [apply reads_complete; by eapply tok_complete, Ht|]);
    (eapply reads_bind; [by eapply reads_take|]); apply reads_ret.
Qed.

Lemma atom_string_ok id type tk inp rest :
  (id, type) ∈ [(kToken_BacktickString, kAtom_BacktickString); (kToken_SingleQuoteString, kAtom_SingleQuoteString)] ->
  token id tk inp rest -> atom_ok (StringAtom type (t_string tk) (ws tk)) inp rest.
Proof.
  intros Hin Ht. split; [by eapply token_lexable|]. intros Hl.
  elem_cases Hin; at_token Ht; (eapply reads_bind; [apply reads_complete; by eapply tok_complete, Ht|]);
    (eapply reads_bind; [by eapply reads_take|]); apply reads_ret.
Qed.

Lemma atom_integer_ok tk inp rest : token kToken_Integer tk inp rest -> atom_ok (IntegerAtom (t_i32 tk) (ws tk)) inp rest.
Proof.
  intros Ht. split; [by eapply token_lexable|]. intros Hl. at_token Ht. eapply reads_bind; [by eapply reads_take|]. apply reads_ret.
Qed.

Lemma atom_compound_ok (b : bool) w str inp rest :
  compound_ok b w str inp rest -> atom_ok (CompoundAtom (if b then kAtom_DoubleBacktickString else kAtom_DoubleQuoteString) str w) inp rest.
Proof.
  intros [(tk & r & Ht & <-) H]. split; [by eapply token_lexable|]. intros Hl.
  destruct b; at_token Ht; (eapply reads_bind; [by apply H|]); apply reads_ret.
Qed.

Lemma atom_variable_ok tk v inp rest :
  token kToken_VariableName tk inp rest -> var_ref (t_string tk) v -> atom_ok (VarRefAtom v (ws tk)) inp rest.
Proof.
  intros Ht Hv. split; [by eapply token_lexable|]. intros Hl. at_token Ht.
  eapply reads_bind; [by apply (reads_var_reference (script_at inp) tk v rest (proj1 Ht) (proj2 Ht))|]. apply reads_ret.
Qed.

Lemma atom_arith_ok tk e inp rest : paren_ok tk e inp rest -> atom_ok (ArithmeticAtom e (ws tk)) inp rest.
Proof.
  intros [[r Ht] H]. split; [by eapply token_lexable|]. intros Hl. at_token Ht. eapply reads_bind; [by apply H|]. apply reads_ret.
Qed.

Lemma atoms_nil_ok inp : atoms_ok [] inp inp.
Proof.
  split; [done|]. intros (tk & r & Ht & Hid) acc. rewrite app_nil_r. apply reads_round. cbn [secondary_loop].
  assert (reads (fun _ fuel => Parser_CommandSecondaryFragment fuel (A fuel)) (script_at inp) None (script_at inp)) as H.
  { elem_cases Hid; (eapply reads_token; [exact Ht|]; rewrite Hid; decide_ids; apply reads_ret). }
  eapply reads_bind; [exact H|apply reads_ret].
Qed.

Lemma atoms_cons_ok a l inp r1 rest : atom_ok a inp r1 -> atoms_ok l r1 rest -> atoms_ok (a :: l) inp rest.
Proof.
  intros [Hl1 Ha] [Hl2 Hr]. split; [done|]. intros Hs acc. apply reads_round. cbn [secondary_loop].
  eapply (reads_bind (fun _ fuel => Parser_CommandSecondaryFragment fuel (A fuel))).
  - apply Ha, Hl2. by eapply starts_lexable.
  - cbn. replace (acc ++ a :: l) with ((acc ++ [a]) ++ l) by by rewrite <- app_assoc. by apply Hr.
Qed.

Lemma command_atoms_ok a l inp r1 rest : first_atom_ok a inp r1 -> atoms_ok l r1 rest -> command_ok (CommandArithmetic (a :: l)) inp rest.
Proof.
  intros [Hs Ha] [Hl Hr]. split; [done|]. intros Hs2. eapply reads_bind.
  - apply Ha, Hl. by eapply starts_lexable.
  - cbn. eapply reads_bind; [|apply reads_ret]. apply (reads_diag (fun n fuel => secondary_loop fuel (A fuel) n [a])). by apply (Hr Hs2 [a]).
Qed.

(** ** Expressions in parentheses and strings *)

Lemma arith_done e inp rest : arith_ok e inp rest -> starts_in closers rest -> reads (fun _ fuel => A fuel) (script_at inp) e (script_at rest).
Proof. intros [_ H] Hs. apply H; [by eapply starts_in_weaken; [|exact Hs]|]. by eapply reads_loop_end; [exact Hs|]. Qed.

Lemma arith_lexable e inp rest : arith_ok e inp rest -> lexable (script_at inp).
Proof. intros [H _]. by eapply starts_lexable. Qed.

Lemma paren_intro tk tk2 e inp r1 r2 rest :
  token kToken_OpeningParenthesis tk inp r1 -> arith_ok e r1 r2 -> token kToken_ClosingParenthesis tk2 r2 rest -> paren_ok tk e inp rest.
Proof.
  intros Ht He Ht2. split; [by exists r1|]. intros Hl.
  eapply reads_bind; [eapply reads_match; [exact Ht|done|by eapply arith_lexable]|].
  eapply (reads_bind (fun _ fuel => A fuel)); [eapply arith_done; [exact He|eapply token_in; [exact Ht2|by repeat constructor]]|].
  eapply reads_bind; [by eapply reads_match|]. apply reads_ret.
Qed.

Lemma reads_mode {B} (k : LexerMode -> nat -> nat -> P B) p tk rest x q :
  has_token p tk rest -> reads (k p.1) p x q -> reads (fun n fuel => with_mode (fun m => k m n fuel)) p x q.
Proof.
  intros Ht Hk self Hp. destruct (at_place_token p self tk rest Hp Ht) as (_ & E & _).
  destruct (Hk self Hp) as (s1 & N & H1 & Hq). exists s1, N. split; [|done]. intros n fuel Hn Hf. unfold with_mode. rewrite E. by apply H1.
Qed.

Lemma stok_has b tk inp rest : stok b tk inp rest -> has_token (string_mode b, inp) tk rest.
Proof. by destruct b. Qed.

Lemma segments_end_ok b rest : segments_ok b [] (quotes b ++ rest) rest.
Proof.
  intros acc. rewrite app_nil_r. apply reads_round. cbn [compound_loop]. eapply reads_token; [apply stok_has, stok_quote|].
  destruct b; decide_ids; apply reads_ret.
Qed.

Lemma segments_string_ok b tk str inp r1 rest :
  stok b tk inp r1 -> t_id tk = kToken_StringSegment -> segments_ok b str r1 rest ->
  segments_ok b (LiteralSegment kSegment_String (kValue_String (t_string tk)) :: str) inp rest.
Proof.
  intros Ht Hid Hs acc. rewrite cons_middle, app_assoc. apply reads_round. cbn [compound_loop].
  eapply reads_token; [by apply stok_has|]. rewrite Hid. decide_ids.
  eapply reads_bind; [eapply reads_consume; [by apply stok_has|by rewrite Hid|apply string_lexable]|]. apply Hs.
Qed.

Lemma segments_escape_ok b tk str inp r1 rest :
  stok b tk inp r1 -> t_id tk = kToken_EscapeSequence -> segments_ok b str r1 rest ->
  segments_ok b (LiteralSegment kSegment_EscapeSequence (kValue_String (t_string tk)) :: str) inp rest.
Proof.
  intros Ht Hid Hs acc. rewrite cons_middle, app_assoc. apply reads_round. cbn [compound_loop].
  eapply reads_token; [by apply stok_has|]. rewrite Hid. decide_ids.
  eapply reads_bind; [apply reads_complete; by eapply stok_complete|].
  eapply reads_bind; [eapply reads_consume; [by apply stok_has|by rewrite Hid|apply string_lexable]|]. apply Hs.
Qed.

Lemma segments_variable_ok b tk v str inp r1 rest :
  stok b tk inp r1 -> t_id tk = kToken_VariableName -> var_ref (t_string tk) v -> segments_ok b str r1 rest ->
  segments_ok b (VarRefSegment v :: str) inp rest.
Proof.
  intros Ht Hid Hv Hs acc. rewrite cons_middle, app_assoc. apply reads_round. cbn [compound_loop].
  eapply reads_token; [by apply stok_has|]. rewrite Hid. decide_ids.
  eapply reads_bind; [eapply reads_var_reference; [by apply stok_has|done..|apply string_lexable]|]. apply Hs.
Qed.

Lemma segments_arith_ok b tk tk2 e str inp r1 r2 r3 rest :
  stok b tk inp r1 -> t_id tk = kToken_EscapedExpression -> arith_ok e r1 r2 -> token kToken_ClosingParenthesis tk2 r2 r3 ->
  segments_ok b str r3 rest -> segments_ok b (ArithmeticSegment e :: str) inp rest.
Proof.
  intros Ht Hid He Ht2 Hs acc. rewrite cons_middle, app_assoc. apply reads_round. cbn [compound_loop].
  eapply reads_token; [by apply stok_has|]. rewrite Hid. decide_ids.
  assert (reads (fun _ fuel => Parser_EscapedArithmeticExpression (A fuel)) (string_mode b, inp) e (string_mode b, r3)) as H.
  { eapply reads_mode; [by apply stok_has|]. apply reads_on_error. rewrite <- Hid.
    eapply reads_bind; [eapply reads_switch; [by apply stok_has|by rewrite Hid|by eapply arith_lexable]|].
    eapply (reads_bind (fun _ fuel => A fuel)); [eapply arith_done; [exact He|eapply token_in; [exact Ht2|by repeat constructor]]|].
    rewrite <- (proj2 Ht2).
    eapply reads_bind; [eapply (reads_switch (script_at r2)); [exact (proj1 Ht2)|by rewrite (proj2 Ht2)|apply string_lexable]|]. apply reads_ret. }
  eapply (reads_bind (fun _ fuel => Parser_EscapedArithmeticExpression (A fuel))); [exact H|]. apply Hs.
Qed.

(** The closing mark is read in the mode of the string, what follows in that of the script. *)
Lemma reads_close {B} (x : B) b rest : lexable (script_at rest) ->
  reads (fun _ _ => set_mode kLexerMode_Default ;;; consume ;;; ret x) (string_mode b, quotes b ++ rest) x (script_at rest).
Proof.
  intros Hl self Hp. destruct (at_place_token _ self _ _ Hp (stok_has _ _ _ _ (stok_quote b rest))) as (Ht & Hm & Hs & Hi).
  assert (0 < sourceIndex self) as Hi' by (apply Hi; by destruct b).
  destruct (consume_at_place (Lexer_SetMode kLexerMode_Default self) _ rest eq_refl Hs Hi' Hl) as (s1 & E & Hq). exists s1, 0%nat.
  split; [|done]. intros n fuel _ _. unfold pbind, set_mode, consume. cbn [mbind option_bind]. by rewrite E.
Qed.

Lemma compound_intro b tk str inp r1 rest :
  token (quote_token b) tk inp r1 -> segments_ok b str r1 rest -> compound_ok b (ws tk) str inp rest.
Proof.
  intros Ht Hs. split; [by exists tk, r1|]. intros Hl.
  eapply reads_bind; [|by apply reads_close]. apply reads_on_error. eapply reads_bind.
  - replace (if b then kToken_DoubleBacktick else kToken_DoubleQuote) with (t_id tk) by (by rewrite (proj2 Ht); destruct b).
    eapply reads_switch; [exact (proj1 Ht)|rewrite (proj2 Ht); by destruct b|].
    by destruct b.
  - apply (reads_diag (fun n fuel => compound_loop (A fuel) n (quote_token b) [])), (Hs []).
Qed.

(** ** Operators *)

Lemma five_cases (Q : nat -> Prop) : Q 0%nat -> Q 1%nat -> Q 2%nat -> Q 3%nat -> Q 4%nat -> forall k, (k < 5)%nat -> Q k.
Proof. intros H0 H1 H2 H3 H4 k Hk. do 5 (destruct k as [|k]; [done|]). lia. Qed.

Lemma after_expr_up k : (k < 5)%nat ->
  all_in (after_expr k) (after_expr (S k)) = true /\
  forallb (fun id => match level_ops (S k) id with None => true | _ => false end) (after_expr k) = true.
Proof. revert k. by apply five_cases. Qed.

Lemma expr_done k e inp rest : (k < 5)%nat ->
  expr_ok (S k) e inp rest -> starts_in (after_expr k) rest -> reads (fun _ fuel => level_parser (S k) fuel) (script_at inp) e (script_at rest).
Proof.
  intros Hk [_ H] Hs. destruct (after_expr_up k Hk) as [Ha Hn]. specialize (H (starts_in_weaken _ _ _ Ha Hs)).
  destruct (Nat.ltb_spec (S k) 5).
  - apply H. by eapply reads_loop_end.
  - assert (k = 4%nat) as -> by lia. by apply (reads_diag (fun n fuel => prefix_loop fuel (A fuel) n)).
Qed.

Lemma expr_up_ok k e inp rest : (k < 5)%nat -> expr_ok (S k) e inp rest -> expr_ok k e inp rest.
Proof.
  intros Hk H. split; [apply H|]. intros Hs. rewrite (proj2 (Nat.ltb_lt k 5) Hk). intros v q Hloop.
  pose proof (expr_done k e inp rest Hk H Hs) as Hd.
  assert (reads (fun _ fuel => pbind (level_parser (S k) fuel) (binary_loop fuel (level_ops k) (level_parser (S k) fuel))) (script_at inp) v q) as Hb.
  { eapply reads_bind; [exact Hd|]. by apply (reads_diag (fun n fuel => binary_loop n (level_ops k) (level_parser (S k) fuel) e)). }
  intros self Hp. destruct (Hb self Hp) as (s1 & N & H1 & Hq). exists s1, N. split; [|done]. intros n fuel. rewrite level_parser_step by done. apply H1.
Qed.

Lemma operators_level k id type : (k, id, type) ∈ operators ->
  (k < 5)%nat /\ level_ops k id = Some type /\ id ∈ after_expr k /\ id <> kToken_Eof.
Proof. intros H. elem_cases H; (split; [lia|]); (split; [done|]); (split; [|done]); in_list. Qed.

Lemma expr_binary_ok k id type tk l r inp r1 r2 rest :
  (k, id, type) ∈ operators -> expr_ok k l inp r1 -> token id tk r1 r2 -> expr_ok (S k) r r2 rest ->
  expr_ok k (BinaryArithmetic (ws tk) type l r) inp rest.
Proof.
  intros (Hk & Hop & Hin & He)%operators_level [Hs Hl] Ht Hr. split; [done|]. intros Ha.
  specialize (Hl (token_in _ _ _ _ _ Ht Hin)). rewrite (proj2 (Nat.ltb_lt k 5) Hk) in Hl |- *. intros v q Hloop.
  apply Hl. eapply reads_loop_round; [exact Ht|done|exact Hop|by eapply starts_lexable, Hr|by eapply expr_done|exact Hloop].
Qed.

(** ** Operands *)

Lemma expr_operand_ok e inp rest :
  starts_in first_expr inp -> (starts_in (after_expr 5) rest -> reads (fun n fuel => prefix_loop fuel (A fuel) n) (script_at inp) e (script_at rest)) ->
  expr_ok 5 e inp rest.
Proof. done. Qed.

Lemma expr_prefix_ok id type tk e inp r1 rest :
  (id, type) ∈ prefix_operators -> token id tk inp r1 -> expr_ok 5 e r1 rest -> expr_ok 5 (UnaryArithmetic (ws tk) type e) inp rest.
Proof.
  intros Hin Ht [Hs He]. assert (id ∈ first_expr /\ op_prefix id = Some type /\ id <> kToken_Eof) as (Hf & Hop & Hne).
  { elem_cases Hin; (split; [in_list|done]). }
  apply expr_operand_ok; [by eapply token_in|]. intros Ha. apply reads_round. cbn [prefix_loop].
  eapply reads_token; [exact (proj1 Ht)|]. rewrite (proj2 Ht), Hop.
  eapply reads_bind; [eapply reads_take; [exact Ht|done|by eapply starts_lexable]|].
  eapply (reads_bind (fun n fuel => prefix_loop fuel (A fuel) n)); [by apply He|]. apply reads_ret.
Qed.

(** An operand that is read by Parser_PrimaryExpression. *)
Lemma expr_primary_ok e inp rest id tk r :
  token id tk inp r -> id ∈ first_expr -> op_prefix id = None ->
  (lexable (script_at rest) -> starts_in (after_expr 5) rest -> reads (fun _ fuel => Parser_PrimaryExpression fuel (A fuel)) (script_at inp) e (script_at rest)) ->
  expr_ok 5 e inp rest.
Proof.
  intros Ht Hf Hop H. apply expr_operand_ok; [by eapply token_in|]. intros Ha. apply reads_round. cbn [prefix_loop].
  eapply reads_token; [exact (proj1 Ht)|]. rewrite (proj2 Ht), Hop. apply H; [|done]. by eapply starts_lexable.
Qed.

Lemma expr_literal_ok id v tk inp rest :
  (id, v) ∈ [(kToken_False, kValue_Bool false); (kToken_True, kValue_Bool true)] -> token id tk inp rest ->
  expr_ok 5 (LiteralArithmetic (ws tk) v) inp rest.
Proof.
  intros Hin Ht. elem_cases Hin; (eapply expr_primary_ok; [exact Ht|in_list|done|]); intros Hl _; at_token Ht; at_token Ht;
    (eapply reads_bind; [by eapply reads_take|]); apply reads_ret.
Qed.

Lemma expr_integer_ok tk inp rest : token kToken_Integer tk inp rest -> expr_ok 5 (LiteralArithmetic (ws tk) (kValue_Integer (t_i32 tk))) inp rest.
Proof.
  intros Ht. eapply expr_primary_ok; [exact Ht|in_list|done|]. intros Hl _. at_token Ht. at_token Ht.
  eapply reads_bind; [by eapply reads_take|]. apply reads_ret.
Qed.

Lemma expr_string_ok tk inp rest :
  token kToken_SingleQuoteString tk inp rest -> expr_ok 5 (LiteralArithmetic (ws tk) (kValue_String (t_string tk))) inp rest.
Proof.
  intros Ht. eapply expr_primary_ok; [exact Ht|in_list|done|]. intros Hl _. at_token Ht. at_token Ht.
  eapply reads_bind; [by eapply reads_take|]. apply reads_ret.
Qed.

Lemma expr_compound_ok w str inp rest : compound_ok false w str inp rest -> expr_ok 5 (CompoundStringArithmetic w str) inp rest.
Proof.
  intros [(tk & r & Ht & <-) H]. eapply expr_primary_ok; [exact Ht|in_list|done|]. intros Hl _. at_token Ht. at_token Ht.
  eapply reads_bind; [by apply H|]. apply reads_ret.
Qed.

Lemma expr_variable_ok tk v inp rest :
  token kToken_VariableName tk inp rest -> var_ref (t_string tk) v -> expr_ok 5 (VarRefArithmetic (ws tk) v) inp rest.
Proof.
  intros Ht Hv. eapply expr_primary_ok; [exact Ht|in_list|done|]. intros Hl _. at_token Ht.
  eapply reads_bind; [by apply (reads_var_reference (script_at inp) tk v rest (proj1 Ht) (proj2 Ht))|]. apply reads_ret.
Qed.

Lemma expr_paren_ok tk e inp rest : paren_ok tk e inp rest -> expr_ok 5 (UnaryArithmetic (ws tk) kArithmetic_Parenthesized e) inp rest.
Proof.
  intros [[r Ht] H]. eapply expr_primary_ok; [exact Ht|in_list|done|]. intros Hl _. at_token Ht.
  eapply reads_bind; [by apply H|]. apply reads_ret.
Qed.

(** The condition of an if or a while: the keyword, whether there is white space behind it, and the condition. *)
Lemma block_follows b inp rest : block_ok b inp rest -> starts_in closers inp.
Proof. intros [H _]. by eapply starts_in_weaken; [|exact H]. Qed.

Lemma block_lexable b inp rest : block_ok b inp rest -> lexable (script_at inp).
Proof. intros [H _]. by eapply starts_lexable. Qed.

Lemma reads_ws tk inp rest : tok tk inp rest -> reads (fun _ _ => with_token (fun tk => ret (ws tk))) (script_at inp) (ws tk) (script_at inp).
Proof. intros Ht. eapply reads_token; [exact Ht|]. apply reads_ret. Qed.

Lemma reads_condition id (G : bool -> Arithmetic -> nat -> nat -> P Arithmetic) tk tk1 c inp r1 r1' r2 v q :
  token id tk inp r1 -> id <> kToken_Eof -> tok tk1 r1 r1' -> arith_ok c r1 r2 -> starts_in closers r2 ->
  reads (G (ws tk1) c) (script_at r2) v q ->
  reads (fun n fuel => Parser_Match id ;;; w <- with_token (fun tk => ret (ws tk)) ;; cond <- A fuel ;; G w cond n fuel) (script_at inp) v q.
Proof.
  intros Ht He Ht1 Hc Hs HG.
  eapply reads_bind; [eapply reads_match; [exact Ht|done|by eapply arith_lexable]|].
  eapply reads_bind; [by eapply reads_ws|].
  eapply (reads_bind (fun _ fuel => A fuel)); [by eapply arith_done|exact HG].
Qed.

Lemma expr_if_ok tk tk1 c b1 inp r1 r1' r2 rest :
  token kToken_If tk inp r1 -> tok tk1 r1 r1' -> arith_ok c r1 r2 -> block_ok b1 r2 rest -> expr_ok 5 (IfArithmetic (ws tk1) c b1 None) inp rest.
Proof.
  intros Ht Ht1 Hc Hb. eapply expr_primary_ok; [exact Ht|in_list|done|]. intros Hl Ha. at_token Ht.
  eapply (reads_condition kToken_If (fun w c n fuel => _)); [exact Ht|done|exact Ht1|exact Hc|by eapply block_follows|].
  eapply (reads_bind (fun _ fuel => Parser_Block fuel (A fuel))); [by apply Hb|].
  eapply reads_bind; [|apply reads_ret]. destruct Ha as (tk2 & r & Ht2 & Hid). eapply reads_token; [exact Ht2|].
  assert (t_id tk2 =? kToken_Else = false) as -> by 
    (apply Z.eqb_neq; intros E; rewrite E in Hid; exact (bool_decide_eq_false_1 (kToken_Else ∈ after_expr 5) eq_refl Hid)).
  apply reads_ret.
Qed.

Lemma expr_if_else_ok tk tk1 tk2 c b1 b2 inp r1 r1' r2 r3 r4 rest :
  token kToken_If tk inp r1 -> tok tk1 r1 r1' -> arith_ok c r1 r2 -> block_ok b1 r2 r3 -> token kToken_Else tk2 r3 r4 -> block_ok b2 r4 rest ->
  expr_ok 5 (IfArithmetic (ws tk1) c b1 (Some b2)) inp rest.
Proof.
  intros Ht Ht1 Hc Hb1 Ht2 Hb2. eapply expr_primary_ok; [exact Ht|in_list|done|]. intros Hl Ha. at_token Ht.
  eapply (reads_condition kToken_If (fun w c n fuel => _)); [exact Ht|done|exact Ht1|exact Hc|by eapply block_follows|].
  eapply (reads_bind (fun _ fuel => Parser_Block fuel (A fuel))); [by apply Hb1, (token_lexable _ _ _ _ Ht2)|].
  eapply reads_bind; [|apply reads_ret]. at_token Ht2.
  eapply reads_bind; [eapply reads_take; [exact Ht2|done|by eapply block_lexable]|].
  apply (reads_map Some (fun _ fuel => Parser_Block fuel (A fuel))). by apply Hb2.
Qed.

Lemma expr_while_ok tk tk1 c b inp r1 r1' r2 rest :
  token kToken_While tk inp r1 -> tok tk1 r1 r1' -> arith_ok c r1 r2 -> block_ok b r2 rest -> expr_ok 5 (WhileArithmetic (ws tk1) c b) inp rest.
Proof.
  intros Ht Ht1 Hc Hb. eapply expr_primary_ok; [exact Ht|in_list|done|]. intros Hl Ha. at_token Ht.
  eapply (reads_condition kToken_While (fun w c n fuel => _)); [exact Ht|done|exact Ht1|exact Hc|by eapply block_follows|].
  eapply (reads_bind (fun _ fuel => Parser_Block fuel (A fuel))); [by apply Hb|]. apply reads_ret.
Qed.

(** ** Arithmetic expressions *)

Lemma arith_intro (c : bool) e inp rest v q :
  starts (fun id => is_one_of id first_command = c) inp ->
  reads (fun _ fuel => if c then Parser_Command fuel (A fuel) else Parser_Disjunction fuel (A fuel)) (script_at inp) e (script_at rest) ->
  reads (fun n fuel => binary_loop n op_pipeline (Parser_Command fuel (A fuel)) e) (script_at rest) v q ->
  reads (fun _ fuel => A fuel) (script_at inp) v q.
Proof.
  intros (tk & r & Ht & Hc) He Hloop. apply (reads_fuel (fun _ fuel => A fuel)). cbn [Parser_ArithmeticExpression].
  eapply reads_bind; [|by apply (reads_diag (fun n fuel => binary_loop n op_pipeline (Parser_Command fuel (A fuel)) e))].
  eapply reads_token; [exact Ht|]. cbn beta. fold first_command. rewrite Hc. exact He.
Qed.

Lemma first_expr_class inp : starts_in first_expr inp -> starts (fun id => is_one_of id first_command = false) inp.
Proof. apply starts_weaken. intros id Hid. by elem_cases Hid. Qed.

Lemma first_command_class inp : starts_in first_command inp -> starts (fun id => is_one_of id first_command = true) inp.
Proof. apply starts_weaken. intros id Hid. by apply bool_decide_eq_true_2. Qed.

Lemma arith_of_expr e inp rest v q :
  expr_ok 0 e inp rest -> starts_in (kToken_Assignment :: after_command) rest ->
  reads (fun n fuel => binary_loop n op_pipeline (Parser_Command fuel (A fuel)) e) (script_at rest) v q ->
  reads (fun _ fuel => A fuel) (script_at inp) v q.
Proof.
  intros [Hf He] Hs. apply (arith_intro false); [by apply first_expr_class|]. apply He; [by eapply starts_in_weaken; [|exact Hs]|].
  by eapply reads_loop_end.
Qed.

Lemma arith_expr_ok e inp rest : expr_ok 0 e inp rest -> arith_ok e inp rest.
Proof.
  intros H. split; [by eapply starts_in_weaken; [|apply H]|]. intros Hs v q. apply arith_of_expr; [done|]. by eapply starts_in_weaken; [|exact Hs].
Qed.

Lemma arith_command_ok e inp rest : command_ok e inp rest -> arith_ok e inp rest.
Proof.
  intros [Hf H]. split; [by eapply starts_in_weaken; [|exact Hf]|]. intros Hs v q.
  apply (arith_intro true); [by apply first_command_class|]. by apply H.
Qed.

Lemma arith_pipeline_ok tk l r inp r1 r2 rest :
  arith_ok l inp r1 -> token kToken_Bar tk r1 r2 -> command_ok r r2 rest -> arith_ok (BinaryArithmetic (ws tk) kArithmetic_Pipeline l r) inp rest.
Proof.
  intros [Hf Hl] Ht [Hr H]. split; [done|]. intros Hs v q Hloop. apply Hl; [by eapply token_in; [exact Ht|in_list]|].
  eapply reads_loop_round; [exact Ht|done|done|by eapply starts_lexable|by apply H|exact Hloop].
Qed.

(** ** Expressions and blocks *)

Lemma newlines_read inp rest : newlines inp rest -> lexable (script_at inp) /\ reads (fun n _ => skip_newlines n) (script_at inp) tt (script_at rest).
Proof.
  induction 1 as [rest Hs|tk inp r1 rest Ht Hn [Hl IH]].
  - split; [by eapply starts_lexable|]. destruct Hs as (tk & r & Ht & Hid). apply reads_round. cbn [skip_newlines].
    eapply reads_token; [exact Ht|]. rewrite (proj2 (Z.eqb_neq _ _) Hid). apply reads_ret.
  - split; [by eapply token_lexable|]. apply reads_round. cbn [skip_newlines]. at_token Ht.
    eapply reads_bind; [by eapply reads_take|exact IH].
Qed.

Lemma terminator_read isNested isAsync inp rest : terminator isNested isAsync inp rest ->
  starts_in terminators inp /\ reads (fun _ fuel => Parser_Terminator fuel isNested) (script_at inp) isAsync (script_at rest).
Proof.
  intros [id tk inp' r1 rest' Hid Ht Hn|inp' -> (tk & r & Ht & Hid)|inp' -> (tk & r & Ht & Hid)].
  - destruct (newlines_read _ _ Hn) as [Hl Hr].
    elem_cases Hid; (split; [eapply token_in; [exact Ht|in_list]|]); at_token Ht; (eapply reads_bind; [by eapply reads_take|]);
      (eapply reads_bind; [exact (reads_diag _ _ _ _ Hr)|]); apply reads_ret.
  - assert (token kToken_ClosingBrace tk inp' r) as Ht' by done. split; [eapply token_in; [exact Ht'|in_list]|]. at_token Ht'. apply reads_ret.
  - assert (token kToken_Eof tk inp' r) as Ht' by done. split; [eapply token_in; [exact Ht'|in_list]|]. at_token Ht'. apply reads_ret.
Qed.

Lemma terminator_lexable isNested isAsync inp rest : terminator isNested isAsync inp rest -> lexable (script_at rest).
Proof.
  intros [id tk inp' r1 rest' _ _ Hn|inp' _ H|inp' _ H]; [|by eapply starts_lexable..].
  induction Hn as [rest2 H|]; [by eapply starts_lexable|done].
Qed.

Lemma expressions_nil_ok isNested inp : expressions_ok isNested [] inp inp.
Proof.
  split; [done|]. intros (tk & r & Ht & Hid) acc. rewrite app_nil_r. apply reads_round.
  intros self Hp. destruct (at_place_token _ self tk r Hp Ht) as [E _]. exists self, 0%nat. split; [|done]. intros n fuel _ _.
  unfold expr_list. cbn [Parser_ExpressionList]. unfold peek. by rewrite E, <- Hid, Z.eqb_refl.
Qed.

Lemma expressions_cons_ok isNested f isAsync es inp r1 r2 rest :
  expression_ok f inp r1 -> terminator isNested isAsync r1 r2 -> expressions_ok isNested es r2 rest ->
  expressions_ok isNested (f isAsync :: es) inp rest.
Proof.
  intros [Hf He] Ht [Hl Hes]. split; [intros _; by eapply starts_lexable|]. intros Hs acc. rewrite cons_middle, app_assoc. apply reads_round.
  destruct (terminator_read _ _ _ _ Ht) as [Ht1 Ht2].
  assert (reads (fun _ fuel => Parser_Expression fuel (A fuel) isNested) (script_at inp) (f isAsync) (script_at r2)) as HE.
  { eapply reads_bind; [by apply He|]. eapply reads_bind; [exact Ht2|]. apply reads_ret. }
  pose proof (reads_bind _ (fun e n fuel => expr_list isNested n fuel (acc ++ [e])) _ _ _ _ _ HE (Hes Hs (acc ++ [f isAsync]))) as H.
  intros self Hp. destruct Hf as (tk & r & Htk & Hid). destruct (at_place_token _ self tk r Hp Htk) as [E _].
  destruct (H self Hp) as (s1 & N & H1 & Hq). exists s1, N. split; [|done]. intros n fuel Hn Hfu. specialize (H1 n fuel Hn Hfu).
  unfold expr_list. cbn [Parser_ExpressionList]. unfold peek. rewrite E.
  assert ((t_id tk =? if isNested then kToken_ClosingBrace else kToken_Eof) = false) as -> by by elem_cases Hid; rewrite Hid; destruct isNested.
  unfold pbind in H1. destruct (Parser_Expression _ _ _ _) as [[[err|e] self']|]; [done|exact H1|done].
Qed.

Lemma block_braces_ok tk tk2 es inp r1 r2 rest :
  token kToken_OpeningBrace tk inp r1 -> expressions_ok true es r1 r2 -> token kToken_ClosingBrace tk2 r2 rest -> block_ok es inp rest.
Proof.
  intros Ht [Hl He] Ht2. split; [eapply token_in; [exact Ht|in_list]|]. intros Hl2.
  eapply reads_bind; [eapply reads_match; [exact Ht|done|by eapply Hl, token_lexable]|].
  eapply (reads_bind (fun _ fuel => expr_list true fuel fuel [])).
  - apply (reads_diag (fun n fuel => expr_list true n fuel [])). apply (He (token_starts _ _ _ _ Ht2) []).
  - eapply reads_bind; [by eapply reads_match|]. apply reads_ret.
Qed.

(** The default case of the switch in Parser_Expression. *)
Lemma expression_default f inp rest :
  starts_in (first_command ++ first_expr) inp ->
  reads (fun _ fuel => arithExpr <- A fuel ;; with_token (fun tk =>
    if t_id tk =? kToken_Assignment then consume ;;; rvalue <- A fuel ;; ret (fun isAsync => AssignmentExpression isAsync arithExpr rvalue)
    else ret (fun isAsync => ArithmeticExpression isAsync arithExpr))) (script_at inp) f (script_at rest) ->
  reads (fun _ fuel => expression_body (A fuel)) (script_at inp) f (script_at rest).
Proof.
  intros (tk & r & Ht & Hid) H. eapply reads_token; [exact Ht|]. elem_cases Hid; rewrite Hid; decide_ids; exact H.
Qed.

Lemma terminators_close inp : starts_in terminators inp -> starts_in closers inp.
Proof. by apply starts_in_weaken. Qed.

Lemma exp_null_ok inp :
  starts (fun id => id ∈ [kToken_Newline; kToken_Semicolon; kToken_Ampersand]) inp -> expression_ok NullExpression inp inp.
Proof.
  intros (tk & r & Ht & Hid). split; [exists tk, r; split; [done|]; elem_cases Hid; rewrite Hid; in_list|].
  intros _. eapply reads_token; [exact Ht|]. elem_cases Hid; rewrite Hid; decide_ids; apply reads_ret.
Qed.

Lemma exp_arith_ok e inp rest : arith_ok e inp rest -> expression_ok (fun isAsync => ArithmeticExpression isAsync e) inp rest.
Proof.
  intros H. split; [by eapply starts_in_weaken; [|apply H]|]. intros Hs. apply expression_default; [apply H|].
  eapply (reads_bind (fun _ fuel => A fuel)); [eapply arith_done; [exact H|by apply terminators_close]|].
  destruct Hs as (tk & r & Ht & Hid). eapply reads_token; [exact Ht|]. elem_cases Hid; rewrite Hid; decide_ids; apply reads_ret.
Qed.

Lemma exp_assignment_ok tk tk2 v e inp r1 r2 rest :
  token kToken_VariableName tk inp r1 -> var_ref (t_string tk) v -> token kToken_Assignment tk2 r1 r2 -> arith_ok e r2 rest ->
  expression_ok (fun isAsync => AssignmentExpression isAsync (VarRefArithmetic (ws tk) v) e) inp rest.
Proof.
  intros Ht Hv Ht2 He. split; [eapply token_in; [exact Ht|in_list]|]. intros Hs. apply expression_default; [eapply token_in; [exact Ht|in_list]|].
  assert (starts_in [kToken_Assignment] r1) as Ha by (eapply token_in; [exact Ht2|in_list]).
  eapply (reads_bind (fun _ fuel => A fuel)).
  - eapply arith_of_expr; [|by eapply starts_in_weaken; [|exact Ha]|by eapply reads_loop_end; [exact Ha|]].
    do 5 (apply expr_up_ok; [lia|]). by eapply expr_variable_ok.
  - at_token Ht2. eapply reads_bind; [eapply reads_take; [exact Ht2|done|by eapply arith_lexable]|].
    eapply (reads_bind (fun _ fuel => A fuel)); [eapply arith_done; [exact He|by apply terminators_close]|]. apply reads_ret.
Qed.

Lemma exp_break_ok tk inp rest : token kToken_Break tk inp rest -> expression_ok (fun isAsync => BreakExpression isAsync None) inp rest.
Proof.
  intros Ht. split; [eapply token_in; [exact Ht|in_list]|]. intros Hs. at_token Ht.
  eapply reads_bind; [eapply reads_match; [exact Ht|done|by eapply starts_lexable]|]. eapply reads_bind; [|apply reads_ret].
  destruct Hs as (tk2 & r & Ht2 & Hid). eapply reads_token; [exact Ht2|]. elem_cases Hid; rewrite Hid; decide_ids; apply reads_ret.
Qed.

Lemma exp_break_value_ok tk e inp r1 rest :
  token kToken_Break tk inp r1 -> arith_ok e r1 rest -> expression_ok (fun isAsync => BreakExpression isAsync (Some e)) inp rest.
Proof.
  intros Ht He. split; [eapply token_in; [exact Ht|in_list]|]. intros Hs. at_token Ht.
  eapply reads_bind; [eapply reads_match; [exact Ht|done|by eapply arith_lexable]|]. eapply reads_bind; [|apply reads_ret].
  pose proof (arith_done _ _ _ He (terminators_close _ Hs)) as H. destruct He as [(tk2 & r & Ht2 & Hid) _].
  eapply reads_token; [exact Ht2|]. elem_cases Hid; rewrite Hid; decide_ids; by apply (reads_map Some (fun _ fuel => A fuel)).
Qed.

Lemma exp_continue_ok tk inp rest : token kToken_Continue tk inp rest -> expression_ok ContinueExpression inp rest.
Proof.
  intros Ht. split; [eapply token_in; [exact Ht|in_list]|]. intros Hs. at_token Ht.
  eapply reads_bind; [eapply reads_take; [exact Ht|done|by eapply starts_lexable]|]. apply reads_ret.
Qed.

Lemma visibility_read {B} (G : bool -> nat -> nat -> P B) public inp r1 v q :
  visibility public inp r1 -> starts_in [kToken_Let; kToken_Var] r1 ->
  reads (G (negb (public =? 0))) (script_at r1) v q ->
  reads (fun n fuel => public <- matches kToken_Public ;; (if public : bool then ret tt else matches kToken_Internal ;;; ret tt) ;;; G public n fuel)
    (script_at inp) v q.
Proof.
  intros [inp'|tk inp' rest Ht|tk inp' rest Ht] Hs HG.
  - eapply reads_bind; [apply reads_matches_no; eapply starts_weaken; [|exact Hs]; by intros id Hid; elem_cases Hid|].
    eapply reads_bind; [|exact HG].
    eapply reads_bind; [apply reads_matches_no; eapply starts_weaken; [|exact Hs]; by intros id Hid; elem_cases Hid|apply reads_ret].
  - eapply reads_bind; [apply reads_matches_no; eapply starts_weaken; [|eapply token_starts, Ht]; by intros id <-|].
    eapply reads_bind; [|exact HG]. eapply reads_bind; [eapply reads_matches_yes; [exact Ht|done|by eapply starts_lexable]|apply reads_ret].
  - eapply reads_bind; [eapply reads_matches_yes; [exact Ht|done|by eapply starts_lexable]|]. eapply reads_bind; [apply reads_ret|exact HG].
Qed.

Lemma mutability_read {B} (G : Z -> nat -> nat -> P B) mutable modifiers inp r1 v q :
  mutability mutable inp r1 -> lexable (script_at r1) -> reads (G (Z.lor modifiers mutable)) (script_at r1) v q ->
  reads (fun n fuel => is_let <- matches kToken_Let ;;
      modifiers <- (if is_let : bool then ret modifiers
                    else is_var <- matches kToken_Var ;;
                         if is_var : bool then ret (Z.lor modifiers kVarModifier_Mutable) else throw ESYNTAX) ;;
      G modifiers n fuel) (script_at inp) v q.
Proof.
  intros [tk inp' rest Ht|tk inp' rest Ht] Hl HG.
  - eapply reads_bind; [by eapply reads_matches_yes|]. eapply reads_bind; [apply reads_ret|]. by rewrite Z.lor_0_r in HG.
  - eapply reads_bind; [apply reads_matches_no; eapply starts_weaken; [|eapply token_starts, Ht]; by intros id <-|].
    eapply reads_bind; [|exact HG]. eapply reads_bind; [by eapply reads_matches_yes|apply reads_ret].
Qed.

Lemma mutability_starts mutable inp rest : mutability mutable inp rest -> starts_in [kToken_Let; kToken_Var] inp.
Proof. intros [tk inp' rest' Ht|tk inp' rest' Ht]; (eapply token_in; [exact Ht|in_list]). Qed.

Lemma visibility_starts public inp rest :
  visibility public inp rest -> starts_in [kToken_Let; kToken_Var] rest -> starts_in [kToken_Public; kToken_Internal; kToken_Let; kToken_Var] inp.
Proof. intros [inp'|tk inp' rest' Ht|tk inp' rest' Ht] H; [by eapply starts_in_weaken; [|exact H]|(eapply token_in; [exact Ht|in_list])..]. Qed.

Lemma modifiers_sum public mutable inp r1 r2 : visibility public inp r1 -> mutability mutable r1 r2 ->
  Z.lor (if negb (public =? 0) then kVarModifier_Public else 0) mutable = public + mutable.
Proof. by intros [] []. Qed.

Lemma exp_declaration_ok public mutable tk tk2 v e inp r1 r2 r3 r4 rest :
  visibility public inp r1 -> mutability mutable r1 r2 -> token kToken_VariableName tk r2 r3 -> var_ref (t_string tk) v ->
  token kToken_Assignment tk2 r3 r4 -> arith_ok e r4 rest ->
  expression_ok (fun isAsync => VarDeclExpression isAsync (public + mutable) v e) inp rest.
Proof.
  intros Hp Hm Ht Hv Ht2 He. pose proof (mutability_starts _ _ _ Hm) as Hs1. pose proof (visibility_starts _ _ _ Hp Hs1) as Hs0.
  split; [by eapply starts_in_weaken; [|exact Hs0]|]. intros Hs.
  assert (reads (fun _ fuel => Parser_VarDeclExpression (A fuel)) (script_at inp) (fun isAsync => VarDeclExpression isAsync (public + mutable) v e) (script_at rest)) as H.
  { eapply (visibility_read (fun public n fuel => _)); [exact Hp|exact Hs1|].
    eapply (mutability_read (fun modifiers n fuel => _)); [exact Hm|by eapply token_lexable|]. rewrite (modifiers_sum _ _ _ _ _ Hp Hm).
    eapply reads_bind.
    - apply (reads_var_reference (script_at r2) tk v r3 (proj1 Ht) (proj2 Ht) Hv). by eapply token_lexable.
    - eapply reads_bind; [eapply reads_match; [exact Ht2|done|by eapply arith_lexable]|].
      eapply (reads_bind (fun _ fuel => A fuel)); [eapply arith_done; [exact He|by apply terminators_close]|]. apply reads_ret. }
  destruct Hs0 as (tk0 & r & Ht0 & Hid). eapply reads_token; [exact Ht0|]. elem_cases Hid; rewrite Hid; decide_ids; exact H.
Qed.

(** ** The parser and the grammar *)

Scheme arith_mut := Minimality for arith Sort Prop
  with command_mut := Minimality for command Sort Prop
  with first_atom_mut := Minimality for first_atom Sort Prop
  with atoms_mut := Minimality for atoms Sort Prop
  with atom_mut := Minimality for atom Sort Prop
  with parenthesized_mut := Minimality for parenthesized Sort Prop
  with compound_mut := Minimality for compound Sort Prop
  with segments_mut := Minimality for segments Sort Prop
  with expr_mut := Minimality for expr Sort Prop
  with block_mut := Minimality for block Sort Prop
  with expressions_mut := Minimality for expressions Sort Prop
  with expression_mut := Minimality for expression Sort Prop.

Lemma expressions_parsed isNested es inp rest : expressions isNested es inp rest -> expressions_ok isNested es inp rest.
Proof.
  revert isNested es inp rest.
  apply (expressions_mut arith_ok command_ok first_atom_ok atoms_ok atom_ok paren_ok compound_ok segments_ok expr_ok block_ok expressions_ok expression_ok); intros;
    eauto using arith_expr_ok, arith_command_ok, arith_pipeline_ok, command_atoms_ok, first_word_ok, first_slash_ok, first_compound_ok,
      atoms_nil_ok, atoms_cons_ok, atom_symbol_ok, atom_word_ok, atom_string_ok, atom_integer_ok, atom_compound_ok, atom_variable_ok, atom_arith_ok,
      paren_intro, compound_intro, segments_end_ok, segments_string_ok, segments_escape_ok, segments_variable_ok, segments_arith_ok,
      expr_up_ok, expr_binary_ok, expr_prefix_ok, expr_literal_ok, expr_integer_ok, expr_string_ok, expr_compound_ok, expr_variable_ok, expr_paren_ok,
      expr_if_ok, expr_if_else_ok, expr_while_ok, block_braces_ok, expressions_nil_ok, expressions_cons_ok,
      exp_null_ok, exp_arith_ok, exp_assignment_ok, exp_declaration_ok, exp_break_ok, exp_break_value_ok, exp_continue_ok.
Qed.

Lemma consume_at_end i tk0 : exists i' tk, Lexer_ConsumeToken (MkLexer [] i tk0 kLexerMode_Default) = Some (MkLexer [] i' tk kLexerMode_Default).
Proof. by eexists _, _. Qed.

Lemma match_eof self rest : at_place (script_at rest) self -> starts (eq kToken_Eof) rest ->
  exists self', Parser_Match kToken_Eof self = Some (inr tt, self') /\ mode self' = kLexerMode_Default.
Proof.
  intros Hp (tk & r & Ht & Hid). destruct (at_place_token _ self tk r Hp Ht) as (E & Hm & Hs & _).
  assert (r = []) as ->.
  { revert Hid. destruct Ht as [id text n sp inp r _ Hlex| | | |]; [|done..]. cbn. intros <-. exfalso.
    remember kToken_Eof as id eqn:Eid. destruct Hlex as [ch r' H|ch ch2 id' r' H|ch ch2 id' r' H| | | | | |id' text' ch inp' r' _ _ _ _ [H|[-> _]]];
      try done; by elem_cases H. }
  destruct self as [src i tk0 m]. cbn in E, Hm, Hs. subst. destruct (consume_at_end i tk) as (i' & tk' & Ec).
  exists (MkLexer [] i' tk' kLexerMode_Default). split; [|done]. unfold Parser_Match, with_token, consume. cbn [t]. by rewrite <- Hid, Z.eqb_refl, Ec.
Qed.

Lemma script_reads es text : script es text -> forall self acc, mode self = kLexerMode_Default ->
  exists N self', mode self' = kLexerMode_Default /\ forall fuel, (N <= fuel)%nat -> Parser_Parse fuel self text acc = Some (0, acc ++ es, self').
Proof.
  intros (rest & [Hl He]%expressions_parsed & Heof) self acc Hm.
  destruct (Hl (starts_lexable _ _ Heof) eq_refl) as (tk & r & Ht & _).
  assert (reads_from text 0 (32 :: text)) as Hr by by right.
  destruct (consume_tok _ _ _ _ _ (t self) Ht Hr) as (i & Ec & _).
  assert (at_place (script_at (32 :: text)) (MkLexer r i tk kLexerMode_Default)) as Hp by by exists text, 0, (t self).
  destruct (He Heof acc _ Hp) as (s1 & N & H1 & Hq). destruct (match_eof s1 rest Hq Heof) as (s2 & E2 & Hm2).
  destruct s2 as [src2 i2 tk2 m2]. cbn in Hm2. subst. destruct (consume_at_end 0 tk2) as (i3 & tk3 & E3).
  exists N, (MkLexer [] i3 tk3 kLexerMode_Default). split; [done|]. intros fuel Hf. unfold Parser_Parse, Lexer_SetInput, Parser_Script.
  rewrite Hm, Ec. cbn [mbind option_bind]. specialize (H1 fuel fuel Hf Hf). unfold expr_list in H1.
  destruct (Parser_ExpressionList _ _ _ _ _ _ _) as [[[err es'] s1']|]; [|done]. cbn [mbind option_bind] in H1 |- *.
  destruct (err =? 0) eqn:Eerr; [|done]. injection H1 as -> ->. rewrite E2. cbn [mbind option_bind t mode]. by rewrite E3.
Qed.


(** The grammar is not ambiguous: a text has one syntax tree. *)
Theorem grammar_unambiguous text es1 es2 : script es1 text -> script es2 text -> es1 = es2.
Proof.
  intros H1 H2. destruct (script_reads _ _ H1 Lexer_Init [] eq_refl) as (N1 & s1 & _ & E1).
  destruct (script_reads _ _ H2 Lexer_Init [] eq_refl) as (N2 & s2 & _ & E2).
  specialize (E1 (Nat.max N1 N2) ltac:(lia)). specialize (E2 (Nat.max N1 N2) ltac:(lia)). rewrite E1 in E2. by injection E2.
Qed.

(** ** A script *)

(** [$x = 1 + 2 * $y], a new line, and [ls -l | wc &]. *)
Definition sample_text : list Z :=
  [36; 120; 32; 61; 32; 49; 32; 43; 32; 50; 32; 42; 32; 36; 121; 10; 108; 115; 32; 45; 108; 32; 124; 32; 119; 99; 32; 38].
Definition sample_sum : Arithmetic :=
  BinaryArithmetic true kArithmetic_Addition (LiteralArithmetic true (kValue_Integer 1))
    (BinaryArithmetic true kArithmetic_Multiplication (LiteralArithmetic true (kValue_Integer 2)) (VarRefArithmetic true (MkVarRef [] [121]))).
Definition sample_pipeline : Arithmetic :=
  BinaryArithmetic true kArithmetic_Pipeline
    (CommandArithmetic [StringAtom kAtom_Identifier [108; 115] false; StringAtom kAtom_Identifier [45] true; StringAtom kAtom_Identifier [108] false])
    (CommandArithmetic [StringAtom kAtom_Identifier [119; 99] true]).
Definition sample_script : list Expression :=
  [AssignmentExpression false (VarRefArithmetic true (MkVarRef [] [120])) sample_sum; ArithmeticExpression true sample_pipeline].

(** Tokens behind the blanks [sp]. *)
Ltac behind sp := split; [eapply (tok_lexeme _ _ _ sp); [in_list|]|done].
Ltac find_entry := repeat (apply elem_of_cons; first [left; reflexivity | right]).
Ltac symbol sp := behind sp; first [apply lex_single; in_list | eapply lex_half; [find_entry|done]].
Ltac variable_name sp name := behind sp; apply lex_variable, (var_plain name); [done|in_list|done].
Ltac integer sp ds := behind sp; apply (lex_integer ds); [done|in_list|done].
Ltac spell := repeat (apply spell_plain; [reflexivity|done|]); apply spell_end; by intros _.
Ltac word sp := behind sp; eapply lex_word; [spell|done|done|done|]; right; split; [done|];
  refine (bool_decide_eq_false_1 _ _); vm_compute; reflexivity.
Notation tk id text n := (MkToken id text n true false).

Lemma sample_sum_derivation : arith sample_sum (drop 4 sample_text) (drop 15 sample_text).
Proof.
  apply arith_expr. do 3 (apply expr_up; [lia|]). apply (expr_binary 3 kToken_Plus _ (tk kToken_Plus [] 0) _ _ _ (drop 6 sample_text) (drop 8 sample_text)); [find_entry| |symbol [32]|].
  - do 2 (apply expr_up; [lia|]). apply (expr_integer (tk kToken_Integer [] 1)). integer [32] [49].
  - apply (expr_binary 4 kToken_Asterisk _ (tk kToken_Asterisk [] 0) _ _ _ (drop 10 sample_text) (drop 12 sample_text)); [find_entry| |symbol [32]|].
    + apply expr_up; [lia|]. apply (expr_integer (tk kToken_Integer [] 2)). integer [32] [50].
    + apply (expr_variable (tk kToken_VariableName [121] 0)); [variable_name [32] [121]|split; [in_list|by left]].
Qed.

Lemma sample_word : token kToken_Identifier (MkToken kToken_Identifier [108; 115] 0 false false) (drop 16 sample_text) (drop 18 sample_text).
Proof. word (@nil Z). Qed.

Lemma sample_pipeline_derivation : arith sample_pipeline (drop 16 sample_text) [32; 38].
Proof.
  apply (arith_pipeline (tk kToken_Bar [] 0) _ _ _ (drop 21 sample_text) (drop 23 sample_text)); [apply arith_command|symbol [32]|].
  - eapply command_atoms; [by apply (first_word kToken_Identifier _ (MkToken kToken_Identifier [108; 115] 0 false false)); [find_entry|apply sample_word]|].
    eapply atoms_cons; [apply (atom_symbol kToken_Minus _ (tk kToken_Minus [] 0)); [find_entry|symbol [32]]|].
    eapply atoms_cons; [|apply atoms_nil].
    apply (atom_word kToken_Identifier (MkToken kToken_Identifier [108] 0 false false)); [in_list|word (@nil Z)].
  - eapply command_atoms; [|apply atoms_nil]. apply (first_word kToken_Identifier _ (tk kToken_Identifier [119; 99] 0)); [find_entry|word [32]].
Qed.

Lemma sample_derivation : script sample_script sample_text.
Proof.
  assert (tok (MkToken kToken_Eof [] 0 false false) [] []) as Heof by by apply (tok_eof []).
  exists []. split; [|by exists (MkToken kToken_Eof [] 0 false false), []].
  apply (expressions_cons _ (fun isAsync => AssignmentExpression isAsync (VarRefArithmetic true (MkVarRef [] [120])) sample_sum) false _ _
    (drop 15 sample_text) (drop 16 sample_text)).
  - apply (exp_assignment (tk kToken_VariableName [120] 0) (tk kToken_Assignment [] 0) _ _ _ (drop 2 sample_text) (drop 4 sample_text));
      [variable_name [32] [120]|split; [in_list|by left]|symbol [32]|apply sample_sum_derivation].
  - apply (term_token _ kToken_Newline (tk kToken_Newline [] 0) _ (drop 16 sample_text)); [in_list|by split; [apply tok_newline|]|].
    apply newlines_none. exists (MkToken kToken_Identifier [108; 115] 0 false false), (drop 18 sample_text). split; [apply sample_word|done].
  - apply (expressions_cons _ (fun isAsync => ArithmeticExpression isAsync sample_pipeline) true _ _ [32; 38] []);
      [apply exp_arith, sample_pipeline_derivation| |apply expressions_nil].
    apply (term_token _ kToken_Ampersand (tk kToken_Ampersand [] 0) _ []); [in_list|symbol [32]|].
    apply newlines_none. by exists (MkToken kToken_Eof [] 0 false false), [].
Qed.


(** ** Where the lexer and the parser leave the language *)

(** A blank in front of the end of a line takes the end with it: [cd] with a blank behind
    it and [ls] on the next line are one command. *)
Lemma newline_swallowed : exists self,
  Parser_Parse 20 Lexer_Init [99; 100; 32; 10; 108; 115] [] =
    Some (0, [ArithmeticExpression false (CommandArithmetic [StringAtom kAtom_Identifier [99; 100] true; StringAtom kAtom_Identifier [108; 115] true])], self).
Proof. eexists. vm_compute. reflexivity. Qed.

(** A dollar sign without a name in a string: the lexer returns the empty segment and does
    not move, and the parser does not come back. *)
Definition at_dollar (rest : list Z) (i : Z) : Lexer :=
  MkLexer (36 :: rest) i (MkToken kToken_StringSegment [] 0 false false) kLexerMode_DoubleQuote.

Lemma dollar_stays rest i : Lexer_TryScanVariableName (36 :: rest) = None -> Lexer_ConsumeToken (at_dollar rest i) = Some (at_dollar rest i).
Proof.
  intros H. unfold Lexer_ConsumeToken, Lexer_ConsumeToken_StringMode. cbn -[Lexer_TryScanVariableName]. rewrite H.
  unfold token_at, at_dollar. cbn. by rewrite Z.sub_diag, Z.add_0_r.
Qed.

Lemma dollar_loops rest i arith fuel str :
  Lexer_TryScanVariableName (36 :: rest) = None -> compound_loop arith fuel kToken_DoubleQuote str (at_dollar rest i) = None.
Proof.
  intros H. revert str. induction fuel as [|fuel IH]; intros str; [done|]. cbn [compound_loop]. unfold with_token.
  change (t_id (t (at_dollar rest i)) =? kToken_StringSegment) with true. cbn iota. unfold pbind, consume. rewrite dollar_stays by done.
  cbn [mbind option_bind]. apply IH.
Qed.

(** The string of a dollar sign, behind its opening mark. *)
Lemma dollar_hangs fuel arith :
  Parser_CompoundString fuel arith false (MkLexer [36; 34] 1 (MkToken kToken_DoubleQuote [] 0 true false) kLexerMode_Default) = None.
Proof.
  pose (self := MkLexer [36; 34] 1 (MkToken kToken_DoubleQuote [] 0 true false) kLexerMode_Default).
  assert ((Parser_MatchAndSwitchMode kToken_DoubleQuote kLexerMode_DoubleQuote ;;; compound_loop arith fuel kToken_DoubleQuote []) self = None) as E.
  { exact (dollar_loops [34] 1 arith fuel [] eq_refl). }
  unfold Parser_CompoundString, pbind at 1, on_error. cbn iota. fold self. by rewrite E.
Qed.

(** A string without its closing quote is a value; in a command it is an error. *)
Lemma open_quote_accepted :
  (exists self, Parser_Parse 20 Lexer_Init [49; 43; 39; 97] [] =
    Some (0, [ArithmeticExpression false (BinaryArithmetic false kArithmetic_Addition (LiteralArithmetic true (kValue_Integer 1))
      (LiteralArithmetic false (kValue_String [97])))], self)) /\
  (exists self, Parser_Parse 20 Lexer_Init [108; 115; 32; 39; 97] [] = Some (ESYNTAX, [], self)).
Proof. split; eexists; vm_compute; reflexivity. Qed.

(** The letters of a hexadecimal escape count from 0: [\xff] is the character 0x55. *)
Lemma hex_escape_letters : Lexer_ScanHexByteEscapeSequence [102; 102] = ([0x55], []).
Proof. reflexivity. Qed.

(** A carriage return looks one character too far: it is read over the end of the text,
    and it takes the character between it and a newline with it. *)
Lemma carriage_return_overread self : mode self = kLexerMode_Default -> Lexer_SetInput [13] self = None.
Proof. unfold Lexer_SetInput. by intros ->. Qed.

Lemma carriage_return_swallows : exists self,
  Parser_Parse 20 Lexer_Init [13; 120; 10; 108; 115] [] =
    Some (0, [NullExpression false; ArithmeticExpression false (CommandArithmetic [StringAtom kAtom_Identifier [108; 115] false])], self).
Proof. eexists. vm_compute. reflexivity. Qed.
